(* ===== verification/_CoqProject ===== *)
-Q . S2P
Prelude.v
Bytes.v
Bsd.v
NetPools.v
StlMap.v
RefCount.v
Reorder.v
TimerFactory.v
ConfigStream.v
MsgUser.v
Reactor.v
Transport.v
RtpPacket.v
RtpSession.v
RtpBucket.v
MsgServer.v
MsgRegistry.v
MsgRouting.v
MsgClient.v
MsgC2s.v
MsgC2sRegistry.v
MsgSystem.v
MsgUplink.v
MsgAgreement.v
Handshaker.v
HandshakerRuns.v
Acceptor.v
Connector.v
ServiceHandshake.v
SgiMemory.v
SgiAlloc.v
SgiInvariant.v
SgiPool.v
SgiRefinement.v
SgiTheorems.v
Md.v
MdProcess.v
Hash.v
SslUtil.v
Base64.v
RtpLogin.v
RtpService.v
Login.v
BucketInterface.v
RtpWrapper.v
ServicePipe.v
ServiceHub.v
ServiceHost.v
ServiceSystem.v
