(* ===== verification/Prelude.v ===== *)
(** * A verification of LibProNet

    ** The program

    LibProNet is a C++ library for servers and clients that exchange messages and RTP
    packets, with a message server and its concentrator built on it.  Its layers, from the
    bottom:

    - [pro_shared]: the memory pools that everything above allocates from.
    - [pro_util]: reference counts, timers, the reordering buffer, configuration texts,
      byte order, digests.  The digests come from the copy of mbedtls in the repository.
    - [pro_net]: a reactor waits for events of sockets and calls the transports that own
      them; a transport receives into a pool, sends from a pool, and calls its observer.
    - [pro_rtp]: a session is the observer of a transport; it sends RTP packets and cuts the
      byte stream back into packets.  Buckets hold what cannot be sent yet, the reordering
      buffer what came too early.  The message server is the observer of sessions.

    Everything is shared between threads: objects are counted references, and each class
    has a lock that its methods take; observers are called without the lock.

    ** How it is modelled

    Each class is a file or a module with a record for its members and one definition for
    each of its methods, in the order of the code: guards become early returns, the
    [assert]s (off in a release) are not taken for granted.  Integers are [Z]; where the
    code computes in a type of [w] bits the definition wraps ([wrap w], or [u8] to [u64]).
    Memory is a list of bytes ([Bytes]), a string the list of its bytes, a pointer into
    either an offset or the rest of the list.  [std::map] and [std::set] are strictly sorted
    lists ([StlMap]).  Shared objects are addresses in a store, so that aliasing and
    deletion are visible: a counted object is an address with its count ([RefCount]), a
    context of the message server an address in a heap.  The result [None] is undefined
    behaviour: a deleted object, [front()] of an empty queue, a division by zero, a read
    outside of a block; a theorem that a definition gives [Some] says that it cannot happen.

    What the code does not define is an argument: the clock, random numbers, the kernel's
    answers, whether an allocation succeeds where the code checks it, and what observers
    do.  Where a component needs more of its surroundings than values, the surroundings are
    a class with its laws (the interest list of epoll, [EpollKernel]; sockets, reactor and
    counts around a transport, [NetWorld]; the pools as observers see them, [IProRecvPool]),
    and each class has an instance, so the laws can be met.

    A method that holds the lock all the way is one step.  A method that calls out is cut
    there: the timer thread collects under the lock and calls back without it
    ([TimerFactory]), the reactor dispatches to handlers that change the reactor
    ([Reactor]), an upcall of a transport may be any other method of it ([Transport]), and
    the message server's task waits for the observer while others send and shut down
    ([MsgServer]), the c2s holds its upcall lock until its calls are made ([MsgC2s]).  The
    theorems quantify over all the orders of these steps.

    The platform is 64-bit little-endian Linux: [unsigned long] has 64 bits, [char] is
    signed.  Where a recursion is not structural it has fuel; each comes with a theorem or
    lemma that the fuel its callers pass is enough ([parseLines]: one more than the bytes of
    the text; [recvLoop]: the bytes of the pool, or its packets; the decimal digits: 20, for 64 bits; the memory
    allocator's search: 60 rounds for 60 sizes, and one call of [_S_chunk_alloc] inside
    another).

    ** The files

    - [Prelude], [Bytes], [StlMap]: integers, blocks of memory, ordered containers, with
      their automation.  [Bsd]: byte order ([pro_bsd_wrapper.cpp]).
    - [SgiMemory], [SgiAlloc], [SgiInvariant] ([sgi_pool/stl_alloc.h]), [SgiPool],
      [SgiRefinement], [SgiTheorems] ([pro_shared.cpp], [pro_memory_pool.cpp]): memory byte by
      byte, free lists that are linked through it, and pools that refine a heap of separate
      arrays, losing nothing; and the reallocation that overruns its buffer.
    - [RefCount] ([pro_ref_count.cpp]) and [NetPools] ([pro_recv_pool.h], [pro_send_pool.h]):
      the pools refine a byte stream and a queue of messages.
    - [Reorder] ([pro_reorder.cpp]): what goes in comes out in strictly increasing extended
      order, at the time that the policy says, and nothing stays for ever.
    - [TimerFactory] ([pro_timer_factory.cpp]): the set and the map of timers agree in every
      interleaving of callers, thread and [Stop]; each expiry is called once and in order; a
      cancelled timer stays silent; heartbeats are spread over the slots.
    - [ConfigStream] ([pro_config_stream.cpp], [pro_config_file.cpp]): printing and parsing
      are inverse, through files as well; parsing accepts any bytes.
    - [Reactor] ([pro_handler_mgr.cpp], [pro_epoll_reactor.cpp], [pro_notify_pipe.cpp]): the
      interest list follows the map of handlers; a round calls exactly the handlers that
      wait for what happened, and none that is deleted.
    - [Transport] ([pro_tcp_transport.cpp]): in any sequence of events the socket gets the
      messages' bytes in order, [OnSend] and [OnClose] come as often as they should, and the
      references balance.
    - [Handshaker] ([pro_tcp_handshaker.cpp]): a new socket exchanges a fixed number of bytes
      and goes back to its owner once, with exactly the bytes received.
    - [HandshakerRuns], [Acceptor], [Connector] ([pro_acceptor.cpp], [pro_connector.cpp]): no
      socket is lost or used twice, and a connector answers once; [ServiceHandshake]: both
      ends of a connection agree on the service and the nonce.
    - [ServicePipe], [ServiceHub], [ServiceHost] ([pro_service_pipe.cpp],
      [pro_service_hub.cpp], [pro_service_host.cpp]): the hub that accepts connections and
      passes them to the process of their service: packets survive the pipe, the registry of
      services is exact, no socket, pipe or connector is lost or used twice.  [ServiceSystem]:
      a hub with its hosts and the kernel's table of descriptors between them; every
      connection reaches the host of its service, or is closed, once, as long as no socket
      expires on its way, and what happens when one does.
    - [RtpPacket] ([rtp_packet.cpp]) and [RtpSession] ([rtp_session_base.cpp] and the two TCP
      clients): the fields of a packet; what one session sends the other receives, however
      the stream is cut; hostile streams only close the session.
    - [RtpBucket] ([rtp_bucket.cpp]): order, byte counts and bounds of the buckets; the video
      bucket keeps frames whole and never sends one whose reference frame is missing.
    - [BucketInterface], [RtpWrapper] ([IRtpBucket] of [rtp_foundation.h],
      [rtp_session_wrapper.cpp]): what a bucket promises, kept by all three; a session behind
      its bucket, with packets in order and counted exactly, each run of refusals told once, the
      pace of the send timer, and what a wrapper never gives back once its session has closed.
    - [RtpLogin] ([rtp_session_tcpclient_ex.cpp], [rtp_session_tcpserver_ex.cpp] and their SSL
      variants), [RtpService] ([rtp_service.cpp]): both ends of a session up to its transport
      and the service between them; no socket, context or object is lost or freed twice by
      them, and the observer of a client is told at most once that it is up and that it is
      closed.  [Login]: a login from end to end, and what a failed session frees twice.
    - [MsgUser], [MsgServer], [MsgRegistry], [MsgRouting] ([rtp_msg_server.cpp] and the user
      ids of [rtp_foundation.cpp]): users, the server's operations, the invariant of its
      registry in every reachable state with what its observer is told, and the delivery of
      messages as their receivers read them.
    - [MsgClient] ([rtp_msg_client.cpp]), [MsgC2s], [MsgC2sRegistry] ([rtp_msg_c2s.cpp]): the
      client's end of a session with the message server; the concentrator, whose two maps
      are inverse in every reachable state, and which gives back each socket, session,
      timer and client once.
    - [MsgSystem], [MsgUplink], [MsgAgreement]: a message server and a c2s with its client,
      joined by their uplink; whomever the server holds behind the c2s the c2s has, or a
      message is on its way that settles it.
    - [Md], [MdProcess], [Hash], [SslUtil], [Base64] ([md*.c], [sha*.c], [ripemd160.c],
      [md_wrap.c], [base64.c] of mbedtls, [pro_ssl_util.cpp], the password check of
      [rtp_framework.cpp]): every digest equals its standard for any way to feed it, HMAC
      is that of RFC 2104, the password hash is what both ends compute, Base64 round trips
      and stays within its buffers.

    ** How the parts interact

    [Transport] receives through [NetPools] and is called by [Reactor] as one of its
    handlers; [RtpSession] reads the pool through [IProRecvPool], parses with [RtpPacket]
    and sends through its transport; [RtpBucket] and [Reorder] keep packets alive through
    [RefCount]; [MsgServer] parses the texts of a c2s with [ConfigStream] and its users with
    [MsgUser], and bounds its packets as [RtpPacket] does; [MsgSystem] composes the steps of
    [MsgServer], [MsgC2s] and [MsgClient]; [Acceptor] and [Connector] own the handshakers of
    [Handshaker], and [ServiceHandshake] puts one at each end of a connection; [ServicePipe]
    reads any [IProRecvPool], and [ServiceSystem] joins the hub to its hosts by pipes; [Hash] runs [Md] over
    [MdProcess]; [RtpWrapper] runs over any
    [IRtpBucket] and over [Reorder]; [Login] composes the client, the service and the server's session of
    [RtpLogin] and [RtpService] with the password check of [SslUtil] and the end of
    [MsgServer]'s accept.

    ** Not modelled

    The other models take allocation as an argument where the code checks it, and do not
    use the pools of [SgiPool].  SQLite and the rest of mbedtls (TLS, certificates, ciphers) are third-party code.
    Sockets, threads, the clock and files are the operating system's.  The select reactor is
    the Windows counterpart of the epoll reactor.  Flow statistics and the shaper compute
    floating-point averages that decide nothing modelled here.  The programs' [main]
    functions, the message server's database and the tests use the library.  The UDP sessions
    pass on datagrams. *)

From stdpp Require Export prelude gmap list.
From Stdlib Require Export ZArith Lia.

#[global] Open Scope Z_scope.

(** ** Machine integers

    A [w]-bit unsigned value is a [Z] in [0, 2^w); [wrap w] is the conversion
    the C++ code performs on assignment to an unsigned type of that width. *)

Definition wrap (w x : Z) : Z := x mod 2 ^ w.

Declare Scope pronet_scope.
Delimit Scope pronet_scope with pn.
Notation "'u8' x" := (wrap 8 x) (at level 10, x at level 9) : pronet_scope.
Notation "'u16' x" := (wrap 16 x) (at level 10, x at level 9) : pronet_scope.
Notation "'u32' x" := (wrap 32 x) (at level 10, x at level 9) : pronet_scope.
Notation "'u64' x" := (wrap 64 x) (at level 10, x at level 9) : pronet_scope.
#[global] Open Scope pronet_scope.

Lemma wrap_range w x : 0 <= w -> 0 <= wrap w x < 2 ^ w.
Proof. intros Hw. apply Z.mod_pos_bound. lia. Qed.

Lemma wrap_small w x : 0 <= x < 2 ^ w -> wrap w x = x.
Proof. intros. by apply Z.mod_small. Qed.

Lemma wrap_wrap w x : wrap w (wrap w x) = wrap w x.
Proof. apply Zmod_mod. Qed.

(** Solves linear goals that mention [wrap], [/] and [mod] by constants. *)
Ltac solve_wrap :=
  unfold wrap in *;
  repeat match goal with
    | H : context [2 ^ ?n] |- _ =>
        let v := eval vm_compute in (2 ^ n) in progress change (2 ^ n) with v in H
    | |- context [2 ^ ?n] =>
        let v := eval vm_compute in (2 ^ n) in progress change (2 ^ n) with v
    end;
  Z.to_euclidean_division_equations; lia.

(** Joining a high part and a low part with [<<] and [|]. *)
Lemma land_shiftl_low a n s :
  0 <= n -> 0 <= s < 2 ^ n -> Z.land (Z.shiftl a n) s = 0.
Proof.
  intros Hn Hs. apply Z.bits_inj'. intros i Hi.
  rewrite Z.land_spec, Z.shiftl_spec, Z.bits_0 by done.
  destruct (decide (i < n)).
  - by rewrite Z.testbit_neg_r by lia.
  - rewrite <- (Z.mod_small s (2 ^ n)) by done.
    rewrite Z.mod_pow2_bits_high by lia. by rewrite andb_false_r.
Qed.

Lemma lor_shiftl_add a n s :
  0 <= n -> 0 <= s < 2 ^ n -> Z.lor (Z.shiftl a n) s = a * 2 ^ n + s.
Proof.
  intros Hn Hs. rewrite <- Z.shiftl_mul_pow2 by done.
  rewrite <- Z.lxor_lor, <- Z.add_nocarry_lxor; [done|..]; by apply land_shiftl_low.
Qed.
