(* ===== verification/Bytes.v ===== *)
(** * Blocks of memory as lists of bytes

    A block is a [list Z] whose elements are bytes; offsets and sizes are
    [size_t] values, so they are [Z].  [zsub] is what [memcpy] reads from a block
    and [zput] what it leaves behind; [le_bytes] and [be_bytes] are the two byte
    orders, [of_le] and [of_be] read them back. *)

From S2P Require Import Prelude.

Definition zlen {A} (l : list A) : Z := Z.of_nat (length l).
Definition ztake {A} (n : Z) (l : list A) : list A := take (Z.to_nat n) l.
Definition zdrop {A} (n : Z) (l : list A) : list A := drop (Z.to_nat n) l.

(** The [n] elements from offset [off]. *)
Definition zsub {A} (off n : Z) (l : list A) : list A := ztake n (zdrop off l).

(** [l] after [bs] was copied over it at offset [off]. *)
Definition zput {A} (off : Z) (bs l : list A) : list A :=
  ztake off l ++ bs ++ zdrop (off + zlen bs) l.

Create Rewrite HintDb zlist.

Section zlist.
Context {A : Type}.
Implicit Types l bs : list A.

Lemma zlen_nonneg l : 0 <= zlen l.
Proof. unfold zlen. lia. Qed.

Lemma zlen_nil : zlen (@nil A) = 0.
Proof. done. Qed.

Lemma zlen_cons (x : A) l : zlen (x :: l) = 1 + zlen l.
Proof. unfold zlen. cbn [length]. lia. Qed.

Lemma zlen_app l bs : zlen (l ++ bs) = zlen l + zlen bs.
Proof. unfold zlen. rewrite length_app. lia. Qed.

Lemma zlen_ztake n l : 0 <= n <= zlen l -> zlen (ztake n l) = n.
Proof. unfold zlen, ztake. rewrite length_take. lia. Qed.

Lemma zlen_zdrop n l : 0 <= n <= zlen l -> zlen (zdrop n l) = zlen l - n.
Proof. unfold zlen, zdrop. rewrite length_drop. lia. Qed.

Lemma zlen_zsub off n l : 0 <= off -> 0 <= n -> off + n <= zlen l -> zlen (zsub off n l) = n.
Proof. intros. unfold zsub. rewrite zlen_ztake; [done|]. rewrite zlen_zdrop; lia. Qed.

Lemma zlen_zput off bs l :
  0 <= off -> off + zlen bs <= zlen l -> zlen (zput off bs l) = zlen l.
Proof.
  intros H1 H2. pose proof (zlen_nonneg bs). unfold zput.
  rewrite !zlen_app, zlen_ztake, zlen_zdrop; lia.
Qed.

Lemma zlen_zero l : zlen l = 0 <-> l = [].
Proof. unfold zlen. destruct l; cbn; split; intros; try done; lia. Qed.

Lemma lookup_zput off bs l (i : nat) :
  0 <= off -> off + zlen bs <= zlen l ->
  zput off bs l !! i =
    if decide (off <= Z.of_nat i < off + zlen bs)
    then bs !! (i - Z.to_nat off)%nat else l !! i.
Proof.
  unfold zput, zlen, ztake, zdrop. intros H1 H2.
  destruct (decide (Z.of_nat i < off)).
  { rewrite decide_False by lia.
    rewrite lookup_app_l by (rewrite length_take; lia).
    by rewrite lookup_take_lt by lia. }
  rewrite lookup_app_r by (rewrite length_take; lia). rewrite length_take.
  replace (Z.to_nat off `min` length l)%nat with (Z.to_nat off) by lia.
  destruct (decide _).
  - by rewrite lookup_app_l by lia.
  - rewrite lookup_app_r by lia. rewrite lookup_drop. f_equal. lia.
Qed.

Lemma lookup_zsub off n l (i : nat) :
  0 <= off -> Z.of_nat i < n -> zsub off n l !! i = l !! (Z.to_nat off + i)%nat.
Proof.
  intros. unfold zsub, ztake, zdrop.
  rewrite lookup_take_lt by lia. by rewrite lookup_drop.
Qed.

Lemma zsub_all l : zsub 0 (zlen l) l = l.
Proof. unfold zsub, ztake, zdrop, zlen. cbn. apply firstn_all2. lia. Qed.

Lemma zsub_app_l off n l bs :
  0 <= off -> 0 <= n -> off + n <= zlen l -> zsub off n (l ++ bs) = zsub off n l.
Proof.
  unfold zsub, ztake, zdrop, zlen. intros.
  rewrite drop_app_le by lia. rewrite take_app_le; [done|]. rewrite length_drop. lia.
Qed.

Lemma zsub_app_r off n l bs :
  zlen l <= off -> zsub off n (l ++ bs) = zsub (off - zlen l) n bs.
Proof.
  unfold zsub, ztake, zdrop, zlen. intros.
  rewrite drop_app_ge by lia. do 2 f_equal. lia.
Qed.

Lemma zsub_zput_same off bs l :
  0 <= off -> off + zlen bs <= zlen l -> zsub off (zlen bs) (zput off bs l) = bs.
Proof.
  intros H1 H2. unfold zput. pose proof (zlen_nonneg bs).
  rewrite zsub_app_r; rewrite zlen_ztake by lia; [|lia].
  rewrite Z.sub_diag, zsub_app_l by lia. apply zsub_all.
Qed.

Lemma zsub_zput_other off bs l o n :
  0 <= off -> off + zlen bs <= zlen l -> 0 <= o -> 0 <= n ->
  o + n <= off \/ off + zlen bs <= o ->
  zsub o n (zput off bs l) = zsub o n l.
Proof.
  intros H1 H2 H3 H4 Hd. apply list_eq. intros i.
  destruct (decide (Z.of_nat i < n)) as [Hi|Hi].
  - rewrite !lookup_zsub by done. rewrite lookup_zput by done. by rewrite decide_False by lia.
  - unfold zsub, ztake. rewrite !lookup_take_ge by lia. done.
Qed.

Lemma zdrop_zdrop n m l : 0 <= n -> 0 <= m -> zdrop n (zdrop m l) = zdrop (m + n) l.
Proof. intros. unfold zdrop. rewrite drop_drop. f_equal. lia. Qed.

Lemma ztake_zdrop n l : ztake n l ++ zdrop n l = l.
Proof. apply take_drop. Qed.

Lemma zdrop_app_exact l bs : zdrop (zlen l) (l ++ bs) = bs.
Proof. unfold zdrop, zlen. rewrite Nat2Z.id. apply drop_app_length. Qed.

Lemma ztake_app_exact l bs : ztake (zlen l) (l ++ bs) = l.
Proof. unfold ztake, zlen. rewrite Nat2Z.id. apply take_app_length. Qed.

Lemma zdrop_0 l : zdrop 0 l = l.
Proof. done. Qed.

Lemma zdrop_all n l : zlen l <= n -> zdrop n l = [].
Proof. intros. unfold zdrop, zlen in *. apply drop_ge. lia. Qed.

Lemma ztake_all n l : zlen l <= n -> ztake n l = l.
Proof. intros. unfold ztake, zlen in *. apply take_ge. lia. Qed.
End zlist.

#[export] Hint Rewrite @zlen_app @zlen_nil @zlen_cons : zlist.

(** ** Byte orders *)

Definition is_byte (b : Z) : Prop := 0 <= b < 256.
Definition is_bytes (l : list Z) : Prop := Forall is_byte l.

Fixpoint le_bytes (n : nat) (x : Z) : list Z :=
  match n with
  | O => []
  | S n => x mod 256 :: le_bytes n (x / 256)
  end.

Fixpoint of_le (l : list Z) : Z :=
  match l with
  | [] => 0
  | b :: l => b + 256 * of_le l
  end.

Definition be_bytes (n : nat) (x : Z) : list Z := reverse (le_bytes n x).
Definition of_be (l : list Z) : Z := of_le (reverse l).

Lemma length_le_bytes n x : length (le_bytes n x) = n.
Proof. revert x; induction n; intros; cbn; auto. Qed.

Lemma zlen_le_bytes n x : zlen (le_bytes n x) = Z.of_nat n.
Proof. unfold zlen. by rewrite length_le_bytes. Qed.

Lemma zlen_be_bytes n x : zlen (be_bytes n x) = Z.of_nat n.
Proof. unfold zlen, be_bytes. by rewrite length_reverse, length_le_bytes. Qed.

Lemma le_bytes_is_bytes n x : is_bytes (le_bytes n x).
Proof.
  revert x; induction n; intros x; constructor; [|apply IHn].
  unfold is_byte. apply Z.mod_pos_bound. lia.
Qed.

Lemma of_le_le_bytes n x : of_le (le_bytes n x) = x mod 2 ^ (8 * Z.of_nat n).
Proof.
  revert x. induction n as [|n IH]; intros x.
  - cbn. by rewrite Z.mod_1_r.
  - cbn [le_bytes of_le]. rewrite IH.
    replace (8 * Z.of_nat (S n)) with (8 + 8 * Z.of_nat n) by lia.
    rewrite Z.pow_add_r by lia. change (2 ^ 8) with 256.
    rewrite Z.rem_mul_r by (try lia; apply Z.pow_nonzero; lia). lia.
Qed.

Lemma of_be_be_bytes n x : of_be (be_bytes n x) = x mod 2 ^ (8 * Z.of_nat n).
Proof. unfold of_be, be_bytes. by rewrite reverse_involutive, of_le_le_bytes. Qed.

Lemma of_le_range l : is_bytes l -> 0 <= of_le l < 2 ^ (8 * zlen l).
Proof.
  induction 1 as [|b l Hb Hl IH].
  - unfold zlen. cbn. lia.
  - cbn [of_le]. rewrite zlen_cons. unfold is_byte in Hb.
    replace (8 * (1 + zlen l)) with (8 + 8 * zlen l) by lia.
    rewrite Z.pow_add_r by (pose proof (zlen_nonneg l); lia).
    change (2 ^ 8) with 256. lia.
Qed.

Lemma le_bytes_of_le l n : is_bytes l -> length l = n -> le_bytes n (of_le l) = l.
Proof.
  intros Hl <-. induction Hl as [|b l Hb Hl IH]; [done|].
  cbn [length of_le le_bytes]. unfold is_byte in Hb.
  assert ((b + 256 * of_le l) / 256 = of_le l) as -> by
    (rewrite Z.mul_comm, Z.div_add, Z.div_small; lia).
  rewrite IH. f_equal. rewrite Z.mul_comm, Z.mod_add, Z.mod_small; lia.
Qed.

(** ** Little-endian loads and stores *)

Definition load (n : nat) (off : Z) (l : list Z) : Z := of_le (zsub off (Z.of_nat n) l).
Definition store (n : nat) (off v : Z) (l : list Z) : list Z := zput off (le_bytes n v) l.

Lemma zlen_store n off v l :
  0 <= off -> off + Z.of_nat n <= zlen l -> zlen (store n off v l) = zlen l.
Proof. intros. unfold store. apply zlen_zput; rewrite ?zlen_le_bytes; done. Qed.

Lemma load_store_same n off v l :
  0 <= off -> off + Z.of_nat n <= zlen l -> load n off (store n off v l) = v mod 2 ^ (8 * Z.of_nat n).
Proof.
  intros H1 H2. unfold load, store. rewrite <- of_le_le_bytes. f_equal.
  rewrite <- (zlen_le_bytes n v) at 1. apply zsub_zput_same; rewrite ?zlen_le_bytes; done.
Qed.

Lemma load_store_other n m off o v l :
  0 <= off -> off + Z.of_nat n <= zlen l -> 0 <= o ->
  o + Z.of_nat m <= off \/ off + Z.of_nat n <= o ->
  load m o (store n off v l) = load m o l.
Proof.
  intros. unfold load, store. f_equal. apply zsub_zput_other; rewrite ?zlen_le_bytes; lia.
Qed.

Lemma zsub_store_other n off v l o k :
  0 <= off -> off + Z.of_nat n <= zlen l -> 0 <= o -> 0 <= k ->
  o + k <= off \/ off + Z.of_nat n <= o ->
  zsub o k (store n off v l) = zsub o k l.
Proof. intros. unfold store. apply zsub_zput_other; rewrite ?zlen_le_bytes; lia. Qed.

Lemma is_bytes_app l1 l2 : is_bytes (l1 ++ l2) <-> is_bytes l1 /\ is_bytes l2.
Proof. apply Forall_app. Qed.

Lemma is_bytes_zsub o n l : is_bytes l -> is_bytes (zsub o n l).
Proof. intros. unfold zsub, ztake, zdrop. by apply Forall_take, Forall_drop. Qed.

Lemma is_bytes_zput o bs l : is_bytes bs -> is_bytes l -> is_bytes (zput o bs l).
Proof.
  intros. unfold zput, ztake, zdrop. apply is_bytes_app. split; [by apply Forall_take|].
  apply is_bytes_app. split; [done|]. by apply Forall_drop.
Qed.

Lemma is_bytes_store n o v l : is_bytes l -> is_bytes (store n o v l).
Proof. intros. apply is_bytes_zput; [apply le_bytes_is_bytes|done]. Qed.

Lemma load_range n o l :
  is_bytes l -> 0 <= o -> o + Z.of_nat n <= zlen l -> 0 <= load n o l < 2 ^ (8 * Z.of_nat n).
Proof.
  intros Hl H1 H2. unfold load. pose proof (of_le_range _ (is_bytes_zsub o (Z.of_nat n) l Hl)) as H.
  rewrite zlen_zsub in H by lia. done.
Qed.

(** ** Bit fields of one byte, lowest bit first *)

Definition getBits (lo n b : Z) : Z := Z.land (Z.shiftr b lo) (Z.ones n).
Definition setBits (lo n v b : Z) : Z :=
  Z.lor (Z.ldiff b (Z.shiftl (Z.ones n) lo)) (Z.shiftl (Z.land v (Z.ones n)) lo).

Lemma testbit_ones n i : 0 <= n -> 0 <= i -> Z.testbit (Z.ones n) i = (i <? n).
Proof.
  intros. destruct (Z.ltb_spec i n); [apply Z.ones_spec_low|apply Z.ones_spec_high]; lia.
Qed.

Lemma getBits_setBits_same lo n v b :
  0 <= lo -> 0 <= n -> getBits lo n (setBits lo n v b) = Z.land v (Z.ones n).
Proof.
  intros Hlo Hn. unfold getBits, setBits. apply Z.bits_inj'. intros i Hi.
  rewrite !Z.land_spec, Z.shiftr_spec, Z.lor_spec, Z.ldiff_spec, !Z.shiftl_spec, Z.land_spec by lia.
  replace (i + lo - lo) with i by lia. rewrite !testbit_ones by lia.
  destruct (i <? n); [|by rewrite !andb_false_r].
  by rewrite !andb_true_r, andb_false_r.
Qed.

Lemma getBits_setBits_other lo n lo' n' v b :
  0 <= lo -> 0 <= n -> 0 <= lo' -> 0 <= n' -> lo' + n' <= lo \/ lo + n <= lo' ->
  getBits lo' n' (setBits lo n v b) = getBits lo' n' b.
Proof.
  intros Hlo Hn Hlo' Hn' Hd. unfold getBits, setBits. apply Z.bits_inj'. intros i Hi.
  rewrite !Z.land_spec, !Z.shiftr_spec, Z.lor_spec, Z.ldiff_spec, !Z.shiftl_spec, Z.land_spec by lia.
  rewrite (testbit_ones n') by lia. destruct (Z.ltb_spec i n'); [|by rewrite !andb_false_r].
  rewrite !andb_true_r. destruct (decide (i + lo' < lo)).
  - rewrite !(Z.testbit_neg_r _ (i + lo' - lo)) by lia. cbn.
    by rewrite orb_false_r, andb_true_r.
  - rewrite testbit_ones by lia. destruct (Z.ltb_spec (i + lo' - lo) n); [lia|].
    by rewrite andb_false_r, andb_true_r, orb_false_r.
Qed.

Lemma setBits_range lo n v b : 0 <= lo -> 0 <= n -> lo + n <= 8 -> is_byte b -> is_byte (setBits lo n v b).
Proof.
  intros Hlo Hn Hs [Hb1 Hb2]. unfold is_byte, setBits.
  assert (H : Z.shiftr (Z.lor (Z.ldiff b (Z.shiftl (Z.ones n) lo)) (Z.shiftl (Z.land v (Z.ones n)) lo)) 8 = 0).
  { apply Z.bits_inj'. intros i Hi.
    rewrite Z.shiftr_spec, Z.lor_spec, Z.ldiff_spec, !Z.shiftl_spec, Z.land_spec, Z.bits_0 by lia.
    rewrite testbit_ones by lia. destruct (Z.ltb_spec (i + 8 - lo) n); [lia|].
    rewrite andb_false_r, orb_false_r. cbn. rewrite andb_true_r.
    destruct (Z.eq_dec b 0) as [->|]; [apply Z.bits_0|].
    apply Z.bits_above_log2; [lia|]. assert (Z.log2 b < 8); [|lia].
    apply Z.log2_lt_pow2; lia. }
  rewrite Z.shiftr_div_pow2 in H by lia. change (2 ^ 8) with 256 in H.
  apply Z.div_small_iff in H; lia.
Qed.

Lemma getBits_range lo n b : 0 <= n -> 0 <= getBits lo n b < 2 ^ n.
Proof.
  intros Hn. unfold getBits. rewrite Z.land_ones by done. apply Z.mod_pos_bound. lia.
Qed.

Lemma zput_app_l {A} off (bs l1 l2 : list A) :
  0 <= off -> off + zlen bs <= zlen l1 -> zput off bs (l1 ++ l2) = zput off bs l1 ++ l2.
Proof.
  intros H1 H2. pose proof (zlen_nonneg bs). unfold zput, ztake, zdrop, zlen in *.
  rewrite take_app_le, drop_app_le by lia. by rewrite <- !app_assoc.
Qed.

Lemma load_app_l n off l1 l2 :
  0 <= off -> off + Z.of_nat n <= zlen l1 -> load n off (l1 ++ l2) = load n off l1.
Proof. intros. unfold load. by rewrite zsub_app_l by lia. Qed.

Lemma zsub_split {A} o n m (l : list A) :
  0 <= o -> 0 <= n -> 0 <= m -> zsub o (n + m) l = zsub o n l ++ zsub (o + n) m l.
Proof.
  intros. unfold zsub, ztake, zdrop. replace (Z.to_nat (n + m)) with (Z.to_nat n + Z.to_nat m)%nat by lia.
  rewrite <- take_take_drop. f_equal. rewrite drop_drop. do 2 f_equal. lia.
Qed.

Lemma zsub_zsub {A} o n o' n' (l : list A) :
  0 <= o -> 0 <= o' -> 0 <= n' -> o' + n' <= n -> zsub o' n' (zsub o n l) = zsub (o + o') n' l.
Proof.
  intros. unfold zsub, ztake, zdrop. rewrite skipn_firstn_comm, drop_drop, take_take.
  f_equal; [lia|f_equal; lia].
Qed.

Lemma zput_app_r {A} (bs l1 l2 : list A) : zput (zlen l1) bs (l1 ++ l2) = l1 ++ bs ++ zdrop (zlen bs) l2.
Proof.
  unfold zput, ztake, zdrop, zlen. rewrite Nat2Z.id, take_app_length. do 2 f_equal.
  rewrite <- Nat2Z.inj_add, !Nat2Z.id. by rewrite drop_app_add.
Qed.

Lemma zput_app_shift {A} o (bs l1 l2 : list A) :
  0 <= o -> zput (zlen l1 + o) bs (l1 ++ l2) = l1 ++ zput o bs l2.
Proof.
  intros. unfold zput, ztake, zdrop, zlen.
  rewrite take_app_ge by lia. rewrite <- app_assoc. do 2 f_equal; [f_equal; lia|]. f_equal.
  rewrite drop_app_ge by lia. f_equal. lia.
Qed.

Lemma ztake_app_le {A} n (l1 l2 : list A) : n <= zlen l1 -> ztake n (l1 ++ l2) = ztake n l1.
Proof. intros. unfold ztake. apply take_app_le. unfold zlen in *. lia. Qed.

Lemma zdrop_app_le {A} n (l1 l2 : list A) : n <= zlen l1 -> zdrop n (l1 ++ l2) = zdrop n l1 ++ l2.
Proof. intros. unfold zdrop. apply drop_app_le. unfold zlen in *. lia. Qed.

Lemma zlen_replicate {A} n (x : A) : zlen (replicate n x) = Z.of_nat n.
Proof. unfold zlen. by rewrite length_replicate. Qed.

Lemma le_bytes_app i j x : le_bytes (i + j) x = le_bytes i x ++ le_bytes j (x / 2 ^ (8 * Z.of_nat i)).
Proof.
  revert x. induction i as [|i IH]; intros x; [by rewrite Z.div_1_r|]. cbn [le_bytes Nat.add app].
  f_equal. rewrite IH. do 2 f_equal. rewrite Z.div_div by lia. f_equal.
  replace (8 * Z.of_nat (S i)) with (8 + 8 * Z.of_nat i) by lia. by rewrite Z.pow_add_r by lia.
Qed.

Lemma le_bytes_mod i x : le_bytes i (x mod 2 ^ (8 * Z.of_nat i)) = le_bytes i x.
Proof.
  rewrite <- of_le_le_bytes. apply le_bytes_of_le; [apply le_bytes_is_bytes|apply length_le_bytes].
Qed.

Lemma be_bytes_app i j x : be_bytes (i + j) x = be_bytes j (x / 2 ^ (8 * Z.of_nat i)) ++ be_bytes i x.
Proof. unfold be_bytes. by rewrite le_bytes_app, reverse_app. Qed.

Lemma be_bytes_mod i x : be_bytes i (x mod 2 ^ (8 * Z.of_nat i)) = be_bytes i x.
Proof. unfold be_bytes. by rewrite le_bytes_mod. Qed.

(** A member of a structure at its offset. *)
Lemma part_at (ps : list (list Z)) k p o n : ps !! k = Some p -> zlen (concat (take k ps)) = o -> zlen p = n -> zsub o n (concat ps) = p.
Proof.
  intros Hk <- <-. rewrite <- (take_drop_middle ps k p Hk) at 2. rewrite concat_app. cbn [concat].
  pose proof (zlen_nonneg p). rewrite zsub_app_r by lia. rewrite Z.sub_diag. rewrite zsub_app_l by lia. apply zsub_all.
Qed.
Lemma number_at (ps : list (list Z)) k n o v : ps !! k = Some (le_bytes n v) -> zlen (concat (take k ps)) = o -> 0 <= v < 2 ^ (8 * Z.of_nat n) ->
  load n o (concat ps) = v.
Proof.
  intros Hk Ho Hv. unfold load. rewrite (part_at ps k _ o _ Hk Ho (zlen_le_bytes n v)). rewrite of_le_le_bytes. by apply Z.mod_small.
Qed.
