(* ===== verification/Bsd.v ===== *)
(** * Byte order ([pro_bsd_wrapper.cpp])

    [pbsd_hton16], [pbsd_hton32] and [pbsd_hton64] on a little-endian machine, and
    what they do to the bytes of the variable that receives their result. *)

From S2P Require Import Prelude Bytes.

(** [pbsd_hton16] *)
Definition pbsd_hton16 (host16 : Z) : Z :=
  Z.lor (Z.land (Z.shiftr host16 8) 0x00FF) (Z.land (Z.shiftl host16 8) 0xFF00).

(** [pbsd_ntoh16] *)
Definition pbsd_ntoh16 (net16 : Z) : Z := pbsd_hton16 net16.

(** [pbsd_hton32]; the masks cut off what a 32-bit shift loses *)
Definition pbsd_hton32 (host32 : Z) : Z :=
  Z.lor (Z.lor (Z.lor
    (Z.land (Z.shiftr host32 24) 0x000000FF)
    (Z.land (Z.shiftr host32 8) 0x0000FF00))
    (Z.land (Z.shiftl host32 8) 0x00FF0000))
    (Z.land (Z.shiftl host32 24) 0xFF000000).

(** [pbsd_ntoh32] *)
Definition pbsd_ntoh32 (net32 : Z) : Z := pbsd_hton32 net32.

(** [pbsd_hton64] *)
Definition pbsd_hton64 (host64 : Z) : Z :=
  let high := pbsd_hton32 (u32 (Z.shiftr host64 32)) in
  let low := pbsd_hton32 (u32 host64) in
  Z.lor (u64 (Z.shiftl low 32)) high.

(** [pbsd_ntoh64] *)
Definition pbsd_ntoh64 (net64 : Z) : Z := pbsd_hton64 net64.

(** ** Bytes *)

(** The [k]-th byte of a number. *)
Definition byte_of (k x : Z) : Z := Z.land (Z.shiftr x (8 * k)) 255.

Lemma byte_of_range k x : 0 <= byte_of k x < 256.
Proof.
  unfold byte_of. change 255 with (Z.ones 8). rewrite Z.land_ones by lia.
  change 256 with (2 ^ 8). apply Z.mod_pos_bound. lia.
Qed.

Lemma byte_of_div k x : 0 <= k -> byte_of k x = (x / 2 ^ (8 * k)) mod 256.
Proof.
  intros Hk. unfold byte_of. change 255 with (Z.ones 8). rewrite Z.land_ones by lia.
  by rewrite Z.shiftr_div_pow2 by lia.
Qed.

(** Masking a byte in place. *)
Lemma land_mask a n : 0 <= n -> Z.land a (Z.shiftl 255 n) = Z.shiftl (Z.land (Z.shiftr a n) 255) n.
Proof.
  intros Hn. apply Z.bits_inj'. intros i Hi.
  rewrite Z.land_spec, !Z.shiftl_spec, Z.land_spec by done.
  destruct (decide (i < n)).
  - rewrite (Z.testbit_neg_r 255), !andb_false_r by lia. done.
  - rewrite Z.shiftr_spec by lia. by replace (i - n + n) with i by lia.
Qed.

Lemma shiftr_shiftl_byte x a n :
  0 <= a -> 0 <= n -> Z.land (Z.shiftl x a) (Z.shiftl 255 n) =
  Z.shiftl (Z.land (Z.shiftr x (n - a)) 255) n.
Proof.
  intros Ha Hn. rewrite land_mask by done. do 2 f_equal.
  rewrite <- (Z.shiftr_opp_r x a), Z.shiftr_shiftr by done. f_equal. lia.
Qed.

(** Adding one more byte above [n] bits. *)
Lemma lor_byte a b n : 0 <= n -> 0 <= a < 2 ^ n -> Z.lor a (Z.shiftl b n) = a + b * 2 ^ n.
Proof. intros. rewrite Z.lor_comm, lor_shiftl_add by done. lia. Qed.

Lemma hton16_eq x : pbsd_hton16 x = byte_of 1 x + byte_of 0 x * 2 ^ 8.
Proof.
  unfold pbsd_hton16. change 0xFF00 with (Z.shiftl 255 8).
  rewrite shiftr_shiftl_byte by lia. fold (byte_of 0 x).
  change (Z.land (Z.shiftr x 8) 255) with (byte_of 1 x).
  apply lor_byte; [lia|]. apply byte_of_range.
Qed.

Lemma hton32_eq x :
  pbsd_hton32 x = byte_of 3 x + byte_of 2 x * 2 ^ 8 + byte_of 1 x * 2 ^ 16 + byte_of 0 x * 2 ^ 24.
Proof.
  unfold pbsd_hton32.
  change 0x0000FF00 with (Z.shiftl 255 8). change 0x00FF0000 with (Z.shiftl 255 16).
  change 0xFF000000 with (Z.shiftl 255 24).
  rewrite (land_mask _ 8), !shiftr_shiftl_byte, Z.shiftr_shiftr by lia.
  change (Z.land (Z.shiftr x 24) 255) with (byte_of 3 x).
  change (Z.land (Z.shiftr x (8 + 8)) 255) with (byte_of 2 x).
  change (Z.land (Z.shiftr x (16 - 8)) 255) with (byte_of 1 x).
  change (Z.land (Z.shiftr x (24 - 24)) 255) with (byte_of 0 x).
  pose proof (byte_of_range 0 x). pose proof (byte_of_range 1 x).
  pose proof (byte_of_range 2 x). pose proof (byte_of_range 3 x).
  rewrite (lor_byte (byte_of 3 x)) by lia. rewrite (lor_byte _ (byte_of 1 x)) by lia.
  rewrite lor_byte by lia. done.
Qed.

Lemma hton16_range x : 0 <= pbsd_hton16 x < 2 ^ 16.
Proof.
  rewrite hton16_eq. pose proof (byte_of_range 0 x). pose proof (byte_of_range 1 x). lia.
Qed.

Lemma hton32_range x : 0 <= pbsd_hton32 x < 2 ^ 32.
Proof.
  rewrite hton32_eq. pose proof (byte_of_range 0 x). pose proof (byte_of_range 1 x).
  pose proof (byte_of_range 2 x). pose proof (byte_of_range 3 x). lia.
Qed.

Lemma div_pow_add x a b : 0 <= a -> 0 <= b -> x / 2 ^ a / 2 ^ b = x / 2 ^ (a + b).
Proof. intros. rewrite Z.pow_add_r, Z.div_div by lia. done. Qed.

Lemma digit_mod b c : 0 <= b < 256 -> (b + c * 256) mod 256 = b.
Proof. intros. rewrite Z.mod_add, Z.mod_small by lia. done. Qed.

Lemma digit_div b c : 0 <= b < 256 -> (b + c * 256) / 256 = c.
Proof. intros. rewrite Z.div_add, Z.div_small by lia. done. Qed.

Lemma be_bytes_2 x : be_bytes 2 x = [byte_of 1 x; byte_of 0 x].
Proof.
  rewrite !byte_of_div by lia. unfold be_bytes, reverse. cbn [le_bytes rev_append].
  change (2 ^ (8 * 1)) with 256. change (2 ^ (8 * 0)) with 1. by rewrite Z.div_1_r.
Qed.

Lemma be_bytes_4 x : be_bytes 4 x = [byte_of 3 x; byte_of 2 x; byte_of 1 x; byte_of 0 x].
Proof.
  rewrite !byte_of_div by lia. unfold be_bytes, reverse. cbn [le_bytes rev_append].
  change (2 ^ (8 * 3)) with (256 * 256 * 256). change (2 ^ (8 * 2)) with (256 * 256).
  change (2 ^ (8 * 1)) with 256. change (2 ^ (8 * 0)) with 1.
  by rewrite Z.div_1_r, <- !Z.div_div by lia.
Qed.

(** The variable that gets [pbsd_hton16 x] holds [x] in network order. *)
Lemma hton16_bytes x : le_bytes 2 (pbsd_hton16 x) = be_bytes 2 x.
Proof.
  rewrite be_bytes_2, hton16_eq. cbn [le_bytes].
  pose proof (byte_of_range 0 x). pose proof (byte_of_range 1 x).
  change (2 ^ 8) with 256. by rewrite digit_mod, digit_div, Z.mod_small by done.
Qed.

Lemma hton32_bytes x : le_bytes 4 (pbsd_hton32 x) = be_bytes 4 x.
Proof.
  rewrite be_bytes_4, hton32_eq. cbn [le_bytes].
  pose proof (byte_of_range 0 x). pose proof (byte_of_range 1 x).
  pose proof (byte_of_range 2 x). pose proof (byte_of_range 3 x).
  replace (byte_of 3 x + byte_of 2 x * 2 ^ 8 + byte_of 1 x * 2 ^ 16 + byte_of 0 x * 2 ^ 24)
    with (byte_of 3 x + (byte_of 2 x + (byte_of 1 x + byte_of 0 x * 256) * 256) * 256) by lia.
  rewrite !digit_div, !digit_mod by done. by rewrite (Z.mod_small (byte_of 0 x)).
Qed.

(** Reading is the same function. *)
Lemma ntoh16_be l : is_bytes l -> length l = 2%nat -> pbsd_ntoh16 (of_le l) = of_be l.
Proof.
  intros Hl Hn. unfold pbsd_ntoh16.
  rewrite <- (Z.mod_small _ _ (hton16_range (of_le l))).
  change (2 ^ 16) with (2 ^ (8 * Z.of_nat 2)). rewrite <- of_le_le_bytes, hton16_bytes.
  unfold be_bytes. by rewrite le_bytes_of_le.
Qed.

Lemma ntoh32_be l : is_bytes l -> length l = 4%nat -> pbsd_ntoh32 (of_le l) = of_be l.
Proof.
  intros Hl Hn. unfold pbsd_ntoh32.
  rewrite <- (Z.mod_small _ _ (hton32_range (of_le l))).
  change (2 ^ 32) with (2 ^ (8 * Z.of_nat 4)). rewrite <- of_le_le_bytes, hton32_bytes.
  unfold be_bytes. by rewrite le_bytes_of_le.
Qed.

(** Network order and back, on values of the width. *)
Lemma ntoh16_hton16 x : 0 <= x < 2 ^ 16 -> pbsd_ntoh16 (pbsd_hton16 x) = x.
Proof.
  intros Hx. rewrite <- (Z.mod_small _ _ (hton16_range x)).
  change (2 ^ 16) with (2 ^ (8 * Z.of_nat 2)). rewrite <- of_le_le_bytes.
  rewrite ntoh16_be by (apply le_bytes_is_bytes || done). rewrite hton16_bytes, of_be_be_bytes.
  by apply Z.mod_small.
Qed.

Lemma ntoh32_hton32 x : 0 <= x < 2 ^ 32 -> pbsd_ntoh32 (pbsd_hton32 x) = x.
Proof.
  intros Hx. rewrite <- (Z.mod_small _ _ (hton32_range x)).
  change (2 ^ 32) with (2 ^ (8 * Z.of_nat 4)). rewrite <- of_le_le_bytes.
  rewrite ntoh32_be by (apply le_bytes_is_bytes || done). rewrite hton32_bytes, of_be_be_bytes.
  by apply Z.mod_small.
Qed.

(** The same for 64 bits. *)
Lemma hton64_eq x : pbsd_hton64 x = pbsd_hton32 (u32 (x / 2 ^ 32)) + pbsd_hton32 (u32 x) * 2 ^ 32.
Proof.
  unfold pbsd_hton64. rewrite Z.shiftr_div_pow2 by lia. pose proof (hton32_range (u32 (x / 2 ^ 32))). pose proof (hton32_range (u32 x)).
  unfold wrap at 1. rewrite Z.mod_small by (rewrite Z.shiftl_mul_pow2; lia). rewrite Z.lor_comm. by rewrite lor_byte.
Qed.
Lemma hton64_range x : 0 <= pbsd_hton64 x < 2 ^ 64.
Proof. rewrite hton64_eq. pose proof (hton32_range (u32 (x / 2 ^ 32))). pose proof (hton32_range (u32 x)). lia. Qed.
Lemma hton64_bytes x : le_bytes 8 (pbsd_hton64 x) = be_bytes 8 x.
Proof.
  change 8%nat with (4 + 4)%nat. unfold be_bytes. rewrite !le_bytes_app, reverse_app. change (8 * Z.of_nat 4) with 32.
  pose proof (hton32_range (u32 (x / 2 ^ 32))) as Hh. f_equal.
  - rewrite <- (le_bytes_mod 4 (pbsd_hton64 x)). change (8 * Z.of_nat 4) with 32. rewrite hton64_eq, Z_mod_plus_full, Z.mod_small by done.
    rewrite hton32_bytes. unfold be_bytes, wrap. by rewrite <- (le_bytes_mod 4 (x / 2 ^ 32)).
  - rewrite hton64_eq, Z.div_add, Z.div_small by lia. rewrite Z.add_0_l, hton32_bytes. unfold be_bytes, wrap. by rewrite <- (le_bytes_mod 4 x).
Qed.
Lemma ntoh64_be l : is_bytes l -> length l = 8%nat -> pbsd_ntoh64 (of_le l) = of_be l.
Proof.
  intros Hl Hn. unfold pbsd_ntoh64, of_be. pose proof (hton64_bytes (of_le l)) as H. unfold be_bytes in H. rewrite le_bytes_of_le in H by done.
  rewrite <- H, of_le_le_bytes, Z.mod_small; [done|apply hton64_range].
Qed.
Lemma ntoh64_hton64 x : 0 <= x < 2 ^ 64 -> pbsd_ntoh64 (pbsd_hton64 x) = x.
Proof.
  intros Hx. assert (Hl : pbsd_hton64 x = of_le (be_bytes 8 x)).
  { rewrite <- hton64_bytes, of_le_le_bytes. symmetry. apply Z.mod_small, hton64_range. }
  rewrite Hl, ntoh64_be.
  - unfold of_be, be_bytes. by rewrite reverse_involutive, of_le_le_bytes, Z.mod_small.
  - unfold be_bytes. apply Forall_reverse, le_bytes_is_bytes.
  - unfold be_bytes. by rewrite length_reverse, length_le_bytes.
Qed.
