(* ===== verification/NetPools.v ===== *)
(** * The buffers of a transport ([pro_recv_pool.h], [pro_send_pool.h])

    [CProRecvPool] is a ring buffer: the transport receives into its idle part,
    the observers peek at and flush its data part.  [CProSendPool] is a queue of
    outgoing buffers, the first of which may be sent in part.  Pointers into the
    ring are offsets from [m_begin]; [None] is the null pointer.  [IProRecvPool]
    is the interface the observers see, as a class with its laws. *)

From S2P Require Import Prelude Bytes.

(** ** What an observer of a transport relies on *)

(** [IProRecvPool] of [pro_net.h].  [PeekData] gives the bytes copied into the
    caller's buffer, [None] when the call leaves it alone. *)
Class IProRecvPool (P : Type) := {
  PeekDataSize : P -> Z;
  PeekData : Z -> P -> option (list Z);
  Flush : Z -> P -> P
}.

(** The promise: the pool is a queue of bytes. *)
Class RecvPoolLaws (P : Type) `{IProRecvPool P} := {
  pool_rep : P -> list Z -> Prop;
  PeekDataSize_law p d : pool_rep p d -> PeekDataSize p = zlen d;
  PeekData_law p d n : pool_rep p d -> 0 <= n ->
    PeekData n p = if (n =? 0) || (zlen d <? n) then None else Some (ztake n d);
  Flush_law p d n : pool_rep p d -> 0 <= n ->
    pool_rep (Flush n p) (if zlen d <? n then d else zdrop n d)
}.

(** The abstract pool: the queue itself. *)
#[export] Instance queue_pool : IProRecvPool (list Z) := {|
  PeekDataSize d := zlen d;
  PeekData n d := if (n =? 0) || (zlen d <? n) then None else Some (ztake n d);
  Flush n d := if zlen d <? n then d else zdrop n d
|}.

#[export] Program Instance queue_pool_laws : RecvPoolLaws (list Z) := {| pool_rep p d := p = d |}.
Solve All Obligations with naive_solver.

Module CProRecvPool.

Record t := mkPool {
  m_buf : list Z;         (* [m_begin], [m_end) *)
  m_data : option Z;
  m_dataSize : Z;
  m_idle : option Z;
  m_idleSize : Z
}.

Definition m_end (p : t) : Z := zlen (m_buf p).

(** [CProRecvPool::CProRecvPool] *)
Definition init : t := mkPool [] None 0 None 0.

(** [CProRecvPool::Resize]; [mem] is what [CProBuffer::Resize] allocated. *)
Definition Resize (size : Z) (mem : option (list Z)) (p : t) : bool * t :=
  if size =? 0 then (false, p) else
  match mem with
  | None => (false, init)
  | Some buf => (true, mkPool buf None 0 (Some 0) size)
  end.

(** [CProRecvPool::ContinuousIdleBuf] *)
Definition ContinuousIdleBuf (p : t) : option Z := m_idle p.

(** [CProRecvPool::ContinuousIdleSize]; a null [m_idle] comes with no idle bytes *)
Definition ContinuousIdleSize (p : t) : Z :=
  match m_idle p with
  | Some i => if i + m_idleSize p >? m_end p then m_end p - i else m_idleSize p
  | None => m_idleSize p
  end.

(** [CProRecvPool::Fill] *)
Definition Fill (size : Z) (p : t) : t :=
  if (size =? 0) || (size >? ContinuousIdleSize p) then p else
  let data := match m_data p with None => m_idle p | Some b => Some b end in
  let idle :=
    if m_idleSize p - size =? 0 then None
    else match m_idle p with
         | Some i => if i + size =? m_end p then Some 0 else Some (i + size)
         | None => None
         end in
  mkPool (m_buf p) data (m_dataSize p + size) idle (m_idleSize p - size).

(** [CProRecvPool::ContinuousDataSize] *)
Definition ContinuousDataSize (p : t) : Z :=
  match m_data p with
  | Some b => if b + m_dataSize p >? m_end p then m_end p - b else m_dataSize p
  | None => m_dataSize p
  end.

(** [CProRecvPool::PeekData] *)
Definition PeekBytes (size : Z) (p : t) : option (list Z) :=
  if (size =? 0) || (size >? m_dataSize p) then None else
  b ← m_data p;
  let continuousSize := ContinuousDataSize p in
  Some (if size >? continuousSize
        then zsub b continuousSize (m_buf p) ++ zsub 0 (size - continuousSize) (m_buf p)
        else zsub b size (m_buf p)).

(** [CProRecvPool::Flush] *)
Definition FlushBytes (size : Z) (p : t) : t :=
  if (size =? 0) || (size >? m_dataSize p) then p else
  if m_dataSize p - size =? 0
  then mkPool (m_buf p) None 0 (Some 0) (m_end p)
  else
    let idle := match m_idle p with None => m_data p | Some i => Some i end in
    let continuousSize := ContinuousDataSize p in
    let data :=
      match m_data p with
      | Some b =>
          if size >? continuousSize then Some (size - continuousSize)
          else if b + size =? m_end p then Some 0 else Some (b + size)
      | None => None
      end in
    mkPool (m_buf p) data (m_dataSize p - size) idle (m_idleSize p + size).

#[export] Instance recv_pool : IProRecvPool t := {|
  PeekDataSize := m_dataSize;
  PeekData := PeekBytes;
  Flush := FlushBytes
|}.

(** What [recv] into [ContinuousIdleBuf()] leaves, before [Fill]. *)
Definition writeIdle (bs : list Z) (p : t) : t :=
  match m_idle p with
  | Some i => mkPool (zput i bs (m_buf p)) (m_data p) (m_dataSize p) (m_idle p) (m_idleSize p)
  | None => p
  end.

(** ** The ring holds a queue of bytes *)

Record rep (p : t) (d : list Z) : Prop := mkRep {
  rep_cap : 0 < m_end p;
  rep_dataSize : m_dataSize p = zlen d;
  rep_idleSize : m_idleSize p = m_end p - zlen d;
  rep_fits : zlen d <= m_end p;
  rep_empty : d = [] -> m_data p = None /\ m_idle p = Some 0;
  rep_data : d <> [] -> exists b, m_data p = Some b /\ 0 <= b < m_end p /\
    m_idle p = (if zlen d =? m_end p then None else Some ((b + zlen d) mod m_end p)) /\
    forall k : nat, (k < length d)%nat ->
      d !! k = m_buf p !! Z.to_nat ((b + Z.of_nat k) mod m_end p)
}.

Lemma zlen_neq_nil {A} (d : list A) : d <> [] <-> 0 < zlen d.
Proof. unfold zlen. destruct d; cbn; split; intros; try done; lia. Qed.

Lemma mod_once x n : 0 <= x < 2 * n -> x mod n = if decide (x < n) then x else x - n.
Proof.
  intros. destruct (decide _).
  - apply Z.mod_small. lia.
  - symmetry. apply (Zmod_unique x n 1 (x - n)); lia.
Qed.

Lemma Resize_rep size buf p :
  0 < size -> zlen buf = size -> rep (snd (Resize size (Some buf) p)) [].
Proof.
  intros Hs Hb. unfold Resize. destruct (Z.eqb_spec size 0); [lia|].
  split; cbn; unfold m_end; cbn; rewrite ?zlen_nil; try done; lia.
Qed.

(** How much one [recv] may take: everything when nothing is buffered (so a
    whole datagram fits), and something as long as the ring is not full. *)
Lemma ContinuousIdleSize_eq p d :
  rep p d ->
  ContinuousIdleSize p =
    match m_idle p with
    | Some i => Z.min (m_end p - i) (m_end p - zlen d)
    | None => 0
    end.
Proof.
  intros [Hc Hd Hi Hf He Hb]. unfold ContinuousIdleSize. rewrite Hi.
  destruct (m_idle p) as [i|] eqn:E.
  - destruct (Z.gtb_spec (i + (m_end p - zlen d)) (m_end p)); lia.
  - destruct d as [|x d]; [naive_solver|].
    destruct (Hb ltac:(done)) as (b & _ & _ & Hid & _).
    destruct (Z.eqb_spec (zlen (x :: d)) (m_end p)); [lia|done].
Qed.

Lemma idle_Some p d :
  rep p d -> zlen d < m_end p ->
  exists i, m_idle p = Some i /\ 0 <= i < m_end p /\
    i = (default 0 (m_data p) + zlen d) mod m_end p.
Proof.
  intros [Hc Hd Hi Hf He Hb] Hlt. destruct (decide (d = [])) as [->|Hne].
  - destruct He as [-> ->]; [done|]. exists 0. cbn. rewrite Z.mod_0_l by lia. naive_solver lia.
  - destruct (Hb Hne) as (b & -> & Hbr & Hid & _).
    destruct (Z.eqb_spec (zlen d) (m_end p)); [lia|].
    eexists. split; [exact Hid|]. split; [apply Z.mod_pos_bound; lia|done].
Qed.

Lemma ContinuousIdleSize_nonneg p d : rep p d -> 0 <= ContinuousIdleSize p <= m_end p - zlen d.
Proof.
  intros Hp. rewrite (ContinuousIdleSize_eq p d Hp). destruct (decide (zlen d < m_end p)) as [H|H].
  - destruct (idle_Some p d Hp H) as (i & -> & ? & _). lia.
  - pose proof (rep_fits _ _ Hp). destruct (decide (d = [])) as [->|Hne].
    + pose proof (rep_cap _ _ Hp). change (zlen (@nil Z)) with 0 in H. lia.
    + destruct (rep_data _ _ Hp Hne) as (b & _ & _ & -> & _).
      destruct (Z.eqb_spec (zlen d) (m_end p)); lia.
Qed.

(** Receiving appends to the queue. *)
Lemma receive_rep p d bs :
  rep p d -> 0 < zlen bs <= ContinuousIdleSize p ->
  rep (Fill (zlen bs) (writeIdle bs p)) (d ++ bs) /\
  m_end (Fill (zlen bs) (writeIdle bs p)) = m_end p.
Proof.
  intros Hp Hbs. pose proof (ContinuousIdleSize_nonneg p d Hp) as Hn.
  destruct (idle_Some p d Hp ltac:(lia)) as (i & Hi & Hir & Hie).
  rewrite (ContinuousIdleSize_eq p d Hp), Hi in Hbs.
  assert (Hend : zlen (zput i bs (m_buf p)) = m_end p)
    by (apply zlen_zput; [lia|fold (m_end p); lia]).
  unfold writeIdle. rewrite Hi. unfold Fill.
  assert (ContinuousIdleSize (mkPool (zput i bs (m_buf p)) (m_data p) (m_dataSize p)
    (Some i) (m_idleSize p)) = ContinuousIdleSize p) as ->.
  { unfold ContinuousIdleSize. cbn. rewrite Hi. unfold m_end at 1 2. cbn.
    by rewrite Hend. }
  rewrite (ContinuousIdleSize_eq p d Hp), Hi.
  destruct (Z.eqb_spec (zlen bs) 0); [lia|].
  destruct (Z.gtb_spec (zlen bs) (Z.min (m_end p - i) (m_end p - zlen d))); [lia|].
  cbn [orb m_buf m_data m_dataSize m_idle m_idleSize].
  unfold m_end at 1 2 3. cbn [m_buf]. rewrite Hend. split; [|done].
  assert (Hb : exists b, match m_data p with None => Some i | Some b => Some b end = Some b /\
    0 <= b < m_end p /\ i = (b + zlen d) mod m_end p /\
    forall k : nat, (k < length d)%nat ->
      d !! k = m_buf p !! Z.to_nat ((b + Z.of_nat k) mod m_end p)).
  { destruct (decide (d = [])) as [->|Hne].
    - destruct (rep_empty _ _ Hp eq_refl) as [-> _]. exists i. split_and!; try done; try lia.
      + rewrite zlen_nil, Z.add_0_r. by rewrite Z.mod_small by lia.
      + cbn. lia.
    - destruct (rep_data _ _ Hp Hne) as (b & Hb & Hbr & _ & Hk). exists b. rewrite Hb in *.
      naive_solver. }
  destruct Hb as (b & -> & Hbr & Hib & Hk).
  assert (Hwrap : i = if decide (b + zlen d < m_end p) then b + zlen d else b + zlen d - m_end p).
  { rewrite Hib. pose proof (zlen_nonneg d). apply mod_once. lia. }
  pose proof (rep_dataSize _ _ Hp). pose proof (rep_idleSize _ _ Hp).
  pose proof (rep_cap _ _ Hp). pose proof (zlen_nonneg d).
  split; unfold m_end; cbn [m_buf m_data m_dataSize m_idle m_idleSize];
    rewrite ?Hend, ?zlen_app; fold (m_end p); try lia.
  - intros E. apply app_nil in E as [_ ->]. unfold zlen in Hbs. cbn in *. lia.
  - intros _. exists b. split; [done|]. split; [done|]. split.
    + destruct (Z.eqb_spec (m_idleSize p - zlen bs) 0);
        destruct (Z.eqb_spec (zlen d + zlen bs) (m_end p)); try lia; [done|].
      f_equal. rewrite (mod_once (b + (zlen d + zlen bs))) by lia.
      destruct (Z.eqb_spec (i + zlen bs) (m_end p)); repeat case_decide; f_equal; lia.
    + intros k Hkl. rewrite length_app in Hkl.
      rewrite lookup_zput by (fold (m_end p); lia).
      rewrite (mod_once (b + Z.of_nat k)) by (unfold zlen, m_end in *; lia).
      destruct (decide (k < length d)%nat) as [Hkd|Hkd].
      * rewrite lookup_app_l by done. rewrite decide_False.
        -- rewrite (Hk k Hkd). rewrite (mod_once (b + Z.of_nat k)) by (unfold zlen in *; lia).
           done.
        -- unfold zlen in *. repeat case_decide; lia.
      * rewrite lookup_app_r by lia. rewrite decide_True.
        -- f_equal. unfold zlen in *. repeat case_decide; lia.
        -- unfold zlen in *. repeat case_decide; lia.
Qed.

(** Peeking copies the front of the queue. *)
Lemma PeekBytes_rep p d n :
  rep p d -> 0 <= n ->
  PeekBytes n p = if (n =? 0) || (zlen d <? n) then None else Some (ztake n d).
Proof.
  intros Hp Hn. unfold PeekBytes. rewrite (rep_dataSize _ _ Hp), Z.gtb_ltb.
  destruct (Z.eqb_spec n 0); [done|]. destruct (Z.ltb_spec (zlen d) n); [done|]. cbn [orb].
  destruct (rep_data _ _ Hp) as (b & Hb & Hbr & _ & Hk); [apply zlen_neq_nil; lia|].
  unfold ContinuousDataSize. rewrite Hb, (rep_dataSize _ _ Hp), !Z.gtb_ltb. cbn. f_equal.
  pose proof (rep_fits _ _ Hp).
  apply list_eq. intros k. destruct (decide (Z.of_nat k < n)) as [Hkn|Hkn].
  - unfold ztake at 1. rewrite (lookup_take_lt d) by lia. rewrite Hk by (unfold zlen in *; lia).
    rewrite mod_once by (unfold zlen in *; lia).
    set (c := if m_end p <? b + zlen d then m_end p - b else zlen d).
    assert (Hc : c = Z.min (m_end p - b) (zlen d))
      by (unfold c; destruct (Z.ltb_spec (m_end p) (b + zlen d)); lia).
    destruct (Z.ltb_spec c n).
    + destruct (decide (Z.of_nat k < c)).
      * rewrite lookup_app_l.
        -- rewrite lookup_zsub by lia. f_equal. case_decide; lia.
        -- apply Nat2Z.inj_lt. fold (zlen (zsub b c (m_buf p))).
           rewrite zlen_zsub; fold (m_end p); lia.
      * assert (Hl : zlen (zsub b c (m_buf p)) = c) by (apply zlen_zsub; fold (m_end p); lia).
        unfold zlen in Hl. rewrite lookup_app_r by lia.
        rewrite lookup_zsub by lia. f_equal. case_decide; lia.
    + rewrite lookup_zsub by lia. f_equal. case_decide; lia.
  - rewrite !lookup_ge_None_2; [done|..]; apply Nat2Z.inj_le.
    + fold (zlen (ztake n d)). rewrite zlen_ztake; lia.
    + set (c := if m_end p <? b + zlen d then m_end p - b else zlen d).
      assert (Hc : c = Z.min (m_end p - b) (zlen d))
        by (unfold c; destruct (Z.ltb_spec (m_end p) (b + zlen d)); lia).
      match goal with |- Z.of_nat (length ?l) <= _ => fold (zlen l) end.
      destruct (Z.ltb_spec c n); rewrite ?zlen_app, !zlen_zsub; fold (m_end p); lia.
Qed.

(** Flushing drops the front of the queue. *)
Lemma FlushBytes_rep p d n :
  rep p d -> 0 <= n ->
  rep (FlushBytes n p) (if zlen d <? n then d else zdrop n d) /\
  m_end (FlushBytes n p) = m_end p.
Proof.
  intros Hp Hn. unfold FlushBytes. rewrite (rep_dataSize _ _ Hp), Z.gtb_ltb.
  destruct (Z.ltb_spec (zlen d) n); [rewrite orb_true_r; done|]. rewrite orb_false_r.
  destruct (Z.eqb_spec n 0) as [->|]; [done|].
  destruct (rep_data _ _ Hp) as (b & Hb & Hbr & Hid & Hk); [apply zlen_neq_nil; lia|].
  pose proof (rep_fits _ _ Hp). pose proof (rep_cap _ _ Hp). pose proof (rep_idleSize _ _ Hp).
  destruct (Z.eqb_spec (zlen d - n) 0).
  { rewrite zdrop_all by lia. split; [|done].
    split; unfold m_end; cbn; fold (m_end p); rewrite ?zlen_nil; try done; lia. }
  unfold ContinuousDataSize. rewrite Hb, (rep_dataSize _ _ Hp), !Z.gtb_ltb. split; [|done].
  assert (Hdata : (if (if m_end p <? b + zlen d then m_end p - b else zlen d) <? n
    then Some (n - (if m_end p <? b + zlen d then m_end p - b else zlen d))
    else if b + n =? m_end p then Some 0 else Some (b + n)) = Some ((b + n) mod m_end p)).
  { rewrite mod_once by lia. destruct (Z.ltb_spec (m_end p) (b + zlen d));
      repeat match goal with |- context [?x <? ?y] => destruct (Z.ltb_spec x y) end;
      destruct (Z.eqb_spec (b + n) (m_end p)); case_decide; f_equal; lia. }
  rewrite Hdata. assert (Hl : zlen (zdrop n d) = zlen d - n) by (apply zlen_zdrop; lia).
  split; unfold m_end; cbn [m_buf m_data m_dataSize m_idle m_idleSize]; fold (m_end p); try lia.
  - intros E. rewrite E, zlen_nil in Hl. lia.
  - intros _. eexists. split; [done|]. split; [apply Z.mod_pos_bound; lia|]. split.
    + destruct (Z.eqb_spec (zlen (zdrop n d)) (m_end p)); [lia|].
      rewrite Zplus_mod_idemp_l, Hid, Hl.
      replace (b + n + (zlen d - n)) with (b + zlen d) by lia.
      destruct (Z.eqb_spec (zlen d) (m_end p)) as [->|]; [|done].
      f_equal. rewrite Zplus_mod, Z_mod_same_full, Z.add_0_r, Zmod_mod.
      symmetry. by apply Z.mod_small.
    + intros k Hkl. rewrite Zplus_mod_idemp_l. unfold zdrop in *. rewrite lookup_drop.
      rewrite length_drop in Hkl. rewrite Hk by lia. do 3 f_equal. lia.
Qed.

#[export] Program Instance recv_pool_laws : RecvPoolLaws t := {| pool_rep := rep |}.
Next Obligation. intros p d Hp. exact (rep_dataSize _ _ Hp). Qed.
Next Obligation. exact PeekBytes_rep. Qed.
Next Obligation. intros p d n Hp Hn. exact (proj1 (FlushBytes_rep p d n Hp Hn)). Qed.

(** C31: a receive pool of any capacity is a queue of bytes: it starts empty,
    receiving at most [ContinuousIdleSize] bytes into the idle buffer and calling
    [Fill] appends them, [PeekData] copies the front and [Flush] drops it (both
    ignore a size beyond the queue), room is offered exactly while the queue is
    not full, and an empty queue offers the whole capacity in one piece, so that a
    datagram is never cut. *)
Theorem RecvPool_refines (cap : Z) (buf : list Z) (p : t) (d : list Z) :
  0 < cap -> zlen buf = cap -> rep p d -> m_end p = cap ->
  rep (snd (Resize cap (Some buf) p)) [] /\
  PeekDataSize p = zlen d /\
  (0 < ContinuousIdleSize p <-> zlen d < cap) /\
  (d = [] -> ContinuousIdleSize p = cap) /\
  (forall bs, 0 < zlen bs <= ContinuousIdleSize p ->
     rep (Fill (zlen bs) (writeIdle bs p)) (d ++ bs)) /\
  (forall n, 0 <= n ->
     PeekData n p = (if (n =? 0) || (zlen d <? n) then None else Some (ztake n d)) /\
     rep (Flush n p) (if zlen d <? n then d else zdrop n d)).
Proof.
  intros Hc Hb Hp He. split; [by apply Resize_rep|]. split; [exact (rep_dataSize _ _ Hp)|].
  split; [|split; [|split]].
  - split; intros H1; [pose proof (ContinuousIdleSize_nonneg p d Hp); lia|].
    rewrite (ContinuousIdleSize_eq p d Hp).
    destruct (idle_Some p d Hp) as (i & -> & ? & _); lia.
  - intros ->. rewrite (ContinuousIdleSize_eq p [] Hp).
    destruct (rep_empty _ _ Hp eq_refl) as [_ ->]. change (zlen (@nil Z)) with 0. lia.
  - intros bs Hbs. exact (proj1 (receive_rep p d bs Hp Hbs)).
  - intros n Hn. split; [by apply PeekBytes_rep|]. exact (proj1 (FlushBytes_rep p d n Hp Hn)).
Qed.

Lemma RecvPool_refines_witness :
  exists p, rep p [1; 2] /\ ContinuousIdleSize p = 2 /\
    PeekData 2 (Fill 2 (writeIdle [3; 4] p)) = Some [1; 2].
Proof.
  pose (p0 := snd (Resize 4 (Some [0; 0; 0; 0]) init)).
  assert (H0 : rep p0 []) by (apply Resize_rep; [lia|done]).
  assert (Hc : 0 < 4) by lia.
  assert (H1 : 0 < zlen [1; 2] <= ContinuousIdleSize p0) by (vm_compute; intuition congruence).
  pose proof (RecvPool_refines 4 [0; 0; 0; 0] p0 [] Hc eq_refl H0 eq_refl)
    as (_ & _ & _ & _ & Hf & _).
  exists (Fill 2 (writeIdle [1; 2] p0)). split; [exact (Hf [1; 2] H1)|]. split; reflexivity.
Defined.

End CProRecvPool.

Module CProSendPool.

(** [m_pendingPos] points into the first buffer *)
Record t := mkPool {
  m_bufs : list (list Z);
  m_pendingPos : option Z
}.

(** [CProSendPool::CProSendPool] *)
Definition init : t := mkPool [] None.

(** [CProSendPool::Fill]; [alloc] says whether [CProBuffer::Resize] gets memory *)
Definition Fill (alloc : bool) (buf : list Z) (p : t) : t :=
  if zlen buf =? 0 then p else
  if negb alloc then p else
  let bufs := m_bufs p ++ [buf] in
  mkPool bufs (if zlen bufs =? 1 then Some 0 else m_pendingPos p).

(** [CProSendPool::PreSend]: the bytes from [m_pendingPos], [None] for null *)
Definition PreSend (p : t) : option (list Z) :=
  match m_bufs p with
  | [] => None
  | buf :: _ =>
      pos ← m_pendingPos p;
      let size := u64 (zlen buf - pos) in
      if size =? 0 then None else Some (zsub pos size buf)
  end.

(** [CProSendPool::Flush] *)
Definition Flush (size : Z) (p : t) : t :=
  match m_bufs p, m_pendingPos p with
  | buf :: _, Some pos =>
      if size =? 0 then p else
      if pos + size >? zlen buf then p else mkPool (m_bufs p) (Some (pos + size))
  | _, _ => p
  end.

(** [CProSendPool::OnSendBuf]: the first buffer, once all of it was sent *)
Definition OnSendBuf (p : t) : option (list Z) :=
  match m_bufs p with
  | [] => None
  | buf :: _ => if decide (m_pendingPos p = Some (zlen buf)) then Some buf else None
  end.

(** [CProSendPool::PostSend] *)
Definition PostSend (p : t) : t :=
  match m_bufs p with
  | [] => p
  | buf :: rest =>
      if decide (m_pendingPos p = Some (zlen buf))
      then mkPool rest (match rest with [] => None | _ => Some 0 end)
      else p
  end.

(** ** What is still to be sent, message by message *)

(** [sent] bytes of the first message are gone; [msgs] are the messages. *)
Record rep (p : t) (sent : Z) (msgs : list (list Z)) : Prop := mkRep {
  rep_bufs : m_bufs p = msgs;
  rep_pos : m_pendingPos p = match msgs with [] => None | _ => Some sent end;
  rep_sent : 0 <= sent <= match msgs with [] => 0 | m :: _ => zlen m end;
  rep_nonempty : Forall (fun m => 0 < zlen m < 2 ^ 64) msgs
}.

(** The bytes of [rep] that the socket has not taken. *)
Definition unsent (sent : Z) (msgs : list (list Z)) : list Z := zdrop sent (concat msgs).

Lemma init_rep : rep init 0 [].
Proof. by split. Qed.

Lemma Fill_rep p sent msgs buf :
  rep p sent msgs -> 0 < zlen buf < 2 ^ 64 -> rep (Fill true buf p) sent (msgs ++ [buf]).
Proof.
  intros [Hb Hp Hs Hn] Hlen. unfold Fill. destruct (Z.eqb_spec (zlen buf) 0); [lia|]. cbn.
  rewrite Hb, Hp. split; cbn; try done.
  - destruct msgs as [|m msgs]; cbn; [f_equal; lia|].
    destruct (Z.eqb_spec (zlen (m :: msgs ++ [buf])) 1) as [E|]; [|done].
    rewrite zlen_cons, zlen_app, zlen_cons in E. pose proof (zlen_nonneg msgs).
    change (zlen (@nil (list Z))) with 0 in E. lia.
  - destruct msgs; cbn in *; lia.
  - apply Forall_app; auto.
Qed.

Lemma PreSend_rep p sent msgs :
  rep p sent msgs ->
  PreSend p = match msgs with
              | [] => None
              | m :: _ => if sent =? zlen m then None else Some (zdrop sent m)
              end.
Proof.
  intros [Hb Hp Hs Hn]. unfold PreSend. rewrite Hb. destruct msgs as [|m msgs]; [done|].
  rewrite Hp. cbn. inversion Hn; subst.
  rewrite wrap_small by lia.
  destruct (Z.eqb_spec (zlen m - sent) 0), (Z.eqb_spec sent (zlen m)); try lia; [done|].
  f_equal. unfold zsub. apply ztake_all. rewrite zlen_zdrop; lia.
Qed.

Lemma Flush_rep p sent m msgs n :
  rep p sent (m :: msgs) -> 0 <= n <= zlen m - sent ->
  rep (Flush n p) (sent + n) (m :: msgs).
Proof.
  intros [Hb Hp Hs Hn] Hr. unfold Flush. rewrite Hb, Hp.
  destruct (Z.eqb_spec n 0) as [->|]; [by rewrite Z.add_0_r|].
  destruct (Z.gtb_spec (sent + n) (zlen m)); [lia|]. split; cbn; try done. lia.
Qed.

Lemma OnSendBuf_rep p sent msgs :
  rep p sent msgs ->
  OnSendBuf p = match msgs with
                | [] => None
                | m :: _ => if sent =? zlen m then Some m else None
                end.
Proof.
  intros [Hb Hp Hs Hn]. unfold OnSendBuf. rewrite Hb, Hp. destruct msgs as [|m msgs]; [done|].
  destruct (Z.eqb_spec sent (zlen m)); case_decide; congruence.
Qed.

Lemma PostSend_rep p sent msgs :
  rep p sent msgs ->
  rep (PostSend p)
    (match msgs with m :: _ => if sent =? zlen m then 0 else sent | [] => sent end)
    (match msgs with m :: msgs' => if sent =? zlen m then msgs' else msgs | [] => [] end).
Proof.
  intros [Hb Hp Hs Hn]. unfold PostSend. rewrite Hb, Hp. destruct msgs as [|m msgs]; [done|].
  destruct (Z.eqb_spec sent (zlen m)) as [->|].
  - rewrite decide_True by done. inversion Hn as [|? ? _ Hn']; subst.
    split; cbn; try done. destruct msgs as [|m' msgs]; [lia|]. inversion Hn'; subst. lia.
  - rewrite decide_False by congruence. done.
Qed.

(** C32: the send pool is a queue of messages of which the first may be sent in
    part: [Fill] queues a message, [PreSend] shows exactly what of the first one is
    left, [Flush] advances by what the socket took, [OnSendBuf] reports the whole
    message exactly when nothing of it is left, and then [PostSend] turns to the
    next message from its start. *)
Theorem SendPool_refines p sent m msgs :
  rep p sent (m :: msgs) ->
  (forall buf, 0 < zlen buf < 2 ^ 64 -> rep (Fill true buf p) sent ((m :: msgs) ++ [buf])) /\
  PreSend p = (if sent =? zlen m then None else Some (zdrop sent m)) /\
  (forall n, 0 <= n <= zlen m - sent -> rep (Flush n p) (sent + n) (m :: msgs)) /\
  OnSendBuf p = (if sent =? zlen m then Some m else None) /\
  (sent = zlen m -> rep (PostSend p) 0 msgs) /\
  (sent <> zlen m -> PostSend p = p).
Proof.
  intros Hp. split; [intros; by apply Fill_rep|]. split; [by rewrite (PreSend_rep _ _ _ Hp)|].
  split; [intros; by apply Flush_rep|]. split; [by rewrite (OnSendBuf_rep _ _ _ Hp)|]. split.
  - intros E. pose proof (PostSend_rep _ _ _ Hp) as H. by rewrite E, Z.eqb_refl in H.
  - intros E. unfold PostSend. rewrite (rep_bufs _ _ _ Hp), (rep_pos _ _ _ Hp).
    by rewrite decide_False by congruence.
Qed.

Lemma SendPool_refines_witness :
  let p := Fill true [5] (Flush 2 (Fill true [1; 2; 3] init)) in
  rep p 2 [[1; 2; 3]; [5]] /\ PreSend p = Some [3] /\ rep (PostSend (Flush 1 p)) 0 [[5]].
Proof.
  cbv zeta.
  assert (H0 : rep (Fill true [5] (Flush 2 (Fill true [1; 2; 3] init))) 2 [[1; 2; 3]; [5]]).
  { split; cbn; try done. repeat constructor; vm_compute; reflexivity. }
  pose proof (SendPool_refines _ 2 [1; 2; 3] [[5]] H0) as (_ & Hpre & Hf & _ & _ & _).
  split; [exact H0|]. split; [exact Hpre|].
  assert (Hr : 0 <= 1 <= zlen [1; 2; 3] - 2) by (vm_compute; intuition congruence).
  pose proof (SendPool_refines _ 3 [1; 2; 3] [[5]] (Hf 1 Hr)) as (_ & _ & _ & _ & Hp & _).
  apply Hp. reflexivity.
Defined.

End CProSendPool.
