(* ===== verification/StlMap.v ===== *)
(** * Ordered containers

    [std::map] and [std::set] as the sources use them: a strictly sorted list of
    elements, each carrying a key, compared with the container's [operator<].
    Iteration is in list order, [begin()] is the head, [rbegin()] the last
    element. *)

From S2P Require Import Prelude.

Class StlLess (K : Type) := stl_less : K -> K -> bool.

Class StlOrder (K : Type) `{StlLess K} : Prop := {
  stl_less_irrefl (a : K) : stl_less a a = false;
  stl_less_trans (a b c : K) :
    stl_less a b = true -> stl_less b c = true -> stl_less a c = true;
  stl_less_total (a b : K) : stl_less a b = false -> stl_less b a = false -> a = b
}.

(** The key an element is compared by: the first component of a map's pair, the
    element itself for a set, the compared fields of a struct. *)
Class StlKeyed (E K : Type) := stl_key : E -> K.

#[export] Instance stl_keyed_pair {K V} : StlKeyed (K * V) K := fst.

#[export] Instance Z_keyed : StlKeyed Z Z := fun z => z.
#[export] Instance Z_stl_less : StlLess Z := Z.ltb.
#[export] Instance Z_stl_order : StlOrder Z.
Proof. split; unfold stl_less, Z_stl_less; intros *; rewrite ?Z.ltb_lt, ?Z.ltb_ge; lia. Qed.

Section container.
Context {E K : Type} `{HK : StlKeyed E K} `{HO : StlOrder K}.
Implicit Types (e x y : E) (k : K) (l : list E).

Definition stl_equiv (a b : K) : bool := negb (stl_less a b) && negb (stl_less b a).

(** [find(k)] *)
Fixpoint stl_find k l : option E :=
  match l with
  | [] => None
  | x :: l' => if stl_equiv k (stl_key x) then Some x else stl_find k l'
  end.

(** [insert(e)]: an element with an equivalent key is kept *)
Fixpoint stl_insert e l : list E :=
  match l with
  | [] => [e]
  | x :: l' =>
      if stl_less (stl_key e) (stl_key x) then e :: l
      else if stl_less (stl_key x) (stl_key e) then x :: stl_insert e l'
      else l
  end.

(** [m[k] = v]: an element with an equivalent key is replaced *)
Fixpoint stl_assign e l : list E :=
  match l with
  | [] => [e]
  | x :: l' =>
      if stl_less (stl_key e) (stl_key x) then e :: l
      else if stl_less (stl_key x) (stl_key e) then x :: stl_assign e l'
      else e :: l'
  end.

(** [erase(k)] *)
Fixpoint stl_erase k l : list E :=
  match l with
  | [] => []
  | x :: l' => if stl_equiv k (stl_key x) then l' else x :: stl_erase k l'
  end.

(** The representation invariant of the container: keys strictly increase. *)
Fixpoint stl_sorted l : Prop :=
  match l with
  | [] => True
  | x :: l' => Forall (fun y => stl_less (stl_key x) (stl_key y) = true) l' /\ stl_sorted l'
  end.

Lemma stl_equiv_eq (a b : K) : stl_equiv a b = true <-> a = b.
Proof.
  unfold stl_equiv. rewrite andb_true_iff, !negb_true_iff. split.
  - intros [? ?]. by apply stl_less_total.
  - intros ->. by rewrite !stl_less_irrefl.
Qed.

Lemma stl_equiv_refl (a : K) : stl_equiv a a = true.
Proof. by apply stl_equiv_eq. Qed.

Lemma stl_equiv_neq (a b : K) : a <> b -> stl_equiv a b = false.
Proof. intros Hn. apply not_true_is_false. by rewrite stl_equiv_eq. Qed.

Lemma stl_less_neq (a b : K) : stl_less a b = true -> a <> b.
Proof. intros Hl ->. by rewrite stl_less_irrefl in Hl. Qed.

Lemma stl_less_asym (a b : K) : stl_less a b = true -> stl_less b a = false.
Proof.
  intros H1. apply not_true_is_false. intros H2.
  pose proof (stl_less_trans _ _ _ H1 H2) as H3. by rewrite stl_less_irrefl in H3.
Qed.

Lemma Forall_less_trans (a b : K) l :
  stl_less a b = true ->
  Forall (fun y => stl_less b (stl_key y) = true) l ->
  Forall (fun y => stl_less a (stl_key y) = true) l.
Proof. intros Hab Hl. eapply Forall_impl; [exact Hl|]. intros y Hy. by eapply stl_less_trans. Qed.

(** Membership and lookup *)

Lemma stl_find_Some_elem k l x : stl_find k l = Some x -> x ∈ l /\ stl_key x = k.
Proof.
  induction l as [|y l IH]; simpl; [done|].
  destruct (stl_equiv k (stl_key y)) eqn:Hk.
  - intros [= ->]. apply stl_equiv_eq in Hk. split; [left|done].
  - intros Hf. destruct (IH Hf). split; [by right|done].
Qed.

Lemma stl_sorted_find_elem l x : stl_sorted l -> x ∈ l -> stl_find (stl_key x) l = Some x.
Proof.
  induction l as [|y l IH]; simpl; intros Hs Hx; [by apply not_elem_of_nil in Hx|].
  destruct Hs as [Hy Hs]. apply elem_of_cons in Hx as [->|Hx].
  - by rewrite stl_equiv_refl.
  - rewrite stl_equiv_neq; [by apply IH|].
    rewrite Forall_forall in Hy. intros Heq.
    pose proof (Hy _ Hx) as Hlt. rewrite Heq in Hlt. by rewrite stl_less_irrefl in Hlt.
Qed.

Lemma stl_find_None_elem k l x : stl_find k l = None -> x ∈ l -> stl_key x <> k.
Proof.
  induction l as [|y l IH]; simpl; intros Hf Hx; [by apply not_elem_of_nil in Hx|].
  destruct (stl_equiv k (stl_key y)) eqn:Hk; [done|].
  apply elem_of_cons in Hx as [->|Hx]; [|by apply IH].
  intros <-. by rewrite stl_equiv_refl in Hk.
Qed.

Lemma stl_find_all_less k l :
  Forall (fun y => stl_less k (stl_key y) = true) l -> stl_find k l = None.
Proof.
  induction 1 as [|y l Hy _ IH]; simpl; [done|].
  by rewrite stl_equiv_neq by (by apply stl_less_neq).
Qed.

Lemma stl_sorted_app l1 l2 :
  stl_sorted (l1 ++ l2) <->
  stl_sorted l1 /\ stl_sorted l2 /\
  Forall (fun x => Forall (fun y => stl_less (stl_key x) (stl_key y) = true) l2) l1.
Proof.
  induction l1 as [|x l1 IH]; simpl; [naive_solver|].
  rewrite IH, Forall_app, Forall_cons. naive_solver.
Qed.

(** [insert], [operator[]] and [erase] keep the order and act on one key. *)

Lemma stl_elem_insert e l x : x ∈ stl_insert e l -> x = e \/ x ∈ l.
Proof.
  induction l as [|y l IH]; simpl; [set_solver|].
  repeat case_match; set_solver.
Qed.

Lemma stl_elem_assign e l x : x ∈ stl_assign e l -> x = e \/ x ∈ l.
Proof.
  induction l as [|y l IH]; simpl; [set_solver|].
  repeat case_match; set_solver.
Qed.

Lemma stl_elem_erase k l x : x ∈ stl_erase k l -> x ∈ l.
Proof.
  induction l as [|y l IH]; simpl; [done|].
  case_match; set_solver.
Qed.

Lemma stl_sorted_insert e l : stl_sorted l -> stl_sorted (stl_insert e l).
Proof.
  induction l as [|y l IH]; simpl; [by repeat constructor|].
  intros [Hy Hs].
  destruct (stl_less (stl_key e) (stl_key y)) eqn:H1.
  { simpl. split; [|done]. constructor; [done|]. by eapply Forall_less_trans. }
  destruct (stl_less (stl_key y) (stl_key e)) eqn:H2; [|done].
  simpl. split; [|by apply IH].
  apply Forall_forall. intros x [->|Hx]%stl_elem_insert; [done|].
  rewrite Forall_forall in Hy. by apply Hy.
Qed.

Lemma stl_sorted_assign e l : stl_sorted l -> stl_sorted (stl_assign e l).
Proof.
  induction l as [|y l IH]; simpl; [by repeat constructor|].
  intros [Hy Hs].
  destruct (stl_less (stl_key e) (stl_key y)) eqn:H1.
  { simpl. split; [|done]. constructor; [done|]. by eapply Forall_less_trans. }
  destruct (stl_less (stl_key y) (stl_key e)) eqn:H2; simpl.
  - split; [|by apply IH].
    apply Forall_forall. intros x [->|Hx]%stl_elem_assign; [done|].
    rewrite Forall_forall in Hy. by apply Hy.
  - by rewrite (stl_less_total _ _ H1 H2).
Qed.

Lemma stl_sorted_erase k l : stl_sorted l -> stl_sorted (stl_erase k l).
Proof.
  induction l as [|y l IH]; simpl; [done|]. intros [Hy Hs].
  case_match; [done|]. simpl. split; [|by apply IH].
  apply Forall_forall. intros x Hx%stl_elem_erase.
  rewrite Forall_forall in Hy. by apply Hy.
Qed.

Lemma stl_find_insert_ne k e l :
  k <> stl_key e -> stl_find k (stl_insert e l) = stl_find k l.
Proof.
  intros Hne. induction l as [|y l IH]; simpl.
  - by rewrite stl_equiv_neq.
  - destruct (stl_less (stl_key e) (stl_key y)); simpl; [by rewrite (stl_equiv_neq k)|].
    destruct (stl_less (stl_key y) (stl_key e)); simpl; [by rewrite IH|done].
Qed.

Lemma stl_find_insert_fresh e l :
  stl_find (stl_key e) l = None -> stl_find (stl_key e) (stl_insert e l) = Some e.
Proof.
  induction l as [|y l IH]; simpl; [by rewrite stl_equiv_refl|].
  destruct (stl_equiv (stl_key e) (stl_key y)) eqn:Hk; [done|]. intros Hf.
  destruct (stl_less (stl_key e) (stl_key y)) eqn:H1; simpl; [by rewrite stl_equiv_refl|].
  destruct (stl_less (stl_key y) (stl_key e)) eqn:H2; simpl.
  - rewrite Hk. by apply IH.
  - exfalso. unfold stl_equiv in Hk. by rewrite H1, H2 in Hk.
Qed.

Lemma stl_insert_present e l x :
  stl_sorted l -> stl_find (stl_key e) l = Some x -> stl_insert e l = l.
Proof.
  induction l as [|y l IH]; simpl; [done|]. intros [Hy Hs] Hf.
  destruct (stl_less (stl_key e) (stl_key y)) eqn:H1.
  - rewrite stl_equiv_neq in Hf by (by apply stl_less_neq).
    rewrite stl_find_all_less in Hf; [done|]. by eapply Forall_less_trans.
  - destruct (stl_less (stl_key y) (stl_key e)) eqn:H2; [|done].
    rewrite stl_equiv_neq in Hf.
    + by rewrite IH.
    + intros Heq. by apply stl_less_neq in H2.
Qed.

Lemma stl_insert_Permutation e l :
  stl_find (stl_key e) l = None -> stl_insert e l ≡ₚ e :: l.
Proof.
  induction l as [|y l IH]; simpl; [done|].
  destruct (stl_equiv (stl_key e) (stl_key y)) eqn:Hk; [done|]. intros Hf.
  destruct (stl_less (stl_key e) (stl_key y)) eqn:H1; [done|].
  destruct (stl_less (stl_key y) (stl_key e)) eqn:H2.
  - rewrite IH by done. apply perm_swap.
  - exfalso. unfold stl_equiv in Hk. by rewrite H1, H2 in Hk.
Qed.

Lemma stl_find_assign_eq e l : stl_find (stl_key e) (stl_assign e l) = Some e.
Proof.
  induction l as [|y l IH]; simpl; [by rewrite stl_equiv_refl|].
  destruct (stl_less (stl_key e) (stl_key y)) eqn:H1; simpl; [by rewrite stl_equiv_refl|].
  destruct (stl_less (stl_key y) (stl_key e)) eqn:H2; simpl; [|by rewrite stl_equiv_refl].
  rewrite stl_equiv_neq; [done|]. intros Heq. by apply stl_less_neq in H2.
Qed.

Lemma stl_find_assign_ne k e l :
  k <> stl_key e -> stl_find k (stl_assign e l) = stl_find k l.
Proof.
  intros Hne. induction l as [|y l IH]; simpl; [by rewrite stl_equiv_neq|].
  destruct (stl_less (stl_key e) (stl_key y)) eqn:H1; simpl; [by rewrite (stl_equiv_neq k)|].
  destruct (stl_less (stl_key y) (stl_key e)) eqn:H2; simpl; [by rewrite IH|].
  rewrite <- (stl_less_total _ _ H1 H2). by rewrite (stl_equiv_neq k).
Qed.

Lemma stl_assign_fresh e l :
  stl_find (stl_key e) l = None -> stl_assign e l = stl_insert e l.
Proof.
  induction l as [|y l IH]; simpl; [done|].
  destruct (stl_equiv (stl_key e) (stl_key y)) eqn:Hk; [done|]. intros Hf.
  destruct (stl_less (stl_key e) (stl_key y)) eqn:H1; [done|].
  destruct (stl_less (stl_key y) (stl_key e)) eqn:H2; [by rewrite IH|].
  exfalso. unfold stl_equiv in Hk. by rewrite H1, H2 in Hk.
Qed.

Lemma stl_find_erase_ne k k' l :
  k <> k' -> stl_find k (stl_erase k' l) = stl_find k l.
Proof.
  intros Hne. induction l as [|y l IH]; simpl; [done|].
  destruct (stl_equiv k' (stl_key y)) eqn:Hk; simpl; [|by rewrite IH].
  apply stl_equiv_eq in Hk as <-. by rewrite stl_equiv_neq.
Qed.

Lemma stl_find_erase_eq k l : stl_sorted l -> stl_find k (stl_erase k l) = None.
Proof.
  induction l as [|y l IH]; simpl; [done|]. intros [Hy Hs].
  destruct (stl_equiv k (stl_key y)) eqn:Hk; simpl.
  - apply stl_equiv_eq in Hk as ->. by apply stl_find_all_less.
  - rewrite Hk. by apply IH.
Qed.

Lemma stl_erase_Permutation k l x :
  stl_find k l = Some x -> l ≡ₚ x :: stl_erase k l.
Proof.
  induction l as [|y l IH]; simpl; [done|].
  destruct (stl_equiv k (stl_key y)) eqn:Hk; [by intros [= ->]|].
  intros Hf. rewrite (IH Hf) at 1. apply perm_swap.
Qed.

Lemma stl_erase_absent k l : stl_find k l = None -> stl_erase k l = l.
Proof.
  induction l as [|y l IH]; simpl; [done|].
  destruct (stl_equiv k (stl_key y)) eqn:Hk; [done|]. intros Hf. by rewrite IH.
Qed.

Lemma stl_erase_head x l : stl_erase (stl_key x) (x :: l) = l.
Proof. simpl. by rewrite stl_equiv_refl. Qed.

Lemma stl_assign_Permutation e l x :
  stl_sorted l -> stl_find (stl_key e) l = Some x ->
  stl_assign e l ≡ₚ e :: stl_erase (stl_key e) l.
Proof.
  induction l as [|y l IH]; simpl; [done|]. intros [Hy Hs] Hf.
  destruct (stl_less (stl_key e) (stl_key y)) eqn:H1.
  - rewrite stl_equiv_neq in Hf by (by apply stl_less_neq).
    rewrite stl_find_all_less in Hf; [done|]. by eapply Forall_less_trans.
  - destruct (stl_less (stl_key y) (stl_key e)) eqn:H2.
    + assert (stl_equiv (stl_key e) (stl_key y) = false) as Hk.
      { apply stl_equiv_neq. intros Heq. by apply stl_less_neq in H2. }
      rewrite Hk in *. rewrite IH by done. apply perm_swap.
    + rewrite (stl_less_total _ _ H1 H2). by rewrite stl_equiv_refl.
Qed.

Lemma stl_length_insert e l :
  stl_find (stl_key e) l = None -> length (stl_insert e l) = S (length l).
Proof. intros Hf. by rewrite (stl_insert_Permutation e l Hf). Qed.

Lemma stl_length_erase k l x :
  stl_find k l = Some x -> length l = S (length (stl_erase k l)).
Proof. intros Hf. by rewrite (stl_erase_Permutation k l x Hf) at 1. Qed.

Lemma stl_length_assign e l x :
  stl_sorted l -> stl_find (stl_key e) l = Some x -> length (stl_assign e l) = length l.
Proof.
  intros Hs Hf. rewrite (stl_assign_Permutation e l x Hs Hf).
  by rewrite (stl_length_erase _ _ _ Hf).
Qed.

Lemma stl_sorted_NoDup l : stl_sorted l -> NoDup (stl_key <$> l).
Proof.
  induction l as [|y l IH]; simpl; [by constructor|]. intros [Hy Hs].
  constructor; [|by apply IH]. intros Hin.
  apply list_elem_of_fmap in Hin as (z & Hz & Hin).
  rewrite Forall_forall in Hy. specialize (Hy z Hin). rewrite Hz in Hy.
  by rewrite stl_less_irrefl in Hy.
Qed.

(** A sorted container is determined by its lookups. *)
Lemma stl_ext l1 l2 :
  stl_sorted l1 -> stl_sorted l2 -> (forall k, stl_find k l1 = stl_find k l2) -> l1 = l2.
Proof.
  revert l2. induction l1 as [|x l1 IH]; intros [|y l2]; simpl; intros Hs1 Hs2 Hf; [done|..].
  - specialize (Hf (stl_key y)). by rewrite stl_equiv_refl in Hf.
  - specialize (Hf (stl_key x)). by rewrite stl_equiv_refl in Hf.
  - destruct Hs1 as [Hx Hs1], Hs2 as [Hy Hs2].
    assert (stl_key x = stl_key y) as Hxy.
    { apply stl_less_total; apply not_true_is_false; intros Hlt.
      - pose proof (Hf (stl_key x)) as H1. rewrite stl_equiv_refl in H1.
        rewrite stl_equiv_neq in H1 by (by apply stl_less_neq).
        rewrite stl_find_all_less in H1; [done|]. by eapply Forall_less_trans.
      - pose proof (Hf (stl_key y)) as H1. rewrite stl_equiv_refl in H1.
        rewrite stl_equiv_neq in H1 by (by apply stl_less_neq).
        rewrite stl_find_all_less in H1; [done|]. by eapply Forall_less_trans. }
    pose proof (Hf (stl_key x)) as Hhd.
    rewrite Hxy, !stl_equiv_refl in Hhd. injection Hhd as ->.
    f_equal. apply IH; [done..|]. intros k.
    specialize (Hf k). destruct (stl_equiv k (stl_key y)) eqn:Hk; [|done].
    apply stl_equiv_eq in Hk as ->. by rewrite !stl_find_all_less.
Qed.

Lemma stl_sorted_perm_eq l1 l2 : stl_sorted l1 -> stl_sorted l2 -> l1 ≡ₚ l2 -> l1 = l2.
Proof.
  intros H1 H2 Hp. apply stl_ext; [done..|]. intros k.
  assert (Hf : forall l l', stl_sorted l' -> l ≡ₚ l' -> forall x, stl_find k l = Some x -> stl_find k l' = Some x).
  { intros l l' Hs Hll x [Hx <-]%stl_find_Some_elem. apply stl_sorted_find_elem; [done|]. by rewrite <- Hll. }
  destruct (stl_find k l1) as [x|] eqn:E1; [by rewrite (Hf l1 l2 H2 Hp x E1)|].
  destruct (stl_find k l2) as [x|] eqn:E2; [|done]. by rewrite (Hf l2 l1 H1 (symmetry Hp) x E2) in E1.
Qed.
End container.

Create HintDb stl.
(** ** Maps: elements are pairs *)

Section map.
Context {K V : Type} `{HO : StlOrder K}.
Implicit Types (m : list (K * V)).

Lemma stl_find_pair (k : K) m e : stl_find k m = Some e -> exists v, e = (k, v).
Proof. intros [_ Hk]%stl_find_Some_elem. destruct e as [k' v]. cbn in Hk. subst. eauto. Qed.

Lemma stl_find_assign_pair (k : K) (v : V) m : stl_find k (stl_assign (k, v) m) = Some (k, v).
Proof. exact (stl_find_assign_eq (k, v) m). Qed.
Lemma stl_assign_assign (k : K) (v v' : V) m :
  stl_sorted m -> stl_assign (k, v) (stl_assign (k, v') m) = stl_assign (k, v) m.
Proof.
  intros Hs. apply stl_ext; [auto using stl_sorted_assign..|].
  intros k'. destruct (decide (stl_equiv k' k = true)) as [E|E].
  - apply stl_equiv_eq in E as ->. by rewrite !stl_find_assign_pair.
  - assert (k' <> k) by (intros ->; by rewrite stl_equiv_refl in E).
    by rewrite !(stl_find_assign_ne k' (k, _)).
Qed.
End map.

(** ** What is found after an operation, and the keys of a map as a set *)

Lemma stl_find_erase_iff {K} `{StlOrder K} {V'} (k k' : K) (v : V') (m : list (K * V')) : stl_sorted m ->
  stl_find k (stl_erase k' m) = Some (k, v) <-> k <> k' /\ stl_find k m = Some (k, v).
Proof.
  intros Hs. split.
  - intros E. assert (k <> k') by (intros <-; by rewrite stl_find_erase_eq in E).
    by rewrite stl_find_erase_ne in E.
  - intros [Hne E]. by rewrite stl_find_erase_ne.
Qed.

Lemma stl_find_assign_iff {K} `{StlOrder K} {V'} (k k' : K) (v v' : V') (m : list (K * V')) :
  stl_find k (stl_assign (k', v') m) = Some (k, v) <-> (k = k' /\ v = v') \/ (k <> k' /\ stl_find k m = Some (k, v)).
Proof.
  split.
  - intros E. destruct (stl_equiv k k') eqn:Ek.
    + apply stl_equiv_eq in Ek as ->. rewrite stl_find_assign_pair in E. left. by inversion E.
    + assert (k <> k') by (intros ->; by rewrite stl_equiv_refl in Ek). right. by rewrite stl_find_assign_ne in E.
  - intros [[-> ->]|[Hne E]]; [apply stl_find_assign_pair|]. by rewrite stl_find_assign_ne.
Qed.

Lemma stl_elem_find_set {K} `{StlOrder K} `{!StlKeyed K K} (k : K) (l : list K) : (forall x : K, stl_key x = x) ->
  stl_sorted l -> k ∈ l <-> stl_find k l = Some k.
Proof.
  intros Hk Hs. split.
  - intros Hin. rewrite <- (Hk k) at 1. by apply stl_sorted_find_elem.
  - by intros [? _]%stl_find_Some_elem.
Qed.

Lemma stl_elem_insert_set {K} `{StlOrder K} `{!StlKeyed K K} (k x : K) (l : list K) : (forall x : K, stl_key x = x) ->
  stl_sorted l -> (x ∈ stl_insert k l) <-> x = k \/ (x ∈ l).
Proof.
  intros Hk Hs. split; [apply stl_elem_insert|]. intros Hx. destruct (stl_find k l) as [y|] eqn:E.
  - rewrite (stl_insert_present k l y) by (by rewrite ?Hk). destruct Hx as [->|]; [|done].
    apply stl_find_Some_elem in E as [Hy <-]. by rewrite Hk.
  - rewrite stl_insert_Permutation by (by rewrite Hk). by apply elem_of_cons.
Qed.

Lemma stl_elem_erase_set {K} `{StlOrder K} `{!StlKeyed K K} (k x : K) (l : list K) : (forall x : K, stl_key x = x) ->
  stl_sorted l -> (x ∈ stl_erase k l) <-> x <> k /\ (x ∈ l).
Proof.
  intros Hk Hs. rewrite !(stl_elem_find_set x) by (try apply stl_sorted_erase; done). split.
  - intros E. assert (x <> k) by (intros ->; by rewrite stl_find_erase_eq in E). by rewrite stl_find_erase_ne in E.
  - intros [Hne E]. by rewrite stl_find_erase_ne.
Qed.

(** The keys of a map are a set. *)
Lemma stl_keys_erase {K} `{StlOrder K} `{HKk : !StlKeyed K K} {V'} (k : K) (m : list (K * V')) : (forall x : K, stl_key x = x) ->
  fst <$> stl_erase k m = stl_erase k (fst <$> m).
Proof.
  intros Hk. induction m as [|[k' v] m IH]; [done|]. cbn. rewrite (Hk k').
  change (stl_key (k', v)) with k'. destruct (stl_equiv k k'); [done|]. cbn. f_equal. exact IH.
Qed.

Lemma stl_keys_assign {K} `{StlOrder K} `{HKk : !StlKeyed K K} {V'} (k : K) (v : V') (m : list (K * V')) :
  (forall x : K, stl_key x = x) -> stl_sorted m -> fst <$> stl_assign (k, v) m = stl_insert k (fst <$> m).
Proof.
  intros Hk. induction m as [|[k' v'] m IH]; [done|]. intros [_ Hs]. cbn. rewrite (Hk k'), (Hk k).
  change (stl_key (k', v')) with k'. change (stl_key (k, v)) with k.
  destruct (stl_less k k') eqn:E1; [done|]. destruct (stl_less k' k) eqn:E2; cbn.
  - f_equal. by apply IH.
  - by rewrite (stl_less_total k k').
Qed.

Lemma stl_keys_find {K} `{StlOrder K} `{HKk : !StlKeyed K K} {V'} (k : K) (m : list (K * V')) : (forall x : K, stl_key x = x) ->
  stl_find k (fst <$> m) = fst <$> stl_find k m.
Proof.
  intros Hk. induction m as [|[k' v] m IH]; [done|]. cbn. rewrite (Hk k'). change (stl_key (k', v)) with k'.
  by destruct (stl_equiv k k').
Qed.

Lemma stl_keys_sorted {K} `{StlOrder K} `{HKk : !StlKeyed K K} {V'} (m : list (K * V')) : (forall x : K, stl_key x = x) ->
  stl_sorted m -> stl_sorted (fst <$> m).
Proof.
  intros Hk. induction m as [|[k v] m IH]; [done|]. intros [Hf Hs]. split; [|by apply IH].
  apply Forall_fmap. eapply Forall_impl; [exact Hf|]. intros [k' v'] Hl. cbn. by rewrite !Hk.
Qed.

(** What a map holds, as a multiset. *)
Lemma stl_fmap_erase {K V X} `{StlOrder K} (f : K * V -> X) (k : K) (e : K * V) m :
  stl_find k m = Some e -> f <$> m ≡ₚ f e :: (f <$> stl_erase k m).
Proof. intros E. by rewrite (stl_erase_Permutation k m e E) at 1. Qed.

Lemma stl_fmap_assign {K V X} `{StlOrder K} (f : K * V -> X) (k : K) (v : V) m :
  stl_find k m = None -> f <$> stl_assign (k, v) m ≡ₚ f (k, v) :: (f <$> m).
Proof. intros E. rewrite stl_assign_fresh by exact E. by rewrite (stl_insert_Permutation (k, v) m E). Qed.

#[export] Hint Resolve stl_sorted_insert stl_sorted_assign stl_sorted_erase : stl.
