(* ===== verification/RefCount.v ===== *)
(** * Reference counts ([pro_ref_count.cpp])

    The store of live counted objects: an address maps to its [m_refCount];
    an address that is absent has been deleted (or never existed), and touching
    it is undefined behaviour, the result [None].  Counts are not wrapped: an
    object has at most as many references as there are pointers in memory. *)

From S2P Require Import Prelude.

Definition NULL : Z := 0.

(** [CProRefCount::AddRef] *)
Definition AddRef (p : Z) (rc : gmap Z nat) : option (gmap Z nat) :=
  n ← rc !! p; Some (<[p := S n]> rc).

(** [CProRefCount::Release]: the last reference deletes the object *)
Definition Release (p : Z) (rc : gmap Z nat) : option (gmap Z nat) :=
  n ← rc !! p;
  let refCount := (n - 1)%nat in
  Some (if decide (refCount = 0%nat) then delete p rc else <[p := refCount]> rc).

(** The loop [for (...) x->Release();] over a container of pointers. *)
Fixpoint ReleaseAll (ps : list Z) (rc : gmap Z nat) : option (gmap Z nat) :=
  match ps with
  | [] => Some rc
  | p :: ps' => rc' ← Release p rc; ReleaseAll ps' rc'
  end.

(** ** Ownership accounting

    [rc_ok ext ps rc]: every count in the store is the number of references the
    outside world holds ([ext]) plus the number the component holds, one for
    each occurrence in [ps]. *)

Definition occ (p : Z) (ps : list Z) : nat := count_occ Z.eq_dec ps p.

Definition rc_ok (ext : Z -> nat) (ps : list Z) (rc : gmap Z nat) : Prop :=
  forall p, rc !! p =
    let n := (ext p + occ p ps)%nat in if decide (n = 0%nat) then None else Some n.

(** The outside world gains one reference to [p]. *)
Definition ext_add (p : Z) (ext : Z -> nat) : Z -> nat :=
  fun q => (ext q + if decide (q = p) then 1 else 0)%nat.

Lemma occ_cons p q ps : occ p (q :: ps) = ((if decide (p = q) then 1 else 0) + occ p ps)%nat.
Proof. unfold occ. simpl. destruct (Z.eq_dec q p), (decide (p = q)); simpl; congruence. Qed.

Lemma occ_perm p ps qs : ps ≡ₚ qs -> occ p ps = occ p qs.
Proof. intros H. by apply (Permutation_count_occ Z.eq_dec). Qed.

Lemma occ_elem p ps : p ∈ ps -> (0 < occ p ps)%nat.
Proof. rewrite list_elem_of_In. intros H. by apply (count_occ_In Z.eq_dec) in H. Qed.

Lemma occ_app p ps qs : occ p (ps ++ qs) = (occ p ps + occ p qs)%nat.
Proof. apply count_occ_app. Qed.

Lemma rc_ok_perm ext ps qs rc : ps ≡ₚ qs -> rc_ok ext ps rc -> rc_ok ext qs rc.
Proof. intros Hp H p. rewrite (H p). by rewrite (occ_perm p ps qs Hp). Qed.

Lemma rc_ok_alive ext ps rc p :
  rc_ok ext ps rc -> (0 < ext p + occ p ps)%nat -> rc !! p = Some (ext p + occ p ps)%nat.
Proof. intros H Hp. rewrite (H p). simpl. case_decide; [lia|done]. Qed.

Lemma rc_ok_is_Some ext ps rc p :
  rc_ok ext ps rc -> is_Some (rc !! p) <-> (0 < ext p + occ p ps)%nat.
Proof.
  intros H. split.
  - intros [n Hn]. rewrite (H p) in Hn. simpl in Hn. case_decide; [done|lia].
  - intros Hp. rewrite (rc_ok_alive _ _ _ _ H Hp). by eexists.
Qed.

Lemma rc_ok_elem_alive ext ps rc p : rc_ok ext ps rc -> p ∈ ps -> is_Some (rc !! p).
Proof. intros H Hp%occ_elem. rewrite (rc_ok_alive _ _ _ _ H); [by eexists|lia]. Qed.

Lemma AddRef_ok ext ps rc p :
  rc_ok ext ps rc -> (0 < ext p + occ p ps)%nat ->
  exists rc', AddRef p rc = Some rc' /\ rc_ok ext (p :: ps) rc'.
Proof.
  intros H Hp. unfold AddRef. rewrite (rc_ok_alive _ _ _ _ H Hp). simpl.
  eexists. split; [done|]. intros q. rewrite occ_cons. simpl.
  destruct (decide (q = p)) as [->|Hne].
  - rewrite lookup_insert_eq. case_decide; [lia|]. f_equal. lia.
  - rewrite lookup_insert_ne by done. apply H.
Qed.

Lemma Release_ok ext ps rc p :
  rc_ok ext (p :: ps) rc -> exists rc', Release p rc = Some rc' /\ rc_ok ext ps rc'.
Proof.
  intros H. pose proof (H p) as Hp. rewrite occ_cons in Hp. simpl in Hp.
  destruct (decide (p = p)); [|done]. rewrite decide_False in Hp by lia.
  unfold Release. rewrite Hp. simpl. eexists. split; [done|]. intros q.
  pose proof (H q) as Hq. rewrite occ_cons in Hq. simpl in Hq |- *.
  replace (ext p + S (occ p ps) - 1)%nat with (ext p + occ p ps)%nat by lia.
  destruct (decide (q = p)) as [->|Hne]; destruct (decide (ext p + occ p ps = 0)%nat).
  - by rewrite lookup_delete_eq.
  - by rewrite lookup_insert_eq.
  - by rewrite lookup_delete_ne.
  - by rewrite lookup_insert_ne.
Qed.

Lemma ReleaseAll_ok ext ps qs rc :
  rc_ok ext (ps ++ qs) rc -> exists rc', ReleaseAll ps rc = Some rc' /\ rc_ok ext qs rc'.
Proof.
  revert rc. induction ps as [|p ps IH]; simpl; intros rc H; [by eexists|].
  destruct (Release_ok _ _ _ _ H) as (rc1 & -> & H1). simpl. by apply IH.
Qed.

(** A reference the component holds may be handed to the outside world. *)
Lemma rc_ok_transfer ext ps rc p :
  rc_ok ext (p :: ps) rc -> rc_ok (ext_add p ext) ps rc.
Proof.
  intros H q. rewrite (H q), occ_cons. unfold ext_add.
  replace (ext q + ((if decide (q = p) then 1 else 0) + occ q ps))%nat
    with (ext q + (if decide (q = p) then 1 else 0) + occ q ps)%nat by lia. done.
Qed.

(** With no reference left in the component, the store holds exactly what the
    outside world owns: nothing leaks. *)
Lemma rc_ok_nil ext rc p : rc_ok ext [] rc -> ext p = 0%nat -> rc !! p = None.
Proof. intros H Hp. rewrite (H p), Hp. done. Qed.

Create HintDb refcount.
#[export] Hint Resolve rc_ok_transfer rc_ok_elem_alive : refcount.
