(* ===== verification/Reorder.v ===== *)
(** * The reordering buffer ([pro_reorder.cpp], [pro_reorder.h])

    [CProReorder] buffers RTP packets by their sequence number, extended from 16
    to 64 bits, and hands them out in order.  The packets are counted objects
    shared with the caller; the clock is an argument of the operations that read
    it ([ProGetTickCount64]). *)

From S2P Require Import Prelude StlMap RefCount.

Module CProReorder.

Definition MAX_LOSS_COUNT : Z := 15000.

(** What the buffer reads and writes of an [IRtpPacket]. *)
Record packet := mkPacket {
  GetSequence : Z;   (* PRO_UINT16 *)
  GetTick_i : Z      (* PRO_INT64 *)
}.

(** The packets in memory: their counts and their fields. *)
Record store := mkStore {
  st_rc : gmap Z nat;
  st_pkt : gmap Z packet
}.

Definition deref (p : Z) (st : store) : option packet :=
  _ ← st_rc st !! p; st_pkt st !! p.

Definition SetTick_i (p tick : Z) (st : store) : option store :=
  d ← deref p st;
  Some (mkStore (st_rc st) (<[p := mkPacket (GetSequence d) tick]> (st_pkt st))).

Definition withRc (f : gmap Z nat -> option (gmap Z nat)) (st : store) : option store :=
  rc ← f (st_rc st); Some (mkStore rc (st_pkt st)).

Record t := mkReorder {
  m_maxPacketCount : Z;      (* unsigned long *)
  m_maxWaitingDuration : Z;  (* PRO_INT64, seconds *)
  m_maxBrokenDuration : Z;   (* PRO_INT64, seconds *)
  m_minSeq64 : Z;            (* PRO_INT64, -1 before the first packet *)
  m_lastValidTick : Z;       (* PRO_INT64 *)
  m_seq64ToPacket : list (Z * Z)
}.

(** [CProReorder::CProReorder] *)
Definition init : t := mkReorder 5 1 10 (-1) 0 [].

(** [SetMaxPacketCount], [SetMaxWaitingDuration], [SetMaxBrokenDuration]: the
    argument is an [unsigned char]; zero is refused. *)
Definition SetMaxPacketCount (n : Z) (r : t) : t :=
  if n =? 0 then r else
  mkReorder n (m_maxWaitingDuration r) (m_maxBrokenDuration r) (m_minSeq64 r)
    (m_lastValidTick r) (m_seq64ToPacket r).

Definition SetMaxWaitingDuration (n : Z) (r : t) : t :=
  if n =? 0 then r else
  mkReorder (m_maxPacketCount r) n (m_maxBrokenDuration r) (m_minSeq64 r)
    (m_lastValidTick r) (m_seq64ToPacket r).

Definition SetMaxBrokenDuration (n : Z) (r : t) : t :=
  if n =? 0 then r else
  mkReorder (m_maxPacketCount r) (m_maxWaitingDuration r) n (m_minSeq64 r)
    (m_lastValidTick r) (m_seq64ToPacket r).

Definition setQueue (minSeq64 lastValidTick : Z) (q : list (Z * Z)) (r : t) : t :=
  mkReorder (m_maxPacketCount r) (m_maxWaitingDuration r) (m_maxBrokenDuration r)
    minSeq64 lastValidTick q.

(** The computation of [seq64] in [PushBack]: the 64-bit number that a 16-bit
    sequence number stands for, near [m_minSeq64]; [-1] asks for a restart.  The
    operands are promoted to [int] and the distances truncated to 16 bits. *)
Definition extendSeq (minSeq64 seq16 : Z) : Z :=
  if seq16 =? u16 minSeq64 then minSeq64
  else if seq16 <? u16 minSeq64 then
    let dist1 := u16 (65535 - u16 minSeq64 + seq16 + 1) in
    let dist2 := u16 (u16 minSeq64 - seq16) in
    if (dist1 <? dist2) && (dist1 <? MAX_LOSS_COUNT)
    then Z.lor (Z.shiftl (Z.shiftr minSeq64 16 + 1) 16) seq16
    else if (dist2 <? dist1) && (dist2 <? MAX_LOSS_COUNT)
    then Z.lor (Z.shiftl (Z.shiftr minSeq64 16) 16) seq16
    else -1
  else
    let dist1 := u16 (seq16 - u16 minSeq64) in
    let dist2 := u16 (65535 - seq16 + u16 minSeq64 + 1) in
    if (dist1 <? dist2) && (dist1 <? MAX_LOSS_COUNT)
    then Z.lor (Z.shiftl (Z.shiftr minSeq64 16) 16) seq16
    else if (dist2 <? dist1) && (dist2 <? MAX_LOSS_COUNT)
    then Z.lor (Z.shiftl (Z.shiftr minSeq64 16 - 1) 16) seq16
    else -1.

(** The block that releases everything buffered and starts again from the new
    packet (it stands twice in [PushBack]). *)
Definition restartWith (packet seq16 tick : Z) (r : t) (st : store) : option (t * store) :=
  st1 ← withRc (ReleaseAll (snd <$> m_seq64ToPacket r)) st;
  st2 ← SetTick_i packet tick st1;
  st3 ← withRc (AddRef packet) st2;
  Some (setQueue seq16 tick [(seq16, packet)] r, st3).

(** [CProReorder::PushBack] *)
Definition PushBack (packet tick : Z) (r : t) (st : store) : option (t * store) :=
  if packet =? NULL then Some (r, st) else
  d ← deref packet st;
  let seq16 := GetSequence d in
  let r := if m_minSeq64 r =? -1 then setQueue seq16 tick (m_seq64ToPacket r) r else r in
  if tick - m_lastValidTick r >? m_maxBrokenDuration r * 1000
  then restartWith packet seq16 tick r st
  else
    let seq64 := extendSeq (m_minSeq64 r) seq16 in
    if seq64 =? -1 then restartWith packet seq16 tick r st
    else if seq64 >=? m_minSeq64 r then
      match stl_find seq64 (m_seq64ToPacket r) with
      | None =>
          st1 ← SetTick_i packet tick st;
          st2 ← withRc (AddRef packet) st1;
          Some (setQueue (m_minSeq64 r) tick (stl_assign (seq64, packet) (m_seq64ToPacket r)) r,
                st2)
      | Some _ => Some (r, st)
      end
    else Some (r, st).

(** [CProReorder::PopFront]: the caller receives the buffer's reference *)
Definition PopFront (tick : Z) (r : t) (st : store) : option (Z * t) :=
  match m_seq64ToPacket r with
  | [] => Some (NULL, r)
  | (seq64, packet) :: rest =>
      d ← deref packet st;
      if (seq64 =? m_minSeq64 r)
         || (Z.of_nat (length (m_seq64ToPacket r)) >=? m_maxPacketCount r)
         || (tick - GetTick_i d >=? m_maxWaitingDuration r * 1000)
      then Some (packet, setQueue (seq64 + 1) (m_lastValidTick r) rest r)
      else Some (NULL, r)
  end.

(** [CProReorder::Reset] *)
Definition Reset (r : t) (st : store) : option (t * store) :=
  st1 ← withRc (ReleaseAll (snd <$> m_seq64ToPacket r)) st;
  Some (setQueue (-1) 0 [] r, st1).

(** ** Sequence extension *)

(** The reference: the representative of [seq16] nearest to [m], when one lies
    within [MAX_LOSS_COUNT]. *)
Definition nearest (m seq16 : Z) : Z :=
  let d := u16 (seq16 - m) in
  if d <? MAX_LOSS_COUNT then m + d
  else if 65536 - d <? MAX_LOSS_COUNT then m + d - 65536
  else -1.

Ltac split_ltb :=
  repeat match goal with
  | |- context [?a <? ?b] => destruct (Z.ltb_spec a b)
  end; simpl.

Lemma extendSeq_nearest m s : 0 <= s < 65536 -> extendSeq m s = nearest m s.
Proof.
  intros Hs. unfold extendSeq, nearest, MAX_LOSS_COUNT.
  rewrite !lor_shiftl_add, !Z.shiftr_div_pow2 by lia.
  destruct (Z.eqb_spec s (u16 m)) as [He|He]; [split_ltb; solve_wrap|].
  destruct (Z.ltb_spec s (u16 m)) as [Hl|Hl]; split_ltb; solve_wrap.
Qed.

Lemma nearest_near m n : Z.abs (n - m) < MAX_LOSS_COUNT -> nearest m (u16 n) = n.
Proof. unfold nearest, MAX_LOSS_COUNT. intros Hn. split_ltb; solve_wrap. Qed.

Lemma nearest_cases m s : 0 <= s < 65536 ->
  nearest m s = -1 \/ u16 (nearest m s) = s /\ Z.abs (nearest m s - m) < MAX_LOSS_COUNT.
Proof.
  unfold nearest, MAX_LOSS_COUNT. intros Hs. split_ltb; first [by left | right; solve_wrap].
Qed.

Lemma extendSeq_range m s : 0 <= s < 65536 -> 0 <= m ->
  extendSeq m s = -1 \/ Z.abs (extendSeq m s - m) < MAX_LOSS_COUNT.
Proof.
  intros Hs Hm. rewrite extendSeq_nearest by done.
  destruct (nearest_cases m s Hs) as [|[_ ?]]; auto.
Qed.

(** ** The invariant

    [ext] is the references held outside; every buffered packet is alive, has
    fields in memory and is counted once. *)

Record inv (ext : Z -> nat) (r : t) (st : store) : Prop := {
  inv_sorted : stl_sorted (m_seq64ToPacket r);
  inv_keys : Forall (fun kp => m_minSeq64 r <= fst kp) (m_seq64ToPacket r);
  inv_min : m_minSeq64 r = -1 /\ m_seq64ToPacket r = [] \/ 0 <= m_minSeq64 r;
  inv_rc : rc_ok ext (snd <$> m_seq64ToPacket r) (st_rc st);
  inv_pkt : forall p, is_Some (st_rc st !! p) -> is_Some (st_pkt st !! p);
  inv_seq16 : forall p d, st_pkt st !! p = Some d -> 0 <= GetSequence d < 65536;
  inv_null : Forall (fun kp => snd kp <> NULL) (m_seq64ToPacket r)
}.

Lemma deref_alive ext r st p :
  inv ext r st -> is_Some (st_rc st !! p) ->
  exists d, deref p st = Some d /\ st_pkt st !! p = Some d /\ 0 <= GetSequence d < 65536.
Proof.
  intros Hi [n Hn]. destruct (inv_pkt _ _ _ Hi p) as [d Hd]; [by eexists|].
  exists d. unfold deref. rewrite Hn. simpl. do 2 (split; [done|]). by eapply inv_seq16.
Qed.

(** The buffer after a restart satisfies the invariant, whatever was buffered. *)
Lemma restartWith_ok ext r st p d tick :
  inv ext r st -> p <> NULL -> (0 < ext p)%nat -> st_pkt st !! p = Some d ->
  exists st', restartWith p (GetSequence d) tick r st =
      Some (setQueue (GetSequence d) tick [(GetSequence d, p)] r, st') /\
    inv ext (setQueue (GetSequence d) tick [(GetSequence d, p)] r) st'.
Proof.
  intros Hi Hnull Hp Hd. unfold restartWith, withRc.
  destruct (ReleaseAll_ok ext (snd <$> m_seq64ToPacket r) [] (st_rc st)) as (rc1 & -> & H1).
  { rewrite app_nil_r. apply Hi. }
  simpl. unfold SetTick_i, deref. simpl.
  rewrite (rc_ok_alive ext [] rc1 p) by (done || lia). simpl. rewrite Hd. simpl.
  destruct (AddRef_ok ext [] rc1 p H1) as (rc2 & -> & H2); [lia|]. simpl.
  eexists. split; [done|].
  pose proof (inv_seq16 _ _ _ Hi p d Hd) as Hseq.
  split; simpl; [by repeat constructor| | | | | |by repeat constructor].
  - constructor; [simpl; lia|constructor].
  - right. lia.
  - done.
  - intros q Hq. destruct (decide (q = p)) as [->|Hne]; [rewrite lookup_insert_eq; by eexists|].
    rewrite lookup_insert_ne by done. apply Hi. apply (rc_ok_is_Some _ _ _ _ (inv_rc _ _ _ Hi)).
    apply (rc_ok_is_Some _ _ _ _ H2) in Hq. rewrite occ_cons, decide_False in Hq by done.
    simpl in Hq. lia.
  - intros q d' Hq. destruct (decide (q = p)) as [->|Hne].
    + rewrite lookup_insert_eq in Hq. by injection Hq as <-.
    + rewrite lookup_insert_ne in Hq by done. by eapply Hi.
Qed.

(** Writing a buffered packet's tick changes no sequence number and no count. *)
Lemma SetTick_i_fields p d tick st :
  deref p st = Some d ->
  SetTick_i p tick st =
    Some (mkStore (st_rc st) (<[p := mkPacket (GetSequence d) tick]> (st_pkt st))).
Proof. intros Hd. unfold SetTick_i. by rewrite Hd. Qed.

Lemma inv_insert ext r st p d tick seq64 :
  inv ext r st -> p <> NULL -> (0 < ext p)%nat -> st_pkt st !! p = Some d ->
  m_minSeq64 r <= seq64 -> 0 <= m_minSeq64 r ->
  stl_find seq64 (m_seq64ToPacket r) = None ->
  exists st', (st1 ← SetTick_i p tick st; withRc (AddRef p) st1) = Some st' /\
    inv ext (setQueue (m_minSeq64 r) tick (stl_assign (seq64, p) (m_seq64ToPacket r)) r) st'.
Proof.
  intros Hi Hnull Hp Hd Hge Hmin Hf.
  assert (deref p st = Some d) as Hder.
  { unfold deref. by rewrite (rc_ok_alive _ _ _ _ (inv_rc _ _ _ Hi)) by lia. }
  rewrite (SetTick_i_fields _ _ _ _ Hder). unfold withRc. simpl.
  destruct (AddRef_ok ext _ _ p (inv_rc _ _ _ Hi)) as (rc2 & -> & H2); [lia|]. simpl.
  eexists. split; [done|].
  assert (stl_assign (seq64, p) (m_seq64ToPacket r) ≡ₚ (seq64, p) :: m_seq64ToPacket r) as Hperm.
  { rewrite stl_assign_fresh by done. by apply stl_insert_Permutation. }
  split; simpl.
  - apply stl_sorted_assign, Hi.
  - rewrite Hperm. constructor; [done|apply Hi].
  - right. done.
  - eapply rc_ok_perm; [|exact H2]. by rewrite Hperm.
  - intros q Hq. destruct (decide (q = p)) as [->|Hne]; [rewrite lookup_insert_eq; by eexists|].
    rewrite lookup_insert_ne by done. apply Hi. apply (rc_ok_is_Some _ _ _ _ (inv_rc _ _ _ Hi)).
    apply (rc_ok_is_Some _ _ _ _ H2) in Hq. by rewrite occ_cons, decide_False in Hq by done.
  - intros q d' Hq. destruct (decide (q = p)) as [->|Hne].
    + rewrite lookup_insert_eq in Hq. injection Hq as <-. simpl. by eapply Hi.
    + rewrite lookup_insert_ne in Hq by done. by eapply Hi.
  - rewrite Hperm. constructor; [done|apply Hi].
Qed.

(** The state after the first lines of [PushBack]. *)
Definition armed (seq16 tick : Z) (r : t) : t :=
  if m_minSeq64 r =? -1 then setQueue seq16 tick (m_seq64ToPacket r) r else r.

Lemma inv_armed ext r st seq16 tick :
  0 <= seq16 -> inv ext r st -> inv ext (armed seq16 tick r) st /\ 0 <= m_minSeq64 (armed seq16 tick r).
Proof.
  intros Hs Hi. unfold armed. destruct (Z.eqb_spec (m_minSeq64 r) (-1)) as [He|He].
  - destruct (inv_min _ _ _ Hi) as [[_ Hq]|]; [|lia].
    split; [|done]. destruct Hi. split; simpl; rewrite ?Hq in *; try done. by right.
  - split; [done|]. destruct (inv_min _ _ _ Hi) as [[]|]; lia.
Qed.

(** What a push does to the buffer, by cases on the clock and on the number. *)
Inductive push_effect (seq16 tick p : Z) (r : t) : t -> Prop :=
| push_restart :
    tick - m_lastValidTick r > m_maxBrokenDuration r * 1000 \/ nearest (m_minSeq64 r) seq16 = -1 ->
    push_effect seq16 tick p r (setQueue seq16 tick [(seq16, p)] r)
| push_buffered n :
    tick - m_lastValidTick r <= m_maxBrokenDuration r * 1000 ->
    nearest (m_minSeq64 r) seq16 = n -> m_minSeq64 r <= n ->
    stl_find n (m_seq64ToPacket r) = None ->
    push_effect seq16 tick p r
      (setQueue (m_minSeq64 r) tick (stl_assign (n, p) (m_seq64ToPacket r)) r)
| push_duplicate n q :
    tick - m_lastValidTick r <= m_maxBrokenDuration r * 1000 ->
    nearest (m_minSeq64 r) seq16 = n -> m_minSeq64 r <= n ->
    stl_find n (m_seq64ToPacket r) = Some q ->
    push_effect seq16 tick p r r
| push_late n :
    tick - m_lastValidTick r <= m_maxBrokenDuration r * 1000 ->
    nearest (m_minSeq64 r) seq16 = n -> n <> -1 -> n < m_minSeq64 r ->
    push_effect seq16 tick p r r.

Lemma PushBack_ok ext r st p d tick :
  inv ext r st -> p <> NULL -> (0 < ext p)%nat -> st_pkt st !! p = Some d ->
  exists r' st', PushBack p tick r st = Some (r', st') /\ inv ext r' st' /\
    push_effect (GetSequence d) tick p (armed (GetSequence d) tick r) r'.
Proof.
  intros Hi Hnull Hp Hd. pose proof (inv_seq16 _ _ _ Hi p d Hd) as Hs.
  destruct (deref_alive _ _ _ p Hi) as (d' & Hder & Hd' & _).
  { apply (rc_ok_is_Some _ _ _ _ (inv_rc _ _ _ Hi)). lia. }
  assert (d' = d) as -> by congruence.
  destruct (inv_armed ext r st (GetSequence d) tick) as [Ha Hmin]; [lia|done|].
  unfold PushBack. destruct (Z.eqb_spec p NULL) as [|_]; [done|].
  rewrite Hder. simpl. fold (armed (GetSequence d) tick r).
  set (r1 := armed (GetSequence d) tick r) in *.
  rewrite extendSeq_nearest by done.
  destruct (Z.gtb_spec (tick - m_lastValidTick r1) (m_maxBrokenDuration r1 * 1000)).
  { destruct (restartWith_ok _ _ _ p d tick Ha Hnull Hp Hd) as (st' & -> & ?).
    do 2 eexists. split_and!; [done..|]. constructor. lia. }
  destruct (Z.eqb_spec (nearest (m_minSeq64 r1) (GetSequence d)) (-1)) as [He|He].
  { destruct (restartWith_ok _ _ _ p d tick Ha Hnull Hp Hd) as (st' & -> & ?).
    do 2 eexists. split_and!; [done..|]. constructor. by right. }
  rewrite Z.geb_leb. destruct (Z.leb_spec (m_minSeq64 r1) (nearest (m_minSeq64 r1) (GetSequence d))) as [Hge|Hlt].
  2:{ do 2 eexists. split_and!; [done..|]. by eapply push_late. }
  destruct (stl_find _ _) as [q|] eqn:Hf.
  { do 2 eexists. split_and!; [done..|]. by eapply push_duplicate. }
  destruct (inv_insert _ _ _ p d tick _ Ha Hnull Hp Hd Hge Hmin Hf) as (st' & Heq & ?).
  do 2 eexists. split_and!; [|done|by eapply push_buffered].
  destruct (SetTick_i p tick st) as [st1|]; simpl in *; [|done]. by rewrite Heq.
Qed.

(** pushing a packet the caller holds never touches freed memory, keeps the
    invariant (in particular every count stays exact), and changes the buffer in
    one of four ways: restart, insertion under the nearest 64-bit number, or
    nothing for a duplicate or a late packet. *)
Theorem PushBack_correct ext r st p d tick :
  inv ext r st -> p <> NULL -> (0 < ext p)%nat -> st_pkt st !! p = Some d ->
  exists r' st', PushBack p tick r st = Some (r', st') /\ inv ext r' st' /\
    push_effect (GetSequence d) tick p (armed (GetSequence d) tick r) r'.
Proof. apply PushBack_ok. Qed.

(** ** Popping *)

(** The head may leave: it is the next number, or the buffer is full, or the head
    has waited long enough. *)
Definition ready (tick seq64 : Z) (d : packet) (r : t) : Prop :=
  seq64 = m_minSeq64 r
  \/ m_maxPacketCount r <= Z.of_nat (length (m_seq64ToPacket r))
  \/ m_maxWaitingDuration r * 1000 <= tick - GetTick_i d.

#[export] Instance ready_dec tick seq64 d r : Decision (ready tick seq64 d r).
Proof. unfold ready. apply _. Defined.

Lemma inv_tail ext r st k p rest :
  inv ext r st -> m_seq64ToPacket r = (k, p) :: rest ->
  inv (ext_add p ext) (setQueue (k + 1) (m_lastValidTick r) rest r) st.
Proof.
  intros Hi Hq. pose proof (inv_sorted _ _ _ Hi) as Hs. pose proof (inv_keys _ _ _ Hi) as Hk.
  pose proof (inv_rc _ _ _ Hi) as Hrc. pose proof (inv_null _ _ _ Hi) as Hn.
  rewrite Hq in *. simpl in *.
  destruct Hs as [Hlt Hs]. apply Forall_cons in Hk as [Hk _].
  split; simpl.
  - done.
  - eapply Forall_impl; [exact Hlt|]. intros [k' p']. unfold stl_less, Z_stl_less, stl_key, stl_keyed_pair.
    simpl. rewrite Z.ltb_lt. lia.
  - right. simpl in Hk. destruct (inv_min _ _ _ Hi) as [[_ ?]|]; [congruence|]. lia.
  - by apply rc_ok_transfer.
  - apply Hi.
  - apply Hi.
  - by apply Forall_cons in Hn as [_ ?].
Qed.

Lemma PopFront_ok ext r st tick :
  inv ext r st ->
  match m_seq64ToPacket r with
  | [] => PopFront tick r st = Some (NULL, r)
  | (k, p) :: rest =>
      exists d, deref p st = Some d /\
        (ready tick k d r ->
           PopFront tick r st = Some (p, setQueue (k + 1) (m_lastValidTick r) rest r) /\
           p <> NULL /\
           inv (ext_add p ext) (setQueue (k + 1) (m_lastValidTick r) rest r) st) /\
        (~ ready tick k d r -> PopFront tick r st = Some (NULL, r))
  end.
Proof.
  intros Hi. unfold PopFront. destruct (m_seq64ToPacket r) as [|[k p] rest] eqn:Hq; [done|].
  destruct (deref_alive ext r st p Hi) as (d & Hd & _).
  { eapply rc_ok_elem_alive; [apply Hi|]. rewrite Hq. simpl. by left. }
  exists d. split; [done|]. rewrite Hd. simpl.
  match goal with |- context [if ?b then Some (p, _) else _] => destruct b eqn:Hb end.
  - split; [|intros Hn; contradict Hn].
    + intros _. split_and!; [done| |by apply inv_tail].
      pose proof (inv_null _ _ _ Hi) as Hn. rewrite Hq in Hn. by apply Forall_cons in Hn as [? _].
    + rewrite !orb_true_iff, Z.eqb_eq, !Z.geb_leb, !Z.leb_le in Hb. unfold ready. rewrite Hq.
      simpl in *. tauto.
  - split; [intros Hr; contradict Hb|done].
    rewrite not_false_iff_true, !orb_true_iff, Z.eqb_eq, !Z.geb_leb, !Z.leb_le.
    unfold ready in Hr. rewrite Hq in Hr. simpl in *. tauto.
Qed.

(** [PopFront] is defined on every reachable buffer and returns the buffered
    packet with the smallest 64-bit number exactly when it may leave; its
    reference passes to the caller, the next expected number is one more, and
    otherwise the buffer does not change and NULL is returned. *)
Theorem PopFront_correct ext r st tick :
  inv ext r st ->
  match m_seq64ToPacket r with
  | [] => PopFront tick r st = Some (NULL, r)
  | (k, p) :: rest =>
      exists d, deref p st = Some d /\
        (ready tick k d r ->
           PopFront tick r st = Some (p, setQueue (k + 1) (m_lastValidTick r) rest r) /\
           p <> NULL /\
           inv (ext_add p ext) (setQueue (k + 1) (m_lastValidTick r) rest r) st) /\
        (~ ready tick k d r -> PopFront tick r st = Some (NULL, r))
  end.
Proof. apply PopFront_ok. Qed.

(** ** Runs *)

Inductive op := OpPush (p tick : Z) | OpPop (tick : Z) | OpReset.

Inductive event := Popped (seq64 p : Z) | Restarted.

(** The events of one operation: a pop's packet with its 64-bit number, and a
    restart of the numbering ([Reset], the broken stream, an unrelated number). *)
Definition step (o : op) (r : t) (st : store) : option (list event * t * store) :=
  match o with
  | OpPush p tick =>
      rs ← PushBack p tick r st;
      let evs :=
        match deref p st with
        | Some d =>
            let r1 := armed (GetSequence d) tick r in
            if (m_minSeq64 r =? -1)
               || (tick - m_lastValidTick r1 >? m_maxBrokenDuration r1 * 1000)
               || (extendSeq (m_minSeq64 r1) (GetSequence d) =? -1)
            then [Restarted] else []
        | None => []
        end in
      Some (evs, rs.1, rs.2)
  | OpPop tick =>
      pr ← PopFront tick r st;
      Some (match m_seq64ToPacket r with
            | (k, p) :: _ => if pr.1 =? NULL then [] else [Popped k p]
            | [] => []
            end, pr.2, st)
  | OpReset => rs ← Reset r st; Some ([Restarted], rs.1, rs.2)
  end.

Fixpoint run (os : list op) (r : t) (st : store) : option (list event * t * store) :=
  match os with
  | [] => Some ([], r, st)
  | o :: os' =>
      x ← step o r st;
      y ← run os' x.1.2 x.2;
      Some (x.1.1 ++ y.1.1, y.1.2, y.2)
  end.

(** The references the outside world holds along a run: a push needs one to the
    packet, a pop hands one over. *)
Fixpoint callers_ok (ext : Z -> nat) (os : list op) (r : t) (st : store) : Prop :=
  match os with
  | [] => True
  | o :: os' =>
      match o with
      | OpPush p _ => p <> NULL /\ (0 < ext p)%nat /\ is_Some (st_pkt st !! p)
      | _ => True
      end /\
      match step o r st with
      | Some (evs, r', st') =>
          callers_ok (match evs with [Popped _ p] => ext_add p ext | _ => ext end) os' r' st'
      | None => True
      end
  end.

(** Popped numbers increase strictly until the numbering restarts. *)
Fixpoint increasing (lo : Z) (evs : list event) : Prop :=
  match evs with
  | [] => True
  | Popped k _ :: evs' => lo <= k /\ increasing (k + 1) evs'
  | Restarted :: evs' => exists lo', increasing lo' evs'
  end.

Lemma Reset_correct ext r st :
  inv ext r st -> exists st', Reset r st = Some (setQueue (-1) 0 [] r, st') /\
    inv ext (setQueue (-1) 0 [] r) st'.
Proof.
  intros Hi. unfold Reset, withRc.
  destruct (ReleaseAll_ok ext (snd <$> m_seq64ToPacket r) [] (st_rc st)) as (rc1 & -> & H1).
  { rewrite app_nil_r. apply Hi. }
  simpl. eexists. split; [done|]. split; simpl; [done|by constructor|by left|done| |apply Hi|by constructor].
  intros p Hp. apply Hi. apply (rc_ok_is_Some _ _ _ _ (inv_rc _ _ _ Hi)).
  apply (rc_ok_is_Some _ _ _ _ H1) in Hp. simpl in Hp. lia.
Qed.

(** One operation: it is defined, keeps the invariant, and its events fit between
    the expected numbers before and after it. *)
Lemma step_correct ext o os r st :
  inv ext r st -> callers_ok ext (o :: os) r st ->
  exists evs r' st', step o r st = Some (evs, r', st') /\
    inv (match evs with [Popped _ p] => ext_add p ext | _ => ext end) r' st' /\
    (forall rest, increasing (m_minSeq64 r') rest -> increasing (m_minSeq64 r) (evs ++ rest)).
Proof.
  intros Hi [Ho _]. destruct o as [p tick|tick|]; simpl.
  - destruct Ho as (Hnull & Hp & d & Hd).
    destruct (PushBack_ok ext r st p d tick Hi Hnull Hp Hd) as (r' & st' & -> & Hi' & He).
    assert (deref p st = Some d) as ->.
    { unfold deref. by rewrite (rc_ok_alive _ _ _ _ (inv_rc _ _ _ Hi)) by lia. }
    do 3 eexists. split; [done|]. simpl.
    rewrite extendSeq_nearest by (by eapply Hi).
    set (r1 := armed (GetSequence d) tick r) in *.
    destruct (Z.eqb_spec (m_minSeq64 r) (-1)) as [Hm|Hm]; simpl.
    { split; [done|]. intros rest ?. by eexists. }
    assert (r1 = r) as Hr1. { unfold r1, armed. by destruct (Z.eqb_spec (m_minSeq64 r) (-1)). }
    destruct (Z.gtb_spec (tick - m_lastValidTick r1) (m_maxBrokenDuration r1 * 1000)); simpl.
    { split; [done|]. intros rest ?. by eexists. }
    destruct (Z.eqb_spec (nearest (m_minSeq64 r1) (GetSequence d)) (-1)); simpl.
    { split; [done|]. intros rest ?. by eexists. }
    split; [done|]. intros rest. destruct He; simpl; rewrite <- ?Hr1; try done. lia.
  - pose proof (PopFront_ok ext r st tick Hi) as Hpop.
    destruct (m_seq64ToPacket r) as [|[k p] rest] eqn:Hq.
    { rewrite Hpop. simpl. do 3 eexists. split_and!; done. }
    destruct Hpop as (d & Hd & Hyes & Hno).
    destruct (decide (ready tick k d r)) as [Hr|Hr].
    + destruct (Hyes Hr) as (-> & Hnull & Hi'). simpl.
      destruct (Z.eqb_spec p NULL) as [|_]; [done|].
      do 3 eexists. split_and!; [done|done|]. simpl. intros rest' ?. split; [|done].
      pose proof (inv_keys _ _ _ Hi) as Hk. rewrite Hq in Hk. by apply Forall_cons in Hk as [? _].
    + rewrite (Hno Hr). simpl. do 3 eexists. split_and!; done.
  - destruct (Reset_correct ext r st Hi) as (st' & -> & Hi'). simpl.
    do 3 eexists. split_and!; [done|done|]. intros rest ?. by eexists.
Qed.


(** ** Draining *)

(** The caller's loop [while ((p = PopFront()) != NULL)], at one clock value. *)
Fixpoint drain (fuel : nat) (tick : Z) (r : t) (st : store) : option (list Z * t) :=
  match fuel with
  | O => Some ([], r)
  | S fuel =>
      pr ← PopFront tick r st;
      if pr.1 =? NULL then Some ([], pr.2)
      else rest ← drain fuel tick pr.2 st; Some (pr.1 :: rest.1, rest.2)
  end.

(** C27: once every buffered packet has waited [m_maxWaitingDuration] seconds,
    popping until NULL hands out all of them, in increasing order of their 64-bit
    numbers, whatever is missing in between, and leaves the buffer empty. *)
Theorem drain_all ext r st tick fuel :
  inv ext r st ->
  (forall p d, p ∈ (snd <$> m_seq64ToPacket r) -> st_pkt st !! p = Some d ->
     m_maxWaitingDuration r * 1000 <= tick - GetTick_i d) ->
  (length (m_seq64ToPacket r) <= fuel)%nat ->
  exists r', drain fuel tick r st = Some (snd <$> m_seq64ToPacket r, r') /\
    m_seq64ToPacket r' = [] /\ stl_sorted (m_seq64ToPacket r).
Proof.
  intros Hi Hw Hf. cut (exists r', drain fuel tick r st = Some (snd <$> m_seq64ToPacket r, r') /\
    m_seq64ToPacket r' = []); [intros (r' & ? & ?); exists r'; split_and!; [done..|apply Hi]|].
  revert ext r Hi Hw Hf. induction fuel as [|fuel IH]; intros ext r Hi Hw Hf.
  { exists r. destruct (m_seq64ToPacket r); [done|simpl in Hf; lia]. }
  pose proof (PopFront_ok ext r st tick Hi) as Hpop. simpl.
  destruct (m_seq64ToPacket r) as [|[k p] rest] eqn:Hq.
  { rewrite Hpop. simpl. by exists r. }
  destruct Hpop as (d & Hd & Hyes & _).
  destruct Hyes as (-> & Hnull & Hi').
  { right. right. apply (Hw p); [by left|]. unfold deref in Hd.
    by destruct (st_rc st !! p). }
  simpl. destruct (Z.eqb_spec p NULL) as [|_]; [done|].
  destruct (IH _ _ Hi') as (r' & Hdr & Hr'); simpl in *.
  - intros q d' Hin. apply Hw. by right.
  - lia.
  - rewrite Hdr. simpl. by exists r'.
Qed.

(** ** Late packets *)

(** A packet whose true number lies less than [MAX_LOSS_COUNT] behind the
    expected one is dropped without any effect, with one exception: the packet
    numbered 65535 just before the stream's first wrap (true number -1) collides
    with the sentinel -1 and makes [PushBack] throw the whole buffer away. *)
Theorem PushBack_late ext r st p d tick n :
  inv ext r st -> p <> NULL -> (0 < ext p)%nat -> st_pkt st !! p = Some d ->
  0 <= m_minSeq64 r -> tick - m_lastValidTick r <= m_maxBrokenDuration r * 1000 ->
  GetSequence d = u16 n -> n < m_minSeq64 r -> m_minSeq64 r - n < MAX_LOSS_COUNT ->
  (n <> -1 -> PushBack p tick r st = Some (r, st)) /\
  (n = -1 -> GetSequence d = 65535 /\
     exists st', PushBack p tick r st = Some (setQueue 65535 tick [(65535, p)] r, st')).
Proof.
  intros Hi Hnull Hp Hd Hmin Htick Hseq Hlt Hnear.
  assert (nearest (m_minSeq64 r) (GetSequence d) = n) as Hn.
  { rewrite Hseq. apply nearest_near. unfold MAX_LOSS_COUNT in *. lia. }
  assert (armed (GetSequence d) tick r = r) as Ha.
  { unfold armed. by destruct (Z.eqb_spec (m_minSeq64 r) (-1)); [lia|]. }
  destruct (PushBack_ok ext r st p d tick Hi Hnull Hp Hd) as (r' & st' & Heq & _ & He).
  rewrite Ha in He. split.
  - intros Hne. assert (deref p st = Some d) as Hder.
    { unfold deref. by rewrite (rc_ok_alive _ _ _ _ (inv_rc _ _ _ Hi)) by lia. }
    unfold PushBack. destruct (Z.eqb_spec p NULL) as [|_]; [done|].
    rewrite Hder. simpl. fold (armed (GetSequence d) tick r). rewrite Ha.
    destruct (Z.gtb_spec (tick - m_lastValidTick r) (m_maxBrokenDuration r * 1000)); [lia|].
    rewrite extendSeq_nearest, Hn by (by eapply Hi).
    destruct (Z.eqb_spec n (-1)); [done|]. rewrite Z.geb_leb.
    by destruct (Z.leb_spec (m_minSeq64 r) n); [lia|].
  - intros ->. assert (GetSequence d = 65535) as H65535 by (rewrite Hseq; done).
    split; [done|]. exists st'. rewrite Heq. rewrite H65535 in *.
    inversion He; subst; try done; lia.
Qed.

(** ** A concrete stream

    The packets at addresses 1, 2, 3 and 4 carry the numbers 7, 5, 6 and 65535. *)

Definition demo_store : store :=
  mkStore (list_to_map [(1, 1%nat); (2, 1%nat); (3, 1%nat); (4, 1%nat)])
    (list_to_map [(1, mkPacket 7 0); (2, mkPacket 5 0); (3, mkPacket 6 0); (4, mkPacket 65535 0)]).

Definition demo_ext (p : Z) : nat := if bool_decide (1 <= p <= 4) then 1 else 0.

Lemma demo_inv m : 0 <= m -> inv demo_ext (setQueue m 0 [] init) demo_store.
Proof.
  intros Hm. split; simpl; [done|by constructor|by right| | | |by constructor].
  - intros p. unfold demo_ext, demo_store. simpl.
    destruct (decide (p = 1)) as [->|]; [done|].
    destruct (decide (p = 2)) as [->|]; [done|].
    destruct (decide (p = 3)) as [->|]; [done|].
    destruct (decide (p = 4)) as [->|]; [done|].
    rewrite !lookup_insert_ne, lookup_empty by done.
    rewrite bool_decide_eq_false_2; [done|lia].
  - intros p. unfold demo_store. simpl. intros Hp.
    destruct (decide (p = 1)) as [->|]; [by eexists|].
    destruct (decide (p = 2)) as [->|]; [by eexists|].
    destruct (decide (p = 3)) as [->|]; [by eexists|].
    destruct (decide (p = 4)) as [->|]; [by eexists|].
    rewrite !lookup_insert_ne, lookup_empty in Hp by done. by destruct Hp.
  - intros p d. unfold demo_store. simpl. rewrite !lookup_insert_Some, lookup_empty. naive_solver lia.
Qed.

Lemma demo_inv_init : inv demo_ext init demo_store.
Proof. destruct (demo_inv 0); [done|]. split; simpl; try done. by left. Qed.

Definition demo_ops : list op :=
  [OpPush 2 100; OpPush 1 110; OpPop 120; OpPush 3 130; OpPop 140; OpPop 150; OpPop 160].

Example demo_run :
  (x ← run demo_ops init demo_store; Some x.1.1)
  = Some [Restarted; Popped 5 2; Popped 6 3; Popped 7 1].
Proof. vm_compute. reflexivity. Qed.


Lemma PushBack_correct_witness :
  exists r' st', PushBack 1 100 (setQueue 5 0 [] init) demo_store = Some (r', st') /\
    inv demo_ext r' st' /\
    push_effect 7 100 1 (armed 7 100 (setQueue 5 0 [] init)) r'.
Proof.
  apply (PushBack_correct demo_ext (setQueue 5 0 [] init) demo_store 1 (mkPacket 7 0) 100).
  - apply demo_inv. lia.
  - discriminate.
  - vm_compute. lia.
  - reflexivity.
Defined.

(** Packet 1 (number 7) buffered at tick 100 while 5 is expected. *)
Definition demo_waiting : t := setQueue 5 100 [(7, 1)] init.
Definition demo_waiting_store : store :=
  mkStore (<[1 := 2%nat]> (st_rc demo_store)) (<[1 := mkPacket 7 100]> (st_pkt demo_store)).

Lemma demo_waiting_inv : inv demo_ext demo_waiting demo_waiting_store.
Proof.
  destruct (PushBack_ok demo_ext (setQueue 5 0 [] init) demo_store 1 (mkPacket 7 0) 100)
    as (r' & st' & Heq & Hi & _); [apply demo_inv; lia|discriminate|vm_compute; lia|reflexivity|].
  vm_compute in Heq. injection Heq as <- <-. exact Hi.
Qed.

Lemma PopFront_correct_witness :
  exists d, deref 1 demo_waiting_store = Some d /\
    (ready 1100 7 d demo_waiting ->
       PopFront 1100 demo_waiting demo_waiting_store
         = Some (1, setQueue 8 100 [] demo_waiting) /\
       1 <> NULL /\ inv (ext_add 1 demo_ext) (setQueue 8 100 [] demo_waiting) demo_waiting_store) /\
    (~ ready 1100 7 d demo_waiting ->
       PopFront 1100 demo_waiting demo_waiting_store = Some (NULL, demo_waiting)).
Proof. exact (PopFront_correct demo_ext demo_waiting demo_waiting_store 1100 demo_waiting_inv). Defined.

Lemma drain_all_witness :
  exists r', drain 1 1100 demo_waiting demo_waiting_store = Some ([1], r') /\
    m_seq64ToPacket r' = [] /\ stl_sorted (m_seq64ToPacket demo_waiting).
Proof.
  apply (drain_all demo_ext demo_waiting demo_waiting_store 1100 1).
  - exact demo_waiting_inv.
  - intros p d Hp Hd. apply list_elem_of_singleton in Hp as ->.
    vm_compute in Hd. injection Hd as <-. vm_compute. discriminate.
  - vm_compute. lia.
Defined.

Lemma PushBack_late_witness :
  ((-1) <> -1 -> PushBack 4 100 (setQueue 3 0 [] init) demo_store
                 = Some (setQueue 3 0 [] init, demo_store)) /\
  ((-1) = -1 -> GetSequence (mkPacket 65535 0) = 65535 /\
     exists st', PushBack 4 100 (setQueue 3 0 [] init) demo_store
                 = Some (setQueue 65535 100 [(65535, 4)] (setQueue 3 0 [] init), st')).
Proof.
  apply (PushBack_late demo_ext (setQueue 3 0 [] init) demo_store 4 (mkPacket 65535 0) 100 (-1));
    try reflexivity; try (vm_compute; (lia || discriminate)).
  apply demo_inv. lia.
Defined.

End CProReorder.
