(* ===== verification/TimerFactory.v ===== *)
(** * Timers ([pro_timer_factory.cpp], and the timer ids of [pro_shared.cpp])

    A factory keeps its timers ordered by expiry, finds them by id, and has one thread
    that collects the expired ones under the lock and calls them back without it.
    Each entry of the set holds a reference to its callback object.

    The clock and the random number are arguments; [None] is undefined behaviour: a
    call on a deleted object, an index outside of [m_htbtCounts], a division by zero.
    [unsigned long] has 64 bits. *)

From S2P Require Import Prelude StlMap RefCount.

(** A value converted to [PRO_INT64]. *)
Definition s64 (x : Z) : Z := (x + 2 ^ 63) mod 2 ^ 64 - 2 ^ 63.

Lemma s64_small x : - 2 ^ 63 <= x < 2 ^ 63 -> s64 x = x.
Proof. intros H. unfold s64. rewrite Z.mod_small; lia. Qed.

(** [ProMakeTimerId], [ProMakeMmTimerId]: the id and the counter afterwards *)
Definition ProMakeTimerId (next : Z) : Z * Z := (next, u64 (next + 2)).
Definition ProMakeMmTimerId (next : Z) : Z * Z :=
  let n := u64 (next + 2) in (next, if n =? 0 then u64 (n + 2) else n).

(** The order of the set: by expiry, then by id. *)
#[export] Instance ZZ_stl_less : StlLess (Z * Z) := fun a b =>
  if fst a <? fst b then true else if fst a >? fst b then false else snd a <? snd b.
#[export] Instance ZZ_stl_order : StlOrder (Z * Z).
Proof.
  split; unfold stl_less, ZZ_stl_less.
  - intros [a a']. simpl. rewrite Z.gtb_ltb, !Z.ltb_irrefl. done.
  - intros [a a'] [b b'] [c c']. simpl. rewrite !Z.gtb_ltb.
    destruct (Z.ltb_spec a b), (Z.ltb_spec b a), (Z.ltb_spec b c), (Z.ltb_spec c b), (Z.ltb_spec a c), (Z.ltb_spec c a);
      rewrite ?Z.ltb_lt; try done; lia.
  - intros [a a'] [b b']. simpl. rewrite !Z.gtb_ltb.
    destruct (Z.ltb_spec a b), (Z.ltb_spec b a); try done; try lia. rewrite !Z.ltb_ge. intros. f_equal; lia.
Qed.

Module CProTimerFactory.

(** [PRO_TIMER_NODE] *)
Record node := mkNode {
  expireTick : Z;
  timerId : Z;
  onTimer : Z;
  timeSpan : Z;
  recurring : bool;
  heartbeat : bool;
  htbtIndex : Z;
  userData : Z
}.

#[export] Instance node_keyed : StlKeyed node (Z * Z) := fun n => (expireTick n, timerId n).

(** [CProTimerFactory]; [m_task] is whether the task exists. *)
Record t := mkFactory {
  m_task : bool;
  m_wantExit : bool;
  m_mmTimer : bool;
  m_timers : list node;
  m_timerId2ExpireTick : list (Z * Z);
  m_htbtTimeSpan : Z;
  m_htbtCounts : list Z
}.

Definition DEFAULT_HEARTBEAT_INTERVAL : Z := 25.
Definition STEPS : nat := 1000.

(** The constructor. *)
Definition init : t := mkFactory false false false [] [] (DEFAULT_HEARTBEAT_INTERVAL * 1000) (replicate STEPS 0).

Definition setTimers (timers : list node) (ids : list (Z * Z)) (f : t) : t :=
  mkFactory (m_task f) (m_wantExit f) (m_mmTimer f) timers ids (m_htbtTimeSpan f) (m_htbtCounts f).
Definition setCounts (counts : list Z) (f : t) : t :=
  mkFactory (m_task f) (m_wantExit f) (m_mmTimer f) (m_timers f) (m_timerId2ExpireTick f) (m_htbtTimeSpan f) counts.

(** [m_htbtCounts[i]], and an assignment to it *)
Definition countAt (f : t) (i : Z) : option Z := m_htbtCounts f !! Z.to_nat i.
Definition setCountAt (i v : Z) (f : t) : t := setCounts (<[Z.to_nat i := v]> (m_htbtCounts f)) f.

(** [Start]; [started] is the result of the task's [Start] *)
Definition Start (started mmTimer : bool) (f : t) : bool * t :=
  if m_task f then (false, f) else
  if negb started then (false, f) else
  (true, mkFactory true (m_wantExit f) mmTimer (m_timers f) (m_timerId2ExpireTick f) (m_htbtTimeSpan f)
     (map (fun _ => 0) (m_htbtCounts f))).

(** [Stop] up to the wait for the thread: the factory and the local set [timers];
    [None] inside is the early return *)
Definition StopBegin (f : t) : option (list node) * t :=
  if negb (m_task f) then (None, f) else
  (Some (m_timers f),
   mkFactory (m_task f) true (m_mmTimer f) [] [] (m_htbtTimeSpan f) (m_htbtCounts f)).

(** [Stop] after the thread has ended *)
Definition StopEnd (timers : list node) (f : t) (rc : gmap Z nat) : option (t * gmap Z nat) :=
  rc' ← ReleaseAll (onTimer <$> timers) rc;
  Some (mkFactory false false false (m_timers f) (m_timerId2ExpireTick f) (DEFAULT_HEARTBEAT_INTERVAL * 1000)
          (m_htbtCounts f), rc').

(** [node.onTimer->AddRef(); m_timers.insert(node); m_timerId2ExpireTick[...] = ...] *)
Definition enter (n : node) (f : t) (rc : gmap Z nat) : option (t * gmap Z nat) :=
  rc' ← AddRef (onTimer n) rc;
  Some (setTimers (stl_insert n (m_timers f)) (stl_assign (timerId n, expireTick n) (m_timerId2ExpireTick f)) f, rc').

(** The counters of the timer ids. *)
Record ids := mkIds { g_s_nextTimerId : Z; g_s_nextMmTimerId : Z }.

(** [ScheduleTimer]; the result is the id *)
Definition ScheduleTimer (tick : Z) (on : Z) (span : Z) (recur : bool) (data : Z) (f : t) (s : ids)
    (rc : gmap Z nat) : option (Z * t * ids * gmap Z nat) :=
  if (on =? NULL) || ((span =? 0) && recur) then Some (0, f, s, rc) else
  if negb (m_task f) || m_wantExit f then Some (0, f, s, rc) else
  let '(id, s) :=
    if m_mmTimer f
    then let '(id, n) := ProMakeMmTimerId (g_s_nextMmTimerId s) in (id, mkIds (g_s_nextTimerId s) n)
    else let '(id, n) := ProMakeTimerId (g_s_nextTimerId s) in (id, mkIds n (g_s_nextMmTimerId s)) in
  let n := mkNode (s64 (tick + span)) id on (s64 span) recur false 0 data in
  '(f, rc) ← enter n f rc;
  Some (id, f, s, rc).

(** The slot with the least timers, the first of them. *)
Fixpoint leastSlot (counts : list Z) (i index count : Z) : Z :=
  match counts with
  | [] => index
  | x :: counts => if x <? count then leastSlot counts (i + 1) i x else leastSlot counts (i + 1) index count
  end.

(** [(tick + span - 1) / span * span] *)
Definition roundUp (tick span : Z) : Z := Z.quot (tick + span - 1) span * span.

(** [ScheduleHeartbeatTimer]; [rand] is [(PRO_INT64)(ProRand_0_1() * (step - 1))] *)
Definition ScheduleHeartbeatTimer (tick rand : Z) (on data : Z) (f : t) (s : ids) (rc : gmap Z nat)
    : option (Z * t * ids * gmap Z nat) :=
  if on =? NULL then Some (0, f, s, rc) else
  if negb (m_task f) || m_wantExit f then Some (0, f, s, rc) else
  if m_mmTimer f then Some (0, f, s, rc) else
  count0 ← countAt f 0;
  let index := leastSlot (drop 1 (m_htbtCounts f)) 1 0 count0 in
  count ← countAt f index;
  let f := setCountAt index (u64 (count + 1)) f in
  let step := Z.quot (m_htbtTimeSpan f) (Z.of_nat (length (m_htbtCounts f))) in
  let '(id, nx) := ProMakeTimerId (g_s_nextTimerId s) in
  let s := mkIds nx (g_s_nextMmTimerId s) in
  if m_htbtTimeSpan f =? 0 then None else
  let n := mkNode (roundUp tick (m_htbtTimeSpan f) + step * index + rand) id on (m_htbtTimeSpan f)
             true true index data in
  '(f, rc) ← enter n f rc;
  Some (id, f, s, rc).

(** [CancelTimer] *)
Definition CancelTimer (id : Z) (f : t) (rc : gmap Z nat) : option (t * gmap Z nat) :=
  if id =? 0 then Some (f, rc) else
  if negb (m_task f) then Some (f, rc) else
  match stl_find id (m_timerId2ExpireTick f) with
  | None => Some (f, rc)
  | Some (_, tick) =>
      match stl_find (tick, id) (m_timers f) with
      | None => Some (f, rc)
      | Some n =>
          let f := setTimers (stl_erase (tick, id) (m_timers f)) (stl_erase id (m_timerId2ExpireTick f)) f in
          f ← (if heartbeat n
               then count ← countAt f (htbtIndex n); Some (setCountAt (htbtIndex n) (u64 (count - 1)) f)
               else Some f);
          rc ← Release (onTimer n) rc;
          Some (f, rc)
      end
  end.

Definition GetTimerCount (f : t) : Z := Z.of_nat (length (m_timers f)).
Definition GetHeartbeatInterval (f : t) : Z := u64 (Z.quot (m_htbtTimeSpan f) 1000).

(** The second loop of [UpdateHeartbeatTimers] over the removed timers; [rands] are the
    random numbers. *)
Fixpoint replace (tick : Z) (nodes : list node) (rands : list Z) (index : Z) (f : t) : option t :=
  match nodes with
  | [] => Some f
  | n :: nodes =>
      let steps := Z.of_nat (length (m_htbtCounts f)) in
      let step := Z.quot (m_htbtTimeSpan f) steps in
      f ← (if index <? steps then Some (setCountAt index 1 f)
           else count ← countAt f (index mod steps); Some (setCountAt (index mod steps) (u64 (count + 1)) f));
      let n' := mkNode (roundUp tick (m_htbtTimeSpan f) + step * index + hd 0 rands) (timerId n) (onTimer n)
                  (m_htbtTimeSpan f) (recurring n) (heartbeat n) index (userData n) in
      replace tick nodes (tl rands) (index + 1)
        (setTimers (stl_insert n' (m_timers f)) (stl_assign (timerId n', expireTick n') (m_timerId2ExpireTick f)) f)
  end.

(** [UpdateHeartbeatTimers] *)
Definition UpdateHeartbeatTimers (tick : Z) (rands : list Z) (seconds : Z) (f : t) : option (bool * t) :=
  if seconds =? 0 then Some (false, f) else
  let span := s64 seconds * 1000 in
  if negb (m_task f) || m_wantExit f then Some (false, f) else
  if span =? m_htbtTimeSpan f then Some (true, f) else
  let timers := filter (fun n => heartbeat n = true) (m_timers f) in
  let f := mkFactory (m_task f) (m_wantExit f) (m_mmTimer f) (filter (fun n => heartbeat n = false) (m_timers f))
             (m_timerId2ExpireTick f) span (m_htbtCounts f) in
  f' ← replace tick timers rands 0 f;
  Some (true, f').

(** [WorkerRun]: the expired timers, in the order of the set *)
Fixpoint expired (tick : Z) (timers : list node) : list node :=
  match timers with
  | [] => []
  | n :: timers => if expireTick n >? tick then [] else n :: expired tick timers
  end.

(** The next expiry of a repeated timer. *)
Definition nextExpiry (tick : Z) (n : node) : option Z :=
  if heartbeat n then
    if timeSpan n =? 0 then None else
    let offset := Z.rem (expireTick n) (timeSpan n) in
    let e := roundUp tick (timeSpan n) + offset in
    Some (if e =? tick then e + timeSpan n else e)
  else Some (s64 (tick + timeSpan n)).

Definition again (e : Z) (n : node) : node :=
  mkNode e (timerId n) (onTimer n) (timeSpan n) (recurring n) (heartbeat n) (htbtIndex n) (userData n).

(** One turn of the second loop: the node as it stays in the local vector. *)
Definition renew (tick : Z) (n : node) (f : t) (rc : gmap Z nat) : option (node * t * gmap Z nat) :=
  if recurring n || heartbeat n then
    let f := setTimers (stl_erase (stl_key n) (m_timers f)) (m_timerId2ExpireTick f) f in
    e ← nextExpiry tick n;
    '(f, rc) ← enter (again e n) f rc;
    Some (again e n, f, rc)
  else
    Some (n, setTimers (stl_erase (stl_key n) (m_timers f)) (stl_erase (timerId n) (m_timerId2ExpireTick f)) f, rc).

Fixpoint renewAll (tick : Z) (nodes : list node) (f : t) (rc : gmap Z nat) : option (list node * t * gmap Z nat) :=
  match nodes with
  | [] => Some ([], f, rc)
  | n :: nodes =>
      '(n, f, rc) ← renew tick n f rc;
      '(out, f, rc) ← renewAll tick nodes f rc;
      Some (n :: out, f, rc)
  end.

(** The part of a turn of [WorkerRun] that holds the lock. *)
Definition Collect (tick : Z) (f : t) (rc : gmap Z nat) : option (list node * t * gmap Z nat) :=
  renewAll tick (expired tick (m_timers f)) f rc.

End CProTimerFactory.

(** ** The set and the map of ids agree *)

Module TimerLemmas.
Import CProTimerFactory.

Definition entry (n : node) : Z * Z := (timerId n, expireTick n).

Record coherent (f : t) : Prop := mkCoherent {
  co_timers : stl_sorted (m_timers f);
  co_ids : stl_sorted (m_timerId2ExpireTick f);
  co_same : m_timerId2ExpireTick f ≡ₚ entry <$> m_timers f
}.

Lemma coherent_NoDup f : coherent f -> NoDup (timerId <$> m_timers f).
Proof.
  intros [_ Hi Hs]. pose proof (stl_sorted_NoDup _ Hi) as Hn.
  assert (E : stl_key <$> m_timerId2ExpireTick f ≡ₚ timerId <$> m_timers f).
  { rewrite Hs, <- list_fmap_compose. done. }
  by rewrite <- E.
Qed.

Lemma coherent_find f n : coherent f -> n ∈ m_timers f ->
  stl_find (timerId n) (m_timerId2ExpireTick f) = Some (entry n) /\ stl_find (stl_key n) (m_timers f) = Some n.
Proof.
  intros [Ht Hi Hs] Hn. split; [|by apply stl_sorted_find_elem].
  apply (stl_sorted_find_elem _ (entry n) Hi). rewrite Hs. by apply list_elem_of_fmap_2.
Qed.

Lemma coherent_found f id e : coherent f -> stl_find id (m_timerId2ExpireTick f) = Some e ->
  exists n, n ∈ m_timers f /\ timerId n = id /\ e = entry n.
Proof.
  intros [_ _ Hs] [Hin Hk]%stl_find_Some_elem. rewrite Hs in Hin.
  apply list_elem_of_fmap in Hin as (n & -> & Hn). by exists n.
Qed.

Lemma coherent_fresh f id : coherent f -> id ∉ timerId <$> m_timers f -> stl_find id (m_timerId2ExpireTick f) = None.
Proof.
  intros Hc Hid. destruct (stl_find id _) eqn:E; [|done]. destruct (coherent_found f id _ Hc E) as (n & Hn & <- & _).
  destruct Hid. by apply list_elem_of_fmap_2.
Qed.

Lemma fresh_key n l : timerId n ∉ timerId <$> l -> stl_find (stl_key n) l = None.
Proof.
  intros Hid. destruct (stl_find (stl_key n) l) as [x|] eqn:E; [|done].
  apply stl_find_Some_elem in E as [Hx Hk]. destruct Hid. apply list_elem_of_fmap. exists x. split; [|done].
  unfold stl_key, node_keyed in Hk. congruence.
Qed.

Lemma same_cancel ids ids' (n : node) l l' :
  ids ≡ₚ entry <$> l -> l ≡ₚ n :: l' -> ids ≡ₚ entry n :: ids' -> ids' ≡ₚ entry <$> l'.
Proof.
  intros Hs Hp He. apply (Permutation.Permutation_cons_inv (a := entry n)). rewrite <- He, Hs, Hp. done.
Qed.

(** A new timer. *)
Lemma coherent_insert f n : coherent f -> timerId n ∉ timerId <$> m_timers f ->
  let f' := setTimers (stl_insert n (m_timers f)) (stl_assign (entry n) (m_timerId2ExpireTick f)) f in
  coherent f' /\ m_timers f' ≡ₚ n :: m_timers f.
Proof.
  intros Hc Hid f'. pose proof (coherent_fresh f _ Hc Hid) as Hf. pose proof (fresh_key n _ Hid) as Hk.
  assert (Hp : m_timers f' ≡ₚ n :: m_timers f) by (by apply stl_insert_Permutation).
  split; [|done]. destruct Hc as [Ht Hi Hs]. split.
  - by apply stl_sorted_insert.
  - by apply stl_sorted_assign.
  - rewrite Hp. cbn. rewrite (stl_assign_fresh (entry n)) by done.
    rewrite (stl_insert_Permutation (entry n)) by done. by rewrite Hs.
Qed.

(** A timer that goes. *)
Lemma coherent_erase f n : coherent f -> n ∈ m_timers f ->
  let f' := setTimers (stl_erase (stl_key n) (m_timers f)) (stl_erase (timerId n) (m_timerId2ExpireTick f)) f in
  coherent f' /\ m_timers f ≡ₚ n :: m_timers f'.
Proof.
  intros Hc Hn f'. destruct (coherent_find f n Hc Hn) as [Hf Hk].
  assert (Hp : m_timers f ≡ₚ n :: m_timers f') by (by apply stl_erase_Permutation).
  split; [|done]. destruct Hc as [Ht Hi Hs]. split.
  - by apply stl_sorted_erase.
  - by apply stl_sorted_erase.
  - by apply (same_cancel _ _ n _ _ Hs Hp), stl_erase_Permutation.
Qed.

(** A timer that gets another expiry. *)
Lemma coherent_move f n e : coherent f -> n ∈ m_timers f ->
  let l := stl_erase (stl_key n) (m_timers f) in
  let f' := setTimers (stl_insert (again e n) l) (stl_assign (timerId n, e) (m_timerId2ExpireTick f)) f in
  coherent f' /\ m_timers f ≡ₚ n :: l /\ m_timers f' ≡ₚ again e n :: l.
Proof.
  intros Hc Hn l f'. destruct (coherent_find f n Hc Hn) as [Hf Hk].
  assert (Hp : m_timers f ≡ₚ n :: l) by (by apply stl_erase_Permutation).
  assert (Hfr : timerId (again e n) ∉ timerId <$> l).
  { pose proof (coherent_NoDup f Hc) as Hnd. rewrite Hp in Hnd. cbn in Hnd. by apply NoDup_cons in Hnd as [? _]. }
  assert (Hp' : m_timers f' ≡ₚ again e n :: l) by (by apply stl_insert_Permutation, fresh_key).
  split; [|done]. destruct Hc as [Ht Hi Hs]. split.
  - by apply stl_sorted_insert, stl_sorted_erase.
  - by apply stl_sorted_assign.
  - rewrite Hp'. cbn [fmap list_fmap entry again timerId expireTick].
    pose proof (stl_assign_Permutation (timerId n, e) (m_timerId2ExpireTick f) (entry n) Hi Hf) as Ha.
    cbn [m_timerId2ExpireTick f' setTimers]. rewrite Ha. apply Permutation_cons; [done|].
    by apply (same_cancel _ _ n _ _ Hs Hp), stl_erase_Permutation.
Qed.

(** *** Expiry *)

Lemma roundUp_bounds tick span : 0 <= tick -> 0 < span ->
  tick <= roundUp tick span < tick + span /\ roundUp tick span mod span = 0.
Proof.
  intros Ht Hs. unfold roundUp. rewrite Z.quot_div_nonneg by lia.
  pose proof (Z.div_mod (tick + span - 1) span ltac:(lia)) as Hd.
  pose proof (Z.mod_pos_bound (tick + span - 1) span Hs). split; [nia|]. by apply Z.mod_mul; lia.
Qed.

(** A timer whose span and expiry are sane. *)
Definition sane (n : node) : Prop :=
  0 <= expireTick n < 2 ^ 63 /\ 0 <= timeSpan n < 2 ^ 61 /\
  (recurring n = true \/ heartbeat n = true -> 0 < timeSpan n).

Lemma nextExpiry_ok tick n : sane n -> 0 <= tick < 2 ^ 61 -> recurring n = true \/ heartbeat n = true ->
  exists e, nextExpiry tick n = Some e /\ tick < e < tick + 2 * timeSpan n /\
    (heartbeat n = true -> e mod timeSpan n = expireTick n mod timeSpan n) /\
    (heartbeat n = false -> e = tick + timeSpan n).
Proof.
  intros (He & Hs & Hp) Ht Hr. specialize (Hp Hr). unfold nextExpiry. destruct (heartbeat n) eqn:Hh.
  - destruct (Z.eqb_spec (timeSpan n) 0); [lia|]. eexists. split; [done|].
    destruct (roundUp_bounds tick (timeSpan n)) as [Hu Hm]; [lia..|].
    rewrite Z.rem_mod_nonneg by lia. pose proof (Z.mod_pos_bound (expireTick n) (timeSpan n) Hp) as Ho.
    set (o := expireTick n mod timeSpan n) in *. set (u := roundUp tick (timeSpan n)) in *.
    assert (Hph : (u + o) mod timeSpan n = o).
    { rewrite <- Z.add_mod_idemp_l, Hm by lia. by apply Z.mod_small. }
    destruct (Z.eqb_spec (u + o) tick); split_and!; try lia; try done.
    intros _. rewrite <- Z.add_mod_idemp_r, Z.mod_same, Z.add_0_r by lia. done.
  - eexists. split; [done|]. rewrite s64_small by lia. split_and!; try done; lia.
Qed.

(** The node after its turn. *)
Definition repeats (n : node) : bool := recurring n || heartbeat n.

Definition renewed (tick : Z) (n n' : node) : Prop :=
  (repeats n = false /\ n' = n) \/ (repeats n = true /\ exists e, nextExpiry tick n = Some e /\ n' = again e n).

Lemma expired_spec tick l : exists rest, l = expired tick l ++ rest /\
  Forall (fun n => expireTick n <= tick) (expired tick l) /\
  (stl_sorted l -> Forall (fun n => tick < expireTick n) rest).
Proof.
  induction l as [|n l (rest & E & Hf & Hr)]; [by exists []|]. cbn [expired]. rewrite Z.gtb_ltb.
  destruct (Z.ltb_spec tick (expireTick n)) as [Ht|Ht].
  - exists (n :: l). split_and!; [done|constructor|]. intros [Hn _]. constructor; [done|].
    eapply Forall_impl; [exact Hn|]. intros m Hm. unfold stl_less, ZZ_stl_less, stl_key, node_keyed in Hm. cbn in Hm.
    rewrite Z.gtb_ltb in Hm. destruct (Z.ltb_spec (expireTick n) (expireTick m)); [lia|].
    destruct (Z.ltb_spec (expireTick m) (expireTick n)); [done|lia].
  - exists rest. split_and!; [cbn; by rewrite <- E|by constructor|]. intros [_ Hs]. by apply Hr.
Qed.

(** *** One turn of the worker *)

Local Abbreviation objects := (fmap onTimer).

Lemma objects_perm l l' : l ≡ₚ l' -> objects l ≡ₚ objects l'.
Proof. intros H. by rewrite H. Qed.

(** The fields a turn leaves alone. *)
Definition same_rest (f f' : t) : Prop :=
  m_task f' = m_task f /\ m_wantExit f' = m_wantExit f /\ m_mmTimer f' = m_mmTimer f /\
  m_htbtTimeSpan f' = m_htbtTimeSpan f /\ m_htbtCounts f' = m_htbtCounts f.

Lemma renew_ok ext tick n f rc rest pending : coherent f -> 0 <= tick < 2 ^ 61 -> sane n ->
  m_timers f ≡ₚ n :: rest -> rc_ok ext (objects (m_timers f) ++ pending) rc ->
  exists n' f' rc', renew tick n f rc = Some (n', f', rc') /\ coherent f' /\ renewed tick n n' /\ same_rest f f' /\
    m_timers f' ≡ₚ (if repeats n then [n'] else []) ++ rest /\
    rc_ok ext (objects (m_timers f') ++ onTimer n' :: pending) rc'.
Proof.
  intros Hc Ht Hs Hp Hrc. assert (Hn : n ∈ m_timers f) by (rewrite Hp; left).
  unfold renew. fold (repeats n). destruct (repeats n) eqn:Hr.
  - assert (Hr' : recurring n = true \/ heartbeat n = true) by (by apply orb_prop in Hr).
    destruct (nextExpiry_ok tick n Hs Ht Hr') as (e & He & _). rewrite He. cbn [mbind option_bind].
    destruct (coherent_move f n e Hc Hn) as (Hc' & Hl & Hl').
    unfold enter. cbn [onTimer again].
    destruct (AddRef_ok ext (objects (m_timers f) ++ pending) rc (onTimer n)) as (rc' & -> & Hrc'); [done| |].
    { rewrite occ_app. pose proof (occ_elem _ _ (list_elem_of_fmap_2 onTimer _ _ Hn)). lia. }
    cbn [mbind option_bind]. do 3 eexists. split; [done|]. split; [done|]. split_and!; [right; by eauto|done| |].
    + rewrite Hl' in *. rewrite Hl in Hp. apply Permutation.Permutation_cons_inv in Hp. by rewrite Hp.
    + eapply rc_ok_perm; [|exact Hrc']. pose proof (objects_perm _ _ Hl) as Ho. pose proof (objects_perm _ _ Hl') as Ho'.
      cbn [m_timers setTimers fmap list_fmap onTimer again] in Ho, Ho' |- *. rewrite Ho, Ho'. solve_Permutation.
  - do 3 eexists. split; [done|]. destruct (coherent_erase f n Hc Hn) as (Hc' & Hl).
    split; [done|]. split_and!; [by left|done| |].
    + rewrite Hl in Hp. by apply Permutation.Permutation_cons_inv in Hp.
    + eapply rc_ok_perm; [|exact Hrc]. pose proof (objects_perm _ _ Hl) as Ho.
      cbn [m_timers setTimers fmap list_fmap] in Ho |- *. rewrite Ho. solve_Permutation.
Qed.

Lemma renewAll_ok ext tick nodes : forall f rc rest pending, coherent f -> 0 <= tick < 2 ^ 61 -> Forall sane nodes ->
  m_timers f ≡ₚ nodes ++ rest -> rc_ok ext (objects (m_timers f) ++ pending) rc ->
  exists out f' rc', renewAll tick nodes f rc = Some (out, f', rc') /\ coherent f' /\
    Forall2 (renewed tick) nodes out /\ same_rest f f' /\
    m_timers f' ≡ₚ filter (fun n => repeats n = true) out ++ rest /\
    rc_ok ext (objects (m_timers f') ++ objects out ++ pending) rc'.
Proof.
  induction nodes as [|n nodes IH]; intros f rc rest pending Hc Ht Hs Hp Hrc.
  - by exists [], f, rc.
  - apply Forall_cons in Hs as [Hn Hs]. cbn [renewAll].
    destruct (renew_ok ext tick n f rc (nodes ++ rest) pending Hc Ht Hn Hp Hrc)
      as (n' & f1 & rc1 & -> & Hc1 & Hr1 & Hsr1 & Hp1 & Hrc1). cbn [mbind option_bind].
    assert (Hp1' : m_timers f1 ≡ₚ nodes ++ (if repeats n then [n'] else []) ++ rest) by (rewrite Hp1; solve_Permutation).
    destruct (IH f1 rc1 _ (onTimer n' :: pending) Hc1 Ht Hs Hp1' Hrc1)
      as (out & f' & rc' & -> & Hc' & Hr' & Hsr' & Hp' & Hrc'). cbn [mbind option_bind].
    exists (n' :: out), f', rc'. split; [done|]. split; [done|]. split_and!.
    + by constructor.
    + unfold same_rest in *. intuition congruence.
    + rewrite Hp'. rewrite filter_cons. assert (Hrep : repeats n' = repeats n).
      { destruct Hr1 as [[_ ->]|[_ (e & _ & ->)]]; done. }
      rewrite Hrep. destruct (repeats n); case_decide; try done; solve_Permutation.
    + eapply rc_ok_perm; [|exact Hrc']. cbn [fmap list_fmap]. solve_Permutation.
Qed.

Lemma renewed_fields tick n n' : renewed tick n n' -> timerId n' = timerId n /\ onTimer n' = onTimer n /\
  userData n' = userData n /\ timeSpan n' = timeSpan n /\ repeats n' = repeats n /\ heartbeat n' = heartbeat n /\
  htbtIndex n' = htbtIndex n /\ recurring n' = recurring n.
Proof. intros [[_ ->]|[_ (e & _ & ->)]]; done. Qed.

Lemma renewed_later tick n n' : sane n -> 0 <= tick < 2 ^ 61 -> renewed tick n n' -> repeats n = true ->
  tick < expireTick n' < tick + 2 * timeSpan n /\
  (heartbeat n = true -> expireTick n' mod timeSpan n = expireTick n mod timeSpan n) /\
  (heartbeat n = false -> expireTick n' = tick + timeSpan n).
Proof.
  intros Hs Ht Hr Hrep. destruct Hr as [[Hf _]|[_ (e & He & ->)]]; [congruence|].
  apply orb_prop in Hrep. destruct (nextExpiry_ok tick n Hs Ht Hrep) as (e' & He' & Hb).
  rewrite He' in He. by injection He as ->.
Qed.

(** *** Heartbeat slots *)

Definition inSlot (i : nat) (n : node) : Prop := heartbeat n = true /\ htbtIndex n = Z.of_nat i.
#[export] Instance inSlot_dec i n : Decision (inSlot i n).
Proof. unfold inSlot. apply _. Defined.

Definition load (i : nat) (l : list node) : Z := Z.of_nat (length (filter (inSlot i) l)).

Lemma load_perm i l l' : l ≡ₚ l' -> load i l = load i l'.
Proof. intros H. unfold load. by rewrite H. Qed.
Lemma load_cons i n l : load i (n :: l) = (if decide (inSlot i n) then 1 else 0) + load i l.
Proof. unfold load. rewrite filter_cons. destruct (decide _); cbn [length]; lia. Qed.
Lemma load_app i l l' : load i (l ++ l') = load i l + load i l'.
Proof. unfold load. rewrite filter_app, length_app. lia. Qed.
Lemma load_nonneg i l : 0 <= load i l.
Proof. unfold load. lia. Qed.
Lemma load_nil i : load i [] = 0.
Proof. done. Qed.

(** No slot counts less than it has. *)
Record slots_ok (bound : Z) (f : t) : Prop := mkSlots {
  sl_len : length (m_htbtCounts f) = STEPS;
  sl_load : forall i c, m_htbtCounts f !! i = Some c -> load i (m_timers f) <= c <= bound;
  sl_index : Forall (fun n => heartbeat n = true -> 0 <= htbtIndex n < Z.of_nat STEPS) (m_timers f)
}.

Lemma slots_lookup bound f i : slots_ok bound f -> (i < STEPS)%nat ->
  exists c, m_htbtCounts f !! i = Some c /\ load i (m_timers f) <= c <= bound.
Proof.
  intros [Hl Hc _] Hi. destruct (m_htbtCounts f !! i) as [c|] eqn:E; [by eauto|].
  apply lookup_ge_None in E. lia.
Qed.

(** Other timers, same slots. *)
Lemma slots_timers bound f f' : slots_ok bound f -> m_htbtCounts f' = m_htbtCounts f ->
  (forall i, load i (m_timers f') <= load i (m_timers f)) ->
  Forall (fun n => heartbeat n = true -> 0 <= htbtIndex n < Z.of_nat STEPS) (m_timers f') -> slots_ok bound f'.
Proof.
  intros [Hl Hc Hx] E Hle Hx'. split; [by rewrite E| |done].
  rewrite E. intros i c Hi. specialize (Hc i c Hi). specialize (Hle i). lia.
Qed.

(** A slot gains or loses one, and its count with it. *)
Lemma slots_count bound f f' (k : nat) c d : slots_ok bound f -> (k < STEPS)%nat ->
  m_htbtCounts f !! k = Some c -> m_htbtCounts f' = <[k := c + d]> (m_htbtCounts f) -> c + d <= bound ->
  (forall i, load i (m_timers f') = load i (m_timers f) + if decide (i = k) then d else 0) ->
  Forall (fun n => heartbeat n = true -> 0 <= htbtIndex n < Z.of_nat STEPS) (m_timers f') -> slots_ok bound f'.
Proof.
  intros [Hl Hc Hx] Hk Ek E Hb Hle Hx'. split; [by rewrite E, length_insert| |done].
  intros i c' Hi. rewrite E in Hi. rewrite Hle. destruct (decide (i = k)) as [->|Hne].
  - rewrite list_lookup_insert_eq in Hi by (rewrite Hl; lia). injection Hi as <-. specialize (Hc k c Ek). lia.
  - rewrite list_lookup_insert_ne in Hi by done. specialize (Hc i c' Hi). lia.
Qed.

(** [ScheduleHeartbeatTimer] takes a slot with the least count. *)
Lemma leastSlot_ok counts : forall i index count pre,
  i = Z.of_nat (length pre) -> 0 <= index < i -> pre !! Z.to_nat index = Some count ->
  (forall k c, pre !! k = Some c -> count <= c) ->
  let s := leastSlot counts i index count in
  0 <= s < Z.of_nat (length (pre ++ counts)) /\
  exists m, (pre ++ counts) !! Z.to_nat s = Some m /\ forall k c, (pre ++ counts) !! k = Some c -> m <= c.
Proof.
  induction counts as [|x counts IH]; intros i index count pre Hi Hx Hc Hm; cbn [leastSlot].
  - rewrite app_nil_r. split; [lia|]. by exists count.
  - assert (E : pre ++ x :: counts = (pre ++ [x]) ++ counts) by (by rewrite <- app_assoc). rewrite E.
    assert (Hlen : Z.of_nat (length (pre ++ [x])) = i + 1) by (rewrite length_app; cbn [length]; lia).
    assert (Hlast : (pre ++ [x]) !! Z.to_nat i = Some x) by (rewrite Hi, Nat2Z.id; by apply list_lookup_middle).
    assert (Hcases : forall k c, (pre ++ [x]) !! k = Some c -> pre !! k = Some c \/ c = x).
    { intros k c Hk. destruct (decide (k < length pre)%nat).
      - left. by rewrite lookup_app_l in Hk by done.
      - right. rewrite lookup_app_r in Hk by lia. destruct (k - length pre)%nat; [by injection Hk|done]. }
    destruct (Z.ltb_spec x count).
    + apply IH; [lia|lia|done|].
      intros k c Hkc. destruct (Hcases k c Hkc) as [Hp| ->]; [specialize (Hm k c Hp); lia|lia].
    + apply IH; [lia|lia| |].
      * rewrite lookup_app_l by (apply lookup_lt_Some in Hc; lia). done.
      * intros k c Hkc. destruct (Hcases k c Hkc) as [Hp| ->]; [by apply (Hm k)|lia].
Qed.
End TimerLemmas.

(** ** Runs of a factory

    The world is the factory, its worker thread, a pending [Stop], the objects and what
    the rest of the program holds of them.  Locked sections and upcalls are the steps;
    they interleave freely, as far as [enabled] says. *)

Module TimerRun.
Import CProTimerFactory TimerLemmas.

(** The worker's local vector: the node whose upcall runs, and those after it. *)
Record thread := mkThread { running : option node; waiting : list node }.
Definition local (th : thread) : list node := option_list (running th) ++ waiting th.

Record world := mkWorld {
  fac : t;
  refs : gmap Z nat;
  counters : ids;
  worker : option thread;
  stopping : option (list node);  (* the local set of a [Stop] that waits for the thread *)
  held : list Z                   (* the references of everybody else *)
}.

Definition setFac (f : t) (rc : gmap Z nat) (s : ids) (w : world) : world :=
  mkWorld f rc s (worker w) (stopping w) (held w).

Inductive action :=
  | AStart (started mmTimer : bool)
  | ASchedule (tick on span : Z) (recur : bool) (data : Z)
  | AHeartbeat (tick rand on data : Z)
  | ACancel (id : Z)
  | AUpdate (tick : Z) (rands : list Z) (seconds : Z)
  | AStopBegin
  | AStopEnd
  | ACollect (tick : Z)
  | AUpcall            (* [node.onTimer->OnTimer(node.timerId, node.userData)] *)
  | AReturn            (* [node.onTimer->Release()] after it *)
  | AExit              (* the worker sees [m_wantExit] *)
  | ATakeId            (* another factory takes an id *)
  | AAddRef (p : Z)    (* of the rest of the program *)
  | ARelease (p : Z).

Fixpoint removeOne (p : Z) (l : list Z) : list Z :=
  match l with [] => [] | q :: l => if p =? q then l else q :: removeOne p l end.

(** The result, and the ids of the timers called. *)
Definition exec (a : action) (w : world) : option (world * list Z) :=
  match a with
  | AStart started mm =>
      let '(ok, f) := Start started mm (fac w) in
      Some (mkWorld f (refs w) (counters w) (if ok then Some (mkThread None []) else worker w) (stopping w) (held w), [])
  | ASchedule tick on span recur data =>
      '(_, f, s, rc) ← ScheduleTimer tick on span recur data (fac w) (counters w) (refs w);
      Some (setFac f rc s w, [])
  | AHeartbeat tick rand on data =>
      '(_, f, s, rc) ← ScheduleHeartbeatTimer tick rand on data (fac w) (counters w) (refs w);
      Some (setFac f rc s w, [])
  | ACancel id => '(f, rc) ← CancelTimer id (fac w) (refs w); Some (setFac f rc (counters w) w, [])
  | AUpdate tick rands seconds =>
      '(_, f) ← UpdateHeartbeatTimers tick rands seconds (fac w); Some (setFac f (refs w) (counters w) w, [])
  | AStopBegin =>
      let '(l, f) := StopBegin (fac w) in
      Some (mkWorld f (refs w) (counters w) (worker w) l (held w), [])
  | AStopEnd =>
      l ← stopping w;
      '(f, rc) ← StopEnd l (fac w) (refs w);
      Some (mkWorld f rc (counters w) (worker w) None (held w), [])
  | ACollect tick =>
      '(out, f, rc) ← Collect tick (fac w) (refs w);
      Some (mkWorld f rc (counters w) (Some (mkThread None out)) (stopping w) (held w), [])
  | AUpcall =>
      match worker w with
      | Some (mkThread None (n :: l)) =>
          Some (mkWorld (fac w) (refs w) (counters w) (Some (mkThread (Some n) l)) (stopping w) (held w), [timerId n])
      | _ => None
      end
  | AReturn =>
      match worker w with
      | Some (mkThread (Some n) l) =>
          rc ← Release (onTimer n) (refs w);
          Some (mkWorld (fac w) rc (counters w) (Some (mkThread None l)) (stopping w) (held w), [])
      | _ => None
      end
  | AExit => Some (mkWorld (fac w) (refs w) (counters w) None (stopping w) (held w), [])
  | ATakeId =>
      Some (setFac (fac w) (refs w) (mkIds (snd (ProMakeTimerId (g_s_nextTimerId (counters w))))
                                       (snd (ProMakeMmTimerId (g_s_nextMmTimerId (counters w))))) w, [])
  | AAddRef p =>
      rc ← AddRef p (refs w); Some (mkWorld (fac w) rc (counters w) (worker w) (stopping w) (p :: held w), [])
  | ARelease p =>
      rc ← Release p (refs w);
      Some (mkWorld (fac w) rc (counters w) (worker w) (stopping w) (removeOne p (held w)), [])
  end.

Definition alive (p : Z) (w : world) : Prop := is_Some (refs w !! p).

(** The clock below [2 ^ 61] ms, ids and spans far from wrapping, only live objects are
    passed, [Start] and [Stop] exclude each other ([m_lockAtom]) and [Stop] waits for the
    thread.  [UpdateHeartbeatTimers] is called with at most as many heartbeat timers as
    there are slots: see [htbt_index_escapes]. *)
Definition enabled (a : action) (w : world) : Prop :=
  match a with
  | AStart _ _ => stopping w = None
  | ASchedule tick on span _ _ =>
      (on = NULL \/ alive on w) /\ 0 <= tick < 2 ^ 61 /\ 0 <= span < 2 ^ 61 /\
      g_s_nextTimerId (counters w) + 2 < 2 ^ 63 /\ g_s_nextMmTimerId (counters w) + 2 < 2 ^ 63
  | AHeartbeat tick rand on _ =>
      (on = NULL \/ alive on w) /\ 0 <= tick < 2 ^ 61 /\ 0 <= rand < m_htbtTimeSpan (fac w) /\
      g_s_nextTimerId (counters w) + 2 < 2 ^ 63
  | ACancel _ => True
  | AUpdate tick rands seconds =>
      0 <= tick < 2 ^ 61 /\ 0 < seconds < 2 ^ 40 /\ Forall (fun r => 0 <= r < seconds * 1000) rands /\
      (length (filter (fun n => heartbeat n = true) (m_timers (fac w))) <= STEPS)%nat
  | AStopBegin => stopping w = None
  | AStopEnd => is_Some (stopping w) /\ worker w = None
  | ACollect tick =>
      worker w = Some (mkThread None []) /\ m_wantExit (fac w) = false /\ m_timers (fac w) <> [] /\ 0 <= tick < 2 ^ 61
  | AUpcall => exists n l, worker w = Some (mkThread None (n :: l))
  | AReturn => exists n l, worker w = Some (mkThread (Some n) l)
  | AExit => worker w = Some (mkThread None []) /\ m_wantExit (fac w) = true
  | ATakeId => g_s_nextTimerId (counters w) + 2 < 2 ^ 63 /\ g_s_nextMmTimerId (counters w) + 2 < 2 ^ 63
  | AAddRef p => alive p w
  | ARelease p => p ∈ held w
  end.

(** Before [Start], the rest of the program holding [objs]. *)
Definition initial (w : world) : Prop :=
  fac w = CProTimerFactory.init /\ counters w = mkIds 1 2 /\ worker w = None /\ stopping w = None /\
  rc_ok (fun p => occ p (held w)) [] (refs w).

Inductive reachable : world -> Prop :=
  | reach_init w : initial w -> reachable w
  | reach_step w a w' out : reachable w -> enabled a w -> exec a w = Some (w', out) -> reachable w'.

(** *** The invariant *)

Definition issued (s : ids) (id : Z) : Prop :=
  (Z.odd id = true /\ 0 < id < g_s_nextTimerId s) \/ (Z.odd id = false /\ 0 < id < g_s_nextMmTimerId s).

Definition locals (w : world) : list node := match worker w with Some th => local th | None => [] end.
Definition leftover (w : world) : list node := default [] (stopping w).

Record Inv (w : world) : Prop := mkInv {
  inv_coherent : coherent (fac w);
  inv_refs : rc_ok (fun p => occ p (held w))
    (map onTimer (m_timers (fac w)) ++ map onTimer (locals w) ++ map onTimer (leftover w)) (refs w);
  inv_slots : slots_ok (g_s_nextTimerId (counters w)) (fac w);
  inv_counters : (Z.odd (g_s_nextTimerId (counters w)) = true /\ 1 <= g_s_nextTimerId (counters w) < 2 ^ 63) /\
    Z.odd (g_s_nextMmTimerId (counters w)) = false /\ 2 <= g_s_nextMmTimerId (counters w) < 2 ^ 63;
  inv_issued : Forall (fun n => issued (counters w) (timerId n)) (m_timers (fac w) ++ locals w);
  inv_sane : Forall sane (m_timers (fac w));
  inv_span : 0 < m_htbtTimeSpan (fac w) < 2 ^ 51;
  inv_once : NoDup (timerId <$> locals w);
  inv_phase : m_wantExit (fac w) = bool_decide (is_Some (stopping w)) /\
    m_task (fac w) = bool_decide (is_Some (worker w) \/ is_Some (stopping w)) /\
    (m_task (fac w) = false \/ is_Some (stopping w) -> m_timers (fac w) = [])
}.

Lemma issued_mono s s' id : issued s id ->
  g_s_nextTimerId s <= g_s_nextTimerId s' -> g_s_nextMmTimerId s <= g_s_nextMmTimerId s' -> issued s' id.
Proof. unfold issued. intros [[? ?]|[? ?]] ? ?; [left|right]; split; done || lia. Qed.

Lemma fresh_odd w : Inv w -> g_s_nextTimerId (counters w) ∉ timerId <$> m_timers (fac w).
Proof.
  intros H (n & E & Hn)%list_elem_of_fmap. pose proof (inv_issued w H) as Hi. rewrite Forall_forall in Hi.
  destruct (inv_counters w H) as ((Ho & _) & _). specialize (Hi n ltac:(apply elem_of_app; by left)).
  rewrite <- E in Hi. destruct Hi as [[_ ?]|[Hf _]]; [lia|congruence].
Qed.
Lemma fresh_even w : Inv w -> g_s_nextMmTimerId (counters w) ∉ timerId <$> m_timers (fac w).
Proof.
  intros H (n & E & Hn)%list_elem_of_fmap. pose proof (inv_issued w H) as Hi. rewrite Forall_forall in Hi.
  destruct (inv_counters w H) as (_ & Ho & _). specialize (Hi n ltac:(apply elem_of_app; by left)).
  rewrite <- E in Hi. destruct Hi as [[Hf _]|[_ ?]]; [congruence|lia].
Qed.

Lemma enter_timer_ok ext X n f rc : coherent f -> timerId n ∉ timerId <$> m_timers f -> rc_ok ext X rc ->
  is_Some (rc !! onTimer n) ->
  exists f' rc', enter n f rc = Some (f', rc') /\ coherent f' /\ m_timers f' ≡ₚ n :: m_timers f /\ same_rest f f' /\
    rc_ok ext (onTimer n :: X) rc'.
Proof.
  intros Hc Hid Hrc Ha. apply (rc_ok_is_Some ext X) in Ha; [|done].
  destruct (AddRef_ok ext X rc (onTimer n) Hrc Ha) as (rc' & E & Hrc'). unfold enter. rewrite E. cbn [mbind option_bind].
  destruct (coherent_insert f n Hc Hid) as [Hc' Hp]. do 2 eexists. split; [done|]. split_and!; done.
Qed.

(** The parts of the invariant that an added timer touches. *)
Lemma Inv_add w n f' rc' s' : Inv w -> coherent f' -> m_timers f' ≡ₚ n :: m_timers (fac w) ->
  m_htbtTimeSpan f' = m_htbtTimeSpan (fac w) -> m_wantExit f' = false -> m_task f' = true -> m_task (fac w) = true ->
  m_wantExit (fac w) = false -> sane n -> issued s' (timerId n) ->
  (Z.odd (g_s_nextTimerId s') = true /\ g_s_nextTimerId (counters w) <= g_s_nextTimerId s' < 2 ^ 63) ->
  (Z.odd (g_s_nextMmTimerId s') = false /\ g_s_nextMmTimerId (counters w) <= g_s_nextMmTimerId s' < 2 ^ 63) ->
  rc_ok (fun p => occ p (held w)) (onTimer n :: map onTimer (m_timers (fac w)) ++ map onTimer (locals w) ++ map onTimer (leftover w)) rc' ->
  slots_ok (g_s_nextTimerId s') f' ->
  Inv (setFac f' rc' s' w).
Proof.
  intros [Hc Hr Hs Hk Hi Hsa Hsp Ho Hph] Hc' Hp E1 E2 E3 E3' E4 Hn Hin Hk1 Hk2 Hrc Hsl.
  split; cbn [fac refs counters worker stopping held setFac locals leftover]; try done.
  - eapply rc_ok_perm; [|exact Hrc]. pose proof (objects_perm _ _ Hp) as Hob. cbn in Hob. rewrite Hob. done.
  - destruct Hk1, Hk2, Hk as ((? & ?) & ? & ?). split_and!; done || lia.
  - rewrite Hp. constructor; [done|]. eapply Forall_impl; [exact Hi|]. intros x Hx. eapply issued_mono; [exact Hx|lia|lia].
  - rewrite Hp. by constructor.
  - by rewrite E1.
  - rewrite E2, E3. destruct Hph as (H1 & H2 & H3). rewrite E4 in H1. rewrite E3' in H2. split_and!; [done|done|].
    intros [|Hst]; [done|]. rewrite bool_decide_true in H1 by done. done.
Qed.

Lemma slots_bound b b' f : slots_ok b f -> b <= b' -> slots_ok b' f.
Proof. intros [Hl Hc Hx] Hb. split; [done| |done]. intros i c Hi. specialize (Hc i c Hi). lia. Qed.

Lemma schedule_ok w tick on span recur data : Inv w -> enabled (ASchedule tick on span recur data) w ->
  exists w' out, exec (ASchedule tick on span recur data) w = Some (w', out) /\ Inv w'.
Proof.
  intros H (Ha & Ht & Hs & Hn1 & Hn2). cbn [exec]. unfold ScheduleTimer.
  destruct ((on =? NULL) || ((span =? 0) && recur)) eqn:E0.
  { do 2 eexists. split; [done|]. by destruct w, H. }
  destruct (negb (m_task (fac w)) || m_wantExit (fac w)) eqn:E1.
  { do 2 eexists. split; [done|]. by destruct w, H. }
  apply orb_false_iff in E0 as [E0 E0']. apply orb_false_iff in E1 as [Etask%negb_false_iff E1].
  destruct Ha as [->|Ha]; [done|].
  destruct (inv_counters w H) as ((Hodd & Hr1) & Heven & Hr2).
  set (id := if m_mmTimer (fac w) then g_s_nextMmTimerId (counters w) else g_s_nextTimerId (counters w)).
  assert (Hs' : exists s', (if m_mmTimer (fac w)
      then let '(id, n) := ProMakeMmTimerId (g_s_nextMmTimerId (counters w)) in (id, mkIds (g_s_nextTimerId (counters w)) n)
      else let '(id, n) := ProMakeTimerId (g_s_nextTimerId (counters w)) in (id, mkIds n (g_s_nextMmTimerId (counters w))))
      = (id, s') /\ issued s' id /\
      (Z.odd (g_s_nextTimerId s') = true /\ g_s_nextTimerId (counters w) <= g_s_nextTimerId s' < 2 ^ 63) /\
      (Z.odd (g_s_nextMmTimerId s') = false /\ g_s_nextMmTimerId (counters w) <= g_s_nextMmTimerId s' < 2 ^ 63)).
  { unfold id, ProMakeMmTimerId, ProMakeTimerId, issued. rewrite !(wrap_small 64) by lia. destruct (m_mmTimer (fac w)).
    - destruct (Z.eqb_spec (g_s_nextMmTimerId (counters w) + 2) 0); [lia|]. eexists. split; [done|].
      cbn [g_s_nextTimerId g_s_nextMmTimerId]. rewrite Z.odd_add, Heven. split; [right; split; [done|lia]|].
      split; split; done || lia.
    - eexists. split; [done|]. cbn [g_s_nextTimerId g_s_nextMmTimerId]. rewrite Z.odd_add, Hodd.
      split; [left; split; [done|lia]|]. split; split; done || lia. }
  destruct Hs' as (s' & -> & Hiss & Hk1 & Hk2).
  set (n := mkNode _ _ _ _ _ _ _ _).
  assert (Hsn : sane n).
  { unfold sane. cbn. rewrite !s64_small by lia. split_and!; try lia. intros [->|]; [|done].
    rewrite andb_true_r in E0'. apply Z.eqb_neq in E0'. lia. }
  assert (Hfr : timerId n ∉ timerId <$> m_timers (fac w))
    by (cbn; unfold id; destruct (m_mmTimer (fac w)); [by apply fresh_even|by apply fresh_odd]).
  destruct (enter_timer_ok _ _ n (fac w) (refs w) (inv_coherent w H) Hfr (inv_refs w H) Ha)
    as (f' & rc' & -> & Hc' & Hp & (Q1 & Q2 & Q3 & Q4 & Q5) & Hrc').
  cbn [mbind option_bind]. do 2 eexists. split; [done|].
  eapply (Inv_add w n); eauto; try congruence.
  apply (slots_timers _ (fac w)); [apply (slots_bound (g_s_nextTimerId (counters w))); [apply H|lia]|done| |].
  - intros i. rewrite (load_perm _ _ _ Hp), load_cons. rewrite decide_False by (intros [? _]; done). lia.
  - rewrite Hp. constructor; [done|]. apply (sl_index _ _ (inv_slots w H)).
Qed.

(** A heartbeat timer: where it goes. *)
Lemma heartbeat_entry w tick rand on data : Inv w -> enabled (AHeartbeat tick rand on data) w -> on <> NULL ->
  m_task (fac w) = true -> m_wantExit (fac w) = false -> m_mmTimer (fac w) = false ->
  exists n f' rc' (k : nat) c,
    let s' := mkIds (g_s_nextTimerId (counters w) + 2) (g_s_nextMmTimerId (counters w)) in
    ScheduleHeartbeatTimer tick rand on data (fac w) (counters w) (refs w) = Some (timerId n, f', s', rc') /\
    n = mkNode (roundUp tick (m_htbtTimeSpan (fac w)) + m_htbtTimeSpan (fac w) / Z.of_nat STEPS * Z.of_nat k + rand)
          (g_s_nextTimerId (counters w)) on (m_htbtTimeSpan (fac w)) true true (Z.of_nat k) data /\
    (k < STEPS)%nat /\ m_htbtCounts (fac w) !! k = Some c /\
    (forall i c', m_htbtCounts (fac w) !! i = Some c' -> c <= c') /\
    m_htbtCounts f' = <[k := c + 1]> (m_htbtCounts (fac w)) /\
    coherent f' /\ m_timers f' ≡ₚ n :: m_timers (fac w) /\
    m_task f' = m_task (fac w) /\ m_wantExit f' = m_wantExit (fac w) /\ m_mmTimer f' = m_mmTimer (fac w) /\
    m_htbtTimeSpan f' = m_htbtTimeSpan (fac w) /\
    rc_ok (fun p => occ p (held w))
      (on :: map onTimer (m_timers (fac w)) ++ map onTimer (locals w) ++ map onTimer (leftover w)) rc'.
Proof.
  intros H (Ha & Ht & Hr & Hn1) Hon Htask Hexit Hmm. destruct Ha as [?|Ha]; [done|].
  pose proof (inv_slots w H) as Hsl. pose proof (inv_span w H) as Hsp.
  destruct (inv_counters w H) as ((Hodd & Hr1) & _).
  unfold ScheduleHeartbeatTimer. rewrite (proj2 (Z.eqb_neq _ _) Hon), Htask, Hexit, Hmm. cbn [negb orb].
  destruct (slots_lookup _ _ 0 Hsl ltac:(unfold STEPS; lia)) as (c0 & E0 & _). unfold countAt.
  change (Z.to_nat 0) with 0%nat. rewrite E0. cbn [mbind option_bind].
  assert (Ecs : m_htbtCounts (fac w) = [c0] ++ drop 1 (m_htbtCounts (fac w))) by (destruct (m_htbtCounts (fac w)); [done|by injection E0 as ->]).
  destruct (leastSlot_ok (drop 1 (m_htbtCounts (fac w))) 1 0 c0 [c0]) as (Hk & c & Ec & Hmin); [done|lia|done| |].
  { intros [|[|]] c Hc; [injection Hc as ->; lia|done|done]. }
  set (k := leastSlot _ _ _ _) in *. rewrite <- Ecs in Hk, Ec, Hmin. rewrite (sl_len _ _ Hsl) in Hk.
  rewrite Ec. cbn [mbind option_bind].
  destruct Hsl as [Hlen Hload Hidx]. pose proof (Hload _ _ Ec) as Hcb. pose proof (load_nonneg (Z.to_nat k) (m_timers (fac w))).
  rewrite (wrap_small 64) by lia. cbn [m_htbtTimeSpan setCountAt setCounts m_htbtCounts].
  rewrite length_insert, Hlen. unfold ProMakeTimerId. rewrite (wrap_small 64) by lia.
  destruct (Z.eqb_spec (m_htbtTimeSpan (fac w)) 0) as [|Hz]; [lia|]. rewrite Z.quot_div_nonneg by lia.
  set (f1 := setCountAt k (c + 1) (fac w)). set (n := mkNode _ _ _ _ _ _ _ _).
  assert (Hfr : timerId n ∉ timerId <$> m_timers f1) by (by apply fresh_odd).
  assert (Hco : coherent f1) by (destruct (inv_coherent w H); by split).
  destruct (enter_timer_ok _ _ n f1 (refs w) Hco Hfr (inv_refs w H) Ha)
    as (f' & rc' & -> & Hc' & Hp & (Q1 & Q2 & Q3 & Q4 & Q5) & Hrc'). cbn [mbind option_bind].
  exists n, f', rc', (Z.to_nat k), c. cbv zeta. split; [done|].
  rewrite (Z2Nat.id k) by lia. cbn [m_task m_wantExit m_mmTimer f1 setCountAt setCounts] in Q1, Q2, Q3.
  split_and!; done || lia || congruence.
Qed.

Lemma heartbeat_ok w tick rand on data : Inv w -> enabled (AHeartbeat tick rand on data) w ->
  exists w' out, exec (AHeartbeat tick rand on data) w = Some (w', out) /\ Inv w'.
Proof.
  intros H He. cbn [exec].
  assert (Hstay : Inv (setFac (fac w) (refs w) (counters w) w)) by (by destruct w, H).
  destruct (Z.eqb_spec on NULL) as [->|Hon].
  { do 2 eexists. split; [by unfold ScheduleHeartbeatTimer; rewrite Z.eqb_refl|done]. }
  destruct (negb (m_task (fac w)) || m_wantExit (fac w) || m_mmTimer (fac w)) eqn:E1.
  { do 2 eexists. split; [|exact Hstay]. unfold ScheduleHeartbeatTimer. rewrite (proj2 (Z.eqb_neq _ _) Hon).
    destruct (negb (m_task (fac w)) || m_wantExit (fac w)); [done|]. cbn in E1. by rewrite E1. }
  apply orb_false_iff in E1 as [E1 Hmm]. apply orb_false_iff in E1 as [Ht%negb_false_iff Hx].
  destruct (heartbeat_entry w tick rand on data H He Hon Ht Hx Hmm)
    as (n & f' & rc' & k & c & E & Hn & Hk & Ec & _ & Hcs & Hc' & Hp & Q1 & Q2 & Q3 & Q4 & Hrc').
  rewrite E. cbn [mbind option_bind]. do 2 eexists. split; [done|].
  destruct He as (_ & Hti & Hra & Hn1). destruct (inv_counters w H) as ((Hodd & Hr1) & Heven & Hr2).
  pose proof (inv_span w H) as Hsp. pose proof (roundUp_bounds tick (m_htbtTimeSpan (fac w)) ltac:(lia) ltac:(lia)) as [Hru _].
  assert (Hst : 0 <= m_htbtTimeSpan (fac w) / Z.of_nat STEPS * Z.of_nat k <= m_htbtTimeSpan (fac w)).
  { pose proof (Z.div_pos (m_htbtTimeSpan (fac w)) (Z.of_nat STEPS)) as Hd. unfold STEPS in *.
    pose proof (Z.mul_div_le (m_htbtTimeSpan (fac w)) (Z.of_nat 1000)). nia. }
  eapply (Inv_add w n); eauto; try congruence; cbn [g_s_nextTimerId g_s_nextMmTimerId].
  - rewrite Hn. unfold sane. cbn. split_and!; try lia.
  - rewrite Hn. unfold issued. cbn. left. split; [done|lia].
  - rewrite Z.odd_add, Hodd. split; [done|lia].
  - split; [done|lia].
  - rewrite Hn. done.
  - apply (slots_count _ (fac w) _ k c 1); [eapply slots_bound; [apply H|lia]|done|done|done| | |].
    + pose proof (sl_load _ _ (inv_slots w H) _ _ Ec). lia.
    + intros i. rewrite (load_perm _ _ _ Hp), load_cons, Hn. unfold inSlot. cbn [heartbeat htbtIndex].
      destruct (decide (i = k)) as [->|]; [rewrite decide_True by done; lia|].
      rewrite decide_False by (intros [_ ?]; lia). lia.
    + rewrite Hp. constructor; [rewrite Hn; cbn; lia|]. apply (sl_index _ _ (inv_slots w H)).
Qed.

(** The parts of the invariant that a removed timer touches. *)
Lemma Inv_remove w n f' rc' : Inv w -> coherent f' -> m_timers (fac w) ≡ₚ n :: m_timers f' ->
  m_htbtTimeSpan f' = m_htbtTimeSpan (fac w) -> m_wantExit f' = m_wantExit (fac w) -> m_task f' = m_task (fac w) ->
  rc_ok (fun p => occ p (held w)) (map onTimer (m_timers f') ++ map onTimer (locals w) ++ map onTimer (leftover w)) rc' ->
  slots_ok (g_s_nextTimerId (counters w)) f' ->
  Inv (setFac f' rc' (counters w) w).
Proof.
  intros [Hc Hr Hs Hk Hi Hsa Hsp Ho Hph] Hc' Hp E1 E2 E3 Hrc Hsl.
  rewrite Hp in Hi, Hsa. apply Forall_cons in Hsa as [_ Hsa]. cbn in Hi. apply Forall_cons in Hi as [_ Hi].
  split; cbn [fac refs counters worker stopping held setFac locals leftover]; try done.
  - by rewrite E1.
  - rewrite E2, E3. destruct Hph as (H1 & H2 & H3). split_and!; [done|done|].
    intros Hst. specialize (H3 Hst). rewrite H3 in Hp. by apply Permutation_nil_cons in Hp.
Qed.

Lemma cancel_entry w id n : Inv w -> n ∈ m_timers (fac w) -> timerId n = id -> m_task (fac w) = true ->
  exists f' rc', CancelTimer id (fac w) (refs w) = Some (f', rc') /\ m_timers (fac w) ≡ₚ n :: m_timers f' /\
    (id ∉ timerId <$> m_timers f') /\ Inv (setFac f' rc' (counters w) w).
Proof.
  intros H Hn Hid Htask. unfold CancelTimer. rewrite Htask. cbn [negb].
  destruct (inv_coherent w H) as [Ht Hi Hs].
  assert (Hid0 : id <> 0).
  { pose proof (inv_issued w H) as Hiss. rewrite Forall_forall in Hiss.
    specialize (Hiss n ltac:(apply elem_of_app; by left)). rewrite Hid in Hiss. unfold issued in Hiss. lia. }
  rewrite (proj2 (Z.eqb_neq _ _) Hid0).
  destruct (coherent_find (fac w) n (inv_coherent w H) Hn) as [Hf Hk]. rewrite Hid in Hf. rewrite Hf. unfold entry. cbv beta iota.
  change (stl_key n) with (expireTick n, timerId n) in Hk. rewrite Hid in Hk. rewrite Hk.
  destruct (coherent_erase (fac w) n (inv_coherent w H) Hn) as [Hc' Hp].
  change (stl_key n) with (expireTick n, timerId n) in Hc', Hp. rewrite Hid in Hc', Hp.
  set (f1 := setTimers _ _ _) in *.
  assert (Hfr : id ∉ timerId <$> m_timers f1).
  { pose proof (coherent_NoDup _ (inv_coherent w H)) as Hnd. rewrite Hp in Hnd. cbn in Hnd. rewrite Hid in Hnd.
    by apply NoDup_cons in Hnd as [? _]. }
  assert (Hrel : exists rc', Release (onTimer n) (refs w) = Some rc' /\
    rc_ok (fun p => occ p (held w)) (map onTimer (m_timers f1) ++ map onTimer (locals w) ++ map onTimer (leftover w)) rc').
  { apply Release_ok. eapply rc_ok_perm; [|apply (inv_refs w H)]. pose proof (objects_perm _ _ Hp) as Hob. cbn in Hob.
    rewrite Hob. done. }
  destruct Hrel as (rc' & Erel & Hrc').
  pose proof (sl_index _ _ (inv_slots w H)) as Hx. rewrite Hp in Hx. apply Forall_cons in Hx as [Hxn Hx].
  destruct (heartbeat n) eqn:Hh.
  - specialize (Hxn eq_refl). unfold countAt. cbn [f1 setTimers m_htbtCounts].
    destruct (slots_lookup _ _ (Z.to_nat (htbtIndex n)) (inv_slots w H)) as (c & Ec & Hcb); [unfold STEPS in *; lia|].
    rewrite Ec. cbn [mbind option_bind]. rewrite Erel. cbn [mbind option_bind].
    assert (Hld : forall i, load i (m_timers f1) = load i (m_timers (fac w)) + if decide (i = Z.to_nat (htbtIndex n)) then -1 else 0).
    { intros i. rewrite (load_perm _ _ _ Hp), load_cons.
      destruct (decide (i = Z.to_nat (htbtIndex n))) as [->|Hne];
        [rewrite decide_True by (split; [done|lia]); lia|rewrite decide_False by (intros [_ ?]; lia); lia]. }
    pose proof (Hld (Z.to_nat (htbtIndex n))) as Hl1. rewrite decide_True in Hl1 by done.
    pose proof (load_nonneg (Z.to_nat (htbtIndex n)) (m_timers f1)).
    destruct (inv_counters w H) as ((_ & Hr1) & _). rewrite wrap_small by lia.
    do 2 eexists. split; [done|]. split_and!; [done..|].
    apply (Inv_remove w n); try done.
    + destruct Hc'. by split.
    + apply (slots_count _ (fac w) _ (Z.to_nat (htbtIndex n)) c (-1)); try done; [apply H|unfold STEPS in *; lia|lia].
  - cbn [mbind option_bind]. rewrite Erel. cbn [mbind option_bind].
    do 2 eexists. split; [done|]. split_and!; [done..|].
    apply (Inv_remove w n); try done.
    apply (slots_timers _ (fac w)); [apply H|done| |done].
    intros i. rewrite (load_perm _ _ _ Hp), load_cons. destruct (decide _); lia.
Qed.

Lemma cancel_absent w id : Inv w -> id ∉ timerId <$> m_timers (fac w) ->
  CancelTimer id (fac w) (refs w) = Some (fac w, refs w).
Proof.
  intros H Hid. unfold CancelTimer. destruct (id =? 0); [done|]. destruct (negb _); [done|].
  by rewrite (coherent_fresh _ _ (inv_coherent w H) Hid).
Qed.

Lemma cancel_ok w id : Inv w -> exists w', exec (ACancel id) w = Some (w', []) /\ Inv w' /\
  (m_task (fac w) = true -> id ∉ timerId <$> m_timers (fac w')) /\
  worker w' = worker w /\ counters w' = counters w.
Proof.
  intros H. cbn [exec].
  assert (Hstay : Inv (setFac (fac w) (refs w) (counters w) w)) by (by destruct w, H).
  destruct (decide (id ∈ timerId <$> m_timers (fac w))) as [Hin|Hin].
  - apply list_elem_of_fmap in Hin as (n & Hid & Hn). destruct (m_task (fac w)) eqn:Ht.
    + destruct (cancel_entry w id n H Hn (eq_sym Hid) Ht) as (f' & rc' & -> & Hp & Hfr & Hinv).
      cbn [mbind option_bind]. eexists. split; [done|]. by split_and!.
    + exists (setFac (fac w) (refs w) (counters w) w). split; [|by split_and!].
      unfold CancelTimer. rewrite Ht. by destruct (id =? 0).
  - rewrite cancel_absent by done. cbn [mbind option_bind]. eexists. split; [done|]. by split_and!.
Qed.

(** *** The other steps *)

Lemma renewed_load tick i nodes out : Forall2 (renewed tick) nodes out ->
  load i (filter (fun n => repeats n = true) out) = load i nodes.
Proof.
  induction 1 as [|n n' nodes out Hr _ IH]; [done|]. rewrite filter_cons, load_cons.
  destruct (renewed_fields _ _ _ Hr) as (_ & _ & _ & _ & Hrep & Hh & Hx & _).
  assert (E : inSlot i n <-> inSlot i n') by (unfold inSlot; by rewrite Hh, Hx).
  destruct (decide (repeats n' = true)) as [Hr'|Hr'].
  - rewrite load_cons, IH. f_equal. by rewrite (decide_ext _ _ _ _ E).
  - rewrite IH. rewrite decide_False; [lia|]. intros [Hc _]. apply Hr'. rewrite Hrep. unfold repeats. rewrite Hc.
    apply orb_true_r.
Qed.

Lemma Forall2_transfer {A B} (R : A -> B -> Prop) (P : A -> Prop) (Q : B -> Prop) l k :
  Forall2 R l k -> (forall x y, R x y -> P x -> Q y) -> Forall P l -> Forall Q k.
Proof. intros HR HPQ. induction HR; intros HP; [done|]. inversion HP; subst. constructor; eauto. Qed.

Lemma renewed_sane tick n n' : 0 <= tick < 2 ^ 61 -> renewed tick n n' -> sane n -> sane n'.
Proof.
  intros Ht Hr Hs. pose proof (renewed_fields _ _ _ Hr) as (_ & _ & _ & Hsp & Hrep & Hh & _ & Hrc).
  destruct (repeats n) eqn:E.
  - pose proof (renewed_later tick n n' Hs Ht Hr E) as (He & _). destruct Hs as (H1 & H2 & H3).
    unfold sane. rewrite Hsp, Hrc, Hh. split_and!; done || lia.
  - destruct Hr as [[_ ->]|[Hc _]]; [done|congruence].
Qed.

Lemma renewed_ids tick nodes out : Forall2 (renewed tick) nodes out -> timerId <$> out = timerId <$> nodes.
Proof.
  induction 1 as [|n n' nodes out Hr _ IH]; [done|]. cbn. rewrite IH.
  by destruct (renewed_fields _ _ _ Hr) as (-> & _).
Qed.

Lemma collect_entry w tick : Inv w -> enabled (ACollect tick) w ->
  exists out rest f' rc', Collect tick (fac w) (refs w) = Some (out, f', rc') /\
    m_timers (fac w) = expired tick (m_timers (fac w)) ++ rest /\
    Forall2 (renewed tick) (expired tick (m_timers (fac w))) out /\
    m_timers f' ≡ₚ filter (fun n => repeats n = true) out ++ rest /\ same_rest (fac w) f' /\
    Inv (mkWorld f' rc' (counters w) (Some (mkThread None out)) (stopping w) (held w)).
Proof.
  intros H (Hw & Hx & Hne & Ht). unfold Collect.
  destruct (inv_phase w H) as (Hp1 & Hp2 & Hp3). rewrite Hx in Hp1. symmetry in Hp1. apply bool_decide_eq_false in Hp1.
  assert (Hst : stopping w = None) by (destruct (stopping w); [destruct Hp1; by eexists|done]).
  assert (Hlo : locals w = []) by (unfold locals; by rewrite Hw).
  assert (Hle : leftover w = []) by (unfold leftover; by rewrite Hst).
  pose proof (inv_refs w H) as Hrc. rewrite Hlo, Hle in Hrc. cbn [map app] in Hrc.
  destruct (expired_spec tick (m_timers (fac w))) as (rest & Hsplit & _).
  set (nodes := expired tick (m_timers (fac w))) in *.
  pose proof (inv_sane w H) as Hsa. rewrite Hsplit in Hsa. apply Forall_app in Hsa as [Hsn Hsr].
  pose proof (inv_issued w H) as Hi. rewrite Hlo, app_nil_r, Hsplit in Hi. apply Forall_app in Hi as [Hin Hir].
  pose proof (sl_index _ _ (inv_slots w H)) as Hix. rewrite Hsplit in Hix. apply Forall_app in Hix as [Hixn Hixr].
  destruct (renewAll_ok (fun p => occ p (held w)) tick nodes (fac w) (refs w) rest [] (inv_coherent w H) Ht Hsn)
    as (out & f' & rc' & E & Hc' & Hren & (Q1 & Q2 & Q3 & Q4 & Q5) & Hp & Hrc'); [by rewrite <- Hsplit|done|].
  exists out, rest, f', rc'. split; [done|]. split_and!; try done.
  assert (Hkeep : forall (P : node -> Prop), (forall n n', renewed tick n n' -> P n -> P n') ->
    Forall P nodes -> Forall P rest -> Forall P (m_timers f')).
  { intros P HP Hn Hr. rewrite Hp. apply Forall_app. split; [|done].
    assert (Ho : Forall P out) by (eapply Forall2_transfer; eauto).
    rewrite Forall_forall in Ho |- *. intros x Hx2. apply list_elem_of_filter in Hx2 as [_ ?]. by apply Ho. }
  split; cbn [fac refs counters worker stopping held locals leftover local running waiting]; try done.
  - rewrite Hst. cbn. rewrite !app_nil_r in Hrc' |- *. done.
  - apply (slots_timers _ (fac w)); [apply H|done| |].
    + intros i. rewrite (load_perm _ _ _ Hp), load_app, (renewed_load tick i nodes out Hren).
      pose proof (f_equal (load i) Hsplit) as El. rewrite load_app in El. lia.
    + apply Hkeep; [|done..]. intros n n' Hr. by destruct (renewed_fields _ _ _ Hr) as (_ & _ & _ & _ & _ & -> & -> & _).
  - apply H.
  - apply Forall_app. split.
    + apply Hkeep; [|done..]. intros n n' Hr. by destruct (renewed_fields _ _ _ Hr) as (-> & _).
    + cbn. eapply Forall2_transfer; [exact Hren| |exact Hin].
      intros n n' Hr. by destruct (renewed_fields _ _ _ Hr) as (-> & _).
  - apply Hkeep; [|done..]. intros n n' Hr. by apply (renewed_sane tick).
  - rewrite Q4. apply H.
  - change (NoDup (timerId <$> out)). rewrite (renewed_ids _ _ _ Hren). pose proof (coherent_NoDup _ (inv_coherent w H)) as Hnd.
    rewrite Hsplit, fmap_app in Hnd. by apply NoDup_app in Hnd as [? _].
  - rewrite Hw, bool_decide_true in Hp2 by (left; by eexists). rewrite Q1, Q2, Hst, Hp2.
    split_and!; [by rewrite Hx|by rewrite bool_decide_true by (left; by eexists)|by intros [|[]]].
Qed.

(** *** [UpdateHeartbeatTimers] *)

Definition placed (tick span step rand index : Z) (n : node) : node :=
  mkNode (roundUp tick span + step * index + rand) (timerId n) (onTimer n) span (recurring n) (heartbeat n)
    index (userData n).

Fixpoint placements (tick span step : Z) (nodes : list node) (rands : list Z) (index : Z) : list node :=
  match nodes with
  | [] => []
  | n :: nodes => placed tick span step (hd 0 rands) index n :: placements tick span step nodes (tl rands) (index + 1)
  end.

Lemma sorted_filter (P : node -> Prop) `{!forall n, Decision (P n)} l : stl_sorted l -> stl_sorted (filter P l).
Proof.
  induction l as [|n l IH]; [done|]. intros [Hn Hs]. rewrite filter_cons. destruct (decide (P n)); [|by apply IH].
  split; [|by apply IH]. rewrite Forall_forall in Hn |- *. intros x [_ Hx]%list_elem_of_filter. by apply Hn.
Qed.

Lemma placements_fields tick span step nodes : forall rands index,
  timerId <$> placements tick span step nodes rands index = timerId <$> nodes /\
  onTimer <$> placements tick span step nodes rands index = onTimer <$> nodes.
Proof. induction nodes as [|n nodes IH]; intros rands index; [done|]. cbn. destruct (IH (tl rands) (index + 1)) as [-> ->]. done. Qed.

Lemma placements_load tick span step i nodes : forall rands index,
  Forall (fun n => heartbeat n = true) nodes ->
  load i (placements tick span step nodes rands index)
  = if decide (index <= Z.of_nat i < index + Z.of_nat (length nodes)) then 1 else 0.
Proof.
  induction nodes as [|n nodes IH]; intros rands index Hh; cbn [placements length].
  - by rewrite decide_False by lia.
  - apply Forall_cons in Hh as [Hn Hh]. rewrite load_cons, IH by done.
    destruct (decide (inSlot i _)) as [[_ Hx]|Hx]; cbn in Hx.
    + by rewrite decide_False, decide_True by lia.
    + assert (index <> Z.of_nat i) by (intros ?; apply Hx; by split).
      destruct (decide (index + 1 <= _ < _)); [rewrite decide_True by lia|rewrite decide_False by lia]; done.
Qed.

Lemma placements_Forall (P : node -> Prop) tick span step nodes : forall rands index,
  (forall n r k, In n nodes -> (r = 0 \/ In r rands) -> index <= k < index + Z.of_nat (length nodes) ->
     P (placed tick span step r k n)) ->
  Forall P (placements tick span step nodes rands index).
Proof.
  induction nodes as [|n nodes IH]; intros rands index HP; [constructor|]. cbn [placements].
  constructor; [apply HP; [by left|destruct rands; [by left|right; by left]|cbn [length]; lia]|].
  apply IH. intros m r k Hm Hr Hk. apply HP; [by right| |cbn [length]; lia].
  destruct Hr as [->|Hr]; [by left|right]. destruct rands; [done|by right].
Qed.

(** One turn of the loop, while the entries of [rest] wait. *)
Lemma place_one f n e rest : stl_sorted (m_timers f) -> stl_sorted (m_timerId2ExpireTick f) ->
  m_timerId2ExpireTick f ≡ₚ entry <$> m_timers f ++ n :: rest ->
  timerId e = timerId n ->
  let f' := setTimers (stl_insert e (m_timers f)) (stl_assign (entry e) (m_timerId2ExpireTick f)) f in
  stl_sorted (m_timers f') /\ stl_sorted (m_timerId2ExpireTick f') /\
  m_timerId2ExpireTick f' ≡ₚ entry <$> m_timers f' ++ rest /\ m_timers f' ≡ₚ e :: m_timers f.
Proof.
  intros Ht Hi Hs He f'.
  assert (Hnd : NoDup (timerId <$> m_timers f ++ n :: rest)).
  { pose proof (stl_sorted_NoDup _ Hi) as Hn.
    assert (E : stl_key <$> m_timerId2ExpireTick f ≡ₚ timerId <$> m_timers f ++ n :: rest)
      by (rewrite Hs, <- list_fmap_compose; done). by rewrite <- E. }
  assert (Hfr : timerId e ∉ timerId <$> m_timers f).
  { rewrite He. rewrite fmap_app in Hnd. apply NoDup_app in Hnd as (_ & Hd & _). intros Hin. apply (Hd _ Hin). left. }
  assert (Hp : m_timers f' ≡ₚ e :: m_timers f) by (by apply stl_insert_Permutation, fresh_key).
  assert (Hf : stl_find (timerId n) (m_timerId2ExpireTick f) = Some (entry n)).
  { apply (stl_sorted_find_elem _ (entry n) Hi). rewrite Hs. apply list_elem_of_fmap_2, elem_of_app. right. left. }
  split_and!; [by apply stl_sorted_insert|by apply stl_sorted_assign| |done].
  rewrite Hp. cbn [m_timerId2ExpireTick f' setTimers].
  pose proof (stl_assign_Permutation (entry e) (m_timerId2ExpireTick f) (entry n) Hi) as Ha.
  change (stl_key (entry e)) with (timerId e) in Ha. rewrite He in Ha. rewrite (Ha Hf). cbn [fmap list_fmap app].
  apply Permutation_cons; [done|].
  apply (same_cancel (m_timerId2ExpireTick f) _ n (m_timers f ++ n :: rest)); [done|by rewrite Permutation_middle|].
  by apply stl_erase_Permutation.
Qed.

Lemma replace_htbt_ok tick nodes : forall rands index f,
  stl_sorted (m_timers f) -> stl_sorted (m_timerId2ExpireTick f) ->
  m_timerId2ExpireTick f ≡ₚ entry <$> m_timers f ++ nodes ->
  length (m_htbtCounts f) = STEPS -> 0 <= index -> index + Z.of_nat (length nodes) <= Z.of_nat STEPS ->
  exists f', replace tick nodes rands index f = Some f' /\ coherent f' /\
    m_timers f' ≡ₚ m_timers f ++ placements tick (m_htbtTimeSpan f) (Z.quot (m_htbtTimeSpan f) (Z.of_nat STEPS)) nodes rands index /\
    length (m_htbtCounts f') = STEPS /\
    (forall i c, m_htbtCounts f' !! i = Some c ->
       if decide (index <= Z.of_nat i < index + Z.of_nat (length nodes)) then c = 1 else m_htbtCounts f !! i = Some c) /\
    m_task f' = m_task f /\ m_wantExit f' = m_wantExit f /\ m_htbtTimeSpan f' = m_htbtTimeSpan f.
Proof.
  induction nodes as [|n nodes IH]; intros rands index f Ht Hi Hs Hl Hx Hb.
  - rewrite app_nil_r in Hs. exists f. split; [done|]. split; [by split|].
    cbn [placements length]. rewrite app_nil_r. split_and!; try done.
    intros i c Hc. by rewrite decide_False by lia.
  - cbn [replace length] in *. rewrite Hl. destruct (Z.ltb_spec index (Z.of_nat STEPS)); [|lia].
    cbn [mbind option_bind]. set (f1 := setCountAt index 1 f). change (m_htbtTimeSpan f1) with (m_htbtTimeSpan f).
    set (e := mkNode _ _ _ _ _ _ _ _).
    destruct (place_one f1 n e nodes Ht Hi Hs eq_refl) as (Ht' & Hi' & Hs' & Hp').
    fold (entry e). set (f2 := setTimers _ _ _) in *.
    destruct (IH (tl rands) (index + 1) f2 Ht' Hi' Hs') as (f' & -> & Hc' & Hp & Hl' & Hcs & Q1 & Q2 & Q3).
    { cbn. by rewrite length_insert. } { lia. } { lia. }
    exists f'. split; [done|]. split_and!; try done.
    + rewrite Hp, Hp'. cbn [placements]. change (m_htbtTimeSpan f2) with (m_htbtTimeSpan f). rewrite <- Permutation_middle. done.
    + intros i c Hc. specialize (Hcs i c Hc). cbn [m_htbtCounts f2 setTimers f1 setCountAt setCounts] in Hcs.
      destruct (decide (index + 1 <= _ < _)); [by rewrite decide_True by lia|].
      destruct (decide (Z.of_nat i = index)) as [Ei|Ei].
      * rewrite decide_True by lia. replace (Z.to_nat index) with i in Hcs by lia.
        rewrite list_lookup_insert_eq in Hcs by (rewrite Hl; unfold STEPS in *; lia). by injection Hcs.
      * rewrite decide_False by lia. by rewrite list_lookup_insert_ne in Hcs by lia.
Qed.

Lemma filter_split (l : list node) :
  l ≡ₚ filter (fun n => heartbeat n = false) l ++ filter (fun n => heartbeat n = true) l.
Proof.
  induction l as [|n l IH]; [done|]. rewrite !filter_cons. destruct (heartbeat n);
    [rewrite decide_False, decide_True by done|rewrite decide_True, decide_False by done].
  - by rewrite <- Permutation_middle, <- IH.
  - cbn [app]. by rewrite <- IH.
Qed.

Lemma load_others i (l : list node) : load i (filter (fun n => heartbeat n = false) l) = 0.
Proof.
  induction l as [|n l IH]; [done|]. rewrite filter_cons. destruct (decide _) as [Hn|]; [|done].
  rewrite load_cons, IH. rewrite decide_False; [done|]. intros [Hc _]. congruence.
Qed.

Lemma update_entry w tick rands seconds : Inv w -> enabled (AUpdate tick rands seconds) w ->
  m_task (fac w) = true -> m_wantExit (fac w) = false -> seconds * 1000 <> m_htbtTimeSpan (fac w) ->
  exists f', UpdateHeartbeatTimers tick rands seconds (fac w) = Some (true, f') /\
    m_htbtTimeSpan f' = seconds * 1000 /\
    m_timers f' ≡ₚ filter (fun n => heartbeat n = false) (m_timers (fac w)) ++
      placements tick (seconds * 1000) (Z.quot (seconds * 1000) (Z.of_nat STEPS))
        (filter (fun n => heartbeat n = true) (m_timers (fac w))) rands 0 /\
    Inv (setFac f' (refs w) (counters w) w).
Proof.
  intros H (Ht & Hsec & Hr & Hlen) Htask Hexit Hne. unfold UpdateHeartbeatTimers.
  destruct (Z.eqb_spec seconds 0) as [|_]; [lia|]. rewrite s64_small by lia. rewrite Htask, Hexit. cbn [negb orb].
  rewrite (proj2 (Z.eqb_neq _ _) Hne). set (span := seconds * 1000) in *.
  destruct (inv_coherent w H) as [Hst Hsi Hss].
  set (f1 := mkFactory _ _ _ _ _ _ _). set (hbs := filter (fun n => heartbeat n = true) _) in *.
  set (others := filter (fun n => heartbeat n = false) (m_timers (fac w))) in *.
  pose proof (filter_split (m_timers (fac w))) as Hsplit. fold hbs others in Hsplit.
  destruct (replace_htbt_ok tick hbs rands 0 f1) as (f' & -> & Hc' & Hp & Hl' & Hcs & Q1 & Q2 & Q3);
    [by apply sorted_filter|done|by cbn; rewrite <- Hsplit|apply (sl_len _ _ (inv_slots w H))|lia|lia|].
  cbn [m_timers m_htbtTimeSpan m_htbtCounts m_task m_wantExit f1] in Hp, Hcs, Q1, Q2, Q3.
  exists f'. split; [done|]. split; [done|]. split; [done|].
  assert (Hhb : Forall (fun n => heartbeat n = true) hbs).
  { apply Forall_forall. by intros n [? _]%list_elem_of_filter. }
  assert (Hoth : forall (P : node -> Prop), Forall P (m_timers (fac w)) -> Forall P others).
  { intros P HP. rewrite Forall_forall in HP |- *. intros n [_ Hn]%list_elem_of_filter. by apply HP. }
  destruct (placements_fields tick span (Z.quot span (Z.of_nat STEPS)) hbs rands 0) as [Hids Hobj].
  assert (Hin : forall n, In n hbs -> n ∈ m_timers (fac w) /\ heartbeat n = true).
  { intros n Hn%list_elem_of_In. by apply list_elem_of_filter in Hn as [? ?]. }
  pose proof (inv_span w H) as Hsp. destruct (roundUp_bounds tick span ltac:(lia) ltac:(unfold span; lia)) as [Hru _].
  split; cbn [fac refs counters worker stopping held setFac]; try apply H; try done.
  - eapply rc_ok_perm; [|apply (inv_refs w H)]. apply Permutation_app_tail.
    change (onTimer <$> m_timers (fac w) ≡ₚ onTimer <$> m_timers f'). rewrite Hp, Hsplit, !fmap_app, Hobj. done.
  - split; [done| |].
    + intros i c Hc. specialize (Hcs i c Hc). rewrite (load_perm _ _ _ Hp), load_app. unfold others.
      rewrite load_others, placements_load by done. destruct (inv_counters w H) as ((_ & Hr1) & _).
      destruct (decide _); [lia|]. pose proof (sl_load _ _ (inv_slots w H) _ _ Hcs) as Hb.
      pose proof (load_nonneg i (m_timers (fac w))). lia.
    + rewrite Hp. apply Forall_app. split; [apply Hoth, (sl_index _ _ (inv_slots w H))|].
      apply placements_Forall. intros n r k _ _ Hk _. cbn. lia.
  - pose proof (inv_issued w H) as Hi. apply Forall_app in Hi as [Hi Hi']. apply Forall_app. split; [|exact Hi'].
    rewrite Hp. apply Forall_app. split; [by apply Hoth|].
    apply placements_Forall. intros n r k Hn _ _. cbn. rewrite Forall_forall in Hi. by apply Hi, Hin.
  - rewrite Hp. apply Forall_app. split; [apply Hoth, H|]. apply placements_Forall. intros n r k Hn Hr' Hk.
    rewrite Forall_forall in Hr. assert (Hrr : 0 <= r < span).
    { destruct Hr' as [->|Hr']; [unfold span; lia|]. by apply Hr, list_elem_of_In. }
    assert (Hst2 : 0 <= Z.quot span (Z.of_nat STEPS) * k <= span).
    { rewrite Z.quot_div_nonneg by (unfold STEPS, span; lia).
      pose proof (Z.div_pos span (Z.of_nat STEPS)) as Hd. pose proof (Z.mul_div_le span (Z.of_nat STEPS)) as Hm.
      unfold STEPS in *. unfold span in *. nia. }
    unfold sane. cbn. unfold span in *. split_and!; lia.
  - rewrite Q3. unfold span. lia.
  - rewrite Q1, Q2. destruct (inv_phase w H) as (P1 & P2 & P3).
    rewrite Hexit in P1. rewrite Htask in P2. split_and!; [done|done|].
    intros [|Hstp]; [done|]. symmetry in P1. by apply bool_decide_eq_false in P1.
Qed.

Lemma update_ok w tick rands seconds : Inv w -> enabled (AUpdate tick rands seconds) w ->
  exists w' out, exec (AUpdate tick rands seconds) w = Some (w', out) /\ Inv w'.
Proof.
  intros H He. cbn [exec]. assert (Hstay : Inv (setFac (fac w) (refs w) (counters w) w)) by (by destruct w, H).
  destruct (negb (m_task (fac w)) || m_wantExit (fac w)) eqn:E1.
  { do 2 eexists. split; [|exact Hstay]. unfold UpdateHeartbeatTimers.
    destruct (seconds =? 0); [done|]. by rewrite E1. }
  destruct (decide (seconds * 1000 = m_htbtTimeSpan (fac w))) as [Es|Es].
  { do 2 eexists. split; [|exact Hstay]. unfold UpdateHeartbeatTimers. destruct (seconds =? 0); [done|].
    rewrite E1. destruct He as (_ & Hsec & _). rewrite s64_small by lia. rewrite Es, Z.eqb_refl. done. }
  apply orb_false_iff in E1 as [E1%negb_false_iff E2].
  destruct (update_entry w tick rands seconds H He E1 E2 Es) as (f' & -> & _ & _ & Hinv).
  cbn [mbind option_bind]. by do 2 eexists.
Qed.

(** *** Start, stop, and the thread *)

Lemma start_ok w started mm : Inv w -> enabled (AStart started mm) w ->
  exists w' out, exec (AStart started mm) w = Some (w', out) /\ Inv w'.
Proof.
  intros H Hst. cbn in Hst |- *. unfold Start.
  destruct (m_task (fac w)) eqn:Ht; [do 2 eexists; split; [done|by destruct w, H]|].
  destruct started; cbn [negb]; [|do 2 eexists; split; [done|by destruct w, H]].
  do 2 eexists. split; [done|]. destruct (inv_phase w H) as (P1 & P2 & P3). rewrite Ht in P2.
  symmetry in P2. apply bool_decide_eq_false in P2. rewrite Hst in P1, P2.
  assert (Hw : worker w = None) by (destruct (worker w); [destruct P2; left; by eexists|done]).
  specialize (P3 (or_introl Ht)). destruct H as [[Hc1 Hc2 Hc3] Hr [Hs1 Hs2 Hs3] Hk Hi Hsa Hsp Ho _].
  rewrite Hst. unfold locals, leftover in *. rewrite Hw, ?Hst in *.
  split; try done; cbn [fac refs counters worker stopping held m_htbtCounts m_timers m_wantExit m_task].
  - split; [cbn [m_htbtCounts]; by rewrite length_map| |by rewrite P3]. cbn [m_htbtCounts m_timers]. intros i c Hi2.
    rewrite list_lookup_fmap in Hi2. destruct (m_htbtCounts (fac w) !! i); [|done]. injection Hi2 as <-.
    rewrite P3, load_nil. destruct Hk as ((_ & ?) & _). lia.
Qed.

Lemma stopBegin_ok w : Inv w -> enabled AStopBegin w -> exists w' out, exec AStopBegin w = Some (w', out) /\ Inv w'.
Proof.
  intros H Hst. cbn in Hst |- *. unfold StopBegin. destruct (inv_phase w H) as (P1 & P2 & P3).
  destruct (m_task (fac w)) eqn:Ht; cbn [negb].
  - do 2 eexists. split; [done|]. destruct H as [[Hc1 Hc2 Hc3] Hr [Hs1 Hs2 Hs3] Hk Hi Hsa Hsp Ho _].
    unfold locals, leftover in *. rewrite Hst in Hr. cbn in Hr. rewrite app_nil_r in Hr.
    split; try done; cbn [fac refs counters worker stopping held m_htbtCounts m_timers m_wantExit m_task].
    + cbn. eapply rc_ok_perm; [|exact Hr]. apply Permutation_app_comm.
    + split; [done| |constructor]. cbn [m_htbtCounts m_timers]. intros i c Hc. specialize (Hs2 i c Hc).
      pose proof (load_nonneg i (m_timers (fac w))). rewrite load_nil. lia.
    + cbn [app]. by apply Forall_app in Hi as [_ ?].
    + rewrite bool_decide_true by (by eexists). rewrite bool_decide_true by (right; by eexists). done.
  - do 2 eexists. split; [done|]. destruct w, H. cbn in *. by subst stopping0.
Qed.

Lemma stopEnd_ok w : Inv w -> enabled AStopEnd w -> exists w' out, exec AStopEnd w = Some (w', out) /\ Inv w'.
Proof.
  intros H ([l El] & Hw). cbn [exec]. rewrite El. cbn [mbind option_bind]. unfold StopEnd.
  destruct (inv_phase w H) as (P1 & P2 & P3). specialize (P3 ltac:(right; rewrite El; by eexists)).
  destruct H as [[Hc1 Hc2 Hc3] Hr [Hs1 Hs2 Hs3] Hk Hi Hsa Hsp Ho _].
  unfold locals, leftover in *. rewrite El, Hw, P3 in Hr. cbn [map app default from_option] in Hr.
  destruct (ReleaseAll_ok (fun p => occ p (held w)) (map onTimer l) [] (refs w)) as (rc' & E & Hrc'); [by rewrite app_nil_r|].
  change (onTimer <$> l) with (map onTimer l). rewrite E. cbn [mbind option_bind]. do 2 eexists. split; [done|].
  split; try done; unfold locals, leftover; cbn [fac refs counters worker stopping held m_htbtCounts m_timers m_wantExit m_task];
    try done.
  - rewrite Hw, P3. done.
  - rewrite Hw, P3. split_and!; [done| |done]. by rewrite bool_decide_false by (by intros [[]|[]]).
Qed.

Lemma upcall_ok w : Inv w -> enabled AUpcall w -> exists w' out, exec AUpcall w = Some (w', out) /\ Inv w'.
Proof.
  intros H (n & l & Ew). cbn [exec]. rewrite Ew. do 2 eexists. split; [done|]. destruct (inv_phase w H) as (P1 & P2 & P3).
  destruct H as [Hc Hr Hs Hk Hi Hsa Hsp Ho _]. unfold locals in *. rewrite Ew in *.
  by split.
Qed.

Lemma return_ok w : Inv w -> enabled AReturn w -> exists w' out, exec AReturn w = Some (w', out) /\ Inv w'.
Proof.
  intros H (n & l & Ew). cbn [exec]. rewrite Ew. destruct (inv_phase w H) as (P1 & P2 & P3).
  destruct H as [Hc Hr Hs Hk Hi Hsa Hsp Ho _]. unfold locals in *. rewrite Ew in *. cbn [local option_list app running waiting] in *.
  destruct (Release_ok (fun p => occ p (held w)) (map onTimer (m_timers (fac w)) ++ map onTimer l ++ map onTimer (leftover w))
    (refs w) (onTimer n)) as (rc' & E & Hrc'). { eapply rc_ok_perm; [|exact Hr]. cbn [map]. solve_Permutation. }
  rewrite E. cbn [mbind option_bind]. do 2 eexists. split; [done|].
  split; try done; unfold locals; cbn [fac worker stopping m_task local option_list app running waiting].
  - apply Forall_app in Hi as [Hi Hi']. apply Forall_cons in Hi' as [_ Hi']. by apply Forall_app.
  - cbn in Ho. by apply NoDup_cons in Ho as [_ ?].
Qed.

Lemma exit_ok w : Inv w -> enabled AExit w -> exists w' out, exec AExit w = Some (w', out) /\ Inv w'.
Proof.
  intros H (Ew & Hx). do 2 eexists. split; [done|]. destruct (inv_phase w H) as (P1 & P2 & P3).
  destruct H as [Hc Hr Hs Hk Hi Hsa Hsp Ho _]. unfold locals in *. rewrite Ew in *.
  split; try done; unfold locals; cbn [fac worker stopping m_task].
  split_and!; [done| |done]. rewrite Hx in P1. symmetry in P1. apply bool_decide_eq_true in P1.
  rewrite P2. rewrite !bool_decide_true; auto.
Qed.

Lemma takeId_ok w : Inv w -> enabled ATakeId w -> exists w' out, exec ATakeId w = Some (w', out) /\ Inv w'.
Proof.
  intros H (H1 & H2). do 2 eexists. split; [done|]. destruct H as [Hc Hr Hs Hk Hi Hsa Hsp Ho Hph].
  destruct Hk as ((K1 & K2) & K3 & K4). unfold ProMakeTimerId, ProMakeMmTimerId. rewrite !(wrap_small 64) by lia.
  destruct (Z.eqb_spec (g_s_nextMmTimerId (counters w) + 2) 0); [lia|].
  split; try done; cbn [setFac counters fac snd g_s_nextTimerId g_s_nextMmTimerId].
  - eapply slots_bound; [done|lia].
  - rewrite !Z.odd_add, K1, K3. split_and!; done || lia.
  - eapply Forall_impl; [exact Hi|]. intros x Hx. eapply issued_mono; [exact Hx|cbn; lia..].
Qed.

Lemma removeOne_occ p l q : p ∈ l -> occ q l = (occ q (removeOne p l) + if decide (q = p) then 1 else 0)%nat.
Proof.
  induction l as [|x l IH]; [by intros ?%not_elem_of_nil|]. intros Hin. cbn [removeOne].
  destruct (Z.eqb_spec p x) as [->|Hne].
  - rewrite occ_cons. lia.
  - apply elem_of_cons in Hin as [?|Hin]; [done|]. rewrite !occ_cons, (IH Hin). lia.
Qed.

Lemma rc_ok_ext ext ext' ps rc : (forall p, ext p = ext' p) -> rc_ok ext ps rc -> rc_ok ext' ps rc.
Proof. intros E H p. rewrite (H p), E. done. Qed.

Lemma rc_ok_move ext ps rc p : rc_ok (fun q => ext q + if decide (q = p) then 1 else 0)%nat ps rc -> rc_ok ext (p :: ps) rc.
Proof.
  intros H q. rewrite (H q), occ_cons. cbv zeta.
  by replace (ext q + (if decide (q = p) then 1 else 0) + occ q ps)%nat
    with (ext q + ((if decide (q = p) then 1 else 0) + occ q ps))%nat by lia.
Qed.

Lemma addRef_ok w p : Inv w -> enabled (AAddRef p) w -> exists w' out, exec (AAddRef p) w = Some (w', out) /\ Inv w'.
Proof.
  intros H Ha. cbn [exec]. apply (rc_ok_is_Some _ _ _ _ (inv_refs w H)) in Ha.
  destruct (AddRef_ok _ _ _ p (inv_refs w H) Ha) as (rc' & E & Hrc'). rewrite E. cbn [mbind option_bind].
  do 2 eexists. split; [done|]. destruct H. split; try done. cbn [held refs fac].
  eapply rc_ok_ext; [|by apply rc_ok_transfer]. intros q. unfold ext_add. rewrite occ_cons. lia.
Qed.

Lemma release_ok w p : Inv w -> enabled (ARelease p) w -> exists w' out, exec (ARelease p) w = Some (w', out) /\ Inv w'.
Proof.
  intros H Hp. cbn in Hp |- *.
  destruct (Release_ok (fun q => occ q (removeOne p (held w)))
    (map onTimer (m_timers (fac w)) ++ map onTimer (locals w) ++ map onTimer (leftover w)) (refs w) p) as (rc' & E & Hrc').
  { apply rc_ok_move. eapply rc_ok_ext; [|apply (inv_refs w H)]. intros q. by apply removeOne_occ. }
  rewrite E. cbn [mbind option_bind]. do 2 eexists. split; [done|]. by destruct H.
Qed.

Lemma initial_ok w : initial w -> Inv w.
Proof.
  intros (Ef & Ec & Ew & Es & Hr). unfold CProTimerFactory.init in Ef.
  assert (Hl : length (replicate STEPS 0) = STEPS) by apply length_replicate.
  assert (Hz : forall i c, replicate STEPS 0 !! i = Some c -> c = 0) by (intros i c [? _]%lookup_replicate; done).
  set (counts := replicate STEPS 0) in *. clearbody counts.
  split; unfold locals, leftover; rewrite ?Ef, ?Ec, ?Ew, ?Es; try done; cbn.
  - split; [done| |constructor]. cbn [m_htbtCounts m_timers]. intros i c ->%Hz. rewrite load_nil. lia.
  - constructor.
Qed.

(** Every enabled step is defined and keeps the invariant. *)
Lemma step_ok w a : Inv w -> enabled a w -> exists w' out, exec a w = Some (w', out) /\ Inv w'.
Proof.
  destruct a; intros H He.
  - by apply start_ok.
  - by apply schedule_ok.
  - by apply heartbeat_ok.
  - destruct (cancel_ok w id H) as (w' & E & Hi & _). by do 2 eexists.
  - by apply update_ok.
  - by apply stopBegin_ok.
  - by apply stopEnd_ok.
  - destruct (collect_entry w tick H He) as (out & rest & f' & rc' & E & _ & _ & _ & _ & Hi).
    cbn [exec]. rewrite E. by do 2 eexists.
  - by apply upcall_ok.
  - by apply return_ok.
  - by apply exit_ok.
  - by apply takeId_ok.
  - by apply addRef_ok.
  - by apply release_ok.
Qed.

Lemma reachable_Inv w : reachable w -> Inv w.
Proof.
  induction 1 as [w Hi|w a w' out _ IH He E]; [by apply initial_ok|].
  destruct (step_ok w a IH He) as (w2 & out2 & E2 & H2). rewrite E in E2. by injection E2 as -> ->.
Qed.

(** *** What a collection does *)

Lemma filter_Forall {A} (P : A -> Prop) `{!forall x, Decision (P x)} l k : Forall P l -> Forall (fun x => ~ P x) k ->
  filter P (l ++ k) = l.
Proof.
  intros Hl Hk. rewrite filter_app. replace (filter P k) with (@nil A).
  - rewrite app_nil_r. induction Hl as [|x l Hx Hl IH]; [done|]. rewrite filter_cons_True by done. by rewrite IH.
  - induction Hk as [|x k Hx Hk IH]; [done|]. by rewrite filter_cons_False by done.
Qed.

Lemma NoDup_fmap_elem {A B} (f : A -> B) l x y : NoDup (f <$> l) -> x ∈ l -> y ∈ l -> f x = f y -> x = y.
Proof.
  induction l as [|z l IH]; cbn; [by intros _ ?%elem_of_nil|]. intros [Hz Hn]%NoDup_cons Hx Hy E.
  apply elem_of_cons in Hx as [->|Hx], Hy as [->|Hy]; [done| | |by apply IH]; destruct Hz.
  - rewrite E. by apply list_elem_of_fmap_2.
  - rewrite <- E. by apply list_elem_of_fmap_2.
Qed.

Lemma expired_filter tick l : stl_sorted l -> expired tick l = filter (fun n => expireTick n <= tick) l.
Proof.
  intros Hs. destruct (expired_spec tick l) as (rest & E & Hle & Hgt). specialize (Hgt Hs).
  set (e := expired tick l) in *. clearbody e. subst l. symmetry. apply filter_Forall; [done|].
  eapply Forall_impl; [exact Hgt|]. intros n Hn Hle'. cbn in Hn, Hle'. lia.
Qed.

(** *** Runs, and the ids in them *)

Inductive run : world -> list Z -> world -> Prop :=
  | run_nil w : run w [] w
  | run_cons w a w1 out outs w2 : enabled a w -> exec a w = Some (w1, out) -> run w1 outs w2 -> run w (out ++ outs) w2.

Definition waitingIds (w : world) : list Z :=
  match worker w with Some th => timerId <$> waiting th | None => [] end.

Definition gone (id : Z) (w : world) : Prop := issued (counters w) id /\ id ∉ timerId <$> m_timers (fac w).

Lemma enter_ids n f rc f' rc' : enter n f rc = Some (f', rc') ->
  forall x, x ∈ m_timers f' -> x = n \/ x ∈ m_timers f.
Proof.
  unfold enter. destruct (AddRef _ _); [|done]. cbn. intros [= <- <-] x. cbn. apply stl_elem_insert.
Qed.

Lemma issued_not_next w id : Inv w -> issued (counters w) id ->
  id <> g_s_nextTimerId (counters w) /\ id <> g_s_nextMmTimerId (counters w).
Proof.
  intros H Hi. destruct (inv_counters w H) as ((K1 & _) & K3 & _).
  destruct Hi as [[Ho ?]|[Ho ?]]; split; try lia; intros ->; congruence.
Qed.

Lemma gone_schedule w id tick on span recur data w' out : Inv w -> gone id w ->
  exec (ASchedule tick on span recur data) w = Some (w', out) -> enabled (ASchedule tick on span recur data) w -> gone id w'.
Proof.
  intros H [Hi Hn] E (_ & _ & _ & B1 & B2). destruct (issued_not_next w id H Hi) as [Hd1 Hd2].
  destruct (inv_counters w H) as ((K1 & ?) & K3 & ?). revert E. cbn [exec]. unfold ScheduleTimer.
  destruct (_ || _); [by intros [= <- <-]|]. destruct (_ || _); [by intros [= <- <-]|].
  unfold ProMakeMmTimerId, ProMakeTimerId. rewrite !(wrap_small 64) by lia.
  destruct (Z.eqb_spec (g_s_nextMmTimerId (counters w) + 2) 0); [lia|].
  assert (Hgo : forall n s' f' rc', enter n (fac w) (refs w) = Some (f', rc') -> timerId n <> id ->
    issued s' id -> gone id (setFac f' rc' s' w)).
  { intros m s' f' rc' Ee Hne Hs'. split; [done|]. intros (x & -> & Hx)%list_elem_of_fmap.
    destruct (enter_ids _ _ _ _ _ Ee x Hx) as [->|Hx']; [done|]. apply Hn. by apply list_elem_of_fmap_2. }
  destruct (m_mmTimer (fac w)); destruct (enter _ _ _) as [[f' rc']|] eqn:Ee; cbn [mbind option_bind]; try done;
    intros [= <- <-]; (eapply Hgo; [exact Ee|cbn; congruence|]); clear -Hi; (eapply issued_mono; [exact Hi|cbn; lia..]).
Qed.

Lemma gone_heartbeat w id tick rand on data w' out : Inv w -> gone id w ->
  exec (AHeartbeat tick rand on data) w = Some (w', out) -> enabled (AHeartbeat tick rand on data) w -> gone id w'.
Proof.
  intros H [Hi Hn] E He. destruct (issued_not_next w id H Hi) as [Hd1 _]. revert E. cbn [exec].
  destruct (Z.eqb_spec on NULL) as [->|Hon].
  { unfold ScheduleHeartbeatTimer. rewrite Z.eqb_refl. by intros [= <- <-]. }
  destruct (negb (m_task (fac w)) || m_wantExit (fac w) || m_mmTimer (fac w)) eqn:E1.
  { unfold ScheduleHeartbeatTimer. rewrite (proj2 (Z.eqb_neq _ _) Hon).
    destruct (negb (m_task (fac w)) || m_wantExit (fac w)); [by intros [= <- <-]|]. cbn in E1. rewrite E1.
    by intros [= <- <-]. }
  apply orb_false_iff in E1 as [E1 Hmm]. apply orb_false_iff in E1 as [Ht%negb_false_iff Hx].
  destruct (heartbeat_entry w tick rand on data H He Hon Ht Hx Hmm)
    as (n & f' & rc' & k & c & -> & Hnn & _ & _ & _ & _ & _ & Hp & _).
  cbn [mbind option_bind]. intros [= <- <-]. split.
  - eapply issued_mono; [exact Hi|cbn; lia..].
  - cbn [fac setFac]. rewrite Hp. cbn. rewrite Hnn. cbn. by intros [?|?]%elem_of_cons.
Qed.

Lemma gone_step w id a w' out : Inv w -> gone id w -> enabled a w -> exec a w = Some (w', out) ->
  gone id w' /\ (occ id out + occ id (waitingIds w') <= occ id (waitingIds w))%nat.
Proof.
  intros H Hg He E. pose proof Hg as [Hi Hn]. destruct a.
  - revert E. cbn [exec]. unfold Start. destruct (m_task (fac w)) eqn:Ht; [by intros [= <- <-]|].
    destruct started; cbn [negb]; intros [= <- <-]; [|done]. split; [done|].
    unfold waitingIds. cbn [worker waiting]. cbn. lia.
  - split; [by eapply gone_schedule|]. revert E. cbn [exec]. destruct (ScheduleTimer _ _ _ _ _ _ _ _) as [[[[? ?] ?] ?]|]; [|done].
    by intros [= <- <-].
  - split; [by eapply gone_heartbeat|]. revert E. cbn [exec].
    destruct (ScheduleHeartbeatTimer _ _ _ _ _ _ _) as [[[[? ?] ?] ?]|]; [|done]. by intros [= <- <-].
  - revert E. cbn [exec]. unfold CancelTimer. destruct (_ =? 0); [by intros [= <- <-]|].
    destruct (negb _); [by intros [= <- <-]|]. destruct (stl_find _ _) as [[? tick]|]; [|by intros [= <- <-]].
    destruct (stl_find _ (m_timers _)) as [n|]; [|by intros [= <- <-]].
    set (f1 := setTimers _ _ _).
    assert (Hf1 : id ∉ timerId <$> m_timers f1).
    { intros (x & -> & Hx%stl_elem_erase)%list_elem_of_fmap. apply Hn. by apply list_elem_of_fmap_2. }
    assert (Hcase : forall f2 rc', m_timers f2 = m_timers f1 -> gone id (setFac f2 rc' (counters w) w)).
    { intros f2 rc' Ef. split; [done|]. cbn [fac setFac]. by rewrite Ef. }
    destruct (heartbeat n); [destruct (countAt _ _)|]; cbn [mbind option_bind]; try done;
      destruct (Release _ _); cbn [mbind option_bind]; try done; intros [= <- <-]; (split; [by apply Hcase|done]).
  - assert (Hids : forall f', UpdateHeartbeatTimers tick rands seconds (fac w) = Some (true, f') ->
      seconds * 1000 <> m_htbtTimeSpan (fac w) -> m_task (fac w) = true -> m_wantExit (fac w) = false ->
      id ∉ timerId <$> m_timers f').
    { intros f' Ef Hne Ht Hx. destruct (update_entry w tick rands seconds H He Ht Hx Hne) as (f2 & E2 & _ & Hp & _).
      rewrite Ef in E2. injection E2 as <-. rewrite Hp, fmap_app, (proj1 (placements_fields _ _ _ _ _ _)).
      rewrite <- fmap_app, <- filter_split. done. }
    revert E. cbn [exec]. pose proof (update_ok w tick rands seconds H He) as (w2 & o2 & E2 & _). revert E2. cbn [exec].
    destruct He as (_ & Hsec & _). unfold UpdateHeartbeatTimers in *.
    destruct (seconds =? 0); [intros _; by intros [= <- <-]|]. destruct (negb (m_task (fac w)) || m_wantExit (fac w)) eqn:E1; [intros _; by intros [= <- <-]|].
    rewrite (s64_small seconds) in * by lia.
    destruct (Z.eqb_spec (seconds * 1000) (m_htbtTimeSpan (fac w))) as [Es|Es]; [intros _; by intros [= <- <-]|].
    apply orb_false_iff in E1 as [Ht%negb_false_iff Hx].
    destruct (replace _ _ _ _ _) as [f'|]; [|done]. cbn [mbind option_bind] in *. intros _ [= <- <-].
    split; [|done]. split; [done|]. by apply Hids.
  - revert E. cbn [exec]. unfold StopBegin. destruct (negb _); intros [= <- <-]; [done|]. split; [|done].
    split; [done|]. apply not_elem_of_nil.
  - revert E. cbn [exec]. destruct (stopping w); [|done]. cbn [mbind option_bind]. unfold StopEnd.
    destruct (ReleaseAll _ _); [|done]. cbn [mbind option_bind]. by intros [= <- <-].
  - destruct (collect_entry w tick H He) as (o & rest & f' & rc' & Ec & Hsp & Hren & Hp & _ & _).
    revert E. cbn [exec]. rewrite Ec. cbn [mbind option_bind]. intros [= <- <-].
    pose proof (renewed_ids _ _ _ Hren) as Hids.
    assert (Ho : id ∉ timerId <$> o).
    { rewrite Hids. intros Hin. apply Hn. rewrite Hsp, fmap_app. apply elem_of_app. by left. }
    split; [split; [done|]|].
    + cbn [fac]. rewrite Hp, fmap_app. intros [Hin|Hin]%elem_of_app.
      * apply list_elem_of_fmap in Hin as (x & -> & [_ Hx]%list_elem_of_filter). apply Ho. by apply list_elem_of_fmap_2.
      * apply Hn. rewrite Hsp, fmap_app. apply elem_of_app. by right.
    + unfold waitingIds. cbn [worker waiting]. destruct (occ id (timerId <$> o)) eqn:Eo; [cbn; lia|].
      exfalso. apply Ho, list_elem_of_In, (count_occ_In Z.eq_dec). unfold occ in Eo. lia.
  - destruct He as (n & l & Ew). revert E. cbn [exec]. rewrite Ew. intros [= <- <-]. split; [done|].
    unfold waitingIds. rewrite Ew. cbn [worker waiting fmap list_fmap]. rewrite !occ_cons. change (occ id []) with 0%nat. lia.
  - destruct He as (n & l & Ew). revert E. cbn [exec]. rewrite Ew. destruct (Release _ _); [|done].
    cbn [mbind option_bind]. intros [= <- <-]. split; [done|]. unfold waitingIds. by rewrite Ew.
  - destruct He as (Ew & _). revert E. cbn [exec]. intros [= <- <-]. split; [done|]. unfold waitingIds. by rewrite Ew.
  - revert E. cbn [exec]. intros [= <- <-]. split; [|done]. split; [|done].
    destruct He as (B1 & B2). destruct (inv_counters w H) as ((K1 & ?) & K3 & ?).
    unfold ProMakeTimerId, ProMakeMmTimerId. cbn [setFac counters snd]. rewrite !(wrap_small 64) by lia.
    destruct (Z.eqb_spec (g_s_nextMmTimerId (counters w) + 2) 0); [lia|].
    eapply issued_mono; [exact Hi|cbn; lia..].
  - revert E. cbn [exec]. destruct (AddRef _ _); [|done]. cbn [mbind option_bind]. by intros [= <- <-].
  - revert E. cbn [exec]. destruct (Release _ _); [|done]. cbn [mbind option_bind]. by intros [= <- <-].
Qed.

Lemma gone_run w id outs w' : run w outs w' -> Inv w -> gone id w ->
  (occ id outs <= occ id (waitingIds w))%nat /\ gone id w' /\ Inv w'.
Proof.
  induction 1 as [w|w a w1 out outs w2 He E Hrun IH]; intros H Hg; [split; [cbn; lia|done]|].
  destruct (gone_step w id a w1 out H Hg He E) as [Hg1 Hle].
  destruct (step_ok w a H He) as (w3 & o3 & E3 & H3). rewrite E in E3. injection E3 as <- <-.
  destruct (IH H3 Hg1) as (Hle2 & Hrest). split; [|done]. rewrite occ_app. lia.
Qed.

Lemma NoDup_occ (l : list Z) p : NoDup l -> (occ p l <= 1)%nat.
Proof.
  induction 1 as [|x l Hx Hl IH]; [cbn; lia|]. rewrite occ_cons. destruct (decide (p = x)) as [->|]; [|lia].
  destruct (occ x l) eqn:E; [lia|]. exfalso. apply Hx, list_elem_of_In, (count_occ_In Z.eq_dec). unfold occ in E. lia.
Qed.

(** *** A factory at work, for the examples *)

Definition next (a : action) (w : world) : world := match exec a w with Some (w', _) => w' | None => w end.

Lemma reach_next w a : reachable w -> enabled a w -> is_Some (exec a w) -> reachable (next a w).
Proof.
  intros H He [[w' out] E]. unfold next. rewrite E. by eapply reach_step.
Qed.

(** Objects 10 and 11, a repeated heartbeat of the first, a one-shot timer of the second. *)
Definition demo0 : world := mkWorld CProTimerFactory.init {[ 10 := 1%nat; 11 := 1%nat ]} (mkIds 1 2) None None [10; 11].
Definition demo1 : world := next (AStart true false) demo0.
Definition demo2 : world := next (AHeartbeat 1000000 7 10 5) demo1.
Definition demo3 : world := next (ASchedule 1000000 11 50 false 6) demo2.

Lemma demo1_reachable : reachable demo1.
Proof.
  apply reach_next; [|done|by eexists]. apply reach_init. split_and!; try done.
  intros p. cbn [held demo0 refs]. rewrite Nat.add_0_r.
  destruct (decide (p = 10)) as [->|H1]; [by vm_compute|]. destruct (decide (p = 11)) as [->|H2]; [by vm_compute|].
  assert (E : occ p [10; 11] = 0%nat) by (rewrite !occ_cons; destruct (decide (p = 10)), (decide (p = 11)); done).
  rewrite E. cbn. by rewrite !lookup_insert_ne, lookup_singleton_ne by done.
Qed.

Lemma demo2_reachable : reachable demo2.
Proof.
  apply reach_next; [apply demo1_reachable| |vm_compute; by eexists].
  split; [right; vm_compute; by eexists|]. by vm_compute.
Qed.

Lemma demo3_reachable : reachable demo3.
Proof.
  apply reach_next; [apply demo2_reachable| |vm_compute; by eexists].
  split; [right; vm_compute; by eexists|]. by vm_compute.
Qed.

(** ** Theorems *)



(** C25: One turn of the worker at [tick]: exactly the timers that expire at [tick] or before
    are called back, each once and in the order of their expiry; afterwards every timer left
    expires after [tick].  A timer that had not expired is untouched, a one-shot timer that
    was called is gone, and a repeated one is there again: a plain one at [tick] plus its
    span, a heartbeat within two spans and at the same phase of its span. *)
Theorem Collect_correct w tick : reachable w -> enabled (ACollect tick) w ->
  exists out f' rc', Collect tick (fac w) (refs w) = Some (out, f', rc') /\
    timerId <$> out = timerId <$> filter (fun n => expireTick n <= tick) (m_timers (fac w)) /\
    NoDup (timerId <$> out) /\
    (forall n, n ∈ m_timers f' -> tick < expireTick n) /\
    forall n, n ∈ m_timers (fac w) ->
      if decide (tick < expireTick n) then n ∈ m_timers f'
      else if repeats n then exists e, again e n ∈ m_timers f' /\ tick < e < tick + 2 * timeSpan n /\
        if heartbeat n then e mod timeSpan n = expireTick n mod timeSpan n else e = tick + timeSpan n
      else timerId n ∉ timerId <$> m_timers f'.
Proof.
  intros H%reachable_Inv He. destruct (inv_coherent w H) as [Hs _ _].
  destruct (collect_entry w tick H He) as (out & rest & f' & rc' & E & Hsp & Hren & Hp & _ & Hinv).
  destruct He as (_ & _ & _ & Ht). exists out, f', rc'. split; [done|].
  pose proof (renewed_ids _ _ _ Hren) as Hids. rewrite <- (expired_filter tick _ Hs). split; [done|].
  pose proof (coherent_NoDup _ (inv_coherent w H)) as Hnd. pose proof (inv_sane w H) as Hsa.
  destruct (expired_spec tick (m_timers (fac w))) as (rest' & Hsp' & Hle & Hgt). specialize (Hgt Hs).
  assert (rest' = rest) as -> by (rewrite Hsp in Hsp' at 1; by apply app_inv_head in Hsp').
  split; [rewrite Hids; rewrite Hsp, fmap_app in Hnd; by apply NoDup_app in Hnd as [? _]|].
  set (ex := expired tick (m_timers (fac w))) in *. clearbody ex. rewrite Forall_forall in Hle, Hgt, Hsa.
  assert (Hout : forall n', n' ∈ out -> exists n, n ∈ ex /\ renewed tick n n').
  { intros n' [i Hi]%list_elem_of_lookup. destruct (Forall2_lookup_r _ _ _ _ _ Hren Hi) as (n & Hn & ?).
    exists n. split; [by eapply list_elem_of_lookup_2|done]. }
  assert (Hin : forall n, n ∈ ex -> n ∈ m_timers (fac w)) by (intros n Hn; rewrite Hsp; apply elem_of_app; by left).
  split.
  - intros n'. rewrite Hp. intros [[Hr Hn']%list_elem_of_filter|Hn']%elem_of_app; [|by apply Hgt].
    destruct (Hout n' Hn') as (n & Hn & Hren'). pose proof (renewed_fields _ _ _ Hren') as (_ & _ & _ & _ & Hrep & _).
    destruct (renewed_later tick n n' (Hsa n (Hin n Hn)) Ht Hren') as (? & _); [congruence|lia].
  - intros n Hn. rewrite Hsp in Hn. apply elem_of_app in Hn as [Hn|Hn].
    + rewrite decide_False by (specialize (Hle n Hn); cbn in Hle; lia).
      apply list_elem_of_lookup in Hn as [i Hi]. destruct (Forall2_lookup_l _ _ _ _ _ Hren Hi) as (n' & Hi' & Hr).
      apply list_elem_of_lookup_2 in Hi, Hi'. pose proof (renewed_fields _ _ _ Hr) as (_ & _ & _ & _ & Hrep & _).
      destruct (repeats n) eqn:Hrp.
      * destruct (renewed_later tick n n' (Hsa n (Hin n Hi)) Ht Hr Hrp) as (Hb & H1 & H2).
        destruct Hr as [[? _]|[_ (e & _ & ->)]]; [congruence|]. exists e. split; [|split; [done|]].
        -- rewrite Hp. apply elem_of_app. left. apply list_elem_of_filter. by split; [rewrite Hrep|].
        -- destruct (heartbeat n); [by apply H1|by apply H2].
      * rewrite Hp, fmap_app. intros [Hx|Hx]%elem_of_app.
        -- apply list_elem_of_fmap in Hx as (x' & Hid & [Hxr Hx']%list_elem_of_filter). destruct (Hout x' Hx') as (x & Hx & Hrx).
           pose proof (renewed_fields _ _ _ Hrx) as (Hxid & _ & _ & _ & Hxrep & _).
           assert (n = x) as <-; [|congruence].
           apply (NoDup_fmap_elem timerId (m_timers (fac w))); auto. congruence.
        -- rewrite Hsp, fmap_app in Hnd. apply NoDup_app in Hnd as (_ & Hd & _).
           apply (Hd (timerId n)); [by apply list_elem_of_fmap_2|done].
    + rewrite decide_True by (specialize (Hgt n Hn); cbn in Hgt; lia). rewrite Hp. apply elem_of_app. by right.
Qed.

Lemma Collect_correct_witness : enabled (ACollect 1000060) demo3 /\
  exists out f' rc', Collect 1000060 (fac demo3) (refs demo3) = Some (out, f', rc') /\
    timerId <$> out = [1; 3] /\ forall n, n ∈ m_timers f' -> 1000060 < expireTick n.
Proof.
  assert (He : enabled (ACollect 1000060) demo3) by (by vm_compute). split; [exact He|].
  destruct (Collect_correct demo3 1000060 demo3_reachable He) as (out & f' & rc' & E & Ho & _ & Hn & _).
  exists out, f', rc'. split; [exact E|]. split; [rewrite Ho; vm_compute; reflexivity|exact Hn].
Defined.

(** After [CancelTimer] returns, a timer that was not in the worker's vector at that
    moment is never called again, whatever the threads do next, and one that was is called
    at most once more. *)
Theorem cancel_stops w id w1 outs w2 : reachable w -> m_task (fac w) = true -> issued (counters w) id ->
  exec (ACancel id) w = Some (w1, []) -> run w1 outs w2 ->
  (occ id outs <= occ id (waitingIds w) <= 1)%nat /\ id ∉ timerId <$> m_timers (fac w2).
Proof.
  intros H%reachable_Inv Ht Hi E Hrun. destruct (cancel_ok w id H) as (w1' & E' & H1 & Hc & Hw & Hs).
  rewrite E in E'. injection E' as <-. specialize (Hc Ht).
  destruct (gone_run w1 id outs w2 Hrun H1) as (Hle & [_ Hg] & _); [split; [by rewrite Hs|done]|].
  assert (Ew : waitingIds w1 = waitingIds w) by (unfold waitingIds; by rewrite Hw). rewrite Ew in Hle.
  split; [split; [done|]|done]. pose proof (inv_once w H) as Hn. unfold waitingIds. unfold locals, local in Hn.
  destruct (worker w); [|cbn; lia]. rewrite fmap_app in Hn. apply NoDup_app in Hn as (_ & _ & Hn). by apply NoDup_occ.
Qed.

Definition demo4 : world := next (ACollect 1000060) demo3.

(** Timer 3 is cancelled while it waits for its upcall: it is still called. *)
Lemma cancel_stops_witness : exists w1 w2, exec (ACancel 3) demo4 = Some (w1, []) /\ run w1 [1; 3] w2 /\
  (occ 3 [1; 3]%Z <= occ 3 (waitingIds demo4) <= 1)%nat.
Proof.
  assert (Hr : reachable demo4).
  { apply reach_next; [apply demo3_reachable|by vm_compute|vm_compute; by eexists]. }
  set (w1 := next (ACancel 3) demo4). set (w2 := next AUpcall (next AReturn (next AUpcall w1))).
  assert (E : exec (ACancel 3) demo4 = Some (w1, [])) by (vm_compute; reflexivity).
  assert (Hrun : run w1 [1; 3] w2).
  { apply (run_cons w1 AUpcall (next AUpcall w1) [1] [3]); [vm_compute; by do 2 eexists|vm_compute; reflexivity|].
    apply (run_cons _ AReturn (next AReturn (next AUpcall w1)) [] [3]); [vm_compute; by do 2 eexists|vm_compute; reflexivity|].
    apply (run_cons _ AUpcall w2 [3] []); [vm_compute; by do 2 eexists|vm_compute; reflexivity|]. apply run_nil. }
  exists w1, w2. split; [exact E|]. split; [exact Hrun|].
  refine (proj1 (cancel_stops demo4 3 w1 [1; 3] w2 Hr _ _ E Hrun)); [vm_compute; reflexivity|].
  assert (Es : counters demo4 = mkIds 5 2) by (vm_compute; reflexivity). rewrite Es. left. split; [reflexivity|]. cbn. lia.
Defined.

(** A heartbeat timer goes to a slot with the least count: if the counts of the 1000 slots
    differ by at most one they still do; its first expiry lies within two intervals, in
    the slot's own slice of the interval, so the heartbeats are spread evenly over time. *)
Theorem heartbeat_spread w tick rand on data : reachable w -> enabled (AHeartbeat tick rand on data) w -> on <> NULL ->
  m_task (fac w) = true -> m_wantExit (fac w) = false -> m_mmTimer (fac w) = false ->
  let span := m_htbtTimeSpan (fac w) in
  let step := span / Z.of_nat STEPS in
  0 <= rand < step ->
  exists n f' s' rc' k c,
    ScheduleHeartbeatTimer tick rand on data (fac w) (counters w) (refs w) = Some (timerId n, f', s', rc') /\
    m_timers f' ≡ₚ n :: m_timers (fac w) /\ heartbeat n = true /\ htbtIndex n = Z.of_nat k /\
    m_htbtCounts (fac w) !! k = Some c /\ m_htbtCounts f' = <[k := c + 1]> (m_htbtCounts (fac w)) /\
    (forall lo, Forall (fun x => lo <= x <= lo + 1) (m_htbtCounts (fac w)) ->
       exists lo', Forall (fun x => lo' <= x <= lo' + 1) (m_htbtCounts f')) /\
    tick <= expireTick n < tick + 2 * span /\
    step * Z.of_nat k <= expireTick n mod span < step * (Z.of_nat k + 1).
Proof.
  intros H%reachable_Inv He Hon Ht Hx Hm span step Hr.
  destruct (heartbeat_entry w tick rand on data H He Hon Ht Hx Hm)
    as (n & f' & rc' & k & c & E & Hn & Hk & Ec & Hmin & Hcs & _ & Hp & _).
  eexists n, f', _, rc', k, c. split; [exact E|]. pose proof (inv_span w H) as Hsp. destruct He as (_ & Htick & _).
  destruct (roundUp_bounds tick span) as [Hru Hmod]; [lia|unfold span; lia|].
  assert (Hst : step * (Z.of_nat k + 1) <= span).
  { unfold step. pose proof (Z.mul_div_le span (Z.of_nat STEPS)) as Hd. unfold STEPS in *. fold span in Hsp.
    pose proof (Z.div_pos span (Z.of_nat 1000)). nia. }
  assert (0 <= step * Z.of_nat k) by nia.
  fold span step in Hn. split; [done|]. rewrite Hn. cbn [heartbeat htbtIndex expireTick].
  split_and!; try done; try lia.
  - intros lo Hlo. pose proof (Forall_lookup_1 _ _ _ _ Hlo Ec) as Hc. cbn in Hc. rewrite Hcs.
    exists c. apply Forall_insert; [|lia].
    apply Forall_lookup. intros i x Hi. pose proof (Forall_lookup_1 _ _ _ _ Hlo Hi). specialize (Hmin i x Hi). cbn in *. lia.
  - rewrite <- Z.add_assoc, <- Z.add_mod_idemp_l, Hmod, Z.mod_small by (unfold span; lia). lia.
  - rewrite <- Z.add_assoc, <- Z.add_mod_idemp_l, Hmod, Z.mod_small by (unfold span; lia). lia.
Qed.

Lemma heartbeat_spread_witness : enabled (AHeartbeat 1000100 20 11 8) demo3 /\
  exists n f' s' rc' k, ScheduleHeartbeatTimer 1000100 20 11 8 (fac demo3) (counters demo3) (refs demo3)
    = Some (timerId n, f', s', rc') /\ htbtIndex n = Z.of_nat k /\
    25 * Z.of_nat k <= expireTick n mod 25000 < 25 * (Z.of_nat k + 1).
Proof.
  assert (He : enabled (AHeartbeat 1000100 20 11 8) demo3).
  { split; [right; vm_compute; by eexists|]. by vm_compute. }
  split; [exact He|].
  assert (Hr : 0 <= 20 < m_htbtTimeSpan (fac demo3) / Z.of_nat STEPS) by (by vm_compute).
  destruct (heartbeat_spread demo3 1000100 20 11 8 demo3_reachable He ltac:(discriminate)
    ltac:(vm_compute; reflexivity) ltac:(vm_compute; reflexivity) ltac:(vm_compute; reflexivity) Hr)
    as (n & f' & s' & rc' & k & c & E & _ & _ & Ek & _ & _ & _ & _ & Hb).
  exists n, f', s', rc', k. split; [exact E|]. split; [exact Ek|exact Hb].
Defined.

(** With more heartbeat timers than slots, [UpdateHeartbeatTimers] gives a timer an index
    outside of [m_htbtCounts], where cancelling it then counts down. *)
Definition crowd (k : nat) : world := Nat.iter k (next (AHeartbeat 1000000 7 10 5)) demo1.

Lemma htbt_index_escapes :
  match UpdateHeartbeatTimers 1000000 [] 26 (fac (crowd 1001)) with
  | Some (true, f) => existsb (fun n => htbtIndex n =? 1000) (m_timers f) = true /\
      CancelTimer 1999 f (refs (crowd 1001)) = None
  | _ => False
  end.
Proof. vm_compute. by split. Qed.

End TimerRun.
