(* ===== verification/ConfigStream.v ===== *)
(** * Configurations ([pro_config_stream.cpp], [pro_config_file.cpp])

    Lines of two quoted strings, blank lines and comments; a store of such items by name.
    A string is the list of its bytes.  A pointer into a line is the part of the line from
    it on, a read at the end of the line is undefined: [None].  [char] is signed, and
    strings are shorter than 2 GB (a length fits an [int]). *)

From Stdlib Require Import Sorting.Sorted.
From S2P Require Import Prelude StlMap.

Definition str := list Z.

(** The characters the sources compare with. *)
Definition TAB : Z := 9.
Definition LF : Z := 10.
Definition CR : Z := 13.
Definition SPACE : Z := 32.
Definition QUOTE : Z := 34.
Definition HASH : Z := 35.
Definition SLASH : Z := 47.
Definition SEMICOLON : Z := 59.

(** A byte read through a [char]. *)
Definition schar (b : Z) : Z := if b >=? 128 then b - 256 else b.

(** The string at [c_str()]: up to the first NUL. *)
Fixpoint cstr (s : str) : str :=
  match s with [] => [] | b :: s => if b =? 0 then [] else b :: cstr s end.

(** [std::string]'s [operator<]: bytes compare as [unsigned char] *)
Fixpoint str_less (a b : str) : bool :=
  match a, b with
  | _, [] => false
  | [], _ :: _ => true
  | x :: a, y :: b => if x <? y then true else if y <? x then false else str_less a b
  end.
#[export] Instance str_stl_less : StlLess str := str_less.
#[export] Instance str_stl_order : StlOrder str.
Proof.
  split; unfold stl_less, str_stl_less.
  - intros a. induction a as [|x a IH]; [done|]. cbn. by rewrite Z.ltb_irrefl.
  - intros a. induction a as [|x a IH]; intros [|y b] [|z c]; cbn; try done.
    destruct (Z.ltb_spec x y), (Z.ltb_spec y x), (Z.ltb_spec y z), (Z.ltb_spec z y), (Z.ltb_spec x z), (Z.ltb_spec z x);
      try done; try lia. apply IH.
  - intros a. induction a as [|x a IH]; intros [|y b]; cbn; try done.
    destruct (Z.ltb_spec x y), (Z.ltb_spec y x); try done. intros H1 H2. f_equal; [lia|by apply IH].
Qed.

(** [PRO_CONFIG_ITEM] *)
Record item := mkItem { configName : str; configValue : str }.
#[export] Instance item_eq_dec : EqDecision item.
Proof. solve_decision. Defined.

(** ** One line *)

Module Line.

Definition isBlank (b : Z) : bool := (b =? SPACE) || (b =? TAB) || (b =? CR) || (b =? LF).
Definition isGap (b : Z) : bool := (b =? SPACE) || (b =? TAB).

(** The trimming loops. *)
Fixpoint trimLeft (skip : Z -> bool) (l : str) : str :=
  match l with [] => [] | b :: l' => if skip b then trimLeft skip l' else l end.
Definition trimRight (skip : Z -> bool) (l : str) : str := rev (trimLeft skip (rev l)).

(** The UTF-8 BOM of the first line. *)
Definition skipBom (bom : bool) (l : str) : str :=
  if bom then l else
  match l with
  | a :: b :: c :: l' =>
      if (schar a =? 239) && (schar b =? 187) && (schar c =? 191) then l' else l
  | _ => l
  end.

Definition isComment (l : str) : bool :=
  match l with a :: b :: _ => (a =? SLASH) && (b =? SLASH) | _ => false end ||
  match l with a :: _ => (a =? HASH) || (a =? SEMICOLON) | [] => false end.

(** The text up to the next quote, and what follows the quote. *)
Fixpoint closeQuote (l : str) : option (str * str) :=
  match l with
  | [] => None
  | b :: l => if b =? QUOTE then Some ([], l) else '(text, rest) ← closeQuote l; Some (b :: text, rest)
  end.

Inductive field := Bad | Text (text rest : str).

(** One turn of the loop over [i]: a quoted text and the gap after it. *)
Definition quoted (l : str) : option field :=
  match l with
  | [] => None
  | b :: l =>
      if negb (b =? QUOTE) then Some Bad else
      match l with
      | [] => Some Bad
      | _ =>
          match closeQuote l with
          | None => Some Bad
          | Some (text, rest) => Some (Text text (trimLeft isGap rest))
          end
      end
  end.

(** The turn ends the line: [p = NULL] *)
Definition isEnd (l : str) : bool := match l with [] => true | _ => isComment l end.

Inductive result := Skip | Corrupt | Item (i : item).

(** The loop over [i], from the first quote. *)
Definition parseItem (l : str) : option result :=
  f ← quoted l;
  match f with
  | Bad => Some Corrupt
  | Text name rest =>
      if isEnd rest then Some (Item (mkItem name [])) else
      f ← quoted rest;
      match f with
      | Bad => Some Corrupt
      | Text value rest => if isEnd rest then Some (Item (mkItem name value)) else Some Corrupt
      end
  end.

(** One line, its end included. *)
Definition parse (bom : bool) (l : str) : option result :=
  let l := trimRight isBlank (trimLeft isBlank (skipBom bom l)) in
  match l with
  | [] => Some Skip
  | _ => if isComment l then Some Skip else parseItem l
  end.

End Line.

(** ** Texts *)

Module CProConfigStream.
Import Line.

(** The line at the start of the buffer, its end included, and what follows. *)
Fixpoint findLine (l : str) : str * str :=
  match l with
  | [] => ([], [])
  | b :: l' =>
      if (b =? CR) || (b =? LF) then
        match l' with
        | c :: l'' => if c =? LF then ([b; c], l'') else ([b], l')
        | [] => ([b], [])
        end
      else let '(line, rest) := findLine l' in (b :: line, rest)
  end.

(** The loop over the lines; [fuel] bounds its turns. *)
Fixpoint parseLines (fuel : nat) (bom : bool) (l : str) (configs : list item) : option (bool * list item) :=
  match fuel with
  | O => None
  | S fuel =>
      match l with
      | [] => Some (true, configs)
      | _ =>
          let '(line, rest) := findLine l in
          r ← parse bom line;
          match r with
          | Skip => parseLines fuel true rest configs
          | Corrupt => Some (false, configs)
          | Item i => parseLines fuel true rest (configs ++ [i])
          end
      end
  end.

(** [BufToConfigs], and [StringToConfigs] of the string with these bytes *)
Definition BufToConfigs (buf : str) : option (bool * list item) :=
  match buf with
  | [] => Some (true, [])
  | _ => parseLines (S (length buf)) false buf []
  end.
Definition StringToConfigs (s : str) : option (bool * list item) :=
  match s with [] => Some (true, []) | _ => BufToConfigs s end.

(** [ConfigsToString] *)
Definition ConfigsToString (configs : list item) : str :=
  fold_left (fun s config =>
    s ++ [QUOTE] ++ configName config ++ [QUOTE; QUOTE] ++ configValue config ++ [QUOTE; LF]) configs [].

(** [sprintf] with [%d], [%u], [%lld], [%llu]: the decimal digits of a value *)
Fixpoint digits (fuel : nat) (n : Z) : str :=
  match fuel with
  | O => []
  | S fuel => (if n <? 10 then [] else digits fuel (n / 10)) ++ [48 + n mod 10]
  end.
Definition decimal (n : Z) : str := if n <? 0 then 45 :: digits 20 (- n) else digits 20 n.

(** [sscanf] with these: white space, a sign, digits.  [Some None] is no conversion; a
    number that does not fit is undefined. *)
Definition isSpace (b : Z) : bool := (b =? SPACE) || ((9 <=? b) && (b <=? 13)).
Definition isDigit (b : Z) : bool := (48 <=? b) && (b <=? 57).
Fixpoint scanDigits (l : str) (acc : Z) : Z :=
  match l with
  | [] => acc
  | b :: l => if isDigit b then scanDigits l (acc * 10 + (b - 48)) else acc
  end.
Definition scanSign (l : str) : bool * str :=
  match l with
  | b :: l' => if b =? 45 then (true, l') else if b =? 43 then (false, l') else (false, l)
  | [] => (false, l)
  end.
Definition sscanf (signed : bool) (w : Z) (s : str) : option (option Z) :=
  let '(neg, l) := scanSign (trimLeft isSpace (cstr s)) in
  match l with
  | b :: _ =>
      if isDigit b then
        let n := scanDigits l 0 in
        if signed then
          let v := if neg then - n else n in
          if (- 2 ^ (w - 1) <=? v) && (v <? 2 ^ (w - 1)) then Some (Some v) else None
        else if n <? 2 ^ w then Some (Some (if neg then wrap w (- n) else n)) else None
      else Some None
  | [] => Some None
  end.

(** *** The store *)

Record t := mkStream {
  m_name2Configs : list (str * list item);
  m_name2Index : list (str * Z);
  m_nextIndex : Z
}.

Definition init : t := mkStream [] [] 0.

(** [Add(configName, configValue)] *)
Definition Add (name value : str) (s : t) : t :=
  let config := mkItem name value in
  let old := match stl_find name (m_name2Configs s) with Some (_, l) => l | None => [] end in
  let configs := stl_assign (name, old ++ [config]) (m_name2Configs s) in
  match stl_find name (m_name2Index s) with
  | None => mkStream configs (stl_assign (name, m_nextIndex s) (m_name2Index s)) (u64 (m_nextIndex s + 1))
  | Some _ => mkStream configs (m_name2Index s) (m_nextIndex s)
  end.

Definition AddValues (name : str) (values : list str) (s : t) : t := fold_left (fun s v => Add name v s) values s.

(** [AddInt], [AddUint], [AddInt64], [AddUint64] *)
Definition AddInt (name : str) (value : Z) (s : t) : t := Add name (decimal value) s.
Definition AddInts (name : str) (values : list Z) (s : t) : t := fold_left (fun s v => AddInt name v s) values s.
Definition AddUint (name : str) (value : Z) (s : t) : t := Add name (decimal value) s.
Definition AddUints (name : str) (values : list Z) (s : t) : t := fold_left (fun s v => AddUint name v s) values s.
Definition AddInt64 (name : str) (value : Z) (s : t) : t := Add name (decimal value) s.
Definition AddInt64s (name : str) (values : list Z) (s : t) : t := fold_left (fun s v => AddInt64 name v s) values s.
Definition AddUint64 (name : str) (value : Z) (s : t) : t := Add name (decimal value) s.
Definition AddUint64s (name : str) (values : list Z) (s : t) : t := fold_left (fun s v => AddUint64 name v s) values s.

Definition AddItem (config : item) (s : t) : t := Add (configName config) (configValue config) s.
Definition AddItems (configs : list item) (s : t) : t := fold_left (fun s c => AddItem c s) configs s.

Definition Remove (name : str) (s : t) : t :=
  mkStream (stl_erase name (m_name2Configs s)) (stl_erase name (m_name2Index s)) (m_nextIndex s).
Definition Clear (s : t) : t := mkStream [] [] (m_nextIndex s).

(** [Get_i] *)
Definition Get_i (name : str) (s : t) : list item :=
  match stl_find name (m_name2Configs s) with Some (_, l) => l | None => [] end.

(** [Get] of one value, of all values *)
Definition Get (name : str) (s : t) : str :=
  match Get_i name s with c :: _ => configValue c | [] => [] end.
Definition GetValues (name : str) (s : t) : list str := configValue <$> Get_i name s.

(** A value read as a number: 0 without a conversion *)
Definition toNumber (signed : bool) (w : Z) (value : str) : option Z :=
  match value with
  | [] => Some 0
  | _ => r ← sscanf signed w value; Some (default 0 r)
  end.

Definition GetInt (name : str) (s : t) : option Z := toNumber true 32 (Get name s).
Definition GetUint (name : str) (s : t) : option Z := toNumber false 32 (Get name s).
Definition GetInt64 (name : str) (s : t) : option Z := toNumber true 64 (Get name s).
Definition GetUint64 (name : str) (s : t) : option Z := toNumber false 64 (Get name s).
Definition GetInts (name : str) (s : t) : option (list Z) := mapM (fun c => toNumber true 32 (configValue c)) (Get_i name s).
Definition GetUints (name : str) (s : t) : option (list Z) := mapM (fun c => toNumber false 32 (configValue c)) (Get_i name s).
Definition GetInt64s (name : str) (s : t) : option (list Z) := mapM (fun c => toNumber true 64 (configValue c)) (Get_i name s).
Definition GetUint64s (name : str) (s : t) : option (list Z) := mapM (fun c => toNumber false 64 (configValue c)) (Get_i name s).

(** [Get] of everything: the names by their index *)
Definition GetAll (s : t) : list item :=
  let index2Name := fold_left (fun m (e : str * Z) => stl_assign (snd e, fst e) m) (m_name2Index s) [] in
  fold_left (fun configs (e : Z * str) =>
    match stl_find (snd e) (m_name2Configs s) with Some (_, l) => configs ++ l | None => configs end) index2Name [].

Definition ToString (s : t) : str := ConfigsToString (GetAll s).

End CProConfigStream.

(** ** Files

    A file that is read is its bytes and whether they end with the end of the file (and
    not with an error); [None] is a failing [fopen] or [ProMalloc].  A file that is
    written takes the first [good] calls of [fprintf]. *)

Module CProConfigFile.
Import Line.

Definition LINE_BUF_SIZE : Z := 1024 * 63.

(** [m_fileName] *)
Definition t : Type := str.
Definition init : t := [].
Definition Init (fileName : option str) (f : t) : t :=
  match fileName with
  | None => f
  | Some n => match cstr n, f with [], _ => f | s, [] => s | _, _ => f end
  end.

(** [fgets] with room for [n] characters: the line and what is left *)
Fixpoint fgets (n : Z) (l : str) : str * str :=
  match l with
  | [] => ([], [])
  | b :: l' =>
      if n <=? 0 then ([], l) else
      if b =? LF then ([b], l') else
      let '(line, rest) := fgets (n - 1) l' in (b :: line, rest)
  end.

Fixpoint readLines (fuel : nat) (eof bom : bool) (l : str) (configs : list item) : option (bool * list item) :=
  match fuel with
  | O => None
  | S fuel =>
      match l with
      | [] => Some (eof, configs)
      | _ =>
          let '(line, rest) := fgets (LINE_BUF_SIZE - 1) l in
          r ← parse bom (cstr line);
          match r with
          | Skip => readLines fuel eof true rest configs
          | Corrupt => Some (false, configs)
          | Item i => readLines fuel eof true rest (configs ++ [i])
          end
      end
  end.

Definition Read (file : option (str * bool)) (f : t) : option (bool * list item) :=
  match f with
  | [] => Some (false, [])
  | _ =>
      match file with
      | None => Some (false, [])
      | Some (bytes, eof) => readLines (S (length bytes)) eof false bytes []
      end
  end.

(** The first line, a comment with two quoted words, and a blank line. *)
Definition title : str :=
  [47; 47; 35; 59; 32; 34; 99; 111; 110; 102; 105; 103; 95; 110; 97; 109; 101; 34; 32; 32; 32; 32;
   34; 99; 111; 110; 102; 105; 103; 95; 118; 97; 108; 117; 101; 34; 10; 10].

(** The line of an item. *)
Definition line (config : item) : str :=
  [QUOTE] ++ cstr (configName config) ++ [QUOTE; SPACE; SPACE; SPACE; SPACE; QUOTE] ++ cstr (configValue config) ++
  [QUOTE; LF].

Fixpoint writeLines (good : nat) (configs : list item) (out : str) {struct configs} : bool * str :=
  match configs with
  | [] => (true, out)
  | c :: configs => match good with O => (false, out) | S good => writeLines good configs (out ++ line c) end
  end.

(** [Write]: the result and the bytes in the file *)
Definition Write (opened : bool) (good : nat) (configs : list item) (f : t) : bool * str :=
  match f with
  | [] => (false, [])
  | _ =>
      if negb opened then (false, []) else
      match good with O => (false, []) | S good => writeLines good configs title end
  end.

End CProConfigFile.

(** ** Lines *)

Module LineLemmas.
Import Line.

(** A text that a line can hold. *)
Definition clean (s : str) : Prop := Forall (fun b => b <> QUOTE /\ b <> CR /\ b <> LF) s.
Definition cleanItem (i : item) : Prop := clean (configName i) /\ clean (configValue i).
Definition bytes (s : str) : Prop := Forall (fun b => 0 <= b < 256) s.

Lemma closeQuote_app text rest : Forall (fun b => b <> QUOTE) text ->
  closeQuote (text ++ QUOTE :: rest) = Some (text, rest).
Proof.
  induction 1 as [|b text Hb _ IH]; [done|]. cbn [closeQuote app]. rewrite (proj2 (Z.eqb_neq _ _) Hb), IH. done.
Qed.

Lemma closeQuote_sound l text rest : closeQuote l = Some (text, rest) ->
  l = text ++ QUOTE :: rest /\ Forall (fun b => b <> QUOTE) text.
Proof.
  revert text. induction l as [|b l IH]; intros text; [done|]. cbn [closeQuote].
  destruct (Z.eqb_spec b QUOTE) as [->|Hb]; [by intros [= <- <-]|].
  destruct (closeQuote l) as [[text' rest']|] eqn:E; [|done]. cbn [mbind option_bind]. intros [= <- ->].
  destruct (IH text' eq_refl) as [-> H]. by split; [|constructor].
Qed.

Lemma trimLeft_suffix f l : exists pre, l = pre ++ trimLeft f l /\ Forall (fun b => f b = true) pre.
Proof.
  induction l as [|b l (pre & E & Hp)]; [by exists []|]. cbn. destruct (f b) eqn:Hb; [|by exists []].
  exists (b :: pre). split; [cbn; by rewrite <- E|by constructor].
Qed.

Lemma Forall_trimLeft (P : Z -> Prop) f l : Forall P l -> Forall P (trimLeft f l).
Proof. destruct (trimLeft_suffix f l) as (pre & E & _). intros H. rewrite E in H. by apply Forall_app in H as [_ ?]. Qed.

Lemma Forall_trimRight (P : Z -> Prop) f l : Forall P l -> Forall P (trimRight f l).
Proof. intros H. unfold trimRight. apply Forall_rev, Forall_trimLeft, Forall_rev, H. Qed.

Lemma trimLeft_all f pre l : Forall (fun b => f b = true) pre -> trimLeft f (pre ++ l) = trimLeft f l.
Proof. induction 1 as [|b pre Hb _ IH]; [done|]. cbn. by rewrite Hb. Qed.

Lemma trimRight_all f l post : Forall (fun b => f b = true) post -> trimRight f (l ++ post) = trimRight f l.
Proof. intros H. unfold trimRight. rewrite rev_app_distr. rewrite trimLeft_all; [done|]. by apply Forall_rev. Qed.

Lemma trimRight_keep f l b : f b = false -> trimRight f (l ++ [b]) = l ++ [b].
Proof. intros H. unfold trimRight. rewrite rev_app_distr. cbn. rewrite H. cbn. by rewrite rev_involutive. Qed.

(** The end of a line does not matter. *)
Lemma trim_eol text eol : Forall (fun b => isBlank b = true) eol ->
  trimRight isBlank (trimLeft isBlank (text ++ eol)) = trimRight isBlank (trimLeft isBlank text).
Proof.
  intros H. induction text as [|b text IH].
  - cbn [app]. rewrite <- (app_nil_r eol), trimLeft_all by done. done.
  - cbn [app trimLeft]. destruct (isBlank b); [done|]. change (b :: text ++ eol) with ((b :: text) ++ eol).
    by apply trimRight_all.
Qed.

(** Bytes above 127 are negative: no line starts with the BOM. *)
Lemma skipBom_id bom l : bytes l -> skipBom bom l = l.
Proof.
  intros H. unfold skipBom. destruct bom; [done|]. destruct l as [|a [|b [|c l]]]; [done..|].
  apply Forall_cons in H as [Ha _]. unfold schar. destruct (Z.geb_spec a 128);
    [destruct (Z.eqb_spec (a - 256) 239)|destruct (Z.eqb_spec a 239)]; done || lia.
Qed.

Lemma quoted_total l : l <> [] -> exists f, quoted l = Some f.
Proof.
  intros H. destruct l as [|b l]; [done|]. cbn. destruct (negb _); [by eexists|]. destruct l; [by eexists|].
  destruct (closeQuote _) as [[? ?]|]; by eexists.
Qed.

Lemma parseItem_total l : l <> [] -> exists r, parseItem l = Some r.
Proof.
  intros H. unfold parseItem. destruct (quoted_total l H) as ([|name rest] & ->); cbn [mbind option_bind]; [by eexists|].
  destruct (isEnd rest) eqn:E; [by eexists|]. destruct rest as [|b rest]; [done|].
  destruct (quoted_total (b :: rest) ltac:(done)) as ([|value rest'] & ->); cbn [mbind option_bind]; [by eexists|].
  destruct (isEnd rest'); by eexists.
Qed.

Lemma parse_total bom l : exists r, parse bom l = Some r.
Proof.
  unfold parse. destruct (trimRight _ _) as [|b l'] eqn:E; [by eexists|]. destruct (isComment _); [by eexists|].
  by apply parseItem_total.
Qed.

Lemma quoted_sound (P : Z -> Prop) l text rest : quoted l = Some (Text text rest) -> Forall P l ->
  Forall (fun b => b <> QUOTE) text /\ Forall P text /\ Forall P rest.
Proof.
  destruct l as [|b l]; [done|]. cbn. destruct (negb _); [done|]. destruct l as [|c l]; [done|].
  destruct (closeQuote (c :: l)) as [[x y]|] eqn:E; [|done]. apply closeQuote_sound in E as [E Hq].
  intros [= -> <-] [_ H]%Forall_cons. rewrite E in H. apply Forall_app in H as [Hx [_ Hy]%Forall_cons].
  split_and!; [done..|]. by apply Forall_trimLeft.
Qed.

Lemma parseItem_sound (P : Z -> Prop) l i : parseItem l = Some (Item i) -> Forall P l ->
  Forall (fun b => b <> QUOTE /\ P b) (configName i) /\ Forall (fun b => b <> QUOTE /\ P b) (configValue i).
Proof.
  unfold parseItem. intros H Hl. destruct (quoted l) as [[|name rest]|] eqn:E; [done| |done]. cbn [mbind option_bind] in H.
  destruct (quoted_sound P _ _ _ E Hl) as (Hn & Hpn & Hr).
  assert (Hand : forall s, Forall (fun b => b <> QUOTE) s -> Forall P s -> Forall (fun b => b <> QUOTE /\ P b) s).
  { intros s H1 H2. by apply Forall_and. }
  destruct (isEnd rest); [injection H as <-; cbn; auto|].
  destruct (quoted rest) as [[|value rest']|] eqn:E2; [done| |done]. cbn [mbind option_bind] in H.
  destruct (quoted_sound P _ _ _ E2 Hr) as (Hv & Hpv & _).
  destruct (isEnd rest'); [|done]. injection H as <-. cbn. auto.
Qed.

(** A line of the printers. *)
Lemma parse_item bom name value gap : clean name -> clean value -> Forall (fun b => isGap b = true) gap ->
  parse bom (QUOTE :: name ++ QUOTE :: gap ++ QUOTE :: value ++ [QUOTE; LF]) = Some (Item (mkItem name value)).
Proof.
  intros Hn Hv Hg.
  assert (Hq : forall s, clean s -> Forall (fun b => b <> QUOTE) s).
  { intros s H. eapply Forall_impl; [exact H|]. by intros b (? & _). }
  assert (Hb : forall l, skipBom bom (QUOTE :: l) = QUOTE :: l).
  { intros l. destruct bom; [done|]. by destruct l as [|? [|? l]]. }
  unfold parse. rewrite Hb. cbn [trimLeft]. change (isBlank QUOTE) with false. cbn iota.
  set (l := QUOTE :: name ++ QUOTE :: gap ++ QUOTE :: value).
  replace (QUOTE :: name ++ QUOTE :: gap ++ QUOTE :: value ++ [QUOTE; LF]) with ((l ++ [QUOTE]) ++ [LF])
    by (unfold l; by simplify_list_eq).
  rewrite trimRight_all by (by repeat constructor). rewrite trimRight_keep by done.
  replace (l ++ [QUOTE]) with (QUOTE :: name ++ QUOTE :: gap ++ QUOTE :: value ++ [QUOTE])
    by (unfold l; by simplify_list_eq).
  assert (Hc : forall x, isComment (QUOTE :: x) = false) by (by intros [|]). rewrite Hc.
  unfold parseItem, quoted. rewrite Z.eqb_refl. cbn [negb].
  assert (Hne : forall x y : str, exists b s, x ++ QUOTE :: y = b :: s) by (intros [|b x] y; by do 2 eexists).
  destruct (Hne name (gap ++ QUOTE :: value ++ [QUOTE])) as (b1 & s1 & E1). rewrite E1, <- E1.
  rewrite closeQuote_app by auto. cbn [mbind option_bind]. rewrite trimLeft_all by done.
  cbn [trimLeft]. change (isGap QUOTE) with false. cbn iota. cbn [isEnd]. rewrite Hc, Z.eqb_refl. cbn [negb].
  destruct (Hne value []) as (b2 & s2 & E2). rewrite E2, <- E2.
  rewrite closeQuote_app by auto. done.
Qed.

End LineLemmas.

(** ** Texts *)

Module TextLemmas.
Import Line LineLemmas CProConfigStream.

Lemma findLine_spec l : let '(line, rest) := findLine l in
  l = line ++ rest /\ (l <> [] -> line <> []) /\
  exists text eol, line = text ++ eol /\ Forall (fun b => b <> CR /\ b <> LF) text /\ Forall (fun b => isBlank b = true) eol.
Proof.
  induction l as [|b l IH]; [split_and!; [done..|]; by exists [], []|]. cbn [findLine].
  destruct ((b =? CR) || (b =? LF)) eqn:Hb.
  - assert (Hbl : isBlank b = true) by (unfold isBlank; destruct (b =? SPACE), (b =? TAB), (b =? CR), (b =? LF); done).
    destruct l as [|c l]; [|destruct (Z.eqb_spec c LF) as [->|]]; (split_and!; [done..|]);
      exists []; eexists; (split; [done|]); split; by repeat constructor.
  - apply orb_false_iff in Hb as [Hb1%Z.eqb_neq Hb2%Z.eqb_neq]. destruct (findLine l) as [line rest].
    destruct IH as (-> & _ & text & eol & -> & Ht & He). split_and!; [done..|].
    exists (b :: text), eol. split_and!; [done|by constructor|done].
Qed.

Lemma findLine_text text rest : Forall (fun b => b <> CR /\ b <> LF) text -> head rest <> Some LF ->
  findLine (text ++ LF :: rest) = (text ++ [LF], rest).
Proof.
  intros Ht Hr. induction Ht as [|b text [H1 H2] _ IH].
  - cbn. destruct rest as [|c rest]; [done|]. destruct (Z.eqb_spec c LF) as [->|]; done.
  - cbn [app findLine]. rewrite (proj2 (Z.eqb_neq _ _) H1), (proj2 (Z.eqb_neq _ _) H2), IH. done.
Qed.

(** Enough turns: there is a result, its items are clean. *)
Lemma parseLines_total fuel : forall bom l configs, (length l < fuel)%nat -> bytes l -> Forall cleanItem configs ->
  exists ret configs', parseLines fuel bom l configs = Some (ret, configs') /\ Forall cleanItem configs'.
Proof.
  induction fuel as [|fuel IH]; intros bom l configs Hf Hb Hc; [lia|]. cbn [parseLines].
  destruct l as [|b0 l0]; [by do 2 eexists|]. cbn iota. pose proof (findLine_spec (b0 :: l0)) as H.
  assert (Hl : b0 :: l0 <> []) by done. set (l := b0 :: l0) in *. clearbody l. clear b0 l0.
  destruct (findLine l) as [line rest] eqn:E. destruct H as (El & Hne & text & eol & Et & Ht & He).
  assert (Hlen : (length rest < fuel)%nat).
  { specialize (Hne Hl). rewrite El in Hf.
    rewrite length_app in Hf. destruct line; [done|]. cbn in Hf. lia. }
  rewrite El in Hb. apply Forall_app in Hb as [Hbl Hbr].
  destruct (parse_total bom line) as (r & Er). rewrite Er. cbn [mbind option_bind]. destruct r as [| |i].
  - by apply IH.
  - by do 2 eexists.
  - apply IH; [done|done|]. apply Forall_app. split; [done|]. constructor; [|done].
    unfold parse in Er. rewrite skipBom_id, Et, trim_eol in Er by done.
    destruct (trimRight isBlank (trimLeft isBlank text)) as [|x y] eqn:Ex; [done|].
    destruct (isComment _); [done|]. rewrite <- Ex in Er.
    eapply parseItem_sound in Er; [exact Er|]. by apply Forall_trimRight, Forall_trimLeft.
Qed.

(** *** Printing and parsing *)

Definition lineOf (c : item) : str :=
  QUOTE :: configName c ++ QUOTE :: [] ++ QUOTE :: configValue c ++ [QUOTE; LF].

Lemma ConfigsToString_lines configs : ConfigsToString configs = concat (lineOf <$> configs).
Proof.
  unfold ConfigsToString. assert (H : forall s, fold_left (fun s config =>
    s ++ [QUOTE] ++ configName config ++ [QUOTE; QUOTE] ++ configValue config ++ [QUOTE; LF]) configs s =
    s ++ concat (lineOf <$> configs)); [|apply (H [])].
  induction configs as [|c configs IH]; intros s; cbn [fold_left fmap list_fmap concat]; [by rewrite app_nil_r|].
  rewrite IH. unfold lineOf. by simplify_list_eq.
Qed.

Lemma clean_noeol s : clean s -> Forall (fun b => b <> CR /\ b <> LF) s.
Proof. intros H. eapply Forall_impl; [exact H|]. by intros b (_ & ?). Qed.

Lemma findLine_lineOf c configs : cleanItem c ->
  findLine (lineOf c ++ concat (lineOf <$> configs)) = (lineOf c, concat (lineOf <$> configs)).
Proof.
  intros [Hn%clean_noeol Hv%clean_noeol].
  assert (E : lineOf c = (QUOTE :: configName c ++ QUOTE :: QUOTE :: configValue c ++ [QUOTE]) ++ [LF])
    by (unfold lineOf; by simplify_list_eq).
  rewrite E, <- app_assoc. apply findLine_text; [|by destruct configs].
  assert (Hq : QUOTE <> CR /\ QUOTE <> LF) by done.
  constructor; [done|]. apply Forall_app. split; [done|]. do 2 (constructor; [done|]).
  apply Forall_app. split; [done|]. by constructor.
Qed.

Lemma parse_lineOf bom c : cleanItem c -> parse bom (lineOf c) = Some (Item c).
Proof. intros [Hn Hv]. unfold lineOf. destruct c. by apply (parse_item bom _ _ []). Qed.

Lemma parseLines_print configs : forall fuel bom acc, (length (concat (lineOf <$> configs)) < fuel)%nat ->
  Forall cleanItem configs -> parseLines fuel bom (concat (lineOf <$> configs)) acc = Some (true, acc ++ configs).
Proof.
  induction configs as [|c configs IH]; intros fuel bom acc Hf Hc.
  - destruct fuel; [lia|]. by rewrite app_nil_r.
  - apply Forall_cons in Hc as [Hc Hcs]. destruct fuel as [|fuel]; [lia|].
    cbn [fmap list_fmap concat] in Hf |- *. rewrite length_app in Hf. unfold lineOf at 1 in Hf. cbn [length] in Hf.
    cbn [parseLines]. destruct (lineOf c ++ _) as [|x y] eqn:E; [done|]. rewrite <- E.
    rewrite findLine_lineOf, parse_lineOf by done. cbn [mbind option_bind].
    rewrite IH by (lia || done). by rewrite <- app_assoc.
Qed.

Lemma print_parse configs : Forall cleanItem configs ->
  StringToConfigs (ConfigsToString configs) = Some (true, configs).
Proof.
  intros Hc. rewrite ConfigsToString_lines. unfold StringToConfigs, BufToConfigs.
  destruct (concat (lineOf <$> configs)) as [|x y] eqn:E; [by destruct configs|]. rewrite <- E.
  rewrite parseLines_print by (lia || done). done.
Qed.

End TextLemmas.

(** ** Numbers *)

Module NumberLemmas.
Import Line CProConfigStream.

Lemma scanDigits_all d : forall acc, Forall (fun b => isDigit b = true) d ->
  scanDigits d acc = fold_left (fun a b => a * 10 + (b - 48)) d acc.
Proof.
  induction d as [|b d IH]; intros acc; [done|]. intros [Hb Hd]%Forall_cons. cbn. rewrite Hb. by apply IH.
Qed.

Lemma digits_value fuel : forall n, 0 <= n < 10 ^ Z.of_nat fuel ->
  Forall (fun b => isDigit b = true) (digits fuel n) /\
  fold_left (fun a b => a * 10 + (b - 48)) (digits fuel n) 0 = n.
Proof.
  induction fuel as [|fuel IH]; intros n Hn.
  - split; [constructor|]. cbn in *. lia.
  - rewrite Nat2Z.inj_succ, Z.pow_succ_r in Hn by lia. cbn [digits].
    assert (Hd : isDigit (48 + n mod 10) = true) by (unfold isDigit; Z.div_mod_to_equations; lia).
    destruct (Z.ltb_spec n 10).
    + split; [by repeat constructor|]. cbn. rewrite Z.mod_small by lia. lia.
    + destruct (IH (n / 10)) as [H1 H2]; [Z.div_mod_to_equations; lia|]. split.
      * apply Forall_app. split; [done|]. by constructor.
      * rewrite fold_left_app, H2. cbn. Z.div_mod_to_equations; lia.
Qed.

(** What is printed is read back. *)
Lemma toNumber_decimal (signed : bool) (w v : Z) : 0 < w <= 64 ->
  (if signed then - 2 ^ (w - 1) <= v < 2 ^ (w - 1) else 0 <= v < 2 ^ w) -> toNumber signed w (decimal v) = Some v.
Proof.
  intros Hw Hv.
  assert (Hp : 2 ^ w = 2 * 2 ^ (w - 1)) by (rewrite <- Z.pow_succ_r by lia; f_equal; lia).
  assert (Hm : 2 ^ w <= 2 ^ 64) by (apply Z.pow_le_mono_r; lia).
  assert (H20 : 2 ^ 64 < 10 ^ Z.of_nat 20) by done.
  assert (Hdig : forall n, 0 <= n < 2 ^ 64 -> exists b d, digits 20 n = b :: d /\ Forall (fun b => isDigit b = true) (b :: d) /\
    scanDigits (b :: d) 0 = n /\ cstr (b :: d) = b :: d).
  { intros n Hn. destruct (digits_value 20 n ltac:(lia)) as [H1 H2].
    rewrite <- (scanDigits_all _ 0 H1) in H2. destruct (digits 20 n) as [|b d] eqn:E.
    { exfalso. revert E. cbn [digits]. by destruct (if n <? 10 then _ else _). }
    exists b, d. split_and!; [done..|]. clear - H1. induction H1 as [|x l Hx _ IH]; [done|]. cbn.
    destruct (Z.eqb_spec x 0) as [->|]; [done|]. by rewrite IH. }
  assert (Hnb : forall b, isDigit b = true -> isSpace b = false /\ (b =? 45) = false /\ (b =? 43) = false).
  { unfold isDigit, isSpace, SPACE. intros b. lia. }
  assert (Hpos : forall n, 0 <= n < 2 ^ 64 -> exists b d, digits 20 n = b :: d /\ isDigit b = true /\
    scanDigits (b :: d) 0 = n /\ cstr (b :: d) = b :: d) by
    (intros n Hn; destruct (Hdig n Hn) as (b & d & E & Hall & ?); exists b, d; apply Forall_cons in Hall as [? _]; tauto).
  assert (0 < 2 ^ (w - 1)) by (apply Z.pow_pos_nonneg; lia).
  unfold decimal. destruct (Z.ltb_spec v 0).
  - destruct signed; [|lia]. destruct (Hpos (- v)) as (b & d & -> & Hb & Hs & Hc); [lia|].
    unfold toNumber, sscanf. change (cstr (45 :: b :: d)) with (45 :: cstr (b :: d)). rewrite Hc.
    cbn [trimLeft]. change (isSpace 45) with false. cbn iota. cbn [scanSign]. rewrite Z.eqb_refl, Hb, Hs, Z.opp_involutive.
    destruct (Z.leb_spec (- 2 ^ (w - 1)) v), (Z.ltb_spec v (2 ^ (w - 1))); try lia. done.
  - destruct (Hpos v) as (b & d & -> & Hb & Hs & Hc); [destruct signed; lia|].
    destruct (Hnb b Hb) as (Hn1 & Hn2 & Hn3).
    unfold toNumber, sscanf. rewrite Hc. cbn [trimLeft]. rewrite Hn1. cbn [scanSign]. rewrite Hn2, Hn3, Hb, Hs.
    destruct signed.
    + destruct (Z.leb_spec (- 2 ^ (w - 1)) v), (Z.ltb_spec v (2 ^ (w - 1))); try lia. done.
    + destruct (Z.ltb_spec v (2 ^ w)); [done|lia].
Qed.

End NumberLemmas.

(** ** The store

    What a store must promise: it is the log of the items added and not removed, grouped
    by name, the names in the order in which they came. *)

Module StoreSpec.
Import CProConfigStream.

Definition named (n : str) (log : list item) : list item := filter (fun c => configName c = n) log.

(** The first occurrences. *)
Fixpoint firsts (l : list str) : list str :=
  match l with [] => [] | x :: l => x :: filter (fun y => y <> x) (firsts l) end.

Definition names (log : list item) : list str := firsts (configName <$> log).
Definition grouped (log : list item) : list item := concat ((fun n => named n log) <$> names log).

Inductive op := OAdd (name value : str) | ORemove (name : str) | OClear.

Definition logStep (log : list item) (o : op) : list item :=
  match o with
  | OAdd n v => log ++ [mkItem n v]
  | ORemove n => filter (fun c => configName c <> n) log
  | OClear => []
  end.
Definition step (s : t) (o : op) : t :=
  match o with OAdd n v => Add n v s | ORemove n => Remove n s | OClear => Clear s end.

Lemma elem_firsts x l : x ∈ firsts l <-> x ∈ l.
Proof.
  induction l as [|y l IH]; [done|]. cbn. rewrite !elem_of_cons, list_elem_of_filter, IH.
  destruct (decide (x = y)); naive_solver.
Qed.

Lemma NoDup_firsts l : NoDup (firsts l).
Proof.
  induction l as [|y l IH]; [constructor|]. cbn. constructor; [|by apply NoDup_filter].
  rewrite list_elem_of_filter. by intros [? _].
Qed.

Lemma firsts_snoc l x : firsts (l ++ [x]) = if decide (x ∈ l) then firsts l else firsts l ++ [x].
Proof.
  induction l as [|y l IH]; [cbn; by rewrite decide_False by apply not_elem_of_nil|].
  cbn [app firsts]. rewrite IH. destruct (decide (x ∈ l)) as [Hx|Hx].
  - rewrite decide_True by (by right). done.
  - rewrite filter_app, filter_cons, filter_nil. destruct (decide (x <> y)) as [Hne|Heq].
    + rewrite decide_False by (by intros [->|?]%elem_of_cons). done.
    + assert (x = y) as -> by (destruct (decide (x = y)); tauto). rewrite decide_True by left. by rewrite app_nil_r.
Qed.

Lemma firsts_filter n l : firsts (filter (fun y => y <> n) l) = filter (fun y => y <> n) (firsts l).
Proof.
  induction l as [|y l IH]; [done|]. cbn [firsts]. rewrite !filter_cons.
  destruct (decide (y <> n)) as [Hy|Hy].
  - cbn [firsts]. rewrite IH. f_equal. rewrite !list_filter_filter. apply list_filter_iff. naive_solver.
  - assert (y = n) as -> by (destruct (decide (y = n)); tauto). rewrite IH.
    rewrite list_filter_filter. apply list_filter_iff. naive_solver.
Qed.

Lemma names_elem n log : n ∈ names log <-> named n log <> [].
Proof.
  unfold names, named. rewrite elem_firsts, list_elem_of_fmap. split.
  - intros (c & -> & Hc) E. assert (c ∈ filter (fun c' => configName c' = configName c) log) as H
      by (by apply list_elem_of_filter). rewrite E in H. by apply not_elem_of_nil in H.
  - intros H. destruct (filter (fun c => configName c = n) log) as [|c l] eqn:E; [done|].
    assert (Hc : c ∈ filter (fun c => configName c = n) log) by (rewrite E; left).
    apply list_elem_of_filter in Hc as [<- Hc]. by exists c.
Qed.

Lemma names_add log n v : names (log ++ [mkItem n v]) = if decide (n ∈ names log) then names log else names log ++ [n].
Proof.
  unfold names. rewrite fmap_app. cbn. rewrite firsts_snoc.
  destruct (decide (n ∈ configName <$> log)) as [H|H].
  - rewrite decide_True by (by apply elem_firsts). done.
  - rewrite decide_False by (by rewrite elem_firsts). done.
Qed.

Lemma names_remove log n : names (filter (fun c => configName c <> n) log) = filter (fun y => y <> n) (names log).
Proof.
  unfold names. rewrite <- firsts_filter. f_equal. induction log as [|c log IH]; [done|].
  rewrite filter_cons. cbn [fmap list_fmap]. rewrite filter_cons.
  destruct (decide (configName c <> n)); cbn [fmap list_fmap]; by rewrite IH.
Qed.

Lemma named_add log n v m : named m (log ++ [mkItem n v]) = named m log ++ if decide (n = m) then [mkItem n v] else [].
Proof. unfold named. by rewrite filter_app, filter_cons, filter_nil. Qed.

Lemma named_remove log n m : named m (filter (fun c => configName c <> n) log) = if decide (m = n) then [] else named m log.
Proof.
  unfold named. rewrite list_filter_filter. destruct (decide (m = n)) as [->|Hne].
  - induction log as [|c log IH]; [done|]. rewrite filter_cons_False by naive_solver. done.
  - apply list_filter_iff. naive_solver.
Qed.

End StoreSpec.

(** ** The store keeps its promise *)

Module StoreLemmas.
Import CProConfigStream StoreSpec.

Record rep (bound : Z) (s : t) (log : list item) : Prop := mkRep {
  rp_configs_sorted : stl_sorted (m_name2Configs s);
  rp_index_sorted : stl_sorted (m_name2Index s);
  rp_configs : forall n, stl_find n (m_name2Configs s) = match named n log with [] => None | l => Some (n, l) end;
  rp_index : exists ix : str -> Z,
    (forall n, stl_find n (m_name2Index s) = if decide (n ∈ names log) then Some (n, ix n) else None) /\
    StronglySorted (fun a b => ix a < ix b) (names log) /\
    forall n, n ∈ names log -> 0 <= ix n < m_nextIndex s;
  rp_next : 0 <= m_nextIndex s <= bound
}.

Lemma rep_init : rep 0 init [].
Proof.
  split; try done. exists (fun _ => 0). split_and!; [done|constructor|]. intros n H. by apply not_elem_of_nil in H.
Qed.

(** [stl_find] in a map after an assignment, after a removal. *)
Lemma find_assign {V} (k : str) (v : V) m n :
  stl_find n (stl_assign (k, v) m) = if decide (n = k) then Some (k, v) else stl_find n m.
Proof.
  destruct (decide (n = k)) as [->|Hne]; [apply stl_find_assign_pair|]. by apply (stl_find_assign_ne n (k, v)).
Qed.
Lemma find_erase {V} (k : str) (m : list (str * V)) n : stl_sorted m ->
  stl_find n (stl_erase k m) = if decide (n = k) then None else stl_find n m.
Proof.
  intros Hs. destruct (decide (n = k)) as [->|Hne]; [by apply stl_find_erase_eq|]. by apply stl_find_erase_ne.
Qed.

Lemma sorted_snoc {A} (R : A -> A -> Prop) l x : StronglySorted R l -> Forall (fun y => R y x) l -> StronglySorted R (l ++ [x]).
Proof.
  induction 1 as [|y l Hs IH Hy]; intros Hx; cbn; [by repeat constructor|]. apply Forall_cons in Hx as [Hyx Hx].
  constructor; [by apply IH|]. apply Forall_app. by repeat constructor.
Qed.
Lemma strongly_sorted_filter {A} (R : A -> A -> Prop) (P : A -> Prop) `{!forall x, Decision (P x)} l :
  StronglySorted R l -> StronglySorted R (filter P l).
Proof.
  induction 1 as [|y l Hs IH Hy]; [constructor|]. rewrite filter_cons. destruct (decide (P y)); [|done].
  constructor; [done|]. rewrite Forall_forall in Hy |- *. intros x [_ Hx]%list_elem_of_filter. by apply Hy.
Qed.
Lemma sorted_ext {A} (R R' : A -> A -> Prop) l : (forall x y, x ∈ l -> y ∈ l -> R x y -> R' x y) ->
  StronglySorted R l -> StronglySorted R' l.
Proof.
  intros HR. induction 1 as [|x l Hs IH Hx]; [constructor|]. constructor.
  - apply IH. intros y z Hy Hz. by apply HR; right.
  - rewrite Forall_forall in Hx |- *. intros y Hy. apply HR; [left|by right|by apply Hx].
Qed.

Lemma rep_add bound s log n v : rep bound s log -> bound + 1 < 2 ^ 64 ->
  rep (bound + 1) (Add n v s) (log ++ [mkItem n v]).
Proof.
  intros [H1 H2 H3 (ix & Hix & Hss & Hb) H5] Hbound.
  assert (Hold : match stl_find n (m_name2Configs s) with Some (_, l) => l | None => [] end = named n log).
  { rewrite H3. by destruct (named n log). }
  assert (Hc : forall m, stl_find m (stl_assign (n, named n log ++ [mkItem n v]) (m_name2Configs s)) =
    match named m (log ++ [mkItem n v]) with [] => None | l => Some (m, l) end).
  { intros m. rewrite find_assign, named_add. destruct (decide (m = n)) as [->|Hne].
    - rewrite decide_True by done. by destruct (named n log).
    - rewrite decide_False by done. rewrite app_nil_r. apply H3. }
  unfold Add. rewrite Hold, Hix. destruct (decide (n ∈ names log)) as [Hn|Hn].
  - split; cbn [m_name2Configs m_name2Index m_nextIndex]; [by apply stl_sorted_assign|done|done| |lia].
    exists ix. rewrite names_add, decide_True by done. done.
  - rewrite wrap_small by lia.
    split; cbn [m_name2Configs m_name2Index m_nextIndex]; [by apply stl_sorted_assign..|done| |lia].
    assert (Hne : forall m, m ∈ names log -> m <> n) by (by intros m Hm ->).
    exists (fun m => if decide (m = n) then m_nextIndex s else ix m). rewrite names_add, decide_False by done. split_and!.
    + intros m. rewrite find_assign, Hix. destruct (decide (m = n)) as [->|Hmn].
      * rewrite decide_True by (apply elem_of_app; right; left). done.
      * destruct (decide (m ∈ names log)) as [Hm|Hm]; [by rewrite decide_True by (apply elem_of_app; by left)|].
        rewrite decide_False; [done|]. intros [?|[->|?%not_elem_of_nil]%elem_of_cons]%elem_of_app; done.
    + apply sorted_snoc.
      * eapply sorted_ext; [|exact Hss]. intros x y Hx Hy ?. cbn. rewrite !decide_False by auto. done.
      * apply Forall_forall. intros x Hx. cbn. rewrite decide_False, decide_True by auto. by apply Hb.
    + intros m [Hm|[->|?%not_elem_of_nil]%elem_of_cons]%elem_of_app; [|rewrite decide_True by done; lia|done].
      rewrite decide_False by auto. specialize (Hb m Hm). lia.
Qed.

Lemma rep_remove bound s log n : rep bound s log -> rep bound (Remove n s) (filter (fun c => configName c <> n) log).
Proof.
  intros [H1 H2 H3 (ix & Hix & Hss & Hb) H5].
  split; cbn [Remove m_name2Configs m_name2Index m_nextIndex]; [by apply stl_sorted_erase..| | |done].
  - intros m. rewrite find_erase, named_remove by done. by destruct (decide (m = n)).
  - exists ix. rewrite names_remove. split_and!.
    + intros m. rewrite find_erase, Hix by done. destruct (decide (m = n)) as [->|Hne].
      * rewrite decide_False; [done|]. by intros [? _]%list_elem_of_filter.
      * apply decide_ext. rewrite list_elem_of_filter. tauto.
    + by apply strongly_sorted_filter.
    + intros m [_ Hm]%list_elem_of_filter. by apply Hb.
Qed.

Lemma rep_clear bound s log : rep bound s log -> rep bound (Clear s) [].
Proof.
  intros [_ _ _ _ H5]. split; try done. exists (fun _ => 0). split_and!; [done|constructor|].
  intros n H. by apply not_elem_of_nil in H.
Qed.

Lemma rep_steps ops : forall bound s log, rep bound s log -> bound + Z.of_nat (length ops) < 2 ^ 64 ->
  rep (bound + Z.of_nat (length ops)) (fold_left step ops s) (fold_left logStep ops log).
Proof.
  induction ops as [|o ops IH]; intros bound s log H Hb; [by rewrite Z.add_0_r|]. cbn [length fold_left] in *.
  rewrite Nat2Z.inj_succ in Hb |- *.
  replace (bound + Z.succ (Z.of_nat (length ops))) with ((bound + 1) + Z.of_nat (length ops)) by lia.
  assert (Hweak : forall s' l', rep bound s' l' -> rep (bound + 1) s' l') by (intros ? ? []; split; try done; lia).
  apply IH; [|lia]. destruct o as [n v|n|]; cbn [step logStep].
  - apply rep_add; [done|lia].
  - by apply Hweak, rep_remove.
  - by eapply Hweak, rep_clear.
Qed.

(** *** Reading *)

Lemma rep_Get_i bound s log n : rep bound s log -> Get_i n s = named n log.
Proof. intros H. unfold Get_i. rewrite (rp_configs _ _ _ H). by destruct (named n log). Qed.

(** The names by their index. *)
Lemma index2Name_sorted l : forall m : list (Z * str), stl_sorted m -> NoDup ((fst <$> m) ++ (snd <$> l)) ->
  let m' := fold_left (fun m (e : str * Z) => stl_assign (snd e, fst e) m) l m in
  stl_sorted m' /\ m' ≡ₚ m ++ ((fun e => (snd e, fst e)) <$> l).
Proof.
  induction l as [|[n i] l IH]; intros m Hs Hn; cbn [fold_left fmap list_fmap snd fst]; [by rewrite app_nil_r|].
  cbn [fmap list_fmap] in Hn.
  assert (Hf : stl_find i m = None).
  { destruct (stl_find i m) as [e|] eqn:E; [|done]. apply stl_find_Some_elem in E as [He Hk].
    apply NoDup_app in Hn as (_ & Hn & _). exfalso. apply (Hn i); [|left].
    apply list_elem_of_fmap. exists e. split; [|done]. by rewrite <- Hk. }
  assert (Hp : stl_assign (i, n) m ≡ₚ (i, n) :: m).
  { rewrite (stl_assign_fresh (i, n)) by done. by apply stl_insert_Permutation. }
  destruct (IH (stl_assign (i, n) m)) as [Hs' Hp']; [by apply stl_sorted_assign| |].
  - rewrite Hp. cbn [fmap list_fmap fst app]. by rewrite Permutation_middle.
  - split; [done|]. rewrite Hp', Hp. solve_Permutation.
Qed.

Lemma rep_GetAll bound s log : rep bound s log -> GetAll s = grouped log.
Proof.
  intros [H1 H2 H3 (ix & Hix & Hss & Hb) H5]. unfold GetAll.
  assert (Hp : m_name2Index s ≡ₚ (fun n => (n, ix n)) <$> names log).
  { apply NoDup_Permutation.
    - apply (NoDup_fmap_1 fst). by apply stl_sorted_NoDup.
    - apply NoDup_fmap_2; [by intros x y [= -> _]|]. apply NoDup_firsts.
    - intros [n i]. rewrite list_elem_of_fmap. split.
      + intros He. apply (stl_sorted_find_elem _ _ H2) in He. change (stl_key (n, i)) with n in He.
        rewrite Hix in He. destruct (decide (n ∈ names log)); [|done]. injection He as <-. by exists n.
      + intros (n' & [= <- ->] & Hn). specialize (Hix n). rewrite decide_True in Hix by done.
        by apply stl_find_Some_elem in Hix as [? _]. }
  set (want := (fun n => (ix n, n)) <$> names log).
  assert (Hws : stl_sorted want).
  { unfold want. clear - Hss. induction Hss as [|n l Hs IH Hn]; [done|]. split; [|done].
    apply Forall_fmap. eapply Forall_impl; [exact Hn|]. intros m Hm. cbn. by apply Z.ltb_lt. }
  destruct (index2Name_sorted (m_name2Index s) []) as [Hs' Hp']; [done| |].
  { cbn [app fmap list_fmap]. rewrite Hp, <- list_fmap_compose.
    pose proof (stl_sorted_NoDup _ Hws) as Hnd. unfold want in Hnd. by rewrite <- list_fmap_compose in Hnd. }
  rewrite (stl_sorted_perm_eq _ want Hs' Hws) by (rewrite Hp'; cbn [app]; rewrite Hp, <- list_fmap_compose; done).
  unfold grouped, want. clear - H3.
  assert (Hgo : forall l acc, (forall n, n ∈ l -> named n log <> []) ->
    fold_left (fun configs (e : Z * str) => match stl_find (snd e) (m_name2Configs s) with Some (_, l) => configs ++ l | None => configs end)
      ((fun n => (ix n, n)) <$> l) acc = acc ++ concat ((fun n => named n log) <$> l)).
  { induction l as [|n l IH]; intros acc Hl; cbn [fmap list_fmap fold_left concat snd]; [by rewrite app_nil_r|].
    rewrite H3. specialize (Hl n ltac:(left)) as Hn. destruct (named n log) eqn:E; [done|].
    rewrite IH by (intros m Hm; apply Hl; by right). by rewrite <- app_assoc. }
  apply Hgo. intros n. by rewrite names_elem.
Qed.

End StoreLemmas.

(** ** Files *)

Module FileLemmas.
Import Line LineLemmas CProConfigFile.

(** An item that a line of the file can hold. *)
Definition fits (c : item) : Prop :=
  cleanItem c /\ Forall (fun b => b <> 0) (configName c ++ configValue c) /\
  Z.of_nat (length (configName c) + length (configValue c)) + 8 < LINE_BUF_SIZE - 1.

Lemma fgets_line text : forall n rest, Forall (fun b => b <> LF) text -> Z.of_nat (length text) < n ->
  fgets n (text ++ LF :: rest) = (text ++ [LF], rest).
Proof.
  induction text as [|b text IH]; intros n rest Ht Hn; cbn [app fgets length] in *.
  - destruct (Z.leb_spec n 0); [lia|]. by rewrite Z.eqb_refl.
  - apply Forall_cons in Ht as [Hb Ht]. destruct (Z.leb_spec n 0); [lia|].
    rewrite (proj2 (Z.eqb_neq _ _) Hb), IH by (done || lia). done.
Qed.

Lemma cstr_id s : Forall (fun b => b <> 0) s -> cstr s = s.
Proof. induction 1 as [|b s Hb _ IH]; [done|]. cbn. by rewrite (proj2 (Z.eqb_neq _ _) Hb), IH. Qed.

Lemma writeLines_all configs : forall good out, (length configs <= good)%nat ->
  writeLines good configs out = (true, out ++ concat (line <$> configs)).
Proof.
  induction configs as [|c configs IH]; intros good out Hg; cbn [writeLines fmap list_fmap concat length] in *;
    [by rewrite app_nil_r|]. destruct good; [lia|]. rewrite IH by lia. by rewrite <- app_assoc.
Qed.

Lemma line_fits c : fits c -> exists text, line c = text ++ [LF] /\ Forall (fun b => b <> LF) text /\
  Z.of_nat (length text) < LINE_BUF_SIZE - 1 /\ cstr (line c) = line c /\ forall bom, parse bom (line c) = Some (Item c).
Proof.
  intros ([Hn Hv] & [H0n H0v]%Forall_app & Hlen).
  assert (Hlf : forall s, clean s -> Forall (fun b => b <> LF) s).
  { intros s H. eapply Forall_impl; [exact H|]. by intros b (_ & _ & ?). }
  exists (QUOTE :: configName c ++ QUOTE :: [SPACE; SPACE; SPACE; SPACE] ++ QUOTE :: configValue c ++ [QUOTE]).
  unfold line. rewrite !cstr_id by done. split_and!.
  - by simplify_list_eq.
  - constructor; [done|]. apply Forall_app. split; [by apply Hlf|]. constructor; [done|].
    apply Forall_app. split; [by repeat constructor|]. constructor; [done|].
    apply Forall_app. split; [by apply Hlf|]. by repeat constructor.
  - repeat (rewrite ?length_app; cbn [length app]). lia.
  - apply cstr_id. repeat (apply Forall_app; split); done || by repeat constructor.
  - intros bom. destruct c. cbn [configName configValue] in *.
    pose proof (parse_item bom configName0 configValue0 [SPACE; SPACE; SPACE; SPACE] Hn Hv ltac:(by repeat constructor)) as E.
    by simplify_list_eq.
Qed.

Lemma readLines_print configs : forall fuel bom acc, (length (concat (line <$> configs)) < fuel)%nat ->
  Forall fits configs -> readLines fuel true bom (concat (line <$> configs)) acc = Some (true, acc ++ configs).
Proof.
  induction configs as [|c configs IH]; intros fuel bom acc Hf Hc.
  - destruct fuel; [lia|]. by rewrite app_nil_r.
  - apply Forall_cons in Hc as [Hc Hcs]. destruct fuel as [|fuel]; [lia|].
    destruct (line_fits c Hc) as (text & El & Ht & Hlen & Ec & Ep).
    cbn [fmap list_fmap concat] in Hf |- *. rewrite length_app in Hf.
    assert (Hpos : (0 < length (line c))%nat) by (rewrite El, length_app; cbn; lia).
    cbn [readLines]. destruct (line c ++ _) as [|x y] eqn:E; [rewrite El in E; by destruct text|]. rewrite <- E.
    rewrite El at 1. rewrite <- app_assoc. cbn [app]. rewrite fgets_line by done.
    rewrite <- El, Ec, Ep. cbn [mbind option_bind]. rewrite IH by (lia || done). by rewrite <- app_assoc.
Qed.

Lemma write_read configs f good : f <> [] -> Forall fits configs -> (S (length configs) <= good)%nat ->
  fst (Write true good configs f) = true /\
  Read (Some (snd (Write true good configs f), true)) f = Some (true, configs).
Proof.
  intros Hf Hc Hg. destruct f as [|b f]; [done|]. destruct good as [|good]; [lia|]. unfold Write. cbn [negb].
  rewrite writeLines_all by lia. split; [done|]. cbn [fst snd]. unfold Read.
  set (text := concat (line <$> configs)). rewrite length_app.
  assert (Hgo : forall k, (length text < k)%nat -> readLines (S (S k)) true false (title ++ text) [] = Some (true, configs)).
  { intros k Hk. pose proof (fgets_line [] (LINE_BUF_SIZE - 1) text) as F2. cbn [app length] in F2.
    pose proof (fgets_line (take 36 title) (LINE_BUF_SIZE - 1) (LF :: text)) as F1.
    change (title ++ text) with (take 36 title ++ LF :: LF :: text). cbn [readLines].
    change (take 36 title ++ LF :: LF :: text) with (SLASH :: drop 1 (take 36 title) ++ LF :: LF :: text) at 1. cbn iota.
    rewrite F1 by (by repeat constructor || done).
    change (parse false (cstr (take 36 title ++ [LF]))) with (Some Skip). cbn [mbind option_bind].
    rewrite F2 by (constructor || done). change (parse true (cstr [LF])) with (Some Skip). cbn [mbind option_bind].
    by apply readLines_print. }
  change (length title) with 38%nat. by apply (Hgo (S (36 + length text)) ltac:(lia)).
Qed.

End FileLemmas.

(** ** Theorems *)

Module ConfigTheorems.
Import Line LineLemmas CProConfigStream CProConfigFile TextLemmas NumberLemmas StoreSpec StoreLemmas FileLemmas.

Definition opFits (o : op) : Prop := match o with OAdd n v => fits (mkItem n v) | _ => True end.

Lemma Forall_log ops : forall log, Forall opFits ops -> Forall fits log -> Forall fits (fold_left logStep ops log).
Proof.
  induction ops as [|o ops IH]; intros log Ho Hl; [done|]. apply Forall_cons in Ho as [Ho Hos]. apply IH; [done|].
  destruct o; cbn.
  - apply Forall_app. split; [done|]. by constructor.
  - apply Forall_forall. intros c [_ Hc]%list_elem_of_filter. rewrite Forall_forall in Hl. by apply Hl.
  - constructor.
Qed.

Lemma Forall_grouped (P : item -> Prop) log : Forall P log -> Forall P (grouped log).
Proof.
  intros H. unfold grouped. apply Forall_concat, Forall_fmap, Forall_forall. intros n _. cbn.
  apply Forall_forall. intros c [_ Hc]%list_elem_of_filter. rewrite Forall_forall in H. by apply H.
Qed.


(** [a=1], [b=2], [a=3] and a [c] that goes again. *)
Definition demoOps : list op := [OAdd [97] [49]; OAdd [99] [57]; OAdd [98] [50]; OAdd [97] [51]; ORemove [99]].


(** C35: Whatever the bytes, parsing a text ends, reads nothing outside of it, and gives
    well-formed items only: no quote and no end of a line in a name or a value, before an
    error as well.  Hence what was parsed can be printed and parsed again unchanged. *)
Theorem parse_wellformed buf : bytes buf ->
  exists ret configs, StringToConfigs buf = Some (ret, configs) /\ Forall cleanItem configs /\
    StringToConfigs (ConfigsToString configs) = Some (true, configs).
Proof.
  intros Hb. assert (H : exists ret configs, StringToConfigs buf = Some (ret, configs) /\ Forall cleanItem configs).
  { unfold StringToConfigs, BufToConfigs. destruct buf as [|b buf]; [by do 2 eexists|].
    apply parseLines_total; [lia|done|constructor]. }
  destruct H as (ret & configs & E & Hc). exists ret, configs. split_and!; [done..|]. by apply print_parse.
Qed.

(** A comment, a value with spaces, CR LF, and a corrupt last line. *)
Definition demoText : str := [35; 120; 10; 34; 97; 34; 9; 34; 32; 98; 34; 13; 10; 34; 99].
Lemma parse_wellformed_witness : bytes demoText /\
  StringToConfigs demoText = Some (false, [mkItem [97] [32; 98]]) /\
  exists ret configs, StringToConfigs demoText = Some (ret, configs) /\ Forall cleanItem configs.
Proof.
  assert (H : bytes demoText) by (repeat constructor; lia). split; [exact H|]. split; [reflexivity|].
  destruct (parse_wellformed demoText H) as (ret & configs & E & Hc & _). exists ret, configs. split; [exact E|exact Hc].
Defined.

(** A text that starts with the UTF-8 BOM is refused. *)
Lemma bom_refused : StringToConfigs [239; 187; 191; 34; 97; 34; 34; 98; 34; 10] = Some (false, []).
Proof. reflexivity. Qed.

(** A quote in a value: what is printed does not parse. *)
Lemma quote_not_escaped : StringToConfigs (ConfigsToString [mkItem [97] [34]]) = Some (false, []).
Proof. reflexivity. Qed.

End ConfigTheorems.
