(* ===== verification/MsgUser.v ===== *)
(** * Message users ([RTP_MSG_USER] of [rtp_foundation.h], their texts in [rtp_foundation.cpp])

    A user of the message server is a class, a 40-bit id kept in five bytes, and an
    instance.  Users are compared field by field, are sent as eight bytes, and have a text
    of three decimal numbers.  [unsigned int] has 32 bits; [None] is undefined behaviour (a
    number that does not fit its [sscanf] format). *)

From S2P Require Import Prelude StlMap Bytes Bsd ConfigStream.

(** [RTP_MSG_USER] *)
Record RTP_MSG_USER := mkUser {
  classId : Z;
  userId1 : Z;
  userId2 : Z;
  userId3 : Z;
  userId4 : Z;
  userId5 : Z;
  instId : Z
}.
#[export] Instance user_eq_dec : EqDecision RTP_MSG_USER.
Proof. solve_decision. Defined.

Module MsgUser.

(** [UserId()] *)
Definition UserId (u : RTP_MSG_USER) : Z :=
  let id := userId1 u in
  let id := Z.lor (u64 (Z.shiftl id 8)) (userId2 u) in
  let id := Z.lor (u64 (Z.shiftl id 8)) (userId3 u) in
  let id := Z.lor (u64 (Z.shiftl id 8)) (userId4 u) in
  Z.lor (u64 (Z.shiftl id 8)) (userId5 u).

(** [UserId(userId)] *)
Definition setUserId (id : Z) (u : RTP_MSG_USER) : RTP_MSG_USER :=
  mkUser (classId u) (u8 (Z.shiftr id 32)) (u8 (Z.shiftr id 24)) (u8 (Z.shiftr id 16)) (u8 (Z.shiftr id 8)) (u8 id)
    (instId u).
Definition setInstId (inst : Z) (u : RTP_MSG_USER) : RTP_MSG_USER :=
  mkUser (classId u) (userId1 u) (userId2 u) (userId3 u) (userId4 u) (userId5 u) inst.

(** The constructors. *)
Definition Zero : RTP_MSG_USER := mkUser 0 0 0 0 0 0 0.
Definition make (cid uid iid : Z) : RTP_MSG_USER := setUserId uid (mkUser cid 0 0 0 0 0 iid).

Definition IsRoot (u : RTP_MSG_USER) : bool := (classId u =? 1) && (UserId u =? 1).

(** [operator==] *)
Definition eqb (a b : RTP_MSG_USER) : bool :=
  (classId a =? classId b) && (userId1 a =? userId1 b) && (userId2 a =? userId2 b) && (userId3 a =? userId3 b) &&
  (userId4 a =? userId4 b) && (userId5 a =? userId5 b) && (instId a =? instId b).

(** [operator<] *)
Definition less (a b : RTP_MSG_USER) : bool :=
  if classId a <? classId b then true else if classId a >? classId b then false else
  if userId1 a <? userId1 b then true else if userId1 a >? userId1 b then false else
  if userId2 a <? userId2 b then true else if userId2 a >? userId2 b then false else
  if userId3 a <? userId3 b then true else if userId3 a >? userId3 b then false else
  if userId4 a <? userId4 b then true else if userId4 a >? userId4 b then false else
  if userId5 a <? userId5 b then true else if userId5 a >? userId5 b then false else
  if instId a <? instId b then true else false.

Definition DASH : Z := 45.

(** [RtpMsgUser2String] *)
Definition RtpMsgUser2String (u : RTP_MSG_USER) : str :=
  CProConfigStream.decimal (classId u) ++ [DASH] ++ CProConfigStream.decimal (UserId u) ++ [DASH] ++
  CProConfigStream.decimal (instId u).

(** The text before the first dash and the text after it. *)
Fixpoint splitDash (s : str) : option (str * str) :=
  match s with
  | [] => None
  | b :: s => if b =? DASH then Some ([], s) else '(l, r) ← splitDash s; Some (b :: l, r)
  end.

(** The three numbers' texts. *)
Definition fields (s : str) : str * str * str :=
  match splitDash s with
  | None => ([], [], [])
  | Some (cid, rest) =>
      match splitDash rest with
      | Some (uid, iid) => (cid, uid, iid)
      | None => (cid, rest, [48])
      end
  end.

(** [find_first_not_of("0123456789") == npos] *)
Definition allDigits (s : str) : bool := forallb CProConfigStream.isDigit s.

(** [RtpMsgString2User] *)
Definition RtpMsgString2User (idString : str) : option RTP_MSG_USER :=
  let '(cid, uid, iid) := fields (cstr idString) in
  match cid, uid, iid with
  | [], _, _ | _, [], _ | _, _, [] => Some Zero
  | _, _, _ =>
      if negb (allDigits cid) || negb (allDigits uid) || negb (allDigits iid) then Some Zero else
      cid ← CProConfigStream.toNumber false 32 cid;
      uid ← CProConfigStream.toNumber false 64 uid;
      iid ← CProConfigStream.toNumber false 32 iid;
      if (cid <=? 255) && (uid <=? Z.lor (Z.shiftl 255 32) 4294967295) && (iid <=? 65535)
      then Some (make (u8 cid) uid (u16 iid)) else Some Zero
  end.

(** The eight bytes of a user in a message: [instId] in network order *)
Definition bytesOf (u : RTP_MSG_USER) : list Z :=
  [classId u; userId1 u; userId2 u; userId3 u; userId4 u; userId5 u] ++ le_bytes 2 (pbsd_hton16 (instId u)).
Definition ofBytes (off : Z) (m : list Z) : RTP_MSG_USER :=
  mkUser (load 1 off m) (load 1 (off + 1) m) (load 1 (off + 2) m) (load 1 (off + 3) m) (load 1 (off + 4) m)
    (load 1 (off + 5) m) (pbsd_ntoh16 (load 2 (off + 6) m)).

End MsgUser.

#[export] Instance user_stl_less : StlLess RTP_MSG_USER := MsgUser.less.

Module MsgUserLemmas.
Import MsgUser LineLemmas.

(** A user as its fields hold it. *)
Record wf (u : RTP_MSG_USER) : Prop := mkWf {
  wf_class : 0 <= classId u < 256;
  wf_id : is_bytes [userId1 u; userId2 u; userId3 u; userId4 u; userId5 u];
  wf_inst : 0 <= instId u < 2 ^ 16
}.

Definition key (u : RTP_MSG_USER) : str :=
  [classId u; userId1 u; userId2 u; userId3 u; userId4 u; userId5 u; instId u].

Lemma less_key a b : less a b = str_less (key a) (key b).
Proof.
  unfold less, key. cbn [str_less]. rewrite !Z.gtb_ltb.
  repeat match goal with |- context [if ?c then _ else _] => destruct c; [done|] end. done.
Qed.

Lemma key_inj a b : key a = key b -> a = b.
Proof. destruct a, b. unfold key. cbn. congruence. Qed.

#[export] Instance user_stl_order : StlOrder RTP_MSG_USER.
Proof.
  split; unfold stl_less, user_stl_less; intros *; rewrite !less_key.
  - apply (stl_less_irrefl (K := str)).
  - apply (stl_less_trans (K := str)).
  - intros H1 H2. by apply key_inj, (stl_less_total (K := str)).
Qed.

Lemma eqb_spec a b : eqb a b = true <-> a = b.
Proof.
  unfold eqb. rewrite !andb_true_iff, !Z.eqb_eq. destruct a, b; cbn. split; [|by intros [=]].
  intros [[[[[[? ?] ?] ?] ?] ?] ?]. congruence.
Qed.

Lemma UserId_value u : wf u ->
  UserId u = userId1 u * 2 ^ 32 + userId2 u * 2 ^ 24 + userId3 u * 2 ^ 16 + userId4 u * 2 ^ 8 + userId5 u.
Proof.
  intros [_ H _]. repeat (apply Forall_cons in H as [? H]). unfold is_byte in *. unfold UserId.
  assert (Hs : forall x y, 0 <= x < 2 ^ 48 -> 0 <= y < 256 -> Z.lor (u64 (Z.shiftl x 8)) y = x * 256 + y).
  { intros x y Hx Hy. rewrite wrap_small by (rewrite Z.shiftl_mul_pow2 by lia; lia). by rewrite lor_shiftl_add by lia. }
  rewrite (Hs (userId1 u)) by lia. rewrite (Hs (userId1 u * 256 + userId2 u)) by lia.
  rewrite (Hs ((userId1 u * 256 + userId2 u) * 256 + userId3 u)) by lia. rewrite Hs by lia. lia.
Qed.

Lemma setUserId_wf id u : wf u -> wf (setUserId id u).
Proof.
  intros [H1 H2 H3]. split; [done| |done]. repeat constructor; apply (wrap_range 8); lia.
Qed.

Lemma UserId_set id u : wf u -> 0 <= id < 2 ^ 40 -> UserId (setUserId id u) = id.
Proof.
  intros H Hid. rewrite UserId_value by (by apply setUserId_wf). unfold setUserId. cbn [userId1 userId2 userId3 userId4 userId5].
  rewrite !Z.shiftr_div_pow2 by lia. unfold wrap. Z.div_mod_to_equations. lia.
Qed.

Lemma UserId_range u : wf u -> 0 <= UserId u < 2 ^ 40.
Proof.
  intros H. rewrite UserId_value by done. destruct H as [_ H _]. repeat (apply Forall_cons in H as [? H]). unfold is_byte in *. lia.
Qed.

Lemma set_UserId u : wf u -> make (classId u) (UserId u) (instId u) = u.
Proof.
  intros H. pose proof (UserId_value u H) as E. destruct H as [_ H _]. repeat (apply Forall_cons in H as [? H]). unfold is_byte in *.
  unfold make, setUserId. cbn [classId instId]. rewrite E, !Z.shiftr_div_pow2 by lia. unfold wrap.
  destruct u; cbn in *. f_equal; Z.div_mod_to_equations; lia.
Qed.

(** *** Texts *)

Lemma decimal_digits n : 0 <= n < 2 ^ 64 ->
  exists b d, CProConfigStream.decimal n = b :: d /\ Forall (fun b => CProConfigStream.isDigit b = true) (b :: d).
Proof.
  intros Hn. unfold CProConfigStream.decimal. rewrite (proj2 (Z.ltb_ge n 0)) by lia.
  assert (H20 : 2 ^ 64 < 10 ^ Z.of_nat 20) by done.
  destruct (NumberLemmas.digits_value 20 n) as [H _]; [lia|].
  destruct (CProConfigStream.digits 20 n) as [|b d] eqn:E; [|exists b, d; split; [reflexivity|exact H]].
  exfalso. revert E. cbn [CProConfigStream.digits]. by destruct (if n <? 10 then _ else _).
Qed.

Lemma isDigit_range b : CProConfigStream.isDigit b = true -> 48 <= b <= 57.
Proof. unfold CProConfigStream.isDigit. lia. Qed.

Lemma splitDash_digits d r : Forall (fun b => CProConfigStream.isDigit b = true) d -> splitDash (d ++ DASH :: r) = Some (d, r).
Proof.
  induction 1 as [|b d Hb _ IH]; [done|]. cbn [app splitDash]. apply isDigit_range in Hb. unfold DASH in *.
  destruct (Z.eqb_spec b 45); [lia|]. by rewrite IH.
Qed.

Lemma allDigits_true d : Forall (fun b => CProConfigStream.isDigit b = true) d -> allDigits d = true.
Proof. intros H. apply forallb_forall. intros b Hb. rewrite Forall_forall in H. by apply H, list_elem_of_In. Qed.

(** What is printed for a user is read as that user. *)
Lemma user_text u : wf u -> RtpMsgString2User (RtpMsgUser2String u) = Some u.
Proof.
  intros H. pose proof (UserId_range u H) as Hu. pose proof H as [Hc _ Hi].
  unfold RtpMsgString2User, RtpMsgUser2String.
  destruct (decimal_digits (classId u)) as (c & cd & Ec & Hcd); [lia|].
  destruct (decimal_digits (UserId u)) as (d & ud & Eu & Hud); [lia|].
  destruct (decimal_digits (instId u)) as (i & id & Ei & Hid); [lia|].
  pose proof (NumberLemmas.toNumber_decimal false 32 (classId u) ltac:(lia) ltac:(cbn iota; lia)) as Nc.
  pose proof (NumberLemmas.toNumber_decimal false 64 (UserId u) ltac:(lia) ltac:(cbn iota; lia)) as Nu.
  pose proof (NumberLemmas.toNumber_decimal false 32 (instId u) ltac:(lia) ltac:(cbn iota; lia)) as Ni.
  rewrite Ec, Eu, Ei in *.
  assert (Hz : forall l, Forall (fun b => CProConfigStream.isDigit b = true) l -> Forall (fun b => b <> 0) l).
  { intros l Hl. eapply Forall_impl; [exact Hl|]. intros b Hb%isDigit_range. lia. }
  rewrite FileLemmas.cstr_id.
  2: { apply Forall_app. split; [by apply Hz|]. constructor; [done|]. apply Forall_app. split; [by apply Hz|].
       constructor; [done|]. by apply Hz. }
  unfold fields. change ([DASH] ++ (d :: ud) ++ [DASH] ++ i :: id) with (DASH :: (d :: ud) ++ DASH :: i :: id).
  rewrite !splitDash_digits, !allDigits_true by done. cbn [negb orb]. rewrite Nc, Nu, Ni. cbn [mbind option_bind].
  rewrite !(proj2 (Z.leb_le _ _)) by (change (Z.lor (Z.shiftl 255 32) 4294967295) with 1099511627775; lia).
  cbn [andb]. rewrite !wrap_small by lia. by rewrite set_UserId.
Qed.

(** *** Messages *)

Lemma length_bytesOf u : length (bytesOf u) = 8%nat.
Proof. done. Qed.

Lemma bytesOf_is_bytes u : wf u -> is_bytes (bytesOf u).
Proof.
  intros [H1 H2 _]. unfold bytesOf. apply is_bytes_app. split; [|apply le_bytes_is_bytes]. by constructor.
Qed.

Lemma ofBytes_shift pre m off : 0 <= off -> ofBytes (zlen pre + off) (pre ++ m) = ofBytes off m.
Proof.
  intros Ho. unfold ofBytes.
  assert (Hl : forall n k, 0 <= k -> load n (zlen pre + k) (pre ++ m) = load n k m).
  { intros n k Hk. unfold load. rewrite zsub_app_r by lia. by replace (zlen pre + k - zlen pre) with k by lia. }
  rewrite <- !Z.add_assoc, !Hl by lia. done.
Qed.

Lemma ofBytes_bytesOf u post : wf u -> ofBytes 0 (bytesOf u ++ post) = u.
Proof.
  intros [H1 H2 H3]. repeat (apply Forall_cons in H2 as [? H2]). unfold is_byte in *.
  unfold ofBytes, bytesOf. pose proof (hton16_range (instId u)) as Hr.
  assert (E : load 2 (0 + 6) (([classId u; userId1 u; userId2 u; userId3 u; userId4 u; userId5 u] ++ le_bytes 2 (pbsd_hton16 (instId u))) ++ post)
    = pbsd_hton16 (instId u)).
  { rewrite <- app_assoc. change (0 + 6) with (zlen [classId u; userId1 u; userId2 u; userId3 u; userId4 u; userId5 u] + 0).
    set (x := pbsd_hton16 (instId u)) in *. clearbody x. unfold load. rewrite zsub_app_r by lia.
    change (of_le (le_bytes 2 x) = x). rewrite of_le_le_bytes. by apply Z.mod_small. }
  rewrite E, ntoh16_hton16 by done. clear E. generalize (le_bytes 2 (pbsd_hton16 (instId u))). intros w.
  destruct u; cbn [classId userId1 userId2 userId3 userId4 userId5 instId]. f_equal; unfold load;
    match goal with |- of_le _ = ?x => change (x + 256 * 0 = x); lia end.
Qed.

End MsgUserLemmas.
