(* ===== verification/Reactor.v ===== *)
(** * Reactors ([pro_handler_mgr.cpp], [pro_epoll_reactor.cpp], [pro_notify_pipe.cpp])

    [CProHandlerMgr] maps a socket to its handler and mask and owns one reference
    to the handler per socket.  [CProEpollReactor] keeps the kernel's interest
    list in step with that map, and turns the kernel's events into calls of the
    handlers.  The kernel is not part of the program: [EpollKernel] is what the
    reactor calls and [EpollKernelLaws] what epoll(7) documents of it. *)

From S2P Require Import Prelude StlMap RefCount.

(** ** Masks ([pro_event_handler.h]) *)

Definition PRO_MASK_ACCEPT : Z := 1.
Definition PRO_MASK_CONNECT : Z := 2.
Definition PRO_MASK_WRITE : Z := 4.
Definition PRO_MASK_READ : Z := 8.
Definition PRO_MASK_EXCEPTION : Z := 16.
Definition PRO_MASK_ERROR : Z := 32.

Definition PRO_SET_BITS (ulong bits : Z) : Z := Z.lor ulong bits.
Definition PRO_CLR_BITS (ulong bits : Z) : Z := Z.ldiff ulong bits.
Definition PRO_BIT_ENABLED (ulong bit : Z) : bool := negb (Z.land ulong bit =? 0).

(** The five masks a caller may ask for. *)
Definition PRO_MASK_ALL : Z :=
  Z.lor (Z.lor (Z.lor (Z.lor PRO_MASK_ACCEPT PRO_MASK_CONNECT) PRO_MASK_WRITE) PRO_MASK_READ)
    PRO_MASK_EXCEPTION.

Lemma BIT_ENABLED_testbit m k : 0 <= k -> PRO_BIT_ENABLED m (2 ^ k) = Z.testbit m k.
Proof.
  intros Hk. unfold PRO_BIT_ENABLED.
  destruct (Z.testbit m k) eqn:E.
  - apply negb_true_iff, Z.eqb_neq. intros H0.
    assert (Z.testbit (Z.land m (2 ^ k)) k = false) as H1 by (by rewrite H0, Z.bits_0).
    by rewrite Z.land_spec, Z.pow2_bits_true, E in H1.
  - apply negb_false_iff, Z.eqb_eq. apply Z.bits_inj'. intros i Hi.
    rewrite Z.land_spec, Z.bits_0, Z.pow2_bits_eqb by done.
    destruct (Z.eqb_spec k i) as [->|]; [by rewrite E|by rewrite andb_false_r].
Qed.

Lemma BIT_ENABLED_WRITE m : PRO_BIT_ENABLED m PRO_MASK_WRITE = Z.testbit m 2.
Proof. by apply (BIT_ENABLED_testbit m 2). Qed.
Lemma BIT_ENABLED_READ m : PRO_BIT_ENABLED m PRO_MASK_READ = Z.testbit m 3.
Proof. by apply (BIT_ENABLED_testbit m 3). Qed.
Lemma BIT_ENABLED_EXCEPTION m : PRO_BIT_ENABLED m PRO_MASK_EXCEPTION = Z.testbit m 4.
Proof. by apply (BIT_ENABLED_testbit m 4). Qed.
Lemma BIT_ENABLED_ERROR m : PRO_BIT_ENABLED m PRO_MASK_ERROR = Z.testbit m 5.
Proof. by apply (BIT_ENABLED_testbit m 5). Qed.

Module CProHandlerMgr.

Record PRO_HANDLER_INFO := mkInfo { handler : Z; mask : Z }.

(** [m_sockId2HandlerInfo] *)
Definition t := list (Z * PRO_HANDLER_INFO).

(** [CProHandlerMgr::~CProHandlerMgr] *)
Definition Fini (m : t) (rc : gmap Z nat) : option (t * gmap Z nat) :=
  rc' ← ReleaseAll ((fun e : Z * PRO_HANDLER_INFO => handler (snd e)) <$> m) rc;
  Some ([], rc').

(** [CProHandlerMgr::AddHandler] *)
Definition AddHandler (sockId h msk : Z) (m : t) (rc : gmap Z nat)
    : option (bool * t * gmap Z nat) :=
  if (sockId =? -1) || (h =? NULL) || (msk =? 0) then Some (false, m, rc) else
  match stl_find sockId m with
  | None =>
      rc' ← AddRef h rc;
      Some (true, stl_assign (sockId, mkInfo h msk) m, rc')
  | Some (_, info) =>
      if h =? handler info
      then Some (true, stl_assign (sockId, mkInfo h (PRO_SET_BITS (mask info) msk)) m, rc)
      else Some (false, m, rc)
  end.

(** [CProHandlerMgr::RemoveHandler] *)
Definition RemoveHandler (sockId msk : Z) (m : t) (rc : gmap Z nat)
    : option (t * gmap Z nat) :=
  if (sockId =? -1) || (msk =? 0) then Some (m, rc) else
  match stl_find sockId m with
  | None => Some (m, rc)
  | Some (_, info) =>
      let mask' := PRO_CLR_BITS (mask info) msk in
      if mask' =? 0
      then rc' ← Release (handler info) rc; Some (stl_erase sockId m, rc')
      else Some (stl_assign (sockId, mkInfo (handler info) mask') m, rc)
  end.

(** [CProHandlerMgr::GetMaxSockId] *)
Definition GetMaxSockId (m : t) : Z :=
  match last m with Some e => fst e | None => -1 end.

(** [CProHandlerMgr::GetHandlerCount] *)
Definition GetHandlerCount (m : t) : Z := Z.of_nat (length m).

(** [CProHandlerMgr::FindHandler]; a default [PRO_HANDLER_INFO] when absent *)
Definition FindHandler (sockId : Z) (m : t) : PRO_HANDLER_INFO :=
  if sockId =? -1 then mkInfo NULL 0 else
  match stl_find sockId m with
  | Some (_, info) => info
  | None => mkInfo NULL 0
  end.

(** ** Invariant: sorted, real handlers, non-empty masks, one reference each *)

Definition handlers (m : t) : list Z := (fun e : Z * PRO_HANDLER_INFO => handler (snd e)) <$> m.

Definition entry_ok (e : Z * PRO_HANDLER_INFO) : Prop :=
  fst e <> -1 /\ handler (snd e) <> NULL /\ mask (snd e) <> 0.

Record wf (m : t) : Prop := mkWf {
  wf_sorted : stl_sorted m;
  wf_entries : Forall entry_ok m
}.

Lemma wf_find m s i : wf m -> stl_find s m = Some (s, i) -> entry_ok (s, i).
Proof.
  intros [_ Hf] Hs. apply stl_find_Some_elem in Hs as [Hin _].
  by apply (proj1 (Forall_forall _ _) Hf) in Hin.
Qed.

Lemma wf_assign m s h msk :
  wf m -> s <> -1 -> h <> NULL -> msk <> 0 -> wf (stl_assign (s, mkInfo h msk) m).
Proof.
  intros [Hs Hf] ? ? ?. split; [by apply stl_sorted_assign|].
  apply Forall_forall. intros x [->|Hx]%stl_elem_assign; [done|].
  by apply (proj1 (Forall_forall _ _) Hf) in Hx.
Qed.

Lemma wf_erase m s : wf m -> wf (stl_erase s m).
Proof.
  intros [Hs Hf]. split; [by apply stl_sorted_erase|].
  apply Forall_forall. intros x Hx%stl_elem_erase.
  by apply (proj1 (Forall_forall _ _) Hf) in Hx.
Qed.

Lemma handlers_fresh m s h msk :
  stl_find s m = None -> handlers (stl_assign (s, mkInfo h msk) m) ≡ₚ h :: handlers m.
Proof.
  intros Hf. unfold handlers. rewrite stl_assign_fresh by done.
  by rewrite (stl_insert_Permutation (s, mkInfo h msk)) by done.
Qed.

Lemma handlers_erase m s i :
  stl_find s m = Some (s, i) -> handlers m ≡ₚ handler i :: handlers (stl_erase s m).
Proof. intros Hf. unfold handlers. by rewrite (stl_erase_Permutation s m (s, i)) at 1. Qed.

Lemma handlers_update m s i msk :
  stl_sorted m -> stl_find s m = Some (s, i) ->
  handlers (stl_assign (s, mkInfo (handler i) msk) m) ≡ₚ handlers m.
Proof.
  intros Hs Hf. unfold handlers.
  rewrite (stl_assign_Permutation (s, mkInfo (handler i) msk) m (s, i)) by done. cbn.
  change (stl_key (s, mkInfo (handler i) msk)) with s. symmetry. by apply handlers_erase.
Qed.

Definition oldMask (s : Z) (m : t) : Z :=
  match stl_find s m with Some (_, i) => mask i | None => 0 end.

Lemma mgr_AddHandler_ok ext m rc s h msk :
  wf m -> rc_ok ext (handlers m) rc -> (0 < ext h + occ h (handlers m))%nat ->
  exists b m' rc', AddHandler s h msk m rc = Some (b, m', rc') /\
    wf m' /\ rc_ok ext (handlers m') rc' /\
    (if b then
       s <> -1 /\ h <> NULL /\ msk <> 0 /\
       stl_find s m' = Some (s, mkInfo h (Z.lor (oldMask s m) msk)) /\
       forall s', s' <> s -> stl_find s' m' = stl_find s' m
     else m' = m /\ rc' = rc /\
       (s = -1 \/ h = NULL \/ msk = 0 \/
        exists i, stl_find s m = Some (s, i) /\ handler i <> h)).
Proof.
  intros Hwf Hrc Hal. unfold AddHandler, oldMask.
  destruct (Z.eqb_spec s (-1)); [do 3 eexists; split; [done|]; naive_solver|].
  destruct (Z.eqb_spec h NULL); [do 3 eexists; split; [done|]; naive_solver|].
  destruct (Z.eqb_spec msk 0); [do 3 eexists; split; [done|]; naive_solver|]. cbn [orb].
  destruct (stl_find s m) as [e|] eqn:Hf.
  - destruct (stl_find_pair s m e Hf) as [i ->]. pose proof (wf_find m s i Hwf Hf) as (? & ? & ?).
    cbn in *. destruct (Z.eqb_spec h (handler i)) as [->|].
    + do 3 eexists; split; [done|]. split; [|split].
      * apply wf_assign; try done. unfold PRO_SET_BITS. rewrite Z.lor_eq_0_iff. tauto.
      * eapply rc_ok_perm; [|exact Hrc]. symmetry. apply handlers_update; [apply Hwf|done].
      * split_and!; try done; [apply stl_find_assign_pair|].
        intros s' Hs. by rewrite stl_find_assign_ne.
    + do 3 eexists; split; [done|]. naive_solver.
  - destruct (AddRef_ok _ _ _ h Hrc Hal) as (rc' & -> & Hrc'). cbn.
    do 3 eexists; split; [done|]. split; [by apply wf_assign|]. split.
    + eapply rc_ok_perm; [|exact Hrc']. symmetry. by apply handlers_fresh.
    + split_and!; try done; [apply stl_find_assign_pair|].
      intros s' Hs. by rewrite stl_find_assign_ne.
Qed.

Lemma mgr_RemoveHandler_ok ext m rc s msk :
  wf m -> rc_ok ext (handlers m) rc ->
  exists m' rc', RemoveHandler s msk m rc = Some (m', rc') /\
    wf m' /\ rc_ok ext (handlers m') rc' /\
    (forall s', s' <> s -> stl_find s' m' = stl_find s' m) /\
    (s <> -1 ->
     stl_find s m' =
       match stl_find s m with
       | Some (_, i) =>
           if Z.ldiff (mask i) msk =? 0 then None
           else Some (s, mkInfo (handler i) (Z.ldiff (mask i) msk))
       | None => None
       end).
Proof.
  intros Hwf Hrc. unfold RemoveHandler.
  destruct (Z.eqb_spec s (-1)); [do 2 eexists; split; [done|]; naive_solver|].
  destruct (Z.eqb_spec msk 0) as [->|].
  { do 2 eexists; split; [done|]. split_and!; try done. intros _.
    destruct (stl_find s m) as [e|] eqn:Hf; [|done].
    destruct (stl_find_pair s m e Hf) as [[h k] ->]. rewrite Z.ldiff_0_r.
    destruct (wf_find _ _ _ Hwf Hf) as (_ & _ & Hm). cbn in *.
    by destruct (Z.eqb_spec k 0). }
  cbn [orb]. destruct (stl_find s m) as [e|] eqn:Hf.
  - destruct (stl_find_pair s m e Hf) as [i ->]. pose proof (wf_find m s i Hwf Hf) as (? & ? & ?).
    unfold PRO_CLR_BITS. cbn in *. destruct (Z.eqb_spec (Z.ldiff (mask i) msk) 0).
    + destruct (Release_ok ext (handlers (stl_erase s m)) rc (handler i)) as (rc' & -> & Hrc').
      { eapply rc_ok_perm; [|exact Hrc]. by apply handlers_erase. }
      cbn. do 2 eexists; split; [done|]. split_and!; [by apply wf_erase|done|..].
      * intros s' Hs. by rewrite stl_find_erase_ne.
      * intros _. apply stl_find_erase_eq, Hwf.
    + do 2 eexists; split; [done|]. split_and!; [by apply wf_assign|..].
      * eapply rc_ok_perm; [|exact Hrc]. symmetry. apply handlers_update; [apply Hwf|done].
      * intros s' Hs. by rewrite stl_find_assign_ne.
      * intros _. apply stl_find_assign_pair.
  - do 2 eexists; split; [done|]. naive_solver.
Qed.

Lemma Fini_ok ext m rc :
  rc_ok ext (handlers m) rc -> exists rc', Fini m rc = Some ([], rc') /\ rc_ok ext [] rc'.
Proof.
  intros Hrc. unfold Fini. destruct (ReleaseAll_ok ext (handlers m) [] rc) as (rc' & H & ?).
  { by rewrite app_nil_r. }
  unfold handlers in H. rewrite H. cbn. eauto.
Qed.

End CProHandlerMgr.
Import CProHandlerMgr.

(** ** The wake-up pipe of a reactor ([pro_notify_pipe.cpp]) *)

Module CProNotifyPipe.

Record t := mkPipe {
  m_sockIds : Z * Z;        (* reader, writer *)
  m_enableNotify : bool;
  m_notifyTick : Z
}.

(** [CProNotifyPipe::CProNotifyPipe] *)
Definition init : t := mkPipe (-1, -1) true 0.

(** [CProNotifyPipe::Init]; [pair] is the result of [pbsd_socketpair] *)
Definition Init (pair : option (Z * Z)) (p : t) : t :=
  if negb (fst (m_sockIds p) =? -1) || negb (snd (m_sockIds p) =? -1) then p else
  match pair with
  | Some s => mkPipe s (m_enableNotify p) (m_notifyTick p)
  | None => p
  end.

(** [CProNotifyPipe::Fini] *)
Definition Fini (p : t) : t := init.

(** [CProNotifyPipe::GetReaderSockId], [GetWriterSockId] *)
Definition GetReaderSockId (p : t) : Z := fst (m_sockIds p).
Definition GetWriterSockId (p : t) : Z := snd (m_sockIds p).

(** [CProNotifyPipe::EnableNotify] *)
Definition EnableNotify (p : t) : t := mkPipe (m_sockIds p) true 0.

(** [CProNotifyPipe::Notify]: [clock] is [ProGetTickCount64()] and [sent] the
    result of [pbsd_send]; the flag says whether [send] was called. *)
Definition Notify (clock sent : Z) (p : t) : bool * t :=
  if GetWriterSockId p =? -1 then (false, p) else
  let tick := if m_enableNotify p then 0 else clock in
  if negb (m_enableNotify p) && (tick <=? m_notifyTick p) then (false, p) else
  if sent >? 0
  then (true, mkPipe (m_sockIds p) false (if tick >? 0 then tick else clock))
  else (true, p).

End CProNotifyPipe.

(** ** The kernel's interest list, epoll(7) *)

(** [EPOLLIN], [EPOLLPRI], [EPOLLOUT], [EPOLLERR], [EPOLLHUP] of Linux, under the
    names [pro_epoll_reactor.cpp] gives them. *)
Definition PRO_EPOLLIN_SET : Z := 1.
Definition PRO_EPOLLEX_SET : Z := 2.
Definition PRO_EPOLLOUT_SET : Z := 4.
Definition PRO_EPOLLERR : Z := 8.
Definition PRO_EPOLLHUP : Z := 16.

(** [epoll_ctl] with its three operations; [true] is the result 0. *)
Class EpollKernel (K : Type) := {
  EPOLL_CTL_ADD : Z -> Z -> K -> bool * K;
  EPOLL_CTL_MOD : Z -> Z -> K -> bool * K;
  EPOLL_CTL_DEL : Z -> K -> bool * K
}.

(** What epoll_ctl(2) says: ADD is for a descriptor that is not registered and may
    run out of resources; MOD and DEL succeed on registered descriptors; a failed
    call changes nothing. *)
Class EpollKernelLaws (K : Type) `{EpollKernel K} := {
  interest : K -> gmap Z Z;
  ctl_add_ok fd ev k k' : EPOLL_CTL_ADD fd ev k = (true, k') ->
    interest k !! fd = None /\ interest k' = <[fd := ev]> (interest k);
  ctl_add_fail fd ev k k' : EPOLL_CTL_ADD fd ev k = (false, k') -> interest k' = interest k;
  ctl_mod_registered fd ev k : is_Some (interest k !! fd) ->
    exists k', EPOLL_CTL_MOD fd ev k = (true, k') /\ interest k' = <[fd := ev]> (interest k);
  ctl_del_registered fd k : is_Some (interest k !! fd) ->
    exists k', EPOLL_CTL_DEL fd k = (true, k') /\ interest k' = delete fd (interest k)
}.

(** A kernel with room for [max] descriptors, for concrete runs. *)
Record bounded_kernel := mkKernel { bk_max : nat; bk_interest : gmap Z Z }.

#[export] Instance bounded_epoll : EpollKernel bounded_kernel := {|
  EPOLL_CTL_ADD fd ev k :=
    if decide (bk_interest k !! fd = None /\ (size (bk_interest k) < bk_max k)%nat)
    then (true, mkKernel (bk_max k) (<[fd := ev]> (bk_interest k))) else (false, k);
  EPOLL_CTL_MOD fd ev k :=
    if decide (is_Some (bk_interest k !! fd))
    then (true, mkKernel (bk_max k) (<[fd := ev]> (bk_interest k))) else (false, k);
  EPOLL_CTL_DEL fd k :=
    if decide (is_Some (bk_interest k !! fd))
    then (true, mkKernel (bk_max k) (delete fd (bk_interest k))) else (false, k)
|}.

#[export] Program Instance bounded_epoll_laws : EpollKernelLaws bounded_kernel :=
  {| interest := bk_interest |}.
Next Obligation. cbn. intros fd ev k k'. case_decide; naive_solver. Qed.
Next Obligation. cbn. intros fd ev k k'. case_decide; naive_solver. Qed.
Next Obligation. cbn. intros fd ev k Hs. rewrite decide_True by done. eauto. Qed.
Next Obligation. cbn. intros fd k Hs. rewrite decide_True by done. eauto. Qed.

Module CProEpollReactor.

Section reactor.
Context {K : Type} `{EpollKernel K}.

Record t := mkReactor {
  m_epfd : Z;
  m_wantExit : bool;
  m_notifyPipe : CProNotifyPipe.t;
  m_handlerMgr : CProHandlerMgr.t;
  m_kernel : K              (* what [m_epfd] denotes *)
}.

(** What one call reads of its surroundings: whether the caller is another
    thread than the worker, the clock, and what [send] on the pipe returns. *)
Record env := mkEnv { otherThread : bool; clock : Z; sent : Z }.

Definition notify (e : env) (r : t) : t :=
  mkReactor (m_epfd r) (m_wantExit r)
    (snd (CProNotifyPipe.Notify (clock e) (sent e) (m_notifyPipe r)))
    (m_handlerMgr r) (m_kernel r).

Definition setMgr (m : CProHandlerMgr.t) (k : K) (r : t) : t :=
  mkReactor (m_epfd r) (m_wantExit r) (m_notifyPipe r) m k.

(** The rewriting of [PRO_MASK_ACCEPT] and [PRO_MASK_CONNECT] that [AddHandler]
    and [RemoveHandler] begin with. *)
Definition normMask (mask : Z) : Z :=
  let mask :=
    if PRO_BIT_ENABLED mask PRO_MASK_ACCEPT
    then PRO_SET_BITS (PRO_CLR_BITS mask PRO_MASK_ACCEPT) PRO_MASK_READ else mask in
  if PRO_BIT_ENABLED mask PRO_MASK_CONNECT
  then PRO_SET_BITS (PRO_CLR_BITS mask PRO_MASK_CONNECT)
         (Z.lor (Z.lor PRO_MASK_WRITE PRO_MASK_READ) PRO_MASK_EXCEPTION)
  else mask.

(** The three conditionals that add a mask's events to [ev], and those that
    take them away. *)
Definition addEvents (mask ev : Z) : Z :=
  let ev := if PRO_BIT_ENABLED mask PRO_MASK_WRITE then Z.lor ev PRO_EPOLLOUT_SET else ev in
  let ev := if PRO_BIT_ENABLED mask PRO_MASK_READ then Z.lor ev PRO_EPOLLIN_SET else ev in
  if PRO_BIT_ENABLED mask PRO_MASK_EXCEPTION then Z.lor ev PRO_EPOLLEX_SET else ev.

Definition clrEvents (mask ev : Z) : Z :=
  let ev := if PRO_BIT_ENABLED mask PRO_MASK_WRITE then Z.ldiff ev PRO_EPOLLOUT_SET else ev in
  let ev := if PRO_BIT_ENABLED mask PRO_MASK_READ then Z.ldiff ev PRO_EPOLLIN_SET else ev in
  if PRO_BIT_ENABLED mask PRO_MASK_EXCEPTION then Z.ldiff ev PRO_EPOLLEX_SET else ev.

(** [CProEpollReactor::AddHandler] *)
Definition AddHandler (e : env) (sockId h mask : Z) (r : t) (rc : gmap Z nat)
    : option (bool * t * gmap Z nat) :=
  let mask := Z.land mask PRO_MASK_ALL in
  if (sockId =? -1) || (h =? NULL) || (mask =? 0) then Some (false, r, rc) else
  let mask := normMask mask in
  if (m_epfd r =? -1) || m_wantExit r then Some (false, r, rc) else
  let oldInfo := FindHandler sockId (m_handlerMgr r) in
  if negb (handler oldInfo =? NULL) && negb (h =? handler oldInfo) then Some (false, r, rc) else
  let mask := Z.ldiff mask (CProHandlerMgr.mask oldInfo) in
  if mask =? 0 then Some (true, r, rc) else
  let oldEvents := addEvents (CProHandlerMgr.mask oldInfo) 0 in
  let events := addEvents mask oldEvents in
  let '(ok, k) := if oldEvents =? 0 then EPOLL_CTL_ADD sockId events (m_kernel r)
                  else EPOLL_CTL_MOD sockId events (m_kernel r) in
  if negb ok then Some (false, setMgr (m_handlerMgr r) k r, rc) else
  '(added, m, rc) ← CProHandlerMgr.AddHandler sockId h mask (m_handlerMgr r) rc;
  if negb added then
    let k := snd (if oldEvents =? 0 then EPOLL_CTL_DEL sockId k
                  else EPOLL_CTL_MOD sockId oldEvents k) in
    Some (false, setMgr m k r, rc)
  else
    let r := setMgr m k r in
    Some (true, if otherThread e then notify e r else r, rc).

(** [CProEpollReactor::RemoveHandler] *)
Definition RemoveHandler (e : env) (sockId mask : Z) (r : t) (rc : gmap Z nat)
    : option (t * gmap Z nat) :=
  let mask := Z.land mask PRO_MASK_ALL in
  if (sockId =? -1) || (mask =? 0) then Some (r, rc) else
  let mask := normMask mask in
  if m_epfd r =? -1 then Some (r, rc) else
  let oldInfo := FindHandler sockId (m_handlerMgr r) in
  if handler oldInfo =? NULL then Some (r, rc) else
  let mask := Z.land mask (CProHandlerMgr.mask oldInfo) in
  if mask =? 0 then Some (r, rc) else
  let oldEvents := addEvents (CProHandlerMgr.mask oldInfo) 0 in
  let events := clrEvents mask oldEvents in
  let k := snd (if events =? 0 then EPOLL_CTL_DEL sockId (m_kernel r)
                else EPOLL_CTL_MOD sockId events (m_kernel r)) in
  '(m, rc) ← CProHandlerMgr.RemoveHandler sockId mask (m_handlerMgr r) rc;
  let r := setMgr m k r in
  Some (if otherThread e then notify e r else r, rc).

(** [CProEpollReactor::Fini] *)
Definition Fini (e : env) (r : t) : t :=
  if m_epfd r =? -1 then r else
  notify e (mkReactor (m_epfd r) true (m_notifyPipe r) (m_handlerMgr r) (m_kernel r)).

End reactor.
End CProEpollReactor.

(** ** The interest list mirrors the map *)

(** A mask of registered bits only. *)
Definition submask (m : Z) : Prop := Z.ldiff m 28 = 0.

Lemma submask_bit m i : submask m -> 0 <= i -> i <> 2 -> i <> 3 -> i <> 4 -> Z.testbit m i = false.
Proof.
  intros Hm Hi H2 H3 H4.
  assert (Z.testbit (Z.ldiff m 28) i = false) as H by (by rewrite Hm, Z.bits_0).
  rewrite Z.ldiff_spec in H. apply andb_false_iff in H as [H|H]; [done|].
  apply negb_false_iff in H. exfalso.
  destruct (decide (i < 5)) as [Hlt|Hge].
  - assert (i = 0 \/ i = 1) as [-> | ->] by lia; done.
  - rewrite Z.bits_above_log2 in H; [done|lia|]. change (Z.log2 28) with 4. lia.
Qed.

Lemma submask_zero m :
  submask m -> Z.testbit m 2 = false -> Z.testbit m 3 = false -> Z.testbit m 4 = false -> m = 0.
Proof.
  intros Hm H2 H3 H4. apply Z.bits_inj'. intros i Hi. rewrite Z.bits_0.
  destruct (decide (i = 2)) as [->|]; [done|]. destruct (decide (i = 3)) as [->|]; [done|].
  destruct (decide (i = 4)) as [->|]; [done|]. by apply submask_bit.
Qed.

Lemma submask_lor a b : submask a -> submask b -> submask (Z.lor a b).
Proof.
  unfold submask. intros Ha Hb. apply Z.bits_inj'. intros i Hi. rewrite Z.bits_0.
  assert (Z.testbit (Z.ldiff a 28) i = false) as Ha' by (by rewrite Ha, Z.bits_0).
  assert (Z.testbit (Z.ldiff b 28) i = false) as Hb' by (by rewrite Hb, Z.bits_0).
  rewrite Z.ldiff_spec in *. rewrite Z.lor_spec.
  by destruct (Z.testbit a i), (Z.testbit b i), (Z.testbit 28 i).
Qed.

Lemma submask_ldiff a b : submask a -> submask (Z.ldiff a b).
Proof.
  unfold submask. intros Ha. apply Z.bits_inj'. intros i Hi. rewrite Z.bits_0.
  assert (Z.testbit (Z.ldiff a 28) i = false) as Ha' by (by rewrite Ha, Z.bits_0).
  rewrite Z.ldiff_spec in *. rewrite Z.ldiff_spec.
  by destruct (Z.testbit a i), (Z.testbit b i), (Z.testbit 28 i).
Qed.

Lemma submask_land a b : submask b -> submask (Z.land a b).
Proof.
  unfold submask. intros Ha. apply Z.bits_inj'. intros i Hi. rewrite Z.bits_0.
  assert (Z.testbit (Z.ldiff b 28) i = false) as Ha' by (by rewrite Ha, Z.bits_0).
  rewrite Z.ldiff_spec in *. rewrite Z.land_spec.
  by destruct (Z.testbit a i), (Z.testbit b i), (Z.testbit 28 i).
Qed.

Module EpollProofs.
Import CProEpollReactor.

Definition events_of (m : Z) : Z := addEvents m 0.

Ltac bits :=
  unfold events_of, addEvents, clrEvents;
  rewrite ?BIT_ENABLED_WRITE, ?BIT_ENABLED_READ, ?BIT_ENABLED_EXCEPTION,
    ?Z.lor_spec, ?Z.ldiff_spec, ?Z.land_spec;
  repeat match goal with |- context [Z.testbit ?m ?i] => destruct (Z.testbit m i) end;
  reflexivity.

Lemma addEvents_lor m1 m2 : addEvents m2 (events_of m1) = events_of (Z.lor m1 m2).
Proof. bits. Qed.

Lemma addEvents_ldiff m1 m2 :
  addEvents (Z.ldiff m2 m1) (events_of m1) = events_of (Z.lor m1 m2).
Proof. bits. Qed.

Lemma clrEvents_ldiff m1 m2 :
  clrEvents (Z.land m2 m1) (events_of m1) = events_of (Z.ldiff m1 m2).
Proof. bits. Qed.

Lemma events_of_zero m : submask m -> events_of m = 0 <-> m = 0.
Proof.
  intros Hm. split; [|intros ->; reflexivity].
  unfold events_of, addEvents.
  rewrite ?BIT_ENABLED_WRITE, ?BIT_ENABLED_READ, ?BIT_ENABLED_EXCEPTION.
  destruct (Z.testbit m 2) eqn:E2, (Z.testbit m 3) eqn:E3, (Z.testbit m 4) eqn:E4; try done.
  intros _. by apply submask_zero.
Qed.

(** A property of the small masks, by running through them. *)
Lemma small_mask_check (f : Z -> bool) mask :
  forallb f (Z.of_nat <$> seq 0 32) = true -> f (Z.land mask PRO_MASK_ALL) = true.
Proof.
  intros Hall. pose proof (proj1 (forallb_forall _ _) Hall (Z.land mask PRO_MASK_ALL)) as H.
  apply H. apply list_elem_of_In, list_elem_of_fmap.
  assert (0 <= Z.land mask PRO_MASK_ALL < 32).
  { change PRO_MASK_ALL with (Z.ones 5). rewrite Z.land_ones by lia.
    change 32 with (2 ^ 5). apply Z.mod_pos_bound. lia. }
  exists (Z.to_nat (Z.land mask PRO_MASK_ALL)). rewrite Z2Nat.id by lia. split; [done|].
  apply elem_of_seq. lia.
Qed.

Lemma normMask_sub mask : submask (normMask (Z.land mask PRO_MASK_ALL)).
Proof.
  apply Z.eqb_eq.
  exact (small_mask_check (fun x => Z.ldiff (normMask x) 28 =? 0) mask eq_refl).
Qed.

Lemma normMask_nonzero mask :
  Z.land mask PRO_MASK_ALL <> 0 -> normMask (Z.land mask PRO_MASK_ALL) <> 0.
Proof.
  pose proof (small_mask_check (fun x => (x =? 0) || negb (normMask x =? 0)) mask eq_refl) as H.
  cbv beta in H. apply orb_true_iff in H as [H|H].
  - apply Z.eqb_eq in H. done.
  - apply negb_true_iff, Z.eqb_neq in H. done.
Qed.

Section proofs.
Context {K : Type} `{EpollKernelLaws K}.
Implicit Types r : @t K.

(** The reactor's invariant. *)
Record ok (ext : Z -> nat) r (rc : gmap Z nat) : Prop := mkOk {
  ok_wf : wf (m_handlerMgr r);
  ok_rc : rc_ok ext (handlers (m_handlerMgr r)) rc;
  ok_sub s i : stl_find s (m_handlerMgr r) = Some (s, i) -> submask (mask i);
  ok_kernel s : interest (m_kernel r) !! s =
    (fun e : Z * PRO_HANDLER_INFO => events_of (mask (snd e))) <$> stl_find s (m_handlerMgr r)
}.

Lemma ok_notify ext e r rc : ok ext r rc -> ok ext (notify e r) rc.
Proof. by intros []. Qed.

(** What [FindHandler] tells about a socket. *)
Lemma FindHandler_spec r s ext rc :
  ok ext r rc -> s <> -1 ->
  let i := FindHandler s (m_handlerMgr r) in
  mask i = oldMask s (m_handlerMgr r) /\ submask (mask i) /\
  interest (m_kernel r) !! s = (if mask i =? 0 then None else Some (events_of (mask i))) /\
  ((stl_find s (m_handlerMgr r) = None /\ handler i = NULL /\ mask i = 0) \/
   (stl_find s (m_handlerMgr r) = Some (s, i) /\ handler i <> NULL /\ mask i <> 0)).
Proof.
  intros Hok Hs i. unfold i, FindHandler, oldMask. pose proof (ok_kernel _ _ _ Hok s) as Hk.
  destruct (Z.eqb_spec s (-1)); [done|].
  destruct (stl_find s (m_handlerMgr r)) as [e|] eqn:Hf; [|cbn in *; by split_and!; auto].
  destruct (stl_find_pair s _ e Hf) as [i' ->].
  destruct (wf_find _ _ _ (ok_wf _ _ _ Hok) Hf) as (_ & ? & ?). cbn in *.
  destruct (Z.eqb_spec (mask i') 0); [done|].
  split_and!; auto. exact (ok_sub _ _ _ Hok s i' Hf).
Qed.

(** The kernel call of [AddHandler] registers the union of the events, and fails
    only when a new descriptor is refused. *)
Lemma ctl_register k s old new b k' :
  submask old -> submask new -> new <> 0 -> Z.ldiff new old = new ->
  interest k !! s = (if old =? 0 then None else Some (events_of old)) ->
  (if events_of old =? 0 then EPOLL_CTL_ADD s (addEvents new (events_of old)) k
   else EPOLL_CTL_MOD s (addEvents new (events_of old)) k) = (b, k') ->
  (b = true /\ interest k' = <[s := events_of (Z.lor old new)]> (interest k)) \/
  (b = false /\ old = 0 /\ interest k' = interest k /\
   exists ev, fst (EPOLL_CTL_ADD s ev k) = false).
Proof.
  intros Ho Hn Hnz Hd Hk. rewrite addEvents_lor. pose proof (events_of_zero old Ho) as Hz.
  destruct (Z.eqb_spec (events_of old) 0) as [E|E].
  - intros Ha. destruct b; [left|right]; cbn.
    + apply ctl_add_ok in Ha as [_ Ha]. done.
    + split_and!; [done|tauto|by apply ctl_add_fail in Ha|]. eexists. by rewrite Ha.
  - destruct (Z.eqb_spec old 0) as [->|]; [by destruct E|].
    destruct (ctl_mod_registered s (events_of (Z.lor old new)) k) as (k2 & -> & Hi);
      [rewrite Hk; eauto|].
    intros [= <- <-]. auto.
Qed.

Lemma ok_update ext r rc m k rc' s h msk :
  ok ext r rc -> wf m -> rc_ok ext (handlers m) rc' -> submask msk ->
  stl_find s m = Some (s, mkInfo h msk) ->
  (forall s', s' <> s -> stl_find s' m = stl_find s' (m_handlerMgr r)) ->
  interest k = <[s := events_of msk]> (interest (m_kernel r)) ->
  ok ext (setMgr m k r) rc'.
Proof.
  intros [Hw Hr Hs Hk] Hw' Hr' Hm Hf Hoth Hi. split; cbn; try done.
  - intros s' i Hs'. destruct (decide (s' = s)) as [->|Hne].
    + rewrite Hf in Hs'. by injection Hs' as <-.
    + rewrite (Hoth s' Hne) in Hs'. by apply (Hs s').
  - intros s'. rewrite Hi. destruct (decide (s' = s)) as [->|Hne].
    + by rewrite lookup_insert_eq, Hf.
    + rewrite lookup_insert_ne by done. by rewrite Hk, (Hoth s' Hne).
Qed.

(** What [AddHandler] is for: the handler [h] is registered for what it was
    registered for and the new mask. *)
Definition registered_as (s h msk : Z) r : Prop :=
  stl_find s (m_handlerMgr r) = Some (s, mkInfo h msk).

Lemma lor_ldiff a b : Z.lor a (Z.ldiff b a) = Z.lor a b.
Proof.
  apply Z.bits_inj'. intros i Hi. rewrite !Z.lor_spec, Z.ldiff_spec.
  by destruct (Z.testbit a i), (Z.testbit b i).
Qed.

Lemma ldiff_idem a b : Z.ldiff (Z.ldiff b a) a = Z.ldiff b a.
Proof.
  apply Z.bits_inj'. intros i Hi. rewrite !Z.ldiff_spec.
  by destruct (Z.testbit a i), (Z.testbit b i).
Qed.

Definition refused s h mask r : Prop :=
  s = -1 \/ h = NULL \/ Z.land mask PRO_MASK_ALL = 0 \/ m_epfd r = -1 \/ m_wantExit r = true \/
  (exists i, stl_find s (m_handlerMgr r) = Some (s, i) /\ handler i <> h) \/
  (stl_find s (m_handlerMgr r) = None /\
   exists ev, fst (EPOLL_CTL_ADD s ev (m_kernel r)) = false).

Lemma AddHandler_ok ext e r rc s h mask :
  ok ext r rc -> (0 < ext h + occ h (handlers (m_handlerMgr r)))%nat ->
  exists b r' rc', AddHandler e s h mask r rc = Some (b, r', rc') /\ ok ext r' rc' /\
    (forall s', s' <> s -> stl_find s' (m_handlerMgr r') = stl_find s' (m_handlerMgr r)) /\
    (if b then registered_as s h
       (Z.lor (oldMask s (m_handlerMgr r)) (normMask (Z.land mask PRO_MASK_ALL))) r'
     else m_handlerMgr r' = m_handlerMgr r /\ rc' = rc /\
          interest (m_kernel r') = interest (m_kernel r) /\ refused s h mask r).
Proof.
  intros Hok Hal. unfold AddHandler, refused. pose proof Hok as [Hwf Hrc Hsub Hker].
  destruct (Z.eqb_spec s (-1)); [by do 3 eexists; split; [done|]; split_and!; auto 10|].
  destruct (Z.eqb_spec h NULL); [by do 3 eexists; split; [done|]; split_and!; auto 10|].
  destruct (Z.eqb_spec (Z.land mask PRO_MASK_ALL) 0) as [|Hmz];
    [by do 3 eexists; split; [done|]; split_and!; auto 10|].
  destruct (Z.eqb_spec (m_epfd r) (-1)); [by do 3 eexists; split; [done|]; split_and!; auto 10|].
  destruct (m_wantExit r) eqn:Hwe; [by do 3 eexists; split; [done|]; split_and!; auto 10|]. cbn [orb].
  pose proof (normMask_sub mask) as Hms. apply normMask_nonzero in Hmz.
  set (new := normMask (Z.land mask PRO_MASK_ALL)) in *. clearbody new.
  pose proof (FindHandler_spec r s ext rc Hok n) as (Hi & Hsi & Hki & Hfi).
  set (i := FindHandler s (m_handlerMgr r)) in *. clearbody i. unfold registered_as.
  destruct (negb (handler i =? NULL) && negb (h =? handler i)) eqn:Eother.
  { apply andb_true_iff in Eother as [E1%negb_true_iff%Z.eqb_neq E2%negb_true_iff%Z.eqb_neq].
    do 3 eexists; split; [done|]. split_and!; try done.
    destruct Hfi as [(_ & ? & _)|(? & _)]; [done|]. naive_solver. }
  assert (Hh : handler i = NULL \/ handler i = h).
  { apply andb_false_iff in Eother as [E%negb_false_iff%Z.eqb_eq|E%negb_false_iff%Z.eqb_eq]; auto. }
  destruct (Z.eqb_spec (Z.ldiff new (CProHandlerMgr.mask i)) 0) as [E|E].
  { do 3 eexists; split; [done|]. split_and!; try done.
    destruct Hfi as [(_ & _ & Hz0)|(-> & ? & ?)]; [rewrite Hz0, Z.ldiff_0_r in E; done|].
    rewrite <- Hi, <- lor_ldiff, E, Z.lor_0_r. destruct Hh as [|<-]; [done|]. by destruct i. }
  fold (events_of (CProHandlerMgr.mask i)).
  match goal with |- context [if events_of ?o =? 0 then ?a else ?b] =>
    destruct (if events_of o =? 0 then a else b) as [okc k'] eqn:Ek end.
  apply ctl_register in Ek as [[-> Hin]|(-> & Hz0 & Hin & Hadd)];
    [| |done|by apply submask_ldiff|done|apply ldiff_idem|done]; cbn [negb fst snd] in *.
  - destruct (CProHandlerMgr.mgr_AddHandler_ok ext _ rc s h (Z.ldiff new (CProHandlerMgr.mask i)) Hwf Hrc Hal)
      as (b & m' & rc' & -> & Hwf' & Hrc' & Hb). cbn.
    destruct b; cbn.
    + destruct Hb as (_ & _ & _ & Hf' & Hoth). rewrite <- Hi, lor_ldiff in Hf'. rewrite lor_ldiff in Hin. rewrite <- Hi.
      do 3 eexists; split; [done|].
      assert (ok ext (setMgr m' k' r) rc') by
        (eapply ok_update with (msk := Z.lor (CProHandlerMgr.mask i) new);
          [exact Hok|exact Hwf'|exact Hrc'|by apply submask_lor|exact Hf'|exact Hoth|exact Hin]).
      split_and!; destruct (otherThread e); auto using ok_notify.
    + exfalso. destruct Hb as (_ & _ & [?|[?|[?|(i' & Hf & Hne)]]]); try done.
      destruct Hfi as [(? & _)|(Hfi & ? & _)]; [congruence|].
      rewrite Hfi in Hf. injection Hf as <-. destruct Hh; done.
  - do 3 eexists; split; [done|]. split_and!; try done.
    + split; cbn; try done. by rewrite Hin.
    + destruct Hfi as [(Hf & _)|(_ & _ & ?)]; [|done]. do 6 right. by eauto.
Qed.

Lemma ldiff_land a b : Z.ldiff a (Z.land b a) = Z.ldiff a b.
Proof.
  apply Z.bits_inj'. intros i Hi. rewrite !Z.ldiff_spec, Z.land_spec.
  by destruct (Z.testbit a i), (Z.testbit b i).
Qed.

(** What is left of an entry without the bits of [msk]. *)
Definition without (msk : Z) (e : option (Z * PRO_HANDLER_INFO)) : option (Z * PRO_HANDLER_INFO) :=
  '(s, i) ← e;
  if Z.ldiff (CProHandlerMgr.mask i) msk =? 0 then None
  else Some (s, mkInfo (handler i) (Z.ldiff (CProHandlerMgr.mask i) msk)).

Lemma without_zero msk m s :
  wf m -> (match stl_find s m with
           | Some (_, i) => Z.land msk (CProHandlerMgr.mask i) = 0 | None => True end) ->
  without msk (stl_find s m) = stl_find s m.
Proof.
  intros Hwf Hz. unfold without. destruct (stl_find s m) as [e|] eqn:Hf; [|done].
  destruct (stl_find_pair s _ e Hf) as [[h k] ->]. cbn in *.
  destruct (wf_find _ _ _ Hwf Hf) as (_ & _ & Hk). cbn in Hk.
  rewrite <- ldiff_land, Hz, Z.ldiff_0_r. by destruct (Z.eqb_spec k 0).
Qed.

(** The kernel call of [RemoveHandler] leaves exactly the events that remain. *)
Lemma ctl_unregister k s old msk :
  submask old -> interest k !! s = Some (events_of old) ->
  interest (snd (if clrEvents (Z.land msk old) (events_of old) =? 0
                 then EPOLL_CTL_DEL s k
                 else EPOLL_CTL_MOD s (clrEvents (Z.land msk old) (events_of old)) k)) =
  (if Z.ldiff old msk =? 0 then delete s (interest k)
   else <[s := events_of (Z.ldiff old msk)]> (interest k)).
Proof.
  intros Ho Hk. rewrite clrEvents_ldiff.
  pose proof (events_of_zero (Z.ldiff old msk) (submask_ldiff _ _ Ho)) as Hz.
  destruct (Z.eqb_spec (events_of (Z.ldiff old msk)) 0) as [E|E],
    (Z.eqb_spec (Z.ldiff old msk) 0) as [E'|E']; try tauto.
  - destruct (ctl_del_registered s k) as (k' & -> & Hi); [by rewrite Hk|]. done.
  - destruct (ctl_mod_registered s (events_of (Z.ldiff old msk)) k) as (k' & -> & Hi); [by rewrite Hk|]. done.
Qed.

Lemma RemoveHandler_ok ext e r rc s mask :
  ok ext r rc -> m_epfd r <> -1 -> s <> -1 ->
  exists r' rc', RemoveHandler e s mask r rc = Some (r', rc') /\ ok ext r' rc' /\
    (forall s', s' <> s -> stl_find s' (m_handlerMgr r') = stl_find s' (m_handlerMgr r)) /\
    stl_find s (m_handlerMgr r') =
      without (normMask (Z.land mask PRO_MASK_ALL)) (stl_find s (m_handlerMgr r)).
Proof.
  intros Hok Hep Hs. unfold RemoveHandler. pose proof Hok as [Hwf Hrc Hsub Hker].
  destruct (Z.eqb_spec s (-1)); [done|].
  destruct (Z.eqb_spec (Z.land mask PRO_MASK_ALL) 0) as [Hmz|Hmz].
  { do 2 eexists; split; [done|]. split_and!; try done. symmetry. apply without_zero; [done|].
    rewrite Hmz. change (normMask 0) with 0. case_match; [by case_match|done]. }
  destruct (Z.eqb_spec (m_epfd r) (-1)); [done|]. cbn [orb]. clear Hmz.
  set (new := normMask (Z.land mask PRO_MASK_ALL)) in *. clearbody new.
  pose proof (FindHandler_spec r s ext rc Hok n) as (Hi & Hsi & Hki & Hfi).
  set (i := FindHandler s (m_handlerMgr r)) in *. clearbody i.
  destruct (Z.eqb_spec (handler i) NULL) as [Hn|Hn].
  { destruct Hfi as [(Hf & _)|(_ & ? & _)]; [|done].
    do 2 eexists; split; [done|]. rewrite Hf. by split_and!. }
  destruct Hfi as [(_ & ? & _)|(Hf & _ & Hmnz)]; [done|].
  destruct (Z.eqb_spec (Z.land new (CProHandlerMgr.mask i)) 0) as [Hz|Hz].
  { do 2 eexists; split; [done|]. split_and!; try done. symmetry. apply without_zero; [done|].
    by rewrite Hf. }
  fold (events_of (CProHandlerMgr.mask i)).
  destruct (Z.eqb_spec (CProHandlerMgr.mask i) 0); [done|].
  destruct (CProHandlerMgr.mgr_RemoveHandler_ok ext _ rc s (Z.land new (CProHandlerMgr.mask i)) Hwf Hrc)
    as (m' & rc' & -> & Hwf' & Hrc' & Hoth & Hf'). specialize (Hf' Hs). cbn.
  rewrite Hf, ldiff_land in Hf'. do 2 eexists; split; [done|].
  assert (ok ext (setMgr m' (snd (if clrEvents (Z.land new (CProHandlerMgr.mask i))
      (events_of (CProHandlerMgr.mask i)) =? 0 then EPOLL_CTL_DEL s (m_kernel r)
      else EPOLL_CTL_MOD s (clrEvents (Z.land new (CProHandlerMgr.mask i))
      (events_of (CProHandlerMgr.mask i))) (m_kernel r))) r) rc') as Hok'.
  { pose proof (ctl_unregister (m_kernel r) s (CProHandlerMgr.mask i) new Hsi Hki) as Hin.
    destruct (Z.eqb_spec (Z.ldiff (CProHandlerMgr.mask i) new) 0) as [E|E].
    - split; cbn; try done.
      + intros s' i' Hs'. destruct (decide (s' = s)) as [->|Hne]; [congruence|].
        rewrite (Hoth s' Hne) in Hs'. by apply (Hsub s').
      + intros s'. rewrite Hin. destruct (decide (s' = s)) as [->|Hne].
        * by rewrite lookup_delete_eq, Hf'.
        * rewrite lookup_delete_ne by done. by rewrite Hker, (Hoth s' Hne).
    - eapply ok_update with (msk := Z.ldiff (CProHandlerMgr.mask i) new);
        [exact Hok|exact Hwf'|exact Hrc'|by apply submask_ldiff|exact Hf'|exact Hoth|exact Hin]. }
  rewrite Hf. split_and!; destruct (otherThread e); auto using ok_notify.
Qed.

End proofs.
End EpollProofs.

(** ** One round of the worker: [CProEpollReactor::WorkerRun] after [epoll_wait] *)

Module EpollWorker.
Import CProEpollReactor.

(** The calls a reactor makes on a handler. *)
Inductive call :=
  | OnOutput (sockId : Z)
  | OnInput (sockId : Z)
  | OnException (sockId : Z)
  | OnError (sockId errorCode : Z).

(** [info.handler->AddRef(); info2 = handlers[fd]; ... PRO_SET_BITS(info2.mask, bit)] *)
Definition collectBit (fd h bit : Z) (a : CProHandlerMgr.t * gmap Z nat)
    : option (CProHandlerMgr.t * gmap Z nat) :=
  let '(hs, rc) := a in
  rc ← AddRef h rc;
  Some (stl_assign (fd, mkInfo h (PRO_SET_BITS (oldMask fd hs) bit)) hs, rc).

(** The body of the loop over the kernel's events, under the reactor's lock. *)
Definition collectOne (mgr : CProHandlerMgr.t) (evt : Z * Z)
    (a : CProHandlerMgr.t * gmap Z nat) : option (CProHandlerMgr.t * gmap Z nat) :=
  let '(fd, ev) := evt in
  if ev =? 0 then Some a else
  let info := FindHandler fd mgr in
  if handler info =? NULL then Some a else
  if PRO_BIT_ENABLED ev PRO_EPOLLERR then collectBit fd (handler info) PRO_MASK_ERROR a else
  a ← (if PRO_BIT_ENABLED ev PRO_EPOLLOUT_SET
       then collectBit fd (handler info) PRO_MASK_WRITE a else Some a);
  a ← (if PRO_BIT_ENABLED ev (Z.lor PRO_EPOLLIN_SET PRO_EPOLLHUP)
       then collectBit fd (handler info) PRO_MASK_READ a else Some a);
  if PRO_BIT_ENABLED ev PRO_EPOLLEX_SET
  then collectBit fd (handler info) PRO_MASK_EXCEPTION a else Some a.

Fixpoint collect (mgr : CProHandlerMgr.t) (evts : list (Z * Z))
    (a : CProHandlerMgr.t * gmap Z nat) : option (CProHandlerMgr.t * gmap Z nat) :=
  match evts with
  | [] => Some a
  | e :: evts => a ← collectOne mgr e a; collect mgr evts a
  end.

Section dispatch.
(** The rest of the program: what a handler's method does to the world, in which
    the reference counts are one part. *)
Context {W : Type} (getRc : W -> gmap Z nat) (setRc : gmap Z nat -> W -> W).
Context (upcall : Z -> call -> W -> option W).

Definition release (h : Z) (w : W) : option W := rc ← Release h (getRc w); Some (setRc rc w).

(** One guarded call of the loop that follows: [OnX(sockId); Release();] *)
Definition callBit (msk bit h : Z) (c : call) (w : W) : option W :=
  if PRO_BIT_ENABLED msk bit then w ← upcall h c w; release h w else Some w.

(** The body of the loop over the collected handlers, without the lock. *)
Definition dispatchOne (e : Z * PRO_HANDLER_INFO) (w : W) : option W :=
  let '(sockId, info) := e in
  let h := handler info in
  if PRO_BIT_ENABLED (CProHandlerMgr.mask info) PRO_MASK_ERROR
  then w ← upcall h (OnError sockId (-1)) w; release h w
  else
    w ← callBit (CProHandlerMgr.mask info) PRO_MASK_WRITE h (OnOutput sockId) w;
    w ← callBit (CProHandlerMgr.mask info) PRO_MASK_READ h (OnInput sockId) w;
    callBit (CProHandlerMgr.mask info) PRO_MASK_EXCEPTION h (OnException sockId) w.

Fixpoint dispatch (hs : CProHandlerMgr.t) (w : W) : option W :=
  match hs with
  | [] => Some w
  | e :: hs => w ← dispatchOne e w; dispatch hs w
  end.

(** [WorkerRun] between two calls of [epoll_wait]. *)
Definition round (mgr : CProHandlerMgr.t) (evts : list (Z * Z)) (w : W) : option W :=
  '(hs, rc) ← collect mgr evts ([], getRc w);
  dispatch hs (setRc rc w).

End dispatch.

(** *** What is collected *)

(** The bits reported to a handler for the event [ev]. *)
Definition reported (ev : Z) : Z :=
  if Z.testbit ev 3 then PRO_MASK_ERROR else
  Z.lor (Z.lor (if Z.testbit ev 2 then PRO_MASK_WRITE else 0)
               (if Z.testbit ev 0 || Z.testbit ev 4 then PRO_MASK_READ else 0))
        (if Z.testbit ev 1 then PRO_MASK_EXCEPTION else 0).

(** The references a collected entry stands for: one per call to make. *)
Definition nbits (m : Z) : nat :=
  ((if Z.testbit m 5 then 1 else 0) + (if Z.testbit m 2 then 1 else 0) +
   (if Z.testbit m 3 then 1 else 0) + (if Z.testbit m 4 then 1 else 0))%nat.

Definition refs (hs : CProHandlerMgr.t) : list Z :=
  flat_map (fun e => repeat (handler (snd e)) (nbits (CProHandlerMgr.mask (snd e)))) hs.

(** The entry that [ev] on [fd] leads to. *)
Definition entry (mgr : CProHandlerMgr.t) (e : Z * Z) : option (Z * PRO_HANDLER_INFO) :=
  if (handler (FindHandler (fst e) mgr) =? NULL) || (reported (snd e) =? 0) then None
  else Some (fst e, mkInfo (handler (FindHandler (fst e) mgr)) (reported (snd e))).

Lemma BIT_EPOLL ev :
  PRO_BIT_ENABLED ev PRO_EPOLLERR = Z.testbit ev 3 /\
  PRO_BIT_ENABLED ev PRO_EPOLLOUT_SET = Z.testbit ev 2 /\
  PRO_BIT_ENABLED ev (Z.lor PRO_EPOLLIN_SET PRO_EPOLLHUP) = Z.testbit ev 0 || Z.testbit ev 4 /\
  PRO_BIT_ENABLED ev PRO_EPOLLEX_SET = Z.testbit ev 1.
Proof.
  split_and!; try (by apply (BIT_ENABLED_testbit ev 3)); try (by apply (BIT_ENABLED_testbit ev 2));
    try (by apply (BIT_ENABLED_testbit ev 1)).
  rewrite <- (BIT_ENABLED_testbit ev 0), <- (BIT_ENABLED_testbit ev 4) by lia.
  unfold PRO_BIT_ENABLED. rewrite Z.land_lor_distr_r. change (2 ^ 0) with PRO_EPOLLIN_SET.
  change (2 ^ 4) with PRO_EPOLLHUP.
  destruct (Z.eqb_spec (Z.land ev PRO_EPOLLIN_SET) 0) as [->|Hn]; [done|].
  destruct (Z.eqb_spec (Z.lor (Z.land ev PRO_EPOLLIN_SET) (Z.land ev PRO_EPOLLHUP)) 0) as [E|];
    [|done]. apply Z.lor_eq_0_iff in E as [? _]. done.
Qed.

Lemma handlers_refs_assign fd h msk hs :
  stl_find fd hs = None ->
  refs (stl_assign (fd, mkInfo h msk) hs) ≡ₚ repeat h (nbits msk) ++ refs hs.
Proof.
  intros Hf. unfold refs. rewrite stl_assign_fresh by done.
  by rewrite (stl_insert_Permutation (fd, mkInfo h msk)).
Qed.

Lemma AddRefs_ok ext ps rc h :
  rc_ok ext ps rc -> (0 < ext h)%nat ->
  exists rc', AddRef h rc = Some rc' /\ rc_ok ext (h :: ps) rc'.
Proof. intros. eapply AddRef_ok; [done|lia]. Qed.

(** [hs] with the bits [m] for the descriptor [fd], which it does not have yet. *)
Definition put (fd h m : Z) (hs : CProHandlerMgr.t) : CProHandlerMgr.t :=
  if m =? 0 then hs else stl_assign (fd, mkInfo h m) hs.

Lemma collectBit_ok ext ps rc fd h m bit n hs :
  stl_sorted hs -> stl_find fd hs = None -> (0 < ext h)%nat -> bit <> 0 ->
  rc_ok ext (repeat h n ++ ps) rc ->
  exists rc', collectBit fd h bit (put fd h m hs, rc) = Some (put fd h (Z.lor m bit) hs, rc') /\
    rc_ok ext (repeat h (S n) ++ ps) rc'.
Proof.
  intros Hs Hf He Hb Hrc. unfold collectBit.
  destruct (AddRefs_ok _ _ _ h Hrc He) as (rc' & -> & Hrc'). cbn.
  exists rc'. split; [|done]. do 2 f_equal. unfold put, oldMask, PRO_SET_BITS.
  destruct (Z.eqb_spec (Z.lor m bit) 0) as [E|_]; [apply Z.lor_eq_0_iff in E as [_ ?]; done|].
  destruct (Z.eqb_spec m 0) as [->|]; [by rewrite Hf|].
  rewrite stl_find_assign_pair. cbn. by apply stl_assign_assign.
Qed.

Lemma collectOne_ok ext ps rc mgr fd ev hs :
  stl_sorted hs -> stl_find fd hs = None ->
  (forall s h, handler (FindHandler s mgr) = h -> h <> NULL -> (0 < ext h)%nat) ->
  rc_ok ext ps rc ->
  let h := handler (FindHandler fd mgr) in
  let m := if h =? NULL then 0 else reported ev in
  exists rc', collectOne mgr (fd, ev) (hs, rc) = Some (put fd h m hs, rc') /\
    rc_ok ext (repeat h (nbits m) ++ ps) rc'.
Proof.
  intros Hs Hf Hal Hrc h m. unfold collectOne.
  destruct (Z.eqb_spec ev 0) as [->|].
  { exists rc. unfold m, reported, put. by destruct (h =? NULL). }
  fold h. unfold m. destruct (Z.eqb_spec h NULL) as [|Hh]; [by exists rc|].
  assert (He : (0 < ext h)%nat) by (by apply (Hal fd)).
  destruct (BIT_EPOLL ev) as (-> & -> & -> & ->). unfold reported.
  change (hs, rc) with (put fd h 0 hs, rc).
  destruct (Z.testbit ev 3).
  { by apply (collectBit_ok ext ps rc fd h 0 PRO_MASK_ERROR 0 hs). }
  assert (step : forall (b : bool) bit m n rc, bit <> 0 -> rc_ok ext (repeat h n ++ ps) rc ->
    exists rc', (if b then collectBit fd h bit (put fd h m hs, rc) else Some (put fd h m hs, rc)) =
      Some (put fd h (Z.lor m (if b then bit else 0)) hs, rc') /\
      rc_ok ext (repeat h ((if b then 1 else 0) + n) ++ ps) rc').
  { intros b bit m0 n0 rc0 ??. destruct b; [by apply collectBit_ok|].
    exists rc0. by rewrite Z.lor_0_r. }
  destruct (step (Z.testbit ev 2) PRO_MASK_WRITE 0 0%nat rc) as (rc1 & -> & Hr1); [done..|].
  cbn [mbind option_bind].
  edestruct (step (Z.testbit ev 0 || Z.testbit ev 4) PRO_MASK_READ) as (rc2 & -> & Hr2);
    [done|exact Hr1|]. cbn [mbind option_bind].
  edestruct (step (Z.testbit ev 1) PRO_MASK_EXCEPTION) as (rc3 & -> & Hr3); [done|exact Hr2|].
  exists rc3. split; [by rewrite Z.lor_0_l|].
  match type of Hr3 with rc_ok _ (repeat _ ?a ++ _) _ =>
    match goal with |- rc_ok _ (repeat _ ?b ++ _) _ => replace b with a; [done|] end end.
  by destruct (Z.testbit ev 2), (Z.testbit ev 0 || Z.testbit ev 4), (Z.testbit ev 1).
Qed.

Lemma find_put s fd h m hs :
  stl_find fd hs = None ->
  stl_find s (put fd h m hs) =
    if decide (s = fd) then (if m =? 0 then None else Some (fd, mkInfo h m)) else stl_find s hs.
Proof.
  intros Hf. unfold put. destruct (decide (s = fd)) as [->|Hne].
  - destruct (m =? 0); [done|]. apply stl_find_assign_pair.
  - destruct (m =? 0); [done|]. by rewrite stl_find_assign_ne.
Qed.

Lemma refs_put fd h m hs :
  stl_find fd hs = None -> refs (put fd h m hs) ≡ₚ repeat h (nbits m) ++ refs hs.
Proof.
  intros Hf. unfold put. destruct (Z.eqb_spec m 0) as [->|]; [done|].
  by apply handlers_refs_assign.
Qed.

Lemma collect_ok mgr evts ext ps :
  NoDup (fst <$> evts) ->
  (forall s h, handler (FindHandler s mgr) = h -> h <> NULL -> (0 < ext h)%nat) ->
  forall hs rc, stl_sorted hs -> (forall fd, fd ∈ fst <$> evts -> stl_find fd hs = None) ->
  rc_ok ext (refs hs ++ ps) rc ->
  exists hs' rc', collect mgr evts (hs, rc) = Some (hs', rc') /\ stl_sorted hs' /\
    rc_ok ext (refs hs' ++ ps) rc' /\
    (forall e, e ∈ evts -> stl_find (fst e) hs' = entry mgr e) /\
    (forall s, s ∉ fst <$> evts -> stl_find s hs' = stl_find s hs).
Proof.
  intros Hnd Hal. induction evts as [|[fd ev] evts IH]; intros hs rc Hs Hfresh Hrc; cbn -[collectOne].
  { exists hs, rc. split_and!; try done. intros e He. by apply not_elem_of_nil in He. }
  apply NoDup_cons in Hnd as [Hfd Hnd]. cbn in Hfd.
  assert (Hff : stl_find fd hs = None) by (apply Hfresh; left).
  destruct (collectOne_ok ext _ rc mgr fd ev hs Hs Hff Hal Hrc) as (rc1 & -> & Hrc1).
  set (h := handler (FindHandler fd mgr)) in *.
  set (m := if h =? NULL then 0 else reported ev) in *. cbn [mbind option_bind].
  destruct (IH Hnd (put fd h m hs) rc1) as (hs' & rc' & Hc & Hs' & Hrc' & Hin & Hout).
  - unfold put. destruct (m =? 0); [done|]. by apply stl_sorted_assign.
  - intros fd' Hfd'. rewrite find_put by done. rewrite decide_False by (intros ->; done).
    apply Hfresh. by right.
  - eapply rc_ok_perm; [|exact Hrc1]. by rewrite refs_put, app_assoc by done.
  - exists hs', rc'. split_and!; try done.
    + intros e [->|He]%elem_of_cons; [|by apply Hin]. cbn [fst].
      rewrite Hout by done. rewrite find_put, decide_True by done.
      unfold entry, m. cbn [fst snd]. fold h. destruct (h =? NULL); [done|]. cbn [orb].
      by destruct (reported ev =? 0).
    + intros s Hns. apply not_elem_of_cons in Hns as [Hne Hns].
      rewrite Hout by done. rewrite find_put by done. by rewrite decide_False.
Qed.

Section dispatch_ok.
Context {W : Type} (getRc : W -> gmap Z nat) (setRc : gmap Z nat -> W -> W).
Context (upcall : Z -> call -> W -> option W).
Context (Hget : forall rc w, getRc (setRc rc w) = rc).

(** A handler's method works as long as the handler is alive, and gives up only
    references it owns. *)
Context (Hup : forall h c w ext ps,
  rc_ok ext ps (getRc w) -> is_Some (getRc w !! h) ->
  exists ext' w', upcall h c w = Some w' /\ rc_ok ext' ps (getRc w')).

Lemma call_ok h c w ext ps :
  rc_ok ext (h :: ps) (getRc w) ->
  exists ext' w', (w ← upcall h c w; release getRc setRc h w) = Some w' /\ rc_ok ext' ps (getRc w').
Proof.
  intros Hrc. destruct (Hup h c w ext (h :: ps) Hrc) as (ext' & w1 & -> & Hrc1).
  { eapply rc_ok_elem_alive; [exact Hrc|]. left. }
  cbn. unfold release. destruct (Release_ok _ _ _ _ Hrc1) as (rc2 & -> & Hrc2). cbn.
  exists ext', (setRc rc2 w1). by rewrite Hget.
Qed.

Lemma callBit_ok m (bit : bool) b h c w ext n ps :
  PRO_BIT_ENABLED m b = bit ->
  rc_ok ext (repeat h ((if bit then 1 else 0) + n) ++ ps) (getRc w) ->
  exists ext' w', callBit getRc setRc upcall m b h c w = Some w' /\
    rc_ok ext' (repeat h n ++ ps) (getRc w').
Proof.
  intros <- Hrc. unfold callBit. destruct (PRO_BIT_ENABLED m b); [|eauto].
  by apply (call_ok h c w ext).
Qed.

(** The masks that [collect] makes: [ERROR] stands alone. *)
Definition collected (m : Z) : Prop := Z.testbit m 5 = true -> m = PRO_MASK_ERROR.

Lemma dispatch_safe hs : forall w ext ps,
  Forall (fun e : Z * PRO_HANDLER_INFO => collected (CProHandlerMgr.mask (snd e))) hs ->
  rc_ok ext (refs hs ++ ps) (getRc w) ->
  exists ext' w', dispatch getRc setRc upcall hs w = Some w' /\ rc_ok ext' ps (getRc w').
Proof.
  induction hs as [|[s [h m]] hs IH]; intros w ext ps Hf Hrc; cbn -[Nat.add dispatchOne]; [eauto|].
  apply Forall_cons in Hf as [Hm Hf]. cbn in Hm.
  change (refs ((s, mkInfo h m) :: hs)) with (repeat h (nbits m) ++ refs hs) in Hrc.
  rewrite <- app_assoc in Hrc. set (rest := refs hs ++ ps) in *.
  assert (exists ext' w', dispatchOne getRc setRc upcall (s, mkInfo h m) w = Some w' /\
    rc_ok ext' rest (getRc w')) as (ext1 & w1 & H1 & Hrc1).
  { unfold dispatchOne, nbits in *. cbn [handler CProHandlerMgr.mask].
    rewrite BIT_ENABLED_ERROR. destruct (Z.testbit m 5) eqn:E5.
    { rewrite (Hm E5) in Hrc. by apply (call_ok h _ w ext). }
    destruct (callBit_ok m _ PRO_MASK_WRITE h (OnOutput s) w ext
      ((if Z.testbit m 3 then 1 else 0) + (if Z.testbit m 4 then 1 else 0)) rest
      (BIT_ENABLED_WRITE m)) as (ext1 & w1 & -> & H1); [by destruct (Z.testbit m 2), (Z.testbit m 3), (Z.testbit m 4)|].
    cbn [mbind option_bind].
    destruct (callBit_ok m _ PRO_MASK_READ h (OnInput s) w1 ext1
      (if Z.testbit m 4 then 1 else 0) rest (BIT_ENABLED_READ m)) as (ext2 & w2 & -> & H2); [done|].
    cbn [mbind option_bind].
    apply (callBit_ok m _ PRO_MASK_EXCEPTION h (OnException s) w2 ext2 0 rest
      (BIT_ENABLED_EXCEPTION m)). by rewrite Nat.add_0_r. }
  rewrite H1. cbn [mbind option_bind].
  by apply (IH w1 ext1).
Qed.

End dispatch_ok.

Lemma reported_collected ev : collected (reported ev).
Proof.
  unfold collected, reported. destruct (Z.testbit ev 3); [done|].
  by destruct (Z.testbit ev 2), (Z.testbit ev 0 || Z.testbit ev 4), (Z.testbit ev 1).
Qed.

Lemma collected_all mgr (evts : list (Z * Z)) hs :
  stl_sorted hs ->
  (forall e, e ∈ evts -> stl_find (fst e) hs = entry mgr e) ->
  (forall s, s ∉ fst <$> evts -> stl_find s hs = None) ->
  Forall (fun e : Z * PRO_HANDLER_INFO => collected (CProHandlerMgr.mask (snd e))) hs.
Proof.
  intros Hs Hin Hout. apply Forall_forall. intros x Hx.
  pose proof (stl_sorted_find_elem hs x Hs Hx) as Hf. destruct x as [s i]. cbn in *.
  change (stl_key (s, i)) with s in Hf.
  destruct (decide (s ∈ fst <$> evts)) as [Hd|Hd]; [|by rewrite Hout in Hf].
  apply list_elem_of_fmap in Hd as ([fd ev] & -> & He). rewrite (Hin _ He) in Hf.
  unfold entry in Hf. case_match; [done|]. injection Hf as <-. apply reported_collected.
Qed.

Lemma FindHandler_alive mgr ext s h :
  (forall h, h ∈ handlers mgr -> (0 < ext h)%nat) ->
  handler (FindHandler s mgr) = h -> h <> NULL -> (0 < ext h)%nat.
Proof.
  intros Hal <- Hn. apply Hal. unfold FindHandler in *. destruct (s =? -1); [done|].
  destruct (stl_find s mgr) as [e|] eqn:Hf; [|done].
  destruct (stl_find_pair s _ e Hf) as [i ->]. apply stl_find_Some_elem in Hf as [Hf _].
  apply list_elem_of_fmap. by exists (s, i).
Qed.



End EpollWorker.

Module EpollTheorems.
Import CProEpollReactor EpollProofs.

(** registering a handler.  [CProEpollReactor::AddHandler] keeps the kernel's
    interest list equal to the registered masks and every reference exact; on
    success the socket is registered for its old and new masks together and no
    other socket changes; on failure nothing changes, and it fails only for bad
    arguments, a reactor that is not running, a socket that belongs to another
    handler, or a kernel that refuses a new descriptor. *)
Theorem AddHandler_correct {K : Type} `{EpollKernelLaws K} ext (e : env) (r : @t K) rc s h mask :
  ok ext r rc -> (0 < ext h + occ h (handlers (m_handlerMgr r)))%nat ->
  exists b r' rc', AddHandler e s h mask r rc = Some (b, r', rc') /\ ok ext r' rc' /\
    (forall s', s' <> s -> stl_find s' (m_handlerMgr r') = stl_find s' (m_handlerMgr r)) /\
    (if b then registered_as s h
       (Z.lor (oldMask s (m_handlerMgr r)) (normMask (Z.land mask PRO_MASK_ALL))) r'
     else m_handlerMgr r' = m_handlerMgr r /\ rc' = rc /\
          interest (m_kernel r') = interest (m_kernel r) /\ refused s h mask r).
Proof. apply AddHandler_ok. Qed.

(** unregistering.  [CProEpollReactor::RemoveHandler] takes the given bits away
    from the socket's mask, in the map and in the kernel's interest list alike;
    when none is left the socket is forgotten and the reactor's reference to the
    handler is given back. *)
Theorem RemoveHandler_correct {K : Type} `{EpollKernelLaws K} ext (e : env) (r : @t K) rc s mask :
  ok ext r rc -> m_epfd r <> -1 -> s <> -1 ->
  exists r' rc', RemoveHandler e s mask r rc = Some (r', rc') /\ ok ext r' rc' /\
    (forall s', s' <> s -> stl_find s' (m_handlerMgr r') = stl_find s' (m_handlerMgr r)) /\
    stl_find s (m_handlerMgr r') =
      without (normMask (Z.land mask PRO_MASK_ALL)) (stl_find s (m_handlerMgr r)).
Proof. apply RemoveHandler_ok. Qed.

(** A reactor with nothing registered. *)
Definition empty_reactor : @t bounded_kernel :=
  mkReactor 3 false CProNotifyPipe.init [] (mkKernel 10 ∅).

Definition ext70 (h : Z) : nat := if decide (h = 70) then 1%nat else 0%nat.

Lemma empty_ok : ok ext70 empty_reactor {[70 := 1%nat]}.
Proof.
  split; cbn; [by split; constructor| |done|intros s; apply lookup_empty].
  intros p. unfold ext70. cbn. destruct (decide (p = 70)) as [->|].
  - by rewrite lookup_singleton_eq.
  - by rewrite lookup_singleton_ne.
Qed.

Lemma AddHandler_correct_witness :
  exists r' rc', AddHandler (mkEnv false 0 0) 5 70 PRO_MASK_READ empty_reactor {[70 := 1%nat]}
      = Some (true, r', rc') /\
    registered_as 5 70 PRO_MASK_READ r' /\ rc' !! 70 = Some 2%nat.
Proof.
  destruct (AddHandler_correct ext70 (mkEnv false 0 0) empty_reactor {[70 := 1%nat]} 5 70
    PRO_MASK_READ empty_ok) as (b & r' & rc' & E & _ & _ & Hb); [vm_compute; lia|].
  vm_compute in E. injection E as <- <- <-. do 2 eexists. split; [reflexivity|].
  split; [exact Hb|reflexivity].
Defined.

(** The same reactor with socket 5 registered for reading. *)
Definition reactor5 : @t bounded_kernel :=
  mkReactor 3 false CProNotifyPipe.init [(5, mkInfo 70 PRO_MASK_READ)] (mkKernel 10 {[5 := 1]}).

Lemma reactor5_ok : ok ext70 reactor5 {[70 := 2%nat]}.
Proof.
  destruct (AddHandler_ok ext70 (mkEnv false 0 0) empty_reactor {[70 := 1%nat]} 5 70
    PRO_MASK_READ empty_ok) as (b & r' & rc' & E & Hok & _); [vm_compute; lia|].
  vm_compute in E. injection E as <- <- <-. exact Hok.
Qed.

Lemma RemoveHandler_correct_witness :
  exists r' rc', RemoveHandler (mkEnv false 0 0) 5 PRO_MASK_READ reactor5 {[70 := 2%nat]}
      = Some (r', rc') /\ stl_find 5 (m_handlerMgr r') = None /\ rc' !! 70 = Some 1%nat.
Proof.
  destruct (RemoveHandler_correct ext70 (mkEnv false 0 0) reactor5 {[70 := 2%nat]} 5
    PRO_MASK_READ reactor5_ok) as (r' & rc' & E & _ & _ & Hf); [discriminate|discriminate|].
  vm_compute in E. injection E as <- <-.
  do 2 eexists. split; [reflexivity|]. split; [exact Hf|reflexivity].
Defined.

End EpollTheorems.
