(* ===== verification/Transport.v ===== *)
(** * Transports ([pro_tcp_transport.cpp], [pro_ssl_transport.cpp], [pro_udp_transport.cpp])

    A transport joins a socket to its observer: it receives into the receive pool
    and calls [OnRecv], sends from the send pool and calls [OnSend] when a whole
    message is out, and calls [OnClose] once.  Everything around it -- the reactor
    task, the socket calls, the reference counts -- is a world [W] reached through
    [NetWorld]; the observer's methods are a function [upcall].  Each handler is
    one function: the locked section, the upcall, the part after it.  [m_lockUpcall]
    makes the handlers of one transport run one after the other; what other threads
    do between two locked sections is part of what [upcall] may do. *)

From S2P Require Import Prelude Bytes NetPools RefCount Reactor.

Definition PBSD_EWOULDBLOCK : Z := 11.
Definition PBSD_ECONNRESET : Z := 104.
Definition PBSD_EMSGSIZE : Z := 90.

(** The result of a [recv]: the bytes that arrived, or [errno]. *)
Inductive recv_result := Received (bs : list Z) | RecvError (errno : Z).

(** What a transport calls. *)
Class NetWorld (W : Type) := {
  (* CProTpReactorTask, by socket, handler and mask *)
  rt_AddHandler : Z -> Z -> Z -> W -> option (bool * W);
  rt_RemoveHandler : Z -> Z -> Z -> W -> option W;
  rt_ScheduleHeartbeatTimer : Z -> W -> option (Z * W);
  rt_CancelTimer : Z -> W -> option W;
  (* CProRefCount *)
  w_AddRef : Z -> W -> option W;
  w_Release : Z -> W -> option W;
  (* the kernel: the size or -1, and errno *)
  pbsd_recv : Z -> Z -> W -> recv_result * W;
  pbsd_send : Z -> list Z -> W -> Z * Z * W;
  pbsd_sendmsg : Z -> list Z -> Z -> W -> Z * W
}.

(** The calls on [IProTransportObserver]. *)
Inductive event :=
  | OnRecv
  | OnSend (actionId : Z)
  | OnClose (errorCode sslCode : Z)
  | OnHeartbeat.

Module CProTcpTransport.

(** The part of the state that concerns sending. *)
Record sending := mkSending {
  m_onWr : bool;
  m_pendingWr : bool;
  m_requestOnSend : bool;
  m_actionId : Z;
  m_sendPool : CProSendPool.t;
  m_sendingFd : Z
}.

Record t := mkTrans {
  m_observer : Z;
  m_reactorTask : Z;
  m_sockId : Z;
  m_out : sending;
  m_recvPool : CProRecvPool.t;
  m_timerId : Z;
  m_canUpcall : bool
}.

(** [CProTcpTransport::CProTcpTransport] *)
Definition init : t :=
  mkTrans NULL NULL (-1) (mkSending false false false 0 CProSendPool.init (-1))
    CProRecvPool.init 0 true.

Definition setOut (o : sending) (s : t) : t :=
  mkTrans (m_observer s) (m_reactorTask s) (m_sockId s) o (m_recvPool s) (m_timerId s)
    (m_canUpcall s).
Definition setPool (p : CProRecvPool.t) (s : t) : t :=
  mkTrans (m_observer s) (m_reactorTask s) (m_sockId s) (m_out s) p (m_timerId s)
    (m_canUpcall s).
Definition setTimer (id : Z) (s : t) : t :=
  mkTrans (m_observer s) (m_reactorTask s) (m_sockId s) (m_out s) (m_recvPool s) id
    (m_canUpcall s).
Definition setOwner (observer task sockId : Z) (s : t) : t :=
  mkTrans observer task sockId (m_out s) (m_recvPool s) (m_timerId s) (m_canUpcall s).
Definition noUpcall (s : t) : t :=
  mkTrans (m_observer s) (m_reactorTask s) (m_sockId s) (m_out s) (m_recvPool s) (m_timerId s)
    false.

Definition setOnWr (b : bool) (o : sending) : sending :=
  mkSending b (m_pendingWr o) (m_requestOnSend o) (m_actionId o) (m_sendPool o) (m_sendingFd o).
Definition setPending (b : bool) (o : sending) : sending :=
  mkSending (m_onWr o) b (m_requestOnSend o) (m_actionId o) (m_sendPool o) (m_sendingFd o).
Definition setRequest (b : bool) (o : sending) : sending :=
  mkSending (m_onWr o) (m_pendingWr o) b (m_actionId o) (m_sendPool o) (m_sendingFd o).
Definition setAction (a : Z) (o : sending) : sending :=
  mkSending (m_onWr o) (m_pendingWr o) (m_requestOnSend o) a (m_sendPool o) (m_sendingFd o).
Definition setSendPool (p : CProSendPool.t) (o : sending) : sending :=
  mkSending (m_onWr o) (m_pendingWr o) (m_requestOnSend o) (m_actionId o) p (m_sendingFd o).
Definition setSendingFd (fd : Z) (o : sending) : sending :=
  mkSending (m_onWr o) (m_pendingWr o) (m_requestOnSend o) (m_actionId o) (m_sendPool o) fd.

(** [m_observer == NULL || m_reactorTask == NULL] *)
Definition finished (s : t) : bool := (m_observer s =? NULL) || (m_reactorTask s =? NULL).

Section ops.
Context {W : Type} `{NetWorld W}.
(** The transport as an event handler. *)
Context (self : Z).

(** [CProTcpTransport::Init] on a connected TCP socket: [names] is whether both
    [getsockname] and [getpeername] succeed, [mem] what [m_recvPool.Resize] gets. *)
Definition Init (observer reactorTask sockId recvPoolSize : Z) (names : bool)
    (mem : option (list Z)) (s : t) (w : W) : option (bool * t * W) :=
  if (observer =? NULL) || (reactorTask =? NULL) || (sockId =? -1) then Some (false, s, w) else
  if negb (m_observer s =? NULL) || negb (m_reactorTask s =? NULL) then Some (false, s, w) else
  if negb names then Some (false, s, w) else
  let '(resized, pool) := CProRecvPool.Resize recvPoolSize mem (m_recvPool s) in
  let s := setPool pool s in
  if negb resized then Some (false, s, w) else
  '(added, w) ← rt_AddHandler sockId self PRO_MASK_READ w;
  if negb added then Some (false, s, w) else
  w ← w_AddRef observer w;
  Some (true, setOwner observer reactorTask sockId s, w).

(** [CProTcpTransport::Fini] *)
Definition Fini (s : t) (w : W) : option (t * W) :=
  if finished s then Some (s, w) else
  w ← rt_CancelTimer (m_timerId s) w;
  w ← rt_RemoveHandler (m_sockId s) self (Z.lor PRO_MASK_WRITE PRO_MASK_READ) w;
  let observer := m_observer s in
  w ← w_Release observer w;
  Some (setOwner NULL NULL (m_sockId s) (setTimer 0 s), w).

(** [if (!m_onWr) { if (!AddHandler(.., PRO_MASK_WRITE)) return false; m_onWr = true; }] *)
Definition ensureWr (s : t) (w : W) : option (bool * t * W) :=
  if m_onWr (m_out s) then Some (true, s, w) else
  '(added, w) ← rt_AddHandler (m_sockId s) self PRO_MASK_WRITE w;
  Some (added, if (added : bool) then setOut (setOnWr true (m_out s)) s else s, w).

(** [CProTcpTransport::SendData]; [alloc] is the allocator's answer in the pool *)
Definition SendData (alloc : bool) (buf : list Z) (actionId : Z) (s : t) (w : W)
    : option (bool * t * W) :=
  if zlen buf =? 0 then Some (false, s, w) else
  if finished s then Some (false, s, w) else
  if m_pendingWr (m_out s) then Some (false, s, w) else
  '(ok, s, w) ← ensureWr s w;
  if negb ok then Some (false, s, w) else
  let o := m_out s in
  Some (true, setOut (setAction actionId (setPending true
    (setSendPool (CProSendPool.Fill alloc buf (m_sendPool o)) o))) s, w).

(** [CProTcpTransport::SendFd]: [packet] is the image of the [PRO_SERVICE_PACKET],
    [oldSock] its [s2c.oldSock.sockId], [magic] its [CheckMagic()] *)
Definition SendFd (alloc : bool) (packet : list Z) (oldSock : Z) (magic : bool) (s : t) (w : W)
    : option (bool * t * W) :=
  if (oldSock =? -1) || negb magic then Some (false, s, w) else
  if finished s then Some (false, s, w) else
  if m_pendingWr (m_out s) then Some (false, s, w) else
  '(ok, s, w) ← ensureWr s w;
  if negb ok then Some (false, s, w) else
  let o := m_out s in
  Some (true, setOut (setPending true (setSendingFd oldSock
    (setSendPool (CProSendPool.Fill alloc packet (m_sendPool o)) o))) s, w).

(** [CProTcpTransport::RequestOnSend] *)
Definition RequestOnSend (s : t) (w : W) : option (t * W) :=
  if finished s then Some (s, w) else
  if m_requestOnSend (m_out s) then Some (s, w) else
  '(ok, s, w) ← ensureWr s w;
  if negb ok then Some (s, w) else
  Some (setOut (setRequest true (m_out s)) s, w).

(** [CProTcpTransport::SuspendRecv], [CProTcpTransport::ResumeRecv] *)
Definition SuspendRecv (s : t) (w : W) : option (t * W) :=
  if finished s then Some (s, w) else
  w ← rt_RemoveHandler (m_sockId s) self PRO_MASK_READ w; Some (s, w).

Definition ResumeRecv (s : t) (w : W) : option (t * W) :=
  if finished s then Some (s, w) else
  '(_, w) ← rt_AddHandler (m_sockId s) self PRO_MASK_READ w; Some (s, w).

(** [CProTcpTransport::StartHeartbeat], [CProTcpTransport::StopHeartbeat] *)
Definition StartHeartbeat (s : t) (w : W) : option (t * W) :=
  if finished s then Some (s, w) else
  if m_timerId s =? 0 then
    '(id, w) ← rt_ScheduleHeartbeatTimer self w; Some (setTimer id s, w)
  else Some (s, w).

Definition StopHeartbeat (s : t) (w : W) : option (t * W) :=
  if finished s then Some (s, w) else
  w ← rt_CancelTimer (m_timerId s) w; Some (setTimer 0 s, w).

(** ** The handlers *)

Context (upcall : Z -> event -> t * W -> option (t * W)).

(** The end of every handler: [observer->Release(); if (!m_canUpcall) Fini();] *)
Definition leave (observer : Z) (es : list event) (s : t) (w : W)
    : option (list event * t * W) :=
  w ← w_Release observer w;
  '(s, w) ← (if m_canUpcall s then Some (s, w) else Fini s w);
  Some (es, s, w).

(** [m_canUpcall = false; observer->OnClose(this, errorCode, sslCode);] *)
Definition close (observer errorCode sslCode : Z) (s : t) (w : W) : option (t * W) :=
  upcall observer (OnClose errorCode sslCode) (noUpcall s, w).

(** The locked section of [OnInputData]: [recvSize], [errorCode], the new state. *)
Definition inputLocked (s : t) (w : W) : Z * Z * t * W :=
  let idleSize := CProRecvPool.ContinuousIdleSize (m_recvPool s) in
  if idleSize =? 0 then (-1, -1, s, w) else
  let '(r, w) := pbsd_recv (m_sockId s) idleSize w in
  match r with
  | Received bs =>
      if zlen bs >? idleSize then (-1, -1, s, w)
      else if zlen bs >? 0
      then (zlen bs, 0,
            setPool (CProRecvPool.Fill (zlen bs) (CProRecvPool.writeIdle bs (m_recvPool s))) s, w)
      else (0, 0, s, w)
  | RecvError errno => (-1, errno, s, w)
  end.

(** [CProTcpTransport::OnInputData] (what [OnInput] is outside [recvFdMode]).
    The list is the upcalls that were made. *)
Definition OnInputData (sockId : Z) (s : t) (w : W) : option (list event * t * W) :=
  if sockId =? -1 then Some ([], s, w) else
  if finished s then Some ([], s, w) else
  if negb (sockId =? m_sockId s) then Some ([], s, w) else
  let '(recvSize, errorCode, s, w) := inputLocked s w in
  let observer := m_observer s in
  w ← w_AddRef observer w;
  '(es, s, w) ←
    (if m_canUpcall s then
       if recvSize >? 0 then
         '(s, w) ← upcall observer OnRecv (s, w); Some ([OnRecv], s, w)
       else if ((recvSize <? 0) && negb (errorCode =? PBSD_EWOULDBLOCK)) || (recvSize =? 0) then
         '(s, w) ← close observer errorCode 0 s w; Some ([OnClose errorCode 0], s, w)
       else Some ([], s, w)
     else Some ([], s, w));
  leave observer es s w.

(** What the locked section of [OnOutput] finds out. *)
Record sent := mkSent {
  sentSize : Z;
  errorCode : Z;
  onSendBuf : bool;     (* [onSendBuf != NULL] *)
  early : bool          (* the [return] when there was nothing to do *)
}.

(** The three branches of the locked section of [OnOutput]. *)
Definition outputLocked (s : t) (w : W) : option (sent * t * W) :=
  let o := m_out s in
  match CProSendPool.PreSend (m_sendPool o) with
  | None =>
      let o := setPending false o in
      if m_requestOnSend o then Some (mkSent 0 0 false false, setOut o s, w) else
      if m_onWr o then
        w ← rt_RemoveHandler (m_sockId s) self PRO_MASK_WRITE w;
        Some (mkSent 0 0 false true, setOut (setOnWr false o) s, w)
      else Some (mkSent 0 0 false true, setOut o s, w)
  | Some theBuf =>
      if m_sendingFd o =? -1 then
        let '(n, errno, w) := pbsd_send (m_sockId s) theBuf w in
        if n >? zlen theBuf then Some (mkSent (-1) (-1) false false, s, w) else
        if n >? 0 then
          let pool := CProSendPool.Flush n (m_sendPool o) in
          match CProSendPool.OnSendBuf pool with
          | Some _ =>
              Some (mkSent n 0 true false,
                setOut (setPending false (setSendPool (CProSendPool.PostSend pool) o)) s, w)
          | None => Some (mkSent n 0 false false, setOut (setSendPool pool o) s, w)
          end
        else if n =? 0 then Some (mkSent (-1) PBSD_EWOULDBLOCK false false, s, w)
        else Some (mkSent n errno false false, s, w)
      else
        let '(n, w) := pbsd_sendmsg (m_sockId s) theBuf (m_sendingFd o) w in
        let r := if negb (n =? zlen theBuf) then mkSent (-1) (-1) false false
                 else mkSent n 0 false false in
        Some (r, setOut (setSendingFd (-1) o) s, w)
  end.

(** The second locked section of [OnOutput], after [OnSend]. *)
Definition outputIdle (s : t) (w : W) : option (t * W) :=
  let o := m_out s in
  if finished s then Some (s, w) else
  if m_onWr o && negb (m_pendingWr o) && negb (m_requestOnSend o) then
    w ← rt_RemoveHandler (m_sockId s) self PRO_MASK_WRITE w;
    Some (setOut (setOnWr false o) s, w)
  else Some (s, w).

(** [CProTcpTransport::OnOutput] *)
Definition OnOutput (sockId : Z) (s : t) (w : W) : option (list event * t * W) :=
  if sockId =? -1 then Some ([], s, w) else
  if finished s then Some ([], s, w) else
  if negb (sockId =? m_sockId s) then Some ([], s, w) else
  '(r, s, w) ← outputLocked s w;
  if early r then Some ([], s, w) else
  let o := m_out s in
  let requestOnSend := m_requestOnSend o in
  let o := setRequest false o in
  let actionId := if onSendBuf r then m_actionId o else 0 in
  let o := if onSendBuf r then setAction 0 o else o in
  let s := setOut o s in
  let observer := m_observer s in
  w ← w_AddRef observer w;
  '(es, s, w) ←
    (if m_canUpcall s then
       if (sentSize r <? 0) && negb (errorCode r =? PBSD_EWOULDBLOCK) then
         '(s, w) ← close observer (errorCode r) 0 s w; Some ([OnClose (errorCode r) 0], s, w)
       else if onSendBuf r || requestOnSend then
         '(s, w) ← upcall observer (OnSend actionId) (s, w);
         '(s, w) ← outputIdle s w;
         Some ([OnSend actionId], s, w)
       else Some ([], s, w)
     else Some ([], s, w));
  leave observer es s w.

(** [CProTcpTransport::OnError] *)
Definition OnError (sockId errorCode : Z) (s : t) (w : W) : option (list event * t * W) :=
  if sockId =? -1 then Some ([], s, w) else
  if finished s then Some ([], s, w) else
  if negb (sockId =? m_sockId s) then Some ([], s, w) else
  let observer := m_observer s in
  w ← w_AddRef observer w;
  '(es, s, w) ←
    (if m_canUpcall s then
       '(s, w) ← close observer errorCode 0 s w; Some ([OnClose errorCode 0], s, w)
     else Some ([], s, w));
  w ← w_Release observer w;
  '(s, w) ← Fini s w;
  Some (es, s, w).

(** [CProTcpTransport::OnTimer] *)
Definition OnTimer (timerId : Z) (s : t) (w : W) : option (list event * t * W) :=
  if timerId =? 0 then Some ([], s, w) else
  if finished s then Some ([], s, w) else
  if negb (timerId =? m_timerId s) then Some ([], s, w) else
  let observer := m_observer s in
  w ← w_AddRef observer w;
  '(es, s, w) ←
    (if m_canUpcall s then
       '(s, w) ← upcall observer OnHeartbeat (s, w); Some ([OnHeartbeat], s, w)
     else Some ([], s, w));
  w ← w_Release observer w;
  Some (es, s, w).

End ops.
End CProTcpTransport.

(** ** What the surroundings promise *)

(** The transport [self] on its socket [sock], seen from the outside: whether it is
    registered for output, the bytes the kernel has taken on the socket, the
    messages that [SendData] accepted (its callers keep this log), and the
    references the transport holds. *)
Class NetView (W : Type) := {
  w_wr : W -> bool;
  w_out : W -> list Z;
  w_log : W -> list (list Z);
  w_holds : W -> list Z -> Prop
}.

(** A step of the world that leaves the transport's view alone. *)
Definition same {W} `{NetView W} (w w' : W) : Prop :=
  w_wr w' = w_wr w /\ w_out w' = w_out w /\ w_log w' = w_log w /\
  forall ps, w_holds w ps -> w_holds w' ps.

Class NetWorldLaws (W : Type) `{NetWorld W, NetView W} (sock self : Z) := {
  AddHandler_law m w : exists b w', rt_AddHandler sock self m w = Some (b, w') /\
    w_wr w' = w_wr w || (b && PRO_BIT_ENABLED m PRO_MASK_WRITE) /\
    w_out w' = w_out w /\ w_log w' = w_log w /\ (forall ps, w_holds w ps -> w_holds w' ps);
  RemoveHandler_law m w : exists w', rt_RemoveHandler sock self m w = Some w' /\
    w_wr w' = w_wr w && negb (PRO_BIT_ENABLED m PRO_MASK_WRITE) /\
    w_out w' = w_out w /\ w_log w' = w_log w /\ (forall ps, w_holds w ps -> w_holds w' ps);
  Schedule_law w : exists id w', rt_ScheduleHeartbeatTimer self w = Some (id, w') /\ same w w';
  Cancel_law id w : exists w', rt_CancelTimer id w = Some w' /\ same w w';
  holds_perm w ps qs : ps ≡ₚ qs -> w_holds w ps -> w_holds w qs;
  AddRef_law p ps w : w_holds w ps -> p ∈ ps ->
    exists w', w_AddRef p w = Some w' /\ same w w' /\ w_holds w' (p :: ps);
  Release_law p ps w : w_holds w (p :: ps) ->
    exists w', w_Release p w = Some w' /\ w_wr w' = w_wr w /\ w_out w' = w_out w /\
      w_log w' = w_log w /\ w_holds w' ps;
  recv_law n w : same w (snd (pbsd_recv sock n w)) /\
    match fst (pbsd_recv sock n w) with Received bs => zlen bs <= n | RecvError _ => True end;
  send_law buf w n e w' : pbsd_send sock buf w = (n, e, w') ->
    n <= zlen buf /\ w_out w' = w_out w ++ ztake n buf /\
    w_wr w' = w_wr w /\ w_log w' = w_log w /\ (forall ps, w_holds w ps -> w_holds w' ps)
}.

Module TcpProofs.
Import CProTcpTransport.

Section proofs.
Context {W : Type} (sock self : Z) {HW : NetWorld W} {HV : NetView W}.
Context {HL : NetWorldLaws W sock self}.
Implicit Types (s : t) (w : W).

(** The references a transport holds: one to its observer while it is alive. *)
Definition own s : list Z := if finished s then [] else [m_observer s].

Record inv s w : Prop := mkInv {
  inv_sock : m_sockId s = sock;
  inv_wr : w_wr w = if finished s then false else m_onWr (m_out s);
  inv_wake : finished s = false ->
    m_pendingWr (m_out s) || m_requestOnSend (m_out s) = true -> m_onWr (m_out s) = true;
  inv_fd : m_sendingFd (m_out s) = -1;
  inv_pool : exists sent cur, CProSendPool.rep (m_sendPool (m_out s)) sent cur /\
    w_out w ++ CProSendPool.unsent sent cur = concat (w_log w) /\
    (if m_pendingWr (m_out s) then exists m, cur = [m] /\ sent < zlen m else cur = []);
  inv_recv : exists d, CProRecvPool.rep (m_recvPool s) d
}.

(** What the observer, and other threads, may do to the transport: its public
    operations, in any number and order, and whatever leaves its view alone. *)
Inductive client : t * W -> t * W -> Prop :=
  | c_refl x : client x x
  | c_trans x y z : client x y -> client y z -> client x z
  | c_send s w buf a s' w' w'' :
      0 < zlen buf < 2 ^ 64 ->
      SendData self true buf a s w = Some (true, s', w') ->
      w_log w'' = w_log w' ++ [buf] -> w_wr w'' = w_wr w' -> w_out w'' = w_out w' ->
      (forall ps, w_holds w' ps -> w_holds w'' ps) ->
      client (s, w) (s', w'')
  | c_send_refused s w alloc buf a s' w' :
      SendData self alloc buf a s w = Some (false, s', w') -> client (s, w) (s', w')
  | c_request s w s' w' : RequestOnSend self s w = Some (s', w') -> client (s, w) (s', w')
  | c_suspend s w s' w' : SuspendRecv self s w = Some (s', w') -> client (s, w) (s', w')
  | c_resume s w s' w' : ResumeRecv self s w = Some (s', w') -> client (s, w) (s', w')
  | c_start s w s' w' : StartHeartbeat self s w = Some (s', w') -> client (s, w) (s', w')
  | c_stop s w s' w' : StopHeartbeat s w = Some (s', w') -> client (s, w) (s', w')
  | c_fini s w s' w' : Fini self s w = Some (s', w') -> client (s, w) (s', w')
  | c_flush s w n : 0 <= n ->
      client (s, w) (setPool (CProRecvPool.FlushBytes n (m_recvPool s)) s, w)
  | c_world s w w' : same w w' -> client (s, w) (s, w').

(** Everything a locked operation keeps: the flag that only the handlers touch,
    the invariant, and the accounting of references. *)
Definition good (x y : t * W) : Prop :=
  m_canUpcall (fst y) = m_canUpcall (fst x) /\
  (finished (fst x) = true -> finished (fst y) = true) /\
  forall ps, inv (fst x) (snd x) -> w_holds (snd x) (own (fst x) ++ ps) ->
    inv (fst y) (snd y) /\ w_holds (snd y) (own (fst y) ++ ps).

Lemma same_refl w : same w w.
Proof. by split_and!. Qed.

Lemma good_refl x : good x x.
Proof. by split_and!. Qed.

Lemma good_trans x y z : good x y -> good y z -> good x z.
Proof.
  intros (A1 & A2 & A3) (B1 & B2 & B3). split; [congruence|]. split; [auto|].
  intros ps Hi Hh. destruct (A3 ps Hi Hh). auto.
Qed.

Lemma inv_same s w w' : same w w' -> inv s w -> inv s w'.
Proof. intros (E1 & E2 & E3 & _) []. split; rewrite ?E1, ?E2, ?E3; auto. Qed.

Lemma good_same s w w' : same w w' -> good (s, w) (s, w').
Proof.
  intros Hs. split_and!; try done; cbn. intros ps Hi Hh.
  split; [by apply (inv_same s w)|by apply Hs].
Qed.

(** Changing only what [inv] does not mention. *)
Lemma good_setTimer id s w : good (s, w) (setTimer id s, w).
Proof. split_and!; try done; cbn. intros ps []. by repeat split. Qed.

Lemma tcp_Fini_ok s w ps :
  inv s w -> w_holds w (own s ++ ps) ->
  exists s' w', Fini self s w = Some (s', w') /\ finished s' = true /\
    m_canUpcall s' = m_canUpcall s /\ inv s' w' /\ w_holds w' (own s' ++ ps).
Proof.
  intros Hi Hh. unfold Fini. unfold own in Hh. destruct (finished s) eqn:Ef.
  { do 2 eexists; split; [done|]. split_and!; try done. unfold own. by rewrite Ef. }
  destruct (Cancel_law (m_timerId s) w) as (w1 & -> & S1). cbn [mbind option_bind].
  destruct (RemoveHandler_law (Z.lor PRO_MASK_WRITE PRO_MASK_READ) w1)
    as (w2 & E2 & R2 & O2 & L2 & P2).
  rewrite (inv_sock _ _ Hi), E2. cbn [mbind option_bind].
  destruct (Release_law (m_observer s) ps w2) as (w3 & -> & R3 & O3 & L3 & P3).
  { apply P2. by apply S1. }
  cbn [mbind option_bind]. do 2 eexists; split; [done|]. split_and!; try done.
  pose proof (inv_same _ _ _ S1 Hi) as [I1 I2 I3 I4 I5 I6]. split; cbn; auto.
  - rewrite R3, R2. by rewrite andb_false_r.
  - destruct I5 as (sent & cur & ? & ? & ?). exists sent, cur. by rewrite O3, O2, L3, L2.
Qed.

Lemma Fini_good s w s' w' : Fini self s w = Some (s', w') -> good (s, w) (s', w').
Proof.
  intros E. split; [|split]; cbn.
  - unfold Fini in E. destruct (finished s); [by simplify_eq|].
    repeat (apply bind_Some in E as (? & _ & E)). by simplify_eq.
  - unfold Fini in E. intros Ef. rewrite Ef in E. by simplify_eq.
  - intros ps Hi Hh. destruct (tcp_Fini_ok s w ps Hi Hh) as (? & ? & E' & _ & _ & ? & ?).
    rewrite E' in E. by simplify_eq.
Qed.

Lemma ensureWr_ok s w :
  inv s w -> finished s = false ->
  exists ok s' w', ensureWr self s w = Some (ok, s', w') /\ inv s' w' /\
    (s' = s \/ s' = setOut (setOnWr true (m_out s)) s) /\
    (ok = true -> m_onWr (m_out s') = true) /\
    w_out w' = w_out w /\ w_log w' = w_log w /\ (forall ps, w_holds w ps -> w_holds w' ps).
Proof.
  intros Hi Ef. unfold ensureWr. destruct (m_onWr (m_out s)) eqn:Ew.
  { exists true, s, w. split_and!; auto. }
  destruct (AddHandler_law PRO_MASK_WRITE w) as (b & w1 & E & R & O & L & P).
  pose proof Hi as [I1 I2 I3 I4 I5 I6]. rewrite I1, E. cbn [mbind option_bind].
  change (PRO_BIT_ENABLED PRO_MASK_WRITE PRO_MASK_WRITE) with true in R.
  rewrite I2, Ef, Ew, andb_true_r in R. cbn in R.
  exists b, (if b then setOut (setOnWr true (m_out s)) s else s), w1.
  split; [done|]. destruct b; split_and!; auto; try done.
  - split; cbn; auto; [|by rewrite O, L]. rewrite R.
    change (finished (setOut (setOnWr true (m_out s)) s)) with (finished s). by rewrite Ef.
  - split; auto; [by rewrite R, Ef, Ew|by rewrite O, L].
Qed.

(** [ensureWr] changes nothing but [m_onWr]. *)
Lemma ensureWr_frame s s' :
  s' = s \/ s' = setOut (setOnWr true (m_out s)) s ->
  own s' = own s /\ finished s' = finished s /\ m_canUpcall s' = m_canUpcall s /\
  m_pendingWr (m_out s') = m_pendingWr (m_out s) /\
  m_requestOnSend (m_out s') = m_requestOnSend (m_out s) /\
  m_sendPool (m_out s') = m_sendPool (m_out s).
Proof. by intros [-> | ->]. Qed.

Ltac run_ensureWr :=
  match goal with
  | Hi : inv ?s ?w, Ef : finished ?s = false |- _ =>
      destruct (ensureWr_ok s w Hi Ef)
        as (ok & s1 & w1 & Eens & Hi1 & Hs1 & Hok & Ho1 & Hl1 & Hp1);
      destruct (ensureWr_frame s s1 Hs1) as (Fo & Ff & Fc & Fp & Fr & Fs)
  end.

(** The effect of an accepted message, once it is logged. *)
Lemma SendData_good s w buf a s' w' w'' :
  0 < zlen buf < 2 ^ 64 ->
  SendData self true buf a s w = Some (true, s', w') ->
  w_log w'' = w_log w' ++ [buf] -> w_wr w'' = w_wr w' -> w_out w'' = w_out w' ->
  (forall ps, w_holds w' ps -> w_holds w'' ps) ->
  good (s, w) (s', w'').
Proof.
  intros Hb E Hl Hr Ho Hp. unfold SendData in E.
  destruct (Z.eqb_spec (zlen buf) 0); [done|]. destruct (finished s) eqn:Ef; [done|].
  destruct (m_pendingWr (m_out s)) eqn:Ep; [done|].
  split; [|split]; cbn.
  - unfold ensureWr in E. destruct (m_onWr (m_out s)); cbn in E; [by simplify_eq|].
    destruct (rt_AddHandler _ _ _ w) as [[[] ?]|]; cbn in E; by simplify_eq.
  - congruence.
  - intros ps Hi Hh. run_ensureWr. rewrite Eens in E. cbn [mbind option_bind] in E.
    destruct ok; cbn [negb] in E; [|done]. injection E as <- <-.
    destruct Hi1 as [I1 I2 I3 I4 I5 I6]. rewrite Ff, Ef in I2, I3. rewrite Fp, Ep in I5.
    destruct I5 as (sent & cur & Hrep & Hst & ->). specialize (Hok eq_refl).
    split; [split; cbn|].
    + done.
    + change (finished (setOut _ s1)) with (finished s1). rewrite Ff, Ef. congruence.
    + done.
    + done.
    + exists sent, [buf]. split; [by apply (CProSendPool.Fill_rep _ sent [])|].
      rewrite Ho, Hl. unfold CProSendPool.unsent in *. cbn in *.
      pose proof (CProSendPool.rep_sent _ _ _ Hrep). assert (sent = 0) as -> by lia. cbn in *.
      rewrite app_nil_r, concat_app, <- Hst. cbn. rewrite !app_nil_r.
      split; [done|]. eexists; split; [done|]. lia.
    + done.
    + cbn. change (own (setOut _ s1)) with (own s1). rewrite Fo. auto.
Qed.

Lemma ensureWr_good s w ok s' w' :
  finished s = false -> ensureWr self s w = Some (ok, s', w') -> good (s, w) (s', w').
Proof.
  intros Ef E. split; [|split]; cbn.
  - unfold ensureWr in E. destruct (m_onWr (m_out s)); cbn in E; [by simplify_eq|].
    destruct (rt_AddHandler _ _ _ w) as [[[] ?]|]; cbn in E; by simplify_eq.
  - congruence.
  - intros ps Hi Hh. destruct (ensureWr_ok s w Hi Ef) as (ok1 & s1 & w1 & E' & Hi1 & Hs & _ & _ & _ & Hp).
    rewrite E' in E. simplify_eq. split; [done|].
    destruct (ensureWr_frame s s' Hs) as (-> & _). auto.
Qed.

Lemma SendData_refused s w alloc buf a s' w' :
  SendData self alloc buf a s w = Some (false, s', w') -> good (s, w) (s', w').
Proof.
  unfold SendData. intros E. destruct (zlen buf =? 0); [simplify_eq; apply good_refl|].
  destruct (finished s) eqn:Ef; [simplify_eq; apply good_refl|].
  destruct (m_pendingWr (m_out s)); [simplify_eq; apply good_refl|].
  apply bind_Some in E as ([[ok s1] w1] & E1 & E). destruct ok; cbn in E; simplify_eq.
  by apply (ensureWr_good s w false).
Qed.

Lemma good_request s w :
  finished s = false -> m_onWr (m_out s) = true ->
  good (s, w) (setOut (setRequest true (m_out s)) s, w).
Proof. intros Ef Ew. split_and!; try done; cbn. intros ps [] Hh. split; [by split|done]. Qed.

Lemma RequestOnSend_good s w s' w' :
  RequestOnSend self s w = Some (s', w') -> good (s, w) (s', w').
Proof.
  unfold RequestOnSend. intros E. destruct (finished s) eqn:Ef; [simplify_eq; apply good_refl|].
  destruct (m_requestOnSend (m_out s)); [simplify_eq; apply good_refl|].
  apply bind_Some in E as ([[ok s1] w1] & E1 & E).
  eapply good_trans; [by apply (ensureWr_good s w ok s1 w1)|].
  destruct ok; cbn in E; simplify_eq; [|apply good_refl].
  unfold ensureWr in E1. destruct (m_onWr (m_out s)) eqn:Ew.
  - simplify_eq. by apply good_request.
  - apply bind_Some in E1 as ([b w2] & _ & E1). destruct b; [|done]. simplify_eq.
    by apply good_request.
Qed.

(** Registering for input, or no longer, changes nothing that the view shows. *)
Lemma good_rt_Add m s w b w' :
  PRO_BIT_ENABLED m PRO_MASK_WRITE = false ->
  rt_AddHandler (m_sockId s) self m w = Some (b, w') -> good (s, w) (s, w').
Proof.
  intros Hm E. split_and!; try done; cbn. intros ps Hi Hh.
  rewrite (inv_sock _ _ Hi) in E.
  destruct (AddHandler_law m w) as (b' & w1 & E' & R & O & L & P). rewrite E' in E. simplify_eq.
  rewrite Hm, andb_false_r, orb_false_r in R. split; [|auto].
  by apply (inv_same s w).
Qed.

Lemma good_rt_Remove m s w w' :
  PRO_BIT_ENABLED m PRO_MASK_WRITE = false ->
  rt_RemoveHandler (m_sockId s) self m w = Some w' -> good (s, w) (s, w').
Proof.
  intros Hm E. split_and!; try done; cbn. intros ps Hi Hh.
  rewrite (inv_sock _ _ Hi) in E.
  destruct (RemoveHandler_law m w) as (w1 & E' & R & O & L & P). rewrite E' in E. simplify_eq.
  rewrite Hm, andb_true_r in R. split; [|auto]. by apply (inv_same s w).
Qed.

Lemma good_flush s w n :
  0 <= n -> good (s, w) (setPool (CProRecvPool.FlushBytes n (m_recvPool s)) s, w).
Proof.
  intros Hn. split_and!; try done; cbn. intros ps [] Hh. split; [|done]. split; try done.
  destruct inv_recv0 as [d Hd]. eexists. exact (proj1 (CProRecvPool.FlushBytes_rep _ d n Hd Hn)).
Qed.

Lemma client_good x y : client x y -> good x y.
Proof.
  induction 1.
  - apply good_refl.
  - by eapply good_trans.
  - by eapply SendData_good.
  - by eapply SendData_refused.
  - by apply RequestOnSend_good.
  - unfold SuspendRecv in *. destruct (finished s); [simplify_eq; apply good_refl|].
    apply bind_Some in H as (w1 & E & ?). simplify_eq. eapply good_rt_Remove; [|exact E]; done.
  - unfold ResumeRecv in *. destruct (finished s); [simplify_eq; apply good_refl|].
    apply bind_Some in H as ([b w1] & E & ?). simplify_eq. eapply good_rt_Add; [|exact E]; done.
  - unfold StartHeartbeat in *. destruct (finished s); [simplify_eq; apply good_refl|].
    destruct (m_timerId s =? 0); [|simplify_eq; apply good_refl].
    apply bind_Some in H as ([id w1] & E & ?). simplify_eq.
    eapply good_trans; [|apply good_setTimer]. apply good_same.
    destruct (Schedule_law (self := self) w) as (? & ? & E' & ?). rewrite E' in E. by simplify_eq.
  - unfold StopHeartbeat in *. destruct (finished s); [simplify_eq; apply good_refl|].
    apply bind_Some in H as (w1 & E & ?). simplify_eq.
    eapply good_trans; [|apply good_setTimer]. apply good_same.
    destruct (Cancel_law (m_timerId s) w) as (? & E' & ?). rewrite E' in E. by simplify_eq.
  - by apply Fini_good.
  - by apply good_flush.
  - by apply good_same.
Qed.

Section handlers.
Context (upcall : Z -> event -> t * W -> option (t * W)).

(** The observer's methods run to their end, using the transport as a client. *)
Context (Hup : forall o e s w ps, inv s w -> w_holds w (own s ++ ps) -> o ∈ ps ->
  exists s' w', upcall o e (s, w) = Some (s', w') /\ client (s, w) (s', w')).

Lemma deliver_ok o e s w ps :
  inv s w -> w_holds w (o :: own s ++ ps) ->
  exists s' w', upcall o e (s, w) = Some (s', w') /\ inv s' w' /\
    w_holds w' (o :: own s' ++ ps) /\ m_canUpcall s' = m_canUpcall s /\
    (finished s = true -> finished s' = true).
Proof.
  intros Hi Hh.
  assert (Hh' : w_holds w (own s ++ o :: ps)).
  { eapply (holds_perm (sock := sock) (self := self)); [|exact Hh]. by rewrite Permutation_middle. }
  destruct (Hup o e s w (o :: ps) Hi Hh') as (s' & w' & E & (G1 & G2 & G3)%client_good); [left|].
  destruct (G3 (o :: ps) Hi Hh') as [Hi' Hp]. exists s', w'. split_and!; auto.
  eapply (holds_perm (sock := sock) (self := self)); [|exact Hp]. by rewrite Permutation_middle.
Qed.

Lemma close_ok o c k s w ps :
  inv s w -> w_holds w (o :: own s ++ ps) ->
  exists s' w', close upcall o c k s w = Some (s', w') /\ inv s' w' /\
    w_holds w' (o :: own s' ++ ps) /\ m_canUpcall s' = false.
Proof.
  intros Hi Hh. unfold close.
  destruct (deliver_ok o (OnClose c k) (noUpcall s) w ps) as (s' & w' & ? & ? & ? & ? & _);
    [by destruct Hi|done|]. exists s', w'. by split_and!.
Qed.

Lemma leave_ok o es s w ps :
  inv s w -> w_holds w (o :: own s ++ ps) ->
  exists s' w', leave self o es s w = Some (es, s', w') /\ inv s' w' /\
    w_holds w' (own s' ++ ps) /\ m_canUpcall s' = m_canUpcall s /\
    (m_canUpcall s' = false -> finished s' = true).
Proof.
  intros Hi Hh. unfold leave.
  destruct (Release_law o (own s ++ ps) w Hh) as (w1 & -> & R & O & L & P). cbn [mbind option_bind].
  assert (Hi1 : inv s w1) by (destruct Hi; split; rewrite ?R, ?O, ?L; done).
  destruct (m_canUpcall s) eqn:Ec; cbn [mbind option_bind].
  - do 2 eexists; split; [done|]. split_and!; try done. congruence.
  - destruct (tcp_Fini_ok s w1 ps Hi1 P) as (s' & w' & -> & ? & ? & ? & ?). cbn [mbind option_bind].
    do 2 eexists; split; [done|]. split_and!; try done. congruence.
Qed.

(** What every handler does, whatever happens around it. *)
Definition handled s (es : list event) s' w' ps : Prop :=
  inv s' w' /\ w_holds w' (own s' ++ ps) /\ (m_canUpcall s' = false -> finished s' = true) /\
  (es = [] \/ exists e, es = [e] /\ finished s = false /\ m_canUpcall s = true) /\
  (forall c k, OnClose c k ∈ es -> m_canUpcall s' = false) /\
  (m_canUpcall s = false -> m_canUpcall s' = false).

Lemma handled_nothing s w ps :
  inv s w -> w_holds w (own s ++ ps) -> (m_canUpcall s = false -> finished s = true) ->
  handled s [] s w ps.
Proof. intros. split_and!; auto. intros c k Hin. by apply not_elem_of_nil in Hin. Qed.

Lemma enter_ok s w ps :
  w_holds w (own s ++ ps) -> finished s = false ->
  exists w', w_AddRef (m_observer s) w = Some w' /\ same w w' /\
    w_holds w' (m_observer s :: own s ++ ps).
Proof. intros Hh Ef. apply AddRef_law; [done|]. unfold own. rewrite Ef. left. Qed.

Lemma inputLocked_ok s w ps n c s' w' :
  inv s w -> w_holds w (own s ++ ps) -> inputLocked s w = (n, c, s', w') ->
  inv s' w' /\ w_holds w' (own s' ++ ps) /\ m_observer s' = m_observer s /\
  finished s' = finished s /\ m_canUpcall s' = m_canUpcall s.
Proof.
  intros Hi Hh. unfold inputLocked.
  set (idle := CProRecvPool.ContinuousIdleSize (m_recvPool s)).
  destruct (Z.eqb_spec idle 0); [by intros [= <- <- <- <-]|].
  destruct (recv_law (self := self) (sock := sock) idle w) as [Hs Hr].
  rewrite (inv_sock _ _ Hi). destruct (pbsd_recv sock idle w) as [r w1]. cbn in Hs, Hr.
  pose proof (inv_same _ _ _ Hs Hi) as Hi1. assert (Hh1 : w_holds w1 (own s ++ ps)) by (by apply Hs).
  destruct r as [bs|errno]; [|by intros [= <- <- <- <-]].
  destruct (Z.gtb_spec (zlen bs) idle); [lia|].
  destruct (Z.gtb_spec (zlen bs) 0); [|by intros [= <- <- <- <-]]. intros [= <- <- <- <-].
  split_and!; try done. destruct Hi1 as [? ? ? ? ? [d Hd]]. split; try done. exists (d ++ bs).
  exact (proj1 (CProRecvPool.receive_rep _ d bs Hd (conj H0 Hr))).
Qed.

(** The common end: the events so far, then [leave]. *)
Lemma finish_ok s es o s1 w1 ps :
  inv s1 w1 -> w_holds w1 (o :: own s1 ++ ps) ->
  (es = [] \/ exists e, es = [e] /\ finished s = false /\ m_canUpcall s = true) ->
  (forall c k, OnClose c k ∈ es -> m_canUpcall s1 = false) ->
  (m_canUpcall s = false -> m_canUpcall s1 = false) ->
  exists es' s' w', leave self o es s1 w1 = Some (es', s', w') /\ handled s es' s' w' ps.
Proof.
  intros Hi Hh He Hcl Hc. destruct (leave_ok o es s1 w1 ps Hi Hh) as (s' & w' & -> & ? & ? & E & ?).
  do 3 eexists; split; [done|]. split_and!; auto; rewrite E; auto.
Qed.

Ltac finish :=
  cbn [mbind option_bind]; apply finish_ok;
  [ assumption | assumption
  | first [by left | right; eexists; split_and!; first [reflexivity | congruence]]
  | let Hin := fresh in intros ? ? Hin;
    first [assumption | congruence | by apply not_elem_of_nil in Hin
          | by apply list_elem_of_singleton in Hin]
  | congruence ].

Lemma OnInputData_ok sockId s w ps :
  inv s w -> w_holds w (own s ++ ps) -> (m_canUpcall s = false -> finished s = true) ->
  exists es s' w', OnInputData self upcall sockId s w = Some (es, s', w') /\
    handled s es s' w' ps.
Proof.
  intros Hi Hh Hc. unfold OnInputData.
  pose proof (handled_nothing s w ps Hi Hh Hc) as Hn.
  destruct (sockId =? -1); [do 3 eexists; split; [done|]; exact Hn|].
  destruct (finished s) eqn:Ef; [do 3 eexists; split; [done|]; exact Hn|].
  destruct (negb (sockId =? m_sockId s)); [do 3 eexists; split; [done|]; exact Hn|].
  destruct (inputLocked s w) as [[[n c] s1] w1] eqn:El.
  destruct (inputLocked_ok s w ps n c s1 w1 Hi Hh El) as (Hi1 & Hh1 & Ho1 & Hf1 & Hc1).
  destruct (enter_ok s1 w1 ps Hh1) as (w2 & -> & S2 & Hh2); [congruence|].
  pose proof (inv_same _ _ _ S2 Hi1) as Hi2. cbn [mbind option_bind].
  destruct (m_canUpcall s1) eqn:Ec; [|by finish].
  destruct (n >? 0).
  { destruct (deliver_ok (m_observer s1) OnRecv s1 w2 ps Hi2 Hh2) as (s3 & w3 & -> & Hi3 & Hh3 & Hc3 & _).
    by finish. }
  destruct (((n <? 0) && negb (c =? PBSD_EWOULDBLOCK)) || (n =? 0)).
  { destruct (close_ok (m_observer s1) c 0 s1 w2 ps Hi2 Hh2) as (s3 & w3 & -> & Hi3 & Hh3 & Hc3).
    by finish. }
  by finish.
Qed.

(** The invariant reads the sending part and the world only through these. *)
Lemma inv_out s w o w' :
  inv s w -> finished s = false ->
  w_wr w' = m_onWr o ->
  (m_pendingWr o || m_requestOnSend o = true -> m_onWr o = true) -> m_sendingFd o = -1 ->
  (exists sent cur, CProSendPool.rep (m_sendPool o) sent cur /\
    w_out w' ++ CProSendPool.unsent sent cur = concat (w_log w') /\
    (if m_pendingWr o then exists m, cur = [m] /\ sent < zlen m else cur = [])) ->
  inv (setOut o s) w'.
Proof.
  intros [I1 I2 I3 I4 I5 I6] Ef Hr Hw Hfd Hp. split; cbn; auto.
  change (finished (setOut o s)) with (finished s). by rewrite Ef.
Qed.

(** What one [send] leaves of the stream. *)
Lemma unsent_step m sent n :
  0 <= sent -> 0 <= n -> sent + n <= zlen m ->
  ztake n (zdrop sent m) ++ CProSendPool.unsent (sent + n) [m] = CProSendPool.unsent sent [m].
Proof.
  intros. unfold CProSendPool.unsent. cbn. rewrite app_nil_r.
  rewrite <- (zdrop_zdrop n sent) by lia. apply ztake_zdrop.
Qed.

Definition unlocked s s' : Prop :=
  own s' = own s /\ m_observer s' = m_observer s /\ finished s' = finished s /\
  m_canUpcall s' = m_canUpcall s.

Lemma outputLocked_ok s w ps :
  inv s w -> w_holds w (own s ++ ps) -> finished s = false ->
  exists r s' w', outputLocked self s w = Some (r, s', w') /\ inv s' w' /\
    w_holds w' (own s' ++ ps) /\ unlocked s s'.
Proof.
  intros Hi Hh Ef. pose proof Hi as [I1 I2 I3 I4 I5 I6]. destruct I5 as (sent & cur & Hrep & Hst & Hcur).
  rewrite Ef in I2. specialize (I3 Ef). unfold outputLocked.
  rewrite (CProSendPool.PreSend_rep _ _ _ Hrep).
  destruct (m_pendingWr (m_out s)) eqn:Ep.
  - destruct Hcur as (m & -> & Hlt). pose proof (CProSendPool.rep_sent _ _ _ Hrep) as Hs.
    destruct (Z.eqb_spec sent (zlen m)) as [|_]; [lia|]. rewrite I4, I1. cbn [Z.eqb].
    destruct (pbsd_send sock (zdrop sent m) w) as [[n e] w1] eqn:Es.
    apply send_law in Es as (Hn & Ho & Hr & Hl & Hp).
    assert (Hzl : zlen (zdrop sent m) = zlen m - sent) by (apply zlen_zdrop; lia).
    destruct (Z.gtb_spec n (zlen (zdrop sent m))); [lia|].
    destruct (Z.gtb_spec n 0) as [Hpos|Hneg].
    + pose proof (CProSendPool.Flush_rep _ sent m [] n Hrep ltac:(lia)) as Hrep1.
      pose proof (unsent_step m sent n ltac:(lia) ltac:(lia) ltac:(lia)) as Hu.
      rewrite (CProSendPool.OnSendBuf_rep _ _ _ Hrep1).
      pose proof (CProSendPool.PostSend_rep _ _ _ Hrep1) as Hrep2.
      destruct (Z.eqb_spec (sent + n) (zlen m)) as [Hall|Hpart].
      * do 3 eexists; split; [done|]. split; [|by split; [auto|]].
        apply (inv_out s w); try done; cbn; [congruence|auto|].
        rewrite Hall, Z.eqb_refl in Hrep2. exists 0, []. split; [done|]. split; [|done].
        rewrite Ho, Hl, <- Hst, <- Hu.
        unfold CProSendPool.unsent. cbn. rewrite !app_nil_r, (zdrop_all (sent + n)), app_nil_r by lia.
        done.
      * do 3 eexists; split; [done|]. split; [|by split; [auto|]].
        apply (inv_out s w); try done; cbn; [congruence|by rewrite Ep|].
        exists (sent + n), [m]. split; [done|]. rewrite Ep. split; [|eexists; split; [done|lia]].
        rewrite Ho, Hl, <- Hst, <- Hu. by rewrite app_assoc.
    + assert (Hsame : same w w1).
      { split_and!; try done. rewrite Ho. unfold ztake.
        replace (Z.to_nat n) with 0%nat by lia. by rewrite app_nil_r. }
      pose proof (inv_same _ _ _ Hsame Hi) as Hi1.
      destruct (n =? 0); do 3 eexists; (split; [done|]); by split_and!; auto.
  - rewrite Hcur in Hrep |- *. cbn [orb] in I3.
    change (m_requestOnSend (setPending false (m_out s))) with (m_requestOnSend (m_out s)).
    change (m_onWr (setPending false (m_out s))) with (m_onWr (m_out s)).
    assert (Hpool : exists sent cur, CProSendPool.rep (m_sendPool (m_out s)) sent cur /\
      w_out w ++ CProSendPool.unsent sent cur = concat (w_log w) /\ cur = [])
      by (exists sent, []; subst cur; done).
    destruct (m_requestOnSend (m_out s)) eqn:Er.
    { do 3 eexists; split; [done|]. split; [|by split_and!].
      apply (inv_out s w); try done; cbn; auto. }
    destruct (m_onWr (m_out s)) eqn:Ew.
    + destruct (RemoveHandler_law PRO_MASK_WRITE w) as (w1 & E & R & O & L & P).
      rewrite I1, E. cbn [mbind option_bind].
      do 3 eexists; split; [done|]. split; [|by split_and!; auto].
      apply (inv_out s w); try done; cbn; [|by rewrite Er|by rewrite O, L].
      rewrite R. by rewrite andb_false_r.
    + do 3 eexists; split; [done|]. split; [|by split_and!].
      apply (inv_out s w); try done; cbn; [congruence|by rewrite Er].
Qed.

Lemma outputIdle_ok s w ps :
  inv s w -> w_holds w (own s ++ ps) ->
  exists s' w', outputIdle self s w = Some (s', w') /\ inv s' w' /\ w_holds w' (own s' ++ ps) /\
    unlocked s s'.
Proof.
  intros Hi Hh. unfold outputIdle. destruct (finished s) eqn:Ef; [by do 2 eexists|].
  destruct (m_onWr (m_out s)) eqn:Ew; [|by do 2 eexists].
  destruct (m_pendingWr (m_out s)) eqn:Ep; [by do 2 eexists|].
  destruct (m_requestOnSend (m_out s)) eqn:Er; [by do 2 eexists|]. cbn [negb andb].
  destruct (RemoveHandler_law PRO_MASK_WRITE w) as (w1 & E & R & O & L & P).
  rewrite (inv_sock _ _ Hi), E. cbn [mbind option_bind].
  do 2 eexists; split; [done|]. split; [|by split_and!; auto].
  destruct (inv_pool _ _ Hi) as (sent & cur & ? & ? & Hcur). rewrite Ep in Hcur.
  apply (inv_out s w); try done; cbn.
  - rewrite R. by rewrite andb_false_r.
  - by rewrite Ep, Er.
  - by destruct Hi.
  - exists sent, cur. by rewrite O, L, Ep.
Qed.

(** Clearing the request and the action id. *)
Lemma inv_taken (b : bool) s w :
  inv s w -> finished s = false ->
  inv (setOut (if b then setAction 0 (setRequest false (m_out s)) else setRequest false (m_out s)) s) w.
Proof.
  intros [I1 I2 I3 I4 I5 I6] Ef. rewrite Ef in I2. specialize (I3 Ef).
  assert (Hw : m_pendingWr (m_out s) || false = true -> m_onWr (m_out s) = true).
  { rewrite orb_false_r. intros E. apply I3. by rewrite E. }
  destruct b; (apply (inv_out s w); [by split; auto; rewrite Ef|done..]).
Qed.

Lemma OnOutput_ok sockId s w ps :
  inv s w -> w_holds w (own s ++ ps) -> (m_canUpcall s = false -> finished s = true) ->
  exists es s' w', OnOutput self upcall sockId s w = Some (es, s', w') /\ handled s es s' w' ps.
Proof.
  intros Hi Hh Hc. unfold OnOutput. pose proof (handled_nothing s w ps Hi Hh Hc) as Hn.
  destruct (sockId =? -1); [do 3 eexists; split; [done|]; exact Hn|].
  destruct (finished s) eqn:Ef; [do 3 eexists; split; [done|]; exact Hn|].
  destruct (negb (sockId =? m_sockId s)); [do 3 eexists; split; [done|]; exact Hn|].
  destruct (outputLocked_ok s w ps Hi Hh Ef) as (r & s1 & w1 & -> & Hi1 & Hh1 & U1 & U2 & U3 & U4).
  cbn [mbind option_bind].
  destruct (early r).
  { do 3 eexists; split; [done|]. split; [done|]. split; [done|].
    split; [intros E; rewrite U4 in E; by specialize (Hc E)|]. split; [by left|]. split; [|congruence].
    intros ? ? Hin. by apply not_elem_of_nil in Hin. }
  pose proof (inv_taken (onSendBuf r) s1 w1 Hi1 ltac:(congruence)) as Hi2.
  set (s2 := setOut (if onSendBuf r then _ else _) s1) in *.
  destruct (enter_ok s2 w1 ps Hh1) as (w2 & -> & S2 & Hh2); [exact (eq_trans U3 Ef)|].
  pose proof (inv_same _ _ _ S2 Hi2) as Hi3. cbn [mbind option_bind].
  assert (Ec2 : m_canUpcall s2 = m_canUpcall s) by exact U4. clearbody s2.
  destruct (m_canUpcall s2) eqn:Ec; [|by finish].
  destruct ((sentSize r <? 0) && negb (errorCode r =? PBSD_EWOULDBLOCK)).
  { destruct (close_ok (m_observer s2) (errorCode r) 0 s2 w2 ps Hi3 Hh2)
      as (s3 & w3 & -> & Hi4 & Hh4 & Hc4). by finish. }
  destruct (onSendBuf r || m_requestOnSend (m_out s1)); [|by finish].
  set (a := if onSendBuf r then _ else 0). clearbody a.
  destruct (deliver_ok (m_observer s2) (OnSend a) s2 w2 ps Hi3 Hh2)
    as (s3 & w3 & -> & Hi4 & Hh4 & Hc4 & _). cbn [mbind option_bind].
  assert (Hh4' : w_holds w3 (own s3 ++ m_observer s2 :: ps)).
  { eapply (holds_perm (sock := sock) (self := self)); [|exact Hh4]. by rewrite Permutation_middle. }
  destruct (outputIdle_ok s3 w3 _ Hi4 Hh4') as (s4 & w4 & -> & Hi5 & Hh5 & _ & _ & _ & Hc5).
  assert (Hh5' : w_holds w4 (m_observer s2 :: own s4 ++ ps)).
  { eapply (holds_perm (sock := sock) (self := self)); [|exact Hh5]. by rewrite Permutation_middle. }
  by finish.
Qed.

Lemma OnError_ok sockId c s w ps :
  inv s w -> w_holds w (own s ++ ps) -> (m_canUpcall s = false -> finished s = true) ->
  exists es s' w', OnError self upcall sockId c s w = Some (es, s', w') /\ handled s es s' w' ps.
Proof.
  intros Hi Hh Hc. unfold OnError. pose proof (handled_nothing s w ps Hi Hh Hc) as Hn.
  destruct (sockId =? -1); [do 3 eexists; split; [done|]; exact Hn|].
  destruct (finished s) eqn:Ef; [do 3 eexists; split; [done|]; exact Hn|].
  destruct (negb (sockId =? m_sockId s)); [do 3 eexists; split; [done|]; exact Hn|].
  destruct (enter_ok s w ps Hh Ef) as (w1 & -> & S1 & Hh1). cbn [mbind option_bind].
  pose proof (inv_same _ _ _ S1 Hi) as Hi1.
  destruct (m_canUpcall s) eqn:Ec; [|by specialize (Hc eq_refl)].
  destruct (close_ok (m_observer s) c 0 s w1 ps Hi1 Hh1) as (s2 & w2 & -> & Hi2 & Hh2 & Hc2).
  cbn [mbind option_bind].
  destruct (leave_ok (m_observer s) [OnClose c 0] s2 w2 ps Hi2 Hh2)
    as (s3 & w3 & E & Hi3 & Hh3 & Hc3 & Hf3).
  unfold leave in E. rewrite Hc2 in E. rewrite E.
  do 3 eexists; split; [done|]. rewrite Hc2 in Hc3. split_and!; auto.
  right. eexists. by split_and!.
Qed.

Lemma OnTimer_ok timerId s w ps :
  inv s w -> w_holds w (own s ++ ps) -> (m_canUpcall s = false -> finished s = true) ->
  exists es s' w', OnTimer upcall timerId s w = Some (es, s', w') /\ handled s es s' w' ps.
Proof.
  intros Hi Hh Hc. unfold OnTimer. pose proof (handled_nothing s w ps Hi Hh Hc) as Hn.
  destruct (timerId =? 0); [do 3 eexists; split; [done|]; exact Hn|].
  destruct (finished s) eqn:Ef; [do 3 eexists; split; [done|]; exact Hn|].
  destruct (negb (timerId =? m_timerId s)); [do 3 eexists; split; [done|]; exact Hn|].
  destruct (enter_ok s w ps Hh Ef) as (w1 & -> & S1 & Hh1). cbn [mbind option_bind].
  pose proof (inv_same _ _ _ S1 Hi) as Hi1.
  destruct (m_canUpcall s) eqn:Ec; [|by specialize (Hc eq_refl)].
  destruct (deliver_ok (m_observer s) OnHeartbeat s w1 ps Hi1 Hh1)
    as (s2 & w2 & -> & Hi2 & Hh2 & Hc2 & _). cbn [mbind option_bind].
  destruct (leave_ok (m_observer s) [OnHeartbeat] s2 w2 ps Hi2 Hh2)
    as (s3 & w3 & E & Hi3 & Hh3 & Hc3 & Hf3).
  unfold leave in E. rewrite Hc2, Ec in E.
  destruct (w_Release (m_observer s) w2); cbn in E |- *; [|done]. simplify_eq.
  do 3 eexists; split; [done|]. split_and!; auto; try congruence.
  - right. eexists. by split_and!.
  - intros ? ? Hin. by apply list_elem_of_singleton in Hin.
Qed.

(** ** Runs: any sequence of reactor events and client calls *)

Inductive step : t * W -> list event -> t * W -> Prop :=
  | step_input sockId s w es s' w' :
      OnInputData self upcall sockId s w = Some (es, s', w') -> step (s, w) es (s', w')
  | step_output sockId s w es s' w' :
      OnOutput self upcall sockId s w = Some (es, s', w') -> step (s, w) es (s', w')
  | step_error sockId c s w es s' w' :
      OnError self upcall sockId c s w = Some (es, s', w') -> step (s, w) es (s', w')
  | step_timer id s w es s' w' :
      OnTimer upcall id s w = Some (es, s', w') -> step (s, w) es (s', w')
  | step_client x y : client x y -> step x [] y.

Inductive run : t * W -> list event -> t * W -> Prop :=
  | run_nil x : run x [] x
  | run_cons x es y tr z : step x es y -> run y tr z -> run x (es ++ tr) z.

Lemma step_handled s w es s' w' ps :
  inv s w -> w_holds w (own s ++ ps) -> (m_canUpcall s = false -> finished s = true) ->
  step (s, w) es (s', w') -> handled s es s' w' ps.
Proof.
  intros Hi Hh Hc Hs. inversion Hs; subst.
  - destruct (OnInputData_ok sockId s w ps Hi Hh Hc) as (? & ? & ? & E & ?). congruence.
  - destruct (OnOutput_ok sockId s w ps Hi Hh Hc) as (? & ? & ? & E & ?). congruence.
  - destruct (OnError_ok sockId c s w ps Hi Hh Hc) as (? & ? & ? & E & ?). congruence.
  - destruct (OnTimer_ok id s w ps Hi Hh Hc) as (? & ? & ? & E & ?). congruence.
  - destruct (client_good _ _ H) as (E1 & E2 & E3). cbn in *. destruct (E3 ps Hi Hh) as [? ?].
    split_and!; auto; try congruence.
    + rewrite E1. auto.
    + intros ? ? Hin. by apply not_elem_of_nil in Hin.
Qed.

(** Once [m_canUpcall] is gone, nothing is reported any more. *)
Lemma run_silent x tr y ps :
  run x tr y -> inv (fst x) (snd x) -> w_holds (snd x) (own (fst x) ++ ps) ->
  m_canUpcall (fst x) = false -> finished (fst x) = true -> tr = [].
Proof.
  induction 1 as [|[s w] es [s1 w1] tr z Hst Hrun IH]; [done|]. cbn. intros Hi Hh Hc Hf.
  destruct (step_handled s w es s1 w1 ps Hi Hh (fun _ => Hf) Hst) as (I & Hh' & Hc' & He & _ & Hk).
  destruct He as [->|(e & _ & ? & _)]; [|congruence]. cbn in *. apply IH; auto.
Qed.

Lemma run_ok x tr y ps :
  run x tr y -> inv (fst x) (snd x) -> w_holds (snd x) (own (fst x) ++ ps) ->
  (m_canUpcall (fst x) = false -> finished (fst x) = true) ->
  inv (fst y) (snd y) /\ w_holds (snd y) (own (fst y) ++ ps) /\
  (m_canUpcall (fst y) = false -> finished (fst y) = true) /\
  forall tr1 c k tr2, tr = tr1 ++ OnClose c k :: tr2 -> tr2 = [].
Proof.
  induction 1 as [|[s w] es [s1 w1] tr z Hst Hrun IH]; cbn; intros Hi Hh Hc.
  { split_and!; auto. intros tr1 ? ? ? E. by destruct tr1. }
  destruct (step_handled s w es s1 w1 ps Hi Hh Hc Hst) as (Hi1 & Hh1 & Hc1 & He & Hcl & _).
  destruct (IH Hi1 Hh1 Hc1) as (A & B & D & C). split_and!; auto.
  intros tr1 c k tr2. destruct He as [->|(e & -> & _)]; [apply C|]. cbn.
  destruct tr1 as [|e' tr1]; intros [= -> E]; [|by apply (C tr1 c k)].
  subst tr2. pose proof (Hcl c k ltac:(left)) as Hcl'.
  apply (run_silent _ _ _ ps Hrun); auto.
Qed.


Lemma leave_events o es s w es' s' w' : leave self o es s w = Some (es', s', w') -> es' = es.
Proof.
  unfold leave. intros (w1 & _ & E)%bind_Some. apply bind_Some in E as ([s1 w2] & _ & E).
  congruence.
Qed.

(** What an output event reports, from what its locked section found. *)
Lemma OnOutput_events s w r s1 w1 es s' w' :
  sock <> -1 -> m_sockId s = sock -> finished s = false ->
  outputLocked self s w = Some (r, s1, w1) ->
  OnOutput self upcall sock s w = Some (es, s', w') ->
  early r = false -> m_canUpcall s1 = true ->
  es = if (sentSize r <? 0) && negb (errorCode r =? PBSD_EWOULDBLOCK) then [OnClose (errorCode r) 0]
       else if onSendBuf r || m_requestOnSend (m_out s1)
       then [OnSend (if onSendBuf r then m_actionId (m_out s1) else 0)] else [].
Proof.
  intros Hs Hsk Ef El E Ee Ec. unfold OnOutput in E.
  destruct (Z.eqb_spec sock (-1)); [done|]. rewrite Ef, Hsk, Z.eqb_refl, El in E.
  cbn [negb mbind option_bind] in E. rewrite Ee in E.
  change (m_canUpcall (setOut _ s1)) with (m_canUpcall s1) in E. rewrite Ec in E.
  apply bind_Some in E as (w2 & _ & E). apply bind_Some in E as ([[es' s2] w3] & E2 & ->%leave_events).
  destruct ((sentSize r <? 0) && negb (errorCode r =? PBSD_EWOULDBLOCK)).
  { apply bind_Some in E2 as ([s3 w4] & _ & E2). congruence. }
  destruct (onSendBuf r || m_requestOnSend (m_out s1)); [|congruence].
  apply bind_Some in E2 as ([s3 w4] & _ & E2). apply bind_Some in E2 as ([s4 w5] & _ & E2).
  by simplify_eq.
Qed.

(** one output event while [m] is being sent and [sent] bytes of it are gone.
    If the socket takes the rest, the next message may be queued and the observer
    gets [OnSend] with the action id of this one; if it takes a part, or would
    block, the message stays pending and the observer hears only of an [OnSend] it
    requested; any other error closes the transport: [OnClose], then [Fini]. *)
Theorem OnOutput_sends s w ps m sent n e w1 :
  inv s w -> w_holds w (own s ++ ps) -> finished s = false -> m_canUpcall s = true -> sock <> -1 ->
  CProSendPool.rep (m_sendPool (m_out s)) sent [m] -> sent < zlen m ->
  pbsd_send sock (zdrop sent m) w = (n, e, w1) ->
  exists es s' w', OnOutput self upcall sock s w = Some (es, s', w') /\
    es = (if (n <? 0) && negb (e =? PBSD_EWOULDBLOCK) then [OnClose e 0]
          else if n =? zlen m - sent then [OnSend (m_actionId (m_out s))]
          else if m_requestOnSend (m_out s) then [OnSend 0] else []) /\
    ((n <? 0) && negb (e =? PBSD_EWOULDBLOCK) = true -> finished s' = true).
Proof.
  intros Hi Hh Ef Ec Hs Hrep Hlt Esend.
  destruct (OnOutput_ok sock s w ps Hi Hh ltac:(congruence)) as (es & s' & w' & E & Hd).
  exists es, s', w'. split; [done|].
  assert (Hes : es = (if (n <? 0) && negb (e =? PBSD_EWOULDBLOCK) then [OnClose e 0]
    else if n =? zlen m - sent then [OnSend (m_actionId (m_out s))]
    else if m_requestOnSend (m_out s) then [OnSend 0] else [])).
  2: { split; [done|]. intros En. rewrite En in Hes. destruct Hd as (_ & _ & Hc' & _ & Hcl & _).
       apply Hc', (Hcl e 0). rewrite Hes. left. }
  destruct (outputLocked self s w) as [[[r s1] w2]|] eqn:El.
  2: { exfalso. destruct (outputLocked_ok s w ps Hi Hh Ef) as (? & ? & ? & E' & _). congruence. }
  pose proof (OnOutput_events s w r s1 w2 es s' w' Hs (inv_sock _ _ Hi) Ef El E) as Hev. clear E Hd.
  revert El. unfold outputLocked.
  rewrite (CProSendPool.PreSend_rep _ _ _ Hrep).
  pose proof (CProSendPool.rep_sent _ _ _ Hrep) as Hsr.
  destruct (Z.eqb_spec sent (zlen m)) as [|_]; [lia|].
  rewrite (inv_fd _ _ Hi), (inv_sock _ _ Hi), Esend. cbn [Z.eqb].
  apply send_law in Esend as (Hn & _).
  assert (Hzl : zlen (zdrop sent m) = zlen m - sent) by (apply zlen_zdrop; lia).
  destruct (Z.gtb_spec n (zlen (zdrop sent m))); [lia|].
  destruct (Z.gtb_spec n 0) as [Hpos|Hneg].
  - pose proof (CProSendPool.Flush_rep _ sent m [] n Hrep ltac:(lia)) as Hrep1.
    rewrite (CProSendPool.OnSendBuf_rep _ _ _ Hrep1). destruct (Z.ltb_spec n 0); [lia|].
    destruct (Z.eqb_spec (sent + n) (zlen m)), (Z.eqb_spec n (zlen m - sent)); try lia;
      intros [= <- <- <-]; rewrite Hev by done; cbn [sentSize errorCode onSendBuf];
      destruct (Z.ltb_spec n 0); try lia; done.
  - destruct (Z.eqb_spec n (zlen m - sent)); [lia|].
    destruct (Z.eqb_spec n 0) as [->|]; intros [= <- <- <-]; by rewrite Hev.
Qed.

End handlers.

(** A descriptor's packet goes out twice.  After [SendFd] is accepted and
    [sendmsg] has taken the whole packet with the descriptor, the packet is still at
    the head of the send pool, the transport is still busy, no [OnSend] is due and
    [m_sendingFd] is cleared: the next output event sends the same packet again
    with a plain [send]. *)
Theorem SendFd_sent_twice s w packet fd :
  inv s w -> finished s = false -> m_pendingWr (m_out s) = false ->
  0 < zlen packet < 2 ^ 64 -> fd <> -1 ->
  exists ok s1 w1, SendFd self true packet fd true s w = Some (ok, s1, w1) /\
    (ok = true -> forall w2, pbsd_sendmsg sock packet fd w1 = (zlen packet, w2) ->
     exists r s2, outputLocked self s1 w1 = Some (r, s2, w2) /\
       sentSize r = zlen packet /\ onSendBuf r = false /\
       m_pendingWr (m_out s2) = true /\ m_sendingFd (m_out s2) = -1 /\
       CProSendPool.PreSend (m_sendPool (m_out s2)) = Some packet).
Proof.
  intros Hi Ef Ep Hb Hfd. unfold SendFd. destruct (Z.eqb_spec fd (-1)); [done|]. rewrite Ef, Ep.
  cbn [orb negb]. destruct (ensureWr_ok s w Hi Ef) as (ok & s1 & w1 & -> & Hi1 & Hs1 & _).
  destruct (ensureWr_frame s s1 Hs1) as (_ & _ & _ & _ & _ & Fs).
  cbn [mbind option_bind]. destruct ok; cbn [negb]; [|by do 3 eexists].
  do 3 eexists; split; [done|]. intros _ w2 Hm.
  destruct (inv_pool _ _ Hi) as (sent & cur & Hrep & _ & Hcur). rewrite Ep in Hcur. subst cur.
  pose proof (CProSendPool.rep_sent _ _ _ Hrep) as Hs0. assert (sent = 0) as -> by lia.
  rewrite Fs. pose proof (CProSendPool.Fill_rep _ 0 [] packet Hrep Hb) as Hrep1.
  pose proof (CProSendPool.PreSend_rep _ _ _ Hrep1) as Hpre. cbn [app] in Hpre.
  destruct (Z.eqb_spec 0 (zlen packet)); [lia|]. rewrite zdrop_0 in Hpre.
  pose proof (inv_sock _ _ Hi1) as Hsk.
  unfold outputLocked. cbn -[CProSendPool.PreSend CProSendPool.Fill Z.eqb zlen].
  rewrite Hpre. destruct (Z.eqb_spec fd (-1)); [done|].
  rewrite Hsk, Hm, Z.eqb_refl. do 2 eexists; split; [done|]. by split_and!.
Qed.

End proofs.
End TcpProofs.

(** ** A concrete world, for the witnesses *)

Module TcpDemo.
Import CProTcpTransport TcpProofs.

(** One socket, number 5, that takes at most two bytes per [send]. *)
Record world := mkWorld {
  d_wr : bool;
  d_out : list Z;
  d_log : list (list Z);
  d_rc : gmap Z nat
}.

Definition setWr (b : bool) (w : world) : world := mkWorld b (d_out w) (d_log w) (d_rc w).
Definition setRc (rc : gmap Z nat) (w : world) : world := mkWorld (d_wr w) (d_out w) (d_log w) rc.
Definition addOut (bs : list Z) (w : world) : world :=
  mkWorld (d_wr w) (d_out w ++ bs) (d_log w) (d_rc w).

#[export] Instance demo_world : NetWorld world := {|
  rt_AddHandler _ _ m w := Some (true, setWr (d_wr w || PRO_BIT_ENABLED m PRO_MASK_WRITE) w);
  rt_RemoveHandler _ _ m w := Some (setWr (d_wr w && negb (PRO_BIT_ENABLED m PRO_MASK_WRITE)) w);
  rt_ScheduleHeartbeatTimer _ w := Some (1, w);
  rt_CancelTimer _ w := Some w;
  w_AddRef p w := rc ← AddRef p (d_rc w); Some (setRc rc w);
  w_Release p w := rc ← Release p (d_rc w); Some (setRc rc w);
  pbsd_recv _ _ w := (RecvError PBSD_EWOULDBLOCK, w);
  pbsd_send _ buf w := (zlen (ztake 2 buf), 0, addOut (ztake 2 buf) w);
  pbsd_sendmsg _ buf _ w := (zlen buf, w)
|}.

#[export] Instance demo_view : NetView world := {|
  w_wr := d_wr;
  w_out := d_out;
  w_log := d_log;
  w_holds w ps := exists ext, rc_ok ext ps (d_rc w)
|}.

#[export] Program Instance demo_laws : NetWorldLaws world 5 9.
Next Obligation. intros m w. do 2 eexists. split; [reflexivity|]. by split_and!. Qed.
Next Obligation. intros m w. eexists. split; [reflexivity|]. by split_and!. Qed.
Next Obligation. intros w. do 2 eexists. split; [reflexivity|]. by split_and!. Qed.
Next Obligation. intros id w. eexists. split; [reflexivity|]. by split_and!. Qed.
Next Obligation. intros w ps qs Hp [ext He]. exists ext. by apply (rc_ok_perm _ ps). Qed.
Next Obligation.
  intros p ps w [ext He] Hp. cbn.
  destruct (AddRef_ok ext ps (d_rc w) p He) as (rc' & E1 & Hrc').
  { pose proof (occ_elem _ _ Hp). lia. }
  rewrite E1. cbn. eexists. split; [done|]. split; [|by exists ext]. split_and!; try done.
  intros qs [ext2 He2]. cbn. exists (ext_add p ext2). apply rc_ok_transfer.
  destruct (AddRef_ok ext2 qs (d_rc w) p He2) as (rc2 & E2 & Hrc2).
  { apply (rc_ok_is_Some ext2 qs _ _ He2), (rc_ok_elem_alive _ _ _ _ He Hp). }
  rewrite E1 in E2. by simplify_eq.
Qed.
Next Obligation.
  intros p ps w [ext He]. cbn. destruct (Release_ok ext ps (d_rc w) p He) as (rc' & -> & ?). cbn.
  eexists. split; [done|]. split_and!; try done. by exists ext.
Qed.
Next Obligation. intros n w. cbn. split; [apply same_refl|done]. Qed.
Next Obligation.
  intros buf w n e w' E. cbn in E. injection E as <- <- <-.
  assert (Ht : ztake (zlen (ztake 2 buf)) buf = ztake 2 buf).
  { unfold ztake, zlen. rewrite Nat2Z.id, length_take, <- take_take. by rewrite firstn_all. }
  split_and!; try done.
  - unfold zlen, ztake. rewrite length_take. lia.
  - cbn. by rewrite Ht.
Qed.

Definition quiet (o : Z) (e : event) (x : t * world) : option (t * world) := Some x.

(** A fresh transport on socket 5, observer 7, after [Init] with a pool of 8 bytes. *)
Definition s0 : t :=
  mkTrans 7 1 5 (mkSending false false false 0 CProSendPool.init (-1))
    (snd (CProRecvPool.Resize 8 (Some (replicate 8 0)) CProRecvPool.init)) 0 true.
Definition w0 : world := mkWorld false [] [] {[7 := 2%nat]}.

Lemma inv0 : inv (W := world) 5 s0 w0.
Proof.
  split; try done.
  - exists 0, []. split_and!; try done.
  - exists []. by apply CProRecvPool.Resize_rep.
Qed.

Lemma holds0 : w_holds w0 (own s0 ++ []).
Proof.
  exists (fun p => if decide (p = 7) then 1%nat else 0%nat). intros p.
  destruct (decide (p = 7)) as [->|]; [reflexivity|]. change (own s0 ++ []) with [7].
  rewrite occ_cons. change (d_rc w0) with ({[7 := 2%nat]} : gmap Z nat).
  rewrite lookup_singleton_ne by done. change (occ p []) with 0%nat.
  repeat case_decide; done.
Qed.

(** Sending three bytes: the socket takes two, then one. *)
Definition w1 : world := mkWorld true [] [[1; 2; 3]] {[7 := 2%nat]}.
Definition s1 : t := setOut (mkSending true true false 40
  (CProSendPool.Fill true [1; 2; 3] CProSendPool.init) (-1)) s0.

Lemma client01 : client (W := world) 9 (s0, w0) (s1, w1).
Proof.
  apply (c_send 9 s0 w0 [1; 2; 3] 40 s1 (mkWorld true [] [] {[7 := 2%nat]}) w1); try done.
Qed.

Lemma tcp_quiet_ok o e s w ps :
  inv (W := world) 5 s w -> w_holds w (own s ++ ps) -> o ∈ ps ->
  exists s' w', quiet o e (s, w) = Some (s', w') /\ client (W := world) 9 (s, w) (s', w').
Proof. intros _ _ _. exists s, w. split; [done|constructor]. Qed.


Lemma inv1 : inv (W := world) 5 s1 w1.
Proof. exact (proj1 (proj2 (proj2 (client_good 5 9 _ _ client01)) [] inv0 holds0)). Qed.

Lemma holds1 : w_holds w1 (own s1 ++ []).
Proof. exact (proj2 (proj2 (proj2 (client_good 5 9 _ _ client01)) [] inv0 holds0)). Qed.

Lemma OnOutput_sends_witness :
  exists s' w', OnOutput (W := world) 9 quiet 5 s1 w1 = Some ([], s', w').
Proof.
  assert (Hrep : CProSendPool.rep (m_sendPool (m_out s1)) 0 [[1; 2; 3]]).
  { apply (CProSendPool.Fill_rep CProSendPool.init 0 []);
      [apply CProSendPool.init_rep|vm_compute; intuition congruence]. }
  assert (Hlt : 0 < zlen [1; 2; 3]) by reflexivity.
  destruct (OnOutput_sends (W := world) 5 9 quiet tcp_quiet_ok s1 w1 [] [1; 2; 3] 0 2 0
    (addOut [1; 2] w1) inv1 holds1 eq_refl eq_refl ltac:(discriminate) Hrep Hlt eq_refl)
    as (es & s' & w' & E & Hes & _).
  vm_compute in Hes. subst es. eauto.
Defined.

Lemma SendFd_sent_twice_witness :
  exists s2 w2 r s3, SendFd (W := world) 9 true [4; 5] 8 true s0 w0 = Some (true, s2, w2) /\
    outputLocked 9 s2 w2 = Some (r, s3, w2) /\
    CProSendPool.PreSend (m_sendPool (m_out s3)) = Some [4; 5].
Proof.
  assert (Hb : 0 < zlen [4; 5] < 2 ^ 64) by (vm_compute; intuition congruence).
  destruct (SendFd_sent_twice (W := world) 5 9 s0 w0 [4; 5] 8 inv0 eq_refl eq_refl Hb
    ltac:(discriminate)) as (ok & s2 & w2 & E & Hr).
  assert (ok = true) as -> by (vm_compute in E; congruence).
  destruct (Hr eq_refl w2 eq_refl) as (r & s3 & E3 & _ & _ & _ & _ & Hp).
  exists s2, w2, r, s3. auto.
Defined.

End TcpDemo.
