(* ===== verification/RtpPacket.v ===== *)
(** * RTP packets ([rtp_packet.h], [rtp_packet.cpp])

    A packet is one block of memory: an extension header ([RTP_EXT], 8 bytes), the
    RTP header ([RTP_HEADER], 12 bytes, RFC 3550) and the payload, each field in
    network byte order.  [mem] is the block from [dummyBuffer] on; [ext] and [hdr]
    are offsets into it, since the sessions move these pointers to the place where
    a received packet has its headers.  The bit fields are those of the
    little-endian layout. *)

From S2P Require Import Prelude Bytes Bsd.

Definition sizeof_RTP_EXT : Z := 8.
Definition sizeof_RTP_HEADER : Z := 12.
Definition sizeof_RTP_PACKET : Z := 40.
Definition MAX_PAYLOAD_SIZE : Z := 1024 * 63.

(** Offsets of the members of [RTP_EXT] ... *)
Definition o_mmId : Z := 0.
Definition o_mmType : Z := 4.
Definition o_flags : Z := 5.              (* reserved : 6, firstPacketOfFrame, keyFrame *)
Definition o_hdrAndPayloadSize : Z := 6.
(** ... and of [RTP_HEADER]. *)
Definition o_vpxcc : Z := 0.              (* cc : 4, x, p, v : 2 *)
Definition o_mpt : Z := 1.                (* pt : 7, m *)
Definition o_seq : Z := 2.
Definition o_ts : Z := 4.
Definition o_ssrc : Z := 8.

Module CRtpPacket.

Record t := mkPacket {
  mem : list Z;
  ext : Z;
  hdr : Z;
  m_tick : Z
}.

Definition setMem (l : list Z) (p : t) : t := mkPacket l (ext p) (hdr p) (m_tick p).

(** A bit field of the byte at [off]. *)
Definition setField (off lo n v : Z) (p : t) : t :=
  setMem (store 1 off (setBits lo n v (load 1 off (mem p))) (mem p)) p.
Definition getField (off lo n : Z) (p : t) : Z := getBits lo n (load 1 off (mem p)).

(** [CRtpPacket::Init]: [junk] is the allocated memory from [dummyBuffer] on *)
Definition Init (payloadBuffer : option (list Z)) (payloadSize : Z) (junk : list Z) : t :=
  let m := zput 0 (replicate 24 0) junk in
  let p := mkPacket m 0 sizeof_RTP_EXT 0 in
  let p := setMem (store 2 (ext p + o_hdrAndPayloadSize)
             (pbsd_hton16 (u16 (sizeof_RTP_HEADER + payloadSize))) (mem p)) p in
  let p := setField (hdr p + o_vpxcc) 6 2 2 p in
  match payloadBuffer with
  | Some b => setMem (zput (hdr p + sizeof_RTP_HEADER) (ztake payloadSize b) (mem p)) p
  | None => p
  end.

(** [CRtpPacket::CreateInstance(payloadBuffer, payloadSize)]; [alloc] is the
    memory [ProMalloc] returns *)
Definition CreateInstance (payloadBuffer : list Z) (alloc : option (list Z)) : option t :=
  if (zlen payloadBuffer =? 0) || (zlen payloadBuffer >? MAX_PAYLOAD_SIZE) then None else
  junk ← alloc; Some (Init (Some payloadBuffer) (u16 (zlen payloadBuffer)) junk).

(** [CRtpPacket::CreateInstance(payloadSize)] *)
Definition CreateInstanceSize (payloadSize : Z) (alloc : option (list Z)) : option t :=
  if (payloadSize =? 0) || (payloadSize >? MAX_PAYLOAD_SIZE) then None else
  junk ← alloc; Some (Init None (u16 payloadSize) junk).

(** The accessors. *)
Definition SetMarker (m : bool) (p : t) : t := setField (hdr p + o_mpt) 7 1 (if m then 1 else 0) p.
Definition GetMarker (p : t) : bool := negb (getField (hdr p + o_mpt) 7 1 p =? 0).
Definition SetPayloadType (pt : Z) (p : t) : t := setField (hdr p + o_mpt) 0 7 pt p.
Definition GetPayloadType (p : t) : Z := getField (hdr p + o_mpt) 0 7 p.
Definition SetSequence (seq : Z) (p : t) : t :=
  setMem (store 2 (hdr p + o_seq) (pbsd_hton16 seq) (mem p)) p.
Definition GetSequence (p : t) : Z := pbsd_ntoh16 (load 2 (hdr p + o_seq) (mem p)).
Definition SetTimeStamp (ts : Z) (p : t) : t :=
  setMem (store 4 (hdr p + o_ts) (pbsd_hton32 ts) (mem p)) p.
Definition GetTimeStamp (p : t) : Z := pbsd_ntoh32 (load 4 (hdr p + o_ts) (mem p)).
Definition SetSsrc (ssrc : Z) (p : t) : t :=
  setMem (store 4 (hdr p + o_ssrc) (pbsd_hton32 ssrc) (mem p)) p.
Definition GetSsrc (p : t) : Z := pbsd_ntoh32 (load 4 (hdr p + o_ssrc) (mem p)).
Definition SetMmId (mmId : Z) (p : t) : t :=
  setMem (store 4 (ext p + o_mmId) (pbsd_hton32 mmId) (mem p)) p.
Definition GetMmId (p : t) : Z := pbsd_ntoh32 (load 4 (ext p + o_mmId) (mem p)).
Definition SetMmType (mmType : Z) (p : t) : t := setMem (store 1 (ext p + o_mmType) mmType (mem p)) p.
Definition GetMmType (p : t) : Z := load 1 (ext p + o_mmType) (mem p).
Definition SetKeyFrame (k : bool) (p : t) : t :=
  setField (ext p + o_flags) 7 1 (if k then 1 else 0) p.
Definition GetKeyFrame (p : t) : bool := negb (getField (ext p + o_flags) 7 1 p =? 0).
Definition SetFirstPacketOfFrame (f : bool) (p : t) : t :=
  setField (ext p + o_flags) 6 1 (if f then 1 else 0) p.
Definition GetFirstPacketOfFrame (p : t) : bool := negb (getField (ext p + o_flags) 6 1 p =? 0).
Definition GetPayloadBuffer (p : t) : Z := hdr p + sizeof_RTP_HEADER.
Definition GetPayloadSize (p : t) : Z :=
  u16 (pbsd_ntoh16 (load 2 (ext p + o_hdrAndPayloadSize) (mem p)) - sizeof_RTP_HEADER).
Definition SetTick_i (tick : Z) (p : t) : t := mkPacket (mem p) (ext p) (hdr p) tick.
Definition GetTick_i (p : t) : Z := m_tick p.

(** The bytes of the payload. *)
Definition payload (p : t) : list Z := zsub (GetPayloadBuffer p) (GetPayloadSize p) (mem p).

(** ** Parsing received memory *)

(** A read of [n] bytes at offset [off] of [buffer]; [None] when it leaves it. *)
Definition rd (buffer : list Z) (off n : Z) : option (list Z) :=
  if (0 <=? off) && (off + n <=? zlen buffer) then Some (zsub off n buffer) else None.

(** The result of [ParseRtpBuffer]: its return value and its three output
    parameters; the header is the 12 bytes as received. *)
Record parsed := mkParsed {
  ret : bool;
  p_hdr : option (list Z);
  payloadBuffer : option Z;
  payloadSize : Z
}.

Definition failed (h : option (list Z)) : parsed := mkParsed false h None 0.

(** [CRtpPacket::ParseRtpBuffer]; [None] is a read outside the buffer *)
Definition ParseRtpBuffer (buffer : list Z) (size : Z) : option parsed :=
  if size =? 0 then Some (failed None) else
  let needSize := sizeof_RTP_HEADER in
  if size <? needSize then Some (failed None) else
  h ← rd buffer 0 sizeof_RTP_HEADER;
  let b0 := load 1 o_vpxcc h in
  if negb (getBits 6 2 b0 =? 2) then Some (failed (Some h)) else
  let cc := getBits 0 4 b0 in
  let needSize := needSize + 4 * cc in
  if size <? needSize then Some (failed (Some h)) else
  let now := sizeof_RTP_HEADER + 4 * cc in
  r ← (if getBits 4 1 b0 =? 0 then Some (Some (needSize, now)) else
       let needSize := needSize + 2 + 2 in
       if size <? needSize then Some None else
       c ← rd buffer (now + 2) 2;
       let extCount := pbsd_ntoh16 (of_le c) in
       let needSize := needSize + 4 * extCount in
       if size <? needSize then Some None else
       Some (Some (needSize, now + 4 + 4 * extCount)));
  match r with
  | None => Some (failed (Some h))
  | Some (needSize, now) =>
      let payloadSize := u16 (size - now) in
      r ← (if getBits 5 1 b0 =? 0 then Some (Some payloadSize) else
           if size <? needSize + 1 then Some None else
           c ← rd buffer (size - 1) 1;
           let paddingSize := if of_le c <? 1 then 1 else of_le c in
           if size <? needSize + paddingSize then Some None else
           Some (Some (u16 (payloadSize - paddingSize))));
      match r with
      | None => Some (failed (Some h))
      | Some payloadSize =>
          Some (mkParsed true (Some h) (if payloadSize =? 0 then None else Some now) payloadSize)
      end
  end.

(** [CRtpPacket::ParseExtBuffer] *)
Definition ParseExtBuffer (buffer : list Z) (size : Z) : option bool :=
  if size <? sizeof_RTP_EXT + sizeof_RTP_HEADER + 1 then Some false else
  e ← rd buffer 0 sizeof_RTP_EXT;
  let hdrAndPayloadSize := pbsd_ntoh16 (load 2 o_hdrAndPayloadSize e) in
  if negb (sizeof_RTP_EXT + hdrAndPayloadSize =? size) then Some false else
  h ← rd buffer sizeof_RTP_EXT sizeof_RTP_HEADER;
  let b0 := load 1 o_vpxcc h in
  if negb (getBits 6 2 b0 =? 2) || negb (getBits 5 1 b0 =? 0) || negb (getBits 4 1 b0 =? 0)
     || negb (getBits 0 4 b0 =? 0)
  then Some false else Some true.

End CRtpPacket.

(** ** The fields of a packet are independent *)

Module RtpFields.
Import CRtpPacket.

Record wf (p : t) : Prop := mkWf {
  wf_bytes : is_bytes (mem p);
  wf_ext : 0 <= ext p;
  wf_hdr : hdr p = ext p + sizeof_RTP_EXT;
  wf_len : hdr p + sizeof_RTP_HEADER <= zlen (mem p)
}.

Inductive field :=
  | Marker | PayloadType | Sequence | TimeStamp | Ssrc
  | MmId | MmType | KeyFrame | FirstPacketOfFrame.

#[export] Instance field_eq_dec : EqDecision field.
Proof. solve_decision. Defined.

Definition get (f : field) (p : t) : Z :=
  match f with
  | Marker => Z.b2z (GetMarker p)
  | PayloadType => GetPayloadType p
  | Sequence => GetSequence p
  | TimeStamp => GetTimeStamp p
  | Ssrc => GetSsrc p
  | MmId => GetMmId p
  | MmType => GetMmType p
  | KeyFrame => Z.b2z (GetKeyFrame p)
  | FirstPacketOfFrame => Z.b2z (GetFirstPacketOfFrame p)
  end.

Definition set (f : field) (v : Z) (p : t) : t :=
  match f with
  | Marker => SetMarker (negb (v =? 0)) p
  | PayloadType => SetPayloadType v p
  | Sequence => SetSequence v p
  | TimeStamp => SetTimeStamp v p
  | Ssrc => SetSsrc v p
  | MmId => SetMmId v p
  | MmType => SetMmType v p
  | KeyFrame => SetKeyFrame (negb (v =? 0)) p
  | FirstPacketOfFrame => SetFirstPacketOfFrame (negb (v =? 0)) p
  end.

(** The number of bits of a field. *)
Definition width (f : field) : Z :=
  match f with
  | Marker | KeyFrame | FirstPacketOfFrame => 1
  | PayloadType => 7
  | MmType => 8
  | Sequence => 16
  | TimeStamp | Ssrc | MmId => 32
  end.

(** Where it is: offset from [ext], bytes, lowest bit and bits of a bit field. *)
Definition place (f : field) : Z * nat * option (Z * Z) :=
  match f with
  | MmId => (0, 4%nat, None)
  | MmType => (4, 1%nat, None)
  | FirstPacketOfFrame => (5, 1%nat, Some (6, 1))
  | KeyFrame => (5, 1%nat, Some (7, 1))
  | PayloadType => (9, 1%nat, Some (0, 7))
  | Marker => (9, 1%nat, Some (7, 1))
  | Sequence => (10, 2%nat, None)
  | TimeStamp => (12, 4%nat, None)
  | Ssrc => (16, 4%nat, None)
  end.

(** The stored number, and its replacement. *)
Definition raw (f : field) (p : t) : Z :=
  let '(o, n, b) := place f in
  match b with
  | Some (lo, k) => getBits lo k (load n (ext p + o) (mem p))
  | None => load n (ext p + o) (mem p)
  end.

Definition setRaw (f : field) (v : Z) (p : t) : t :=
  let '(o, n, b) := place f in
  setMem (store n (ext p + o)
    (match b with
     | Some (lo, k) => setBits lo k v (load n (ext p + o) (mem p))
     | None => v
     end) (mem p)) p.

(** What a field's number is on the wire: network order, or itself. *)
Definition enc (f : field) (v : Z) : Z :=
  match f with
  | Sequence => pbsd_hton16 v
  | TimeStamp | Ssrc | MmId => pbsd_hton32 v
  | Marker | KeyFrame | FirstPacketOfFrame => if negb (v =? 0) then 1 else 0
  | _ => v
  end.

Definition dec (f : field) (v : Z) : Z :=
  match f with
  | Sequence => pbsd_ntoh16 v
  | TimeStamp | Ssrc | MmId => pbsd_ntoh32 v
  | Marker | KeyFrame | FirstPacketOfFrame => Z.b2z (negb (v =? 0))
  | _ => v
  end.

Lemma get_raw f p : wf p -> get f p = dec f (raw f p).
Proof.
  intros [_ _ Hh _]. unfold sizeof_RTP_EXT in Hh.
  destruct f; cbn -[load getBits pbsd_ntoh16 pbsd_ntoh32];
    unfold GetMarker, GetPayloadType, GetSequence, GetTimeStamp, GetSsrc, GetMmId, GetMmType,
      GetKeyFrame, GetFirstPacketOfFrame, getField, o_mpt, o_seq, o_ts, o_ssrc, o_mmId, o_mmType,
      o_flags; rewrite ?Hh; rewrite <- ?Z.add_assoc; done.
Qed.

Lemma set_raw f v p : wf p -> set f v p = setRaw f (enc f v) p.
Proof.
  intros [_ _ Hh _]. unfold sizeof_RTP_EXT in Hh.
  destruct f; cbn -[load store setBits pbsd_hton16 pbsd_hton32];
    unfold SetMarker, SetPayloadType, SetSequence, SetTimeStamp, SetSsrc, SetMmId, SetMmType,
      SetKeyFrame, SetFirstPacketOfFrame, setField, o_mpt, o_seq, o_ts, o_ssrc, o_mmId, o_mmType,
      o_flags; rewrite ?Hh; rewrite <- ?Z.add_assoc; done.
Qed.

(** Every field lies inside the two headers. *)
Lemma place_range f : let '(o, n, b) := place f in
  0 <= o /\ o + Z.of_nat n <= 20 /\
  match b with Some (lo, k) => 0 <= lo /\ 0 < k /\ lo + k <= 8 /\ n = 1%nat | None => True end.
Proof. destruct f; cbn; lia. Qed.

Lemma wf_setMem p l : wf p -> is_bytes l -> zlen l = zlen (mem p) -> wf (setMem l p).
Proof. intros [] Hb Hl. split; cbn; try done. by rewrite Hl. Qed.

Lemma wf_setRaw f v p : wf p -> wf (setRaw f v p).
Proof.
  intros Hw. pose proof Hw as [Hb He Hh Hl]. unfold sizeof_RTP_EXT, sizeof_RTP_HEADER in *.
  pose proof (place_range f) as Hp. unfold setRaw. destruct (place f) as [[o n] b].
  apply wf_setMem; [done|by apply is_bytes_store|]. apply zlen_store; lia.
Qed.

Lemma raw_setRaw_same f v p :
  wf p -> raw f (setRaw f v p) = match place f with
                                 | (_, n, None) => v mod 2 ^ (8 * Z.of_nat n)
                                 | (_, _, Some (_, k)) => Z.land v (Z.ones k)
                                 end.
Proof.
  intros Hw. pose proof Hw as [Hb He Hh Hl]. unfold sizeof_RTP_EXT, sizeof_RTP_HEADER in *.
  pose proof (place_range f) as Hp. unfold raw, setRaw. destruct (place f) as [[o n] b].
  cbn [mem setMem ext]. destruct b as [[lo k]|]; rewrite load_store_same by lia; [|done].
  destruct Hp as (? & ? & ? & ? & ? & ->).
  assert (is_byte (setBits lo k v (load 1 (ext p + o) (mem p)))) as Hr.
  { apply setBits_range; try lia. apply (load_range 1); [done|lia|lia]. }
  rewrite Z.mod_small by exact Hr. apply getBits_setBits_same; lia.
Qed.

(** Two different fields share no bit. *)
Lemma place_disjoint f g : f <> g ->
  let '(o, n, b) := place f in let '(o', n', b') := place g in
  o' + Z.of_nat n' <= o \/ o + Z.of_nat n <= o' \/
  (o = o' /\ n = 1%nat /\ n' = 1%nat /\
   match b, b' with
   | Some (lo, k), Some (lo', k') => lo' + k' <= lo \/ lo + k <= lo'
   | _, _ => False
   end).
Proof. destruct f, g; cbn; try done; lia. Qed.

Lemma raw_setRaw_other f g v p : wf p -> f <> g -> raw g (setRaw f v p) = raw g p.
Proof.
  intros Hw Hne. pose proof Hw as [Hb He Hh Hl]. unfold sizeof_RTP_EXT, sizeof_RTP_HEADER in *.
  pose proof (place_range f) as Hf. pose proof (place_range g) as Hg.
  pose proof (place_disjoint f g Hne) as Hd. unfold raw, setRaw.
  destruct (place f) as [[o n] b], (place g) as [[o' n'] b']. cbn [mem setMem ext].
  destruct Hd as [Hd|[Hd|(-> & -> & -> & Hd)]].
  - rewrite load_store_other by lia. done.
  - rewrite load_store_other by lia. done.
  - destruct b as [[lo k]|], b' as [[lo' k']|]; try done.
    rewrite load_store_same by lia.
    assert (is_byte (setBits lo k v (load 1 (ext p + o') (mem p)))) as Hr.
    { apply setBits_range; try lia. apply (load_range 1); [done|lia|lia]. }
    rewrite Z.mod_small by exact Hr. apply getBits_setBits_other; lia.
Qed.

Lemma GetPayloadSize_setRaw f v p : wf p -> GetPayloadSize (setRaw f v p) = GetPayloadSize p.
Proof.
  intros Hw. pose proof Hw as [Hb He Hh Hl]. unfold sizeof_RTP_EXT, sizeof_RTP_HEADER in *.
  pose proof (place_range f) as Hf. unfold GetPayloadSize, setRaw.
  assert (Hd : let '(o, n, b) := place f in o + Z.of_nat n <= 6 \/ 8 <= o) by (destruct f; cbn; lia).
  destruct (place f) as [[o n] b]. cbn [mem setMem ext].
  rewrite load_store_other; [done|unfold o_hdrAndPayloadSize; lia..].
Qed.

Lemma payload_setRaw f v p : wf p -> payload (setRaw f v p) = payload p.
Proof.
  intros Hw. unfold payload. rewrite GetPayloadSize_setRaw by done.
  pose proof Hw as [Hb He Hh Hl]. unfold sizeof_RTP_EXT, sizeof_RTP_HEADER in *.
  pose proof (place_range f) as Hf. unfold GetPayloadBuffer, setRaw, sizeof_RTP_HEADER.
  destruct (place f) as [[o n] b]. cbn [mem setMem hdr].
  apply zsub_store_other; try lia.
  unfold GetPayloadSize. apply wrap_range. lia.
Qed.

Lemma dec_enc f v : 0 <= v < 2 ^ width f -> dec f
  (match place f with
   | (_, n, None) => enc f v mod 2 ^ (8 * Z.of_nat n)
   | (_, _, Some (_, k)) => Z.land (enc f v) (Z.ones k)
   end) = v.
Proof.
  intros Hv. destruct f; cbn -[Z.pow Z.land Z.ones pbsd_hton16 pbsd_hton32] in *.
  - change (2 ^ 1) with 2 in Hv. assert (v = 0 \/ v = 1) as [-> | ->] by lia; done.
  - rewrite Z.land_ones by lia. by apply Z.mod_small.
  - change (2 ^ (8 * 2)) with (2 ^ 16). rewrite Z.mod_small by apply hton16_range.
    by apply ntoh16_hton16.
  - change (2 ^ (8 * 4)) with (2 ^ 32). rewrite Z.mod_small by apply hton32_range.
    by apply ntoh32_hton32.
  - change (2 ^ (8 * 4)) with (2 ^ 32). rewrite Z.mod_small by apply hton32_range.
    by apply ntoh32_hton32.
  - change (2 ^ (8 * 4)) with (2 ^ 32). rewrite Z.mod_small by apply hton32_range.
    by apply ntoh32_hton32.
  - by apply Z.mod_small.
  - change (2 ^ 1) with 2 in Hv. assert (v = 0 \/ v = 1) as [-> | ->] by lia; done.
  - change (2 ^ 1) with 2 in Hv. assert (v = 0 \/ v = 1) as [-> | ->] by lia; done.
Qed.

(** Setting a field of a packet to a value of its width makes the matching
    getter return it, changes no other field, neither the size nor the bytes of the
    payload, and keeps the packet well-formed: the bit fields and the network byte
    order do not disturb each other. *)
Theorem set_get_correct f g v p :
  wf p -> 0 <= v < 2 ^ width f ->
  get f (set f v p) = v /\ (f <> g -> get g (set f v p) = get g p) /\
  GetPayloadSize (set f v p) = GetPayloadSize p /\ payload (set f v p) = payload p /\
  wf (set f v p).
Proof.
  intros Hw Hv. rewrite (set_raw f v p Hw). pose proof (wf_setRaw f (enc f v) p Hw) as Hw'.
  split_and!; try done.
  - rewrite get_raw, raw_setRaw_same by done. by apply dec_enc.
  - intros Hne. rewrite !get_raw by done. by rewrite raw_setRaw_other.
  - by apply GetPayloadSize_setRaw.
  - by apply payload_setRaw.
Qed.

(** ** A new packet *)

(** What goes over the wire: the extension header, the header and the payload. *)
Definition wire (p : t) : list Z :=
  zsub (ext p) (sizeof_RTP_EXT + sizeof_RTP_HEADER + GetPayloadSize p) (mem p).

(** The headers that [Init] makes for [n] bytes of payload. *)
Definition blank (n : Z) : list Z :=
  [0; 0; 0; 0; 0; 0] ++ be_bytes 2 (sizeof_RTP_HEADER + n) ++ 128 :: replicate 11 0.

Lemma Init_mem b n junk :
  0 <= n <= MAX_PAYLOAD_SIZE -> zlen junk = 40 + n ->
  exists rest, Init b n junk =
    mkPacket (match b with
              | Some b => zput 20 (ztake n b) (blank n ++ rest)
              | None => blank n ++ rest
              end) 0 8 0 /\ zlen rest = 20 + n /\ (is_bytes junk -> is_bytes rest).
Proof.
  intros Hn Hj. exists (replicate 4 0 ++ zdrop 24 junk).
  assert (Hm0 : zput 0 (replicate 24 0) junk = replicate 24 0 ++ zdrop 24 junk) by done.
  unfold MAX_PAYLOAD_SIZE in Hn. split; [|split].
  - unfold Init. cbn [ext hdr mem setMem]. rewrite Hm0.
    rewrite wrap_small by (unfold sizeof_RTP_HEADER; lia).
    assert (E : store 2 (0 + o_hdrAndPayloadSize) (pbsd_hton16 (sizeof_RTP_HEADER + n))
      (replicate 24 0 ++ zdrop 24 junk)
      = ([0; 0; 0; 0; 0; 0] ++ be_bytes 2 (sizeof_RTP_HEADER + n) ++ replicate 16 0)
        ++ zdrop 24 junk).
    { unfold store. rewrite zput_app_l by (rewrite ?zlen_le_bytes; by vm_compute).
      rewrite hton16_bytes, be_bytes_2. reflexivity. }
    unfold setField. cbn [mem setMem ext hdr]. rewrite !E, be_bytes_2.
    rewrite load_app_l by by vm_compute. unfold store.
    rewrite zput_app_l by (rewrite ?zlen_le_bytes; by vm_compute).
    unfold blank. rewrite be_bytes_2. destruct b; reflexivity.
  - rewrite zlen_app, zlen_zdrop by lia. change (zlen (replicate 4 0)) with 4. lia.
  - intros Hb. apply is_bytes_app. split; [by repeat constructor|].
    unfold zdrop. by apply Forall_drop.
Qed.

Lemma zlen_blank n : zlen (blank n) = 20.
Proof. unfold blank. rewrite !zlen_app, zlen_be_bytes. reflexivity. Qed.

Lemma blank_is_bytes n : is_bytes (blank n).
Proof.
  unfold blank. apply is_bytes_app; split; [by repeat constructor|].
  apply is_bytes_app; split; [|by repeat constructor].
  rewrite be_bytes_2. constructor; [apply byte_of_range|]. constructor; [apply byte_of_range|done].
Qed.

Lemma blank_size n l : 0 <= n <= MAX_PAYLOAD_SIZE ->
  GetPayloadSize (mkPacket (blank n ++ l) 0 8 0) = n.
Proof.
  intros Hn. unfold MAX_PAYLOAD_SIZE in Hn. unfold GetPayloadSize. cbn [ext mem].
  rewrite load_app_l by (rewrite ?zlen_blank; by vm_compute).
  assert (E : load 2 (0 + o_hdrAndPayloadSize) (blank n) = pbsd_hton16 (sizeof_RTP_HEADER + n)).
  { rewrite <- (Z.mod_small (pbsd_hton16 (sizeof_RTP_HEADER + n)) (2 ^ (8 * Z.of_nat 2)))
      by apply hton16_range.
    rewrite <- of_le_le_bytes, hton16_bytes. unfold blank. rewrite be_bytes_2. reflexivity. }
  unfold sizeof_RTP_HEADER in *. rewrite E, ntoh16_hton16, wrap_small by lia. lia.
Qed.

(** a packet made from 1 to 64512 bytes of payload is well-formed, carries
    exactly those bytes, has version 2 and every field zero; its image on the wire
    is accepted by [ParseExtBuffer]; other sizes are refused. *)
Theorem CreateInstance_correct b junk :
  is_bytes b -> is_bytes junk -> zlen junk = 40 + zlen b ->
  match CreateInstance b (Some junk) with
  | Some p => 0 < zlen b <= MAX_PAYLOAD_SIZE /\ wf p /\ payload p = b /\
      (forall f, get f p = 0) /\
      wire p = blank (zlen b) ++ b /\ ParseExtBuffer (wire p) (zlen (wire p)) = Some true
  | None => zlen b = 0 \/ MAX_PAYLOAD_SIZE < zlen b
  end.
Proof.
  intros Hb Hj Hl. unfold CreateInstance. destruct (Z.eqb_spec (zlen b) 0); [by left|].
  rewrite Z.gtb_ltb. destruct (Z.ltb_spec MAX_PAYLOAD_SIZE (zlen b)) as [|Hmax]; [by right|].
  pose proof (zlen_nonneg b). cbn [orb mbind option_bind].
  rewrite (wrap_small 16) by (unfold MAX_PAYLOAD_SIZE in *; lia).
  destruct (Init_mem (Some b) (zlen b) junk ltac:(lia) Hl) as (rest & -> & Hrl & Hrb).
  rewrite (ztake_all (zlen b) b) by lia. set (tail := zdrop (zlen b) rest).
  assert (Hz : zput 20 b (blank (zlen b) ++ rest) = blank (zlen b) ++ b ++ tail)
    by (rewrite <- (zlen_blank (zlen b)) at 1; apply zput_app_r).
  rewrite !Hz.
  assert (Hbt : is_bytes tail) by (unfold tail, zdrop; by apply Forall_drop, Hrb).
  assert (Hw : wf (mkPacket (blank (zlen b) ++ b ++ tail) 0 8 0)).
  { split; cbn [mem ext hdr]; try done; unfold sizeof_RTP_HEADER.
    - apply is_bytes_app; split; [apply blank_is_bytes|]. by apply is_bytes_app.
    - rewrite !zlen_app, zlen_blank. pose proof (zlen_nonneg tail). lia. }
  assert (Hwire : wire (mkPacket (blank (zlen b) ++ b ++ tail) 0 8 0) = blank (zlen b) ++ b).
  { unfold wire. rewrite blank_size by lia. cbn [ext mem].
    rewrite app_assoc. unfold sizeof_RTP_EXT, sizeof_RTP_HEADER.
    replace (8 + 12 + zlen b) with (zlen (blank (zlen b) ++ b)) by (rewrite zlen_app, zlen_blank; lia).
    rewrite zsub_app_l by (rewrite ?zlen_app; pose proof (zlen_nonneg (blank (zlen b))); lia).
    apply zsub_all. }
  split; [lia|]. split; [done|]. split; [|split; [|split; [done|]]].
  - unfold payload. rewrite blank_size by lia. cbn [GetPayloadBuffer hdr mem].
    change (8 + sizeof_RTP_HEADER) with 20. rewrite <- (zlen_blank (zlen b)) at 1.
    rewrite zsub_app_r by lia. rewrite Z.sub_diag, zsub_app_l by lia. apply zsub_all.
  - intros f. rewrite get_raw by done. unfold raw. cbn [ext mem]. pose proof (place_range f) as Hf.
    unfold dec. destruct f; cbn [place] in *;
      rewrite load_app_l by (rewrite ?zlen_blank; cbn in Hf |- *; lia);
      unfold blank; rewrite be_bytes_2; reflexivity.
  - rewrite Hwire. unfold ParseExtBuffer, sizeof_RTP_EXT, sizeof_RTP_HEADER.
    assert (Hzl : zlen (blank (zlen b) ++ b) = 20 + zlen b) by (by rewrite zlen_app, zlen_blank).
    rewrite Hzl. destruct (Z.ltb_spec (20 + zlen b) (8 + 12 + 1)); [lia|].
    assert (Hrd : forall o n, 0 <= o -> 0 <= n -> o + n <= 20 ->
      rd (blank (zlen b) ++ b) o n = Some (zsub o n (blank (zlen b)))).
    { intros o n0 ? ? ?. unfold rd. rewrite Hzl. destruct (Z.leb_spec 0 o); [|lia].
      destruct (Z.leb_spec (o + n0) (20 + zlen b)); [|lia]. cbn [andb]. f_equal.
      apply zsub_app_l; rewrite ?zlen_blank; lia. }
    rewrite !Hrd by lia. cbn [mbind option_bind].
    assert (E : pbsd_ntoh16 (load 2 o_hdrAndPayloadSize (zsub 0 8 (blank (zlen b)))) = 12 + zlen b).
    { assert (E' : load 2 o_hdrAndPayloadSize (zsub 0 8 (blank (zlen b))) = of_le (be_bytes 2 (12 + zlen b)))
        by (unfold blank; rewrite !be_bytes_2; reflexivity).
      rewrite E', <- hton16_bytes, of_le_le_bytes, Z.mod_small by apply hton16_range.
      apply ntoh16_hton16. unfold MAX_PAYLOAD_SIZE in *. lia. }
    rewrite E. destruct (Z.eqb_spec (8 + (12 + zlen b)) (20 + zlen b)); [|lia]. cbn [negb].
    unfold blank. rewrite be_bytes_2. reflexivity.
Qed.

(** ** Parsing an RTP datagram *)

(** RFC 3550, section 5.1: where the payload begins and how many bytes of padding
    follow it; [None] for what is no RTP packet of version 2.  (A padding count of
    zero, which the RFC forbids, counts as one.) *)
Definition rtp_layout (buf : list Z) : option (Z * Z) :=
  let b0 := load 1 0 buf in
  let start := 12 + 4 * getBits 0 4 b0 in
  let x := negb (getBits 4 1 b0 =? 0) in
  let off := if x then start + 4 + 4 * of_be (zsub (start + 2) 2 buf) else start in
  let pad := if getBits 5 1 b0 =? 0 then 0 else Z.max 1 (load 1 (zlen buf - 1) buf) in
  if (zlen buf <? 12) || negb (getBits 6 2 b0 =? 2) || (x && (zlen buf <? start + 4))
     || (zlen buf <? off + pad)
  then None else Some (off, pad).

Lemma rd_ok buf o n : 0 <= o -> o + n <= zlen buf -> rd buf o n = Some (zsub o n buf).
Proof.
  intros. unfold rd. destruct (Z.leb_spec 0 o), (Z.leb_spec (o + n) (zlen buf)); try lia. done.
Qed.

Lemma load_zsub n o k l :
  0 <= o -> o + Z.of_nat n <= k -> load n o (zsub 0 k l) = load n o l.
Proof. intros. unfold load. by rewrite zsub_zsub by lia. Qed.

Lemma of_be_range l : is_bytes l -> 0 <= of_be l.
Proof.
  intros Hl. unfold of_be. assert (is_bytes (reverse l)) as H by (by apply Forall_reverse).
  pose proof (of_le_range _ H). lia.
Qed.

Lemma ParseRtpBuffer_ok buf :
  is_bytes buf -> zlen buf <= 65535 ->
  ParseRtpBuffer buf (zlen buf) = Some
    match rtp_layout buf with
    | Some (off, pad) =>
        mkParsed true (Some (ztake 12 buf))
          (if zlen buf - off - pad =? 0 then None else Some off) (zlen buf - off - pad)
    | None => failed (if zlen buf <? 12 then None else Some (ztake 12 buf))
    end.
Proof.
  intros Hb Hlen. unfold ParseRtpBuffer, rtp_layout, sizeof_RTP_HEADER. pose proof (zlen_nonneg buf).
  destruct (Z.eqb_spec (zlen buf) 0) as [->|]; [done|].
  destruct (Z.ltb_spec (zlen buf) 12); [done|].
  rewrite (rd_ok buf 0 12) by lia. cbn [mbind option_bind]. unfold o_vpxcc. rewrite load_zsub by lia.
  change (zsub 0 12 buf) with (ztake 12 buf).
  set (b0 := load 1 0 buf). destruct (Z.eqb_spec (getBits 6 2 b0) 2); [|done]. cbn [orb negb].
  pose proof (getBits_range 0 4 b0 ltac:(lia)) as Hcc. change (2 ^ 4) with 16 in Hcc.
  set (start := 12 + 4 * getBits 0 4 b0). destruct (Z.ltb_spec (zlen buf) start) as [Hst|Hst].
  { destruct (getBits 4 1 b0 =? 0); cbn [negb andb orb].
    - destruct (Z.ltb_spec (zlen buf) (start + (if getBits 5 1 b0 =? 0 then 0
        else Z.max 1 (load 1 (zlen buf - 1) buf)))); [done|].
      destruct (getBits 5 1 b0 =? 0); lia.
    - destruct (Z.ltb_spec (zlen buf) (start + 4)); [done|lia]. }
  pose proof (load_range 1 (zlen buf - 1) buf Hb ltac:(lia) ltac:(lia)) as Hpad.
  change (2 ^ (8 * Z.of_nat 1)) with 256 in Hpad.
  assert (Htail : forall needSize now, needSize = now -> 0 <= now <= zlen buf ->
    (r ← (if getBits 5 1 b0 =? 0 then Some (Some (u16 (zlen buf - now))) else
           if zlen buf <? needSize + 1 then Some None else
           c ← rd buf (zlen buf - 1) 1;
           (let paddingSize := if of_le c <? 1 then 1 else of_le c in
           if zlen buf <? needSize + paddingSize then Some None else
           Some (Some (u16 (u16 (zlen buf - now) - paddingSize)))));
      match r with
      | None => Some (failed (Some (ztake 12 buf)))
      | Some payloadSize =>
          Some (mkParsed true (Some (ztake 12 buf))
            (if payloadSize =? 0 then None else Some now) payloadSize)
      end) = Some
    (let pad := if getBits 5 1 b0 =? 0 then 0 else Z.max 1 (load 1 (zlen buf - 1) buf) in
     if zlen buf <? now + pad then failed (Some (ztake 12 buf)) else
       mkParsed true (Some (ztake 12 buf))
          (if zlen buf - now - pad =? 0 then None else Some now) (zlen buf - now - pad))).
  { intros needSize now -> Hnow. cbv zeta. rewrite (wrap_small 16 (zlen buf - now)) by lia.
    destruct (getBits 5 1 b0 =? 0); cbn [mbind option_bind].
    { destruct (Z.ltb_spec (zlen buf) (now + 0)); [lia|]. by rewrite Z.sub_0_r. }
    destruct (Z.ltb_spec (zlen buf) (now + 1)).
    { destruct (Z.ltb_spec (zlen buf) (now + Z.max 1 (load 1 (zlen buf - 1) buf))); [done|lia]. }
    rewrite rd_ok by lia. cbn [mbind option_bind].
    change (of_le (zsub (zlen buf - 1) 1 buf)) with (load 1 (zlen buf - 1) buf).
    set (pad := load 1 (zlen buf - 1) buf) in *.
    assert (Hpe : (if pad <? 1 then 1 else pad) = Z.max 1 pad) by (destruct (Z.ltb_spec pad 1); lia).
    rewrite Hpe. destruct (Z.ltb_spec (zlen buf) (now + Z.max 1 pad)); [done|].
    cbn [mbind option_bind]. rewrite wrap_small by lia. done. }
  destruct (getBits 4 1 b0 =? 0); cbn [negb andb orb mbind option_bind].
  - rewrite Htail by lia. cbv zeta. by destruct (zlen buf <? start + _).
  - fold start. destruct (Z.ltb_spec (zlen buf) (start + 2 + 2)), (Z.ltb_spec (zlen buf) (start + 4));
      try lia; [done|]. rewrite (rd_ok buf (start + 2) 2) by lia. cbn [mbind option_bind].
    assert (Hz : is_bytes (zsub (start + 2) 2 buf)) by (by apply is_bytes_zsub).
    rewrite ntoh16_be; [|done|apply Nat2Z.inj; fold (zlen (zsub (start + 2) 2 buf)); rewrite zlen_zsub; lia].
    pose proof (of_be_range _ Hz). set (cnt := of_be (zsub (start + 2) 2 buf)) in *.
    destruct (Z.ltb_spec (zlen buf) (start + 2 + 2 + 4 * cnt)); cbn [mbind option_bind].
    + destruct (Z.ltb_spec (zlen buf) (start + 4 + 4 * cnt + (if getBits 5 1 b0 =? 0 then 0
        else Z.max 1 (load 1 (zlen buf - 1) buf)))); [done|]. destruct (getBits 5 1 b0 =? 0); lia.
    + rewrite Htail by lia. cbv zeta. by destruct (zlen buf <? start + 4 + 4 * cnt + _).
Qed.

(** Memory after the datagram is not read. *)
Lemma ParseRtpBuffer_tail buf tail :
  is_bytes buf -> zlen buf <= 65535 ->
  ParseRtpBuffer (buf ++ tail) (zlen buf) = ParseRtpBuffer buf (zlen buf).
Proof.
  intros Hb Hl. pose proof (ParseRtpBuffer_ok buf Hb Hl) as E. rewrite E. revert E.
  assert (Hrd : forall o n x, rd buf o n = Some x -> rd (buf ++ tail) o n = Some x).
  { intros o n x. unfold rd. rewrite zlen_app. pose proof (zlen_nonneg tail).
    destruct (Z.leb_spec 0 o), (Z.leb_spec (o + n) (zlen buf)); try done. cbn [andb]. intros [= <-].
    destruct (Z.leb_spec (o + n) (zlen buf + zlen tail)); [|lia]. f_equal.
    destruct (decide (0 <= n)); [by apply zsub_app_l|]. unfold zsub, ztake.
    by rewrite (Z2Nat.nonpos n) by lia. }
  match goal with |- _ = Some ?x -> _ => generalize x end. intros r. unfold ParseRtpBuffer.
  destruct (zlen buf =? 0); [done|]. destruct (_ <? _); [done|].
  destruct (rd buf 0 sizeof_RTP_HEADER) as [h|] eqn:E1; [|done]. rewrite (Hrd _ _ _ E1).
  cbn [mbind option_bind]. destruct (negb _); [done|]. destruct (_ <? _); [done|].
  set (now := sizeof_RTP_HEADER + 4 * _).
  assert (Hk : forall (k : option (option (Z * Z))) f, (k ≫= f : option parsed) = Some r ->
    exists v, k = Some v /\ f v = Some r) by (intros [v|] f; [by exists v|done]).
  intros (v & E2 & Hv)%Hk.
  assert (E2' : (if getBits 4 1 (load 1 o_vpxcc h) =? 0
    then Some (Some (now, now)) else
       if zlen buf <? now + 2 + 2 then Some None else
       c ← rd (buf ++ tail) (now + 2) 2;
       if zlen buf <? now + 2 + 2 + 4 * pbsd_ntoh16 (of_le c) then Some None else
       Some (Some (now + 2 + 2 + 4 * pbsd_ntoh16 (of_le c), now + 4 + 4 * pbsd_ntoh16 (of_le c))))
    = Some v).
  { rewrite <- E2. destruct (_ =? 0); [done|]. destruct (_ <? _); [done|].
    destruct (rd buf (now + 2) 2) as [c|] eqn:E3; [|done]. by rewrite (Hrd _ _ _ E3). }
  cbv zeta. rewrite E2'. cbn [mbind option_bind]. destruct v as [[a b]|]; [|done].
  revert Hv. destruct (getBits 5 1 _ =? 0); [done|]. destruct (zlen buf <? a + 1); [done|].
  destruct (rd buf (zlen buf - 1) 1) as [c|] eqn:E4; [|done]. by rewrite (Hrd _ _ _ E4).
Qed.

(** [ParseRtpBuffer] never reads outside the buffer, whatever bytes arrive, and
    finds exactly the payload that RFC 3550 gives the packet: past the contributing
    sources and the header extension, without the padding; anything else is
    rejected with no payload. *)
Theorem ParseRtpBuffer_correct buf :
  is_bytes buf -> zlen buf <= 65535 ->
  ParseRtpBuffer buf (zlen buf) = Some
    match rtp_layout buf with
    | Some (off, pad) =>
        mkParsed true (Some (ztake 12 buf))
          (if zlen buf - off - pad =? 0 then None else Some off) (zlen buf - off - pad)
    | None => failed (if zlen buf <? 12 then None else Some (ztake 12 buf))
    end.
Proof. apply ParseRtpBuffer_ok. Qed.

(** A packet with a payload of three bytes. *)
Definition sample : t := default (mkPacket [] 0 8 0) (CreateInstance [7; 8; 9] (Some (replicate 43 170))).

Lemma CreateInstance_correct_witness :
  wf sample /\ payload sample = [7; 8; 9] /\ ParseExtBuffer (wire sample) 23 = Some true.
Proof.
  assert (Hb : is_bytes [7; 8; 9]) by (repeat constructor; done).
  assert (Hj : is_bytes (replicate 43 170)) by (repeat constructor; done).
  pose proof (CreateInstance_correct [7; 8; 9] (replicate 43 170) Hb Hj eq_refl) as H.
  change (CreateInstance [7; 8; 9] (Some (replicate 43 170))) with (Some sample) in H.
  destruct H as (_ & Hw & Hp & _ & _ & Hx). split; [exact Hw|]. split; [exact Hp|]. exact Hx.
Defined.

Lemma sample_wf : wf sample.
Proof.
  split; [|by vm_compute..].
  apply (Forall_impl (fun b => bool_decide (0 <= b < 256) = true)).
  - apply Forall_forall. intros x Hx. vm_compute in Hx.
    repeat (apply elem_of_cons in Hx as [->|Hx]; [done|]). by apply not_elem_of_nil in Hx.
  - intros x Hx. by apply bool_decide_eq_true_1 in Hx.
Qed.

Lemma set_get_correct_witness :
  get Sequence (set Sequence 4660 sample) = 4660 /\ get Marker (set Sequence 4660 sample) = 0 /\
  zsub 10 2 (mem (set Sequence 4660 sample)) = [18; 52].
Proof.
  assert (Hv : 0 <= 4660 < 2 ^ width Sequence) by (vm_compute; split; congruence).
  destruct (set_get_correct Sequence Marker 4660 sample sample_wf Hv) as (H1 & H2 & _).
  split; [exact H1|]. split; [exact (H2 ltac:(discriminate))|reflexivity].
Defined.

(** One contributing source, a header extension of one word, two bytes of payload
    and two of padding. *)
Definition sample_rtp : list Z :=
  [177; 96; 0; 1; 0; 0; 0; 2; 0; 0; 0; 3; 0; 0; 0; 4; 190; 222; 0; 1; 9; 9; 9; 9; 55; 66; 0; 2].

Lemma ParseRtpBuffer_correct_witness :
  ParseRtpBuffer sample_rtp 28 = Some (mkParsed true (Some (ztake 12 sample_rtp)) (Some 24) 2).
Proof.
  assert (Hb : is_bytes sample_rtp) by (repeat constructor; done).
  assert (Hl : zlen sample_rtp <= 65535) by (vm_compute; congruence).
  exact (ParseRtpBuffer_correct sample_rtp Hb Hl).
Defined.

End RtpFields.
