(* ===== verification/RtpSession.v ===== *)
(** * RTP sessions ([rtp_session_base.cpp], [rtp_session_tcpclient.cpp],
      [rtp_session_tcpclient_ex.cpp])

    A session sends packets through its transport and cuts the received byte stream
    back into packets.  [CRtpSessionBase] holds what all sessions share; the two
    loops [OnRecv] of the TCP sessions are the standard framing (a 16-bit length
    before each RTP packet) and the extended one ([RTP_EXT] before each).  The
    transport, the reactor and the reference counts are a world [W]; the receive
    pool is reached through [IProRecvPool]; the virtual [Fini] and the observer's
    methods are arguments. *)

From S2P Require Import Prelude Bytes Bsd NetPools RefCount RtpPacket.
Import CRtpPacket.

Definition PBSD_ETIMEDOUT : Z := 110.

(** [RTP_SESSION_TYPE] *)
Definition RTP_ST_UDPCLIENT : Z := 1.
Definition RTP_ST_UDPSERVER : Z := 2.
Definition RTP_ST_TCPCLIENT : Z := 3.
Definition RTP_ST_TCPSERVER : Z := 4.
Definition RTP_ST_UDPCLIENT_EX : Z := 5.
Definition RTP_ST_UDPSERVER_EX : Z := 6.
Definition RTP_ST_TCPCLIENT_EX : Z := 7.
Definition RTP_ST_TCPSERVER_EX : Z := 8.
Definition RTP_ST_SSLCLIENT_EX : Z := 9.
Definition RTP_ST_SSLSERVER_EX : Z := 10.
Definition RTP_ST_MCAST : Z := 11.
Definition RTP_ST_MCAST_EX : Z := 12.

Definition oneOf (x : Z) (l : list Z) : bool := existsb (Z.eqb x) l.

(** What a session calls. *)
Class SessWorld (W P : Type) := {
  s_AddRef : Z -> W -> option W;
  s_Release : Z -> W -> option W;
  r_CancelTimer : Z -> Z -> W -> option W;                    (* reactor, timer *)
  t_SendData : Z -> list Z -> Z -> option Z -> W -> option (bool * W);  (* transport .. address *)
  t_RequestOnSend : Z -> W -> option W;
  t_SuspendRecv : Z -> W -> option W;
  t_ResumeRecv : Z -> W -> option W;
  ProDeleteTransport : Z -> W -> option W;
  t_GetRecvPool : Z -> W -> P;
  t_setRecvPool : Z -> P -> W -> W
}.

(** The calls on [IRtpSessionObserver]. *)
Inductive sevent :=
  | OnOkSession
  | OnRecvSession (packet : CRtpPacket.t)
  | OnSendSession (packetErased : bool)
  | OnCloseSession (errorCode sslCode : Z) (tcpConnected : bool).

Module CRtpSessionBase.

(** The part of [RTP_SESSION_INFO] that the code below reads. *)
Record info := mkInfo { sessionType : Z; mmType : Z; inSrcMmId : Z; outSrcMmId : Z }.

Record ticks := mkTicks {
  m_sendingTick : Z; m_sendTick : Z; m_onSendTick : Z; m_peerAliveTick : Z
}.

Record t := mkSession {
  m_info : info;
  m_observer : Z;
  m_reactor : Z;
  m_trans : Z;
  m_remoteAddr : Z;          (* sin_addr.s_addr *)
  m_remoteAddrConfig : Z;
  m_tcpConnected : bool;
  m_actionId : Z;
  m_ticks : ticks;
  m_timeoutTimerId : Z;
  m_onOkTimerId : Z;
  m_onOkCalled : bool;
  m_canUpcall : bool
}.

Definition setSending (actionId : Z) (k : ticks) (s : t) : t :=
  mkSession (m_info s) (m_observer s) (m_reactor s) (m_trans s) (m_remoteAddr s)
    (m_remoteAddrConfig s) (m_tcpConnected s) actionId k (m_timeoutTimerId s) (m_onOkTimerId s)
    (m_onOkCalled s) (m_canUpcall s).
Definition setTicks (k : ticks) (s : t) : t := setSending (m_actionId s) k s.
Definition setLinks (observer reactor trans : Z) (s : t) : t :=
  mkSession (m_info s) observer reactor trans (m_remoteAddr s)
    (m_remoteAddrConfig s) (m_tcpConnected s) (m_actionId s) (m_ticks s) (m_timeoutTimerId s)
    (m_onOkTimerId s) (m_onOkCalled s) (m_canUpcall s).
Definition setTimers (timeout onOk : Z) (s : t) : t :=
  mkSession (m_info s) (m_observer s) (m_reactor s) (m_trans s) (m_remoteAddr s)
    (m_remoteAddrConfig s) (m_tcpConnected s) (m_actionId s) (m_ticks s) timeout onOk
    (m_onOkCalled s) (m_canUpcall s).
Definition setFlags (onOkCalled canUpcall : bool) (s : t) : t :=
  mkSession (m_info s) (m_observer s) (m_reactor s) (m_trans s) (m_remoteAddr s)
    (m_remoteAddrConfig s) (m_tcpConnected s) (m_actionId s) (m_ticks s) (m_timeoutTimerId s)
    (m_onOkTimerId s) onOkCalled canUpcall.

Definition setPeerAlive (tick : Z) (s : t) : t :=
  let k := m_ticks s in setTicks (mkTicks (m_sendingTick k) (m_sendTick k) (m_onSendTick k) tick) s.

(** [m_observer == NULL || m_reactor == NULL || m_trans == NULL] *)
Definition closed (s : t) : bool :=
  (m_observer s =? NULL) || (m_reactor s =? NULL) || (m_trans s =? NULL).

(** The sessions over a stream. *)
Definition isStream (st : Z) : bool :=
  oneOf st [RTP_ST_TCPCLIENT; RTP_ST_TCPSERVER; RTP_ST_TCPCLIENT_EX; RTP_ST_TCPSERVER_EX;
            RTP_ST_SSLCLIENT_EX; RTP_ST_SSLSERVER_EX].

(** The [switch] of [SendPacket]: how many bytes before the payload go out. *)
Definition otherSize (st : Z) : Z :=
  if oneOf st [RTP_ST_UDPCLIENT; RTP_ST_UDPSERVER; RTP_ST_MCAST] then sizeof_RTP_HEADER
  else if oneOf st [RTP_ST_TCPCLIENT; RTP_ST_TCPSERVER] then 2 + sizeof_RTP_HEADER
  else if oneOf st [RTP_ST_UDPCLIENT_EX; RTP_ST_UDPSERVER_EX; RTP_ST_TCPCLIENT_EX;
                    RTP_ST_TCPSERVER_EX; RTP_ST_SSLCLIENT_EX; RTP_ST_SSLSERVER_EX; RTP_ST_MCAST_EX]
  then sizeof_RTP_EXT + sizeof_RTP_HEADER
  else 0.

Section ops.
Context {W P : Type} `{SessWorld W P} `{IProRecvPool P}.
(** The virtual [Fini] and the observer. *)
Context (Fini : t -> W -> option (t * W)).
Context (upcall : Z -> sevent -> t * W -> option (t * W)).

(** The bytes [SendPacket] hands to the transport. *)
Definition image (st : Z) (p : CRtpPacket.t) : list Z :=
  zsub (GetPayloadBuffer p - otherSize st) (GetPayloadSize p + otherSize st) (mem p).

(** [CRtpSessionBase::SendPacket]; [tick] is the clock *)
Definition SendPacket (packet : option CRtpPacket.t) (tick : Z) (s : t) (w : W)
    : option (bool * t * W) :=
  match packet with
  | None => Some (false, s, w)
  | Some p =>
      let st := sessionType (m_info s) in
      if closed s then Some (false, s, w) else
      if negb (m_onOkCalled s) then Some (false, s, w) else
      if (negb (outSrcMmId (m_info s) =? 0) && negb (GetMmId p =? outSrcMmId (m_info s)))
         || negb (GetMmType p =? mmType (m_info s))
      then Some (false, s, w) else
      '(ret, w) ←
        (if oneOf st [RTP_ST_UDPCLIENT; RTP_ST_UDPSERVER] then
           if negb (m_remoteAddr s =? 0)
           then t_SendData (m_trans s) (image st p) (u64 (m_actionId s + 1)) (Some (m_remoteAddr s)) w
           else if negb (m_remoteAddrConfig s =? 0)
           then t_SendData (m_trans s) (image st p) (u64 (m_actionId s + 1))
                  (Some (m_remoteAddrConfig s)) w
           else Some (true, w)
         else t_SendData (m_trans s) (image st p) (u64 (m_actionId s + 1)) (Some (m_remoteAddr s)) w);
      let k := m_ticks s in
      let k := mkTicks tick (m_sendTick k) (m_onSendTick k) (m_peerAliveTick k) in
      if negb ret then Some (false, setTicks k s, w) else
      let k := if isStream st then mkTicks tick tick (tick - 1) (m_peerAliveTick k) else k in
      Some (true, setSending (u64 (m_actionId s + 1)) k s, w)
  end.

(** [CRtpSessionBase::RequestOnSend], [SuspendRecv], [ResumeRecv] *)
Definition RequestOnSend (s : t) (w : W) : option W :=
  if closed s then Some w else t_RequestOnSend (m_trans s) w.
Definition SuspendRecv (s : t) (w : W) : option W :=
  if closed s then Some w else t_SuspendRecv (m_trans s) w.
Definition ResumeRecv (s : t) (w : W) : option W :=
  if closed s then Some w else t_ResumeRecv (m_trans s) w.

(** [CRtpSessionBase::OnSend]; [tick] is the clock *)
Definition OnSend (trans actionId tick : Z) (s : t) (w : W) : option (list sevent * t * W) :=
  if trans =? NULL then Some ([], s, w) else
  if closed s then Some ([], s, w) else
  if negb (trans =? m_trans s) then Some ([], s, w) else
  if negb (m_onOkCalled s) then Some ([], s, w) else
  let k := m_ticks s in
  let s := if isStream (sessionType (m_info s)) && (actionId >? 0) && (actionId =? m_actionId s)
           then setTicks (mkTicks (m_sendingTick k) (m_sendTick k) tick (m_peerAliveTick k)) s
           else s in
  let observer := m_observer s in
  w ← s_AddRef observer w;
  '(es, s, w) ←
    (if m_canUpcall s then
       '(s, w) ← upcall observer (OnSendSession false) (s, w); Some ([OnSendSession false], s, w)
     else Some ([], s, w));
  w ← s_Release observer w;
  Some (es, s, w).

(** [m_canUpcall = false; observer->OnCloseSession(...)] when upcalls are allowed *)
Definition close (observer errorCode sslCode : Z) (s : t) (w : W) : option (list sevent * t * W) :=
  if m_canUpcall s then
    let e := OnCloseSession errorCode sslCode (m_tcpConnected s) in
    '(s, w) ← upcall observer e (setFlags (m_onOkCalled s) false s, w);
    Some ([e], s, w)
  else Some ([], s, w).

(** [CRtpSessionBase::OnClose] *)
Definition OnClose (trans errorCode sslCode : Z) (s : t) (w : W) : option (list sevent * t * W) :=
  if trans =? NULL then Some ([], s, w) else
  if closed s then Some ([], s, w) else
  if negb (trans =? m_trans s) then Some ([], s, w) else
  let observer := m_observer s in
  let s := setLinks observer (m_reactor s) NULL s in
  w ← s_AddRef observer w;
  '(es, s, w) ← close observer errorCode sslCode s w;
  w ← s_Release observer w;
  w ← ProDeleteTransport trans w;
  Some (es, s, w).

(** [CRtpSessionBase::OnHeartbeat] (not Windows); [tick] is the clock and [timeout]
    the keep-alive timeout in seconds *)
Definition OnHeartbeat (trans tick timeout : Z) (s : t) (w : W) : option (list sevent * t * W) :=
  if trans =? NULL then Some ([], s, w) else
  if closed s then Some ([], s, w) else
  if negb (trans =? m_trans s) then Some ([], s, w) else
  if negb (m_onOkCalled s) then Some ([], s, w) else
  let st := sessionType (m_info s) in
  if oneOf st [RTP_ST_UDPCLIENT_EX; RTP_ST_UDPSERVER_EX; RTP_ST_TCPCLIENT_EX; RTP_ST_TCPSERVER_EX;
               RTP_ST_SSLCLIENT_EX; RTP_ST_SSLSERVER_EX] then
    '(_, w) ← t_SendData (m_trans s) (replicate 8 0) 0 None w;
    if tick - m_peerAliveTick (m_ticks s) <? timeout * 1000 then Some ([], s, w) else
    let observer := m_observer s in
    w ← s_AddRef observer w;
    '(es, s, w) ← close observer PBSD_ETIMEDOUT 0 s w;
    w ← s_Release observer w;
    '(s, w) ← Fini s w;
    Some (es, s, w)
  else if oneOf st [RTP_ST_TCPCLIENT; RTP_ST_TCPSERVER] then
    '(_, w) ← t_SendData (m_trans s) (replicate 2 0) 0 None w;
    Some ([], s, w)
  else Some ([], s, w).

(** [CRtpSessionBase::OnTimer] *)
Definition OnTimer (timerId : Z) (s : t) (w : W) : option (list sevent * t * W) :=
  if timerId =? 0 then Some ([], s, w) else
  if (m_observer s =? NULL) || (m_reactor s =? NULL) then Some ([], s, w) else
  if negb (timerId =? m_timeoutTimerId s) && negb (timerId =? m_onOkTimerId s)
  then Some ([], s, w) else
  let timeout := timerId =? m_timeoutTimerId s in
  w ← r_CancelTimer (m_reactor s) timerId w;
  let s := if timeout then setTimers 0 (m_onOkTimerId s) s
           else setTimers (m_timeoutTimerId s) 0 s in
  let observer := m_observer s in
  w ← s_AddRef observer w;
  '(es, s, w) ←
    (if timeout then close observer PBSD_ETIMEDOUT 0 s w
     else if m_canUpcall s && negb (m_onOkCalled s) then
       '(s, w) ← upcall observer OnOkSession (setFlags true (m_canUpcall s) s, w);
       Some ([OnOkSession], s, w)
     else Some ([], s, w));
  w ← s_Release observer w;
  '(s, w) ← (if m_canUpcall s then Some (s, w) else Fini s w);
  Some (es, s, w).

(** ** Receiving *)

(** [ProMalloc] for a packet: the memory from [dummyBuffer] on. *)
Context (malloc : Z -> option (list Z)).

(** What one turn of a receiving loop does under the lock: leave the function,
    leave the loop, go round again, or hand a packet (or an error) on. *)
Inductive turn :=
  | Return
  | Break (s : t)
  | Continue (s : t) (w : W)
  | Handle (packet : option CRtpPacket.t) (error : bool) (s : t) (w : W).

(** The locked part of [CRtpSessionTcpclientEx::OnRecv]; [None] is a read of memory
    that was not written. *)
Definition exTurn (trans tick : Z) (s : t) (w : W) : option turn :=
  if closed s then Some Return else
  if negb (trans =? m_trans s) then Some Return else
  let s := setPeerAlive tick s in
  let pool : P := t_GetRecvPool trans w in
  let dataSize := PeekDataSize pool in
  if dataSize <? sizeof_RTP_EXT then Some (Break s) else
  ext ← PeekData sizeof_RTP_EXT pool;
  let hdrAndPayloadSize := pbsd_ntoh16 (load 2 o_hdrAndPayloadSize ext) in
  let size := sizeof_RTP_EXT + hdrAndPayloadSize in
  if dataSize <? size then Some (Break s) else
  if hdrAndPayloadSize =? 0
  then Some (Continue s (t_setRecvPool trans (Flush sizeof_RTP_EXT pool) w)) else
  r ← match CreateInstanceSize size (malloc size) with
      | None => Some (None, true)
      | Some p =>
          data ← PeekData size pool;
          let p := setMem (zput (GetPayloadBuffer p) data (mem p)) p in
          let buf := GetPayloadBuffer p in
          ok ← ParseExtBuffer (zdrop buf (mem p)) (GetPayloadSize p);
          if negb ok then Some (Some p, true) else
          let p := mkPacket (mem p) buf (buf + sizeof_RTP_EXT) (m_tick p) in
          Some (Some p, (negb (inSrcMmId (m_info s) =? 0)
                         && negb (GetMmId p =? inSrcMmId (m_info s)))
                        || negb (GetMmType p =? mmType (m_info s)))
      end;
  w ← s_AddRef (m_observer s) (t_setRecvPool trans (Flush size pool) w);
  Some (Handle (fst r) (snd r) s w).

(** The locked part of [CRtpSessionTcpclient::OnRecv]. *)
Definition tcpTurn (trans tick : Z) (s : t) (w : W) : option turn :=
  if closed s then Some Return else
  if negb (trans =? m_trans s) then Some Return else
  let pool : P := t_GetRecvPool trans w in
  let dataSize := PeekDataSize pool in
  if dataSize <? 2 then Some (Break s) else
  let s := setPeerAlive tick s in
  bs ← PeekData 2 pool;
  let packetSize := pbsd_ntoh16 (of_le bs) in
  if dataSize <? 2 + packetSize then Some (Break s) else
  let pool := Flush 2 pool in
  if packetSize =? 0 then Some (Continue s (t_setRecvPool trans pool w)) else
  match CreateInstanceSize packetSize (malloc packetSize) with
  | None =>
      w ← s_AddRef (m_observer s) (t_setRecvPool trans (Flush packetSize pool) w);
      Some (Handle None true s w)
  | Some p =>
      data ← PeekData packetSize pool;
      let p := setMem (zput (GetPayloadBuffer p) data (mem p)) p in
      let base := GetPayloadBuffer p in
      r ← ParseRtpBuffer (zdrop base (mem p)) (GetPayloadSize p);
      match ret r, payloadBuffer r, p_hdr r with
      | true, Some off, Some h =>
          if payloadSize r =? 0
          then Some (Continue s (t_setRecvPool trans (Flush packetSize pool) w)) else
          let h := store 1 o_vpxcc (setBits 0 4 0 (setBits 4 1 0 (setBits 5 1 0
                     (setBits 6 2 2 (load 1 o_vpxcc h))))) h in
          let ext := base + off - sizeof_RTP_HEADER - sizeof_RTP_EXT in
          let m := store 4 (ext + o_mmId) (pbsd_hton32 (inSrcMmId (m_info s))) (mem p) in
          let m := store 1 (ext + o_mmType) (mmType (m_info s)) m in
          let m := store 2 (ext + o_hdrAndPayloadSize)
                     (pbsd_hton16 (u16 (sizeof_RTP_HEADER + payloadSize r))) m in
          let m := zput (ext + sizeof_RTP_EXT) h m in
          w ← s_AddRef (m_observer s) (t_setRecvPool trans (Flush packetSize pool) w);
          Some (Handle (Some (mkPacket m ext (ext + sizeof_RTP_EXT) (m_tick p))) false s w)
      | _, _, _ => Some (Continue s (t_setRecvPool trans (Flush packetSize pool) w))
      end
  end.

(** The loop of both [OnRecv]s; [clock] gives the tick of each turn.  Each turn
    consumes received bytes, so [fuel] above their number is enough. *)
Fixpoint recvLoop (locked : Z -> Z -> t -> W -> option turn) (fuel : nat) (trans : Z)
    (clock : nat -> Z) (s : t) (w : W) : option (list sevent * t * W) :=
  match fuel with
  | O => None
  | S fuel =>
      r ← locked trans (clock fuel) s w;
      match r with
      | Return => Some ([], s, w)
      | Break s => Some ([], s, w)
      | Continue s w => recvLoop locked fuel trans clock s w
      | Handle packet error s w =>
          let observer := m_observer s in
          '(es, s, w) ←
            (if error then close observer (-1) 0 s w
             else match packet with
                  | Some p =>
                      if m_canUpcall s then
                        '(s, w) ← upcall observer (OnRecvSession p) (s, w);
                        Some ([OnRecvSession p], s, w)
                      else Some ([], s, w)
                  | None => Some ([], s, w)
                  end);
          w ← s_Release observer w;
          if m_canUpcall s then
            '(es', s, w) ← recvLoop locked fuel trans clock s w;
            Some (es ++ es', s, w)
          else
            '(s, w) ← Fini s w;
            Some (es, s, w)
      end
  end.

(** [CRtpSessionTcpclientEx::OnRecv] *)
Definition OnRecvEx (fuel : nat) (trans : Z) (clock : nat -> Z) (s : t) (w : W) :=
  if trans =? NULL then Some ([], s, w) else recvLoop exTurn fuel trans clock s w.

(** [CRtpSessionTcpclient::OnRecv] *)
Definition OnRecvTcp (fuel : nat) (trans : Z) (clock : nat -> Z) (s : t) (w : W) :=
  if trans =? NULL then Some ([], s, w) else recvLoop tcpTurn fuel trans clock s w.

End ops.
End CRtpSessionBase.

(** ** Cutting a byte stream into packets *)

Module RtpFraming.
Import CRtpSessionBase RtpFields.

(** What the first bytes of the unread data are: not yet a whole frame, a frame to
    skip, a frame that is delivered, or one that ends the session; [n] is the length
    of the frame. *)
Inductive step :=
  | Wait
  | Skip (n : Z)
  | Deliver (n : Z) (image : list Z)
  | Bad (n : Z).

(** All of the unread data: the delivered images, what is left, and whether the
    stream was broken. *)
Fixpoint cut (first : list Z -> step) (fuel : nat) (d : list Z) : list (list Z) * list Z * bool :=
  match fuel with
  | O => ([], d, false)
  | S fuel =>
      match first d with
      | Wait => ([], d, false)
      | Skip n => cut first fuel (zdrop n d)
      | Deliver n f =>
          let '(fs, rest, bad) := cut first fuel (zdrop n d) in (f :: fs, rest, bad)
      | Bad n => ([], zdrop n d, true)
      end
  end.

(** The extended framing: [RTP_EXT] with the length of what follows; a length of
    zero is a heartbeat. *)
Definition ext_valid (f : list Z) : bool :=
  (21 <=? zlen f) && (8 + of_be (zsub 6 2 f) =? zlen f) && (load 1 8 f =? 128).

Definition accepts (i : info) (f : list Z) : bool :=
  (zlen f <=? MAX_PAYLOAD_SIZE) && ext_valid f
  && ((inSrcMmId i =? 0) || (of_be (zsub 0 4 f) =? inSrcMmId i))
  && (load 1 4 f =? mmType i).

Definition firstEx (i : info) (d : list Z) : step :=
  let n := of_be (zsub 6 2 d) in
  if (zlen d <? 8) || (zlen d <? 8 + n) then Wait
  else if n =? 0 then Skip 8
  else if accepts i (ztake (8 + n) d) then Deliver (8 + n) (ztake (8 + n) d)
  else Bad (8 + n).

(** The standard framing: a 16-bit length and an RTP packet.  What is delivered has
    the session's ids, the received header without its optional parts, and the
    payload; [flags] is the byte of the extension header that is not written. *)
Definition rtp_image (i : info) (flags : Z) (f : list Z) (off pad : Z) : list Z :=
  be_bytes 4 (inSrcMmId i) ++ [mmType i; flags] ++ be_bytes 2 (12 + (zlen f - off - pad))
  ++ [128] ++ zsub 1 11 f ++ zsub off (zlen f - off - pad) f.

(** That byte lies 15 bytes before the payload: inside the received header when
    there are contributing sources or extensions. *)
Definition flags_of (f : list Z) (off : Z) : Z :=
  if off <? 15 then 0 else load 1 (off - 15) f.

Definition firstTcp (i : info) (d : list Z) : step :=
  let n := of_be (zsub 0 2 d) in
  let f := zsub 2 n d in
  if (zlen d <? 2) || (zlen d <? 2 + n) then Wait
  else if n =? 0 then Skip 2
  else if MAX_PAYLOAD_SIZE <? n then Bad (2 + n)
  else match rtp_layout f with
       | Some (off, pad) =>
           if n - off - pad =? 0 then Skip (2 + n)
           else Deliver (2 + n) (rtp_image i (flags_of f off) f off pad)
       | None => Skip (2 + n)
       end.

(** Reading on after more data has arrived is the same as reading all at once. *)
Class Prefix (first : list Z -> step) := {
  prefix_len d : is_bytes d ->
    match first d with
    | Wait => True
    | Skip n | Deliver n _ | Bad n => 0 < n <= zlen d
    end;
  prefix_more d e : is_bytes d -> first d <> Wait -> first (d ++ e) = first d
}.

Section cut.
Context (first : list Z -> step) `{!Prefix first}.

Lemma zdrop_shorter n (d : list Z) : 0 < n <= zlen d -> (length (zdrop n d) < length d)%nat.
Proof. unfold zlen, zdrop. rewrite length_drop. lia. Qed.

Lemma is_bytes_zdrop n d : is_bytes d -> is_bytes (zdrop n d).
Proof. apply Forall_drop. Qed.

Lemma cut_S k d : cut first (S k) d =
  match first d with
  | Wait => ([], d, false)
  | Skip n => cut first k (zdrop n d)
  | Deliver n f => let '(fs, rest, bad) := cut first k (zdrop n d) in (f :: fs, rest, bad)
  | Bad n => ([], zdrop n d, true)
  end.
Proof. done. Qed.

(** More fuel than bytes changes nothing. *)
Lemma cut_fuel k k' d :
  is_bytes d -> (length d < k)%nat -> (length d < k')%nat -> cut first k d = cut first k' d.
Proof.
  revert k' d. induction k as [|k IH]; intros k' d Hd H1 H2; [lia|]. destruct k' as [|k']; [lia|].
  rewrite !cut_S. pose proof (prefix_len d Hd) as Hp.
  destruct (first d) as [|n|n f|n]; [done| | |done];
    pose proof (zdrop_shorter n d Hp); rewrite (IH k') by (auto using is_bytes_zdrop; lia); done.
Qed.

Lemma cut_app k k' d e :
  is_bytes d -> is_bytes e -> (length d < k)%nat -> (length (d ++ e) < k')%nat ->
  cut first k' (d ++ e) =
    let '(fs, rest, bad) := cut first k d in
    if (bad : bool) then (fs, rest ++ e, true)
    else let '(gs, rest', bad') := cut first k' (rest ++ e) in (fs ++ gs, rest', bad').
Proof.
  intros Hd He. revert k' d Hd. induction k as [|k IH]; intros k' d Hd H1 H2; [lia|].
  rewrite (cut_S k). pose proof (prefix_len d Hd) as Hp. pose proof (prefix_more d e Hd) as Hm.
  destruct (first d) as [|n|n f|n] eqn:E.
  { by destruct (cut first k' (d ++ e)) as [[? ?] ?]. }
  3: { destruct k' as [|k']; [lia|]. rewrite cut_S, Hm by done. by rewrite zdrop_app_le by lia. }
  all: destruct k' as [|k']; [lia|]; pose proof (zdrop_shorter n d Hp); rewrite length_app in H2;
    pose proof (is_bytes_zdrop n d Hd) as Hz;
    assert (Hze : is_bytes (zdrop n d ++ e)) by (by apply is_bytes_app);
    rewrite (cut_S k' (d ++ e)), Hm by done; rewrite zdrop_app_le by lia;
    rewrite (cut_fuel k' (S k') _ Hze), (IH (S k')) by (rewrite ?length_app; first [done|lia]).
  - done.
  - destruct (cut first k (zdrop n d)) as [[fs rest] [|]]; [done|].
    by destruct (cut first (S k') (rest ++ e)) as [[? ?] ?].
Qed.

Lemma cut_rest k d : is_bytes d -> (length d < k)%nat ->
  let '(fs, rest, bad) := cut first k d in
  (length rest <= length d)%nat /\ is_bytes rest /\ (bad = false -> first rest = Wait).
Proof.
  revert d. induction k as [|k IH]; intros d Hd H1; [lia|]. rewrite cut_S.
  pose proof (prefix_len d Hd) as Hp. destruct (first d) as [|n|n f|n] eqn:E; [naive_solver lia|..];
    pose proof (zdrop_shorter n d Hp); pose proof (is_bytes_zdrop n d Hd) as Hz.
  1, 2: specialize (IH (zdrop n d) Hz); destruct (cut first k (zdrop n d)) as [[fs rest] bad];
    naive_solver lia.
  split; [lia|done].
Qed.
End cut.

Lemma zsub_app_prefix off n (d e : list Z) :
  0 <= off -> 0 <= n -> off + n <= zlen d -> zsub off n (d ++ e) = zsub off n d.
Proof. intros. by apply zsub_app_l. Qed.

Lemma of_be_zsub_nonneg off n d : is_bytes d -> 0 <= of_be (zsub off n d).
Proof. intros. apply of_be_range. by apply is_bytes_zsub. Qed.

(** A frame whose length field says [n] is the same whatever follows it. *)
Lemma first_frame o k n (d e : list Z) :
  0 <= o -> 0 <= n -> o + n <= zlen d -> zsub o n (d ++ e) = zsub o n d /\
  (0 <= k <= zlen d -> ztake k (d ++ e) = ztake k d).
Proof.
  intros. split; [by apply zsub_app_l|]. intros. unfold ztake. apply take_app_le.
  unfold zlen in *. lia.
Qed.

#[export] Instance firstEx_prefix i : Prefix (firstEx i).
Proof.
  split.
  - intros d Hd. unfold firstEx. pose proof (of_be_zsub_nonneg 6 2 d Hd).
    destruct (Z.ltb_spec (zlen d) 8); [done|]. cbn [orb].
    destruct (Z.ltb_spec (zlen d) (8 + of_be (zsub 6 2 d))); [done|].
    repeat case_match; try done; simplify_eq; lia.
  - intros d e Hd. unfold firstEx. pose proof (of_be_zsub_nonneg 6 2 d Hd).
    destruct (Z.ltb_spec (zlen d) 8); [done|]. cbn [orb]. pose proof (zlen_nonneg e).
    rewrite (zsub_app_prefix 6 2 d e) by lia. rewrite zlen_app.
    destruct (Z.ltb_spec (zlen d) (8 + of_be (zsub 6 2 d))); [done|]. intros _.
    destruct (Z.ltb_spec (zlen d + zlen e) 8); [lia|].
    destruct (Z.ltb_spec (zlen d + zlen e) (8 + of_be (zsub 6 2 d))); [lia|]. cbn [orb].
    destruct (first_frame 6 (8 + of_be (zsub 6 2 d)) 2 d e) as [_ ->]; try lia. done.
Qed.

#[export] Instance firstTcp_prefix i : Prefix (firstTcp i).
Proof.
  split.
  - intros d Hd. unfold firstTcp. pose proof (of_be_zsub_nonneg 0 2 d Hd).
    destruct (Z.ltb_spec (zlen d) 2); [done|]. cbn [orb].
    destruct (Z.ltb_spec (zlen d) (2 + of_be (zsub 0 2 d))); [done|].
    repeat case_match; try done; simplify_eq; lia.
  - intros d e Hd. unfold firstTcp. pose proof (of_be_zsub_nonneg 0 2 d Hd).
    destruct (Z.ltb_spec (zlen d) 2); [done|]. cbn [orb]. pose proof (zlen_nonneg e).
    rewrite (zsub_app_prefix 0 2 d e) by lia. rewrite zlen_app.
    destruct (Z.ltb_spec (zlen d) (2 + of_be (zsub 0 2 d))); [done|]. intros _.
    destruct (Z.ltb_spec (zlen d + zlen e) 2); [lia|].
    destruct (Z.ltb_spec (zlen d + zlen e) (2 + of_be (zsub 0 2 d))); [lia|]. cbn [orb].
    rewrite (zsub_app_prefix 2 _ d e) by lia. done.
Qed.

(** ** [ParseExtBuffer] and the fields of a received packet *)

(** [v = 2], [p = x = 0], [cc = 0] is the byte 128. *)
Lemma plain_header b : is_byte b ->
  negb (getBits 6 2 b =? 2) || negb (getBits 5 1 b =? 0) || negb (getBits 4 1 b =? 0)
    || negb (getBits 0 4 b =? 0) = negb (b =? 128).
Proof.
  intros Hb.
  assert (H : forallb (fun k => let b := Z.of_nat k in
    Bool.eqb (negb (getBits 6 2 b =? 2) || negb (getBits 5 1 b =? 0) || negb (getBits 4 1 b =? 0)
      || negb (getBits 0 4 b =? 0)) (negb (b =? 128))) (seq 0 256) = true) by (by vm_compute).
  rewrite forallb_forall in H. specialize (H (Z.to_nat b)). unfold is_byte in Hb. cbv zeta in H.
  rewrite Z2Nat.id in H by lia. apply eqb_prop, H, in_seq. lia.
Qed.

Lemma ntoh16_load o l : is_bytes l -> 0 <= o -> o + 2 <= zlen l ->
  pbsd_ntoh16 (load 2 o l) = of_be (zsub o 2 l).
Proof.
  intros. unfold load. rewrite ntoh16_be; [done|by apply is_bytes_zsub|].
  apply Nat2Z.inj. fold (zlen (zsub o 2 l)). change (zlen (zsub o 2 l) = 2). by rewrite zlen_zsub by lia.
Qed.

Lemma ntoh32_load o l : is_bytes l -> 0 <= o -> o + 4 <= zlen l ->
  pbsd_ntoh32 (load 4 o l) = of_be (zsub o 4 l).
Proof.
  intros. unfold load. rewrite ntoh32_be; [done|by apply is_bytes_zsub|].
  apply Nat2Z.inj. change (zlen (zsub o 4 l) = 4). by rewrite zlen_zsub by lia.
Qed.

Lemma ParseExtBuffer_spec f tail :
  is_bytes f -> ParseExtBuffer (f ++ tail) (zlen f) = Some (ext_valid f).
Proof.
  intros Hf. unfold ParseExtBuffer, ext_valid, sizeof_RTP_EXT, sizeof_RTP_HEADER.
  change (8 + 12 + 1) with 21. pose proof (zlen_nonneg tail).
  destruct (Z.ltb_spec (zlen f) 21), (Z.leb_spec 21 (zlen f)); try lia; [done|].
  rewrite !rd_ok by (rewrite ?zlen_app; lia). cbn [mbind option_bind andb].
  rewrite !zsub_app_l by lia. unfold o_hdrAndPayloadSize, o_vpxcc.
  rewrite ntoh16_load by (first [by apply is_bytes_zsub|rewrite ?zlen_zsub by lia; lia]).
  rewrite zsub_zsub by lia. change (0 + 6) with 6.
  destruct (8 + of_be (zsub 6 2 f) =? zlen f); [|done]. cbn [negb andb].
  rewrite plain_header by (apply (load_range 1); [by apply is_bytes_zsub|lia|rewrite zlen_zsub; lia]).
  unfold load. rewrite zsub_zsub by lia. change (8 + 0) with 8.
  by destruct (of_le (zsub 8 (Z.of_nat 1) f) =? 128).
Qed.

(** A packet whose headers are at [off] shows the frame [f] stored there. *)
Lemma packet_at off f m tick :
  is_bytes f -> ext_valid f = true -> 0 <= off -> off + zlen f <= zlen m ->
  zsub off (zlen f) m = f ->
  let p := mkPacket m off (off + sizeof_RTP_EXT) tick in
  wire p = f /\ GetMmId p = of_be (zsub 0 4 f) /\ GetMmType p = load 1 4 f /\
  GetPayloadSize p = zlen f - 20 /\ payload p = zdrop 20 f.
Proof.
  intros Hf Hv Ho Hm Hz. cbv zeta. unfold ext_valid in Hv.
  apply andb_prop in Hv as [[H21 H6]%andb_prop _]. apply Z.leb_le in H21. apply Z.eqb_eq in H6.
  assert (Hsub : forall o n, 0 <= o -> 0 <= n -> o + n <= zlen f ->
    zsub (off + o) n m = zsub o n f).
  { intros o n ? ? ?. rewrite <- Hz, zsub_zsub by lia. done. }
  assert (Hsz : GetPayloadSize (mkPacket m off (off + sizeof_RTP_EXT) tick) = zlen f - 20).
  { unfold GetPayloadSize. cbn [ext mem]. unfold load, o_hdrAndPayloadSize, sizeof_RTP_HEADER.
    rewrite Hsub by lia. pose proof (ntoh16_load 6 f Hf ltac:(lia) ltac:(lia)) as Hn.
    unfold load in Hn. rewrite Hn.
    assert (of_be (zsub 6 2 f) < 2 ^ 16).
    { rewrite <- Hn. apply hton16_range. }
    rewrite wrap_small; lia. }
  split_and!.
  - unfold wire. rewrite Hsz. cbn [ext mem]. unfold sizeof_RTP_EXT, sizeof_RTP_HEADER.
    replace (8 + 12 + (zlen f - 20)) with (zlen f) by lia. done.
  - unfold GetMmId. cbn [ext mem]. rewrite <- ntoh32_load by (done || lia). unfold load, o_mmId.
    rewrite Hsub by lia. done.
  - unfold GetMmType, load, o_mmType. cbn [ext mem]. by rewrite Hsub by lia.
  - done.
  - unfold payload. rewrite Hsz. unfold GetPayloadBuffer. cbn [hdr mem].
    unfold sizeof_RTP_EXT, sizeof_RTP_HEADER. rewrite <- Z.add_assoc, Hsub by lia.
    change (8 + 12) with 20. unfold zsub. apply ztake_all. rewrite zlen_zdrop; lia.
Qed.

End RtpFraming.

(** ** What a session relies on *)

Class SessLaws (W P : Type) `{SessWorld W P} `{IProRecvPool P} `{!RecvPoolLaws P} := {
  refs : Z -> W -> Z;
  s_AddRef_law o w : 0 < refs o w -> exists w', s_AddRef o w = Some w' /\
    (forall q, refs q w' = refs q w + if q =? o then 1 else 0) /\
    (forall tr, t_GetRecvPool tr w' = t_GetRecvPool tr w);
  s_Release_law o w : 0 < refs o w -> exists w', s_Release o w = Some w' /\
    (forall q, refs q w' = refs q w - if q =? o then 1 else 0) /\
    (forall tr, t_GetRecvPool tr w' = t_GetRecvPool tr w);
  setRecvPool_get tr p w : t_GetRecvPool tr (t_setRecvPool tr p w) = p;
  setRecvPool_refs q tr p w : refs q (t_setRecvPool tr p w) = refs q w
}.

Module RtpReceive.
Import CRtpSessionBase RtpFields RtpFraming.

(** What the upcalls of an observer leave alone in a session. *)
Record same (s s' : t) : Prop := mkSame {
  same_info : m_info s' = m_info s;
  same_observer : m_observer s' = m_observer s;
  same_reactor : m_reactor s' = m_reactor s;
  same_trans : m_trans s' = m_trans s;
  same_tcp : m_tcpConnected s' = m_tcpConnected s;
  same_upcall : m_canUpcall s' = m_canUpcall s
}.

#[export] Instance same_refl : Reflexive same.
Proof. done. Qed.
#[export] Instance same_trans' : Transitive same.
Proof. intros ? ? ? [] []. split; congruence. Qed.

Lemma same_alive tick s : same s (setPeerAlive tick s).
Proof. done. Qed.
Lemma same_closed s s' : same s s' -> closed s' = closed s.
Proof. intros [_ E1 E2 E3 _ _]. unfold closed. by rewrite E1, E2, E3. Qed.

Section receive.
Context {W P : Type} `{HW : SessWorld W P} `{HP : IProRecvPool P} `{!RecvPoolLaws P}.
Context {HL : SessLaws W P}.
Context (Fini : t -> W -> option (t * W)).
Context (upcall : Z -> sevent -> t * W -> option (t * W)).
Context (malloc : Z -> option (list Z)).

(** A session on transport [tr] with the unread data [d], whose observer is alive. *)
Record open (tr : Z) (d : list Z) (s : t) (w : W) : Prop := mkOpen {
  open_links : closed s = false;
  open_trans : m_trans s = tr;
  open_pool : pool_rep (t_GetRecvPool tr w) d;
  open_refs : 0 < refs (m_observer s) w;
  open_type : is_byte (mmType (m_info s))
}.

Lemma open_world tr d d' s w w' :
  open tr d s w -> pool_rep (t_GetRecvPool tr w') d' ->
  refs (m_observer s) w' = refs (m_observer s) w -> open tr d' s w'.
Proof. intros [] Hp Hr. split; [done..| |done]. by rewrite Hr. Qed.

Lemma open_same tr d s s' w : same s s' -> open tr d s w -> open tr d s' w.
Proof.
  intros Hs []. split; [by rewrite (same_closed s)|by rewrite (same_trans s)|done|..].
  - by rewrite (same_observer s).
  - by rewrite (same_info s).
Qed.

(** How one turn of a loop under the lock must answer the first frame of [d];
    [shows] relates a packet to the image it is delivered for. *)
Definition turn_ok (locked : Z -> Z -> t -> W -> option (@turn W)) (first : info -> list Z -> step) : Prop :=
  forall tr tick s w d, open tr d s w -> is_bytes d ->
  exists s', same s s' /\
  match first (m_info s) d with
  | Wait => locked tr tick s w = Some (Break s')
  | Skip n => exists w', locked tr tick s w = Some (Continue s' w') /\
      pool_rep (t_GetRecvPool tr w') (zdrop n d) /\ forall q, refs q w' = refs q w
  | Deliver n f => exists p w', locked tr tick s w = Some (Handle (Some p) false s' w') /\
      wire p = f /\ pool_rep (t_GetRecvPool tr w') (zdrop n d) /\
      forall q, refs q w' = refs q w + if q =? m_observer s then 1 else 0
  | Bad n => exists p w', locked tr tick s w = Some (Handle p true s' w') /\
      pool_rep (t_GetRecvPool tr w') (zdrop n d) /\
      forall q, refs q w' = refs q w + if q =? m_observer s then 1 else 0
  end.

(** An observer that, handed a packet, does not close the session it is called by. *)
Definition observer_ok : Prop :=
  forall e s w, 1 < refs (m_observer s) w ->
  exists s' w', upcall (m_observer s) e (s, w) = Some (s', w') /\
    refs (m_observer s) w' = refs (m_observer s) w /\ m_canUpcall s' = m_canUpcall s /\
    match e with
    | OnCloseSession _ _ _ => True
    | _ => same s s' /\ forall tr, t_GetRecvPool tr w' = t_GetRecvPool tr w
    end.

Definition Fini_ok : Prop := forall s w, exists s' w', Fini s w = Some (s', w').

(** The events that hand on the images [fs]. *)
Definition received (es : list sevent) (fs : list (list Z)) : Prop :=
  Forall2 (fun e f => exists p, e = OnRecvSession p /\ wire p = f) es fs.

(** The receiving loop cuts the unread data: it hands every delivered image to the
    observer, in order; it leaves an incomplete frame in the pool; a broken stream is
    reported by one [OnCloseSession], after which the session finalizes itself. *)
Definition loop_result (first : list Z -> step) (fuel : nat) (tr : Z) (d : list Z) (s : t)
    (r : option (list sevent * t * W)) : Prop :=
  exists es s' w', r = Some (es, s', w') /\
  match cut first fuel d with
  | (fs, rest, false) => received es fs /\ same s s' /\ open tr rest s' w'
  | (fs, rest, true) =>
      exists es1 s1 w1, es = es1 ++ [OnCloseSession (-1) 0 (m_tcpConnected s)] /\ received es1 fs /\
        m_canUpcall s1 = false /\ Fini s1 w1 = Some (s', w')
  end.

Lemma loop_result_cons first fuel tr n d s s1 p f r :
  same s s1 -> first d = Deliver n f -> wire p = f -> loop_result first fuel tr (zdrop n d) s1 r ->
  loop_result first (S fuel) tr d s
    ('(es, s, w) ← r; Some ([OnRecvSession p] ++ es, s, w)).
Proof.
  intros Hs E Hw (es & s' & w' & -> & H). cbn [mbind option_bind].
  exists ([OnRecvSession p] ++ es), s', w'. split; [done|]. cbn [cut]. rewrite E.
  destruct (cut first fuel (zdrop n d)) as [[fs rest] [|]].
  - destruct H as (es1 & s2 & w1 & -> & Hr & Hc & Hf). exists ([OnRecvSession p] ++ es1), s2, w1.
    rewrite (same_tcp s s1 Hs). split; [done|]. split; [|done]. constructor; [by eexists|done].
  - destruct H as (Hr & Hs' & Ho). split; [|split; [by etrans|done]].
    constructor; [by eexists|done].
Qed.

Lemma recvLoop_cut locked first `{!forall i, Prefix (first i)} clock fuel tr s w d :
  turn_ok locked first -> observer_ok -> Fini_ok ->
  open tr d s w -> m_canUpcall s = true -> is_bytes d -> (length d < fuel)%nat ->
  loop_result (first (m_info s)) fuel tr d s (recvLoop Fini upcall locked fuel tr clock s w).
Proof.
  intros Ht Ho HF. revert s w d. induction fuel as [|fuel IH]; intros s w d Hop Hc Hd Hl; [lia|].
  cbn [recvLoop]. destruct (Ht tr (clock fuel) s w d Hop Hd) as (s1 & Hs & HT).
  pose proof (prefix_len (first := first (m_info s)) d Hd) as Hp.
  pose proof (open_same tr d s s1 w Hs Hop) as Hop1.
  destruct (first (m_info s) d) as [|n|n f|n] eqn:E.
  - rewrite HT. cbn [mbind option_bind]. exists [], s1, w. split; [done|]. cbn [cut]. rewrite E.
    split; [constructor|done].
  - destruct HT as (w' & -> & Hpool & Hr). cbn [mbind option_bind].
    pose proof (zdrop_shorter n d Hp). pose proof (is_bytes_zdrop n d Hd).
    destruct (IH s1 w' (zdrop n d)) as (es & s' & w'' & -> & Hres).
    + eapply open_world; [done..|]. apply Hr.
    + by rewrite (same_upcall s s1 Hs).
    + done.
    + lia.
    + exists es, s', w''. split; [done|]. cbn [cut]. rewrite E. rewrite (same_info s s1 Hs) in Hres.
      destruct (cut _ fuel (zdrop n d)) as [[fs rest] [|]].
      * by rewrite <- (same_tcp s s1 Hs).
      * destruct Hres as (? & ? & ?). split; [done|]. split; [by etrans|done].
  - destruct HT as (p & w' & -> & Hw & Hpool & Hr). cbn [mbind option_bind].
    pose proof (zdrop_shorter n d Hp). pose proof (is_bytes_zdrop n d Hd).
    rewrite (same_upcall s s1 Hs), Hc. pose proof (open_refs _ _ _ _ Hop1) as Hpos.
    rewrite <- (same_observer s s1 Hs) in Hr.
    destruct (Ho (OnRecvSession p) s1 w') as (s2 & w2 & -> & Hr2 & Hc2 & Hs2 & Hp2).
    { rewrite Hr, Z.eqb_refl. lia. }
    cbn [mbind option_bind].
    destruct (s_Release_law (m_observer s1) w2) as (w3 & -> & Hr3 & Hp3).
    { rewrite Hr2, Hr, Z.eqb_refl. lia. }
    cbn [mbind option_bind]. rewrite Hc2, (same_upcall s s1 Hs), Hc.
    apply (loop_result_cons _ fuel tr n d s s2 p f); [by etrans|done..|].
    rewrite <- (same_info s s2) by (by etrans). apply IH; [|by rewrite Hc2, (same_upcall s s1 Hs)|done|lia].
    apply (open_same tr _ s1); [done|]. eapply open_world; [done|by rewrite Hp3, Hp2|].
    rewrite Hr3, Hr2, Hr, Z.eqb_refl. lia.
  - destruct HT as (p & w' & -> & Hpool & Hr). cbn [mbind option_bind]. unfold close.
    rewrite (same_upcall s s1 Hs), Hc, (same_tcp s s1 Hs). pose proof (open_refs _ _ _ _ Hop1) as Hpos.
    rewrite <- (same_observer s s1 Hs) in Hr.
    destruct (Ho (OnCloseSession (-1) 0 (m_tcpConnected s)) (setFlags (m_onOkCalled s1) false s1) w')
      as (s2 & w2 & Hu & Hr2 & Hc2 & _).
    { cbn. rewrite Hr, Z.eqb_refl. lia. }
    cbn [m_observer setFlags] in Hu, Hr2. rewrite Hu. cbn [mbind option_bind].
    destruct (s_Release_law (m_observer s1) w2) as (w3 & -> & Hr3 & Hp3).
    { rewrite Hr2, Hr, Z.eqb_refl. lia. }
    cbn [mbind option_bind]. rewrite Hc2. cbn [m_canUpcall setFlags].
    destruct (HF s2 w3) as (s4 & w4 & Hf). rewrite Hf. cbn [mbind option_bind].
    eexists _, s4, w4. split; [done|]. cbn [cut]. rewrite E. exists [], s2, w3.
    split; [done|]. split; [constructor|]. done.
Qed.

(** ** The two framings *)

Definition malloc_ok : Prop := forall n, 0 < n <= MAX_PAYLOAD_SIZE ->
  exists junk, malloc n = Some junk /\ is_bytes junk /\ zlen junk = 40 + n.

Lemma peek tr d s w n : open tr d s w -> 0 < n <= zlen d ->
  PeekData n (t_GetRecvPool tr w) = Some (ztake n d).
Proof.
  intros Ho Hn. rewrite (PeekData_law _ d) by (try apply Ho; lia).
  destruct (Z.eqb_spec n 0), (Z.ltb_spec (zlen d) n); try lia. done.
Qed.

Lemma flushed pool (d : list Z) n : pool_rep pool d -> 0 <= n <= zlen d ->
  pool_rep (Flush n pool) (zdrop n d).
Proof.
  intros Hp Hn. pose proof (Flush_law pool d n Hp ltac:(lia)) as H.
  destruct (Z.ltb_spec (zlen d) n); [lia|done].
Qed.

(** The packet that received data is copied into. *)
Lemma received_into n f junk : is_bytes f -> is_bytes junk -> zlen f = n ->
  0 < n <= MAX_PAYLOAD_SIZE -> zlen junk = 40 + n ->
  exists head tail, CreateInstanceSize n (Some junk) = Some (mkPacket head 0 8 0) /\
    GetPayloadSize (mkPacket head 0 8 0) = n /\ zlen head = 40 + n /\
    zput 20 f head = blank n ++ f ++ tail /\ is_bytes tail /\
    GetPayloadSize (mkPacket (zput 20 f head) 0 8 0) = n.
Proof.
  intros Hf Hj Hl Hn Hjl. unfold CreateInstanceSize. pose proof (zlen_blank n) as Hb.
  destruct (Z.eqb_spec n 0); [lia|]. rewrite Z.gtb_ltb. destruct (Z.ltb_spec MAX_PAYLOAD_SIZE n); [lia|].
  cbn [orb mbind option_bind]. rewrite wrap_small by (unfold MAX_PAYLOAD_SIZE in *; lia).
  destruct (Init_mem None n junk ltac:(lia) Hjl) as (rest & -> & Hr & Hrb).
  exists (blank n ++ rest), (zdrop n rest). split; [done|].
  assert (Hz : zput 20 f (blank n ++ rest) = blank n ++ f ++ zdrop n rest).
  { rewrite <- Hb at 1. rewrite zput_app_r. by rewrite Hl. }
  rewrite Hz. split_and!.
  - apply blank_size; lia.
  - rewrite zlen_app. lia.
  - done.
  - by apply is_bytes_zdrop, Hrb.
  - apply blank_size; lia.
Qed.

Lemma is_bytes_ztake n d : is_bytes d -> is_bytes (ztake n d).
Proof. apply Forall_take. Qed.

Lemma zsub_ztake o n k (d : list Z) : 0 <= o -> 0 <= n -> o + n <= k -> zsub o n (ztake k d) = zsub o n d.
Proof. intros. change (ztake k d) with (zsub 0 k d). rewrite zsub_zsub by lia. done. Qed.

Lemma exTurn_ok : malloc_ok -> turn_ok (exTurn malloc) firstEx.
Proof.
  intros Hm tr tick s w d Ho Hd. exists (setPeerAlive tick s). split; [apply same_alive|].
  pose proof Ho as [Hc Htr Hpool Hrefs _]. unfold exTurn, firstEx, sizeof_RTP_EXT. rewrite Hc, Htr, Z.eqb_refl. cbn [negb].
  rewrite (PeekDataSize_law _ d Hpool). destruct (Z.ltb_spec (zlen d) 8) as [H8|H8]; [done|].
  rewrite (peek tr d s w) by (done || lia). cbn [orb mbind option_bind]. unfold o_hdrAndPayloadSize.
  rewrite ntoh16_load by (first [by apply is_bytes_ztake|rewrite ?zlen_ztake by lia; lia]).
  rewrite zsub_ztake by lia. pose proof (of_be_zsub_nonneg 6 2 d Hd). set (n := of_be (zsub 6 2 d)) in *.
  destruct (Z.ltb_spec (zlen d) (8 + n)); [done|]. destruct (Z.eqb_spec n 0) as [Hn0|Hn0].
  { eexists. split; [done|]. rewrite setRecvPool_get. split; [|by intros; apply setRecvPool_refs].
    apply flushed; [done|lia]. }
  set (f := ztake (8 + n) d).
  assert (Hfl : zlen f = 8 + n) by (apply zlen_ztake; lia).
  assert (Hfb : is_bytes f) by (by apply is_bytes_ztake).
  destruct (s_AddRef_law (m_observer s) (t_setRecvPool tr (Flush (8 + n) (t_GetRecvPool tr w)) w))
    as (w' & Ha & Hr' & Hp'); [by rewrite setRecvPool_refs|].
  assert (Hend : pool_rep (t_GetRecvPool tr w') (zdrop (8 + n) d) /\
    forall q, refs q w' = refs q w + if q =? m_observer s then 1 else 0).
  { split; [rewrite Hp', setRecvPool_get; apply flushed; [done|lia]|].
    intros q. by rewrite Hr', setRecvPool_refs. }
  unfold accepts. rewrite Hfl. destruct (Z.leb_spec (8 + n) MAX_PAYLOAD_SIZE) as [Hmax|Hmax]; last first.
  { unfold CreateInstanceSize. rewrite Z.gtb_ltb. destruct (Z.ltb_spec MAX_PAYLOAD_SIZE (8 + n)); [|lia].
    rewrite orb_true_r. cbn [mbind option_bind andb fst snd m_observer setPeerAlive setTicks setSending].
    rewrite Ha. by eexists None, w'. }
  destruct (Hm (8 + n) ltac:(lia)) as (junk & -> & Hj & Hjl).
  destruct (received_into (8 + n) f junk) as (head & tail & -> & Hgs & Hhl & Hz & Htb & Hgs'); try done; [lia|].
  rewrite (peek tr d s w) by (done || lia). fold f. cbn [mbind option_bind].
  unfold GetPayloadBuffer, setMem. cbn [mem hdr ext m_tick]. change (8 + sizeof_RTP_HEADER) with 20.
  rewrite Hgs', Hz. assert (Hdr : zdrop 20 (blank (8 + n) ++ f ++ tail) = f ++ tail)
    by (rewrite <- (zlen_blank (8 + n)) at 1; apply zdrop_app_exact).
  assert (Hpe : ParseExtBuffer (f ++ tail) (8 + n) = Some (ext_valid f))
    by (rewrite <- Hfl; by apply ParseExtBuffer_spec).
  rewrite Hdr, Hpe. cbn [mbind option_bind].
  destruct (ext_valid f) eqn:Hv; cbn [negb andb mbind option_bind fst snd]; last first.
  { change (m_observer (setPeerAlive tick s)) with (m_observer s). rewrite Ha. by eexists _, w'. }
  destruct (packet_at 20 f (blank (8 + n) ++ f ++ tail) 0) as (Hw & Hid & Hty & _); try done.
  { rewrite !zlen_app, zlen_blank. pose proof (zlen_nonneg tail). lia. }
  { rewrite <- (zlen_blank (8 + n)) at 1. rewrite zsub_app_r by lia. rewrite Z.sub_diag.
    rewrite zsub_app_l by lia. apply zsub_all. }
  unfold sizeof_RTP_EXT in Hw, Hid, Hty. rewrite Hid, Hty.
  change (m_info (setPeerAlive tick s)) with (m_info s).
  change (m_observer (setPeerAlive tick s)) with (m_observer s). rewrite Ha.
  destruct (inSrcMmId (m_info s) =? 0), (of_be (zsub 0 4 f) =? inSrcMmId (m_info s)),
    (load 1 4 f =? mmType (m_info s)); cbn [negb andb orb]; eexists _, w'; done.
Qed.

(** The header that the standard session builds. *)
Lemma clean_header b : is_byte b ->
  setBits 0 4 0 (setBits 4 1 0 (setBits 5 1 0 (setBits 6 2 2 b))) = 128.
Proof.
  intros Hb.
  assert (H : forallb (fun k =>
    setBits 0 4 0 (setBits 4 1 0 (setBits 5 1 0 (setBits 6 2 2 (Z.of_nat k)))) =? 128) (seq 0 256)
    = true) by (by vm_compute).
  rewrite forallb_forall in H. specialize (H (Z.to_nat b)). unfold is_byte in Hb.
  rewrite Z2Nat.id in H by lia. apply Z.eqb_eq, H, in_seq. lia.
Qed.

Lemma headers_at off (pre L post h b4 b1 b2 : list Z) :
  zlen pre = off -> length L = 20%nat -> length h = 12%nat -> length b4 = 4%nat ->
  length b1 = 1%nat -> length b2 = 2%nat ->
  zput (off + 8) h (zput (off + 6) b2 (zput (off + 4) b1 (zput (off + 0) b4 (pre ++ L ++ post))))
  = pre ++ (b4 ++ b1 ++ zsub 5 1 L ++ b2 ++ h) ++ post.
Proof.
  intros <- HL20 Hh H4 H1 H2. rewrite !zput_app_shift by lia. f_equal.
  do 20 (destruct L as [|? L]; [done|]). destruct L; [|done].
  do 12 (destruct h as [|? h]; [done|]). destruct h; [|done].
  do 4 (destruct b4 as [|? b4]; [done|]). destruct b4; [|done].
  do 1 (destruct b1 as [|? b1]; [done|]). destruct b1; [|done].
  do 2 (destruct b2 as [|? b2]; [done|]). destruct b2; [|done].
  reflexivity.
Qed.

Lemma length_zsub o n (l : list Z) :
  0 <= o -> 0 <= n -> o + n <= zlen l -> length (zsub o n l) = Z.to_nat n.
Proof. intros. apply Nat2Z.inj. fold (zlen (zsub o n l)). rewrite zlen_zsub by done. lia. Qed.

Lemma rtp_layout_range f off pad : is_bytes f -> rtp_layout f = Some (off, pad) ->
  12 <= off /\ 0 <= pad /\ off + pad <= zlen f /\ ((off <? 15) = true -> off = 12).
Proof.
  intros Hf. unfold rtp_layout. pose proof (getBits_range 0 4 (load 1 0 f) ltac:(lia)).
  pose proof (of_be_zsub_nonneg (12 + 4 * getBits 0 4 (load 1 0 f) + 2) 2 f Hf).
  intros E. repeat case_match; simplify_eq; rewrite ?orb_false_iff, ?Z.ltb_ge, ?Z.ltb_lt in *;
    split_and!; lia.
Qed.

(** The received header without its optional parts. *)
Lemma clean_hdr f : is_bytes f -> 12 <= zlen f ->
  store 1 o_vpxcc (setBits 0 4 0 (setBits 4 1 0 (setBits 5 1 0
    (setBits 6 2 2 (load 1 o_vpxcc (ztake 12 f)))))) (ztake 12 f) = [128] ++ zsub 1 11 f.
Proof.
  intros Hf Hl. pose proof (zlen_ztake 12 f ltac:(lia)) as H12.
  rewrite clean_header by (apply (load_range 1); [by apply is_bytes_ztake|done|by rewrite H12]).
  replace (zsub 1 11 f) with (zdrop 1 (ztake 12 f))
    by (unfold zsub, ztake, zdrop; rewrite skipn_firstn_comm; done).
  destruct (ztake 12 f) as [|x l]; [done|]. reflexivity.
Qed.

(** The byte of the new extension header that is not written. *)
Lemma stale_flags n f tail off : 12 <= off <= zlen f -> ((off <? 15) = true -> off = 12) ->
  zsub (off + 5) 1 (blank n ++ f ++ tail) = [flags_of f off].
Proof.
  intros H12 Hoff. pose proof (zlen_blank n) as Hb. unfold flags_of. destruct (off <? 15) eqn:E15.
  - rewrite Hoff by done. change (12 + 5) with 17. rewrite zsub_app_l by (rewrite ?Hb; lia).
    unfold blank. rewrite be_bytes_2. reflexivity.
  - apply Z.ltb_ge in E15. rewrite zsub_app_r by lia. rewrite Hb, zsub_app_l by lia.
    replace (off + 5 - 20) with (off - 15) by lia. unfold load.
    pose proof (length_zsub (off - 15) 1 f ltac:(lia) ltac:(lia) ltac:(lia)) as Hl1.
    change (Z.of_nat 1) with 1. destruct (zsub (off - 15) 1 f) as [|x [|]]; try done.
    cbn. by rewrite Z.mul_0_r, Z.add_0_r.
Qed.

(** Where the standard session writes the headers of the packet it hands on. *)
Lemma tcp_image i n f tail off pad :
  is_bytes f -> zlen f = n -> is_byte (mmType i) ->
  rtp_layout f = Some (off, pad) -> n - off - pad <> 0 ->
  let h := store 1 o_vpxcc (setBits 0 4 0 (setBits 4 1 0 (setBits 5 1 0
             (setBits 6 2 2 (load 1 o_vpxcc (ztake 12 f)))))) (ztake 12 f) in
  let m := zput (off + 8) h (store 2 (off + 6) (pbsd_hton16 (12 + (n - off - pad)))
             (store 1 (off + 4) (mmType i) (store 4 (off + 0) (pbsd_hton32 (inSrcMmId i))
               (blank n ++ f ++ tail)))) in
  exists pre post, zlen pre = off /\ m = pre ++ rtp_image i (flags_of f off) f off pad ++ post.
Proof.
  intros Hf Hn Hty Hlay Hk. destruct (rtp_layout_range f off pad Hf Hlay) as (H12 & Hpad & Hend & Hoff).
  cbv zeta. rewrite clean_hdr by (done || lia). set (k := n - off - pad) in *.
  pose proof (zlen_nonneg tail) as Ht. pose proof (zlen_blank n) as Hb. set (m0 := blank n ++ f ++ tail).
  assert (Hm0 : zlen m0 = 20 + n + zlen tail) by (unfold m0; rewrite !zlen_app; lia).
  assert (Hsplit : m0 = zsub 0 off m0 ++ zsub off 20 m0 ++ zsub (off + 20) k m0 ++ zdrop (off + 20 + k) m0).
  { rewrite <- (zdrop_zdrop k (off + 20)) by lia. unfold zsub at 3. rewrite ztake_zdrop.
    rewrite <- (zdrop_zdrop 20 off) by lia. unfold zsub at 2. rewrite ztake_zdrop.
    symmetry. apply ztake_zdrop. }
  exists (zsub 0 off m0), (zdrop (off + 20 + k) m0). split; [by rewrite zlen_zsub by lia|].
  unfold store. rewrite Hsplit at 1.
  rewrite headers_at by (rewrite ?zlen_zsub, ?length_le_bytes, ?length_app, ?length_zsub by lia; done).
  f_equal. rewrite app_assoc. f_equal.
  rewrite hton16_bytes, hton32_bytes, zsub_zsub by lia. unfold rtp_image.
  pose proof (stale_flags n f tail off ltac:(lia) Hoff) as Hfl. fold m0 in Hfl. rewrite Hfl, Hn. fold k. rewrite <- !app_assoc.
  assert (Hle1 : le_bytes 1 (mmType i) = [mmType i]) by (cbn; by rewrite Z.mod_small by apply Hty).
  rewrite Hle1. cbn [app]. do 3 f_equal.
  unfold m0. rewrite (zsub_app_r (off + 20)) by lia. rewrite Hb, zsub_app_l by lia.
  do 2 f_equal. f_equal. f_equal. lia.
Qed.

Lemma rtp_image_valid i flags f off pad :
  is_bytes f -> zlen f <= MAX_PAYLOAD_SIZE -> is_byte (mmType i) -> is_byte flags ->
  12 <= off -> 0 <= pad -> off + pad < zlen f ->
  let g := rtp_image i flags f off pad in
  is_bytes g /\ zlen g = 20 + (zlen f - off - pad) /\ ext_valid g = true.
Proof.
  intros Hf Hmax Hty Hfl H12 Hpad Hend. cbv zeta. unfold MAX_PAYLOAD_SIZE in Hmax.
  assert (Hl : zlen (rtp_image i flags f off pad) = 20 + (zlen f - off - pad)).
  { unfold rtp_image. rewrite !zlen_app, !zlen_be_bytes, !zlen_zsub by lia. unfold zlen at 1 2. cbn [length]. lia. }
  split; [|split; [done|]].
  - unfold rtp_image. rewrite be_bytes_2, be_bytes_4.
    repeat (apply is_bytes_app; split); try (by apply is_bytes_zsub);
      repeat constructor; try apply byte_of_range; try apply Hty; try apply Hfl; done.
  - unfold ext_valid. rewrite Hl.
    assert (E6 : zsub 6 2 (rtp_image i flags f off pad) = be_bytes 2 (12 + (zlen f - off - pad))).
    { unfold rtp_image. rewrite be_bytes_4, be_bytes_2. reflexivity. }
    assert (E8 : load 1 8 (rtp_image i flags f off pad) = 128).
    { unfold rtp_image. rewrite be_bytes_4, be_bytes_2. reflexivity. }
    rewrite E6, E8, of_be_be_bytes, Z.mod_small by (change (2 ^ (8 * Z.of_nat 2)) with 65536; lia).
    destruct (Z.leb_spec 21 (20 + (zlen f - off - pad))); [|lia].
    destruct (Z.eqb_spec (8 + (12 + (zlen f - off - pad))) (20 + (zlen f - off - pad))); [done|lia].
Qed.

Lemma flags_of_byte f off : is_bytes f -> off <= zlen f -> is_byte (flags_of f off).
Proof.
  intros. unfold flags_of. destruct (Z.ltb_spec off 15); [done|].
  apply (load_range 1); [done|lia|change (Z.of_nat 1) with 1; lia].
Qed.

(** The packet handed on by the standard session. *)
Lemma tcp_packet i n f tail off pad :
  is_bytes f -> zlen f = n -> n <= MAX_PAYLOAD_SIZE -> is_byte (mmType i) ->
  rtp_layout f = Some (off, pad) -> n - off - pad <> 0 ->
  let h := store 1 o_vpxcc (setBits 0 4 0 (setBits 4 1 0 (setBits 5 1 0
             (setBits 6 2 2 (load 1 o_vpxcc (ztake 12 f)))))) (ztake 12 f) in
  let m := zput (off + 8) h (store 2 (off + 6) (pbsd_hton16 (12 + (n - off - pad)))
             (store 1 (off + 4) (mmType i) (store 4 (off + 0) (pbsd_hton32 (inSrcMmId i))
               (blank n ++ f ++ tail)))) in
  wire (mkPacket m off (off + 8) 0) = rtp_image i (flags_of f off) f off pad.
Proof.
  intros Hf Hn Hmax Hty Hlay Hk. destruct (rtp_layout_range f off pad Hf Hlay) as (H12 & Hpad & Hend & _).
  destruct (tcp_image i n f tail off pad Hf Hn Hty Hlay Hk) as (pre & post & Hpre & Hm).
  cbv zeta in *. rewrite Hm. set (g := rtp_image i (flags_of f off) f off pad).
  destruct (rtp_image_valid i (flags_of f off) f off pad) as (Hg & Hgl & Hv);
    try done; try lia; [apply flags_of_byte; [done|lia]|]. fold g in Hg, Hgl, Hv.
  apply (packet_at off g (pre ++ g ++ post) 0); try done; [lia|..].
  - rewrite !zlen_app. pose proof (zlen_nonneg post). lia.
  - rewrite <- Hpre. rewrite zsub_app_r by lia. rewrite Z.sub_diag, zsub_app_l by lia. apply zsub_all.
Qed.

Lemma tcpTurn_ok : malloc_ok -> turn_ok (tcpTurn malloc) firstTcp.
Proof.
  intros Hm tr tick s w d Ho Hd. pose proof Ho as [Hc Htr Hpool Hrefs Hty].
  unfold tcpTurn, firstTcp, sizeof_RTP_EXT, sizeof_RTP_HEADER. rewrite Hc, Htr, Z.eqb_refl. cbn [negb].
  rewrite (PeekDataSize_law _ d Hpool). destruct (Z.ltb_spec (zlen d) 2) as [H2|H2]; [by exists s|].
  exists (setPeerAlive tick s). split; [apply same_alive|].
  rewrite (peek tr d s w) by (done || lia). cbn [orb mbind option_bind].
  rewrite ntoh16_be; [|by apply is_bytes_ztake|apply (length_zsub 0 2); lia].
  change (ztake 2 d) with (zsub 0 2 d).
  pose proof (of_be_zsub_nonneg 0 2 d Hd). set (n := of_be (zsub 0 2 d)) in *.
  destruct (Z.ltb_spec (zlen d) (2 + n)); [done|].
  pose proof (flushed _ _ 2 Hpool ltac:(lia)) as Hp2. set (pool2 := Flush 2 (t_GetRecvPool tr w)) in *.
  destruct (Z.eqb_spec n 0) as [Hn0|Hn0].
  { eexists. split; [done|]. rewrite setRecvPool_get. split; [done|by intros; apply setRecvPool_refs]. }
  assert (Hp2n : pool_rep (Flush n pool2) (zdrop (2 + n) d)).
  { pose proof (flushed pool2 (zdrop 2 d) n Hp2 ltac:(rewrite zlen_zdrop by lia; lia)) as Hx.
    by rewrite zdrop_zdrop in Hx by lia. }
  assert (Hskip : exists w', Some (Continue (setPeerAlive tick s) (t_setRecvPool tr (Flush n pool2) w))
    = Some (Continue (setPeerAlive tick s) w') /\ pool_rep (t_GetRecvPool tr w') (zdrop (2 + n) d) /\
    forall q, refs q w' = refs q w).
  { eexists. split; [done|]. rewrite setRecvPool_get. split; [done|by intros; apply setRecvPool_refs]. }
  destruct (s_AddRef_law (m_observer s) (t_setRecvPool tr (Flush n pool2) w))
    as (w' & Ha & Hr' & Hp'); [by rewrite setRecvPool_refs|].
  assert (Hend : pool_rep (t_GetRecvPool tr w') (zdrop (2 + n) d) /\
    forall q, refs q w' = refs q w + if q =? m_observer s then 1 else 0).
  { split; [by rewrite Hp', setRecvPool_get|]. intros q. by rewrite Hr', setRecvPool_refs. }
  change (m_observer (setPeerAlive tick s)) with (m_observer s).
  change (m_info (setPeerAlive tick s)) with (m_info s).
  destruct (Z.ltb_spec MAX_PAYLOAD_SIZE n) as [Hmax|Hmax].
  { unfold CreateInstanceSize. rewrite Z.gtb_ltb. destruct (Z.ltb_spec MAX_PAYLOAD_SIZE n); [|lia].
    rewrite orb_true_r, Ha. by eexists None, w'. }
  set (f := zsub 2 n d). assert (Hfl : zlen f = n) by (apply zlen_zsub; lia).
  assert (Hfb : is_bytes f) by (by apply is_bytes_zsub).
  destruct (Hm n ltac:(lia)) as (junk & -> & Hj & Hjl).
  destruct (received_into n f junk) as (head & tail & -> & Hgs & Hhl & Hz & Htb & Hgs'); try done; [lia|].
  rewrite (PeekData_law _ _ _ Hp2) by lia. rewrite zlen_zdrop by lia.
  destruct (Z.eqb_spec n 0), (Z.ltb_spec (zlen d - 2) n); try lia. cbn [orb mbind option_bind].
  change (ztake n (zdrop 2 d)) with f. unfold GetPayloadBuffer, setMem. cbn [mem hdr ext m_tick].
  change (8 + sizeof_RTP_HEADER) with 20. rewrite Hgs', Hz.
  assert (Hdr : zdrop 20 (blank n ++ f ++ tail) = f ++ tail)
    by (rewrite <- (zlen_blank n) at 1; apply zdrop_app_exact).
  assert (Hpe : ParseRtpBuffer (f ++ tail) n = ParseRtpBuffer f (zlen f))
    by (rewrite <- Hfl at 1; apply ParseRtpBuffer_tail; [done|unfold MAX_PAYLOAD_SIZE in *; lia]).
  rewrite Hdr, Hpe, ParseRtpBuffer_ok by (done || (unfold MAX_PAYLOAD_SIZE in *; lia)).
  cbn [mbind option_bind]. rewrite Hfl. destruct (rtp_layout f) as [[off pad]|] eqn:Hlay; [|exact Hskip].
  cbn [ret payloadBuffer p_hdr payloadSize]. destruct (Z.eqb_spec (n - off - pad) 0) as [Hk|Hk]; [exact Hskip|].
  destruct (rtp_layout_range f off pad Hfb Hlay) as (H12 & Hpad & Hoff & _).
  rewrite wrap_small by (unfold MAX_PAYLOAD_SIZE in *; lia). rewrite Ha.
  eexists _, w'. split; [done|]. split; [|done]. unfold o_mmId, o_mmType, o_hdrAndPayloadSize.
  replace (20 + off - 12 - 8) with off by lia.
  exact (tcp_packet (m_info s) n f tail off pad Hfb Hfl Hmax Hty Hlay Hk).
Qed.

Lemma open_not_null tr d s w : open tr d s w -> (tr =? NULL) = false.
Proof.
  intros [Hc <- _ _ _]. unfold closed in Hc. by apply orb_false_elim in Hc as [_ Hc].
Qed.

Lemma OnRecvEx_ok clock fuel tr s w d :
  malloc_ok -> observer_ok -> Fini_ok ->
  open tr d s w -> m_canUpcall s = true -> is_bytes d -> (length d < fuel)%nat ->
  loop_result (firstEx (m_info s)) fuel tr d s (OnRecvEx Fini upcall malloc fuel tr clock s w).
Proof.
  intros Hm Hob HF Hop Hc Hd Hl. unfold OnRecvEx. rewrite (open_not_null _ _ _ _ Hop).
  apply recvLoop_cut; try done; [apply _|by apply exTurn_ok].
Qed.

Lemma OnRecvTcp_ok clock fuel tr s w d :
  malloc_ok -> observer_ok -> Fini_ok ->
  open tr d s w -> m_canUpcall s = true -> is_bytes d -> (length d < fuel)%nat ->
  loop_result (firstTcp (m_info s)) fuel tr d s (OnRecvTcp Fini upcall malloc fuel tr clock s w).
Proof.
  intros Hm Hob HF Hop Hc Hd Hl. unfold OnRecvTcp. rewrite (open_not_null _ _ _ _ Hop).
  apply recvLoop_cut; try done; [apply _|by apply tcpTurn_ok].
Qed.

(** ** From one session to the other *)

(** The receiving session while the stream arrives in the pieces [cs]: each piece
    is appended to the unread data, and the transport calls [OnRecv]. *)
Inductive arrivals (OnRecv : nat -> Z -> (nat -> Z) -> t -> W -> option (list sevent * t * W)) (tr : Z)
    : t -> W -> list (list Z) -> list sevent -> t -> W -> Prop :=
  | arrived_all s w : arrivals OnRecv tr s w [] [] s w
  | arrived c cs clock fuel d s w w0 es1 s1 w1 es2 s2 w2 :
      pool_rep (t_GetRecvPool tr w) d ->
      pool_rep (t_GetRecvPool tr w0) (d ++ c) ->
      (forall q, refs q w0 = refs q w) ->
      (length (d ++ c) < fuel)%nat ->
      OnRecv fuel tr clock s w0 = Some (es1, s1, w1) ->
      arrivals OnRecv tr s1 w1 cs es2 s2 w2 ->
      arrivals OnRecv tr s w (c :: cs) (es1 ++ es2) s2 w2.

Lemma pool_rep_fun (pool : P) d d' : pool_rep pool d -> pool_rep pool d' -> d = d'.
Proof.
  intros H H'. pose proof (PeekDataSize_law _ _ H) as E. rewrite (PeekDataSize_law _ _ H') in E.
  destruct (decide (zlen d = 0)) as [Hz|Hz].
  { apply zlen_zero in Hz as ->. symmetry. apply zlen_zero. by rewrite E. }
  pose proof (zlen_nonneg d). pose proof (PeekData_law _ _ (zlen d) H ltac:(lia)) as Hp.
  rewrite (PeekData_law _ _ (zlen d) H') in Hp by lia. rewrite E, Z.ltb_irrefl in Hp.
  destruct (Z.eqb_spec (zlen d) 0); [done|]. injection Hp as Hp.
  by rewrite !ztake_all in Hp by lia.
Qed.

Lemma received_app es1 es2 fs1 fs2 :
  received es1 fs1 -> received es2 fs2 -> received (es1 ++ es2) (fs1 ++ fs2).
Proof. apply Forall2_app. Qed.

(** However the stream is cut into pieces, the same images are delivered. *)
Lemma arrivals_cut OnRecv first `{!forall i, Prefix (first i)} tr s w cs es s' w' d fs rest k :
  (forall clock fuel s w d, open tr d s w -> m_canUpcall s = true -> is_bytes d ->
    (length d < fuel)%nat -> loop_result (first (m_info s)) fuel tr d s (OnRecv fuel tr clock s w)) ->
  open tr d s w -> m_canUpcall s = true -> is_bytes d -> Forall is_bytes cs ->
  first (m_info s) d = Wait -> (length (d ++ concat cs) < k)%nat ->
  cut (first (m_info s)) k (d ++ concat cs) = (fs, rest, false) ->
  arrivals OnRecv tr s w cs es s' w' ->
  received es fs /\ same s s' /\ open tr rest s' w'.
Proof.
  intros Hrecv Hop Hc Hd Hcs Hwait Hk Hcut Harr. revert d fs Hop Hc Hd Hcs Hwait Hk Hcut.
  induction Harr as [s w|c cs clock fuel d0 s w w0 es1 s1 w1 es2 s2 w2 Hp0 Hp1 Hr Hf HR Harr IH];
    intros d fs Hop Hc Hd Hcs Hwait Hk Hcut.
  { cbn [concat] in *. rewrite app_nil_r in *. destruct k as [|k]; [lia|].
    rewrite cut_S, Hwait in Hcut. simplify_eq. split; [constructor|done]. }
  rewrite (pool_rep_fun _ _ _ Hp0 (open_pool _ _ _ _ Hop)) in *.
  apply Forall_cons in Hcs as [Hcb Hcs]. cbn [concat] in *. rewrite app_assoc in Hcut, Hk.
  assert (Hdc : is_bytes (d ++ c)) by (by apply is_bytes_app).
  assert (Hcc : is_bytes (concat cs)) by (by apply Forall_concat).
  destruct (Hrecv clock fuel s w0 (d ++ c)) as (es0 & s0 & w3 & HR' & Hres); try done.
  { eapply open_world; [done..|]. apply Hr. }
  rewrite HR in HR'. simplify_eq. rewrite (cut_app _ fuel k (d ++ c)) in Hcut by done.
  pose proof (cut_rest (first (m_info s)) fuel (d ++ c) Hdc Hf) as Hrest.
  destruct (cut (first (m_info s)) fuel (d ++ c)) as [[fs1 rest1] [|]]; [done|].
  destruct Hres as (Hr1 & Hs1 & Ho1). destruct Hrest as (Hlen & Hb1 & Hw1).
  destruct (cut (first (m_info s)) k (rest1 ++ concat cs)) as [[fs2 rest2] bad2] eqn:E2. simplify_eq.
  destruct (IH rest1 fs2) as (Hr2 & Hs2 & Ho2); try done.
  - by rewrite (same_upcall _ _ Hs1).
  - rewrite (same_info _ _ Hs1). by apply Hw1.
  - rewrite !length_app in *. lia.
  - by rewrite (same_info _ _ Hs1).
  - split; [by apply received_app|]. split; [by etrans|done].
Qed.

End receive.
End RtpReceive.

(** ** What is sent arrives *)

Module RtpTransfer.
Import CRtpSessionBase RtpFields RtpFraming RtpReceive.

(** A packet as [CreateInstance] and the setters leave it. *)
Record sendable (p : CRtpPacket.t) : Prop := mkSendable {
  sb_wf : wf p;
  sb_size : 0 < GetPayloadSize p <= MAX_PAYLOAD_SIZE;
  sb_fits : GetPayloadBuffer p + GetPayloadSize p <= zlen (mem p);
  sb_plain : load 1 (hdr p) (mem p) = 128
}.

Lemma zlen_wire p : sendable p -> zlen (wire p) = 20 + GetPayloadSize p.
Proof.
  intros [[_ He Hh _] Hs Hf _]. unfold wire, GetPayloadBuffer, sizeof_RTP_EXT, sizeof_RTP_HEADER in *.
  rewrite zlen_zsub; lia.
Qed.

(** What [SendPacket] hands to the transport: the packet without the leading part
    that the kind of session does not transmit. *)
Lemma image_wire st p : sendable p -> 0 <= otherSize st <= 20 ->
  image st p = zdrop (20 - otherSize st) (wire p).
Proof.
  intros [[_ He Hh _] Hs Hf _] Ho. unfold image, wire, GetPayloadBuffer in *.
  unfold sizeof_RTP_EXT, sizeof_RTP_HEADER in *. unfold zsub, zdrop, ztake.
  rewrite skipn_firstn_comm, drop_drop. f_equal; [lia|]. f_equal. lia.
Qed.

Lemma wire_fields p : sendable p ->
  is_bytes (wire p) /\ zsub 6 2 (wire p) = be_bytes 2 (12 + GetPayloadSize p) /\
  ext_valid (wire p) = true /\ of_be (zsub 0 4 (wire p)) = GetMmId p /\
  load 1 4 (wire p) = GetMmType p /\ load 1 8 (wire p) = 128.
Proof.
  intros Hsb. pose proof (zlen_wire p Hsb) as Hl. destruct Hsb as [[Hb He Hh Hm] Hs Hf Hp].
  unfold GetPayloadBuffer, MAX_PAYLOAD_SIZE in *. unfold sizeof_RTP_EXT, sizeof_RTP_HEADER in *.
  assert (Hsub : forall o n, 0 <= o -> 0 <= n -> o + n <= 20 -> zsub o n (wire p) = zsub (ext p + o) n (mem p)).
  { intros o n ? ? ?. unfold wire, sizeof_RTP_EXT, sizeof_RTP_HEADER. by rewrite zsub_zsub by lia. }
  assert (Hn : pbsd_ntoh16 (load 2 (ext p + 6) (mem p)) = 12 + GetPayloadSize p).
  { pose proof (hton16_range (load 2 (ext p + 6) (mem p))) as Hr.
    change (pbsd_hton16 (load 2 (ext p + 6) (mem p))) with (pbsd_ntoh16 (load 2 (ext p + 6) (mem p))) in Hr.
    unfold GetPayloadSize, sizeof_RTP_HEADER, o_hdrAndPayloadSize, wrap in *.
    set (x := pbsd_ntoh16 _) in *. change (2 ^ 16) with 65536 in *.
    destruct (decide (12 <= x)); [rewrite Z.mod_small in * by lia; lia|].
    rewrite <- (Z.mod_add (x - 12) 1) in * by lia. rewrite Z.mod_small in * by lia. lia. }
  assert (H6 : of_be (zsub 6 2 (wire p)) = 12 + GetPayloadSize p).
  { rewrite Hsub by lia. rewrite <- ntoh16_load by (done || lia). done. }
  assert (H8 : load 1 8 (wire p) = 128).
  { unfold load. rewrite Hsub by lia. rewrite <- Hh. exact Hp. }
  split_and!.
  - unfold wire. by apply is_bytes_zsub.
  - rewrite <- H6. rewrite Hsub by lia. unfold of_be, be_bytes.
    rewrite le_bytes_of_le; [by rewrite reverse_involutive|apply Forall_reverse; by apply is_bytes_zsub|].
    rewrite length_reverse. apply length_zsub; lia.
  - unfold ext_valid. rewrite Hl, H6, H8. destruct (Z.leb_spec 21 (20 + GetPayloadSize p)); [|lia].
    destruct (Z.eqb_spec (8 + (12 + GetPayloadSize p)) (20 + GetPayloadSize p)); [done|lia].
  - rewrite Hsub by lia. unfold GetMmId. rewrite ntoh32_load by (unfold o_mmId; done || lia). done.
  - unfold load. rewrite Hsub by lia. done.
  - done.
Qed.

(** A stream of frames is cut into those frames. *)
Lemma cut_frames first `{!Prefix first} (frames images : list (list Z)) k :
  Forall2 (fun f g => is_bytes f /\ first f = Deliver (zlen f) g) frames images ->
  first [] = Wait -> (length (concat frames) < k)%nat -> cut first k (concat frames) = (images, [], false).
Proof.
  intros HF Hnil. revert k. induction HF as [|f g frames images [Hb Hf] HF IH]; intros k Hk.
  { destruct k; [cbn in Hk; lia|]. cbn [concat cut]. by rewrite Hnil. }
  cbn [concat] in *. destruct k as [|k]; [lia|]. rewrite cut_S, prefix_more, Hf by (done || by rewrite Hf).
  pose proof (prefix_len f Hb) as Hp. rewrite Hf in Hp. rewrite zdrop_app_exact.
  rewrite length_app in Hk. unfold zlen in Hp. by rewrite IH by lia.
Qed.

(** The receiver's ids let the packet pass. *)
Definition expected (i : info) (p : CRtpPacket.t) : Prop :=
  (inSrcMmId i = 0 \/ GetMmId p = inSrcMmId i) /\ GetMmType p = mmType i.

(** The largest payload that the extended receiver accepts. *)
Definition MAX_EX : Z := MAX_PAYLOAD_SIZE - 20.

Lemma firstEx_wire i p : sendable p -> expected i p -> GetPayloadSize p <= MAX_EX ->
  firstEx i (wire p) = Deliver (zlen (wire p)) (wire p).
Proof.
  intros Hsb [Hid Hty] Hmax. destruct (wire_fields p Hsb) as (Hb & H6 & Hv & H0 & H4 & _).
  pose proof (zlen_wire p Hsb) as Hl. destruct Hsb as [_ Hs _ _]. unfold MAX_EX, MAX_PAYLOAD_SIZE in *.
  unfold firstEx. rewrite H6, of_be_be_bytes, Z.mod_small by (change (2 ^ (8 * Z.of_nat 2)) with 65536; lia).
  destruct (Z.ltb_spec (zlen (wire p)) 8); [lia|].
  destruct (Z.ltb_spec (zlen (wire p)) (8 + (12 + GetPayloadSize p))); [lia|]. cbn [orb].
  destruct (Z.eqb_spec (12 + GetPayloadSize p) 0); [lia|].
  replace (8 + (12 + GetPayloadSize p)) with (zlen (wire p)) by lia.
  rewrite (ztake_all (zlen (wire p))) by lia. unfold accepts, MAX_PAYLOAD_SIZE. rewrite Hv, H0, H4, Hl.
  destruct (Z.leb_spec (20 + GetPayloadSize p) (1024 * 63)); [|lia]. cbn [andb].
  rewrite Hty, Z.eqb_refl, andb_true_r.
  destruct (Z.eqb_spec (inSrcMmId i) 0), (Z.eqb_spec (GetMmId p) (inSrcMmId i)); cbn [orb]; try done.
  naive_solver.
Qed.

(** [CreateInstance] makes, and [SendPacket] sends, packets that are too large for
    the receiver by up to 20 bytes. *)
Lemma firstEx_too_large i p : sendable p -> MAX_EX < GetPayloadSize p ->
  firstEx i (wire p) = Bad (zlen (wire p)).
Proof.
  intros Hsb Hmax. destruct (wire_fields p Hsb) as (Hb & H6 & Hv & H0 & H4 & _).
  pose proof (zlen_wire p Hsb) as Hl. destruct Hsb as [_ Hs _ _]. unfold MAX_EX, MAX_PAYLOAD_SIZE in *.
  unfold firstEx. rewrite H6, of_be_be_bytes, Z.mod_small by (change (2 ^ (8 * Z.of_nat 2)) with 65536; lia).
  destruct (Z.ltb_spec (zlen (wire p)) 8); [lia|].
  destruct (Z.ltb_spec (zlen (wire p)) (8 + (12 + GetPayloadSize p))); [lia|]. cbn [orb].
  destruct (Z.eqb_spec (12 + GetPayloadSize p) 0); [lia|].
  replace (8 + (12 + GetPayloadSize p)) with (zlen (wire p)) by lia.
  rewrite (ztake_all (zlen (wire p))) by lia. unfold accepts, MAX_PAYLOAD_SIZE. rewrite Hl.
  by destruct (Z.leb_spec (20 + GetPayloadSize p) (1024 * 63)); [lia|].
Qed.

(** What the standard receiver makes of a packet: its own ids, no flags, and the RTP
    header and payload as sent. *)
Definition relabel (i : info) (p : CRtpPacket.t) : list Z :=
  be_bytes 4 (inSrcMmId i) ++ [mmType i; 0] ++ zdrop 6 (wire p).

Lemma plain_layout f : is_bytes f -> 12 <= zlen f -> load 1 0 f = 128 -> rtp_layout f = Some (12, 0).
Proof.
  intros Hf Hl H0. unfold rtp_layout. rewrite H0. destruct (Z.ltb_spec (zlen f) 12); [lia|].
  change (12 + 4 * getBits 0 4 128) with 12. change (getBits 4 1 128) with 0.
  change (getBits 5 1 128) with 0. change (getBits 6 2 128) with 2. cbn [Z.eqb negb andb orb Pos.eqb].
  by destruct (Z.ltb_spec (zlen f) (12 + 0)); [lia|].
Qed.

Lemma firstTcp_wire i p : sendable p -> GetPayloadSize p <= MAX_PAYLOAD_SIZE - 12 ->
  firstTcp i (zdrop 6 (wire p)) = Deliver (zlen (zdrop 6 (wire p))) (relabel i p).
Proof.
  intros Hsb Hmax. destruct (wire_fields p Hsb) as (Hb & H6 & _ & _ & _ & H8).
  pose proof (zlen_wire p Hsb) as Hl. pose proof (sb_size p Hsb) as Hs. set (n := GetPayloadSize p) in *.
  unfold MAX_PAYLOAD_SIZE in *. assert (Hl6 : zlen (zdrop 6 (wire p)) = 14 + n) by (rewrite zlen_zdrop; lia).
  unfold firstTcp. change (zsub 0 2 (zdrop 6 (wire p))) with (zsub 6 2 (wire p)).
  rewrite H6, of_be_be_bytes, Z.mod_small by (change (2 ^ (8 * Z.of_nat 2)) with 65536; lia).
  rewrite Hl6. destruct (Z.ltb_spec (14 + n) 2); [lia|]. destruct (Z.ltb_spec (14 + n) (2 + (12 + n))); [lia|].
  cbn [orb]. destruct (Z.eqb_spec (12 + n) 0); [lia|]. unfold MAX_PAYLOAD_SIZE.
  destruct (Z.ltb_spec (1024 * 63) (12 + n)); [lia|].
  assert (Hf : zsub 2 (12 + n) (zdrop 6 (wire p)) = zdrop 8 (wire p)).
  { unfold zsub. rewrite zdrop_zdrop by lia. apply ztake_all. rewrite zlen_zdrop; lia. }
  rewrite Hf. set (f := zdrop 8 (wire p)).
  assert (Hfl : zlen f = 12 + n) by (unfold f; rewrite zlen_zdrop; lia).
  rewrite (plain_layout f) by (first [by apply is_bytes_zdrop|lia|exact H8]).
  destruct (Z.eqb_spec (12 + n - 12 - 0) 0); [lia|]. f_equal; [lia|].
  unfold rtp_image, relabel. rewrite Hfl. change (flags_of f 12) with 0. do 2 f_equal.
  replace (zdrop 6 (wire p)) with (zsub 6 2 (wire p) ++ f)
    by (unfold zsub; change f with (zdrop 8 (wire p)); change 8 with (6 + 2);
        rewrite <- (zdrop_zdrop 2 6) by lia; apply ztake_zdrop).
  rewrite H6. replace (12 + (12 + n - 12 - 0)) with (12 + n) by lia. f_equal.
  assert (Hf1 : f = zsub 0 1 f ++ zsub 1 11 f ++ zsub 12 (12 + n - 12 - 0) f).
  { replace (zsub 0 1 f ++ _) with (zsub 0 (1 + (11 + (12 + n - 12 - 0))) f)
      by (rewrite !zsub_split by lia; done).
    replace (1 + (11 + (12 + n - 12 - 0))) with (zlen f) by lia. by rewrite zsub_all. }
  rewrite Hf1 at 3. f_equal. change (load 1 0 f = 128) in H8. unfold load in H8.
  pose proof (length_zsub 0 1 f ltac:(lia) ltac:(lia) ltac:(lia)) as Hl1.
  change (Z.of_nat 1) with 1 in H8. destruct (zsub 0 1 f) as [|x [|]]; try done.
  cbn in H8. rewrite Z.mul_0_r, Z.add_0_r in H8. by rewrite H8.
Qed.

Section transfer.
Context {W P : Type} `{HW : SessWorld W P} `{HP : IProRecvPool P} `{!RecvPoolLaws P}.
Context {HL : SessLaws W P}.
Context (Fini : t -> W -> option (t * W)).
Context (upcall : Z -> sevent -> t * W -> option (t * W)).
Context (malloc : Z -> option (list Z)).

(** C23: whatever bytes are unread, [CRtpSessionTcpclientEx::OnRecv] returns after
    cutting them into frames: the frames that are valid for the session are handed to
    the observer in order, byte for byte; heartbeats are skipped; an incomplete frame
    stays in the pool; at the first invalid frame the observer is told once that the
    session closes, and the session finalizes itself. *)
Theorem OnRecvEx_correct clock fuel tr s w d :
  malloc_ok malloc -> observer_ok upcall -> Fini_ok Fini ->
  open tr d s w -> m_canUpcall s = true -> is_bytes d -> (length d < fuel)%nat ->
  loop_result Fini (firstEx (m_info s)) fuel tr d s (OnRecvEx Fini upcall malloc fuel tr clock s w).
Proof. apply OnRecvEx_ok. Qed.

(** [CRtpSessionTcpclient::OnRecv] returns after cutting the unread bytes into
    length-prefixed RTP packets: each one with a payload is handed on with the
    session's ids, a plain header and exactly the payload RFC 3550 gives it; what is
    no RTP packet is skipped; only a length above the limit closes the session. *)
Theorem OnRecvTcp_correct clock fuel tr s w d :
  malloc_ok malloc -> observer_ok upcall -> Fini_ok Fini ->
  open tr d s w -> m_canUpcall s = true -> is_bytes d -> (length d < fuel)%nat ->
  loop_result Fini (firstTcp (m_info s)) fuel tr d s (OnRecvTcp Fini upcall malloc fuel tr clock s w).
Proof. apply OnRecvTcp_ok. Qed.

Lemma is_bytes_concat (cs : list (list Z)) : is_bytes (concat cs) -> Forall is_bytes cs.
Proof.
  induction cs as [|c cs IH]; [constructor|]. cbn. intros [H1 H2]%is_bytes_app. constructor; auto.
Qed.

Lemma transfer OnRecv first `{!forall i, Prefix (first i)} tr s w cs es s' w' frames images :
  (forall clock fuel s w d, open tr d s w -> m_canUpcall s = true -> is_bytes d ->
    (length d < fuel)%nat -> loop_result Fini (first (m_info s)) fuel tr d s (OnRecv fuel tr clock s w)) ->
  first (m_info s) [] = Wait ->
  Forall2 (fun f g => is_bytes f /\ first (m_info s) f = Deliver (zlen f) g) frames images ->
  open tr [] s w -> m_canUpcall s = true -> concat cs = concat frames ->
  arrivals OnRecv tr s w cs es s' w' ->
  received es images /\ open tr [] s' w'.
Proof.
  intros Hrecv Hnil HF Hop Hc Hcat Harr.
  assert (Hb : Forall is_bytes cs).
  { apply is_bytes_concat. rewrite Hcat. apply Forall_concat.
    eapply Forall2_Forall_l; [exact HF|]. apply Forall_true. naive_solver. }
  destruct (arrivals_cut Fini OnRecv first tr s w cs es s' w' [] images [] (S (length (concat frames))))
    as (Hr & _ & Ho); try done; [constructor|cbn; rewrite Hcat; lia|].
  cbn [app]. rewrite Hcat. apply cut_frames; [apply _|done..|lia].
Qed.


(** A payload of 64493 to 64512 bytes, which [CreateInstance] and [SendPacket]
    accept, closes the session that receives it. *)
Theorem max_payload_closes clock fuel tr p s w :
  malloc_ok malloc -> observer_ok upcall -> Fini_ok Fini ->
  sendable p -> MAX_EX < GetPayloadSize p ->
  open tr (wire p) s w -> m_canUpcall s = true -> (length (wire p) < fuel)%nat ->
  exists s' w', OnRecvEx Fini upcall malloc fuel tr clock s w
    = Some ([OnCloseSession (-1) 0 (m_tcpConnected s)], s', w').
Proof.
  intros Hm Hob HF Hsb Hmax Hop Hc Hl. destruct (wire_fields p Hsb) as (Hb & _).
  destruct (OnRecvEx_ok Fini upcall malloc clock fuel tr s w (wire p)) as (es & s' & w' & -> & Hres); try done.
  exists s', w'. destruct fuel as [|fuel]; [lia|]. rewrite cut_S, firstEx_too_large in Hres by done.
  destruct Hres as (es1 & s1 & w1 & -> & Hr & _). by apply Forall2_nil_inv_r in Hr as ->.
Qed.

(** A session of the extended kinds that has been heard of within the timeout
    only sends a heartbeat; otherwise its observer is told once that the peer timed
    out, and the session finalizes itself. *)
Theorem OnHeartbeat_timeout tr tick timeout d s w w1 ret :
  observer_ok upcall -> Fini_ok Fini ->
  oneOf (sessionType (m_info s)) [RTP_ST_UDPCLIENT_EX; RTP_ST_UDPSERVER_EX; RTP_ST_TCPCLIENT_EX;
    RTP_ST_TCPSERVER_EX; RTP_ST_SSLCLIENT_EX; RTP_ST_SSLSERVER_EX] = true ->
  open tr d s w -> m_onOkCalled s = true -> m_canUpcall s = true ->
  t_SendData tr (replicate 8 0) 0 None w = Some (ret, w1) -> refs (m_observer s) w1 = refs (m_observer s) w ->
  if tick - m_peerAliveTick (m_ticks s) <? timeout * 1000
  then OnHeartbeat Fini upcall tr tick timeout s w = Some ([], s, w1)
  else exists s1 w2 s' w', m_canUpcall s1 = false /\ Fini s1 w2 = Some (s', w') /\
    OnHeartbeat Fini upcall tr tick timeout s w
      = Some ([OnCloseSession PBSD_ETIMEDOUT 0 (m_tcpConnected s)], s', w').
Proof.
  intros Hob HF Hst Hop Hok Hc Hsend Hr1. unfold OnHeartbeat. rewrite (open_not_null _ _ _ _ Hop).
  pose proof Hop as [Hcl Htr _ Hpos _]. rewrite Hcl, Htr, Z.eqb_refl, Hok, Hst, Hsend.
  cbn [negb mbind option_bind]. destruct (_ <? _); [done|].
  destruct (s_AddRef_law (m_observer s) w1) as (w2 & -> & Hr2 & _); [by rewrite Hr1|].
  cbn [mbind option_bind]. unfold close. rewrite Hc.
  destruct (Hob (OnCloseSession PBSD_ETIMEDOUT 0 (m_tcpConnected s)) (setFlags (m_onOkCalled s) false s) w2)
    as (s3 & w3 & Hu & Hr3 & Hc3 & _).
  { cbn. rewrite Hr2, Z.eqb_refl. lia. }
  cbn [m_observer setFlags] in Hu, Hr3. rewrite Hu. cbn [mbind option_bind].
  destruct (s_Release_law (m_observer s) w3) as (w4 & -> & _); [rewrite Hr3, Hr2, Z.eqb_refl; lia|].
  cbn [mbind option_bind]. destruct (HF s3 w4) as (s5 & w5 & Hf). rewrite Hf. cbn [mbind option_bind].
  exists s3, w4, s5, w5. done.
Qed.

(** Something handed to the transport has not been written to the socket yet. *)
Definition backlog (s : t) : Prop := m_onSendTick (m_ticks s) < m_sendTick (m_ticks s).

(** What a packet must match to be sent by the session. *)
Definition sends (s : t) (p : CRtpPacket.t) : Prop :=
  closed s = false /\ m_onOkCalled s = true /\
  (outSrcMmId (m_info s) = 0 \/ GetMmId p = outSrcMmId (m_info s)) /\ GetMmType p = mmType (m_info s).

Lemma SendPacket_refused p tick s w : ~ sends s p -> SendPacket (Some p) tick s w = Some (false, s, w).
Proof.
  clear Fini malloc upcall. intros Hn. unfold SendPacket. destruct (closed s) eqn:Ec; [done|].
  destruct (m_onOkCalled s) eqn:Eo; [|done]. cbn [negb].
  destruct (Z.eqb_spec (GetMmType p) (mmType (m_info s))); [|by rewrite orb_true_r].
  destruct (Z.eqb_spec (outSrcMmId (m_info s)) 0), (Z.eqb_spec (GetMmId p) (outSrcMmId (m_info s)));
    try (exfalso; apply Hn; unfold sends; tauto). done.
Qed.

(** Over a stream, [SendPacket] refuses without any effect a packet that does not
    match the session; any other packet goes to the transport as one message, the wire
    image without the part the session kind leaves out, under the next action id.  On
    success the session has a backlog, which exactly the [OnSend] for this action
    clears; when the transport refuses, the backlog and the action id are as before. *)
Theorem SendPacket_correct p tick s w ret w' :
  sendable p -> isStream (sessionType (m_info s)) = true ->
  t_SendData (m_trans s) (zdrop (20 - otherSize (sessionType (m_info s))) (wire p))
    (u64 (m_actionId s + 1)) (Some (m_remoteAddr s)) w = Some (ret, w') ->
  (~ sends s p -> SendPacket (Some p) tick s w = Some (false, s, w)) /\
  (sends s p -> exists s', SendPacket (Some p) tick s w = Some (ret, s', w') /\ same s s' /\
    if (ret : bool) then
      m_actionId s' = u64 (m_actionId s + 1) /\ backlog s' /\
      forall a later w1 es s2 w2, 0 < a -> tick <= later -> observer_ok upcall ->
        m_canUpcall s' = true -> 0 < refs (m_observer s') w1 ->
        OnSend upcall (m_trans s') a later s' w1 = Some (es, s2, w2) ->
        es = [OnSendSession false] /\
        ((forall e s w s1 w1, upcall (m_observer s) e (s, w) = Some (s1, w1) -> m_ticks s1 = m_ticks s) ->
         backlog s2 <-> a <> m_actionId s')
    else m_actionId s' = m_actionId s /\ (backlog s' <-> backlog s)).
Proof.
  clear Fini malloc. intros Hsb Hst Hsend. split; [apply SendPacket_refused|]. intros (Hc & Hok & Hid & Hty).
  assert (Hu : oneOf (sessionType (m_info s)) [RTP_ST_UDPCLIENT; RTP_ST_UDPSERVER] = false /\
    0 <= otherSize (sessionType (m_info s)) <= 20).
  { revert Hst. generalize (sessionType (m_info s)). intros x. unfold isStream, oneOf. cbn [existsb].
    repeat match goal with
    | |- ((x =? ?y) || _)%bool = true -> _ =>
        destruct (Z.eqb_spec x y) as [->|]; [by vm_compute|cbn [orb]]
    end. done. }
  destruct Hu as [Hu Ho]. unfold SendPacket. rewrite Hc, Hok, Hty, Z.eqb_refl, Hu, image_wire, Hsend by done.
  assert (Hid' : negb (outSrcMmId (m_info s) =? 0) && negb (GetMmId p =? outSrcMmId (m_info s)) = false).
  { destruct (Z.eqb_spec (outSrcMmId (m_info s)) 0), (Z.eqb_spec (GetMmId p) (outSrcMmId (m_info s)));
      try done; tauto. }
  rewrite Hid'. cbn [negb orb mbind option_bind]. destruct ret; cbn [negb]; [|by eexists; split; [done|]].
  rewrite Hst. eexists. split; [done|]. split; [done|]. split; [done|]. split; [unfold backlog; cbn; lia|].
  intros a later w1 es s2 w2 Ha Hl Hob Hup Hpos. unfold OnSend.
  set (s' := setSending _ _ s) in *. change (m_trans s') with (m_trans s). change (closed s') with (closed s).
  change (m_onOkCalled s') with (m_onOkCalled s). change (m_info s') with (m_info s).
  rewrite Hc, Hok, Hst, Z.eqb_refl. destruct (Z.eqb_spec (m_trans s) NULL) as [Hnull|_].
  { unfold closed in Hc. rewrite Hnull, Z.eqb_refl, orb_true_r in Hc. done. }
  cbn [negb andb]. destruct (Z.gtb_spec a 0); [|lia]. cbn [andb].
  set (s1 := if a =? m_actionId s' then _ else s').
  assert (Hs1 : same s' s1) by (unfold s1; by destruct (a =? _)).
  assert (Hb1 : backlog s1 <-> a <> m_actionId s').
  { unfold s1, backlog. destruct (Z.eqb_spec a (m_actionId s')) as [Ea|Ea]; cbn in Ea |- *; lia. }
  clearbody s1. rewrite (same_observer _ _ Hs1), (same_upcall _ _ Hs1), Hup.
  destruct (s_AddRef_law (m_observer s') w1 Hpos) as (w3 & -> & Hr3 & _). cbn [mbind option_bind].
  destruct (Hob (OnSendSession false) s1 w3) as (s4 & w4 & Hu4 & _).
  { rewrite (same_observer _ _ Hs1), Hr3, Z.eqb_refl. lia. }
  rewrite (same_observer _ _ Hs1) in Hu4. rewrite Hu4. cbn [mbind option_bind].
  destruct (s_Release (m_observer s') w4); [|done]. cbn [mbind option_bind]. intros [= <- <- <-].
  split; [done|]. intros Hk. unfold backlog. rewrite <- (same_observer _ _ Hs1) in Hu4.
  rewrite (Hk _ _ _ _ _ Hu4). exact Hb1.
Qed.

(** The standard TCP sessions never time out: after their heartbeat [OnHeartbeat]
    returns without looking at the clock. *)
Theorem OnHeartbeat_tcp_never tr tick timeout s w es s' w' :
  oneOf (sessionType (m_info s)) [RTP_ST_TCPCLIENT; RTP_ST_TCPSERVER] = true ->
  OnHeartbeat Fini upcall tr tick timeout s w = Some (es, s', w') -> es = [] /\ s' = s.
Proof.
  intros Hst. unfold OnHeartbeat. rewrite Hst.
  destruct (tr =? NULL); [by intros [= <- <- _]|]. destruct (closed s); [by intros [= <- <- _]|].
  destruct (negb _); [by intros [= <- <- _]|]. destruct (negb _); [by intros [= <- <- _]|].
  destruct (oneOf _ [RTP_ST_UDPCLIENT_EX; _; _; _; _; _]) eqn:E.
  - unfold oneOf in *. cbn in *. set (x := sessionType (m_info s)) in *.
    unfold RTP_ST_TCPCLIENT, RTP_ST_TCPSERVER in Hst.
    destruct (Z.eqb_spec x 3) as [Hx|]; [by rewrite Hx in E|]. destruct (Z.eqb_spec x 4) as [Hx|]; [by rewrite Hx in E|].
    done.
  - destruct (t_SendData _ _ _ _ w) as [[? ?]|]; [|done]. by intros [= <- <- _].
Qed.

End transfer.
End RtpTransfer.

(** ** A world to run sessions in *)

Module RtpDemo.
Import CRtpSessionBase RtpFields RtpFraming RtpReceive RtpTransfer.

Record world := mkWorld { d_refs : Z -> Z; d_pool : list Z; d_sent : list (list Z) }.

Definition bump (o k : Z) (w : world) : option world :=
  if d_refs w o <=? 0 then None
  else Some (mkWorld (fun q => d_refs w q + if q =? o then k else 0) (d_pool w) (d_sent w)).

#[export] Instance demo_world : SessWorld world (list Z) := {|
  s_AddRef o := bump o 1;
  s_Release o := bump o (-1);
  r_CancelTimer _ _ w := Some w;
  t_SendData _ data _ _ w := Some (true, mkWorld (d_refs w) (d_pool w) (d_sent w ++ [data]));
  t_RequestOnSend _ w := Some w;
  t_SuspendRecv _ w := Some w;
  t_ResumeRecv _ w := Some w;
  ProDeleteTransport _ w := Some w;
  t_GetRecvPool _ w := d_pool w;
  t_setRecvPool _ p w := mkWorld (d_refs w) p (d_sent w)
|}.

#[export] Program Instance demo_laws : SessLaws world (list Z) := {| refs q w := d_refs w q |}.
Next Obligation.
  intros o w Ho. cbn. unfold bump. destruct (Z.leb_spec (d_refs w o) 0); [lia|]. by eexists.
Qed.
Next Obligation.
  intros o w Ho. cbn. unfold bump. destruct (Z.leb_spec (d_refs w o) 0); [lia|].
  eexists. split; [done|]. split; [|done]. intros q. cbn. destruct (q =? o); lia.
Qed.
Solve All Obligations with done.

Definition no_Fini (s : t) (w : world) : option (t * world) := Some (setLinks NULL NULL NULL s, w).
Definition quiet (o : Z) (e : sevent) (sw : t * world) : option (t * world) := Some sw.
Definition fresh (n : Z) : option (list Z) := Some (replicate (Z.to_nat (40 + n)) 0).

Lemma no_Fini_ok : Fini_ok no_Fini.
Proof. intros s w. by eexists _, _. Qed.
Lemma quiet_ok : observer_ok quiet.
Proof. intros e s w _. exists s, w. split_and!; try done. by destruct e. Qed.
Lemma fresh_ok : malloc_ok fresh.
Proof.
  intros n Hn. unfold fresh. eexists. split; [done|]. split.
  - apply Forall_replicate. done.
  - unfold zlen. rewrite length_replicate. lia.
Qed.

(** Session 1 with observer 7 on transport 5. *)
Definition session (st : Z) : t :=
  mkSession (mkInfo st 0 0 0) 7 3 5 1 1 true 0 (mkTicks 0 0 0 0) 0 0 true true.
Definition world0 (d : list Z) : world := mkWorld (fun _ => 1) d [].

Lemma session_open st d : open 5 d (session st) (world0 d).
Proof. split; done. Qed.

(** A heartbeat, a packet, a truncated packet. *)
Definition stream : list Z := replicate 8 0 ++ wire sample ++ ztake 15 (wire sample).

Lemma OnRecvEx_correct_witness :
  cut (firstEx (mkInfo RTP_ST_TCPCLIENT_EX 0 0 0)) 100 stream = ([wire sample], ztake 15 (wire sample), false) /\
  loop_result no_Fini (firstEx (mkInfo RTP_ST_TCPCLIENT_EX 0 0 0)) 100 5 stream (session RTP_ST_TCPCLIENT_EX)
    (OnRecvEx no_Fini quiet fresh 100 5 (fun _ => 0) (session RTP_ST_TCPCLIENT_EX) (world0 stream)).
Proof.
  split; [by vm_compute|].
  apply (OnRecvEx_correct no_Fini quiet fresh (fun _ => 0) 100 5 (session RTP_ST_TCPCLIENT_EX) (world0 stream) stream
    fresh_ok quiet_ok no_Fini_ok (session_open _ _) eq_refl); [repeat constructor; done|].
  apply Nat.ltb_lt. reflexivity.
Defined.

(** A datagram with one contributing source, an extension and padding. *)
Definition tcp_stream : list Z := [0; 0; 0; 28] ++ sample_rtp.

Lemma OnRecvTcp_correct_witness :
  cut (firstTcp (mkInfo RTP_ST_TCPCLIENT 0 0 0)) 100 tcp_stream
    = ([[0; 0; 0; 0; 0; 0; 0; 14; 128; 96; 0; 1; 0; 0; 0; 2; 0; 0; 0; 3; 55; 66]], [], false) /\
  loop_result no_Fini (firstTcp (mkInfo RTP_ST_TCPCLIENT 0 0 0)) 100 5 tcp_stream (session RTP_ST_TCPCLIENT)
    (OnRecvTcp no_Fini quiet fresh 100 5 (fun _ => 0) (session RTP_ST_TCPCLIENT) (world0 tcp_stream)).
Proof.
  split; [by vm_compute|].
  apply (OnRecvTcp_correct no_Fini quiet fresh (fun _ => 0) 100 5 (session RTP_ST_TCPCLIENT) (world0 tcp_stream) tcp_stream
    fresh_ok quiet_ok no_Fini_ok (session_open _ _) eq_refl); [repeat constructor; done|].
  apply Nat.ltb_lt. reflexivity.
Defined.

Lemma sample_sendable : sendable sample.
Proof. split; [apply sample_wf|by vm_compute..]. Qed.

(** The packet arrives in two pieces. *)
Lemma two_pieces : exists es s' w',
  arrivals (OnRecvEx no_Fini quiet fresh) 5 (session RTP_ST_TCPCLIENT_EX) (world0 [])
    [ztake 10 (wire sample); zdrop 10 (wire sample)] es s' w'.
Proof.
  do 3 eexists. eapply (arrived _ _ _ _ (fun _ => 0) 100 [] _ _ (world0 (ztake 10 (wire sample))));
    [done|done|done|by apply Nat.ltb_lt|done|].
  eapply (arrived _ _ _ _ (fun _ => 0) 100 (ztake 10 (wire sample)) _ _ (world0 (wire sample)));
    [done|done|done|by apply Nat.ltb_lt|by vm_compute|apply arrived_all].
Qed.


Lemma SendPacket_correct_witness :
  exists s', SendPacket (Some sample) 50 (session RTP_ST_TCPCLIENT_EX) (world0 [])
    = Some (true, s', mkWorld (fun _ => 1) [] [wire sample]) /\ m_actionId s' = 1 /\ backlog s'.
Proof.
  destruct (SendPacket_correct quiet sample 50 (session RTP_ST_TCPCLIENT_EX) (world0 []) true
    (mkWorld (fun _ => 1) [] [wire sample]) sample_sendable eq_refl ltac:(by vm_compute)) as [_ H].
  destruct H as (s' & E & _ & Ha & Hb & _).
  { split_and!; try done. by left. }
  exists s'. split; [exact E|]. split; [exact Ha|exact Hb].
Defined.

Lemma OnHeartbeat_timeout_witness :
  exists s1 w2 s' w', m_canUpcall s1 = false /\ no_Fini s1 w2 = Some (s', w') /\
    OnHeartbeat no_Fini quiet 5 200000 60 (session RTP_ST_TCPCLIENT_EX) (world0 [])
      = Some ([OnCloseSession PBSD_ETIMEDOUT 0 true], s', w').
Proof.
  apply (OnHeartbeat_timeout no_Fini quiet 5 200000 60 [] (session RTP_ST_TCPCLIENT_EX) (world0 [])
    (mkWorld (fun _ => 1) [] [replicate 8 0]) true quiet_ok no_Fini_ok eq_refl (session_open _ _)
    eq_refl eq_refl eq_refl eq_refl).
Defined.

(** Contributing sources turn into flags: a standard session reports a key frame
    although the byte it reads the flag from belongs to the received header. *)
Definition csrc_stream : list Z :=
  [0; 17] ++ [129; 128; 0; 1; 0; 0; 0; 2; 0; 0; 0; 3; 0; 0; 0; 4; 55].

Theorem csrc_becomes_key_frame :
  exists p s' w', OnRecvTcp no_Fini quiet fresh 100 5 (fun _ => 0) (session RTP_ST_TCPCLIENT)
    (world0 csrc_stream) = Some ([OnRecvSession p], s', w') /\ GetKeyFrame p = true.
Proof. eexists _, _, _. split; [vm_compute; reflexivity|]. by vm_compute. Qed.

End RtpDemo.
