(* ===== verification/RtpBucket.v ===== *)
(** * Send buckets ([rtp_bucket.cpp])

    What a session that cannot send at once keeps its packets in: the plain bucket refuses
    packets, the audio bucket drops the oldest, the video bucket drops whole frames and
    resumes with a key frame.  A bucket holds a reference to each of its packets.

    Packets are addresses; [pk] is the packet at an address ([RtpPacket.v]).  The flow
    statistics ([CRtpFlowStat]), which no decision depends on, are left out.  [None] is
    undefined behaviour: [front()] of an empty queue, a reference to a deleted packet.
    [unsigned long] has 64 bits. *)

From S2P Require Import Prelude RefCount RtpPacket RtpSession.

Definition BASE_REDLINE_BYTES : Z := 1024 * 1024.
Definition AUDIO_REDLINE_BYTES : Z := 1024 * 8.
Definition VIDEO_REDLINE_BYTES : Z := 1024 * 1024.
Definition MAX_FRAME_BYTES : Z := 1920 * 1080 * 3 / 2.
Definition VIDEO_REDLINE_FRAMES : Z := 10.

(** [RTP_MMT_AUDIO_MIN], ... *)
Definition RTP_MMT_AUDIO_MIN : Z := 21.
Definition RTP_MMT_AUDIO_MAX : Z := 30.
Definition RTP_MMT_VIDEO_MIN : Z := 31.
Definition RTP_MMT_VIDEO_MAX : Z := 40.

(** [CreateRtpBucket]: the class of the bucket *)
Inductive bucketKind := BaseBucket | AudioBucket | VideoBucket.
Definition CreateRtpBucket (mmType sessionType : Z) : option bucketKind :=
  if mmType =? 0 then None else
  if (mmType >=? RTP_MMT_AUDIO_MIN) && (mmType <=? RTP_MMT_AUDIO_MAX) then Some AudioBucket else
  if (mmType >=? RTP_MMT_VIDEO_MIN) && (mmType <=? RTP_MMT_VIDEO_MAX) then
    if (sessionType =? RTP_ST_TCPCLIENT_EX) || (sessionType =? RTP_ST_TCPSERVER_EX) ||
       (sessionType =? RTP_ST_SSLCLIENT_EX) || (sessionType =? RTP_ST_SSLSERVER_EX)
    then Some VideoBucket else Some BaseBucket
  else Some BaseBucket.

(** ** The plain bucket *)

Module CRtpBucket.

(** [CRtpBucket] *)
Record t := mkBucket {
  m_redlineBytes : Z;
  m_totalBytes : Z;
  m_packets : list Z
}.

Definition init : t := mkBucket BASE_REDLINE_BYTES 0 [].

Definition GetTotalBytes (b : t) : Z := m_totalBytes b.

(** [GetFront]; NULL is 0 *)
Definition GetFront (b : t) : option Z := if m_totalBytes b =? 0 then Some NULL else head (m_packets b).

Definition SetRedline (redlineBytes redlineFrames : Z) (b : t) : t :=
  if redlineBytes >? 0 then mkBucket redlineBytes (m_totalBytes b) (m_packets b) else b.
Definition GetRedline (b : t) : Z * Z := (m_redlineBytes b, 0).

(** [GetFlowctrlInfo]: the cached bytes and frames *)
Definition GetFlowctrlInfo (b : t) : Z * Z := (m_totalBytes b, Z.of_nat (length (m_packets b))).

Definition Reset (b : t) (rc : gmap Z nat) : option (t * gmap Z nat) :=
  rc ← ReleaseAll (m_packets b) rc; Some (mkBucket (m_redlineBytes b) 0 [], rc).

Section bucket.
Context (pk : Z -> CRtpPacket.t).

(** [PushBackAddRef] *)
Definition PushBackAddRef (packet : Z) (b : t) (rc : gmap Z nat) : option (bool * t * gmap Z nat) :=
  if packet =? NULL then Some (false, b, rc) else
  if m_totalBytes b >=? m_redlineBytes b then Some (false, b, rc) else
  rc ← AddRef packet rc;
  Some (true, mkBucket (m_redlineBytes b) (u64 (m_totalBytes b + CRtpPacket.GetPayloadSize (pk packet)))
                (m_packets b ++ [packet]), rc).

(** [PopFrontRelease] *)
Definition PopFrontRelease (packet : Z) (b : t) (rc : gmap Z nat) : option (t * gmap Z nat) :=
  if (packet =? NULL) || (m_totalBytes b =? 0) then Some (b, rc) else
  match m_packets b with
  | [] => None
  | p :: packets =>
      if negb (packet =? p) then Some (b, rc) else
      rc ← Release packet rc;
      Some (mkBucket (m_redlineBytes b) (u64 (m_totalBytes b - CRtpPacket.GetPayloadSize (pk packet))) packets, rc)
  end.

End bucket.
End CRtpBucket.

(** ** The audio bucket *)

Module CRtpAudioBucket.
Import CRtpBucket.

Definition init : t := mkBucket AUDIO_REDLINE_BYTES 0 [].

Section bucket.
Context (pk : Z -> CRtpPacket.t).

(** The loop that removes old packets: over [m_packets], from [m_totalBytes] *)
Fixpoint removeOld (redline total : Z) (packets : list Z) (rc : gmap Z nat) : option (Z * list Z * gmap Z nat) :=
  if total >=? redline then
    match packets with
    | [] => None
    | p :: packets' =>
        rc' ← Release p rc;
        removeOld redline (u64 (total - CRtpPacket.GetPayloadSize (pk p))) packets' rc'
    end
  else Some (total, packets, rc).

(** [PushBackAddRef] *)
Definition PushBackAddRef (packet : Z) (b : t) (rc : gmap Z nat) : option (bool * t * gmap Z nat) :=
  if packet =? NULL then Some (false, b, rc) else
  '(total, packets, rc) ← removeOld (m_redlineBytes b) (m_totalBytes b) (m_packets b) rc;
  rc ← AddRef packet rc;
  Some (true, mkBucket (m_redlineBytes b) (u64 (total + CRtpPacket.GetPayloadSize (pk packet)))
                (packets ++ [packet]), rc).

(** [PopFrontRelease]: the same as the plain bucket's *)
Definition PopFrontRelease (packet : Z) (b : t) (rc : gmap Z nat) : option (t * gmap Z nat) :=
  if (packet =? NULL) || (m_totalBytes b =? 0) then Some (b, rc) else
  match m_packets b with
  | [] => None
  | p :: packets =>
      if negb (packet =? p) then Some (b, rc) else
      rc ← Release packet rc;
      Some (mkBucket (m_redlineBytes b) (u64 (m_totalBytes b - CRtpPacket.GetPayloadSize (pk packet))) packets, rc)
  end.

End bucket.
End CRtpAudioBucket.

(** ** The video bucket *)

Module CRtpVideoBucket.

(** [RTP_VIDEO_FRAME] *)
Record frame := mkFrame { keyFrame : bool; bucket : CRtpBucket.t }.

(** [CRtpVideoBucket]; a NULL frame is [None] *)
Record t := mkVideo {
  m_redlineBytes : Z;
  m_redlineFrames : Z;
  m_totalBytes : Z;
  m_totalFrames : Z;
  m_waitingFrame : option frame;
  m_frames : list frame;
  m_sendingFrame : option frame;
  m_needKeyFrame : bool;
  m_nextSeq : Z;
  m_ssrc : Z
}.

Definition init : t := mkVideo VIDEO_REDLINE_BYTES VIDEO_REDLINE_FRAMES 0 0 None [] None true 0 0.

(** Assignments to groups of fields. *)
Definition setTotals (bytes frames : Z) (v : t) : t :=
  mkVideo (m_redlineBytes v) (m_redlineFrames v) bytes frames (m_waitingFrame v) (m_frames v) (m_sendingFrame v)
    (m_needKeyFrame v) (m_nextSeq v) (m_ssrc v).
Definition setWaiting (w : option frame) (v : t) : t :=
  mkVideo (m_redlineBytes v) (m_redlineFrames v) (m_totalBytes v) (m_totalFrames v) w (m_frames v) (m_sendingFrame v)
    (m_needKeyFrame v) (m_nextSeq v) (m_ssrc v).
Definition setQueue (frames : list frame) (sending : option frame) (v : t) : t :=
  mkVideo (m_redlineBytes v) (m_redlineFrames v) (m_totalBytes v) (m_totalFrames v) (m_waitingFrame v) frames sending
    (m_needKeyFrame v) (m_nextSeq v) (m_ssrc v).
Definition setSync (need : bool) (seq ssrc : Z) (v : t) : t :=
  mkVideo (m_redlineBytes v) (m_redlineFrames v) (m_totalBytes v) (m_totalFrames v) (m_waitingFrame v) (m_frames v)
    (m_sendingFrame v) need seq ssrc.

(** [delete frame]: the destructor of its bucket releases the packets *)
Definition deleteFrame (f : frame) (rc : gmap Z nat) : option (gmap Z nat) :=
  '(_, rc) ← CRtpBucket.Reset (bucket f) rc; Some rc.
Definition deleteFrameOpt (f : option frame) (rc : gmap Z nat) : option (gmap Z nat) :=
  match f with Some f => deleteFrame f rc | None => Some rc end.
Fixpoint deleteFrames (l : list frame) (rc : gmap Z nat) : option (gmap Z nat) :=
  match l with [] => Some rc | f :: l => rc ← deleteFrame f rc; deleteFrames l rc end.

Definition GetTotalBytes (v : t) : Z := m_totalBytes v.

(** The next frame to send becomes [m_sendingFrame]. *)
Definition nextFrame (v : t) : option (Z * t) :=
  match m_frames v with
  | [] => Some (NULL, v)
  | f :: frames => packet ← CRtpBucket.GetFront (bucket f); Some (packet, setQueue frames (Some f) v)
  end.

(** [GetFront] *)
Definition GetFront (v : t) (rc : gmap Z nat) : option (Z * t * gmap Z nat) :=
  match m_sendingFrame v with
  | Some f =>
      packet ← CRtpBucket.GetFront (bucket f);
      if negb (packet =? NULL) then Some (packet, v, rc) else
      rc ← deleteFrame f rc;
      '(packet, v) ← nextFrame (setTotals (m_totalBytes v) (u64 (m_totalFrames v - 1)) (setQueue (m_frames v) None v));
      Some (packet, v, rc)
  | None => '(packet, v) ← nextFrame v; Some (packet, v, rc)
  end.

(** [m_totalBytes -= m_waitingFrame->bucket.GetTotalBytes(); delete m_waitingFrame; ...] *)
Definition dropWaiting (f : frame) (v : t) (rc : gmap Z nat) : option (t * gmap Z nat) :=
  rc ← deleteFrame f rc;
  Some (setWaiting None (setTotals (u64 (m_totalBytes v - CRtpBucket.GetTotalBytes (bucket f)))
                           (u64 (m_totalFrames v - 1)) v), rc).

(** ... and [m_needKeyFrame = true] *)
Definition resync (v : t) : t := setSync true (m_nextSeq v) (m_ssrc v) v.

(** The loop that removes old frames. *)
Fixpoint removeOld (frames : list frame) (bytes count : Z) (rc : gmap Z nat) : option (Z * Z * gmap Z nat) :=
  match frames with
  | [] => Some (bytes, count, rc)
  | f :: frames =>
      rc ← deleteFrame f rc;
      removeOld frames (u64 (bytes - CRtpBucket.GetTotalBytes (bucket f))) (u64 (count - 1)) rc
  end.

Section bucket.
Context (pk : Z -> CRtpPacket.t).

(** Part 1, the synchronization point: [None] is [return (false)] *)
Definition synchronize (packet : Z) (v : t) : option t :=
  let start := CRtpPacket.GetKeyFrame (pk packet) && CRtpPacket.GetFirstPacketOfFrame (pk packet) in
  if m_needKeyFrame v && negb start then None else
  let need := false in
  Some (if start then setSync need (CRtpPacket.GetSequence (pk packet)) (CRtpPacket.GetSsrc (pk packet)) v
        else setSync need (m_nextSeq v) (m_ssrc v) v).

(** Part 4, the frame the packet goes to; [None] inside is [return (false)] after a resynchronization *)
Definition openFrame (packet : Z) (v : t) (rc : gmap Z nat) : option (option frame * t * gmap Z nat) :=
  if CRtpPacket.GetFirstPacketOfFrame (pk packet) then
    '(v, rc) ← match m_waitingFrame v with Some f => dropWaiting f v rc | None => Some (v, rc) end;
    let f := mkFrame (CRtpPacket.GetKeyFrame (pk packet)) CRtpBucket.init in
    Some (Some f, setWaiting (Some f) (setTotals (m_totalBytes v) (u64 (m_totalFrames v + 1)) v), rc)
  else
    match m_waitingFrame v with
    | None => Some (None, resync v, rc)
    | Some f => Some (Some f, v, rc)
    end.

(** Parts 5 to 8, with the waiting frame [f] *)
Definition closeFrame (packet : Z) (f : frame) (v : t) (rc : gmap Z nat) : option (bool * t * gmap Z nat) :=
  if negb (CRtpPacket.GetMarker (pk packet)) then
    if CRtpBucket.GetTotalBytes (bucket f) >=? MAX_FRAME_BYTES then
      '(v, rc) ← dropWaiting f v rc; Some (false, resync v, rc)
    else Some (true, v, rc)
  else if negb (keyFrame f) then
    if (m_totalBytes v <=? m_redlineBytes v) && (m_totalFrames v <=? m_redlineFrames v) then
      Some (true, setWaiting None (setQueue (m_frames v ++ [f]) (m_sendingFrame v) v), rc)
    else
      '(v, rc) ← dropWaiting f v rc; Some (false, resync v, rc)
  else
    '(bytes, count, rc) ← removeOld (m_frames v) (m_totalBytes v) (m_totalFrames v) rc;
    Some (true, setWaiting None (setQueue [f] (m_sendingFrame v) (setTotals bytes count v)), rc).

(** [PushBackAddRef] *)
Definition PushBackAddRef (packet : Z) (v : t) (rc : gmap Z nat) : option (bool * t * gmap Z nat) :=
  if packet =? NULL then Some (false, v, rc) else
  match synchronize packet v with
  | None => Some (false, v, rc)
  | Some v =>
      '(f, v, rc) ← openFrame packet v rc;
      match f with
      | None => Some (false, v, rc)
      | Some f =>
          '(_, b, rc) ← CRtpBucket.PushBackAddRef pk packet (bucket f) rc;
          let f := mkFrame (keyFrame f) b in
          let v := setWaiting (Some f)
                     (setTotals (u64 (m_totalBytes v + CRtpPacket.GetPayloadSize (pk packet))) (m_totalFrames v) v) in
          closeFrame packet f v rc
      end
  end.

(** [PopFrontRelease] *)
Definition PopFrontRelease (packet : Z) (v : t) (rc : gmap Z nat) : option (t * gmap Z nat) :=
  if packet =? NULL then Some (v, rc) else
  match m_sendingFrame v with
  | None => Some (v, rc)
  | Some f =>
      front ← CRtpBucket.GetFront (bucket f);
      if negb (packet =? front) then Some (v, rc) else
      let v := setTotals (u64 (m_totalBytes v - CRtpPacket.GetPayloadSize (pk packet))) (m_totalFrames v) v in
      '(b, rc) ← CRtpBucket.PopFrontRelease pk packet (bucket f) rc;
      let f := mkFrame (keyFrame f) b in
      front ← CRtpBucket.GetFront b;
      if front =? NULL then
        rc ← deleteFrame f rc;
        Some (setTotals (m_totalBytes v) (u64 (m_totalFrames v - 1)) (setQueue (m_frames v) None v), rc)
      else Some (setQueue (m_frames v) (Some f) v, rc)
  end.

End bucket.

(** [Reset] *)
Definition Reset (v : t) (rc : gmap Z nat) : option (t * gmap Z nat) :=
  rc ← deleteFrameOpt (m_waitingFrame v) rc;
  rc ← deleteFrames (m_frames v) rc;
  rc ← deleteFrameOpt (m_sendingFrame v) rc;
  Some (mkVideo (m_redlineBytes v) (m_redlineFrames v) 0 0 None [] None true 0 0, rc).

Definition SetRedline (redlineBytes redlineFrames : Z) (v : t) : t :=
  mkVideo (if redlineBytes >? 0 then redlineBytes else m_redlineBytes v)
    (if redlineFrames >? 0 then redlineFrames else m_redlineFrames v) (m_totalBytes v) (m_totalFrames v)
    (m_waitingFrame v) (m_frames v) (m_sendingFrame v) (m_needKeyFrame v) (m_nextSeq v) (m_ssrc v).
Definition GetRedline (v : t) : Z * Z := (m_redlineBytes v, m_redlineFrames v).
Definition GetFlowctrlInfo (v : t) : Z * Z := (m_totalBytes v, m_totalFrames v).

End CRtpVideoBucket.

(** ** Queues of packets

    A plain or audio bucket is a queue of packets that it weighs. *)

Module BucketSpec.
Import CRtpBucket.

Section spec.
Context (pk : Z -> CRtpPacket.t).
Local Abbreviation size p := (CRtpPacket.GetPayloadSize (pk p)).

Definition total (q : list Z) : Z := foldr (fun p n => size p + n) 0 q.

(** The oldest go until the rest is below the redline. *)
Fixpoint dropOld (redline : Z) (q : list Z) : list Z :=
  match q with
  | [] => []
  | _ :: q' => if total q >=? redline then dropOld redline q' else q
  end.

Inductive op := OPush (p : Z) | OPop (p : Z) | OReset | OSetRedline (bytes frames : Z).

(** The queue and its redline. *)
Definition specStep (audio : bool) (s : Z * list Z) (o : op) : Z * list Z :=
  let '(redline, q) := s in
  match o with
  | OPush p =>
      if p =? NULL then s else
      if audio then (redline, dropOld redline q ++ [p]) else
      if total q >=? redline then s else (redline, q ++ [p])
  | OPop p => match q with p' :: q' => if p =? p' then (redline, q') else s | [] => s end
  | OReset => (redline, [])
  | OSetRedline bytes _ => (if bytes >? 0 then bytes else redline, q)
  end.

Definition exec (audio : bool) (o : op) (b : t) (rc : gmap Z nat) : option (t * gmap Z nat) :=
  match o with
  | OPush p =>
      '(_, b, rc) ← (if audio then CRtpAudioBucket.PushBackAddRef pk p b rc else PushBackAddRef pk p b rc);
      Some (b, rc)
  | OPop p => if audio then CRtpAudioBucket.PopFrontRelease pk p b rc else PopFrontRelease pk p b rc
  | OReset => Reset b rc
  | OSetRedline bytes frames => Some (SetRedline bytes frames b, rc)
  end.
Fixpoint execAll (audio : bool) (ops : list op) (b : t) (rc : gmap Z nat) : option (t * gmap Z nat) :=
  match ops with [] => Some (b, rc) | o :: ops => '(b, rc) ← exec audio o b rc; execAll audio ops b rc end.

End spec.
#[global] Arguments total : simpl never.
End BucketSpec.

Module BucketLemmas.
Import CRtpBucket BucketSpec.

Section lemmas.
Context (pk : Z -> CRtpPacket.t) (Hsize : forall p, 0 < CRtpPacket.GetPayloadSize (pk p) <= MAX_PAYLOAD_SIZE).
Local Abbreviation size p := (CRtpPacket.GetPayloadSize (pk p)).
Local Abbreviation total := (BucketSpec.total pk).

Lemma total_cons p q : total (p :: q) = size p + total q.
Proof. done. Qed.
Lemma total_app q q' : total (q ++ q') = total q + total q'.
Proof. induction q as [|p q IH]; [done|]. cbn [app]. rewrite !total_cons, IH. lia. Qed.
Lemma total_nonneg q : 0 <= total q.
Proof. induction q as [|p q IH]; [done|]. rewrite total_cons. pose proof (Hsize p). lia. Qed.
Lemma total_zero q : total q = 0 <-> q = [].
Proof.
  destruct q as [|p q]; [done|]. rewrite total_cons. pose proof (Hsize p). pose proof (total_nonneg q).
  split; [lia|done].
Qed.

(** The bucket's count is the weight of its packets. *)
Definition weighed (b : t) : Prop := m_totalBytes b = total (m_packets b) /\ m_totalBytes b < 2 ^ 63.

Lemma weighed_init redline : weighed (mkBucket redline 0 []).
Proof. done. Qed.

Lemma weighed_front b : weighed b -> GetFront b = Some (match m_packets b with p :: _ => p | [] => NULL end).
Proof.
  intros [Hw _]. unfold GetFront. destruct (Z.eqb_spec (m_totalBytes b) 0) as [E|E].
  - rewrite Hw in E. apply total_zero in E as ->. done.
  - destruct (m_packets b) as [|p q] eqn:Eq; [|done]. by rewrite Hw in E.
Qed.

Lemma push_ok ext rest p b rc : weighed b -> m_redlineBytes b <= 2 ^ 62 -> p <> NULL -> (0 < ext p + occ p (m_packets b ++ rest))%nat ->
  rc_ok ext (m_packets b ++ rest) rc ->
  exists b' rc', PushBackAddRef pk p b rc = Some (negb (m_totalBytes b >=? m_redlineBytes b), b', rc') /\
    b' = (if m_totalBytes b >=? m_redlineBytes b then b
          else mkBucket (m_redlineBytes b) (m_totalBytes b + size p) (m_packets b ++ [p])) /\
    weighed b' /\ rc_ok ext (m_packets b' ++ rest) rc'.
Proof.
  intros [Hw Hb] Hr Hp Ha Hrc. unfold PushBackAddRef. rewrite (proj2 (Z.eqb_neq _ _) Hp). pose proof (Hsize p) as Hs.
  unfold MAX_PAYLOAD_SIZE in Hs. destruct (Z.geb_spec (m_totalBytes b) (m_redlineBytes b)) as [E|E].
  - exists b, rc. by split_and!.
  - destruct (AddRef_ok ext _ rc p Hrc Ha) as (rc' & -> & Hrc'). cbn [mbind option_bind negb].
    pose proof (total_nonneg (m_packets b)). rewrite wrap_small by lia.
    do 2 eexists. split; [done|]. split; [done|].
    split; [split; cbn; [rewrite total_app, total_cons; change (total []) with 0; lia|lia]|].
    eapply rc_ok_perm; [|exact Hrc']. solve_Permutation.
Qed.

Lemma pop_ok ext rest p b rc : weighed b -> p <> NULL -> head (m_packets b) = Some p ->
  rc_ok ext (m_packets b ++ rest) rc ->
  exists b' rc', PopFrontRelease pk p b rc = Some (b', rc') /\
    b' = mkBucket (m_redlineBytes b) (m_totalBytes b - size p) (tail (m_packets b)) /\
    weighed b' /\ rc_ok ext (m_packets b' ++ rest) rc'.
Proof.
  intros [Hw Hb] Hp Hh Hrc. unfold PopFrontRelease. rewrite (proj2 (Z.eqb_neq _ _) Hp). cbn [orb].
  destruct (m_packets b) as [|p' q] eqn:Eq; [done|]. injection Hh as ->. rewrite total_cons in Hw.
  pose proof (Hsize p). pose proof (total_nonneg q).
  destruct (Z.eqb_spec (m_totalBytes b) 0); [lia|]. rewrite Z.eqb_refl. cbn [negb].
  destruct (Release_ok ext (q ++ rest) rc p Hrc) as (rc' & -> & Hrc'). cbn [mbind option_bind].
  rewrite wrap_small by lia. do 2 eexists. split; [done|]. split; [done|]. by split; [split; cbn; lia|].
Qed.

Lemma pop_other p b rc : weighed b -> p = NULL \/ head (m_packets b) <> Some p -> PopFrontRelease pk p b rc = Some (b, rc).
Proof.
  intros [Hw Hb] Hp. unfold PopFrontRelease. destruct (Z.eqb_spec p NULL) as [->|]; [done|]. destruct Hp as [?|Hp]; [done|].
  destruct (Z.eqb_spec (m_totalBytes b) 0) as [E|E]; [done|]. cbn [orb].
  destruct (m_packets b) as [|p' q]; [by rewrite Hw in E|]. destruct (Z.eqb_spec p p') as [->|]; [by destruct Hp|done].
Qed.

Lemma reset_ok ext rest b rc : rc_ok ext (m_packets b ++ rest) rc ->
  exists rc', Reset b rc = Some (mkBucket (m_redlineBytes b) 0 [], rc') /\ rc_ok ext rest rc'.
Proof.
  intros Hrc. unfold Reset. destruct (ReleaseAll_ok _ _ _ _ Hrc) as (rc' & -> & Hrc'). by exists rc'.
Qed.

(** The audio bucket's loop ends with the packets that [dropOld] keeps. *)
Lemma removeOld_ok ext redline q : forall rc, 0 < redline -> total q < 2 ^ 63 -> rc_ok ext q rc ->
  exists rc', CRtpAudioBucket.removeOld pk redline (total q) q rc = Some (total (dropOld pk redline q), dropOld pk redline q, rc') /\
    rc_ok ext (dropOld pk redline q) rc'.
Proof.
  induction q as [|p q IH]; intros rc Hr Hb Hrc; cbn [CRtpAudioBucket.removeOld dropOld].
  - destruct (Z.geb_spec (total []) redline) as [E|E]; [change (total []) with 0 in E; lia|]. by exists rc.
  - destruct (total (p :: q) >=? redline); [|by exists rc]. destruct (Release_ok ext q rc p Hrc) as (rc1 & -> & Hrc1).
    cbn [mbind option_bind]. rewrite total_cons in *. pose proof (Hsize p). pose proof (total_nonneg q).
    replace (size p + total q - size p) with (total q) by lia. rewrite wrap_small by lia. apply IH; [done|lia|done].
Qed.

Lemma dropOld_spec redline q : 0 < redline -> exists old, q = old ++ dropOld pk redline q /\ total (dropOld pk redline q) < redline.
Proof.
  intros Hr. induction q as [|p q (old & E & Hlt)]; cbn [dropOld]; [by exists []|].
  destruct (Z.geb_spec (total (p :: q)) redline); [exists (p :: old); split; [by rewrite E at 1|done]|by exists []].
Qed.

End lemmas.
End BucketLemmas.

Module BucketTheorems.
Import CRtpBucket BucketSpec BucketLemmas.

Definition init (audio : bool) : t := if audio then CRtpAudioBucket.init else CRtpBucket.init.

(** The pushed packets belong to somebody, the redlines are at most [R]. *)
Definition okOp (ext : Z -> nat) (R : Z) (o : op) : Prop :=
  match o with OPush p => p = NULL \/ (0 < ext p)%nat | OSetRedline bytes _ => bytes <= R | _ => True end.

Section steps.
Context (pk : Z -> CRtpPacket.t) (Hsize : forall p, 0 < CRtpPacket.GetPayloadSize (pk p) <= MAX_PAYLOAD_SIZE).
Context (ext : Z -> nat) (R : Z) (HR : R <= 2 ^ 62).
Local Abbreviation total := (BucketSpec.total pk).

Record good (b : t) (rc : gmap Z nat) : Prop := mkGood {
  gd_weighed : weighed pk b;
  gd_redline : 0 < m_redlineBytes b <= R;
  gd_bound : m_totalBytes b < R + MAX_PAYLOAD_SIZE;
  gd_refs : rc_ok ext (m_packets b ++ []) rc;
  gd_null : NULL ∉ m_packets b
}.

Lemma exec_push audio p b rc : good b rc -> p = NULL \/ (0 < ext p)%nat ->
  exists b' rc', exec pk audio (OPush p) b rc = Some (b', rc') /\ good b' rc' /\
    (m_redlineBytes b', m_packets b') = specStep pk audio (m_redlineBytes b, m_packets b) (OPush p).
Proof.
  intros [Hw Hr Hb Hrc Hnn] Hp. cbn [exec specStep]. destruct (Z.eqb_spec p NULL) as [->|Hne].
  { exists b, rc. by destruct audio. }
  destruct Hp as [?|Hp]; [done|]. pose proof (Hsize p) as Hs.
  assert (Hsnoc : forall q, NULL ∉ q -> NULL ∉ q ++ [p]).
  { intros q Hq [?|[?|?%not_elem_of_nil]%elem_of_cons]%elem_of_app; [done|by destruct Hne|done]. }
  destruct audio.
  - unfold CRtpAudioBucket.PushBackAddRef. rewrite (proj2 (Z.eqb_neq _ _) Hne). destruct Hw as [Hw Hlt].
    rewrite app_nil_r in Hrc. rewrite Hw in *.
    destruct (removeOld_ok pk Hsize ext (m_redlineBytes b) (m_packets b) rc) as (rc1 & -> & Hrc1); [lia|lia|done|].
    cbn [mbind option_bind]. destruct (dropOld_spec pk (m_redlineBytes b) (m_packets b)) as (old & Eold & Hd); [lia|].
    set (q := dropOld pk (m_redlineBytes b) (m_packets b)) in *. pose proof (total_nonneg pk Hsize q).
    destruct (AddRef_ok ext q rc1 p Hrc1) as (rc2 & -> & Hrc2); [lia|]. cbn [mbind option_bind].
    unfold MAX_PAYLOAD_SIZE in *. rewrite wrap_small by lia. do 2 eexists. split; [done|].
    assert (E : total q + CRtpPacket.GetPayloadSize (pk p) = total (q ++ [p])) by (rewrite total_app, total_cons; change (total []) with 0; lia).
    split; [split|done]; cbn [m_totalBytes m_redlineBytes m_packets]; unfold MAX_PAYLOAD_SIZE; try lia.
    + by split; cbn; lia.
    + rewrite app_nil_r. eapply rc_ok_perm; [|exact Hrc2]. solve_Permutation.
    + apply Hsnoc. rewrite Eold in Hnn. intros ?. apply Hnn, elem_of_app. by right.
  - destruct (push_ok pk Hsize ext [] p b rc Hw) as (b' & rc' & E & Eb & Hw' & Hrc'); [lia|done|lia|done|].
    destruct Hw as [Hw Hlt]. rewrite E. cbn [mbind option_bind]. rewrite Hw in Eb. exists b', rc'. split; [done|].
    subst b'. destruct (Z.geb_spec (total (m_packets b)) (m_redlineBytes b)); [by split|].
    split; [split|done]; cbn [m_totalBytes m_redlineBytes m_packets] in *; try done; [lia|by apply Hsnoc].
Qed.

Lemma exec_pop audio p b rc : good b rc -> exists b' rc', exec pk audio (OPop p) b rc = Some (b', rc') /\ good b' rc' /\
  (m_redlineBytes b', m_packets b') = specStep pk audio (m_redlineBytes b, m_packets b) (OPop p).
Proof.
  intros H. assert (E : exec pk audio (OPop p) b rc = PopFrontRelease pk p b rc) by (by destruct audio).
  rewrite E. cbn [specStep]. destruct H as [Hw Hr Hb Hrc Hnn].
  destruct (decide (head (m_packets b) = Some p)) as [Hh|Hh].
  - destruct (m_packets b) as [|p' q] eqn:Eq; [done|]. injection Hh as ->. rewrite Z.eqb_refl.
    assert (Hp : p <> NULL) by (intros ->; apply Hnn; left).
    destruct (pop_ok pk Hsize ext [] p b rc) as (b' & rc' & -> & -> & Hw' & Hrc'); [done|done|by rewrite Eq|by rewrite Eq|].
    rewrite Eq in *. do 2 eexists. split; [done|]. pose proof (Hsize p).
    split; [split|done]; cbn [m_totalBytes m_redlineBytes m_packets tail] in *; try done; [lia|].
    intros ?. apply Hnn. by right.
  - exists b, rc. rewrite (pop_other pk) by (done || by right). split; [done|]. split; [done|].
    destruct (m_packets b) as [|p' q]; [done|]. destruct (Z.eqb_spec p p') as [->|]; [by destruct Hh|done].
Qed.

Lemma exec_ok audio o b rc : good b rc -> okOp ext R o -> exists b' rc', exec pk audio o b rc = Some (b', rc') /\ good b' rc' /\
  (m_redlineBytes b', m_packets b') = specStep pk audio (m_redlineBytes b, m_packets b) o.
Proof.
  intros H Ho. destruct o as [p|p| |bytes frames].
  - by apply exec_push.
  - by apply exec_pop.
  - destruct H as [Hw Hr Hb Hrc Hnn]. cbn [exec specStep].
    destruct (reset_ok ext [] b rc Hrc) as (rc' & -> & Hrc'). do 2 eexists. split; [done|].
    split; [|done]. split; cbn; try done; [unfold MAX_PAYLOAD_SIZE; lia|]. apply not_elem_of_nil.
  - cbn [exec specStep] in *. do 2 eexists. split; [done|]. unfold SetRedline. rewrite Z.gtb_ltb.
    destruct (Z.ltb_spec 0 bytes); [|done]. destruct H as [Hw Hr Hb Hrc Hnn]. split; [by split|done].
Qed.

Lemma execAll_ok audio ops : forall b rc, good b rc -> Forall (okOp ext R) ops ->
  exists b' rc', execAll pk audio ops b rc = Some (b', rc') /\ good b' rc' /\
    (m_redlineBytes b', m_packets b') = fold_left (specStep pk audio) ops (m_redlineBytes b, m_packets b).
Proof.
  induction ops as [|o ops IH]; intros b rc H Ho; [by exists b, rc|]. apply Forall_cons in Ho as [Ho Hos].
  cbn [execAll fold_left]. destruct (exec_ok audio o b rc H Ho) as (b1 & rc1 & -> & H1 & E1). cbn [mbind option_bind].
  destruct (IH b1 rc1 H1 Hos) as (b' & rc' & -> & H' & E'). exists b', rc'. by rewrite E', E1.
Qed.

End steps.

(** C29: Every sequence of operations on a plain or an audio bucket ends (the audio
    bucket's removal loop stops before the queue is empty) and leaves the queue that the
    policy says: a full plain bucket refuses, an audio bucket drops as many of the oldest
    packets as it takes to get below the redline.  The byte count is the weight of the
    queue, below the redline plus one packet, and each queued packet has one reference. *)
Theorem bucket_correct pk ext R audio ops rc :
  (forall p, 0 < CRtpPacket.GetPayloadSize (pk p) <= MAX_PAYLOAD_SIZE) ->
  m_redlineBytes (init audio) <= R <= 2 ^ 62 -> Forall (okOp ext R) ops -> rc_ok ext [] rc ->
  let '(redline, q) := fold_left (specStep pk audio) ops (m_redlineBytes (init audio), []) in
  exists rc', execAll pk audio ops (init audio) rc = Some (mkBucket redline (total pk q) q, rc') /\
    GetFront (mkBucket redline (total pk q) q) = Some (default NULL (head q)) /\
    total pk q < R + MAX_PAYLOAD_SIZE /\ rc_ok ext q rc'.
Proof.
  intros Hsize HR Hops Hrc.
  assert (H : good pk ext R (init audio) rc).
  { destruct audio; split; cbn in *; try done; try apply not_elem_of_nil;
      unfold MAX_PAYLOAD_SIZE, AUDIO_REDLINE_BYTES, BASE_REDLINE_BYTES in *; lia. }
  assert (Hq : m_packets (init audio) = []) by (by destruct audio).
  destruct (execAll_ok pk Hsize ext R (proj2 HR) audio ops _ _ H Hops) as (b & rc' & E & [Hw _ Hb Hrc' _] & Es).
  rewrite Hq in Es. rewrite <- Es. exists rc'. pose proof Hw as [Hw' _]. rewrite <- Hw'.
  assert (Eb : mkBucket (m_redlineBytes b) (m_totalBytes b) (m_packets b) = b) by (by destruct b). rewrite Eb.
  rewrite app_nil_r in Hrc'. split_and!; [done| |lia|done]. rewrite (weighed_front pk Hsize b Hw). by destruct (m_packets b).
Qed.

(** A packet of 4000 bytes. *)
Definition demoPacket : CRtpPacket.t :=
  default (CRtpPacket.mkPacket [] 0 8 0) (CRtpPacket.CreateInstanceSize 4000 (Some (replicate 4040 0))).
Definition demoOps : list op := [OPush 1; OPush 2; OPush 3; OPush 4; OPop 2].

(** The fourth packet makes the first go. *)
Lemma bucket_correct_witness : exists rc', execAll (fun _ => demoPacket) true demoOps (init true) {[ 1 := 1%nat; 2 := 1%nat; 3 := 1%nat; 4 := 1%nat ]} =
    Some (mkBucket 8192 8000 [3; 4], rc') /\ 8000 < 8192 + MAX_PAYLOAD_SIZE.
Proof.
  set (rc := {[ 1 := 1%nat; 2 := 1%nat; 3 := 1%nat; 4 := 1%nat ]} : gmap Z nat).
  set (ext := fun p => default 0%nat (rc !! p)).
  assert (Hs : forall p : Z, 0 < CRtpPacket.GetPayloadSize ((fun _ : Z => demoPacket) p) <= MAX_PAYLOAD_SIZE)
    by (intros _; by vm_compute).
  assert (Ho : Forall (okOp ext 8192) demoOps) by (repeat constructor; right; vm_compute; lia).
  assert (Hr : rc_ok ext [] rc).
  { intros p. unfold ext. rewrite Nat.add_0_r. destruct (rc !! p) as [n|] eqn:E; [|done]. cbn.
    rewrite decide_False; [done|]. intros ->. unfold rc in E.
    repeat (apply lookup_insert_Some in E as [[_ ?]|[_ E]]; [done|]). by apply lookup_singleton_Some in E as [_ ?]. }
  pose proof (bucket_correct (fun _ => demoPacket) ext 8192 true demoOps rc Hs ltac:(by vm_compute) Ho Hr) as H.
  assert (E : fold_left (specStep (fun _ => demoPacket) true) demoOps (m_redlineBytes (init true), []) = (8192, [3; 4]))
    by (vm_compute; reflexivity).
  rewrite E in H. destruct H as (rc' & H1 & _ & H3 & _). exists rc'.
  assert (Et : total (fun _ => demoPacket) [3; 4] = 8000) by (vm_compute; reflexivity). rewrite Et in H1, H3.
  split; [exact H1|exact H3].
Defined.

End BucketTheorems.

(** ** Frames

    The producer pushes its frames packet by packet, a session takes packets from the
    front.  [produced] are the frames that were pushed completely, [cur] the packets of the
    one that is being pushed, [taken] the packets that were taken. *)

Module VideoRun.
Import CRtpVideoBucket BucketSpec BucketLemmas.

Section run.
Context (pk : Z -> CRtpPacket.t).

Definition isFirst (p : Z) : bool := CRtpPacket.GetFirstPacketOfFrame (pk p).
Definition isLast (p : Z) : bool := CRtpPacket.GetMarker (pk p).
Definition isKey (q : list Z) : bool := match q with p :: _ => CRtpPacket.GetKeyFrame (pk p) | [] => false end.

Record world := mkWorld {
  video : t;
  refs : gmap Z nat;
  cur : list Z;
  produced : list (list Z);
  taken : list Z
}.

Inductive event := EPush (p : Z) | ETake | ESetRedline (bytes frames : Z).

Definition exec (e : event) (w : world) : option world :=
  match e with
  | EPush p =>
      '(_, v, rc) ← PushBackAddRef pk p (video w) (refs w);
      Some (if isLast p then mkWorld v rc [] (produced w ++ [cur w ++ [p]]) (taken w)
            else mkWorld v rc (cur w ++ [p]) (produced w) (taken w))
  | ETake =>
      '(p, v, rc) ← GetFront (video w) (refs w);
      '(v, rc) ← PopFrontRelease pk p v rc;
      Some (mkWorld v rc (cur w) (produced w) (if p =? NULL then taken w else taken w ++ [p]))
  | ESetRedline bytes frames => Some (mkWorld (SetRedline bytes frames (video w)) (refs w) (cur w) (produced w) (taken w))
  end.

(** The producer marks the first packet of a frame and no other; packets have a holder
    ([ext]), redlines are at most [R], frames stay below [BASE_REDLINE_BYTES] before
    their last packet (see [big_frame]). *)
Definition enabled (ext : Z -> nat) (R : Z) (e : event) (w : world) : Prop :=
  match e with
  | EPush p => p <> NULL /\ (0 < ext p)%nat /\ isFirst p = bool_decide (cur w = []) /\ total pk (cur w) < BASE_REDLINE_BYTES
  | ETake => True
  | ESetRedline bytes _ => bytes <= R
  end.

Inductive reachable (ext : Z -> nat) (R : Z) : world -> Prop :=
  | reach_init rc : rc_ok ext [] rc -> reachable ext R (mkWorld init rc [] [] [])
  | reach_step w e w' : reachable ext R w -> enabled ext R e w -> exec e w = Some w' -> reachable ext R w'.

(** *** Which frames are kept

    A history is the frames of the producer, each with whether it was kept. *)

Definition kept (h : list (list Z * bool)) : list (list Z) := fst <$> filter (fun e => snd e = true) h.

(** A frame that is kept is a key frame, or the one before it is kept. *)
Fixpoint linked (prev : bool) (h : list (list Z * bool)) : Prop :=
  match h with
  | [] => True
  | (q, b) :: h => (b = true -> isKey q = true \/ prev = true) /\ linked b h
  end.
Fixpoint lastKept (prev : bool) (h : list (list Z * bool)) : bool :=
  match h with [] => prev | (_, b) :: h => lastKept b h end.

Lemma linked_app prev h h' : linked prev (h ++ h') <-> linked prev h /\ linked (lastKept prev h) h'.
Proof. revert prev. induction h as [|[q b] h IH]; intros prev; cbn; [tauto|]. rewrite IH. tauto. Qed.
Lemma lastKept_snoc prev h q b : lastKept prev (h ++ [(q, b)]) = b.
Proof. revert prev. induction h as [|[q' b'] h IH]; intros prev; [done|]. apply IH. Qed.
Lemma kept_app h h' : kept (h ++ h') = kept h ++ kept h'.
Proof. unfold kept. by rewrite filter_app, fmap_app. Qed.

Definition forget (h : list (list Z * bool)) : list (list Z * bool) := (fun e => (fst e, false)) <$> h.
Lemma kept_forget h : kept (forget h) = [].
Proof. induction h as [|[q b] h IH]; [done|]. unfold kept, forget in *. cbn. apply IH. Qed.
Lemma fst_forget h : fst <$> forget h = fst <$> h.
Proof. unfold forget. rewrite <- list_fmap_compose. done. Qed.
Lemma linked_forget prev h : linked prev (forget h).
Proof. revert prev. induction h as [|[q b] h IH]; intros prev; [done|]. split; [done|apply IH]. Qed.

(** *** The invariant *)

Definition pkts (f : frame) : list Z := CRtpBucket.m_packets (bucket f).
Definition all (v : t) : list frame := option_list (m_waitingFrame v) ++ m_frames v ++ option_list (m_sendingFrame v).
Definition flat (l : list frame) : list Z := concat (pkts <$> l).
Definition LIMIT : Z := BASE_REDLINE_BYTES + MAX_PAYLOAD_SIZE.

Definition fine (f : frame) : Prop :=
  weighed pk (bucket f) /\ CRtpBucket.m_redlineBytes (bucket f) = BASE_REDLINE_BYTES /\ total pk (pkts f) <= LIMIT.

Record sound (ext : Z -> nat) (R : Z) (v : t) (rc : gmap Z nat) : Prop := mkSound {
  so_fine : Forall fine (all v);
  so_full : Forall (fun f => pkts f <> []) (m_frames v ++ option_list (m_sendingFrame v));
  so_null : NULL ∉ flat (all v);
  so_bytes : m_totalBytes v = total pk (flat (all v));
  so_frames : m_totalFrames v = Z.of_nat (length (all v));
  so_bound : total pk (flat (m_frames v ++ option_list (m_sendingFrame v))) <= R + 2 * LIMIT;
  so_redline : 0 < m_redlineBytes v <= R;
  so_refs : rc_ok ext (flat (all v)) rc
}.

Record queued (v : t) (w : world) (last : bool) : Prop := mkQueued {
  qu_hist : exists h1 h2, produced w = fst <$> (h1 ++ h2) /\ linked false (h1 ++ h2) /\
    concat (kept h1) = taken w ++ flat (option_list (m_sendingFrame v)) /\ kept h2 = pkts <$> m_frames v /\
    last = lastKept false (h1 ++ h2)
}.

(** The waiting frame is what was pushed of the current one; without one the rest of the
    current frame is skipped, or nothing was pushed of it. *)
Definition phase (v : t) (cur : list Z) (last : bool) : Prop :=
  match m_waitingFrame v with
  | Some f => m_needKeyFrame v = false /\ pkts f = cur /\ cur <> [] /\ keyFrame f = isKey cur /\
      (keyFrame f = false -> last = true)
  | None => m_needKeyFrame v = false -> cur = [] /\ last = true
  end.

Record Inv (ext : Z -> nat) (R : Z) (w : world) : Prop := mkInv {
  iv_sound : sound ext R (video w) (refs w);
  iv_rest : exists last, queued (video w) w last /\ phase (video w) (cur w) last
}.

End run.
End VideoRun.

Module VideoLemmas.
Import CRtpVideoBucket BucketSpec BucketLemmas VideoRun.

Section lemmas.
Context (pk : Z -> CRtpPacket.t) (Hsize : forall p, 0 < CRtpPacket.GetPayloadSize (pk p) <= MAX_PAYLOAD_SIZE).
Context (ext : Z -> nat) (R : Z) (HR : R <= 2 ^ 62).
Local Abbreviation size p := (CRtpPacket.GetPayloadSize (pk p)).
Local Abbreviation total := (BucketSpec.total pk).
Local Abbreviation sound := (VideoRun.sound pk ext R).

Lemma flat_app l l' : flat (l ++ l') = flat l ++ flat l'.
Proof. unfold flat. by rewrite fmap_app, concat_app. Qed.
Lemma flat_cons f l : flat (f :: l) = pkts f ++ flat l.
Proof. done. Qed.
Lemma flat_opt f : flat (option_list (Some f)) = pkts f.
Proof. unfold flat. cbn. apply app_nil_r. Qed.
Lemma flat_perm l l' : l ≡ₚ l' -> flat l ≡ₚ flat l'.
Proof.
  intros H. unfold flat. induction H as [|f l l' _ IH|f g l|l l' l'' _ IH1 _ IH2]; cbn; [done|by rewrite IH| |by rewrite IH1].
  rewrite !app_assoc. by rewrite (Permutation_app_comm (pkts f)).
Qed.
Lemma total_perm q q' : q ≡ₚ q' -> total q = total q'.
Proof. induction 1 as [|p q q' _ IH|p p' q|q q' q'' _ IH1 _ IH2]; rewrite ?total_cons; lia. Qed.

Lemma length_flat l : Forall (fun f => pkts f <> []) l -> Z.of_nat (length l) <= total (flat l).
Proof.
  induction 1 as [|f l Hf _ IH]; [done|]. rewrite flat_cons, (total_app pk). cbn [length].
  destruct (pkts f) as [|p q]; [done|]. rewrite total_cons. pose proof (Hsize p). pose proof (total_nonneg pk Hsize q). lia.
Qed.

Lemma sound_bounds v rc : sound v rc -> 0 <= m_totalBytes v < 2 ^ 63 /\ 0 <= m_totalFrames v < 2 ^ 63.
Proof.
  intros H. rewrite (so_bytes _ _ _ _ _ H), (so_frames _ _ _ _ _ H). pose proof (so_bound _ _ _ _ _ H) as Hb.
  pose proof (length_flat _ (so_full _ _ _ _ _ H)) as Hl. pose proof (so_fine _ _ _ _ _ H) as Hf. unfold all in *.
  rewrite flat_app, total_app, length_app. pose proof (total_nonneg pk Hsize (flat (m_frames v ++ option_list (m_sendingFrame v)))).
  apply Forall_app in Hf as [Hw _]. unfold LIMIT, BASE_REDLINE_BYTES, MAX_PAYLOAD_SIZE in *.
  destruct (m_waitingFrame v) as [f|].
  - apply Forall_cons in Hw as [(_ & _ & Hw) _]. rewrite flat_opt. pose proof (total_nonneg pk Hsize (pkts f)).
    unfold LIMIT, BASE_REDLINE_BYTES, MAX_PAYLOAD_SIZE in Hw. change (option_list (Some f)) with [f]. cbn [length]. lia.
  - change (total (flat (option_list None))) with 0. change (length (@option_list frame None)) with 0%nat. lia.
Qed.

Lemma deleteFrame_ok rest f rc : rc_ok ext (pkts f ++ rest) rc ->
  exists rc', deleteFrame f rc = Some rc' /\ rc_ok ext rest rc'.
Proof.
  intros Hrc. unfold deleteFrame. destruct (reset_ok ext rest (bucket f) rc Hrc) as (rc' & -> & Hrc').
  by exists rc'.
Qed.

Lemma removeFrames_ok rest frames : forall bytes count rc, Forall (fine pk) frames ->
  0 <= bytes -> 0 <= count -> bytes + total (flat frames) < 2 ^ 63 -> count + Z.of_nat (length frames) < 2 ^ 63 ->
  rc_ok ext (flat frames ++ rest) rc ->
  exists rc', removeOld frames (bytes + total (flat frames)) (count + Z.of_nat (length frames)) rc = Some (bytes, count, rc') /\
    rc_ok ext rest rc'.
Proof.
  induction frames as [|f frames IH]; intros bytes count rc Hf Hb Hc H1 H2 Hrc; cbn [removeOld length].
  - change (total (flat [])) with 0. rewrite !Z.add_0_r. by exists rc.
  - apply Forall_cons in Hf as [((Hw & _) & _) Hf]. rewrite flat_cons, <- app_assoc in Hrc.
    destruct (deleteFrame_ok _ f rc Hrc) as (rc1 & -> & Hrc1). cbn [mbind option_bind].
    unfold CRtpBucket.GetTotalBytes. rewrite Hw. fold (pkts f). rewrite flat_cons, total_app in *. cbn [length] in H2.
    pose proof (total_nonneg pk Hsize (flat frames)). pose proof (total_nonneg pk Hsize (pkts f)).
    replace (bytes + (total (pkts f) + total (flat frames)) - total (pkts f)) with (bytes + total (flat frames)) by lia.
    replace (count + Z.of_nat (S (length frames)) - 1) with (count + Z.of_nat (length frames)) by lia.
    rewrite !wrap_small by lia. apply IH; done || lia.
Qed.

(** The rest, without the waiting frame. *)
Definition rest (v : t) : list frame := m_frames v ++ option_list (m_sendingFrame v).

Lemma all_waiting v f : m_waitingFrame v = Some f -> all v = f :: rest v.
Proof. unfold all, rest. by intros ->. Qed.
Lemma all_idle v : m_waitingFrame v = None -> all v = rest v.
Proof. unfold all, rest. by intros ->. Qed.

Lemma dropWaiting_ok v rc f : sound v rc -> m_waitingFrame v = Some f -> exists rc',
  dropWaiting f v rc = Some (setWaiting None (setTotals (total (flat (rest v))) (Z.of_nat (length (rest v))) v), rc') /\
  sound (setWaiting None (setTotals (total (flat (rest v))) (Z.of_nat (length (rest v))) v)) rc'.
Proof.
  intros H Hw. pose proof (sound_bounds v rc H) as [Hb1 Hb2]. destruct H as [S1 S2 S3 S4 S5 S6 S7 S8].
  rewrite (all_waiting v f Hw) in *. rewrite flat_cons in *. unfold dropWaiting.
  destruct (deleteFrame_ok _ f rc S8) as (rc' & -> & Hrc'). cbn [mbind option_bind]. exists rc'.
  apply Forall_cons in S1 as [((Hwt & _) & _) S1]. unfold CRtpBucket.GetTotalBytes. rewrite Hwt. fold (pkts f).
  rewrite S4, S5 in *. rewrite total_app in *. cbn [length] in *. pose proof (total_nonneg pk Hsize (pkts f)).
  pose proof (total_nonneg pk Hsize (flat (rest v))).
  replace (total (pkts f) + total (flat (rest v)) - total (pkts f)) with (total (flat (rest v))) by lia.
  replace (Z.of_nat (S (length (rest v))) - 1) with (Z.of_nat (length (rest v))) by lia.
  rewrite !wrap_small by lia. split; [done|].
  split; cbn [m_totalBytes m_totalFrames m_frames m_sendingFrame m_redlineBytes setWaiting setTotals]; try done.
  intros Hn. apply S3. apply elem_of_app. by right.
Qed.

(** A new frame. *)
Lemma newFrame_ok v rc k : sound v rc -> m_waitingFrame v = None ->
  sound (setWaiting (Some (mkFrame k CRtpBucket.init)) (setTotals (m_totalBytes v) (u64 (m_totalFrames v + 1)) v)) rc.
Proof.
  intros H Hw. pose proof (sound_bounds v rc H) as [_ Hb]. destruct H as [S1 S2 S3 S4 S5 S6 S7 S8].
  rewrite (all_idle v Hw) in *. rewrite wrap_small by lia.
  assert (E : flat (mkFrame k CRtpBucket.init :: rest v) = flat (rest v)) by done.
  split; cbn [m_totalBytes m_totalFrames m_frames m_sendingFrame m_redlineBytes setWaiting setTotals]; try done;
    rewrite (all_waiting _ (mkFrame k CRtpBucket.init)) by done;
    change (rest (setWaiting _ (setTotals _ _ v))) with (rest v); rewrite ?E; try done.
  - constructor; [|done]. by split_and!.
  - rewrite S5. cbn [length]. lia.
Qed.

(** A packet for the waiting frame. *)
Lemma pushWaiting_ok v rc f p : sound v rc -> m_waitingFrame v = Some f -> total (pkts f) < BASE_REDLINE_BYTES ->
  p <> NULL -> (0 < ext p)%nat ->
  exists b rc', CRtpBucket.PushBackAddRef pk p (bucket f) rc = Some (true, b, rc') /\
    pkts (mkFrame (keyFrame f) b) = pkts f ++ [p] /\
    sound (setWaiting (Some (mkFrame (keyFrame f) b)) (setTotals (u64 (m_totalBytes v + size p)) (m_totalFrames v) v)) rc'.
Proof.
  intros H Hw Ht Hp Hext. pose proof (sound_bounds v rc H) as [Hb _]. destruct H as [S1 S2 S3 S4 S5 S6 S7 S8].
  rewrite (all_waiting v f Hw) in *. apply Forall_cons in S1 as [(Hwt & Hre & Hl) S1]. rewrite flat_cons in *.
  pose proof (Hsize p) as Hs. unfold MAX_PAYLOAD_SIZE in Hs.
  destruct (push_ok pk Hsize ext (flat (rest v)) p (bucket f) rc) as (b & rc' & E & Eb & Hwb & Hrc');
    [done|rewrite Hre; done|done|lia|done|].
  pose proof Hwt as [Hwt1 _]. fold (pkts f) in Hwt1.
  assert (Hlt : (CRtpBucket.m_totalBytes (bucket f) >=? CRtpBucket.m_redlineBytes (bucket f)) = false).
  { rewrite Z.geb_leb, Z.leb_gt, Hre. lia. }
  rewrite Hlt in E, Eb. exists b, rc'. split; [done|].
  assert (Epk : pkts (mkFrame (keyFrame f) b) = pkts f ++ [p]) by (by rewrite Eb). split; [done|].
  rewrite wrap_small by lia.
  assert (Hperm : flat (mkFrame (keyFrame f) b :: rest v) ≡ₚ p :: pkts f ++ flat (rest v)).
  { rewrite flat_cons, Epk. solve_Permutation. }
  split; cbn [m_totalBytes m_totalFrames m_frames m_sendingFrame m_redlineBytes setWaiting setTotals]; try done;
    rewrite (all_waiting _ (mkFrame (keyFrame f) b)) by done;
    change (rest (setWaiting _ (setTotals _ _ v))) with (rest v); try done.
  - constructor; [|done]. split_and!; [done|by rewrite Eb|].
    rewrite Epk, (total_app pk), total_cons. change (total []) with 0. unfold LIMIT, MAX_PAYLOAD_SIZE. lia.
  - rewrite Hperm. intros [?|?]%elem_of_cons; [by destruct Hp|done].
  - rewrite (total_perm _ _ Hperm), total_cons, S4. lia.
Qed.

(** A complete frame joins the queue. *)
Lemma enqueue_ok v rc f : sound v rc -> m_waitingFrame v = Some f -> pkts f <> [] -> m_totalBytes v <= R + 2 * LIMIT ->
  sound (setWaiting None (setQueue (m_frames v ++ [f]) (m_sendingFrame v) v)) rc.
Proof.
  intros [S1 S2 S3 S4 S5 S6 S7 S8] Hw Hf Hb.
  assert (Hall : all v ≡ₚ all (setWaiting None (setQueue (m_frames v ++ [f]) (m_sendingFrame v) v))).
  { rewrite (all_waiting v f Hw). unfold all, rest. cbn. solve_Permutation. }
  pose proof (flat_perm _ _ Hall) as Hflat.
  split; cbn [m_totalBytes m_totalFrames m_frames m_sendingFrame m_redlineBytes setWaiting setQueue]; try done.
  - by rewrite <- Hall.
  - apply Forall_app in S2 as [S2 S2']. apply Forall_app. split; [|done]. apply Forall_app. by repeat constructor.
  - by rewrite <- Hflat.
  - by rewrite <- (total_perm _ _ Hflat).
  - by rewrite <- (Permutation_length Hall).
  - change ((m_frames v ++ [f]) ++ option_list (m_sendingFrame v)) with
      (all (setWaiting None (setQueue (m_frames v ++ [f]) (m_sendingFrame v) v))).
    by rewrite <- (total_perm _ _ Hflat), <- S4.
  - by apply (rc_ok_perm _ _ _ _ Hflat).
Qed.

(** A complete key frame replaces the queue. *)
Lemma replaceQueue_ok v rc f : sound v rc -> m_waitingFrame v = Some f -> pkts f <> [] ->
  exists bytes count rc', removeOld (m_frames v) (m_totalBytes v) (m_totalFrames v) rc = Some (bytes, count, rc') /\
    sound (setWaiting None (setQueue [f] (m_sendingFrame v) (setTotals bytes count v))) rc'.
Proof.
  intros H Hw Hf. pose proof (sound_bounds v rc H) as [Hb1 Hb2]. destruct H as [S1 S2 S3 S4 S5 S6 S7 S8].
  set (other := f :: option_list (m_sendingFrame v)).
  assert (Hall : all v ≡ₚ m_frames v ++ other) by (rewrite (all_waiting v f Hw); unfold rest, other; solve_Permutation).
  pose proof (flat_perm _ _ Hall) as Hflat. rewrite flat_app in Hflat. pose proof (total_perm _ _ Hflat) as Ht.
  rewrite total_app in Ht. pose proof (total_nonneg pk Hsize (flat other)). rewrite Hall in S1. apply Forall_app in S1 as [Hfr Hot].
  pose proof (Permutation_length Hall) as Hlen. rewrite length_app in Hlen.
  destruct (removeFrames_ok (flat other) (m_frames v) (total (flat other)) (Z.of_nat (length other)) rc) as (rc' & E & Hrc');
    [done|lia|lia|lia|lia|by apply (rc_ok_perm _ _ _ _ Hflat)|].
  replace (total (flat other) + total (flat (m_frames v))) with (m_totalBytes v) in E by lia.
  replace (Z.of_nat (length other) + Z.of_nat (length (m_frames v))) with (m_totalFrames v) in E by lia.
  do 3 eexists. split; [exact E|].
  apply Forall_app in S2 as [_ S2].
  split; cbn [m_totalBytes m_totalFrames m_frames m_sendingFrame m_redlineBytes setWaiting setQueue setTotals]; try done.
  - by constructor.
  - rewrite Hflat in S3. intros Hn. apply S3. apply elem_of_app. by right.
  - change ([f] ++ option_list (m_sendingFrame v)) with other. unfold other. rewrite flat_cons, total_app.
    apply Forall_cons in Hot as [(_ & _ & Hl) Hot]. destruct (m_sendingFrame v) as [g|].
    + apply Forall_cons in Hot as [(_ & _ & Hg) _]. rewrite flat_opt. lia.
    + change (total (flat (option_list None))) with 0. pose proof (total_nonneg pk Hsize (pkts f)). lia.
Qed.

(** *** The history *)

Local Abbreviation queued := (VideoRun.queued pk).

Lemma queued_same v w last v' w' : queued v w last -> m_frames v' = m_frames v -> m_sendingFrame v' = m_sendingFrame v ->
  produced w' = produced w -> taken w' = taken w -> queued v' w' last.
Proof. intros [(h1 & h2 & H)] E1 E2 E3 E4. split. exists h1, h2. by rewrite E1, E2, E3, E4. Qed.

(** A frame that is not kept. *)
Lemma queued_skip v w last v' w' q : queued v w last -> m_frames v' = m_frames v -> m_sendingFrame v' = m_sendingFrame v ->
  produced w' = produced w ++ [q] -> taken w' = taken w -> queued v' w' false.
Proof.
  intros [(h1 & h2 & H1 & H2 & H3 & H4 & H5)] E1 E2 E3 E4. split. exists h1, (h2 ++ [(q, false)]).
  rewrite E1, E2, E3, E4, H1, app_assoc. rewrite linked_app, lastKept_snoc, kept_app, H4.
  split; [by rewrite !fmap_app|]. split; [by cbn|]. split; [done|]. split; [by rewrite app_nil_r|done].
Qed.

(** A frame at the end of the queue. *)
Lemma queued_keep v w last v' w' f q : queued v w last -> m_frames v' = m_frames v ++ [f] -> m_sendingFrame v' = m_sendingFrame v ->
  pkts f = q -> isKey pk q = true \/ last = true ->
  produced w' = produced w ++ [q] -> taken w' = taken w -> queued v' w' true.
Proof.
  intros [(h1 & h2 & H1 & H2 & H3 & H4 & H5)] E1 E2 Eq Hk E3 E4. split. exists h1, (h2 ++ [(q, true)]).
  rewrite E1, E2, E3, E4, H1, app_assoc. rewrite linked_app, lastKept_snoc, kept_app, H4. subst last.
  split; [by rewrite !fmap_app|]. split; [by cbn|]. split; [done|]. split; [|done]. rewrite fmap_app. cbn. by rewrite Eq.
Qed.

(** A key frame instead of the queue. *)
Lemma queued_replace v w last v' w' f q : queued v w last -> m_frames v' = [f] -> m_sendingFrame v' = m_sendingFrame v ->
  pkts f = q -> isKey pk q = true ->
  produced w' = produced w ++ [q] -> taken w' = taken w -> queued v' w' true.
Proof.
  intros [(h1 & h2 & H1 & H2 & H3 & H4 & H5)] E1 E2 Eq Hk E3 E4. split. exists h1, (forget h2 ++ [(q, true)]).
  rewrite E1, E2, E3, E4, H1, app_assoc. rewrite !linked_app in *. rewrite lastKept_snoc, kept_app, kept_forget.
  destruct H2 as [H2 _]. split; [by rewrite !fmap_app, fst_forget|].
  split; [split; [split; [done|apply linked_forget]|by cbn; auto]|]. split; [done|]. split; [|done]. cbn. by rewrite Eq.
Qed.

(** A frame moves to the front. *)
Lemma queued_next v w last v' f l : queued v w last -> m_sendingFrame v = None -> m_frames v = f :: l ->
  m_frames v' = l -> m_sendingFrame v' = Some f -> queued v' w last.
Proof.
  intros [(h1 & h2 & H1 & H2 & H3 & H4 & H5)] E1 E2 E3 E4. split.
  assert (Hsplit : exists h2a h2b, h2 = h2a ++ h2b /\ kept h2a = [pkts f] /\ kept h2b = pkts <$> l).
  { rewrite E2 in H4. clear -H4. induction h2 as [|[q b] h2 IH]; [done|]. unfold kept in *. rewrite filter_cons in H4.
    cbn [snd] in H4. destruct b; cbn in H4.
    - injection H4 as -> H4. exists [(pkts f, true)], h2. by split_and!.
    - destruct (IH H4) as (h2a & h2b & -> & Ha & Hb). exists ((q, false) :: h2a), h2b.
      split_and!; [done| |done]. by rewrite filter_cons_False by done. }
  destruct Hsplit as (h2a & h2b & -> & Ha & Hb). exists (h1 ++ h2a), h2b. rewrite <- app_assoc, E3, E4.
  split_and!; try done. rewrite kept_app, concat_app, H3, E1, Ha.
  change (flat (option_list None)) with (@nil Z). by rewrite flat_opt, app_nil_r; cbn; rewrite app_nil_r.
Qed.

(** *** Closing a frame *)

Lemma closeFrame_ok v rc f p cur w last : sound v rc -> m_waitingFrame v = Some f -> pkts f = cur ++ [p] ->
  keyFrame f = isKey pk (cur ++ [p]) -> (keyFrame f = false -> last = true) -> m_needKeyFrame v = false ->
  queued v w last ->
  exists ok v' rc', closeFrame pk p f v rc = Some (ok, v', rc') /\
    Inv pk ext R (if isLast pk p then mkWorld v' rc' [] (produced w ++ [cur ++ [p]]) (taken w)
                  else mkWorld v' rc' (cur ++ [p]) (produced w) (taken w)).
Proof.
  intros H Hw Hf Hk Hl Hn Hq. assert (Hne : pkts f <> []) by (rewrite Hf; by destruct cur).
  pose proof (so_fine _ _ _ _ _ H) as Hfine. rewrite (all_waiting v f Hw) in Hfine.
  apply Forall_cons in Hfine as [(Hwt & _ & Hlim) _]. unfold closeFrame, isLast.
  destruct (CRtpPacket.GetMarker (pk p)); cbn [negb].
  2: { unfold CRtpBucket.GetTotalBytes. rewrite (proj1 Hwt). fold (pkts f).
    destruct (Z.geb_spec (total (pkts f)) MAX_FRAME_BYTES) as [Hm|_].
    { exfalso. change MAX_FRAME_BYTES with 3110400 in Hm. change LIMIT with 1113088 in Hlim. lia. }
    do 3 eexists. split; [done|]. split; [done|]. exists last. split; [by eapply queued_same|].
    unfold phase. cbn [video VideoRun.cur]. rewrite Hw. by split_and!; [|done|by destruct cur|..]. }
  destruct (keyFrame f) eqn:Hkf; cbn [negb].
  - destruct (replaceQueue_ok v rc f H Hw Hne) as (bytes & count & rc' & -> & Hs). cbn [mbind option_bind].
    do 3 eexists. split; [done|]. split; [exact Hs|]. exists true.
    split; [by eapply (queued_replace v w last _ _ f)|]. by intros _.
  - destruct ((m_totalBytes v <=? m_redlineBytes v) && (m_totalFrames v <=? m_redlineFrames v)) eqn:E.
    + apply andb_prop in E as [E _]. apply Z.leb_le in E. pose proof (so_redline _ _ _ _ _ H).
      assert (0 <= LIMIT) by done. do 3 eexists. split; [done|]. split; [apply enqueue_ok; try done; lia|].
      exists true. split; [|by intros _]. eapply (queued_keep v w last _ _ f); try done. right. by apply Hl.
    + destruct (dropWaiting_ok v rc f H Hw) as (rc' & -> & Hs). cbn [mbind option_bind].
      do 3 eexists. split; [done|]. split; [by destruct Hs|]. exists false.
      split; [by eapply (queued_skip v w last)|done].
Qed.

(** *** The events *)

Lemma sound_sync v rc need seq ssrc : sound v rc -> sound (setSync need seq ssrc v) rc.
Proof. intros H. by destruct H. Qed.

(** The packet opens a frame or goes on with it. *)
Lemma push_open v rc p w last : sound v rc -> queued v w last -> phase pk v (cur w) last ->
  p <> NULL -> (0 < ext p)%nat -> isFirst pk p = bool_decide (cur w = []) -> total (cur w) < BASE_REDLINE_BYTES ->
  match synchronize pk p v with
  | None => m_waitingFrame v = None /\ m_needKeyFrame v = true
  | Some v1 => exists f v2, openFrame pk p v1 rc = Some (Some f, v2, rc) /\ sound v2 rc /\ queued v2 w last /\
      m_waitingFrame v2 = Some f /\ pkts f = cur w /\ keyFrame f = isKey pk (cur w ++ [p]) /\
      (keyFrame f = false -> last = true) /\ m_needKeyFrame v2 = false
  end.
Proof.
  intros H Hq Hph Hp Hext Hfirst Ht. unfold synchronize, isFirst in *.
  destruct (m_needKeyFrame v && negb (CRtpPacket.GetKeyFrame (pk p) && CRtpPacket.GetFirstPacketOfFrame (pk p))) eqn:E.
  { apply andb_prop in E as [E _]. unfold phase in Hph. destruct (m_waitingFrame v); [|done]. destruct Hph; congruence. }
  set (v1 := if _ && _ then _ else _).
  assert (Hv1 : exists seq ssrc, v1 = setSync false seq ssrc v) by (unfold v1; case_match; by do 2 eexists).
  destruct Hv1 as (seq & ssrc & ->). pose proof (sound_sync v rc false seq ssrc H) as H1. unfold openFrame. rewrite Hfirst in *.
  destruct (bool_decide_reflect (cur w = [])) as [Hc|Hc].
  - assert (Hw : m_waitingFrame v = None).
    { unfold phase in Hph. destruct (m_waitingFrame v); [|done]. by destruct Hph as (_ & _ & ? & _). }
    cbn [m_waitingFrame setSync]. rewrite Hw. cbn [mbind option_bind]. do 2 eexists. split; [done|].
    split; [by apply newFrame_ok|]. split; [by eapply queued_same|]. rewrite Hc. split_and!; try done.
    intros Hk. cbn in Hk. rewrite Hk in E. rewrite andb_true_r in E. unfold phase in Hph. rewrite Hw in Hph. by apply Hph.
  - rewrite andb_false_r, andb_true_r in E. unfold phase in Hph. cbn [m_waitingFrame setSync].
    destruct (m_waitingFrame v) as [f|] eqn:Ew; [|by destruct (Hph E)]. destruct Hph as (_ & Hpk & _ & Hkf & Hl).
    do 2 eexists. split; [done|]. split_and!; try done; [by eapply queued_same|]. rewrite Hkf. by destruct (cur w).
Qed.

Lemma push_event p w : Inv pk ext R w -> enabled pk ext R (EPush p) w ->
  exists w', exec pk (EPush p) w = Some w' /\ Inv pk ext R w'.
Proof.
  intros [H (last & Hq & Hph)] (Hp & Hext & Hfirst & Ht). cbn [exec]. unfold PushBackAddRef.
  rewrite (proj2 (Z.eqb_neq _ _) Hp). pose proof (push_open _ _ p w last H Hq Hph Hp Hext Hfirst Ht) as Ho.
  destruct (synchronize pk p (video w)) as [v1|].
  - destruct Ho as (f & v2 & E & H2 & Hq2 & Hw & Hf & Hk & Hl & Hn). rewrite E. cbn [mbind option_bind].
    destruct (pushWaiting_ok v2 (refs w) f p H2 Hw) as (b & rc' & -> & Epk & H3); [by rewrite Hf|done|done|].
    cbn [mbind option_bind].
    match goal with |- context [closeFrame pk p ?f' ?v' rc'] =>
      destruct (closeFrame_ok v' rc' f' p (cur w) w last) as (ok & v4 & rc4 & -> & Hi) end;
      [done|done|by rewrite Epk, Hf|done|done|done|by eapply queued_same|].
    cbn [mbind option_bind]. eexists. split; [done|exact Hi].
  - destruct Ho as [Hw Hn]. cbn [mbind option_bind]. eexists. split; [done|].
    assert (Hph' : forall c l, phase pk (video w) c l) by (intros c l; unfold phase; rewrite Hw, Hn; done).
    destruct (isLast pk p); (split; [done|]).
    + exists false. split; [by eapply queued_skip|apply Hph'].
    + exists last. split; [by eapply queued_same|apply Hph'].
Qed.

(** All frames but the sending one. *)
Definition others (v : t) : list frame := option_list (m_waitingFrame v) ++ m_frames v.

Lemma all_others v : all v ≡ₚ option_list (m_sendingFrame v) ++ others v.
Proof. unfold all, others. solve_Permutation. Qed.

(** The sending frame without its first packet. *)
Lemma sound_sending v rc f p q v' rc' : sound v rc -> m_sendingFrame v = Some f -> pkts f = p :: q ->
  others v' = others v -> m_frames v' = m_frames v -> m_redlineBytes v' = m_redlineBytes v ->
  flat (option_list (m_sendingFrame v')) = q ->
  Forall (fun g => fine pk g /\ pkts g <> []) (option_list (m_sendingFrame v')) ->
  m_totalBytes v' = m_totalBytes v - size p ->
  m_totalFrames v' = m_totalFrames v - 1 + Z.of_nat (length (option_list (m_sendingFrame v'))) ->
  rc_ok ext (q ++ flat (others v)) rc' -> sound v' rc'.
Proof.
  intros [S1 S2 S3 S4 S5 S6 S7 S8] Hs Hf Eo Efr Ere Eq Hg Eb Ec Hrc.
  pose proof (all_others v) as Ha. pose proof (all_others v') as Ha'. rewrite Eo in Ha'. rewrite Hs in Ha.
  change (option_list (Some f) ++ others v) with (f :: others v) in Ha.
  pose proof (flat_perm _ _ Ha) as Hfl. rewrite flat_cons, Hf in Hfl.
  pose proof (flat_perm _ _ Ha') as Hfl'. rewrite flat_app, Eq in Hfl'.
  apply Forall_and in Hg as [Hg1 Hg2]. rewrite Ha in S1. apply Forall_cons in S1 as [_ S1].
  split.
  - rewrite Ha'. by apply Forall_app.
  - rewrite Efr. apply Forall_app in S2 as [S2 _]. by apply Forall_app.
  - rewrite Hfl'. intros Hn. apply S3. rewrite Hfl. by right.
  - rewrite Eb, S4, (total_perm _ _ Hfl), (total_perm _ _ Hfl'). cbn [app]. rewrite total_cons. lia.
  - rewrite Ec, S5, (Permutation_length Ha), (Permutation_length Ha'), length_app. cbn [length]. lia.
  - rewrite Efr, flat_app, total_app, Eq. rewrite flat_app, total_app, Hs, flat_opt, Hf, total_cons in S6. pose proof (Hsize p). lia.
  - by rewrite Ere.
  - by apply (rc_ok_perm _ _ _ _ (symmetry Hfl')).
Qed.

(** The first packet of the sending frame is taken. *)
Lemma pop_sending v rc f p q : sound v rc -> m_sendingFrame v = Some f -> pkts f = p :: q ->
  exists v' rc', PopFrontRelease pk p v rc = Some (v', rc') /\ sound v' rc' /\ m_frames v' = m_frames v /\
    flat (option_list (m_sendingFrame v')) = q /\ m_waitingFrame v' = m_waitingFrame v /\ m_needKeyFrame v' = m_needKeyFrame v.
Proof.
  intros H Hs Hf. pose proof (sound_bounds v rc H) as [Hb1 Hb2]. pose proof (Hsize p) as Hp.
  pose proof (all_others v) as Ha. rewrite Hs in Ha. change (option_list (Some f) ++ others v) with (f :: others v) in Ha.
  pose proof (flat_perm _ _ Ha) as Hfl. rewrite flat_cons, Hf in Hfl.
  assert (Hnull : NULL ∉ p :: q).
  { intros Hn. apply (so_null _ _ _ _ _ H). rewrite Hfl. apply elem_of_app. by left. }
  assert (Hpn : p <> NULL) by (intros ->; apply Hnull; left).
  pose proof (so_fine _ _ _ _ _ H) as Hfine. rewrite Ha in Hfine. apply Forall_cons in Hfine as [(Hw & Hred & Hlim) _].
  assert (Hrc : rc_ok ext (CRtpBucket.m_packets (bucket f) ++ flat (others v)) rc).
  { fold (pkts f). rewrite Hf. apply (rc_ok_perm _ _ _ _ Hfl), H. }
  assert (Hbytes : size p <= m_totalBytes v).
  { rewrite (so_bytes _ _ _ _ _ H), (total_perm _ _ Hfl). cbn [app]. rewrite total_cons.
    pose proof (total_nonneg pk Hsize (q ++ flat (others v))). lia. }
  assert (Hcount : 1 <= m_totalFrames v) by (rewrite (so_frames _ _ _ _ _ H), (Permutation_length Ha); cbn [length]; lia).
  unfold PopFrontRelease. rewrite (proj2 (Z.eqb_neq _ _) Hpn), Hs, (weighed_front pk Hsize _ Hw). fold (pkts f).
  rewrite Hf. cbn [mbind option_bind]. rewrite Z.eqb_refl. cbn [negb].
  destruct (pop_ok pk Hsize ext (flat (others v)) p (bucket f) rc) as (b & rc1 & -> & Eb & Hwb & Hrc1);
    [done|done|fold (pkts f); by rewrite Hf|done|]. cbn [mbind option_bind].
  rewrite (weighed_front pk Hsize b Hwb). cbn [mbind option_bind].
  assert (Epk : CRtpBucket.m_packets b = q) by (rewrite Eb; cbn; fold (pkts f); by rewrite Hf). rewrite Epk in *.
  rewrite !(wrap_small 64) by lia. cbn [m_totalFrames setTotals].
  destruct q as [|p' q].
  - rewrite Z.eqb_refl.
    destruct (deleteFrame_ok (flat (others v)) (mkFrame (keyFrame f) b) rc1) as (rc' & -> & Hrc'); [by unfold pkts; cbn; rewrite Epk|].
    cbn [mbind option_bind]. rewrite (wrap_small 64) by lia. do 2 eexists. split; [done|]. split; [|done].
    eapply (sound_sending v rc f p []); try done. cbn. lia.
  - assert (Hp' : p' <> NULL) by (intros ->; apply Hnull; right; left). rewrite (proj2 (Z.eqb_neq _ _) Hp').
    do 2 eexists. split; [done|].
    assert (Epk' : pkts (mkFrame (keyFrame f) b) = p' :: q) by done.
    split; [|by rewrite <- Epk', <- flat_opt].
    eapply (sound_sending v rc f p (p' :: q)); try done.
    + by rewrite <- Epk', <- flat_opt.
    + constructor; [|constructor]. rewrite Epk'. split; [|done]. split_and!; [done|by rewrite Eb|]. rewrite Epk'.
      rewrite Hf, total_cons in Hlim. lia.
    + cbn. lia.
Qed.

(** A frame moves to the front. *)
Lemma sound_next v rc f l : sound v rc -> m_sendingFrame v = None -> m_frames v = f :: l -> sound (setQueue l (Some f) v) rc.
Proof.
  intros [S1 S2 S3 S4 S5 S6 S7 S8] Hs Hf. set (v' := setQueue l (Some f) v).
  assert (Hr : m_frames v ++ option_list (m_sendingFrame v) ≡ₚ m_frames v' ++ option_list (m_sendingFrame v')).
  { rewrite Hs, Hf. cbn. solve_Permutation. }
  assert (Ha : all v ≡ₚ all v') by (unfold all; by rewrite Hr). pose proof (flat_perm _ _ Ha) as Hfl.
  split; try done.
  - by rewrite <- Ha.
  - by rewrite <- Hr.
  - by rewrite <- Hfl.
  - by rewrite <- (total_perm _ _ Hfl).
  - by rewrite <- (Permutation_length Ha).
  - by rewrite <- (total_perm _ _ (flat_perm _ _ Hr)).
  - by apply (rc_ok_perm _ _ _ _ Hfl).
Qed.

(** Taking a packet when a frame is being sent. *)
Lemma take_sending v rc f w last : sound v rc -> queued v w last -> phase pk v (cur w) last -> m_sendingFrame v = Some f ->
  exists p v' rc', CRtpBucket.GetFront (bucket f) = Some p /\ p <> NULL /\ PopFrontRelease pk p v rc = Some (v', rc') /\
    Inv pk ext R (mkWorld v' rc' (cur w) (produced w) (taken w ++ [p])).
Proof.
  intros H Hq Hph Hs. pose proof (so_full _ _ _ _ _ H) as Hfull. pose proof (so_fine _ _ _ _ _ H) as Hfine.
  pose proof (so_null _ _ _ _ _ H) as Hn. rewrite (all_others v), Hs in Hfine. apply Forall_cons in Hfine as [(Hw & _) _].
  apply Forall_app in Hfull as [_ Hfull]. rewrite Hs in Hfull. apply Forall_cons in Hfull as [Hne _].
  destruct (pkts f) as [|p q] eqn:Ef; [done|].
  assert (Hpn : p <> NULL).
  { intros ->. apply Hn. rewrite (flat_perm _ _ (all_others v)), flat_app, Hs, flat_opt, Ef. left. }
  destruct (pop_sending v rc f p q H Hs Ef) as (v' & rc' & E & Hs' & Efr & Efl & Ew & En).
  exists p, v', rc'. split; [rewrite (weighed_front pk Hsize _ Hw); fold (pkts f); by rewrite Ef|].
  split; [done|]. split; [done|]. split; [done|]. exists last. cbn [video VideoRun.cur]. split.
  - destruct Hq as [(h1 & h2 & H1 & H2 & H3 & H4 & H5)]. split. exists h1, h2. cbn [produced taken]. rewrite Efr, Efl.
    split_and!; try done. rewrite H3, Hs, flat_opt, Ef. by rewrite <- app_assoc.
  - unfold phase in *. by rewrite Ew, En.
Qed.

Lemma take_event w : Inv pk ext R w -> exists w', exec pk ETake w = Some w' /\ Inv pk ext R w'.
Proof.
  intros [H (last & Hq & Hph)]. cbn [exec]. unfold GetFront. destruct (m_sendingFrame (video w)) as [f|] eqn:Hs.
  - destruct (take_sending _ _ f w last H Hq Hph Hs) as (p & v' & rc' & Ef & Hp & E & Hi). rewrite Ef. cbn [mbind option_bind].
    rewrite (proj2 (Z.eqb_neq _ _) Hp). cbn [negb]. cbn [mbind option_bind]. rewrite E. cbn [mbind option_bind].
    rewrite (proj2 (Z.eqb_neq _ _) Hp). eexists. split; [done|]. done.
  - unfold nextFrame. destruct (m_frames (video w)) as [|f l] eqn:Ef; cbn [mbind option_bind].
    + unfold PopFrontRelease. rewrite Z.eqb_refl. cbn [mbind option_bind]. eexists. split; [done|]. by destruct w; split; [|eauto].
    + pose proof (sound_next _ _ f l H Hs Ef) as H'.
      destruct (take_sending _ _ f w last H') as (p & v' & rc' & Ep & Hp & E & Hi); [by eapply (queued_next (video w))|done|done|].
      rewrite Ep. cbn [mbind option_bind]. rewrite E. cbn [mbind option_bind]. rewrite (proj2 (Z.eqb_neq _ _) Hp).
      eexists. split; [done|]. done.
Qed.

Lemma redline_event w bytes frames : Inv pk ext R w -> bytes <= R ->
  exists w', exec pk (ESetRedline bytes frames) w = Some w' /\ Inv pk ext R w'.
Proof.
  intros [H (last & Hq & Hph)] Hb. cbn [exec]. eexists. split; [done|]. split; cbn [video refs].
  - destruct H as [S1 S2 S3 S4 S5 S6 S7 S8]. split; try done. unfold SetRedline. cbn [m_redlineBytes].
    rewrite Z.gtb_ltb. by destruct (Z.ltb_spec 0 bytes).
  - exists last. split; [by eapply queued_same|done].
Qed.

Lemma event_ok e w : Inv pk ext R w -> enabled pk ext R e w -> exists w', exec pk e w = Some w' /\ Inv pk ext R w'.
Proof.
  intros H He. destruct e; [by apply push_event|by apply take_event|by apply redline_event].
Qed.

Lemma reachable_ok w : VIDEO_REDLINE_BYTES <= R -> reachable pk ext R w -> Inv pk ext R w.
Proof.
  intros HR'. induction 1 as [rc Hrc|w e w' _ IH He E].
  - split; cbn [video refs].
    + split; cbn; try done; [apply not_elem_of_nil|].
      assert (0 <= LIMIT) by done. unfold VIDEO_REDLINE_BYTES in *. change (total []) with 0. lia.
    + exists false. split; [|done]. split. by exists [], [].
  - destruct (event_ok e w IH He) as (w2 & E2 & H2). rewrite E in E2. by injection E2 as ->.
Qed.

End lemmas.
End VideoLemmas.

Module VideoTheorems.
Import CRtpVideoBucket BucketSpec BucketLemmas VideoRun VideoLemmas.


(** Packets of 3000 bytes: 1 is a key frame, 2 and 3 are a frame that depends on it, 4 is
    one that depends on that. *)
Definition demoPk (p : Z) : CRtpPacket.t :=
  let q := default (CRtpPacket.mkPacket [] 0 8 0) (CRtpPacket.CreateInstanceSize 3000 (Some (replicate 3040 0))) in
  CRtpPacket.SetKeyFrame (p =? 1) (CRtpPacket.SetFirstPacketOfFrame (negb (p =? 3)) (CRtpPacket.SetMarker (negb (p =? 2)) q)).
Definition demoRc : gmap Z nat := {[ 1 := 1%nat; 2 := 1%nat; 3 := 1%nat; 4 := 1%nat ]}.
Definition demoExt (p : Z) : nat := default 0%nat (demoRc !! p).

Definition next (e : event) (w : world) : world := default w (exec demoPk e w).
Definition demo0 : world := mkWorld init demoRc [] [] [].
Definition demo3 : world := next ETake (next (EPush 2) (next (EPush 1) demo0)).
(** The redline falls before the second frame is complete: it is dropped, and so is the third. *)
Definition demo6 : world := next (EPush 4) (next (EPush 3) (next (ESetRedline 4000 0) demo3)).

Lemma reach_video_next w e : reachable demoPk demoExt VIDEO_REDLINE_BYTES w -> enabled demoPk demoExt VIDEO_REDLINE_BYTES e w ->
  is_Some (exec demoPk e w) -> reachable demoPk demoExt VIDEO_REDLINE_BYTES (next e w).
Proof. intros H He [w' E]. unfold next. rewrite E. by eapply reach_step. Qed.

Lemma demo0_reachable : reachable demoPk demoExt VIDEO_REDLINE_BYTES demo0.
Proof.
  apply reach_init. intros p. unfold demoExt. rewrite Nat.add_0_r. destruct (demoRc !! p) as [n|] eqn:E; [|done]. cbn.
  rewrite decide_False; [done|]. intros ->. unfold demoRc in E.
  repeat (apply lookup_insert_Some in E as [[_ ?]|[_ E]]; [done|]). by apply lookup_singleton_Some in E as [_ ?].
Qed.

Lemma demo6_reachable : reachable demoPk demoExt VIDEO_REDLINE_BYTES demo6.
Proof.
  repeat (apply reach_video_next; [|by vm_compute|vm_compute; by eexists]). apply demo0_reachable.
Qed.

Lemma demoPk_size (p : Z) : 0 < CRtpPacket.GetPayloadSize (demoPk p) <= MAX_PAYLOAD_SIZE.
Proof. unfold demoPk. destruct (p =? 1), (p =? 2), (p =? 3); by vm_compute. Qed.


(** A frame above [BASE_REDLINE_BYTES]: its bucket refuses the rest of its packets, which
    are counted nevertheless; the count stays wrong when the bucket is empty again. *)
Definition bigPk (p : Z) : CRtpPacket.t :=
  let q := default (CRtpPacket.mkPacket [] 0 8 0) (CRtpPacket.CreateInstanceSize 64512 (Some (replicate 64552 0))) in
  CRtpPacket.SetKeyFrame true (CRtpPacket.SetFirstPacketOfFrame (p =? 1) (CRtpPacket.SetMarker (p =? 18) q)).
Definition bigEvents : list event := map (fun n => EPush (Z.of_nat n)) (seq 1 18) ++ replicate 17 ETake.
Definition bigRc : gmap Z nat := list_to_map (map (fun n => (Z.of_nat n, 1%nat)) (seq 1 18)).

Lemma big_frame :
  match foldr (fun e w => w' ← w; exec bigPk e w') (Some (mkWorld init bigRc [] [] [])) (rev bigEvents) with
  | Some w => all (video w) = [] /\ length (taken w) = 17%nat /\ m_totalBytes (video w) = 64512
  | None => False
  end.
Proof. vm_compute. by split_and!. Qed.

End VideoTheorems.
