(* ===== verification/MsgServer.v ===== *)
(** * The message server ([rtp_msg_server.cpp], [rtp_msg_command.h])

    Users log in over their own session (base users) or behind a concentrator, a c2s, whose
    session they share (sub users).  The server keeps a context for each session, found by
    the session and by each of its users, and relays messages between users.

    A context is a block at an address in [heap], shared by the two maps; [None] is
    undefined behaviour: a deleted context, a read outside of a packet.  What the server
    does to the rest of the program is a list of effects.  What comes from outside is an
    argument: the observer's answer to [OnCheckUser], the new session and context, whether
    a session takes a packet, [pbsd_inet_aton].  Allocations succeed. *)

From S2P Require Import Prelude StlMap Bytes Bsd ConfigStream MsgUser RtpPacket RtpSession.

Definition MAX_PENDING_COUNT : Z := 5000.
Definition DEFAULT_REDLINE_BYTES : Z := 1024 * 1024 * 8.
Definition ROOT_ID : RTP_MSG_USER := MsgUser.make 1 1 0.
Definition ROOT_ID_C2S : RTP_MSG_USER := MsgUser.make 1 1 65535.
Definition SERVER_CID : Z := 1.
Definition NODE_UID_MIN : Z := 1.
Definition NODE_UID_MAX : Z := Z.lor (Z.shiftl 239 32) 4294967295.
Definition NODE_UID_MAXX : Z := Z.lor (Z.shiftl 255 32) 4294967295.
Definition NODE_IID_MIN : Z := 1.

(** The bytes of the tags and messages. *)
Definition TAG_msg_name : str := [109; 115; 103; 95; 110; 97; 109; 101].
Definition TAG_client_index : str := [99; 108; 105; 101; 110; 116; 95; 105; 110; 100; 101; 120].
Definition TAG_client_id : str := [99; 108; 105; 101; 110; 116; 95; 105; 100].
Definition TAG_client_public_ip : str := [99; 108; 105; 101; 110; 116; 95; 112; 117; 98; 108; 105; 99; 95; 105; 112].
Definition TAG_client_hash_string : str :=
  [99; 108; 105; 101; 110; 116; 95; 104; 97; 115; 104; 95; 115; 116; 114; 105; 110; 103].
Definition TAG_client_nonce : str := [99; 108; 105; 101; 110; 116; 95; 110; 111; 110; 99; 101].
Definition MSG_client_login : str := [42; 42; 42; 99; 108; 105; 101; 110; 116; 95; 108; 111; 103; 105; 110].
Definition MSG_client_login_ok : str := MSG_client_login ++ [95; 111; 107].
Definition MSG_client_login_error : str := MSG_client_login ++ [95; 101; 114; 114; 111; 114].
Definition MSG_client_logout : str := [42; 42; 42; 99; 108; 105; 101; 110; 116; 95; 108; 111; 103; 111; 117; 116].
Definition MSG_client_kickout : str := [42; 42; 42; 99; 108; 105; 101; 110; 116; 95; 107; 105; 99; 107; 111; 117; 116].

(** [stricmp(a, b) == 0] *)
Definition lower (b : Z) : Z := if (65 <=? b) && (b <=? 90) then b + 32 else b.
Definition sameText (a b : str) : bool := bool_decide (map lower (cstr a) = map lower (cstr b)).

(** [MakeServerId_i], [MakeClientId_i]: the id and the counter afterwards *)
Definition MakeId (next : Z) : Z * Z :=
  let n := u64 (next + 1) in (next, if n >? Z.lor (Z.shiftl 255 32) 4294967295 then Z.shiftl 240 32 else n).

Module CRtpMsgServer.
Import MsgUser.

(** [RTP_MSG_LINK_CTX] *)
Record ctx := mkCtx {
  session : Z;
  baseUser : RTP_MSG_USER;
  subUsers : list RTP_MSG_USER;
  isC2s : bool
}.
#[export] Instance user_keyed : StlKeyed RTP_MSG_USER RTP_MSG_USER := fun u => u.

(** [RTP_MSG_AsyncOnAcceptSession] with what is used of its [RTP_SESSION_INFO] *)
Record acceptArg := mkAccept {
  sslCtx : Z;
  sockId : Z;
  remoteIp : str;
  nonce : Z;
  sessionType : Z;
  mmType : Z;
  passwordHash : list Z;
  userData : list Z        (* 64 bytes *)
}.

(** The commands of the task. *)
Inductive command :=
  | CKickout (classId userId instId : Z)
  | CAccept (arg : acceptArg)
  | CRecv (session : Z) (msgStream : CProConfigStream.t) (c2sUser : RTP_MSG_USER)
  | CClose (session errorCode sslCode : Z).

(** The command that waits for the observer's answer to [OnCheckUser]. *)
Inductive check :=
  | CheckBase (arg : acceptArg) (baseUser : RTP_MSG_USER)
  | CheckSub (session : Z) (c2sUser subUser : RTP_MSG_USER) (client_index : Z) (client_public_ip : str).

(** The answer: [userId], [instId], [appData] and [isC2s] are its output arguments. *)
Record answer := mkAnswer { accepted : bool; userId : Z; newInstId : Z; appData : Z; newIsC2s : bool }.

(** [CRtpMsgServer]: [active] is whether observer, reactor, service and task are set, as
    they are together; [heap] are the contexts; [commands] is the task's queue, [checking]
    the command that it runs, [closing] what [Fini] has taken out of [m_session2Ctx] *)
Record t := mkServer {
  m_mmType : Z;
  m_sslConfig : bool;
  m_sslForced : bool;
  active : bool;
  m_redlineBytes : Z;
  m_session2Ctx : list (Z * Z);
  m_user2Ctx : list (RTP_MSG_USER * Z);
  heap : gmap Z ctx;
  commands : list command;
  checking : option check;
  closing : list (Z * Z);
  g_s_nextServerId : Z;
  g_s_nextClientId : Z
}.

Inductive effect :=
  | Send (session : Z) (payload : list Z)                     (* [SendPacket] *)
  | CheckUser (user : RTP_MSG_USER) (publicIp : str) (c2sUser : option RTP_MSG_USER) (hash : list Z) (nonce : Z)
  | OkUser (user : RTP_MSG_USER) (publicIp : str) (c2sUser : option RTP_MSG_USER) (appData : Z)
  | CloseUser (user : RTP_MSG_USER) (errorCode sslCode : Z)
  | RecvMsg (buf : list Z) (charset : Z) (srcUser : RTP_MSG_USER)
  | NewSession (session sessionType sslCtx sockId : Z)        (* [CreateRtpSessionWrapper] *)
  | DeleteSession (session : Z)                               (* [DeleteRtpSessionWrapper] *)
  | SetOutputRedline (session bytes : Z)
  | SuspendRecv (session : Z)
  | ResumeRecv (session : Z)
  | CloseSocket (sslCtx sockId : Z).

Definition setMaps (s2c : list (Z * Z)) (u2c : list (RTP_MSG_USER * Z)) (h : gmap Z ctx) (s : t) : t :=
  mkServer (m_mmType s) (m_sslConfig s) (m_sslForced s) (active s) (m_redlineBytes s) s2c u2c h (commands s)
    (checking s) (closing s) (g_s_nextServerId s) (g_s_nextClientId s).
Definition setTask (c : list command) (k : option check) (s : t) : t :=
  mkServer (m_mmType s) (m_sslConfig s) (m_sslForced s) (active s) (m_redlineBytes s) (m_session2Ctx s) (m_user2Ctx s)
    (heap s) c k (closing s) (g_s_nextServerId s) (g_s_nextClientId s).
Definition Put (c : command) (s : t) : t := setTask (commands s ++ [c]) (checking s) s.
Definition setIds (server client : Z) (s : t) : t :=
  mkServer (m_mmType s) (m_sslConfig s) (m_sslForced s) (active s) (m_redlineBytes s) (m_session2Ctx s) (m_user2Ctx s)
    (heap s) (commands s) (checking s) (closing s) server client.

(** The constructor, [CreateInstance] and [Init]; the ids are the program's, and whether the
    task and the service start is given. *)
Definition construct (mmType : Z) (sslConfig sslForced : bool) (serverId clientId : Z) : t :=
  mkServer mmType sslConfig sslForced false DEFAULT_REDLINE_BYTES [] [] ∅ [] None [] serverId clientId.
Definition CreateInstance (mmType : Z) (sslConfig sslForced : bool) (serverId clientId : Z) : option t :=
  if mmType =? 0 then None else Some (construct mmType sslConfig sslForced serverId clientId).
Definition Init (serviceHubPort : Z) (taskStarts serviceStarts : bool) (s : t) : bool * t :=
  if serviceHubPort =? 0 then (false, s) else if active s then (false, s) else
  if negb taskStarts || negb serviceStarts then (false, s) else
  (true, mkServer (m_mmType s) (m_sslConfig s) (m_sslForced s) true (m_redlineBytes s) (m_session2Ctx s) (m_user2Ctx s)
     (heap s) (commands s) (checking s) (closing s) (g_s_nextServerId s) (g_s_nextClientId s)).

(** A server that has started. *)
Definition init (mmType : Z) (sslConfig sslForced : bool) (serverId clientId : Z) : t :=
  snd (Init 1 true true (construct mmType sslConfig sslForced serverId clientId)).

(** [GetUserCount]: pending, base and sub users *)
Definition GetUserCount (s : t) : Z * Z * Z :=
  (if active s then Z.of_nat (length (commands s)) else 0, Z.of_nat (length (m_session2Ctx s)),
   u64 (Z.of_nat (length (m_user2Ctx s)) - Z.of_nat (length (m_session2Ctx s)))).

(** [SetOutputRedline] *)
Definition setRedline (bytes : Z) (s : t) : t :=
  if bytes =? 0 then s else if negb (active s) then s else
  mkServer (m_mmType s) (m_sslConfig s) (m_sslForced s) (active s) bytes (m_session2Ctx s) (m_user2Ctx s)
    (heap s) (commands s) (checking s) (closing s) (g_s_nextServerId s) (g_s_nextClientId s).
Definition GetOutputRedline (s : t) : Z := m_redlineBytes s.

(** *** Messages *)

(** The header of a message: [RTP_MSG_HEADER] with its variable-length array *)
Definition sizeof_RTP_MSG_USER : Z := 8.
Definition sizeof_RTP_MSG_HEADER : Z := 24.
Definition header (charset : Z) (publicIp : option Z) (src : RTP_MSG_USER) (dsts : list RTP_MSG_USER) : list Z :=
  le_bytes 4 (match publicIp with Some ip => ip | None => pbsd_hton32 charset end) ++ bytesOf src ++ [0; 0; 0] ++
  match dsts with
  | [] => 0 :: replicate 8 0
  | _ => Z.of_nat (length dsts) :: concat (bytesOf <$> dsts)
  end.

Section server.
Context (accepts : Z -> bool).      (* whether a session takes a packet *)
Context (inet_aton : str -> Z).     (* [pbsd_inet_aton] *)

(** [SendMsgToDownlink] *)
Definition SendMsgToDownlink (sessions : list Z) (buf : list Z) (charset : Z) (src : RTP_MSG_USER)
    (dsts : list RTP_MSG_USER) (publicIp : option Z) : bool * list effect :=
  if (zlen buf =? 0) || (classId src =? 0) || (UserId src =? 0) then (false, []) else
  let payload := header charset publicIp src dsts ++ buf in
  if zlen payload >? MAX_PAYLOAD_SIZE then (false, []) else
  (forallb accepts sessions, map (fun s => Send s payload) sessions).

(** The text of a stream, of the length that the call passes. *)
Definition textOf (stream : CProConfigStream.t) : list Z :=
  let s := CProConfigStream.ToString stream in ztake (u16 (zlen s)) s.

(** [NotifyKickout] *)
Definition NotifyKickout (session : Z) (c2sUser subUser : RTP_MSG_USER) : list effect :=
  if (session =? 0) || negb (classId c2sUser =? SERVER_CID) || (UserId c2sUser =? 0) || (classId subUser =? 0) ||
     (UserId subUser =? 0) || eqb subUser c2sUser then [] else
  let stream := CProConfigStream.Add TAG_client_id (RtpMsgUser2String subUser)
                  (CProConfigStream.Add TAG_msg_name MSG_client_kickout CProConfigStream.init) in
  snd (SendMsgToDownlink [session] (textOf stream) 0 ROOT_ID_C2S [c2sUser] None).

(** The sessions of base users, and the sub users by their session, in the order of the
    destinations. *)
Record routes := mkRoutes { sessions : list Z; session2Users : list (Z * list RTP_MSG_USER) }.

(** A destination that is found; [None]: its context is deleted *)
Definition routeTo (s : t) (dst : RTP_MSG_USER) (a : Z) (r : routes) : option routes :=
  c ← heap s !! a;
  Some (if eqb dst (baseUser c) then mkRoutes (sessions r ++ [session c]) (session2Users r)
        else
          let old := match stl_find (session c) (session2Users r) with Some (_, l) => l | None => [] end in
          mkRoutes (sessions r) (stl_assign (session c, old ++ [dst]) (session2Users r))).

(** Sending along the routes. *)
Definition sendAlong (r : routes) (buf : list Z) (charset : Z) (src : RTP_MSG_USER) : bool * list effect :=
  let base := match sessions r with [] => (true, []) | ss => SendMsgToDownlink ss buf charset src [] None end in
  let subs := map (fun e => SendMsgToDownlink [fst e] buf charset src (snd e) None) (session2Users r) in
  (fst base && forallb fst subs, snd base ++ concat (map snd subs)).

(** The loop of [SendMsg] over the destinations; the result is whether all were found *)
Fixpoint routeAll (s : t) (dsts : list RTP_MSG_USER) (r : routes) : option (bool * routes) :=
  match dsts with
  | [] => Some (true, r)
  | dst :: dsts =>
      if (classId dst =? 0) || (UserId dst =? 0) || IsRoot dst then '(_, r) ← routeAll s dsts r; Some (false, r) else
      match stl_find dst (m_user2Ctx s) with
      | None => '(_, r) ← routeAll s dsts r; Some (false, r)
      | Some (_, a) => r ← routeTo s dst a r; routeAll s dsts r
      end
  end.

(** [SendMsg] *)
Definition SendMsg (buf : list Z) (charset : Z) (dsts : list RTP_MSG_USER) (s : t) : option (bool * list effect) :=
  if (zlen buf =? 0) || (zlen dsts =? 0) then Some (false, []) else
  if negb (active s) then Some (false, []) else
  '(found, r) ← routeAll s dsts (mkRoutes [] []);
  let '(sent, effects) := sendAlong r buf charset ROOT_ID in
  Some (found && sent, effects).

(** The reads of a received packet. *)
Definition readUser (off : Z) (m : list Z) : option RTP_MSG_USER :=
  if off + sizeof_RTP_MSG_USER <=? zlen m then Some (ofBytes off m) else None.
Definition readBody (off size : Z) (m : list Z) : option (list Z) :=
  if off + size <=? zlen m then Some (zsub off size m) else None.

(** The loop of [OnRecvSession] over the [n] destinations from number [i] on *)
Fixpoint routeRecv (s : t) (m : list Z) (n : nat) (i : Z) (toRoot toC2sPort : bool) (r : routes)
    : option (bool * bool * routes) :=
  match n with
  | O => Some (toRoot, toC2sPort, r)
  | S n =>
      dst ← readUser (16 + sizeof_RTP_MSG_USER * i) m;
      if (classId dst =? 0) || (UserId dst =? 0) then routeRecv s m n (i + 1) toRoot toC2sPort r else
      if IsRoot dst then
        if instId dst =? instId ROOT_ID_C2S then routeRecv s m n (i + 1) toRoot true r
        else routeRecv s m n (i + 1) true toC2sPort r
      else
        match stl_find dst (m_user2Ctx s) with
        | None => routeRecv s m n (i + 1) toRoot toC2sPort r
        | Some (_, a) => r ← routeTo s dst a r; routeRecv s m n (i + 1) toRoot toC2sPort r
        end
  end.

(** The part "from c2s" *)
Definition fromC2s (ss : Z) (src : RTP_MSG_USER) (c : ctx) (body : list Z) (s : t) : option t :=
  if negb (isC2s c) || negb (classId src =? SERVER_CID) || negb (eqb src (baseUser c)) then Some s else
  '(ok, configs) ← CProConfigStream.StringToConfigs body;
  if negb ok then Some s else
  let stream := CProConfigStream.AddItems configs CProConfigStream.init in
  let name := CProConfigStream.Get TAG_msg_name stream in
  if sameText name MSG_client_login then
    if Z.of_nat (length (commands s)) >=? MAX_PENDING_COUNT then Some s
    else Some (Put (CRecv ss stream src) s)
  else if sameText name MSG_client_logout then Some (Put (CRecv ss stream src) s)
  else Some s.

(** [OnRecvSession]; [m] is the payload of the packet *)
Definition OnRecvSession (ss : Z) (m : list Z) (s : t) : option (t * list effect) :=
  if (ss =? 0) || (zlen m <=? sizeof_RTP_MSG_HEADER) then Some (s, []) else
  let count := let n := load 1 15 m in if n =? 0 then 1 else n in
  let headerSize := sizeof_RTP_MSG_HEADER + sizeof_RTP_MSG_USER * (count - 1) in
  let bodySize := u64 (zlen m - headerSize) in
  let charset := pbsd_ntoh32 (load 4 0 m) in
  let src := ofBytes 4 m in
  if (bodySize =? 0) || (classId src =? 0) || (UserId src =? 0) then Some (s, []) else
  if negb (active s) then Some (s, []) else
  match stl_find ss (m_session2Ctx s) with
  | None => Some (s, [])
  | Some (_, a) =>
      c ← heap s !! a;
      if negb (eqb src (baseUser c)) && bool_decide (stl_find src (subUsers c) = None) then Some (s, []) else
      match routeRecv s m (Z.to_nat count) 0 false false (mkRoutes [] []) with
      | None => None
      | Some (toRoot, toC2sPort, r) =>
          effects ← (match sessions r, session2Users r with
                     | [], [] => Some []
                     | _, _ => body ← readBody headerSize (u16 bodySize) m; Some (snd (sendAlong r body charset src))
                     end);
          s ← (if (toC2sPort : bool) then body ← readBody headerSize bodySize m; fromC2s ss src c body s else Some s);
          if (toRoot : bool) then
            body ← readBody headerSize (u16 bodySize) m; Some (s, effects ++ [RecvMsg body charset src])
          else Some (s, effects)
      end
  end.

(** *** The registry *)

(** The loops that erase the users of a context. *)
Definition eraseUsers (users : list RTP_MSG_USER) (m : list (RTP_MSG_USER * Z)) : list (RTP_MSG_USER * Z) :=
  fold_left (fun m u => stl_erase u m) users m.

(** The calls of [OnCloseUser] and of [DeleteRtpSessionWrapper] after a removal. *)
Definition closeUsers (users : list RTP_MSG_USER) (errorCode sslCode : Z) : list effect :=
  map (fun u => CloseUser u errorCode sslCode) users.
Definition deleteOld (oldSession : option Z) : list effect :=
  match oldSession with Some ss => [DeleteSession ss] | None => [] end.

(** What a removal leaves behind: [oldUsers], [oldSession], and the notices it sent *)
Record removed := mkRemoved { oldUsers : list RTP_MSG_USER; oldSession : option Z; notices : list effect }.

(** The removal of a registered user, with its context's other users when it is the base
    user; [notify] is whether the removal of a sub user is told to its c2s. *)
Definition removeUser (notify : ctx -> bool) (user : RTP_MSG_USER) (a : Z) (s : t) : option (t * removed) :=
  c ← heap s !! a;
  if eqb user (baseUser c) then
    Some (setMaps (stl_erase (session c) (m_session2Ctx s)) (stl_erase user (eraseUsers (subUsers c) (m_user2Ctx s)))
            (delete a (heap s)) s,
          mkRemoved (stl_insert user (subUsers c)) (Some (session c)) [])
  else
    Some (setMaps (m_session2Ctx s) (stl_erase user (m_user2Ctx s))
            (<[a := mkCtx (session c) (baseUser c) (stl_erase user (subUsers c)) (isC2s c)]> (heap s)) s,
          mkRemoved [user] None (if notify c then NotifyKickout (session c) (baseUser c) user else [])).

(** The "remove old" of a login *)
Definition removeOld (notify : ctx -> bool) (user : RTP_MSG_USER) (s : t) : option (t * removed) :=
  match stl_find user (m_user2Ctx s) with
  | None => Some (s, mkRemoved [] None [])
  | Some (_, a) => removeUser notify user a s
  end.

(** [KickoutUser], [AsyncKickoutUser] *)
Definition KickoutUser (user : RTP_MSG_USER) (s : t) : t :=
  if (classId user =? 0) || (UserId user =? 0) || negb (active s) then s
  else Put (CKickout (classId user) (UserId user) (instId user)) s.

Definition AsyncKickoutUser (cid uid iid : Z) (s : t) : option (t * list effect) :=
  let user := make (u8 cid) uid (u16 iid) in
  if negb (active s) then Some (s, []) else
  match stl_find user (m_user2Ctx s) with
  | None => Some (s, [])
  | Some (_, a) =>
      '(s, r) ← removeUser (fun _ => true) user a s;
      Some (s, notices r ++ closeUsers (oldUsers r) (-1) 0 ++ deleteOld (oldSession r))
  end.

(** [AddBaseUser]; [newSession] is the new session and the address of its context, if it
    can be created *)
Definition AddBaseUser (newSession : option (Z * Z)) (type ssl sock : Z) (user : RTP_MSG_USER) (publicIp : str)
    (app : Z) (c2s : bool) (s : t) : option (bool * t * list effect) :=
  if (classId user =? 0) || (UserId user =? 0) then Some (false, s, []) else
  if negb (active s) then Some (false, s, []) else
  match newSession with
  | None => Some (false, s, [])
  | Some (ss, a) =>
      '(s, r) ← removeOld (fun _ => true) user s;
      let s := setMaps (stl_assign (ss, a) (m_session2Ctx s)) (stl_assign (user, a) (m_user2Ctx s))
                 (<[a := mkCtx ss user [] c2s]> (heap s)) s in
      Some (true, s,
        [NewSession ss type ssl sock] ++ notices r ++ closeUsers (oldUsers r) (-1) 0 ++
        [SuspendRecv ss] ++ snd (SendMsgToDownlink [ss] [0] 0 user [] (Some (inet_aton (cstr publicIp)))) ++
        [OkUser user (cstr publicIp) None app; ResumeRecv ss] ++ deleteOld (oldSession r))
  end.

(** [AddSubUser] *)
Definition AddSubUser (c2sUser subUser : RTP_MSG_USER) (publicIp : str) (msgText : list Z) (app : Z) (s : t)
    : option (t * list effect) :=
  if negb (classId c2sUser =? SERVER_CID) || (UserId c2sUser =? 0) || (classId subUser =? 0) || (UserId subUser =? 0) ||
     eqb subUser c2sUser then Some (s, []) else
  if negb (active s) then Some (s, []) else
  match stl_find c2sUser (m_user2Ctx s) with
  | None => Some (s, [])
  | Some (_, a) =>
      newCtx ← heap s !! a;
      if negb (isC2s newCtx) || negb (eqb c2sUser (baseUser newCtx)) then Some (s, []) else
      '(s, r) ← removeOld (fun oldCtx => negb (eqb c2sUser (baseUser oldCtx))) subUser s;
      newCtx ← heap s !! a;
      let ss := session newCtx in
      let subs := stl_insert subUser (subUsers newCtx) in
      let s := setMaps (m_session2Ctx s) (stl_assign (subUser, a) (m_user2Ctx s))
                 (<[a := mkCtx ss (baseUser newCtx) subs (isC2s newCtx)]> (heap s)) s in
      Some (s,
        notices r ++ (if zlen subs =? 1 then [SetOutputRedline ss (m_redlineBytes s)] else []) ++
        closeUsers (oldUsers r) (-1) 0 ++
        [SuspendRecv ss] ++ snd (SendMsgToDownlink [ss] msgText 0 ROOT_ID_C2S [c2sUser] None) ++
        [OkUser subUser (cstr publicIp) (Some c2sUser) app; ResumeRecv ss] ++ deleteOld (oldSession r))
  end.

(** [OnAcceptSession], without and with an [sslCtx]; [ours] is [service == m_service] *)
Definition OnAcceptSession (ssl ours : bool) (arg : acceptArg) (s : t) : t * list effect :=
  if (ssl && (sslCtx arg =? 0)) || (sockId arg =? -1) then (s, []) else
  if negb (sessionType arg =? (if ssl then RTP_ST_SSLCLIENT_EX else RTP_ST_TCPCLIENT_EX)) ||
     negb (mmType arg =? m_mmType s) || negb (active s) || negb ours ||
     (Z.of_nat (length (commands s)) >=? MAX_PENDING_COUNT)
  then (s, [CloseSocket (sslCtx arg) (sockId arg)])
  else (Put (CAccept arg) s, []).

(** The id of a user that has none. *)
Definition assignId (user : RTP_MSG_USER) (s : t) : RTP_MSG_USER * t :=
  if UserId user =? 0 then
    if classId user =? SERVER_CID then
      let '(id, next) := MakeId (g_s_nextServerId s) in
      (setInstId NODE_IID_MIN (setUserId id user), setIds next (g_s_nextClientId s) s)
    else
      let '(id, next) := MakeId (g_s_nextClientId s) in
      (setInstId NODE_IID_MIN (setUserId id user), setIds (g_s_nextServerId s) next s)
  else (user, s).

(** The guards of a login on the user that asks for it. *)
Definition badLogin (user : RTP_MSG_USER) : bool :=
  (classId user =? 0) ||
  (negb (UserId user =? 0) && ((UserId user <? NODE_UID_MIN) || (UserId user >? NODE_UID_MAX))) || IsRoot user.

(** [AsyncOnAcceptSession], up to [OnCheckUser] *)
Definition AsyncOnAcceptSession (arg : acceptArg) (s : t) : t * list effect :=
  let exit := (s, [CloseSocket (sslCtx arg) (sockId arg)]) in
  if (if negb (m_sslConfig s) then negb (sessionType arg =? RTP_ST_TCPCLIENT_EX)
      else if m_sslForced s then negb (sessionType arg =? RTP_ST_SSLCLIENT_EX) else false) then exit else
  let user := ofBytes 4 (userData arg) in
  if badLogin user then exit else
  if negb (active s) then exit else
  let '(user, s) := assignId user s in
  (setTask (commands s) (Some (CheckBase arg user)) s,
   [CheckUser user (cstr (remoteIp arg)) None (passwordHash arg) (nonce arg)]).

(** [AsyncOnAcceptSession], from the answer on *)
Definition onCheckBase (newSession : option (Z * Z)) (ans : answer) (arg : acceptArg) (user : RTP_MSG_USER) (s : t)
    : option (t * list effect) :=
  let exit := [CloseSocket (sslCtx arg) (sockId arg)] in
  if negb (accepted ans) then Some (s, exit) else
  let user := setInstId (newInstId ans) (setUserId (userId ans) user) in
  if (userId ans <? NODE_UID_MIN) || (userId ans >? NODE_UID_MAXX) then Some (s, exit) else
  let type := if sessionType arg =? RTP_ST_SSLCLIENT_EX then RTP_ST_SSLSERVER_EX else RTP_ST_TCPSERVER_EX in
  match AddBaseUser newSession type (sslCtx arg) (sockId arg) user (remoteIp arg) (appData ans) (newIsC2s ans) s with
  | None => None
  | Some (ret, s, effects) => Some (s, effects ++ if (ret : bool) then [] else exit)
  end.

(** [sscanf("%02x")] of two bytes, into a zero *)
Definition hexDigit (b : Z) : option Z :=
  if (48 <=? b) && (b <=? 57) then Some (b - 48) else
  if (65 <=? b) && (b <=? 70) then Some (b - 55) else
  if (97 <=? b) && (b <=? 102) then Some (b - 87) else None.
Definition scanHex (l : str) : Z :=
  match l with
  | [] => 0
  | b :: l =>
      match hexDigit b with
      | None => 0
      | Some h => match l with
                  | [] => h
                  | b :: _ => match hexDigit b with Some d => h * 16 + d | None => h end
                  end
      end
  end.
Definition hexByte (a b : Z) : Z :=
  let '(neg, l) := CProConfigStream.scanSign (Line.trimLeft CProConfigStream.isSpace (cstr [a; b])) in
  u8 (if neg then - scanHex l else scanHex l).

(** The loop over [hash]. *)
Fixpoint hashOf (l : str) : list Z :=
  match l with a :: b :: l => hexByte a b :: hashOf l | _ => [] end.

Definition loginError (session : Z) (c2sUser : RTP_MSG_USER) (client_index : Z) : list effect :=
  let stream := CProConfigStream.AddUint TAG_client_index client_index
                  (CProConfigStream.Add TAG_msg_name MSG_client_login_error CProConfigStream.init) in
  snd (SendMsgToDownlink [session] (textOf stream) 0 ROOT_ID_C2S [c2sUser] None).

(** [ProcessMsg_client_login], up to [OnCheckUser] *)
Definition ProcessMsg_client_login (session : Z) (msgStream : CProConfigStream.t) (c2sUser : RTP_MSG_USER) (s : t)
    : option (t * list effect) :=
  if (session =? 0) || negb (classId c2sUser =? SERVER_CID) || (UserId c2sUser =? 0) then Some (s, []) else
  client_index ← CProConfigStream.GetUint TAG_client_index msgStream;
  let client_public_ip := CProConfigStream.Get TAG_client_public_ip msgStream in
  let client_hash_string := CProConfigStream.Get TAG_client_hash_string msgStream in
  client_nonce ← CProConfigStream.GetUint64 TAG_client_nonce msgStream;
  subUser ← RtpMsgString2User (CProConfigStream.Get TAG_client_id msgStream);
  if badLogin subUser || eqb subUser c2sUser then Some (s, []) else
  if negb (zlen client_hash_string =? 64) then Some (s, []) else
  if negb (active s) then Some (s, []) else
  let '(subUser, s) := assignId subUser s in
  Some (setTask (commands s) (Some (CheckSub session c2sUser subUser client_index client_public_ip)) s,
        [CheckUser subUser (cstr client_public_ip) (Some c2sUser) (hashOf client_hash_string) client_nonce]).

(** [ProcessMsg_client_login], from the answer on *)
Definition onCheckSub (ans : answer) (session : Z) (c2sUser subUser : RTP_MSG_USER) (client_index : Z)
    (client_public_ip : str) (s : t) : option (t * list effect) :=
  if negb (accepted ans) then Some (s, loginError session c2sUser client_index) else
  let subUser := setInstId (newInstId ans) (setUserId (userId ans) subUser) in
  if (userId ans <? NODE_UID_MIN) || (userId ans >? NODE_UID_MAXX) || eqb subUser c2sUser
  then Some (s, loginError session c2sUser client_index) else
  let stream := CProConfigStream.Add TAG_client_id (RtpMsgUser2String subUser)
                  (CProConfigStream.AddUint TAG_client_index client_index
                    (CProConfigStream.Add TAG_msg_name MSG_client_login_ok CProConfigStream.init)) in
  AddSubUser c2sUser subUser client_public_ip (textOf stream) (appData ans) s.

(** [ProcessMsg_client_logout] *)
Definition ProcessMsg_client_logout (session : Z) (msgStream : CProConfigStream.t) (c2sUser : RTP_MSG_USER) (s : t)
    : option (t * list effect) :=
  if (session =? 0) || negb (classId c2sUser =? SERVER_CID) || (UserId c2sUser =? 0) then Some (s, []) else
  subUser ← RtpMsgString2User (CProConfigStream.Get TAG_client_id msgStream);
  if (classId subUser =? 0) || (UserId subUser =? 0) || eqb subUser c2sUser then Some (s, []) else
  if negb (active s) then Some (s, []) else
  match stl_find subUser (m_user2Ctx s) with
  | None => Some (s, [])
  | Some (_, a) =>
      c ← heap s !! a;
      if negb (isC2s c) || negb (eqb c2sUser (baseUser c)) then Some (s, []) else
      Some (setMaps (m_session2Ctx s) (stl_erase subUser (m_user2Ctx s))
              (<[a := mkCtx (CRtpMsgServer.session c) (baseUser c) (stl_erase subUser (subUsers c)) (isC2s c)]> (heap s)) s,
            [CloseUser subUser (-1) 0])
  end.

(** [AsyncOnRecvSession] *)
Definition AsyncOnRecvSession (session : Z) (msgStream : CProConfigStream.t) (c2sUser : RTP_MSG_USER) (s : t)
    : option (t * list effect) :=
  let msgName := CProConfigStream.Get TAG_msg_name msgStream in
  if sameText msgName MSG_client_login then ProcessMsg_client_login session msgStream c2sUser s
  else if sameText msgName MSG_client_logout then ProcessMsg_client_logout session msgStream c2sUser s
  else Some (s, []).

(** [OnCloseSession], [AsyncOnCloseSession] *)
Definition OnCloseSession (session errorCode sslCode : Z) (s : t) : t :=
  if (session =? 0) || negb (active s) then s else Put (CClose session errorCode sslCode) s.

Definition AsyncOnCloseSession (session errorCode sslCode : Z) (s : t) : option (t * list effect) :=
  if negb (active s) then Some (s, []) else
  match stl_find session (m_session2Ctx s) with
  | None => Some (s, [])
  | Some (_, a) =>
      c ← heap s !! a;
      let users := stl_insert (baseUser c) (subUsers c) in
      Some (setMaps (stl_erase session (m_session2Ctx s)) (eraseUsers users (m_user2Ctx s)) (delete a (heap s)) s,
            closeUsers users errorCode sslCode ++ [DeleteSession session])
  end.

(** [Fini], up to [m_task->Stop()], and after it *)
Definition FiniBegin (s : t) : t :=
  if negb (active s) then s else
  mkServer (m_mmType s) (m_sslConfig s) (m_sslForced s) false (m_redlineBytes s) [] [] (heap s) (commands s)
    (checking s) (m_session2Ctx s) (g_s_nextServerId s) (g_s_nextClientId s).
Definition FiniEnd (s : t) : t * list effect :=
  (mkServer (m_mmType s) (m_sslConfig s) (m_sslForced s) (active s) (m_redlineBytes s) (m_session2Ctx s) (m_user2Ctx s)
     (fold_left (fun h e => delete (snd e) h) (closing s) (heap s)) (commands s) (checking s) []
     (g_s_nextServerId s) (g_s_nextClientId s),
   map (fun e => DeleteSession (fst e)) (closing s)).

(** *** The task

    It runs one command after the other: [Run] takes the next one, [Answer] goes on with
    the one that has asked the observer. *)
Definition execute (c : command) (s : t) : option (t * list effect) :=
  match c with
  | CKickout cid uid iid => AsyncKickoutUser cid uid iid s
  | CAccept arg => Some (AsyncOnAcceptSession arg s)
  | CRecv session msgStream c2sUser => AsyncOnRecvSession session msgStream c2sUser s
  | CClose session errorCode sslCode => AsyncOnCloseSession session errorCode sslCode s
  end.

Inductive event :=
  | Kickout (user : RTP_MSG_USER)
  | SendTo (buf : list Z) (charset : Z) (dsts : list RTP_MSG_USER)
  | Redline (bytes : Z)
  | Accept (ssl ours : bool) (arg : acceptArg)
  | Recv (session : Z) (payload : list Z)
  | Close (session errorCode sslCode : Z)
  | Run
  | Answer (ans : answer) (newSession : option (Z * Z))
  | Fini
  | FiniDone.

(** What an event does; an event that cannot happen does nothing. *)
Definition handle (e : event) (s : t) : option (t * list effect) :=
  match e with
  | Kickout user => Some (KickoutUser user s, [])
  | SendTo buf charset dsts => '(_, effects) ← SendMsg buf charset dsts s; Some (s, effects)
  | Redline bytes => Some (setRedline bytes s, [])
  | Accept ssl ours arg => Some (OnAcceptSession ssl ours arg s)
  | Recv session payload => OnRecvSession session payload s
  | Close session errorCode sslCode => Some (OnCloseSession session errorCode sslCode s, [])
  | Run =>
      match checking s, commands s with
      | None, c :: cs => execute c (setTask cs None s)
      | _, _ => Some (s, [])
      end
  | Answer ans newSession =>
      match checking s with
      | Some (CheckBase arg user) => onCheckBase newSession ans arg user (setTask (commands s) None s)
      | Some (CheckSub session c2sUser subUser client_index client_public_ip) =>
          onCheckSub ans session c2sUser subUser client_index client_public_ip (setTask (commands s) None s)
      | None => Some (s, [])
      end
  | Fini => Some (FiniBegin s, [])
  | FiniDone =>
      match active s, commands s, checking s with
      | false, [], None => Some (FiniEnd s)
      | _, _, _ => Some (s, [])
      end
  end.

End server.
End CRtpMsgServer.
