(* ===== verification/MsgRegistry.v ===== *)
(** * The message server's registry

    In every state that the server can reach, by calls from any thread and by the
    observer's answers, the two maps and the contexts agree, no call uses a deleted
    context, and the observer is told of each user's coming and going in turn. *)

From S2P Require Import Prelude StlMap Bytes Bsd ConfigStream MsgUser RtpPacket RtpSession MsgServer.
Import CRtpMsgServer MsgUser MsgUserLemmas.

(** ** What the observer and the sessions see *)

Module RegistrySpec.

(** The users that are online after these callbacks; [None]: one came twice, or left
    without having come *)
Fixpoint online (on : list RTP_MSG_USER) (log : list effect) : option (list RTP_MSG_USER) :=
  match log with
  | [] => Some on
  | OkUser u _ _ _ :: log =>
      match stl_find u on with Some _ => None | None => online (stl_insert u on) log end
  | CloseUser u _ _ :: log =>
      match stl_find u on with Some _ => online (stl_erase u on) log | None => None end
  | _ :: log => online on log
  end.

(** The same for sessions. *)
Fixpoint opened (on : list Z) (log : list effect) : option (list Z) :=
  match log with
  | [] => Some on
  | NewSession ss _ _ _ :: log =>
      match stl_find ss on with Some _ => None | None => opened (stl_insert ss on) log end
  | DeleteSession ss :: log =>
      match stl_find ss on with Some _ => opened (stl_erase ss on) log | None => None end
  | _ :: log => opened on log
  end.

(** A user of a context. *)
Definition member (u : RTP_MSG_USER) (c : ctx) : Prop := u = baseUser c \/ u ∈ subUsers c.

(** A context: only a c2s has sub users. *)
Record ctx_ok (c : ctx) : Prop := mkCtxOk {
  ok_sorted : stl_sorted (subUsers c);
  ok_base : baseUser c ∉ subUsers c;
  ok_wf : forall u, member u c -> wf u /\ classId u <> 0 /\ UserId u <> 0;
  ok_c2s : subUsers c <> [] -> isC2s c = true /\ classId (baseUser c) = SERVER_CID
}.

(** The maps and the contexts say the same. *)
Record registry (s2c : list (Z * Z)) (u2c : list (RTP_MSG_USER * Z)) (h : gmap Z ctx) : Prop := mkRegistry {
  reg_sessions : stl_sorted s2c;
  reg_users : stl_sorted u2c;
  reg_session : forall ss a, stl_find ss s2c = Some (ss, a) <-> exists c, h !! a = Some c /\ session c = ss;
  reg_user : forall u a, stl_find u u2c = Some (u, a) <-> exists c, h !! a = Some c /\ member u c;
  reg_ok : forall a c, h !! a = Some c -> ctx_ok c
}.

(** A command whose user and arguments are what the caller's types hold. *)
Definition command_ok (c : command) : Prop :=
  match c with
  | CAccept arg => is_bytes (userData arg) /\ zlen (userData arg) = 64
  | CRecv _ _ u => wf u
  | _ => True
  end.
Definition check_ok (k : check) : Prop :=
  match k with CheckBase _ u => wf u /\ classId u <> 0 | CheckSub _ c u _ _ => wf c /\ wf u /\ classId u <> 0 end.

(** The invariant. *)
Record consistent (s : t) : Prop := mkConsistent {
  con_on : active s = true -> registry (m_session2Ctx s) (m_user2Ctx s) (heap s) /\ closing s = [];
  con_off : active s = false -> m_session2Ctx s = [] /\ m_user2Ctx s = [] /\ stl_sorted (closing s) /\
    forall ss a, stl_find ss (closing s) = Some (ss, a) <-> exists c, heap s !! a = Some c /\ session c = ss;
  con_commands : Forall command_ok (commands s);
  con_check : forall k, checking s = Some k -> check_ok k;
  con_ids : 0 <= g_s_nextServerId s < 2 ^ 40 /\ 0 <= g_s_nextClientId s < 2 ^ 40
}.

(** A packet that holds what its header says, and a message whose numbers fit. *)
Definition complete (m : list Z) : Prop :=
  zlen m > sizeof_RTP_MSG_HEADER -> zlen m >= sizeof_RTP_MSG_HEADER + sizeof_RTP_MSG_USER * (load 1 15 m - 1).
Definition readable (st : CProConfigStream.t) : Prop :=
  CProConfigStream.GetUint TAG_client_index st <> None /\ CProConfigStream.GetUint64 TAG_client_nonce st <> None /\
  RtpMsgString2User (CProConfigStream.Get TAG_client_id st) <> None.

(** What the environment has to keep to. *)
Definition enabled (e : event) (s : t) : Prop :=
  match e with
  | Accept _ _ arg => is_bytes (userData arg) /\ zlen (userData arg) = 64
  | Recv _ m => is_bytes m /\ zlen m <= MAX_PAYLOAD_SIZE /\ complete m
  | Run => match commands s with CRecv _ st _ :: _ => readable st | _ => True end
  | Answer ans new =>
      0 <= userId ans < 2 ^ 64 /\ 0 <= newInstId ans < 2 ^ 16 /\
      match new with
      | Some (ss, a) => stl_find ss (m_session2Ctx s ++ closing s) = None /\ heap s !! a = None
      | None => True
      end
  | _ => True
  end.

Section run.
Context (accepts : Z -> bool) (inet_aton : str -> Z).

(** The states a server can reach, and what has happened so far. *)
Inductive reachable (s0 : t) : t -> list effect -> Prop :=
  | reach_init : reachable s0 s0 []
  | reach_step s log e s' effects :
      reachable s0 s log -> enabled e s -> handle accepts inet_aton e s = Some (s', effects) ->
      reachable s0 s' (log ++ effects).
End run.

End RegistrySpec.

Module RegistryLemmas.
Import RegistrySpec.

(** ** Sets of users *)

Lemma eraseUsers_sorted us (m : list (RTP_MSG_USER * Z)) : stl_sorted m -> stl_sorted (eraseUsers us m).
Proof. unfold eraseUsers. revert m. induction us as [|u us IH]; [done|]. intros m Hm. by apply IH, stl_sorted_erase. Qed.

Lemma find_eraseUsers us u a (m : list (RTP_MSG_USER * Z)) : stl_sorted m ->
  stl_find u (eraseUsers us m) = Some (u, a) <-> (u ∉ us) /\ stl_find u m = Some (u, a).
Proof.
  unfold eraseUsers. revert m. induction us as [|v us IH]; intros m Hm; cbn [fold_left].
  - pose proof (not_elem_of_nil u). tauto.
  - rewrite IH by (by apply stl_sorted_erase). rewrite stl_find_erase_iff by done. rewrite not_elem_of_cons. tauto.
Qed.

Lemma keys_eraseUsers us (m : list (RTP_MSG_USER * Z)) :
  fst <$> eraseUsers us m = fold_left (fun on u => stl_erase u on) us (fst <$> m).
Proof.
  unfold eraseUsers. revert m. induction us as [|u us IH]; [done|]. intros m. cbn [fold_left].
  by rewrite IH, stl_keys_erase.
Qed.

(** The callbacks of a removal. *)
Lemma online_app on l1 l2 : online on (l1 ++ l2) = (on ← online on l1; online on l2).
Proof.
  revert on. induction l1 as [|e l1 IH]; intros on; [done|]. cbn. destruct e; try apply IH;
    (destruct (stl_find _ on); [try apply IH; done|try apply IH; done]).
Qed.
Lemma opened_app on l1 l2 : opened on (l1 ++ l2) = (on ← opened on l1; opened on l2).
Proof.
  revert on. induction l1 as [|e l1 IH]; intros on; [done|]. cbn. destruct e; try apply IH;
    (destruct (stl_find _ on); [try apply IH; done|try apply IH; done]).
Qed.

Lemma online_then on on' l1 l2 : online on l1 = Some on' -> online on (l1 ++ l2) = online on' l2.
Proof. intros E. by rewrite online_app, E. Qed.
Lemma opened_then on on' l1 l2 : opened on l1 = Some on' -> opened on (l1 ++ l2) = opened on' l2.
Proof. intros E. by rewrite opened_app, E. Qed.

Lemma find_user (u : RTP_MSG_USER) on : stl_sorted on -> u ∈ on -> stl_find u on = Some u.
Proof. intros Hs Hu. exact (stl_sorted_find_elem on u Hs Hu). Qed.

Lemma online_close us e1 e2 on : stl_sorted on -> NoDup us -> (forall u, u ∈ us -> u ∈ on) ->
  online on (closeUsers us e1 e2) = Some (fold_left (fun on u => stl_erase u on) us on).
Proof.
  revert on. induction us as [|u us IH]; intros on Hs Hn Hin; [done|]. cbn.
  rewrite find_user by (try apply Hin; try left; done).
  apply NoDup_cons in Hn as [Hu Hn]. apply IH; [by apply stl_sorted_erase|done|].
  intros v Hv. apply stl_elem_erase_set; [done|done|]. split; [by intros ->|]. apply Hin. by right.
Qed.

(** ** The maps and the contexts *)

Section registry.
Context (s2c : list (Z * Z)) (u2c : list (RTP_MSG_USER * Z)) (h : gmap Z ctx).
Hypothesis R : registry s2c u2c h.

Lemma reg_find a c : h !! a = Some c -> stl_find (session c) s2c = Some (session c, a).
Proof. intros Hc. apply (reg_session _ _ _ R). eauto. Qed.
Lemma reg_member a c u : h !! a = Some c -> member u c -> stl_find u u2c = Some (u, a).
Proof. intros Hc Hu. apply (reg_user _ _ _ R). eauto. Qed.
Lemma reg_same a b c d u : h !! a = Some c -> h !! b = Some d -> member u c -> member u d -> a = b.
Proof. intros Hc Hd Hu Hv. pose proof (reg_member _ _ _ Hc Hu). pose proof (reg_member _ _ _ Hd Hv). congruence. Qed.
Lemma reg_same_session a b c d : h !! a = Some c -> h !! b = Some d -> session c = session d -> a = b.
Proof. intros Hc%reg_find Hd%reg_find E. rewrite E in Hc. congruence. Qed.
Lemma reg_ctx u a : stl_find u u2c = Some (u, a) -> exists c, h !! a = Some c /\ member u c /\ ctx_ok c.
Proof. intros (c & Hc & Hu)%(reg_user _ _ _ R). exists c. split_and!; [done..|]. by apply (reg_ok _ _ _ R a). Qed.

(** A context is taken out with all its users. *)
Lemma registry_removeBase a c m : h !! a = Some c -> stl_sorted m ->
  (forall u b, stl_find u m = Some (u, b) <-> ~ member u c /\ stl_find u u2c = Some (u, b)) ->
  registry (stl_erase (session c) s2c) m (delete a h).
Proof.
  intros Hc Hm Hu. pose proof (reg_sessions _ _ _ R) as Hs. split; [by apply stl_sorted_erase|done|..].
  - intros ss b. rewrite stl_find_erase_iff, (reg_session _ _ _ R) by done. split.
    + intros [Hne (d & Hd & <-)]. exists d. rewrite lookup_delete_ne by congruence. done.
    + intros (d & [Hne Hd]%lookup_delete_Some & <-). split; [|by exists d]. intros E. by apply Hne, (reg_same_session _ _ _ _ Hc Hd).
  - intros u b. rewrite Hu, (reg_user _ _ _ R). split.
    + intros [Hn (d & Hd & Hm')]. exists d. split; [|done]. rewrite lookup_delete_ne; [done|]. intros <-. congruence.
    + intros (d & [Hne Hd]%lookup_delete_Some & Hm'). split; [|by exists d]. intros Hn. by apply Hne, (reg_same a b c d u).
  - intros b d [_ Hd]%lookup_delete_Some. by apply (reg_ok _ _ _ R b).
Qed.

(** A context whose users change: [member] afterwards, and the map for it. *)
Lemma registry_update a c c' m : h !! a = Some c -> session c' = session c -> ctx_ok c' -> stl_sorted m ->
  (forall u b, stl_find u m = Some (u, b) <->
     (b = a /\ member u c') \/ (b <> a /\ stl_find u u2c = Some (u, b))) ->
  registry s2c m (<[a := c']> h).
Proof.
  intros Hc Es Hok Hm Hu. split; [by apply (reg_sessions _ _ _ R)|done|..].
  - intros ss b. rewrite (reg_session _ _ _ R). destruct (decide (b = a)) as [->|Hne].
    + rewrite lookup_insert_eq. split; [intros (d & ? & <-)|intros (d & [= <-] & <-)]; [exists c'|exists c]; split; try done; congruence.
    + by rewrite lookup_insert_ne by done.
  - intros u b. rewrite Hu. destruct (decide (b = a)) as [->|Hne].
    + rewrite lookup_insert_eq. split; [intros [[_ Hm']|[? ?]]; [by exists c'|done]|]. intros (d & [= <-] & Hm'). by left.
    + rewrite lookup_insert_ne, <- (reg_user _ _ _ R) by done. tauto.
  - intros b d [[<- <-]|[Hne Hd]]%lookup_insert_Some; [done|]. by apply (reg_ok _ _ _ R b).
Qed.

Lemma registry_removeSub a c u : h !! a = Some c -> u ∈ subUsers c ->
  registry s2c (stl_erase u u2c)
    (<[a := mkCtx (session c) (baseUser c) (stl_erase u (subUsers c)) (isC2s c)]> h).
Proof.
  intros Hc Hu. pose proof (reg_ok _ _ _ R a c Hc) as Hok. pose proof (ok_sorted c Hok) as Hsub.
  assert (Hm : forall v, member v (mkCtx (session c) (baseUser c) (stl_erase u (subUsers c)) (isC2s c)) <-> v <> u /\ member v c).
  { intros v. unfold member. cbn. rewrite stl_elem_erase_set by done. pose proof (ok_base c Hok).
    split; [|tauto]. intros [->|?]; [|tauto]. split; [congruence|by left]. }
  eapply registry_update; [exact Hc|done|split; cbn|by apply stl_sorted_erase, (reg_users _ _ _ R)|].
  - by apply stl_sorted_erase.
  - intros ?%stl_elem_erase. by apply (ok_base c Hok).
  - intros v [_ Hv]%Hm. by apply (ok_wf c Hok).
  - intros _. apply (ok_c2s c Hok). intros E. rewrite E in Hu. by apply not_elem_of_nil in Hu.
  - intros v b. rewrite stl_find_erase_iff, Hm by apply (reg_users _ _ _ R). destruct (decide (b = a)) as [->|Hne].
    + split; [|intros [[_ [? ?]]|[? ?]]; [|done]]; [|split; [done|by apply (reg_member a c)]].
      intros [? (d & Hd & ?)%(reg_user _ _ _ R)]. left. split_and!; [done|done|congruence].
    + split; [tauto|]. intros [[? _]|[_ Hf]]; [done|]. split; [|done]. intros ->.
      rewrite (reg_member a c u Hc) in Hf by (by right). congruence.
Qed.

Lemma registry_addBase a ss u c2s : h !! a = None -> stl_find ss s2c = None -> stl_find u u2c = None ->
  wf u -> classId u <> 0 -> UserId u <> 0 ->
  registry (stl_assign (ss, a) s2c) (stl_assign (u, a) u2c) (<[a := mkCtx ss u [] c2s]> h).
Proof.
  intros Ha Hss Hu Hw Hc0 Hu0. set (c := mkCtx ss u [] c2s).
  assert (Hm : forall v, member v c <-> v = u).
  { intros v. unfold member, c. cbn. pose proof (not_elem_of_nil v). tauto. }
  split; [by apply stl_sorted_assign, (reg_sessions _ _ _ R)|by apply stl_sorted_assign, (reg_users _ _ _ R)|..].
  - intros s b. rewrite stl_find_assign_iff, (reg_session _ _ _ R). destruct (decide (b = a)) as [->|Hne].
    + rewrite lookup_insert_eq. split; [intros [[-> _]|[_ (d & Hd & _)]]; [by exists c|congruence]|].
      intros (d & [= <-] & <-). by left.
    + rewrite lookup_insert_ne by done. split; [intros [[_ ?]|[_ ?]]; done|]. intros (d & Hd & <-). right. split; [|by exists d].
      intros E. rewrite <- E, (reg_find b d) in Hss by done. done.
  - intros v b. rewrite stl_find_assign_iff, (reg_user _ _ _ R). destruct (decide (b = a)) as [->|Hne].
    + rewrite lookup_insert_eq. split; [intros [[-> _]|[_ (d & Hd & _)]]; [exists c; by rewrite Hm|congruence]|].
      intros (d & [= <-] & ->%Hm). by left.
    + rewrite lookup_insert_ne by done. split; [intros [[_ ?]|[_ ?]]; done|]. intros (d & Hd & Hv). right. split; [|by exists d].
      intros ->. by rewrite (reg_member b d u) in Hu.
  - intros b d [[<- <-]|[Hne Hd]]%lookup_insert_Some; [|by apply (reg_ok _ _ _ R b)]. split; cbn; [done|apply not_elem_of_nil| |done].
    by intros v ->%Hm.
Qed.

Lemma registry_addSub a c u : h !! a = Some c -> stl_find u u2c = None -> wf u -> classId u <> 0 -> UserId u <> 0 ->
  isC2s c = true -> classId (baseUser c) = SERVER_CID ->
  registry s2c (stl_assign (u, a) u2c)
    (<[a := mkCtx (session c) (baseUser c) (stl_insert u (subUsers c)) (isC2s c)]> h).
Proof.
  intros Hc Hu Hw Hc0 Hu0 H2 H1. pose proof (reg_ok _ _ _ R a c Hc) as Hok. pose proof (ok_sorted c Hok) as Hsub.
  assert (Hm : forall v, member v (mkCtx (session c) (baseUser c) (stl_insert u (subUsers c)) (isC2s c)) <-> v = u \/ member v c).
  { intros v. unfold member. cbn. rewrite stl_elem_insert_set by done. tauto. }
  eapply registry_update; [exact Hc|done|split; cbn|by apply stl_sorted_assign, (reg_users _ _ _ R)|].
  - by apply stl_sorted_insert.
  - rewrite stl_elem_insert_set by done. intros [E|?]; [|by apply (ok_base c Hok)].
    rewrite <- E, (reg_member a c (baseUser c)) in Hu; [done|done|by left].
  - intros v [->|Hv]%Hm; [done|]. by apply (ok_wf c Hok).
  - done.
  - intros v b. rewrite stl_find_assign_iff, Hm, (reg_user _ _ _ R). destruct (decide (b = a)) as [->|Hne].
    + split; [intros [[-> _]|[_ (d & Hd & ?)]]; left; split; try tauto; right; congruence|].
      intros [[_ [->|Hv]]|[? _]]; [by left| |done]. right. split; [|by exists c]. intros ->. by rewrite (reg_member a c u) in Hu.
    + split; [tauto|]. intros [[? _]|[_ Hf]]; [done|]. right. split; [|done]. intros ->. destruct Hf as (d & Hd & Hv).
      by rewrite (reg_member b d u) in Hu.
Qed.
End registry.

(** ** Callbacks *)

(** Effects that are no callback about a user, and none about a session. *)
Definition calmUser (e : effect) : bool := match e with OkUser _ _ _ _ | CloseUser _ _ _ => false | _ => true end.
Definition calmSession (e : effect) : bool := match e with NewSession _ _ _ _ | DeleteSession _ => false | _ => true end.
Definition calm (e : effect) : Prop := calmUser e = true /\ calmSession e = true.

Lemma online_calm on l : Forall (fun e => calmUser e = true) l -> online on l = Some on.
Proof. induction 1 as [|e l He _ IH]; [done|]. by destruct e. Qed.
Lemma opened_calm on l : Forall (fun e => calmSession e = true) l -> opened on l = Some on.
Proof. induction 1 as [|e l He _ IH]; [done|]. by destruct e. Qed.

Lemma calm_send accepts ss buf charset src dsts ip : Forall calm (snd (SendMsgToDownlink accepts ss buf charset src dsts ip)).
Proof.
  unfold SendMsgToDownlink. case_match; [constructor|]. case_match; [constructor|]. cbn. apply Forall_fmap, Forall_true. by split.
Qed.
Lemma calm_online on l : Forall calm l -> online on l = Some on.
Proof. intros H. apply online_calm. eapply Forall_impl; [exact H|]. by intros e []. Qed.
Lemma calm_opened on l : Forall calm l -> opened on l = Some on.
Proof. intros H. apply opened_calm. eapply Forall_impl; [exact H|]. by intros e []. Qed.
Lemma opened_closeUsers on us e1 e2 : opened on (closeUsers us e1 e2) = Some on.
Proof. apply opened_calm, Forall_fmap, Forall_true. done. Qed.
Lemma online_deleteOld on o : online on (deleteOld o) = Some on.
Proof. by destruct o. Qed.

Lemma calm_kickout accepts ss c u : Forall calm (NotifyKickout accepts ss c u).
Proof. unfold NotifyKickout. case_match; [constructor|]. apply calm_send. Qed.

(** The keys of the users' map are determined by what it finds. *)
Definition users (s : t) : list RTP_MSG_USER := fst <$> m_user2Ctx s.
Definition sessionsOf (m : list (Z * Z)) : list Z := fst <$> m.

Lemma elem_keys (m : list (RTP_MSG_USER * Z)) u : stl_sorted m -> (u ∈ fst <$> m) <-> exists a, stl_find u m = Some (u, a).
Proof.
  intros Hs. split.
  - intros ([k a] & -> & Hin)%list_elem_of_fmap. exists a. exact (stl_sorted_find_elem _ _ Hs Hin).
  - intros (a & [Hin _]%stl_find_Some_elem). apply list_elem_of_fmap. by exists (u, a).
Qed.

Lemma elem_fold_erase us on (u : RTP_MSG_USER) : stl_sorted on ->
  (u ∈ fold_left (fun on u => stl_erase u on) us on) <-> (u ∈ on) /\ u ∉ us.
Proof.
  revert on. induction us as [|v us IH]; intros on Hs; cbn [fold_left].
  - pose proof (not_elem_of_nil u). tauto.
  - rewrite IH by (by apply stl_sorted_erase). rewrite stl_elem_erase_set, not_elem_of_cons by done. tauto.
Qed.
Lemma fold_erase_sorted us (on : list RTP_MSG_USER) : stl_sorted on -> stl_sorted (fold_left (fun on u => stl_erase u on) us on).
Proof. revert on. induction us as [|v us IH]; [done|]. intros on Hs. by apply IH, stl_sorted_erase. Qed.

Lemma sets_ext (l1 l2 : list RTP_MSG_USER) : stl_sorted l1 -> stl_sorted l2 -> (forall u, (u ∈ l1) <-> (u ∈ l2)) -> l1 = l2.
Proof.
  intros H1 H2 E. apply stl_ext; [done..|]. intros u.
  destruct (stl_find u l1) as [v|] eqn:E1.
  - apply stl_find_Some_elem in E1 as [Hin Hk]. change (v = u) in Hk. subst v. symmetry. apply find_user; [done|]. by apply E.
  - destruct (stl_find u l2) as [v|] eqn:E2; [|done]. apply stl_find_Some_elem in E2 as [Hin Hk]. change (v = u) in Hk. subst v.
    apply E in Hin. by rewrite (find_user u l1) in E1.
Qed.

(** Removing the users [us] and telling the observer of each. *)
Lemma online_removed us e1 e2 (m m' : list (RTP_MSG_USER * Z)) : stl_sorted m -> stl_sorted m' -> NoDup us ->
  (forall u, u ∈ us -> exists a, stl_find u m = Some (u, a)) ->
  (forall u a, stl_find u m' = Some (u, a) <-> (u ∉ us) /\ stl_find u m = Some (u, a)) ->
  online (fst <$> m) (closeUsers us e1 e2) = Some (fst <$> m').
Proof.
  intros Hs Hs' Hn Hin Hm'. assert (Hk : stl_sorted (fst <$> m)) by (by apply stl_keys_sorted).
  rewrite online_close; [|done|done|intros u Hu; by apply elem_keys, Hin]. f_equal.
  apply sets_ext; [by apply fold_erase_sorted|by apply stl_keys_sorted|]. intros u.
  rewrite elem_fold_erase, !elem_keys by done. split.
  - intros [[a Ha] Hu]. exists a. by apply Hm'.
  - intros [a [Hu Ha]%Hm']. split; [by exists a|done].
Qed.

(** ** Removals *)

(** What a removal of [user] leaves and reports. *)
Record removal (user : RTP_MSG_USER) (s s' : t) (r : removed) : Prop := mkRemoval {
  rem_maps : s' = setMaps (m_session2Ctx s') (m_user2Ctx s') (heap s') s;
  rem_registry : registry (m_session2Ctx s') (m_user2Ctx s') (heap s');
  rem_user : stl_find user (m_user2Ctx s') = None;
  rem_online : forall e1 e2, online (users s) (closeUsers (oldUsers r) e1 e2) = Some (users s');
  rem_opened : match oldSession r with
               | Some o => stl_find o (m_session2Ctx s) <> None /\ m_session2Ctx s' = stl_erase o (m_session2Ctx s)
               | None => m_session2Ctx s' = m_session2Ctx s
               end;
  rem_notices : Forall calm (notices r);
  rem_fresh : forall a, heap s !! a = None -> heap s' !! a = None;
  rem_others : forall a c, heap s !! a = Some c -> baseUser c <> user ->
    exists c', heap s' !! a = Some c' /\ session c' = session c /\ baseUser c' = baseUser c /\ isC2s c' = isC2s c
}.

Lemma removal_find user s s' r ss : removal user s s' r -> registry (m_session2Ctx s) (m_user2Ctx s) (heap s) ->
  stl_find ss (m_session2Ctx s) = None -> stl_find ss (m_session2Ctx s') = None.
Proof.
  intros H R Hss. pose proof (rem_opened _ _ _ _ H) as Ho. destruct (oldSession r) as [o|].
  - destruct Ho as [Ho ->]. rewrite stl_find_erase_ne; [done|]. by intros ->.
  - by rewrite Ho.
Qed.

Section handlers.
Context (accepts : Z -> bool) (inet_aton : str -> Z).

Lemma members_insert c u : ctx_ok c -> (u ∈ stl_insert (baseUser c) (subUsers c)) <-> member u c.
Proof. intros Hok. rewrite stl_elem_insert_set by (done || by apply (ok_sorted c Hok)). done. Qed.

Lemma members_NoDup c : ctx_ok c -> NoDup (stl_insert (baseUser c) (subUsers c)).
Proof.
  intros Hok. pose proof (stl_sorted_NoDup _ (stl_sorted_insert (baseUser c) _ (ok_sorted c Hok))) as H.
  change (NoDup (id <$> stl_insert (baseUser c) (subUsers c))) in H. by rewrite list_fmap_id in H.
Qed.

Lemma removeUser_ok notify user a s : registry (m_session2Ctx s) (m_user2Ctx s) (heap s) ->
  stl_find user (m_user2Ctx s) = Some (user, a) ->
  exists s' r, removeUser accepts notify user a s = Some (s', r) /\ removal user s s' r.
Proof.
  intros R Hu. pose proof (reg_users _ _ _ R) as Hsu. destruct (reg_ctx _ _ _ R _ _ Hu) as (c & Hc & Hm & Hok).
  unfold removeUser. rewrite Hc. cbn [mbind option_bind]. destruct (eqb user (baseUser c)) eqn:Eb.
  - apply eqb_spec in Eb as ->. do 2 eexists. split; [reflexivity|].
    set (m' := stl_erase (baseUser c) (eraseUsers (subUsers c) (m_user2Ctx s))).
    assert (Hs' : stl_sorted m') by (by apply stl_sorted_erase, eraseUsers_sorted).
    assert (Hm' : forall u b, stl_find u m' = Some (u, b) <-> ~ member u c /\ stl_find u (m_user2Ctx s) = Some (u, b)).
    { intros u b. unfold m', member. rewrite stl_find_erase_iff, find_eraseUsers by (try apply eraseUsers_sorted; done). tauto. }
    pose proof (registry_removeBase _ _ _ R a c m' Hc Hs' Hm') as R'. split; cbn.
    + done.
    + done.
    + destruct (stl_find (baseUser c) m') as [p|] eqn:E; [|done]. destruct (stl_find_pair _ _ _ E) as [b ->].
      apply Hm' in E as [[] _]. by left.
    + intros e1 e2. apply online_removed; [done|done|by apply members_NoDup|..].
      * intros u Hin%members_insert; [|done]. exists a. by apply (reg_member _ _ _ R a c).
      * intros u b. by rewrite members_insert, Hm'.
    + by rewrite (reg_find _ _ _ R a c).
    + constructor.
    + intros b Hb. apply lookup_delete_None. by right.
    + intros b d Hd Hne. exists d. rewrite lookup_delete_ne by congruence. done.
  - destruct Hm as [->|Hsub]; [by rewrite (proj2 (eqb_spec _ _)) in Eb|].
    do 2 eexists. split; [reflexivity|]. pose proof (registry_removeSub _ _ _ R a c user Hc Hsub) as R'. split; cbn.
    + done.
    + done.
    + by apply stl_find_erase_eq.
    + intros e1 e2. apply (online_removed [user] e1 e2); [done|by apply stl_sorted_erase|apply NoDup_singleton|..].
      * intros u ->%list_elem_of_singleton. by exists a.
      * intros u b. by rewrite stl_find_erase_iff, list_elem_of_singleton.
    + done.
    + case_match; [apply calm_kickout|constructor].
    + intros b Hb. rewrite lookup_insert_ne; [done|]. intros <-. congruence.
    + intros b d Hd Hne. destruct (decide (b = a)) as [->|Hab].
      * rewrite lookup_insert_eq. eexists. split; [reflexivity|]. by replace d with c by congruence.
      * rewrite lookup_insert_ne by done. by exists d.
Qed.

Lemma removeOld_removal notify user s : registry (m_session2Ctx s) (m_user2Ctx s) (heap s) ->
  exists s' r, removeOld accepts notify user s = Some (s', r) /\ removal user s s' r.
Proof.
  intros R. unfold removeOld. destruct (stl_find user (m_user2Ctx s)) as [p|] eqn:E.
  - destruct (stl_find_pair _ _ _ E) as [a ->]. by apply removeUser_ok.
  - exists s, (mkRemoved [] None []). split; [done|]. split; cbn; try done; [by destruct s|].
    intros a c Hc _. by exists c.
Qed.

(** ** Steps *)

Definition live (s : t) : list Z := sessionsOf (m_session2Ctx s ++ closing s).

(** A step of the server keeps the invariant and reports what it does. *)
Record good (s s' : t) (effects : list effect) : Prop := mkGood {
  good_con : consistent s';
  good_active : active s = false -> active s' = false;
  good_online : active s = true -> active s' = true -> online (users s) effects = Some (users s');
  good_off : active s = false \/ active s' = false -> forall on, online on effects = Some on;
  good_opened : opened (live s) effects = Some (live s')
}.

Lemma consistent_task s cs k : consistent s -> Forall command_ok cs -> (forall x, k = Some x -> check_ok x) ->
  consistent (setTask cs k s).
Proof. intros [H1 H2 H3 H4 H5] Hcs Hk. by split. Qed.

Lemma consistent_Put s c : consistent s -> command_ok c -> consistent (Put c s).
Proof.
  intros H Hc. apply consistent_task; [done| |by apply con_check]. apply Forall_app. split; [by apply con_commands|].
  by constructor.
Qed.

Lemma consistent_maps s s2c u2c h : consistent s -> active s = true -> registry s2c u2c h -> consistent (setMaps s2c u2c h s).
Proof.
  intros [H1 H2 H3 H4 H5] Ha R. split; cbn; [|congruence|done..]. intros _. split; [done|by apply H1].
Qed.

(** Nothing is registered or removed. *)
Lemma good_quiet s s' effects : consistent s' -> active s' = active s -> m_session2Ctx s' = m_session2Ctx s ->
  m_user2Ctx s' = m_user2Ctx s -> closing s' = closing s -> Forall calm effects -> good s s' effects.
Proof.
  intros Hc Ha H1 H2 H3 He. split; [done|congruence|..].
  - intros _ _. unfold users. rewrite H2. by apply calm_online.
  - intros _ on. by apply calm_online.
  - unfold live. rewrite H1, H3. by apply calm_opened.
Qed.

Lemma good_none s : consistent s -> good s s [].
Proof. intros H. by apply good_quiet. Qed.

Lemma opened_old o (m m' : list (Z * Z)) :
  match o with Some x => stl_find x m <> None /\ m' = stl_erase x m | None => m' = m end ->
  opened (sessionsOf m) (deleteOld o) = Some (sessionsOf m').
Proof.
  destruct o as [x|]; [|by intros ->]. intros [Hx ->]. cbn. unfold sessionsOf. rewrite stl_keys_find by done.
  destruct (stl_find x m); [|done]. cbn. by rewrite stl_keys_erase.
Qed.

(** A removal on its own. *)
Lemma good_removal user s s' r e1 e2 : consistent s -> active s = true -> removal user s s' r ->
  good s s' (notices r ++ closeUsers (oldUsers r) e1 e2 ++ deleteOld (oldSession r)).
Proof.
  intros Hc Ha H. destruct (con_on s Hc Ha) as [R Hcl]. pose proof (rem_maps _ _ _ _ H) as E.
  assert (Ha' : active s' = true) by (by rewrite E). assert (Hcl' : closing s' = []) by (by rewrite E).
  split; [|congruence|..].
  - rewrite E. apply consistent_maps; [done..|by apply (rem_registry _ _ _ _ H)].
  - intros _ _. rewrite online_app, calm_online by apply (rem_notices _ _ _ _ H). cbn [mbind option_bind].
    rewrite online_app, (rem_online _ _ _ _ H). apply online_deleteOld.
  - intros [?|?]; congruence.
  - unfold live. rewrite Hcl, Hcl', !app_nil_r, opened_app, calm_opened by apply (rem_notices _ _ _ _ H).
    cbn [mbind option_bind]. rewrite opened_app, opened_closeUsers. cbn [mbind option_bind]. apply opened_old, (rem_opened _ _ _ _ H).
Qed.

Lemma AsyncKickoutUser_ok cid uid iid s : consistent s ->
  exists s' effects, AsyncKickoutUser accepts cid uid iid s = Some (s', effects) /\ good s s' effects.
Proof.
  intros Hc. unfold AsyncKickoutUser. destruct (active s) eqn:Ha; cbn [negb].
  2: { do 2 eexists. split; [reflexivity|]. by apply good_none. }
  set (user := make (u8 cid) uid (u16 iid)). destruct (stl_find user (m_user2Ctx s)) as [p|] eqn:E.
  2: { do 2 eexists. split; [reflexivity|]. by apply good_none. }
  destruct (stl_find_pair _ _ _ E) as [a ->].
  destruct (removeUser_ok (fun _ => true) user a s) as (s' & r & Er & Hr); [by apply con_on|done|].
  rewrite Er. cbn [mbind option_bind]. do 2 eexists. split; [reflexivity|]. by apply (good_removal user).
Qed.

Lemma AsyncOnCloseSession_ok ss e1 e2 s : consistent s ->
  exists s' effects, AsyncOnCloseSession ss e1 e2 s = Some (s', effects) /\ good s s' effects.
Proof.
  intros Hc. unfold AsyncOnCloseSession. destruct (active s) eqn:Ha; cbn [negb].
  2: { do 2 eexists. split; [reflexivity|]. by apply good_none. }
  destruct (con_on s Hc Ha) as [R Hcl].
  destruct (stl_find ss (m_session2Ctx s)) as [p|] eqn:E.
  2: { do 2 eexists. split; [reflexivity|]. by apply good_none. }
  destruct (stl_find_pair _ _ _ E) as [a ->]. destruct (proj1 (reg_session _ _ _ R ss a) E) as (c & Hc' & <-).
  rewrite Hc'. cbn [mbind option_bind]. do 2 eexists. split; [reflexivity|].
  pose proof (reg_ok _ _ _ R a c Hc') as Hok. pose proof (reg_users _ _ _ R) as Hsu.
  set (us := stl_insert (baseUser c) (subUsers c)). set (m' := eraseUsers us (m_user2Ctx s)).
  assert (Hs' : stl_sorted m') by (by apply eraseUsers_sorted).
  assert (Hm' : forall u b, stl_find u m' = Some (u, b) <-> ~ member u c /\ stl_find u (m_user2Ctx s) = Some (u, b)).
  { intros u b. unfold m', us. by rewrite find_eraseUsers, members_insert. }
  pose proof (registry_removeBase _ _ _ R a c m' Hc' Hs' Hm') as R'.
  split; cbn [active setMaps]; [by apply consistent_maps|congruence|..].
  - intros _ _. unfold users at 1. rewrite online_app, (online_removed us e1 e2 (m_user2Ctx s) m'); [done|done|done|by apply members_NoDup|..].
    + intros u Hin%members_insert; [|done]. exists a. by apply (reg_member _ _ _ R a c).
    + intros u b. unfold us. by rewrite members_insert, Hm'.
  - intros [?|?]; congruence.
  - unfold live. cbn [m_session2Ctx closing setMaps]. rewrite Hcl, !app_nil_r, opened_app, opened_closeUsers. cbn [mbind option_bind].
    apply (opened_old (Some (session c))). by rewrite E.
Qed.

Lemma opened_assign ss a o (m m' : list (Z * Z)) : stl_sorted m -> stl_find ss m = None ->
  match o with Some x => stl_find x m <> None /\ m' = stl_erase x m | None => m' = m end ->
  match o with
  | Some x => stl_find x (stl_assign (ss, a) m) <> None /\ stl_assign (ss, a) m' = stl_erase x (stl_assign (ss, a) m)
  | None => stl_assign (ss, a) m' = stl_assign (ss, a) m
  end.
Proof.
  intros Hs Hf. destruct o as [x|]; [|by intros ->]. intros [Hx ->]. assert (Hne : x <> ss) by (intros ->; congruence).
  rewrite stl_find_assign_ne by done. split; [done|].
  apply stl_ext; [by apply stl_sorted_assign, stl_sorted_erase|by apply stl_sorted_erase, stl_sorted_assign|]. intros k.
  destruct (decide (k = ss)) as [->|Hk].
  - by rewrite stl_find_assign_pair, stl_find_erase_ne, stl_find_assign_pair by done.
  - rewrite stl_find_assign_ne by done. destruct (decide (k = x)) as [->|Hkx].
    + by rewrite !stl_find_erase_eq by (try apply stl_sorted_assign; done).
    + by rewrite !stl_find_erase_ne, stl_find_assign_ne by done.
Qed.

Lemma users_assign (m : list (RTP_MSG_USER * Z)) u a rest : stl_sorted m -> stl_find u m = None ->
  forall ip c2s app, online (fst <$> m) (OkUser u ip c2s app :: rest) = online (fst <$> stl_assign (u, a) m) rest.
Proof. intros Hs Hf ip c2s app. cbn. rewrite stl_keys_find, Hf by done. cbn. by rewrite stl_keys_assign. Qed.

Lemma AddBaseUser_ok new type ssl sock user ip data c2s s : consistent s -> wf user ->
  match new with
  | Some (ss, a) => stl_find ss (m_session2Ctx s ++ closing s) = None /\ heap s !! a = None
  | None => True
  end ->
  exists ret s' effects, AddBaseUser accepts inet_aton new type ssl sock user ip data c2s s = Some (ret, s', effects) /\
    good s s' effects.
Proof.
  intros Hc Hw Hnew. unfold AddBaseUser. destruct ((classId user =? 0) || (UserId user =? 0)) eqn:G.
  { do 3 eexists. split; [reflexivity|]. by apply good_none. }
  apply orb_false_iff in G as [G1%Z.eqb_neq G2%Z.eqb_neq]. destruct (active s) eqn:Ha; cbn [negb].
  2: { do 3 eexists. split; [reflexivity|]. by apply good_none. }
  destruct new as [[ss a]|].
  2: { do 3 eexists. split; [reflexivity|]. by apply good_none. }
  destruct (con_on s Hc Ha) as [R Hcl]. destruct Hnew as [Hss Hfree]. rewrite Hcl, app_nil_r in Hss.
  destruct (removeOld_removal (fun _ => true) user s R) as (s' & r & Er & H). rewrite Er. cbn [mbind option_bind].
  do 3 eexists. split; [reflexivity|]. pose proof (rem_maps _ _ _ _ H) as E.
  assert (Ha' : active s' = true) by (by rewrite E). assert (Hcl' : closing s' = []) by (by rewrite E).
  pose proof (rem_registry _ _ _ _ H) as R'. pose proof (removal_find _ _ _ _ _ H R Hss) as Hss'.
  pose proof (registry_addBase _ _ _ R' a ss user c2s (rem_fresh _ _ _ _ H a Hfree) Hss' (rem_user _ _ _ _ H) Hw G1 G2) as R2.
  assert (Hc' : consistent s') by (rewrite E; by apply consistent_maps).
  split; cbn [active setMaps]; [by apply consistent_maps|congruence|..].
  - intros _ _. rewrite (online_then _ (users s)) by done.
    rewrite (online_then _ _ _ _ (calm_online _ _ (rem_notices _ _ _ _ H))), (online_then _ _ _ _ (rem_online _ _ _ _ H _ _)).
    rewrite (online_then _ (users s')) by done. rewrite (online_then _ _ _ _ (calm_online _ _ (calm_send _ _ _ _ _ _ _))).
    unfold users at 1. rewrite (online_then _ _ _ _ (users_assign _ user a [ResumeRecv ss] (reg_users _ _ _ R') (rem_user _ _ _ _ H) _ _ _)).
    apply online_deleteOld.
  - intros [?|?]; congruence.
  - unfold live. cbn [m_session2Ctx closing setMaps]. rewrite Hcl, Hcl', !app_nil_r.
    rewrite (opened_then _ (sessionsOf (stl_assign (ss, a) (m_session2Ctx s)))).
    2: { cbn. unfold sessionsOf. rewrite stl_keys_find, Hss by done. cbn. by rewrite stl_keys_assign by (done || apply (reg_sessions _ _ _ R)). }
    rewrite (opened_then _ _ _ _ (calm_opened _ _ (rem_notices _ _ _ _ H))), (opened_then _ _ _ _ (opened_closeUsers _ _ _ _)).
    cbn [app opened]. rewrite (opened_then _ _ _ _ (calm_opened _ _ (calm_send _ _ _ _ _ _ _))). cbn [app opened].
    apply opened_old, opened_assign; [by apply (reg_sessions _ _ _ R)|done|apply (rem_opened _ _ _ _ H)].
Qed.

Lemma AddSubUser_ok c2sUser subUser ip text data s : consistent s -> wf subUser ->
  exists s' effects, AddSubUser accepts c2sUser subUser ip text data s = Some (s', effects) /\ good s s' effects.
Proof.
  intros Hc Hw. unfold AddSubUser. destruct (_ || _) eqn:G.
  { do 2 eexists. split; [reflexivity|]. by apply good_none. }
  apply orb_false_iff in G as [G Hne]. apply orb_false_iff in G as [G G3%Z.eqb_neq]. apply orb_false_iff in G as [G G2%Z.eqb_neq].
  apply orb_false_iff in G as [G1%negb_false_iff%Z.eqb_eq _]. assert (Hne' : c2sUser <> subUser).
  { intros ->. by rewrite (proj2 (eqb_spec _ _)) in Hne. }
  destruct (active s) eqn:Ha; cbn [negb].
  2: { do 2 eexists. split; [reflexivity|]. by apply good_none. }
  destruct (con_on s Hc Ha) as [R Hcl]. destruct (stl_find c2sUser (m_user2Ctx s)) as [p|] eqn:Ep.
  2: { do 2 eexists. split; [reflexivity|]. by apply good_none. }
  destruct (stl_find_pair _ _ _ Ep) as [a ->]. destruct (reg_ctx _ _ _ R _ _ Ep) as (c & Hca & _ & _).
  rewrite Hca. cbn [mbind option_bind]. destruct (negb (isC2s c) || negb (eqb c2sUser (baseUser c))) eqn:Gc.
  { do 2 eexists. split; [reflexivity|]. by apply good_none. }
  apply orb_false_iff in Gc as [Gc%negb_false_iff Gb%negb_false_iff%eqb_spec].
  destruct (removeOld_removal (fun o => negb (eqb c2sUser (baseUser o))) subUser s R) as (s' & r & Er & H).
  rewrite Er. cbn [mbind option_bind].
  destruct (rem_others _ _ _ _ H a c Hca) as (c' & Hca' & E1 & E2 & E3); [congruence|]. rewrite Hca'. cbn [mbind option_bind].
  do 2 eexists. split; [reflexivity|]. pose proof (rem_maps _ _ _ _ H) as E.
  assert (Ha' : active s' = true) by (by rewrite E). assert (Hcl' : closing s' = []) by (by rewrite E).
  pose proof (rem_registry _ _ _ _ H) as R'.
  assert (R2 : registry (m_session2Ctx s') (stl_assign (subUser, a) (m_user2Ctx s'))
    (<[a := mkCtx (session c') (baseUser c') (stl_insert subUser (subUsers c')) (isC2s c')]> (heap s'))).
  { apply registry_addSub; try done; [by apply (rem_user _ _ _ _ H)|congruence|by rewrite E2, <- Gb]. }
  assert (Hc' : consistent s') by (rewrite E; by apply consistent_maps).
  set (red := if zlen (stl_insert subUser (subUsers c')) =? 1 then _ else _).
  assert (Hred : Forall calm red) by (unfold red; case_match; by repeat constructor). clearbody red.
  split; cbn [active setMaps]; [by apply consistent_maps|congruence|..].
  - intros _ _. rewrite (online_then _ _ _ _ (calm_online _ _ (rem_notices _ _ _ _ H))), (online_then _ _ _ _ (calm_online _ _ Hred)).
    rewrite (online_then _ _ _ _ (rem_online _ _ _ _ H _ _)).
    rewrite (online_then _ (users s')) by done. rewrite (online_then _ _ _ _ (calm_online _ _ (calm_send _ _ _ _ _ _ _))).
    unfold users at 1. rewrite (online_then _ _ _ _ (users_assign _ subUser a [ResumeRecv (session c')] (reg_users _ _ _ R') (rem_user _ _ _ _ H) _ _ _)).
    apply online_deleteOld.
  - intros [?|?]; congruence.
  - unfold live. cbn [m_session2Ctx closing setMaps]. rewrite Hcl, Hcl', !app_nil_r.
    rewrite (opened_then _ _ _ _ (calm_opened _ _ (rem_notices _ _ _ _ H))), (opened_then _ _ _ _ (calm_opened _ _ Hred)).
    rewrite (opened_then _ _ _ _ (opened_closeUsers _ _ _ _)). cbn [app opened].
    rewrite (opened_then _ _ _ _ (calm_opened _ _ (calm_send _ _ _ _ _ _ _))). cbn [app opened].
    apply opened_old, (rem_opened _ _ _ _ H).
Qed.

(** *** Users that come from outside *)

Lemma setInstId_wf i u : 0 <= i < 2 ^ 16 -> wf u -> wf (setInstId i u).
Proof. intros Hi [H1 H2 _]. by split. Qed.

Lemma make_wf cid uid iid : wf (make (u8 cid) uid (u16 iid)).
Proof.
  unfold make. apply setUserId_wf. split; cbn; [apply (wrap_range 8); lia|repeat constructor; lia|apply (wrap_range 16); lia].
Qed.

Lemma string2User_wf str u : RtpMsgString2User str = Some u -> wf u.
Proof.
  unfold RtpMsgString2User. destruct (fields (cstr str)) as [[cid uid] iid].
  assert (Hz : wf Zero) by (by repeat split; repeat constructor).
  assert (Hall : (negb (allDigits cid) || negb (allDigits uid) || negb (allDigits iid) = false -> True)) by done.
  repeat case_match; try (by intros [= <-]); intros E; repeat (apply bind_Some in E as (? & _ & E));
    case_match; injection E as <-; by try apply make_wf.
Qed.

Lemma ofBytes_wf off m : is_bytes m -> 0 <= off -> wf (ofBytes off m).
Proof.
  intros Hm Ho. assert (Hl : forall k, 0 <= k -> 0 <= load 1 k m < 256).
  { intros k Hk. unfold load. assert (Hb : is_bytes (zsub k (Z.of_nat 1) m)) by (by apply is_bytes_zsub).
    pose proof (of_le_range _ Hb) as Hr. assert (zlen (zsub k (Z.of_nat 1) m) <= 1).
    { unfold zsub, zlen, ztake. rewrite length_take. lia. }
    pose proof (Z.pow_le_mono_r 2 (8 * zlen (zsub k (Z.of_nat 1) m)) 8). lia. }
  split; cbn; [apply Hl; lia|repeat constructor; apply Hl; lia|]. apply hton16_range.
Qed.

Lemma MakeId_range n : 0 <= n < 2 ^ 40 -> 0 <= fst (MakeId n) < 2 ^ 40 /\ 0 <= snd (MakeId n) < 2 ^ 40.
Proof.
  intros Hn. unfold MakeId. change (Z.lor (Z.shiftl 255 32) 4294967295) with (2 ^ 40 - 1).
  change (Z.shiftl 240 32) with 1030792151040. rewrite wrap_small by lia. cbn [fst snd].
  split; [done|]. destruct (n + 1 >? 2 ^ 40 - 1) eqn:E; lia.
Qed.

Lemma assignId_ok u s : consistent s -> wf u ->
  let '(u', s') := assignId u s in
  wf u' /\ classId u' = classId u /\ consistent s' /\ active s' = active s /\ m_session2Ctx s' = m_session2Ctx s /\
  m_user2Ctx s' = m_user2Ctx s /\ closing s' = closing s /\ commands s' = commands s.
Proof.
  intros Hc Hw. pose proof (con_ids s Hc) as [H1 H2]. unfold assignId. destruct (UserId u =? 0); [|done].
  pose proof (MakeId_range _ H1) as [I1 N1]. pose proof (MakeId_range _ H2) as [I2 N2].
  destruct (classId u =? SERVER_CID).
  - destruct (MakeId (g_s_nextServerId s)) as [id n]. split_and!; try done.
    + apply setInstId_wf; [done|]. by apply setUserId_wf.
    + destruct Hc. by split.
  - destruct (MakeId (g_s_nextClientId s)) as [id n]. split_and!; try done.
    + apply setInstId_wf; [done|]. by apply setUserId_wf.
    + destruct Hc. by split.
Qed.

(** A login that is passed to the observer. *)
Lemma good_check u s k effects : consistent s -> wf u ->
  (forall u', wf u' -> classId u' = classId u -> check_ok (k u')) -> (forall u', Forall calm (effects u')) ->
  good s (setTask (commands (snd (assignId u s))) (Some (k (fst (assignId u s)))) (snd (assignId u s))) (effects (fst (assignId u s))).
Proof.
  intros Hc Hw Hk He. pose proof (assignId_ok u s Hc Hw) as H. destruct (assignId u s) as [u' s'].
  destruct H as (Hw' & Hcl & Hc' & E1 & E2 & E3 & E4 & E5). cbn [fst snd]. apply good_quiet; try done.
  apply consistent_task; [done|by apply con_commands|]. intros x [= <-]. by apply Hk.
Qed.

Lemma AsyncOnAcceptSession_ok arg s : consistent s -> is_bytes (userData arg) ->
  good s (fst (AsyncOnAcceptSession arg s)) (snd (AsyncOnAcceptSession arg s)).
Proof.
  intros Hc Hb. unfold AsyncOnAcceptSession.
  assert (Hexit : good s s [CloseSocket (sslCtx arg) (sockId arg)]) by (apply good_quiet; try done; by repeat constructor).
  repeat (match goal with |- context [if ?b then (s, _) else _] => destruct b eqn:?; [exact Hexit|] end).
  pose proof (good_check (ofBytes 4 (userData arg)) s (CheckBase arg)
    (fun u => [CheckUser u (cstr (remoteIp arg)) None (passwordHash arg) (nonce arg)]) Hc
    (ofBytes_wf 4 _ Hb ltac:(lia))) as H.
  destruct (assignId (ofBytes 4 (userData arg)) s) as [u s']. apply H.
  - intros u' Hw' E. split; [done|]. rewrite E.
    match goal with Hl : badLogin _ = false |- _ => apply orb_false_iff in Hl as [Hl _]; apply orb_false_iff in Hl as [Hl%Z.eqb_neq _]; done end.
  - by repeat constructor.
Qed.

Lemma onCheckBase_ok new ans arg u s : consistent s -> wf u -> 0 <= newInstId ans < 2 ^ 16 ->
  match new with
  | Some (ss, a) => stl_find ss (m_session2Ctx s ++ closing s) = None /\ heap s !! a = None
  | None => True
  end ->
  exists s' effects, onCheckBase accepts inet_aton new ans arg u s = Some (s', effects) /\ good s s' effects.
Proof.
  intros Hc Hw Hi Hnew. unfold onCheckBase.
  assert (Hexit : good s s [CloseSocket (sslCtx arg) (sockId arg)]) by (apply good_quiet; try done; by repeat constructor).
  destruct (negb (accepted ans)); [by do 2 eexists|]. destruct (_ || _); [by do 2 eexists|].
  destruct (AddBaseUser_ok new (if sessionType arg =? RTP_ST_SSLCLIENT_EX then RTP_ST_SSLSERVER_EX else RTP_ST_TCPSERVER_EX)
    (sslCtx arg) (sockId arg) (setInstId (newInstId ans) (setUserId (userId ans) u)) (remoteIp arg) (appData ans) (newIsC2s ans) s Hc)
    as (ret & s' & effects & -> & G); [by apply setInstId_wf, setUserId_wf|done|].
  do 2 eexists. split; [reflexivity|]. destruct ret; [by rewrite app_nil_r|]. destruct G as [G1 G2 G3 G4 G5].
  split; [done|done|..].
  - intros H1 H2. by rewrite (online_then _ _ _ _ (G3 H1 H2)).
  - intros H on. by rewrite (online_then _ _ _ _ (G4 H on)).
  - by rewrite (opened_then _ _ _ _ G5).
Qed.

Lemma good_loginError ss c i s : consistent s -> good s s (loginError accepts ss c i).
Proof. intros Hc. apply good_quiet; try done. apply calm_send. Qed.

Lemma ProcessMsg_client_login_ok ss st c s : consistent s -> readable st -> wf c ->
  exists s' effects, ProcessMsg_client_login ss st c s = Some (s', effects) /\ good s s' effects.
Proof.
  intros Hc (H1 & H2 & H3) Hw. pose proof (good_none s Hc) as Hs. unfold ProcessMsg_client_login.
  destruct (_ || _); [by do 2 eexists|].
  destruct (CProConfigStream.GetUint TAG_client_index st) as [i|]; [|done].
  destruct (CProConfigStream.GetUint64 TAG_client_nonce st) as [n|]; [|done]. cbn [mbind option_bind].
  destruct (RtpMsgString2User (CProConfigStream.Get TAG_client_id st)) as [u|] eqn:Eu; [|done]. cbn [mbind option_bind].
  apply string2User_wf in Eu. destruct (badLogin u || eqb u c) eqn:G; [by do 2 eexists|].
  apply orb_false_iff in G as [G _]. apply orb_false_iff in G as [G _]. apply orb_false_iff in G as [G%Z.eqb_neq _].
  destruct (negb _); [by do 2 eexists|]. destruct (negb _); [by do 2 eexists|].
  set (h := hashOf _). set (ip := CProConfigStream.Get TAG_client_public_ip st).
  pose proof (good_check u s (fun u => CheckSub ss c u i ip) (fun u => [CheckUser u (cstr ip) (Some c) h n]) Hc Eu) as H.
  destruct (assignId u s) as [u' s']. do 2 eexists. split; [reflexivity|]. apply H.
  - intros v Hv E. split_and!; [done|done|congruence].
  - by repeat constructor.
Qed.

Lemma onCheckSub_ok ans ss c u i ip s : consistent s -> wf c -> wf u -> 0 <= newInstId ans < 2 ^ 16 ->
  exists s' effects, onCheckSub accepts ans ss c u i ip s = Some (s', effects) /\ good s s' effects.
Proof.
  intros Hc Hw Hu Hi. unfold onCheckSub. pose proof (good_loginError ss c i s Hc).
  destruct (negb _); [by do 2 eexists|]. destruct (_ || _); [by do 2 eexists|].
  apply AddSubUser_ok; [done|]. by apply setInstId_wf, setUserId_wf.
Qed.

Lemma ProcessMsg_client_logout_ok ss st c s : consistent s -> readable st ->
  exists s' effects, ProcessMsg_client_logout ss st c s = Some (s', effects) /\ good s s' effects.
Proof.
  intros Hc (_ & _ & H3). pose proof (good_none s Hc) as Hs. unfold ProcessMsg_client_logout.
  destruct (_ || _); [by do 2 eexists|].
  destruct (RtpMsgString2User (CProConfigStream.Get TAG_client_id st)) as [u|] eqn:Eu; [|done]. cbn [mbind option_bind].
  destruct (_ || eqb u c) eqn:G; [by do 2 eexists|]. apply orb_false_iff in G as [_ Hne].
  destruct (active s) eqn:Ha; cbn [negb]; [|by do 2 eexists]. destruct (con_on s Hc Ha) as [R Hcl].
  destruct (stl_find u (m_user2Ctx s)) as [p|] eqn:Ep; [|by do 2 eexists]. destruct (stl_find_pair _ _ _ Ep) as [a ->].
  destruct (reg_ctx _ _ _ R _ _ Ep) as (d & Hd & Hm & _). rewrite Hd. cbn [mbind option_bind].
  destruct (negb (isC2s d) || negb (eqb c (baseUser d))) eqn:Gd; [by do 2 eexists|].
  apply orb_false_iff in Gd as [_ Eb%negb_false_iff%eqb_spec].
  do 2 eexists. split; [reflexivity|]. assert (Hsub : u ∈ subUsers d).
  { destruct Hm as [->|]; [|done]. by rewrite Eb, (proj2 (eqb_spec _ _)) in Hne. }
  pose proof (registry_removeSub _ _ _ R a d u Hd Hsub) as R'. pose proof (reg_users _ _ _ R) as Hsu.
  split; cbn [active setMaps]; [by apply consistent_maps|congruence|..].
  - intros _ _. apply (online_removed [u] (-1) 0 (m_user2Ctx s)); [done|by apply stl_sorted_erase|apply NoDup_singleton|..].
    + intros v ->%list_elem_of_singleton. by exists a.
    + intros v b. cbn [m_user2Ctx setMaps]. by rewrite stl_find_erase_iff, list_elem_of_singleton.
  - intros [?|?]; congruence.
  - done.
Qed.

Lemma AsyncOnRecvSession_ok ss st c s : consistent s -> readable st -> wf c ->
  exists s' effects, AsyncOnRecvSession ss st c s = Some (s', effects) /\ good s s' effects.
Proof.
  intros Hc Hr Hw. unfold AsyncOnRecvSession. case_match; [by apply ProcessMsg_client_login_ok|].
  case_match; [by apply ProcessMsg_client_logout_ok|]. do 2 eexists. split; [reflexivity|]. by apply good_none.
Qed.

(** *** Messages *)

Lemma sendAlong_calm r buf charset src : Forall calm (snd (sendAlong accepts r buf charset src)).
Proof.
  unfold sendAlong. cbn [snd]. apply Forall_app. split; [case_match; [constructor|apply calm_send]|].
  rewrite map_map. induction (session2Users r) as [|e l IH]; [constructor|]. cbn [map concat].
  apply Forall_app. split; [apply calm_send|exact IH].
Qed.

Lemma routeTo_total s u a r : registry (m_session2Ctx s) (m_user2Ctx s) (heap s) ->
  stl_find u (m_user2Ctx s) = Some (u, a) -> exists r', routeTo s u a r = Some r'.
Proof. intros R E. destruct (reg_ctx _ _ _ R _ _ E) as (c & Hc & _). unfold routeTo. rewrite Hc. by eexists. Qed.

Lemma routeAll_total s dsts r : registry (m_session2Ctx s) (m_user2Ctx s) (heap s) ->
  exists b r', routeAll s dsts r = Some (b, r').
Proof.
  intros R. revert r. induction dsts as [|d dsts IH]; intros r; [by do 2 eexists|]. cbn [routeAll].
  assert (Hskip : exists b r', ('(_, r) ← routeAll s dsts r; Some (false, r)) = Some (b, r')).
  { destruct (IH r) as (b & r' & ->). by do 2 eexists. }
  case_match; [done|]. destruct (stl_find d (m_user2Ctx s)) as [p|] eqn:E; [|done].
  destruct (stl_find_pair _ _ _ E) as [a ->]. destruct (routeTo_total s d a r R E) as [r' ->]. apply IH.
Qed.

Lemma routeRecv_total s m n : registry (m_session2Ctx s) (m_user2Ctx s) (heap s) -> forall i b1 b2 r,
  0 <= i -> 16 + 8 * (i + Z.of_nat n) <= zlen m -> exists b1' b2' r', routeRecv s m n i b1 b2 r = Some (b1', b2', r').
Proof.
  intros R. induction n as [|n IH]; intros i b1 b2 r Hi Hm; [by do 3 eexists|]. cbn [routeRecv].
  unfold readUser, sizeof_RTP_MSG_USER. rewrite (proj2 (Z.leb_le _ _)) by lia. cbn [mbind option_bind].
  set (d := ofBytes _ m). assert (Hn : forall b1 b2 r, exists b1' b2' r', routeRecv s m n (i + 1) b1 b2 r = Some (b1', b2', r')).
  { intros *. apply IH; lia. }
  case_match; [done|]. case_match; [by case_match|]. destruct (stl_find d (m_user2Ctx s)) as [p|] eqn:E; [|done].
  destruct (stl_find_pair _ _ _ E) as [a ->]. destruct (routeTo_total s d a r R E) as [r' ->]. apply Hn.
Qed.

Lemma SendMsg_ok buf charset dsts s : consistent s ->
  exists b effects, SendMsg accepts buf charset dsts s = Some (b, effects) /\ good s s effects.
Proof.
  intros Hc. pose proof (good_none s Hc). unfold SendMsg. destruct (_ || _); [by do 2 eexists|].
  destruct (active s) eqn:Ha; cbn [negb]; [|by do 2 eexists]. destruct (con_on s Hc Ha) as [R _].
  destruct (routeAll_total s dsts (mkRoutes [] []) R) as (b & r & ->). cbn [mbind option_bind].
  pose proof (sendAlong_calm r buf charset ROOT_ID) as Hcalm. destruct (sendAlong accepts r buf charset ROOT_ID) as [b' effects].
  do 2 eexists. split; [reflexivity|]. by apply good_quiet.
Qed.

Lemma StringToConfigs_total body : is_bytes body -> exists ret configs, CProConfigStream.StringToConfigs body = Some (ret, configs).
Proof.
  intros Hb. unfold CProConfigStream.StringToConfigs, CProConfigStream.BufToConfigs. destruct body as [|b body]; [by do 2 eexists|].
  destruct (TextLemmas.parseLines_total (S (length (b :: body))) false (b :: body) []) as (ret & configs & E & _);
    [lia|done|constructor|by do 2 eexists].
Qed.

Lemma fromC2s_ok ss src c body s : consistent s -> wf src -> is_bytes body ->
  exists s', fromC2s ss src c body s = Some s' /\ consistent s' /\ active s' = active s /\ m_session2Ctx s' = m_session2Ctx s /\
    m_user2Ctx s' = m_user2Ctx s /\ closing s' = closing s.
Proof.
  intros Hc Hw Hb. unfold fromC2s. destruct (_ || _); [by eexists|].
  destruct (StringToConfigs_total body Hb) as (ok & configs & ->). cbn [mbind option_bind].
  repeat case_match; (eexists; split; [reflexivity|]); split_and!; try done; by apply consistent_Put.
Qed.

Lemma OnRecvSession_ok ss m s : consistent s -> is_bytes m -> zlen m <= MAX_PAYLOAD_SIZE -> complete m ->
  exists s' effects, OnRecvSession accepts ss m s = Some (s', effects) /\ good s s' effects.
Proof.
  intros Hc Hb Hmax Hcomp. pose proof (good_none s Hc) as Hs. unfold OnRecvSession, MAX_PAYLOAD_SIZE, complete in *.
  destruct ((ss =? 0) || (zlen m <=? sizeof_RTP_MSG_HEADER)) eqn:G; [by do 2 eexists|].
  apply orb_false_iff in G as [_ G%Z.leb_gt]. specialize (Hcomp ltac:(lia)). unfold sizeof_RTP_MSG_HEADER, sizeof_RTP_MSG_USER in *.
  assert (Hn : 0 <= load 1 15 m < 256) by (apply (load_range 1); [done|lia|lia]).
  set (count := if load 1 15 m =? 0 then 1 else load 1 15 m).
  assert (Hcount : 1 <= count < 256 /\ 24 + 8 * (count - 1) <= zlen m) by (unfold count; destruct (Z.eqb_spec (load 1 15 m) 0); lia).
  clearbody count. set (size := u64 (zlen m - (24 + 8 * (count - 1)))).
  assert (Esize : size = zlen m - (24 + 8 * (count - 1))) by (unfold size; apply wrap_small; lia). clearbody size.
  assert (Hread : forall k, 0 <= k <= size -> exists body, readBody (24 + 8 * (count - 1)) k m = Some body /\ is_bytes body).
  { intros k Hk. unfold readBody. rewrite (proj2 (Z.leb_le _ _)) by lia. eexists. split; [reflexivity|]. by apply is_bytes_zsub. }
  set (src := ofBytes 4 m). assert (Hw : wf src) by (apply ofBytes_wf; [done|lia]). clearbody src.
  destruct (_ || _); [by do 2 eexists|]. destruct (active s) eqn:Ha; cbn [negb]; [|by do 2 eexists].
  destruct (con_on s Hc Ha) as [R _]. destruct (stl_find ss (m_session2Ctx s)) as [p|] eqn:E; [|by do 2 eexists].
  destruct (stl_find_pair _ _ _ E) as [a ->]. destruct (proj1 (reg_session _ _ _ R ss a) E) as (c & Hca & _).
  rewrite Hca. cbn [mbind option_bind]. destruct (negb _ && _); [by do 2 eexists|].
  destruct (routeRecv_total s m (Z.to_nat count) R 0 false false (mkRoutes [] [])) as (toRoot & toC2s & r & ->); [lia|lia|].
  destruct (Hread (u16 size)) as (body & -> & Hbody).
  { rewrite wrap_small by lia. lia. }
  destruct (Hread size) as (whole & -> & Hwhole); [lia|]. cbn [mbind option_bind].
  set (effects := match sessions r, session2Users r with [], [] => _ | _, _ => _ end).
  assert (He : exists l, effects = Some l /\ Forall calm l).
  { unfold effects. destruct (sessions r), (session2Users r); eexists; (split; [reflexivity|]); try apply sendAlong_calm; constructor. }
  clearbody effects. destruct He as (l & -> & Hl). cbn [mbind option_bind].
  assert (Hs' : exists s', (if (toC2s : bool) then fromC2s ss src c whole s else Some s) = Some s' /\ consistent s' /\ active s' = active s /\
    m_session2Ctx s' = m_session2Ctx s /\ m_user2Ctx s' = m_user2Ctx s /\ closing s' = closing s).
  { destruct toC2s; [by apply fromC2s_ok|by exists s]. }
  destruct Hs' as (s' & -> & Hc' & E1 & E2 & E3 & E4). cbn [mbind option_bind].
  destruct toRoot; do 2 eexists; (split; [reflexivity|]); apply good_quiet; try done.
  apply Forall_app. split; [done|]. by repeat constructor.
Qed.
End handlers.
End RegistryLemmas.

Module RegistryTheorems.
Import RegistrySpec RegistryLemmas.

Section theorems.
Context (accepts : Z -> bool) (inet_aton : str -> Z).

Lemma good_task s s' cs k effects : good (setTask cs k s) s' effects -> good s s' effects.
Proof. by intros [H1 H2 H3 H4 H5]. Qed.

Lemma FiniBegin_ok s : consistent s -> good s (FiniBegin s) [].
Proof.
  intros Hc. unfold FiniBegin. destruct (active s) eqn:Ha; cbn [negb]; [|by apply good_none].
  destruct (con_on s Hc Ha) as [R Hcl]. destruct Hc as [H1 H2 H3 H4 H5]. split; cbn; try done.
  - split; cbn; try done. intros _. split_and!; [done|done|by apply (reg_sessions _ _ _ R)|by apply (reg_session _ _ _ R)].
  - unfold live. cbn. by rewrite Hcl, app_nil_r.
Qed.

Lemma opened_closing (m : list (Z * Z)) : opened (sessionsOf m) (map (fun e => DeleteSession (fst e)) m) = Some [].
Proof.
  induction m as [|[ss a] m IH]; [done|]. cbn [map opened sessionsOf fmap list_fmap fst stl_find stl_erase].
  change (stl_key ss) with ss. rewrite stl_equiv_refl. exact IH.
Qed.

Lemma FiniEnd_ok s : consistent s -> active s = false -> good s (fst (FiniEnd s)) (snd (FiniEnd s)).
Proof.
  intros Hc Ha. destruct (con_off s Hc Ha) as (E1 & E2 & Hs & Hcl). destruct Hc as [_ _ H3 H4 H5]. split; cbn; try done.
  - split; cbn; [congruence| |done..]. intros _. split_and!; [done|done|done|]. intros ss a. split; [done|].
    intros (c & Hd & _). exfalso. assert (Hh : heap s !! a = Some c /\ ~ (exists x, (x, a) ∈ closing s)).
    { clear -Hd. revert Hd. generalize (heap s). induction (closing s) as [|[x b] l IH]; intros h Hd.
      - split; [done|]. intros (x & Hx). by apply not_elem_of_nil in Hx.
      - cbn in Hd. apply IH in Hd as [[Hne Hd]%lookup_delete_Some Hno]. split; [done|]. intros (y & [[= <- <-]|Hy]%elem_of_cons); [done|].
        apply Hno. by exists y. }
    destruct Hh as [Hh Hno]. apply Hno. exists (session c). apply (stl_find_Some_elem (session c)), Hcl. by exists c.
  - congruence.
  - intros _ on. apply online_calm, Forall_fmap, Forall_true. done.
  - unfold live. cbn. rewrite E1. cbn. apply opened_closing.
Qed.

(** Every event. *)
Lemma handle_ok e s : consistent s -> enabled e s ->
  exists s' effects, handle accepts inet_aton e s = Some (s', effects) /\ good s s' effects.
Proof.
  intros Hc He. pose proof (good_none s Hc) as Hs. destruct e; cbn [handle].
  - do 2 eexists. split; [reflexivity|]. unfold KickoutUser. case_match; [done|]. apply good_quiet; try done. by apply consistent_Put.
  - destruct (SendMsg_ok accepts buf charset dsts s Hc) as (b & effects & -> & H). cbn [mbind option_bind]. by do 2 eexists.
  - do 2 eexists. split; [reflexivity|]. unfold setRedline. repeat case_match; try done. apply good_quiet; try done. destruct Hc. by split.
  - do 2 eexists. split; [rewrite (surjective_pairing (OnAcceptSession _ _ _ _)); reflexivity|]. unfold OnAcceptSession.
    case_match; [done|]. case_match; cbn [fst snd]; (apply good_quiet; try done); [by repeat constructor|by apply consistent_Put].
  - destruct He as (H1 & H2 & H3). by apply OnRecvSession_ok.
  - do 2 eexists. split; [reflexivity|]. unfold OnCloseSession. case_match; [done|]. apply good_quiet; try done. by apply consistent_Put.
  - cbn in He. destruct (checking s); [by do 2 eexists|]. destruct (commands s) as [|c cs] eqn:Ec; [by do 2 eexists|].
    pose proof (con_commands s Hc) as Hcs. rewrite Ec in Hcs. apply Forall_cons in Hcs as [Hcmd Hcs].
    pose proof (consistent_task s cs None Hc Hcs ltac:(done)) as Hc'.
    assert (H : exists s' effects, execute accepts c (setTask cs None s) = Some (s', effects) /\ good (setTask cs None s) s' effects).
    { destruct c; cbn [execute]; [by apply AsyncKickoutUser_ok| |by apply AsyncOnRecvSession_ok|by apply AsyncOnCloseSession_ok].
      do 2 eexists. split; [rewrite (surjective_pairing (AsyncOnAcceptSession _ _)); reflexivity|].
      apply AsyncOnAcceptSession_ok; [done|by apply Hcmd]. }
    destruct H as (s' & effects & E & H). do 2 eexists. split; [exact E|]. by eapply good_task.
  - destruct (checking s) as [k|] eqn:Ek; [|by do 2 eexists]. pose proof (con_check s Hc k Ek) as Hk.
    pose proof (consistent_task s (commands s) None Hc (con_commands s Hc) ltac:(done)) as Hc'. destruct He as (_ & Hi & Hnew).
    assert (H : exists s' effects, (match k with
        | CheckBase arg user => onCheckBase accepts inet_aton newSession ans arg user (setTask (commands s) None s)
        | CheckSub session c2sUser subUser client_index client_public_ip =>
            onCheckSub accepts ans session c2sUser subUser client_index client_public_ip (setTask (commands s) None s)
        end) = Some (s', effects) /\ good (setTask (commands s) None s) s' effects).
    { destruct k; [by apply onCheckBase_ok; [done|apply Hk|done|]|by apply onCheckSub_ok; [done|apply Hk..|]]. }
    destruct H as (s' & effects & E & H). do 2 eexists. split; [exact E|]. by eapply good_task.
  - do 2 eexists. split; [reflexivity|]. by apply FiniBegin_ok.
  - destruct (active s) eqn:Ha; [by do 2 eexists|]. destruct (commands s) eqn:Ec; [|by do 2 eexists].
    destruct (checking s) eqn:Ek; [by do 2 eexists|]. do 2 eexists. split; [rewrite (surjective_pairing (FiniEnd s)); reflexivity|].
    by apply FiniEnd_ok.
Qed.

Lemma init_consistent mm ssl forced sid cid : 0 <= sid < 2 ^ 40 -> 0 <= cid < 2 ^ 40 -> consistent (init mm ssl forced sid cid).
Proof.
  intros H1 H2. split; cbn; try done. intros _. split; [|done]. split; cbn; try done;
    (intros x a; split; [done|]; by intros (c & Hc & _)).
Qed.

End theorems.

(** A c2s logs in, a client logs in behind it, and the c2s is kicked out: the observer
    hears of both users twice. *)
Definition demoAccepts (ss : Z) : bool := true.
Definition demoAton (ip : str) : Z := 16777343.
Definition demoC2s : RTP_MSG_USER := make 1 2 1.
Definition demoClient : RTP_MSG_USER := make 2 7 1.
Definition demoArg : acceptArg :=
  mkAccept 0 5 [49; 46; 50] 9 RTP_ST_TCPCLIENT_EX 11 (replicate 32 0) (header 0 None demoC2s [] ++ replicate 40 0).
Definition demoLogin : list Z :=
  header 0 None demoC2s [ROOT_ID_C2S] ++
  CProConfigStream.ToString
    (CProConfigStream.Add TAG_client_hash_string (replicate 64 48)
      (CProConfigStream.Add TAG_client_id (RtpMsgUser2String demoClient)
        (CProConfigStream.Add TAG_msg_name MSG_client_login CProConfigStream.init))).
Definition demoEvents : list event :=
  [Accept false true demoArg; Run; Answer (mkAnswer true 2 1 0 true) (Some (100, 1)); Recv 100 demoLogin; Run;
   Answer (mkAnswer true 7 1 0 false) None; Kickout demoC2s; Run].
Fixpoint demoRun (es : list event) (s : t) (log : list effect) : option (t * list effect) :=
  match es with
  | [] => Some (s, log)
  | e :: es => '(s', l) ← handle demoAccepts demoAton e s; demoRun es s' (log ++ l)
  end.
Definition demoServer : t := init 11 false false (Z.shiftl 240 32) (Z.shiftl 240 32).
Lemma demo_bytes l : forallb (fun b => (0 <=? b) && (b <? 256)) l = true -> is_bytes l.
Proof.
  intros H. apply Forall_forall. intros x Hx. rewrite forallb_forall in H.
  specialize (H x (proj1 (list_elem_of_In _ _) Hx)). unfold is_byte. lia.
Qed.

(** A run of events, each of which may happen. *)
Fixpoint allowed (es : list event) (s : t) : Prop :=
  match es with
  | [] => True
  | e :: es => enabled e s /\ match handle demoAccepts demoAton e s with Some (s', _) => allowed es s' | None => True end
  end.
Lemma demoRun_reachable s0 es : forall s log s' log', reachable demoAccepts demoAton s0 s log -> allowed es s ->
  demoRun es s log = Some (s', log') -> reachable demoAccepts demoAton s0 s' log'.
Proof.
  induction es as [|e es IH]; intros s log s' log' Hr; cbn [allowed demoRun]; [by intros _ [= <- <-]|].
  intros [He Ha]. destruct (handle demoAccepts demoAton e s) as [[s1 l]|] eqn:E; [|done]. cbn [mbind option_bind].
  apply IH; [by eapply reach_step|done].
Qed.

(** One event of the run, evaluated. *)
Ltac demo_step :=
  lazymatch goal with |- _ /\ match _ with _ => _ end => idtac end; split; [|match goal with |- match ?h with _ => _ end =>
    let v := eval vm_compute in h in
    let E := fresh in assert (E : h = v) by (vm_compute; reflexivity); rewrite E; clear E
  end; cbn iota beta; try demo_step].

Lemma demo_allowed : allowed demoEvents demoServer.
Proof.
  cbn [allowed demoEvents]. demo_step; [..|done];
    try (split_and!; try apply demo_bytes; vm_compute; done); cbn [enabled commands userId newInstId].
  all: done.
Qed.

Definition demoEnd : t * list effect := default (demoServer, []) (demoRun demoEvents demoServer []).
Lemma demo_reachable : reachable demoAccepts demoAton demoServer (fst demoEnd) (snd demoEnd).
Proof.
  apply (demoRun_reachable demoServer demoEvents demoServer []); [constructor|apply demo_allowed|]. by vm_compute.
Qed.

End RegistryTheorems.
