(* ===== verification/MsgRouting.v ===== *)
(** * The message server's routing

    What [SendMsg] and [OnRecvSession] send, read the way that the receiver of a message
    reads it, is one delivery for each destination that is registered. *)

From S2P Require Import Prelude StlMap Bytes Bsd ConfigStream MsgUser RtpPacket RtpSession MsgServer MsgRegistry.
Import CRtpMsgServer MsgUser MsgUserLemmas.

Module RoutingSpec.
Import RegistrySpec.

(** A message that arrives over a session, for its own user or for one behind it. *)
Record delivery := mkDelivery { over : Z; toUser : option RTP_MSG_USER; from : RTP_MSG_USER; inCharset : Z; body : list Z }.

(** The messages in a packet. *)
Definition receives (e : effect) : list delivery :=
  match e with
  | Send ss m =>
      let count := load 1 15 m in
      let n := if count =? 0 then 1 else count in
      let text := zdrop (sizeof_RTP_MSG_HEADER + sizeof_RTP_MSG_USER * (n - 1)) m in
      let to u := mkDelivery ss u (ofBytes 4 m) (pbsd_ntoh32 (load 4 0 m)) text in
      if count =? 0 then [to None]
      else (fun i => to (Some (ofBytes (16 + sizeof_RTP_MSG_USER * Z.of_nat i) m))) <$> seq 0 (Z.to_nat count)
  | _ => []
  end.

(** Where a destination is: its session, and itself if it shares it. *)
Definition destination (s : t) (dst : RTP_MSG_USER) : option (Z * option RTP_MSG_USER) :=
  if (classId dst =? 0) || (UserId dst =? 0) || IsRoot dst then None else
  '(_, a) ← stl_find dst (m_user2Ctx s);
  c ← heap s !! a;
  Some (session c, if eqb dst (baseUser c) then None else Some dst).
Definition destinations (s : t) (dsts : list RTP_MSG_USER) : list (Z * option RTP_MSG_USER) := omap (destination s) dsts.

Definition deliveries (src : RTP_MSG_USER) (charset : Z) (buf : list Z) (l : list (Z * option RTP_MSG_USER)) : list delivery :=
  (fun p => mkDelivery (fst p) (snd p) src charset buf) <$> l.

Definition toServer (port : bool) (dst : RTP_MSG_USER) : bool :=
  negb (classId dst =? 0) && negb (UserId dst =? 0) && IsRoot dst && Bool.eqb port (instId dst =? instId ROOT_ID_C2S).
End RoutingSpec.

Module RoutingLemmas.
Import RegistrySpec RegistryLemmas RoutingSpec.

(** ** The header *)

Lemma load_shift n pre m k : 0 <= k -> load n (zlen pre + k) (pre ++ m) = load n k m.
Proof. intros Hk. unfold load. rewrite zsub_app_r by lia. by replace (zlen pre + k - zlen pre) with k by lia. Qed.

Lemma zlen_users (l : list RTP_MSG_USER) : zlen (concat (bytesOf <$> l)) = 8 * zlen l.
Proof.
  induction l as [|u l IH]; [done|]. rewrite fmap_cons. cbn [concat]. rewrite zlen_app, zlen_cons, IH.
  change (zlen (bytesOf u)) with 8. lia.
Qed.

Lemma zlen_header charset src dsts : zlen (header charset None src dsts) = 24 + 8 * (Z.max 1 (zlen dsts) - 1).
Proof.
  unfold header. rewrite !zlen_app, zlen_le_bytes. change (zlen (bytesOf src)) with 8. change (zlen [0; 0; 0]) with 3.
  destruct dsts as [|d dsts]; [done|]. rewrite zlen_cons, zlen_users, zlen_cons. pose proof (zlen_nonneg dsts). lia.
Qed.

Lemma users_nth (l : list RTP_MSG_USER) post i d : Forall wf l -> l !! i = Some d ->
  ofBytes (8 * Z.of_nat i) (concat (bytesOf <$> l) ++ post) = d.
Proof.
  intros Hl. revert i. induction Hl as [|u l Hu Hl IH]; intros i; [done|]. rewrite fmap_cons. cbn [concat]. rewrite <- app_assoc.
  destruct i as [|i]; cbn [lookup list_lookup].
  - intros [= ->]. by apply ofBytes_bytesOf.
  - intros Hi. replace (8 * Z.of_nat (S i)) with (zlen (bytesOf u) + 8 * Z.of_nat i) by (change (zlen (bytesOf u)) with 8; lia).
    rewrite ofBytes_shift by lia. by apply IH.
Qed.

(** What the server and the clients read of a header. *)
Record reads (charset : Z) (src : RTP_MSG_USER) (dsts : list RTP_MSG_USER) (m : list Z) : Prop := mkReads {
  reads_charset : pbsd_ntoh32 (load 4 0 m) = charset;
  reads_src : ofBytes 4 m = src;
  reads_count : load 1 15 m = zlen dsts;
  reads_dst : forall i d, dsts !! i = Some d -> ofBytes (16 + 8 * Z.of_nat i) m = d
}.

Lemma header_reads charset src dsts buf : 0 <= charset < 2 ^ 32 -> wf src -> Forall wf dsts ->
  reads charset src dsts (header charset None src dsts ++ buf).
Proof.
  intros Hc Hs Hd. unfold header. rewrite <- !app_assoc. set (h := le_bytes 4 (pbsd_hton32 charset)).
  assert (Hh : zlen h = 4) by apply zlen_le_bytes.
  set (rest := match dsts with [] => _ | _ => _ end ++ buf).
  assert (Hrest : load 1 0 rest = zlen dsts /\ forall i d, dsts !! i = Some d -> ofBytes (1 + 8 * Z.of_nat i) rest = d).
  { unfold rest. destruct dsts as [|d dsts]; [done|]. split.
    - unfold load. change (zsub 0 (Z.of_nat 1) _) with [Z.of_nat (length (d :: dsts))]. cbn [of_le]. unfold zlen. lia.
    - intros i e He. set (l := d :: dsts) in *. clearbody l.
      change ((Z.of_nat (length l) :: concat (bytesOf <$> l)) ++ buf) with ([Z.of_nat (length l)] ++ (concat (bytesOf <$> l) ++ buf)).
      change 1 with (zlen [Z.of_nat (length l)]). rewrite ofBytes_shift by lia. by apply users_nth. }
  clearbody rest. destruct Hrest as [H1 H2]. split.
  - rewrite load_app_l by lia. unfold h, load. rewrite <- (zlen_le_bytes 4 (pbsd_hton32 charset)) at 1.
    change (Z.of_nat 4) with 4. unfold h in Hh. rewrite Hh. rewrite <- Hh, zsub_all, of_le_le_bytes.
    rewrite Z.mod_small by apply hton32_range. by apply ntoh32_hton32.
  - rewrite <- Hh at 1. replace (zlen h) with (zlen h + 0) by lia. rewrite ofBytes_shift by lia. by apply ofBytes_bytesOf.
  - replace 15 with (zlen h + (zlen (bytesOf src) + (zlen [0; 0; 0] + 0))) by (rewrite Hh; done).
    rewrite !load_shift by (try apply Z.add_nonneg_nonneg; try apply zlen_nonneg; lia). done.
  - intros i d Hi. replace (16 + 8 * Z.of_nat i) with (zlen h + (zlen (bytesOf src) + (zlen [0; 0; 0] + (1 + 8 * Z.of_nat i))))
      by (rewrite Hh; change (zlen (bytesOf src)) with 8; change (zlen [0; 0; 0]) with 3; lia).
    rewrite !ofBytes_shift by (change (zlen (bytesOf src)) with 8; change (zlen [0; 0; 0]) with 3; lia). by apply H2.
Qed.

(** ** Sending *)

Lemma map_seq {A B} (l : list A) (f : nat -> A) (g : A -> B) : (forall i x, l !! i = Some x -> f i = x) ->
  (fun i => g (f i)) <$> seq 0 (length l) = g <$> l.
Proof.
  intros H. apply list_eq. intros i. rewrite !list_lookup_fmap. destruct (l !! i) as [x|] eqn:E.
  - rewrite lookup_seq_lt by (by eapply lookup_lt_Some). cbn. f_equal. f_equal. by apply H.
  - apply lookup_ge_None in E. by rewrite lookup_seq_ge.
Qed.

(** What each of the sessions gets. *)
Definition toSession (dsts : list RTP_MSG_USER) (ss : Z) : list (Z * option RTP_MSG_USER) :=
  match dsts with [] => [(ss, None)] | _ => (fun u => (ss, Some u)) <$> dsts end.

Section send.
Context (accepts : Z -> bool) (buf : list Z) (charset : Z) (src : RTP_MSG_USER).
Hypothesis (Hbuf : 0 < zlen buf) (Hcharset : 0 <= charset < 2 ^ 32).
Hypothesis (Hwf : wf src) (Hclass : classId src <> 0) (Hid : UserId src <> 0).

Lemma receives_send dsts ss : Forall wf dsts -> zlen dsts <= 255 ->
  receives (Send ss (header charset None src dsts ++ buf)) = deliveries src charset buf (toSession dsts ss).
Proof.
  intros Hd Hn. pose proof (header_reads charset src dsts buf Hcharset Hwf Hd) as [R1 R2 R3 R4].
  unfold receives. set (m := header charset None src dsts ++ buf) in *. rewrite R1, R2, R3.
  unfold sizeof_RTP_MSG_HEADER, sizeof_RTP_MSG_USER. pose proof (zlen_header charset src dsts) as Hh.
  destruct (Z.eqb_spec (zlen dsts) 0) as [E|E].
  - apply zlen_zero in E as ->. unfold deliveries, toSession. cbn [fmap list_fmap fst snd]. do 2 f_equal.
  - assert (Htext : zdrop (24 + 8 * (zlen dsts - 1)) m = buf).
    { pose proof (zlen_nonneg dsts). replace (24 + 8 * (zlen dsts - 1)) with (zlen (header charset None src dsts)) by lia. apply zdrop_app_exact. }
    rewrite Htext. unfold zlen at 1. rewrite Nat2Z.id.
    pose proof (map_seq dsts (fun i => ofBytes (16 + 8 * Z.of_nat i) m) (fun u => mkDelivery ss (Some u) src charset buf) R4) as Em.
    cbn beta in Em. rewrite Em. unfold deliveries, toSession. destruct dsts as [|d dsts]; [done|].
    by rewrite <- list_fmap_compose.
Qed.

Lemma SendMsgToDownlink_receives ss dsts : Forall wf dsts -> zlen dsts <= 255 ->
  24 + 8 * (Z.max 1 (zlen dsts) - 1) + zlen buf <= MAX_PAYLOAD_SIZE ->
  SendMsgToDownlink accepts ss buf charset src dsts None =
    (forallb accepts ss, map (fun s => Send s (header charset None src dsts ++ buf)) ss) /\
  concat (receives <$> map (fun s => Send s (header charset None src dsts ++ buf)) ss) =
    deliveries src charset buf (concat (toSession dsts <$> ss)).
Proof.
  intros Hd Hn Hsize. split.
  - unfold SendMsgToDownlink. rewrite !(proj2 (Z.eqb_neq _ _)) by lia. cbn [orb]. rewrite zlen_app, zlen_header.
    destruct (Z.gtb_spec (24 + 8 * (Z.max 1 (zlen dsts) - 1) + zlen buf) MAX_PAYLOAD_SIZE); [lia|done].
  - induction ss as [|x ss IH]; [done|]. cbn [map]. rewrite !fmap_cons. cbn [concat]. rewrite receives_send, IH by done.
    unfold deliveries. by rewrite fmap_app.
Qed.

(** ** Routes *)

Definition routed (r : routes) : list (Z * option RTP_MSG_USER) :=
  concat (toSession [] <$> sessions r) ++ concat ((fun e => toSession (snd e) (fst e)) <$> session2Users r).

Record routes_ok (r : routes) : Prop := mkRoutesOk {
  ro_sorted : stl_sorted (session2Users r);
  ro_users : Forall (fun e : Z * list RTP_MSG_USER => snd e <> [] /\ Forall wf (snd e)) (session2Users r)
}.

Lemma routed_le r e : e ∈ session2Users r -> snd e <> [] -> zlen (snd e) <= zlen (routed r).
Proof.
  intros He Hne. unfold routed. rewrite zlen_app. pose proof (zlen_nonneg (concat (toSession [] <$> sessions r))).
  assert (Hc : zlen (snd e) <= zlen (concat ((fun e => toSession (snd e) (fst e)) <$> session2Users r))); [|lia].
  induction (session2Users r) as [|x l IH]; [by apply not_elem_of_nil in He|]. rewrite fmap_cons. cbn [concat]. rewrite zlen_app.
  apply elem_of_cons in He as [->|He].
  - pose proof (zlen_nonneg (concat ((fun e => toSession (snd e) (fst e)) <$> l))). unfold toSession. destruct (snd x) as [|u us]; [done|].
    unfold zlen. rewrite length_fmap. lia.
  - pose proof (zlen_nonneg (toSession (snd x) (fst x))). specialize (IH He). lia.
Qed.

Lemma sendAlong_receives r : routes_ok r -> zlen (routed r) <= 255 ->
  24 + 8 * (Z.max 1 (zlen (routed r)) - 1) + zlen buf <= MAX_PAYLOAD_SIZE ->
  fst (sendAlong accepts r buf charset src) = forallb accepts (fst <$> routed r) /\
  concat (receives <$> snd (sendAlong accepts r buf charset src)) = deliveries src charset buf (routed r).
Proof.
  intros [_ Hu'] Hn Hsize.
  assert (Hu : Forall (fun e : Z * list RTP_MSG_USER => snd e <> [] /\ Forall wf (snd e) /\ zlen (snd e) <= zlen (routed r)) (session2Users r)).
  { apply Forall_forall. rewrite Forall_forall in Hu'. intros e He. pose proof (Hu' e He) as [H1 H2]. split_and!; [done|done|by apply routed_le]. }
  assert (Hle : 24 + 8 * (Z.max 1 0 - 1) + zlen buf <= MAX_PAYLOAD_SIZE) by (cbn; lia).
  destruct (SendMsgToDownlink_receives (sessions r) [] ltac:(constructor) ltac:(done) Hle) as [Es Er].
  assert (Eb : (match sessions r with [] => (true, []) | ss => SendMsgToDownlink accepts ss buf charset src [] None end) =
    (forallb accepts (sessions r), map (fun s => Send s (header charset None src [] ++ buf)) (sessions r))).
  { destruct (sessions r); [done|exact Es]. }
  unfold sendAlong. rewrite Eb. cbn [fst snd]. clear Eb Es.
  assert (Hsub : forall l, Forall (fun e : Z * list RTP_MSG_USER => snd e <> [] /\ Forall wf (snd e) /\ zlen (snd e) <= zlen (routed r)) l ->
    let sent := map (fun e => SendMsgToDownlink accepts [fst e] buf charset src (snd e) None) l in
    forallb fst sent = forallb accepts (fst <$> concat ((fun e => toSession (snd e) (fst e)) <$> l)) /\
    concat (receives <$> concat (map snd sent)) = deliveries src charset buf (concat ((fun e => toSession (snd e) (fst e)) <$> l))).
  { induction 1 as [|[ss us] l (Hne & Hw & Hlen) _ [IH1 IH2]]; [done|]. cbn [fst snd] in *.
    destruct (SendMsgToDownlink_receives [ss] us Hw ltac:(lia) ltac:(lia)) as [E1 E2].
    cbn zeta. cbn [map forallb concat fst snd]. rewrite E1. cbn [fst snd]. rewrite !fmap_cons. cbn [concat fst snd]. rewrite !fmap_app, concat_app.
    match goal with |- context [concat (receives <$> Send ss ?m :: ?l)] =>
      change (concat (receives <$> Send ss m :: l)) with (concat (receives <$> map (fun s => Send s m) [ss])) end.
    rewrite E2. split.
    - rewrite IH1, forallb_app. cbn [forallb]. rewrite andb_true_r. f_equal.
      unfold toSession. destruct us as [|u us]; [done|]. rewrite <- list_fmap_compose. cbn.
      destruct (accepts ss) eqn:Ea; [|done]. cbn. symmetry. apply forallb_forall. intros x Hx.
      apply in_map_iff in Hx as (y & <- & _). exact Ea.
    - rewrite IH2. unfold deliveries. change (concat (toSession us <$> [ss])) with (toSession us ss ++ []).
      by rewrite app_nil_r, fmap_app. }
  destruct (Hsub _ Hu) as [H1 H2]. unfold routed. rewrite !fmap_app, concat_app, forallb_app, Er, H1, H2. split.
  - f_equal. clear. induction (sessions r) as [|x l IH]; [done|]. cbn. by rewrite <- IH.
  - unfold deliveries. by rewrite fmap_app.
Qed.
End send.

(** ** The loops over the destinations *)

Lemma concat_perm {A B} (f : A -> list B) l1 l2 : l1 ≡ₚ l2 -> concat (f <$> l1) ≡ₚ concat (f <$> l2).
Proof.
  induction 1 as [|x l1 l2 _ IH|x y l|l1 l2 l3 _ IH1 _ IH2]; [done|..]; rewrite ?fmap_cons; cbn [concat].
  - by rewrite IH.
  - rewrite !app_assoc. by rewrite (Permutation_app_comm (f y)).
  - by rewrite IH1.
Qed.

Lemma routes_ok_nil : routes_ok (mkRoutes [] []).
Proof. by split; constructor. Qed.

Lemma routeTo_routed s d a r c : heap s !! a = Some c -> routes_ok r -> wf d ->
  exists r', routeTo s d a r = Some r' /\ routes_ok r' /\
    routed r' ≡ₚ (session c, if eqb d (baseUser c) then None else Some d) :: routed r.
Proof.
  intros Hc [Hs Hu] Hd. unfold routeTo. rewrite Hc. cbn [mbind option_bind]. destruct (eqb d (baseUser c)).
  - eexists. split; [reflexivity|]. split; [by split|]. unfold routed. cbn [sessions session2Users]. rewrite fmap_app, concat_app, <- app_assoc.
    change (concat (toSession [] <$> [session c])) with [(session c, @None RTP_MSG_USER)]. cbn [app]. symmetry. apply Permutation_middle.
  - set (m := session2Users r) in *. set (old := match stl_find (session c) m with Some (_, l) => l | None => [] end).
    eexists. split; [reflexivity|]. split.
    + split; cbn [session2Users]; [by apply stl_sorted_assign|]. apply Forall_forall. rewrite Forall_forall in Hu.
      intros e [->|He]%stl_elem_assign; [|by apply Hu]. cbn [snd]. split; [by destruct old|]. apply Forall_app. split; [|by constructor].
      unfold old. destruct (stl_find (session c) m) as [[k l]|] eqn:E; [|constructor]. apply stl_find_Some_elem in E as [E _]. by apply (Hu _ E).
    + unfold routed. cbn [sessions session2Users]. fold m. set (f := fun e : Z * list RTP_MSG_USER => toSession (snd e) (fst e)).
      assert (H : concat (f <$> stl_assign (session c, old ++ [d]) m) ≡ₚ (session c, Some d) :: concat (f <$> m)).
      { assert (Hnew : forall l, f (session c, l ++ [d]) = ((fun u => (session c, Some u)) <$> l) ++ [(session c, Some d)]).
        { intros l. unfold f, toSession. cbn [fst snd]. destruct (l ++ [d]) eqn:E; [by destruct l|]. rewrite <- E. by rewrite fmap_app. }
        unfold old. destruct (stl_find (session c) m) as [p|] eqn:E.
        - destruct (stl_find_pair _ _ _ E) as [l ->]. rewrite (concat_perm f _ _ (stl_assign_Permutation (session c, l ++ [d]) m (session c, l) Hs E)).
          change (stl_key (session c, l ++ [d])) with (session c).
          rewrite (concat_perm f _ _ (stl_erase_Permutation _ _ _ E)). rewrite !fmap_cons. cbn [concat]. rewrite Hnew.
          assert (Hl : l <> []) by (apply stl_find_Some_elem in E as [E _]; rewrite Forall_forall in Hu; by apply (Hu _ E)).
          replace (f (session c, l)) with ((fun u => (session c, Some u)) <$> l) by (unfold f, toSession; cbn; by destruct l).
          rewrite <- app_assoc. cbn [app]. symmetry. apply Permutation_middle.
        - rewrite stl_assign_fresh by done. rewrite (concat_perm f _ _ (stl_insert_Permutation (session c, [] ++ [d]) m E)).
          rewrite fmap_cons. cbn [concat]. by rewrite (Hnew []). }
      rewrite H. symmetry. apply Permutation_middle.
Qed.

Section loops.
Context (s : t).
Hypothesis R : registry (m_session2Ctx s) (m_user2Ctx s) (heap s).

Lemma destination_registered d a : (classId d =? 0) || (UserId d =? 0) = false -> IsRoot d = false ->
  stl_find d (m_user2Ctx s) = Some (d, a) ->
  exists c, heap s !! a = Some c /\ destination s d = Some (session c, if eqb d (baseUser c) then None else Some d).
Proof.
  intros H1 H2 E. destruct (reg_ctx _ _ _ R _ _ E) as (c & Hc & _). exists c. split; [done|].
  unfold destination. rewrite H1, H2, E. cbn [orb mbind option_bind]. by rewrite Hc.
Qed.

Lemma routeAll_routed dsts : Forall wf dsts -> forall r, routes_ok r ->
  exists r', routeAll s dsts r = Some (forallb (fun d => bool_decide (is_Some (destination s d))) dsts, r') /\ routes_ok r' /\
    routed r' ≡ₚ destinations s dsts ++ routed r.
Proof.
  induction 1 as [|d dsts Hd _ IH]; intros r Hr; [by exists r|]. cbn [routeAll forallb].
  assert (Hskip : destination s d = None -> exists r',
    ('(_, r) ← routeAll s dsts r; Some (false, r)) =
      Some (bool_decide (is_Some (destination s d)) && forallb (fun d => bool_decide (is_Some (destination s d))) dsts, r') /\
    routes_ok r' /\ routed r' ≡ₚ destinations s (d :: dsts) ++ routed r).
  { intros E. destruct (IH r Hr) as (r' & -> & Hr' & Hp). exists r'. rewrite E. cbn [mbind option_bind]. split_and!; [done|done|].
    unfold destinations. cbn [omap list_omap]. rewrite E. exact Hp. }
  destruct ((classId d =? 0) || (UserId d =? 0)) eqn:G1; cbn [orb].
  { apply Hskip. unfold destination. by rewrite G1. }
  destruct (IsRoot d) eqn:G2.
  { apply Hskip. unfold destination. by rewrite G1, G2. }
  destruct (stl_find d (m_user2Ctx s)) as [p|] eqn:E.
  2: { apply Hskip. unfold destination. by rewrite G1, G2, E. }
  destruct (stl_find_pair _ _ _ E) as [a ->]. destruct (destination_registered d a G1 G2 E) as (c & Hc & Ed).
  destruct (routeTo_routed s d a r c Hc Hr Hd) as (r1 & -> & Hr1 & Hp1). cbn [mbind option_bind].
  destruct (IH r1 Hr1) as (r' & -> & Hr' & Hp). exists r'. split_and!; [|done|].
  - by rewrite Ed.
  - rewrite Hp, Hp1. unfold destinations at 2. cbn [omap list_omap]. rewrite Ed. cbn [app]. symmetry. apply Permutation_middle.
Qed.

(** The loop of [OnRecvSession] reads the destinations of the header. *)
Lemma routeRecv_routed m dsts : Forall wf dsts -> forall i b1 b2 r, 0 <= i ->
  (forall k d, dsts !! k = Some d -> ofBytes (16 + 8 * (i + Z.of_nat k)) m = d) -> 16 + 8 * (i + zlen dsts) <= zlen m -> routes_ok r ->
  exists r', routeRecv s m (length dsts) i b1 b2 r =
      Some (b1 || existsb (toServer false) dsts, b2 || existsb (toServer true) dsts, r') /\
    routes_ok r' /\ routed r' ≡ₚ destinations s dsts ++ routed r.
Proof.
  induction 1 as [|d dsts Hd _ IH]; intros i b1 b2 r Hi Hread Hm Hr; [exists r; by rewrite !orb_false_r|].
  cbn [length routeRecv existsb]. rewrite zlen_cons in Hm. pose proof (zlen_nonneg dsts).
  unfold readUser, sizeof_RTP_MSG_USER. rewrite (proj2 (Z.leb_le _ _)) by lia. cbn [mbind option_bind].
  replace (16 + 8 * i) with (16 + 8 * (i + Z.of_nat 0)) by lia. rewrite (Hread 0%nat d) by done.
  assert (IH' : forall b1 b2 r, routes_ok r -> exists r', routeRecv s m (length dsts) (i + 1) b1 b2 r =
      Some (b1 || existsb (toServer false) dsts, b2 || existsb (toServer true) dsts, r') /\
    routes_ok r' /\ routed r' ≡ₚ destinations s dsts ++ routed r).
  { intros c1 c2 r1 Hr1. apply IH; [lia| |lia|done]. intros k e Hk. rewrite <- (Hread (S k) e Hk). f_equal. lia. }
  clear IH. unfold toServer at 1 3, destinations. cbn [omap list_omap]. unfold destination at 1.
  destruct (classId d =? 0) eqn:G1; [by apply IH'|]. destruct (UserId d =? 0) eqn:G2; [by apply IH'|]. cbn [orb negb andb].
  destruct (IsRoot d) eqn:G3; cbn [andb].
  - destruct (instId d =? instId ROOT_ID_C2S); cbn [Bool.eqb orb].
    + destruct (IH' b1 true r Hr) as (r' & E & Hr' & Hp). exists r'. split_and!; [|done|done]. rewrite E. by rewrite orb_true_r.
    + destruct (IH' true b2 r Hr) as (r' & E & Hr' & Hp). exists r'. split_and!; [|done|done]. rewrite E. by rewrite orb_true_r.
  - destruct (stl_find d (m_user2Ctx s)) as [p|] eqn:E; [|by apply IH'].
    destruct (stl_find_pair _ _ _ E) as [a ->]. cbn [mbind option_bind].
    destruct (destination_registered d a) as (c & Hc & Ed); [by rewrite G1, G2|done|done|].
    destruct (routeTo_routed s d a r c Hc Hr Hd) as (r1 & -> & Hr1 & Hp1). cbn [mbind option_bind]. rewrite Hc. cbn [mbind option_bind].
    destruct (IH' b1 b2 r1 Hr1) as (r' & E' & Hr' & Hp). exists r'. split_and!; [done|done|].
    rewrite Hp, Hp1. cbn [app]. symmetry. apply Permutation_middle.
Qed.
End loops.
End RoutingLemmas.

Module RoutingTheorems.
Import RegistrySpec RegistryLemmas RoutingSpec RoutingLemmas.

Lemma forallb_perm {A} (f : A -> bool) l1 l2 : l1 ≡ₚ l2 -> forallb f l1 = forallb f l2.
Proof.
  induction 1 as [|x l1 l2 _ IH|x y l|l1 l2 l3 _ IH1 _ IH2]; cbn; [done|by rewrite IH| |by rewrite IH1].
  by destruct (f x), (f y).
Qed.

Lemma destinations_le s dsts : zlen (destinations s dsts) <= zlen dsts.
Proof.
  unfold destinations. induction dsts as [|d dsts IH]; [done|]. cbn [omap list_omap]. rewrite zlen_cons.
  destruct (destination s d); rewrite ?zlen_cons; lia.
Qed.

Section routes.
Context (accepts : Z -> bool) (s : t).
Hypothesis (Hc : consistent s) (Ha : active s = true).

(** What goes along the routes of [dsts]. *)
Lemma sent_along dsts r src charset buf : routes_ok r -> routed r ≡ₚ destinations s dsts -> dsts <> [] -> zlen dsts <= 255 ->
  24 + 8 * (zlen dsts - 1) + zlen buf <= MAX_PAYLOAD_SIZE -> 0 < zlen buf -> 0 <= charset < 2 ^ 32 ->
  wf src -> classId src <> 0 -> UserId src <> 0 ->
  fst (sendAlong accepts r buf charset src) = forallb accepts (fst <$> destinations s dsts) /\
  concat (receives <$> snd (sendAlong accepts r buf charset src)) ≡ₚ deliveries src charset buf (destinations s dsts).
Proof.
  intros Hr Hp Hne Hn Hsize Hbuf Hch Hw H1 H2. pose proof (destinations_le s dsts) as Hle.
  assert (Hlen : zlen (routed r) = zlen (destinations s dsts)) by (unfold zlen; by rewrite Hp).
  assert (0 < zlen dsts) by (destruct dsts; [done|rewrite zlen_cons; pose proof (zlen_nonneg dsts); lia]).
  destruct (sendAlong_receives accepts buf charset src Hbuf Hch Hw H1 H2 r Hr) as [E1 E2]; [lia|lia|].
  rewrite E1, E2. split; [apply forallb_perm; by rewrite Hp|]. unfold deliveries. by rewrite Hp.
Qed.

Lemma SendMsg_routed buf charset dsts : 0 < zlen buf -> dsts <> [] -> zlen dsts <= 255 -> Forall wf dsts ->
  0 <= charset < 2 ^ 32 -> 24 + 8 * (zlen dsts - 1) + zlen buf <= MAX_PAYLOAD_SIZE ->
  exists effects, SendMsg accepts buf charset dsts s =
      Some (forallb (fun d => bool_decide (is_Some (destination s d))) dsts && forallb accepts (fst <$> destinations s dsts), effects) /\
    concat (receives <$> effects) ≡ₚ deliveries ROOT_ID charset buf (destinations s dsts).
Proof.
  intros Hbuf Hne Hn Hw Hch Hsize. destruct (con_on s Hc Ha) as [R _]. unfold SendMsg.
  rewrite !(proj2 (Z.eqb_neq _ _)) by (try (intros E%zlen_zero; done); lia). rewrite Ha. cbn [orb negb].
  destruct (routeAll_routed s R dsts Hw (mkRoutes [] []) routes_ok_nil) as (r & -> & Hr & Hp). cbn [mbind option_bind].
  change (routed (mkRoutes [] [])) with (@nil (Z * option RTP_MSG_USER)) in Hp. rewrite app_nil_r in Hp.
  assert (Hroot : wf ROOT_ID) by (by repeat split; repeat constructor).
  destruct (sent_along dsts r ROOT_ID charset buf Hr Hp Hne Hn Hsize Hbuf Hch Hroot ltac:(done) ltac:(done)) as [E1 E2].
  destruct (sendAlong accepts r buf charset ROOT_ID) as [b effects]. cbn [fst snd] in *. exists effects. by rewrite E1.
Qed.

Lemma fromC2s_commands ss src c body : is_bytes body -> exists cs, fromC2s ss src c body s = Some (setTask (commands s ++ cs) (checking s) s) /\
  (cs <> [] -> isC2s c = true /\ src = baseUser c).
Proof.
  intros Hb. unfold fromC2s. assert (Hnil : Some s = Some (setTask (commands s ++ []) (checking s) s)) by (rewrite app_nil_r; by destruct s).
  destruct (negb (isC2s c) || negb (classId src =? SERVER_CID) || negb (eqb src (baseUser c))) eqn:G; [exists []; by split|].
  apply orb_false_iff in G as [G E%negb_false_iff%eqb_spec]. apply orb_false_iff in G as [G%negb_false_iff _].
  destruct (StringToConfigs_total body Hb) as (ok & configs & ->). cbn [mbind option_bind].
  repeat case_match; try (exists []; by split); eexists; (split; [reflexivity|done]).
Qed.

Lemma OnRecvSession_routed ss a c charset src dsts body : ss <> 0 -> stl_find ss (m_session2Ctx s) = Some (ss, a) ->
  heap s !! a = Some c -> wf src -> classId src <> 0 -> UserId src <> 0 -> Forall wf dsts -> dsts <> [] -> zlen dsts <= 255 ->
  0 <= charset < 2 ^ 32 -> is_bytes body -> 0 < zlen body ->
  24 + 8 * (zlen dsts - 1) + zlen body <= MAX_PAYLOAD_SIZE ->
  let m := header charset None src dsts ++ body in
  (~ member src c -> OnRecvSession accepts ss m s = Some (s, [])) /\
  (member src c -> exists cs effects,
     OnRecvSession accepts ss m s = Some (setTask (commands s ++ cs) (checking s) s,
       effects ++ if existsb (toServer false) dsts then [RecvMsg body charset src] else []) /\
     concat (receives <$> effects) ≡ₚ deliveries src charset body (destinations s dsts) /\
     (cs <> [] -> isC2s c = true /\ src = baseUser c /\ existsb (toServer true) dsts = true)).
Proof.
  intros Hss E Hca Hw H1 H2 Hd Hne Hn Hch Hb Hbody Hsize m. destruct (con_on s Hc Ha) as [R _].
  pose proof (header_reads charset src dsts body Hch Hw Hd) as [R1 R2 R3 R4]. fold m in R1, R2, R3, R4.
  assert (Hpos : 0 < zlen dsts) by (destruct dsts; [done|rewrite zlen_cons; pose proof (zlen_nonneg dsts); lia]).
  pose proof (zlen_header charset src dsts) as Hh. rewrite Z.max_r in Hh by lia.
  assert (Hm : zlen m = 24 + 8 * (zlen dsts - 1) + zlen body) by (unfold m; rewrite zlen_app; lia).
  assert (Hsz : u64 (zlen m - (24 + 8 * (zlen dsts - 1))) = zlen body).
  { rewrite Hm. replace (24 + 8 * (zlen dsts - 1) + zlen body - (24 + 8 * (zlen dsts - 1))) with (zlen body) by lia.
    apply wrap_small. unfold MAX_PAYLOAD_SIZE in Hsize. lia. }
  assert (Hsz16 : u16 (zlen body) = zlen body) by (apply wrap_small; unfold MAX_PAYLOAD_SIZE in Hsize; lia).
  assert (Hread : readBody (24 + 8 * (zlen dsts - 1)) (zlen body) m = Some body).
  { unfold readBody. rewrite (proj2 (Z.leb_le _ _)) by lia. f_equal. unfold m. rewrite zsub_app_r by lia.
    replace (24 + 8 * (zlen dsts - 1) - zlen (header charset None src dsts)) with 0 by lia. apply zsub_all. }
  clearbody m. unfold OnRecvSession. rewrite R1, R2, R3. unfold sizeof_RTP_MSG_HEADER, sizeof_RTP_MSG_USER.
  rewrite (proj2 (Z.eqb_neq ss 0)) by done. rewrite (proj2 (Z.leb_gt (zlen m) 24)) by lia. cbn [orb].
  rewrite (proj2 (Z.eqb_neq (zlen dsts) 0)) by lia. cbn zeta. rewrite Hsz, Hsz16, Hread.
  rewrite (proj2 (Z.eqb_neq (zlen body) 0)), (proj2 (Z.eqb_neq (classId src) 0)), (proj2 (Z.eqb_neq (UserId src) 0)) by lia.
  rewrite Ha, E, Hca. cbn [orb negb mbind option_bind].
  assert (Hmem : negb (eqb src (baseUser c)) && bool_decide (stl_find src (subUsers c) = None) = false <-> member src c).
  { pose proof (ok_sorted c (reg_ok _ _ _ R a c Hca)) as Hs. unfold member. rewrite andb_false_iff, negb_false_iff, eqb_spec, bool_decide_eq_false.
    split; intros [Hx|Hx]; [by left| |by left|right; by rewrite (find_user src (subUsers c) Hs Hx)].
    right. destruct (stl_find src (subUsers c)) as [v|] eqn:Ef; [|done]. apply stl_find_Some_elem in Ef as [Hin Hk]. change (v = src) in Hk. by subst. }
  split.
  { intros Hno. destruct (negb (eqb src (baseUser c)) && _); [done|]. by destruct Hno; apply Hmem. }
  intros Hyes. rewrite (proj2 Hmem Hyes). unfold zlen at 1. rewrite Nat2Z.id.
  destruct (routeRecv_routed s R m dsts Hd 0 false false (mkRoutes [] [])) as (r & -> & Hr & Hp); [lia|exact R4|lia|apply routes_ok_nil|].
  change (routed (mkRoutes [] [])) with (@nil (Z * option RTP_MSG_USER)) in Hp. rewrite app_nil_r in Hp.
  destruct (sent_along dsts r src charset body Hr Hp Hne Hn ltac:(lia) Hbody Hch Hw H1 H2) as [_ E2].
  set (effects := snd (sendAlong accepts r body charset src)) in *. cbn [orb mbind option_bind].
  assert (Eeff : (match sessions r, session2Users r with [], [] => Some [] | _, _ => Some effects end) = Some effects).
  { destruct r as [[|x l] [|y l']]; try done. }
  rewrite Eeff. cbn [mbind option_bind]. clearbody effects. clear Eeff.
  destruct (fromC2s_commands ss src c body Hb) as (cs & -> & Hcs).
  exists (if existsb (toServer true) dsts then cs else []), effects. split_and!; [|done|].
  - assert (Es : (if existsb (toServer true) dsts then Some (setTask (commands s ++ cs) (checking s) s) else Some s) =
      Some (setTask (commands s ++ if existsb (toServer true) dsts then cs else []) (checking s) s)).
    { destruct (existsb (toServer true) dsts); [done|]. rewrite app_nil_r. by destruct s. }
    rewrite Es. cbn [mbind option_bind]. destruct (existsb (toServer false) dsts); [done|]. by rewrite app_nil_r.
  - destruct (existsb (toServer true) dsts); [|done]. intros Hx%Hcs. tauto.
Qed.
End routes.

(** C2: In a consistent state (as every reachable one is), messages go where their
    destinations are.  [SendMsg] sends, along the session of each destination that is
    registered, one message that its receiver reads as addressed to it, with the given
    text and from the server; it succeeds exactly when all were registered and all
    sessions took their packet.  [OnRecvSession] does the same for a packet of a user of
    the session it came over, hands it to the observer when one of its destinations is the
    server, and queues a command only for a c2s itself; it drops the packet when its sender
    does not belong to the session. *)
Theorem messages_routed accepts s : consistent s -> active s = true ->
  (forall buf charset dsts, 0 < zlen buf -> dsts <> [] -> zlen dsts <= 255 -> Forall wf dsts -> 0 <= charset < 2 ^ 32 ->
   24 + 8 * (zlen dsts - 1) + zlen buf <= MAX_PAYLOAD_SIZE ->
   exists effects, SendMsg accepts buf charset dsts s =
       Some (forallb (fun d => bool_decide (is_Some (destination s d))) dsts && forallb accepts (fst <$> destinations s dsts), effects) /\
     concat (receives <$> effects) ≡ₚ deliveries ROOT_ID charset buf (destinations s dsts)) /\
  (forall ss a c charset src dsts body, ss <> 0 -> stl_find ss (m_session2Ctx s) = Some (ss, a) ->
   heap s !! a = Some c -> wf src -> classId src <> 0 -> UserId src <> 0 -> Forall wf dsts -> dsts <> [] -> zlen dsts <= 255 ->
   0 <= charset < 2 ^ 32 -> is_bytes body -> 0 < zlen body -> 24 + 8 * (zlen dsts - 1) + zlen body <= MAX_PAYLOAD_SIZE ->
   let m := header charset None src dsts ++ body in
   (~ member src c -> OnRecvSession accepts ss m s = Some (s, [])) /\
   (member src c -> exists cs effects,
      OnRecvSession accepts ss m s = Some (setTask (commands s ++ cs) (checking s) s,
        effects ++ if existsb (toServer false) dsts then [RecvMsg body charset src] else []) /\
      concat (receives <$> effects) ≡ₚ deliveries src charset body (destinations s dsts) /\
      (cs <> [] -> isC2s c = true /\ src = baseUser c /\ existsb (toServer true) dsts = true))).
Proof.
  intros Hc Ha. split; [by apply SendMsg_routed|]. intros *. by apply OnRecvSession_routed.
Qed.

(** A c2s with a client behind it; a message to the client, the c2s and a stranger. *)
Definition demoServer : t :=
  setMaps [(100, 1)] [(make 1 2 1, 1); (make 2 7 1, 1)] {[1 := mkCtx 100 (make 1 2 1) [make 2 7 1] true]} (init 11 false false 5 6).
Definition demoDsts : list RTP_MSG_USER := [make 2 7 1; make 3 3 3; make 1 2 1].

Lemma demo_consistent : consistent demoServer.
Proof.
  split; cbn; try done. intros _. split; [|done].
  assert (Hl : forall a c, ({[1 := mkCtx 100 (make 1 2 1) [make 2 7 1] true]} : gmap Z ctx) !! a = Some c <->
    a = 1 /\ c = mkCtx 100 (make 1 2 1) [make 2 7 1] true).
  { intros a c. rewrite lookup_singleton_Some. split; intros [? ?]; by split. }
  split; cbn [stl_sorted]; [by repeat constructor|by repeat constructor|..].
  - intros ss a. split.
    + intros [Hin _]%stl_find_Some_elem. apply list_elem_of_singleton in Hin as [= -> ->]. eexists. split; [by apply Hl|done].
    + intros (c & [-> ->]%Hl & <-). done.
  - intros u a. split.
    + intros [Hin _]%stl_find_Some_elem. repeat (apply elem_of_cons in Hin as [[= -> ->]|Hin]; [eexists; split; [by apply Hl|]|]).
      * by left.
      * right. by left.
      * by apply not_elem_of_nil in Hin.
    + intros (c & [-> ->]%Hl & [->|[->|[]%not_elem_of_nil]%elem_of_cons]); done.
  - intros a c [-> ->]%Hl. split; cbn; [by repeat constructor|by intros E%list_elem_of_singleton| |done].
    intros u [->|[->|[]%not_elem_of_nil]%elem_of_cons]; by repeat split; repeat constructor.
Qed.

Lemma messages_routed_witness : exists effects,
  SendMsg (fun _ => true) [104; 105] 0 demoDsts demoServer = Some (false, effects) /\
  concat (receives <$> effects) ≡ₚ
    [mkDelivery 100 (Some (make 2 7 1)) ROOT_ID 0 [104; 105]; mkDelivery 100 None ROOT_ID 0 [104; 105]].
Proof.
  destruct (messages_routed (fun _ => true) demoServer demo_consistent eq_refl) as [H _].
  destruct (H [104; 105] 0 demoDsts) as (effects & E1 & E2);
    [done|done|done|repeat constructor; done|done|done|]. exists effects. split; [|exact E2].
  rewrite E1. by vm_compute.
Defined.

(** The destination count of a message is not checked against its size: a c2s that says
    255 in a packet of 40 bytes makes the server read outside of the packet. *)
Lemma dstUserCount_unchecked :
  OnRecvSession (fun _ => true) 100 (le_bytes 4 0 ++ bytesOf (make 1 2 1) ++ [0; 0; 0; 255] ++ replicate 24 0) demoServer = None.
Proof. by vm_compute. Qed.
End RoutingTheorems.
