(* ===== verification/MsgClient.v ===== *)
(** * The message client ([rtp_msg_client.cpp])

    A user's or a c2s's end of its session with the message server.  Messages wait in a
    bucket until the server has answered, with the sender's id left open, and go out one
    for each packet that the session has sent.

    The bucket is the plain one of [RtpBucket], here the queue of its packets' payloads:
    nobody else holds these packets.  [OnRecvSession] ends its locked part before it calls
    the observer; the two parts are [OnRecvSession] and [OnRecvUpcall].  [None] is a read
    outside of the packet.  Allocations succeed. *)

From S2P Require Import Prelude RefCount StlMap Bytes Bsd ConfigStream MsgUser RtpPacket RtpSession RtpBucket MsgServer.

Module CRtpMsgClient.
Import MsgUser.
Local Abbreviation header := CRtpMsgServer.header.
Local Abbreviation sizeof_RTP_MSG_HEADER := CRtpMsgServer.sizeof_RTP_MSG_HEADER.
Local Abbreviation sizeof_RTP_MSG_USER := CRtpMsgServer.sizeof_RTP_MSG_USER.

(** [CRtpMsgClient]: [active] is whether observer, reactor and bucket are set *)
Record t := mkClient {
  m_enableTransfer : bool;
  m_mmType : Z;
  m_sslConfig : bool;
  active : bool;
  m_session : Z;
  m_bucket : list (list Z);
  m_redlineBytes : Z;        (* the bucket's *)
  m_user : RTP_MSG_USER;
  m_timerId : Z;
  m_onOkCalled : bool;
  m_canUpcall : bool
}.

Inductive effect :=
  | NewSession (sessionType : Z) (userData : list Z)
  | DeleteSession (session : Z)
  | Send (session : Z) (payload : list Z)            (* a packet that the session took *)
  | SetOutputRedline (session bytes : Z)
  | ScheduleTimer (ms : Z)
  | CancelTimer (timerId : Z)
  | OkMsg (myUser : RTP_MSG_USER) (myPublicIp : Z)
  | RecvMsg (buf : list Z) (charset : Z) (srcUser : RTP_MSG_USER)
  | TransferMsg (buf : list Z) (charset : Z) (srcUser : RTP_MSG_USER) (dstUsers : list RTP_MSG_USER)
  | CloseMsg (errorCode sslCode : Z) (tcpConnected : bool).

Definition construct (enableTransfer : bool) (mmType : Z) (sslConfig : bool) : t :=
  mkClient enableTransfer mmType sslConfig false NULL [] BASE_REDLINE_BYTES Zero 0 false true.
Definition CreateInstance (enableTransfer : bool) (mmType : Z) (sslConfig : bool) : option t :=
  if mmType =? 0 then None else Some (construct enableTransfer mmType sslConfig).

Definition setBucket (b : list (list Z)) (s : t) : t :=
  mkClient (m_enableTransfer s) (m_mmType s) (m_sslConfig s) (active s) (m_session s) b (m_redlineBytes s) (m_user s)
    (m_timerId s) (m_onOkCalled s) (m_canUpcall s).
Definition setLogin (user : RTP_MSG_USER) (timerId : Z) (s : t) : t :=
  mkClient (m_enableTransfer s) (m_mmType s) (m_sslConfig s) (active s) (m_session s) (m_bucket s) (m_redlineBytes s) user
    timerId (m_onOkCalled s) (m_canUpcall s).
Definition setUpcall (onOkCalled canUpcall : bool) (s : t) : t :=
  mkClient (m_enableTransfer s) (m_mmType s) (m_sslConfig s) (active s) (m_session s) (m_bucket s) (m_redlineBytes s) (m_user s)
    (m_timerId s) onOkCalled canUpcall.
Definition setSession (session : Z) (s : t) : t :=
  mkClient (m_enableTransfer s) (m_mmType s) (m_sslConfig s) (active s) session (m_bucket s) (m_redlineBytes s) (m_user s)
    (m_timerId s) (m_onOkCalled s) (m_canUpcall s).

(** [Init]; the new session and timer are given, 0 is none *)
Definition Init (remoteIp : str) (remotePort : Z) (user : RTP_MSG_USER) (timeoutInSeconds newSession newTimer : Z) (s : t)
    : bool * t * list effect :=
  let timeoutInSeconds := if timeoutInSeconds =? 0 then 20 else timeoutInSeconds in
  if bool_decide (cstr remoteIp = []) || (remotePort =? 0) || CRtpMsgServer.badLogin user || active s ||
     negb (m_session s =? NULL) then (false, s, []) else
  let userData := header 0 None user [] ++ replicate 40 0 in
  let effects := [NewSession (if m_sslConfig s then RTP_ST_SSLCLIENT_EX else RTP_ST_TCPCLIENT_EX) userData] in
  if newSession =? NULL then (false, s, effects) else
  (true, mkClient (m_enableTransfer s) (m_mmType s) (m_sslConfig s) true newSession [] BASE_REDLINE_BYTES user newTimer
     (m_onOkCalled s) (m_canUpcall s), effects ++ [ScheduleTimer (timeoutInSeconds * 1000)]).

(** [DeleteRtpSessionWrapper], which takes NULL *)
Definition deleteSession (session : Z) : list effect := if session =? NULL then [] else [DeleteSession session].

(** [Fini] *)
Definition Fini (s : t) : t * list effect :=
  if negb (active s) then (s, []) else
  (mkClient (m_enableTransfer s) (m_mmType s) (m_sslConfig s) false NULL [] (m_redlineBytes s) (m_user s) 0
     (m_onOkCalled s) (m_canUpcall s),
   CancelTimer (m_timerId s) :: deleteSession (m_session s)).

(** The guard of the methods that need the session. *)
Definition ready (s : t) : bool := active s && negb (m_session s =? NULL).

(** [SendData]; [takes] is whether the session takes the packet, and if it does not the
    packet keeps its new sender *)
Definition SendData (takes onOkCalled : bool) (s : t) : t * list effect :=
  if (m_session s =? NULL) || negb onOkCalled then (s, []) else
  match m_bucket s with
  | [] => (s, [])
  | m :: rest =>
      let m := if load 1 4 m =? 0 then zput 4 (bytesOf (m_user s)) m else m in
      if takes then (setBucket rest s, [Send (m_session s) m]) else (setBucket (m :: rest) s, [])
  end.

(** The bytes in the bucket. *)
Definition GetTotalBytes (s : t) : Z := fold_right (fun m n => zlen m + n) 0 (m_bucket s).

(** [PushMsg]; [cached] are the bytes in the session's own bucket *)
Definition PushMsg (takes : bool) (cached : Z) (buf : list Z) (charset : Z) (dsts : list RTP_MSG_USER)
    (src : option RTP_MSG_USER) (s : t) : bool * t * list effect :=
  if negb (ready s) then (false, s, []) else
  let size := sizeof_RTP_MSG_HEADER + sizeof_RTP_MSG_USER * (zlen dsts - 1) + zlen buf in
  if cached + GetTotalBytes s + size >? m_redlineBytes s then (false, s, []) else
  if size >? MAX_PAYLOAD_SIZE then (false, s, []) else
  if existsb (fun d => (classId d =? 0) || (UserId d =? 0)) dsts then (false, s, []) else
  let m := header charset None (default Zero src) dsts ++ buf in
  let '(ret, s) := if GetTotalBytes s >=? m_redlineBytes s then (false, s) else (true, setBucket (m_bucket s ++ [m]) s) in
  let '(s, effects) := SendData takes (m_onOkCalled s) s in
  (ret, s, effects).

(** [SendMsg], [TransferMsg] *)
Definition SendMsg (takes : bool) (cached : Z) (buf : list Z) (charset : Z) (dsts : list RTP_MSG_USER) (s : t)
    : bool * t * list effect :=
  if (zlen buf =? 0) || (zlen dsts =? 0) then (false, s, []) else PushMsg takes cached buf charset dsts None s.
Definition Transfer (takes : bool) (cached : Z) (buf : list Z) (charset : Z) (dsts : list RTP_MSG_USER)
    (src : RTP_MSG_USER) (s : t) : bool * t * list effect :=
  if (zlen buf =? 0) || (zlen dsts =? 0) || (classId src =? 0) || (UserId src =? 0) then (false, s, [])
  else PushMsg takes cached buf charset dsts (Some src) s.

(** [SetOutputRedline] *)
Definition setRedline (bytes : Z) (s : t) : t * list effect :=
  if (bytes =? 0) || negb (ready s) then (s, []) else
  (mkClient (m_enableTransfer s) (m_mmType s) (m_sslConfig s) (active s) (m_session s) (m_bucket s) bytes (m_user s)
     (m_timerId s) (m_onOkCalled s) (m_canUpcall s),
   [SetOutputRedline (m_session s) bytes]).

(** The destinations of a message, [n] of them from number [i] on. *)
Fixpoint readUsers (m : list Z) (n : nat) (i : Z) : option (list RTP_MSG_USER) :=
  match n with
  | O => Some []
  | S n =>
      d ← CRtpMsgServer.readUser (16 + sizeof_RTP_MSG_USER * i) m;
      ds ← readUsers m n (i + 1);
      Some (d :: ds)
  end.

(** What [OnRecvSession] keeps for the upcall: the payload and where its body is, the sender,
    the destinations behind this c2s, and the count left in the header. *)
Record message := mkMessage { payload : list Z; headerSize : Z; bodySize : Z; srcUser : RTP_MSG_USER;
  dstUsers : list RTP_MSG_USER; dstUserCount : Z }.

(** [OnRecvSession], up to the upcall; [m] is the payload *)
Definition OnRecvSession (takes : bool) (session : Z) (m : list Z) (s : t) : option (option message * t * list effect) :=
  if (session =? 0) || (zlen m <=? sizeof_RTP_MSG_HEADER) then Some (None, s, []) else
  let count := let n := load 1 15 m in if n =? 0 then 1 else n in
  let headerSize := sizeof_RTP_MSG_HEADER + sizeof_RTP_MSG_USER * (count - 1) in
  let bodySize := u64 (zlen m - headerSize) in
  let src := ofBytes 4 m in
  if (bodySize =? 0) || (classId src =? 0) || (UserId src =? 0) then Some (None, s, []) else
  if negb (ready s) || negb (session =? m_session s) then Some (None, s, []) else
  let message := mkMessage m headerSize bodySize src in
  let done s := setLogin (m_user s) 0 s in
  if negb (m_onOkCalled s) then
    let '(s1, effects) := SendData takes true (setLogin src (m_timerId s) s) in
    Some (Some (message [] count), done s1, effects ++ [CancelTimer (m_timerId s)])
  else if negb (m_enableTransfer s) then Some (Some (message [] count), done s, [CancelTimer (m_timerId s)])
  else
    users ← readUsers m (Z.to_nat count) 0;
    let dsts := List.filter (fun d => negb (classId d =? 0) && negb (UserId d =? 0) && negb (eqb d (m_user s))) users in
    let bad := zlen (List.filter (fun d => negb (classId d =? 0) && (UserId d =? 0)) users) in
    Some (Some (message dsts (u8 (count - bad))), done s, [CancelTimer (m_timerId s)]).

(** [OnRecvSession], the upcall *)
Definition OnRecvUpcall (msg : message) (s : t) : option (t * list effect) :=
  if negb (m_canUpcall s) then Some (s, []) else
  if negb (m_onOkCalled s) then Some (setUpcall true (m_canUpcall s) s, [OkMsg (srcUser msg) (load 4 0 (payload msg))])
  else
    body ← CRtpMsgServer.readBody (headerSize msg) (u16 (bodySize msg)) (payload msg);
    let charset := pbsd_ntoh32 (load 4 0 (payload msg)) in
    if negb (m_enableTransfer s) then Some (s, [RecvMsg body charset (srcUser msg)])
    else
      Some (s, (if zlen (dstUsers msg) =? dstUserCount msg then [] else [RecvMsg body charset (srcUser msg)]) ++
               (if zlen (dstUsers msg) >? 0 then [TransferMsg body charset (srcUser msg) (dstUsers msg)] else [])).

(** [OnSendSession] *)
Definition OnSendSession (takes : bool) (session : Z) (s : t) : t * list effect :=
  if (session =? 0) || negb (ready s) || negb (session =? m_session s) then (s, [])
  else SendData takes (m_onOkCalled s) s.

(** [OnCloseSession]; the upcall comes after the locked part *)
Definition OnCloseSession (session errorCode sslCode : Z) (tcpConnected : bool) (s : t) : t * list effect :=
  if (session =? 0) || negb (ready s) || negb (session =? m_session s) then (s, []) else
  let s := setSession NULL s in
  if m_canUpcall s
  then (setUpcall (m_onOkCalled s) false s, [CloseMsg errorCode sslCode tcpConnected; DeleteSession session])
  else (s, [DeleteSession session]).

(** [OnTimer] *)
Definition OnTimer (timerId : Z) (tcpConnected : bool) (s : t) : t * list effect :=
  if (timerId =? 0) || negb (ready s) || negb (timerId =? m_timerId s) then (s, []) else
  let '(s, effects) :=
    if m_canUpcall s then (setUpcall (m_onOkCalled s) false s, [CloseMsg PBSD_ETIMEDOUT 0 tcpConnected]) else (s, []) in
  let '(s, ended) := Fini s in
  (s, effects ++ ended).

End CRtpMsgClient.
