(* ===== verification/MsgC2s.v ===== *)
(** * The c2s ([rtp_msg_c2s.cpp])

    A concentrator: it takes the sessions of many clients, asks the message server over its
    own uplink whether a client may log in, and relays the messages of its users.

    The uplink is a message client ([MsgClient]), named by its address: the calls on it are
    effects, and whether it takes a login is an argument.  A method that calls the observer
    holds [m_lockUpcall] from its locked part to its end: what it still has to do then is
    [upcall], and other methods that hold that lock wait until it is done.  New sessions,
    timers and clients, whether a session takes a packet and the address functions of the
    sockets come from outside; [None] is undefined behaviour.  Allocations succeed. *)

From S2P Require Import Prelude RefCount StlMap Bytes Bsd ConfigStream MsgUser RtpPacket RtpSession MsgServer.

Definition RECONNECT_INTERVAL : Z := 10.
Definition HEARTBEAT_INTERVAL : Z := 1.
Definition DEFAULT_TIMEOUT : Z := 20.

Module CRtpMsgC2s.
Import MsgUser.
Local Abbreviation acceptArg := CRtpMsgServer.acceptArg.
Local Abbreviation header := CRtpMsgServer.header.
Local Abbreviation textOf := CRtpMsgServer.textOf.
Local Abbreviation sizeof_RTP_MSG_HEADER := CRtpMsgServer.sizeof_RTP_MSG_HEADER.
Local Abbreviation sizeof_RTP_MSG_USER := CRtpMsgServer.sizeof_RTP_MSG_USER.

(** The constants of an instance, and the arguments for its uplink. *)
Record config := mkConfig { m_mmType : Z; m_localSslConfig : bool; m_localSslForced : bool }.
Record uplink := mkUplink {
  m_uplinkIp : str;
  m_uplinkPort : Z;
  m_uplinkUser : RTP_MSG_USER;
  m_uplinkPassword : str;
  m_uplinkLocalIp : str;
  m_uplinkTimeoutInSeconds : Z
}.

Inductive effect :=
  | ScheduleTimer (timerId ms : Z) (recurring : bool)
  | CancelTimer (timerId : Z)
  | CloseSocket (sslCtx sockId : Z)                     (* [ProSslCtx_Delete], [ProCloseSockId] *)
  | NewSession (session sessionType sslCtx sockId : Z)  (* [CreateRtpSessionWrapper] *)
  | DeleteSession (session : Z)
  | Send (session : Z) (payload : list Z)               (* [SendPacket] *)
  | UpMsg (client : Z) (buf : list Z) (dsts : list RTP_MSG_USER)     (* the client's [SendMsg] *)
  | UpTransfer (client : Z) (buf : list Z) (charset : Z) (dsts : list RTP_MSG_USER) (src : RTP_MSG_USER)
  | UpRedline (client bytes : Z)
  | NewClient (client : Z) (up : uplink)                (* created and started *)
  | FiniClient (client : Z)                             (* [Fini], [Release] *)
  | DeleteService
  | OkUser (user : RTP_MSG_USER) (publicIp : str)
  | CloseUser (user : RTP_MSG_USER) (errorCode sslCode : Z)
  | OkC2s (myUser : RTP_MSG_USER) (myPublicIp : str)
  | CloseC2s (errorCode sslCode : Z) (tcpConnected : bool).

(** [CRtpMsgC2s]: [active] is whether observer, reactor, service and task are set;
    [commands] are the users of the task's [AsyncKickoutUser] commands; [closing] is what
    [Fini] has still to end *)
Record t := mkC2s {
  conf : config;
  active : bool;
  m_msgClient : Z;
  m_timerId : Z;
  m_connectTick : Z;
  up : uplink;
  m_localTimeoutInSeconds : Z;
  m_redlineBytes : Z;
  m_c2sUser : RTP_MSG_USER;
  m_c2sUserBak : RTP_MSG_USER;
  m_timerId2Info : list (Z * acceptArg);
  m_session2User : list (Z * RTP_MSG_USER);
  m_user2Session : list (RTP_MSG_USER * Z);
  commands : list RTP_MSG_USER;
  upcall : list effect;
  closing : option (list (Z * RTP_MSG_USER) * Z)
}.

Definition setInfo (i : list (Z * acceptArg)) (s : t) : t :=
  mkC2s (conf s) (active s) (m_msgClient s) (m_timerId s) (m_connectTick s) (up s) (m_localTimeoutInSeconds s)
    (m_redlineBytes s) (m_c2sUser s) (m_c2sUserBak s) i (m_session2User s) (m_user2Session s) (commands s) (upcall s) (closing s).
Definition setMaps (s2u : list (Z * RTP_MSG_USER)) (u2s : list (RTP_MSG_USER * Z)) (s : t) : t :=
  mkC2s (conf s) (active s) (m_msgClient s) (m_timerId s) (m_connectTick s) (up s) (m_localTimeoutInSeconds s)
    (m_redlineBytes s) (m_c2sUser s) (m_c2sUserBak s) (m_timerId2Info s) s2u u2s (commands s) (upcall s) (closing s).
Definition setClient (client tick : Z) (c2sUser bak : RTP_MSG_USER) (s : t) : t :=
  mkC2s (conf s) (active s) client (m_timerId s) tick (up s) (m_localTimeoutInSeconds s)
    (m_redlineBytes s) c2sUser bak (m_timerId2Info s) (m_session2User s) (m_user2Session s) (commands s) (upcall s) (closing s).
Definition setRest (c : list RTP_MSG_USER) (rest : list effect) (s : t) : t :=
  mkC2s (conf s) (active s) (m_msgClient s) (m_timerId s) (m_connectTick s) (up s) (m_localTimeoutInSeconds s)
    (m_redlineBytes s) (m_c2sUser s) (m_c2sUserBak s) (m_timerId2Info s) (m_session2User s) (m_user2Session s) c rest (closing s).
Definition setUpcall (rest : list effect) (s : t) : t := setRest (commands s) rest s.

(** The constructor, [CreateInstance], [Init] *)
Definition construct (c : config) : t :=
  mkC2s c false NULL 0 0 (mkUplink [] 0 Zero [] [] DEFAULT_TIMEOUT) DEFAULT_TIMEOUT DEFAULT_REDLINE_BYTES Zero Zero [] [] [] [] [] None.
Definition CreateInstance (c : config) : option t := if m_mmType c =? 0 then None else Some (construct c).

Section c2s.
Context (accepts : Z -> bool).      (* whether a session takes a packet *)
Context (inet_aton : str -> Z).     (* [pbsd_inet_aton] *)
Context (inet_ntoa : Z -> str).     (* [pbsd_inet_ntoa] *)

(** [Init]; [newClient] is the client, if it can be created and started *)
Definition Init (args : uplink) (localServiceHubPort localTimeoutInSeconds : Z) (taskStarts serviceStarts : bool)
    (newClient : option Z) (newTimer tick : Z) (s : t) : bool * t * list effect :=
  let uplinkUser := m_uplinkUser args in
  if bool_decide (cstr (m_uplinkIp args) = []) || (m_uplinkPort args =? 0) || negb (classId uplinkUser =? SERVER_CID) ||
     CRtpMsgServer.badLogin uplinkUser || (localServiceHubPort =? 0) then (false, s, []) else
  let uplinkIp2 := inet_aton (cstr (m_uplinkIp args)) in
  if (uplinkIp2 =? 4294967295) || (uplinkIp2 =? 0) then (false, s, []) else
  let timeout t := if t =? 0 then DEFAULT_TIMEOUT else t in
  let args := mkUplink (inet_ntoa uplinkIp2) (m_uplinkPort args) uplinkUser (m_uplinkPassword args) (m_uplinkLocalIp args)
                (timeout (m_uplinkTimeoutInSeconds args)) in
  if active s || negb (m_msgClient s =? NULL) then (false, s, []) else
  if negb taskStarts then (false, s, []) else
  if negb serviceStarts then (false, s, []) else
  match newClient with
  | None => (false, s, [DeleteService])
  | Some client =>
      (true,
       mkC2s (conf s) true client newTimer tick args (timeout localTimeoutInSeconds) (m_redlineBytes s) (m_c2sUser s)
         uplinkUser (m_timerId2Info s) (m_session2User s) (m_user2Session s) (commands s) (upcall s) (closing s),
       [NewClient client args; ScheduleTimer newTimer (HEARTBEAT_INTERVAL * 1000) true])
  end.

(** The end of the clients that wait for the server's answer. *)
Definition dropInfo (info : list (Z * acceptArg)) : list effect :=
  concat (map (fun e => [CancelTimer (fst e); CloseSocket (CRtpMsgServer.sslCtx (snd e)) (CRtpMsgServer.sockId (snd e))]) info).

(** [Fini], up to [task->Stop()], and after it *)
Definition FiniBegin (s : t) : t * list effect :=
  if negb (active s) then (s, []) else
  let args := up s in
  (mkC2s (conf s) false NULL 0 (m_connectTick s)
     (mkUplink (m_uplinkIp args) (m_uplinkPort args) (m_uplinkUser args) [] (m_uplinkLocalIp args) (m_uplinkTimeoutInSeconds args))
     (m_localTimeoutInSeconds s) (m_redlineBytes s) (m_c2sUser s) (m_c2sUserBak s) [] [] [] (commands s) (upcall s)
     (Some (m_session2User s, m_msgClient s)),
   CancelTimer (m_timerId s) :: dropInfo (m_timerId2Info s)).
Definition FiniEnd (sessions : list (Z * RTP_MSG_USER)) (client : Z) (s : t) : t * list effect :=
  (mkC2s (conf s) (active s) (m_msgClient s) (m_timerId s) (m_connectTick s) (up s) (m_localTimeoutInSeconds s)
     (m_redlineBytes s) (m_c2sUser s) (m_c2sUserBak s) (m_timerId2Info s) (m_session2User s) (m_user2Session s) (commands s)
     (upcall s) None,
   map (fun e => DeleteSession (fst e)) sessions ++ (if client =? NULL then [] else [FiniClient client]) ++ [DeleteService]).

(** [GetUserCount]: pending users and users *)
Definition GetUserCount (s : t) : Z * Z := (Z.of_nat (length (m_timerId2Info s)), Z.of_nat (length (m_user2Session s))).

(** [SetOutputRedline] *)
Definition setRedline (bytes : Z) (s : t) : t * list effect :=
  if (bytes =? 0) || negb (active s) then (s, []) else
  (mkC2s (conf s) (active s) (m_msgClient s) (m_timerId s) (m_connectTick s) (up s) (m_localTimeoutInSeconds s)
     bytes (m_c2sUser s) (m_c2sUserBak s) (m_timerId2Info s) (m_session2User s) (m_user2Session s) (commands s) (upcall s) (closing s),
   if m_msgClient s =? NULL then [] else [UpRedline (m_msgClient s) bytes]).

(** *** Messages *)

(** [SendMsgToDownlink] *)
Definition SendMsgToDownlink (sessions : list Z) (buf : list Z) (charset : Z) (src : RTP_MSG_USER) (publicIp : option str)
    : bool * list effect :=
  if (zlen sessions =? 0) || (zlen buf =? 0) || (classId src =? 0) || (UserId src =? 0) then (false, []) else
  let payload := header charset (inet_aton <$> publicIp) src [] ++ buf in
  if zlen payload >? MAX_PAYLOAD_SIZE then (false, []) else
  (forallb accepts sessions, map (fun s => Send s payload) sessions).

(** [ReportLogout] *)
Definition logoutText (user : RTP_MSG_USER) : list Z :=
  textOf (CProConfigStream.Add TAG_client_id (RtpMsgUser2String user)
           (CProConfigStream.Add TAG_msg_name MSG_client_logout CProConfigStream.init)).
Definition ReportLogout (client : Z) (user : RTP_MSG_USER) : list effect :=
  if (client =? NULL) || (classId user =? 0) || (UserId user =? 0) then []
  else [UpMsg client (logoutText user) [ROOT_ID_C2S]].

(** [ "%02x" ] of every byte *)
Definition hexDigit (d : Z) : Z := if d <? 10 then d + 48 else d + 87.
Definition hexString (l : list Z) : str := concat (map (fun b => [hexDigit (b / 16); hexDigit (b mod 16)]) l).

(** The text of a login. *)
Definition loginText (user : RTP_MSG_USER) (timerId : Z) (arg : acceptArg) : list Z :=
  textOf (CProConfigStream.AddUint64 TAG_client_nonce (CRtpMsgServer.nonce arg)
    (CProConfigStream.Add TAG_client_hash_string (hexString (CRtpMsgServer.passwordHash arg))
    (CProConfigStream.Add TAG_client_public_ip (cstr (CRtpMsgServer.remoteIp arg))
    (CProConfigStream.Add TAG_client_id (RtpMsgUser2String user)
    (CProConfigStream.AddUint TAG_client_index (u32 timerId)
    (CProConfigStream.Add TAG_msg_name MSG_client_login CProConfigStream.init)))))).

(** [AcceptSession]; [sends] is whether the client takes the message *)
Definition AcceptSession (ours : bool) (arg : acceptArg) (newTimer : Z) (sends : list Z -> bool) (s : t) : t * list effect :=
  let exit := [CloseSocket (CRtpMsgServer.sslCtx arg) (CRtpMsgServer.sockId arg)] in
  if (if negb (m_localSslConfig (conf s)) then negb (CRtpMsgServer.sessionType arg =? RTP_ST_TCPCLIENT_EX)
      else if m_localSslForced (conf s) then negb (CRtpMsgServer.sessionType arg =? RTP_ST_SSLCLIENT_EX) else false)
  then (s, exit) else
  let user := ofBytes 4 (CRtpMsgServer.userData arg) in
  if CRtpMsgServer.badLogin user then (s, exit) else
  if negb (active s) || negb ours || (Z.of_nat (length (m_timerId2Info s)) >=? MAX_PENDING_COUNT) ||
     (m_msgClient s =? NULL) || (classId (m_c2sUser s) =? 0) || (UserId (m_c2sUser s) =? 0) || eqb user (m_c2sUser s)
  then (s, exit) else
  let text := loginText user newTimer arg in
  let effects := [ScheduleTimer newTimer (m_localTimeoutInSeconds s * 1000) false; UpMsg (m_msgClient s) text [ROOT_ID_C2S]] in
  if negb (sends text) then (s, effects ++ CancelTimer newTimer :: exit)
  else (setInfo (stl_assign (newTimer, arg) (m_timerId2Info s)) s, effects).

(** [OnAcceptSession], without and with an [sslCtx]; [ours] is [service == m_service] *)
Definition OnAcceptSession (ssl ours : bool) (arg : acceptArg) (newTimer : Z) (sends : list Z -> bool) (s : t) : t * list effect :=
  if (ssl && (CRtpMsgServer.sslCtx arg =? 0)) || (CRtpMsgServer.sockId arg =? -1) then (s, []) else
  if negb (CRtpMsgServer.sessionType arg =? (if ssl then RTP_ST_SSLCLIENT_EX else RTP_ST_TCPCLIENT_EX)) ||
     negb (CRtpMsgServer.mmType arg =? m_mmType (conf s))
  then (s, [CloseSocket (CRtpMsgServer.sslCtx arg) (CRtpMsgServer.sockId arg)])
  else AcceptSession ours arg newTimer sends s.

(** The loop of [OnRecvSession] over the [n] destinations from number [i] on: the sessions
    of those that are here, and the others *)
Fixpoint routeRecv (s : t) (m : list Z) (n : nat) (i : Z) : option (list Z * list RTP_MSG_USER) :=
  match n with
  | O => Some ([], [])
  | S n =>
      dst ← CRtpMsgServer.readUser (16 + sizeof_RTP_MSG_USER * i) m;
      '(sessions, users) ← routeRecv s m n (i + 1);
      Some (if (classId dst =? 0) || (UserId dst =? 0) then (sessions, users) else
            match stl_find dst (m_user2Session s) with
            | Some (_, ss) => (ss :: sessions, users)
            | None => (sessions, dst :: users)
            end)
  end.

(** [OnRecvSession] *)
Definition OnRecvSession (ss : Z) (m : list Z) (s : t) : option (t * list effect) :=
  if (ss =? 0) || (zlen m <=? sizeof_RTP_MSG_HEADER) then Some (s, []) else
  let count := let n := load 1 15 m in if n =? 0 then 1 else n in
  let headerSize := sizeof_RTP_MSG_HEADER + sizeof_RTP_MSG_USER * (count - 1) in
  let bodySize := u64 (zlen m - headerSize) in
  let charset := pbsd_ntoh32 (load 4 0 m) in
  let src := ofBytes 4 m in
  if (bodySize =? 0) || (classId src =? 0) || (UserId src =? 0) then Some (s, []) else
  if negb (active s) then Some (s, []) else
  match stl_find ss (m_session2User s) with
  | None => Some (s, [])
  | Some (_, user) =>
      if negb (eqb src user) then Some (s, []) else
      '(sessions, uplinkUsers) ← routeRecv s m (Z.to_nat count) 0;
      let toUplink := (zlen uplinkUsers >? 0) && negb (m_msgClient s =? NULL) in
      if (zlen sessions =? 0) && negb toUplink then Some (s, []) else
      body ← CRtpMsgServer.readBody headerSize (u16 bodySize) m;
      Some (s, snd (SendMsgToDownlink sessions body charset src None) ++
               if toUplink then [UpTransfer (m_msgClient s) body charset uplinkUsers src] else [])
  end.

(** [OnTransferMsg] *)
Definition OnTransferMsg (client : Z) (buf : list Z) (charset : Z) (src : RTP_MSG_USER) (dsts : list RTP_MSG_USER) (s : t)
    : list effect :=
  if (client =? NULL) || (zlen buf =? 0) || (classId src =? 0) || (UserId src =? 0) || (zlen dsts =? 0) then [] else
  if negb (active s) || negb (client =? m_msgClient s) then [] else
  let sessions := omap (fun d => snd <$> stl_find d (m_user2Session s)) dsts in
  snd (SendMsgToDownlink sessions buf charset src None).

(** *** The users *)

(** The removal of a user's entries: the maps afterwards *)
Definition removeUser (user : RTP_MSG_USER) (ss : Z) (s : t) : t :=
  setMaps (stl_erase ss (m_session2User s)) (stl_erase user (m_user2Session s)) s.

(** [KickoutUser], [AsyncKickoutUser] *)
Definition KickoutUser (user : RTP_MSG_USER) (s : t) : t :=
  if (classId user =? 0) || (UserId user =? 0) || negb (active s) then s
  else setRest (commands s ++ [make (u8 (classId user)) (UserId user) (u16 (instId user))]) (upcall s) s.
Definition AsyncKickoutUser (user : RTP_MSG_USER) (s : t) : t * list effect :=
  if negb (active s) then (s, []) else
  match stl_find user (m_user2Session s) with
  | None => (s, [])
  | Some (_, oldSession) =>
      (setUpcall [CloseUser user (-1) 0; DeleteSession oldSession] (removeUser user oldSession s),
       if m_msgClient s =? NULL then [] else ReportLogout (m_msgClient s) user)
  end.

(** [OnCloseSession] *)
Definition OnCloseSession (ss errorCode sslCode : Z) (s : t) : t * list effect :=
  if (ss =? 0) || negb (active s) then (s, []) else
  match stl_find ss (m_session2User s) with
  | None => (s, [])
  | Some (_, user) =>
      (setUpcall [CloseUser user errorCode sslCode; DeleteSession ss] (removeUser user ss s),
       if m_msgClient s =? NULL then [] else ReportLogout (m_msgClient s) user)
  end.

(** *** The uplink *)

(** [OnOkMsg] *)
Definition OnOkMsg (client : Z) (myUser : RTP_MSG_USER) (myPublicIp : str) (s : t) : t * list effect :=
  if (client =? NULL) || negb (classId myUser =? SERVER_CID) || (UserId myUser =? 0) || bool_decide (cstr myPublicIp = [])
  then (s, []) else
  if negb (active s) || negb (client =? m_msgClient s) then (s, []) else
  (setUpcall [OkC2s myUser (cstr myPublicIp)] (setClient (m_msgClient s) (m_connectTick s) myUser myUser s),
   [UpRedline (m_msgClient s) (m_redlineBytes s)]).

(** [ProcessMsg_client_login_ok]; [newSession] is the session and its remote ip, if it can
    be created *)
Definition ProcessMsg_client_login_ok (newSession : option (Z * str)) (client : Z) (msgStream : CProConfigStream.t) (s : t)
    : option (t * list effect) :=
  if client =? NULL then Some (s, []) else
  client_index ← CProConfigStream.GetUint TAG_client_index msgStream;
  user ← RtpMsgString2User (CProConfigStream.Get TAG_client_id msgStream);
  if (classId user =? 0) || (UserId user =? 0) then Some (s, []) else
  if negb (active s) || negb (client =? m_msgClient s) then Some (s, []) else
  match stl_find client_index (m_timerId2Info s) with
  | None => Some (setUpcall (ReportLogout client user) s, [])
  | Some (_, info) =>
      let sslCtx := CRtpMsgServer.sslCtx info in
      let sockId := CRtpMsgServer.sockId info in
      let s := setInfo (stl_erase client_index (m_timerId2Info s)) s in
      match newSession with
      | None => Some (setUpcall (ReportLogout client user) s, [CancelTimer client_index; CloseSocket sslCtx sockId])
      | Some (ss, publicIp) =>
          let type := if CRtpMsgServer.sessionType info =? RTP_ST_SSLCLIENT_EX then RTP_ST_SSLSERVER_EX else RTP_ST_TCPSERVER_EX in
          let oldSession := snd <$> stl_find user (m_user2Session s) in
          let s := match oldSession with Some old => removeUser user old s | None => s end in
          let '(ret, sent) := SendMsgToDownlink [ss] [0] 0 user (Some publicIp) in
          let s := if (ret : bool) then setMaps (stl_assign (ss, user) (m_session2User s)) (stl_assign (user, ss) (m_user2Session s)) s
                   else s in
          Some (setUpcall
                  ((match oldSession with Some _ => [CloseUser user (-1) 0] | None => [] end) ++
                   (if (ret : bool) then [OkUser user publicIp] else ReportLogout client user ++ [DeleteSession ss]) ++
                   match oldSession with Some old => [DeleteSession old] | None => [] end) s,
                [CancelTimer client_index; NewSession ss type sslCtx sockId] ++ sent)
      end
  end.

(** [ProcessMsg_client_login_error] *)
Definition ProcessMsg_client_login_error (client : Z) (msgStream : CProConfigStream.t) (s : t) : option (t * list effect) :=
  if client =? NULL then Some (s, []) else
  client_index ← CProConfigStream.GetUint TAG_client_index msgStream;
  if negb (active s) || negb (client =? m_msgClient s) then Some (s, []) else
  match stl_find client_index (m_timerId2Info s) with
  | None => Some (s, [])
  | Some e => Some (setInfo (stl_erase client_index (m_timerId2Info s)) s, dropInfo [e])
  end.

(** [ProcessMsg_client_kickout] *)
Definition ProcessMsg_client_kickout (client : Z) (msgStream : CProConfigStream.t) (s : t) : option (t * list effect) :=
  if client =? NULL then Some (s, []) else
  user ← RtpMsgString2User (CProConfigStream.Get TAG_client_id msgStream);
  if (classId user =? 0) || (UserId user =? 0) then Some (s, []) else
  if negb (active s) || negb (client =? m_msgClient s) then Some (s, []) else
  match stl_find user (m_user2Session s) with
  | None => Some (s, [])
  | Some (_, oldSession) =>
      Some (setUpcall [CloseUser user (-1) 0; DeleteSession oldSession] (removeUser user oldSession s), [])
  end.

(** [OnRecvMsg] *)
Definition OnRecvMsg (newSession : option (Z * str)) (client : Z) (buf : list Z) (src : RTP_MSG_USER) (s : t)
    : option (t * list effect) :=
  if (client =? NULL) || (zlen buf =? 0) || (classId src =? 0) || (UserId src =? 0) || negb (eqb src ROOT_ID_C2S)
  then Some (s, []) else
  '(ok, configs) ← CProConfigStream.StringToConfigs buf;
  if negb ok then Some (s, []) else
  let msgStream := CProConfigStream.AddItems configs CProConfigStream.init in
  let msgName := CProConfigStream.Get TAG_msg_name msgStream in
  if sameText msgName MSG_client_login_ok then ProcessMsg_client_login_ok newSession client msgStream s
  else if sameText msgName MSG_client_login_error then ProcessMsg_client_login_error client msgStream s
  else if sameText msgName MSG_client_kickout then ProcessMsg_client_kickout client msgStream s
  else Some (s, []).

(** [OnCloseMsg] *)
Definition OnCloseMsg (client errorCode sslCode : Z) (tcpConnected : bool) (s : t) : t * list effect :=
  if (client =? NULL) || negb (active s) || negb (client =? m_msgClient s) then (s, []) else
  (setUpcall (map (fun e => DeleteSession (fst e)) (m_session2User s) ++ [CloseC2s errorCode sslCode tcpConnected; FiniClient client])
     (setClient NULL (m_connectTick s) Zero (m_c2sUserBak s) (setInfo [] (setMaps [] [] s))),
   dropInfo (m_timerId2Info s)).

(** [OnTimer]; [newClient] is the client, if it can be created and started *)
Definition OnTimer (timerId tick : Z) (newClient : option Z) (s : t) : t * list effect :=
  if (timerId =? 0) || negb (active s) then (s, []) else
  if timerId =? m_timerId s then
    if (m_msgClient s =? NULL) && (tick - m_connectTick s >=? RECONNECT_INTERVAL * 1000) then
      match newClient with
      | Some client => (setClient client tick (m_c2sUser s) (m_c2sUserBak s) s, [NewClient client (up s)])
      | None => (setClient NULL tick (m_c2sUser s) (m_c2sUserBak s) s, [])
      end
    else (s, [])
  else
    match stl_find timerId (m_timerId2Info s) with
    | None => (s, [])
    | Some e => (setInfo (stl_erase timerId (m_timerId2Info s)) s, dropInfo [e])
    end.

(** *** Events *)

Inductive event :=
  | Kickout (user : RTP_MSG_USER)
  | Redline (bytes : Z)
  | Accept (ssl ours : bool) (arg : acceptArg) (newTimer : Z) (sends : list Z -> bool)
  | Recv (session : Z) (payload : list Z)
  | Close (session errorCode sslCode : Z)
  | OkMsg (client : Z) (myUser : RTP_MSG_USER) (myPublicIp : str)
  | RecvMsg (newSession : option (Z * str)) (client : Z) (buf : list Z) (src : RTP_MSG_USER)
  | TransferMsg (client : Z) (buf : list Z) (charset : Z) (src : RTP_MSG_USER) (dsts : list RTP_MSG_USER)
  | CloseMsg (client errorCode sslCode : Z) (tcpConnected : bool)
  | Timer (timerId tick : Z) (newClient : option Z)
  | Run
  | Rest
  | Fini
  | FiniDone.

(** The events whose methods hold [m_lockUpcall]. *)
Definition locks (e : event) : bool :=
  match e with Close _ _ _ | OkMsg _ _ _ | RecvMsg _ _ _ _ | CloseMsg _ _ _ _ | Run => true | _ => false end.

(** What an event does; an event that cannot happen does nothing.  [Run] takes the task's
    next command, [Rest] ends a method that has [m_lockUpcall]. *)
Definition handle (e : event) (s : t) : option (t * list effect) :=
  if locks e && negb (bool_decide (upcall s = [])) then Some (s, []) else
  match e with
  | Kickout user => Some (KickoutUser user s, [])
  | Redline bytes => Some (setRedline bytes s)
  | Accept ssl ours arg newTimer sends => Some (OnAcceptSession ssl ours arg newTimer sends s)
  | Recv session payload => OnRecvSession session payload s
  | Close session errorCode sslCode => Some (OnCloseSession session errorCode sslCode s)
  | OkMsg client myUser myPublicIp => Some (OnOkMsg client myUser myPublicIp s)
  | RecvMsg newSession client buf src => OnRecvMsg newSession client buf src s
  | TransferMsg client buf charset src dsts => Some (s, OnTransferMsg client buf charset src dsts s)
  | CloseMsg client errorCode sslCode tcpConnected => Some (OnCloseMsg client errorCode sslCode tcpConnected s)
  | Timer timerId tick newClient => Some (OnTimer timerId tick newClient s)
  | Run =>
      match commands s with
      | user :: rest => Some (AsyncKickoutUser user (setRest rest (upcall s) s))
      | [] => Some (s, [])
      end
  | Rest => Some (setUpcall [] s, upcall s)
  | Fini => Some (FiniBegin s)
  | FiniDone =>
      match closing s, commands s with
      | Some (sessions, client), [] => Some (FiniEnd sessions client s)
      | _, _ => Some (s, [])
      end
  end.

End c2s.
End CRtpMsgC2s.
