(* ===== verification/MsgC2sRegistry.v ===== *)
(** * The c2s's registry

    In every state that a c2s can reach its two maps of users are inverse to each other,
    the observer is told of each user's coming and going in turn, and whatever the c2s has
    taken (sockets, sessions, timers, uplink clients) it holds, or has given back once. *)

From S2P Require Import Prelude RefCount StlMap Bytes Bsd ConfigStream MsgUser RtpPacket RtpSession MsgServer MsgRegistry MsgC2s.
Import CRtpMsgC2s MsgUser MsgUserLemmas.

Module C2sSpec.
#[export] Instance user_keyed : StlKeyed RTP_MSG_USER RTP_MSG_USER := fun u => u.

(** The users that are online after these callbacks; the loss of the uplink ends them all. *)
Fixpoint online (on : list RTP_MSG_USER) (log : list effect) : option (list RTP_MSG_USER) :=
  match log with
  | [] => Some on
  | OkUser u _ :: log => match stl_find u on with Some _ => None | None => online (stl_insert u on) log end
  | CloseUser u _ _ :: log => match stl_find u on with Some _ => online (stl_erase u on) log | None => None end
  | CloseC2s _ _ _ :: log => online [] log
  | _ :: log => online on log
  end.
Definition users (s : t) : list RTP_MSG_USER := fst <$> m_user2Session s.

(** A kind of thing that is taken and given back: by which effects, and what a state holds *)
Record resource (X : Type) := mkResource { gain : effect -> list X; lose : effect -> list X; held : t -> list X }.
Arguments gain {X}. Arguments lose {X}. Arguments held {X}.

Definition sessions : resource Z := mkResource Z
  (fun e => match e with NewSession ss _ _ _ => [ss] | _ => [] end)
  (fun e => match e with DeleteSession ss => [ss] | _ => [] end)
  (fun s => (fst <$> m_session2User s) ++ match closing s with Some (l, _) => fst <$> l | None => [] end).

(** A socket goes to the session that is made for it, or is closed. *)
Definition socketOf (e : Z * CRtpMsgServer.acceptArg) : Z * Z := (CRtpMsgServer.sslCtx (snd e), CRtpMsgServer.sockId (snd e)).
Definition sockets : resource (Z * Z) := mkResource (Z * Z)
  (fun e => [])
  (fun e => match e with CloseSocket c k | NewSession _ _ c k => [(c, k)] | _ => [] end)
  (fun s => socketOf <$> m_timerId2Info s).
Definition accepted (e : event) : list (Z * Z) :=
  match e with
  | Accept ssl _ arg _ _ =>
      if (ssl && (CRtpMsgServer.sslCtx arg =? 0)) || (CRtpMsgServer.sockId arg =? -1) then []
      else [(CRtpMsgServer.sslCtx arg, CRtpMsgServer.sockId arg)]
  | _ => []
  end.

Definition timers : resource Z := mkResource Z
  (fun e => match e with ScheduleTimer i _ _ => [i] | _ => [] end)
  (fun e => match e with CancelTimer i => [i] | _ => [] end)
  (fun s => (if active s then [m_timerId s] else []) ++ (fst <$> m_timerId2Info s)).

Definition one (client : Z) : list Z := if client =? NULL then [] else [client].
Definition clients : resource Z := mkResource Z
  (fun e => match e with NewClient c _ => [c] | _ => [] end)
  (fun e => match e with FiniClient c => [c] | _ => [] end)
  (fun s => one (m_msgClient s) ++ match closing s with Some (_, c) => one c | None => [] end).

(** What was taken is held, or about to be given back, or was given back. *)
Definition accounted {X} (r : resource X) (taken : list X) (log : list effect) (s : t) : Prop :=
  taken ++ (log ≫= gain r) ≡ₚ (log ≫= lose r) ++ (upcall s ≫= lose r) ++ held r s.

(** The invariant of the maps. *)
Record consistent (s : t) : Prop := mkConsistent {
  con_info : stl_sorted (m_timerId2Info s);
  con_sessions : stl_sorted (m_session2User s);
  con_users : stl_sorted (m_user2Session s);
  con_inverse : forall ss u, stl_find ss (m_session2User s) = Some (ss, u) <-> stl_find u (m_user2Session s) = Some (u, ss);
  con_nonzero : forall ss u, stl_find u (m_user2Session s) = Some (u, ss) -> classId u <> 0 /\ UserId u <> 0;
  con_down : m_msgClient s = NULL -> m_timerId2Info s = [] /\ m_session2User s = [] /\ m_user2Session s = [];
  con_off : active s = false -> m_msgClient s = NULL;
  con_closing : closing s <> None -> active s = false;
  con_rest : Forall (fun e => match e with NewSession _ _ _ _ | ScheduleTimer _ _ _ | NewClient _ _ => False | _ => True end) (upcall s)
}.

(** A text whose numbers fit. *)
Definition readable (buf : list Z) : Prop :=
  forall ok configs, CProConfigStream.StringToConfigs buf = Some (ok, configs) ->
    let st := CProConfigStream.AddItems configs CProConfigStream.init in
    CProConfigStream.GetUint TAG_client_index st <> None /\ RtpMsgString2User (CProConfigStream.Get TAG_client_id st) <> None.

(** What the environment has to keep to. *)
Definition enabled (e : event) (s : t) : Prop :=
  match e with
  | Accept _ _ _ newTimer _ => stl_find newTimer (m_timerId2Info s) = None
  | Recv _ m => is_bytes m /\ zlen m <= MAX_PAYLOAD_SIZE /\ RegistrySpec.complete m
  | RecvMsg new _ buf _ => is_bytes buf /\ readable buf /\
      match new with Some (ss, _) => stl_find ss (m_session2User s) = None | None => True end
  | Timer _ _ (Some client) => client <> NULL
  | _ => True
  end.

Section run.
Context (accepts : Z -> bool) (inet_aton : str -> Z).

Inductive reachable (s0 : t) (log0 : list effect) : t -> list event -> list effect -> Prop :=
  | reach_init : reachable s0 log0 s0 [] log0
  | reach_step s es log e s' effects :
      reachable s0 log0 s es log -> enabled e s -> handle accepts inet_aton e s = Some (s', effects) ->
      reachable s0 log0 s' (es ++ [e]) (log ++ effects).
End run.
End C2sSpec.

Module C2sLemmas.
Import C2sSpec.

Lemma c2s_online_app on l1 l2 : online on (l1 ++ l2) = (on ← online on l1; online on l2).
Proof.
  revert on. induction l1 as [|e l1 IH]; intros on; [done|]. cbn. destruct e; try apply IH; (destruct (stl_find _ on); [try apply IH; done|try apply IH; done]).
Qed.

(** Effects that take and give nothing. *)
Definition silent (e : effect) : bool :=
  match e with
  | Send _ _ | UpMsg _ _ _ | UpTransfer _ _ _ _ _ | UpRedline _ _ | DeleteService | OkC2s _ _ => true
  | _ => false
  end.
Lemma silent_bind {X} (f : effect -> list X) l : (forall e, silent e = true -> f e = []) -> Forall (fun e => silent e = true) l ->
  l ≫= f = [].
Proof. intros Hf. induction 1 as [|e l He _ IH]; [done|]. cbn. by rewrite Hf, IH. Qed.
Lemma silent_online l on : Forall (fun e => silent e = true) l -> online on l = Some on.
Proof. intros H. revert on. induction H as [|e l He _ IH]; [done|]. intros on. destruct e; try done; apply IH. Qed.

(** What one step has to account for. *)
Definition balanced {X} (r : resource X) (taken : list X) (s : t) (l : list effect) (s' : t) : Prop :=
  taken ++ (l ≫= gain r) ++ (upcall s ≫= lose r) ++ held r s ≡ₚ (l ≫= lose r) ++ (upcall s' ≫= lose r) ++ held r s'.

Lemma accounted_step {X} (r : resource X) taken more log s l s' :
  accounted r taken log s -> balanced r more s l s' -> accounted r (taken ++ more) (log ++ l) s'.
Proof.
  unfold accounted, balanced. rewrite !bind_app. intros H1 H2.
  transitivity ((taken ++ (log ≫= gain r)) ++ (more ++ (l ≫= gain r))); [solve_Permutation|]. rewrite H1.
  transitivity ((log ≫= lose r) ++ (more ++ (l ≫= gain r) ++ (upcall s ≫= lose r) ++ held r s)); [solve_Permutation|].
  rewrite H2. solve_Permutation.
Qed.

(** A step of the c2s keeps the invariant, reports what it does and accounts for it. *)
Record good (s : t) (acc : list (Z * Z)) (l : list effect) (s' : t) : Prop := mkGood {
  good_con : consistent s';
  good_active : active s' = true -> active s = true;
  good_users : active s' = true -> forall on, online on (upcall s) = Some (users s) -> online on (l ++ upcall s') = Some (users s');
  good_defined : active s' = false -> forall on, online on (upcall s) <> None -> online on (l ++ upcall s') <> None;
  good_sessions : balanced sessions [] s l s';
  good_sockets : balanced sockets acc s l s';
  good_timers : balanced timers [] s l s';
  good_clients : balanced clients [] s l s'
}.

(** Closes the goals of a step's accounts. *)
Ltac balance := unfold balanced; cbn; solve_Permutation.

(** Steps that take and give nothing. *)
Lemma good_silent s l s' : consistent s' -> active s' = active s -> upcall s' = upcall s -> m_user2Session s' = m_user2Session s ->
  m_session2User s' = m_session2User s -> m_timerId2Info s' = m_timerId2Info s -> m_msgClient s' = m_msgClient s ->
  m_timerId s' = m_timerId s -> closing s' = closing s -> Forall (fun e => silent e = true) l -> good s [] l s'.
Proof.
  intros Hc H1 H2 H3 H4 H5 H6 H7 H8 Hl.
  assert (Hb : forall X (f : effect -> list X), (forall e, silent e = true -> f e = []) -> l ≫= f = []).
  { intros X f Hf. by apply silent_bind. }
  split; [done|by rewrite H1|..].
  - intros _ on Hon. unfold users. rewrite H2, H3, c2s_online_app, (silent_online l) by done. exact Hon.
  - intros _ on Hon. rewrite H2, c2s_online_app, (silent_online l) by done. exact Hon.
  - unfold balanced. rewrite !Hb by (by intros []). cbn. by rewrite H2, H4, H8.
  - unfold balanced. rewrite !Hb by (by intros []). cbn. by rewrite H2, H5.
  - unfold balanced. rewrite !Hb by (by intros []). cbn. by rewrite H1, H2, H5, H7.
  - unfold balanced. rewrite !Hb by (by intros []). cbn. by rewrite H2, H6, H8.
Qed.

Lemma c2s_good_none s : consistent s -> good s [] [] s.
Proof. intros H. by apply good_silent. Qed.

Lemma good_refused s c k : consistent s -> good s [(c, k)] [CloseSocket c k] s.
Proof. intros H. by split; [..|balance|balance|balance|balance]. Qed.

Section maps.
Context (s : t).
Hypothesis C : consistent s.

(** The session of a user, and the user of a session. *)
Lemma con_user ss u : stl_find u (m_user2Session s) = Some (u, ss) -> stl_find ss (m_session2User s) = Some (ss, u).
Proof. apply (con_inverse s C). Qed.

Lemma consistent_remove u ss : stl_find u (m_user2Session s) = Some (u, ss) -> consistent (removeUser u ss s).
Proof.
  intros Hu. pose proof (con_user _ _ Hu) as Hss. destruct C as [H1 H2 H3 H4 H5 H6 H7 H8 H9]. split; cbn; try done.
  - by apply stl_sorted_erase.
  - by apply stl_sorted_erase.
  - intros ss' u'. rewrite !stl_find_erase_iff, H4 by done. split; intros [Hne E]; (split; [|done]); intros ->; [congruence|].
    apply H4 in E. congruence.
  - intros ss' u'. rewrite stl_find_erase_iff by done. intros [_ E]. by apply (H5 ss').
  - intros Hn. destruct (H6 Hn) as (-> & -> & ->). done.
Qed.

Lemma consistent_add u ss : stl_find u (m_user2Session s) = None -> stl_find ss (m_session2User s) = None ->
  classId u <> 0 -> UserId u <> 0 -> m_msgClient s <> NULL ->
  consistent (setMaps (stl_assign (ss, u) (m_session2User s)) (stl_assign (u, ss) (m_user2Session s)) s).
Proof.
  intros Hu Hss Hc0 Hu0 Hn. destruct C as [H1 H2 H3 H4 H5 H6 H7 H8 H9]. split; cbn; try done.
  - by apply stl_sorted_assign.
  - by apply stl_sorted_assign.
  - intros ss' u'. rewrite !stl_find_assign_iff, H4. split.
    + intros [[-> ->]|[Hne E]]; [by left|]. right. split; [|done]. intros ->. congruence.
    + intros [[-> ->]|[Hne E]]; [by left|]. right. split; [|done]. intros ->. apply H4 in E. congruence.
  - intros ss' u'. rewrite stl_find_assign_iff. intros [[-> ->]|[_ E]]; [done|]. by apply (H5 ss').
Qed.

Lemma consistent_info info : stl_sorted info -> (m_msgClient s = NULL -> info = []) -> consistent (setInfo info s).
Proof. intros Hi Hn. destruct C as [H1 H2 H3 H4 H5 H6 H7 H8 H9]. split; cbn; try done. intros E. by rewrite Hn by done; split; [|apply H6]. Qed.

Lemma consistent_dropInfo k : consistent (setInfo (stl_erase k (m_timerId2Info s)) s).
Proof. apply consistent_info; [by apply stl_sorted_erase, C|]. intros E. by destruct (con_down s C E) as (-> & _). Qed.

Lemma consistent_rest c rest :
  Forall (fun e => match e with NewSession _ _ _ _ | ScheduleTimer _ _ _ | NewClient _ _ => False | _ => True end) rest ->
  consistent (setRest c rest s).
Proof. by destruct C; split. Qed.
End maps.

Lemma silent_rest l : Forall (fun e => silent e = true) l ->
  Forall (fun e => match e with NewSession _ _ _ _ | ScheduleTimer _ _ _ | NewClient _ _ => False | _ => True end) l.
Proof. intros H. eapply Forall_impl; [exact H|]. by intros []. Qed.

Lemma silent_downlink accepts inet_aton ss buf charset src ip :
  Forall (fun e => silent e = true) (snd (SendMsgToDownlink accepts inet_aton ss buf charset src ip)).
Proof. unfold SendMsgToDownlink. repeat case_match; cbn; try constructor. by apply Forall_fmap, Forall_true. Qed.

Lemma silent_logout client u : Forall (fun e => silent e = true) (ReportLogout client u).
Proof. unfold ReportLogout. case_match; by repeat constructor. Qed.

Section handlers.
Context (accepts : Z -> bool) (inet_aton : str -> Z).

(** A user of the map leaves it: [more] is what the step sends, and the rest of the upcall
    closes its session. *)
Lemma good_remove s u ss e1 e2 more : consistent s -> upcall s = [] -> stl_find u (m_user2Session s) = Some (u, ss) ->
  Forall (fun e => silent e = true) more ->
  good s [] more (setUpcall [CloseUser u e1 e2; DeleteSession ss] (removeUser u ss s)).
Proof.
  intros Hc Hup Hu Hm. pose proof (con_user s Hc _ _ Hu) as Hss. pose proof (stl_fmap_erase fst _ _ _ Hss) as P.
  pose proof (consistent_rest _ (consistent_remove s Hc u ss Hu) (commands s) [CloseUser u e1 e2; DeleteSession ss]
    ltac:(by repeat constructor)) as Hc'.
  assert (Hb : forall X (f : effect -> list X), (forall e, silent e = true -> f e = []) -> more ≫= f = []).
  { intros X f Hf. by apply silent_bind. }
  split; try done.
  - intros _ on. rewrite Hup, c2s_online_app, (silent_online more) by done. cbn. intros [= ->]. unfold users. cbn.
    rewrite stl_keys_find, Hu by done. cbn. by rewrite stl_keys_erase.
  - intros Hoff. apply (con_off _ Hc') in Hoff. cbn in Hoff. destruct (con_down s Hc Hoff) as (_ & _ & E). by rewrite E in Hu.
  - unfold balanced. rewrite !Hb by (by intros []). cbn. rewrite Hup, P. done.
  - unfold balanced. rewrite !Hb by (by intros []). cbn. by rewrite Hup.
  - unfold balanced. rewrite !Hb by (by intros []). cbn. by rewrite Hup.
  - unfold balanced. rewrite !Hb by (by intros []). cbn. by rewrite Hup.
Qed.

Lemma silent_report s u : Forall (fun e => silent e = true) (if m_msgClient s =? NULL then [] else ReportLogout (m_msgClient s) u).
Proof. destruct (_ =? _); [constructor|apply silent_logout]. Qed.

Lemma c2s_AsyncKickoutUser_ok u s : consistent s -> upcall s = [] ->
  good s [] (snd (AsyncKickoutUser u s)) (fst (AsyncKickoutUser u s)).
Proof.
  intros Hc Hup. unfold AsyncKickoutUser. destruct (active s) eqn:Ha; cbn [negb]; [|by apply c2s_good_none].
  destruct (stl_find u (m_user2Session s)) as [p|] eqn:E; [|by apply c2s_good_none].
  destruct (stl_find_pair _ _ _ E) as [ss ->]. by apply good_remove; [..|apply silent_report].
Qed.

Lemma OnCloseSession_ok ss e1 e2 s : consistent s -> upcall s = [] ->
  good s [] (snd (OnCloseSession ss e1 e2 s)) (fst (OnCloseSession ss e1 e2 s)).
Proof.
  intros Hc Hup. unfold OnCloseSession. destruct (_ || _); [by apply c2s_good_none|].
  destruct (stl_find ss (m_session2User s)) as [p|] eqn:E; [|by apply c2s_good_none].
  destruct (stl_find_pair _ _ _ E) as [u ->]. apply good_remove; [done|done| |apply silent_report]. by apply (con_inverse s Hc).
Qed.

Lemma OnAcceptSession_ok ssl ours arg newTimer sends s : consistent s -> stl_find newTimer (m_timerId2Info s) = None ->
  let e := Accept ssl ours arg newTimer sends in
  good s (accepted e) (snd (OnAcceptSession ssl ours arg newTimer sends s)) (fst (OnAcceptSession ssl ours arg newTimer sends s)).
Proof.
  intros Hc Hf. unfold OnAcceptSession, accepted. destruct (_ || _); [by apply c2s_good_none|].
  destruct (_ || _); [by apply good_refused|]. unfold AcceptSession.
  destruct (if negb _ then _ else _); [by apply good_refused|]. destruct (CRtpMsgServer.badLogin _); [by apply good_refused|].
  destruct (negb (active s) || _ || _ || _ || _ || _ || _) eqn:G; [by apply good_refused|].
  repeat (apply orb_false_iff in G as [G ?]). apply negb_false_iff in G. apply Z.eqb_neq in H2.
  destruct (sends _); cbn [negb fst snd].
  2: { by split; try done; [..|balance|balance|balance|balance]. }
  pose proof (stl_fmap_assign fst newTimer arg _ Hf) as P1. pose proof (stl_fmap_assign socketOf newTimer arg _ Hf) as P2.
  split; try done.
  - apply consistent_info; [done|by apply stl_sorted_assign, Hc|done].
  - balance.
  - unfold balanced. cbn. rewrite P2. balance.
  - unfold balanced. cbn. rewrite P1. balance.
  - balance.
Qed.

(** An entry of the pending logins is dropped. *)
Lemma good_dropInfo s k e : consistent s -> stl_find k (m_timerId2Info s) = Some e ->
  good s [] (dropInfo [e]) (setInfo (stl_erase k (m_timerId2Info s)) s).
Proof.
  intros Hc E. pose proof (stl_fmap_erase fst _ _ _ E) as P1. pose proof (stl_fmap_erase socketOf _ _ _ E) as P2.
  split; try done; [by apply consistent_dropInfo|balance|unfold balanced; cbn; rewrite P2; balance|unfold balanced; cbn; rewrite P1; balance|balance].
Qed.

(** All of them. *)
Lemma dropInfo_binds {X} (f : effect -> list X) (g : Z * CRtpMsgServer.acceptArg -> list X) info :
  (forall e, dropInfo [e] ≫= f = g e) -> dropInfo info ≫= f = info ≫= g.
Proof.
  intros H. unfold dropInfo. induction info as [|e info IH]; [done|]. cbn [map concat]. rewrite bind_app, IH. cbn [mbind list_bind].
  f_equal. rewrite <- H. cbn. by rewrite app_nil_r.
Qed.
Lemma bind_single {A X} (g : A -> X) (l : list A) : l ≫= (fun e => [g e]) = g <$> l.
Proof. by induction l as [|e l IH]; [|cbn; rewrite IH]. Qed.
Lemma bind_nil {A X} (l : list A) : l ≫= (fun _ => []) = @nil X.
Proof. by induction l. Qed.
Lemma online_dropInfo on info l : online on (dropInfo info ++ l) = online on l.
Proof. induction info as [|e info IH]; [done|exact IH]. Qed.

Lemma dropInfo_account info :
  dropInfo info ≫= gain sessions = [] /\ dropInfo info ≫= lose sessions = [] /\
  dropInfo info ≫= gain sockets = [] /\ dropInfo info ≫= lose sockets = socketOf <$> info /\
  dropInfo info ≫= gain timers = [] /\ dropInfo info ≫= lose timers = fst <$> info /\
  dropInfo info ≫= gain clients = [] /\ dropInfo info ≫= lose clients = [].
Proof.
  split_and!; first [rewrite (dropInfo_binds _ (fun _ => [])) by (by intros []); apply bind_nil|idtac].
  - rewrite (dropInfo_binds _ (fun e => [socketOf e])) by (by intros []). apply bind_single.
  - rewrite (dropInfo_binds _ (fun e => [fst e])) by (by intros []). apply bind_single.
Qed.

Lemma deletes_account {V} (l : list (Z * V)) :
  map (fun e => DeleteSession (fst e)) l ≫= gain sessions = [] /\ map (fun e => DeleteSession (fst e)) l ≫= lose sessions = fst <$> l /\
  map (fun e => DeleteSession (fst e)) l ≫= lose sockets = [] /\
  map (fun e => DeleteSession (fst e)) l ≫= gain timers = [] /\ map (fun e => DeleteSession (fst e)) l ≫= lose timers = [] /\
  map (fun e => DeleteSession (fst e)) l ≫= gain clients = [] /\ map (fun e => DeleteSession (fst e)) l ≫= lose clients = [].
Proof. induction l as [|e l (H1 & H2 & H3 & H4 & H5 & H6 & H7)]; [done|]. cbn in *. by rewrite H1, H2, H3, H4, H5, H6, H7. Qed.
Lemma online_deletes {V} on (m : list (Z * V)) l : online on (map (fun e => DeleteSession (fst e)) m ++ l) = online on l.
Proof. induction m as [|e m IH]; [done|exact IH]. Qed.

Lemma con_open s : consistent s -> active s = true -> closing s = None.
Proof. intros Hc Ha. destruct (closing s) eqn:E; [|done]. rewrite (con_closing s Hc) in Ha; congruence. Qed.

Lemma OnCloseMsg_ok client e1 e2 tcp s : consistent s -> upcall s = [] ->
  good s [] (snd (OnCloseMsg client e1 e2 tcp s)) (fst (OnCloseMsg client e1 e2 tcp s)).
Proof.
  intros Hc Hup. unfold OnCloseMsg. destruct (_ || _ || _) eqn:G; [by apply c2s_good_none|].
  apply orb_false_iff in G as [G Gm]. apply orb_false_iff in G as [Gn Ga]. apply negb_false_iff in Ga, Gm.
  apply Z.eqb_eq in Gm as ->. apply Z.eqb_neq in Gn. pose proof (con_open s Hc Ga) as Hcl. cbn [fst snd].
  destruct (dropInfo_account (m_timerId2Info s)) as (D1 & D2 & D3 & D4 & D5 & D6 & D7 & D8).
  destruct (deletes_account (m_session2User s)) as (E1 & E2 & E3 & E4 & E5 & E6 & E7).
  assert (Hone : one (m_msgClient s) = [m_msgClient s]) by (unfold one; by rewrite (proj2 (Z.eqb_neq _ _) Gn)).
  split; try done.
  - split; try done. apply Forall_app. split; [by apply Forall_fmap, Forall_true|by repeat constructor].
  - intros _ on _. cbn. rewrite online_dropInfo, online_deletes. done.
  - intros E. cbn in E. congruence.
  - unfold balanced. cbn [upcall setUpcall setRest]. rewrite D1, D2, bind_app, E2. cbn. rewrite Hcl, Hup. balance.
  - unfold balanced. cbn [upcall setUpcall setRest]. rewrite D3, D4, bind_app, E3. cbn. rewrite Hup. balance.
  - unfold balanced. cbn [upcall setUpcall setRest]. rewrite D5, D6, bind_app, E5. cbn. rewrite Hup, Ga. balance.
  - unfold balanced. cbn [upcall setUpcall setRest]. rewrite D7, D8, bind_app, E7. cbn. rewrite Hcl, Hup, Hone. balance.
Qed.

Lemma c2s_OnTimer_ok timerId tick new s : consistent s -> (forall c, new = Some c -> c <> NULL) ->
  good s [] (snd (OnTimer timerId tick new s)) (fst (OnTimer timerId tick new s)).
Proof.
  intros Hc Hn. unfold OnTimer. destruct (_ || _) eqn:Ha; [by apply c2s_good_none|]. apply orb_false_iff in Ha as [_ Ha%negb_false_iff]. destruct (timerId =? _).
  - destruct (_ && _) eqn:G; [|by apply c2s_good_none]. apply andb_true_iff in G as [G%Z.eqb_eq _].
    destruct (con_down s Hc G) as (I1 & I2 & I3).
    destruct new as [c|]; cbn [fst snd]; [specialize (Hn c eq_refl)|].
    + assert (Ho : one c = [c]) by (unfold one; by rewrite (proj2 (Z.eqb_neq _ _) Hn)).
      assert (Ho' : one (m_msgClient s) = []) by (unfold one; by rewrite G).
      split; try done; [..|balance|balance|balance|unfold balanced; cbn; rewrite Ho, Ho'; balance].
      destruct Hc. split; cbn; try done. congruence.
    + apply good_silent; try done. destruct Hc; by split.
  - destruct (stl_find _ _) as [e|] eqn:E; [|by apply c2s_good_none]. by apply good_dropInfo.
Qed.

Lemma OnOkMsg_ok client u ip s : consistent s -> upcall s = [] ->
  good s [] (snd (OnOkMsg client u ip s)) (fst (OnOkMsg client u ip s)).
Proof.
  intros Hc Hup. unfold OnOkMsg. destruct (_ || _ || _ || _); [by apply c2s_good_none|].
  destruct (_ || _) eqn:G; [by apply c2s_good_none|]. apply orb_false_iff in G as [Ga%negb_false_iff _]. cbn [fst snd].
  split; try done; [|..|unfold balanced; cbn; by rewrite Hup|unfold balanced; cbn; by rewrite Hup|unfold balanced; cbn; by rewrite Hup
    |unfold balanced; cbn; by rewrite Hup].
  - destruct Hc; split; try done. by repeat constructor.
  - intros _ on. by rewrite Hup.
Qed.

(** The rest of an upcall that only reports a logout. *)
Lemma good_report s acc l s1 client u : good s acc l s1 -> upcall s1 = [] -> good s acc l (setUpcall (ReportLogout client u) s1).
Proof.
  intros [H1 H2 H3 H4 H5 H6 H7 H8] Hup. pose proof (silent_logout client u) as Hs.
  assert (Hb : forall X (f : effect -> list X), (forall e, silent e = true -> f e = []) -> ReportLogout client u ≫= f = []).
  { intros X f Hf. by apply silent_bind. }
  rewrite Hup in H3, H4. split; try done.
  - by apply consistent_rest, silent_rest.
  - intros Ha on Hon. specialize (H3 Ha on Hon). rewrite app_nil_r in H3. rewrite c2s_online_app, H3. cbn. by apply silent_online.
  - intros Ha on Hon. specialize (H4 Ha on Hon). rewrite app_nil_r in H4. destruct (online on l) as [on'|] eqn:E; [|done].
    rewrite c2s_online_app, E. cbn. by rewrite silent_online.
  - unfold balanced in *. cbn [upcall setUpcall setRest]. rewrite Hup in H5. by rewrite Hb by (by intros []).
  - unfold balanced in *. cbn [upcall setUpcall setRest]. rewrite Hup in H6. by rewrite Hb by (by intros []).
  - unfold balanced in *. cbn [upcall setUpcall setRest]. rewrite Hup in H7. by rewrite Hb by (by intros []).
  - unfold balanced in *. cbn [upcall setUpcall setRest]. rewrite Hup in H8. by rewrite Hb by (by intros []).
Qed.

(** The "remove old" of a login. *)
Record cleared (u : RTP_MSG_USER) (s : t) (old : option Z) (s' : t) : Prop := mkCleared {
  cl_maps : s' = setMaps (m_session2User s') (m_user2Session s') s;
  cl_con : consistent s';
  cl_gone : stl_find u (m_user2Session s') = None;
  cl_fresh : forall ss, stl_find ss (m_session2User s) = None -> stl_find ss (m_session2User s') = None;
  cl_held : fst <$> m_session2User s ≡ₚ (match old with Some o => [o] | None => [] end) ++ (fst <$> m_session2User s');
  cl_online : online (users s) (match old with Some _ => [CloseUser u (-1) 0] | None => [] end) = Some (users s')
}.

Lemma cleared_ok u s : consistent s ->
  let old := snd <$> stl_find u (m_user2Session s) in
  cleared u s old (match old with Some o => removeUser u o s | None => s end).
Proof.
  intros Hc. destruct (stl_find u (m_user2Session s)) as [p|] eqn:E; cbn.
  - destruct (stl_find_pair _ _ _ E) as [ss ->]. cbn. pose proof (con_user s Hc _ _ E) as Hss. split; cbn.
    + done.
    + by apply consistent_remove.
    + by apply stl_find_erase_eq, Hc.
    + intros ss' Hf. rewrite stl_find_erase_ne; [done|congruence].
    + pose proof (stl_fmap_erase fst _ _ _ Hss) as P. exact P.
    + unfold users. cbn. rewrite stl_keys_find, E by done. cbn. by rewrite stl_keys_erase.
  - split; try done. by destruct s.
Qed.

(** The new session of a login, registered or given up. *)
Lemma good_login s i info u ss ip type old s2 (ret : bool) sent client :
  consistent s -> upcall s = [] -> active s = true -> m_msgClient s <> NULL ->
  stl_find i (m_timerId2Info s) = Some (i, info) -> stl_find ss (m_session2User s) = None ->
  classId u <> 0 -> UserId u <> 0 ->
  cleared u (setInfo (stl_erase i (m_timerId2Info s)) s) old s2 ->
  Forall (fun e => silent e = true) sent ->
  good s []
    ([CancelTimer i; NewSession ss type (CRtpMsgServer.sslCtx info) (CRtpMsgServer.sockId info)] ++ sent)
    (setUpcall
       ((match old with Some _ => [CloseUser u (-1) 0] | None => [] end) ++
        (if ret then [OkUser u ip] else ReportLogout client u ++ [DeleteSession ss]) ++
        match old with Some o => [DeleteSession o] | None => [] end)
       (if ret then setMaps (stl_assign (ss, u) (m_session2User s2)) (stl_assign (u, ss) (m_user2Session s2)) s2 else s2)).
Proof.
  intros Hc Hup Ha Hn Hi Hss Hu1 Hu2 [H1 H2 H3 H4 H5 H6] Hsent. pose proof (con_open s Hc Ha) as Hcl.
  specialize (H4 ss Hss). pose proof (stl_fmap_assign fst ss u _ H4) as P1.
  pose proof (stl_fmap_erase fst _ _ _ Hi) as P2. pose proof (stl_fmap_erase socketOf _ _ _ Hi) as P3.
  assert (Hb : forall X (f : effect -> list X), (forall e, silent e = true -> f e = []) -> sent ≫= f = []).
  { intros X f Hf. by apply silent_bind. }
  assert (Hr : forall X (f : effect -> list X), (forall e, silent e = true -> f e = []) -> ReportLogout client u ≫= f = []).
  { intros X f Hf. apply silent_bind; [done|apply silent_logout]. }
  assert (Ea : active s2 = active s /\ m_msgClient s2 = m_msgClient s /\ m_timerId s2 = m_timerId s /\ closing s2 = closing s /\
    m_timerId2Info s2 = stl_erase i (m_timerId2Info s)) by (by rewrite H1).
  destruct Ea as (E1 & E2 & E3 & E4 & E5). clear H1.
  assert (Ec : consistent (if ret then setMaps (stl_assign (ss, u) (m_session2User s2)) (stl_assign (u, ss) (m_user2Session s2)) s2 else s2)).
  { destruct ret; [|done]. apply consistent_add; [done..|by rewrite E2]. }
  split; [|by destruct ret| | |..].
  - apply consistent_rest; [done|]. apply Forall_app. split; [by destruct old; repeat constructor|]. apply Forall_app.
    split; [|by destruct old; repeat constructor]. destruct ret; [by repeat constructor|]. apply Forall_app.
    split; [apply silent_rest, silent_logout|by repeat constructor].
  - intros _ on. rewrite Hup. cbn [online]. intros [= ->]. cbn [app online]. rewrite c2s_online_app, (silent_online sent) by done. cbn [mbind option_bind].
    cbn [upcall setUpcall setRest]. rewrite c2s_online_app. change (users s) with (users (setInfo (stl_erase i (m_timerId2Info s)) s)).
    rewrite H6. cbn [mbind option_bind]. destruct ret.
    + cbn. rewrite (stl_keys_find u (m_user2Session s2)), H3 by done. cbn. unfold users. cbn. rewrite (stl_keys_assign u ss) by (try apply H2; done).
      by destruct old.
    + rewrite <- app_assoc, c2s_online_app, silent_online by apply silent_logout. by destruct old.
  - intros E. destruct ret; cbn in E; congruence.
  - unfold balanced. rewrite Hup, !bind_app, !(Hb _ _) by (by intros []). csimpl. cbn in H5. rewrite Hcl, H5.
    destruct ret; csimpl; rewrite ?bind_app, ?(Hr _ _) by (by intros []); destruct old; csimpl; rewrite ?E4, Hcl, ?P1; solve_Permutation.
  - unfold balanced. rewrite Hup, !bind_app, !(Hb _ _) by (by intros []). csimpl. rewrite P3.
    destruct ret; csimpl; rewrite ?bind_app, ?(Hr _ _) by (by intros []); destruct old; csimpl; rewrite ?E5; solve_Permutation.
  - unfold balanced. rewrite Hup, !bind_app, !(Hb _ _) by (by intros []). csimpl. rewrite P2, Ha.
    destruct ret; csimpl; rewrite ?bind_app, ?(Hr _ _) by (by intros []); destruct old; csimpl; rewrite ?E1, ?E3, ?E5, Ha; solve_Permutation.
  - unfold balanced. rewrite Hup, !bind_app, !(Hb _ _) by (by intros []). csimpl. rewrite Hcl.
    destruct ret; csimpl; rewrite ?bind_app, ?(Hr _ _) by (by intros []); destruct old; csimpl; rewrite ?E2, ?E4, Hcl; solve_Permutation.
Qed.

Lemma login_ok_ok new client st s : consistent s -> upcall s = [] ->
  CProConfigStream.GetUint TAG_client_index st <> None -> RtpMsgString2User (CProConfigStream.Get TAG_client_id st) <> None ->
  (forall ss ip, new = Some (ss, ip) -> stl_find ss (m_session2User s) = None) ->
  exists s' l, ProcessMsg_client_login_ok accepts inet_aton new client st s = Some (s', l) /\ good s [] l s'.
Proof.
  intros Hc Hup Hi Hu Hnew. unfold ProcessMsg_client_login_ok. destruct (client =? NULL) eqn:En.
  { do 2 eexists. split; [reflexivity|]. by apply c2s_good_none. }
  destruct (CProConfigStream.GetUint _ _) as [i|]; [|done]. destruct (RtpMsgString2User _) as [u|]; [|done]. cbn [mbind option_bind].
  destruct ((classId u =? 0) || (UserId u =? 0)) eqn:Gu; [do 2 eexists; split; [reflexivity|]; by apply c2s_good_none|].
  destruct (negb (active s) || _) eqn:G; [do 2 eexists; split; [reflexivity|]; by apply c2s_good_none|].
  apply orb_false_iff in Gu as [Gu1%Z.eqb_neq Gu2%Z.eqb_neq]. apply orb_false_iff in G as [Ga%negb_false_iff Gm%negb_false_iff%Z.eqb_eq].
  apply Z.eqb_neq in En. subst client.
  destruct (stl_find i (m_timerId2Info s)) as [p|] eqn:E.
  2: { do 2 eexists. split; [reflexivity|]. by apply good_report; [apply c2s_good_none|]. }
  destruct (stl_find_pair _ _ _ E) as [info ->].
  pose proof (good_dropInfo s i (i, info) Hc E) as Gd. cbn zeta. destruct new as [[ss ip]|].
  2: { do 2 eexists. split; [reflexivity|]. by apply good_report. }
  specialize (Hnew ss ip eq_refl). set (s1 := setInfo (stl_erase i (m_timerId2Info s)) s) in *.
  pose proof (cleared_ok u s1 (good_con _ _ _ _ Gd)) as Hcl. cbn zeta in Hcl. set (old := snd <$> stl_find u (m_user2Session s1)) in *.
  set (s2 := match old with Some o => removeUser u o s1 | None => s1 end) in *.
  destruct (SendMsgToDownlink _ _ _ _ _ _ _) as [ret sent] eqn:Es.
  assert (Hsent : Forall (fun e => silent e = true) sent).
  { change sent with (snd (ret, sent)). rewrite <- Es. apply silent_downlink. }
  do 2 eexists. split; [reflexivity|]. by apply (good_login s i info u ss ip _ old).
Qed.

Lemma login_error_ok client st s : consistent s -> CProConfigStream.GetUint TAG_client_index st <> None ->
  exists s' l, ProcessMsg_client_login_error client st s = Some (s', l) /\ good s [] l s'.
Proof.
  intros Hc Hi. pose proof (c2s_good_none s Hc) as Hs. unfold ProcessMsg_client_login_error. destruct (client =? NULL); [by do 2 eexists|].
  destruct (CProConfigStream.GetUint _ _) as [i|]; [|done]. cbn [mbind option_bind].
  destruct (_ || _); [by do 2 eexists|]. destruct (stl_find i _) as [e|] eqn:E; [|by do 2 eexists].
  do 2 eexists. split; [reflexivity|]. by apply good_dropInfo.
Qed.

Lemma kickout_ok client st s : consistent s -> upcall s = [] -> RtpMsgString2User (CProConfigStream.Get TAG_client_id st) <> None ->
  exists s' l, ProcessMsg_client_kickout client st s = Some (s', l) /\ good s [] l s'.
Proof.
  intros Hc Hup Hu. pose proof (c2s_good_none s Hc) as Hs. unfold ProcessMsg_client_kickout. destruct (client =? NULL); [by do 2 eexists|].
  destruct (RtpMsgString2User _) as [u|]; [|done]. cbn [mbind option_bind].
  destruct (_ || _); [by do 2 eexists|]. destruct (_ || _); [by do 2 eexists|].
  destruct (stl_find u _) as [p|] eqn:E; [|by do 2 eexists]. destruct (stl_find_pair _ _ _ E) as [ss ->].
  do 2 eexists. split; [reflexivity|]. by apply good_remove.
Qed.

Lemma OnRecvMsg_ok new client buf src s : consistent s -> upcall s = [] -> is_bytes buf -> readable buf ->
  (forall ss ip, new = Some (ss, ip) -> stl_find ss (m_session2User s) = None) ->
  exists s' l, OnRecvMsg accepts inet_aton new client buf src s = Some (s', l) /\ good s [] l s'.
Proof.
  intros Hc Hup Hb Hr Hn. pose proof (c2s_good_none s Hc) as Hs. unfold OnRecvMsg. destruct (_ || _ || _ || _ || _); [by do 2 eexists|].
  destruct (RegistryLemmas.StringToConfigs_total buf Hb) as (ok & configs & E). rewrite E. cbn [mbind option_bind].
  destruct ok; cbn [negb]; [|by do 2 eexists]. destruct (Hr true configs E) as [H1 H2].
  destruct (sameText _ _); [by apply login_ok_ok|]. destruct (sameText _ _); [by apply login_error_ok|].
  destruct (sameText _ _); [by apply kickout_ok|]. by do 2 eexists.
Qed.

Lemma c2s_routeRecv_total s m n : forall i, 0 <= i -> 24 + 8 * (i + Z.of_nat n - 1) <= zlen m ->
  exists p, routeRecv s m n i = Some p.
Proof.
  induction n as [|n IH]; intros i Hi Hl; cbn [routeRecv]; [by eexists|]. unfold CRtpMsgServer.readUser.
  rewrite (proj2 (Z.leb_le _ _)) by (unfold CRtpMsgServer.sizeof_RTP_MSG_USER; lia). cbn [mbind option_bind].
  destruct (IH (i + 1)) as [[ss us] ->]; [lia|lia|]. by eexists.
Qed.

Lemma c2s_OnRecvSession_ok ss m s : consistent s -> is_bytes m -> zlen m <= MAX_PAYLOAD_SIZE -> RegistrySpec.complete m ->
  exists s' l, OnRecvSession accepts inet_aton ss m s = Some (s', l) /\ good s [] l s'.
Proof.
  intros Hc Hb Hmax Hcomp. pose proof (c2s_good_none s Hc) as Hs.
  unfold OnRecvSession, MAX_PAYLOAD_SIZE, RegistrySpec.complete, CRtpMsgServer.sizeof_RTP_MSG_HEADER, CRtpMsgServer.sizeof_RTP_MSG_USER in *.
  destruct ((ss =? 0) || (zlen m <=? 24)) eqn:G; [by do 2 eexists|]. apply orb_false_iff in G as [_ G%Z.leb_gt]. specialize (Hcomp ltac:(lia)).
  assert (Hn : 0 <= load 1 15 m < 256) by (apply (load_range 1); [done|lia|lia]).
  set (count := if load 1 15 m =? 0 then 1 else load 1 15 m).
  assert (Hcount : 1 <= count < 256 /\ 24 + 8 * (count - 1) <= zlen m) by (unfold count; destruct (Z.eqb_spec (load 1 15 m) 0); lia).
  clearbody count. cbn zeta. destruct (_ || _); [by do 2 eexists|]. destruct (active s) eqn:Ha; cbn [negb]; [|by do 2 eexists].
  destruct (stl_find ss _) as [[x u]|]; [|by do 2 eexists]. destruct (negb _); [by do 2 eexists|].
  destruct (c2s_routeRecv_total s m (Z.to_nat count) 0) as [[l us] ->]; [lia|lia|]. cbn [mbind option_bind].
  destruct (_ && _); [by do 2 eexists|]. unfold CRtpMsgServer.readBody. rewrite (wrap_small 64), (wrap_small 16), (proj2 (Z.leb_le _ _)) by lia.
  cbn [mbind option_bind]. do 2 eexists. split; [reflexivity|]. apply good_silent; try done.
  apply Forall_app. split; [apply silent_downlink|]. destruct (_ && _); by repeat constructor.
Qed.

Lemma c2s_FiniBegin_ok s : consistent s -> good s [] (snd (FiniBegin s)) (fst (FiniBegin s)).
Proof.
  intros Hc. unfold FiniBegin. destruct (active s) eqn:Ha; cbn [negb]; [|by apply c2s_good_none]. pose proof (con_open s Hc Ha) as Hcl.
  destruct (dropInfo_account (m_timerId2Info s)) as (D1 & D2 & D3 & D4 & D5 & D6 & D7 & D8). cbn [fst snd].
  change (CancelTimer (m_timerId s) :: dropInfo (m_timerId2Info s)) with ([CancelTimer (m_timerId s)] ++ dropInfo (m_timerId2Info s)).
  split; try done.
  - destruct Hc. by split.
  - intros _ on Hon. cbn. by rewrite online_dropInfo.
  - unfold balanced. rewrite !bind_app, D1, D2. csimpl. rewrite Hcl. solve_Permutation.
  - unfold balanced. rewrite !bind_app, D3, D4. csimpl. solve_Permutation.
  - unfold balanced. rewrite !bind_app, D5, D6. csimpl. rewrite Ha. solve_Permutation.
  - unfold balanced. rewrite !bind_app, D7, D8. csimpl. rewrite Hcl. solve_Permutation.
Qed.

Lemma c2s_FiniEnd_ok l c s : consistent s -> closing s = Some (l, c) -> good s [] (snd (FiniEnd l c s)) (fst (FiniEnd l c s)).
Proof.
  intros Hc E. assert (Ha : active s = false) by (apply (con_closing s Hc); by rewrite E). unfold FiniEnd. cbn [fst snd].
  destruct (deletes_account l) as (E1 & E2 & E3 & E4 & E5 & E6 & E7). split; try done.
  - destruct Hc. by split.
  - cbn. congruence.
  - intros _ on Hon. rewrite <- app_assoc, online_deletes. by destruct (c =? NULL).
  - unfold balanced. rewrite !bind_app, E1, E2. csimpl. rewrite E. destruct (c =? NULL); csimpl; solve_Permutation.
  - unfold balanced. rewrite !bind_app, E3. csimpl. destruct (c =? NULL); csimpl; rewrite bind_nil; solve_Permutation.
  - unfold balanced. rewrite !bind_app, E4, E5. csimpl. destruct (c =? NULL); csimpl; solve_Permutation.
  - unfold balanced. rewrite !bind_app, E6, E7. csimpl. rewrite E. unfold one. destruct (c =? NULL); csimpl; solve_Permutation.
Qed.

End handlers.
End C2sLemmas.

Module C2sTheorems.
Import C2sSpec C2sLemmas.

Section theorems.
Context (accepts : Z -> bool) (inet_aton : str -> Z) (inet_ntoa : Z -> str).

(** The end of an upcall. *)
Lemma Rest_ok s : consistent s -> good s [] (upcall s) (setUpcall [] s).
Proof.
  intros Hc. pose proof (con_rest s Hc) as Hr.
  assert (Hg : forall X (r : resource X),
    (forall e, match e with NewSession _ _ _ _ | ScheduleTimer _ _ _ | NewClient _ _ => False | _ => True end -> gain r e = []) ->
    upcall s ≫= gain r = []).
  { intros X r Hg. induction Hr as [|e l He _ IH]; [done|]. csimpl. by rewrite Hg, IH. }
  split; try done.
  - by apply consistent_rest.
  - intros _ on. by rewrite app_nil_r.
  - intros _ on. by rewrite app_nil_r.
  - unfold balanced. rewrite Hg by (by intros []). balance.
  - unfold balanced. rewrite Hg by (by intros []). balance.
  - unfold balanced. rewrite Hg by (by intros []). balance.
  - unfold balanced. rewrite Hg by (by intros []). balance.
Qed.

Lemma setRest_same s cs : upcall s = [] -> consistent s -> consistent (setRest cs [] s).
Proof. intros E Hc. by apply consistent_rest. Qed.

(** Every event. *)
Lemma c2s_handle_ok e s : consistent s -> enabled e s ->
  exists s' l, handle accepts inet_aton e s = Some (s', l) /\ good s (accepted e) l s'.
Proof.
  intros Hc He. unfold handle. destruct (locks e && _) eqn:G.
  { do 2 eexists. split; [reflexivity|]. destruct e; try done; by apply c2s_good_none. }
  assert (Hup : locks e = true -> upcall s = []).
  { intros E. rewrite E in G. cbn in G. by apply negb_false_iff, bool_decide_eq_true in G. }
  clear G. destruct e; cbn [enabled locks accepted] in *; try specialize (Hup eq_refl).
  - do 2 eexists. split; [reflexivity|]. unfold KickoutUser. destruct (_ || _ || _); [by apply c2s_good_none|].
    apply good_silent; try done. apply consistent_rest, con_rest; done.
  - do 2 eexists. split; [by rewrite (surjective_pairing (setRedline _ _))|]. unfold setRedline. destruct (_ || _); [by apply c2s_good_none|].
    apply good_silent; try done; [by destruct Hc; split|]. cbn. destruct (_ =? _); by repeat constructor.
  - do 2 eexists. split; [by rewrite (surjective_pairing (OnAcceptSession _ _ _ _ _ _))|]. by apply OnAcceptSession_ok.
  - destruct He as (H1 & H2 & H3). by apply c2s_OnRecvSession_ok.
  - do 2 eexists. split; [by rewrite (surjective_pairing (OnCloseSession _ _ _ _))|]. by apply OnCloseSession_ok.
  - do 2 eexists. split; [by rewrite (surjective_pairing (OnOkMsg _ _ _ _))|]. by apply OnOkMsg_ok.
  - destruct He as (H1 & H2 & H3). apply OnRecvMsg_ok; try done. by intros ss ip ->.
  - do 2 eexists. split; [reflexivity|]. apply good_silent; try done. unfold OnTransferMsg. destruct (_ || _ || _ || _ || _); [constructor|].
    destruct (_ || _); [constructor|]. apply silent_downlink.
  - do 2 eexists. split; [by rewrite (surjective_pairing (OnCloseMsg _ _ _ _ _))|]. by apply OnCloseMsg_ok.
  - do 2 eexists. split; [by rewrite (surjective_pairing (OnTimer _ _ _ _))|]. apply c2s_OnTimer_ok; [done|]. by intros c ->.
  - destruct (commands s) as [|u cs]; [do 2 eexists; split; [reflexivity|]; by apply c2s_good_none|].
    do 2 eexists. split; [by rewrite (surjective_pairing (AsyncKickoutUser _ _))|]. rewrite Hup.
    pose proof (c2s_AsyncKickoutUser_ok u (setRest cs [] s) (setRest_same s cs Hup Hc) eq_refl) as [H1 H2 H3 H4 H5 H6 H7 H8].
    unfold balanced in H5, H6, H7, H8. split; try done; unfold balanced; by rewrite Hup.
  - do 2 eexists. split; [reflexivity|]. by apply Rest_ok.
  - do 2 eexists. split; [by rewrite (surjective_pairing (FiniBegin _))|]. by apply c2s_FiniBegin_ok.
  - pose proof (c2s_good_none s Hc) as Hs. destruct (closing s) as [[l c]|] eqn:E; [|by do 2 eexists]. destruct (commands s); [|by do 2 eexists].
    do 2 eexists. split; [by rewrite (surjective_pairing (FiniEnd _ _ _))|]. by apply c2s_FiniEnd_ok.
Qed.

(** The start. *)
Lemma Init_ok c args hub timeout client newTimer tick s0 log0 : client <> NULL ->
  Init inet_aton inet_ntoa args hub timeout true true (Some client) newTimer tick (construct c) = (true, s0, log0) ->
  consistent s0 /\ upcall s0 = [] /\ online [] log0 = Some [] /\ users s0 = [] /\ accounted sessions [] log0 s0 /\ accounted sockets [] log0 s0 /\
  accounted timers [] log0 s0 /\ accounted clients [] log0 s0.
Proof.
  intros Hn. unfold Init. destruct (_ || _ || _ || _ || _); [done|]. destruct (_ || _); [done|]. cbn [active construct m_msgClient orb negb].
  rewrite Z.eqb_refl. cbn [negb]. intros [= <- <-].
  assert (Ho : one client = [client]) by (unfold one; by rewrite (proj2 (Z.eqb_neq _ _) Hn)).
  split_and!; try done; try (unfold accounted; csimpl; by rewrite ?Ho).
Qed.

End theorems.

(** A client logs in, logs in again over a new session, and the uplink is lost. *)
Definition demoAccepts (ss : Z) : bool := true.
Definition demoAton (ip : str) : Z := 16777343.
Definition demoNtoa (ip : Z) : str := [49; 46; 50].
Definition demoUser : RTP_MSG_USER := make 2 7 1.
Definition demoArg (sock : Z) : CRtpMsgServer.acceptArg :=
  CRtpMsgServer.mkAccept 0 sock [49; 46; 50] 9 RTP_ST_TCPCLIENT_EX 11 (replicate 32 0)
    (CRtpMsgServer.header 0 None demoUser [] ++ replicate 40 0).
Definition demoOk (index : Z) : list Z :=
  CProConfigStream.ToString
    (CProConfigStream.Add TAG_client_id (RtpMsgUser2String demoUser)
      (CProConfigStream.AddUint TAG_client_index index
        (CProConfigStream.Add TAG_msg_name MSG_client_login_ok CProConfigStream.init))).
Definition demoEvents : list event :=
  [OkMsg 1 (make 1 2 1) [49]; Rest; Accept false true (demoArg 5) 20 (fun _ => true); RecvMsg (Some (100, [49])) 1 (demoOk 20) ROOT_ID_C2S;
   Rest; Accept false true (demoArg 6) 21 (fun _ => true); RecvMsg (Some (101, [49])) 1 (demoOk 21) ROOT_ID_C2S; Rest;
   CloseMsg 1 0 0 true; Rest].
Definition demoUp : uplink := mkUplink [49] 80 (make 1 2 1) [] [] 0.
Definition demoStart : bool * t * list effect :=
  Init demoAton demoNtoa demoUp 90 0 true true (Some 1) 10 0 (construct (mkConfig 11 false false)).
Fixpoint demoRun (es : list event) (s : t) (log : list effect) : option (t * list effect) :=
  match es with
  | [] => Some (s, log)
  | e :: es => '(s', l) ← handle demoAccepts demoAton e s; demoRun es s' (log ++ l)
  end.
Fixpoint allowed (es : list event) (s : t) : Prop :=
  match es with
  | [] => True
  | e :: es => enabled e s /\ match handle demoAccepts demoAton e s with Some (s', _) => allowed es s' | None => True end
  end.
Lemma c2s_demoRun_reachable s0 log0 es : forall s done log s' log', reachable demoAccepts demoAton s0 log0 s done log -> allowed es s ->
  demoRun es s log = Some (s', log') -> reachable demoAccepts demoAton s0 log0 s' (done ++ es) log'.
Proof.
  induction es as [|e es IH]; intros s done log s' log' Hr; cbn [allowed demoRun]; [intros _ [= <- <-]; by rewrite app_nil_r|].
  intros [He Ha]. destruct (handle demoAccepts demoAton e s) as [[s1 l]|] eqn:E; [|done]. cbn [mbind option_bind]. intros Hrun.
  replace (done ++ e :: es) with ((done ++ [e]) ++ es) by (by rewrite <- app_assoc). eapply IH; [|done|done]. by eapply reach_step.
Qed.

Lemma demo_readable index configs : CProConfigStream.StringToConfigs (demoOk index) = Some (true, configs) ->
  (let st := CProConfigStream.AddItems configs CProConfigStream.init in
   CProConfigStream.GetUint TAG_client_index st <> None /\ RtpMsgString2User (CProConfigStream.Get TAG_client_id st) <> None) ->
  readable (demoOk index).
Proof. intros E H ok c E'. rewrite E in E'. by injection E' as <- <-. Qed.

Definition demoEnd : t * list effect := default (snd (fst demoStart), []) (demoRun demoEvents (snd (fst demoStart)) (snd demoStart)).

Lemma c2s_demo_reachable : reachable demoAccepts demoAton (snd (fst demoStart)) (snd demoStart) (fst demoEnd) demoEvents (snd demoEnd).
Proof.
  apply (c2s_demoRun_reachable _ _ demoEvents (snd (fst demoStart)) [] (snd demoStart)); [constructor| |by vm_compute].
  cbn [allowed demoEvents]. RegistryTheorems.demo_step.
  all: cbn [enabled]; lazymatch goal with
    | |- True => exact I
    | |- is_bytes _ /\ _ => split_and!; [apply RegistryTheorems.demo_bytes; vm_compute; reflexivity
        |eapply demo_readable; [vm_compute; reflexivity|split; vm_compute; discriminate]|vm_compute; reflexivity]
    | _ => vm_compute; reflexivity
    end.
Qed.

End C2sTheorems.
