(* ===== verification/MsgSystem.v ===== *)
(** * A message server and a c2s, over their uplink

    The uplink of a c2s is one session: its end at the server is a session of
    [CRtpMsgServer], its end at the c2s that of a [CRtpMsgClient], and packets arrive in the
    order in which they were sent ([RtpTransfer.stream_roundtrip]).  Here the three are put
    together: what the server sends over the session waits in [downlink] for the client,
    whose upcalls are calls of the c2s, and what the c2s gives to the client goes through
    the client's bucket and [uplink] to the server.  Everything else, of the server's other
    sessions and of the c2s's clients, comes from outside, in any order. *)

From S2P Require Import Prelude RefCount StlMap Bytes Bsd ConfigStream MsgUser RtpPacket RtpSession MsgServer MsgClient MsgC2s.

Module MsgSystem.
Import MsgUser.

(** The names of the uplink: its session at the server, the client and its session, and the
    user that it is. *)
Record link := mkLink { serverSession : Z; client : Z; clientSession : Z; c2sUser : RTP_MSG_USER }.

Record t := mkSystem {
  sServer : CRtpMsgServer.t;
  sC2s : CRtpMsgC2s.t;
  sClient : CRtpMsgClient.t;
  uplink : list (list Z);
  downlink : list (list Z);
  received : option CRtpMsgClient.message;    (* before the upcall of [OnRecvSession] *)
  calls : list CRtpMsgClient.effect;          (* the rest of that upcall *)
  connected : bool;                           (* neither side has given the uplink up *)
  refused : bool                              (* a packet was refused at a redline *)
}.

Section system.
Context (k : link) (inet_aton : str -> Z) (inet_ntoa : Z -> str).

(** What the server has sent over the uplink, and whether it has ended it. *)
Definition sentTo (ss : Z) (l : list CRtpMsgServer.effect) : list (list Z) :=
  omap (fun e => match e with CRtpMsgServer.Send s m => if s =? ss then Some m else None | _ => None end) l.
Definition ends (ss : Z) (l : list CRtpMsgServer.effect) : bool :=
  existsb (fun e => match e with CRtpMsgServer.DeleteSession s => s =? ss | _ => false end) l.

(** A step of the server; [accepts] is whether its sessions take packets *)
Definition serverStep (accepts : Z -> bool) (e : CRtpMsgServer.event) (s : t) : option t :=
  '(server, l) ← CRtpMsgServer.handle accepts inet_aton e (sServer s);
  let sent := sentTo (serverSession k) l in
  let taken := accepts (serverSession k) in
  Some (mkSystem server (sC2s s) (sClient s) (uplink s) (downlink s ++ if taken then sent else []) (received s) (calls s)
          (connected s && negb (ends (serverSession k) l))
          (refused s || (negb taken && negb (bool_decide (sent = []))))).

(** The client's state, and what it has sent. *)
Definition clientSent (l : list CRtpMsgClient.effect) : list (list Z) :=
  omap (fun e => match e with CRtpMsgClient.Send s m => if s =? clientSession k then Some m else None | _ => None end) l.
Definition setClient (c : CRtpMsgClient.t) (l : list CRtpMsgClient.effect) (s : t) : t :=
  mkSystem (sServer s) (sC2s s) c (uplink s ++ clientSent l) (downlink s) (received s) (calls s) (connected s) (refused s).
Definition setCalls (received : option CRtpMsgClient.message) (calls : list CRtpMsgClient.effect) (s : t) : t :=
  mkSystem (sServer s) (sC2s s) (sClient s) (uplink s) (downlink s) received calls (connected s) (refused s).

(** What the c2s makes its client do; [takes] is whether the client's session takes a
    packet, [cached] are the bytes that it holds *)
Definition perform (takes : bool) (cached : Z) (e : CRtpMsgC2s.effect) (s : t) : t :=
  match e with
  | CRtpMsgC2s.UpMsg c buf dsts =>
      if c =? client k then
        let '(ret, cl, l) := CRtpMsgClient.SendMsg takes cached buf 0 dsts (sClient s) in
        let s := setClient cl l s in
        mkSystem (sServer s) (sC2s s) (sClient s) (uplink s) (downlink s) (received s) (calls s) (connected s) (refused s || negb ret)
      else s
  | CRtpMsgC2s.UpTransfer c buf charset dsts src =>
      if c =? client k then
        let '(_, cl, l) := CRtpMsgClient.Transfer takes cached buf charset dsts src (sClient s) in setClient cl l s
      else s
  | CRtpMsgC2s.UpRedline c bytes =>
      if c =? client k then let '(cl, l) := CRtpMsgClient.setRedline bytes (sClient s) in setClient cl l s else s
  | _ => s
  end.

(** A step of the c2s *)
Definition c2sStep (accepts : Z -> bool) (takes : bool) (cached : Z) (e : CRtpMsgC2s.event) (s : t) : option t :=
  '(c2s, l) ← CRtpMsgC2s.handle accepts inet_aton e (sC2s s);
  Some (fold_left (fun s e => perform takes cached e s) l
    (mkSystem (sServer s) c2s (sClient s) (uplink s) (downlink s) (received s) (calls s)
       (connected s && (CRtpMsgC2s.m_msgClient c2s =? client k)) (refused s))).

(** A new client of the c2s: whether the uplink takes its login decides the call of
    [SendMsg] in [AcceptSession], and a login that it refuses is not lost *)
Definition acceptStep (accepts : Z -> bool) (takes : bool) (cached : Z) (ssl ours : bool) (arg : CRtpMsgServer.acceptArg) (newTimer : Z)
    (s : t) : option t :=
  let sends text := fst (fst (CRtpMsgClient.SendMsg takes cached text 0 [ROOT_ID_C2S] (sClient s))) in
  s' ← c2sStep accepts takes cached (CRtpMsgC2s.Accept ssl ours arg newTimer sends) s;
  Some (mkSystem (sServer s') (sC2s s') (sClient s') (uplink s') (downlink s') (received s') (calls s') (connected s') (refused s)).

(** The next call of the client's upcall *)
Definition callStep (newSession : option (Z * str)) (accepts : Z -> bool) (takes : bool) (cached : Z) (s : t) : option t :=
  match calls s with
  | [] => Some s
  | c :: rest =>
      let next e := if CRtpMsgC2s.locks e && negb (bool_decide (CRtpMsgC2s.upcall (sC2s s) = [])) then Some s
                    else c2sStep accepts takes cached e (setCalls (received s) rest s) in
      match c with
      | CRtpMsgClient.OkMsg myUser ip => next (CRtpMsgC2s.OkMsg (client k) myUser (inet_ntoa ip))
      | CRtpMsgClient.RecvMsg buf charset src => next (CRtpMsgC2s.RecvMsg newSession (client k) buf src)
      | CRtpMsgClient.TransferMsg buf charset src dsts => next (CRtpMsgC2s.TransferMsg (client k) buf charset src dsts)
      | _ => Some (setCalls (received s) rest s)
      end
  end.

Inductive event :=
  | Server (accepts : Z -> bool) (e : CRtpMsgServer.event)
  | C2s (accepts : Z -> bool) (takes : bool) (cached : Z) (e : CRtpMsgC2s.event)
  | Accept (accepts : Z -> bool) (takes : bool) (cached : Z) (ssl ours : bool) (arg : CRtpMsgServer.acceptArg) (newTimer : Z)
  | Up (accepts : Z -> bool)      (* a packet reaches the server *)
  | Down (takes : bool)           (* a packet reaches the client *)
  | Upcall                        (* the client's upcall begins *)
  | Call (newSession : option (Z * str)) (accepts : Z -> bool) (takes : bool) (cached : Z)
  | Sent (takes : bool).          (* the client's session has sent *)

Definition handle (e : event) (s : t) : option t :=
  match e with
  | Server accepts e => serverStep accepts e s
  | C2s accepts takes cached e => c2sStep accepts takes cached e s
  | Accept accepts takes cached ssl ours arg newTimer => acceptStep accepts takes cached ssl ours arg newTimer s
  | Up accepts =>
      match uplink s with
      | [] => Some s
      | m :: rest =>
          serverStep accepts (CRtpMsgServer.Recv (serverSession k) m)
            (mkSystem (sServer s) (sC2s s) (sClient s) rest (downlink s) (received s) (calls s) (connected s) (refused s))
      end
  | Down takes =>
      match received s, calls s, downlink s with
      | None, [], m :: rest =>
          '(msg, c, l) ← CRtpMsgClient.OnRecvSession takes (clientSession k) m (sClient s);
          Some (setClient c l (mkSystem (sServer s) (sC2s s) (sClient s) (uplink s) rest msg [] (connected s) (refused s)))
      | _, _, _ => Some s
      end
  | Upcall =>
      match received s with
      | None => Some s
      | Some msg => '(c, l) ← CRtpMsgClient.OnRecvUpcall msg (sClient s); Some (setClient c [] (setCalls None l s))
      end
  | Call newSession accepts takes cached => callStep newSession accepts takes cached s
  | Sent takes => let '(c, l) := CRtpMsgClient.OnSendSession takes (clientSession k) (sClient s) in Some (setClient c l s)
  end.

End system.
End MsgSystem.
