(* ===== verification/MsgUplink.v ===== *)
(** * The uplink, seen from the server

    The specification of the agreement between the server and a c2s ([AgreementSpec]), what
    the texts and packets on the uplink say, and what a step of the server does to the users
    behind the uplink: it registers one only with a message to the c2s, forgets one whose
    logout it executes, and loses no logout that it has queued. *)

From S2P Require Import Prelude RefCount StlMap Bytes Bsd ConfigStream MsgUser RtpPacket RtpSession MsgServer MsgRegistry MsgRouting.
From S2P Require Import MsgClient MsgC2s MsgC2sRegistry MsgSystem.
Import MsgUser MsgUserLemmas.
Import MsgSystem.

Module AgreementSpec.

(** What a message of the server says about a user to the c2s: that it has logged in
    ([true]) or was kicked out ([false]). *)
Definition saidText (text : list Z) : option (RTP_MSG_USER * bool) :=
  match CProConfigStream.StringToConfigs text with
  | Some (true, configs) =>
      let st := CProConfigStream.AddItems configs CProConfigStream.init in
      let name := CProConfigStream.Get TAG_msg_name st in
      u ← RtpMsgString2User (CProConfigStream.Get TAG_client_id st);
      if sameText name MSG_client_login_ok then Some (u, true)
      else if sameText name MSG_client_kickout then Some (u, false) else None
  | _ => None
  end.
Definition said (m : list Z) : option (RTP_MSG_USER * bool) :=
  if eqb (ofBytes 4 m) ROOT_ID_C2S then saidText (zdrop CRtpMsgServer.sizeof_RTP_MSG_HEADER m) else None.
Definition saidCall (e : CRtpMsgClient.effect) : option (RTP_MSG_USER * bool) :=
  match e with CRtpMsgClient.RecvMsg buf _ src => if eqb src ROOT_ID_C2S then saidText buf else None | _ => None end.

(** All that is on its way to the c2s, the next first, and the last of it about a user. *)
Definition inFlight (s : t) : list (option (RTP_MSG_USER * bool)) :=
  (saidCall <$> calls s) ++ (match received s with Some msg => [said (CRtpMsgClient.payload msg)] | None => [] end) ++ (said <$> downlink s).
Definition about (u : RTP_MSG_USER) (l : list (option (RTP_MSG_USER * bool))) : list bool :=
  omap (fun o => '(v, b) ← o; if eqb v u then Some b else None) l.
Definition lastAbout (u : RTP_MSG_USER) (l : list (option (RTP_MSG_USER * bool))) : option bool := last (about u l).

(** The users that the server has behind a session. *)
Definition ctxOf (ss : Z) (s : CRtpMsgServer.t) : option CRtpMsgServer.ctx :=
  '(_, a) ← stl_find ss (CRtpMsgServer.m_session2Ctx s); CRtpMsgServer.heap s !! a.
Definition subUsersOf (ss : Z) (s : CRtpMsgServer.t) : list RTP_MSG_USER :=
  match ctxOf ss s with Some c => CRtpMsgServer.subUsers c | None => [] end.

(** A user of the c2s. *)
Definition registered (u : RTP_MSG_USER) (s : CRtpMsgC2s.t) : Prop := stl_find u (CRtpMsgC2s.m_user2Session s) <> None.

Section link.
Context (k : link).

(** A report of the logout of a user on its way to the server: still to be made by the c2s,
    in the client's bucket, on the uplink, or queued at the server. *)
Definition report (src u : RTP_MSG_USER) : list Z :=
  CRtpMsgServer.header 0 None src [ROOT_ID_C2S] ++ CRtpMsgC2s.logoutText u.
Definition logsOut (u : RTP_MSG_USER) (st : CProConfigStream.t) : Prop :=
  sameText (CProConfigStream.Get TAG_msg_name st) MSG_client_logout = true /\
  RtpMsgString2User (CProConfigStream.Get TAG_client_id st) = Some u.
Definition atClient (u : RTP_MSG_USER) (c : CRtpMsgClient.t) : Prop :=
  report Zero u ∈ CRtpMsgClient.m_bucket c \/ report (c2sUser k) u ∈ CRtpMsgClient.m_bucket c.
Definition atServer (u : RTP_MSG_USER) (s : CRtpMsgServer.t) : Prop :=
  exists st, CRtpMsgServer.CRecv (serverSession k) st (c2sUser k) ∈ CRtpMsgServer.commands s /\ logsOut u st.
Definition reported (u : RTP_MSG_USER) (s : t) : Prop :=
  CRtpMsgC2s.UpMsg (client k) (CRtpMsgC2s.logoutText u) [ROOT_ID_C2S] ∈ CRtpMsgC2s.upcall (sC2s s) \/
  atClient u (sClient s) \/ report (c2sUser k) u ∈ uplink s \/ atServer u (sServer s).

(** What is to become of a user behind the uplink: its logout is on its way to the server,
    or the last message about it on its way to the c2s says that it has logged in, or there
    is none and the c2s has it. *)
Definition settled (u : RTP_MSG_USER) (s : t) : Prop :=
  reported u s \/ lastAbout u (inFlight s) = Some true \/ (lastAbout u (inFlight s) = None /\ registered u (sC2s s)).

(** Nothing is on its way. *)
Record idle (s : t) : Prop := mkIdle {
  id_upcall : CRtpMsgC2s.upcall (sC2s s) = [];
  id_bucket : CRtpMsgClient.m_bucket (sClient s) = [];
  id_wires : uplink s = [] /\ downlink s = [] /\ received s = None /\ calls s = [];
  id_commands : CRtpMsgServer.commands (sServer s) = []
}.

(** The uplink has just come up: the c2s is logged in and nothing is on its way. *)
Record start (s : t) : Prop := mkStart {
  st_server : RegistrySpec.consistent (sServer s);
  st_users : forall u a, stl_find u (CRtpMsgServer.m_user2Ctx (sServer s)) = Some (u, a) -> IsRoot u = false;
  st_ctx : ctxOf (serverSession k) (sServer s) = Some (CRtpMsgServer.mkCtx (serverSession k) (c2sUser k) [] true);
  st_ss : serverSession k <> NULL;
  st_cid : classId (c2sUser k) = SERVER_CID;
  st_queued : Forall (fun c => match c with CRtpMsgServer.CRecv x _ _ => x <> serverSession k | _ => True end) (CRtpMsgServer.commands (sServer s)) /\
    match CRtpMsgServer.checking (sServer s) with Some (CRtpMsgServer.CheckSub x _ _ _ _) => x <> serverSession k | _ => True end;
  st_c2s : C2sSpec.consistent (sC2s s);
  st_active : CRtpMsgC2s.active (sC2s s) = true;
  st_client : client k <> NULL;
  st_msgClient : CRtpMsgC2s.m_msgClient (sC2s s) = client k;
  st_uplink : sClient s = CRtpMsgClient.mkClient true (CRtpMsgClient.m_mmType (sClient s)) (CRtpMsgClient.m_sslConfig (sClient s)) true
    (clientSession k) [] (CRtpMsgClient.m_redlineBytes (sClient s)) (c2sUser k) (CRtpMsgClient.m_timerId (sClient s)) true true;
  st_cs : clientSession k <> NULL;
  st_wires : uplink s = [] /\ downlink s = [] /\ received s = None /\ calls s = []
}.

(** What comes from outside.  The uplink's packets and the client's calls are the system's
    own; the observer gives nobody the root's id. *)
Definition allowed (e : event) (s : t) : Prop :=
  match e with
  | Server _ e =>
      RegistrySpec.enabled e (sServer s) /\
      match e with
      | CRtpMsgServer.Recv ss _ => ss <> serverSession k
      | CRtpMsgServer.Answer ans _ => CRtpMsgServer.userId ans <> 1
      | _ => True
      end
  | C2s _ _ _ e =>
      match e with
      | CRtpMsgC2s.Accept _ _ _ _ _ => False
      | CRtpMsgC2s.OkMsg c _ _ | CRtpMsgC2s.RecvMsg _ c _ _ | CRtpMsgC2s.TransferMsg c _ _ _ _ => c <> client k
      | _ => True
      end
  | _ => True
  end.

Inductive reachable (inet_aton : str -> Z) (inet_ntoa : Z -> str) (s0 : t) : t -> Prop :=
  | reach_start : reachable inet_aton inet_ntoa s0 s0
  | reach_event s e s' :
      reachable inet_aton inet_ntoa s0 s -> allowed e s -> handle k inet_aton inet_ntoa e s = Some s' ->
      reachable inet_aton inet_ntoa s0 s'.
End link.
End AgreementSpec.

Module TextLemmas2.
Import AgreementSpec CProConfigStream.

(** ** The texts of the messages *)

Definition plain (s : str) : Prop := Forall (fun b => b <> QUOTE /\ b <> CR /\ b <> LF) s.

Lemma digits_plain fuel : forall n, plain (digits fuel n) /\ (length (digits fuel n) <= fuel)%nat.
Proof.
  induction fuel as [|fuel IH]; intros n; cbn [digits]; [split; [constructor|done]|].
  assert (48 <= 48 + n mod 10 < 58) by (pose proof (Z.mod_pos_bound n 10); lia).
  assert (Hb : plain [48 + n mod 10]) by (repeat constructor; unfold QUOTE, CR, LF; lia).
  destruct (IH (n / 10)) as [H1 H2]. destruct (n <? 10); [by split; [|cbn; lia]|].
  split; [by apply Forall_app|]. rewrite length_app. cbn. lia.
Qed.

Lemma decimal_plain n : plain (decimal n) /\ (length (decimal n) <= 21)%nat.
Proof.
  unfold decimal. destruct (n <? 0).
  - destruct (digits_plain 20 (- n)) as [H1 H2]. split; [constructor; [done|exact H1]|]. cbn [length]. lia.
  - destruct (digits_plain 20 n) as [H1 H2]. split; [done|lia].
Qed.

Lemma user_plain u : plain (RtpMsgUser2String u) /\ (length (RtpMsgUser2String u) <= 65)%nat.
Proof.
  unfold RtpMsgUser2String. destruct (decimal_plain (classId u)) as [H1 L1]. destruct (decimal_plain (UserId u)) as [H2 L2].
  destruct (decimal_plain (instId u)) as [H3 L3].
  assert (Hd : plain [DASH]) by (by repeat constructor). split.
  - repeat (apply Forall_app; split); done.
  - rewrite !length_app. cbn [length]. lia.
Qed.

(** A text is read as the items it is printed from. *)
Lemma textOf_items st items : GetAll st = items -> Forall LineLemmas.cleanItem items ->
  (length (ConfigsToString items) <= 400)%nat ->
  CRtpMsgServer.textOf st = ConfigsToString items /\ StringToConfigs (CRtpMsgServer.textOf st) = Some (true, items).
Proof.
  intros E Hc Hl. assert (Et : CRtpMsgServer.textOf st = ConfigsToString items).
  { unfold CRtpMsgServer.textOf, ToString. rewrite E. rewrite wrap_small by (unfold zlen; lia). apply ztake_all. lia. }
  split; [done|]. rewrite Et. by apply TextLemmas.print_parse.
Qed.

Definition msgItems (name : str) (index : option Z) (u : option RTP_MSG_USER) : list item :=
  [mkItem TAG_msg_name name] ++ (match index with Some i => [mkItem TAG_client_index (decimal i)] | None => [] end) ++
  match u with Some u => [mkItem TAG_client_id (RtpMsgUser2String u)] | None => [] end.

Lemma items_clean name index u : plain name -> Forall LineLemmas.cleanItem (msgItems name index u).
Proof.
  intros Hn. unfold msgItems. constructor; [by split; [repeat constructor|]|]. apply Forall_app. split.
  - destruct index as [i|]; [|constructor]. constructor; [|constructor]. split; [by repeat constructor|apply decimal_plain].
  - destruct u as [u|]; [|constructor]. constructor; [|constructor]. split; [by repeat constructor|apply user_plain].
Qed.

Lemma items_length name index u : (length name <= 100)%nat -> (length (ConfigsToString (msgItems name index u)) <= 400)%nat.
Proof.
  intros Hn. rewrite TextLemmas.ConfigsToString_lines.
  assert (Hline : forall n v, length (TextLemmas.lineOf (mkItem n v)) = (length n + length v + 5)%nat).
  { intros n v. unfold TextLemmas.lineOf. cbn [configName configValue]. cbn [length app]. rewrite length_app. cbn [length]. rewrite length_app. cbn [length]. lia. }
  unfold msgItems. destruct index as [i|]; [pose proof (proj2 (decimal_plain i))|]; (destruct u as [u|]; [pose proof (proj2 (user_plain u))|]);
    cbn [app fmap list_fmap concat]; rewrite ?length_app, !Hline; cbn [length TAG_msg_name TAG_client_index TAG_client_id]; lia.
Qed.

Lemma names_plain : plain MSG_client_login_ok /\ plain MSG_client_kickout /\ plain MSG_client_logout /\ plain MSG_client_login_error.
Proof. split_and!; by repeat constructor. Qed.

(** What the receiver finds in such a text. *)
Lemma msg_read st name index u : GetAll st = msgItems name index u -> plain name -> (length name <= 100)%nat ->
  CRtpMsgServer.textOf st <> [] /\ zlen (CRtpMsgServer.textOf st) <= 400 /\
  exists configs, StringToConfigs (CRtpMsgServer.textOf st) = Some (true, configs) /\
    Get TAG_msg_name (AddItems configs init) = name /\
    Get TAG_client_id (AddItems configs init) = match u with Some u => RtpMsgUser2String u | None => [] end.
Proof.
  intros E Hn Hl. pose proof (items_length name index u Hl) as Hlen.
  destruct (textOf_items st _ E (items_clean name index u Hn) Hlen) as [E1 E2]. split_and!.
  - rewrite E1, TextLemmas.ConfigsToString_lines. done.
  - rewrite E1. unfold zlen. lia.
  - exists (msgItems name index u). split; [done|]. by destruct index, u.
Qed.

Lemma logout_read u : wf u -> exists st configs, CRtpMsgC2s.logoutText u = CRtpMsgServer.textOf st /\
  CRtpMsgC2s.logoutText u <> [] /\ zlen (CRtpMsgC2s.logoutText u) <= 400 /\
  StringToConfigs (CRtpMsgC2s.logoutText u) = Some (true, configs) /\ logsOut u (AddItems configs init).
Proof.
  intros Hu. unfold CRtpMsgC2s.logoutText. set (st := Add _ _ _).
  destruct (msg_read st MSG_client_logout None (Some u)) as (H1 & H2 & configs & H3 & H4 & H5); [reflexivity|apply names_plain|cbn; lia|].
  exists st, configs. split_and!; try done. unfold logsOut. rewrite H4, H5. split; [done|by apply user_text].
Qed.

(** The three kinds of messages of the server. *)
Definition loginOkText (i : Z) (u : RTP_MSG_USER) : list Z :=
  CRtpMsgServer.textOf (Add TAG_client_id (RtpMsgUser2String u) (AddUint TAG_client_index i (Add TAG_msg_name MSG_client_login_ok init))).
Definition kickoutText (u : RTP_MSG_USER) : list Z :=
  CRtpMsgServer.textOf (Add TAG_client_id (RtpMsgUser2String u) (Add TAG_msg_name MSG_client_kickout init)).
Definition loginErrorText (i : Z) : list Z :=
  CRtpMsgServer.textOf (AddUint TAG_client_index i (Add TAG_msg_name MSG_client_login_error init)).

Lemma loginOk_said i u : wf u -> loginOkText i u <> [] /\ zlen (loginOkText i u) <= 400 /\ saidText (loginOkText i u) = Some (u, true).
Proof.
  intros Hu. unfold loginOkText. set (st := Add _ _ _).
  destruct (msg_read st MSG_client_login_ok (Some i) (Some u)) as (H1 & H2 & configs & H3 & H4 & H5); [reflexivity|apply names_plain|cbn; lia|].
  split_and!; try done. unfold saidText. rewrite H3, H4, H5, user_text by done. done.
Qed.
Lemma kickout_said u : wf u -> kickoutText u <> [] /\ zlen (kickoutText u) <= 400 /\ saidText (kickoutText u) = Some (u, false).
Proof.
  intros Hu. unfold kickoutText. set (st := Add _ _ _).
  destruct (msg_read st MSG_client_kickout None (Some u)) as (H1 & H2 & configs & H3 & H4 & H5); [reflexivity|apply names_plain|cbn; lia|].
  split_and!; try done. unfold saidText. rewrite H3, H4, H5, user_text by done. done.
Qed.
Lemma loginError_said i : loginErrorText i <> [] /\ zlen (loginErrorText i) <= 400 /\ saidText (loginErrorText i) = None.
Proof.
  unfold loginErrorText. set (st := AddUint _ _ _).
  destruct (msg_read st MSG_client_login_error (Some i) None) as (H1 & H2 & configs & H3 & H4 & H5); [reflexivity|apply names_plain|cbn; lia|].
  split_and!; try done. unfold saidText. rewrite H3, H4, H5. done.
Qed.

End TextLemmas2.

Module PacketLemmas.
Import AgreementSpec TextLemmas2 CRtpMsgServer.

(** ** Packets *)

Lemma header_src charset ip src dsts buf : wf src -> ofBytes 4 (header charset ip src dsts ++ buf) = src.
Proof.
  intros Hs. unfold header. rewrite <- !app_assoc. set (h := le_bytes 4 _).
  assert (Hh : zlen h = 4) by apply zlen_le_bytes. replace 4 with (zlen h + 0) at 1 by lia.
  rewrite ofBytes_shift by lia. by apply ofBytes_bytesOf.
Qed.

Lemma root_wf : wf ROOT_ID_C2S /\ wf ROOT_ID /\ wf Zero.
Proof. split_and!; (split; [done|by repeat constructor|done]). Qed.

(** A message to one user. *)
Definition packet (src dst : RTP_MSG_USER) (text : list Z) : list Z := header 0 None src [dst] ++ text.

Record packet_reads (src dst : RTP_MSG_USER) (text m : list Z) : Prop := mkPacketReads {
  pr_len : zlen m = 24 + zlen text;
  pr_count : load 1 15 m = 1;
  pr_src : ofBytes 4 m = src;
  pr_dst : ofBytes 16 m = dst;
  pr_text : zdrop 24 m = text;
  pr_body : zsub 24 (zlen text) m = text
}.
Lemma packet_ok src dst text : wf src -> wf dst -> packet_reads src dst text (packet src dst text).
Proof.
  intros Hs Hd. unfold packet. pose proof (RoutingLemmas.zlen_header 0 src [dst]) as Hz. change (24 + 8 * (Z.max 1 (zlen [dst]) - 1)) with 24 in Hz.
  destruct (RoutingLemmas.header_reads 0 src [dst] text ltac:(lia) Hs) as [_ R2 R3 R4]; [by constructor|].
  assert (Ht : zdrop 24 (header 0 None src [dst] ++ text) = text) by (rewrite <- Hz; apply zdrop_app_exact).
  split; [rewrite zlen_app, Hz; lia|done|done|exact (R4 0%nat dst eq_refl)|done|].
  rewrite <- Hz. replace (zlen (header 0 None src [dst])) with (zlen (header 0 None src [dst]) + 0) by lia.
  rewrite zsub_app_r by lia. replace (zlen (header 0 None src [dst]) + 0 - zlen (header 0 None src [dst])) with 0 by lia. apply zsub_all.
Qed.

(** What the server sends over the uplink: its own messages to the c2s, or relayed ones. *)
Definition control (C : RTP_MSG_USER) (m : list Z) : Prop :=
  exists text, m = packet ROOT_ID_C2S C text /\ text <> [] /\ zlen text <= 400.
Definition sendOk (C : RTP_MSG_USER) (m : list Z) : Prop := control C m \/ eqb (ofBytes 4 m) ROOT_ID_C2S = false.

Lemma control_said C text : wf C -> said (packet ROOT_ID_C2S C text) = saidText text.
Proof.
  intros Hc. destruct (packet_ok ROOT_ID_C2S C text) as [_ _ R3 _ R5 _]; [apply root_wf|done|]. unfold said. rewrite R3.
  unfold sizeof_RTP_MSG_HEADER. by rewrite R5.
Qed.

Lemma relayed_said m : eqb (ofBytes 4 m) ROOT_ID_C2S = false -> said m = None.
Proof. unfold said. by intros ->. Qed.

Lemma nonroot_relayed u : IsRoot u = false -> eqb u ROOT_ID_C2S = false.
Proof. intros H. apply not_true_iff_false. intros E%eqb_spec. by rewrite E in H. Qed.

(** *** What is said about a user *)

Lemma about_app u l1 l2 : about u (l1 ++ l2) = about u l1 ++ about u l2.
Proof. apply omap_app. Qed.
Lemma lastAbout_app u l1 l2 : lastAbout u (l1 ++ l2) = match lastAbout u l2 with Some b => Some b | None => lastAbout u l1 end.
Proof. unfold lastAbout. rewrite about_app. apply last_app. Qed.
Lemma lastAbout_none u l : about u l = [] -> lastAbout u l = None.
Proof. unfold lastAbout. by intros ->. Qed.
Lemma about_nil u l : Forall (fun o => o = None) l -> about u l = [].
Proof. induction 1 as [|o l -> _ IH]; [done|exact IH]. Qed.
Lemma about_other u v b : v <> u -> about u [Some (v, b)] = [].
Proof. intros Hne. cbn. destruct (eqb v u) eqn:E; [by apply eqb_spec in E|done]. Qed.
Lemma about_self u b : about u [Some (u, b)] = [b].
Proof. cbn. by rewrite (proj2 (eqb_spec u u)). Qed.

End PacketLemmas.

Module ServerLemmas.
Import AgreementSpec TextLemmas2 PacketLemmas CRtpMsgServer RegistrySpec RegistryLemmas.

Section server.
Context (k : link) (accepts : Z -> bool) (inet_aton : str -> Z).
Local Abbreviation ss := (serverSession k).
Local Abbreviation C := (c2sUser k).
Hypothesis HC : wf C.

Lemma sentTo_app x l1 l2 : sentTo x (l1 ++ l2) = sentTo x l1 ++ sentTo x l2.
Proof. apply omap_app. Qed.
Lemma ends_app x l1 l2 : ends x (l1 ++ l2) = ends x l1 || ends x l2.
Proof. apply existsb_app. Qed.

(** Where a user is, and the context of the uplink. *)
Definition home (u : RTP_MSG_USER) (a : Z) (s : t) : Prop := stl_find u (m_user2Ctx s) = Some (u, a).
Definition nonroot (s : t) : Prop := forall u a, home u a s -> IsRoot u = false.
Record linkedAt (a : Z) (s : t) : Prop := mkLinkedAt {
  la_session : stl_find ss (m_session2Ctx s) = Some (ss, a);
  la_ctx : exists c, heap s !! a = Some c /\ session c = ss /\ baseUser c = C /\ isC2s c = true
}.

(** What is queued for the uplink's session comes from its user. *)
Record queued (s : t) : Prop := mkQueued {
  qu_commands : Forall (fun c => match c with CRecv x _ u => x = ss -> u = C | _ => True end) (commands s);
  qu_check : match checking s with Some (CheckSub x u _ _ _) => x = ss -> u = C | _ => True end
}.

(** A step of the server, seen from the uplink. *)
Record stepped (a : Z) (s s' : t) (l : list effect) : Prop := mkStepped {
  sp_linked : active s' = true -> linkedAt a s';
  sp_nonroot : nonroot s';
  sp_sent : Forall (sendOk C) (sentTo ss l);
  sp_home : forall u, u <> C -> home u a s' ->
    lastAbout u (said <$> sentTo ss l) = Some true \/ (lastAbout u (said <$> sentTo ss l) = None /\ home u a s)
}.

(** Effects that send nothing over the uplink. *)
Definition mute (e : effect) : bool := match e with Send x _ => negb (x =? ss) | _ => true end.
Lemma sentTo_mute l : Forall (fun e => mute e = true) l -> sentTo ss l = [].
Proof.
  induction 1 as [|e l He _ IH]; [done|]. unfold sentTo. cbn [omap list_omap]. fold (sentTo ss l). rewrite IH.
  destruct e as [x m| | | | | | | | | |]; try done. cbn in He. apply negb_true_iff in He. by rewrite He.
Qed.

(** Relayed packets. *)
Lemma sent_downlink xs buf charset src dsts ip : wf src ->
  Forall (fun m => ofBytes 4 m = src) (sentTo ss (snd (SendMsgToDownlink accepts xs buf charset src dsts ip))).
Proof.
  intros Hs. unfold SendMsgToDownlink. destruct (_ || _ || _); [constructor|]. destruct (_ >? _); [constructor|]. cbn [snd].
  induction xs as [|x xs IH]; [constructor|]. unfold sentTo. cbn [map omap list_omap]. fold (sentTo ss (map (fun s => Send s (header charset ip src dsts ++ buf)) xs)).
  destruct (x =? ss); [|exact IH]. constructor; [|exact IH]. by apply header_src.
Qed.

Lemma relayed src l : IsRoot src = false \/ src = ROOT_ID -> Forall (fun m => ofBytes 4 m = src) l ->
  Forall (sendOk C) l /\ forall u, about u (said <$> l) = [].
Proof.
  intros Hr Hl. assert (Hn : eqb src ROOT_ID_C2S = false) by (destruct Hr as [?| ->]; [by apply nonroot_relayed|done]). split.
  - eapply Forall_impl; [exact Hl|]. intros m <-. by right.
  - intros u. apply about_nil, Forall_fmap. eapply Forall_impl; [exact Hl|]. intros m <-. by apply relayed_said.
Qed.

(** A step that changes nothing of the registry and relays. *)
Lemma stepped_relay a s s' l : nonroot s -> (active s = true -> linkedAt a s) -> active s' = active s ->
  m_session2Ctx s' = m_session2Ctx s -> m_user2Ctx s' = m_user2Ctx s -> heap s' = heap s ->
  Forall (sendOk C) (sentTo ss l) -> (forall u, about u (said <$> sentTo ss l) = []) -> stepped a s s' l.
Proof.
  intros Hn Hl E1 E2 E3 E4 Hs Ha. split.
  - rewrite E1. intros H. destruct (Hl H) as [H1 H2]. split; [by rewrite E2|by rewrite E4].
  - unfold nonroot, home. by rewrite E3.
  - done.
  - intros u _ Hu. right. split; [by apply lastAbout_none|]. unfold home in *. by rewrite <- E3.
Qed.

Lemma stepped_mute a s s' l : nonroot s -> (active s = true -> linkedAt a s) -> active s' = active s ->
  m_session2Ctx s' = m_session2Ctx s -> m_user2Ctx s' = m_user2Ctx s -> heap s' = heap s ->
  Forall (fun e => mute e = true) l -> stepped a s s' l.
Proof.
  intros Hn Hl E1 E2 E3 E4 H. apply stepped_relay; try done; rewrite sentTo_mute by done; [constructor|done].
Qed.

Lemma stepped_none a s : nonroot s -> (active s = true -> linkedAt a s) -> stepped a s s [].
Proof. intros Hn Hl. by apply stepped_mute. Qed.

(** A control message over the uplink's session. *)
Lemma sent_control x dst text : (x = ss -> dst = C) -> text <> [] -> zlen text <= 400 ->
  let l := snd (SendMsgToDownlink accepts [x] text 0 ROOT_ID_C2S [dst] None) in
  if x =? ss then sentTo ss l = [packet ROOT_ID_C2S C text] else sentTo ss l = [].
Proof.
  intros Hd Hne Hl. unfold SendMsgToDownlink. assert (Hz : zlen text <> 0) by (intros E%zlen_zero; done).
  rewrite (proj2 (Z.eqb_neq _ _) Hz). change ((false || (classId ROOT_ID_C2S =? 0) || (UserId ROOT_ID_C2S =? 0))) with false. cbn iota.
  destruct (packet_ok ROOT_ID_C2S ROOT_ID_C2S text) as [R1 _ _ _ _ _]; [apply root_wf..|].
  rewrite zlen_app, RoutingLemmas.zlen_header. change (zlen [dst]) with 1.
  rewrite Z.gtb_ltb, (proj2 (Z.ltb_ge _ _)) by (unfold MAX_PAYLOAD_SIZE; lia). cbn zeta. cbn [snd map].
  unfold sentTo. cbn [omap list_omap].
  destruct (Z.eqb_spec x ss) as [E|E]; [|done]. by rewrite Hd.
Qed.

(** ** Removals *)

Section registered.
Context (a : Z) (s : t).
Hypothesis Hc : consistent s.
Hypothesis Ha : active s = true.
Hypothesis Hl : linkedAt a s.

Lemma la_registry : registry (m_session2Ctx s) (m_user2Ctx s) (heap s).
Proof. by apply con_on. Qed.

(** The context of the uplink's session is the one at [a]. *)
Lemma la_unique b c : heap s !! b = Some c -> session c = ss -> b = a /\ baseUser c = C /\ isC2s c = true.
Proof.
  intros Hb E. destruct Hl as [H1 (d & Hd & E1 & E2 & E3)]. pose proof la_registry as R.
  assert (b = a) as -> by (apply (reg_same_session _ _ _ R b a c d); congruence). by replace c with d by congruence.
Qed.

Lemma la_home_C : home C a s.
Proof. destruct Hl as [_ (c & Hca & _ & Eb & _)]. apply (reg_member _ _ _ la_registry a c); [done|]. by left. Qed.

Lemma home_wf u b : home u b s -> wf u /\ classId u <> 0 /\ UserId u <> 0.
Proof. intros H. destruct (reg_ctx _ _ _ la_registry _ _ H) as (c & _ & Hm & Hok). by apply (ok_wf c Hok). Qed.

Lemma sent_kickout x c u : (x = ss -> c = C) -> wf u ->
  sentTo ss (NotifyKickout accepts x c u) = [] \/ sentTo ss (NotifyKickout accepts x c u) = [packet ROOT_ID_C2S C (kickoutText u)].
Proof.
  intros Hx Hw. unfold NotifyKickout. destruct (_ || _ || _ || _ || _ || _); [by left|]. destruct (kickout_said u Hw) as (H1 & H2 & _).
  pose proof (sent_control x c (kickoutText u) Hx H1 H2) as H. cbn zeta in H. fold (kickoutText u) in *.
  destruct (x =? ss); [by right|by left].
Qed.

Lemma removeUser_home notify user b s' r : home user b s -> removeUser accepts notify user b s = Some (s', r) ->
  oldSession r <> Some ss ->
  linkedAt a s' /\ user <> C /\ (forall u x, home u x s' -> u <> user /\ home u x s) /\
  (sentTo ss (notices r) = [] \/ sentTo ss (notices r) = [packet ROOT_ID_C2S C (kickoutText user)]).
Proof.
  intros Hu E Ho. pose proof la_registry as R. destruct (removeUser_ok accepts notify user b s R Hu) as (s2 & r2 & E2 & H).
  rewrite E in E2. injection E2 as <- <-. destruct (home_wf user b Hu) as (Hw & _).
  destruct (reg_ctx _ _ _ R _ _ Hu) as (c & Hcb & Hm & Hok). pose proof Hl as [L1 (d & Hd & D1 & D2 & D3)].
  unfold removeUser in E. rewrite Hcb in E. cbn [mbind option_bind] in E. pose proof (reg_users _ _ _ R) as Hsu.
  destruct (eqb user (baseUser c)) eqn:Eb; injection E as <- <-; cbn [oldSession notices] in *.
  - apply eqb_spec in Eb as ->.
    assert (Hne : baseUser c <> C).
    { intros Eq. pose proof la_home_C as Hh. rewrite <- Eq in Hh. unfold home in *. assert (b = a) as -> by congruence.
      replace d with c in * by congruence. congruence. }
    split; [|split; [done|split; [|by left]]].
    + split; cbn [m_session2Ctx heap setMaps].
      * rewrite stl_find_erase_ne; [done|]. congruence.
      * exists d. rewrite lookup_delete_ne; [done|]. intros ->. apply Ho. f_equal. congruence.
    + intros u x Hx. unfold home in *. cbn [m_user2Ctx setMaps] in Hx.
      apply stl_find_erase_iff in Hx as [Hx1 Hx2]; [|by apply eraseUsers_sorted].
      by apply find_eraseUsers in Hx2 as [_ Hx2].
  - assert (Hne : user <> C).
    { intros ->. pose proof la_home_C as Hh. unfold home in *. assert (b = a) as -> by congruence.
      replace d with c in * by congruence. rewrite D2, (proj2 (eqb_spec _ _)) in Eb by done. done. }
    split; [|split; [done|split]].
    + split; cbn [m_session2Ctx heap setMaps]; [done|]. destruct (decide (b = a)) as [->|Hba].
      * rewrite lookup_insert_eq. eexists. split; [reflexivity|]. cbn. by replace d with c in * by congruence.
      * exists d. by rewrite lookup_insert_ne.
    + intros u x Hx. unfold home in *. cbn [m_user2Ctx setMaps] in Hx. by apply stl_find_erase_iff in Hx.
    + destruct (notify c); [|by left]. apply sent_kickout; [|done]. intros Es. by apply (la_unique b c).
Qed.

Lemma removeOld_home notify user s' r : removeOld accepts notify user s = Some (s', r) -> oldSession r <> Some ss ->
  linkedAt a s' /\ user <> C /\ (forall u x, home u x s' -> u <> user /\ home u x s) /\
  (sentTo ss (notices r) = [] \/ (wf user /\ sentTo ss (notices r) = [packet ROOT_ID_C2S C (kickoutText user)])).
Proof.
  unfold removeOld. destruct (stl_find user (m_user2Ctx s)) as [p|] eqn:E.
  - destruct (stl_find_pair _ _ _ E) as [b ->]. intros E' Ho. destruct (removeUser_home notify user b s' r E E' Ho) as (H1 & H2 & H3 & H4).
    split_and!; [done|done|done|]. destruct H4 as [?|?]; [by left|right]. split; [|done]. by apply (home_wf user b).
  - intros [= <- <-] _. pose proof la_home_C as Hh. split_and!; [done| |intros u x Hx; split; [|done]|by left].
    + intros ->. unfold home in Hh. congruence.
    + intros ->. unfold home in Hx. congruence.
Qed.

End registered.

Lemma mute_closeUsers us e1 e2 : Forall (fun e => mute e = true) (closeUsers us e1 e2).
Proof. apply Forall_fmap, Forall_true. done. Qed.
Lemma mute_deleteOld o : Forall (fun e => mute e = true) (deleteOld o).
Proof. destruct o; by repeat constructor. Qed.

Lemma ends_deleteOld o l1 l2 : ends ss (l1 ++ deleteOld o ++ l2) = false -> o <> Some ss.
Proof.
  rewrite !ends_app. intros (_ & (H & _)%orb_false_iff)%orb_false_iff ->. cbn in H. by rewrite Z.eqb_refl in H.
Qed.

(** What a kickout notice says of the others. *)
Lemma kickout_about user l : l = [] \/ (wf user /\ l = [packet ROOT_ID_C2S C (kickoutText user)]) ->
  Forall (sendOk C) l /\ forall u, u <> user -> about u (said <$> l) = [].
Proof.
  intros [->|[Hw ->]]; [split; [constructor|done]|]. destruct (kickout_said user Hw) as (H1 & H2 & H3). split.
  - repeat constructor. by exists (kickoutText user).
  - intros u Hne. cbn [fmap list_fmap]. rewrite control_said, H3 by done. by apply about_other.
Qed.

Lemma AsyncKickoutUser_stepped cid uid iid a s s' l : consistent s -> nonroot s -> (active s = true -> linkedAt a s) ->
  AsyncKickoutUser accepts cid uid iid s = Some (s', l) -> ends ss l = false -> stepped a s s' l.
Proof.
  intros Hc Hn Hl. unfold AsyncKickoutUser. destruct (negb (active s)) eqn:Ha; [|apply negb_false_iff in Ha].
  { intros [= <- <-] _. by apply stepped_none. }
  specialize (Hl Ha). set (user := make (u8 cid) uid (u16 iid)).
  destruct (stl_find user (m_user2Ctx s)) as [p|] eqn:E.
  2: { intros [= <- <-] _. by apply stepped_none. }
  destruct (stl_find_pair _ _ _ E) as [b ->]. destruct (removeUser accepts _ user b s) as [[s2 r]|] eqn:Er; [|done].
  cbn [mbind option_bind]. intros [= <- <-] He.
  assert (Ho : oldSession r <> Some ss) by (apply (ends_deleteOld _ (notices r ++ closeUsers (oldUsers r) (-1) 0) []); by rewrite app_nil_r, <- app_assoc).
  destruct (removeUser_home a s Hc Ha Hl _ user b s2 r E Er Ho) as (H1 & H2 & H3 & H4).
  assert (Hs : sentTo ss (notices r ++ closeUsers (oldUsers r) (-1) 0 ++ deleteOld (oldSession r)) = sentTo ss (notices r)).
  { rewrite sentTo_app, (sentTo_mute (_ ++ _)), app_nil_r; [done|]. apply Forall_app. split; [apply mute_closeUsers|apply mute_deleteOld]. }
  assert (Hw : wf user) by (by apply (home_wf s Hc Ha user b)).
  destruct (kickout_about user (sentTo ss (notices r))) as [K1 K2]; [by destruct H4; [left|right]|].
  split; [done| | by rewrite Hs|].
  - intros u x Hx. destruct (H3 u x Hx) as [_ Hx']. by apply (Hn u x).
  - intros u _ Hu. destruct (H3 u a Hu) as [Hne Hu']. right. split; [|done]. rewrite Hs. by apply lastAbout_none, K2.
Qed.

Lemma mute_send x buf charset src dsts ip : x <> ss ->
  Forall (fun e => mute e = true) (snd (SendMsgToDownlink accepts [x] buf charset src dsts ip)).
Proof.
  intros Hx. unfold SendMsgToDownlink. destruct (_ || _ || _); [constructor|]. destruct (_ >? _); [constructor|].
  constructor; [|constructor]. cbn. by rewrite (proj2 (Z.eqb_neq _ _) Hx).
Qed.

Lemma AddBaseUser_stepped new type ssl sock user ip data c2s a s ret s' l : consistent s -> nonroot s ->
  (active s = true -> linkedAt a s) -> IsRoot user = false ->
  match new with Some (x, b) => stl_find x (m_session2Ctx s ++ closing s) = None /\ heap s !! b = None | None => True end ->
  AddBaseUser accepts inet_aton new type ssl sock user ip data c2s s = Some (ret, s', l) -> ends ss l = false -> stepped a s s' l.
Proof.
  intros Hc Hn Hl Hr Hnew. unfold AddBaseUser. destruct (_ || _); [intros [= <- <- <-] _; by apply stepped_none|].
  destruct (negb (active s)) eqn:Ha; [intros [= <- <- <-] _; by apply stepped_none|]. apply negb_false_iff in Ha. specialize (Hl Ha).
  destruct new as [[x b]|]; [|intros [= <- <- <-] _; by apply stepped_none]. destruct Hnew as [Hx Hb].
  destruct (con_on s Hc Ha) as [R Hcl]. rewrite Hcl, app_nil_r in Hx.
  destruct (removeOld accepts _ user s) as [[s2 r]|] eqn:Er; [|done]. cbn [mbind option_bind]. intros [= <- <- <-] He.
  destruct Hl as [L1 (d & Hd & D)]. assert (Hxs : x <> ss) by (intros ->; congruence). assert (Hba : b <> a) by (intros ->; congruence).
  set (sent := snd _) in *.
  assert (Ho : oldSession r <> Some ss).
  { apply (ends_deleteOld _ ([NewSession x type ssl sock] ++ notices r ++ closeUsers (oldUsers r) (-1) 0 ++ [SuspendRecv x] ++ sent ++
      [OkUser user (cstr ip) None data; ResumeRecv x]) []). rewrite app_nil_r, <- !app_assoc. exact He. }
  destruct (removeOld_home a s Hc Ha (mkLinkedAt a s L1 (ex_intro _ d (conj Hd D))) _ user s2 r Er Ho) as (H1 & H2 & H3 & H4).
  assert (Hsent : Forall (fun e => mute e = true) sent).
  { by apply mute_send. }
  assert (Hs : sentTo ss ([NewSession x type ssl sock] ++ notices r ++ closeUsers (oldUsers r) (-1) 0 ++ [SuspendRecv x] ++ sent ++
      [OkUser user (cstr ip) None data; ResumeRecv x] ++ deleteOld (oldSession r)) = sentTo ss (notices r)).
  { rewrite sentTo_app, (sentTo_mute [_]) by (by repeat constructor). cbn [app]. rewrite sentTo_app.
    rewrite (sentTo_mute (closeUsers _ _ _ ++ _)), app_nil_r; [done|]. apply Forall_app. split; [apply mute_closeUsers|]. constructor; [done|].
    apply Forall_app. split; [done|]. do 2 (constructor; [done|]). apply mute_deleteOld. }
  destruct (kickout_about user (sentTo ss (notices r)) H4) as [K1 K2].
  cbn [app] in Hs. split; try (rewrite Hs).
  - intros _. destruct H1 as [M1 (e & M2 & M3)]. split; cbn [m_session2Ctx heap setMaps].
    + by rewrite stl_find_assign_ne.
    + exists e. by rewrite lookup_insert_ne.
  - intros u y Hu. unfold home in Hu. cbn [m_user2Ctx setMaps] in Hu. apply stl_find_assign_iff in Hu as [[-> _]|[_ Hu]]; [done|].
    destruct (H3 u y Hu) as [_ Hu']. by apply (Hn u y).
  - done.
  - intros u _ Hu. right. unfold home in Hu. cbn [m_user2Ctx setMaps] in Hu. apply stl_find_assign_iff in Hu as [[_ <-]|[_ Hu]]; [done|].
    destruct (H3 u a Hu) as [Hne Hu']. split; [|done]. by apply lastAbout_none, K2.
Qed.

Lemma AddSubUser_stepped c2sUser subUser ip i data a s s' l : consistent s -> nonroot s ->
  (active s = true -> linkedAt a s) -> IsRoot subUser = false -> wf subUser ->
  AddSubUser accepts c2sUser subUser ip (loginOkText i subUser) data s = Some (s', l) -> ends ss l = false -> stepped a s s' l.
Proof.
  intros Hc Hn Hl Hr Hw. unfold AddSubUser. destruct (_ || _ || _ || _ || _) eqn:G; [intros [= <- <-] _; by apply stepped_none|].
  apply orb_false_iff in G as [_ Hcs].
  destruct (negb (active s)) eqn:Ha; [intros [= <- <-] _; by apply stepped_none|]. apply negb_false_iff in Ha. specialize (Hl Ha).
  destruct (stl_find c2sUser (m_user2Ctx s)) as [p|] eqn:Ep; [|intros [= <- <-] _; by apply stepped_none].
  destruct (stl_find_pair _ _ _ Ep) as [b ->]. destruct (con_on s Hc Ha) as [R Hcl].
  destruct (heap s !! b) as [c|] eqn:Hb; [|done]. cbn [mbind option_bind].
  destruct (negb (isC2s c) || _) eqn:Gc; [intros [= <- <-] _; by apply stepped_none|].
  apply orb_false_iff in Gc as [_ Eb%negb_false_iff%eqb_spec].
  destruct (removeOld accepts _ subUser s) as [[s2 r]|] eqn:Er; [|done]. cbn [mbind option_bind].
  destruct (heap s2 !! b) as [c2|] eqn:Hb2; [|done]. cbn [mbind option_bind].
  destruct (loginOk_said i subUser Hw) as (T1 & T2 & T3).
  pose proof (fun Hx => sent_control (session c2) c2sUser (loginOkText i subUser) Hx T1 T2) as Hsent. cbn zeta in Hsent.
  set (red := if zlen (stl_insert subUser (subUsers c2)) =? 1 then _ else _). set (sent := snd _) in *. clearbody sent.
  assert (Hred : Forall (fun e => mute e = true) red) by (unfold red; destruct (zlen (stl_insert subUser (subUsers c2)) =? 1); [constructor; [done|constructor]|constructor]). clearbody red.
  intros [= <- <-] He.
  assert (Ho : oldSession r <> Some ss).
  { apply (ends_deleteOld _ (notices r ++ red ++ closeUsers (oldUsers r) (-1) 0 ++ [SuspendRecv (session c2)] ++ sent ++
      [OkUser subUser (cstr ip) (Some c2sUser) data; ResumeRecv (session c2)]) []). rewrite app_nil_r, <- !app_assoc. exact He. }
  destruct (removeOld_home a s Hc Ha Hl _ subUser s2 r Er Ho) as (H1 & H2 & H3 & H4).
  destruct (removeOld_removal accepts (fun o => negb (eqb c2sUser (baseUser o))) subUser s R) as (s3 & r3 & Er3 & Hrem).
  rewrite Er in Er3. injection Er3 as <- <-.
  assert (Hcs' : baseUser c <> subUser).
  { intros E. rewrite Eb, E, (proj2 (eqb_spec _ _)) in Hcs by done. done. }
  destruct (rem_others _ _ _ _ Hrem b c Hb Hcs') as (c3 & Hb3 & E1 & E2 & E3). assert (c3 = c2) as -> by congruence. clear Hb3.
  assert (Hx : session c2 = ss -> c2sUser = C).
  { intros E. rewrite Eb. apply (la_unique a s Hc Ha Hl b c Hb). congruence. }
  specialize (Hsent Hx).
  assert (Hs : sentTo ss (notices r ++ red ++ closeUsers (oldUsers r) (-1) 0 ++ [SuspendRecv (session c2)] ++ sent ++
      [OkUser subUser (cstr ip) (Some c2sUser) data; ResumeRecv (session c2)] ++ deleteOld (oldSession r)) =
      sentTo ss (notices r) ++ sentTo ss sent).
  { rewrite sentTo_app. f_equal. rewrite sentTo_app, (sentTo_mute red) by done.
    rewrite sentTo_app, (sentTo_mute (closeUsers _ _ _)) by apply mute_closeUsers. cbn [app]. unfold sentTo at 1. cbn [omap list_omap].
    fold (sentTo ss (sent ++ OkUser subUser (cstr ip) (Some c2sUser) data :: ResumeRecv (session c2) :: deleteOld (oldSession r))).
    rewrite sentTo_app, (sentTo_mute (_ :: _)), app_nil_r; [done|]. do 2 (constructor; [done|]). apply mute_deleteOld. }
  destruct (kickout_about subUser (sentTo ss (notices r)) H4) as [K1 K2].
  assert (Hin : forall u, u <> subUser -> lastAbout u (said <$> sentTo ss (notices r) ++ sentTo ss sent) = None).
  { intros u Hne. apply lastAbout_none. rewrite fmap_app, about_app, K2 by done. destruct (session c2 =? ss); rewrite Hsent; [|done].
    cbn [fmap list_fmap app]. rewrite control_said, T3 by done. by apply about_other. }
  cbn [app] in Hs. split; try (rewrite Hs).
  - intros _. destruct H1 as [M1 (e & M2 & M3)]. split; cbn [m_session2Ctx heap setMaps]; [done|].
    destruct (decide (b = a)) as [->|Hba]; [|exists e; by rewrite lookup_insert_ne].
    rewrite lookup_insert_eq. eexists. split; [reflexivity|]. cbn. by replace e with c2 in * by congruence.
  - intros u y Hu. unfold home in Hu. cbn [m_user2Ctx setMaps] in Hu. apply stl_find_assign_iff in Hu as [[-> _]|[_ Hu]]; [done|].
    destruct (H3 u y Hu) as [_ Hu']. by apply (Hn u y).
  - apply Forall_app. split; [done|]. destruct (session c2 =? ss); rewrite Hsent; [|constructor]. repeat constructor.
    by exists (loginOkText i subUser).
  - intros u _ Hu. unfold home in Hu. cbn [m_user2Ctx setMaps] in Hu. apply stl_find_assign_iff in Hu as [[-> <-]|[Hne Hu]].
    + left. rewrite fmap_app, lastAbout_app. destruct H1 as [M1 (e & M2 & M3 & _)]. replace e with c2 in * by congruence.
      rewrite (proj2 (Z.eqb_eq _ _) M3) in Hsent. rewrite Hsent. cbn [fmap list_fmap]. rewrite control_said, T3 by done.
      unfold lastAbout. by rewrite about_self.
    + right. destruct (H3 u a Hu) as [_ Hu']. split; [|done]. by apply Hin.
Qed.

(** What a user logs out of. *)
Lemma logout_stepped x st u a s s' l : consistent s -> nonroot s -> (active s = true -> linkedAt a s) -> classId u = SERVER_CID ->
  (x = ss -> u = C) -> ss <> NULL ->
  ProcessMsg_client_logout x st u s = Some (s', l) ->
  stepped a s s' l /\ (forall v, v <> C -> x = ss -> RtpMsgString2User (CProConfigStream.Get TAG_client_id st) = Some v -> ~ home v a s').
Proof.
  intros Hc Hn Hl Hcid Hx Hss. unfold ProcessMsg_client_logout.
  assert (Hnone : forall P : RTP_MSG_USER -> Prop, (forall v, v <> C -> x = ss -> P v -> home v a s -> False) -> Some (s, []) = Some (s', l) ->
    stepped a s s' l /\ (forall v, v <> C -> x = ss -> P v -> ~ home v a s')).
  { intros P HP [= <- <-]. split; [by apply stepped_none|]. intros v H1 H2 H3 H4. by apply (HP v). }
  destruct ((x =? 0) || negb (classId u =? SERVER_CID) || (UserId u =? 0)) eqn:G.
  { apply Hnone. intros v Hv -> _ Hh. rewrite (proj2 (Z.eqb_neq ss 0)) in G by done. rewrite Hcid in G. cbn in G.
    apply Z.eqb_eq in G. rewrite Hx in G by done. destruct (active s) eqn:Ha.
    - destruct (home_wf s Hc Ha C a (la_home_C a s Hc Ha (Hl eq_refl))) as (_ & _ & H). done.
    - destruct (con_off s Hc Ha) as (_ & E & _). unfold home in Hh. by rewrite E in Hh. }
  destruct (RtpMsgString2User _) as [user|] eqn:Eu; [|done]. cbn [mbind option_bind].
  destruct (active s) eqn:Ha.
  2: { destruct (con_off s Hc Ha) as (_ & E & _). cbn [negb].
       destruct ((classId user =? 0) || (UserId user =? 0) || eqb user u); apply Hnone; intros v _ _ _ Hh;
       unfold home in Hh; by rewrite E in Hh. }
  specialize (Hl eq_refl). cbn [negb].
  destruct ((classId user =? 0) || (UserId user =? 0) || eqb user u) eqn:G2.
  { apply Hnone. intros v Hv E [= <-] Hh. destruct (home_wf s Hc Ha _ _ Hh) as (_ & H1 & H2).
    rewrite (proj2 (Z.eqb_neq _ _) H1), (proj2 (Z.eqb_neq _ _) H2) in G2. apply eqb_spec in G2. rewrite (Hx E) in G2. done. }
  apply orb_false_iff in G2 as [_ Gu]. pose proof Hl as [L1 (d & Hd & D1 & D2 & D3)].
  destruct (stl_find user (m_user2Ctx s)) as [p|] eqn:Ep.
  2: { apply Hnone. intros v _ _ [= <-] Hh. unfold home in Hh. congruence. }
  destruct (stl_find_pair _ _ _ Ep) as [b ->]. destruct (heap s !! b) as [c|] eqn:Hb; [|done]. cbn [mbind option_bind].
  destruct (negb (isC2s c) || negb (eqb u (baseUser c))) eqn:Gc.
  { apply Hnone. intros v _ E [= <-] Hh. unfold home in Hh. assert (b = a) as -> by congruence. replace c with d in * by congruence.
    rewrite D3, D2, (Hx E), (proj2 (eqb_spec _ _)) in Gc by done. done. }
  pose proof (reg_users _ _ _ (la_registry s Hc Ha)) as Hsu.
  intros [= <- <-]. split; [|intros v _ _ [= <-] Hh; unfold home in Hh; cbn [m_user2Ctx setMaps] in Hh; by apply stl_find_erase_iff in Hh as [? _]].
  split; cbn [active setMaps].
  - intros _. split; cbn [m_session2Ctx heap setMaps]; [done|]. destruct (decide (b = a)) as [->|Hba].
    + rewrite lookup_insert_eq. eexists. split; [reflexivity|]. cbn. by replace d with c in * by congruence.
    + exists d. by rewrite lookup_insert_ne.
  - intros v y Hv. unfold home in Hv. cbn [m_user2Ctx setMaps] in Hv. apply stl_find_erase_iff in Hv as [_ Hv]; [|done]. by apply (Hn v y).
  - constructor.
  - intros v _ Hv. right. split; [done|]. unfold home in Hv. cbn [m_user2Ctx setMaps] in Hv. by apply stl_find_erase_iff in Hv as [_ Hv].
Qed.

Lemma AsyncOnCloseSession_stepped x e1 e2 a s s' l : consistent s -> nonroot s -> (active s = true -> linkedAt a s) ->
  AsyncOnCloseSession x e1 e2 s = Some (s', l) -> ends ss l = false -> stepped a s s' l.
Proof.
  intros Hc Hn Hl. unfold AsyncOnCloseSession. destruct (active s) eqn:Ha; cbn [negb].
  2: { intros [= <- <-] _. apply stepped_none; [done|congruence]. }
  specialize (Hl eq_refl). destruct (stl_find x (m_session2Ctx s)) as [p|] eqn:Ex.
  2: { intros [= <- <-] _. by apply stepped_none. }
  destruct (stl_find_pair _ _ _ Ex) as [b ->]. destruct (heap s !! b) as [c|] eqn:Hb; [|done]. cbn [mbind option_bind].
  intros [= <- <-] He. assert (Hx : x <> ss).
  { intros ->. rewrite ends_app in He. apply orb_false_iff in He as [_ He]. cbn in He. by rewrite Z.eqb_refl in He. }
  pose proof (la_registry s Hc Ha) as R. pose proof (reg_users _ _ _ R) as Hsu. destruct Hl as [L1 (d & Hd & D)].
  assert (Hba : b <> a).
  { intros ->. apply Hx. destruct (proj1 (reg_session _ _ _ R x a) Ex) as (c' & Hc' & <-). destruct D as [<- _]. congruence. }
  assert (Hsent : sentTo ss (closeUsers (stl_insert (baseUser c) (subUsers c)) e1 e2 ++ [DeleteSession x]) = []).
  { rewrite sentTo_app, sentTo_mute by apply mute_closeUsers. done. }
  split; rewrite ?Hsent.
  - intros _. split; cbn [m_session2Ctx heap setMaps]; [by rewrite stl_find_erase_ne|]. exists d. by rewrite lookup_delete_ne.
  - intros v y Hv. unfold home in Hv. cbn [m_user2Ctx setMaps] in Hv. apply find_eraseUsers in Hv as [_ Hv]; [|done]. by apply (Hn v y).
  - constructor.
  - intros v _ Hv. right. split; [done|]. unfold home in Hv. cbn [m_user2Ctx setMaps] in Hv. by apply find_eraseUsers in Hv as [_ Hv].
Qed.

Lemma stepped_more a s s' l l2 : stepped a s s' l -> Forall (fun e => mute e = true) l2 -> stepped a s s' (l ++ l2).
Proof.
  intros [H1 H2 H3 H4] Hm. split; try done; by rewrite sentTo_app, (sentTo_mute l2), app_nil_r.
Qed.

Lemma nonroot_set id i u : wf u -> NODE_UID_MIN <= id <= NODE_UID_MAXX -> id <> 1 -> IsRoot (setInstId i (setUserId id u)) = false.
Proof.
  intros Hw Hr H1. change NODE_UID_MIN with 1 in Hr. change NODE_UID_MAXX with (2 ^ 40 - 1) in Hr. unfold IsRoot.
  replace (UserId (setInstId i (setUserId id u))) with (UserId (setUserId id u)) by done.
  rewrite UserId_set by (done || lia). rewrite (proj2 (Z.eqb_neq _ _) H1). apply andb_false_r.
Qed.

Lemma onCheckBase_stepped new ans arg user a s s' l : consistent s -> nonroot s -> (active s = true -> linkedAt a s) -> wf user ->
  userId ans <> 1 ->
  match new with Some (x, b) => stl_find x (m_session2Ctx s ++ closing s) = None /\ heap s !! b = None | None => True end ->
  onCheckBase accepts inet_aton new ans arg user s = Some (s', l) -> ends ss l = false -> stepped a s s' l.
Proof.
  intros Hc Hn Hl Hw Hid Hnew. unfold onCheckBase. destruct (negb (accepted ans)).
  { intros [= <- <-] _. by apply stepped_mute; [..|repeat constructor]. }
  destruct (_ || _) eqn:G. { intros [= <- <-] _. by apply stepped_mute; [..|repeat constructor]. }
  apply orb_false_iff in G as [G1%Z.ltb_ge G2]. rewrite Z.gtb_ltb in G2. apply Z.ltb_ge in G2.
  destruct (AddBaseUser _ _ _ _ _ _ _ _ _ _ _) as [[[ret s2] effects]|] eqn:E; [|done]. intros [= <- <-] He.
  rewrite ends_app in He. apply orb_false_iff in He as [He _]. apply stepped_more; [|destruct ret; by repeat constructor].
  eapply AddBaseUser_stepped; [done|done|done| |exact Hnew|exact E|done]. by apply nonroot_set.
Qed.

Lemma loginError_stepped x u i a s : nonroot s -> (active s = true -> linkedAt a s) -> (x = ss -> u = C) ->
  stepped a s s (loginError accepts x u i).
Proof.
  intros Hn Hl Hx. destruct (loginError_said i) as (T1 & T2 & T3). pose proof (sent_control x u (loginErrorText i) Hx T1 T2) as Hs.
  cbn zeta in Hs. fold (loginError accepts x u i) in Hs. change (snd (SendMsgToDownlink accepts [x] (loginErrorText i) 0 ROOT_ID_C2S [u] None)) with (loginError accepts x u i) in Hs.
  destruct (x =? ss); (apply stepped_relay; [done..| |]); rewrite Hs; [|intros v|constructor|done].
  - constructor; [|constructor]. left. by exists (loginErrorText i).
  - cbn [fmap list_fmap]. by rewrite control_said, T3.
Qed.

Lemma onCheckSub_stepped ans x u user i ip a s s' l : consistent s -> nonroot s -> (active s = true -> linkedAt a s) -> wf user ->
  (x = ss -> u = C) -> userId ans <> 1 -> 0 <= newInstId ans < 2 ^ 16 ->
  onCheckSub accepts ans x u user i ip s = Some (s', l) -> ends ss l = false -> stepped a s s' l.
Proof.
  intros Hc Hn Hl Hw Hx Hid Hi. unfold onCheckSub. destruct (negb (accepted ans)).
  { intros [= <- <-] _. by apply loginError_stepped. }
  destruct (_ || _) eqn:G. { intros [= <- <-] _. by apply loginError_stepped. }
  apply orb_false_iff in G as [G _]. apply orb_false_iff in G as [G1%Z.ltb_ge G2]. rewrite Z.gtb_ltb in G2. apply Z.ltb_ge in G2.
  apply AddSubUser_stepped; try done; [by apply nonroot_set|]. by apply setInstId_wf, setUserId_wf.
Qed.

(** *** Relays *)

Lemma sentTo_along r buf charset src : wf src -> Forall (fun m => ofBytes 4 m = src) (sentTo ss (snd (sendAlong accepts r buf charset src))).
Proof.
  intros Hw. unfold sendAlong. cbn [snd]. rewrite sentTo_app. apply Forall_app. split; [case_match; [constructor|by apply sent_downlink]|].
  rewrite map_map. induction (session2Users r) as [|e l IH]; [constructor|]. cbn [map concat]. rewrite sentTo_app.
  apply Forall_app. split; [by apply sent_downlink|exact IH].
Qed.

Lemma SendMsg_stepped buf charset dsts a s b l : nonroot s -> (active s = true -> linkedAt a s) ->
  SendMsg accepts buf charset dsts s = Some (b, l) -> stepped a s s l.
Proof.
  intros Hn Hl. unfold SendMsg. destruct (_ || _); [intros [= _ <-]; by apply stepped_none|].
  destruct (negb _); [intros [= _ <-]; by apply stepped_none|].
  destruct (routeAll s dsts _) as [[found r]|]; [|done]. cbn [mbind option_bind].
  pose proof (sentTo_along r buf charset ROOT_ID (proj1 (proj2 root_wf))) as Hs.
  destruct (sendAlong accepts r buf charset ROOT_ID) as [sent effects]. intros [= _ <-].
  destruct (relayed ROOT_ID _ (or_intror eq_refl) Hs) as [H1 H2]. by apply stepped_relay.
Qed.

Lemma fromC2s_state x src c body s s' : fromC2s x src c body s = Some s' ->
  s' = s \/ exists st, s' = Put (CRecv x st (baseUser c)) s.
Proof.
  unfold fromC2s. destruct (negb (isC2s c) || negb (classId src =? SERVER_CID) || negb (eqb src (baseUser c))) eqn:G; [intros [= <-]; by left|].
  apply orb_false_iff in G as [_ ->%negb_false_iff%eqb_spec].
  destruct (CProConfigStream.StringToConfigs body) as [[ok configs]|]; [|done]. cbn [mbind option_bind].
  destruct (negb ok); [intros [= <-]; by left|]. cbn zeta. destruct (sameText _ MSG_client_login).
  - destruct (_ >=? _); intros [= <-]; [by left|right; by eexists].
  - destruct (sameText _ _); intros [= <-]; [right; by eexists|by left].
Qed.

(** What a packet of a session does. *)
Lemma OnRecvSession_state x m s s' l : consistent s -> nonroot s -> OnRecvSession accepts x m s = Some (s', l) ->
  (s' = s \/ exists st c b, heap s !! b = Some c /\ session c = x /\ s' = Put (CRecv x st (baseUser c)) s) /\
  (sentTo ss l = [] \/ exists src, IsRoot src = false /\ Forall (fun m => ofBytes 4 m = src) (sentTo ss l)).
Proof.
  intros Hc Hn. unfold OnRecvSession.
  assert (Hnone : Some (s, []) = Some (s', l) -> (s' = s \/ exists st c b, heap s !! b = Some c /\ session c = x /\ s' = Put (CRecv x st (baseUser c)) s) /\
    (sentTo ss l = [] \/ exists src, IsRoot src = false /\ Forall (fun m => ofBytes 4 m = src) (sentTo ss l))).
  { intros [= <- <-]. split; by left. }
  destruct (_ || _); [done|]. set (count := if load 1 15 m =? 0 then _ else _). cbn zeta.
  set (src := ofBytes 4 m). set (hs := sizeof_RTP_MSG_HEADER + _). set (bs := u64 _). set (charset := pbsd_ntoh32 _).
  destruct (_ || _); [done|]. destruct (active s) eqn:Ha; cbn [negb]; [|done].
  destruct (stl_find x (m_session2Ctx s)) as [p|] eqn:Ex; [|done]. destruct (stl_find_pair _ _ _ Ex) as [b ->].
  destruct (heap s !! b) as [c|] eqn:Hb; [|done]. cbn [mbind option_bind].
  destruct (negb _ && _) eqn:G; [done|]. pose proof (la_registry s Hc Ha) as R.
  assert (Hm : member src c).
  { apply andb_false_iff in G as [G%negb_false_iff%eqb_spec|G%bool_decide_eq_false]; [by left|right].
    destruct (stl_find src (subUsers c)) as [v|] eqn:Ef; [|done]. apply stl_find_Some_elem in Ef as [Hin Hk]. change (v = src) in Hk. by subst. }
  assert (Hw : wf src) by (by apply (ok_wf c (reg_ok _ _ _ R b c Hb))).
  assert (Hr : IsRoot src = false) by (apply (Hn src b), (reg_member _ _ _ R b c src Hb Hm)).
  assert (Hx : session c = x) by (destruct (proj1 (reg_session _ _ _ R x b) Ex) as (c' & ? & <-); congruence).
  clear Hnone. clearbody src bs hs charset.
  destruct (routeRecv _ _ _ _ _ _ _) as [[[toRoot toC2s] r]|]; [|done].
  set (effects := match sessions r, session2Users r with [], [] => _ | _, _ => _ end).
  assert (He : forall l, effects = Some l -> Forall (fun m => ofBytes 4 m = src) (sentTo ss l)).
  { intros l2. unfold effects. destruct (sessions r), (session2Users r); [intros [= <-]; constructor|..];
      (destruct (readBody hs (u16 bs) m); [|done]); intros [= <-]; by apply sentTo_along. }
  clearbody effects. destruct effects as [l2|]; [|done]. specialize (He l2 eq_refl). cbn [mbind option_bind].
  assert (Hs : forall o, (if (toC2s : bool) then body ← readBody hs bs m; fromC2s x src c body s else Some s) = Some o ->
    o = s \/ exists st c b, heap s !! b = Some c /\ session c = x /\ o = Put (CRecv x st (baseUser c)) s).
  { intros o. destruct toC2s; [|intros [= <-]; by left]. destruct (readBody hs bs m) as [body|]; [|done]. cbn [mbind option_bind].
    intros [?|[st Hst]]%fromC2s_state; [by left|right]. by exists st, c, b. }
  destruct (if (toC2s : bool) then _ else _) as [o|]; [|done]. specialize (Hs o eq_refl). cbn [mbind option_bind].
  destruct toRoot; [destruct (readBody hs (u16 bs) m); [|done]|]; intros [= <- <-]; (split; [done|right; exists src; split; [done|]]); [|done].
  rewrite sentTo_app. apply Forall_app. split; [done|constructor].
Qed.

Lemma OnRecvSession_stepped x m a s s' l : consistent s -> nonroot s -> (active s = true -> linkedAt a s) ->
  OnRecvSession accepts x m s = Some (s', l) -> consistent s' /\ stepped a s s' l.
Proof.
  intros Hc Hn Hl E. destruct (OnRecvSession_state x m s s' l Hc Hn E) as [H1 H2]. split.
  - destruct H1 as [->|(st & c & b & Hb & _ & ->)]; [done|]. apply consistent_Put; [done|]. cbn.
    destruct (active s) eqn:Ha.
    + apply (ok_wf c (reg_ok _ _ _ (la_registry s Hc Ha) b c Hb)). by left.
    + unfold OnRecvSession in E. rewrite Ha in E. cbn [negb] in E. destruct (_ || _) in E; [|destruct (_ || _) in E];
        injection E as E _; apply (f_equal commands) in E; cbn in E; by apply (f_equal length) in E; rewrite length_app in E; cbn in E; lia.
  - assert (Hs : Forall (sendOk C) (sentTo ss l) /\ forall u, about u (said <$> sentTo ss l) = []).
    { destruct H2 as [->|(src & Hr & Hf)]; [by split; [constructor|]|]. by apply (relayed src); [left|]. }
    destruct Hs as [S1 S2]. destruct H1 as [->|(st & c & b & Hb & _ & ->)]; by apply stepped_relay.
Qed.

(** *** The task *)

Definition sameTask (s s' : t) : Prop := commands s' = commands s /\ checking s' = checking s.
Lemma removeUser_task notify u b s s' r : removeUser accepts notify u b s = Some (s', r) -> sameTask s s'.
Proof. unfold removeUser. destruct (heap s !! b) as [c|]; [|done]. cbn. by case_match; intros [= <- <-]. Qed.
Lemma removeOld_task notify u s s' r : removeOld accepts notify u s = Some (s', r) -> sameTask s s'.
Proof. unfold removeOld. destruct (stl_find u _) as [[v b]|]; [apply removeUser_task|by intros [= <- <-]]. Qed.

Ltac same_task :=
  repeat match goal with
  | |- context [if ?c then _ else _] => destruct c
  | |- context [match stl_find ?u ?m with _ => _ end] => destruct (stl_find u m) as [[? ?]|]
  | |- context [heap ?s !! ?b] => destruct (heap s !! b); [|done]
  | |- context [removeUser ?x ?y ?u ?b ?s] => let E := fresh in destruct (removeUser x y u b s) as [[? ?]|] eqn:E; [apply removeUser_task in E|done]
  | |- context [removeOld ?x ?y ?u ?s] => let E := fresh in destruct (removeOld x y u s) as [[? ?]|] eqn:E; [apply removeOld_task in E|done]
  | |- context [match ?o with Some _ => _ | None => _ end] => destruct o as [[? ?]|]
  | _ => progress cbn [mbind option_bind]
  end; try (intros [= <- <-]; done); try (intros [= <- <- <-]; done).

Lemma AsyncKickoutUser_task cid uid iid s s' l : AsyncKickoutUser accepts cid uid iid s = Some (s', l) -> sameTask s s'.
Proof. unfold AsyncKickoutUser. same_task. Qed.
Lemma AddBaseUser_task new type ssl sock u ip data c2s s ret s' l :
  AddBaseUser accepts inet_aton new type ssl sock u ip data c2s s = Some (ret, s', l) -> sameTask s s'.
Proof. unfold AddBaseUser. same_task. Qed.
Lemma AddSubUser_task c u ip text data s s' l : AddSubUser accepts c u ip text data s = Some (s', l) -> sameTask s s'.
Proof. unfold AddSubUser. same_task. Qed.
Lemma AsyncOnCloseSession_task x e1 e2 s s' l : AsyncOnCloseSession x e1 e2 s = Some (s', l) -> sameTask s s'.
Proof. unfold AsyncOnCloseSession. same_task. Qed.
Lemma logout_task x st u s s' l : ProcessMsg_client_logout x st u s = Some (s', l) -> sameTask s s'.
Proof. unfold ProcessMsg_client_logout. destruct (_ || _ || _); [by intros [= <- <-]|]. destruct (RtpMsgString2User _); [|done]. same_task. Qed.
Lemma onCheckBase_task new ans arg u s s' l : onCheckBase accepts inet_aton new ans arg u s = Some (s', l) -> sameTask s s'.
Proof.
  unfold onCheckBase. destruct (negb _); [by intros [= <- <-]|]. destruct (_ || _); [by intros [= <- <-]|].
  destruct (AddBaseUser _ _ _ _ _ _ _ _ _ _ _) as [[[ret s2] l2]|] eqn:E; [|done]. apply AddBaseUser_task in E. by intros [= <- <-].
Qed.
Lemma onCheckSub_task ans x c u i ip s s' l : onCheckSub accepts ans x c u i ip s = Some (s', l) -> sameTask s s'.
Proof.
  unfold onCheckSub. destruct (negb _); [by intros [= <- <-]|]. destruct (_ || _); [by intros [= <- <-]|]. apply AddSubUser_task.
Qed.

(** A login goes to the observer. *)
Record asked (s s' : t) (l : list effect) (P : check -> Prop) : Prop := mkAsked {
  as_active : active s' = active s;
  as_sessions : m_session2Ctx s' = m_session2Ctx s;
  as_users : m_user2Ctx s' = m_user2Ctx s;
  as_heap : heap s' = heap s;
  as_commands : commands s' = commands s;
  as_check : checking s' = checking s \/ exists c, checking s' = Some c /\ P c;
  as_mute : Forall (fun e => mute e = true) l
}.

Lemma asked_stepped a s s' l P : nonroot s -> (active s = true -> linkedAt a s) -> asked s s' l P -> stepped a s s' l.
Proof. intros Hn Hl [H1 H2 H3 H4 H5 H6 H7]. by apply stepped_mute. Qed.
Lemma asked_none s l P : Forall (fun e => mute e = true) l -> asked s s l P.
Proof. intros H. split; try done. by left. Qed.

Lemma assignId_asked u s (P : check -> Prop) (ask : RTP_MSG_USER -> check) l : (forall v, P (ask v)) -> Forall (fun e => mute e = true) l ->
  asked s (setTask (commands (snd (assignId u s))) (Some (ask (fst (assignId u s)))) (snd (assignId u s))) l P.
Proof.
  intros HP Hl. unfold assignId. destruct (UserId u =? 0); [destruct (classId u =? SERVER_CID); destruct (MakeId _)|];
    (split; try done; right; eexists; split; [reflexivity|apply HP]).
Qed.

Lemma login_asked x st u s s' l : ProcessMsg_client_login x st u s = Some (s', l) ->
  asked s s' l (fun c => exists user i ip, c = CheckSub x u user i ip).
Proof.
  pose proof (asked_none s [] (fun c => exists user i ip, c = CheckSub x u user i ip) (List.Forall_nil _)) as H0.
  unfold ProcessMsg_client_login. destruct (_ || _ || _); [by intros [= <- <-]|].
  destruct (CProConfigStream.GetUint _ _) as [i|]; [|done]. destruct (CProConfigStream.GetUint64 _ _) as [n|]; [|done].
  destruct (RtpMsgString2User _) as [user|]; [|done]. cbn [mbind option_bind].
  destruct (badLogin user || eqb user u); [by intros [= <- <-]|]. destruct (negb _); [by intros [= <- <-]|].
  destruct (negb _); [by intros [= <- <-]|]. set (h := hashOf _). set (ip := CProConfigStream.Get _ _).
  pose proof (fun l => assignId_asked user s (fun c => exists user i ip, c = CheckSub x u user i ip) (fun v => CheckSub x u v i ip) l) as H.
  destruct (assignId user s) as [user' s2]. intros [= <- <-]. apply H; [by repeat eexists|by repeat constructor].
Qed.

Lemma accept_asked arg s : asked s (fst (AsyncOnAcceptSession arg s)) (snd (AsyncOnAcceptSession arg s)) (fun c => exists user, c = CheckBase arg user).
Proof.
  assert (H0 : asked s s [CloseSocket (sslCtx arg) (sockId arg)] (fun c => exists user, c = CheckBase arg user)) by (apply asked_none; by repeat constructor).
  unfold AsyncOnAcceptSession. cbn zeta. destruct (if negb _ then _ else _); [done|]. destruct (badLogin _); [done|]. destruct (negb _); [done|].
  set (u := ofBytes 4 _).
  pose proof (fun l => assignId_asked u s (fun c => exists user, c = CheckBase arg user) (CheckBase arg) l) as H.
  destruct (assignId u s) as [user' s2]. apply H; [by repeat eexists|by repeat constructor].
Qed.

(** *** Every event *)

Record served (a : Z) (s s' : t) (l : list effect) : Prop := mkServed {
  sv_step : stepped a s s' l;
  sv_queued : queued s';
  sv_kept : forall u, u <> C -> home u a s' -> atServer k u s -> atServer k u s'
}.

Lemma served_same a s s' l : queued s -> sameTask s s' -> stepped a s s' l -> served a s s' l.
Proof.
  intros [Q1 Q2] [E1 E2] H. split; [done|by split; rewrite ?E1, ?E2|]. intros u _ _ (st & Hst & Hu). exists st. by rewrite E1.
Qed.
Lemma served_Put a s c : queued s -> nonroot s -> (active s = true -> linkedAt a s) ->
  match c with CRecv x _ u => x = ss -> u = C | _ => True end -> served a s (Put c s) [].
Proof.
  intros [Q1 Q2] Hn Hl Hc. split; [by apply stepped_mute| |].
  - split; [|done]. apply Forall_app. by repeat constructor.
  - intros u _ _ (st & Hst & Hu). exists st. split; [|done]. cbn. apply elem_of_app. by left.
Qed.
Lemma served_mute a s s' l l2 : served a s s' l -> Forall (fun e => mute e = true) l2 -> served a s s' (l ++ l2).
Proof. intros [H1 H2 H3] Hm. split; [by apply stepped_more|done|done]. Qed.

Lemma linkedAt_task a cs c s : linkedAt a s -> linkedAt a (setTask cs c s).
Proof. intros [H1 H2]. by split. Qed.
Lemma stepped_task a cs c s s' l : stepped a (setTask cs c s) s' l -> stepped a s s' l.
Proof. intros [H1 H2 H3 H4]. by split. Qed.
Lemma stepped_gone a s s' : active s' = false -> m_user2Ctx s' = [] -> stepped a s s' [].
Proof. intros H1 H2. split; [congruence| |constructor|]; unfold nonroot, home; rewrite H2; [intros u x Hx; discriminate Hx|intros u _ Hu; discriminate Hu]. Qed.

Lemma asked_served a s s' l P : queued s -> nonroot s -> (active s = true -> linkedAt a s) -> asked s s' l P ->
  (forall x u user i ip, P (CheckSub x u user i ip) -> x = ss -> u = C) -> served a s s' l.
Proof.
  intros [Q1 Q2] Hn Hl H HP. split; [by eapply asked_stepped|split|].
  - by rewrite (as_commands _ _ _ _ H).
  - destruct (as_check _ _ _ _ H) as [->|(c & -> & Hc)]; [done|]. destruct c; [done|]. intros E. by eapply HP.
  - intros u _ _ (st & Hst & Hu). exists st. by rewrite (as_commands _ _ _ _ H).
Qed.

Lemma sameText_same a b c : sameText a b = true -> sameText a c = sameText b c.
Proof. unfold sameText. intros H%bool_decide_eq_true. by rewrite H. Qed.

Section handlers.
Hypothesis Hcid : classId C = SERVER_CID.
Hypothesis Hss : ss <> NULL.

Lemma execute_served c a s s' l : consistent s -> queued s -> nonroot s -> (active s = true -> linkedAt a s) ->
  match c with CRecv x _ u => x = ss -> u = C | _ => True end ->
  execute accepts c s = Some (s', l) -> ends ss l = false ->
  served a s s' l /\ forall u st, c = CRecv ss st C -> logsOut u st -> u <> C -> ~ home u a s'.
Proof.
  intros Hc Hq Hn Hl Hcmd. destruct c as [cid uid iid|arg|x st u|x e1 e2]; cbn [execute]; intros E He.
  - split; [|done]. apply served_same; [done|by eapply AsyncKickoutUser_task|by eapply AsyncKickoutUser_stepped].
  - pose proof (accept_asked arg s) as H. destruct (AsyncOnAcceptSession arg s) as [s2 l2]. injection E as <- <-. cbn [fst snd] in H.
    split; [|done]. eapply asked_served; [done..|exact H|]. by intros * [? [=]].
  - unfold AsyncOnRecvSession in E. destruct (sameText _ MSG_client_login) eqn:E1.
    { apply login_asked in E. split; [eapply asked_served; [done..|exact E|]|].
      - intros x2 u2 * (? & ? & ? & [= -> -> -> -> ->]). done.
      - intros v st2 [= -> -> ->] [H1 _]. rewrite (sameText_same _ _ _ H1) in E1. done. }
    destruct (sameText _ MSG_client_logout) eqn:E2.
    2: { injection E as <- <-. split; [apply served_same; [done|done|by apply stepped_none]|].
         intros v st2 [= -> -> ->] [H1 _]. congruence. }
    destruct (Z.eq_dec (classId u) SERVER_CID) as [Hu|Hu].
    + pose proof (logout_task _ _ _ _ _ _ E) as Ht. destruct (logout_stepped x st u a s s' l Hc Hn Hl Hu Hcmd Hss E) as [H1 H2].
      split; [by apply served_same|]. intros v st2 [= -> -> ->] [_ H3] Hv. by apply H2.
    + unfold ProcessMsg_client_logout in E. rewrite (proj2 (Z.eqb_neq _ _) Hu), orb_true_r in E. cbn in E. injection E as <- <-.
      split; [apply served_same; [done|done|by apply stepped_none]|]. intros v st2 [= -> -> ->]. done.
  - split; [|done]. apply served_same; [done|by eapply AsyncOnCloseSession_task|by eapply AsyncOnCloseSession_stepped].
Qed.

(** A step of the server, with what comes from outside. *)
Lemma handle_served e a s s' l : consistent s -> queued s -> nonroot s -> (active s = true -> linkedAt a s) ->
  match e with Recv _ _ => True | Answer ans _ => enabled e s /\ userId ans <> 1 | _ => True end ->
  handle accepts inet_aton e s = Some (s', l) -> ends ss l = false -> served a s s' l.
Proof.
  intros Hc Hq Hn Hl He E Hends. assert (H0 : served a s s []) by (apply served_same; [done|done|by apply stepped_none]).
  destruct e; cbn [handle] in E.
  - injection E as <- <-. unfold KickoutUser. destruct (_ || _); [done|]. by apply served_Put.
  - destruct (SendMsg _ _ _ _ _) as [[b l2]|] eqn:Es; [|done]. injection E as <- <-. apply served_same; [done|done|].
    by eapply SendMsg_stepped.
  - injection E as <- <-. unfold setRedline. destruct (_ =? 0); [done|]. destruct (negb _); [done|].
    apply served_same; [done|done|by apply stepped_mute].
  - injection E as E. unfold OnAcceptSession in E. destruct (_ || _); [by injection E as <- <-|].
    destruct (_ || _); injection E as <- <-; [|by apply served_Put]. apply (served_mute a s s []); [done|by repeat constructor].
  - destruct (OnRecvSession_stepped _ _ a s s' l Hc Hn Hl E) as [_ H]. destruct (OnRecvSession_state _ _ s s' l Hc Hn E) as [Hs _].
    split; [done|..].
    + destruct Hs as [->|(st & c & b & Hb & Hx & ->)]; [done|]. destruct Hq as [Q1 Q2]. split; [|done]. apply Forall_app. split; [done|].
      constructor; [|constructor]. intros ->. unfold OnRecvSession in E.
      destruct (active s) eqn:Ha; [by apply (la_unique a s Hc Ha (Hl eq_refl) b c Hb)|]. cbn [negb] in E.
      destruct (_ || _) in E; [|destruct (_ || _) in E];
        injection E as E _; apply (f_equal commands) in E; cbn in E; apply (f_equal length) in E; rewrite length_app in E; cbn in E; lia.
    + intros u _ _ (st & Hst & Hu). exists st. split; [|done]. destruct Hs as [->|(st2 & c & b & _ & _ & ->)]; [done|].
      cbn. apply elem_of_app. by left.
  - injection E as <- <-. unfold OnCloseSession. destruct (_ || _); [done|]. by apply served_Put.
  - destruct (checking s) eqn:Ek; [by injection E as <- <-|]. destruct (commands s) as [|c cs] eqn:Ec; [by injection E as <- <-|].
    destruct Hq as [Q1 Q2]. pose proof (con_commands s Hc) as Hcs. rewrite Ec in Hcs, Q1. apply Forall_cons in Hcs as [_ Hcs], Q1 as [Q0 Q1].
    destruct (execute_served c a (setTask cs None s) s' l) as [[H1 H2 H3] H4]; try done.
    { by apply consistent_task. } { intros Ha. by apply linkedAt_task, Hl. }
    split; [by eapply stepped_task|done|]. intros u Hu Hh (st & Hst & Hlog). rewrite Ec in Hst. apply elem_of_cons in Hst as [<-|Hst].
    + by destruct (H4 u st eq_refl Hlog Hu).
    + apply H3; [done|done|]. by exists st.
  - destruct (checking s) as [c|] eqn:Ek; [|by injection E as <- <-]. pose proof (con_check s Hc c Ek) as Hck.
    destruct Hq as [Q1 Q2]. rewrite Ek in Q2. destruct He as [(_ & Hi & Hnew) Hid].
    assert (Hc' : consistent (setTask (commands s) None s)) by (apply consistent_task; [done|by apply con_commands|done]).
    assert (Hl' : active (setTask (commands s) None s) = true -> linkedAt a (setTask (commands s) None s)) by (intros Ha; by apply linkedAt_task, Hl).
    assert (H : served a (setTask (commands s) None s) s' l).
    { destruct c as [arg u|x c u i ip].
      - apply served_same; [done|by eapply onCheckBase_task|]. eapply onCheckBase_stepped; [done|done|done|apply Hck|done|exact Hnew|done|done].
      - apply served_same; [done|by eapply onCheckSub_task|]. eapply onCheckSub_stepped; [done|done|done|apply Hck|done|done|done|done|done]. }
    destruct H as [H1 H2 H3]. split; [by eapply stepped_task|done|exact H3].
  - injection E as <- <-. unfold FiniBegin. destruct (negb _); [done|]. apply served_same; [done|done|by apply stepped_gone].
  - destruct (active s) eqn:Ha; [by injection E as <- <-|]. destruct (commands s) eqn:Ec; [|by injection E as <- <-].
    destruct (checking s) eqn:Ek; [by injection E as <- <-|]. injection E as <- <-. destruct (con_off s Hc Ha) as (_ & E & _).
    apply (served_mute a s _ []); [|apply Forall_fmap, Forall_true; done]. apply served_same; [done|done|by apply stepped_gone].
Qed.
(** A report of the c2s is queued. *)
Lemma report_received u a s s' l : consistent s -> active s = true -> linkedAt a s -> wf u ->
  OnRecvSession accepts ss (report C u) s = Some (s', l) -> atServer k u s'.
Proof.
  intros Hc Ha Hl Hu. destruct (logout_read u Hu) as (st & configs & _ & Hne & Hlen & Hcfg & Hlog).
  change (report C u) with (packet C ROOT_ID_C2S (CRtpMsgC2s.logoutText u)). set (text := CRtpMsgC2s.logoutText u) in *.
  destruct (packet_ok C ROOT_ID_C2S text HC (proj1 root_wf)) as [R1 R2 R3 R4 R5 R6]. set (m := packet _ _ _) in *. clearbody m.
  assert (Ht : 0 < zlen text) by (pose proof (zlen_nonneg text); assert (zlen text <> 0) by (intros E%zlen_zero; done); lia).
  destruct (home_wf s Hc Ha C a (la_home_C a s Hc Ha Hl)) as (_ & Z1 & Z2). destruct Hl as [L1 (d & Hd & D1 & D2 & D3)].
  unfold OnRecvSession. rewrite R2, R3. unfold sizeof_RTP_MSG_HEADER, sizeof_RTP_MSG_USER.
  rewrite (proj2 (Z.eqb_neq ss 0)) by done. rewrite (proj2 (Z.leb_gt (zlen m) 24)) by lia. cbn [orb].
  change (1 =? 0) with false. cbn iota zeta. change (24 + 8 * (1 - 1)) with 24.
  assert (Hsz : u64 (zlen m - 24) = zlen text) by (rewrite R1; rewrite wrap_small; lia). rewrite Hsz.
  rewrite !(proj2 (Z.eqb_neq _ _)) by (done || lia). cbn [orb]. rewrite Ha, L1, Hd. cbn [negb mbind option_bind].
  rewrite D2, (proj2 (eqb_spec C C)) by done. cbn [negb andb].
  change (Z.to_nat 1) with 1%nat. cbn [routeRecv]. change (16 + sizeof_RTP_MSG_USER * 0) with 16. unfold readUser, sizeof_RTP_MSG_USER.
  rewrite (proj2 (Z.leb_le (16 + 8) _)) by lia. rewrite R4. cbn [mbind option_bind].
  change ((classId ROOT_ID_C2S =? 0) || (UserId ROOT_ID_C2S =? 0)) with false. change (IsRoot ROOT_ID_C2S) with true.
  change (instId ROOT_ID_C2S =? instId ROOT_ID_C2S) with true. cbn iota. cbn [sessions session2Users mbind option_bind].
  unfold readBody. rewrite (proj2 (Z.leb_le _ _)) by lia. rewrite R6. cbn [mbind option_bind].
  unfold fromC2s. rewrite D3, D2, (proj2 (Z.eqb_eq _ _) Hcid), (proj2 (eqb_spec C C)) by done. cbn [negb orb]. rewrite Hcfg.
  cbn [mbind option_bind negb]. destruct Hlog as [G1 G2]. rewrite (sameText_same _ _ _ G1).
  change (sameText MSG_client_logout MSG_client_login) with false. cbn iota. rewrite G1. cbn [mbind option_bind].
  intros [= <- <-]. exists (CProConfigStream.AddItems configs CProConfigStream.init). split; [|by split].
  cbn. apply elem_of_app. right. by apply list_elem_of_singleton.
Qed.
End handlers.

End server.
End ServerLemmas.
