(* ===== verification/MsgAgreement.v ===== *)
(** * The server and the c2s agree on the users

    In the system of [MsgSystem], started when a c2s has logged in: whomever the server
    holds registered behind the c2s is a user of the c2s, or a message about that user is
    still on its way that will settle it.  Nobody stays registered at the server whom the
    c2s does not know.  The converse does not hold ([zombie]). *)

From S2P Require Import Prelude RefCount StlMap Bytes Bsd ConfigStream MsgUser RtpPacket RtpSession MsgServer MsgRegistry MsgRouting.
From S2P Require Import MsgClient MsgC2s MsgC2sRegistry MsgSystem MsgUplink.
Import MsgUser MsgUserLemmas.
Import MsgSystem AgreementSpec TextLemmas2 PacketLemmas.

Module ClientLemmas.
Import CRtpMsgClient.

Section client.
Context (k : link).
Local Abbreviation C := (c2sUser k).
Local Abbreviation cs := (clientSession k).
Hypothesis HC : wf C.
Hypothesis Hcid : classId C = SERVER_CID.
Hypothesis Hcs : cs <> NULL.

(** The client while the uplink is up. *)
Record clientUp (c : t) : Prop := mkClientUp {
  cu_transfer : m_enableTransfer c = true;
  cu_active : active c = true;
  cu_session : m_session c = cs;
  cu_user : m_user c = C;
  cu_ok : m_onOkCalled c = true;
  cu_upcall : m_canUpcall c = true
}.

(** A report keeps its place, with the sender's id filled in, until it is sent. *)
Definition moves (c c' : t) (l : list effect) : Prop :=
  forall u, atClient k u c -> atClient k u c' \/ report C u ∈ clientSent k l.

Lemma moves_bucket c c' l : m_bucket c' = m_bucket c -> moves c c' l.
Proof. intros E u H. left. unfold atClient. by rewrite E. Qed.

Lemma report_split u : exists pre post, zlen pre = 4 /\ forall src, report src u = pre ++ bytesOf src ++ post.
Proof.
  exists (le_bytes 4 (pbsd_hton32 0)). eexists. split; [apply zlen_le_bytes|]. intros v. unfold report, CRtpMsgServer.header.
  rewrite <- !app_assoc. reflexivity.
Qed.

Lemma zlen_bytesOf u : zlen (bytesOf u) = 8.
Proof. unfold zlen. by rewrite length_bytesOf. Qed.

(** [SendData] fills in the id of a report that has none. *)
Lemma stamped src u : src = Zero \/ src = C ->
  (if load 1 4 (report src u) =? 0 then zput 4 (bytesOf C) (report src u) else report src u) = report C u.
Proof.
  intros Hsrc. destruct (report_split u) as (pre & post & Hp & E). rewrite !E.
  assert (Hput : zput 4 (bytesOf C) (pre ++ bytesOf src ++ post) = pre ++ bytesOf C ++ post).
  { rewrite <- Hp, zput_app_r. by do 2 f_equal. }
  destruct (_ =? 0) eqn:El; [done|]. destruct Hsrc as [-> | ->]; [|done].
  replace 4 with (zlen pre + 0) in El by lia. rewrite RoutingLemmas.load_shift in El by lia. done.
Qed.

Lemma SendData_ok takes c : clientUp c -> clientUp (fst (SendData takes true c)) /\
  moves c (fst (SendData takes true c)) (snd (SendData takes true c)).
Proof.
  intros [H1 H2 H3 H4 H5 H6]. unfold SendData. rewrite H3, (proj2 (Z.eqb_neq _ _) Hcs), H4. cbn [orb negb].
  destruct (m_bucket c) as [|m rest] eqn:Eb; [split; [done|by apply moves_bucket]|]. set (m' := if load 1 4 m =? 0 then zput 4 (bytesOf C) m else m).
  destruct takes; (split; [done|]); intros u Hu; unfold atClient in Hu; rewrite Eb, !elem_of_cons in Hu.
  - cbn [snd clientSent omap list_omap]. unfold clientSent. cbn [omap list_omap]. rewrite Z.eqb_refl.
    destruct Hu as [[E|?]|[E|?]]; [right|left; by left|right|left; by right];
      unfold m'; rewrite <- E, stamped by tauto; by apply list_elem_of_singleton.
  - left. unfold atClient. cbn [fst m_bucket setBucket]. rewrite !elem_of_cons.
    destruct Hu as [[E|?]|[E|?]]; [right; left|left; by right|right; left|right; by right];
      unfold m'; rewrite <- E, stamped; tauto.
Qed.

Lemma PushMsg_ok takes cached buf charset dsts src c ret c' l : clientUp c ->
  PushMsg takes cached buf charset dsts src c = (ret, c', l) ->
  clientUp c' /\ moves c c' l /\
  (ret = true -> forall u, CRtpMsgServer.header charset None (default Zero src) dsts ++ buf = report Zero u ->
    atClient k u c' \/ report C u ∈ clientSent k l).
Proof.
  intros Hc. pose proof Hc as [H1 H2 H3 H4 H5 H6]. unfold PushMsg, ready. rewrite H2, H3, (proj2 (Z.eqb_neq _ _) Hcs). cbn [andb negb].
  assert (Hnone : (false, c, []) = (ret, c', l) -> clientUp c' /\ moves c c' l /\
    (ret = true -> forall u, CRtpMsgServer.header charset None (default Zero src) dsts ++ buf = report Zero u ->
      atClient k u c' \/ report C u ∈ clientSent k l)).
  { intros [= <- <- <-]. split_and!; [done|by apply moves_bucket|done]. }
  destruct (_ >? _); [done|]. destruct (_ >? _); [done|]. destruct (existsb _ _); [done|]. clear Hnone.
  set (m := CRtpMsgServer.header _ _ _ _ ++ buf).
  destruct (GetTotalBytes c >=? m_redlineBytes c).
  - rewrite H5. pose proof (SendData_ok takes c Hc) as [S1 S2]. destruct (SendData takes true c) as [c2 l2].
    intros [= <- <- <-]. by split_and!.
  - change (m_onOkCalled (setBucket (m_bucket c ++ [m]) c)) with (m_onOkCalled c). rewrite H5.
    pose proof (SendData_ok takes (setBucket (m_bucket c ++ [m]) c) ltac:(by split)) as [S1 S2].
    destruct (SendData takes true _) as [c2 l2]. intros [= <- <- <-]. split_and!; [done|..].
    + intros u Hu. apply S2. unfold atClient. cbn [m_bucket setBucket]. rewrite !elem_of_app. destruct Hu; tauto.
    + intros _ u E. apply S2. unfold atClient. cbn [m_bucket setBucket]. left. apply elem_of_app. right. by apply list_elem_of_singleton.
Qed.

Lemma client_SendMsg_ok takes cached buf dsts c ret c' l : clientUp c -> SendMsg takes cached buf 0 dsts c = (ret, c', l) ->
  clientUp c' /\ moves c c' l /\
  (ret = true -> forall u, buf = CRtpMsgC2s.logoutText u -> dsts = [ROOT_ID_C2S] -> atClient k u c' \/ report C u ∈ clientSent k l).
Proof.
  intros Hc. unfold SendMsg. destruct (_ || _).
  - intros [= <- <- <-]. split_and!; [done|by apply moves_bucket|done].
  - intros E. destruct (PushMsg_ok _ _ _ _ _ _ _ _ _ _ Hc E) as (H1 & H2 & H3). split_and!; [done|done|].
    intros Hret u -> ->. by apply H3.
Qed.

Lemma Transfer_ok takes cached buf charset dsts src c ret c' l : clientUp c -> Transfer takes cached buf charset dsts src c = (ret, c', l) ->
  clientUp c' /\ moves c c' l.
Proof.
  intros Hc. unfold Transfer. destruct (_ || _).
  - intros [= <- <- <-]. split_and!; [done|by apply moves_bucket].
  - intros E. destruct (PushMsg_ok _ _ _ _ _ _ _ _ _ _ Hc E) as (H1 & H2 & _). done.
Qed.

Lemma setRedline_ok bytes c c' l : clientUp c -> setRedline bytes c = (c', l) -> clientUp c' /\ moves c c' l.
Proof.
  intros Hc. pose proof Hc as [H1 H2 H3 H4 H5 H6]. unfold setRedline. destruct (_ || _); intros [= <- <-]; (split; [done|by apply moves_bucket]).
Qed.

Lemma OnSendSession_ok takes ss c c' l : clientUp c -> OnSendSession takes ss c = (c', l) -> clientUp c' /\ moves c c' l.
Proof.
  intros Hc. unfold OnSendSession. destruct (_ || _ || _).
  - intros [= <- <-]. split; [done|by apply moves_bucket].
  - rewrite (cu_ok c Hc). intros E. pose proof (SendData_ok takes c Hc) as H. by rewrite E in H.
Qed.

(** *** What reaches the c2s *)

(** A message between the two parts of [OnRecvSession]. *)
Definition msgOk (msg : message) : Prop :=
  (exists text, payload msg = packet ROOT_ID_C2S C text /\ 0 < zlen text <= 400 /\ msg = mkMessage (payload msg) 24 (zlen text) ROOT_ID_C2S [] 1) \/
  eqb (srcUser msg) ROOT_ID_C2S = false /\ srcUser msg = ofBytes 4 (payload msg).

Lemma client_OnRecvSession_ok takes m c msg c' l : clientUp c -> UserId C <> 0 -> sendOk C m ->
  OnRecvSession takes cs m c = Some (msg, c', l) ->
  clientUp c' /\ moves c c' l /\ clientSent k l = [] /\
  match msg with Some msg => msgOk msg /\ payload msg = m | None => said m = None end.
Proof.
  intros Hc Hid Hm. pose proof Hc as [H1 H2 H3 H4 H5 H6]. unfold OnRecvSession, ready. rewrite H1, H2, H3, H4, H5.
  rewrite (proj2 (Z.eqb_neq cs 0)), (proj2 (Z.eqb_neq cs NULL)) by done. rewrite Z.eqb_refl. cbn [orb andb negb].
  destruct Hm as [(text & -> & Hne & Hlen)|Hm].
  - destruct (packet_ok ROOT_ID_C2S C text (proj1 root_wf) HC) as [R1 R2 R3 R4 R5 R6]. set (m := packet _ _ _) in *.
    assert (Ht : 0 < zlen text) by (pose proof (zlen_nonneg text); assert (zlen text <> 0) by (intros E%zlen_zero; done); lia).
    unfold CRtpMsgServer.sizeof_RTP_MSG_HEADER, CRtpMsgServer.sizeof_RTP_MSG_USER. rewrite R2, R3.
    rewrite (proj2 (Z.leb_gt (zlen m) 24)) by lia. change (1 =? 0) with false. cbn iota zeta. change (24 + 8 * (1 - 1)) with 24.
    assert (Hsz : u64 (zlen m - 24) = zlen text) by (rewrite R1; rewrite wrap_small; lia). rewrite Hsz.
    rewrite (proj2 (Z.eqb_neq (zlen text) 0)) by lia.
    change ((false || (classId ROOT_ID_C2S =? 0) || (UserId ROOT_ID_C2S =? 0))) with false. cbn iota.
    change (Z.to_nat 1) with 1%nat. cbn [readUsers]. unfold CRtpMsgServer.readUser, CRtpMsgServer.sizeof_RTP_MSG_USER. change (16 + 8 * 0) with 16.
    rewrite (proj2 (Z.leb_le (16 + 8) (zlen m))) by lia. rewrite R4. cbn [mbind option_bind List.filter].
    assert (Hcl : classId C =? 0 = false) by (apply Z.eqb_neq; rewrite Hcid; done).
    rewrite Hcl, (proj2 (Z.eqb_neq _ _) Hid), (proj2 (eqb_spec C C)) by done. cbn [negb andb]. change (u8 (1 - zlen (@nil RTP_MSG_USER))) with 1.
    intros [= <- <- <-]. split_and!; [by split|by apply moves_bucket|done|by left; exists text|done].
  - destruct (zlen m <=? _); [intros [= <- <- <-]; by split_and!; [|apply moves_bucket| |apply relayed_said]|]. cbn zeta.
    destruct (_ || _ || _); [intros [= <- <- <-]; by split_and!; [|apply moves_bucket| |apply relayed_said]|]. cbn [negb].
    destruct (readUsers m _ 0) as [users|]; [|done]. cbn [mbind option_bind].
    intros [= <- <- <-]. split_and!; [by split|by apply moves_bucket|done|by right|done].
Qed.

Lemma OnRecvUpcall_ok msg c c' l : clientUp c -> msgOk msg -> OnRecvUpcall msg c = Some (c', l) ->
  c' = c /\ forall u, about u (saidCall <$> l) = about u [said (payload msg)].
Proof.
  intros Hc Hm. pose proof Hc as [H1 H2 H3 H4 H5 H6]. unfold OnRecvUpcall. rewrite H1, H5, H6. cbn [negb].
  destruct Hm as [(text & Hp & Ht & E)|[Hr Hs]].
  - rewrite E, Hp. cbn [headerSize bodySize payload srcUser dstUsers dstUserCount].
    destruct (packet_ok ROOT_ID_C2S C text (proj1 root_wf) HC) as [R1 _ _ _ _ R6].
    unfold CRtpMsgServer.readBody. rewrite wrap_small by lia. rewrite (proj2 (Z.leb_le _ _)) by lia. rewrite R6. cbn [mbind option_bind].
    change (zlen (@nil RTP_MSG_USER) =? 1) with false. change (zlen (@nil RTP_MSG_USER) >? 0) with false. cbn [app].
    intros [= <- <-]. split; [done|]. intros u. cbn [fmap list_fmap]. by rewrite control_said.
  - destruct (CRtpMsgServer.readBody _ _ _) as [body|]; [|done]. cbn [mbind option_bind]. intros [= <- <-]. split; [done|].
    intros u. cbn [fmap list_fmap]. rewrite relayed_said by congruence. rewrite about_nil; [done|].
    apply Forall_fmap, Forall_app. split.
    + destruct (_ =? _); [constructor|]. constructor; [|constructor]. cbn. by rewrite Hr.
    + destruct (_ >? _); [by constructor|constructor].
Qed.

End client.
End ClientLemmas.

Module C2sSide.
Import CRtpMsgC2s.

Section c2s.
Context (k : link) (accepts : Z -> bool) (inet_aton : str -> Z).
Hypothesis Hclient : client k <> NULL.

Definition logout (u : RTP_MSG_USER) : effect := UpMsg (client k) (logoutText u) [ROOT_ID_C2S].

(** The c2s while its uplink is up. *)
Record c2sUp (s : t) : Prop := mkC2sUp {
  cp_active : active s = true;
  cp_client : m_msgClient s = client k;
  cp_sorted : stl_sorted (m_user2Session s) /\ stl_sorted (m_session2User s);
  cp_users : forall u ss, stl_find u (m_user2Session s) = Some (u, ss) -> classId u <> 0 /\ UserId u <> 0;
  cp_sessions : forall ss u, stl_find ss (m_session2User s) = Some (ss, u) -> classId u <> 0 /\ UserId u <> 0
}.

(** Nobody is lost without a report. *)
Definition keeps (P : RTP_MSG_USER -> Prop) (s s' : t) (l : list effect) : Prop :=
  forall u, P u -> registered u s -> registered u s' \/ logout u ∈ upcall s' ++ l.

Lemma keeps_same P s s' l : m_user2Session s' = m_user2Session s -> keeps P s s' l.
Proof. intros E u _ H. left. unfold registered. by rewrite E. Qed.

Lemma report_logout u : classId u <> 0 -> UserId u <> 0 -> ReportLogout (client k) u = [logout u].
Proof. intros H1 H2. unfold ReportLogout. by rewrite !(proj2 (Z.eqb_neq _ _)). Qed.

Lemma up_remove u ss s : c2sUp s -> c2sUp (removeUser u ss s).
Proof.
  intros [H1 H2 [H3 H4] H5 H6]. split; cbn [removeUser setMaps active m_msgClient m_user2Session m_session2User]; [done|done|by split; apply stl_sorted_erase|..].
  - intros v x Hv. by apply stl_find_erase_iff in Hv as [_ Hv%H5].
  - intros x v Hv. by apply stl_find_erase_iff in Hv as [_ Hv%H6].
Qed.
Lemma up_rest c rest s : c2sUp s -> c2sUp (setRest c rest s).
Proof. by intros [H1 H2 H3 H4 H5]. Qed.
Lemma up_add u ss s : c2sUp s -> classId u <> 0 -> UserId u <> 0 ->
  c2sUp (setMaps (stl_assign (ss, u) (m_session2User s)) (stl_assign (u, ss) (m_user2Session s)) s).
Proof.
  intros [H1 H2 [H3 H4] H5 H6] Hcl Hid. split; cbn [setMaps active m_msgClient m_user2Session m_session2User]; [done|done|by split; apply stl_sorted_assign|..].
  - intros v x Hv. apply stl_find_assign_iff in Hv as [[-> _]|[_ Hv%H5]]; done.
  - intros x v Hv. apply stl_find_assign_iff in Hv as [[_ <-]|[_ Hv%H6]]; done.
Qed.

Lemma registered_remove u v ss s : c2sUp s -> registered u s -> u <> v -> registered u (removeUser v ss s).
Proof. intros Hs H Hne. unfold registered in *. cbn [removeUser setMaps m_user2Session]. by rewrite stl_find_erase_ne. Qed.

(** The removal of a user that the method reports. *)
Lemma keeps_remove P u ss rest l s : c2sUp s -> (P u -> logout u ∈ rest ++ l) -> keeps P s (setUpcall rest (removeUser u ss s)) l.
Proof.
  intros Hs Hl v HP Hv. destruct (decide (v = u)) as [->|Hne]; [by right; apply Hl|left]. by apply registered_remove.
Qed.

Lemma ProcessMsg_client_login_ok_up new st u s s' l : c2sUp s -> upcall s = [] ->
  RtpMsgString2User (CProConfigStream.Get TAG_client_id st) = Some u ->
  ProcessMsg_client_login_ok accepts inet_aton new (client k) st s = Some (s', l) ->
  c2sUp s' /\ keeps (fun v => v <> u) s s' l /\
  (classId u <> 0 -> UserId u <> 0 -> registered u s' \/ logout u ∈ upcall s' ++ l).
Proof.
  intros Hs Hup Eu. unfold ProcessMsg_client_login_ok. rewrite (proj2 (Z.eqb_neq _ _) Hclient).
  destruct (CProConfigStream.GetUint _ _) as [i|]; [|done]. cbn [mbind option_bind]. rewrite Eu. cbn [mbind option_bind].
  destruct ((classId u =? 0) || (UserId u =? 0)) eqn:G.
  { intros [= <- <-]. split_and!; [done|by apply keeps_same|]. intros H1 H2. by rewrite !(proj2 (Z.eqb_neq _ _)) in G. }
  apply orb_false_iff in G as [G1%Z.eqb_neq G2%Z.eqb_neq]. pose proof (report_logout u G1 G2) as Hrep.
  rewrite (cp_active s Hs), (cp_client s Hs), Z.eqb_refl. cbn [negb orb].
  assert (Hlost : forall s1 l, c2sUp s1 -> m_user2Session s1 = m_user2Session s ->
    c2sUp (setUpcall (ReportLogout (client k) u) s1) /\ keeps (fun v => v <> u) s (setUpcall (ReportLogout (client k) u) s1) l /\
    (classId u <> 0 -> UserId u <> 0 -> registered u (setUpcall (ReportLogout (client k) u) s1) \/
       logout u ∈ upcall (setUpcall (ReportLogout (client k) u) s1) ++ l)).
  { intros s1 l1 H1 E1. split_and!; [by apply up_rest|by apply keeps_same|]. intros _ _. right. cbn [setUpcall setRest upcall]. rewrite Hrep.
    apply elem_of_app. left. by apply list_elem_of_singleton. }
  destruct (stl_find i (m_timerId2Info s)) as [[j info]|]; [|intros [= <- <-]; by apply Hlost].
  assert (Hs1 : c2sUp (setInfo (stl_erase i (m_timerId2Info s)) s)) by (destruct Hs; by split).
  destruct new as [[ss ip]|]; [|intros [= <- <-]; by apply Hlost]. cbn zeta. clear Hlost.
  set (s1 := setInfo _ s) in *. set (old := snd <$> _). change (m_user2Session s1) with (m_user2Session s) in old.
  set (s2 := match old with Some old => removeUser u old s1 | None => s1 end).
  assert (Hs2 : c2sUp s2 /\ forall v, v <> u -> registered v s -> registered v s2).
  { unfold s2. destruct old as [x|]; [|done]. split; [by apply up_remove|]. intros v Hne Hv. by apply registered_remove. }
  destruct Hs2 as [Hs2 Hkeep]. clearbody s2 s1. destruct (SendMsgToDownlink _ _ _ _ _ _ _) as [[] sent]; intros [= <- <-].
  - split_and!; [by apply up_rest, up_add| |].
    + intros v Hne Hv. left. unfold registered. cbn. rewrite stl_find_assign_ne; [by apply Hkeep|done].
    + intros _ _. left. unfold registered. cbn. by rewrite stl_find_assign_pair.
  - split_and!; [by apply up_rest| |].
    + intros v Hne Hv. left. by apply Hkeep.
    + intros _ _. right. cbn [setUpcall setRest upcall]. rewrite Hrep. apply elem_of_app. left. apply elem_of_app. right. by left.
Qed.

Lemma error_up st s s' l : c2sUp s -> ProcessMsg_client_login_error (client k) st s = Some (s', l) ->
  c2sUp s' /\ m_user2Session s' = m_user2Session s.
Proof.
  intros Hs. unfold ProcessMsg_client_login_error. destruct (_ =? _); [by intros [= <- <-]|].
  destruct (CProConfigStream.GetUint _ _) as [i|]; [|done]. cbn [mbind option_bind]. destruct (_ || _); [by intros [= <- <-]|].
  destruct (stl_find i _) as [e|]; intros [= <- <-]; [|done]. split; [|done]. destruct Hs; by split.
Qed.

Lemma kickout_up st u s s' l : c2sUp s -> RtpMsgString2User (CProConfigStream.Get TAG_client_id st) = Some u ->
  ProcessMsg_client_kickout (client k) st s = Some (s', l) -> c2sUp s' /\ keeps (fun v => v <> u) s s' l.
Proof.
  intros Hs Eu. unfold ProcessMsg_client_kickout. assert (Hnone : Some (s, []) = Some (s', l) -> c2sUp s' /\ keeps (fun v => v <> u) s s' l).
  { intros [= <- <-]. split; [done|by apply keeps_same]. }
  destruct (_ =? _); [done|]. rewrite Eu. cbn [mbind option_bind]. destruct (_ || _); [done|]. destruct (_ || _); [done|].
  destruct (stl_find u (m_user2Session s)) as [[v ss]|]; [|done]. intros [= <- <-]. split; [by apply up_rest, up_remove|]. by apply keeps_remove.
Qed.

(** A message of the server does to the users what it says. *)
Lemma OnRecvMsg_up new buf src s s' l : c2sUp s -> upcall s = [] ->
  OnRecvMsg accepts inet_aton new (client k) buf src s = Some (s', l) ->
  let o := if eqb src ROOT_ID_C2S then saidText buf else None in
  c2sUp s' /\ keeps (fun u => about u [o] = []) s s' l /\
  (forall u, classId u <> 0 -> UserId u <> 0 -> about u [o] = [true] -> registered u s' \/ logout u ∈ upcall s' ++ l).
Proof.
  intros Hs Hup E o. unfold OnRecvMsg in E. rewrite (proj2 (Z.eqb_neq _ _) Hclient) in E.
  assert (Hnone : (forall u, about u [o] <> [true]) -> Some (s, []) = Some (s', l) -> c2sUp s' /\ keeps (fun u => about u [o] = []) s s' l /\
    (forall u, classId u <> 0 -> UserId u <> 0 -> about u [o] = [true] -> registered u s' \/ logout u ∈ upcall s' ++ l)).
  { intros Hno [= <- <-]. split_and!; [done|by apply keeps_same|]. intros u _ _ Ho. by destruct (Hno u). }
  destruct (eqb src ROOT_ID_C2S) eqn:Er; unfold o in *; clear o.
  2: { rewrite orb_true_r in E. by apply Hnone. }
  apply eqb_spec in Er as ->. change (classId ROOT_ID_C2S =? 0) with false in E. change (UserId ROOT_ID_C2S =? 0) with false in E.
  rewrite !orb_false_r in E. cbn [orb negb] in E. destruct (zlen buf =? 0) eqn:Ez.
  { apply Z.eqb_eq, zlen_zero in Ez as ->. apply Hnone; [|done]. intros u. by vm_compute. }
  unfold saidText in *. destruct (CProConfigStream.StringToConfigs buf) as [[[] configs]|]; [| |done].
  2: { cbn [mbind option_bind negb] in E. by apply Hnone. }
  cbn [mbind option_bind negb] in E. set (st := CProConfigStream.AddItems _ _) in *. set (name := CProConfigStream.Get TAG_msg_name st) in *.
  destruct (sameText name MSG_client_login_ok) eqn:E1.
  { destruct (RtpMsgString2User (CProConfigStream.Get TAG_client_id st)) as [u|] eqn:Eu; cbn [mbind option_bind] in *.
    2: { unfold ProcessMsg_client_login_ok in E. rewrite (proj2 (Z.eqb_neq _ _) Hclient) in E.
         destruct (CProConfigStream.GetUint _ _); [|done]. cbn [mbind option_bind] in E. by rewrite Eu in E. }
    destruct (ProcessMsg_client_login_ok_up new st u s s' l Hs Hup Eu E) as (H1 & H2 & H3). split_and!; [done|..].
    - intros v Hv. apply H2. intros ->. by rewrite about_self in Hv.
    - intros v Hc Hi Hv. destruct (decide (v = u)) as [->|Hne]; [by apply H3|]. by rewrite about_other in Hv. }
  destruct (sameText name MSG_client_login_error) eqn:E2.
  { assert (E3 : sameText name MSG_client_kickout = false) by (by rewrite (ServerLemmas.sameText_same _ _ _ E2)). rewrite E3 in *.
    apply error_up in E as [H1 H2]; [|done]. split_and!; [done|by apply keeps_same|].
    intros u _ _. by destruct (RtpMsgString2User _). }
  destruct (sameText name MSG_client_kickout) eqn:E3.
  { destruct (RtpMsgString2User (CProConfigStream.Get TAG_client_id st)) as [u|] eqn:Eu; cbn [mbind option_bind] in *.
    2: { unfold ProcessMsg_client_kickout in E. rewrite (proj2 (Z.eqb_neq _ _) Hclient) in E. by rewrite Eu in E. }
    destruct (kickout_up st u s s' l Hs Eu E) as [H1 H2]. split_and!; [done|..].
    - intros v Hv. apply H2. intros ->. by rewrite about_self in Hv.
    - intros v _ _ Hv. destruct (decide (v = u)) as [->|Hne]; [by rewrite about_self in Hv|]. by rewrite about_other in Hv. }
  apply Hnone; [|done]. intros u. by destruct (RtpMsgString2User _).
Qed.

(** A message of a client that is not the uplink. *)
Lemma OnRecvMsg_foreign new c buf src s s' l : c2sUp s -> c <> client k ->
  OnRecvMsg accepts inet_aton new c buf src s = Some (s', l) -> s' = s.
Proof.
  intros Hs Hc. unfold OnRecvMsg. destruct (_ || _); [by intros [= <- _]|].
  destruct (CProConfigStream.StringToConfigs buf) as [[[] configs]|]; [| |done]; cbn [mbind option_bind negb]; [|by intros [= <- _]].
  set (st := CProConfigStream.AddItems _ _).
  assert (Hg : negb (active s) || negb (c =? m_msgClient s) = true).
  { rewrite (cp_client s Hs), (proj2 (Z.eqb_neq _ _) Hc). apply orb_true_r. }
  unfold ProcessMsg_client_login_ok, ProcessMsg_client_login_error, ProcessMsg_client_kickout. rewrite Hg.
  destruct (c =? NULL); repeat case_match; try (by intros [= <- _]);
    repeat (match goal with |- context [mbind _ ?o] => destruct o; [|done] end; cbn [mbind option_bind]);
    repeat case_match; by intros [= <- _].
Qed.

(** Every other event. *)
Record upStep (s s' : t) (l : list effect) : Prop := mkUpStep {
  us_up : c2sUp s';
  us_users : keeps (fun _ => True) s s' l;
  us_upcall : forall e, e ∈ upcall s -> e ∈ upcall s' ++ l
}.

Lemma upStep_quiet s s' l : c2sUp s' -> m_user2Session s' = m_user2Session s -> upcall s' = upcall s -> upStep s s' l.
Proof. intros H1 H2 H3. split; [done|by apply keeps_same|]. intros e He. rewrite H3. apply elem_of_app. by left. Qed.

Lemma upStep_remove u ss e1 e2 s : c2sUp s -> upcall s = [] -> classId u <> 0 -> UserId u <> 0 ->
  upStep s (setUpcall [CloseUser u e1 e2; DeleteSession ss] (removeUser u ss s))
    (if m_msgClient s =? NULL then [] else ReportLogout (m_msgClient s) u).
Proof.
  intros Hs Hup H1 H2. rewrite (cp_client s Hs), (proj2 (Z.eqb_neq _ _) Hclient), report_logout by done. split; [by apply up_rest, up_remove|..].
  - apply keeps_remove; [done|]. intros _. apply elem_of_app. right. by apply list_elem_of_singleton.
  - rewrite Hup. by intros e ?%not_elem_of_nil.
Qed.

Lemma handle_up e s s' l : c2sUp s -> (match e with RecvMsg _ c _ _ => c <> client k | _ => True end) ->
  handle accepts inet_aton e s = Some (s', l) -> m_msgClient s' = client k -> upStep s s' l.
Proof.
  intros Hs He E Hup. assert (H0 : forall l, upStep s s l) by (intros l2; by apply upStep_quiet).
  unfold handle in E. destruct (locks e && _) eqn:Hlock; [by injection E as <- <-|].
  assert (Hnil : locks e = true -> upcall s = []).
  { intros Hl. rewrite Hl in Hlock. cbn [andb] in Hlock. by apply negb_false_iff, bool_decide_eq_true in Hlock. }
  clear Hlock. destruct e; cbn [locks] in Hnil; try specialize (Hnil eq_refl).
  - injection E as <- <-. unfold KickoutUser. destruct (_ || _); [done|]. apply upStep_quiet; [by apply up_rest|done..].
  - injection E as E. unfold setRedline in E. destruct (_ || _); injection E as <- <-; [done|]. apply upStep_quiet; [destruct Hs; by split|done..].
  - injection E as E. unfold OnAcceptSession, AcceptSession in E. repeat case_match; injection E as <- <-; try done;
      apply upStep_quiet; try done; destruct Hs; by split.
  - unfold OnRecvSession in E. repeat (case_match; try (injection E as <- <-; done));
      (destruct (routeRecv _ _ _ _) as [[? ?]|]; [|done]); cbn [mbind option_bind] in E; destruct (_ && _) in E; try (injection E as <- <-; done);
      (destruct (CRtpMsgServer.readBody _ _ _); [|done]); by injection E as <- <-.
  - injection E as E. unfold OnCloseSession in E. destruct (_ || _); [by injection E as <- <-|].
    destruct (stl_find session (m_session2User s)) as [[x u]|] eqn:Ef; injection E as <- <-; [|done].
    destruct (stl_find_pair _ _ _ Ef) as [w [= -> ->]]. destruct (cp_sessions s Hs _ _ Ef). by apply upStep_remove.
  - injection E as E. unfold OnOkMsg in E. destruct (_ || _); [by injection E as <- <-|]. destruct (_ || _); [by injection E as <- <-|].
    injection E as <- <-. split; [destruct Hs; by split|by apply keeps_same|]. rewrite Hnil. by intros e ?%not_elem_of_nil.
  - by apply OnRecvMsg_foreign in E as ->.
  - by injection E as <- <-.
  - injection E as E. unfold OnCloseMsg in E. destruct (_ || _); injection E as <- <-; [done|]. cbn in Hup. congruence.
  - injection E as E. unfold OnTimer in E. rewrite (cp_client s Hs), (proj2 (Z.eqb_neq _ _) Hclient) in E. cbn [andb] in E.
    repeat case_match; injection E as <- <-; try done. apply upStep_quiet; [destruct Hs; by split|done..].
  - destruct (commands s) as [|u cs]; [by injection E as <- <-|]. injection E as E. unfold AsyncKickoutUser in E.
    set (s1 := setRest cs (upcall s) s) in *. assert (Hs1 : c2sUp s1) by (by apply up_rest).
    assert (H1 : upStep s1 s' l -> upStep s s' l) by (intros [A B D]; by split). apply H1.
    rewrite (cp_active s1 Hs1) in E. cbn [negb] in E.
    destruct (stl_find u (m_user2Session s1)) as [[v ss]|] eqn:Ef; [|injection E as <- <-; by apply upStep_quiet].
    destruct (stl_find_pair _ _ _ Ef) as [w [= -> ->]]. injection E as <- <-. destruct (cp_users s1 Hs1 _ _ Ef). by apply (upStep_remove u w (-1) 0 s1).
  - injection E as <- <-. split; [by apply up_rest|by apply keeps_same|done].
  - injection E as E. unfold FiniBegin in E. rewrite (cp_active s Hs) in E. injection E as <- <-. cbn in Hup. congruence.
  - destruct (closing s) as [[ss c]|]; [|by injection E as <- <-]. destruct (commands s); [|by injection E as <- <-].
    unfold FiniEnd in E. injection E as <- <-. apply upStep_quiet; [destruct Hs; by split|done..].
Qed.

End c2s.
End C2sSide.

Module SystemLemmas.
Import ClientLemmas C2sSide.

Section system.
Context (k : link) (inet_aton : str -> Z) (inet_ntoa : Z -> str).
Local Abbreviation C := (c2sUser k).
Hypothesis HC : wf C.
Hypothesis Hcid : classId C = SERVER_CID.
Hypothesis Hid : UserId C <> 0.
Hypothesis Hcs : clientSession k <> NULL.
Hypothesis Hss : serverSession k <> NULL.
Hypothesis Hclient : client k <> NULL.

(** *** What the c2s makes its client do *)

(** A report in the client or on the wire. *)
Definition onWay (u : RTP_MSG_USER) (s : t) : Prop := atClient k u (sClient s) \/ report C u ∈ uplink s.

Record performed (s s' : t) : Prop := mkPerformed {
  pf_server : sServer s' = sServer s;
  pf_c2s : sC2s s' = sC2s s;
  pf_downlink : downlink s' = downlink s;
  pf_received : received s' = received s;
  pf_calls : calls s' = calls s;
  pf_connected : connected s' = connected s;
  pf_refused : refused s = true -> refused s' = true;
  pf_client : clientUp k (sClient s');
  pf_reports : forall u, onWay u s -> onWay u s'
}.

Lemma performed_refl s : clientUp k (sClient s) -> performed s s.
Proof. by split. Qed.
Lemma performed_trans s1 s2 s3 : performed s1 s2 -> performed s2 s3 -> performed s1 s3.
Proof. intros [] []. split; try congruence; eauto. Qed.

Lemma performed_set c l s : clientUp k c -> moves k (sClient s) c l -> performed s (setClient k c l s).
Proof.
  intros Hc Hm. split; try done. intros u [Hu|Hu].
  - destruct (Hm u Hu) as [?|?]; [by left|right]. cbn. apply elem_of_app. by right.
  - right. cbn. apply elem_of_app. by left.
Qed.

Lemma perform_ok takes cached e s : clientUp k (sClient s) ->
  performed s (perform k takes cached e s) /\
  (refused (perform k takes cached e s) = false -> forall u, e = logout k u -> onWay u (perform k takes cached e s)).
Proof.
  intros Hc. pose proof (performed_refl s Hc) as H0.
  destruct e as [| | | | | |c buf dsts|c buf charset dsts src|c bytes| | | | | | |]; cbn [perform]; try (split; [done|by intros]).
  - destruct (Z.eqb_spec c (client k)) as [->|Hne].
    2: { split; [done|]. intros _ u [= -> _ _]. done. }
    destruct (CRtpMsgClient.SendMsg _ _ _ _ _ _) as [[ret c'] l] eqn:E.
    destruct (client_SendMsg_ok k Hcs takes cached buf dsts _ ret c' l Hc E) as (H1 & H2 & H3).
    pose proof (performed_set c' l s H1 H2) as H. split.
    + destruct H as [P1 P2 P3 P4 P5 P6 P7 P8 P9]. split; try done. cbn. intros ->. done.
    + cbn [refused setClient]. intros (_ & ->%negb_false_iff)%orb_false_iff u [= -> ->].
      destruct (H3 eq_refl u eq_refl eq_refl) as [?|?]; [by left|right]. cbn. apply elem_of_app. by right.
  - split; [|by intros]. destruct (c =? client k); [|done].
    destruct (CRtpMsgClient.Transfer _ _ _ _ _ _ _) as [[ret c'] l] eqn:E. apply (Transfer_ok k Hcs) in E as [H1 H2]; [by apply performed_set|done..].
  - split; [|by intros]. destruct (c =? client k); [|done].
    destruct (CRtpMsgClient.setRedline _ _) as [c' l] eqn:E. apply (setRedline_ok k) in E as [H1 H2]; [by apply performed_set|done..].
Qed.

Lemma performs_ok takes cached l : forall s, clientUp k (sClient s) ->
  let s' := fold_left (fun s e => perform k takes cached e s) l s in
  performed s s' /\ (refused s' = false -> forall u, logout k u ∈ l -> onWay u s').
Proof.
  induction l as [|e l IH]; intros s Hc; cbn [fold_left].
  - split; [by apply performed_refl|]. by intros _ u ?%not_elem_of_nil.
  - destruct (perform_ok takes cached e s Hc) as [H1 H2]. destruct (IH (perform k takes cached e s) (pf_client _ _ H1)) as [H3 H4].
    split; [by eapply performed_trans|]. intros Hr u Hu. apply elem_of_cons in Hu as [Hu|Hu]; [|by apply H4].
    apply (pf_reports _ _ H3), H2; [|done]. apply not_true_iff_false. intros Ht. apply (pf_refused _ _ H3) in Ht. congruence.
Qed.

(** *** The invariant *)

Import ServerLemmas.
Local Abbreviation home := ServerLemmas.home.

(** The parts while the uplink is up; [a] is the address of its context. *)
Record upAndWell (a : Z) (s : t) : Prop := mkUp {
  uw_server : RegistrySpec.consistent (sServer s);
  uw_nonroot : nonroot (sServer s);
  uw_queued : queued k (sServer s);
  uw_linked : CRtpMsgServer.active (sServer s) = true -> linkedAt k a (sServer s);
  uw_c2s : c2sUp k (sC2s s);
  uw_client : clientUp k (sClient s);
  uw_downlink : Forall (sendOk C) (downlink s);
  uw_received : match received s with Some msg => msgOk k msg /\ calls s = [] | None => True end
}.

Definition allSettled (a : Z) (s : t) : Prop := forall u, u <> C -> home u a (sServer s) -> settled k u s.

Lemma reported_cases u s : reported k u s <-> logout k u ∈ CRtpMsgC2s.upcall (sC2s s) \/ onWay u s \/ atServer k u (sServer s).
Proof. unfold reported, onWay, logout. tauto. Qed.

(** The server's steps. *)
Lemma serverStep_ok a accepts e s s' : upAndWell a s ->
  match e with CRtpMsgServer.Recv _ _ => True | CRtpMsgServer.Answer ans _ => RegistrySpec.enabled e (sServer s) /\ CRtpMsgServer.userId ans <> 1
             | _ => RegistrySpec.enabled e (sServer s) end ->
  serverStep k inet_aton accepts e s = Some s' -> connected s' = true -> refused s' = false ->
  upAndWell a s' /\ connected s = true /\ refused s = false /\
  sC2s s' = sC2s s /\ sClient s' = sClient s /\ uplink s' = uplink s /\
  forall u, u <> C -> home u a (sServer s') -> lastAbout u (inFlight s') = Some true \/
    (home u a (sServer s) /\ lastAbout u (inFlight s') = lastAbout u (inFlight s) /\ (atServer k u (sServer s) -> atServer k u (sServer s'))).
Proof.
  intros [U1 U2 U3 U4 U5 U6 U7 U8] He. unfold serverStep.
  destruct (CRtpMsgServer.handle accepts inet_aton e (sServer s)) as [[sv l]|] eqn:E; [|done]. cbn [mbind option_bind].
  intros [= <-]. cbn [connected refused]. intros [Hcon Hends%negb_true_iff]%andb_true_iff [Href Htake]%orb_false_iff.
  assert (Hsent : (if accepts (serverSession k) then sentTo (serverSession k) l else []) = sentTo (serverSession k) l).
  { destruct (accepts (serverSession k)); [done|]. cbn [negb andb] in Htake. apply negb_false_iff, bool_decide_eq_true in Htake. by rewrite Htake. }
  rewrite Hsent. clear Hsent Htake.
  assert (Hv : served k a (sServer s) sv l).
  { eapply handle_served; try done. destruct e; try done. }
  assert (Hcons : RegistrySpec.consistent sv).
  { destruct e as [| | | |x m| | | | |]; try (destruct (RegistryTheorems.handle_ok accepts inet_aton _ (sServer s) U1 ltac:(first [exact He|apply He]))
      as (s2 & l2 & E2 & G); rewrite E in E2; injection E2 as <- <-; apply G).
    cbn [CRtpMsgServer.handle] in E. by apply (OnRecvSession_stepped k accepts x m a (sServer s) sv l) in E as [? _]. }
  destruct Hv as [[V1 V2 V3 V4] V5 V6]. split_and!; try done.
  - split; try done. cbn [downlink]. by apply Forall_app.
  - cbn [sServer sC2s sClient uplink]. intros u Hu Hh. unfold inFlight. cbn [calls received downlink].
    rewrite fmap_app, !app_assoc, (lastAbout_app u _ (said <$> sentTo _ l)).
    destruct (V4 u Hu Hh) as [Hs|[Hs Hh']]; rewrite Hs; [by left|right]. split_and!; [done|done|]. by apply V6.
Qed.

(** The c2s's steps. *)
Lemma c2sStep_ok a accepts takes cached e s s' : upAndWell a s ->
  (forall c2s l, CRtpMsgC2s.handle accepts inet_aton e (sC2s s) = Some (c2s, l) -> CRtpMsgC2s.m_msgClient c2s = client k -> c2sUp k c2s) ->
  c2sStep k inet_aton accepts takes cached e s = Some s' -> connected s' = true ->
  upAndWell a s' /\ connected s = true /\ (refused s = true -> refused s' = true) /\
  sServer s' = sServer s /\ inFlight s' = inFlight s /\ (forall u, onWay u s -> onWay u s') /\
  exists l, CRtpMsgC2s.handle accepts inet_aton e (sC2s s) = Some (sC2s s', l) /\ CRtpMsgC2s.m_msgClient (sC2s s') = client k /\
    (refused s' = false -> forall u, logout k u ∈ l -> onWay u s').
Proof.
  intros [U1 U2 U3 U4 U5 U6 U7 U8] He. unfold c2sStep.
  destruct (CRtpMsgC2s.handle accepts inet_aton e (sC2s s)) as [[c2s l]|] eqn:E; [|done]. cbn [mbind option_bind].
  intros E'. injection E' as E'.
  set (s1 := mkSystem (sServer s) c2s (sClient s) (uplink s) (downlink s) (received s) (calls s)
    (connected s && (CRtpMsgC2s.m_msgClient c2s =? client k)) (refused s)) in *.
  destruct (performs_ok takes cached l s1 U6) as [[P1 P2 P3 P4 P5 P6 P7 P8 P9] H]. rewrite E' in *. clear E'.
  rewrite P6. cbn [s1 connected]. intros [Hcon Hm%Z.eqb_eq]%andb_true_iff. unfold inFlight.
  rewrite P1, P2, P3, P4, P5. cbn [s1 sServer sC2s downlink received calls]. split_and!; try done.
  - split; rewrite ?P1, ?P2, ?P3, ?P4, ?P5; try done. by apply (He c2s l).
  - by exists l.
Qed.

Lemma settled_by u s s' : (onWay u s -> onWay u s') -> (logout k u ∈ CRtpMsgC2s.upcall (sC2s s) -> logout k u ∈ CRtpMsgC2s.upcall (sC2s s') \/ onWay u s') ->
  (atServer k u (sServer s) -> atServer k u (sServer s')) -> lastAbout u (inFlight s') = lastAbout u (inFlight s) ->
  (registered u (sC2s s) -> registered u (sC2s s') \/ reported k u s') -> settled k u s -> settled k u s'.
Proof.
  intros H1 H2 H3 E H4 [Hr|[Hl|[Hl Hr]]]; unfold settled; rewrite E.
  - left. apply reported_cases in Hr as [Hr|[Hr|Hr]]; apply reported_cases; [|tauto..]. destruct (H2 Hr); tauto.
  - tauto.
  - destruct (H4 Hr); tauto.
Qed.

(** *** Every step *)

Definition agreed (a : Z) (s : t) : Prop := upAndWell a s /\ allSettled a s.

Lemma server_agreed a accepts e s s' : agreed a s -> allowed k (Server accepts e) s ->
  serverStep k inet_aton accepts e s = Some s' -> connected s' = true -> refused s' = false -> agreed a s'.
Proof.
  intros [Hu Hs] [He Hx] E Hc Hr. destruct (serverStep_ok a accepts e s s' Hu) as (H1 & _ & _ & E1 & E2 & E3 & H2); try done.
  { by destruct e. }
  split; [done|]. intros u Hne Hh. destruct (H2 u Hne Hh) as [Hl|(Hh' & Hl & Hat)]; [right; by left|].
  apply (settled_by u s); try done; [..|by apply Hs]; unfold onWay; rewrite ?E1, ?E2, ?E3; try done; by left.
Qed.

Lemma home_active u a (s : CRtpMsgServer.t) : RegistrySpec.consistent s -> home u a s -> CRtpMsgServer.active s = true.
Proof.
  intros Hc Hh. apply not_false_iff_true. intros Ha. destruct (RegistrySpec.con_off s Hc Ha) as (_ & E & _). unfold home, ServerLemmas.home in Hh. by rewrite E in Hh.
Qed.

Lemma up_agreed a accepts s s' : agreed a s -> handle k inet_aton inet_ntoa (Up accepts) s = Some s' ->
  connected s' = true -> refused s' = false -> agreed a s'.
Proof.
  intros [Hu Hs]. cbn [handle]. destruct (uplink s) as [|m rest] eqn:Em; [by intros [= <-]|].
  set (s1 := mkSystem _ _ _ rest _ _ _ _ _). intros E Hc Hr.
  assert (Hu1 : upAndWell a s1) by (destruct Hu; by split).
  destruct (serverStep_ok a accepts (CRtpMsgServer.Recv (serverSession k) m) s1 s' Hu1 I E Hc Hr) as (H1 & _ & _ & E1 & E2 & E3 & H2).
  split; [done|]. intros u Hne Hh. destruct (H2 u Hne Hh) as [Hl|(Hh' & Hl & Hat)]; [right; by left|].
  destruct (decide (m = report C u)) as [->|Hm].
  - left. apply reported_cases. do 2 right. unfold serverStep in E. cbn [CRtpMsgServer.handle] in E. change (sServer s1) with (sServer s) in *.
    destruct (CRtpMsgServer.OnRecvSession _ _ _ _) as [[sv l]|] eqn:Ev; [|done]. cbn [mbind option_bind] in E. injection E as <-.
    pose proof (home_active u a _ (uw_server _ _ Hu) Hh') as Ha. pose proof (uw_linked _ _ Hu Ha) as Hl'.
    destruct (home_wf _ (uw_server _ _ Hu) Ha u a Hh') as (Hw & _).
    exact (report_received k accepts HC Hcid Hss u a (sServer s) sv l (uw_server _ _ Hu) Ha Hl' Hw Ev).
  - assert (Hset : settled k u s1).
    { apply (settled_by u s); try done; [..|by apply Hs]; [|by left|by left]. unfold onWay. rewrite Em. intros [?|[?|?]%elem_of_cons]; [by left|done|by right]. }
    revert Hset. apply settled_by; unfold onWay; rewrite ?E1, ?E2, ?E3; try done; by left.
Qed.

Lemma down_agreed a takes s s' : agreed a s -> handle k inet_aton inet_ntoa (Down takes) s = Some s' -> agreed a s'.
Proof.
  intros [Hu Hs]. cbn [handle]. destruct (received s) eqn:Er; [by intros [= <-]|]. destruct (calls s) eqn:Ec; [|by intros [= <-]].
  destruct (downlink s) as [|m rest] eqn:Ed; [by intros [= <-]|].
  destruct Hu as [U1 U2 U3 U4 U5 U6 U7 U8]. rewrite Ed in U7. apply Forall_cons in U7 as [Hm U7].
  destruct (CRtpMsgClient.OnRecvSession takes (clientSession k) m (sClient s)) as [[[msg c] l]|] eqn:E; [|done]. cbn [mbind option_bind].
  destruct (client_OnRecvSession_ok k HC Hcid Hcs takes m _ msg c l U6 Hid Hm E) as (H1 & H2 & H3 & H4). intros [= <-].
  assert (Hfl : forall u, about u (inFlight (setClient k c l (mkSystem (sServer s) (sC2s s) (sClient s) (uplink s) rest msg [] (connected s) (refused s)))) =
    about u (inFlight s)).
  { intros u. unfold inFlight. rewrite Ec, Er, Ed. cbn [setClient calls received downlink fmap list_fmap app].
    destruct msg as [msg|]; [destruct H4 as [_ ->]; done|]. rewrite H4. done. }
  split; [split; try done; cbn [setClient received]|].
  - destruct msg as [msg|]; [|done]. by destruct H4.
  - intros u Hne Hh. pose proof (Hs u Hne Hh) as Hset. revert Hset. apply settled_by; try done; [|by left|unfold lastAbout; by rewrite Hfl|by left].
    intros [Hu|Hu]; [|right; cbn; apply elem_of_app; by left]. destruct (H2 u Hu); [by left|right]. cbn. apply elem_of_app. by right.
Qed.

Lemma upcall_agreed a s s' : agreed a s -> handle k inet_aton inet_ntoa Upcall s = Some s' -> agreed a s'.
Proof.
  intros [Hu Hs]. cbn [handle]. destruct (received s) as [msg|] eqn:Er; [|by intros [= <-]]. destruct Hu as [U1 U2 U3 U4 U5 U6 U7 U8].
  rewrite Er in U8. destruct U8 as [U8 Hc]. destruct (CRtpMsgClient.OnRecvUpcall msg (sClient s)) as [[c l]|] eqn:E; [|done]. cbn [mbind option_bind].
  destruct (OnRecvUpcall_ok k HC msg _ c l U6 U8 E) as [-> Hl]. intros [= <-].
  assert (Hfl : forall u, about u (inFlight (setClient k (sClient s) [] (setCalls None l s))) = about u (inFlight s)).
  { intros u. unfold inFlight. rewrite Er, Hc. cbn [setClient setCalls calls received downlink]. cbn [fmap list_fmap]. rewrite !app_nil_l, !about_app. by rewrite Hl. }
  split; [by split|]. intros u Hne Hh. pose proof (Hs u Hne Hh) as Hset. revert Hset.
  apply settled_by; try done; [|by left|unfold lastAbout; by rewrite Hfl|by left].
  intros [Hu|Hu]; [by left|right]. cbn. apply elem_of_app. by left.
Qed.

Lemma sent_agreed a takes s s' : agreed a s -> handle k inet_aton inet_ntoa (Sent takes) s = Some s' -> agreed a s'.
Proof.
  intros [Hu Hs]. cbn [handle]. destruct Hu as [U1 U2 U3 U4 U5 U6 U7 U8].
  destruct (CRtpMsgClient.OnSendSession _ _ _) as [c l] eqn:E. destruct (OnSendSession_ok k Hcs takes _ _ c l U6 E) as [H1 H2].
  intros [= <-]. pose proof (performed_set c l s H1 H2) as P. split; [by split|].
  intros u Hne Hh. pose proof (Hs u Hne Hh) as Hset. revert Hset. apply settled_by; try done; [|by left|by left]. apply (pf_reports _ _ P).
Qed.

Lemma c2s_agreed a accepts takes cached e s s' : agreed a s -> (match e with CRtpMsgC2s.RecvMsg _ c _ _ => c <> client k | _ => True end) ->
  c2sStep k inet_aton accepts takes cached e s = Some s' -> connected s' = true -> refused s' = false -> agreed a s'.
Proof.
  intros [Hu Hs] He E Hc Hr. destruct (c2sStep_ok a accepts takes cached e s s' Hu) as (H1 & _ & _ & E1 & E2 & H2 & l & El & Em & H3); try done.
  { intros c2s l El Em. by apply (handle_up k accepts inet_aton Hclient e (sC2s s) c2s l (uw_c2s _ _ Hu) He El Em). }
  destruct (handle_up k accepts inet_aton Hclient e (sC2s s) (sC2s s') l (uw_c2s _ _ Hu) He El Em) as [_ P2 P3].
  split; [done|]. intros u Hne Hh. rewrite E1 in Hh. pose proof (Hs u Hne Hh) as Hset. revert Hset. apply settled_by; rewrite ?E1, ?E2; try done; [by apply H2|..].
  - intros Hx%P3. apply elem_of_app in Hx as [?|?]; [by left|right]. by apply H3.
  - intros Hx. destruct (P2 u I Hx) as [?|[?|Hx']%elem_of_app]; [by left|right; by left|right]. apply reported_cases. right. left. by apply H3.
Qed.

Lemma accept_same accepts ssl ours arg newTimer sends c2s c2s' l :
  CRtpMsgC2s.handle accepts inet_aton (CRtpMsgC2s.Accept ssl ours arg newTimer sends) c2s = Some (c2s', l) ->
  CRtpMsgC2s.m_user2Session c2s' = CRtpMsgC2s.m_user2Session c2s /\ CRtpMsgC2s.upcall c2s' = CRtpMsgC2s.upcall c2s.
Proof.
  unfold CRtpMsgC2s.handle. cbn [CRtpMsgC2s.locks andb]. intros [= E]. revert E.
  unfold CRtpMsgC2s.OnAcceptSession, CRtpMsgC2s.AcceptSession. repeat case_match; by intros [= <- _].
Qed.

Lemma accept_agreed a accepts takes cached ssl ours arg newTimer s s' : agreed a s ->
  acceptStep k inet_aton accepts takes cached ssl ours arg newTimer s = Some s' -> connected s' = true -> agreed a s'.
Proof.
  intros [Hu Hs]. unfold acceptStep. set (e := CRtpMsgC2s.Accept ssl ours arg newTimer _).
  destruct (c2sStep k inet_aton accepts takes cached e s) as [s1|] eqn:E; [|done]. cbn [mbind option_bind]. intros [= <-] Hc. cbn [connected] in Hc.
  destruct (c2sStep_ok a accepts takes cached e s s1 Hu) as (H1 & _ & _ & E1 & E2 & H2 & l & El & Em & _); try done.
  { intros c2s l El Em. by apply (handle_up k accepts inet_aton Hclient e (sC2s s) c2s l (uw_c2s _ _ Hu) I El Em). }
  destruct (accept_same _ _ _ _ _ _ _ _ _ El) as [F1 F2].
  split; [destruct H1; by split|]. intros u Hne Hh. cbn [sServer] in Hh. rewrite E1 in Hh.
  apply (settled_by u s); [exact (H2 u)|..|by apply Hs]; cbn [sServer sC2s].
  - rewrite F2. by left.
  - by rewrite E1.
  - unfold inFlight in *. cbn [calls received downlink]. by rewrite E2.
  - unfold registered. rewrite F1. by left.
Qed.

(** A call of the client's upcall. *)
Lemma call_agreed a new accepts takes cached s s' : agreed a s -> handle k inet_aton inet_ntoa (Call new accepts takes cached) s = Some s' ->
  connected s' = true -> refused s' = false -> agreed a s'.
Proof.
  intros [Hu Hs]. cbn [handle]. unfold callStep. destruct (calls s) as [|c rest] eqn:Ec; [by intros [= <-]|].
  set (s1 := setCalls (received s) rest s).
  assert (Er : received s = None).
  { pose proof (uw_received _ _ Hu) as H. destruct (received s) as [msg|]; [|done]. destruct H as [_ H]. by rewrite Ec in H. }
  assert (Hu1 : upAndWell a s1) by (destruct Hu; split; try done; cbn [s1 setCalls received]; by rewrite Er).
  assert (Hfl : forall u, about u (inFlight s) = about u [saidCall c] ++ about u (inFlight s1)).
  { intros u. unfold inFlight. rewrite Ec, <- about_app. done. }
  assert (Hquiet : (forall u, about u [saidCall c] = []) -> agreed a s1).
  { intros Hno. split; [done|]. intros u Hne Hh. pose proof (Hs u Hne Hh) as Hset. revert Hset.
    apply settled_by; try done; [by left|unfold lastAbout; by rewrite Hfl, Hno|by left]. }
  assert (Hskip : agreed a s -> Some s = Some s' -> connected s' = true -> refused s' = false -> agreed a s') by (by intros H [= <-]).
  destruct c; try (intros [= <-] _ _; by apply Hquiet).
  - case_match; [by apply Hskip|]. intros E Hc Hr. refine (c2s_agreed a _ _ _ _ s1 s' (Hquiet (fun _ => eq_refl)) _ E Hc Hr). exact I.
  - destruct (_ && _) eqn:Hlock; [by apply Hskip|]. cbn [CRtpMsgC2s.locks andb] in Hlock. apply negb_false_iff, bool_decide_eq_true in Hlock.
    intros E Hc Hr. set (e := CRtpMsgC2s.RecvMsg new (client k) buf srcUser) in *.
    assert (Hev : forall c2s l, CRtpMsgC2s.handle accepts inet_aton e (sC2s s1) = Some (c2s, l) ->
      CRtpMsgC2s.OnRecvMsg accepts inet_aton new (client k) buf srcUser (sC2s s1) = Some (c2s, l)).
    { intros c2s l. unfold CRtpMsgC2s.handle. change (CRtpMsgC2s.upcall (sC2s s1)) with (CRtpMsgC2s.upcall (sC2s s)). rewrite Hlock. done. }
    destruct (c2sStep_ok a accepts takes cached e s1 s' Hu1) as (H1 & _ & _ & E1 & E2 & H2 & l & El%Hev & Em & H3); try done.
    { intros c2s l El%Hev _. by apply (OnRecvMsg_up k accepts inet_aton Hclient new buf srcUser (sC2s s1) c2s l (uw_c2s _ _ Hu1) Hlock El). }
    destruct (OnRecvMsg_up k accepts inet_aton Hclient new buf srcUser (sC2s s1) (sC2s s') l (uw_c2s _ _ Hu1) Hlock El) as (_ & K1 & K2).
    change (if eqb srcUser ROOT_ID_C2S then saidText buf else None) with (saidCall (CRtpMsgClient.RecvMsg buf charset srcUser)) in K1, K2.
    set (o := saidCall (CRtpMsgClient.RecvMsg buf charset srcUser)) in *. clearbody o. clear Hquiet Hskip E.
    assert (Hin : forall u, logout k u ∈ CRtpMsgC2s.upcall (sC2s s') ++ l -> reported k u s').
    { intros u [?|?]%elem_of_app; apply reported_cases; [by left|]. right. left. by apply H3. }
    split; [done|]. intros u Hne Hh. rewrite E1 in Hh. change (sServer s1) with (sServer s) in *. pose proof (Hs u Hne Hh) as Hset.
    unfold settled, lastAbout in *. rewrite E2. rewrite Hfl, last_app in Hset.
    destruct Hset as [Hrep|Hset].
    { left. apply reported_cases in Hrep as [Hrep|[Hrep|Hrep]]; [by rewrite Hlock in Hrep; apply not_elem_of_nil in Hrep| |].
      - apply reported_cases. right. left. by apply H2.
      - apply reported_cases. do 2 right. by rewrite E1. }
    destruct (last (about u (inFlight s1))) as [b|]; [right; left; by destruct Hset as [?|[? _]]|].
    destruct (about u [o]) as [|b [|b2 l2]] eqn:Ho; cbn [last] in Hset.
    + destruct Hset as [?|[_ Hreg]]; [done|]. destruct (K1 u Ho Hreg) as [?|?]; [right; by right|left; by apply Hin].
    + destruct Hset as [[= ->]|[? _]]; [|done]. pose proof (home_active u a _ (uw_server _ _ Hu) Hh) as Ha.
      destruct (home_wf _ (uw_server _ _ Hu) Ha u a Hh) as (_ & N1 & N2).
      destruct (K2 u N1 N2 Ho) as [?|?]; [right; by right|left; by apply Hin].
    + exfalso. clear -Ho. unfold about in Ho. cbn in Ho. destruct o as [[v b0]|]; [|done]. cbn in Ho. by destruct (eqb v u).
  - case_match; [by apply Hskip|]. intros E Hc Hr. refine (c2s_agreed a _ _ _ _ s1 s' (Hquiet (fun _ => eq_refl)) _ E Hc Hr). exact I.
Qed.

(** *** Runs *)

Lemma perform_mono takes cached e s : connected (perform k takes cached e s) = connected s /\
  (refused s = true -> refused (perform k takes cached e s) = true).
Proof.
  destruct e; cbn [perform]; try (by split); (destruct (_ =? _); [|by split]).
  - destruct (CRtpMsgClient.SendMsg _ _ _ _ _ _) as [[ret c] l]. split; [done|]. cbn. by intros ->.
  - by destruct (CRtpMsgClient.Transfer _ _ _ _ _ _ _) as [[ret c] l].
  - by destruct (CRtpMsgClient.setRedline _ _) as [c l].
Qed.
Lemma performs_mono takes cached l : forall s, connected (fold_left (fun s e => perform k takes cached e s) l s) = connected s /\
  (refused s = true -> refused (fold_left (fun s e => perform k takes cached e s) l s) = true).
Proof.
  induction l as [|e l IH]; intros s; [done|]. cbn [fold_left]. destruct (IH (perform k takes cached e s)) as [H1 H2].
  destruct (perform_mono takes cached e s) as [H3 H4]. split; [congruence|tauto].
Qed.

(** A lost uplink stays lost, and a refused packet refused. *)
Definition mono (s s' : t) : Prop := (connected s' = true -> connected s = true) /\ (refused s = true -> refused s' = true).
Lemma serverStep_mono accepts e s s' : serverStep k inet_aton accepts e s = Some s' -> mono s s'.
Proof.
  unfold serverStep. destruct (CRtpMsgServer.handle _ _ _ _) as [[sv l]|]; [|done]. cbn [mbind option_bind]. intros [= <-].
  split; cbn; [by intros [? _]%andb_true_iff|by intros ->].
Qed.
Lemma c2sStep_mono accepts takes cached e s s' : c2sStep k inet_aton accepts takes cached e s = Some s' -> mono s s'.
Proof.
  unfold c2sStep. destruct (CRtpMsgC2s.handle _ _ _ _) as [[c2s l]|]; [|done]. cbn [mbind option_bind]. intros E. injection E as E.
  set (s1 := mkSystem _ _ _ _ _ _ _ _ _) in E. destruct (performs_mono takes cached l s1) as [H1 H2]. rewrite E in *.
  split; [rewrite H1; cbn; by intros [? _]%andb_true_iff|exact H2].
Qed.
Lemma handle_mono e s s' : handle k inet_aton inet_ntoa e s = Some s' -> mono s s'.
Proof.
  assert (H0 : Some s = Some s' -> mono s s') by (by intros [= <-]).
  destruct e; cbn [handle].
  - apply serverStep_mono.
  - apply c2sStep_mono.
  - unfold acceptStep. destruct (c2sStep _ _ _ _ _ _ _) as [s1|] eqn:E; [|done]. apply c2sStep_mono in E as [H _].
    cbn [mbind option_bind]. intros [= <-]. by split.
  - destruct (uplink s); [done|]. by intros E%serverStep_mono.
  - repeat case_match; try done. destruct (CRtpMsgClient.OnRecvSession _ _ _ _) as [[[msg c] sent]|]; [|done]. cbn. by intros [= <-].
  - repeat case_match; try done. destruct (CRtpMsgClient.OnRecvUpcall _ _) as [[c l]|]; [|done]. cbn. by intros [= <-].
  - unfold callStep. repeat case_match; try done; try (by intros E%c2sStep_mono); by intros [= <-].
  - destruct (CRtpMsgClient.OnSendSession _ _ _) as [c l]. by intros [= <-].
Qed.

Lemma handle_agreed a e s s' : agreed a s -> allowed k e s -> handle k inet_aton inet_ntoa e s = Some s' ->
  connected s' = true -> refused s' = false -> agreed a s'.
Proof.
  intros Ha He E Hc Hr. destruct e.
  - by eapply server_agreed.
  - eapply c2s_agreed; [exact Ha| |exact E|done|done]. destruct e; try done.
  - by eapply accept_agreed.
  - by eapply up_agreed.
  - by eapply down_agreed.
  - by eapply upcall_agreed.
  - by eapply call_agreed.
  - by eapply sent_agreed.
Qed.

Lemma reachable_agreed a s0 s : agreed a s0 -> reachable k inet_aton inet_ntoa s0 s -> connected s = true -> refused s = false -> agreed a s.
Proof.
  intros H0. induction 1 as [|s e s' _ IH He E]; [done|]. intros Hc Hr. destruct (handle_mono e s s' E) as [M1 M2].
  eapply handle_agreed; [|done..]. apply IH; [by apply M1|]. apply not_true_iff_false. intros Ht%M2. congruence.
Qed.

(** The users behind the uplink are those registered with its context. *)
Lemma subUsers_home a s u : upAndWell a s -> u ∈ subUsersOf (serverSession k) (sServer s) -> u <> C /\ home u a (sServer s).
Proof.
  intros Hu. pose proof (uw_server _ _ Hu) as Hc. unfold subUsersOf, ctxOf. destruct (CRtpMsgServer.active (sServer s)) eqn:Ha.
  - destruct (uw_linked _ _ Hu Ha) as [L1 (c & Hca & E1 & E2 & E3)]. rewrite L1. cbn [mbind option_bind]. rewrite Hca. intros Hin.
    pose proof (la_registry _ Hc Ha) as R. split.
    + intros ->. apply (RegistrySpec.ok_base c (RegistrySpec.reg_ok _ _ _ R a c Hca)). by rewrite E2.
    + apply (RegistryLemmas.reg_member _ _ _ R a c u Hca). by right.
  - destruct (RegistrySpec.con_off _ Hc Ha) as (-> & _). by intros ?%not_elem_of_nil.
Qed.

End system.
End SystemLemmas.

Module AgreementTheorems.
Import ClientLemmas C2sSide SystemLemmas ServerLemmas.

Lemma start_agreed k s : start k s -> wf (c2sUser k) /\ UserId (c2sUser k) <> 0 /\ exists a, agreed k a s.
Proof.
  intros [S1 S2 S3 S4 S5 [S6 S7] S8 S9 S10 S11 S12 S13 (W1 & W2 & W3 & W4)]. unfold ctxOf in S3.
  destruct (stl_find (serverSession k) (CRtpMsgServer.m_session2Ctx (sServer s))) as [[x a]|] eqn:Ex; [|done]. cbn [mbind option_bind] in S3.
  destruct (stl_find_pair _ _ _ Ex) as [w [= -> ->]].
  assert (Ha : CRtpMsgServer.active (sServer s) = true).
  { apply not_false_iff_true. intros Ha. destruct (RegistrySpec.con_off _ S1 Ha) as (E & _). by rewrite E in Ex. }
  destruct (RegistrySpec.con_on _ S1 Ha) as [R _].
  destruct (RegistrySpec.ok_wf _ (RegistrySpec.reg_ok _ _ _ R _ _ S3) (c2sUser k)) as (Hw & _ & Hid); [by left|].
  split_and!; [done|done|]. exists w. split.
  - split; try done.
    + split; [eapply Forall_impl; [exact S6|]; by intros []|]. by destruct (CRtpMsgServer.checking (sServer s)) as [[]|].
    + intros _. split; [done|]. by eexists.
    + destruct S8 as [C1 C2 C3 C4 C5 _ _ _ _]. split; try done.
      * intros u ss. apply C5.
      * intros ss u Hu. by apply (C5 ss u), C4.
    + rewrite S12. by split.
    + by rewrite W2.
    + by rewrite W3.
  - intros u Hne Hh. exfalso. destruct (proj1 (RegistrySpec.reg_user _ _ _ R u w) Hh) as (c & Hc & Hm).
    assert (c = CRtpMsgServer.mkCtx (serverSession k) (c2sUser k) [] true) as -> by congruence.
    destruct Hm as [->|?%not_elem_of_nil]; done.
Qed.

Lemma idle_settled k u s : idle s -> settled k u s -> registered u (sC2s s).
Proof.
  intros [I1 I2 (W1 & W2 & W3 & W4) I4]. unfold settled, reported, atClient, atServer, inFlight. rewrite I1, I2, I4, W1, W2, W3, W4.
  intros [[?%not_elem_of_nil|[[?%not_elem_of_nil|?%not_elem_of_nil]|[?%not_elem_of_nil|(st & ?%not_elem_of_nil & _)]]]|[?|[_ ?]]]; done.
Qed.

(** C1: The message server and a c2s agree on the users behind the c2s.  From the moment
    that the uplink has come up, through every order of what their clients, sessions,
    observers and timers do, of the packets and calls between them, and of their tasks'
    commands: as long as neither side gives the uplink up and no packet is refused at a
    redline, whomever the server holds behind the c2s is settled (a logout of that user is
    on its way to the server, or the last message about it on its way to the c2s is the
    answer to a login, or there is no such message and the c2s has the user).  So once
    nothing is on its way, every user of the server behind the c2s is one of the c2s. *)
Theorem server_c2s_agree k inet_aton inet_ntoa s0 s : start k s0 -> reachable k inet_aton inet_ntoa s0 s ->
  connected s = true -> refused s = false ->
  (forall u, u ∈ subUsersOf (serverSession k) (sServer s) -> settled k u s) /\
  (idle s -> forall u, u ∈ subUsersOf (serverSession k) (sServer s) -> registered u (sC2s s)).
Proof.
  intros H0 Hr Hc Href. destruct (start_agreed k s0 H0) as (HC & Hid & a & Ha).
  destruct (reachable_agreed k inet_aton inet_ntoa HC (st_cid _ _ H0) Hid (st_cs _ _ H0) (st_ss _ _ H0) (st_client _ _ H0) a s0 s Ha Hr Hc Href) as [Hu Hs].
  assert (Hall : forall u, u ∈ subUsersOf (serverSession k) (sServer s) -> settled k u s).
  { intros u Hin. destruct (subUsers_home k a s u Hu Hin) as [H1 H2]. by apply Hs. }
  split; [done|]. intros Hi u Hin. apply (idle_settled k); [done|by apply Hall].
Qed.

(** A client logs in through the c2s. *)
Definition demoLink : link := mkLink 100 77 200 (make 1 2 1).
Definition demoSystem : t :=
  mkSystem (CRtpMsgServer.setMaps [(100, 1)] [(make 1 2 1, 1)] {[1 := CRtpMsgServer.mkCtx 100 (make 1 2 1) [] true]}
      (CRtpMsgServer.init 11 false false 5 6))
    (CRtpMsgC2s.mkC2s (CRtpMsgC2s.mkConfig 11 false false) true 77 10 0 C2sTheorems.demoUp 20 DEFAULT_REDLINE_BYTES (make 1 2 1) (make 1 2 1)
      [] [] [] [] [] None)
    (CRtpMsgClient.mkClient true 11 false true 200 [] DEFAULT_REDLINE_BYTES (make 1 2 1) 0 true true)
    [] [] None [] true false.
Definition yes (ss : Z) : bool := true.
Definition demoLogin (sock timer : Z) : event := Accept yes true 0 false true (C2sTheorems.demoArg sock) timer.
Definition atTheServer : list event :=
  [Up yes; Server yes CRtpMsgServer.Run; Server yes (CRtpMsgServer.Answer (CRtpMsgServer.mkAnswer true 7 1 0 false) None)].
Definition backAtTheC2s (ss : Z) : list event :=
  [Down true; Upcall; Call (Some (ss, [49])) yes true 0; C2s yes true 0 CRtpMsgC2s.Rest].
Definition demoEvents : list event := demoLogin 5 20 :: atTheServer ++ backAtTheC2s 300.

Local Abbreviation handleDemo := (handle demoLink C2sTheorems.demoAton C2sTheorems.demoNtoa).
Fixpoint run (es : list event) (s : t) : option t :=
  match es with [] => Some s | e :: es => s' ← handleDemo e s; run es s' end.
Fixpoint allAllowed (es : list event) (s : t) : Prop :=
  match es with
  | [] => True
  | e :: es => allowed demoLink e s /\ match handleDemo e s with Some s' => allAllowed es s' | None => True end
  end.
Lemma run_reachable s0 es : forall s s', reachable demoLink C2sTheorems.demoAton C2sTheorems.demoNtoa s0 s -> allAllowed es s ->
  run es s = Some s' -> reachable demoLink C2sTheorems.demoAton C2sTheorems.demoNtoa s0 s'.
Proof.
  induction es as [|e es IH]; intros s s' Hr; cbn [allAllowed run]; [by intros _ [= <-]|].
  intros [He Ha]. destruct (handleDemo e s) as [s1|] eqn:E; [|done]. cbn [mbind option_bind]. apply IH; [by eapply reach_event|done].
Qed.

Lemma demo_server : RegistrySpec.consistent (sServer demoSystem).
Proof.
  destruct (RegistryTheorems.init_consistent 11 false false 5 6) as [H1 H2 H3 H4 H5]; [done|done|].
  destruct (H1 eq_refl) as [R _]. split; try done. intros _. split; [|done].
  apply (RegistryLemmas.registry_addBase [] [] ∅ R 1 100 (make 1 2 1) true); try done. by repeat split; repeat constructor.
Qed.

Lemma demo_start : start demoLink demoSystem.
Proof.
  split; try done; [apply demo_server|].
  intros u a [Hin _]%stl_find_Some_elem. by apply list_elem_of_singleton in Hin as [= -> ->].
Qed.

Ltac demo_run :=
  cbn [allAllowed app]; RegistryTheorems.demo_step; cbn [allowed]; try exact I; split_and!; try exact I; vm_compute; done.

Definition demoEnd : t := default demoSystem (run demoEvents demoSystem).
Lemma demoEnd_reachable : reachable demoLink C2sTheorems.demoAton C2sTheorems.demoNtoa demoSystem demoEnd.
Proof.
  apply (run_reachable demoSystem demoEvents demoSystem); [constructor| |by vm_compute]. unfold demoEvents, atTheServer, backAtTheC2s. demo_run.
Qed.

Lemma server_c2s_agree_witness :
  subUsersOf (serverSession demoLink) (sServer demoEnd) = [make 2 7 1] /\ registered (make 2 7 1) (sC2s demoEnd).
Proof.
  assert (E : subUsersOf (serverSession demoLink) (sServer demoEnd) = [make 2 7 1]) by (vm_compute; reflexivity).
  assert (Hi : idle demoEnd) by (split; [vm_compute; reflexivity|vm_compute; reflexivity|split_and!; vm_compute; reflexivity|vm_compute; reflexivity]).
  assert (Hin : make 2 7 1 ∈ subUsersOf (serverSession demoLink) (sServer demoEnd)) by (rewrite E; apply list_elem_of_singleton; reflexivity).
  split; [exact E|].
  exact (proj2 (server_c2s_agree demoLink C2sTheorems.demoAton C2sTheorems.demoNtoa demoSystem demoEnd demo_start demoEnd_reachable
    ltac:(vm_compute; reflexivity) ltac:(vm_compute; reflexivity)) Hi _ Hin).
Defined.

(** The converse fails: a second login of a user that the c2s has waits for the server's
    answer so long that its timer ends it; the c2s takes the answer for one to a client
    that has gone, reports the user's logout, and keeps its first session.  The server
    forgets the user, which stays online at the c2s. *)
Definition zombieEvents : list event :=
  demoEvents ++ demoLogin 6 21 :: atTheServer ++ [C2s yes true 0 (CRtpMsgC2s.Timer 21 0 None)] ++ backAtTheC2s 301 ++
  [Up yes; Server yes CRtpMsgServer.Run].
Definition zombieEnd : t := default demoSystem (run zombieEvents demoSystem).
Lemma zombie : reachable demoLink C2sTheorems.demoAton C2sTheorems.demoNtoa demoSystem zombieEnd /\
  connected zombieEnd = true /\ refused zombieEnd = false /\ idle zombieEnd /\
  subUsersOf 100 (sServer zombieEnd) = [] /\ registered (make 2 7 1) (sC2s zombieEnd).
Proof.
  split.
  - apply (run_reachable demoSystem zombieEvents demoSystem); [constructor| |by vm_compute].
    unfold zombieEvents, demoEvents, atTheServer, backAtTheC2s. demo_run.
  - split_and!; [vm_compute; reflexivity..| | |].
    + split; [vm_compute; reflexivity|vm_compute; reflexivity|split_and!; vm_compute; reflexivity|vm_compute; reflexivity].
    + vm_compute. reflexivity.
    + vm_compute. discriminate.
Qed.
End AgreementTheorems.
