(* ===== verification/Handshaker.v ===== *)
(** * The handshaker ([pro_tcp_handshaker.cpp])

    A handshaker owns a new socket until both ends have exchanged a fixed number of bytes:
    it sends all of its own, receives exactly the other's, and gives the socket back to its
    owner; or it gives up, at an error or after a while, and closes it.

    A handler is a function of what the kernel and the reactor answer; what it does is a
    list of effects, the callbacks to its owner among them.  [alloc] is whether memory is
    to be had. *)

From S2P Require Import Prelude Bytes NetPools RefCount Reactor Transport.

Module CProTcpHandshaker.
Local Abbreviation DEFAULT_TIMEOUT := 20.
Local Existing Instance CProRecvPool.recv_pool.

(** [CProTcpHandshaker]: [active] is whether observer and reactor are set *)
Record t := mkHandshaker {
  active : bool;
  m_sockId : Z;
  m_unixSocket : bool;
  m_timerId : Z;
  m_recvPool : CProRecvPool.t;
  m_sendPool : CProSendPool.t
}.

Inductive effect :=
  | AddHandler (sockId mask : Z)
  | RemoveHandler (sockId mask : Z)
  | ScheduleTimer (ms : Z)
  | CancelTimer (timerId : Z)
  | OnHandshakeOk (sockId : Z) (unixSocket : bool) (buf : option (list Z)) (size : Z)
  | OnHandshakeError (errorCode : Z)
  | CloseSock (sockId : Z).

Definition construct : t := mkHandshaker false (-1) false 0 CProRecvPool.init CProSendPool.init.

Definition setPools (r : CProRecvPool.t) (p : CProSendPool.t) (s : t) : t :=
  mkHandshaker (active s) (m_sockId s) (m_unixSocket s) (m_timerId s) r p.
(** [observer] and [reactor] are unset; on success the socket is cut off. *)
Definition finish (cut : bool) (s : t) : t :=
  mkHandshaker false (if cut then -1 else m_sockId s) (m_unixSocket s) 0 (m_recvPool s) (m_sendPool s).
Definition bothMasks : Z := Z.lor PRO_MASK_WRITE PRO_MASK_READ.

(** [Init]; [sendData] is NULL or its bytes, [mem] what [m_recvPool.Resize] gets, [added]
    the reactor's answer *)
Definition Init (sockId : Z) (unixSocket : bool) (sendData : option (list Z)) (recvDataSize : Z) (recvFirst : bool)
    (timeoutInSeconds : Z) (alloc : bool) (mem : option (list Z)) (added : bool) (newTimer : Z) (s : t) : bool * t * list effect :=
  if sockId =? -1 then (false, s, []) else
  let timeoutInSeconds := if timeoutInSeconds =? 0 then DEFAULT_TIMEOUT else timeoutInSeconds in
  if active s then (false, s, []) else
  let sendBytes := default [] sendData in
  let s := setPools (m_recvPool s) (if zlen sendBytes >? 0 then CProSendPool.Fill alloc sendBytes (m_sendPool s) else m_sendPool s) s in
  let '(resized, pool) := if recvDataSize >? 0 then CProRecvPool.Resize recvDataSize mem (m_recvPool s) else (true, m_recvPool s) in
  let s := setPools pool (m_sendPool s) s in
  if negb resized then (false, s, []) else
  let mask :=
    if recvDataSize =? 0 then PRO_MASK_WRITE
    else if zlen sendBytes =? 0 then PRO_MASK_READ
    else if recvFirst then PRO_MASK_READ
    else bothMasks in
  if negb added then (false, s, [AddHandler sockId mask]) else
  (true, mkHandshaker true sockId unixSocket newTimer (m_recvPool s) (m_sendPool s),
   [AddHandler sockId mask; ScheduleTimer (timeoutInSeconds * 1000)]).

(** The end of a handshake that has failed. *)
Definition fail (errorCode : Z) (s : t) : t * list effect :=
  (finish false s, [CancelTimer (m_timerId s); RemoveHandler (m_sockId s) bothMasks; OnHandshakeError errorCode]).

(** [Fini] *)
Definition Fini (s : t) : t * list effect :=
  if negb (active s) then (s, []) else
  (finish false s, [CancelTimer (m_timerId s); RemoveHandler (m_sockId s) bothMasks]).

(** [ProDeleteTcpHandshaker]: [Fini] and the destructor *)
Definition Delete (s : t) : t * list effect :=
  let '(s, effects) := Fini s in
  (finish true s, effects ++ if m_sockId s =? -1 then [] else [CloseSock (m_sockId s)]).

(** [OnInput]; [recv] is what [pbsd_recv] gives, [added] the reactor's answer *)
Definition OnInput (sockId : Z) (recv : recv_result) (added : bool) (s : t) : t * list effect :=
  if sockId =? -1 then (s, []) else
  if negb (active s) then (s, []) else
  if negb (sockId =? m_sockId s) then (s, []) else
  let idleSize := CProRecvPool.ContinuousIdleSize (m_recvPool s) in
  if idleSize =? 0 then (s, [RemoveHandler (m_sockId s) PRO_MASK_READ]) else
  match recv with
  | Received bs =>
      if zlen bs >? idleSize then fail (-1) s
      else if zlen bs >? 0 then
        let s := setPools (CProRecvPool.Fill (zlen bs) (CProRecvPool.writeIdle bs (m_recvPool s))) (m_sendPool s) s in
        if CProRecvPool.ContinuousIdleSize (m_recvPool s) >? 0 then (s, []) else
        let effects := [RemoveHandler (m_sockId s) PRO_MASK_READ; AddHandler (m_sockId s) PRO_MASK_WRITE] in
        if added then (s, effects) else
        let '(s, more) := fail (-1) s in (s, effects ++ more)
      else fail 0 s
  | RecvError errno => if errno =? PBSD_EWOULDBLOCK then (s, []) else fail errno s
  end.

(** What the send pool and [pbsd_send] make of [OnOutput]: the pool afterwards, and whether
    to return at once, to fail, or to go on. *)
Inductive sendStep := Wait | Error (errorCode : Z) | Go.
Definition sendSome (sentSize errno : Z) (p : CProSendPool.t) : CProSendPool.t * sendStep :=
  match CProSendPool.PreSend p with
  | None => (p, Go)
  | Some theBuf =>
      if sentSize >? zlen theBuf then (p, Error (-1))
      else if sentSize >? 0 then
        let p := CProSendPool.Flush sentSize p in
        match CProSendPool.OnSendBuf p with
        | Some _ => (CProSendPool.PostSend p, Go)
        | None => (p, Wait)
        end
      else if sentSize =? 0 then (p, Wait)
      else if errno =? PBSD_EWOULDBLOCK then (p, Wait)
      else (p, Error errno)
  end.

(** [OnOutput]; [sentSize] and [errno] are [pbsd_send]'s *)
Definition OnOutput (sockId sentSize errno : Z) (alloc : bool) (s : t) : t * list effect :=
  if sockId =? -1 then (s, []) else
  if negb (active s) then (s, []) else
  if negb (sockId =? m_sockId s) then (s, []) else
  let '(pool, step) := sendSome sentSize errno (m_sendPool s) in
  let s := setPools (m_recvPool s) pool s in
  match step with
  | Wait => (s, [])
  | Error errorCode => fail errorCode s
  | Go =>
      let removed := [RemoveHandler (m_sockId s) PRO_MASK_WRITE] in
      if CProRecvPool.ContinuousIdleSize (m_recvPool s) >? 0 then (s, removed) else
      let size := PeekDataSize (m_recvPool s) in
      if (size >? 0) && negb alloc then let '(s, effects) := fail (-1) s in (s, removed ++ effects) else
      let buf := if size >? 0 then PeekData size (m_recvPool s) else None in
      (finish true s,
       removed ++ [CancelTimer (m_timerId s); RemoveHandler (m_sockId s) bothMasks; OnHandshakeOk sockId (m_unixSocket s) buf size])
  end.

(** [OnError], [OnTimer] *)
Definition OnError (sockId errorCode : Z) (s : t) : t * list effect :=
  if sockId =? -1 then (s, []) else
  if negb (active s) then (s, []) else
  if negb (sockId =? m_sockId s) then (s, []) else fail errorCode s.
Definition PBSD_ETIMEDOUT : Z := 110.
Definition OnTimer (timerId : Z) (s : t) : t * list effect :=
  if timerId =? 0 then (s, []) else
  if negb (active s) then (s, []) else
  if negb (timerId =? m_timerId s) then (s, []) else fail PBSD_ETIMEDOUT s.

Inductive event :=
  | Input (sockId : Z) (recv : recv_result) (added : bool)
  | Output (sockId sentSize errno : Z) (alloc : bool)
  | Err (sockId errorCode : Z)
  | Timer (timerId : Z)
  | Deleted.

Definition handle (e : event) (s : t) : t * list effect :=
  match e with
  | Input sockId recv added => OnInput sockId recv added s
  | Output sockId sentSize errno alloc => OnOutput sockId sentSize errno alloc s
  | Err sockId errorCode => OnError sockId errorCode s
  | Timer timerId => OnTimer timerId s
  | Deleted => Delete s
  end.

End CProTcpHandshaker.

Module HandshakerSpec.
Import CProTcpHandshaker.

(** The bytes that a handler takes from the socket and gives to it. *)
Definition taken (e : event) (s : t) : list Z :=
  match e with
  | Input sockId (Received bs) _ =>
      if active s && (sockId =? m_sockId s) && negb (sockId =? -1) && negb (CProRecvPool.ContinuousIdleSize (m_recvPool s) =? 0)
      then bs else []
  | _ => []
  end.
Definition given (e : event) (s : t) : list Z :=
  match e with
  | Output sockId sentSize _ _ =>
      if active s && (sockId =? m_sockId s) && negb (sockId =? -1) then
        match CProSendPool.PreSend (m_sendPool s) with Some theBuf => ztake sentSize theBuf | None => [] end
      else []
  | _ => []
  end.

(** The kernel takes and gives no more than it is asked to. *)
Definition kernel (e : event) (s : t) : Prop :=
  match e with
  | Input _ (Received bs) _ => zlen bs <= CProRecvPool.ContinuousIdleSize (m_recvPool s)
  | Output _ sentSize _ _ => match CProSendPool.PreSend (m_sendPool s) with Some theBuf => sentSize <= zlen theBuf | None => True end
  | _ => True
  end.

(** The events that the reactor has been asked for. *)
Fixpoint asked (mask : Z) (log : list effect) : Z :=
  match log with
  | [] => mask
  | AddHandler _ m :: log => asked (Z.lor mask m) log
  | RemoveHandler _ m :: log => asked (Z.ldiff mask m) log
  | _ :: log => asked mask log
  end.
Definition reads (mask : Z) : Prop := Z.testbit mask 3 = true.
Definition writes (mask : Z) : Prop := Z.testbit mask 2 = true.

(** The callbacks, and the ends of the ownership of the socket. *)
Definition callbacks (log : list effect) : list effect :=
  List.filter (fun e => match e with OnHandshakeOk _ _ _ _ | OnHandshakeError _ => true | _ => false end) log.
Definition released (log : list effect) : list Z :=
  omap (fun e => match e with OnHandshakeOk sockId _ _ _ | CloseSock sockId => Some sockId | _ => None end) log.

(** What is to be exchanged, over which socket. *)
Record deal := mkDeal { sock : Z; unix : bool; toSend : list Z; toRecv : Z; recvFirst : bool }.

Section run.
Context (d : deal).

(** The runs of a handshaker, with all that it has received and sent. *)
Inductive reachable : t -> list Z -> list Z -> list effect -> Prop :=
  | reach_init data timeout mem timer s l :
      default [] data = toSend d -> zlen mem = toRecv d ->
      Init (sock d) (unix d) data (toRecv d) (recvFirst d) timeout true (Some mem) true timer construct = (true, s, l) ->
      reachable s [] [] l
  | reach_step s recv sent log e s' l :
      reachable s recv sent log -> kernel e s -> handle e s = (s', l) ->
      reachable s' (recv ++ taken e s) (sent ++ given e s) (log ++ l).
End run.

Record deal_ok (d : deal) : Prop := mkDealOk {
  do_sock : sock d <> -1;
  do_send : zlen (toSend d) < 2 ^ 64;
  do_recv : 0 <= toRecv d < 2 ^ 64
}.
End HandshakerSpec.

Module HandshakerLemmas.
Import CProTcpHandshaker HandshakerSpec.
Local Existing Instance CProRecvPool.recv_pool.
Local Existing Instance CProRecvPool.recv_pool_laws.

Section run.
Context (d : deal).
Hypothesis Hd : deal_ok d.

(** What is in the pools. *)
Definition receivedOk (p : CProRecvPool.t) (recv : list Z) : Prop :=
  if toRecv d =? 0 then p = CProRecvPool.init /\ recv = []
  else CProRecvPool.rep p recv /\ CProRecvPool.m_end p = toRecv d.
Definition sentOk (p : CProSendPool.t) (sent : list Z) : Prop :=
  (p = CProSendPool.init /\ sent = toSend d) \/
  (CProSendPool.rep p (zlen sent) [toSend d] /\ sent = ztake (zlen sent) (toSend d) /\ zlen sent < zlen (toSend d)).

Lemma receivedOk_le p recv : receivedOk p recv -> zlen recv <= toRecv d.
Proof.
  unfold receivedOk. destruct (Z.eqb_spec (toRecv d) 0) as [->|]; [by intros [_ ->]|]. intros [H <-]. apply (CProRecvPool.rep_fits _ _ H).
Qed.

(** There is room exactly for what is missing. *)
Lemma receivedOk_idle p recv : receivedOk p recv ->
  (0 < CProRecvPool.ContinuousIdleSize p <-> zlen recv < toRecv d) /\ 0 <= CProRecvPool.ContinuousIdleSize p <= toRecv d - zlen recv /\
  CProRecvPool.m_dataSize p = zlen recv.
Proof.
  unfold receivedOk. pose proof (do_recv d Hd). destruct (Z.eqb_spec (toRecv d) 0) as [E|E].
  - intros [-> ->]. rewrite E. by vm_compute.
  - intros [Hr He]. pose proof (CProRecvPool.ContinuousIdleSize_nonneg p recv Hr) as Hn. rewrite He in Hn.
    split_and!; [|lia|lia|apply (CProRecvPool.rep_dataSize _ _ Hr)]. split; [lia|]. intros Hlt.
    rewrite (CProRecvPool.ContinuousIdleSize_eq p recv Hr). rewrite He. destruct (CProRecvPool.idle_Some p recv Hr) as (i & -> & Hi & _); lia.
Qed.

Lemma receivedOk_fill p recv bs : receivedOk p recv -> 0 < zlen bs <= CProRecvPool.ContinuousIdleSize p ->
  receivedOk (CProRecvPool.Fill (zlen bs) (CProRecvPool.writeIdle bs p)) (recv ++ bs).
Proof.
  intros Hr Hb. pose proof (receivedOk_idle p recv Hr) as (_ & Hi & _). unfold receivedOk in *.
  destruct (Z.eqb_spec (toRecv d) 0) as [E|E].
  - destruct Hr as [-> ->]. rewrite E in Hi. change (zlen (@nil Z)) with 0 in Hi. lia.
  - destruct Hr as [Hr He]. destruct (CProRecvPool.receive_rep p recv bs Hr Hb) as [H1 H2]. by rewrite H2.
Qed.

Lemma receivedOk_peek p recv : receivedOk p recv -> 0 < zlen recv -> CProRecvPool.PeekBytes (zlen recv) p = Some recv.
Proof.
  unfold receivedOk. destruct (toRecv d =? 0); [intros [_ ->]; by vm_compute|]. intros [Hr _] Hpos.
  rewrite (CProRecvPool.PeekBytes_rep p recv (zlen recv) Hr) by lia.
  destruct (Z.eqb_spec (zlen recv) 0); [lia|]. rewrite Z.ltb_irrefl. cbn. f_equal. by apply ztake_all.
Qed.

Lemma sentOk_prefix p sent : sentOk p sent -> exists rest, toSend d = sent ++ rest.
Proof.
  intros [[_ ->]|(_ & E & _)]; [exists []; by rewrite app_nil_r|]. exists (zdrop (zlen sent) (toSend d)). rewrite E at 1. unfold ztake, zdrop. by rewrite take_drop.
Qed.

(** One [pbsd_send]. *)
Lemma sendSome_ok sentSize errno p sent : sentOk p sent ->
  match CProSendPool.PreSend p with Some theBuf => sentSize <= zlen theBuf | None => True end ->
  let bs := match CProSendPool.PreSend p with Some theBuf => ztake sentSize theBuf | None => [] end in
  sentOk (fst (sendSome sentSize errno p)) (sent ++ bs) /\
  match snd (sendSome sentSize errno p) with Go => sent ++ bs = toSend d | _ => sent ++ bs <> toSend d end.
Proof.
  pose proof (do_send d Hd) as Hs. intros [[-> ->]|(Hp & E & Hlt)] Hk.
  - cbn. rewrite app_nil_r. split; [by left|done].
  - unfold sendSome. assert (Hpre : CProSendPool.PreSend p = Some (zdrop (zlen sent) (toSend d))).
    { rewrite (CProSendPool.PreSend_rep _ _ _ Hp). by rewrite (proj2 (Z.eqb_neq _ _)) by lia. }
    rewrite Hpre in Hk |- *. pose proof (zlen_nonneg sent) as Hnn. rewrite zlen_zdrop in Hk |- * by lia.
    assert (Hne : sent <> toSend d) by (intros ->; lia).
    destruct (Z.gtb_spec sentSize (zlen (toSend d) - zlen sent)); [lia|].
    destruct (Z.gtb_spec sentSize 0) as [Hpos|Hneg].
    + pose proof (CProSendPool.Flush_rep p (zlen sent) (toSend d) [] sentSize Hp ltac:(lia)) as Hf.
      set (q := CProSendPool.Flush sentSize p) in *. clearbody q.
      assert (Hbs : sent ++ ztake sentSize (zdrop (zlen sent) (toSend d)) = ztake (zlen sent + sentSize) (toSend d)).
      { rewrite E at 1. unfold ztake, zdrop. rewrite Z2Nat.inj_add by lia. by rewrite take_take_drop. }
      rewrite Hbs. rewrite (CProSendPool.OnSendBuf_rep _ _ _ Hf).
      destruct (Z.eqb_spec (zlen sent + sentSize) (zlen (toSend d))) as [Ee|Ee]; cbn [fst snd].
      * rewrite Ee, ztake_all by lia. split; [left; split; [|done]|done].
        pose proof (CProSendPool.PostSend_rep _ _ _ Hf) as [Hb Hpp _ _]. rewrite Ee, Z.eqb_refl in Hb, Hpp.
        destruct (CProSendPool.PostSend q). cbn in *. by subst.
      * assert (Hl : zlen (ztake (zlen sent + sentSize) (toSend d)) = zlen sent + sentSize) by (rewrite zlen_ztake; lia).
        split; [right; rewrite Hl; by split_and!; [| |lia]|]. intros Ea. rewrite Ea in Hl. lia.
    + assert (Hz : ztake sentSize (zdrop (zlen sent) (toSend d)) = []) by (unfold ztake; by rewrite Z2Nat.nonpos by lia).
      rewrite Hz, app_nil_r. assert (Hok : sentOk p sent) by (right; by split_and!).
      destruct (sentSize =? 0); [by split|]. by destruct (errno =? PBSD_EWOULDBLOCK).
Qed.

(** The events asked for after more effects. *)
Lemma asked_app mask log l : asked mask (log ++ l) = asked (asked mask log) l.
Proof. revert mask. by induction log as [|[] log IH]; cbn. Qed.
Lemma callbacks_app log l : callbacks (log ++ l) = callbacks log ++ callbacks l.
Proof. unfold callbacks. by rewrite List.filter_app. Qed.
Lemma released_app log l : released (log ++ l) = released log ++ released l.
Proof. unfold released. by rewrite omap_app. Qed.

Definition asksRead (mask : Z) : bool := Z.testbit mask 3.
Definition asksWrite (mask : Z) : bool := Z.testbit mask 2.

(** A handshake under way. *)
Record busy (s : t) (recv sent : list Z) (log : list effect) : Prop := mkBusy {
  bu_active : active s = true;
  bu_sock : m_sockId s = sock d;
  bu_unix : m_unixSocket s = unix d;
  bu_recv : receivedOk (m_recvPool s) recv;
  bu_sent : sentOk (m_sendPool s) sent;
  bu_calls : callbacks log = [];
  bu_released : released log = [];
  bu_reads : zlen recv < toRecv d -> reads (asked 0 log);
  bu_writes : zlen recv = toRecv d \/ (recvFirst d = false /\ sent <> toSend d) -> writes (asked 0 log)
}.

(** One that is over. *)
Definition outcome (recv sent : list Z) (calls : list effect) : Prop :=
  match calls with
  | [] | [OnHandshakeError _] => True
  | [OnHandshakeOk k u buf size] =>
      k = sock d /\ u = unix d /\ sent = toSend d /\ size = toRecv d /\ zlen recv = toRecv d /\
      buf = (if toRecv d =? 0 then None else Some recv)
  | _ => False
  end.
Record over (s : t) (recv sent : list Z) (log : list effect) : Prop := mkOver {
  ov_active : active s = false;
  ov_recv : zlen recv <= toRecv d;
  ov_sent : exists rest, toSend d = sent ++ rest;
  ov_calls : outcome recv sent (callbacks log);
  ov_released : released log = (if m_sockId s =? -1 then [sock d] else []);
  ov_sock : m_sockId s = -1 \/ m_sockId s = sock d;
  ov_quiet : ~ reads (asked 0 log) /\ ~ writes (asked 0 log)
}.
Definition inv (s : t) (recv sent : list Z) (log : list effect) : Prop :=
  busy s recv sent log \/ over s recv sent log.

Lemma remove_both mask : ~ reads (Z.ldiff mask bothMasks) /\ ~ writes (Z.ldiff mask bothMasks).
Proof. unfold reads, writes. rewrite !Z.ldiff_spec. cbn. by rewrite !andb_false_r. Qed.

(** A failure ends it, and leaves the socket to be closed. *)
Lemma fail_over s recv sent log e : m_sockId s = sock d -> zlen recv <= toRecv d -> (exists rest, toSend d = sent ++ rest) ->
  callbacks log = [] -> released log = [] ->
  over (fst (fail e s)) recv sent (log ++ snd (fail e s)).
Proof.
  intros Hs Hr Hp Hc Hl. cbn. split; cbn.
  - done.
  - done.
  - done.
  - by rewrite callbacks_app, Hc.
  - rewrite released_app, Hl, Hs. cbn. pose proof (do_sock d Hd). by rewrite (proj2 (Z.eqb_neq _ _)) by lia.
  - by right.
  - rewrite asked_app. cbn. apply remove_both.
Qed.

Lemma busy_fail s recv sent log e recv' sent' (s' : t) : busy s recv sent log -> m_sockId s' = sock d ->
  zlen recv' <= toRecv d -> (exists rest, toSend d = sent' ++ rest) ->
  forall log', callbacks log' = [] -> released log' = [] -> inv (fst (fail e s')) recv' sent' (log ++ log' ++ snd (fail e s')).
Proof.
  intros Hb Hk Hr Hs log' Hc Hl. right. rewrite (assoc_L (++)). apply fail_over; [done..| |].
  - by rewrite callbacks_app, (bu_calls _ _ _ _ Hb).
  - by rewrite released_app, (bu_released _ _ _ _ Hb).
Qed.

(** Effects that leave the socket and the owner alone. *)
Lemma busy_step s recv sent log s' recv' sent' l : busy s recv sent log ->
  active s' = true -> m_sockId s' = m_sockId s -> m_unixSocket s' = m_unixSocket s ->
  receivedOk (m_recvPool s') recv' -> sentOk (m_sendPool s') sent' -> callbacks l = [] -> released l = [] ->
  (zlen recv' < toRecv d -> reads (asked (asked 0 log) l)) ->
  (zlen recv' = toRecv d \/ (recvFirst d = false /\ sent' <> toSend d) -> writes (asked (asked 0 log) l)) ->
  inv s' recv' sent' (log ++ l).
Proof.
  intros [? Hk Hu ? ? Hc Hl Hrd Hwr] ? Hk' Hu' ? ? Hcl Hll ? ?. left. split; try done.
  - by rewrite Hk'.
  - by rewrite Hu'.
  - by rewrite callbacks_app, Hc.
  - by rewrite released_app, Hl.
  - by rewrite asked_app.
  - by rewrite asked_app.
Qed.

Lemma busy_same s recv sent log : busy s recv sent log -> inv s (recv ++ []) (sent ++ []) (log ++ []).
Proof. intros Hb. rewrite !app_nil_r. by left. Qed.

Lemma mask_remove_read mask : (writes mask -> writes (Z.ldiff mask PRO_MASK_READ)) /\ ~ reads (Z.ldiff mask PRO_MASK_READ).
Proof. unfold reads, writes. rewrite !Z.ldiff_spec. cbn. rewrite andb_true_r, andb_false_r. by split. Qed.
Lemma mask_remove_write mask : (reads mask -> reads (Z.ldiff mask PRO_MASK_WRITE)) /\ ~ writes (Z.ldiff mask PRO_MASK_WRITE).
Proof. unfold reads, writes. rewrite !Z.ldiff_spec. cbn. rewrite andb_true_r, andb_false_r. by split. Qed.
Lemma mask_add_write mask : writes (Z.lor mask PRO_MASK_WRITE).
Proof. unfold writes. rewrite Z.lor_spec. cbn. by rewrite orb_true_r. Qed.

Lemma handshakeInput_ok s recv sent log sockId r added : busy s recv sent log -> kernel (Input sockId r added) s ->
  inv (fst (OnInput sockId r added s)) (recv ++ taken (Input sockId r added) s) sent (log ++ snd (OnInput sockId r added s)).
Proof.
  intros Hb Hk. pose proof Hb as [Ha Hs Hu Hr Hp Hc Hl Hrd Hwr]. pose proof (do_sock d Hd) as Hno.
  pose proof (receivedOk_idle _ _ Hr) as (Hi & Hn & _). pose proof (receivedOk_le _ _ Hr) as Hle.
  pose proof (sentOk_prefix _ _ Hp) as Hpre.
  assert (Hfail : forall e, inv (fst (fail e s)) (recv ++ []) sent (log ++ snd (fail e s))).
  { intros e. rewrite app_nil_r. by apply (busy_fail s recv sent log e recv sent s Hb Hs Hle Hpre []). }
  assert (Hsame : inv s (recv ++ []) sent (log ++ [])) by (rewrite !app_nil_r; by left).
  unfold OnInput, taken. rewrite Ha, Hs. cbn [negb andb].
  destruct (Z.eqb_spec sockId (-1)) as [->|Hne]; [rewrite andb_false_r; by destruct r|].
  destruct (Z.eqb_spec sockId (sock d)) as [->|Hd']; cbn [negb andb]; [|by destruct r].
  destruct (Z.eqb_spec (CProRecvPool.ContinuousIdleSize (m_recvPool s)) 0) as [E|E]; cbn [negb].
  - assert (Hq : inv s (recv ++ []) sent (log ++ [RemoveHandler (sock d) PRO_MASK_READ])); [|by destruct r].
    rewrite app_nil_r. apply (busy_step _ _ _ _ s recv sent _ Hb); try done.
    + intros ?. lia.
    + intros Hw. cbn. apply mask_remove_read. by apply Hwr.
  - destruct r as [bs|errno]; [|by destruct (errno =? PBSD_EWOULDBLOCK)]. cbn [kernel] in Hk.
    destruct (Z.gtb_spec (zlen bs) (CProRecvPool.ContinuousIdleSize (m_recvPool s))); [lia|].
    destruct (Z.gtb_spec (zlen bs) 0) as [Hpos|Hneg].
    + pose proof (receivedOk_fill _ _ bs Hr ltac:(lia)) as Hr'. set (q := CProRecvPool.Fill _ _) in *. clearbody q.
      pose proof (receivedOk_idle _ _ Hr') as (Hi' & Hn' & _). pose proof (receivedOk_le _ _ Hr') as Hle'.
      cbn [m_recvPool setPools].
      destruct (Z.gtb_spec (CProRecvPool.ContinuousIdleSize q) 0) as [Hmore|Hdone].
      * apply (busy_step _ _ _ _ _ _ _ _ Hb); try done; cbn [asked].
        -- intros _. apply Hrd. lia.
        -- intros [?|?]; [lia|]. apply Hwr. by right.
      * cbn [m_sockId setPools]. rewrite Hs. destruct added.
        -- apply (busy_step _ _ _ _ _ _ _ _ Hb); try done; cbn [asked].
           ++ intros ?. lia.
           ++ intros _. apply mask_add_write.
        -- exact (busy_fail s recv sent log (-1) _ _ (setPools q (m_sendPool s) s) Hb Hs Hle' Hpre
             [RemoveHandler (sock d) PRO_MASK_READ; AddHandler (sock d) PRO_MASK_WRITE] eq_refl eq_refl).
    + assert (Hz : bs = []) by (apply zlen_zero; pose proof (zlen_nonneg bs); lia). subst bs. apply Hfail.
Qed.

(** The bytes that were received go up. *)
Lemma receivedOk_data p recv : receivedOk p recv -> zlen recv = toRecv d ->
  CProRecvPool.ContinuousIdleSize p = 0 /\ PeekDataSize p = toRecv d /\
  (if toRecv d >? 0 then PeekData (toRecv d) p else None) = (if toRecv d =? 0 then None else Some recv).
Proof.
  intros Hr E. pose proof (receivedOk_idle _ _ Hr) as (_ & Hi & Hs). pose proof (do_recv d Hd).
  split_and!; [lia|cbn; lia|]. rewrite Z.gtb_ltb. destruct (Z.eqb_spec (toRecv d) 0) as [->|]; [done|].
  rewrite (proj2 (Z.ltb_lt 0 (toRecv d))) by lia. cbn. rewrite <- E. apply receivedOk_peek; [done|lia].
Qed.

Lemma handshakeOutput_ok s recv sent log sockId n errno alloc : busy s recv sent log -> kernel (Output sockId n errno alloc) s ->
  inv (fst (OnOutput sockId n errno alloc s)) recv (sent ++ given (Output sockId n errno alloc) s) (log ++ snd (OnOutput sockId n errno alloc s)).
Proof.
  intros Hb Hk. pose proof Hb as [Ha Hs Hu Hr Hp Hc Hl Hrd Hwr]. pose proof (do_sock d Hd) as Hno.
  pose proof (receivedOk_idle _ _ Hr) as (Hi & Hn & _). pose proof (receivedOk_le _ _ Hr) as Hle.
  assert (Hsame : inv s recv (sent ++ []) (log ++ [])) by (rewrite !app_nil_r; by left).
  unfold OnOutput, given. rewrite Ha, Hs. cbn [negb andb].
  destruct (Z.eqb_spec sockId (-1)) as [->|Hne]; [by rewrite andb_false_r|].
  destruct (Z.eqb_spec sockId (sock d)) as [->|Hd']; cbn [negb andb]; [|done].
  pose proof (sendSome_ok n errno _ _ Hp Hk) as [Hp' Hstep]. clear Hk.
  set (bs := match CProSendPool.PreSend _ with Some _ => _ | None => _ end) in *. clearbody bs.
  destruct (sendSome n errno (m_sendPool s)) as [q step]. cbn [fst snd] in *.
  pose proof (sentOk_prefix _ _ Hp') as Hpre. set (s1 := setPools (m_recvPool s) q s).
  destruct step as [|e|].
  - apply (busy_step _ _ _ _ _ _ _ _ Hb); try done; cbn [asked].
    intros [Ht|[Hf _]]; apply Hwr; [by left|]. right. split; [done|]. intros Heq. rewrite Heq in Hpre.
    destruct Hpre as (rest & Hrest). apply Hstep. rewrite Heq. 
    assert (bs = []) as ->; [|by rewrite app_nil_r]. rewrite <- (app_nil_r (toSend d)) in Hrest at 1. rewrite <- !(assoc_L (++)) in Hrest.
    apply app_inv_head in Hrest. by destruct bs.
  - exact (busy_fail s recv sent log e _ _ s1 Hb Hs Hle Hpre [] eq_refl eq_refl).
  - cbn [m_recvPool s1 setPools]. destruct (Z.gtb_spec (CProRecvPool.ContinuousIdleSize (m_recvPool s)) 0) as [Hmore|Hdone].
    + apply (busy_step _ _ _ _ _ _ _ _ Hb); try done; cbn [asked].
      * intros _. apply mask_remove_write, Hrd. lia.
      * intros [?|[_ ?]]; [lia|done].
    + assert (Hall : zlen recv = toRecv d) by lia. destruct (receivedOk_data _ _ Hr Hall) as (_ & Hsz & Hbuf).
      rewrite Hsz. destruct ((toRecv d >? 0) && negb alloc).
      * exact (busy_fail s recv sent log (-1) _ _ s1 Hb Hs Hle Hpre [RemoveHandler (m_sockId s) PRO_MASK_WRITE] eq_refl eq_refl).
      * rewrite Hbuf. right. cbn. split; cbn; try done.
        -- by rewrite callbacks_app, Hc.
        -- by rewrite released_app, Hl.
        -- by left.
        -- rewrite asked_app. cbn. apply remove_both.
Qed.

Lemma over_step s recv sent log e s' l : over s recv sent log -> handle e s = (s', l) ->
  over s' (recv ++ taken e s) (sent ++ given e s) (log ++ l).
Proof.
  intros Ho. pose proof Ho as [Ha Hr Hs Hc Hl Hk Hq].
  assert (Ht : taken e s = []) by (destruct e as [? [] ?| | | |]; cbn; by rewrite ?Ha).
  assert (Hg : given e s = []) by (destruct e; cbn; by rewrite ?Ha).
  rewrite Ht, Hg, !app_nil_r. assert (Hsame : (s, []) = (s', l) -> over s' recv sent (log ++ l)).
  { intros [= <- <-]. by rewrite app_nil_r. }
  destruct e; cbn [handle].
  - unfold OnInput. rewrite Ha. by destruct (sockId =? -1).
  - unfold OnOutput. rewrite Ha. by destruct (sockId =? -1).
  - unfold OnError. rewrite Ha. by destruct (sockId =? -1).
  - unfold OnTimer. rewrite Ha. by destruct (timerId =? 0).
  - unfold Delete, Fini. rewrite Ha. cbn. intros [= <- <-]. pose proof (do_sock d Hd) as Hno.
    split; cbn; try done.
    + rewrite callbacks_app. destruct (m_sockId s =? -1); cbn; by rewrite app_nil_r.
    + rewrite released_app, Hl. destruct Hk as [-> | ->]; [done|]. by rewrite (proj2 (Z.eqb_neq _ _)) by done.
    + by left.
    + rewrite asked_app. by destruct (m_sockId s =? -1).
Qed.

Lemma busy_end s recv sent log e s' l : busy s recv sent log -> match e with Input _ _ _ | Output _ _ _ _ => False | _ => True end ->
  handle e s = (s', l) -> inv s' recv sent (log ++ l).
Proof.
  intros Hb He. pose proof Hb as [Ha Hs Hu Hr Hp Hc Hl Hrd Hwr]. pose proof (do_sock d Hd) as Hno.
  pose proof (receivedOk_le _ _ Hr) as Hle. pose proof (sentOk_prefix _ _ Hp) as Hpre.
  assert (Hsame : (s, []) = (s', l) -> inv s' recv sent (log ++ l)) by (intros [= <- <-]; rewrite app_nil_r; by left).
  assert (Hfail : forall e, fail e s = (s', l) -> inv s' recv sent (log ++ l)).
  { intros e' E. pose proof (busy_fail s recv sent log e' recv sent s Hb Hs Hle Hpre [] eq_refl eq_refl) as H. by rewrite E in H. }
  destruct e; cbn [handle]; try done.
  - unfold OnError. rewrite Ha. destruct (sockId =? -1); [done|]. cbn [negb]. destruct (sockId =? m_sockId s); [apply Hfail|done].
  - unfold OnTimer. rewrite Ha. destruct (timerId =? 0); [done|]. cbn [negb]. destruct (timerId =? m_timerId s); [apply Hfail|done].
  - unfold Delete, Fini. rewrite Ha. cbn. rewrite Hs, (proj2 (Z.eqb_neq _ _)) by done. cbn. intros [= <- <-]. right.
    split; cbn; try done.
    + by rewrite callbacks_app, Hc.
    + by rewrite released_app, Hl.
    + by left.
    + rewrite asked_app. cbn. apply remove_both.
Qed.

Lemma inv_step s recv sent log e s' l : inv s recv sent log -> kernel e s -> handle e s = (s', l) ->
  inv s' (recv ++ taken e s) (sent ++ given e s) (log ++ l).
Proof.
  intros [Hb|Ho] Hk E; [|right; by eapply over_step]. destruct e.
  1: pose proof (handshakeInput_ok s recv sent log sockId recv0 added Hb Hk) as H.
  2: pose proof (handshakeOutput_ok s recv sent log sockId sentSize errno alloc Hb Hk) as H.
  3-5: cbn [taken given]; rewrite !app_nil_r; by refine (busy_end _ _ _ _ _ _ _ Hb _ E).
  all: cbn [handle] in E; rewrite E in H; cbn [taken given fst snd] in *; by rewrite ?app_nil_r.
Qed.

Lemma init_pools mem data : default [] data = toSend d -> zlen mem = toRecv d ->
  exists r, (if toRecv d >? 0 then CProRecvPool.Resize (toRecv d) (Some mem) CProRecvPool.init else (true, CProRecvPool.init)) = (true, r) /\
    receivedOk r [] /\
    sentOk (if zlen (toSend d) >? 0 then CProSendPool.Fill true (toSend d) CProSendPool.init else CProSendPool.init) [].
Proof.
  intros Hdata Hmem. pose proof (do_recv d Hd) as Hr. pose proof (do_send d Hd) as Hs. rewrite !Z.gtb_ltb.
  assert (Hsend : sentOk (if 0 <? zlen (toSend d) then CProSendPool.Fill true (toSend d) CProSendPool.init else CProSendPool.init) []).
  { pose proof (zlen_nonneg (toSend d)). destruct (Z.ltb_spec 0 (zlen (toSend d))).
    - right. rewrite zlen_nil. split_and!; [|done|lia].
      apply (CProSendPool.Fill_rep CProSendPool.init 0 []); [apply CProSendPool.init_rep|lia].
    - left. split; [done|]. symmetry. apply zlen_zero. lia. }
  unfold receivedOk. destruct (Z.eqb_spec (toRecv d) 0) as [->|]; [by exists CProRecvPool.init|].
  rewrite (proj2 (Z.ltb_lt 0 (toRecv d))) by lia. eexists. split; [|split; [|done]].
  - unfold CProRecvPool.Resize. rewrite (proj2 (Z.eqb_neq _ _)) by done. reflexivity.
  - pose proof (CProRecvPool.Resize_rep (toRecv d) mem CProRecvPool.init ltac:(lia) Hmem) as H.
    unfold CProRecvPool.Resize in H. rewrite (proj2 (Z.eqb_neq _ _)) in H by done. by split.
Qed.

Lemma inv_init data timeout mem timer s l : default [] data = toSend d -> zlen mem = toRecv d ->
  Init (sock d) (unix d) data (toRecv d) (recvFirst d) timeout true (Some mem) true timer construct = (true, s, l) ->
  inv s [] [] l.
Proof.
  intros Hdata Hmem. pose proof (do_sock d Hd) as Hno. pose proof (zlen_nonneg (toSend d)) as Hnn. pose proof (do_recv d Hd) as Hrz.
  unfold Init. rewrite (proj2 (Z.eqb_neq _ _)) by done. cbn [active construct m_recvPool m_sendPool setPools].
  destruct (init_pools mem data Hdata Hmem) as (r & Hpool & Hr & Hsend). rewrite Hdata, Hpool. intros [= <- <-].
  left. split; cbn [active m_sockId m_unixSocket m_recvPool m_sendPool setPools]; try done; rewrite zlen_nil; cbn [asked].
  - intros ?. rewrite (proj2 (Z.eqb_neq _ _)) by lia.
    destruct (zlen (toSend d) =? 0); [done|]. by destruct (recvFirst d).
  - destruct (Z.eqb_spec (toRecv d) 0); [done|]. intros [?|[-> Hne]]; [lia|]. destruct (Z.eqb_spec (zlen (toSend d)) 0) as [E|]; [|done].
    apply zlen_zero in E. congruence.
Qed.

Lemma reachable_inv s recv sent log : reachable d s recv sent log -> inv s recv sent log.
Proof. induction 1 as [|]; [by eapply inv_init|by eapply inv_step]. Qed.

(** When all is received, the write that completes the sending completes the handshake. *)
Lemma sendSome_rest p sent errno : sentOk p sent -> snd (sendSome (zlen (toSend d) - zlen sent) errno p) = Go.
Proof.
  pose proof (do_send d Hd) as Hs. intros Hp. pose proof (sendSome_ok (zlen (toSend d) - zlen sent) errno p sent Hp) as H.
  destruct Hp as [[-> ->]|(Hp & E & Hlt)]; [done|].
  assert (Hpre : CProSendPool.PreSend p = Some (zdrop (zlen sent) (toSend d))).
  { rewrite (CProSendPool.PreSend_rep _ _ _ Hp). by rewrite (proj2 (Z.eqb_neq _ _)) by lia. }
  pose proof (zlen_nonneg sent). rewrite Hpre in H. specialize (H ltac:(rewrite zlen_zdrop; lia)) as [_ H].
  rewrite ztake_all in H by (rewrite zlen_zdrop; lia).
  assert (Hcat : sent ++ zdrop (zlen sent) (toSend d) = toSend d) by (rewrite E at 1; apply ztake_zdrop).
  destruct (snd _); by rewrite ?Hcat in H.
Qed.

Lemma OnOutput_completes s recv sent log : busy s recv sent log -> zlen recv = toRecv d ->
  forall s' l, OnOutput (sock d) (zlen (toSend d) - zlen sent) 0 true s = (s', l) ->
  exists buf, callbacks l = [OnHandshakeOk (sock d) (unix d) buf (toRecv d)].
Proof.
  intros [Ha Hs Hu Hr Hp Hc Hl Hrd Hwr] Hall s' l. destruct (receivedOk_data _ _ Hr Hall) as (Hidle & Hsz & _).
  pose proof (sendSome_rest _ _ 0 Hp) as Hgo. unfold OnOutput. pose proof (do_sock d Hd).
  rewrite (proj2 (Z.eqb_neq _ _)), Ha, Hs, Z.eqb_refl by done. cbn [negb].
  destruct (sendSome _ _ _) as [q step]. cbn [snd] in Hgo. subst step. cbn [m_recvPool setPools m_unixSocket].
  rewrite Hidle, Hsz. cbn. rewrite andb_false_r, Hu. intros [= <- <-]. by eexists.
Qed.

End run.
End HandshakerLemmas.

Module HandshakerTheorems.
Import CProTcpHandshaker HandshakerSpec HandshakerLemmas.

(** C21: what a handshaker does between [Init] and its deletion, whatever the socket, the
    reactor and the clock do in between.  What it has sent is the start of what it has to
    send, and it never takes more than it has to receive from the socket, so the bytes after
    the handshake are left to the session.  It calls its owner back once at most, and with
    [OnHandshakeOk] only when all is sent and received, handing over the socket and exactly
    the bytes received.  As long as it has called nobody, it waits for input while it misses
    some, and for output when it has some to do; then a writable socket that takes the rest
    ends the handshake.  The socket is given away or closed once, exactly when [m_sockId] is
    -1 again; and once it is over, no events are asked for. *)
Theorem handshaker_correct d s recv sent log :
  deal_ok d -> reachable d s recv sent log ->
  (exists rest, toSend d = sent ++ rest) /\ zlen recv <= toRecv d /\
  match callbacks log with
  | [] => True
  | [OnHandshakeOk sockId unixSocket buf size] =>
      sockId = sock d /\ unixSocket = unix d /\ sent = toSend d /\ size = toRecv d /\ zlen recv = toRecv d /\
      buf = (if toRecv d =? 0 then None else Some recv)
  | [OnHandshakeError _] => True
  | _ => False
  end /\
  (m_sockId s = -1 \/ m_sockId s = sock d) /\
  released log = (if m_sockId s =? -1 then [sock d] else []) /\
  (if active s then
     callbacks log = [] /\ m_sockId s = sock d /\
     (zlen recv < toRecv d -> reads (asked 0 log)) /\
     (zlen recv = toRecv d \/ (recvFirst d = false /\ sent <> toSend d) -> writes (asked 0 log)) /\
     (zlen recv = toRecv d -> forall s' l, OnOutput (sock d) (zlen (toSend d) - zlen sent) 0 true s = (s', l) ->
        exists buf, callbacks l = [OnHandshakeOk (sock d) (unix d) buf (toRecv d)])
   else ~ reads (asked 0 log) /\ ~ writes (asked 0 log)).
Proof.
  intros Hd Hr. pose proof (do_sock d Hd) as Hno. destruct (reachable_inv d Hd _ _ _ _ Hr) as [Hb|Ho].
  - pose proof Hb as [Ha Hs Hu Hrp Hsp Hc Hl Hrd Hwr]. rewrite Ha, Hc, Hl, Hs, (proj2 (Z.eqb_neq _ _)) by done.
    split_and!; try done.
    + by apply (sentOk_prefix d _ _ Hsp).
    + by apply (receivedOk_le d _ _ Hrp).
    + by right.
    + intros Hall s' l. by apply (OnOutput_completes d Hd _ _ _ _ Hb Hall).
  - destruct Ho as [Ha Hrp Hsp Hc Hl Hk Hq]. rewrite Ha.
    exact (conj Hsp (conj Hrp (conj Hc (conj Hk (conj Hl Hq))))).
Qed.

(** A server sends four bytes and gets three, and the client closes afterwards. *)
Definition demoDeal : deal := mkDeal 7 false [1; 2; 3; 4] 3 false.
Definition demoRun : t * list effect :=
  let '(_, s, l) := Init 7 false (Some [1; 2; 3; 4]) 3 false 0 true (Some [0; 0; 0]) true 5 construct in
  let step '(s, log) e := let '(s, l) := handle e s in (s, log ++ l) in
  foldl step (s, l) [Output 7 3 0 true; Input 7 (Received [9; 8]) true; Output 7 1 0 true; Input 7 (Received [7]) true;
                     Output 7 0 0 true; Deleted].

Lemma handshaker_correct_witness :
  deal_ok demoDeal /\
  (exists recv sent, reachable demoDeal (fst demoRun) recv sent (snd demoRun) /\ callbacks (snd demoRun) = [OnHandshakeOk 7 false (Some [9; 8; 7]) 3] /\
   released (snd demoRun) = [7] /\ sent = [1; 2; 3; 4] /\ recv = [9; 8; 7]).
Proof.
  assert (Hd : deal_ok demoDeal) by (split; done). split; [done|].
  assert (Hr : reachable demoDeal (fst demoRun) [9; 8; 7] [1; 2; 3; 4] (snd demoRun)).
  { pose proof (reach_init demoDeal (Some [1; 2; 3; 4]) 0 [0; 0; 0] 5 _ _ eq_refl eq_refl eq_refl) as H. vm_compute in H.
    let step H e :=
      let H' := fresh in
      pose proof (reach_step _ _ _ _ _ e _ _ H ltac:(by vm_compute) (surjective_pairing _)) as H'; clear H; rename H' into H; vm_compute in H in
    step H (Output 7 3 0 true); step H (Input 7 (Received [9; 8]) true); step H (Output 7 1 0 true);
    step H (Input 7 (Received [7]) true); step H (Output 7 0 0 true); step H Deleted.
    exact H. }
  exists [9; 8; 7], [1; 2; 3; 4]. split; [done|]. pose proof (handshaker_correct _ _ _ _ _ Hd Hr) as (_ & _ & _ & _ & Hrel & _).
  split; [reflexivity|]. split; [rewrite Hrel; reflexivity|done].
Defined.
End HandshakerTheorems.
