(* ===== verification/HandshakerRuns.v ===== *)
(** * Handshakers and their owners

    The acceptor and the connector give sockets to handshakers, which call them back while
    other threads may come in between.  Here are the handshakers of an owner: how they are
    created and deleted, which sockets they hold, and what their calls say. *)

From S2P Require Import Prelude Bytes NetPools RefCount Transport Handshaker.

Module HandshakerRuns.
Import HandshakerSpec.

(** A handshaker, with what it has exchanged and done so far. *)
Record run := mkRun {
  r_deal : deal;
  r_state : CProTcpHandshaker.t;
  r_recv : list Z;
  r_sent : list Z;
  r_log : list CProTcpHandshaker.effect
}.

(** [ProCreateTcpHandshaker] and [ProDeleteTcpHandshaker] *)
Definition create (mem : list Z) (timer sockId : Z) (unixSocket : bool) (data : list Z) (size : Z) (first : bool) (timeout : Z) : option run :=
  match CProTcpHandshaker.Init sockId unixSocket (Some data) size first timeout true (Some mem) true timer CProTcpHandshaker.construct with
  | (true, s, l) => Some (mkRun (mkDeal sockId unixSocket data size first) s [] [] l)
  | _ => None
  end.
Definition done (c : CProTcpHandshaker.effect) (recv sent : list Z) : list (Z * list Z * list Z) :=
  match c with CProTcpHandshaker.OnHandshakeOk sockId _ _ _ => [(sockId, sent, recv)] | _ => [] end.

Definition passing (l : list (Z * CProTcpHandshaker.effect)) : list Z :=
  omap (fun e => match snd e with CProTcpHandshaker.OnHandshakeOk sockId _ _ _ => Some sockId | _ => None end) l.
Definition heldBy (r : run) : list Z := let k := CProTcpHandshaker.m_sockId (r_state r) in if k =? -1 then [] else [k].
Definition held (m : gmap Z run) : list Z := concat ((fun e => heldBy (snd e)) <$> map_to_list m).
End HandshakerRuns.

Module HandshakerRunLemmas.
Import HandshakerSpec HandshakerRuns.

Lemma passing_app l l' : passing (l ++ l') = passing l ++ passing l'.
Proof. unfold passing. apply omap_app. Qed.

Lemma held_insert m h r : m !! h = None -> held (<[h := r]> m) ≡ₚ heldBy r ++ held m.
Proof. intros Hn. unfold held. by rewrite map_to_list_insert. Qed.
Lemma held_delete m h r : m !! h = Some r -> held m ≡ₚ heldBy r ++ held (delete h m).
Proof. intros Hr. rewrite <- held_insert by apply lookup_delete_eq. by rewrite insert_delete_id. Qed.
Lemma held_update m h r r' : m !! h = Some r -> held (<[h := r']> m) ≡ₚ heldBy r' ++ held (delete h m).
Proof. intros Hr. rewrite <- held_insert by apply lookup_delete_eq. by rewrite insert_delete_eq. Qed.

(** Deletion closes what is held. *)
Lemma delete_released s : released (snd (CProTcpHandshaker.Delete s)) = if CProTcpHandshaker.m_sockId s =? -1 then [] else [CProTcpHandshaker.m_sockId s].
Proof. unfold CProTcpHandshaker.Delete, CProTcpHandshaker.Fini. destruct (CProTcpHandshaker.active s); cbn; by destruct (_ =? -1). Qed.

(** ** One handshaker *)

Record run_ok (r : run) (data : list Z) (size : Z) : Prop := mkRunOk {
  ro_send : toSend (r_deal r) = data;
  ro_recv : toRecv (r_deal r) = size;
  ro_deal : deal_ok (r_deal r);
  ro_run : HandshakerSpec.reachable (r_deal r) (r_state r) (r_recv r) (r_sent r) (r_log r)
}.

Definition keeps (e : CProTcpHandshaker.effect) : Prop := match e with CProTcpHandshaker.CloseSock _ => False | _ => True end.
Lemma handle_keeps e s s' l : e <> CProTcpHandshaker.Deleted -> CProTcpHandshaker.handle e s = (s', l) -> Forall keeps l.
Proof.
  intros He. assert (Hf : forall e s, Forall keeps (snd (CProTcpHandshaker.fail e s))) by (intros; repeat constructor).
  destruct e; cbn [CProTcpHandshaker.handle]; [| | | |done].
  all: unfold CProTcpHandshaker.OnInput, CProTcpHandshaker.OnOutput, CProTcpHandshaker.OnError, CProTcpHandshaker.OnTimer.
  all: repeat match goal with
       | |- context [if ?b then _ else _] => destruct b
       | |- context [match ?x with Received _ => _ | RecvError _ => _ end] => destruct x
       | |- context [let '(_, _) := CProTcpHandshaker.sendSome ?a ?b ?c in _] => destruct (CProTcpHandshaker.sendSome a b c) as [? []]
       end.
  all: intros [= <- <-]; repeat constructor.
Qed.

Lemma released_callbacks l : Forall keeps l -> released l = passing ((fun c => (0, c)) <$> callbacks l).
Proof.
  induction l as [|e l IH]; [done|]. rewrite Forall_cons. intros [He Hl]. unfold released, callbacks, passing in *. cbn.
  destruct e; cbn; try (by apply IH); [f_equal; by apply IH|done].
Qed.
Lemma passing_key h h' l : passing ((fun c => (h, c)) <$> l) = passing ((fun c => (h', c)) <$> l).
Proof. unfold passing. induction l as [|c l IH]; [done|]. cbn. by rewrite IH. Qed.

(** What the callbacks of a run say. *)
Lemma run_outcome r data size : run_ok r data size -> HandshakerLemmas.outcome (r_deal r) (r_recv r) (r_sent r) (callbacks (r_log r)) /\
  heldBy r = (match released (r_log r) with [] => [sock (r_deal r)] | _ => [] end) /\
  (released (r_log r) = [] \/ released (r_log r) = [sock (r_deal r)]).
Proof.
  intros [_ _ Hd Hr]. pose proof (do_sock _ Hd) as Hno. unfold heldBy.
  destruct (HandshakerLemmas.reachable_inv _ Hd _ _ _ _ Hr) as [Hb|Ho].
  - rewrite (HandshakerLemmas.bu_calls _ _ _ _ _ Hb), (HandshakerLemmas.bu_released _ _ _ _ _ Hb), (HandshakerLemmas.bu_sock _ _ _ _ _ Hb).
    rewrite (proj2 (Z.eqb_neq _ _)) by done. by split_and!; [| |left].
  - destruct Ho as [_ _ _ Hc Hl Hk _]. split; [done|]. rewrite Hl. destruct Hk as [-> | ->]; cbn; [by split; [|right]|].
    rewrite (proj2 (Z.eqb_neq _ _)) by done. by split; [|left].
Qed.

Lemma run_step r data size e s l : run_ok r data size -> kernel e (r_state r) -> e <> CProTcpHandshaker.Deleted ->
  CProTcpHandshaker.handle e (r_state r) = (s, l) ->
  let r' := mkRun (r_deal r) s (r_recv r ++ taken e (r_state r)) (r_sent r ++ given e (r_state r)) (r_log r ++ l) in
  run_ok r' data size /\ heldBy r ≡ₚ passing ((fun c => (0, c)) <$> callbacks l) ++ heldBy r' /\
  (callbacks l = [] \/ exists c, callbacks l = [c] /\ callbacks (r_log r) = [] /\ callbacks (r_log r ++ l) = [c]).
Proof.
  intros Hok Hk He E r'. assert (Hok' : run_ok r' data size) by (destruct Hok as [? ? ? Hr]; split; try done; by eapply HandshakerSpec.reach_step).
  destruct (run_outcome _ _ _ Hok) as (_ & Hh & Hrel). destruct (run_outcome _ _ _ Hok') as (Hout & Hh' & Hrel'). split; [done|].
  rewrite <- released_callbacks by (by eapply handle_keeps). cbn [r_deal r_log r'] in *. rewrite HandshakerLemmas.released_app in Hh', Hrel'.
  rewrite HandshakerLemmas.callbacks_app in Hout |- *. split.
  - rewrite Hh, Hh'. destruct Hrel as [E0|E0]; rewrite E0 in *; cbn [app] in *.
    + by destruct Hrel' as [E1|E1]; rewrite E1.
    + by destruct Hrel' as [?|[= ->]].
  - destruct (callbacks l) as [|c cs]; [by left|]. right. destruct (callbacks (r_log r)) as [|c0 [|]]; cbn [app] in *.
    + destruct cs; [by exists c|]. by destruct c.
    + by destruct c0.
    + by destruct c0.
Qed.

(** A new handshaker. *)
Lemma create_ok mem timer k u data size first timeout : deal_ok (mkDeal k u data size first) -> zlen mem = size ->
  exists r, create mem timer k u data size first timeout = Some r /\ run_ok r data size /\ heldBy r = [k] /\ r_recv r = [] /\ callbacks (r_log r) = [].
Proof.
  intros Hd Hm. pose proof (do_sock _ Hd) as Hk. cbn in Hk. set (d := mkDeal k u data size first) in *.
  destruct (HandshakerLemmas.init_pools d Hd mem (Some data) eq_refl Hm) as (p & Hp & _).
  destruct (CProTcpHandshaker.Init k u (Some data) size first timeout true (Some mem) true timer CProTcpHandshaker.construct) as [[b s] l] eqn:E.
  pose proof E as E1. unfold CProTcpHandshaker.Init in E1. rewrite (proj2 (Z.eqb_neq k (-1))) in E1 by done.
  cbn [CProTcpHandshaker.active CProTcpHandshaker.construct CProTcpHandshaker.m_recvPool CProTcpHandshaker.setPools toRecv d] in E1, Hp.
  rewrite Hp in E1. cbn [negb] in E1. injection E1 as <- <- <-.
  unfold create. rewrite E. eexists. split; [reflexivity|]. split; [|split; [|done]].
  - split; try done. cbn [r_deal r_state r_recv r_sent r_log]. by apply (HandshakerSpec.reach_init d (Some data) timeout mem timer).
  - unfold heldBy. cbn. by rewrite (proj2 (Z.eqb_neq k (-1))).
Qed.

(** One of the calls on their way. *)
Lemma pending_split (l c1 c2 : list (Z * CProTcpHandshaker.effect)) h c : l = c1 ++ (h, c) :: c2 -> NoDup l.*1 ->
  NoDup (c1 ++ c2).*1 /\ (forall x, x ∈ c1 ++ c2 -> x ∈ l) /\ (h, c) ∈ l /\
  passing l ≡ₚ (match c with CProTcpHandshaker.OnHandshakeOk k _ _ _ => [k] | _ => [] end) ++ passing (c1 ++ c2).
Proof.
  intros -> Hnd. rewrite fmap_app in *. cbn in Hnd. split_and!.
  - apply NoDup_app in Hnd as (? & Hd & [_ ?]%NoDup_cons). apply NoDup_app. split_and!; try done. intros x Hx Hx2. apply (Hd x Hx). by right.
  - intros x. rewrite !elem_of_app, elem_of_cons. tauto.
  - apply elem_of_app. right. by left.
  - rewrite !passing_app. change ((h, c) :: c2) with ([(h, c)] ++ c2). rewrite passing_app, Permutation_app_swap_app. by destruct c.
Qed.

End HandshakerRunLemmas.
