(* ===== verification/Acceptor.v ===== *)
(** * The acceptor ([pro_acceptor.cpp])

    An acceptor listens on an Internet socket and on a local one, and gives each new
    connection to its observer.  With the service extension a handshaker stands in between:
    it sends the client a nonce and receives the number of the service that the client wants.

    The methods are functions of what the socket calls answer and give the effects they have;
    [AcceptorSystem] runs them together with the handshakers of [Handshaker]. *)

From S2P Require Import Prelude Bytes Bsd NetPools RefCount StlMap Reactor Transport Handshaker HandshakerRuns.

Module CProAcceptor.
Local Abbreviation PRO_ACCEPTOR_LENGTH := 5000.
Local Abbreviation SERVICE_HANDSHAKE_BYTES := 4.
Local Abbreviation DEFAULT_TIMEOUT := 10.

(** [CProAcceptor]: [active] is whether observer and reactor are set; handshakers are
    addresses *)
Record t := mkAcceptor {
  m_enableServiceExt : bool;
  active : bool;
  m_sockId : Z;
  m_sockIdUn : Z;
  m_localPort : Z;
  m_timeoutInSeconds : Z;
  m_handshaker2Nonce : list (Z * Z)
}.

Definition address : Type := list Z * Z.

Inductive effect :=
  | AddHandler (sockId mask : Z)
  | RemoveHandler (sockId mask : Z)
  | CloseSock (sockId : Z)
  | Unlink (port : Z)
  | CreateHandshaker (handshaker sockId : Z) (unixSocket : bool) (sendData : list Z) (recvDataSize : Z) (recvFirst : bool) (timeoutInSeconds : Z)
  | DeleteHandshaker (handshaker : Z)
  | OnAccept (sockId : Z) (unixSocket : bool) (remote : address) (serviceId serviceOpt nonce : Z).

Definition construct (enableServiceExt : bool) : t := mkAcceptor enableServiceExt false (-1) (-1) 0 DEFAULT_TIMEOUT [].
Definition setHandshakers (l : list (Z * Z)) (s : t) : t :=
  mkAcceptor (m_enableServiceExt s) (active s) (m_sockId s) (m_sockIdUn s) (m_localPort s) (m_timeoutInSeconds s) l.

(** [ProCloseSockId] does nothing for -1. *)
Definition closeSock (sockId : Z) : list effect := if sockId =? -1 then [] else [CloseSock sockId].

(** [Init]: the sockets that [pbsd_socket] gives, whether each of the calls succeeds, and the
    port that was bound; [validIp] is whether [pbsd_inet_aton] takes the address, [stale]
    whether the file of the local socket exists already *)
Record listening := mkListening { ls_sock : Z; ls_bound : bool; ls_named : bool; ls_listens : bool; ls_added : bool }.
Definition listens (l : listening) : bool := negb (ls_sock l =? -1) && ls_bound l && ls_named l && ls_listens l && ls_added l.

Definition Init (validIp : bool) (timeoutInSeconds : Z) (inet local : listening) (port : Z) (stale : bool) (s : t) : bool * t * list effect :=
  let timeoutInSeconds := if timeoutInSeconds =? 0 then DEFAULT_TIMEOUT else timeoutInSeconds in
  if negb validIp then (false, s, []) else
  if active s then (false, s, []) else
  let exit (sockId sockIdUn : Z) (effects : list effect) :=
    (false, s, effects ++ [RemoveHandler sockId PRO_MASK_ACCEPT; RemoveHandler sockIdUn PRO_MASK_ACCEPT] ++
      closeSock sockId ++ closeSock sockIdUn ++ (if sockIdUn =? -1 then [] else [Unlink port])) in
  let addedInet := if negb (ls_sock inet =? -1) && ls_bound inet && ls_named inet && ls_listens inet then [AddHandler (ls_sock inet) PRO_MASK_ACCEPT] else [] in
  if negb (listens inet) then exit (ls_sock inet) (-1) addedInet else
  let addedLocal :=
    (if negb (ls_sock local =? -1) && stale then [Unlink port] else []) ++
    (if negb (ls_sock local =? -1) && ls_bound local && ls_listens local then [AddHandler (ls_sock local) PRO_MASK_ACCEPT] else []) in
  if negb (negb (ls_sock local =? -1) && ls_bound local && ls_listens local && ls_added local)
  then exit (ls_sock inet) (ls_sock local) (addedInet ++ addedLocal) else
  (true, mkAcceptor (m_enableServiceExt s) true (ls_sock inet) (ls_sock local) port timeoutInSeconds (m_handshaker2Nonce s), addedInet ++ addedLocal).

(** [Fini] *)
Definition Fini (s : t) : t * list effect :=
  if negb (active s) then (s, []) else
  (mkAcceptor (m_enableServiceExt s) false (m_sockId s) (m_sockIdUn s) (m_localPort s) (m_timeoutInSeconds s) [],
   [RemoveHandler (m_sockId s) PRO_MASK_ACCEPT; RemoveHandler (m_sockIdUn s) PRO_MASK_ACCEPT] ++
   map (fun e => DeleteHandshaker (fst e)) (m_handshaker2Nonce s)).

(** The destructor *)
Definition Delete (s : t) : t * list effect :=
  let '(s, effects) := Fini s in
  (mkAcceptor (m_enableServiceExt s) false (-1) (-1) (m_localPort s) (m_timeoutInSeconds s) (m_handshaker2Nonce s),
   effects ++ closeSock (m_sockId s) ++ closeSock (m_sockIdUn s) ++ (if m_sockIdUn s =? -1 then [] else [Unlink (m_localPort s)])).

(** A dummy for unix sockets *)
Definition localRemote : address := ([49; 50; 55; 46; 48; 46; 48; 46; 49], 65535).

(** [OnInput]; [newSockId] and [remote] are [pbsd_accept]'s, [random] is the result of
    [MakeNonce_i], [handshaker] the address that [ProCreateTcpHandshaker] gives or 0 *)
Definition OnInput (sockId newSockId : Z) (remote : address) (random handshaker : Z) (s : t) : t * list effect :=
  if sockId =? -1 then (s, []) else
  if negb (active s) then (s, []) else
  if negb (sockId =? m_sockId s) && negb (sockId =? m_sockIdUn s) then (s, []) else
  let unixSocket := negb (sockId =? m_sockId s) in
  if newSockId =? -1 then (s, []) else
  if zlen (m_handshaker2Nonce s) >=? PRO_ACCEPTOR_LENGTH then (s, [CloseSock newSockId]) else
  if m_enableServiceExt s then
    let nonce := pbsd_hton64 random in
    let create := CreateHandshaker handshaker newSockId unixSocket (le_bytes 8 nonce) SERVICE_HANDSHAKE_BYTES false (m_timeoutInSeconds s) in
    if handshaker =? 0 then (s, [create; CloseSock newSockId]) else
    (setHandshakers (stl_assign (handshaker, pbsd_ntoh64 nonce) (m_handshaker2Nonce s)) s, [create])
  else (s, [OnAccept newSockId unixSocket (if unixSocket then localRemote else remote) 0 0 0]).

(** [OnHandshakeOk]; [peer] is [pbsd_getpeername]'s *)
Definition byteAt (i : nat) (l : list Z) : Z := default 0 (l !! i).
Definition OnHandshakeOk (handshaker sockId : Z) (unixSocket : bool) (buf : option (list Z)) (size : Z) (peer : option address) (s : t) : t * list effect :=
  if (handshaker =? 0) || (sockId =? -1) then (s, []) else
  if negb (active s) then (s, [CloseSock sockId]) else
  match stl_find handshaker (m_handshaker2Nonce s) with
  | None => (s, [CloseSock sockId])
  | Some (_, nonce) =>
      let '(sockId, effects) := if negb unixSocket && bool_decide (peer = None) then (-1, [CloseSock sockId]) else (sockId, []) in
      let serviceData := default [] buf in
      let valid := bool_decide (buf <> None) && (size =? SERVICE_HANDSHAKE_BYTES) && (byteAt 3 serviceData =? u8 (byteAt 2 serviceData + 1)) in
      let '(sockId, effects) := if valid then (sockId, effects) else (-1, effects ++ closeSock sockId) in
      let s := setHandshakers (stl_erase handshaker (m_handshaker2Nonce s)) s in
      let effects := effects ++ [DeleteHandshaker handshaker] in
      if sockId =? -1 then (s, effects) else
      (s, effects ++ [OnAccept sockId unixSocket (if unixSocket then localRemote else default ([], 0) peer)
                        (byteAt 0 serviceData) (byteAt 1 serviceData) nonce])
  end.

(** [OnHandshakeError] *)
Definition OnHandshakeError (handshaker : Z) (s : t) : t * list effect :=
  if handshaker =? 0 then (s, []) else
  if negb (active s) then (s, []) else
  match stl_find handshaker (m_handshaker2Nonce s) with
  | None => (s, [])
  | Some _ => (setHandshakers (stl_erase handshaker (m_handshaker2Nonce s)) s, [DeleteHandshaker handshaker])
  end.

End CProAcceptor.

(** ** An acceptor and its handshakers *)

Module AcceptorSystem.
Import CProAcceptor HandshakerSpec HandshakerRuns.

(** [calls]: the calls of handshakers that have not reached the acceptor yet; other threads
    may come first.  [accepted]: the sockets that the kernel has given; [exchanged]: the
    socket, the bytes sent and the bytes received of every handshake done; [closed]: the
    sockets that deleted handshakers have closed. *)
Record sys := mkSys {
  acceptor : t;
  runs : gmap Z run;
  calls : list (Z * CProTcpHandshaker.effect);
  accepted : list Z;
  exchanged : list (Z * list Z * list Z);
  log : list effect;
  closed : list Z
}.

Definition setAcceptor (a : t) (y : sys) : sys := mkSys a (runs y) (calls y) (accepted y) (exchanged y) (log y) (closed y).
Definition setRuns (m : gmap Z run) (y : sys) : sys := mkSys (acceptor y) m (calls y) (accepted y) (exchanged y) (log y) (closed y).
Definition setCalls (l : list (Z * CProTcpHandshaker.effect)) (y : sys) : sys :=
  mkSys (acceptor y) (runs y) l (accepted y) (exchanged y) (log y) (closed y).
Definition addAccepted (l : list Z) (y : sys) : sys := mkSys (acceptor y) (runs y) (calls y) (accepted y ++ l) (exchanged y) (log y) (closed y).
Definition addExchanged (l : list (Z * list Z * list Z)) (y : sys) : sys :=
  mkSys (acceptor y) (runs y) (calls y) (accepted y) (exchanged y ++ l) (log y) (closed y).
Definition addLog (e : effect) (y : sys) : sys := mkSys (acceptor y) (runs y) (calls y) (accepted y) (exchanged y) (log y ++ [e]) (closed y).
Definition addClosed (l : list Z) (y : sys) : sys := mkSys (acceptor y) (runs y) (calls y) (accepted y) (exchanged y) (log y) (closed y ++ l).

Definition deleteRun (h : Z) (y : sys) : sys :=
  match runs y !! h with
  | Some r => addClosed (released (snd (CProTcpHandshaker.Delete (r_state r)))) (setRuns (delete h (runs y)) y)
  | None => y
  end.

(** The effects of the acceptor. *)
Definition perform1 (mem : list Z) (timer : Z) (y : sys) (e : effect) : sys :=
  addLog e
    match e with
    | CreateHandshaker h sockId unixSocket data size first timeout =>
        if h =? 0 then y else
        match create mem timer sockId unixSocket data size first timeout with Some r => setRuns (<[h := r]> (runs y)) y | None => y end
    | DeleteHandshaker h => deleteRun h y
    | _ => y
    end.
Definition perform (mem : list Z) (timer : Z) (es : list effect) (y : sys) : sys := foldl (perform1 mem timer) y es.

(** The socket that [OnInput] takes from the kernel. *)
Definition gets (sockId newSockId : Z) (s : t) : list Z :=
  if negb (sockId =? -1) && active s && ((sockId =? m_sockId s) || (sockId =? m_sockIdUn s)) && negb (newSockId =? -1) then [newSockId] else [].

Definition deliver (h : Z) (c : CProTcpHandshaker.effect) (peer : option address) (s : t) : t * list effect :=
  match c with
  | CProTcpHandshaker.OnHandshakeOk sockId unixSocket buf size => OnHandshakeOk h sockId unixSocket buf size peer s
  | CProTcpHandshaker.OnHandshakeError _ => OnHandshakeError h s
  | _ => (s, [])
  end.
Inductive reachable (ext : bool) : sys -> Prop :=
  | reach_start validIp timeout inet local port stale s l :
      Init validIp timeout inet local port stale (construct ext) = (true, s, l) ->
      reachable ext (mkSys s ∅ [] [] [] l [])
  | reach_input y sockId newSockId remote random h mem timer s es :
      reachable ext y -> 0 <= random < 2 ^ 64 -> zlen mem = 4 -> runs y !! h = None -> h ∉ (calls y).*1 ->
      OnInput sockId newSockId remote random h (acceptor y) = (s, es) ->
      reachable ext (perform mem timer es (addAccepted (gets sockId newSockId (acceptor y)) (setAcceptor s y)))
  | reach_handshake y h r e s l :
      reachable ext y -> runs y !! h = Some r -> kernel e (r_state r) -> e <> CProTcpHandshaker.Deleted ->
      CProTcpHandshaker.handle e (r_state r) = (s, l) ->
      let recv := r_recv r ++ taken e (r_state r) in
      let sent := r_sent r ++ given e (r_state r) in
      reachable ext (addExchanged (concat ((fun c => done c recv sent) <$> callbacks l)) (setCalls (calls y ++ ((fun c => (h, c)) <$> callbacks l))
        (setRuns (<[h := mkRun (r_deal r) s recv sent (r_log r ++ l)]> (runs y)) y)))
  | reach_call y c1 h c c2 peer s es :
      reachable ext y -> calls y = c1 ++ (h, c) :: c2 -> deliver h c peer (acceptor y) = (s, es) ->
      reachable ext (perform [] 0 es (setCalls (c1 ++ c2) (setAcceptor s y)))
  | reach_fini y s es :
      reachable ext y -> Fini (acceptor y) = (s, es) -> reachable ext (perform [] 0 es (setAcceptor s y)).

(** Where the sockets are: given to the observer or closed by the acceptor, on their way in
    a call, or held by a handshaker. *)
Definition outs (l : list effect) : list Z :=
  omap (fun e => match e with OnAccept sockId _ _ _ _ _ | CloseSock sockId => Some sockId | _ => None end) l.
Definition sockets (y : sys) : list Z := outs (log y) ++ closed y ++ passing (calls y) ++ held (runs y).

End AcceptorSystem.

Module AcceptorLemmas.
Import CProAcceptor HandshakerSpec HandshakerRuns HandshakerRunLemmas AcceptorSystem.

Lemma outs_app l l' : outs (l ++ l') = outs l ++ outs l'.
Proof. unfold outs. apply omap_app. Qed.
Definition creates (e : effect) : bool := match e with CreateHandshaker _ _ _ _ _ _ _ => true | _ => false end.

(** Effects that create nothing. *)
Record performed (es : list effect) (y y' : sys) : Prop := mkPerformed {
  pf_acceptor : acceptor y' = acceptor y;
  pf_calls : calls y' = calls y;
  pf_accepted : accepted y' = accepted y;
  pf_exchanged : exchanged y' = exchanged y;
  pf_log : log y' = log y ++ es;
  pf_runs : forall h r, runs y' !! h = Some r <-> runs y !! h = Some r /\ DeleteHandshaker h ∉ es;
  pf_sockets : sockets y' ≡ₚ outs es ++ sockets y
}.

Lemma performed_plain e y : (forall h, e <> DeleteHandshaker h) -> performed [e] y (addLog e y).
Proof.
  intros He. split; cbn; try done.
  - intros h' r. rewrite list_elem_of_singleton. split; [|by intros []]. intros H. split; [done|]. intros E. by apply (He h').
  - unfold sockets. cbn [log closed calls runs addLog]. rewrite outs_app, <- (assoc_L (++)). apply Permutation_app_swap_app.
Qed.
Lemma performed_ok mem timer es y : Forall (fun e => creates e = false) es -> performed es y (perform mem timer es y).
Proof.
  revert y. induction es as [|e es IH]; intros y Hc; cbn.
  - split; try done; [by rewrite app_nil_r|]. intros h r. split; [|by intros []]. intros H. split; [done|]. apply not_elem_of_nil.
  - apply Forall_cons in Hc as [Hc Hcs]. specialize (IH (perform1 mem timer y e) Hcs).
    assert (H1 : performed [e] y (perform1 mem timer y e)).
    { unfold perform1. destruct e as [| | | | |h|]; try done; try by apply performed_plain.
      unfold deleteRun. destruct (runs y !! h) as [r|] eqn:E.
      - split; cbn; try done.
        + intros h' r'. rewrite lookup_delete_Some, list_elem_of_singleton. split; [intros [? ?]; split; [done|by intros [= ->]]|].
          intros [Hr Hn]. split; [|done]. intros ->. by apply Hn.
        + unfold sockets. cbn. rewrite outs_app, delete_released, app_nil_r. rewrite (held_delete _ _ _ E). fold (heldBy r).
          f_equiv. rewrite <- (assoc_L (++)). f_equiv. apply Permutation_app_swap_app.
      - split; cbn; try done.
        + intros h' r'. rewrite list_elem_of_singleton. split; [|by intros []]. intros Hr. split; [done|]. intros [= ->]. congruence.
        + unfold sockets. cbn. by rewrite outs_app, app_nil_r. }
    change (performed (e :: es) y (perform mem timer es (perform1 mem timer y e))).
    destruct H1 as [A1 A2 A3 A4 A5 A6 A7], IH as [B1 B2 B3 B4 B5 B6 B7]. split; try congruence.
    + rewrite B5, A5. by rewrite <- (assoc_L (++)).
    + intros h r. rewrite B6, A6, list_elem_of_singleton, elem_of_cons. tauto.
    + rewrite B7, A7. change (e :: es) with ([e] ++ es). rewrite outs_app. rewrite (assoc_L (++)). f_equiv. apply Permutation_app_comm.
Qed.

(** ** The invariant *)

Section system.
Context (ext : bool).

Definition accept_ok (ex : list (Z * list Z * list Z)) (e : effect) : Prop :=
  match e with
  | OnAccept k _ _ serviceId serviceOpt nonce =>
      if ext then 0 <= nonce < 2 ^ 64 /\ exists r, (k, be_bytes 8 nonce, [serviceId; serviceOpt; r; u8 (r + 1)]) ∈ ex
      else serviceId = 0 /\ serviceOpt = 0 /\ nonce = 0
  | _ => True
  end.

Record inv (y : sys) : Prop := mkInv {
  iv_ext : m_enableServiceExt (acceptor y) = ext;
  iv_sorted : stl_sorted (m_handshaker2Nonce (acceptor y));
  iv_idle : active (acceptor y) = false -> m_handshaker2Nonce (acceptor y) = [];
  iv_map : forall h nonce, stl_find h (m_handshaker2Nonce (acceptor y)) = Some (h, nonce) -> is_Some (runs y !! h);
  iv_run : forall h r, runs y !! h = Some r ->
    h <> 0 /\ exists nonce, stl_find h (m_handshaker2Nonce (acceptor y)) = Some (h, nonce) /\ 0 <= nonce < 2 ^ 64 /\ run_ok r (be_bytes 8 nonce) 4;
  iv_calls : NoDup (calls y).*1;
  iv_call : forall h c, (h, c) ∈ calls y -> h <> 0 /\
    match c with CProTcpHandshaker.OnHandshakeOk k _ _ _ => k <> -1 | _ => True end /\
    forall r, runs y !! h = Some r -> callbacks (r_log r) = [c] /\ (forall x, x ∈ done c (r_recv r) (r_sent r) -> x ∈ exchanged y);
  iv_sockets : accepted y ≡ₚ sockets y;
  iv_accept : Forall (accept_ok (exchanged y)) (log y);
  iv_size : zlen (m_handshaker2Nonce (acceptor y)) <= 5000;
  iv_plain : ext = false -> forall h, runs y !! h = None
}.

(** The acceptor has removed handshakers from its map, and had effects that delete exactly
    these. *)
Lemma inv_perform y a es cs mem timer : inv y -> m_enableServiceExt a = ext ->
  stl_sorted (m_handshaker2Nonce a) -> (active a = false -> m_handshaker2Nonce a = []) ->
  (forall h nonce, stl_find h (m_handshaker2Nonce a) = Some (h, nonce) <->
     stl_find h (m_handshaker2Nonce (acceptor y)) = Some (h, nonce) /\ DeleteHandshaker h ∉ es) ->
  zlen (m_handshaker2Nonce a) <= 5000 -> Forall (fun e => creates e = false) es ->
  Forall (accept_ok (exchanged y)) es ->
  NoDup cs.*1 -> (forall x, x ∈ cs -> x ∈ calls y) ->
  forall new, passing (calls y) ++ new ≡ₚ outs es ++ passing cs ->
  inv (perform mem timer es (setCalls cs (addAccepted new (setAcceptor a y)))).
Proof.
  intros [I1 I2 I3 I4 I5 I6 I7 I8 I9 I10 I11] Hext Hs Hidle Hmap Hsz Hcr Hacc Hnd Hsub new Hnew.
  destruct (performed_ok mem timer es (setCalls cs (addAccepted new (setAcceptor a y))) Hcr) as [P1 P2 P3 P4 P5 P6 P7].
  cbn [acceptor calls accepted exchanged log runs setCalls addAccepted setAcceptor] in *.
  split; rewrite ?P1, ?P2, ?P3, ?P4, ?P5; try done.
  - intros h nonce (Hf & Hn)%Hmap. destruct (I4 h nonce Hf) as [r Hr]. exists r. by apply P6.
  - intros h r [Hr Hn]%P6. destruct (I5 h r Hr) as (H0 & nonce & Hf & Hrange & Hok). split; [done|]. exists nonce. split; [|done]. by apply Hmap.
  - intros h c (H0 & Hc & Hr)%Hsub%I7. split; [done|]. split; [done|]. intros r [Hr' _]%P6. by apply Hr.
  - rewrite P7, I8. unfold sockets. cbn [log closed calls runs setCalls addAccepted setAcceptor].
    rewrite <- !(assoc_L (++)). rewrite (Permutation_app_comm (held (runs y)) new). rewrite (assoc_L (++) (passing (calls y))), Hnew.
    rewrite <- !(assoc_L (++)). rewrite (Permutation_app_swap_app (closed y) (outs es)), (Permutation_app_swap_app (outs (log y)) (outs es)). done.
  - by apply Forall_app.
  - intros He h. destruct (runs (perform _ _ _ _) !! h) as [r|] eqn:Er; [|done]. apply P6 in Er as [Er _]. by rewrite (I11 He) in Er.
Qed.

Lemma setCalls_same y : setCalls (calls y) y = y.
Proof. by destruct y. Qed.
Lemma addAccepted_nil y : addAccepted [] y = y.
Proof. destruct y. unfold addAccepted. cbn. by rewrite app_nil_r. Qed.

(** [Fini] *)
Lemma fini_ok y s es : inv y -> Fini (acceptor y) = (s, es) -> inv (perform [] 0 es (setAcceptor s y)).
Proof.
  intros Hinv. pose proof Hinv as [I1 I2 I3 I4 I5 I6 I7 I8 I9 I10 I11].
  rewrite <- (setCalls_same (setAcceptor s y)), <- (addAccepted_nil (setAcceptor s y)). cbn [calls addAccepted setAcceptor].
  unfold Fini. destruct (active (acceptor y)) eqn:Ea; cbn [negb]; intros [= <- <-].
  - assert (Hout : forall l : list (Z * Z), outs (map (fun e => DeleteHandshaker (fst e)) l) = []) by (induction l; [done|exact IHl]).
    apply inv_perform; try done; cbn.
    + intros h nonce. split; [done|]. intros [Hf Hn]. exfalso. apply Hn. do 2 right. apply list_elem_of_In, List.in_map_iff.
      exists (h, nonce). split; [done|]. apply list_elem_of_In. by apply (stl_find_Some_elem h).
    + repeat constructor. apply Forall_map. by apply Forall_true.
    + repeat constructor. apply Forall_map. by apply Forall_true.
    + by rewrite app_nil_r, Hout.
  - apply inv_perform; try done.
    + intros _. by apply I3.
    + intros h nonce. split; [|by intros []]. intros Hf. split; [done|apply not_elem_of_nil].
    + by rewrite app_nil_r.
Qed.

Lemma creates_close k : Forall (fun e => creates e = false) (closeSock k) /\ (forall ex, Forall (accept_ok ex) (closeSock k)) /\
  outs (closeSock k) = (if k =? -1 then [] else [k]) /\ (forall h, DeleteHandshaker h ∉ closeSock k).
Proof. unfold closeSock. destruct (k =? -1); split_and!; try by repeat constructor. all: intros h; rewrite ?list_elem_of_singleton; by intros ?%not_elem_of_nil || done. Qed.

(** The four bytes of a service are those that were received. *)
Lemma four_bytes recv : zlen recv = 4 -> byteAt 3 recv = u8 (byteAt 2 recv + 1) ->
  recv = [byteAt 0 recv; byteAt 1 recv; byteAt 2 recv; u8 (byteAt 2 recv + 1)].
Proof.
  unfold zlen. intros Hl H3. destruct recv as [|b0 [|b1 [|b2 [|b3 [|]]]]]; cbn in Hl; try lia. cbn in *. by rewrite H3.
Qed.

Lemma delivered_ok y c1 h c c2 peer s es : inv y -> calls y = c1 ++ (h, c) :: c2 -> deliver h c peer (acceptor y) = (s, es) ->
  inv (perform [] 0 es (setCalls (c1 ++ c2) (setAcceptor s y))).
Proof.
  intros Hinv Hc. pose proof Hinv as [I1 I2 I3 I4 I5 I6 I7 I8 I9 I10 I11].
  destruct (pending_split _ _ _ _ _ Hc I6) as (Hnd & Hsub & Hin & Hpass). destruct (I7 h c Hin) as (Hh & Hk & Hr).
  rewrite <- (addAccepted_nil (setAcceptor s y)). unfold deliver.
  assert (Hplain : s = acceptor y -> Forall (fun e => creates e = false) es -> (forall ex, Forall (accept_ok ex) es) ->
    (forall h, DeleteHandshaker h ∉ es) -> outs es = (match c with CProTcpHandshaker.OnHandshakeOk k _ _ _ => [k] | _ => [] end) ->
    inv (perform [] 0 es (setCalls (c1 ++ c2) (addAccepted [] (setAcceptor s y))))).
  { intros -> Hcr Hacc Hdel Hout. apply inv_perform; try done.
    - intros h' nonce. split; [|by intros []]. intros Hf. by split.
    - by rewrite app_nil_r, Hpass, Hout. }
  assert (Herase : forall nonce es', stl_find h (m_handshaker2Nonce (acceptor y)) = Some (h, nonce) ->
    s = setHandshakers (stl_erase h (m_handshaker2Nonce (acceptor y))) (acceptor y) ->
    es = es' -> Forall (fun e => creates e = false) es -> Forall (accept_ok (exchanged y)) es ->
    (forall h', DeleteHandshaker h' ∈ es <-> h' = h) -> outs es = (match c with CProTcpHandshaker.OnHandshakeOk k _ _ _ => [k] | _ => [] end) ->
    inv (perform [] 0 es (setCalls (c1 ++ c2) (addAccepted [] (setAcceptor s y))))).
  { intros nonce es' Hf -> -> Hcr Hacc Hdel Hout. apply inv_perform; try done; cbn.
    - by apply stl_sorted_erase.
    - intros Ha. by rewrite (I3 Ha).
    - intros h' nonce'. rewrite stl_find_erase_iff by done. rewrite Hdel. naive_solver.
    - pose proof (stl_length_erase h (m_handshaker2Nonce (acceptor y)) (h, nonce) Hf). unfold zlen in *. lia.
    - by rewrite app_nil_r, Hpass, Hout. }
  destruct c as [| | | |k u buf size|e|]; try (intros [= <- <-]; apply Hplain; by try intros ?; try apply not_elem_of_nil).
  - unfold OnHandshakeOk. rewrite (proj2 (Z.eqb_neq h 0)), (proj2 (Z.eqb_neq k (-1))) by done. cbn [orb].
    assert (Hone : forall h', DeleteHandshaker h' ∉ [CloseSock k]) by (by intros h' ?%list_elem_of_singleton).
    destruct (active (acceptor y)) eqn:Ea; cbn [negb]; [|intros [= <- <-]; apply Hplain; by repeat constructor].
    destruct (stl_find h (m_handshaker2Nonce (acceptor y))) as [[h0 nonce]|] eqn:Ef; [|intros [= <- <-]; apply Hplain; by repeat constructor].
    destruct (stl_find_Some_elem _ _ _ Ef) as [_ Eh]. cbn in Eh. subst h0.
    destruct (I4 h nonce Ef) as [r Hrun]. destruct (I5 h r Hrun) as (_ & nonce' & Ef' & Hrange & Hok). rewrite Ef in Ef'. injection Ef' as <-.
    destruct (Hr r Hrun) as [Hcb Hex]. destruct (run_outcome r _ _ Hok) as (Hout & _). rewrite Hcb in Hout.
    destruct Hout as (Hks & _ & Hsent & Hsize & Hlen & Hbuf). rewrite (ro_recv _ _ _ Hok) in *. cbn in Hbuf. subst size buf. cbn [default].
    rewrite (ro_send _ _ _ Hok) in Hsent.
    assert (Hdel : forall es1 es2, (forall h', DeleteHandshaker h' ∉ es1) -> (forall h', DeleteHandshaker h' ∉ es2) ->
      forall h', DeleteHandshaker h' ∈ (es1 ++ [DeleteHandshaker h]) ++ es2 <-> h' = h).
    { intros es1 es2 H1 H2 h'. specialize (H1 h'). specialize (H2 h'). rewrite !elem_of_app, list_elem_of_singleton. naive_solver. }
    destruct (negb u && bool_decide (peer = None)) eqn:Epeer.
    + set (v := bool_decide _ && _ && _). assert (E : (if v then (-1, [CloseSock k]) else (-1, [CloseSock k] ++ closeSock (-1))) = (-1, [CloseSock k])) by (by destruct v).
      rewrite E. cbn [Z.eqb]. intros [= <- <-]. eapply Herase; try done; [by repeat constructor..|].
      intros h'. pose proof (Hdel [CloseSock k] [] Hone ltac:(intros; apply not_elem_of_nil) h') as Hd. by rewrite app_nil_r in Hd.
    + destruct (bool_decide _ && _ && _) eqn:Ev.
      * rewrite (proj2 (Z.eqb_neq k (-1))) by done. intros [= <- <-]. eapply Herase; try done.
        -- by repeat constructor.
        -- repeat constructor. cbn. destruct ext eqn:Eext.
           ++ apply andb_true_iff in Ev as [_ Ev]. apply Z.eqb_eq in Ev. split; [done|]. exists (byteAt 2 (r_recv r)).
              rewrite <- (four_bytes (r_recv r)) by done. apply Hex. cbn. rewrite Hsent. by left.
           ++ by rewrite I11 in Hrun.
        -- apply (Hdel []); [intros; apply not_elem_of_nil|]. by intros h' ?%list_elem_of_singleton.
      * cbn [app]. destruct (creates_close k) as (Hc1 & Hc2 & Hc3 & Hc4). cbn [Z.eqb]. intros [= <- <-]. eapply Herase; try done.
        -- apply Forall_app; split; [done|by repeat constructor].
        -- apply Forall_app; split; [done|by repeat constructor].
        -- intros h'. pose proof (Hdel (closeSock k) [] Hc4 ltac:(intros; apply not_elem_of_nil) h') as Hd. by rewrite app_nil_r in Hd.
        -- rewrite outs_app, Hc3, (proj2 (Z.eqb_neq k (-1))) by done. done.
  - unfold OnHandshakeError. rewrite (proj2 (Z.eqb_neq h 0)) by done.
    destruct (active (acceptor y)) eqn:Ea; cbn [negb]; [|intros [= <- <-]; apply Hplain; by try intros ?; try apply not_elem_of_nil].
    destruct (stl_find h (m_handshaker2Nonce (acceptor y))) as [[h0 nonce]|] eqn:Ef; [|intros [= <- <-]; apply Hplain; by try intros ?; try apply not_elem_of_nil].
    destruct (stl_find_Some_elem _ _ _ Ef) as [_ Eh]. cbn in Eh. subst h0. intros [= <- <-]. eapply Herase; try done; [by repeat constructor..|].
    intros h'. rewrite list_elem_of_singleton. naive_solver.
Qed.

(** An event of a handshaker. *)
Lemma handshake_ok y h r e s l : inv y -> runs y !! h = Some r -> kernel e (r_state r) -> e <> CProTcpHandshaker.Deleted ->
  CProTcpHandshaker.handle e (r_state r) = (s, l) ->
  let recv := r_recv r ++ taken e (r_state r) in
  let sent := r_sent r ++ given e (r_state r) in
  inv (addExchanged (concat ((fun c => done c recv sent) <$> callbacks l)) (setCalls (calls y ++ ((fun c => (h, c)) <$> callbacks l))
    (setRuns (<[h := mkRun (r_deal r) s recv sent (r_log r ++ l)]> (runs y)) y))).
Proof.
  intros [I1 I2 I3 I4 I5 I6 I7 I8 I9 I10 I11] Hr Hk He E recv sent. destruct (I5 h r Hr) as (H0 & nonce & Hf & Hrange & Hok).
  destruct (run_step r _ _ e s l Hok Hk He E) as (Hok' & Hheld & Hcb). cbv zeta in Hok', Hheld. fold recv sent in Hok', Hheld. set (r' := mkRun _ s _ _ _) in *.
  destruct (run_outcome r' _ _ Hok') as (Hout & _).
  assert (Hnew : forall h' c, (h', c) ∈ (fun c => (h, c)) <$> callbacks l -> h' = h /\ callbacks l = [c]).
  { intros h' c Hin. apply list_elem_of_fmap in Hin as (c' & [= -> ->] & Hin). split; [done|].
    destruct Hcb as [Hn|(c0 & Hn & _)]; rewrite Hn in *; [by apply not_elem_of_nil in Hin|]. by apply list_elem_of_singleton in Hin as ->. }
  assert (Hold : forall c, (h, c) ∈ calls y -> callbacks l = []).
  { intros c Hin. destruct (I7 h c Hin) as (_ & _ & Hc). destruct (Hc r Hr) as [Hc1 _]. destruct Hcb as [?|(c0 & _ & Hc2 & _)]; [done|]. by rewrite Hc1 in Hc2. }
  split; cbn [acceptor runs calls accepted exchanged log closed addExchanged setCalls setRuns]; try done.
  - intros h' nonce' Hf'. destruct (decide (h' = h)) as [->|Hne]; [rewrite lookup_insert_eq; by eexists|]. rewrite lookup_insert_ne by done. by apply (I4 h' nonce').
  - intros h' r1. rewrite lookup_insert_Some. intros [[<- <-]|[_ Hr1]]; [|by apply I5]. split; [done|]. by exists nonce.
  - rewrite fmap_app. apply NoDup_app. split; [done|]. split.
    + intros h' Hh' Hin. apply list_elem_of_fmap in Hin as ([h1 c1] & -> & Hin). destruct (Hnew _ _ Hin) as [-> Hcl]. cbn in Hh'.
      apply list_elem_of_fmap in Hh' as ([h2 c2] & Eh & Hh'). cbn in Eh. subst h2. rewrite (Hold c2 Hh') in Hcl. done.
    + destruct Hcb as [->|(c & -> & _)]; [constructor|]. cbn. apply NoDup_singleton.
  - intros h' c [Hin|Hin]%elem_of_app.
    + destruct (I7 h' c Hin) as (Hh' & Hck & Hc). split; [done|]. split; [done|]. intros r1. rewrite lookup_insert_Some. intros [[<- <-]|[_ Hr1]].
      * rewrite (Hold c Hin) in *. destruct (Hc r Hr) as [Hc1 Hc2]. cbn [r_log r_recv r_sent r']. rewrite HandshakerLemmas.callbacks_app, Hold with c by done.
        rewrite app_nil_r. split; [done|]. intros x Hx. apply elem_of_app. left. apply Hc2.
        destruct c as [| | | |k u buf size| |]; cbn [done] in *; try by apply not_elem_of_nil in Hx.
        pose proof (run_outcome r _ _ Hok) as (Ho1 & _). rewrite Hc1 in Ho1. destruct Ho1 as (_ & _ & Es1 & _ & El1 & _).
        cbn [r_log r'] in Hout. rewrite HandshakerLemmas.callbacks_app, Hc1, (Hold _ Hin) in Hout. cbn in Hout. destruct Hout as (_ & _ & Es2 & _ & El2 & _).
        cbn [r_deal r_sent r_recv r'] in Es2, El2. rewrite Es2, <- Es1 in Hx. unfold recv in El2, Hx. rewrite zlen_app in El2.
        assert (Ht : taken e (r_state r) = []) by (apply zlen_zero; lia). by rewrite Ht, app_nil_r in Hx.
      * destruct (Hc r1 Hr1) as [Hc1 Hc2]. split; [done|]. intros x Hx. apply elem_of_app. left. by apply Hc2.
    + destruct (Hnew h' c Hin) as [-> Hcl]. split; [done|]. destruct Hcb as [Hn|(c0 & Hn & _ & Hlog)]; [by rewrite Hn in Hcl|].
      rewrite Hcl in Hn. injection Hn as <-. cbn [r_log r'] in Hout. rewrite Hlog in Hout. split.
      * destruct c; try done. destruct Hout as (-> & _). apply (do_sock _ (ro_deal _ _ _ Hok)).
      * intros r1. rewrite lookup_insert_eq. intros [= <-]. split; [done|]. intros x Hx. apply elem_of_app. right. rewrite Hcl. cbn. by rewrite app_nil_r.
  - rewrite I8. unfold sockets. cbn [log closed calls runs addExchanged setCalls setRuns]. rewrite (held_delete _ _ _ Hr), (held_update _ _ _ r' Hr).
    rewrite passing_app, (passing_key h 0), Hheld. rewrite <- !(assoc_L (++)). do 3 f_equiv.
  - eapply Forall_impl; [exact I9|]. intros [] Ha; try done. cbn in *. destruct ext; [|done]. destruct Ha as (? & b & Hb). split; [done|]. exists b. apply elem_of_app. by left.
  - intros Hext h'. rewrite (I11 Hext) in Hr. done.
Qed.

(** A connection comes in. *)
Lemma gets_ok y sockId newSockId : sockId <> -1 -> active (acceptor y) = true -> newSockId <> -1 ->
  negb (sockId =? m_sockId (acceptor y)) && negb (sockId =? m_sockIdUn (acceptor y)) = false -> gets sockId newSockId (acceptor y) = [newSockId].
Proof.
  intros H1 H2 H3 H4. unfold gets. rewrite (proj2 (Z.eqb_neq sockId _)), (proj2 (Z.eqb_neq newSockId _)), H2 by done.
  by destruct (sockId =? m_sockId _), (sockId =? m_sockIdUn _).
Qed.

Lemma input_ok y sockId newSockId remote random h mem timer s es : inv y -> 0 <= random < 2 ^ 64 -> zlen mem = 4 ->
  runs y !! h = None -> h ∉ (calls y).*1 -> OnInput sockId newSockId remote random h (acceptor y) = (s, es) ->
  inv (perform mem timer es (addAccepted (gets sockId newSockId (acceptor y)) (setAcceptor s y))).
Proof.
  intros Hinv Hrand Hmem Hfresh Hcalls. pose proof Hinv as [I1 I2 I3 I4 I5 I6 I7 I8 I9 I10 I11].
  assert (Hplain : forall es new, Forall (fun e => creates e = false) es -> Forall (accept_ok (exchanged y)) es ->
    (forall h, DeleteHandshaker h ∉ es) -> outs es = new ->
    inv (perform mem timer es (addAccepted new (setAcceptor (acceptor y) y)))).
  { intros es' new Hcr Hacc Hdel Hout. change (addAccepted new _) with (setCalls (calls y) (addAccepted new (setAcceptor (acceptor y) y))).
    apply inv_perform; try done.
    - intros h' nonce. split; [|by intros []]. intros Hf. by split.
    - rewrite Hout. apply Permutation_app_comm. }
  assert (Hnone : inv (perform mem timer [] (addAccepted [] (setAcceptor (acceptor y) y)))) by (apply Hplain; try done; intros; apply not_elem_of_nil).
  unfold OnInput. destruct (Z.eqb_spec sockId (-1)) as [E|Hsock]; [unfold gets; rewrite E; by intros [= <- <-]|].
  destruct (active (acceptor y)) eqn:Ea; cbn [negb]; [|unfold gets; rewrite Ea, andb_false_r; by intros [= <- <-]].
  destruct (negb _ && negb _) eqn:El; [unfold gets; intros [= <- <-]; apply andb_true_iff in El as [E1%negb_true_iff E2%negb_true_iff]; by rewrite E1, E2, andb_false_r|].
  destruct (Z.eqb_spec newSockId (-1)) as [E|Hk]; [unfold gets; rewrite E; intros [= <- <-]; by rewrite andb_false_r|].
  rewrite (gets_ok y sockId newSockId) by done.
  assert (Hone : forall h', DeleteHandshaker h' ∉ [CloseSock newSockId]) by (by intros h' ?%list_elem_of_singleton).
  destruct (zlen _ >=? 5000) eqn:Esz; [intros [= <- <-]; apply Hplain; try done; by repeat constructor|].
  rewrite I1. destruct ext eqn:Eext.
  2: { intros [= <- <-]. apply Hplain; try done; [by repeat constructor| |by intros h' ?%list_elem_of_singleton].
    constructor; [|constructor]. cbn. by rewrite Eext. }
  rewrite ntoh64_hton64, hton64_bytes by done.
  destruct (Z.eqb_spec h 0) as [->|Hh].
  - intros [= <- <-]. set (c := CreateHandshaker 0 newSockId _ _ 4 false _).
    pose proof (Hplain [CloseSock newSockId] [newSockId] ltac:(by repeat constructor) ltac:(by repeat constructor) Hone eq_refl) as [J1 J2 J3 J4 J5 J6 J7 J8 J9 J10 J11].
    split; try done; cbn [perform foldl perform1] in *.
    + unfold perform1, sockets, c in *. cbn [Z.eqb log closed calls runs accepted addLog] in *. rewrite J8, !outs_app. cbn. by rewrite app_nil_r.
    + unfold perform1, c in *. cbn [Z.eqb log exchanged addLog] in *. apply Forall_app in J9 as [J9 _]. apply Forall_app; split; [|by repeat constructor].
      apply Forall_app; split; [done|by repeat constructor].
  - destruct (create_ok mem timer newSockId (negb (sockId =? m_sockId (acceptor y))) (be_bytes 8 random) 4 false (m_timeoutInSeconds (acceptor y))) as (r & Hcr & Hok & Hheld & _);
      [split; cbn [sock toSend toRecv]; [done|by rewrite zlen_be_bytes|done]|done|].
    assert (Hnf : stl_find h (m_handshaker2Nonce (acceptor y)) = None).
    { destruct (stl_find h _) as [[h0 n]|] eqn:E; [|done]. destruct (stl_find_Some_elem _ _ _ E) as [_ Eh]. cbn in Eh. subst h0.
      destruct (I4 h n E) as [? ?]. congruence. }
    intros [= <- <-]. cbn [perform foldl]. unfold perform1. rewrite (proj2 (Z.eqb_neq h 0)), Hcr by done.
    split; cbn [acceptor runs calls accepted exchanged log closed addLog setRuns addAccepted setAcceptor setHandshakers m_enableServiceExt active m_handshaker2Nonce]; try done.
    + by rewrite Eext.
    + by apply stl_sorted_assign.
    + by rewrite Ea.
    + intros h' nonce' Hf. apply stl_find_assign_iff in Hf as [[-> _]|[Hne Hf]]; [rewrite lookup_insert_eq; by eexists|].
      rewrite lookup_insert_ne by done. by apply (I4 h' nonce').
    + intros h' r'. rewrite lookup_insert_Some. intros [[<- <-]|[Hne Hr']].
      * split; [done|]. exists random. split; [apply stl_find_assign_pair|by split].
      * destruct (I5 h' r' Hr') as (? & n & Hf & Hok'). split; [done|]. exists n. split; [|done]. apply stl_find_assign_iff. by right.
    + intros h' c Hin. destruct (I7 h' c Hin) as (? & ? & Hc). split; [done|]. split; [done|]. intros r'.
      rewrite lookup_insert_ne; [apply Hc|]. intros <-. apply Hcalls. apply list_elem_of_fmap. by exists (h, c).
    + rewrite I8. unfold sockets. cbn [log closed calls runs addLog setRuns addAccepted setAcceptor].
      rewrite held_insert, Hheld, outs_app, app_nil_r by done. rewrite <- !(assoc_L (++)). do 3 f_equiv. apply Permutation_app_comm.
    + apply Forall_app; split; [done|by repeat constructor].
    + unfold zlen in *. pose proof (stl_length_insert (h, random) _ Hnf). rewrite stl_assign_fresh by done. lia.
    + by rewrite Eext.
Qed.

Lemma listening_ok validIp timeout inet local port stale s l :
  Init validIp timeout inet local port stale (construct ext) = (true, s, l) -> inv (mkSys s ∅ [] [] [] l []).
Proof.
  unfold Init. cbn [active construct]. destruct validIp; cbn [negb]; [|done].
  destruct (negb (listens inet)); [done|]. destruct (negb _); [done|]. intros [= <- <-].
  split; cbn; try done.
  - by constructor.
  - intros h c Hin. by apply not_elem_of_nil in Hin.
  - unfold sockets. cbn. by repeat case_match.
  - repeat case_match; by repeat constructor.
Qed.

Lemma acceptor_inv y : reachable ext y -> inv y.
Proof.
  induction 1; [by eapply listening_ok|by eapply input_ok|by eapply handshake_ok|by eapply delivered_ok|by eapply fini_ok].
Qed.

End system.

End AcceptorLemmas.

Module AcceptorTheorems.
Import CProAcceptor HandshakerSpec HandshakerRuns HandshakerRunLemmas AcceptorSystem AcceptorLemmas.

(** What the call of a handshaker that is done makes of the acceptor. *)
Lemma done_accepted ext y h r k u buf size peer : inv ext y -> runs y !! h = Some r ->
  (h, CProTcpHandshaker.OnHandshakeOk k u buf size) ∈ calls y -> active (acceptor y) = true -> (u = true \/ peer <> None) ->
  byteAt 3 (r_recv r) = u8 (byteAt 2 (r_recv r) + 1) ->
  exists nonce remote, r_sent r = be_bytes 8 nonce /\
    OnAccept k u remote (byteAt 0 (r_recv r)) (byteAt 1 (r_recv r)) nonce ∈
      snd (deliver h (CProTcpHandshaker.OnHandshakeOk k u buf size) peer (acceptor y)).
Proof.
  intros Hinv Hr Hin Ha Hpeer Hbytes. destruct (iv_call _ _ Hinv _ _ Hin) as (Hh & Hk & Hc). destruct (Hc r Hr) as [Hcb _].
  destruct (iv_run _ _ Hinv _ _ Hr) as (_ & nonce & Hf & _ & Hok). destruct (run_outcome r _ _ Hok) as (Hout & _). rewrite Hcb in Hout.
  destruct Hout as (_ & _ & Hsent & Hsize & _ & Hbuf). rewrite (ro_recv _ _ _ Hok) in *. rewrite (ro_send _ _ _ Hok) in Hsent. cbn in Hbuf. subst size buf.
  cbn [deliver]. unfold OnHandshakeOk. rewrite (proj2 (Z.eqb_neq h 0)), (proj2 (Z.eqb_neq k (-1))), Ha, Hf by done. cbn [orb negb default].
  assert (Hp : negb u && bool_decide (peer = None) = false) by (destruct Hpeer as [->|]; [done|]; rewrite bool_decide_eq_false_2 by done; apply andb_false_r).
  rewrite Hp. unfold id. rewrite (proj2 (Z.eqb_eq _ _) Hbytes), bool_decide_eq_true_2 by done. cbn [andb Z.eqb Pos.eqb]. rewrite (proj2 (Z.eqb_neq k (-1))) by done.
  exists nonce. eexists. split; [done|]. cbn. right. left.
Qed.

(** C7: the acceptor with all its handshakers, when connections come in, handshakes go on,
    calls of handshakers arrive late and [Fini] comes at any time.  No socket is lost or used
    twice: each one that the kernel has given has been given to the observer once, or closed
    once, or is on its way in the call of a handshaker, or held by exactly one handshaker.
    There are 5000 handshakers at most, and none after [Fini].  With the service extension
    each [OnAccept] gives a nonce that was sent, in network order, over the same socket, and
    the service that came back over it with two bytes [r] and [r + 1]; without it, zeros.  And
    a handshake that is done with such bytes is given to the observer. *)
Theorem acceptor_correct ext y : reachable ext y ->
  accepted y ≡ₚ outs (log y) ++ closed y ++ passing (calls y) ++ held (runs y) /\
  zlen (m_handshaker2Nonce (acceptor y)) <= 5000 /\
  (active (acceptor y) = false -> held (runs y) = []) /\
  (forall k u remote serviceId serviceOpt nonce, OnAccept k u remote serviceId serviceOpt nonce ∈ log y ->
     if ext then 0 <= nonce < 2 ^ 64 /\ exists r, (k, be_bytes 8 nonce, [serviceId; serviceOpt; r; u8 (r + 1)]) ∈ exchanged y
     else serviceId = 0 /\ serviceOpt = 0 /\ nonce = 0) /\
  (forall h r k u buf size peer, runs y !! h = Some r ->
     (h, CProTcpHandshaker.OnHandshakeOk k u buf size) ∈ calls y -> active (acceptor y) = true -> (u = true \/ peer <> None) ->
     byteAt 3 (r_recv r) = u8 (byteAt 2 (r_recv r) + 1) ->
     exists nonce remote, r_sent r = be_bytes 8 nonce /\
       OnAccept k u remote (byteAt 0 (r_recv r)) (byteAt 1 (r_recv r)) nonce ∈
         snd (deliver h (CProTcpHandshaker.OnHandshakeOk k u buf size) peer (acceptor y))).
Proof.
  intros Hr. pose proof (acceptor_inv _ _ Hr) as Hinv. split_and!.
  - apply (iv_sockets _ _ Hinv).
  - apply (iv_size _ _ Hinv).
  - intros Ha. assert (E : runs y = ∅); [|by rewrite E].
    apply map_empty. intros h. destruct (runs y !! h) as [r|] eqn:E; [|done].
    destruct (iv_run _ _ Hinv _ _ E) as (_ & nonce & Hf & _). by rewrite (iv_idle _ _ Hinv Ha) in Hf.
  - intros * Hin. by apply (proj1 (Forall_forall _ _) (iv_accept _ _ Hinv)) in Hin.
  - intros * ? ? ? ? ?. by eapply done_accepted.
Qed.

(** A client asks for service 3, a second one closes its connection. *)
Definition demoListening (k : Z) : listening := mkListening k true true true true.
Definition demoRemote : address := ([49; 48; 46; 48; 46; 48; 46; 49], 4000).
Definition demoNonce : Z := 258.

Lemma acceptor_demo :
  exists y, reachable true y /\ accepted y = [21; 22] /\ closed y = [22] /\ exchanged y = [(21, be_bytes 8 demoNonce, [3; 1; 255; 0])] /\
    OnAccept 21 false demoRemote 3 1 demoNonce ∈ log y.
Proof.
  pose proof (reach_start true true 0 (demoListening 8) (demoListening 9) 3000 false _ _ eq_refl) as H. vm_compute in H.
  let go t := let H1 := fresh in pose proof t as H1; vm_compute in H1; clear H; rename H1 into H in
  let input k h random := go (reach_input true _ 8 k demoRemote random h [0; 0; 0; 0] 5 _ _ H ltac:(by split; vm_compute) eq_refl
    ltac:(by vm_compute) ltac:(apply not_elem_of_nil) eq_refl) in
  let event h e := go (reach_handshake true _ h _ e _ _ H ltac:(by vm_compute) ltac:(by vm_compute) ltac:(done) (surjective_pairing _)) in
  let call h := go (reach_call true _ [] h _ [] (Some demoRemote) _ _ H ltac:(by vm_compute) (surjective_pairing _)) in
  input 21 101 demoNonce; input 22 102 77;
  event 101 (CProTcpHandshaker.Output 21 8 0 true);
  event 101 (CProTcpHandshaker.Input 21 (Received [3; 1]) true); event 101 (CProTcpHandshaker.Input 21 (Received [255; 0]) true);
  event 101 (CProTcpHandshaker.Output 21 0 0 true); call 101;
  event 102 (CProTcpHandshaker.Input 22 (Received []) true); call 102.
  eexists. split; [exact H|]. do 3 (split; [reflexivity|]). cbn [log]. repeat (first [left|right]).
Qed.
Lemma acceptor_correct_witness :
  exists y, reachable true y /\ accepted y = [21; 22] /\ closed y = [22] /\
    accepted y ≡ₚ outs (log y) ++ closed y ++ passing (calls y) ++ held (runs y).
Proof.
  destruct acceptor_demo as (y & H & Ha & Hc & _). exists y. do 3 (split; [done|]). exact (proj1 (acceptor_correct _ _ H)).
Defined.
End AcceptorTheorems.
