(* ===== verification/Connector.v ===== *)
(** * The connector ([pro_connector.cpp])

    A connector makes one attempt to connect: when its first timer fires it opens a socket,
    when the socket is connected it gives it to its observer, or to a handshaker first, which
    tells the acceptor at the other end which service is wanted.  Its second timer limits all
    of that.

    As for the acceptor, the methods are functions of what the socket calls answer, and
    [ConnectorSystem] runs them together with the handshaker and the timers. *)

From S2P Require Import Prelude Bytes Bsd NetPools RefCount Reactor Transport Handshaker HandshakerRuns.

Module CProConnector.
Local Abbreviation SERVICE_HANDSHAKE_BYTES := 4.
Local Abbreviation DEFAULT_TIMEOUT := 20.

(** An address in network order, with its port *)
Definition address : Type := Z * Z.

(** [CProConnector]: [active] is whether observer and reactor are set; a handshaker is an
    address or 0 *)
Record t := mkConnector {
  m_enableUnixSocket : bool;
  m_enableServiceExt : bool;
  m_serviceId : Z;
  m_serviceOpt : Z;
  active : bool;
  m_handshaker : Z;
  m_sockId : Z;
  m_unixSocket : bool;
  m_remoteAddr : address;
  m_timeoutInSeconds : Z;
  m_timerId0 : Z;
  m_timerId1 : Z
}.

Inductive effect :=
  | ScheduleTimer (ms : Z)
  | CancelTimer (timerId : Z)
  | AddHandler (sockId mask : Z)
  | RemoveHandler (sockId mask : Z)
  | CloseSock (sockId : Z)
  | CreateHandshaker (handshaker sockId : Z) (unixSocket : bool) (sendData : list Z) (recvDataSize : Z) (recvFirst : bool) (timeoutInSeconds : Z)
  | DeleteHandshaker (handshaker : Z)
  | OnConnectOk (sockId : Z) (unixSocket : bool) (remote : address) (serviceId serviceOpt nonce : Z)
  | OnConnectError (remote : address) (serviceId serviceOpt : Z) (timeout : bool).

Definition construct (enableUnixSocket enableServiceExt : bool) (serviceId serviceOpt : Z) : t :=
  mkConnector enableUnixSocket enableServiceExt (if enableServiceExt then serviceId else 0) (if enableServiceExt then serviceOpt else 0)
    false 0 (-1) false (0, 0) DEFAULT_TIMEOUT 0 0.

(** Changes of members: the socket and the handshaker; all of what [Init] sets; the end. *)
Definition setSock (sockId handshaker : Z) (s : t) : t :=
  mkConnector (m_enableUnixSocket s) (m_enableServiceExt s) (m_serviceId s) (m_serviceOpt s) (active s) handshaker sockId (m_unixSocket s)
    (m_remoteAddr s) (m_timeoutInSeconds s) (m_timerId0 s) (m_timerId1 s).
Definition start (unixSocket : bool) (remote : address) (timeoutInSeconds timerId0 timerId1 : Z) (s : t) : t :=
  mkConnector (m_enableUnixSocket s) (m_enableServiceExt s) (m_serviceId s) (m_serviceOpt s) true (m_handshaker s) (m_sockId s) unixSocket
    remote timeoutInSeconds timerId0 timerId1.
Definition stop (s : t) : t :=
  mkConnector (m_enableUnixSocket s) (m_enableServiceExt s) (m_serviceId s) (m_serviceOpt s) false (m_handshaker s) (m_sockId s) (m_unixSocket s)
    (m_remoteAddr s) (m_timeoutInSeconds s) 0 0.

Definition closeSock (sockId : Z) : list effect := if sockId =? -1 then [] else [CloseSock sockId].
Definition deleteHandshaker (handshaker : Z) : list effect := if handshaker =? 0 then [] else [DeleteHandshaker handshaker].
Definition cancelTimers (s : t) : list effect := [CancelTimer (m_timerId0 s); CancelTimer (m_timerId1 s)].

(** [Init]: [localAddr], [remoteAddr] and [loopback] are what [pbsd_inet_aton] makes of the
    addresses and of "127.0.0.1"; the timers are those that the reactor gives *)
Definition INADDR_NONE : Z := u32 (-1).
Definition Init (emptyIp : bool) (localAddr remoteAddr remotePort loopback timeoutInSeconds timerId0 timerId1 : Z) (s : t) : bool * t * list effect :=
  if emptyIp || (remotePort =? 0) then (false, s, []) else
  let timeoutInSeconds := if timeoutInSeconds =? 0 then DEFAULT_TIMEOUT else timeoutInSeconds in
  if (localAddr =? INADDR_NONE) || (remoteAddr =? INADDR_NONE) || (remoteAddr =? 0) then (false, s, []) else
  if active s || negb (m_handshaker s =? 0) then (false, s, []) else
  (true, start (m_enableUnixSocket s && (remoteAddr =? loopback)) (remoteAddr, remotePort) timeoutInSeconds timerId0 timerId1 s,
   [ScheduleTimer 0; ScheduleTimer (u64 (timeoutInSeconds * 1000))]).

(** [Fini] *)
Definition Fini (s : t) : t * list effect :=
  if negb (active s) then (s, []) else
  (setSock (m_sockId s) 0 (stop s), cancelTimers s ++ [RemoveHandler (m_sockId s) PRO_MASK_CONNECT] ++ deleteHandshaker (m_handshaker s)).

(** The destructor *)
Definition Delete (s : t) : t * list effect :=
  let '(s, effects) := Fini s in
  (setSock (-1) (m_handshaker s) s, effects ++ closeSock (m_sockId s)).

Definition connectError (timeout : bool) (s : t) : effect := OnConnectError (m_remoteAddr s) (m_serviceId s) (m_serviceOpt s) timeout.
Definition connectOk (sockId : Z) (unixSocket : bool) (nonce : Z) (s : t) : effect :=
  OnConnectOk sockId unixSocket (m_remoteAddr s) (m_serviceId s) (m_serviceOpt s) nonce.

(** [OnError]; [OnInput] and [OnException] call it *)
Definition OnError (sockId : Z) (s : t) : t * list effect :=
  if sockId =? -1 then (s, []) else
  if negb (active s) then (s, []) else
  if negb (sockId =? m_sockId s) then (s, []) else
  (stop s, cancelTimers s ++ [RemoveHandler (m_sockId s) PRO_MASK_CONNECT; connectError false s]).
Definition OnInput (sockId : Z) (s : t) : t * list effect := OnError sockId s.
Definition OnException (sockId : Z) (s : t) : t * list effect := OnError sockId s.

(** [OnOutput]; [random] is the byte [r], [handshaker] what [ProCreateTcpHandshaker] gives *)
Definition OnOutput (sockId random handshaker : Z) (s : t) : t * list effect :=
  if sockId =? -1 then (s, []) else
  if negb (active s) then (s, []) else
  if negb (sockId =? m_sockId s) then (s, []) else
  let removed := [RemoveHandler (m_sockId s) PRO_MASK_CONNECT] in
  if m_enableServiceExt s then
    let serviceData := [m_serviceId s; m_serviceOpt s; random; u8 (random + 1)] in
    let create := CreateHandshaker handshaker (m_sockId s) (m_unixSocket s) serviceData 8 true (m_timeoutInSeconds s) in
    if handshaker =? 0 then
      (stop (setSock (m_sockId s) 0 s), removed ++ [create] ++ cancelTimers s ++ [connectError false s])
    else (setSock (-1) handshaker s, removed ++ [create])
  else (stop (setSock (-1) (m_handshaker s) s), removed ++ cancelTimers s ++ [connectOk sockId (m_unixSocket s) 0 s]).

(** [OnHandshakeOk] *)
Definition OnHandshakeOk (handshaker sockId : Z) (unixSocket : bool) (buf : option (list Z)) (size : Z) (s : t) : t * list effect :=
  if (handshaker =? 0) || (sockId =? -1) then (s, []) else
  if negb (active s) || (m_handshaker s =? 0) then (s, [CloseSock sockId]) else
  if negb (handshaker =? m_handshaker s) then (s, [CloseSock sockId]) else
  let '(sockId, effects) := if bool_decide (buf = None) || negb (size =? 8) then (-1, [CloseSock sockId]) else (sockId, []) in
  (stop (setSock (m_sockId s) 0 s),
   effects ++ cancelTimers s ++
   [if negb (sockId =? -1) then connectOk sockId unixSocket (pbsd_ntoh64 (of_le (default [] buf))) s else connectError false s;
    DeleteHandshaker handshaker]).

(** [OnHandshakeError] *)
Definition OnHandshakeError (handshaker errorCode : Z) (s : t) : t * list effect :=
  if handshaker =? 0 then (s, []) else
  if negb (active s) || (m_handshaker s =? 0) then (s, []) else
  if negb (handshaker =? m_handshaker s) then (s, []) else
  (stop (setSock (m_sockId s) 0 s),
   cancelTimers s ++ [connectError (errorCode =? CProTcpHandshaker.PBSD_ETIMEDOUT) s; DeleteHandshaker handshaker]).

(** [OnTimer]: the socket that [pbsd_socket] gives, and whether each of the calls succeeds *)
Record attempt := mkAttempt { at_sock : Z; at_bound : bool; at_named : bool; at_connects : bool; at_added : bool }.
Definition OnTimer (timerId : Z) (a : attempt) (s : t) : t * list effect :=
  if timerId =? 0 then (s, []) else
  if negb (active s) then (s, []) else
  if negb (timerId =? m_timerId0 s) && negb (timerId =? m_timerId1 s) then (s, []) else
  let finished (error : bool) (sockId : Z) (effects : list effect) :=
    (stop (setSock (if error then -1 else sockId) 0 s),
     effects ++ cancelTimers s ++ (if error then closeSock sockId else [RemoveHandler sockId PRO_MASK_CONNECT]) ++
     [connectError (negb error) s] ++ deleteHandshaker (m_handshaker s)) in
  if timerId =? m_timerId0 s then
    if at_sock a =? -1 then finished true (-1) [] else
    let ready := if m_unixSocket s then at_connects a else at_bound a && at_named a && at_connects a in
    if negb ready then finished true (at_sock a) [] else
    let added := [AddHandler (at_sock a) PRO_MASK_CONNECT] in
    if negb (at_added a) then finished true (at_sock a) added else
    (setSock (at_sock a) (m_handshaker s) s, added)
  else finished false (m_sockId s) [].

End CProConnector.

(** ** A connector, its timers and its handshaker *)

Module ConnectorSystem.
Import CProConnector HandshakerSpec HandshakerRuns.

(** [running]: the handshaker with its address; [calls]: its calls that have not reached the
    connector yet; [timers]: those that have not fired (a cancelled one still may, when the
    timer thread has taken it already); [opened]: the sockets that the kernel has given;
    [exchanged] and [closed] as for the acceptor. *)
Record sys := mkSys {
  connector : t;
  running : option (Z * run);
  calls : list (Z * CProTcpHandshaker.effect);
  timers : list Z;
  opened : list Z;
  exchanged : list (Z * list Z * list Z);
  log : list effect;
  closed : list Z
}.

Definition setConnector (s : t) (y : sys) : sys := mkSys s (running y) (calls y) (timers y) (opened y) (exchanged y) (log y) (closed y).
Definition setRunning (r : option (Z * run)) (y : sys) : sys := mkSys (connector y) r (calls y) (timers y) (opened y) (exchanged y) (log y) (closed y).
Definition setCalls (l : list (Z * CProTcpHandshaker.effect)) (y : sys) : sys :=
  mkSys (connector y) (running y) l (timers y) (opened y) (exchanged y) (log y) (closed y).
Definition setTimers (l : list Z) (y : sys) : sys := mkSys (connector y) (running y) (calls y) l (opened y) (exchanged y) (log y) (closed y).
Definition addOpened (l : list Z) (y : sys) : sys := mkSys (connector y) (running y) (calls y) (timers y) (opened y ++ l) (exchanged y) (log y) (closed y).
Definition addExchanged (l : list (Z * list Z * list Z)) (y : sys) : sys :=
  mkSys (connector y) (running y) (calls y) (timers y) (opened y) (exchanged y ++ l) (log y) (closed y).
Definition addLog (e : effect) (y : sys) : sys := mkSys (connector y) (running y) (calls y) (timers y) (opened y) (exchanged y) (log y ++ [e]) (closed y).
Definition addClosed (l : list Z) (y : sys) : sys := mkSys (connector y) (running y) (calls y) (timers y) (opened y) (exchanged y) (log y) (closed y ++ l).

(** The effects of the connector. *)
Definition deleteRunning (h : Z) (y : sys) : sys :=
  match running y with
  | Some (h', r) => if h =? h' then addClosed (released (snd (CProTcpHandshaker.Delete (r_state r)))) (setRunning None y) else y
  | None => y
  end.
Definition perform1 (mem : list Z) (timer : Z) (y : sys) (e : effect) : sys :=
  addLog e
    match e with
    | CreateHandshaker h sockId unixSocket data size first timeout =>
        if h =? 0 then y else
        match create mem timer sockId unixSocket data size first timeout with Some r => setRunning (Some (h, r)) y | None => y end
    | DeleteHandshaker h => deleteRunning h y
    | _ => y
    end.
Definition perform (mem : list Z) (timer : Z) (es : list effect) (y : sys) : sys := foldl (perform1 mem timer) y es.

(** The socket that [OnTimer] takes from the kernel. *)
Definition opens (timerId : Z) (a : attempt) (s : t) : list Z :=
  if negb (timerId =? 0) && active s && (timerId =? m_timerId0 s) && negb (at_sock a =? -1) then [at_sock a] else [].

Definition deliver (h : Z) (c : CProTcpHandshaker.effect) (s : t) : t * list effect :=
  match c with
  | CProTcpHandshaker.OnHandshakeOk sockId unixSocket buf size => OnHandshakeOk h sockId unixSocket buf size s
  | CProTcpHandshaker.OnHandshakeError e => OnHandshakeError h e s
  | _ => (s, [])
  end.

(** What else a thread may call. *)
Inductive event := Input (sockId : Z) | Exception (sockId : Z) | Err (sockId : Z) | Finalize | Destroy.
Definition handle (e : event) (s : t) : t * list effect :=
  match e with
  | Input sockId => OnInput sockId s
  | Exception sockId => OnException sockId s
  | Err sockId => OnError sockId s
  | Finalize => Fini s
  | Destroy => Delete s
  end.

Section system.
Context (ext : bool) (serviceId serviceOpt : Z).

Inductive reachable : sys -> Prop :=
  | reach_start unixSocket emptyIp localAddr remoteAddr remotePort loopback timeout timer0 timer1 s l :
      Init emptyIp localAddr remoteAddr remotePort loopback timeout timer0 timer1 (construct unixSocket ext serviceId serviceOpt) = (true, s, l) ->
      timer0 <> timer1 \/ timer0 = 0 ->
      reachable (mkSys s None [] (List.filter (fun id => negb (id =? 0)) [timer0; timer1]) [] [] l [])
  | reach_timer y ts1 id ts2 a s es :
      reachable y -> timers y = ts1 ++ id :: ts2 -> OnTimer id a (connector y) = (s, es) ->
      reachable (perform [] 0 es (setTimers (ts1 ++ ts2) (addOpened (opens id a (connector y)) (setConnector s y))))
  | reach_output y sockId random h mem timer s es :
      reachable y -> 0 <= random < 256 -> zlen mem = 8 -> OnOutput sockId random h (connector y) = (s, es) ->
      reachable (perform mem timer es (setConnector s y))
  | reach_event y e s es :
      reachable y -> handle e (connector y) = (s, es) -> reachable (perform [] 0 es (setConnector s y))
  | reach_handshake y h r e s l :
      reachable y -> running y = Some (h, r) -> kernel e (r_state r) -> is_bytes (taken e (r_state r)) -> e <> CProTcpHandshaker.Deleted ->
      CProTcpHandshaker.handle e (r_state r) = (s, l) ->
      let recv := r_recv r ++ taken e (r_state r) in
      let sent := r_sent r ++ given e (r_state r) in
      reachable (addExchanged (concat ((fun c => done c recv sent) <$> callbacks l)) (setCalls (calls y ++ ((fun c => (h, c)) <$> callbacks l))
        (setRunning (Some (h, mkRun (r_deal r) s recv sent (r_log r ++ l))) y)))
  | reach_call y c1 h c c2 s es :
      reachable y -> calls y = c1 ++ (h, c) :: c2 -> deliver h c (connector y) = (s, es) ->
      reachable (perform [] 0 es (setCalls (c1 ++ c2) (setConnector s y))).
End system.

(** Where the sockets are: as for the acceptor, or still with the connector. *)
Definition outs (l : list effect) : list Z :=
  omap (fun e => match e with OnConnectOk sockId _ _ _ _ _ | CloseSock sockId => Some sockId | _ => None end) l.
Definition heldByRunning (r : option (Z * run)) : list Z := match r with Some (_, r) => heldBy r | None => [] end.
Definition own (s : t) : list Z := if m_sockId s =? -1 then [] else [m_sockId s].
Definition sockets (y : sys) : list Z := outs (log y) ++ closed y ++ passing (calls y) ++ heldByRunning (running y).
(** The answers to the observer. *)
Definition answers (l : list effect) : list effect :=
  List.filter (fun e => match e with OnConnectOk _ _ _ _ _ _ | OnConnectError _ _ _ _ => true | _ => false end) l.

End ConnectorSystem.

Module ConnectorLemmas.
Import CProConnector HandshakerSpec HandshakerRuns HandshakerRunLemmas ConnectorSystem.

Lemma connectorOuts_app l l' : outs (l ++ l') = outs l ++ outs l'.
Proof. unfold outs. apply omap_app. Qed.
Lemma answers_app l l' : answers (l ++ l') = answers l ++ answers l'.
Proof. apply List.filter_app. Qed.

#[global] Instance effect_eq_dec : EqDecision effect.
Proof. solve_decision. Defined.
Definition creates (e : effect) : bool := match e with CreateHandshaker h _ _ _ _ _ _ => negb (h =? 0) | _ => false end.
Definition survives (es : list effect) (r : option (Z * run)) : option (Z * run) :=
  match r with Some (h, r) => if decide (DeleteHandshaker h ∈ es) then None else Some (h, r) | None => None end.

(** Effects that create nothing. *)
Record performed (es : list effect) (y y' : sys) : Prop := mkPerformed {
  pf_connector : connector y' = connector y;
  pf_running : running y' = survives es (running y);
  pf_calls : calls y' = calls y;
  pf_timers : timers y' = timers y;
  pf_opened : opened y' = opened y;
  pf_exchanged : exchanged y' = exchanged y;
  pf_log : log y' = log y ++ es;
  pf_sockets : sockets y' ≡ₚ outs es ++ sockets y
}.

Lemma performed_step e es r : survives (e :: es) r = survives es (survives [e] r).
Proof.
  destruct r as [[h r]|]; [|done]. cbn [survives]. destruct (decide (DeleteHandshaker h ∈ [e])) as [Hin|Hin]; cbn [survives].
  - apply list_elem_of_singleton in Hin as <-. by rewrite decide_True by left.
  - rewrite list_elem_of_singleton in Hin. destruct (decide (DeleteHandshaker h ∈ es)) as [Hs|Hs]; [by rewrite decide_True by (by right)|].
    rewrite decide_False; [done|]. by intros [?|?]%elem_of_cons.
Qed.
Lemma survives_keeps es r : (forall h, DeleteHandshaker h ∉ es) -> survives es r = r.
Proof. intros H. destruct r as [[h r]|]; [|done]. cbn. by rewrite decide_False. Qed.
Lemma performs mem timer es y : Forall (fun e => creates e = false) es -> performed es y (perform mem timer es y).
Proof.
  revert y. induction es as [|e es IH]; intros y Hc; cbn.
  - split; try done; [|by rewrite app_nil_r]. symmetry. apply survives_keeps. intros h. apply not_elem_of_nil.
  - apply Forall_cons in Hc as [Hc Hcs]. specialize (IH (perform1 mem timer y e) Hcs).
    assert (H1 : performed [e] y (perform1 mem timer y e)).
    { assert (Hplain : survives [e] (running y) = running y -> performed [e] y (addLog e y)).
      { intros He. split; cbn [connector running calls timers opened exchanged log addLog]; try done.
        unfold sockets. cbn [log closed calls running addLog]. rewrite connectorOuts_app, <- (assoc_L (++)). apply Permutation_app_swap_app. }
      unfold perform1. cbn [creates] in Hc. destruct e as [| | | | |handshaker|h| |]; try by (apply Hplain, survives_keeps; intros ? ?%list_elem_of_singleton).
      { apply negb_false_iff in Hc. rewrite Hc. apply Hplain, survives_keeps. by intros ? ?%list_elem_of_singleton. }
      unfold deleteRunning. destruct (running y) as [[h' r]|] eqn:E; [destruct (Z.eqb_spec h h') as [->|Hne]|]; [|apply Hplain..].
      - split; cbn [connector running calls timers opened exchanged log addLog addClosed setRunning]; try done.
        + rewrite E. cbn. by rewrite decide_True by left.
        + unfold sockets. cbn [log closed calls running addLog addClosed setRunning heldByRunning]. rewrite connectorOuts_app, delete_released, E.
          change (outs [DeleteHandshaker h']) with (@nil Z). cbn [heldByRunning app]. fold (heldBy r). rewrite !app_nil_r. rewrite <- !(assoc_L (++)).
          do 2 f_equiv. apply Permutation_app_comm.
      - cbn. rewrite decide_False; [done|]. intros [= E']%list_elem_of_singleton. by subst.
      - done. }
    change (performed (e :: es) y (perform mem timer es (perform1 mem timer y e))).
    destruct H1 as [A1 A2 A3 A4 A5 A6 A7 A8], IH as [B1 B2 B3 B4 B5 B6 B7 B8]. split; try congruence.
    + rewrite B2, A2. symmetry. apply performed_step.
    + rewrite B7, A7. by rewrite <- (assoc_L (++)).
    + rewrite B8, A8. change (e :: es) with ([e] ++ es). rewrite connectorOuts_app. rewrite (assoc_L (++)). f_equiv. apply Permutation_app_comm.
Qed.

(** ** The invariant *)

Section system.
Context (ext : bool) (serviceId serviceOpt : Z).
Local Abbreviation theId := (if ext then serviceId else 0).
Local Abbreviation theOpt := (if ext then serviceOpt else 0).

Definition answer_ok (ex : list (Z * list Z * list Z)) (e : effect) : Prop :=
  match e with
  | OnConnectOk k _ _ si so nonce => si = theId /\ so = theOpt /\
      if ext then 0 <= nonce < 2 ^ 64 /\ exists r, 0 <= r < 256 /\ (k, [serviceId; serviceOpt; r; u8 (r + 1)], be_bytes 8 nonce) ∈ ex
      else nonce = 0
  | OnConnectError _ si so _ => si = theId /\ so = theOpt
  | _ => True
  end.
Definition unused (y : sys) : Prop := opened y = [] /\ m_sockId (connector y) = -1 /\ m_handshaker (connector y) = 0 /\ calls y = [].

Record inv (y : sys) : Prop := mkInv {
  iv_const : m_enableServiceExt (connector y) = ext /\ m_serviceId (connector y) = theId /\ m_serviceOpt (connector y) = theOpt;
  iv_running : match running y with
    | Some (h, r) => h <> 0 /\ m_handshaker (connector y) = h /\ active (connector y) = true /\ ext = true /\ is_bytes (r_recv r) /\
        exists b, 0 <= b < 256 /\ run_ok r [serviceId; serviceOpt; b; u8 (b + 1)] 8
    | None => m_handshaker (connector y) = 0
    end;
  iv_own : m_sockId (connector y) <> -1 -> m_handshaker (connector y) = 0 /\ calls y = [];
  iv_first : active (connector y) = true -> m_timerId0 (connector y) ∈ timers y -> unused y;
  iv_second : active (connector y) = true -> m_timerId1 (connector y) = 0 \/ m_timerId1 (connector y) <> m_timerId0 (connector y);
  iv_timers : NoDup (timers y) /\ 0 ∉ timers y;
  iv_calls : (length (calls y) <= 1)%nat;
  iv_call : forall h c, (h, c) ∈ calls y -> h <> 0 /\
    match c with CProTcpHandshaker.OnHandshakeOk k _ _ _ => k <> -1 | _ => True end /\
    forall h' r, running y = Some (h', r) -> h' = h /\ callbacks (r_log r) = [c] /\ (forall x, x ∈ done c (r_recv r) (r_sent r) -> x ∈ exchanged y);
  iv_sockets : opened y ≡ₚ sockets y ++ own (connector y);
  iv_one : (length (opened y) <= 1)%nat;
  iv_answers : if active (connector y) then answers (log y) = [] else (length (answers (log y)) <= 1)%nat;
  iv_log : Forall (answer_ok (exchanged y)) (log y)
}.

(** The connector ends, or has ended before. *)
Lemma inv_stop y s es cs ts new mem timer : inv y ->
  m_enableServiceExt s = ext /\ m_serviceId s = theId /\ m_serviceOpt s = theOpt -> active s = false -> m_handshaker s = 0 ->
  (forall h r, running y = Some (h, r) -> DeleteHandshaker h ∈ es) -> Forall (fun e => creates e = false) es ->
  (length (answers es) <= 1)%nat -> (active (connector y) = false -> answers es = []) -> Forall (answer_ok (exchanged y)) es ->
  (forall x, x ∈ cs -> x ∈ calls y) -> (length cs <= 1)%nat -> NoDup ts /\ 0 ∉ ts -> (m_sockId s <> -1 -> cs = []) ->
  passing (calls y) ++ own (connector y) ++ new ≡ₚ outs es ++ passing cs ++ own s -> (length (opened y ++ new) <= 1)%nat ->
  inv (perform mem timer es (setCalls cs (setTimers ts (addOpened new (setConnector s y))))).
Proof.
  intros [I1 I2 I3 I4 I5 I6 I7 I8 I9 I10 I11 I12] Hc Ha Hh Hdel Hcr Hlen Hans Hok Hsub Hcs Hts Hown Hperm Hone.
  destruct (performs mem timer es (setCalls cs (setTimers ts (addOpened new (setConnector s y)))) Hcr) as [P1 P2 P3 P4 P5 P6 P7 P8].
  cbn [connector running calls timers opened exchanged log setConnector setCalls setTimers addOpened] in *.
  assert (Hnone : survives es (running y) = None).
  { destruct (running y) as [[h r]|] eqn:E; [|done]. cbn. by rewrite decide_True by (by apply (Hdel h r)). }
  split; rewrite ?P1, ?P2, ?P3, ?P4, ?P5, ?P6, ?P7, ?Hnone, ?Ha; try done.
  - intros Hs. split; [done|]. by apply Hown.
  - intros h c Hin. destruct (I8 h c (Hsub _ Hin)) as (? & ? & _). by split_and!.
  - rewrite P8, I9. unfold sockets. cbn [log closed calls running setConnector setCalls setTimers addOpened]. rewrite <- !(assoc_L (++)).
    rewrite (Permutation_app_comm (heldByRunning _) (own _ ++ new)). rewrite (assoc_L (++) (passing (calls y))), (assoc_L (++) (passing (calls y))). rewrite <- (assoc_L (++) (passing (calls y))), Hperm.
    rewrite <- !(assoc_L (++)). rewrite (Permutation_app_swap_app (closed y)), (Permutation_app_swap_app (outs (log y))).
    do 4 f_equiv. apply Permutation_app_comm.
  - rewrite answers_app, length_app. destruct (active (connector y)); [by rewrite I11|]. rewrite (Hans eq_refl). cbn. lia.
  - by apply Forall_app.
Qed.

(** The connector does not change. *)
Lemma inv_keep y es cs ts mem timer : inv y ->
  (forall h, DeleteHandshaker h ∉ es) -> Forall (fun e => creates e = false) es -> answers es = [] ->
  (forall x, x ∈ cs -> x ∈ calls y) -> (length cs <= 1)%nat -> NoDup ts /\ 0 ∉ ts -> (forall x, x ∈ ts -> x ∈ timers y) ->
  passing (calls y) ≡ₚ outs es ++ passing cs ->
  inv (perform mem timer es (setCalls cs (setTimers ts (addOpened [] (setConnector (connector y) y))))).
Proof.
  intros [I1 I2 I3 I4 I5 I6 I7 I8 I9 I10 I11 I12] Hdel Hcr Hans Hsub Hcs Hts Htsub Hperm.
  destruct (performs mem timer es (setCalls cs (setTimers ts (addOpened [] (setConnector (connector y) y)))) Hcr) as [P1 P2 P3 P4 P5 P6 P7 P8].
  cbn [connector running calls timers opened exchanged log setConnector setCalls setTimers addOpened] in *.
  rewrite survives_keeps in P2 by done. rewrite app_nil_r in P5.
  assert (Hnil : calls y = [] -> cs = []).
  { intros E. destruct cs as [|x cs]; [done|]. specialize (Hsub x ltac:(by left)). rewrite E in Hsub. by apply not_elem_of_nil in Hsub. }
  split; rewrite ?P1, ?P2, ?P3, ?P4, ?P5, ?P6, ?P7; try done.
  - intros Hs. destruct (I3 Hs). by split; [|apply Hnil].
  - intros Ha Hin. destruct (I4 Ha (Htsub _ Hin)) as (? & ? & ? & ?). unfold unused. rewrite P1, P3, P5. by split_and!; [| | |apply Hnil].
  - intros h c Hin. by apply I8, Hsub.
  - rewrite P8, I9. unfold sockets. cbn [log closed calls running setConnector setCalls setTimers addOpened]. rewrite Hperm, <- !(assoc_L (++)).
    rewrite (Permutation_app_swap_app (closed y)), (Permutation_app_swap_app (outs (log y))). done.
  - by rewrite answers_app, Hans, app_nil_r.
  - apply Forall_app. split; [done|]. clear -Hans. induction es as [|e es IH]; [constructor|]. destruct e; try done; constructor; try done; by apply IH.
Qed.

Lemma same_sys s y : setCalls (calls y) (setTimers (timers y) (addOpened [] (setConnector s y))) = setConnector s y.
Proof. destruct y. unfold setCalls, setTimers, addOpened, setConnector. cbn. by rewrite app_nil_r. Qed.
Lemma ignored y mem timer : inv y -> inv (perform mem timer [] (setConnector (connector y) y)).
Proof.
  intros Hinv. rewrite <- same_sys. apply inv_keep; try done; [intros; apply not_elem_of_nil|..]; apply Hinv.
Qed.

(** An end at which no socket changes hands, save that of a call that is refused. *)
Lemma inv_end y s es mem timer : inv y -> active (connector y) = true ->
  m_enableServiceExt s = m_enableServiceExt (connector y) /\ m_serviceId s = m_serviceId (connector y) /\ m_serviceOpt s = m_serviceOpt (connector y) ->
  active s = false -> m_handshaker s = 0 -> (forall h r, running y = Some (h, r) -> DeleteHandshaker h ∈ es) ->
  Forall (fun e => creates e = false) es -> (length (answers es) <= 1)%nat -> Forall (answer_ok (exchanged y)) es ->
  own (connector y) ≡ₚ outs es ++ own s -> (m_sockId s <> -1 -> m_sockId (connector y) <> -1) ->
  inv (perform mem timer es (setConnector s y)).
Proof.
  intros Hinv Ha (E1 & E2 & E3) Hs Hh Hdel Hcr Hlen Hok Hperm Hsock. rewrite <- same_sys. pose proof Hinv as [I1 I2 I3 I4 I5 I6 I7 I8 I9 I10 I11 I12].
  apply inv_stop; try done.
  - by rewrite E1, E2, E3.
  - by rewrite Ha.
  - intros Hne. by apply I3, Hsock.
  - rewrite app_nil_r, Hperm. apply Permutation_app_swap_app.
  - by rewrite app_nil_r.
Qed.

Lemma fini_deletes y h r : inv y -> running y = Some (h, r) -> deleteHandshaker (m_handshaker (connector y)) = [DeleteHandshaker h].
Proof. intros Hinv E. pose proof (iv_running _ Hinv) as H. rewrite E in H. destruct H as (? & -> & _). unfold deleteHandshaker. by rewrite (proj2 (Z.eqb_neq h 0)). Qed.
Lemma deletes_plain h : Forall (fun e => creates e = false) (deleteHandshaker h) /\ answers (deleteHandshaker h) = [] /\
  (forall ex, Forall (answer_ok ex) (deleteHandshaker h)) /\ outs (deleteHandshaker h) = [].
Proof. unfold deleteHandshaker. destruct (h =? 0); by repeat constructor. Qed.
Lemma closes_plain k : Forall (fun e => creates e = false) (closeSock k) /\ answers (closeSock k) = [] /\
  (forall ex, Forall (answer_ok ex) (closeSock k)) /\ outs (closeSock k) = (if k =? -1 then [] else [k]).
Proof. unfold closeSock. destruct (k =? -1); by repeat constructor. Qed.
Lemma error_plain y b : inv y -> forall ex, answer_ok ex (connectError b (connector y)).
Proof. intros Hinv ex. cbn. destruct (iv_const _ Hinv) as (_ & -> & ->). done. Qed.

Lemma connectorError_ok y k s es mem timer : inv y -> OnError k (connector y) = (s, es) -> inv (perform mem timer es (setConnector s y)).
Proof.
  intros Hinv. unfold OnError. destruct (Z.eqb_spec k (-1)); [intros [= <- <-]; by apply ignored|].
  destruct (active (connector y)) eqn:Ea; cbn [negb]; [|intros [= <- <-]; by apply ignored].
  destruct (Z.eqb_spec k (m_sockId (connector y))) as [->|]; cbn [negb]; [|intros [= <- <-]; by apply ignored].
  destruct (iv_own _ Hinv ltac:(done)) as [Hh _]. intros [= <- <-]. apply inv_end; try done.
  - intros h r Hr. pose proof (fini_deletes _ _ _ Hinv Hr) as H. by rewrite Hh in H.
  - by repeat constructor.
  - repeat (constructor; [done|]). constructor; [|constructor]. by apply error_plain.
Qed.

Lemma connectorFini_ok y s es mem timer : inv y -> Fini (connector y) = (s, es) -> inv (perform mem timer es (setConnector s y)).
Proof.
  intros Hinv. unfold Fini. destruct (active (connector y)) eqn:Ea; cbn [negb]; [|intros [= <- <-]; by apply ignored].
  intros [= <- <-]. destruct (deletes_plain (m_handshaker (connector y))) as (D1 & D2 & D3 & D4). apply inv_end; try done.
  - intros h r Hr. rewrite (fini_deletes _ _ _ Hinv Hr). do 3 right. by left.
  - by repeat constructor.
  - change (length (answers (deleteHandshaker (m_handshaker (connector y)))) <= 1)%nat. rewrite D2. cbn. lia.
  - repeat (constructor; [done|]). apply D3.
  - change (own (connector y) ≡ₚ outs (deleteHandshaker (m_handshaker (connector y))) ++ own (connector y)). by rewrite D4.
Qed.

Lemma perform_setConnector mem timer es s y : perform mem timer es (setConnector s y) = setConnector s (perform mem timer es y).
Proof.
  assert (H1 : forall e y, perform1 mem timer (setConnector s y) e = setConnector s (perform1 mem timer y e)).
  { intros e z. unfold perform1. destruct e; try done; cbn [running setConnector].
    - repeat case_match; done.
    - unfold deleteRunning. cbn [running setConnector]. repeat case_match; done. }
  revert y. induction es as [|e es IH]; intros y; [done|]. unfold perform in *. cbn [foldl]. rewrite H1. apply IH.
Qed.

Lemma connectorEvent_ok y e s es mem timer : inv y -> handle e (connector y) = (s, es) -> inv (perform mem timer es (setConnector s y)).
Proof.
  intros Hinv. destruct e; cbn [handle]; try by apply connectorError_ok.
  - by apply connectorFini_ok.
  - unfold Delete. destruct (Fini (connector y)) as [s1 es1] eqn:E. intros [= <- <-]. unfold perform. rewrite foldl_app.
    pose proof (connectorFini_ok y s1 es1 mem timer Hinv E) as H1. change (foldl (perform1 mem timer) ?a es1) with (perform mem timer es1 a).
    rewrite perform_setConnector in H1 |- *. set (y1 := perform mem timer es1 y) in *. rewrite <- same_sys.
    assert (Hs1 : active s1 = false /\ m_handshaker s1 = 0).
    { unfold Fini in E. destruct (active (connector y)) eqn:Ea; cbn [negb] in E; injection E as <- _; [done|]. split; [done|].
      pose proof (iv_running _ Hinv) as H. destruct (running y) as [[h r]|]; [|done]. destruct H as (_ & _ & ? & _). congruence. }
    destruct Hs1 as [Ha1 Hh1]. pose proof H1 as [I1 I2 I3 I4 I5 I6 I7 I8 I9 I10 I11 I12].
    cbn [connector running calls timers opened exchanged log setConnector] in *. rewrite Ha1 in *.
    assert (Hrun : running y1 = None) by (destruct (running y1) as [[h r]|]; [by destruct I2 as (_ & _ & ? & _)|done]).
    destruct (closes_plain (m_sockId s1)) as (D1 & D2 & D3 & D4).
    change (inv (perform mem timer (closeSock (m_sockId s1)) (setCalls (calls (setConnector s1 y1)) (setTimers (timers (setConnector s1 y1))
      (addOpened [] (setConnector (setSock (-1) (m_handshaker s1) s1) (setConnector s1 y1))))))).
    apply inv_stop; cbn [connector running calls timers opened exchanged log setConnector]; try done.
    + by rewrite Hrun.
    + rewrite D2. cbn. lia.
    + rewrite app_nil_r, D4. unfold own. cbn. rewrite app_nil_r. apply Permutation_app_comm.
    + by rewrite app_nil_r.
Qed.

(** A timer fires. *)
Lemma connectorTimer_ok y ts1 id ts2 a s es mem timer : inv y -> timers y = ts1 ++ id :: ts2 -> OnTimer id a (connector y) = (s, es) ->
  inv (perform mem timer es (setTimers (ts1 ++ ts2) (addOpened (opens id a (connector y)) (setConnector s y)))).
Proof.
  intros Hinv Ht. pose proof Hinv as [I1 I2 I3 I4 I5 I6 I7 I8 I9 I10 I11 I12]. rewrite Ht in I6. destruct I6 as [Hnd H0].
  assert (Hid : id <> 0) by (intros ->; apply H0, elem_of_app; right; by left).
  assert (Hts : NoDup (ts1 ++ ts2) /\ 0 ∉ ts1 ++ ts2 /\ id ∉ ts1 ++ ts2 /\ forall x, x ∈ ts1 ++ ts2 -> x ∈ timers y).
  { rewrite Ht. rewrite <- Permutation_middle in Hnd, H0. apply NoDup_cons in Hnd as [Hn ?]. split_and!; try done.
    - intros Hin. apply H0. by right.
    - intros x. rewrite !elem_of_app, elem_of_cons. tauto. }
  destruct Hts as (Hnd' & H0' & Hni & Hsub). clear Hnd H0.
  assert (Hcalls : forall s new, setTimers (ts1 ++ ts2) (addOpened new (setConnector s y)) = setCalls (calls y) (setTimers (ts1 ++ ts2) (addOpened new (setConnector s y)))) by done.
  rewrite Hcalls. assert (Hkeep : inv (perform mem timer [] (setCalls (calls y) (setTimers (ts1 ++ ts2) (addOpened [] (setConnector (connector y) y)))))).
  { apply inv_keep; try done; intros; apply not_elem_of_nil. }
  unfold OnTimer, opens. rewrite (proj2 (Z.eqb_neq id 0)) by done. cbn [negb andb].
  destruct (active (connector y)) eqn:Ea; cbn [negb andb]; [|by intros [= <- <-]].
  destruct (Z.eqb_spec id (m_timerId0 (connector y))) as [E0|Hne]; cbn [negb andb].
  - destruct (I4 eq_refl ltac:(by rewrite <- E0, Ht, elem_of_app; right; left)) as (U1 & U2 & U3 & U4). rewrite U3, U4.
    assert (Hrun : running y = None) by (destruct (running y) as [[h r]|]; [destruct I2 as (? & ? & _); congruence|done]).
    change (deleteHandshaker 0) with (@nil effect). rewrite <- U4.
    assert (Hfail : forall k added, Forall (fun e => exists k m, e = AddHandler k m) added ->
      inv (perform mem timer (added ++ cancelTimers (connector y) ++ closeSock k ++ [connectError false (connector y)] ++ [])
        (setCalls (calls y) (setTimers (ts1 ++ ts2) (addOpened (if k =? -1 then [] else [k]) (setConnector (stop (setSock (-1) 0 (connector y))) y)))))).
    { intros k added Hadd. destruct (closes_plain k) as (D1 & D2 & D3 & D4).
      assert (Ha : Forall (fun e => creates e = false) added /\ answers added = [] /\ (forall ex, Forall (answer_ok ex) added) /\ outs added = []).
      { clear -Hadd. induction Hadd as [|e l (k & m & ->) _ IH]; [done|]. destruct IH as (A1 & A2 & A3 & A4). split_and!; try done; by constructor. }
      destruct Ha as (A1 & A2 & A3 & A4). apply inv_stop; try done.
      - intros h r. by rewrite Hrun.
      - repeat (apply Forall_app; split); try done; by repeat constructor.
      - rewrite !answers_app, A2, D2. cbn. lia.
      - by rewrite Ea.
      - repeat (apply Forall_app; split); try done; [by repeat constructor|]. constructor; [|done]. by apply error_plain.
      - rewrite U4, !connectorOuts_app, A4, D4. unfold own. rewrite U2. cbn. by rewrite !app_nil_r.
      - rewrite U1. destruct (k =? -1); cbn; lia. }
    destruct (Z.eqb_spec (at_sock a) (-1)) as [Ek|Hk]; cbn [negb].
    { intros [= <- <-]. apply (Hfail (-1) []). constructor. }
    destruct (negb (if m_unixSocket (connector y) then _ else _)).
    { intros [= <- <-]. pose proof (Hfail (at_sock a) [] ltac:(constructor)) as H. by rewrite (proj2 (Z.eqb_neq _ _) Hk) in H. }
    destruct (negb (at_added a)).
    { intros [= <- <-]. pose proof (Hfail (at_sock a) [AddHandler (at_sock a) PRO_MASK_CONNECT] ltac:(by repeat econstructor)) as H.
      by rewrite (proj2 (Z.eqb_neq _ _) Hk) in H. }
    intros [= <- <-]. destruct (performs mem timer [AddHandler (at_sock a) PRO_MASK_CONNECT]
      (setCalls (calls y) (setTimers (ts1 ++ ts2) (addOpened [at_sock a] (setConnector (setSock (at_sock a) 0 (connector y)) y)))) ltac:(by repeat constructor)) as [P1 P2 P3 P4 P5 P6 P7 P8].
    cbn [connector running calls timers opened exchanged log setConnector setCalls setTimers addOpened] in *. rewrite Hrun in P2.
    split; rewrite ?P1, ?P2, ?P3, ?P4, ?P5, ?P6, ?P7; cbn [m_sockId m_handshaker m_timerId0 m_timerId1 active setSock]; try done.
    + intros _ Hin. rewrite <- E0 in Hin. done.
    + intros _. by apply I5.
    + rewrite U4. intros h c Hin. by apply not_elem_of_nil in Hin.
    + rewrite P8, I9. unfold sockets, own. cbn [log closed calls running setConnector setCalls setTimers addOpened outs omap list_omap m_sockId setSock].
      rewrite U2, (proj2 (Z.eqb_neq _ _) Hk). cbn. by rewrite app_nil_r.
    + by rewrite U1.
    + rewrite Ea, answers_app, I11. done.
    + apply Forall_app. by repeat constructor.
  - destruct (id =? m_timerId1 (connector y)); cbn [negb]; [|by intros [= <- <-]]. cbn [negb]. intros [= <- <-].
    destruct (deletes_plain (m_handshaker (connector y))) as (D1 & D2 & D3 & D4).
    apply inv_stop; try done.
    + intros h r Hr. rewrite (fini_deletes _ _ _ Hinv Hr). do 4 right. by left.
    + by repeat constructor.
    + change (S (length (answers (deleteHandshaker (m_handshaker (connector y))))) <= 1)%nat. rewrite D2. cbn. lia.
    + by rewrite Ea.
    + repeat (constructor; [done|]). constructor; [by apply error_plain|]. apply D3.
    + intros Hs. by apply I3.
    + rewrite app_nil_r. change (passing (calls y) ++ own (connector y) ≡ₚ outs (deleteHandshaker (m_handshaker (connector y))) ++ passing (calls y) ++ own (connector y)).
      by rewrite D4.
    + by rewrite app_nil_r.
Qed.

(** The socket is connected. *)
Lemma connectorOutput_ok y k random h mem timer s es : inv y -> 0 <= random < 256 -> zlen mem = 8 -> OnOutput k random h (connector y) = (s, es) ->
  inv (perform mem timer es (setConnector s y)).
Proof.
  intros Hinv Hrand Hmem. unfold OnOutput. destruct (Z.eqb_spec k (-1)) as [|Hk]; [intros [= <- <-]; by apply ignored|].
  destruct (active (connector y)) eqn:Ea; cbn [negb]; [|intros [= <- <-]; by apply ignored].
  destruct (Z.eqb_spec k (m_sockId (connector y))) as [->|]; cbn [negb]; [|intros [= <- <-]; by apply ignored].
  destruct (iv_own _ Hinv ltac:(done)) as [Hh Hcalls]. pose proof (iv_const _ Hinv) as (C1 & C2 & C3). rewrite C1.
  assert (Hrun : running y = None).
  { pose proof (iv_running _ Hinv) as H. destruct (running y) as [[h' r]|]; [destruct H as (? & ? & _); congruence|done]. }
  assert (Hone : opened y ≡ₚ sockets y ++ [m_sockId (connector y)]).
  { rewrite (iv_sockets _ Hinv). unfold own. by rewrite (proj2 (Z.eqb_neq _ _) Hk). }
  destruct ext eqn:Eext.
  - destruct (Z.eqb_spec h 0) as [->|Hne].
    + intros [= <- <-]. apply inv_end; try done.
      * intros h r. by rewrite Hrun.
      * by repeat constructor.
      * repeat (constructor; [done|]). constructor; [|constructor]. by apply error_plain.
    + rewrite C2, C3. set (data := [serviceId; serviceOpt; random; u8 (random + 1)]). intros [= <- <-].
      destruct (create_ok mem timer (m_sockId (connector y)) (m_unixSocket (connector y)) data 8 true (m_timeoutInSeconds (connector y))) as (r & Hcr & Hok & Hheld & Hrecv & Hcb);
        [by split|done|].
      cbn [perform foldl]. unfold perform1. rewrite (proj2 (Z.eqb_neq h 0)), Hcr by done. pose proof Hinv as [I1 I2 I3 I4 I5 I6 I7 I8 I9 I10 I11 I12].
      split; cbn [connector running calls timers opened exchanged log addLog setRunning setConnector setSock m_enableServiceExt m_serviceId m_serviceOpt
        m_handshaker active m_sockId m_timerId0 m_timerId1]; try done.
      * rewrite Hrecv. split_and!; try done; [constructor|]. by exists random.
      * intros _ Hin. destruct (I4 Ea Hin) as (_ & U & _). congruence.
      * rewrite Hcalls. intros h' c Hin. by apply not_elem_of_nil in Hin.
      * rewrite Hone. unfold sockets, own. cbn [log closed calls running addLog setRunning setConnector heldByRunning m_sockId setSock].
        rewrite Hrun, Hheld, !connectorOuts_app. cbn. by rewrite !app_nil_r, <- !(assoc_L (++)).
      * rewrite Ea in *. by rewrite !answers_app, I11.
      * repeat (apply Forall_app; split); try done; by repeat constructor.
  - intros [= <- <-]. apply inv_end; try done.
    + intros h' r. by rewrite Hrun.
    + by repeat constructor.
    + repeat (constructor; [done|]). constructor; [|constructor]. cbn. rewrite C2, C3, Eext. done.
    + cbn. unfold own. cbn. by rewrite (proj2 (Z.eqb_neq _ _) Hk).
Qed.

(** An event of the handshaker. *)
Lemma connectorHandshake_ok y h r e s l : inv y -> running y = Some (h, r) -> kernel e (r_state r) -> is_bytes (taken e (r_state r)) ->
  e <> CProTcpHandshaker.Deleted -> CProTcpHandshaker.handle e (r_state r) = (s, l) ->
  let recv := r_recv r ++ taken e (r_state r) in
  let sent := r_sent r ++ given e (r_state r) in
  inv (addExchanged (concat ((fun c => done c recv sent) <$> callbacks l)) (setCalls (calls y ++ ((fun c => (h, c)) <$> callbacks l))
    (setRunning (Some (h, mkRun (r_deal r) s recv sent (r_log r ++ l))) y))).
Proof.
  intros Hinv Hr Hk Hb He E recv sent. pose proof Hinv as [I1 I2 I3 I4 I5 I6 I7 I8 I9 I10 I11 I12]. rewrite Hr in I2.
  destruct I2 as (H0 & Hmh & Ha & Hext & Hbytes & b & Hbr & Hok).
  destruct (run_step r _ _ e s l Hok Hk He E) as (Hok' & Hheld & Hcb). cbv zeta in Hok', Hheld. fold recv sent in Hok', Hheld. set (r' := mkRun _ s _ _ _) in *.
  destruct (run_outcome r' _ _ Hok') as (Hout & _).
  assert (Hidle : callbacks l = [] \/ calls y = []).
  { destruct Hcb as [|(c & _ & Hc & _)]; [by left|right]. destruct (calls y) as [|[h' c'] cs]; [done|].
    destruct (I8 h' c' ltac:(by left)) as (_ & _ & Hc'). destruct (Hc' h r Hr) as (_ & Hc'' & _). by rewrite Hc in Hc''. }
  assert (Hsock : m_sockId (connector y) = -1) by (destruct (decide (m_sockId (connector y) = -1)) as [|Hn]; [done|destruct (I3 Hn); congruence]).
  split; cbn [connector running calls timers opened exchanged log addExchanged setCalls setRunning]; try done.
  - split_and!; try done; [|by exists b]. by apply is_bytes_app.
  - intros Ha' Hin. destruct (I4 Ha' Hin) as (_ & _ & ? & _). congruence.
  - destruct Hidle as [-> | ->]; [by rewrite app_nil_r|]. destruct Hcb as [->|(c & -> & _)]; cbn; lia.
  - intros h' c Hin. destruct Hcb as [Hn|(c0 & Hn & _ & Hlog)]; rewrite Hn in *; cbn [fmap list_fmap concat app] in *; rewrite ?app_nil_r in *.
    + destruct (I8 h' c Hin) as (? & ? & Hc). split; [done|]. split; [done|]. intros h1 r1 [= <- <-].
      destruct (Hc h r Hr) as (? & Hc1 & Hc2). cbn [r_log r_recv r_sent r']. rewrite HandshakerLemmas.callbacks_app, Hn, app_nil_r. split; [done|]. split; [done|].
      intros x Hx. apply Hc2.
      destruct c as [| | | |k u buf size| |]; cbn [done] in *; try by apply not_elem_of_nil in Hx.
      pose proof (run_outcome r _ _ Hok) as (Ho1 & _). rewrite Hc1 in Ho1. destruct Ho1 as (_ & _ & Es1 & _ & El1 & _).
      cbn [r_log r'] in Hout. rewrite HandshakerLemmas.callbacks_app, Hc1, Hn in Hout. cbn in Hout. destruct Hout as (_ & _ & Es2 & _ & El2 & _).
      cbn [r_deal r_sent r_recv r'] in Es2, El2. rewrite Es2, <- Es1 in Hx. unfold recv in El2, Hx. rewrite zlen_app in El2.
      assert (Ht : taken e (r_state r) = []) by (apply zlen_zero; lia). by rewrite Ht, app_nil_r in Hx.
    + destruct Hidle as [?|Hc0]; [done|]. rewrite Hc0 in *. apply list_elem_of_singleton in Hin as [= -> ->]. split; [done|].
      cbn [r_log r'] in Hout. rewrite Hlog in Hout. split.
      * destruct c0; try done. destruct Hout as (-> & _). apply (do_sock _ (ro_deal _ _ _ Hok)).
      * intros h1 r1 [= <- <-]. split; [done|]. split; [done|]. intros x Hx. apply elem_of_app. by right.
  - rewrite I9. unfold sockets. cbn [log closed calls running addExchanged setCalls setRunning]. rewrite Hr. cbn [heldByRunning].
    rewrite passing_app, (passing_key h 0), Hheld. rewrite <- !(assoc_L (++)). done.
  - eapply Forall_impl; [exact I12|]. intros [] Ho; try done. cbn in *. destruct Ho as (? & ? & Ho). split; [done|]. split; [done|].
    destruct ext; [|done]. destruct Ho as (? & b' & ? & Hb'). split; [done|]. exists b'. split; [done|]. apply elem_of_app. by left.
Qed.

(** Its call reaches the connector. *)
Lemma connectorCall_ok y c1 h c c2 s es mem timer : inv y -> calls y = c1 ++ (h, c) :: c2 -> deliver h c (connector y) = (s, es) ->
  inv (perform mem timer es (setCalls (c1 ++ c2) (setConnector s y))).
Proof.
  intros Hinv Hc. pose proof Hinv as [I1 I2 I3 I4 I5 I6 I7 I8 I9 I10 I11 I12].
  assert (Hone : c1 = [] /\ c2 = []) by (rewrite Hc, length_app in I7; cbn in I7; split; apply nil_length_inv; lia).
  destruct Hone as [-> ->]. cbn [app] in *. destruct (I8 h c ltac:(rewrite Hc; by left)) as (Hh & Hk & Hr).
  assert (Hsys : forall s, setCalls [] (setConnector s y) = setCalls [] (setTimers (timers y) (addOpened [] (setConnector s y)))).
  { intros s'. destruct y. unfold setCalls, setTimers, addOpened, setConnector. cbn. by rewrite app_nil_r. }
  rewrite Hsys.
  assert (Hsub : forall x : Z * CProTcpHandshaker.effect, x ∈ [] -> x ∈ calls y) by (intros x Hx; by apply not_elem_of_nil in Hx).
  assert (Hplain : s = connector y -> Forall (fun e => creates e = false) es -> (forall h, DeleteHandshaker h ∉ es) -> answers es = [] ->
    outs es = (match c with CProTcpHandshaker.OnHandshakeOk k _ _ _ => [k] | _ => [] end) ->
    inv (perform mem timer es (setCalls [] (setTimers (timers y) (addOpened [] (setConnector s y)))))).
  { intros -> Hcr Hdel Hans Hout. apply inv_keep; try done; [cbn; lia|]. rewrite Hc, Hout. cbn. by destruct c. }
  assert (Hign : s = connector y -> es = [] -> match c with CProTcpHandshaker.OnHandshakeOk _ _ _ _ => False | _ => True end ->
    inv (perform mem timer es (setCalls [] (setTimers (timers y) (addOpened [] (setConnector s y)))))).
  { intros Hs -> Hok. apply Hplain; try done; [intros; apply not_elem_of_nil|by destruct c]. }
  assert (Hstop : forall e, s = stop (setSock (m_sockId (connector y)) 0 (connector y)) -> active (connector y) = true -> m_handshaker (connector y) = h ->
    es = cancelTimers (connector y) ++ [e; DeleteHandshaker h] -> creates e = false ->
    answer_ok (exchanged y) e -> outs [e] = (match c with CProTcpHandshaker.OnHandshakeOk k _ _ _ => [k] | _ => [] end) ->
    inv (perform mem timer es (setCalls [] (setTimers (timers y) (addOpened [] (setConnector s y)))))).
  { intros e -> Ha Em -> Hcr Hok Hout. apply inv_stop; try done.
    - intros h' r Hr'. rewrite Hr' in I2. destruct I2 as (_ & E & _). assert (h' = h) as -> by congruence. do 3 right. by left.
    - by repeat constructor.
    - destruct e; cbn; lia.
    - by rewrite Ha.
    - by repeat constructor.
    - cbn; lia.
    - rewrite app_nil_r, Hc.
      change (passing [(h, c)] ++ own (connector y) ≡ₚ outs ([e] ++ [DeleteHandshaker h]) ++ [] ++ own (connector y)).
      rewrite connectorOuts_app, Hout. cbn. rewrite app_nil_r. by destruct c.
    - by rewrite app_nil_r. }
  unfold deliver. destruct c as [| | | |k u buf size|e|]; try (intros [= <- <-]; by apply Hign).
  - unfold OnHandshakeOk. rewrite (proj2 (Z.eqb_neq h 0)), (proj2 (Z.eqb_neq k (-1))) by done. cbn [orb].
    assert (Hd : forall h', DeleteHandshaker h' ∉ [CloseSock k]) by (by intros h' ?%list_elem_of_singleton).
    destruct (negb (active (connector y)) || (m_handshaker (connector y) =? 0)) eqn:E1; [intros [= <- <-]; apply Hplain; by try repeat constructor|].
    destruct (Z.eqb_spec h (m_handshaker (connector y))) as [Eh|Hne]; cbn [negb]; [|intros [= <- <-]; apply Hplain; by try repeat constructor].
    apply orb_false_iff in E1 as [Ha%negb_false_iff Hm%Z.eqb_neq].
    destruct (running y) as [[h' r]|] eqn:Erun; [|done]. destruct I2 as (_ & Em & _ & Hext & Hbytes & b & Hbr & Hok).
    destruct (Hr h' r eq_refl) as (-> & Hcb & Hex).
    destruct (run_outcome r _ _ Hok) as (Hout & _). rewrite Hcb in Hout. destruct Hout as (_ & _ & Hsent & Hsize & Hlen & Hbuf).
    rewrite (ro_recv _ _ _ Hok) in *. cbn in Hbuf. subst size buf. rewrite (ro_send _ _ _ Hok) in Hsent.
    cbn [default]. unfold id. rewrite bool_decide_eq_false_2 by done. cbn [orb negb Z.eqb Pos.eqb]. rewrite (proj2 (Z.eqb_neq k (-1))) by done. cbn [negb app].
    assert (Hl8 : length (r_recv r) = 8%nat) by (unfold zlen in Hlen; lia).
    rewrite ntoh64_be by done. intros [= <- <-]. eapply Hstop; try done.
    destruct I1 as (_ & C2 & C3). cbn [answer_ok connectOk]. rewrite C2, C3. split; [done|]. split; [done|]. rewrite Hext.
    assert (Hrev : is_bytes (reverse (r_recv r))) by (unfold is_bytes; by rewrite reverse_Permutation).
    assert (Hbe : be_bytes 8 (of_be (r_recv r)) = r_recv r).
    { unfold be_bytes, of_be. rewrite le_bytes_of_le by (done || by rewrite length_reverse). apply reverse_involutive. }
    split.
    + pose proof (of_le_range _ Hrev) as Hrange. unfold zlen in Hrange. by rewrite length_reverse, Hl8 in Hrange.
    + exists b. split; [done|]. rewrite Hbe, <- Hsent. apply Hex. cbn. by left.
  - unfold OnHandshakeError. rewrite (proj2 (Z.eqb_neq h 0)) by done.
    destruct (negb (active (connector y)) || (m_handshaker (connector y) =? 0)) eqn:E1; [intros [= <- <-]; by apply Hign|].
    destruct (Z.eqb_spec h (m_handshaker (connector y))) as [Eh|Hne]; cbn [negb]; [|intros [= <- <-]; by apply Hign].
    apply orb_false_iff in E1 as [Ha%negb_false_iff _].
    intros [= <- <-]. eapply Hstop; try done. by apply error_plain.
Qed.

Lemma connectorStart_ok unixSocket emptyIp localAddr remoteAddr remotePort loopback timeout timer0 timer1 s l :
  Init emptyIp localAddr remoteAddr remotePort loopback timeout timer0 timer1 (construct unixSocket ext serviceId serviceOpt) = (true, s, l) ->
  timer0 <> timer1 \/ timer0 = 0 ->
  inv (mkSys s None [] (List.filter (fun id => negb (id =? 0)) [timer0; timer1]) [] [] l []).
Proof.
  unfold Init. destruct (emptyIp || _); [done|]. destruct (_ || _ || _); [done|]. cbn [active construct m_handshaker orb negb Z.eqb].
  intros [= <- <-] Ht. split; cbn [connector running calls timers opened exchanged log construct start m_enableServiceExt m_serviceId m_serviceOpt
    m_handshaker active m_sockId m_timerId0 m_timerId1]; try done.
  - destruct Ht as [Ht|Ht]; [|by destruct (decide (timer1 = 0)); [left|right; congruence]]. right. congruence.
  - cbn [List.filter]. destruct (Z.eqb_spec timer0 0) as [E0|], (Z.eqb_spec timer1 0) as [E1|]; cbn [negb]; (split; [|set_solver]).
    4: destruct Ht as [Ht|]; [|done]; apply NoDup_cons; split; [by rewrite list_elem_of_singleton|].
    all: first [apply NoDup_nil_2|apply NoDup_singleton].
  - cbn. lia.
  - intros h c Hin. by apply not_elem_of_nil in Hin.
  - cbn. lia.
  - by repeat constructor.
Qed.

Lemma connector_inv y : reachable ext serviceId serviceOpt y -> inv y.
Proof.
  induction 1; [by eapply connectorStart_ok|by eapply connectorTimer_ok|by eapply connectorOutput_ok|by eapply connectorEvent_ok|
    by eapply connectorHandshake_ok|by eapply connectorCall_ok].
Qed.

End system.
End ConnectorLemmas.

Module ConnectorTheorems.
Import CProConnector HandshakerSpec HandshakerRuns HandshakerRunLemmas ConnectorSystem ConnectorLemmas.

(** When its time is over a connector that has not answered does so, and is over. *)
Lemma connector_times_out ext serviceId serviceOpt y a : inv ext serviceId serviceOpt y -> active (connector y) = true -> m_timerId1 (connector y) <> 0 ->
  exists s l, OnTimer (m_timerId1 (connector y)) a (connector y) = (s, l) /\ active s = false /\ m_handshaker s = 0 /\
    answers l = [connectError true (connector y)].
Proof.
  intros Hinv Ha H1. destruct (iv_second _ _ _ _ Hinv Ha) as [|Hne]; [done|]. unfold OnTimer.
  rewrite (proj2 (Z.eqb_neq (m_timerId1 _) 0)), (proj2 (Z.eqb_neq _ (m_timerId0 _))), Z.eqb_refl, Ha by done. cbn [negb andb].
  eexists _, _. split_and!; try reflexivity. destruct (deletes_plain true 0 0 (m_handshaker (connector y))) as (_ & D & _).
  change (connectError true (connector y) :: answers (deleteHandshaker (m_handshaker (connector y))) = [connectError true (connector y)]). by rewrite D.
Qed.

(** C8: a connector after [Init], whatever the reactor, the sockets and the handshaker do, in
    any order with timers, [Fini] and deletion.  It opens one socket at most, and the socket
    is not lost: it has been given to the observer, or closed, or is on its way in the call
    of the handshaker, or is held by the handshaker or by the connector, exactly one of
    these.  The observer gets one answer at most; as long as the connector is active it has
    had none, and the second timer then makes it answer that its time is over.  With the
    service extension an [OnConnectOk] comes after the service, its option and two bytes [r]
    and [r + 1] were sent over the socket, and gives the nonce that came back over it in
    network order; without it, the nonce is zero. *)
Theorem connector_correct ext serviceId serviceOpt y : reachable ext serviceId serviceOpt y ->
  opened y ≡ₚ outs (log y) ++ closed y ++ passing (calls y) ++ heldByRunning (running y) ++ own (connector y) /\
  (length (opened y) <= 1)%nat /\ (length (answers (log y)) <= 1)%nat /\
  (forall k u remote si so nonce, OnConnectOk k u remote si so nonce ∈ log y ->
     if ext then si = serviceId /\ so = serviceOpt /\ 0 <= nonce < 2 ^ 64 /\
       exists r, 0 <= r < 256 /\ (k, [serviceId; serviceOpt; r; u8 (r + 1)], be_bytes 8 nonce) ∈ exchanged y
     else si = 0 /\ so = 0 /\ nonce = 0) /\
  (active (connector y) = true -> answers (log y) = [] /\
     forall a, m_timerId1 (connector y) <> 0 ->
       exists s l, OnTimer (m_timerId1 (connector y)) a (connector y) = (s, l) /\ active s = false /\ m_handshaker s = 0 /\
         answers l = [connectError true (connector y)]).
Proof.
  intros Hr. pose proof (connector_inv _ _ _ _ Hr) as Hinv. pose proof (iv_answers _ _ _ _ Hinv) as Hans. split_and!.
  - rewrite (iv_sockets _ _ _ _ Hinv). unfold sockets. by rewrite <- !(assoc_L (++)).
  - apply (iv_one _ _ _ _ Hinv).
  - destruct (active (connector y)); [rewrite Hans; cbn; lia|done].
  - intros * Hin. apply (proj1 (Forall_forall _ _) (iv_log _ _ _ _ Hinv)) in Hin. cbn [answer_ok] in Hin. destruct Hin as (-> & -> & Hin).
    by destruct ext.
  - intros Ha. rewrite Ha in Hans. split; [done|]. intros a. by eapply connector_times_out.
Qed.

(** A connection for service 3. *)
Lemma connector_demo :
  exists y, reachable true 3 1 y /\ opened y = [31] /\ exchanged y = [(31, [3; 1; 255; 0], be_bytes 8 258)] /\
    OnConnectOk 31 false (16777226, 3000) 3 1 258 ∈ log y.
Proof.
  pose proof (reach_start true 3 1 true false 0 16777226 3000 16777343 0 5 6 _ _ eq_refl ltac:(by left)) as H. vm_compute in H.
  let go t := let H1 := fresh in pose proof t as H1; vm_compute in H1; clear H; rename H1 into H in
  let event e := go (reach_handshake true 3 1 _ _ _ e _ _ H ltac:(by vm_compute) ltac:(by vm_compute) ltac:(by vm_compute; repeat constructor) ltac:(done) (surjective_pairing _)) in
  go (reach_timer true 3 1 _ [] 5 [6] (mkAttempt 31 true true true true) _ _ H ltac:(by vm_compute) (surjective_pairing _));
  go (reach_output true 3 1 _ 31 255 201 [0; 0; 0; 0; 0; 0; 0; 0] 7 _ _ H ltac:(by split; vm_compute) ltac:(by vm_compute) (surjective_pairing _));
  event (CProTcpHandshaker.Input 31 (Received [0; 0; 0; 0; 0]) true); event (CProTcpHandshaker.Input 31 (Received [0; 1; 2]) true);
  event (CProTcpHandshaker.Output 31 4 0 true);
  go (reach_call true 3 1 _ [] 201 _ [] _ _ H ltac:(by vm_compute) (surjective_pairing _)).
  eexists. split; [exact H|]. do 2 (split; [reflexivity|]). cbn [log]. repeat (first [left|right]).
Qed.
Lemma connector_correct_witness :
  exists y, reachable true 3 1 y /\ opened y = [31] /\
    opened y ≡ₚ outs (log y) ++ closed y ++ passing (calls y) ++ heldByRunning (running y) ++ own (connector y).
Proof.
  destruct connector_demo as (y & H & Ho & _). exists y. split; [done|]. split; [done|]. exact (proj1 (connector_correct _ _ _ _ H)).
Defined.
End ConnectorTheorems.
