(* ===== verification/ServiceHandshake.v ===== *)
(** * An acceptor and a connector at the two ends of a connection

    What each tells its observer, when the network delivers to each end what the other has
    sent. *)

From S2P Require Import Prelude Bytes Handshaker HandshakerRuns Acceptor Connector.

Module ServiceHandshake.

(** Every handshake over the two sockets has received the start of what the other has sent. *)
Definition joined (a : AcceptorSystem.sys) (ka : Z) (c : ConnectorSystem.sys) (kc : Z) : Prop :=
  forall sa ra sc rc, (ka, sa, ra) ∈ AcceptorSystem.exchanged a -> (kc, sc, rc) ∈ ConnectorSystem.exchanged c ->
    ra `prefix_of` sc /\ rc `prefix_of` sa.

Lemma prefix_same (l l' : list Z) : l `prefix_of` l' -> length l = length l' -> l = l'.
Proof. intros [k ->] Hl. rewrite length_app in Hl. destruct k; [by rewrite app_nil_r|cbn in Hl; lia]. Qed.

(** C9: a connection between an acceptor and a connector, both with the service extension.
    If the acceptor gives its socket to its observer and the connector the other one, then
    the acceptor's observer learns the service and the option that the connector was made
    for, and both observers have the same nonce, from which both sides derive the password
    hash that comes next. *)
Theorem service_agreed a ka c kc serviceId serviceOpt ua remotea si so na uc remotec si' so' nc :
  AcceptorSystem.reachable true a -> ConnectorSystem.reachable true serviceId serviceOpt c -> joined a ka c kc ->
  CProAcceptor.OnAccept ka ua remotea si so na ∈ AcceptorSystem.log a ->
  CProConnector.OnConnectOk kc uc remotec si' so' nc ∈ ConnectorSystem.log c ->
  si = serviceId /\ so = serviceOpt /\ si' = serviceId /\ so' = serviceOpt /\ na = nc.
Proof.
  intros Ha Hc Hj Hin Hin'. apply AcceptorLemmas.acceptor_inv in Ha. apply ConnectorLemmas.connector_inv in Hc.
  apply (proj1 (Forall_forall _ _) (AcceptorLemmas.iv_accept _ _ Ha)) in Hin as (Hna & r & Hxa).
  apply (proj1 (Forall_forall _ _) (ConnectorLemmas.iv_log _ _ _ _ Hc)) in Hin' as (-> & -> & Hnc & r' & _ & Hxc).
  destruct (Hj _ _ _ _ Hxa Hxc) as [H1%prefix_same H2%prefix_same]; [|by unfold be_bytes; rewrite !length_reverse, !length_le_bytes|done].
  injection H1 as -> -> _ _. split_and!; try done.
  apply (f_equal of_be) in H2. rewrite !of_be_be_bytes, !Z.mod_small in H2 by done. done.
Qed.

Lemma service_agreed_witness :
  exists a c, AcceptorSystem.reachable true a /\ ConnectorSystem.reachable true 3 1 c /\ joined a 21 c 31 /\
    CProAcceptor.OnAccept 21 false AcceptorTheorems.demoRemote 3 1 AcceptorTheorems.demoNonce ∈ AcceptorSystem.log a /\
    CProConnector.OnConnectOk 31 false (16777226, 3000) 3 1 258 ∈ ConnectorSystem.log c /\ AcceptorTheorems.demoNonce = 258.
Proof.
  destruct AcceptorTheorems.acceptor_demo as (a & Ha & _ & _ & Ea & La).
  destruct ConnectorTheorems.connector_demo as (c & Hc & _ & Ec & Lc).
  assert (Hj : joined a 21 c 31).
  { intros sa ra sc rc. rewrite Ea, Ec, !list_elem_of_singleton. intros [= -> ->] [= -> ->]. split; by exists []. }
  exists a, c. do 5 (split; [assumption|]).
  exact (proj2 (proj2 (proj2 (proj2 (service_agreed _ _ _ _ _ _ _ _ _ _ _ _ _ _ _ _ Ha Hc Hj La Lc))))).
Defined.
End ServiceHandshake.
