(* ===== verification/SgiMemory.v ===== *)
(** * Memory and its pieces

    The memory of the process as the pools of [SgiAlloc] and [SgiPool] see it: bytes at
    addresses, loads and stores of little-endian words, and segments [(address, size)].
    Segments that lie apart stay apart when one of them is cut ([splits]), which is all
    that an allocator does with the memory that [malloc] gives. *)

From S2P Require Import Prelude Bytes.

(** ** Bytes at addresses, and the blocks that [malloc] has given *)

Definition seg : Type := Z * Z.

Record memory := mkMemory { bytes : gmap Z Z; blocks : list seg }.

Definition rd (m : memory) (a : Z) : Z := default 0 (bytes m !! a).
Fixpoint mread (m : memory) (a : Z) (n : nat) : list Z :=
  match n with O => [] | S n => rd m a :: mread m (a + 1) n end.
Fixpoint putBytes (a : Z) (bs : list Z) (m : gmap Z Z) : gmap Z Z :=
  match bs with [] => m | b :: bs => <[a := b]> (putBytes (a + 1) bs m) end.
Definition mwrite (m : memory) (a : Z) (bs : list Z) : memory := mkMemory (putBytes a bs (bytes m)) (blocks m).

Definition load64 (m : memory) (a : Z) : Z := of_le (mread m a 8).
Definition store64 (a v : Z) (m : memory) : memory := mwrite m a (le_bytes 8 v).
Definition load32 (m : memory) (a : Z) : Z := of_le (mread m a 4).
Definition store32 (a v : Z) (m : memory) : memory := mwrite m a (le_bytes 4 v).
Definition memcpy (dst src : Z) (n : Z) (m : memory) : memory := mwrite m dst (mread m src (Z.to_nat n)).
Definition memset (dst b n : Z) (m : memory) : memory := mwrite m dst (replicate (Z.to_nat n) b).

Arguments load64 : simpl never.
Arguments store64 : simpl never.
Arguments load32 : simpl never.
Arguments store32 : simpl never.

(** [malloc], [free] and [realloc]; [p] and [q] are what the first and the last answer, 0 is
    NULL. *)
Definition malloc (p n : Z) (m : memory) : memory := if p =? 0 then m else mkMemory (bytes m) ((p, n) :: blocks m).
Definition removeBlock (p : Z) (l : list seg) : list seg := List.filter (fun s => negb (s.1 =? p)) l.
Definition free (p : Z) (m : memory) : memory := mkMemory (bytes m) (removeBlock p (blocks m)).
Definition blockSize (p : Z) (l : list seg) : Z := match List.find (fun s => s.1 =? p) l with Some s => s.2 | None => 0 end.
Definition realloc (q p n : Z) (m : memory) : memory :=
  if q =? 0 then m else
  malloc q n (free p (memcpy q p (Z.min (blockSize p (blocks m)) n) m)).

(** What a write leaves. *)
Lemma rd_mwrite m a bs x :
  rd (mwrite m a bs) x = if decide (a <= x < a + zlen bs) then default 0 (bs !! Z.to_nat (x - a)) else rd m x.
Proof.
  unfold rd, mwrite. cbn [bytes]. revert a. induction bs as [|b bs IH]; intros a; cbn [putBytes]; rewrite ?zlen_nil, ?zlen_cons.
  - rewrite decide_False; [done|]. change (zlen (@nil Z)) with 0. lia.
  - pose proof (zlen_nonneg bs). destruct (decide (x = a)) as [->|Hne].
    + rewrite lookup_insert_eq, decide_True by lia. by rewrite Z.sub_diag.
    + rewrite lookup_insert_ne by done. rewrite IH.
      destruct (decide (a + 1 <= x < a + 1 + zlen bs)).
      * rewrite decide_True by lia. replace (Z.to_nat (x - a)) with (S (Z.to_nat (x - (a + 1)))) by lia. done.
      * rewrite decide_False; [done|lia].
Qed.
Lemma rd_malloc p n m x : rd (malloc p n m) x = rd m x.
Proof. unfold malloc. by destruct (p =? 0). Qed.

Lemma length_mread m a n : length (mread m a n) = n.
Proof. revert a. induction n as [|n IH]; intros a; cbn; [done|by rewrite IH]. Qed.

Lemma mread_ext m m' a n : (forall x, a <= x < a + Z.of_nat n -> rd m' x = rd m x) -> mread m' a n = mread m a n.
Proof.
  revert a. induction n as [|n IH]; intros a Hx; cbn; [done|]. rewrite Hx by lia. f_equal. apply IH. intros. apply Hx. lia.
Qed.

Lemma lookup_mread m a n (i : nat) : (i < n)%nat -> mread m a n !! i = Some (rd m (a + Z.of_nat i)).
Proof.
  revert a i. induction n as [|n IH]; intros a i Hi; [lia|]. destruct i; cbn; [by rewrite Z.add_0_r|].
  rewrite IH by lia. f_equal. f_equal. lia.
Qed.

Lemma mread_mwrite m a bs : mread (mwrite m a bs) a (length bs) = bs.
Proof.
  apply list_eq. intros i. destruct (decide (i < length bs)%nat).
  - rewrite lookup_mread by done. rewrite rd_mwrite, decide_True by (unfold zlen; lia).
    replace (Z.to_nat (a + Z.of_nat i - a)) with i by lia. destruct (lookup_lt_is_Some_2 bs i) as [b ->]; done.
  - rewrite !lookup_ge_None_2; [done|lia|rewrite length_mread; lia].
Qed.

Lemma mread_app m a i j : mread m a (i + j) = mread m a i ++ mread m (a + Z.of_nat i) j.
Proof.
  revert a. induction i as [|i IH]; intros a; cbn; [f_equal; lia|]. rewrite IH. do 3 f_equal. lia.
Qed.

Lemma take_mread m a n k : (k <= n)%nat -> take k (mread m a n) = mread m a k.
Proof.
  intros Hk. replace n with (k + (n - k))%nat by lia. rewrite mread_app, take_app_le; rewrite ?length_mread; [|done].
  apply take_ge. by rewrite length_mread.
Qed.

Lemma load64_store64 m a v : 0 <= v < 2 ^ 64 -> load64 (store64 a v m) a = v.
Proof.
  intros Hv. unfold load64, store64. change 8%nat with (length (le_bytes 8 v)) at 2. rewrite mread_mwrite, of_le_le_bytes.
  by rewrite Z.mod_small.
Qed.
Lemma load32_store32 m a v : 0 <= v < 2 ^ 32 -> load32 (store32 a v m) a = v.
Proof.
  intros Hv. unfold load32, store32. change 4%nat with (length (le_bytes 4 v)) at 2. rewrite mread_mwrite, of_le_le_bytes.
  by rewrite Z.mod_small.
Qed.

(** ** Segments *)

Definition inside (x : Z) (s : seg) : Prop := s.1 <= x < s.1 + s.2.
Definition disj (s t : seg) : Prop := s.2 <= 0 \/ t.2 <= 0 \/ s.1 + s.2 <= t.1 \/ t.1 + t.2 <= s.1.
(** A segment that is not empty is in the address space, and not at NULL. *)
Definition good (s : seg) : Prop := 0 <= s.2 /\ (0 < s.2 -> 0 < s.1 /\ s.1 + s.2 <= 2 ^ 64).

Fixpoint apart (l : list seg) : Prop :=
  match l with [] => True | s :: l => Forall (disj s) l /\ apart l end.
Definition wf (l : list seg) : Prop := apart l /\ Forall good l.
Definition total (l : list seg) : Z := foldr (fun s n => s.2 + n) 0 l.
Definition covers (l : list seg) (x : Z) : Prop := exists s, s ∈ l /\ inside x s.

#[export] Instance disj_sym : Symmetric disj.
Proof. intros s t. unfold disj. lia. Qed.
Lemma disj_inside s t x : disj s t -> inside x s -> inside x t -> False.
Proof. unfold disj, inside. lia. Qed.

#[export] Instance apart_perm : Proper ((≡ₚ) ==> iff) apart.
Proof.
  intros l l' Hp. induction Hp as [|s l l' Hp IH|s t l|l l' l'' _ IH1 _ IH2]; cbn.
  - done.
  - by rewrite IH, Hp.
  - rewrite !Forall_cons. split; intros [[H1 H2] [H3 H4]]; split_and!; try done; by symmetry.
  - by rewrite IH1.
Qed.
#[export] Instance wf_perm : Proper ((≡ₚ) ==> iff) wf.
Proof. intros l l' Hp. unfold wf. by rewrite Hp. Qed.
#[export] Instance total_perm : Proper ((≡ₚ) ==> (=)) total.
Proof. intros l l' Hp. unfold total. induction Hp; cbn; lia. Qed.
#[export] Instance covers_perm : Proper ((≡ₚ) ==> (=) ==> iff) covers.
Proof. intros l l' Hp x ? <-. unfold covers. by setoid_rewrite Hp. Qed.

Lemma total_segs_app l l' : total (l ++ l') = total l + total l'.
Proof. unfold total. induction l as [|s l IH]; cbn; [done|]. lia. Qed.
Lemma covers_app l l' x : covers (l ++ l') x <-> covers l x \/ covers l' x.
Proof. unfold covers. setoid_rewrite elem_of_app. naive_solver. Qed.
Lemma covers_cons s l x : covers (s :: l) x <-> inside x s \/ covers l x.
Proof. unfold covers. setoid_rewrite elem_of_cons. naive_solver. Qed.
Lemma covers_nil x : ~ covers [] x.
Proof. intros (s & Hs & _). by apply not_elem_of_nil in Hs. Qed.

Lemma wf_cons s l : wf (s :: l) <-> Forall (disj s) l /\ good s /\ wf l.
Proof. unfold wf. cbn. rewrite Forall_cons. naive_solver. Qed.
Lemma wf_app_l l l' : wf (l ++ l') -> wf l.
Proof.
  induction l as [|s l IH]; [done|]. cbn. rewrite !wf_cons, Forall_app. naive_solver.
Qed.
Lemma wf_app_r l l' : wf (l ++ l') -> wf l'.
Proof. rewrite Permutation_app_comm. apply wf_app_l. Qed.

(** Memory of one segment is not that of another. *)
Lemma wf_not_covers s l x : wf (s :: l) -> inside x s -> ~ covers l x.
Proof.
  rewrite wf_cons, Forall_forall. intros (Hd & _) Hx (t & Ht & Hx'). exact (disj_inside _ _ _ (Hd t Ht) Hx Hx').
Qed.
Lemma wf_app_covers l l' x : wf (l ++ l') -> covers l x -> ~ covers l' x.
Proof.
  induction l as [|s l IH]; cbn; [by intros _ ?%covers_nil|]. intros Hw. rewrite covers_cons. intros [Hx|Hx].
  - intros Hc. apply (wf_not_covers s (l ++ l') x Hw Hx). rewrite covers_app. by right.
  - apply IH; [|done]. rewrite wf_cons in Hw. by destruct Hw as (_ & _ & ?).
Qed.

(** ** Cutting memory up *)

(** [splits l l']: the segments of [l'] are pieces of those of [l], and make them up. *)
Inductive splits : list seg -> list seg -> Prop :=
  | splits_perm l l' : l ≡ₚ l' -> splits l l'
  | splits_cut a n k l : 0 <= k <= n -> splits ((a, n) :: l) ((a, k) :: (a + k, n - k) :: l)
  | splits_drop a l : splits ((a, 0) :: l) l
  | splits_empty a l : splits l ((a, 0) :: l)
  | splits_trans l1 l2 l3 : splits l1 l2 -> splits l2 l3 -> splits l1 l3.

#[export] Instance splits_preorder : PreOrder splits.
Proof. split; [intros l; by constructor|intros l1 l2 l3; apply splits_trans]. Qed.
#[export] Instance splits_proper : Proper ((≡ₚ) ==> (≡ₚ) ==> iff) splits.
Proof.
  intros l1 l2 H l3 l4 H'. split; intros Hs.
  - etrans; [by apply splits_perm; symmetry|]. etrans; [exact Hs|]. by apply splits_perm.
  - etrans; [by apply splits_perm|]. etrans; [exact Hs|]. by apply splits_perm.
Qed.

Lemma splits_app l l' f : splits l l' -> splits (l ++ f) (l' ++ f).
Proof.
  induction 1 as [l l' H|a n k l H|a l|a l|l1 l2 l3 _ IH1 _ IH2]; cbn.
  - apply splits_perm. by rewrite H.
  - by apply splits_cut.
  - apply splits_drop.
  - apply splits_empty.
  - by etrans.
Qed.
Lemma splits_app_l l l' f : splits l l' -> splits (f ++ l) (f ++ l').
Proof. intros H. rewrite !(Permutation_app_comm f). by apply splits_app. Qed.
Lemma splits_cons s l l' : splits l l' -> splits (s :: l) (s :: l').
Proof. apply (splits_app_l _ _ [s]). Qed.

Lemma splits_total l l' : splits l l' -> total l' = total l.
Proof. induction 1 as [l l' H| | | |]; [by rewrite H|unfold total in *; cbn; lia..]. Qed.

Lemma splits_covers l l' x : splits l l' -> covers l' x -> covers l x.
Proof.
  induction 1 as [l l' H|a n k l H|a l|a l|]; rewrite ?covers_cons; unfold inside; cbn.
  - by rewrite H.
  - intros [?|[?|?]]; [left; lia..|by right].
  - by right.
  - intros [?|?]; [lia|done].
  - naive_solver.
Qed.

Lemma splits_wf l l' : splits l l' -> wf l -> wf l'.
Proof.
  induction 1 as [l l' H|a n k l H|a l|a l|]; rewrite ?wf_cons.
  - by rewrite H.
  - rewrite !Forall_forall. setoid_rewrite elem_of_cons. unfold disj, good. cbn. intros (Hd & Hg & Hw). split_and!; try done; try lia.
    + intros t [->|Ht]; cbn; [lia|]. specialize (Hd t Ht). lia.
    + intros t Ht. specialize (Hd t Ht). lia.
  - naive_solver.
  - rewrite Forall_forall. unfold disj, good. cbn. intros Hw. split_and!; try done; lia.
  - naive_solver.
Qed.

(** A segment of equal objects. *)
Fixpoint objs (n : nat) (a size : Z) : list Z :=
  match n with O => [] | S n => a :: objs n (a + size) size end.
Definition segs (size : Z) (l : list Z) : list seg := (fun a => (a, size)) <$> l.

Lemma splits_objs n a size l : 0 <= size -> splits ((a, Z.of_nat n * size) :: l) (segs size (objs n a size) ++ l).
Proof.
  intros Hs. revert a. induction n as [|n IH]; intros a; cbn [objs segs fmap list_fmap app].
  - apply splits_drop.
  - etrans; [apply (splits_cut a _ size); lia|]. apply splits_cons.
    replace (Z.of_nat (S n) * size - size) with (Z.of_nat n * size) by lia. apply IH.
Qed.

(** Writing where others are not. *)
Lemma rd_outside m a bs x : ~ inside x (a, zlen bs) -> rd (mwrite m a bs) x = rd m x.
Proof. intros Hx. rewrite rd_mwrite, decide_False; [done|exact Hx]. Qed.
