(* ===== verification/SgiAlloc.v ===== *)
(** * The allocator of the pools ([sgi_pool/stl_alloc.h])

    One instance of [__default_alloc_template]: sixty lists of free objects of sixty sizes,
    linked through the objects themselves, and a piece of a chunk from [malloc] that has not
    been cut up yet.  Operations pass the state of the instance and the memory on.  What
    [malloc] and [realloc] answer is an argument; 0 is NULL. *)

From S2P Require Import Prelude Bytes SgiMemory.

Module SgiAlloc.

Definition _MAX_BYTES : Z := 131072.
Definition _NFREELISTS : Z := 60.
Definition _CHUNK_SIZE : Z := 2097152.

Definition _S_obj_size : list Z := [
  8;
  16; 32; 48; 64; 80; 96; 112; 128;
  160; 192; 224; 256;
  320; 384; 448; 512;
  640; 768; 896; 1024;
  1280; 1536; 1792; 2048;
  2560; 3072; 3584;
  4096 * 1; 4096 * 2; 4096 * 3; 4096 * 4; 4096 * 5; 4096 * 6; 4096 * 7; 4096 * 8; 4096 * 9; 4096 * 10;
  4096 * 11; 4096 * 12; 4096 * 13; 4096 * 14; 4096 * 15; 4096 * 16; 4096 * 17; 4096 * 18; 4096 * 19; 4096 * 20;
  4096 * 21; 4096 * 22; 4096 * 23; 4096 * 24; 4096 * 25; 4096 * 26; 4096 * 27; 4096 * 28; 4096 * 29; 4096 * 30;
  4096 * 31; 4096 * 32].
Definition obj_size (i : Z) : Z := default 0 (_S_obj_size !! Z.to_nat i).

(** [_S_freelist_index]: a binary search; 60 rounds are more than enough. *)
Fixpoint search (fuel : nat) (l r bytes : Z) : Z :=
  match fuel with
  | O => l
  | S fuel =>
      if l <? r then
        let m := (l + r) / 2 in
        if bytes =? obj_size m then m
        else if bytes >? obj_size m then search fuel (m + 1) r bytes
        else search fuel l m bytes
      else l
  end.
Definition _S_freelist_index (bytes : Z) : Z :=
  let l := 0 in let r := _NFREELISTS - 1 in
  if bytes <=? obj_size l then l
  else if bytes >=? obj_size r then r
  else search (Z.to_nat _NFREELISTS) l r bytes.
Definition _S_round_up (bytes : Z) : Z := obj_size (_S_freelist_index bytes).

(** The static members. *)
Record t := mkAlloc {
  _S_free_list : list Z;
  _S_start_free : Z;
  _S_end_free : Z;
  _S_heap_size : Z
}.
Definition init : t := mkAlloc (replicate 60 0) 0 0 0.

Definition head (i : Z) (s : t) : Z := default 0 (_S_free_list s !! Z.to_nat i).
Definition setHead (i p : Z) (s : t) : t :=
  mkAlloc (<[Z.to_nat i := p]> (_S_free_list s)) (_S_start_free s) (_S_end_free s) (_S_heap_size s).
Definition setFree (a b : Z) (s : t) : t := mkAlloc (_S_free_list s) a b (_S_heap_size s).

(** What [malloc] gives when asked for a chunk, for half of one, or for a large object, and
    what [realloc] gives. *)
Record answers := mkAnswers { chunk : Z; half : Z; large : Z; resized : Z }.

(** An object goes to the front of list [i]. *)
Definition pushFree (i p : Z) (s : t) (m : memory) : t * memory := (setHead i p s, store64 p (head i s) m).

(** The rest of a chunk is cut into objects, as large as possible. *)
Fixpoint carveClass (fuel : nat) (i bytes_left : Z) (s : t) (m : memory) : Z * t * memory :=
  match fuel with
  | O => (bytes_left, s, m)
  | S fuel =>
      if bytes_left >=? obj_size i then
        let '(s, m) := pushFree i (_S_start_free s) s m in
        carveClass fuel i (bytes_left - obj_size i) (setFree (_S_start_free s + obj_size i) (_S_end_free s) s) m
      else (bytes_left, s, m)
  end.
Fixpoint carve (i : nat) (bytes_left : Z) (s : t) (m : memory) : Z * t * memory :=
  if bytes_left =? 0 then (bytes_left, s, m) else
  let '(bytes_left, s, m) := carveClass (Z.to_nat bytes_left) (Z.of_nat i) bytes_left s m in
  match i with O => (bytes_left, s, m) | S i => carve i bytes_left s m end.

(** The first object of the lists from [j] on becomes the piece to cut from. *)
Fixpoint takeLarger (n : nat) (j : Z) (s : t) (m : memory) : option t :=
  match n with
  | O => None
  | S n =>
      let p := head j s in
      if negb (p =? 0) then Some (setFree p (p + obj_size j) (setHead j (load64 m p) s))
      else takeLarger n (j + 1) s m
  end.

(** [_S_chunk_alloc]; [None] when the fuel is used up *)
Fixpoint _S_chunk_alloc (fuel : nat) (a : answers) (size nobjs : Z) (s : t) (m : memory) : option (Z * Z * t * memory) :=
  match fuel with
  | O => None
  | S fuel =>
      let nobjs := if size >=? 4096 then 1 else if size * nobjs >=? 4096 then 4096 / size else nobjs in
      let total_bytes := size * nobjs in
      let bytes_left := u64 (_S_end_free s - _S_start_free s) in
      let result := _S_start_free s in
      if bytes_left >=? total_bytes then
        Some (result, nobjs, setFree (_S_start_free s + total_bytes) (_S_end_free s) s, m)
      else if bytes_left >=? size then
        let nobjs := bytes_left / size in
        Some (result, nobjs, setFree (_S_start_free s + size * nobjs) (_S_end_free s) s, m)
      else
        let '(_, s, m) := carve (Z.to_nat (_S_freelist_index bytes_left)) bytes_left s m in
        let '(start, bytes_to_get) := if chunk a =? 0 then (half a, _CHUNK_SIZE / 2) else (chunk a, _CHUNK_SIZE) in
        let m := malloc start bytes_to_get m in
        if negb (start =? 0) then
          _S_chunk_alloc fuel a size nobjs (mkAlloc (_S_free_list s) start (start + bytes_to_get) (_S_heap_size s + bytes_to_get)) m
        else
          let s := setFree 0 0 s in
          let j := _S_freelist_index size in
          match takeLarger (Z.to_nat (_NFREELISTS - j)) j s m with
          | Some s => _S_chunk_alloc fuel a size nobjs s m
          | None => Some (0, nobjs, s, m)
          end
  end.

(** [_S_refill]: one object of a chunk is for the caller, the others become the free list. *)
Fixpoint linkObjs (n : nat) (next size : Z) (m : memory) : memory :=
  match n with
  | O => m
  | S O => store64 next 0 m
  | S n => linkObjs n (next + size) size (store64 next (next + size) m)
  end.
Definition _S_refill (a : answers) (n : Z) (s : t) (m : memory) : option (Z * t * memory) :=
  '(chunk, nobjs, s, m) ← _S_chunk_alloc 2 a n 20 s m;
  if (chunk =? 0) || (nobjs =? 1) then Some (chunk, s, m) else
  Some (chunk, setHead (_S_freelist_index n) (chunk + n) s, linkObjs (Z.to_nat (nobjs - 1)) (chunk + n) n m).

(** [allocate] *)
Definition allocate (a : answers) (n : Z) (s : t) (m : memory) : option (Z * t * memory) :=
  if n =? 0 then Some (0, s, m) else
  if n >? _MAX_BYTES then Some (large a, s, malloc (large a) n m) else
  let i := _S_freelist_index n in
  let result := head i s in
  if result =? 0 then _S_refill a (_S_round_up n) s m
  else Some (result, setHead i (load64 m result) s, m).

(** [deallocate] *)
Definition deallocate (p n : Z) (s : t) (m : memory) : t * memory :=
  if (p =? 0) || (n =? 0) then (s, m) else
  if n >? _MAX_BYTES then (s, free p m) else
  pushFree (_S_freelist_index n) p s m.

(** [reallocate] *)
Definition reallocate (a : answers) (p old_sz new_sz : Z) (s : t) (m : memory) : option (Z * t * memory) :=
  if (p =? 0) || (old_sz =? 0) then allocate a new_sz s m else
  if new_sz =? 0 then let '(s, m) := deallocate p old_sz s m in Some (0, s, m) else
  if (old_sz >? _MAX_BYTES) && (new_sz >? _MAX_BYTES) then Some (resized a, s, realloc (resized a) p new_sz m) else
  if _S_round_up old_sz =? _S_round_up new_sz then Some (p, s, m) else
  '(result, s, m) ← allocate a new_sz s m;
  if result =? 0 then Some (result, s, m) else
  let copy_sz := if new_sz >? old_sz then old_sz else new_sz in
  let '(s, m) := deallocate p old_sz s (memcpy result p copy_sz m) in
  Some (result, s, m).

End SgiAlloc.

(** ** The sizes *)

Module SgiSizes.
Import SgiAlloc.

Lemma obj_size_step i : 0 <= i < 59 -> obj_size i < obj_size (i + 1).
Proof.
  intros Hi. assert (H : Forall (fun i : nat => obj_size (Z.of_nat i) < obj_size (Z.of_nat i + 1)) (seq 0 59)).
  { by apply (bool_decide_unpack _); vm_compute. }
  rewrite Forall_forall in H. specialize (H (Z.to_nat i)). rewrite Z2Nat.id in H by lia. apply H. apply elem_of_seq. lia.
Qed.
Lemma obj_size_lt i j : 0 <= i < j -> j <= 59 -> obj_size i < obj_size j.
Proof.
  intros Hi Hj. replace j with (i + 1 + Z.of_nat (Z.to_nat (j - i - 1))) in * by lia. remember (Z.to_nat (j - i - 1)) as n eqn:En. clear En.
  induction n as [|n IH]; [replace (i + 1 + Z.of_nat 0) with (i + 1) by lia; apply obj_size_step; lia|].
  etrans; [apply IH; lia|]. replace (i + 1 + Z.of_nat (S n)) with (i + 1 + Z.of_nat n + 1) by lia. apply obj_size_step. lia.
Qed.
Lemma obj_size_le i j : 0 <= i <= j -> j <= 59 -> obj_size i <= obj_size j.
Proof. intros Hi Hj. destruct (decide (i = j)) as [->|]; [done|]. pose proof (obj_size_lt i j). lia. Qed.

Lemma obj_size_range i : 0 <= i <= 59 -> 8 <= obj_size i <= _MAX_BYTES /\ (obj_size i) mod 8 = 0.
Proof.
  intros Hi. pose proof (obj_size_le 0 i ltac:(lia) ltac:(lia)) as H0. pose proof (obj_size_le i 59 ltac:(lia) ltac:(lia)) as H1.
  change (obj_size 0) with 8 in H0. change (obj_size 59) with 131072 in H1. unfold _MAX_BYTES. split; [lia|].
  assert (H : Forall (fun i : nat => obj_size (Z.of_nat i) mod 8 = 0) (seq 0 60)) by (by apply (bool_decide_unpack _); vm_compute).
  rewrite Forall_forall in H. specialize (H (Z.to_nat i)). rewrite Z2Nat.id in H by lia. apply H. apply elem_of_seq. lia.
Qed.

(** The search finds the smallest size that is enough. *)
Lemma search_ok fuel l r bytes : 0 <= l <= r -> r <= 59 -> r - l < Z.of_nat fuel ->
  (forall j, 0 <= j < l -> obj_size j < bytes) -> bytes <= obj_size r ->
  let i := search fuel l r bytes in
  l <= i <= r /\ bytes <= obj_size i /\ (forall j, 0 <= j < i -> obj_size j < bytes).
Proof.
  revert l r. induction fuel as [|fuel IH]; intros l r Hl Hr Hf Hlo Hhi; cbn [search]; [lia|].
  destruct (Z.ltb_spec l r) as [Hlt|Hge]; [|by replace r with l in * by lia; split_and!; try lia].
  assert (Hm : l <= (l + r) / 2 < r) by (split; [apply Z.div_le_lower_bound; lia|apply Z.div_lt_upper_bound; lia]).
  set (mid := (l + r) / 2) in *. clearbody mid. destruct (Z.eqb_spec bytes (obj_size mid)) as [E|Ne].
  - split_and!; try lia. intros j Hj. rewrite E. apply obj_size_lt; lia.
  - destruct (Z.gtb_spec bytes (obj_size mid)) as [Hgt|Hle].
    + destruct (IH (mid + 1) r) as (? & ? & ?); try done; try lia.
      * intros j Hj. pose proof (obj_size_le j mid). lia.
      * split_and!; try done; lia.
    + destruct (IH l mid) as (? & ? & ?); try done; try lia. split_and!; try done; lia.
Qed.

Lemma freelist_index_ok bytes : 
  let i := _S_freelist_index bytes in
  0 <= i <= 59 /\ (bytes <= _MAX_BYTES -> bytes <= obj_size i) /\ (forall j, 0 <= j < i -> obj_size j < bytes).
Proof.
  unfold _S_freelist_index, _NFREELISTS, _MAX_BYTES. cbv zeta. change (60 - 1) with 59. change (obj_size 0) with 8. change (obj_size 59) with 131072.
  destruct (Z.leb_spec bytes 8); [split; [lia|]; split; [intros ?; change (obj_size 0) with 8; lia|]; intros j Hj; lia|].
  destruct (Z.geb_spec bytes 131072).
  - split; [lia|]. split; [intros ?; change (obj_size 59) with 131072; lia|]. intros j Hj. pose proof (obj_size_lt j 59). change (obj_size 59) with 131072 in *. lia.
  - destruct (search_ok (Z.to_nat 60) 0 59 bytes) as (? & ? & ?); [lia|lia|lia|intros; lia|change (obj_size 59) with 131072; lia|].
    split_and!; try done; lia.
Qed.
Lemma freelist_index_range bytes : 0 <= _S_freelist_index bytes <= 59.
Proof. apply freelist_index_ok. Qed.
Lemma freelist_index_obj i : 0 <= i <= 59 -> _S_freelist_index (obj_size i) = i.
Proof.
  intros Hi. destruct (freelist_index_ok (obj_size i)) as (Hr & Hb & Hl). pose proof (obj_size_range i Hi) as [Hsz _].
  specialize (Hb ltac:(lia)). set (j := _S_freelist_index (obj_size i)) in *. clearbody j.
  destruct (Z.lt_trichotomy i j) as [H|[H|H]]; [specialize (Hl i ltac:(lia)); lia|done|].
  pose proof (obj_size_lt j i ltac:(lia) ltac:(lia)). lia.
Qed.
Lemma round_up_ok n : n <= _MAX_BYTES -> n <= _S_round_up n /\ 8 <= _S_round_up n <= _MAX_BYTES.
Proof.
  intros Hn. destruct (freelist_index_ok n) as (Hr & Hb & _). split; [by apply Hb|]. by apply obj_size_range.
Qed.
End SgiSizes.
