(* ===== verification/SgiInvariant.v ===== *)
(** * The allocator keeps its lists and its memory in order

    The free lists of [SgiAlloc], read from memory, and what each operation does with the
    memory: it cuts up what the instance had, and what [malloc] has given. *)

From S2P Require Import Prelude Bytes SgiMemory SgiAlloc.
Import SgiAlloc SgiSizes.

(** ** The free lists in memory *)

Fixpoint chain (m : memory) (p : Z) (l : list Z) : Prop :=
  match l with [] => p = 0 | a :: l => p = a /\ p <> 0 /\ chain m (load64 m a) l end.

Record lists_ok (m : memory) (s : t) (fl : list (list Z)) : Prop := mkListsOk {
  lo_heads : length (_S_free_list s) = 60%nat;
  lo_lists : length fl = 60%nat;
  lo_chain : forall i l, fl !! i = Some l -> chain m (head (Z.of_nat i) s) l
}.

(** The memory of the free objects, and all that an instance has. *)
Definition free_segs (fl : list (list Z)) : list seg := concat (imap (fun i l => segs (obj_size (Z.of_nat i)) l) fl).
Definition wild (s : t) : seg := (_S_start_free s, _S_end_free s - _S_start_free s).
Definition pool_segs (s : t) (fl : list (list Z)) : list seg := wild s :: free_segs fl.

Lemma segs_app size l l' : segs size (l ++ l') = segs size l ++ segs size l'.
Proof. apply fmap_app. Qed.

(** One list among the others. *)
Lemma free_segs_split fl i l : fl !! i = Some l ->
  exists rest, forall l', free_segs (<[i := l']> fl) ≡ₚ segs (obj_size (Z.of_nat i)) l' ++ rest.
Proof.
  intros Hl. pose proof (lookup_lt_Some _ _ _ Hl) as Hi. unfold free_segs. eexists. intros l'.
  rewrite insert_take_drop by done. rewrite imap_app, concat_app. cbn [imap concat]. 
  rewrite length_take_le, Nat.add_0_r by lia. rewrite Permutation_app_swap_app. reflexivity.
Qed.
Lemma free_segs_insert fl i l : fl !! i = Some l ->
  exists rest, free_segs fl ≡ₚ segs (obj_size (Z.of_nat i)) l ++ rest /\
    forall l', free_segs (<[i := l']> fl) ≡ₚ segs (obj_size (Z.of_nat i)) l' ++ rest.
Proof.
  intros Hl. destruct (free_segs_split fl i l Hl) as (rest & Hr). exists rest. split; [|done].
  rewrite <- Hr. by rewrite list_insert_id.
Qed.
Lemma free_segs_elem fl i l a : fl !! i = Some l -> a ∈ l -> (a, obj_size (Z.of_nat i)) ∈ free_segs fl.
Proof.
  intros Hl Ha. destruct (free_segs_insert fl i l Hl) as (rest & -> & _). apply elem_of_app. left. by apply (list_elem_of_fmap_2 (fun a => (a, obj_size (Z.of_nat i)))).
Qed.

(** Lists do not notice writes elsewhere. *)
Lemma load64_frame m m' a : (forall x, inside x (a, 8) -> rd m' x = rd m x) -> load64 m' a = load64 m a.
Proof. intros H. unfold load64. f_equal. apply mread_ext. intros x Hx. by apply H. Qed.
Lemma chain_frame m m' p l : (forall a x, a ∈ l -> inside x (a, 8) -> rd m' x = rd m x) -> chain m p l -> chain m' p l.
Proof.
  revert p. induction l as [|a l IH]; intros p H; cbn; [done|]. intros (? & ? & Hc). split_and!; try done.
  rewrite (load64_frame m m' a) by (intros x; apply H; apply list_elem_of_here). apply IH; [|done]. intros b x Hb. apply H. by apply list_elem_of_further.
Qed.

Lemma lists_frame m m' s fl : (forall x, covers (free_segs fl) x -> rd m' x = rd m x) -> lists_ok m s fl -> lists_ok m' s fl.
Proof.
  intros H [H1 H2 H3]. split; try done. intros i l Hl. apply (chain_frame m); [|by apply H3].
  intros a x Ha Hx. apply H. exists (a, obj_size (Z.of_nat i)). split; [by eapply free_segs_elem|].
  pose proof (lookup_lt_Some _ _ _ Hl). pose proof (obj_size_range (Z.of_nat i) ltac:(lia)). unfold inside in *. cbn in *. lia.
Qed.

Lemma lists_same m s s' fl : _S_free_list s' = _S_free_list s -> lists_ok m s fl -> lists_ok m s' fl.
Proof. intros E [H1 H2 H3]. split; unfold head in *; by rewrite ?E. Qed.

(** An object goes to the front of a list. *)
Lemma lookup_head i s : 0 <= i <= 59 -> length (_S_free_list s) = 60%nat -> _S_free_list s !! Z.to_nat i = Some (head i s).
Proof. intros Hi Hl. unfold head. destruct (lookup_lt_is_Some_2 (_S_free_list s) (Z.to_nat i)) as [p ->]; [lia|done]. Qed.
Lemma head_setHead i j p s : 0 <= i <= 59 -> 0 <= j -> length (_S_free_list s) = 60%nat ->
  head j (setHead i p s) = if decide (i = j) then p else head j s.
Proof.
  intros Hi Hj Hl. unfold head. cbn. destruct (decide (i = j)) as [->|Hne].
  - by rewrite list_lookup_insert_eq by lia.
  - by rewrite list_lookup_insert_ne by lia.
Qed.

Lemma lists_set m s fl i p l : 0 <= i <= 59 -> lists_ok m s fl -> chain m p l ->
  lists_ok m (setHead i p s) (<[Z.to_nat i := l]> fl).
Proof.
  intros Hi [H1 H2 H3] Hc. split; cbn; rewrite ?length_insert; try done.
  intros j l' Hj. rewrite head_setHead by lia. destruct (decide (i = Z.of_nat j)) as [->|Hne].
  - rewrite Nat2Z.id in Hj. rewrite list_lookup_insert_eq in Hj by lia. by injection Hj as <-.
  - rewrite list_lookup_insert_ne in Hj by lia. by apply H3.
Qed.

Lemma pushFree_ok i p s m fl l s' m' : 0 <= i <= 59 -> lists_ok m s fl -> fl !! Z.to_nat i = Some l ->
  wf ((p, obj_size i) :: free_segs fl) -> pushFree i p s m = (s', m') ->
  lists_ok m' s' (<[Z.to_nat i := p :: l]> fl) /\
  free_segs (<[Z.to_nat i := p :: l]> fl) ≡ₚ (p, obj_size i) :: free_segs fl /\
  blocks m' = blocks m /\ (forall x, ~ inside x (p, 8) -> rd m' x = rd m x).
Proof.
  intros Hi Hok Hl Hw [= <- <-]. pose proof (obj_size_range i Hi) as [Hsz _].
  assert (Hout : forall x, ~ inside x (p, 8) -> rd (store64 p (head i s) m) x = rd m x).
  { intros x Hx. apply rd_outside. by rewrite zlen_le_bytes. }
  destruct (free_segs_insert fl _ _ Hl) as (rest & Hfl & Hins). rewrite Z2Nat.id in Hfl, Hins by lia. split_and!; [| |done|done].
  - pose proof (lo_chain _ _ _ Hok _ _ Hl) as Hc. rewrite Z2Nat.id in Hc by lia.
    assert (Hok' : lists_ok (store64 p (head i s) m) s fl).
    { apply (lists_frame m); [|done]. intros x Hx. apply Hout. intros Hp. apply (wf_not_covers _ _ x Hw); [|done]. unfold inside in *. cbn in *. lia. }
    apply lists_set; [done|done|]. pose proof Hw as (_ & [_ Hgood] & _)%wf_cons. cbn in Hgood.
    cbn [chain]. split_and!; [done|lia|]. pose proof (lo_chain _ _ _ Hok' _ _ Hl) as Hc'. rewrite Z2Nat.id in Hc' by lia.
    rewrite load64_store64; [done|]. destruct l as [|b l]; cbn [chain] in Hc; [rewrite Hc; lia|]. destruct Hc as (Hb & Hn & _). rewrite Hb.
    assert (Hg : good (b, obj_size i)).
    { rewrite wf_cons in Hw. destruct Hw as (_ & _ & _ & Hg). rewrite Forall_forall in Hg. apply Hg.
      replace i with (Z.of_nat (Z.to_nat i)) by lia. apply (free_segs_elem _ _ _ _ Hl). apply list_elem_of_here. }
    destruct Hg as [_ Hg]. cbn in Hg. lia.
  - rewrite Hins, Hfl. done.
Qed.

(** The first object of a list is taken. *)
Lemma popFree_ok i s m fl : 0 <= i <= 59 -> lists_ok m s fl -> head i s <> 0 ->
  exists l, fl !! Z.to_nat i = Some (head i s :: l) /\
    lists_ok m (setHead i (load64 m (head i s)) s) (<[Z.to_nat i := l]> fl) /\
    free_segs fl ≡ₚ (head i s, obj_size i) :: free_segs (<[Z.to_nat i := l]> fl).
Proof.
  intros Hi Hok Hne. destruct (lookup_lt_is_Some_2 fl (Z.to_nat i)) as [l Hl]; [rewrite (lo_lists _ _ _ Hok); lia|].
  pose proof (lo_chain _ _ _ Hok _ _ Hl) as Hc. rewrite Z2Nat.id in Hc by lia.
  destruct l as [|a l]; cbn [chain] in Hc; [done|]. destruct Hc as (Ea & _ & Hc). exists l. rewrite <- Ea in *.
  destruct (free_segs_insert fl _ _ Hl) as (rest & Hfl & Hins). rewrite Z2Nat.id in Hfl, Hins by lia.
  split_and!; [done|by apply lists_set|]. by rewrite Hins, Hfl.
Qed.

Lemma head_nil i s m fl : 0 <= i <= 59 -> lists_ok m s fl -> head i s = 0 <-> fl !! Z.to_nat i = Some [].
Proof.
  intros Hi Hok. destruct (lookup_lt_is_Some_2 fl (Z.to_nat i)) as [l Hl]; [rewrite (lo_lists _ _ _ Hok); lia|].
  pose proof (lo_chain _ _ _ Hok _ _ Hl) as Hc. rewrite Z2Nat.id in Hc by lia. rewrite Hl.
  destruct l as [|a l]; cbn [chain] in Hc; [by split|]. destruct Hc as (-> & Ha & _). split; [done|intros [=]].
Qed.

(** ** Cutting up the rest of a chunk *)

(** Lists of objects that do not fit into what is left stay as they are. *)
Definition kept (bytes_left : Z) (fl fl' : list (list Z)) : Prop :=
  forall j : nat, bytes_left < obj_size (Z.of_nat j) -> fl' !! j = fl !! j.

Lemma carveClass_ok fuel i n s m fl n' s' m' : 0 <= i <= 59 -> lists_ok m s fl -> 0 <= n <= Z.of_nat fuel -> n mod 8 = 0 ->
  wf ((_S_start_free s, n) :: free_segs fl) -> carveClass fuel i n s m = (n', s', m') ->
  exists fl', lists_ok m' s' fl' /\
    splits ((_S_start_free s, n) :: free_segs fl) ((_S_start_free s', n') :: free_segs fl') /\
    _S_end_free s' = _S_end_free s /\ _S_heap_size s' = _S_heap_size s /\ blocks m' = blocks m /\
    0 <= n' < obj_size i /\ (n' <= n /\ _S_start_free s' + n' = _S_start_free s + n) /\ n' mod 8 = 0 /\ kept n fl fl' /\
    (forall x, ~ inside x (_S_start_free s, n) -> rd m' x = rd m x).
Proof.
  intros Hi. pose proof (obj_size_range i Hi) as [Hsz Hal]. revert n s m fl.
  induction fuel as [|fuel IH]; intros n s m fl Hok Hn Hmod Hw; cbn [carveClass].
  - intros [= <- <- <-]. exists fl. by split_and!; try lia.
  - destruct (Z.geb_spec n (obj_size i)) as [Hge|Hlt].
    + destruct (pushFree i (_S_start_free s) s m) as [s1 m1] eqn:Hpush.
      destruct (lookup_lt_is_Some_2 fl (Z.to_nat i)) as [l Hl]; [rewrite (lo_lists _ _ _ Hok); lia|].
      assert (Hcut : splits ((_S_start_free s, n) :: free_segs fl)
        ((_S_start_free s, obj_size i) :: (_S_start_free s + obj_size i, n - obj_size i) :: free_segs fl)) by (apply splits_cut; lia).
      pose proof (splits_wf _ _ Hcut Hw) as Hw1.
      assert (Hwp : wf ((_S_start_free s, obj_size i) :: free_segs fl)).
      { rewrite wf_cons, Forall_cons, wf_cons in Hw1. rewrite wf_cons. naive_solver. }
      destruct (pushFree_ok i _ s m fl l s1 m1 Hi Hok Hl Hwp Hpush) as (Hok1 & Hp1 & Hb1 & Hm1).
      assert (Hs1 : s1 = setHead i (_S_start_free s) s) by (by injection Hpush).
      intros Hrec. set (s2 := setFree _ _ s1) in Hrec.
      apply (lists_same _ _ s2) in Hok1; [|done].
      assert (Hst : _S_start_free s2 = _S_start_free s + obj_size i) by (subst s2; by rewrite Hs1).
      assert (Hen : _S_end_free s2 = _S_end_free s /\ _S_heap_size s2 = _S_heap_size s) by (subst s2; by rewrite Hs1).
      clearbody s2.
      destruct (IH (n - obj_size i) s2 m1 _ Hok1) with (4 := Hrec) as (fl' & Hok' & Hsp & He & Hh & Hb & Hr & Hle & Hmod' & Hk & Hm'); cbn.
      * lia.
      * by rewrite Zminus_mod, Hmod, Hal.
      * by rewrite Hp1, Hst, <- Permutation_swap.
      * rewrite Hst in *. exists fl'. split_and!; try done; try lia; try congruence.
        -- etrans; [exact Hcut|]. etrans; [|exact Hsp]. by rewrite Hp1, Permutation_swap.
        -- intros j Hj. rewrite (Hk j) by lia. apply list_lookup_insert_ne. intros Ej. rewrite <- Ej in Hj. rewrite Z2Nat.id in Hj by lia. lia.
        -- intros x Hx. rewrite Hm', Hm1; [done|..]; unfold inside in *; cbn in *; lia.
    + intros [= <- <- <-]. exists fl. by split_and!; try lia.
Qed.

Lemma carve_ok i n s m fl n' s' m' : Z.of_nat i <= 59 -> lists_ok m s fl -> 0 <= n -> n mod 8 = 0 ->
  wf ((_S_start_free s, n) :: free_segs fl) -> carve i n s m = (n', s', m') ->
  exists fl', lists_ok m' s' fl' /\ splits ((_S_start_free s, n) :: free_segs fl) (free_segs fl') /\
    _S_end_free s' = _S_end_free s /\ _S_heap_size s' = _S_heap_size s /\ blocks m' = blocks m /\ n' = 0 /\ kept n fl fl' /\
    (forall x, ~ inside x (_S_start_free s, n) -> rd m' x = rd m x).
Proof.
  revert n s m fl. induction i as [|i IH]; intros n s m fl Hi Hok Hn Hmod Hw; cbn [carve];
    (destruct (Z.eqb_spec n 0) as [->|Hne];
      [intros [= <- <- <-]; exists fl; split_and!; try done; apply splits_drop|]);
    destruct (carveClass _ _ n s m) as [[n1 s1] m1] eqn:Hc;
    (eapply carveClass_ok in Hc as (fl1 & Hok1 & Hsp1 & He1 & Hh1 & Hb1 & Hr1 & Hle1 & Hmod1 & Hk1 & Hm1); [|lia|exact Hok|lia|exact Hmod|exact Hw]).
  - intros [= <- <- <-]. change (obj_size (Z.of_nat 0)) with 8 in Hr1.
    assert (Hz : n1 = 0) by (rewrite Z.mod_small in Hmod1 by lia; lia). exists fl1. subst n1. split_and!; try done.
    etrans; [exact Hsp1|]. apply splits_drop.
  - intros Hrec. pose proof (splits_wf _ _ Hsp1 Hw) as Hw1.
    destruct (IH n1 s1 m1 fl1 ltac:(lia) Hok1 ltac:(lia) Hmod1 Hw1 Hrec) as (fl2 & Hok2 & Hsp2 & He2 & Hh2 & Hb2 & Hz & Hk2 & Hm2).
    exists fl2. split_and!; try done; try congruence.
    + by etrans.
    + intros j Hj. rewrite (Hk2 j) by lia. by apply Hk1.
    + intros x Hx. rewrite Hm2, Hm1; [done|done|]. unfold inside in *. cbn in *. lia.
Qed.

(** ** A piece to cut from *)

Lemma takeLarger_Some n j s m fl s' : 0 <= j -> j + Z.of_nat n <= 60 -> lists_ok m s fl -> takeLarger n j s m = Some s' ->
  exists k p l, j <= k <= 59 /\ p <> 0 /\ fl !! Z.to_nat k = Some (p :: l) /\
    lists_ok m s' (<[Z.to_nat k := l]> fl) /\ free_segs fl ≡ₚ wild s' :: free_segs (<[Z.to_nat k := l]> fl) /\
    _S_start_free s' = p /\ _S_end_free s' = p + obj_size k /\ _S_heap_size s' = _S_heap_size s.
Proof.
  revert j. induction n as [|n IH]; intros j Hj Hn Hok; cbn [takeLarger]; [done|].
  destruct (Z.eqb_spec (head j s) 0) as [E|Hne]; cbn [negb].
  - intros H. destruct (IH (j + 1) ltac:(lia) ltac:(lia) Hok H) as (k & p & l & Hk & ?). exists k, p, l. split; [lia|done].
  - intros [= <-]. destruct (popFree_ok j s m fl ltac:(lia) Hok Hne) as (l & Hl & Hok' & Hp).
    exists j, (head j s), l. split_and!; try done; try lia.
    + by apply (fun E => lists_same _ _ _ _ E Hok').
    + rewrite Hp. unfold wild. cbn. by replace (head j s + obj_size j - head j s) with (obj_size j) by lia.
Qed.
Lemma takeLarger_None n j s m : takeLarger n j s m = None -> forall k, j <= k < j + Z.of_nat n -> head k s = 0.
Proof.
  revert j. induction n as [|n IH]; intros j; cbn [takeLarger]; [lia|].
  destruct (Z.eqb_spec (head j s) 0) as [E|Hne]; cbn [negb]; [|done].
  intros H k Hk. destruct (decide (k = j)) as [->|]; [done|]. apply (IH (j + 1)); [done|lia].
Qed.

(** [malloc] gives NULL, or memory that is not in use. *)
Definition fresh (p n : Z) (l : list seg) : Prop := p = 0 \/ wf ((p, n) :: l).

Record wild_ok (s : t) : Prop := mkWildOk {
  wo_order : _S_start_free s <= _S_end_free s;
  wo_size : (_S_end_free s - _S_start_free s) mod 8 = 0
}.
Record pool_ok (m : memory) (s : t) (fl : list (list Z)) : Prop := mkPoolOk {
  po_lists : lists_ok m s fl;
  po_wild : wild_ok s;
  po_wf : wf (pool_segs s fl)
}.

Lemma pool_left m s fl : pool_ok m s fl -> u64 (_S_end_free s - _S_start_free s) = _S_end_free s - _S_start_free s.
Proof.
  intros [_ [Ho _] [_ Hg]]. apply Forall_cons in Hg as [[_ Hg] _]. unfold wild in Hg. cbn in Hg. apply Z.mod_small. lia.
Qed.

(** What is asked for, in the end. *)
Definition objects (size nobjs : Z) : Z :=
  if size >=? 4096 then 1 else if size * nobjs >=? 4096 then 4096 / size else nobjs.
Lemma objects_range size nobjs : 0 < size -> 1 <= nobjs -> 1 <= objects size nobjs <= nobjs.
Proof.
  intros Hs Hn. unfold objects. destruct (Z.geb_spec size 4096); [lia|]. destruct (Z.geb_spec (size * nobjs) 4096) as [Hge|]; [|lia].
  split; [apply Z.div_le_lower_bound; lia|]. apply Z.div_le_upper_bound; lia.
Qed.

(** Cutting from a piece that is large enough. *)
Lemma chunk_cut fuel a size nobjs s m fl : 0 < size -> size mod 8 = 0 -> 1 <= nobjs -> pool_ok m s fl ->
  size <= _S_end_free s - _S_start_free s ->
  exists k, _S_chunk_alloc (S fuel) a size nobjs s m = Some (_S_start_free s, k, setFree (_S_start_free s + size * k) (_S_end_free s) s, m) /\
    1 <= k <= nobjs /\ size * k <= _S_end_free s - _S_start_free s.
Proof.
  intros Hs Hmod Hn Hp Hleft. cbn [_S_chunk_alloc]. fold (objects size nobjs). pose proof (objects_range size nobjs Hs Hn) as Hr.
  set (k := objects size nobjs) in *. clearbody k. cbv zeta. rewrite (pool_left _ _ _ Hp).
  destruct (Z.geb_spec (_S_end_free s - _S_start_free s) (size * k)) as [Hge|Hlt]; [by exists k|].
  rewrite (proj2 (Z.geb_le _ _)) by lia. eexists. split; [reflexivity|].
  set (d := _S_end_free s - _S_start_free s) in *. pose proof (Z.mul_div_le d size Hs). split; [|done].
  split; [apply Z.div_le_lower_bound; lia|]. enough (d / size < k) by lia. apply Z.div_lt_upper_bound; lia.
Qed.

Lemma cut_ok m s fl k size : pool_ok m s fl -> 0 < size -> size mod 8 = 0 -> 1 <= k -> size * k <= _S_end_free s - _S_start_free s ->
  let s' := setFree (_S_start_free s + size * k) (_S_end_free s) s in
  lists_ok m s' fl /\ wild_ok s' /\ splits (pool_segs s fl) ((_S_start_free s, k * size) :: pool_segs s' fl) /\ _S_start_free s <> 0.
Proof.
  intros [Hl [Ho Hw] [_ Hwf]] Hs Hmod Hk Hle. cbn. split_and!.
  - by apply (fun E => lists_same _ _ _ _ E Hl).
  - split; cbn; [lia|]. replace (_S_end_free s - (_S_start_free s + size * k)) with ((_S_end_free s - _S_start_free s) - size * k) by lia.
    rewrite Zminus_mod, Hw, Zmult_mod, Hmod. done.
  - unfold pool_segs, wild. cbn. replace (_S_end_free s - (_S_start_free s + size * k)) with ((_S_end_free s - _S_start_free s) - k * size) by lia.
    replace (_S_start_free s + size * k) with (_S_start_free s + k * size) by lia. apply splits_cut. nia.
  - apply Forall_cons in Hwf as [[_ Hg] _]. unfold wild in Hg. cbn in Hg. nia.
Qed.

(** ** [_S_chunk_alloc] *)

(** What was got from [malloc]. *)
Definition got_ok (a : answers) (got : list seg) : Prop :=
  got = [] \/ (chunk a <> 0 /\ got = [(chunk a, _CHUNK_SIZE)]) \/ (half a <> 0 /\ got = [(half a, _CHUNK_SIZE / 2)]).
Definition answers_ok (a : answers) (l : list seg) : Prop :=
  fresh (chunk a) _CHUNK_SIZE l /\ fresh (half a) (_CHUNK_SIZE / 2) l.

Lemma got_wf a got l : answers_ok a l -> wf l -> got_ok a got -> wf (got ++ l).
Proof. intros [[?|Hc] [?|Hh]] Hl [->|[(? & ->)|(? & ->)]]; done. Qed.

(** From [s] to [s'], with [res] as the result. *)
Record step_ok (a : answers) (s : t) (m : memory) (fl : list (list Z)) (res got : list seg) (s' : t) (m' : memory) (fl' : list (list Z)) : Prop := mkStepOk {
  so_got : got_ok a got;
  so_heap : _S_heap_size s' = _S_heap_size s + total got;
  so_blocks : blocks m' = got ++ blocks m;
  so_lists : lists_ok m' s' fl';
  so_wild : wild_ok s';
  so_splits : splits (got ++ pool_segs s fl) (res ++ pool_segs s' fl')
}.

Lemma step_pool a s m fl res got s' m' fl' : step_ok a s m fl res got s' m' fl' -> pool_ok m s fl -> answers_ok a (pool_segs s fl) ->
  pool_ok m' s' fl'.
Proof.
  intros [Hg _ _ Hl Hw Hs] [_ _ Hwf] Ha. split; try done. apply (wf_app_r res). apply (splits_wf _ _ Hs). by apply (got_wf a).
Qed.

(** An allocation of objects of size [size], once there is a piece to cut them from. *)
Lemma step_cut fuel a size nobjs s m fl got s1 m1 fl1 : 0 < size -> size mod 8 = 0 -> 1 <= nobjs ->
  pool_ok m s fl -> answers_ok a (pool_segs s fl) -> step_ok a s m fl [] got s1 m1 fl1 ->
  size <= _S_end_free s1 - _S_start_free s1 ->
  exists c k s', _S_chunk_alloc (S fuel) a size nobjs s1 m1 = Some (c, k, s', m1) /\ c <> 0 /\ 1 <= k <= nobjs /\
    step_ok a s m fl [(c, k * size)] got s' m1 fl1.
Proof.
  intros Hs Hmod Hn Hp Ha Hst Hle. pose proof (step_pool _ _ _ _ _ _ _ _ _ Hst Hp Ha) as Hp1.
  destruct (chunk_cut fuel a size nobjs s1 m1 fl1 Hs Hmod Hn Hp1 Hle) as (k & E & Hk & Hfit).
  destruct (cut_ok m1 s1 fl1 k size Hp1 Hs Hmod ltac:(lia) Hfit) as (Hl & Hw & Hsp & Hne).
  destruct Hst as [Hg Hh Hb _ _ Hs1]. exists (_S_start_free s1), k. eexists. split_and!; [exact E|done|lia|lia|].
  split; try done. etrans; [exact Hs1|]. exact Hsp.
Qed.

Lemma chunk_alloc_ok a i nobjs s m fl : 0 <= i <= 59 -> 1 <= nobjs -> pool_ok m s fl -> answers_ok a (pool_segs s fl) ->
  exists c k got s' m' fl', _S_chunk_alloc 2 a (obj_size i) nobjs s m = Some (c, k, s', m') /\
    step_ok a s m fl (if c =? 0 then [] else [(c, k * obj_size i)]) got s' m' fl' /\
    (c = 0 -> chunk a = 0 /\ half a = 0) /\ (c <> 0 -> 1 <= k <= nobjs) /\
    (fl !! Z.to_nat i = Some [] -> fl' !! Z.to_nat i = Some []) /\
    (forall x, ~ inside x (wild s) -> rd m' x = rd m x).
Proof.
  intros Hi Hn Hp Ha. pose proof (obj_size_range i Hi) as [Hsz Hmod]. set (size := obj_size i) in *.
  pose proof Hp as [Hl [Ho Hw8] Hwf].
  destruct (Z.le_gt_cases size (_S_end_free s - _S_start_free s)) as [Hle|Hlt].
  - assert (Hst : step_ok a s m fl [] [] s m fl) by (split; try done; [by left|cbn; lia]).
    destruct (step_cut 1 a size nobjs s m fl [] s m fl ltac:(lia) Hmod Hn Hp Ha Hst Hle) as (c & k & s' & E & Hc & Hk & Hs').
    exists c, k, [], s', m, fl. by rewrite (proj2 (Z.eqb_neq _ _)).
  - remember 1%nat as fuel eqn:Ef. cbn [_S_chunk_alloc]. fold (objects size nobjs). pose proof (objects_range size nobjs ltac:(lia) Hn) as Hr.
    set (k := objects size nobjs) in *. clearbody k. rewrite (pool_left _ _ _ Hp).
    assert (Hcut : (_S_end_free s - _S_start_free s >=? size * k) = false /\ (_S_end_free s - _S_start_free s >=? size) = false).
    { rewrite !Z.geb_leb, !Z.leb_gt. nia. }
    destruct Hcut as [-> ->]. pose proof (freelist_index_range (_S_end_free s - _S_start_free s)) as Hix.
    destruct (carve _ _ s m) as [[n1 s1] m1] eqn:Hc.
    eapply carve_ok in Hc as (fl1 & Hl1 & Hsp1 & He1 & Hh1 & Hb1 & Hz & Hk1 & Hm1); [|lia|exact Hl|lia|exact Hw8|exact Hwf].
    fold (pool_segs s fl) in Hsp1. assert (Hkept : fl !! Z.to_nat i = Some [] -> fl1 !! Z.to_nat i = Some []).
    { intros E. rewrite (Hk1 (Z.to_nat i)); [done|]. rewrite Z2Nat.id by lia. lia. }
    assert (Hnew : forall c n, c <> 0 -> (n = _CHUNK_SIZE \/ n = _CHUNK_SIZE / 2) -> got_ok a [(c, n)] ->
      step_ok a s m fl [] [(c, n)] (mkAlloc (_S_free_list s1) c (c + n) (_S_heap_size s1 + n)) (malloc c n m1) fl1).
    { intros c n Hc0 Hn0 Hg. split; cbn.
      - done.
      - lia.
      - unfold malloc. rewrite (proj2 (Z.eqb_neq _ _)) by done. cbn. by rewrite Hb1.
      - apply (lists_frame m1); [intros; apply rd_malloc|]. by apply (fun E => lists_same _ _ _ _ E Hl1).
      - assert (0 <= n) by (by destruct Hn0 as [-> | ->]). split; cbn; [lia|].
        replace (c + n - c) with n by lia. by destruct Hn0 as [-> | ->].
      - unfold pool_segs at 2, wild. cbn. replace (c + n - c) with n by lia. by apply splits_cons. }
    destruct (if chunk a =? 0 then _ else _) as [c n] eqn:Ecn.
    assert (Hcn : (n = _CHUNK_SIZE \/ n = _CHUNK_SIZE / 2) /\ (c <> 0 -> got_ok a [(c, n)]) /\ (c = 0 -> chunk a = 0 /\ half a = 0)).
    { destruct (Z.eqb_spec (chunk a) 0); injection Ecn as <- <-; split_and!; try (by left); try (by right); try done.
      - intros ?. by right; right.
      - intros ?. by right; left. }
    destruct Hcn as (Hn0 & Hg & Hc0). destruct (Z.eqb_spec c 0) as [->|Hcne]; cbn [negb].
    + change (malloc 0 n m1) with m1. destruct (takeLarger _ _ _ m1) as [s3|] eqn:Ht.
      * eapply takeLarger_Some in Ht as (j & p & l & Hj & Hpne & Hlj & Hl3 & Hfs & Hst & Hen & Hh3);
          [|apply freelist_index_range|pose proof (freelist_index_range size); unfold _NFREELISTS; lia|by apply (fun E => lists_same _ _ _ _ E Hl1)].
        subst size. rewrite freelist_index_obj in Hj by done. set (size := obj_size i) in *.
        assert (Hst3 : step_ok a s m fl [] [] s3 m1 (<[Z.to_nat j := l]> fl1)).
        { pose proof (obj_size_range j ltac:(lia)) as [Hjs Hjm]. split; try done.
          - by left.
          - rewrite Hh3. cbn. lia.
          - split; rewrite Hst, Hen; [lia|]. by replace (p + obj_size j - p) with (obj_size j) by lia.
          - cbn. etrans; [exact Hsp1|]. apply splits_perm. by rewrite Hfs. }
        pose proof (obj_size_le i j ltac:(lia) ltac:(lia)).
        destruct (step_cut 0 a size k s m fl [] s3 m1 _ ltac:(lia) Hmod ltac:(lia) Hp Ha Hst3 ltac:(lia)) as (c' & k' & s' & E & Hc' & Hk' & Hs').
        subst fuel. exists c', k', [], s', m1, (<[Z.to_nat j := l]> fl1). rewrite (proj2 (Z.eqb_neq _ _)) by done. split_and!; try done; try lia.
        intros E0. specialize (Hkept E0). rewrite list_lookup_insert_ne; [done|]. intros Ej. rewrite Ej in Hlj. congruence.
      * exists 0, k, [], (setFree 0 0 s1), m1, fl1. split_and!; try done.
        split; cbn; try done; [by left|lia|by apply (fun E => lists_same _ _ _ _ E Hl1)|].
        etrans; [exact Hsp1|]. apply splits_empty.
    + specialize (Hnew c n Hcne Hn0 (Hg Hcne)).
      destruct (step_cut 0 a size k s m fl _ _ _ fl1 ltac:(lia) Hmod ltac:(lia) Hp Ha Hnew) as (c' & k' & s' & E & Hc' & Hk' & Hs').
      { cbn. unfold _MAX_BYTES in Hsz. destruct Hn0 as [-> | ->]; unfold _CHUNK_SIZE; [lia|]. change (2097152 / 2) with 1048576. lia. }
      subst fuel. exists c', k', [(c, n)], s', (malloc c n m1), fl1. rewrite (proj2 (Z.eqb_neq _ _)) by done. split_and!; try done; try lia.
      intros x Hx. rewrite rd_malloc. by apply Hm1.
Qed.

(** ** [_S_refill] *)

Lemma linkObjs_ok n next size m : 8 <= size -> wf (segs size (objs (S n) next size)) ->
  chain (linkObjs (S n) next size m) next (objs (S n) next size) /\
  (forall x, ~ covers (segs size (objs (S n) next size)) x -> rd (linkObjs (S n) next size m) x = rd m x).
Proof.
  intros Hs. revert next m. induction n as [|n IH]; intros next m Hw.
  - cbn [linkObjs objs chain]. pose proof Hw as (_ & [_ Hg] & _)%wf_cons. cbn in Hg. split.
    + split_and!; [done|lia|]. by rewrite load64_store64.
    + intros x Hx. apply rd_outside. rewrite zlen_le_bytes. intros Hin. apply Hx. cbn. apply covers_cons. left. unfold inside in *. cbn in *. lia.
  - set (m1 := store64 next (next + size) m). change (linkObjs (S (S n)) next size m) with (linkObjs (S n) (next + size) size m1).
    change (objs (S (S n)) next size) with (next :: objs (S n) (next + size) size) in *. cbn [segs fmap list_fmap] in Hw |- *.
    fold (segs size (objs (S n) (next + size) size)) in Hw |- *.
    pose proof Hw as (_ & [_ Hg] & Hw')%wf_cons. cbn in Hg. destruct (IH (next + size) m1 Hw') as [Hc Hf].
    pose proof Hw' as (_ & [_ Hg'] & _)%wf_cons. cbn in Hg'. split.
    + cbn [chain]. split_and!; [done|lia|]. rewrite (load64_frame m1).
      * unfold m1. by rewrite load64_store64 by lia.
      * intros x Hx. apply Hf. apply (wf_not_covers _ _ x Hw). unfold inside in *. cbn in *. lia.
    + intros x Hx. rewrite covers_cons in Hx. rewrite Hf by naive_solver. apply rd_outside. rewrite zlen_le_bytes.
      intros Hin. apply Hx. left. unfold inside in *. cbn in *. lia.
Qed.

Lemma linkObjs_blocks n next size m : blocks (linkObjs n next size m) = blocks m.
Proof. revert next m. induction n as [|n IH]; intros next m; cbn [linkObjs]; [done|]. destruct n as [|n]; [done|]. by rewrite IH. Qed.

(** The memory of a result. *)
Definition piece (p n : Z) : list seg := if p =? 0 then [] else [(p, n)].

Lemma refill_ok a i s m fl : 0 <= i <= 59 -> pool_ok m s fl -> answers_ok a (pool_segs s fl) -> fl !! Z.to_nat i = Some [] ->
  exists c got s' m' fl', _S_refill a (obj_size i) s m = Some (c, s', m') /\
    step_ok a s m fl (piece c (obj_size i)) got s' m' fl' /\ (c = 0 -> chunk a = 0 /\ half a = 0) /\
    (forall x, ~ covers (got ++ pool_segs s fl) x -> rd m' x = rd m x).
Proof.
  intros Hi Hp Ha Hnil. pose proof (obj_size_range i Hi) as [Hsz _].
  destruct (chunk_alloc_ok a i 20 s m fl Hi ltac:(lia) Hp Ha) as (c & k & got & s1 & m1 & fl1 & E & Hst & Hc0 & Hk & Hkept & Hm1).
  unfold _S_refill. rewrite E. cbn [mbind option_bind]. specialize (Hkept Hnil).
  assert (Hframe : forall x, ~ covers (got ++ pool_segs s fl) x -> rd m1 x = rd m x).
  { intros x Hx. apply Hm1. intros Hin. apply Hx. apply covers_app. right. apply covers_cons. by left. }
  unfold piece. destruct (Z.eqb_spec c 0) as [->|Hne]; cbn [orb].
  - exists 0, got, s1, m1, fl1. by split_and!.
  - specialize (Hk Hne). destruct (Z.eqb_spec k 1) as [->|Hk1].
    + exists c, got, s1, m1, fl1. rewrite Z.mul_1_l in Hst. by rewrite (proj2 (Z.eqb_neq _ _)).
    + set (size := obj_size i) in *. assert (Hn : exists n, Z.to_nat (k - 1) = S n) by (exists (Z.to_nat (k - 2)); lia). destruct Hn as [n Hn].
      assert (Hix : _S_freelist_index size = i) by (by apply freelist_index_obj). rewrite Hix. set (os := objs (S n) (c + size) size).
      pose proof Hst as [Hg Hh Hb Hl Hw Hs].
      assert (Hs' : splits (got ++ pool_segs s fl) ((c, size) :: segs size os ++ pool_segs s1 fl1)).
      { etrans; [exact Hs|]. cbn. etrans; [apply (splits_cut _ _ size); nia|]. apply splits_cons.
        replace (k * size - size) with (Z.of_nat (S n) * size) by lia. apply splits_objs. lia. }
      pose proof (splits_wf _ _ Hs' (got_wf _ _ _ Ha (po_wf _ _ _ Hp) Hg)) as Hwf.
      pose proof Hwf as (_ & _ & Hwf')%wf_cons. destruct (linkObjs_ok n (c + size) size m1 ltac:(lia) (wf_app_l _ _ Hwf')) as [Hch Hlink].
      rewrite Hn. pose proof (linkObjs_blocks (S n) (c + size) size m1) as Hb2.
      fold os in Hch, Hlink. set (m2 := linkObjs (S n) (c + size) size m1) in *. clearbody m2.
      assert (Hl2 : lists_ok m2 s1 fl1).
      { apply (lists_frame m1); [|done]. intros x Hx. apply Hlink. intros Hx'. apply (wf_app_covers _ _ x Hwf' Hx'). apply covers_cons. by right. }
      exists c, got, (setHead i (c + size) s1), m2, (<[Z.to_nat i := os]> fl1). rewrite (proj2 (Z.eqb_neq _ _)) by done. split_and!; try done.
      * split; try done; [by rewrite Hb2|by apply lists_set|by destruct Hw|]. etrans; [exact Hs'|]. apply splits_perm. apply (perm_skip (c, size)). unfold pool_segs.
        destruct (free_segs_insert fl1 _ _ Hkept) as (rest & Hfs & Hins). rewrite Z2Nat.id in Hfs, Hins by lia. change (free_segs fl1 ≡ₚ rest) in Hfs.
        rewrite Hins, Hfs. change (wild (setHead i (c + size) s1)) with (wild s1). by rewrite Permutation_middle.
      * intros x Hx. rewrite Hlink; [by apply Hframe|]. intros Hx'. apply Hx. apply (splits_covers _ _ _ Hs'). apply covers_cons. right.
        apply covers_app. by left.
Qed.

(** ** [allocate], [deallocate], [reallocate] *)

(** The size of the memory behind a request of [n] bytes. *)
Definition cap (n : Z) : Z := if n >? _MAX_BYTES then n else _S_round_up n.
Lemma cap_ge n : n <= cap n.
Proof. unfold cap. destruct (Z.gtb_spec n _MAX_BYTES) as [|H]; [lia|]. by apply round_up_ok. Qed.
Lemma cap_small n : n <= _MAX_BYTES -> cap n = _S_round_up n /\ 8 <= cap n.
Proof.
  intros H. unfold cap. destruct (Z.gtb_spec n _MAX_BYTES) as [|H']; [lia|]. split; [done|]. by apply round_up_ok.
Qed.
Lemma cap_large n : _MAX_BYTES < n -> cap n = n.
Proof. intros H. unfold cap. by destruct (Z.gtb_spec n _MAX_BYTES); [|lia]. Qed.

(** What an instance and the memory have become: of the memory [l], only pieces were used
    and written to, and [res] was handed out. *)
Record op_ok (l res : list seg) (m : memory) (s' : t) (m' : memory) (fl' : list (list Z)) : Prop := mkOpOk {
  oo_lists : lists_ok m' s' fl';
  oo_wild : wild_ok s';
  oo_splits : splits l (res ++ pool_segs s' fl');
  oo_frame : forall x, ~ covers l x -> rd m' x = rd m x
}.

Lemma pop_step a s m fl i : 0 <= i <= 59 -> pool_ok m s fl -> head i s <> 0 ->
  exists fl', step_ok a s m fl [(head i s, obj_size i)] [] (setHead i (load64 m (head i s)) s) m fl'.
Proof.
  intros Hi [Hl Hw Hwf] Hne. destruct (popFree_ok i s m fl Hi Hl Hne) as (l & Hl0 & Hok & Hp). eexists.
  split; [by left|cbn; lia|done|exact Hok|by destruct Hw|]. apply splits_perm. cbn. unfold pool_segs. rewrite Hp.
  rewrite Permutation_swap. done.
Qed.

Lemma allocate_ok a n s m fl : 0 < n -> pool_ok m s fl -> answers_ok a (pool_segs s fl) ->
  exists c got s' m' fl', allocate a n s m = Some (c, s', m') /\
    op_ok (got ++ pool_segs s fl) (piece c (cap n)) m s' m' fl' /\ blocks m' = got ++ blocks m /\
    (if n >? _MAX_BYTES then c = large a /\ got = piece c n /\ _S_heap_size s' = _S_heap_size s
     else got_ok a got /\ _S_heap_size s' = _S_heap_size s + total got /\ (c = 0 -> chunk a = 0 /\ half a = 0)).
Proof.
  intros Hn Hp Ha. pose proof Hp as [Hl Hw Hwf]. unfold allocate. rewrite (proj2 (Z.eqb_neq n 0)) by lia. unfold cap.
  destruct (Z.gtb_spec n _MAX_BYTES) as [Hbig|Hsmall].
  - exists (large a), (piece (large a) n), s, (malloc (large a) n m), fl. split; [done|]. split; [|split; [|by split_and!]].
    + split; try done; [|intros; apply rd_malloc]. apply (lists_frame m); [intros; apply rd_malloc|done].
    + unfold malloc, piece. by destruct (large a =? 0).
  - set (i := _S_freelist_index n). pose proof (freelist_index_range n) as Hi. fold i in Hi. unfold _S_round_up. fold i.
    destruct (Z.eqb_spec (head i s) 0) as [E|Hne].
    + pose proof (proj1 (head_nil i s m fl Hi Hl) E) as Hnil.
      destruct (refill_ok a i s m fl Hi Hp Ha Hnil) as (c & got & s' & m' & fl' & Er & [Hg Hh Hb Hl' Hw' Hs'] & Hc & Hf).
      exists c, got, s', m', fl'. by split_and!.
    + destruct (pop_step a s m fl i Hi Hp Hne) as (fl' & [Hg Hh Hb Hl' Hw' Hs']).
      exists (head i s), [], (setHead i (load64 m (head i s)) s), m, fl'. split; [done|]. split; [|by split_and!].
      split; try done. unfold piece. by rewrite (proj2 (Z.eqb_neq _ _)).
Qed.

Lemma deallocate_ok p n s m fl : p <> 0 -> 0 < n -> lists_ok m s fl -> wild_ok s -> wf ((p, cap n) :: pool_segs s fl) ->
  exists s' m' fl', deallocate p n s m = (s', m') /\
    op_ok ((if n >? _MAX_BYTES then [] else [(p, cap n)]) ++ pool_segs s fl) [] m s' m' fl' /\
    _S_heap_size s' = _S_heap_size s /\ blocks m' = if n >? _MAX_BYTES then removeBlock p (blocks m) else blocks m.
Proof.
  intros Hp Hn Hl Hw. unfold deallocate, cap. rewrite !(proj2 (Z.eqb_neq _ 0)) by lia. cbn [orb].
  destruct (Z.gtb_spec n _MAX_BYTES) as [Hbig|Hsmall]; intros Hwf.
  - exists s, (free p m), fl. split; [done|]. split; [|done]. split; try done. by apply (lists_frame m).
  - set (i := _S_freelist_index n). pose proof (freelist_index_range n) as Hi. fold i in Hi. unfold _S_round_up in *. fold i in Hwf |- *.
    destruct (lookup_lt_is_Some_2 fl (Z.to_nat i)) as [l Hli]; [rewrite (lo_lists _ _ _ Hl); lia|].
    assert (Hwf' : wf ((p, obj_size i) :: free_segs fl)).
    { rewrite wf_cons in Hwf. destruct Hwf as (Hd & Hg & (_ & _ & Hwf)%wf_cons). apply Forall_cons in Hd as [_ Hd]. by rewrite wf_cons. }
    destruct (pushFree i p s m) as [s' m'] eqn:E. destruct (pushFree_ok i p s m fl l s' m' Hi Hl Hli Hwf' E) as (Hl' & Hp' & Hb & Hf).
    injection E as <- <-. do 3 eexists. split; [reflexivity|]. split; [|done]. split; [exact Hl'|by destruct Hw| |].
    + apply splits_perm. cbn. unfold pool_segs. rewrite Hp'. rewrite Permutation_swap. done.
    + intros x Hx. apply Hf. intros Hin. apply Hx. apply covers_cons. left. pose proof (obj_size_range i Hi). unfold inside in *. cbn in *. lia.
Qed.
