(* ===== verification/SgiPool.v ===== *)
(** * The memory pools ([pro_shared.cpp], [pro_memory_pool.cpp])

    Ten pools of two instances of [SgiAlloc] each, one for small and one for big objects,
    behind [ProAllocateSgiPoolBuffer], [ProReallocateSgiPoolBuffer] and
    [ProDeallocateSgiPoolBuffer], which keep the size of a buffer in front of it.

    The pools refine a heap of separate arrays of bytes ([SgiSpec]), for clients that stay
    within their buffers and as long as no buffer grows or shrinks across the limit of
    128 KB inside the largest size ([crosses]); a buffer that does outgrows its memory
    ([ProReallocate_outgrows]). *)

From S2P Require Import Prelude Bytes SgiMemory SgiAlloc SgiInvariant.

Module SgiPool.
Import SgiAlloc.

Definition SMALL_OBJ_SIZE : Z := 4096.

(** [g_s_allocator0a] is number 0, [g_s_allocator0b] 1, [g_s_allocator1a] 2, and so on. *)
Record pools := mkPools { allocators : list SgiAlloc.t; mem : memory }.
Definition start (m : memory) : pools := mkPools (replicate 20 SgiAlloc.init) m.
Definition setMem (m : memory) (st : pools) : pools := mkPools (allocators st) m.

(** The switches on [poolIndex]. *)
Definition number (poolIndex size : Z) : nat := Z.to_nat (2 * poolIndex + if size <=? SMALL_OBJ_SIZE then 0 else 1).

(** [ProAllocateSgiPoolBuffer] *)
Definition ProAllocateSgiPoolBuffer (a : answers) (size poolIndex : Z) (st : pools) : option (Z * pools) :=
  if poolIndex >? 9 then Some (0, st) else
  let size := if size =? 0 then 4 + 4 + 1 else u64 (4 + 4 + size) in
  s ← allocators st !! number poolIndex size;
  '(p, s, m) ← allocate a size s (mem st);
  let st := mkPools (<[number poolIndex size := s]> (allocators st)) m in
  if p =? 0 then Some (0, st) else
  Some (p + 8, setMem (store32 p (u32 size) (mem st)) st).

(** [ProDeallocateSgiPoolBuffer] *)
Definition ProDeallocateSgiPoolBuffer (buf poolIndex : Z) (st : pools) : option pools :=
  if (buf =? 0) || (poolIndex >? 9) then Some st else
  let p := buf - 8 in
  let n := load32 (mem st) p in
  if n <? 4 + 4 + 1 then Some st else
  s ← allocators st !! number poolIndex n;
  let '(s, m) := deallocate p n s (mem st) in
  Some (mkPools (<[number poolIndex n := s]> (allocators st)) m).

(** [ProReallocateSgiPoolBuffer] *)
Definition ProReallocateSgiPoolBuffer (a : answers) (buf newSize poolIndex : Z) (st : pools) : option (Z * pools) :=
  if poolIndex >? 9 then Some (0, st) else
  if buf =? 0 then ProAllocateSgiPoolBuffer a newSize poolIndex st else
  if newSize =? 0 then st ← ProDeallocateSgiPoolBuffer buf poolIndex st; Some (0, st) else
  let p := buf - 8 in
  let n := load32 (mem st) p in
  if n <? 4 + 4 + 1 then Some (0, st) else
  let newSize := u64 (4 + 4 + newSize) in
  s ← allocators st !! number poolIndex n;
  '(q, s, m) ← reallocate a p n newSize s (mem st);
  let st := mkPools (<[number poolIndex n := s]> (allocators st)) m in
  if q =? 0 then Some (0, st) else
  Some (q + 8, setMem (store32 q (u32 newSize) (mem st)) st).

(** [pro_memory_pool.cpp] *)
Definition ProPoolMalloc (a : answers) (size poolIndex : Z) (st : pools) : option (Z * pools) :=
  ProAllocateSgiPoolBuffer a size poolIndex st.
Definition ProPoolCalloc (a : answers) (count size poolIndex : Z) (st : pools) : option (Z * pools) :=
  '(p, st) ← ProAllocateSgiPoolBuffer a (u64 (count * size)) poolIndex st;
  Some (p, if negb (p =? 0) then setMem (memset p 0 (u64 (count * size)) (mem st)) st else st).
Definition ProPoolRealloc (a : answers) (p newSize poolIndex : Z) (st : pools) : option (Z * pools) :=
  ProReallocateSgiPoolBuffer a p newSize poolIndex st.
Definition ProPoolFree (p poolIndex : Z) (st : pools) : option pools := ProDeallocateSgiPoolBuffer p poolIndex st.

Definition ProMalloc (a : answers) (size : Z) (st : pools) : option (Z * pools) :=
  let size := if size =? 0 then 1 else size in
  ProAllocateSgiPoolBuffer a size 0 st.
Definition ProCalloc (a : answers) (count size : Z) (st : pools) : option (Z * pools) :=
  let count := if count =? 0 then 1 else count in
  let size := if size =? 0 then 1 else size in
  '(p, st) ← ProAllocateSgiPoolBuffer a (u64 (count * size)) 0 st;
  Some (p, if negb (p =? 0) then setMem (memset p 0 (u64 (count * size)) (mem st)) st else st).
Definition ProRealloc (a : answers) (p newSize : Z) (st : pools) : option (Z * pools) :=
  let newSize := if (p =? 0) && (newSize =? 0) then 1 else newSize in
  ProReallocateSgiPoolBuffer a p newSize 0 st.
Definition ProFree (p : Z) (st : pools) : option pools :=
  if p =? 0 then Some st else ProDeallocateSgiPoolBuffer p 0 st.

End SgiPool.

(** ** Pools and their client *)

Module SgiSpec.
Import SgiAlloc SgiPool.

(** What a client does: calls, and writes into its buffers. *)
Inductive op :=
  | Alloc (size poolIndex : Z)
  | Calloc (count size poolIndex : Z)
  | Realloc (buf newSize poolIndex : Z)
  | Free (buf poolIndex : Z)
  | Write (buf off : Z) (bs : list Z).

Definition exec (a : answers) (o : op) (st : pools) : option (Z * pools) :=
  match o with
  | Alloc size poolIndex => ProPoolMalloc a size poolIndex st
  | Calloc count size poolIndex => ProPoolCalloc a count size poolIndex st
  | Realloc buf newSize poolIndex => ProPoolRealloc a buf newSize poolIndex st
  | Free buf poolIndex => st ← ProPoolFree buf poolIndex st; Some (0, st)
  | Write buf off bs => Some (0, setMem (mwrite (mem st) (buf + off) bs) st)
  end.

(** The heap that it is promised: arrays of bytes at addresses. *)
Abbreviation heap := (gmap Z (list Z)).

Inductive promised : op -> heap -> Z -> heap -> Prop :=
  | promised_alloc size poolIndex H r g :
      r <> 0 -> H !! r = None -> zlen g = Z.max 1 size -> promised (Alloc size poolIndex) H r (<[r := g]> H)
  | promised_calloc count size poolIndex H r g :
      r <> 0 -> H !! r = None -> zlen g = Z.max 1 (count * size) -> (0 < count * size -> Forall (eq 0) g) ->
      promised (Calloc count size poolIndex) H r (<[r := g]> H)
  | promised_realloc buf newSize poolIndex H bs r g :
      H !! buf = Some bs -> 0 < newSize -> r <> 0 -> r = buf \/ H !! r = None -> zlen g = Z.max 0 (newSize - zlen bs) ->
      promised (Realloc buf newSize poolIndex) H r (<[r := ztake newSize bs ++ g]> (delete buf H))
  | promised_realloc_null newSize poolIndex H r H' :
      promised (Alloc newSize poolIndex) H r H' -> promised (Realloc 0 newSize poolIndex) H r H'
  | promised_realloc_free buf poolIndex H :
      buf <> 0 -> promised (Realloc buf 0 poolIndex) H 0 (delete buf H)
  | promised_free buf poolIndex H : promised (Free buf poolIndex) H 0 (delete buf H)
  | promised_write buf off bs H old :
      H !! buf = Some old -> 0 <= off -> off + zlen bs <= zlen old ->
      promised (Write buf off bs) H 0 (<[buf := zput off bs old]> H)
  | promised_nothing o H : match o with Alloc _ _ | Calloc _ _ _ | Realloc _ _ _ => True | _ => False end -> promised o H 0 H.

(** The client's part.  A request is for less than 4 GB, since its size is kept in 32 bits.
    [crosses]: the old size and the new one are on either side of 128 KB, but round up to the
    same size. *)
Definition request (size : Z) : Prop := 0 <= size /\ 8 + size < 2 ^ 32.
Definition crosses (n n' : Z) : Prop :=
  (n >? _MAX_BYTES) <> (n' >? _MAX_BYTES) /\ _S_round_up n = _S_round_up n'.
Definition index_ok (poolIndex : Z) : Prop := 0 <= poolIndex <= 9.
Definition allowed (H : heap) (o : op) : Prop :=
  match o with
  | Alloc size poolIndex => request size /\ index_ok poolIndex
  | Calloc count size poolIndex => 0 <= count /\ 0 <= size /\ request (count * size) /\ index_ok poolIndex
  | Realloc buf newSize poolIndex =>
      request newSize /\ index_ok poolIndex /\
      (buf = 0 \/ exists bs, H !! buf = Some bs /\ (newSize = 0 \/ ~ crosses (8 + zlen bs) (8 + newSize)))
  | Free buf poolIndex => index_ok poolIndex /\ (buf = 0 \/ is_Some (H !! buf))
  | Write buf off bs => exists old, H !! buf = Some old /\ 0 <= off /\ off + zlen bs <= zlen old
  end.

(** The part of the C library: what it gives is not in use; [realloc] may use the old block. *)
Definition requested (o : op) : Z :=
  match o with
  | Alloc size _ => 8 + Z.max 1 size
  | Calloc count size _ => 8 + Z.max 1 (count * size)
  | Realloc _ newSize _ => 8 + Z.max 1 newSize
  | _ => 0
  end.
Definition library_ok (a : answers) (o : op) (st : pools) : Prop :=
  fresh (chunk a) _CHUNK_SIZE (blocks (mem st)) /\ fresh (half a) (_CHUNK_SIZE / 2) (blocks (mem st)) /\
  fresh (large a) (requested o) (blocks (mem st)) /\
  match o with Realloc buf _ _ => fresh (resized a) (requested o) (removeBlock (buf - 8) (blocks (mem st))) | _ => True end.

(** It has memory. *)
Definition library_gives (a : answers) : Prop := (chunk a <> 0 \/ half a <> 0) /\ large a <> 0 /\ resized a <> 0.

End SgiSpec.
