(* ===== verification/SgiRefinement.v ===== *)
(** * The pools refine a heap of arrays

    The invariant of [SgiPool]: live buffers, pieces in transit and the free memory of the
    twenty instances are cut out of the blocks of [malloc], without a byte left over. *)

From S2P Require Import Prelude Bytes SgiMemory SgiAlloc SgiInvariant SgiPool.

Module SgiRefinement.
Import SgiAlloc SgiSizes SgiPool SgiSpec.

(** ** The segments *)

Definition block (buf : Z) (bs : list Z) : seg := (buf - 8, cap (8 + zlen bs)).
Definition live (H : heap) : list seg := (fun e => block e.1 e.2) <$> map_to_list H.
Definition free_memory (st : pools) (fls : list (list (list Z))) : list seg :=
  concat (zip_with pool_segs (allocators st) fls).

(** The blocks of [malloc] are made up of [l]. *)
Record backed (l : list seg) (m : memory) : Prop := mkBacked {
  ba_wf : wf l;
  ba_blocks : wf (blocks m);
  ba_pos : Forall (fun s => 0 < s.2) (blocks m);
  ba_cover : forall x, covers l x -> covers (blocks m) x;
  ba_total : total l = total (blocks m)
}.

Lemma backed_splits l l' m m' : backed l m -> splits l l' -> blocks m' = blocks m -> backed l' m'.
Proof.
  intros [H1 H2 H3 H4 H5] Hs Hb. split; rewrite ?Hb; try done.
  - by apply (splits_wf l).
  - intros x Hx. apply H4. by apply (splits_covers l l').
  - by rewrite (splits_total _ _ Hs).
Qed.

Lemma disj_points s t : (forall x, inside x s -> inside x t -> False) -> disj s t.
Proof.
  intros H. unfold disj. specialize (H (Z.max s.1 t.1)). unfold inside in H. lia.
Qed.

(** New memory is not in use. *)
Lemma fresh_backed l m p n : backed l m -> fresh p n (blocks m) -> fresh p n l.
Proof.
  intros [H1 H2 H3 H4 H5] [?|Hf]; [by left|right]. pose proof Hf as (Hd & Hg & _)%wf_cons. rewrite wf_cons. split_and!; try done.
  apply Forall_forall. intros s Hs. apply disj_points. intros x Hx Hx'.
  apply (wf_not_covers _ _ x Hf Hx). apply H4. by exists s.
Qed.
Lemma fresh_perm p n l l' : l ≡ₚ l' -> fresh p n l -> fresh p n l'.
Proof. intros Hp [?|H]; [by left|right]. by rewrite <- Hp. Qed.
Lemma fresh_sub p n l l' : fresh p n (l ++ l') -> fresh p n l.
Proof. intros [?|H]; [by left|right]. by apply (wf_app_l ((p, n) :: l) l'). Qed.

Lemma backed_got l m m' got : backed l m -> wf (got ++ l) -> wf (got ++ blocks m) -> Forall (fun s => 0 < s.2) got ->
  blocks m' = got ++ blocks m -> backed (got ++ l) m'.
Proof.
  intros [H1 H2 H3 H4 H5] Hw Hwb Hp Hb. split; rewrite ?Hb; try done.
  - by apply Forall_app.
  - intros x. rewrite !covers_app. naive_solver.
  - by rewrite !total_segs_app, H5.
Qed.

(** A block that goes back. *)
Lemma removeBlock_perm p n l : wf l -> Forall (fun s => 0 < s.2) l -> (p, n) ∈ l -> l ≡ₚ (p, n) :: removeBlock p l.
Proof.
  induction l as [|s l IH]; [by intros _ _ ?%not_elem_of_nil|]. rewrite wf_cons, Forall_cons, elem_of_cons.
  intros (Hd & _ & Hw) (Hpos & Hposs) Hin. cbn [removeBlock List.filter]. destruct (Z.eqb_spec s.1 p) as [E|Hne]; cbn [negb].
  - assert (Hout : List.filter (fun s => negb (s.1 =? p)) l = l).
    { clear IH Hin Hw. induction l as [|t l IHl]; [done|]. apply Forall_cons in Hd as [Ht Hd]. apply Forall_cons in Hposs as [Hpt Hposs]. cbn.
      destruct (Z.eqb_spec t.1 p) as [Et|]; cbn [negb]; [|f_equal; by apply IHl]. unfold disj in Ht. lia. }
    rewrite Hout. destruct Hin as [<-|Hin]; [done|]. exfalso. rewrite Forall_forall in Hd, Hposs. specialize (Hd _ Hin). specialize (Hposs _ Hin). unfold disj in Hd. cbn in *. lia.
  - destruct Hin as [<-|Hin]; [by cbn in Hne|]. fold (removeBlock p l). rewrite Permutation_swap. f_equiv. by apply IH.
Qed.

Lemma backed_free p n l m m' : backed ((p, n) :: l) m -> (p, n) ∈ blocks m -> blocks m' = removeBlock p (blocks m) -> backed l m'.
Proof.
  intros [H1 H2 H3 H4 H5] Hin Hb. pose proof (removeBlock_perm p n (blocks m) H2 H3 Hin) as Hp.
  pose proof H1 as (Hd & Hg & Hw)%wf_cons. rewrite Hp in H2, H3, H5. pose proof H2 as (_ & _ & H2')%wf_cons. apply Forall_cons in H3 as [_ H3].
  split; rewrite ?Hb; try done.
  - intros x Hx. assert (Hc : covers ((p, n) :: removeBlock p (blocks m)) x) by (rewrite <- Hp; apply H4; apply covers_cons; by right).
    apply covers_cons in Hc as [Hin'|Hc]; [|done]. exfalso. by apply (wf_not_covers _ _ x H1 Hin').
  - unfold total in *. cbn in H5. lia.
Qed.

(** ** One of the instances *)

Lemma lookup_zip (st : pools) fls i s fl : allocators st !! i = Some s -> fls !! i = Some fl ->
  exists rest, free_memory st fls ≡ₚ pool_segs s fl ++ rest /\
    (forall s' fl' m, free_memory (mkPools (<[i := s']> (allocators st)) m) (<[i := fl']> fls) ≡ₚ pool_segs s' fl' ++ rest) /\
    (forall j s' fl' x, j <> i -> allocators st !! j = Some s' -> fls !! j = Some fl' -> covers (pool_segs s' fl') x -> covers rest x).
Proof.
  intros Hs Hf. unfold free_memory. set (l := zip_with pool_segs (allocators st) fls).
  assert (Hl : l !! i = Some (pool_segs s fl)) by (unfold l; rewrite lookup_zip_with, Hs; cbn; by rewrite Hf).
  pose proof (lookup_lt_Some _ _ _ Hl) as Hi. exists (concat (take i l) ++ concat (drop (S i) l)).
  assert (Hins : forall v, concat (<[i := v]> l) ≡ₚ v ++ concat (take i l) ++ concat (drop (S i) l)).
  { intros v. rewrite insert_take_drop by done. rewrite concat_app. cbn. by rewrite Permutation_app_swap_app. }
  split_and!.
  - rewrite <- Hins. by rewrite list_insert_id.
  - intros s' fl' m. cbn [allocators]. rewrite <- Hins. unfold l. by rewrite insert_zip_with.
  - intros j s' fl' x Hj Hs' Hf' Hx. assert (Hlj : l !! j = Some (pool_segs s' fl')) by (unfold l; rewrite lookup_zip_with, Hs'; cbn; by rewrite Hf').
    rewrite <- concat_app. destruct Hx as (g & Hg & Hx). exists g. split; [|done]. apply list_elem_of_In, List.in_concat.
    exists (pool_segs s' fl'). split; [|by apply list_elem_of_In]. apply list_elem_of_In, elem_of_app.
    destruct (decide (j < i)%nat).
    + left. apply list_elem_of_lookup. exists j. by rewrite lookup_take_lt.
    + right. apply list_elem_of_lookup. exists (j - S i)%nat. rewrite lookup_drop. by replace (S i + (j - S i))%nat with j by lia.
Qed.

(** ** The invariant *)

Record buffer_ok (m : memory) (buf : Z) (bs : list Z) : Prop := mkBufferOk {
  bf_len : 1 <= zlen bs;
  bf_max : 8 + zlen bs < 2 ^ 32;
  bf_header : load32 m (buf - 8) = 8 + zlen bs;
  bf_bytes : mread m buf (length bs) = bs;
  bf_block : _MAX_BYTES < 8 + zlen bs -> (buf - 8, 8 + zlen bs) ∈ blocks m
}.

(** [x] are the pieces in transit. *)
Record inv (st : pools) (H : heap) (fls : list (list (list Z))) (x : list seg) : Prop := mkInv {
  iv_len : length (allocators st) = 20%nat;
  iv_lens : length fls = 20%nat;
  iv_pool : forall i s fl, allocators st !! i = Some s -> fls !! i = Some fl -> lists_ok (mem st) s fl /\ wild_ok s;
  iv_backed : backed (x ++ live H ++ free_memory st fls) (mem st);
  iv_buf : forall buf bs, H !! buf = Some bs -> buffer_ok (mem st) buf bs
}.

Lemma load32_frame m m' a : (forall x, inside x (a, 4) -> rd m' x = rd m x) -> load32 m' a = load32 m a.
Proof. intros H. unfold load32. f_equal. apply mread_ext. intros x Hx. by apply H. Qed.

Lemma buffer_frame m m' buf bs : buffer_ok m buf bs -> (forall x, inside x (block buf bs) -> rd m' x = rd m x) ->
  (_MAX_BYTES < 8 + zlen bs -> (buf - 8, 8 + zlen bs) ∈ blocks m') -> buffer_ok m' buf bs.
Proof.
  intros [H1 H2 H3 H4 H5] Hf Hb. pose proof (cap_ge (8 + zlen bs)) as Hc. unfold block, inside in Hf. cbn in Hf. split; try done.
  - rewrite <- H3. apply load32_frame. unfold inside. cbn. intros x Hx. apply Hf. lia.
  - rewrite <- H4 at 2. apply mread_ext. intros x Hx. apply Hf. unfold zlen in *. lia.
Qed.

Lemma live_covers H buf bs x : H !! buf = Some bs -> inside x (block buf bs) -> covers (live H) x.
Proof.
  intros Hb Hx. exists (block buf bs). split; [|done]. apply list_elem_of_fmap. exists (buf, bs). split; [done|]. by apply elem_of_map_to_list.
Qed.
Lemma live_insert H buf bs : H !! buf = None -> live (<[buf := bs]> H) ≡ₚ block buf bs :: live H.
Proof. intros Hn. unfold live. by rewrite map_to_list_insert. Qed.
Lemma live_delete H buf bs : H !! buf = Some bs -> live H ≡ₚ block buf bs :: live (delete buf H).
Proof. intros Hb. rewrite <- live_insert by apply lookup_delete_eq. by rewrite insert_delete_id. Qed.

Lemma shuffle (l0 p x h r : list seg) : l0 ++ x ++ h ++ p ++ r ≡ₚ (l0 ++ p) ++ x ++ h ++ r.
Proof. rewrite <- (assoc_L (++) l0). f_equiv. by rewrite (Permutation_app_swap_app h p), (Permutation_app_swap_app x p). Qed.

(** An instance has used the memory [l0] and its own. *)
Lemma inv_op st H fls y x i s fl l0 res s' m' fl' : inv st H fls y ->
  allocators st !! i = Some s -> fls !! i = Some fl ->
  backed (l0 ++ x ++ live H ++ free_memory st fls) m' -> op_ok (l0 ++ pool_segs s fl) res (mem st) s' m' fl' ->
  (forall buf bs, H !! buf = Some bs -> _MAX_BYTES < 8 + zlen bs -> (buf - 8, 8 + zlen bs) ∈ blocks m') ->
  inv (mkPools (<[i := s']> (allocators st)) m') H (<[i := fl']> fls) (res ++ x) /\
  (forall z, covers (x ++ live H) z -> rd m' z = rd (mem st) z).
Proof.
  intros Hinv Hs Hfl Hb [Hl Hw Hsp Hfr] Hbig.
  destruct Hinv as [Hlen Hlens Hpool _ Hbuf].
  destruct (lookup_zip st fls i s fl Hs Hfl) as (rest & Hrest & Hins & Hother).
  assert (Hb' : backed ((l0 ++ pool_segs s fl) ++ x ++ live H ++ rest) m').
  { apply (backed_splits (l0 ++ x ++ live H ++ free_memory st fls) _ m' m' Hb); [|done]. apply splits_perm. rewrite Hrest. apply shuffle. }
  pose proof (ba_wf _ _ Hb') as Hwf.
  assert (Hout : forall z, covers (x ++ live H ++ rest) z -> rd m' z = rd (mem st) z).
  { intros z Hz. apply Hfr. intros Hc. by apply (wf_app_covers _ _ z Hwf Hc). }
  split; [|intros z Hz; apply Hout; rewrite !covers_app in *; naive_solver].
  split; cbn [allocators mem]; rewrite ?length_insert; try done.
  - intros j s1 fl1. destruct (decide (j = i)) as [->|Hne].
    + pose proof (lookup_lt_Some _ _ _ Hs). pose proof (lookup_lt_Some _ _ _ Hfl). rewrite !list_lookup_insert_eq by done. by intros [= <-] [= <-].
    + rewrite !list_lookup_insert_ne by done. intros Hs1 Hfl1. destruct (Hpool j s1 fl1 Hs1 Hfl1) as [Hl1 Hw1]. split; [|done].
      apply (lists_frame (mem st)); [|done]. intros z Hz. apply Hout. rewrite !covers_app. right; right.
      apply (Hother j s1 fl1 z Hne Hs1 Hfl1). apply covers_cons. by right.
  - apply (backed_splits _ _ m' m' Hb'); [|done]. etrans; [by apply splits_app|]. apply splits_perm. rewrite (Hins s' fl' m').
    rewrite <- (assoc_L (++) res x). symmetry. apply shuffle.
  - intros buf bs Hbs. apply (buffer_frame (mem st)); [by apply Hbuf| |by apply Hbig].
    intros z Hz. apply Hout. rewrite !covers_app. right; left. by apply (live_covers H buf bs).
Qed.

Lemma inv_lookup st H fls x i : inv st H fls x -> (i < 20)%nat -> exists s fl, allocators st !! i = Some s /\ fls !! i = Some fl.
Proof.
  intros [H1 H2 _ _ _] Hi. destruct (lookup_lt_is_Some_2 (allocators st) i) as [s Hs]; [lia|].
  destruct (lookup_lt_is_Some_2 fls i) as [fl Hfl]; [lia|]. by exists s, fl.
Qed.

(** An allocation hands out a piece. *)
Lemma inv_alloc a n st H fls x i s : inv st H fls x -> allocators st !! i = Some s -> 0 < n ->
  fresh (chunk a) _CHUNK_SIZE (blocks (mem st)) -> fresh (half a) (_CHUNK_SIZE / 2) (blocks (mem st)) -> fresh (large a) n (blocks (mem st)) ->
  exists c s' m' fls', allocate a n s (mem st) = Some (c, s', m') /\
    inv (mkPools (<[i := s']> (allocators st)) m') H fls' (piece c (cap n) ++ x) /\
    (forall z, covers (x ++ live H) z -> rd m' z = rd (mem st) z) /\
    (forall b, b ∈ blocks (mem st) -> b ∈ blocks m') /\
    (c <> 0 -> _MAX_BYTES < n -> (c, n) ∈ blocks m') /\
    (c = 0 -> if n >? _MAX_BYTES then large a = 0 else chunk a = 0 /\ half a = 0).
Proof.
  intros Hinv Hs Hn Hc Hh Hlg. destruct (inv_lookup st H fls x i Hinv) as (s1 & fl & Hs1 & Hfl).
  { rewrite <- (iv_len _ _ _ _ Hinv). by eapply lookup_lt_Some. }
  rewrite Hs in Hs1. injection Hs1 as <-. pose proof (iv_backed _ _ _ _ Hinv) as Hb.
  destruct (lookup_zip st fls i s fl Hs Hfl) as (rest & Hrest & _).
  assert (Hperm : x ++ live H ++ free_memory st fls ≡ₚ pool_segs s fl ++ x ++ live H ++ rest).
  { rewrite Hrest. apply (shuffle []). }
  assert (Hfresh : forall p k, fresh p k (blocks (mem st)) -> fresh p k (pool_segs s fl)).
  { intros p k Hp. apply (fresh_sub _ _ _ (x ++ live H ++ rest)). apply (fresh_perm _ _ _ _ Hperm). by apply (fresh_backed _ (mem st)). }
  destruct (iv_pool _ _ _ _ Hinv i s fl Hs Hfl) as [Hl Hw].
  assert (Hpool : pool_ok (mem st) s fl).
  { split; [done|done|]. apply (wf_app_l _ (x ++ live H ++ rest)). rewrite <- Hperm. apply Hb. }
  destruct (allocate_ok a n s (mem st) fl Hn Hpool) as (c & got & s' & m' & fl' & E & Hop & Hblk & Hres); [split; by apply Hfresh|].
  assert (Hgot : wf (got ++ x ++ live H ++ free_memory st fls) /\ wf (got ++ blocks (mem st)) /\ Forall (fun s => 0 < s.2) got).
  { assert (Hone : forall p k, p <> 0 -> 0 < k -> fresh p k (blocks (mem st)) ->
      wf ([(p, k)] ++ x ++ live H ++ free_memory st fls) /\ wf ([(p, k)] ++ blocks (mem st)) /\ Forall (fun s => 0 < s.2) [(p, k)]).
    { intros p k Hp Hk Hf. destruct (fresh_backed _ _ _ _ Hb Hf) as [?|?]; [done|]. destruct Hf as [?|?]; [done|]. split_and!; try done. by repeat constructor. }
    assert (Hnone : wf ([] ++ x ++ live H ++ free_memory st fls) /\ wf ([] ++ blocks (mem st)) /\ Forall (fun s : seg => 0 < s.2) []).
    { split_and!; [apply Hb|apply Hb|done]. }
    destruct (n >? _MAX_BYTES).
    - destruct Hres as (-> & -> & _). unfold piece. destruct (Z.eqb_spec (large a) 0); [done|by apply Hone].
    - destruct Hres as ([->|[(? & ->)|(? & ->)]] & _); [done|by apply Hone..]. }
  destruct Hgot as (Hg1 & Hg2 & Hg3). pose proof (backed_got _ _ m' got Hb Hg1 Hg2 Hg3 Hblk) as Hb'.
  destruct (inv_op st H fls x x i s fl got (piece c (cap n)) s' m' fl') as [Hinv' Hf]; try done.
  { intros buf bs Hbs Hbig. rewrite Hblk. apply elem_of_app. right. by apply (iv_buf _ _ _ _ Hinv). }
  exists c, s', m'. eexists. split; [exact E|]. split; [exact Hinv'|]. split; [exact Hf|]. split_and!.
  - intros b Hin. rewrite Hblk. apply elem_of_app. by right.
  - intros Hne Hbig. rewrite Hblk. destruct (Z.gtb_spec n _MAX_BYTES); [|lia]. destruct Hres as (-> & -> & _).
    unfold piece. rewrite (proj2 (Z.eqb_neq _ _)) by done. apply elem_of_app. left. by apply list_elem_of_singleton.
  - intros ->. destruct (n >? _MAX_BYTES); [by destruct Hres as (<- & _)|]. by apply Hres.
Qed.

(** A piece goes back. *)
Lemma inv_free n st H fls x i s p : inv st H fls ((p, cap n) :: x) -> allocators st !! i = Some s -> p <> 0 -> 0 < n ->
  (_MAX_BYTES < n -> (p, n) ∈ blocks (mem st)) ->
  exists s' m' fls', deallocate p n s (mem st) = (s', m') /\
    inv (mkPools (<[i := s']> (allocators st)) m') H fls' x /\
    (forall z, covers (x ++ live H) z -> rd m' z = rd (mem st) z) /\
    (forall q k, q <> p -> (q, k) ∈ blocks (mem st) -> (q, k) ∈ blocks m').
Proof.
  intros Hinv Hs Hp Hn Hblk. destruct (inv_lookup _ H fls _ i Hinv) as (s1 & fl & Hs1 & Hfl).
  { rewrite <- (iv_len _ _ _ _ Hinv). by eapply lookup_lt_Some. }
  rewrite Hs in Hs1. injection Hs1 as <-. pose proof (iv_backed _ _ _ _ Hinv) as Hb.
  destruct (lookup_zip st fls i s fl Hs Hfl) as (rest & Hrest & _). destruct (iv_pool _ _ _ _ Hinv i s fl Hs Hfl) as [Hl Hw].
  assert (Hwf : wf ((p, cap n) :: pool_segs s fl)).
  { apply (wf_app_l _ (x ++ live H ++ rest)). pose proof (ba_wf _ _ Hb) as Hwf. rewrite Hrest in Hwf.
    revert Hwf. apply wf_perm. symmetry. apply (shuffle [(p, cap n)]). }
  destruct (deallocate_ok p n s (mem st) fl Hp Hn Hl Hw Hwf) as (s' & m' & fl' & E & Hop & _ & Hb').
  assert (Hmem : forall q k, q <> p -> (q, k) ∈ blocks (mem st) -> (q, k) ∈ blocks m').
  { intros q k Hq Hin. rewrite Hb'. destruct (n >? _MAX_BYTES); [|done]. apply list_elem_of_In, List.filter_In. split; [by apply list_elem_of_In|].
    cbn. by rewrite (proj2 (Z.eqb_neq _ _)). }
  assert (Hbig : forall buf bs, H !! buf = Some bs -> _MAX_BYTES < 8 + zlen bs -> (buf - 8, 8 + zlen bs) ∈ blocks m').
  { intros buf bs Hbs Hbig. apply Hmem; [|by apply (iv_buf _ _ _ _ Hinv)].
    intros Ep. pose proof (ba_wf _ _ Hb) as (Hd & _)%wf_cons. rewrite Forall_forall in Hd.
    specialize (Hd (block buf bs)). unfold disj, block in Hd. cbn in Hd. pose proof (cap_ge n). pose proof (cap_ge (8 + zlen bs)). pose proof (zlen_nonneg bs).
    enough (buf - 8 + cap (8 + zlen bs) <= p \/ p + cap n <= buf - 8 \/ cap n <= 0 \/ cap (8 + zlen bs) <= 0) by lia.
    rewrite !elem_of_app in Hd. specialize (Hd ltac:(right; left; apply list_elem_of_fmap; exists (buf, bs); split; [done|by apply elem_of_map_to_list])). lia. }
  destruct (n >? _MAX_BYTES) eqn:Egt.
  - apply Z.gtb_lt in Egt. rewrite (cap_large n) in Hb by lia.
    pose proof (backed_free _ _ _ _ m' Hb (Hblk ltac:(lia)) Hb') as Hb2.
    destruct (inv_op st H fls _ x i s fl [] [] s' m' fl' Hinv) as [Hinv' Hf]; try done. by exists s', m', (<[i := fl']> fls).
  - pose proof (backed_splits _ _ _ m' Hb (reflexivity _) Hb') as Hb2.
    destruct (inv_op st H fls _ x i s fl [(p, cap n)] [] s' m' fl' Hinv) as [Hinv' Hf]; try done. by exists s', m', (<[i := fl']> fls).
Qed.

(** A buffer becomes a piece, and a piece a buffer. *)
Lemma inv_take st H fls x buf bs : inv st H fls x -> H !! buf = Some bs ->
  inv st (delete buf H) fls (block buf bs :: x) /\ buffer_ok (mem st) buf bs.
Proof.
  intros [H1 H2 H3 H4 H5] Hbs. split; [|by apply H5]. split; try done.
  - apply (backed_splits _ _ _ _ H4); [|done]. apply splits_perm. rewrite (live_delete H buf bs Hbs). cbn. by rewrite <- Permutation_middle.
  - intros buf' bs' Hb. apply H5. by apply lookup_delete_Some in Hb as [_ Hb].
Qed.
Lemma bufferBlock_pos buf bs : 0 < (block buf bs).2.
Proof. cbn. pose proof (cap_ge (8 + zlen bs)). pose proof (zlen_nonneg bs). lia. Qed.
Lemma inv_put st H fls x buf bs : inv st H fls (block buf bs :: x) -> buffer_ok (mem st) buf bs ->
  inv st (<[buf := bs]> H) fls x /\ H !! buf = None.
Proof.
  intros [H1 H2 H3 H4 H5] Hbuf. assert (Hn : H !! buf = None).
  { destruct (H !! buf) as [bs'|] eqn:E; [|done]. exfalso. apply (wf_not_covers _ _ (buf - 8) (ba_wf _ _ H4)).
    - pose proof (bufferBlock_pos buf bs). unfold inside, block in *. cbn in *. lia.
    - rewrite !covers_app. right; left. apply (live_covers H buf bs' _ E). pose proof (bufferBlock_pos buf bs'). unfold inside, block in *. cbn in *. lia. }
  split; [|done]. split; try done.
  - apply (backed_splits _ _ _ _ H4); [|done]. apply splits_perm. rewrite (live_insert H buf bs Hn). cbn. by rewrite <- Permutation_middle.
  - intros buf' bs'. rewrite lookup_insert_Some. intros [[<- <-]|[_ ?]]; [done|by apply H5].
Qed.

(** Writes to pieces, and what is not written to. *)
Lemma inv_mem st H fls y x m' : inv st H fls y -> backed (x ++ live H ++ free_memory st fls) m' ->
  (forall z, covers (live H ++ free_memory st fls) z -> rd m' z = rd (mem st) z) ->
  (forall buf bs, H !! buf = Some bs -> _MAX_BYTES < 8 + zlen bs -> (buf - 8, 8 + zlen bs) ∈ blocks m') ->
  inv (setMem m' st) H fls x.
Proof.
  intros [H1 H2 H3 _ H5] Hb Hf Hbig. split; try done.
  - intros i s fl Hs Hfl. destruct (H3 i s fl Hs Hfl) as [Hl Hw]. split; [|done]. apply (lists_frame (mem st)); [|done].
    intros z Hz. apply Hf. apply covers_app. right. destruct (lookup_zip st fls i s fl Hs Hfl) as (rest & -> & _).
    apply covers_app. left. apply covers_cons. by right.
  - intros buf bs Hbs. apply (buffer_frame (mem st)); [by apply H5| |by apply Hbig]. intros z Hz. apply Hf. apply covers_app. left.
    by apply (live_covers H buf bs).
Qed.
Lemma inv_write st H fls x a bs : inv st H fls x -> (forall z, inside z (a, zlen bs) -> covers x z) ->
  inv (setMem (mwrite (mem st) a bs) st) H fls x.
Proof.
  intros Hinv Hin. pose proof (iv_backed _ _ _ _ Hinv) as Hb. apply (inv_mem st H fls x); [done| | |].
  - by apply (backed_splits _ _ _ _ Hb).
  - intros z Hz. apply rd_outside. intros Hz'. apply (wf_app_covers _ _ z (ba_wf _ _ Hb) (Hin z Hz') Hz).
  - intros buf bs' Hbs. apply (iv_buf _ _ _ _ Hinv buf bs' Hbs).
Qed.

(** [realloc] of a large object. *)
Lemma blockSize_ok p n l : wf l -> Forall (fun s => 0 < s.2) l -> (p, n) ∈ l -> blockSize p l = n.
Proof.
  induction l as [|s l IH]; [by intros _ _ ?%not_elem_of_nil|]. rewrite wf_cons, Forall_cons, elem_of_cons.
  intros (Hd & _ & Hw) (Hpos & Hposs) Hin. unfold blockSize in *. cbn [List.find]. destruct (Z.eqb_spec s.1 p) as [E|Hne].
  - destruct Hin as [<-|Hin]; [done|]. exfalso. rewrite Forall_forall in Hd, Hposs. specialize (Hd _ Hin). specialize (Hposs _ Hin). unfold disj in Hd. cbn in *. lia.
  - destruct Hin as [<-|Hin]; [by cbn in Hne|]. by apply IH.
Qed.

Lemma inv_realloc st H fls x p old q n : inv st H fls ((p, old) :: x) -> _MAX_BYTES < old -> _MAX_BYTES < n ->
  (p, old) ∈ blocks (mem st) -> q <> 0 -> fresh q n (removeBlock p (blocks (mem st))) ->
  let m' := realloc q p n (mem st) in
  inv (setMem m' st) H fls ((q, n) :: x) /\ (q, n) ∈ blocks m' /\
  (forall k : nat, Z.of_nat k <= Z.min old n -> mread m' q k = mread (mem st) p k) /\
  (forall z, covers (x ++ live H) z -> rd m' z = rd (mem st) z).
Proof.
  intros Hinv Hold Hn Hin Hq [?|Hwf]; [done|]. cbv zeta. unfold _MAX_BYTES in *. pose proof (iv_backed _ _ _ _ Hinv) as Hb.
  pose proof (ba_blocks _ _ Hb) as Hwb. pose proof (ba_pos _ _ Hb) as Hpos.
  unfold realloc. rewrite (proj2 (Z.eqb_neq q 0)) by done. rewrite (blockSize_ok p old _ Hwb Hpos Hin).
  set (k := Z.min old n). set (m1 := free p (memcpy q p k (mem st))). set (m2 := malloc q n m1).
  assert (Hblk : blocks m2 = (q, n) :: removeBlock p (blocks (mem st))) by (unfold m2, malloc; by rewrite (proj2 (Z.eqb_neq q 0))).
  assert (Hb1 : backed (x ++ live H ++ free_memory st fls) m1) by (by apply (backed_free p old _ (mem st))).
  assert (Hb2 : backed ([(q, n)] ++ x ++ live H ++ free_memory st fls) m2).
  { apply (backed_got _ m1); try done.
    - destruct (fresh_backed _ _ q n Hb1) as [?|?]; [by right|done|done].
    - repeat constructor. cbn. lia. }
  assert (Hlen : zlen (mread (mem st) p (Z.to_nat k)) = k) by (unfold zlen; rewrite length_mread; lia).
  assert (Hrd : forall z, rd m2 z = rd (mwrite (mem st) q (mread (mem st) p (Z.to_nat k))) z) by (intros z; unfold m2; by rewrite rd_malloc).
  assert (Hout : forall z, covers (x ++ live H ++ free_memory st fls) z -> rd m2 z = rd (mem st) z).
  { intros z Hz. rewrite Hrd. apply rd_outside. rewrite Hlen. intros Hz'. apply (wf_not_covers _ _ z (ba_wf _ _ Hb2)); [|exact Hz].
    unfold inside in *. cbn in *. lia. }
  split; [|split; [|split]].
  - apply (inv_mem st H fls ((p, old) :: x)); [done|exact Hb2| |].
    + intros z Hz. apply Hout. apply covers_app. by right.
    + intros buf bs Hbs Hbig. rewrite Hblk. apply list_elem_of_further. pose proof (bf_block _ _ _ (iv_buf _ _ _ _ Hinv buf bs Hbs) Hbig) as Hblk'.
      apply list_elem_of_In, List.filter_In. split; [by apply list_elem_of_In|]. cbn. destruct (Z.eqb_spec (buf - 8) p) as [Ep|]; [|done]. exfalso.
      apply (wf_not_covers _ _ p (ba_wf _ _ Hb)); [unfold inside; cbn; lia|]. rewrite !covers_app. right; left.
      apply (live_covers H buf bs _ Hbs). pose proof (bufferBlock_pos buf bs). unfold inside, block in *. cbn in *. lia.
  - rewrite Hblk. apply list_elem_of_here.
  - intros j Hj. rewrite (mread_ext _ _ _ _ (fun z _ => Hrd z)).
    replace (mread (mem st) p j) with (take j (mread (mem st) p (Z.to_nat k))) by (apply take_mread; lia).
    rewrite <- (take_mread _ q (Z.to_nat k) j) by lia. f_equal.
    pose proof (mread_mwrite (mem st) q (mread (mem st) p (Z.to_nat k))) as Hw. by rewrite length_mread in Hw.
  - intros z Hz. apply Hout. rewrite !covers_app in *. naive_solver.
Qed.

(** ** The calls *)

Definition sim (st : pools) (H : heap) : Prop := exists fls, inv st H fls [].

Lemma inv_perm st H fls x x' : x ≡ₚ x' -> inv st H fls x -> inv st H fls x'.
Proof. intros Hp [H1 H2 H3 H4 H5]. split; try done. apply (backed_splits _ _ _ _ H4); [|done]. apply splits_perm. by rewrite Hp. Qed.

Lemma number_lt poolIndex n : index_ok poolIndex -> (number poolIndex n < 20)%nat.
Proof. unfold index_ok, number. destruct (n <=? SMALL_OBJ_SIZE); lia. Qed.

Lemma piece_good st H fls p n x : inv st H fls ((p, n) :: x) -> 0 < n -> 0 < p /\ p + n <= 2 ^ 64.
Proof. intros [_ _ _ [(_ & [_ Hg] & _)%wf_cons _ _ _ _] _]. cbn in Hg. lia. Qed.

(** A header is written, and the piece becomes a buffer. *)
Lemma put_piece st H fls p n x bs : inv st H fls ((p, cap n) :: x) -> n = 8 + zlen bs -> 1 <= zlen bs -> n < 2 ^ 32 ->
  mread (mem st) (p + 8) (length bs) = bs -> (_MAX_BYTES < n -> (p, n) ∈ blocks (mem st)) ->
  inv (setMem (store32 p (u32 n) (mem st)) st) (<[p + 8 := bs]> H) fls x /\ H !! (p + 8) = None.
Proof.
  intros Hinv En Hlen Hmax Hbs Hblk. pose proof (cap_ge n) as Hcap.
  assert (Hb : block (p + 8) bs = (p, cap n)) by (unfold block; rewrite En; f_equal; lia).
  assert (Hinv' : inv (setMem (store32 p (u32 n) (mem st)) st) H fls ((p, cap n) :: x)).
  { apply inv_write; [done|]. rewrite zlen_le_bytes. intros z Hz. apply covers_cons. left. unfold inside in *. cbn in *. lia. }
  rewrite <- Hb in Hinv'. apply inv_put in Hinv'; [done|]. cbn [mem setMem]. split; try done; [lia| | |].
  - replace (p + 8 - 8) with p by lia. rewrite load32_store32; unfold wrap; rewrite ?Z.mod_small; lia.
  - etrans; [|exact Hbs]. apply mread_ext. intros z Hz. apply rd_outside. rewrite zlen_le_bytes. unfold inside. cbn. lia.
  - replace (p + 8 - 8) with p by lia. rewrite <- En. exact Hblk.
Qed.

Lemma ProAllocate_ok a size poolIndex st H : sim st H -> request size -> index_ok poolIndex ->
  fresh (chunk a) _CHUNK_SIZE (blocks (mem st)) -> fresh (half a) (_CHUNK_SIZE / 2) (blocks (mem st)) ->
  fresh (large a) (8 + Z.max 1 size) (blocks (mem st)) ->
  exists r st', ProAllocateSgiPoolBuffer a size poolIndex st = Some (r, st') /\
    ((r = 0 /\ sim st' H /\ ~ library_gives a) \/
     (r <> 0 /\ H !! r = None /\ exists g, zlen g = Z.max 1 size /\ mread (mem st') r (length g) = g /\ sim st' (<[r := g]> H))).
Proof.
  intros (fls & Hinv) [Hs0 Hs1] Hix Hc Hh Hlg. unfold ProAllocateSgiPoolBuffer. rewrite Z.gtb_ltb, (proj2 (Z.ltb_ge _ _)) by apply Hix.
  set (n := 8 + Z.max 1 size) in *. assert (En : (if size =? 0 then 4 + 4 + 1 else u64 (4 + 4 + size)) = n).
  { unfold n. destruct (Z.eqb_spec size 0) as [->|]; [done|]. unfold wrap. rewrite Z.mod_small; lia. }
  rewrite En. destruct (inv_lookup st H fls [] _ Hinv (number_lt poolIndex n Hix)) as (s & _ & Hs & _). rewrite Hs. cbn [mbind option_bind].
  destruct (inv_alloc a n st H fls [] _ s Hinv Hs ltac:(lia) Hc Hh Hlg) as (c & s' & m' & fls' & E & Hinv' & _ & _ & Hblk & Hfail).
  rewrite E. cbn [mbind option_bind]. unfold piece in Hinv'. destruct (Z.eqb_spec c 0) as [->|Hne].
  - do 2 eexists. split; [reflexivity|]. left. split; [done|]. split; [by exists fls'|]. specialize (Hfail eq_refl). unfold library_gives.
    destruct (n >? _MAX_BYTES); [tauto|]. destruct Hfail. tauto.
  - cbn [mem app] in *. set (st1 := mkPools _ m') in *. set (g := mread m' (c + 8) (Z.to_nat (Z.max 1 size))).
    assert (Hg : zlen g = Z.max 1 size) by (unfold g, zlen; rewrite length_mread; lia).
    pose proof (piece_good _ _ _ _ _ _ Hinv' ltac:(pose proof (cap_ge n); lia)) as Hpos.
    destruct (put_piece st1 H fls' c n [] g Hinv') as [Hfin Hnone]; try lia; [unfold g; by rewrite length_mread|by apply Hblk|].
    do 2 eexists. split; [reflexivity|]. right. split; [lia|]. split; [done|]. exists g. split; [done|]. split; [|by exists fls'].
    cbn [mem setMem]. apply (iv_buf _ _ _ _ Hfin (c + 8)). apply lookup_insert_eq.
Qed.

Lemma ProDeallocate_ok buf poolIndex bs st H : sim st H -> index_ok poolIndex -> H !! buf = Some bs ->
  exists st', ProDeallocateSgiPoolBuffer buf poolIndex st = Some st' /\ sim st' (delete buf H).
Proof.
  intros (fls & Hinv) Hix Hbs. destruct (inv_take st H fls [] buf bs Hinv Hbs) as [Htake [Hl Hm Hh Hb Hblk]].
  pose proof (piece_good _ _ _ _ _ _ Htake (bufferBlock_pos buf bs)) as Hpos. unfold ProDeallocateSgiPoolBuffer.
  rewrite (proj2 (Z.eqb_neq buf 0)) by lia. rewrite Z.gtb_ltb, (proj2 (Z.ltb_ge _ _)) by apply Hix. cbn [orb]. rewrite Hh.
  rewrite (proj2 (Z.ltb_ge _ _)) by lia. set (n := 8 + zlen bs) in *.
  destruct (inv_lookup st _ fls _ _ Htake (number_lt poolIndex n Hix)) as (s & _ & Hs & _). rewrite Hs. cbn [mbind option_bind].
  destruct (inv_free n st _ fls [] _ s _ Htake Hs ltac:(lia) ltac:(lia) Hblk) as (s' & m' & fls' & E & Hinv' & _). rewrite E.
  eexists. split; [reflexivity|]. by exists fls'.
Qed.

(** The bytes that a buffer keeps. *)
Lemma carried m m' p q bs size n' : mread m (p + 8) (length bs) = bs -> 0 < size -> n' = 8 + size ->
  (forall k : nat, Z.of_nat k <= Z.min (8 + zlen bs) n' -> mread m' q k = mread m p k) ->
  exists g, mread m' (q + 8) (Z.to_nat size) = ztake size bs ++ g /\ zlen g = Z.max 0 (size - zlen bs).
Proof.
  intros Hbs Hsize -> Hk. set (j := Z.to_nat (Z.min (zlen bs) size)). pose proof (zlen_nonneg bs).
  assert (Hj : mread m' (q + 8) j = ztake size bs).
  { specialize (Hk (8 + j)%nat ltac:(lia)). rewrite !mread_app in Hk. apply app_inj_1 in Hk as [_ Hk]; [|by rewrite !length_mread].
    change (Z.of_nat 8) with 8 in Hk. rewrite Hk. rewrite <- (take_mread m (p + 8) (length bs) j) by (unfold zlen in *; lia).
    rewrite Hbs. unfold ztake, j. destruct (Z.le_ge_cases (zlen bs) size).
    - rewrite Z.min_l by done. rewrite !take_ge; [done|unfold zlen in *; lia..].
    - by rewrite Z.min_r. }
  exists (mread m' (q + 8 + Z.of_nat j) (Z.to_nat size - j)). split.
  - rewrite <- Hj, <- mread_app. f_equal. lia.
  - unfold zlen at 1. rewrite length_mread. lia.
Qed.

(** What [reallocate] leaves, before the header is written: the new piece [q] with the bytes
    of the old one, or the old piece as it was. *)
Lemma reallocate_ok a st H fls i s p old new : inv st H fls [(p, cap old)] -> allocators st !! i = Some s ->
  9 <= old -> 9 <= new -> ~ crosses old new -> (_MAX_BYTES < old -> (p, old) ∈ blocks (mem st)) ->
  fresh (chunk a) _CHUNK_SIZE (blocks (mem st)) -> fresh (half a) (_CHUNK_SIZE / 2) (blocks (mem st)) ->
  fresh (large a) new (blocks (mem st)) -> fresh (resized a) new (removeBlock p (blocks (mem st))) ->
  exists q s' m' fls', reallocate a p old new s (mem st) = Some (q, s', m') /\
    let st' := mkPools (<[i := s']> (allocators st)) m' in
    if q =? 0 then inv st' H fls' [(p, cap old)] /\ (forall z, inside z (p, cap old) -> rd m' z = rd (mem st) z) /\
      (forall b, b ∈ blocks (mem st) -> b ∈ blocks m') /\ ~ library_gives a
    else inv st' H fls' [(q, cap new)] /\ (_MAX_BYTES < new -> (q, new) ∈ blocks m') /\
      (forall k : nat, Z.of_nat k <= Z.min old new -> mread m' q k = mread (mem st) p k).
Proof.
  intros Hinv Hs Hold Hnew Hcross Hblk Hc Hh Hlg Hrz. destruct (piece_good _ _ _ _ _ _ Hinv ltac:(pose proof (cap_ge old); lia)) as [Hp _].
  assert (Hid : mkPools (<[i := s]> (allocators st)) (mem st) = st) by (rewrite list_insert_id by done; by destruct st).
  unfold reallocate. rewrite (proj2 (Z.eqb_neq p 0)), (proj2 (Z.eqb_neq old 0)), (proj2 (Z.eqb_neq new 0)) by lia. cbn [orb].
  destruct ((old >? _MAX_BYTES) && (new >? _MAX_BYTES)) eqn:Ebig.
  - apply andb_true_iff in Ebig as [E1 E2]. apply Z.gtb_lt in E1, E2. rewrite (cap_large old) in Hinv |- * by lia. rewrite (cap_large new) by lia.
    exists (resized a), s, (realloc (resized a) p new (mem st)), fls. split; [done|]. cbv zeta. destruct (Z.eqb_spec (resized a) 0) as [E|Hq].
    + rewrite E. change (realloc 0 p new (mem st)) with (mem st). rewrite Hid. split_and!; try done. unfold library_gives. tauto.
    + destruct (inv_realloc st H fls [] p old (resized a) new Hinv E1 E2 (Hblk E1) Hq Hrz) as (Hinv' & Hblk' & Hk & _).
      split; [|by split]. unfold setMem in Hinv'. by rewrite list_insert_id by done.
  - destruct (Z.eqb_spec (_S_round_up old) (_S_round_up new)) as [E|Hne].
    + exists p, s, (mem st), fls. split; [done|]. cbv zeta. rewrite Hid. rewrite (proj2 (Z.eqb_neq p 0)) by lia.
      assert (Hsmall : old <= _MAX_BYTES /\ new <= _MAX_BYTES).
      { unfold crosses in Hcross. rewrite !Z.gtb_ltb in *. destruct (Z.ltb_spec _MAX_BYTES old), (Z.ltb_spec _MAX_BYTES new); try done; exfalso; by apply Hcross. }
      destruct Hsmall as [Ho Hn]. rewrite (proj1 (cap_small old Ho)) in Hinv. rewrite (proj1 (cap_small new Hn)), <- E. split_and!; try done. lia.
    + destruct (inv_alloc a new st H fls _ i s Hinv Hs ltac:(lia) Hc Hh Hlg) as (q & s1 & m1 & fls1 & E & Hinv1 & Hf1 & Hsub & Hblk1 & Hfail).
      rewrite E. cbn [mbind option_bind]. unfold piece in Hinv1. destruct (Z.eqb_spec q 0) as [->|Hq].
      * exists 0, s1, m1, fls1. split; [done|]. cbn [Z.eqb]. split; [exact Hinv1|]. split; [|split; [done|]].
        -- intros z Hz. apply Hf1. apply covers_app. left. by apply covers_cons; left.
        -- specialize (Hfail eq_refl). unfold library_gives. destruct (new >? _MAX_BYTES); [tauto|]. destruct Hfail. tauto.
      * set (k := if new >? old then old else new). assert (Ek : k = Z.min old new) by (unfold k; destruct (Z.gtb_spec new old); lia).
        set (st1 := mkPools (<[i := s1]> (allocators st)) m1) in *. cbn [app] in Hinv1. pose proof (cap_ge old). pose proof (cap_ge new).
        set (m2 := memcpy q p k m1).
        assert (Hlen : zlen (mread m1 p (Z.to_nat k)) = k) by (unfold zlen; rewrite length_mread; lia).
        assert (Hinv2 : inv (setMem m2 st1) H fls1 [(q, cap new); (p, cap old)]).
        { apply inv_write; [done|]. cbn [mem st1]. rewrite Hlen. intros z Hz. apply covers_cons. left. unfold inside in *. cbn in *. lia. }
        apply (inv_perm _ _ _ _ [(p, cap old); (q, cap new)]) in Hinv2; [|apply Permutation_swap].
        assert (Hs1 : allocators (setMem m2 st1) !! i = Some s1) by (cbn; apply list_lookup_insert_eq; by eapply lookup_lt_Some).
        destruct (inv_free old _ H fls1 [(q, cap new)] i s1 p Hinv2 Hs1 ltac:(lia) ltac:(lia)) as (s3 & m3 & fls3 & E3 & Hinv3 & Hf3 & Hmem3).
        { intros Hbig. apply (Hsub (p, old)). by apply Hblk. }
        cbn [mem setMem] in E3. fold m2. rewrite E3. exists q, s3, m3, fls3. rewrite (proj2 (Z.eqb_neq q 0)) by done.
        cbn [allocators setMem st1] in Hinv3. rewrite list_insert_insert_eq in Hinv3. split; [done|]. split; [exact Hinv3|]. split.
        -- intros Hbig. apply Hmem3; [|by apply Hblk1]. intros ->. pose proof (ba_wf _ _ (iv_backed _ _ _ _ Hinv2)) as (Hd & _)%wf_cons.
           apply Forall_cons in Hd as [Hd _]. unfold disj in Hd. cbn in Hd. lia.
        -- intros j Hj. etrans.
           { apply (mread_ext m2). intros z Hz. apply Hf3. apply covers_app. left. apply covers_cons. left. unfold inside. cbn. lia. }
           transitivity (take j (mread m1 p (Z.to_nat k))).
           { rewrite <- (take_mread m2 q (Z.to_nat k) j) by lia. f_equal. pose proof (mread_mwrite m1 q (mread m1 p (Z.to_nat k))) as Hw.
             rewrite length_mread in Hw. exact Hw. }
           rewrite take_mread by lia. apply mread_ext. intros z Hz. apply Hf1. apply covers_app. left. apply covers_cons. left. unfold inside. cbn. lia.
Qed.

Lemma ProReallocate_ok a buf newSize poolIndex bs st H : sim st H -> H !! buf = Some bs -> 0 < newSize -> request newSize ->
  index_ok poolIndex -> ~ crosses (8 + zlen bs) (8 + newSize) ->
  fresh (chunk a) _CHUNK_SIZE (blocks (mem st)) -> fresh (half a) (_CHUNK_SIZE / 2) (blocks (mem st)) ->
  fresh (large a) (8 + newSize) (blocks (mem st)) -> fresh (resized a) (8 + newSize) (removeBlock (buf - 8) (blocks (mem st))) ->
  exists r st', ProReallocateSgiPoolBuffer a buf newSize poolIndex st = Some (r, st') /\
    ((r = 0 /\ sim st' H /\ ~ library_gives a) \/
     (r <> 0 /\ (r = buf \/ H !! r = None) /\
      exists g, zlen g = Z.max 0 (newSize - zlen bs) /\ sim st' (<[r := ztake newSize bs ++ g]> (delete buf H)))).
Proof.
  intros (fls & Hinv) Hbs Hpos [_ Hmax] Hix Hcross Hc Hh Hlg Hrz.
  destruct (inv_take st H fls [] buf bs Hinv Hbs) as [Htake Hbuf]. pose proof Hbuf as [Hl Hm Hhd Hb Hblk].
  pose proof (piece_good _ _ _ _ _ _ Htake (bufferBlock_pos buf bs)) as Hgood. cbn [block fst snd] in Hgood. unfold ProReallocateSgiPoolBuffer.
  rewrite Z.gtb_ltb, (proj2 (Z.ltb_ge _ _)) by apply Hix. rewrite (proj2 (Z.eqb_neq buf 0)), (proj2 (Z.eqb_neq newSize 0)) by lia.
  rewrite Hhd, (proj2 (Z.ltb_ge _ _)) by lia. set (old := 8 + zlen bs) in *.
  assert (En : u64 (4 + 4 + newSize) = 8 + newSize) by (unfold wrap; rewrite Z.mod_small; lia). rewrite En. set (new := 8 + newSize) in *.
  destruct (inv_lookup st _ fls _ _ Htake (number_lt poolIndex old Hix)) as (s & _ & Hs & _). rewrite Hs. cbn [mbind option_bind].
  destruct (reallocate_ok a st _ fls _ s (buf - 8) old new Htake Hs ltac:(lia) ltac:(lia) Hcross Hblk Hc Hh Hlg Hrz) as (q & s' & m' & fls' & E & Hres).
  rewrite E. cbn [mbind option_bind]. cbv zeta in Hres. set (st1 := mkPools _ m') in *. destruct (Z.eqb_spec q 0) as [->|Hq].
  - destruct Hres as (Hinv1 & Hf & Hsub & Hno). do 2 eexists. split; [reflexivity|]. left. split; [done|]. split; [|done].
    exists fls'. destruct (inv_put st1 (delete buf H) fls' [] buf bs Hinv1) as [Hfin _].
    { apply (buffer_frame (mem st)); [done|exact Hf|]. intros Hbig. by apply Hsub, Hblk. }
    by rewrite insert_delete_id in Hfin.
  - destruct Hres as (Hinv1 & Hblk1 & Hk). destruct (piece_good _ _ _ _ _ _ Hinv1 ltac:(pose proof (cap_ge new); lia)) as [Hq0 _].
    assert (Hb' : mread (mem st) (buf - 8 + 8) (length bs) = bs) by (by replace (buf - 8 + 8) with buf by lia).
    destruct (carried (mem st) m' (buf - 8) q bs newSize new Hb' Hpos eq_refl Hk) as (g & Hg & Hgl).
    assert (Hlen : zlen (ztake newSize bs ++ g) = newSize) by (rewrite <- Hg; unfold zlen; rewrite length_mread; lia).
    destruct (put_piece st1 _ fls' q new [] (ztake newSize bs ++ g) Hinv1) as [Hfin Hnone]; try lia.
    { rewrite <- Hg. by rewrite length_mread. }
    { exact Hblk1. }
    do 2 eexists. split; [reflexivity|]. right. split; [lia|]. split.
    + rewrite lookup_delete_None in Hnone. destruct Hnone as [?|?]; [by left|by right].
    + exists g. split; [done|]. by exists fls'.
Qed.

(** A client writes into a buffer. *)
Lemma write_ok st H buf off bs old : sim st H -> H !! buf = Some old -> 0 <= off -> off + zlen bs <= zlen old ->
  sim (setMem (mwrite (mem st) (buf + off) bs) st) (<[buf := zput off bs old]> H).
Proof.
  intros (fls & Hinv) Hbs Hoff Hend. exists fls. destruct (inv_take st H fls [] buf old Hinv Hbs) as [Htake [Hl Hm Hh Hb Hblk]].
  pose proof (zlen_nonneg bs). pose proof (cap_ge (8 + zlen old)).
  assert (Hlen : zlen (zput off bs old) = zlen old) by (by apply zlen_zput).
  assert (Hinv' : inv (setMem (mwrite (mem st) (buf + off) bs) st) (delete buf H) fls [block buf old]).
  { apply inv_write; [done|]. intros z Hz. apply covers_cons. left. unfold inside, block in *. cbn in *. lia. }
  assert (Eb : block buf old = block buf (zput off bs old)) by (unfold block; by rewrite Hlen). rewrite Eb in Hinv'.
  apply inv_put in Hinv' as [Hfin _]; [by rewrite insert_delete_eq in Hfin|]. cbn [mem setMem]. split; rewrite ?Hlen; try done.
  - rewrite <- Hh. apply load32_frame. intros z Hz. apply rd_outside. unfold inside in *. cbn in *. lia.
  - apply list_eq. intros i. destruct (decide (i < length (zput off bs old))%nat) as [Hi|Hi].
    + rewrite lookup_mread by done. rewrite lookup_zput by lia. rewrite rd_mwrite. unfold zlen in Hlen.
      destruct (decide (buf + off <= buf + Z.of_nat i < buf + off + zlen bs)) as [Hin|Hout].
      * rewrite decide_True by lia. replace (Z.to_nat (buf + Z.of_nat i - (buf + off))) with (i - Z.to_nat off)%nat by lia.
        destruct (lookup_lt_is_Some_2 bs (i - Z.to_nat off)) as [b ->]; [unfold zlen in *; lia|done].
      * rewrite decide_False by lia. rewrite <- Hb. by rewrite lookup_mread by lia.
    + rewrite !lookup_ge_None_2; [done|lia|rewrite length_mread; lia].
Qed.

Lemma start_sim m : blocks m = [] -> sim (start m) ∅.
Proof.
  intros Hm. exists (replicate 20 (replicate 60 [])). split.
  - done.
  - done.
  - intros i s fl Hs Hfl. apply lookup_replicate in Hs as [-> _]. apply lookup_replicate in Hfl as [-> _]. split; [|by split].
    split; [done|done|]. intros j l Hj. apply lookup_replicate in Hj as [-> Hj]. unfold head, init. cbn [_S_free_list chain].
    by rewrite lookup_replicate_2 by lia.
  - assert (E : free_memory (start m) (replicate 20 (replicate 60 [])) = replicate 20 (0, 0)) by (by vm_compute).
    split; cbn [mem start app]; rewrite ?Hm, ?E.
    + apply (splits_wf []); [|done]. unfold live. rewrite map_to_list_empty. cbn [fmap list_fmap app].
      generalize 20%nat; clear; intros n; induction n as [|n IH]; [done|]. cbn. etrans; [exact IH|]. apply splits_empty.
    + done.
    + done.
    + intros x. unfold live. rewrite map_to_list_empty. cbn [fmap list_fmap app]. generalize 20%nat; clear; intros n; induction n as [|n IH]; [done|]. cbn [replicate].
      rewrite covers_cons. intros [Hx|Hx]; [unfold inside in Hx; cbn in Hx; lia|by apply IH].
    + unfold live. by rewrite map_to_list_empty.
  - intros buf bs Hb. by rewrite lookup_empty in Hb.
Qed.

End SgiRefinement.
