(* ===== verification/SgiTheorems.v ===== *)
(** * What the memory pools promise

    [sgi_pool_refines]: the pools of [SgiPool] implement the heap of [SgiSpec].
    [ProReallocate_outgrows]: the case that the client has to stay away from. *)

From S2P Require Import Prelude Bytes SgiMemory SgiAlloc SgiInvariant SgiPool SgiRefinement.

Module SgiTheorems.
Import SgiAlloc SgiSizes SgiPool SgiSpec SgiRefinement.

Lemma sim_buffer st H buf bs : sim st H -> H !! buf = Some bs ->
  0 < buf /\ buf + zlen bs <= 2 ^ 64 /\ mread (mem st) buf (length bs) = bs.
Proof.
  intros (fls & Hinv) Hbs. destruct (inv_take _ _ _ _ _ _ Hinv Hbs) as [Ht Hb]. destruct (piece_good _ _ _ _ _ _ Ht (bufferBlock_pos buf bs)) as [H1 H2].
  cbn in H1, H2. pose proof (cap_ge (8 + zlen bs)). split_and!; [lia|lia|apply Hb].
Qed.
Lemma sim_disjoint st H buf bs buf' bs' : sim st H -> H !! buf = Some bs -> H !! buf' = Some bs' -> buf <> buf' ->
  disj (buf, zlen bs) (buf', zlen bs').
Proof.
  intros (fls & Hinv) Hbs Hbs' Hne. destruct (inv_take _ _ _ _ _ _ Hinv Hbs) as [Ht _].
  assert (Hbs2 : delete buf H !! buf' = Some bs') by (by rewrite lookup_delete_ne).
  pose proof (ba_wf _ _ (iv_backed _ _ _ _ Ht)) as Hwf. apply disj_points. intros z Hz Hz'.
  apply (wf_not_covers _ _ z Hwf).
  - pose proof (cap_ge (8 + zlen bs)). unfold inside, block in *. cbn in *. lia.
  - cbn. rewrite covers_app. left. apply (live_covers _ buf' bs' z Hbs2). pose proof (cap_ge (8 + zlen bs')). unfold inside, block in *. cbn in *. lia.
Qed.

(** One call or one write. *)
Definition serves (a : answers) (o : op) (r : Z) : Prop :=
  library_gives a -> match o with
                     | Alloc _ _ | Calloc _ _ _ => r <> 0
                     | Realloc buf newSize _ => buf = 0 \/ 0 < newSize -> r <> 0
                     | _ => True
                     end.
Definition step_served (a : answers) (o : op) (st : pools) (H : heap) : Prop :=
  exists r st' H', exec a o st = Some (r, st') /\ promised o H r H' /\ sim st' H' /\ serves a o r.

Lemma alloc_served a size poolIndex st H : sim st H -> allowed H (Alloc size poolIndex) -> library_ok a (Alloc size poolIndex) st ->
  step_served a (Alloc size poolIndex) st H.
Proof.
  intros Hsim [Hs Hix] (Hc & Hh & Hl & _). cbn [requested] in Hl.
  destruct (ProAllocate_ok a size poolIndex st H Hsim Hs Hix Hc Hh Hl) as (r & st' & E & [(-> & Hs' & Hno)|(Hr & Hn & g & Hg & _ & Hs')]).
  - exists 0, st', H. split_and!; [done|by apply promised_nothing|done|]. by intros ?.
  - exists r, st', (<[r := g]> H). split_and!; [done|by apply promised_alloc|done|]. by intros ?.
Qed.

Lemma calloc_served a count size poolIndex st H : sim st H -> allowed H (Calloc count size poolIndex) ->
  library_ok a (Calloc count size poolIndex) st -> step_served a (Calloc count size poolIndex) st H.
Proof.
  intros Hsim (Hc0 & Hs0 & [Hr0 Hr1] & Hix) (Hc & Hh & Hl & _). cbn [requested] in Hl. unfold step_served. cbn [exec]. unfold ProPoolCalloc.
  assert (En : u64 (count * size) = count * size) by (unfold wrap; rewrite Z.mod_small; lia). rewrite En. set (n := count * size) in *.
  destruct (ProAllocate_ok a n poolIndex st H Hsim ltac:(done) Hix Hc Hh Hl) as (r & st' & E & [(-> & Hs' & Hno)|(Hr & Hn & g & Hg & _ & Hs')]);
    rewrite E; cbn [mbind option_bind].
  - exists 0, st', H. split_and!; [done|by apply promised_nothing|done|]. by intros ?.
  - rewrite (proj2 (Z.eqb_neq r 0)) by done. cbn [negb]. set (z := replicate (Z.to_nat n) 0).
    assert (Hz : zlen z = n) by (unfold z, zlen; rewrite length_replicate; lia).
    pose proof (write_ok st' _ r 0 z g Hs' (lookup_insert_eq _ _ _) ltac:(lia) ltac:(lia)) as Hw.
    rewrite insert_insert_eq, Z.add_0_r in Hw. exists r. do 2 eexists. split; [reflexivity|]. split; [|split; [exact Hw|by intros ?]].
    apply promised_calloc; try done; [by rewrite zlen_zput by lia|]. intros Hpos. fold n in Hpos |- *.
    apply Forall_lookup_2. intros i b. rewrite lookup_zput by lia. destruct (decide _) as [Hi|Hi].
    + unfold z. intros [-> _]%lookup_replicate. done.
    + intros Hb%lookup_lt_Some. exfalso. apply Hi. unfold zlen in *. lia.
Qed.

Lemma realloc_served a buf newSize poolIndex st H : sim st H -> allowed H (Realloc buf newSize poolIndex) ->
  library_ok a (Realloc buf newSize poolIndex) st -> step_served a (Realloc buf newSize poolIndex) st H.
Proof.
  intros Hsim (Hreq & Hix & Hbuf) (Hc & Hh & Hl & Hrz). cbn [requested] in Hl, Hrz. destruct (Z.eqb_spec buf 0) as [->|Hne].
  - destruct (alloc_served a newSize poolIndex st H Hsim ltac:(done) ltac:(done)) as (r & st' & H' & E & Hp & Hs & Hsv).
    exists r, st', H'. split_and!; [|by apply promised_realloc_null|done|].
    + cbn [exec]. unfold ProPoolRealloc, ProReallocateSgiPoolBuffer. rewrite Z.gtb_ltb, (proj2 (Z.ltb_ge _ _)) by apply Hix. exact E.
    + intros Hg _. by apply Hsv.
  - destruct Hbuf as [?|(bs & Hbs & Hcross)]; [done|]. destruct (Z.eqb_spec newSize 0) as [->|Hpos].
    + destruct (ProDeallocate_ok buf poolIndex bs st H Hsim Hix Hbs) as (st' & E & Hs). exists 0, st', (delete buf H).
      split_and!; [|by apply promised_realloc_free|done|].
      * cbn [exec]. unfold ProPoolRealloc, ProReallocateSgiPoolBuffer. rewrite Z.gtb_ltb, (proj2 (Z.ltb_ge _ _)) by apply Hix.
        rewrite (proj2 (Z.eqb_neq buf 0)) by done. cbn [Z.eqb]. by rewrite E.
      * intros _ [?|?]; [done|lia].
    + pose proof Hreq as [Hr0 Hr1]. destruct Hcross as [?|Hcross]; [done|]. rewrite Z.max_r in Hl, Hrz by lia.
      destruct (ProReallocate_ok a buf newSize poolIndex bs st H Hsim Hbs ltac:(lia) Hreq Hix Hcross Hc Hh Hl Hrz)
        as (r & st' & E & [(-> & Hs & Hno)|(Hr & Hor & g & Hg & Hs)]).
      * exists 0, st', H. split_and!; [done|by apply promised_nothing|done|]. by intros ?.
      * exists r, st'. eexists. split_and!; [done|by apply (promised_realloc buf newSize poolIndex H bs r g); [done|lia|done..]|done|]. by intros ?.
Qed.


(** C33: a buffer whose size (with its header) is above 124 KB and at most 128 KB cannot grow
    beyond: [ProReallocateSgiPoolBuffer] finds that the old and the new size round up to the
    same, because sizes above 128 KB have no class of their own, and gives the same buffer
    back, without any more memory. *)
Theorem ProReallocate_outgrows a buf newSize poolIndex st :
  let n := load32 (mem st) (buf - 8) in
  length (allocators st) = 20%nat -> index_ok poolIndex -> 8 < buf ->
  126976 < n <= _MAX_BYTES -> _MAX_BYTES < 8 + newSize < 2 ^ 64 ->
  cap n < 8 + newSize /\
  exists st', ProReallocateSgiPoolBuffer a buf newSize poolIndex st = Some (buf, st') /\
    allocators st' = allocators st /\ blocks (mem st') = blocks (mem st).
Proof.
  cbv zeta. intros Hlen Hix Hbuf Hn Hnew. unfold _MAX_BYTES in *. set (n := load32 (mem st) (buf - 8)) in *.
  destruct (round_up_ok n ltac:(unfold _MAX_BYTES; lia)) as [_ Hru]. unfold _MAX_BYTES in Hru.
  assert (Hcap : cap n = _S_round_up n) by (apply cap_small; unfold _MAX_BYTES; lia). split; [lia|].
  unfold ProReallocateSgiPoolBuffer. rewrite Z.gtb_ltb, (proj2 (Z.ltb_ge _ _)) by apply Hix.
  rewrite (proj2 (Z.eqb_neq buf 0)), (proj2 (Z.eqb_neq newSize 0)) by lia. fold n. rewrite (proj2 (Z.ltb_ge n _)) by lia.
  assert (En : u64 (4 + 4 + newSize) = 8 + newSize) by (unfold wrap; rewrite Z.mod_small; lia). rewrite En.
  destruct (lookup_lt_is_Some_2 (allocators st) (number poolIndex n)) as [s Hs].
  { rewrite Hlen. by apply number_lt. }
  rewrite Hs. cbn [mbind option_bind]. unfold reallocate. rewrite !(proj2 (Z.eqb_neq _ 0)) by lia. cbn [orb].
  assert (E1 : (n >? _MAX_BYTES) = false) by (rewrite Z.gtb_ltb; apply Z.ltb_ge; unfold _MAX_BYTES; lia). rewrite E1. cbn [andb].
  assert (E2 : _S_round_up n = _S_round_up (8 + newSize)).
  { unfold _S_round_up. f_equal. assert (Hi : forall k, 126976 < k -> _S_freelist_index k = 59).
    { intros k Hk. destruct (freelist_index_ok k) as (Hr & Hb & _). destruct (Z.le_gt_cases k _MAX_BYTES) as [Hle|Hgt].
      - specialize (Hb Hle). destruct (decide (_S_freelist_index k = 59)) as [|Hne]; [done|].
        pose proof (obj_size_le (_S_freelist_index k) 58 ltac:(lia) ltac:(lia)) as H58. change (obj_size 58) with 126976 in H58. lia.
      - unfold _S_freelist_index, _NFREELISTS, _MAX_BYTES in *. change (obj_size 0) with 8. change (obj_size (60 - 1)) with 131072.
        rewrite (proj2 (Z.leb_gt _ _)) by lia. rewrite Z.geb_leb, (proj2 (Z.leb_le _ _)) by lia. done. }
    by rewrite !Hi by lia. }
  rewrite <- E2, Z.eqb_refl. cbn [mbind option_bind]. rewrite (proj2 (Z.eqb_neq (buf - 8) 0)) by lia.
  replace (buf - 8 + 8) with buf by lia. eexists. split; [reflexivity|]. split; [|done]. cbn. by apply list_insert_id.
Qed.

(** ** Runs *)

Definition noMemory : memory := mkMemory ∅ [].
(** [malloc] gives a chunk at 1048576 and another at 8388608. *)
Definition demoAnswers : answers := mkAnswers 1048576 0 8388608 8388608.

Lemma fresh_first p n : 0 < p -> 0 <= n -> p + n <= 2 ^ 64 -> fresh p n [].
Proof. intros Hp Hn Hmax. right. repeat split; cbn; [by constructor|]. by repeat constructor. Qed.


(** A buffer of 131064 bytes becomes one of 200000, and the next one lies inside it. *)
Definition outgrown : option (Z * Z * Z) :=
  '(buf, st) ← ProMalloc demoAnswers 131064 (start noMemory);
  '(buf', st) ← ProRealloc demoAnswers buf 200000 st;
  '(buf2, st) ← ProMalloc demoAnswers 131064 st;
  Some (buf, buf', buf2).

Lemma ProReallocate_outgrows_witness :
  outgrown = Some (1048584, 1048584, 1179656) /\ 1179656 < 1048584 + 200000 /\
  exists st, ProMalloc demoAnswers 131064 (start noMemory) = Some (1048584, st) /\
  exists st', ProReallocateSgiPoolBuffer demoAnswers 1048584 200000 0 st = Some (1048584, st') /\ allocators st' = allocators st /\ blocks (mem st') = blocks (mem st).
Proof.
  split; [by vm_compute|]. split; [lia|]. eexists. split; [vm_compute; reflexivity|].
  apply ProReallocate_outgrows; [reflexivity|done|lia|vm_compute; split; congruence|vm_compute; split; congruence].
Defined.

End SgiTheorems.
