(* ===== verification/Md.v ===== *)
(** * Iterated hash functions ([md4.c], [md5.c], [sha1.c], [sha256.c], [sha512.c],
      [ripemd160.c] of [src/src/mbedtls/library])

    The six files share their shape: a context with a byte counter of two words, the
    chaining state and one block of buffered input; [update] feeds bytes, [finish]
    pads and writes the digest.  This file has what they share, over the word size,
    the byte order of the words and the compression function, and proves that any
    sequence of [update]s followed by [finish] computes the hash of the whole
    message.  The compression functions are in [MdProcess]. *)

From S2P Require Import Prelude Bytes.

(** The macros [GET_UINT32_LE], [GET_UINT32_BE], [GET_UINT64_BE] ... *)
Definition GET_UINT32_LE (b : list Z) (i : Z) : Z :=
  Z.lor (Z.lor (Z.lor (load 1 i b) (Z.shiftl (load 1 (i + 1) b) 8))
    (Z.shiftl (load 1 (i + 2) b) 16)) (Z.shiftl (load 1 (i + 3) b) 24).

Definition GET_UINT32_BE (b : list Z) (i : Z) : Z :=
  Z.lor (Z.lor (Z.lor (Z.shiftl (load 1 i b) 24) (Z.shiftl (load 1 (i + 1) b) 16))
    (Z.shiftl (load 1 (i + 2) b) 8)) (load 1 (i + 3) b).

Definition GET_UINT64_BE (b : list Z) (i : Z) : Z :=
  Z.lor (Z.lor (Z.lor (Z.lor (Z.lor (Z.lor (Z.lor (Z.shiftl (load 1 i b) 56)
    (Z.shiftl (load 1 (i + 1) b) 48)) (Z.shiftl (load 1 (i + 2) b) 40))
    (Z.shiftl (load 1 (i + 3) b) 32)) (Z.shiftl (load 1 (i + 4) b) 24))
    (Z.shiftl (load 1 (i + 5) b) 16)) (Z.shiftl (load 1 (i + 6) b) 8)) (load 1 (i + 7) b).

(** ... and [PUT_UINT32_LE], [PUT_UINT32_BE], [PUT_UINT64_BE]: the bytes written. *)
Definition PUT_UINT32_LE (n : Z) : list Z :=
  [wrap 8 (Z.land n 255); wrap 8 (Z.land (Z.shiftr n 8) 255);
   wrap 8 (Z.land (Z.shiftr n 16) 255); wrap 8 (Z.land (Z.shiftr n 24) 255)].
Definition PUT_UINT32_BE (n : Z) : list Z :=
  [wrap 8 (Z.shiftr n 24); wrap 8 (Z.shiftr n 16); wrap 8 (Z.shiftr n 8); wrap 8 n].
Definition PUT_UINT64_BE (n : Z) : list Z :=
  [wrap 8 (Z.shiftr n 56); wrap 8 (Z.shiftr n 48); wrap 8 (Z.shiftr n 40); wrap 8 (Z.shiftr n 32);
   wrap 8 (Z.shiftr n 24); wrap 8 (Z.shiftr n 16); wrap 8 (Z.shiftr n 8); wrap 8 n].

(** [mbedtls_md5_context] and the like; [variant] is [is224] or [is384]. *)
Record context := mkContext {
  total0 : Z;
  total1 : Z;
  state : list Z;
  buffer : list Z;
  variant : Z
}.

(** What distinguishes the functions: bytes of a word, the byte order, compression. *)
Record algorithm := mkAlgorithm {
  word : nat;
  PUT : Z -> list Z;
  bigEndian : bool;
  process : list Z -> list Z -> list Z
}.

Section streaming.
Context (a : algorithm).

Definition bits : Z := 8 * Z.of_nat (word a).
Definition block : Z := 16 * Z.of_nat (word a).
Definition lenAt : Z := 14 * Z.of_nat (word a).

(** [while( ilen >= 64 ) { process( ctx, input ); input += 64; ilen -= 64; }] *)
Fixpoint drain (fuel : nat) (st input : list Z) : list Z * list Z :=
  match fuel with
  | O => (st, input)
  | S fuel =>
      if zlen input >=? block
      then drain fuel (process a st (ztake block input)) (zdrop block input)
      else (st, input)
  end.

(** [mbedtls_md5_update_ret] and the like (its result is always 0) *)
Definition update (input : list Z) (c : context) : context :=
  let ilen := zlen input in
  if ilen =? 0 then c else
  let lft := Z.land (total0 c) (block - 1) in
  let fill := block - lft in
  let t0 := wrap bits (total0 c + wrap bits ilen) in
  let t1 := if t0 <? wrap bits ilen then wrap bits (total1 c + 1) else total1 c in
  let '(lft, st, buf, input) :=
    if negb (lft =? 0) && (ilen >=? fill) then
      let buf := zput lft (ztake fill input) (buffer c) in
      (0, process a (state c) buf, buf, zdrop fill input)
    else (lft, state c, buffer c, input) in
  let '(st, input) := drain (S (length input)) st input in
  let buf := if zlen input >? 0 then zput lft input buf else buf in
  mkContext t0 t1 st buf (variant c).

(** The length in bits as [finish] writes it. *)
Definition msglen (c : context) : list Z :=
  let high := Z.lor (Z.shiftr (total0 c) (bits - 3)) (wrap bits (Z.shiftl (total1 c) 3)) in
  let low := wrap bits (Z.shiftl (total0 c) 3) in
  if bigEndian a then PUT a high ++ PUT a low else PUT a low ++ PUT a high.

Definition output (n : nat) (st : list Z) : list Z := concat (map (PUT a) (take n st)).

(** [mbedtls_md5_finish_ret], and those of SHA-1, SHA-256 and SHA-512, which pad in
    the buffer; [n] is the number of words of the digest *)
Definition finish (n : nat) (c : context) : list Z * context :=
  let used := Z.land (total0 c) (block - 1) in
  let buf := zput used [128] (buffer c) in
  let used := used + 1 in
  let '(st, buf) :=
    if used <=? lenAt then (state c, zput used (replicate (Z.to_nat (lenAt - used)) 0) buf)
    else
      let buf := zput used (replicate (Z.to_nat (block - used)) 0) buf in
      (process a (state c) buf, zput 0 (replicate (Z.to_nat lenAt) 0) buf) in
  let buf := zput lenAt (msglen c) buf in
  let st := process a st buf in
  (output n st, mkContext (total0 c) (total1 c) st buf (variant c)).

(** [mbedtls_md4_finish_ret] and [mbedtls_ripemd160_finish_ret], which pad through
    [update] *)
Definition padding : list Z := 128 :: replicate 63 0.

Definition finishByUpdate (n : nat) (c : context) : list Z * context :=
  let len := msglen c in
  let last := Z.land (total0 c) (block - 1) in
  let padn := if last <? 56 then 56 - last else 120 - last in
  let c := update len (update (ztake padn padding) c) in
  (output n (state c), c).

(** ** The reference: Merkle and Damgard's iteration *)

(** The state after the first [k] blocks of [m]. *)
Fixpoint run (k : nat) (st m : list Z) : list Z :=
  match k with
  | O => st
  | S k => run k (process a st (ztake block m)) (zdrop block m)
  end.

Definition blocks (m : list Z) : nat := Z.to_nat (zlen m / block).

(** A one bit, zeros up to the length field, and the length in bits. *)
Definition pad (m : list Z) : list Z :=
  [128] ++ replicate (Z.to_nat ((lenAt - 1 - zlen m) mod block)) 0
  ++ (if bigEndian a then be_bytes (2 * word a) (8 * zlen m) else le_bytes (2 * word a) (8 * zlen m)).

Definition digest (init : list Z) (n : nat) (m : list Z) : list Z :=
  output n (run (blocks (m ++ pad m)) init (m ++ pad m)).

End streaming.

(** ** [update] and [finish] against the reference *)

Class Sound (a : algorithm) := {
  sound_word : word a = 4%nat \/ word a = 8%nat;
  sound_PUT n : PUT a n = if bigEndian a then be_bytes (word a) n else le_bytes (word a) n
}.

Section proofs.
Context (a : algorithm) `{!Sound a} (init : list Z).
Local Abbreviation BLK := (block a).
Local Abbreviation WB := (bits a).
Local Abbreviation LEN := (lenAt a).

Lemma block_cases : (WB = 32 /\ BLK = 2 ^ 6 /\ BLK = 64 /\ LEN = 56) \/
  (WB = 64 /\ BLK = 2 ^ 7 /\ BLK = 128 /\ LEN = 112).
Proof.
  unfold block, bits, lenAt. destruct sound_word as [->| ->]; [left|right]; done.
Qed.

Lemma block_pos : 0 < BLK.
Proof. destruct block_cases as [(_ & _ & -> & _)|(_ & _ & -> & _)]; lia. Qed.

Lemma land_block x : Z.land x (BLK - 1) = x mod BLK.
Proof.
  destruct block_cases as [(_ & -> & _)|(_ & -> & _)].
  - change (2 ^ 6 - 1) with (Z.ones 6). by rewrite Z.land_ones by lia.
  - change (2 ^ 7 - 1) with (Z.ones 7). by rewrite Z.land_ones by lia.
Qed.

Lemma block_divides : exists q, 2 ^ WB = q * BLK.
Proof.
  destruct block_cases as [(-> & -> & _)|(-> & -> & _)].
  - by exists (2 ^ 26).
  - by exists (2 ^ 57).
Qed.

Lemma mod_block x : (x mod 2 ^ WB) mod BLK = x mod BLK.
Proof.
  destruct block_divides as [q Hq]. pose proof block_pos. rewrite (Z.div_mod x (2 ^ WB)) at 2.
  - rewrite Hq at 2. rewrite Z.add_comm, (Z.mul_comm q), <- Z.mul_assoc, Z.mul_comm, Z.mod_add by lia.
    done.
  - destruct block_cases as [(-> & _)|(-> & _)]; done.
Qed.

Lemma run_app k j st m x :
  zlen m = BLK * Z.of_nat k -> run a (k + j) st (m ++ x) = run a j (run a k st m) x.
Proof.
  revert st m. pose proof block_pos. induction k as [|k IH]; intros st m Hm.
  - assert (m = []) as -> by (apply zlen_zero; lia). done.
  - cbn [run Nat.add]. rewrite ztake_app_le, zdrop_app_le by lia.
    apply IH. rewrite zlen_zdrop by lia. lia.
Qed.

Lemma run_block k st b x : zlen b = BLK -> run a (S k) st (b ++ x) = run a k (process a st b) x.
Proof.
  intros Hb. cbn [run]. rewrite ztake_app_le, zdrop_app_le by lia.
  rewrite ztake_all, zdrop_all by lia. done.
Qed.

Lemma drain_run fuel st input :
  (length input < fuel)%nat ->
  exists k x y, input = x ++ y /\ zlen x = BLK * Z.of_nat k /\ zlen y < BLK /\
    drain a fuel st input = (run a k st x, y).
Proof.
  pose proof block_pos. revert st input. induction fuel as [|fuel IH]; intros st input Hf; [lia|].
  cbn [drain]. destruct (Z.geb_spec (zlen input) BLK).
  - pose proof (zlen_zdrop BLK input ltac:(lia)) as Hd. pose proof (zlen_ztake BLK input ltac:(lia)) as Ht.
    destruct (IH (process a st (ztake BLK input)) (zdrop BLK input)) as (k & x & y & Ex & Hx & Hy & ->).
    { unfold zlen in *. lia. }
    exists (S k), (ztake BLK input ++ x), y. split_and!; [|rewrite zlen_app; lia|done|].
    + by rewrite <- app_assoc, <- Ex, ztake_zdrop.
    + by rewrite run_block.
  - exists 0%nat, [], input. split_and!; try done. change (zlen (@nil Z)) with 0. lia.
Qed.

(** [c] has been fed exactly the bytes [m]: the whole blocks [x] of [m] are in the
    state, the rest [y] in the buffer. *)
Record fed (c : context) (m : list Z) : Prop := mkFed {
  fed_total0 : total0 c = zlen m mod 2 ^ WB;
  fed_total1 : total1 c = zlen m / 2 ^ WB;
  fed_len : zlen (buffer c) = BLK;
  fed_split : exists k x y, m = x ++ y /\ zlen x = BLK * Z.of_nat k /\ zlen y < BLK /\
    state c = run a k init x /\ ztake (zlen y) (buffer c) = y
}.

Lemma mod_of_split k (x y : list Z) :
  zlen x = BLK * Z.of_nat k -> zlen y < BLK -> zlen (x ++ y) mod BLK = zlen y.
Proof.
  intros Hx Hy. pose proof block_pos. pose proof (zlen_nonneg y). rewrite zlen_app, Hx.
  rewrite Z.add_comm, Z.mul_comm, Z.mod_add by lia. apply Z.mod_small. lia.
Qed.

Lemma fed_left c m : fed c m -> Z.land (total0 c) (BLK - 1) = zlen m mod BLK.
Proof. intros H. by rewrite land_block, (fed_total0 c m H), mod_block. Qed.

(** The two-word counter. *)
Lemma count n i : 0 <= n -> 0 <= i < 2 ^ WB -> n + i < 2 ^ (2 * WB) ->
  let t0 := wrap WB (n mod 2 ^ WB + wrap WB i) in
  t0 = (n + i) mod 2 ^ WB /\
  (if t0 <? wrap WB i then wrap WB (n / 2 ^ WB + 1) else n / 2 ^ WB) = (n + i) / 2 ^ WB.
Proof.
  intros Hn Hi Hb. cbv zeta. unfold wrap. assert (HM : 0 < 2 ^ WB) by lia.
  assert (H2 : 2 ^ (2 * WB) = 2 ^ WB * 2 ^ WB).
  { rewrite <- Z.pow_add_r; [f_equal; lia|..]; unfold bits; lia. }
  set (M := 2 ^ WB) in *. rewrite (Z.mod_small i M) by lia. split; [by rewrite Z.add_mod_idemp_l by lia|].
  pose proof (Z.mod_pos_bound n M HM). pose proof (Z.div_mod n M ltac:(lia)) as Hdm.
  assert (0 <= n / M) by (apply Z.div_pos; lia).
  assert (n / M < M) by (apply Z.div_lt_upper_bound; lia).
  destruct (decide (n mod M + i < M)) as [Hc|Hc].
  - rewrite (Z.mod_small (n mod M + i)) by lia. destruct (Z.ltb_spec (n mod M + i) i); [lia|].
    apply (Z.div_unique _ _ _ (n mod M + i)); lia.
  - replace ((n mod M + i) mod M) with (n mod M + i - M)
      by (apply (Z.mod_unique _ _ 1); lia).
    destruct (Z.ltb_spec (n mod M + i - M) i); [|lia].
    assert (Hq : (n + i) / M = n / M + 1) by (symmetry; apply (Z.div_unique _ _ _ (n mod M + i - M)); lia).
    rewrite Hq. apply Z.mod_small. split; [lia|]. rewrite <- Hq. apply Z.div_lt_upper_bound; lia.
Qed.

(** A whole block assembled in the buffer. *)
Lemma buffer_full (y z buf : list Z) :
  zlen buf = BLK -> ztake (zlen y) buf = y -> zlen y + zlen z = BLK -> zput (zlen y) z buf = y ++ z.
Proof.
  intros Hb Hy Hz. unfold zput. rewrite Hy. rewrite zdrop_all by lia. by rewrite app_nil_r.
Qed.

Lemma buffer_put (y z buf : list Z) :
  zlen y + zlen z <= zlen buf -> ztake (zlen y) buf = y ->
  ztake (zlen (y ++ z)) (zput (zlen y) z buf) = y ++ z /\ zlen (zput (zlen y) z buf) = zlen buf.
Proof.
  intros Hb Hy. pose proof (zlen_nonneg y). pose proof (zlen_nonneg z). split; [|apply zlen_zput; lia].
  unfold zput. rewrite Hy, app_assoc. apply ztake_app_exact.
Qed.

Lemma buffer_rest (v buf : list Z) : zlen v <= zlen buf ->
  let b := if zlen v >? 0 then zput 0 v buf else buf in ztake (zlen v) b = v /\ zlen b = zlen buf.
Proof.
  intros Hv. cbv zeta. pose proof (zlen_nonneg v). rewrite Z.gtb_ltb. destruct (Z.ltb_spec 0 (zlen v)).
  - apply (buffer_put [] v); [change (zlen (@nil Z)) with 0; lia|done].
  - assert (v = []) as -> by (apply zlen_zero; lia). done.
Qed.

Lemma update_fed c m input :
  fed c m -> zlen input < 2 ^ WB -> zlen (m ++ input) < 2 ^ (2 * WB) -> fed (update a input c) (m ++ input).
Proof.
  intros Hf Hi Hb. pose proof (fed_left c m Hf) as Hl. pose proof block_pos as Hbp.
  pose proof (zlen_nonneg input) as Hi0. pose proof (zlen_nonneg m) as Hm0. unfold update.
  destruct (Z.eqb_spec (zlen input) 0) as [Hz|Hz].
  { apply zlen_zero in Hz as ->. by rewrite app_nil_r. }
  destruct Hf as [Ht0 Ht1 Hbl (k & x & y & Em & Hx & Hy & Hst & Hyb)].
  rewrite zlen_app in Hb. destruct (count (zlen m) (zlen input)) as [Hc0 Hc1]; [lia..|].
  rewrite Hl, Ht0, Ht1, Hc1, Hc0. rewrite <- zlen_app. clear Hl Hc0 Hc1.
  assert (HL : zlen m mod BLK = zlen y) by (rewrite Em; by apply (mod_of_split k)).
  rewrite HL. pose proof (zlen_nonneg y) as Hy0.
  destruct (Z.eqb_spec (zlen y) 0) as [Hy1|Hy1]; [|destruct (Z.geb_spec (zlen input) (BLK - zlen y))];
    cbn [negb andb].
  - apply zlen_zero in Hy1 as ->. rewrite app_nil_r in Em. subst x.
    destruct (drain_run (S (length input)) (state c) input) as (j & u & v & -> & Hu & Hv & ->); [lia|].
    change (zlen (@nil Z)) with 0. split; try done; cbn [buffer state].
    + rewrite (proj2 (buffer_rest v (buffer c) ltac:(lia))). done.
    + exists (k + j)%nat, (m ++ u), v. split_and!; [by rewrite app_assoc|rewrite zlen_app; lia|done| |].
      * rewrite Hst. by rewrite run_app.
      * apply (buffer_rest v (buffer c)). lia.
  - set (fill := BLK - zlen y) in *.
    assert (Hfl : zlen (ztake fill input) = fill) by (apply zlen_ztake; lia).
    rewrite (buffer_full y (ztake fill input)) by (done || lia).
    assert (Hin : (length (zdrop fill input) < S (length (zdrop fill input)))%nat) by lia.
    destruct (drain_run _ (process a (state c) (y ++ ztake fill input)) (zdrop fill input) Hin)
      as (j & u & v & Euv & Hu & Hv & ->).
    assert (Hfull : zlen (y ++ ztake fill input) = BLK) by (rewrite zlen_app; lia).
    assert (Hin' : input = ztake fill input ++ u ++ v) by (by rewrite <- Euv, ztake_zdrop).
    split; try done; cbn [buffer state].
    + rewrite (proj2 (buffer_rest v (y ++ ztake fill input) ltac:(lia))). done.
    + exists (k + S j)%nat, (x ++ (y ++ ztake fill input) ++ u), v. split_and!; [|rewrite !zlen_app; rewrite zlen_app in Hfull; lia|done| |].
      * rewrite Em, Hin' at 1. by rewrite <- !app_assoc.
      * rewrite run_app by done. rewrite run_block by done. by rewrite Hst.
      * apply (buffer_rest v (y ++ ztake fill input)). lia.
  - cbn [drain]. destruct (Z.geb_spec (zlen input) BLK); [lia|].
    rewrite Z.gtb_ltb. destruct (Z.ltb_spec 0 (zlen input)); [|lia].
    destruct (buffer_put y input (buffer c)) as [Hp1 Hp2]; [lia|done|].
    split; try done; cbn [buffer state]; [by rewrite Hp2|].
    exists k, x, (y ++ input). split_and!; [by rewrite Em, app_assoc|done|rewrite zlen_app; lia|done|done].
Qed.

(** ** Padding *)

Lemma msglen_spec c m : fed c m -> zlen m < 2 ^ (2 * WB - 3) ->
  msglen a c = if bigEndian a then be_bytes (2 * word a) (8 * zlen m) else le_bytes (2 * word a) (8 * zlen m).
Proof.
  intros [H0 H1 _ _] Hm. pose proof (zlen_nonneg m) as Hn. unfold msglen. rewrite !sound_PUT, H0, H1.
  set (n := zlen m) in *. assert (HW : WB = 8 * Z.of_nat (word a)) by done.
  assert (HB : 3 < WB) by (destruct block_cases as [(-> & _)|(-> & _)]; lia).
  assert (HM : 2 ^ WB = 8 * 2 ^ (WB - 3)) by (change 8 with (2 ^ 3); rewrite <- Z.pow_add_r by lia; f_equal; lia).
  assert (HM2 : 2 ^ (2 * WB - 3) = 2 ^ WB * 2 ^ (WB - 3)) by (rewrite <- Z.pow_add_r by lia; f_equal; lia).
  assert (HP : 0 < 2 ^ (WB - 3)) by (apply Z.pow_pos_nonneg; lia).
  assert (Hlow : wrap WB (Z.shiftl (n mod 2 ^ WB) 3) = (8 * n) mod 2 ^ WB).
  { unfold wrap. rewrite Z.shiftl_mul_pow2 by lia. change (2 ^ 3) with 8.
    rewrite Z.mul_mod_idemp_l by lia. f_equal. lia. }
  assert (Hq : n / 2 ^ WB < 2 ^ (WB - 3)) by (apply Z.div_lt_upper_bound; lia).
  assert (Hq0 : 0 <= n / 2 ^ WB) by (apply Z.div_pos; lia).
  assert (Hhigh : Z.lor (Z.shiftr (n mod 2 ^ WB) (WB - 3)) (wrap WB (Z.shiftl (n / 2 ^ WB) 3)) = (8 * n) / 2 ^ WB).
  { pose proof (Z.mod_pos_bound n (2 ^ WB) ltac:(lia)) as Hr. pose proof (Z.div_mod n (2 ^ WB) ltac:(lia)) as Hdm.
    rewrite wrap_small by (rewrite Z.shiftl_mul_pow2 by lia; change (2 ^ 3) with 8; lia).
    rewrite Z.shiftr_div_pow2 by lia.
    assert (0 <= n mod 2 ^ WB / 2 ^ (WB - 3) < 2 ^ 3).
    { split; [apply Z.div_pos; lia|]. apply Z.div_lt_upper_bound; lia. }
    rewrite Z.lor_comm, lor_shiftl_add, Z.mul_comm by lia. change (2 ^ 3) with 8.
    apply (Z.div_unique _ _ _ (8 * ((n mod 2 ^ WB) mod 2 ^ (WB - 3)))).
    - pose proof (Z.mod_pos_bound (n mod 2 ^ WB) (2 ^ (WB - 3)) ltac:(lia)). lia.
    - pose proof (Z.div_mod (n mod 2 ^ WB) (2 ^ (WB - 3)) ltac:(lia)). nia. }
  rewrite Hlow, Hhigh, HW. replace (2 * word a)%nat with (word a + word a)%nat by lia. destruct (bigEndian a).
  - by rewrite be_bytes_app, be_bytes_mod.
  - by rewrite le_bytes_app, le_bytes_mod.
Qed.

Lemma word_sizes : BLK = LEN + Z.of_nat (2 * word a) /\ 0 < LEN.
Proof. unfold block, lenAt. destruct sound_word as [->| ->]; done. Qed.

Lemma zlen_count (m : list Z) : zlen (if bigEndian a then be_bytes (2 * word a) (8 * zlen m)
  else le_bytes (2 * word a) (8 * zlen m)) = BLK - LEN.
Proof.
  destruct word_sizes as [-> _]. destruct (bigEndian a); rewrite ?zlen_be_bytes, ?zlen_le_bytes; lia.
Qed.

(** How many zeros the padding has, by what is buffered. *)
Lemma pad_zeros L n : 0 <= L < BLK -> n mod BLK = L ->
  (LEN - 1 - n) mod BLK = if decide (L + 1 <= LEN) then LEN - 1 - L else LEN - 1 - L + BLK.
Proof.
  intros HL Hn. destruct word_sizes as [Hw Hp]. pose proof (Z.div_mod n BLK ltac:(lia)) as Hdm.
  rewrite Hn in Hdm. destruct (decide _).
  - symmetry. apply (Z.mod_unique _ _ (- (n / BLK))); lia.
  - symmetry. apply (Z.mod_unique _ _ (- (n / BLK) - 1)); lia.
Qed.

Lemma blocks_app k (x y : list Z) : zlen x = BLK * Z.of_nat k -> blocks a (x ++ y) = (k + blocks a y)%nat.
Proof.
  intros Hx. pose proof block_pos. pose proof (zlen_nonneg y). unfold blocks. rewrite zlen_app, Hx.
  rewrite Z.add_comm, Z.mul_comm, Z.div_add by lia. rewrite Z2Nat.inj_add; [lia|apply Z.div_pos; lia|lia].
Qed.

Lemma blocks_exact (b : list Z) : zlen b = BLK -> blocks a b = 1%nat.
Proof. intros Hb. pose proof block_pos. unfold blocks. by rewrite Hb, Z.div_same by lia. Qed.

Lemma replicate_split i j : replicate (i + j) 0 = replicate i 0 ++ replicate j 0.
Proof. apply replicate_add. Qed.

(** The buffer after [memset( buffer + used, 0, n )] behind what is used. *)
Lemma memset_behind (y buf : list Z) n : 0 <= n -> zlen y + n <= zlen buf -> ztake (zlen y) buf = y ->
  ztake (zlen y + n) (zput (zlen y) (replicate (Z.to_nat n) 0) buf) = y ++ replicate (Z.to_nat n) 0 /\
  zlen (zput (zlen y) (replicate (Z.to_nat n) 0) buf) = zlen buf.
Proof.
  intros Hn Hl Hy. assert (Hr : zlen (replicate (Z.to_nat n) 0) = n) by (rewrite zlen_replicate; lia).
  destruct (buffer_put y (replicate (Z.to_nat n) 0) buf) as [H1 H2]; [lia|done|].
  split; [|done]. by rewrite <- H1, zlen_app, Hr.
Qed.

Lemma finish_digest n c m : fed c m -> zlen m < 2 ^ (2 * WB - 3) -> fst (finish a n c) = digest a init n m.
Proof.
  intros Hf Hm. unfold finish, digest. rewrite (fed_left c m Hf), (msglen_spec c m Hf Hm).
  pose proof (zlen_count m) as Hlen. destruct word_sizes as [Hw Hp0]. pose proof block_pos as Hbp.
  destruct Hf as [_ _ Hbl (k & x & y & Em & Hx & Hy & Hst & Hyb)].
  assert (HL : zlen m mod BLK = zlen y) by (rewrite Em; by apply (mod_of_split k)).
  pose proof (zlen_nonneg y) as Hy0. rewrite HL. unfold pad. rewrite (pad_zeros (zlen y)) by (done || lia).
  set (len := if bigEndian a then _ else _) in *. clearbody len.
  destruct (buffer_put y [128] (buffer c)) as [Hb1 Hb2]; [change (zlen [128]) with 1; lia|done|].
  assert (Hy1 : zlen (y ++ [128]) = zlen y + 1) by (by rewrite zlen_app).
  set (nz := if decide _ then _ else _).
  assert (Hnz : (zlen y + 1 <= LEN /\ nz = LEN - zlen (y ++ [128])) \/
    (LEN < zlen y + 1 /\ nz = BLK - zlen (y ++ [128]) + LEN)) by (unfold nz; destruct (decide _); lia).
  clearbody nz. rewrite <- Hy1. set (buf := zput (zlen y) [128] (buffer c)) in *. clearbody buf.
  destruct (Z.leb_spec (zlen (y ++ [128])) LEN) as [Hc|Hc];
    destruct Hnz as [[? ->]|[? ->]]; try lia.
  - destruct (memset_behind (y ++ [128]) buf (LEN - zlen (y ++ [128]))) as [Hz1 Hz2]; [lia..|done|].
    set (z := replicate (Z.to_nat (LEN - zlen (y ++ [128]))) 0) in *.
    assert (Hyz : zlen ((y ++ [128]) ++ z) = LEN) by (unfold z; rewrite zlen_app, zlen_replicate; lia).
    assert (Hblk : zput LEN len (zput (zlen (y ++ [128])) z buf) = ((y ++ [128]) ++ z) ++ len).
    { rewrite <- Hyz at 1. apply buffer_full; [lia| |lia]. rewrite Hyz. rewrite <- Hz1. f_equal. lia. }
    rewrite Hblk. cbn [fst]. f_equal. rewrite Hst, Em, <- (app_assoc x y).
    replace (y ++ [128] ++ z ++ len) with (((y ++ [128]) ++ z) ++ len) by (by rewrite <- !app_assoc).
    set (b := ((y ++ [128]) ++ z) ++ len). assert (Hb : zlen b = BLK) by (unfold b; rewrite zlen_app; lia).
    rewrite (blocks_app k) by done. rewrite run_app by done. rewrite (blocks_exact b) by done.
    rewrite <- (app_nil_r b) at 2. by rewrite run_block.
  - destruct (memset_behind (y ++ [128]) buf (BLK - zlen (y ++ [128]))) as [Hz1 Hz2]; [lia..|done|].
    set (z := replicate (Z.to_nat (BLK - zlen (y ++ [128]))) 0) in *.
    assert (Hblk : zput (zlen (y ++ [128])) z buf = (y ++ [128]) ++ z).
    { rewrite <- Hz1. symmetry. apply ztake_all. lia. }
    assert (Hyz : zlen ((y ++ [128]) ++ z) = BLK) by (unfold z; rewrite zlen_app, zlen_replicate; lia).
    rewrite Hblk. set (z' := replicate (Z.to_nat LEN) 0).
    assert (Hz' : zlen z' = LEN) by (unfold z'; rewrite zlen_replicate; lia).
    assert (Hblk2 : zput LEN len (zput 0 z' ((y ++ [128]) ++ z)) = z' ++ len).
    { destruct (buffer_put [] z' ((y ++ [128]) ++ z)) as [Hq1 Hq2]; [change (zlen (@nil Z)) with 0; lia|done|].
      change (zlen (@nil Z)) with 0 in Hq1, Hq2. cbn [app] in Hq1. rewrite <- Hz' at 1.
      apply buffer_full; [lia|done|lia]. }
    rewrite Hblk2. cbn [fst]. f_equal. rewrite Hst, Em.
    assert (Hsp : replicate (Z.to_nat (BLK - zlen (y ++ [128]) + LEN)) 0 = z ++ z').
    { unfold z, z'. rewrite <- replicate_split. f_equal. lia. }
    rewrite Hsp. rewrite <- (app_assoc x y).
    replace (y ++ [128] ++ (z ++ z') ++ len) with (((y ++ [128]) ++ z) ++ (z' ++ len)) by (by rewrite <- !app_assoc).
    set (b := (y ++ [128]) ++ z) in *. assert (Hb' : zlen (z' ++ len) = BLK) by (rewrite zlen_app; lia).
    rewrite (blocks_app k) by done. rewrite run_app by done.
    rewrite (blocks_app 1) by lia. rewrite (blocks_exact (z' ++ len)) by done.
    cbn [Nat.add]. rewrite run_block by done. rewrite <- (app_nil_r (z' ++ len)) at 2. by rewrite run_block.
Qed.

Lemma fed_whole c m : fed c m -> zlen m mod BLK = 0 -> state c = run a (blocks a m) init m.
Proof.
  intros [_ _ _ (k & x & y & -> & Hx & Hy & Hst & _)] Hm. rewrite (mod_of_split k x y Hx Hy) in Hm.
  apply zlen_zero in Hm as ->. rewrite app_nil_r, Hst. f_equal. unfold blocks. rewrite Hx.
  pose proof block_pos. rewrite Z.mul_comm, Z.div_mul by lia. lia.
Qed.

Lemma finishByUpdate_digest n c m : word a = 4%nat -> fed c m -> zlen m < 2 ^ (2 * WB - 3) ->
  fst (finishByUpdate a n c) = digest a init n m.
Proof.
  intros Hw Hf Hm. unfold finishByUpdate, digest. rewrite (fed_left c m Hf), (msglen_spec c m Hf Hm).
  pose proof (zlen_count m) as Hlen. pose proof (zlen_nonneg m) as Hm0. unfold pad.
  assert (HB : BLK = 64 /\ LEN = 56 /\ WB = 32) by (unfold block, lenAt, bits; rewrite Hw; done).
  destruct HB as (HB & HL & HW). pose proof (Z.mod_pos_bound (zlen m) 64 ltac:(lia)) as Hr.
  rewrite (pad_zeros (zlen m mod 64)) by (rewrite ?HB; done || lia). rewrite HL, HB, HW in *.
  set (len := if bigEndian a then _ else _) in *. clearbody len. change (2 ^ (2 * 32 - 3)) with (2 ^ 61) in Hm.
  set (L := zlen m mod 64) in *. set (padn := if L <? 56 then 56 - L else 120 - L).
  set (nz := if decide _ then _ else _).
  assert (Hp : ztake padn padding = [128] ++ replicate (Z.to_nat nz) 0 /\ 0 <= nz <= 63 /\
    (L + 1 + nz + 8) mod 64 = 0).
  { unfold padn, nz, padding, ztake. destruct (Z.ltb_spec L 56), (decide (L + 1 <= 56)); try lia.
    - replace (Z.to_nat (56 - L)) with (S (Z.to_nat (56 - 1 - L))) by lia. cbn [take app].
      rewrite take_replicate. split_and!; [do 2 f_equal; lia|lia..|].
      replace (L + 1 + (56 - 1 - L) + 8) with 64 by lia. done.
    - replace (Z.to_nat (120 - L)) with (S (Z.to_nat (56 - 1 - L + 64))) by lia. cbn [take app].
      rewrite take_replicate. split_and!; [do 2 f_equal; lia|lia..|].
      replace (L + 1 + (56 - 1 - L + 64) + 8) with 128 by lia. done. }
  destruct Hp as (-> & Hnz & Hmod). clearbody nz.
  assert (Hzl : zlen ([128] ++ replicate (Z.to_nat nz) 0) = 1 + nz) by (rewrite zlen_app, zlen_replicate; change (zlen [128]) with 1; lia).
  set (p := [128] ++ replicate (Z.to_nat nz) 0) in *.
  assert (Hf1 : fed (update a p c) (m ++ p)) by (apply update_fed; rewrite ?zlen_app, ?HW; done || lia).
  assert (Hf2 : fed (update a len (update a p c)) ((m ++ p) ++ len))
    by (apply update_fed; rewrite ?zlen_app, ?HW; done || lia).
  cbn [fst]. f_equal. rewrite <- app_assoc in Hf2.
  replace ([128] ++ replicate (Z.to_nat nz) 0 ++ len) with (p ++ len) by (unfold p; by rewrite <- app_assoc).
  apply (fed_whole _ _ Hf2). rewrite HB. rewrite !zlen_app, Hzl, Hlen. rewrite <- Hmod. unfold L.
  replace (zlen m + (1 + nz + (64 - 56))) with (zlen m + (1 + nz + 8)) by lia.
  replace (zlen m mod 64 + 1 + nz + 8) with (zlen m mod 64 + (1 + nz + 8)) by lia.
  by rewrite Z.add_mod_idemp_l by lia.
Qed.

(** Several updates in a row. *)
Lemma updates_fed c m cs :
  fed c m -> Forall (fun x => zlen x < 2 ^ WB) cs -> zlen (m ++ concat cs) < 2 ^ (2 * WB) ->
  fed (fold_left (fun c x => update a x c) cs c) (m ++ concat cs).
Proof.
  intros Hf Hcs. revert c m Hf. induction Hcs as [|x cs Hx Hcs IH]; intros c m Hf Hb; cbn [fold_left concat].
  - by rewrite app_nil_r.
  - cbn [concat] in Hb. rewrite app_assoc in Hb |- *. apply IH; [|done].
    apply update_fed; [done..|]. rewrite zlen_app in Hb. pose proof (zlen_nonneg (concat cs)). lia.
Qed.

(** A context after [starts]. *)
Lemma starts_fed buf v : zlen buf = BLK -> fed (mkContext 0 0 init buf v) [].
Proof.
  intros Hb. split; [by rewrite Zmod_0_l|by rewrite Zdiv_0_l|done|]. pose proof block_pos.
  exists 0%nat, [], []. change (zlen (@nil Z)) with 0. split_and!; try done; lia.
Qed.

End proofs.
