(* ===== verification/MdProcess.v ===== *)
(** * The compression functions of the hashes

    [mbedtls_internal_*_process] of [md4.c], [md5.c], [sha1.c], [ripemd160.c],
    [sha256.c] and [sha512.c].  The sources unroll the rounds into calls of a macro
    [P] on rotating variables; here a call is a value that names the variables by
    their number, and a round is the list of its calls.  Each function is proved
    equal to the round iteration of its standard (RFC 1320, RFC 1321, FIPS 180-4,
    the RIPEMD-160 paper), whose tables are given by their formulas where there is
    one. *)

From S2P Require Import Prelude Bytes Md.

(** The words of a block. *)
Definition words (get : list Z -> Z -> Z) (size : Z) (data : list Z) : list Z :=
  map (fun i => get data (size * Z.of_nat i)) (seq 0 16).

(** [state[i] += ...] *)
Definition addWords (bits : Z) (st regs : list Z) : list Z :=
  zip_with (fun x y => wrap bits (x + y)) st regs.

Definition ALL32 : Z := 4294967295.

(** [S(x,n)]: rotation of a 32-bit word to the left; [~x] *)
Definition S32 (x n : Z) : Z :=
  Z.lor (u32 (Z.shiftl x n)) (Z.shiftr (Z.land x ALL32) (32 - n)).
Definition not32 (x : Z) : Z := Z.lxor x ALL32.

Lemma fold_left_cons {A B} (f : A -> B -> A) x l a : fold_left f (x :: l) a = fold_left f l (f a x).
Proof. done. Qed.

Lemma wrap_add_r k x y : wrap k (x + wrap k y) = wrap k (x + y).
Proof. unfold wrap. by rewrite Zplus_mod_idemp_r. Qed.

Lemma wrap_add_l k x y : wrap k (wrap k x + y) = wrap k (x + y).
Proof. unfold wrap. by rewrite Zplus_mod_idemp_l. Qed.

(** The two usual forms of "x ? y : z" and of the majority. *)
Lemma choose_forms x y z :
  Z.lxor z (Z.land x (Z.lxor y z)) = Z.lxor (Z.land x y) (Z.land (Z.lnot x) z).
Proof.
  apply Z.bits_inj'. intros n Hn. rewrite !Z.lxor_spec, !Z.land_spec, Z.lxor_spec, Z.lnot_spec by lia.
  by destruct (Z.testbit x n), (Z.testbit y n), (Z.testbit z n).
Qed.

Lemma majority_forms x y z :
  Z.lor (Z.land x y) (Z.land z (Z.lor x y))
  = Z.lxor (Z.lxor (Z.land x y) (Z.land x z)) (Z.land y z).
Proof.
  apply Z.bits_inj'. intros n Hn. rewrite Z.lor_spec, !Z.lxor_spec, !Z.land_spec, Z.lor_spec.
  by destruct (Z.testbit x n), (Z.testbit y n), (Z.testbit z n).
Qed.

(** ** Macros on rotating variables *)

Module Rotating.

(** The variables of a function are a list; a call of a macro names the variables it
    is given for its parameters (in order, all different) and has further arguments.
    The macro maps the values of its parameters to their new values. *)
Definition call (Q : Type) : Type := list nat * Q.

Definition values (r : list Z) (vars : list nat) : list Z := map (fun v => nth v r 0) vars.

Fixpoint assign (vars : list nat) (new r : list Z) : list Z :=
  match vars, new with
  | v :: vars, x :: new => assign vars new (<[v := x]> r)
  | _, _ => r
  end.

Definition exec {Q} (macro : Q -> list Z -> list Z) (r : list Z) (c : call Q) : list Z :=
  assign (fst c) (macro (snd c) (values r (fst c))) r.

(** The last element in front. *)
Definition rotr {A} (l : list A) : list A := drop (length l - 1) l ++ take (length l - 1) l.

Lemma values_assign vars new r :
  NoDup vars -> Forall (fun v => (v < length r)%nat) vars -> length new = length vars ->
  values (assign vars new r) vars = new /\ length (assign vars new r) = length r /\
  forall v, v ∉ vars -> nth v (assign vars new r) 0 = nth v r 0.
Proof.
  revert new r. induction vars as [|v vars IH]; intros [|x new] r Hnd Hv Hl; try done.
  apply NoDup_cons in Hnd as [Hn Hnd]. apply Forall_cons in Hv as [Hv Hvs]. cbn [length] in Hl.
  destruct (IH new (<[v := x]> r)) as (H1 & H2 & H3); [done|by rewrite length_insert|lia|].
  cbn [assign values map]. split_and!.
  - change (nth v (assign vars new (<[v := x]> r)) 0 :: values (assign vars new (<[v := x]> r)) vars = x :: new).
    rewrite H1, H3 by done. f_equal. by rewrite nth_lookup, list_lookup_insert_eq.
  - by rewrite H2, length_insert.
  - intros u Hu. apply not_elem_of_cons in Hu as [Hu1 Hu2]. rewrite H3 by done.
    rewrite !nth_lookup. by rewrite list_lookup_insert_ne.
Qed.

Section rotating.
Context {Q : Type} (macro : Q -> list Z -> list Z) (n : nat).
Hypothesis macro_len : forall q l, length l = n -> length (macro q l) = n.

(** The unrolled calls: each names the variables of the one before, rotated. *)
Fixpoint unrolled (vars : list nat) (qs : list Q) : list (call Q) :=
  match qs with
  | [] => []
  | q :: qs => (vars, q) :: unrolled (rotr vars) qs
  end.

(** The same as an iteration on the values. *)
Definition iterate (qs : list Q) (l : list Z) : list Z :=
  fold_left (fun l q => rotr (macro q l)) qs l.

Lemma rotr_perm {A} (l : list A) : rotr l ≡ₚ l.
Proof. unfold rotr. rewrite Permutation_app_comm. by rewrite take_drop. Qed.

Lemma length_rotr {A} (l : list A) : length (rotr l) = length l.
Proof. apply Permutation_length, rotr_perm. Qed.

Lemma map_rotr {A B} (f : A -> B) (l : list A) : map f (rotr l) = rotr (map f l).
Proof. unfold rotr. by rewrite map_app, skipn_map, firstn_map, length_map. Qed.

Lemma unrolled_iterate vars qs r :
  vars ≡ₚ seq 0 n -> length r = n ->
  let r' := fold_left (exec macro) (unrolled vars qs) r in
  length r' = n /\ values r' (Nat.iter (length qs) rotr vars) = iterate qs (values r vars).
Proof.
  revert vars r. induction qs as [|q qs IH]; intros vars r Hp Hr; [done|].
  assert (Hlv : length vars = n) by (by rewrite (Permutation_length Hp), length_seq).
  assert (Hlen : length (macro q (values r vars)) = length vars).
  { rewrite Hlv. apply macro_len. unfold values. by rewrite length_map. }
  destruct (values_assign vars (macro q (values r vars)) r) as (H1 & H2 & _); [| |done|].
  { rewrite Hp. apply NoDup_ListNoDup, seq_NoDup. }
  { rewrite Hp. apply Forall_forall. intros v Hv. apply elem_of_seq in Hv. lia. }
  cbn [fold_left unrolled length]. rewrite Nat.iter_succ_r.
  destruct (IH (rotr vars) (exec macro r (vars, q))) as (H3 & H4).
  - by rewrite rotr_perm.
  - unfold exec. cbn [fst snd]. by rewrite H2.
  - split; [done|]. rewrite H4. unfold iterate. cbn [fold_left]. f_equal.
    unfold exec. cbn [fst snd]. unfold values at 1. rewrite map_rotr. f_equal. exact H1.
Qed.

(** After whole turns the variables are in place again. *)
Lemma unrolled_whole qs r :
  Nat.iter (length qs) rotr (seq 0 n) = seq 0 n -> length r = n ->
  fold_left (exec macro) (unrolled (seq 0 n) qs) r = iterate qs r.
Proof.
  intros Ht Hr. destruct (unrolled_iterate (seq 0 n) qs r) as [H1 H2]; [done|done|]. rewrite Ht in H2.
  assert (Hv : forall l, length l = n -> values l (seq 0 n) = l).
  { intros l Hl. apply (nth_ext _ _ 0 0); unfold values; rewrite length_map, length_seq; [done|].
    intros i Hi. rewrite (nth_indep _ _ (nth 0 l 0)) by (by rewrite length_map, length_seq).
    rewrite (map_nth (fun v => nth v l 0) (seq 0 n) 0%nat i). by rewrite seq_nth. }
  by rewrite (Hv _ H1), (Hv _ Hr) in H2.
Qed.
End rotating.

End Rotating.
Import Rotating.

(** ** MD5 *)

Module Md5.
Local Notation A := 0%nat.
Local Notation B := 1%nat.
Local Notation C := 2%nat.
Local Notation D := 3%nat.

(** The arguments of [P( a, b, c, d, k, s, t )] and the function [F] in force. *)
Record args := mkArgs { F : Z -> Z -> Z -> Z; k : Z; s : Z; t : Z }.

Definition P (F : Z -> Z -> Z -> Z) (a b c d : nat) (k s t : Z) : call args :=
  ([a; b; c; d], mkArgs F k s t).

Definition macro (X : list Z) (q : args) (l : list Z) : list Z :=
  match l with
  | [a; b; c; d] =>
      let a := u32 (a + (F q b c d + nth (Z.to_nat (k q)) X 0 + t q)) in
      let a := u32 (S32 a (s q) + b) in
      [a; b; c; d]
  | _ => l
  end.

Definition F1 (x y z : Z) : Z := Z.lxor z (Z.land x (Z.lxor y z)).
Definition F2 (x y z : Z) : Z := Z.lxor y (Z.land z (Z.lxor x y)).
Definition F3 (x y z : Z) : Z := Z.lxor (Z.lxor x y) z.
Definition F4 (x y z : Z) : Z := Z.lxor y (Z.lor x (not32 z)).

Definition round1 : list (call args) :=
  let P := P F1 in
  [P A B C D 0 7 0xD76AA478; P D A B C 1 12 0xE8C7B756;
   P C D A B 2 17 0x242070DB; P B C D A 3 22 0xC1BDCEEE;
   P A B C D 4 7 0xF57C0FAF; P D A B C 5 12 0x4787C62A;
   P C D A B 6 17 0xA8304613; P B C D A 7 22 0xFD469501;
   P A B C D 8 7 0x698098D8; P D A B C 9 12 0x8B44F7AF;
   P C D A B 10 17 0xFFFF5BB1; P B C D A 11 22 0x895CD7BE;
   P A B C D 12 7 0x6B901122; P D A B C 13 12 0xFD987193;
   P C D A B 14 17 0xA679438E; P B C D A 15 22 0x49B40821].

Definition round2 : list (call args) :=
  let P := P F2 in
  [P A B C D 1 5 0xF61E2562; P D A B C 6 9 0xC040B340;
   P C D A B 11 14 0x265E5A51; P B C D A 0 20 0xE9B6C7AA;
   P A B C D 5 5 0xD62F105D; P D A B C 10 9 0x02441453;
   P C D A B 15 14 0xD8A1E681; P B C D A 4 20 0xE7D3FBC8;
   P A B C D 9 5 0x21E1CDE6; P D A B C 14 9 0xC33707D6;
   P C D A B 3 14 0xF4D50D87; P B C D A 8 20 0x455A14ED;
   P A B C D 13 5 0xA9E3E905; P D A B C 2 9 0xFCEFA3F8;
   P C D A B 7 14 0x676F02D9; P B C D A 12 20 0x8D2A4C8A].

Definition round3 : list (call args) :=
  let P := P F3 in
  [P A B C D 5 4 0xFFFA3942; P D A B C 8 11 0x8771F681;
   P C D A B 11 16 0x6D9D6122; P B C D A 14 23 0xFDE5380C;
   P A B C D 1 4 0xA4BEEA44; P D A B C 4 11 0x4BDECFA9;
   P C D A B 7 16 0xF6BB4B60; P B C D A 10 23 0xBEBFBC70;
   P A B C D 13 4 0x289B7EC6; P D A B C 0 11 0xEAA127FA;
   P C D A B 3 16 0xD4EF3085; P B C D A 6 23 0x04881D05;
   P A B C D 9 4 0xD9D4D039; P D A B C 12 11 0xE6DB99E5;
   P C D A B 15 16 0x1FA27CF8; P B C D A 2 23 0xC4AC5665].

Definition round4 : list (call args) :=
  let P := P F4 in
  [P A B C D 0 6 0xF4292244; P D A B C 7 10 0x432AFF97;
   P C D A B 14 15 0xAB9423A7; P B C D A 5 21 0xFC93A039;
   P A B C D 12 6 0x655B59C3; P D A B C 3 10 0x8F0CCC92;
   P C D A B 10 15 0xFFEFF47D; P B C D A 1 21 0x85845DD1;
   P A B C D 8 6 0x6FA87E4F; P D A B C 15 10 0xFE2CE6E0;
   P C D A B 6 15 0xA3014314; P B C D A 13 21 0x4E0811A1;
   P A B C D 4 6 0xF7537E82; P D A B C 11 10 0xBD3AF235;
   P C D A B 2 15 0x2AD7D2BB; P B C D A 9 21 0xEB86D391].

(** [mbedtls_internal_md5_process] *)
Definition mbedtls_internal_md5_process (state data : list Z) : list Z :=
  let X := words GET_UINT32_LE 4 data in
  addWords 32 state (fold_left (exec (macro X)) (round1 ++ round2 ++ round3 ++ round4) state).

(** RFC 1321, section 3.4: the auxiliary functions, the order of the words, the
    shifts and the table [T[i] = floor(2^32 * abs(sin(i)))]. *)
Definition rfc_f (i : nat) (x y z : Z) : Z :=
  if Nat.ltb i 16 then Z.lxor (Z.land x y) (Z.land (Z.lnot x) z)
  else if Nat.ltb i 32 then Z.lxor (Z.land z x) (Z.land (Z.lnot z) y)
  else if Nat.ltb i 48 then Z.lxor (Z.lxor x y) z
  else Z.lxor y (Z.lor x (not32 z)).
Definition rfc_k (i : nat) : nat :=
  (if Nat.ltb i 16 then i else if Nat.ltb i 32 then 5 * i + 1
   else if Nat.ltb i 48 then 3 * i + 5 else 7 * i) mod 16.
Definition rfc_s (i : nat) : Z :=
  nth (i mod 4) (nth (i / 16) [[7; 12; 17; 22]; [5; 9; 14; 20]; [4; 11; 16; 23]; [6; 10; 15; 21]] []) 0.
Definition T : list Z :=
  [3614090360; 3905402710; 606105819; 3250441966; 4118548399; 1200080426;
   2821735955; 4249261313; 1770035416; 2336552879; 4294925233; 2304563134;
   1804603682; 4254626195; 2792965006; 1236535329; 4129170786; 3225465664;
   643717713; 3921069994; 3593408605; 38016083; 3634488961; 3889429448;
   568446438; 3275163606; 4107603335; 1163531501; 2850285829; 4243563512;
   1735328473; 2368359562; 4294588738; 2272392833; 1839030562; 4259657740;
   2763975236; 1272893353; 4139469664; 3200236656; 681279174; 3936430074;
   3572445317; 76029189; 3654602809; 3873151461; 530742520; 3299628645;
   4096336452; 1126891415; 2878612391; 4237533241; 1700485571; 2399980690;
   4293915773; 2240044497; 1873313359; 4264355552; 2734768916; 1309151649;
   4149444226; 3174756917; 718787259; 3951481745].

Definition rfc_step (X : list Z) (r : list Z) (i : nat) : list Z :=
  match r with
  | [a; b; c; d] =>
      [d; u32 (b + S32 (u32 (a + rfc_f i b c d + nth (rfc_k i) X 0 + nth i T 0)) (rfc_s i)); b; c]
  | _ => r
  end.
Definition rfc_compress (state data : list Z) : list Z :=
  addWords 32 state (fold_left (rfc_step (words GET_UINT32_LE 4 data)) (seq 0 64) state).

(** The function of a step as the source writes it. *)
Definition F_at (i : nat) : Z -> Z -> Z -> Z :=
  if Nat.ltb i 16 then F1 else if Nat.ltb i 32 then F2 else if Nat.ltb i 48 then F3 else F4.
Definition args_at (i : nat) : args := mkArgs (F_at i) (Z.of_nat (rfc_k i)) (rfc_s i) (nth i T 0).

Lemma F_at_rfc i x y z : F_at i x y z = rfc_f i x y z.
Proof.
  unfold F_at, rfc_f. destruct (Nat.ltb i 16); [apply choose_forms|].
  destruct (Nat.ltb i 32); [apply choose_forms|]. by destruct (Nat.ltb i 48).
Qed.

Lemma rounds_pattern : round1 ++ round2 ++ round3 ++ round4 = unrolled (seq 0 4) (map args_at (seq 0 64)).
Proof. reflexivity. Qed.

Lemma macro_len X q l : length l = 4%nat -> length (macro X q l) = 4%nat.
Proof. do 4 (destruct l as [|? l]; [done|]). by destruct l. Qed.

Lemma iterate_rfc X js l : length l = 4%nat ->
  iterate (macro X) (map args_at js) l = fold_left (rfc_step X) js l.
Proof.
  revert l. induction js as [|i js IH]; intros l Hl; [done|]. unfold iterate in *. cbn [map fold_left].
  do 4 (destruct l as [|? l]; [done|]). destruct l; [|done]. rewrite <- IH by done. f_equal.
  cbn [macro args_at F k s t rotr drop take length app Nat.sub rfc_step]. rewrite F_at_rfc, Nat2Z.id.
  unfold rotr. cbn [drop take length app Nat.sub]. do 2 f_equal. rewrite Z.add_comm. do 4 f_equal. lia.
Qed.

Lemma process_rfc state data : length state = 4%nat ->
  mbedtls_internal_md5_process state data = rfc_compress state data.
Proof.
  intros Hs. unfold mbedtls_internal_md5_process, rfc_compress. rewrite rounds_pattern.
  rewrite unrolled_whole; [by rewrite iterate_rfc|apply macro_len|reflexivity|done].
Qed.
End Md5.

(** ** MD4 *)

Module Md4.
Local Notation A := 0%nat.
Local Notation B := 1%nat.
Local Notation C := 2%nat.
Local Notation D := 3%nat.

(** The arguments of [P( a, b, c, d, X[k], s )], the function [F] and the constant in
    force. *)
Record args := mkArgs { F : Z -> Z -> Z -> Z; K : Z; k : Z; s : Z }.

Definition P (F : Z -> Z -> Z -> Z) (K : Z) (a b c d : nat) (k s : Z) : call args :=
  ([a; b; c; d], mkArgs F K k s).

Definition macro (X : list Z) (q : args) (l : list Z) : list Z :=
  match l with
  | [a; b; c; d] =>
      let a := u32 (a + (F q b c d + nth (Z.to_nat (k q)) X 0 + K q)) in
      let a := S32 a (s q) in
      [a; b; c; d]
  | _ => l
  end.

Definition F1 (x y z : Z) : Z := Z.lor (Z.land x y) (Z.land (not32 x) z).
Definition F2 (x y z : Z) : Z := Z.lor (Z.lor (Z.land x y) (Z.land x z)) (Z.land y z).
Definition F3 (x y z : Z) : Z := Z.lxor (Z.lxor x y) z.
Definition K1 : Z := 0.
Definition K2 : Z := 0x5A827999.
Definition K3 : Z := 0x6ED9EBA1.

Definition round1 : list (call args) :=
  let P := P F1 K1 in
  [P A B C D 0 3; P D A B C 1 7; P C D A B 2 11; P B C D A 3 19;
   P A B C D 4 3; P D A B C 5 7; P C D A B 6 11; P B C D A 7 19;
   P A B C D 8 3; P D A B C 9 7; P C D A B 10 11; P B C D A 11 19;
   P A B C D 12 3; P D A B C 13 7; P C D A B 14 11; P B C D A 15 19].

Definition round2 : list (call args) :=
  let P := P F2 K2 in
  [P A B C D 0 3; P D A B C 4 5; P C D A B 8 9; P B C D A 12 13;
   P A B C D 1 3; P D A B C 5 5; P C D A B 9 9; P B C D A 13 13;
   P A B C D 2 3; P D A B C 6 5; P C D A B 10 9; P B C D A 14 13;
   P A B C D 3 3; P D A B C 7 5; P C D A B 11 9; P B C D A 15 13].

Definition round3 : list (call args) :=
  let P := P F3 K3 in
  [P A B C D 0 3; P D A B C 8 9; P C D A B 4 11; P B C D A 12 15;
   P A B C D 2 3; P D A B C 10 9; P C D A B 6 11; P B C D A 14 15;
   P A B C D 1 3; P D A B C 9 9; P C D A B 5 11; P B C D A 13 15;
   P A B C D 3 3; P D A B C 11 9; P C D A B 7 11; P B C D A 15 15].

(** [mbedtls_internal_md4_process] *)
Definition mbedtls_internal_md4_process (state data : list Z) : list Z :=
  let X := words GET_UINT32_LE 4 data in
  addWords 32 state (fold_left (exec (macro X)) (round1 ++ round2 ++ round3) state).

(** RFC 1320, section 3.4: the constants of rounds 2 and 3 are the square roots of 2
    and 3; the order of the words is by columns in round 2 and bit-reversed in
    round 3. *)
Definition rfc_f (i : nat) (x y z : Z) : Z :=
  if Nat.ltb i 16 then Z.lor (Z.land x y) (Z.land (not32 x) z)
  else if Nat.ltb i 32 then Z.lor (Z.lor (Z.land x y) (Z.land x z)) (Z.land y z)
  else Z.lxor (Z.lxor x y) z.
Definition rfc_K (i : nat) : Z :=
  if Nat.ltb i 16 then 0 else if Nat.ltb i 32 then Z.sqrt (2 * 2 ^ 60) else Z.sqrt (3 * 2 ^ 60).
Definition rfc_k (i : nat) : nat :=
  if Nat.ltb i 16 then i
  else if Nat.ltb i 32 then (i mod 4) * 4 + (i - 16) / 4
  else (i mod 2) * 8 + (i / 2 mod 2) * 4 + (i / 4 mod 2) * 2 + (i / 8 mod 2).
Definition rfc_s (i : nat) : Z :=
  nth (i mod 4) (nth (i / 16) [[3; 7; 11; 19]; [3; 5; 9; 13]; [3; 9; 11; 15]] []) 0.

Definition rfc_step (X : list Z) (r : list Z) (i : nat) : list Z :=
  match r with
  | [a; b; c; d] =>
      [d; S32 (u32 (a + rfc_f i b c d + nth (rfc_k i) X 0 + rfc_K i)) (rfc_s i); b; c]
  | _ => r
  end.
Definition rfc_compress (state data : list Z) : list Z :=
  addWords 32 state (fold_left (rfc_step (words GET_UINT32_LE 4 data)) (seq 0 48) state).

Definition F_at (i : nat) : Z -> Z -> Z -> Z :=
  if Nat.ltb i 16 then F1 else if Nat.ltb i 32 then F2 else F3.
Definition K_at (i : nat) : Z := if Nat.ltb i 16 then K1 else if Nat.ltb i 32 then K2 else K3.
Definition args_at (i : nat) : args := mkArgs (F_at i) (K_at i) (Z.of_nat (rfc_k i)) (rfc_s i).

Lemma K_at_rfc i : K_at i = rfc_K i.
Proof. unfold K_at, rfc_K. by destruct (Nat.ltb i 16); [|destruct (Nat.ltb i 32)]. Qed.

Lemma md4_pattern : round1 ++ round2 ++ round3 = unrolled (seq 0 4) (map args_at (seq 0 48)).
Proof. reflexivity. Qed.

Lemma md4_macro_len X q l : length l = 4%nat -> length (macro X q l) = 4%nat.
Proof. do 4 (destruct l as [|? l]; [done|]). by destruct l. Qed.

Lemma md4_iterate X js l : length l = 4%nat ->
  iterate (macro X) (map args_at js) l = fold_left (rfc_step X) js l.
Proof.
  revert l. induction js as [|i js IH]; intros l Hl; [done|]. unfold iterate in *. cbn [map fold_left].
  do 4 (destruct l as [|? l]; [done|]). destruct l; [|done]. rewrite <- IH by done. f_equal.
  cbn [macro args_at F K k s rfc_step]. rewrite K_at_rfc, Nat2Z.id.
  assert (HF : forall x y z, F_at i x y z = rfc_f i x y z)
    by (intros; unfold F_at, rfc_f; by destruct (Nat.ltb i 16); [|destruct (Nat.ltb i 32)]).
  rewrite HF. unfold rotr. cbn [drop take length app Nat.sub]. do 4 f_equal. lia.
Qed.

Lemma md4_process_rfc state data : length state = 4%nat ->
  mbedtls_internal_md4_process state data = rfc_compress state data.
Proof.
  intros Hs. unfold mbedtls_internal_md4_process, rfc_compress. rewrite md4_pattern.
  rewrite unrolled_whole; [by rewrite md4_iterate|apply md4_macro_len|reflexivity|done].
Qed.
End Md4.

(** ** RIPEMD-160 *)

Module Ripemd160.
Local Notation A := 0%nat.
Local Notation B := 1%nat.
Local Notation C := 2%nat.
Local Notation D := 3%nat.
Local Notation E := 4%nat.

(** The arguments of [P( a, b, c, d, e, r, s, f, k )]. *)
Record args := mkArgs { f : Z -> Z -> Z -> Z; r : Z; s : Z; k : Z }.

Definition macro (X : list Z) (q : args) (l : list Z) : list Z :=
  match l with
  | [a; b; c; d; e] =>
      let a := u32 (a + (f q b c d + nth (Z.to_nat (r q)) X 0 + k q)) in
      let a := u32 (S32 a (s q) + e) in
      let c := S32 c 10 in
      [a; b; c; d; e]
  | _ => l
  end.

(** [P2( a, b, c, d, e, r, s, rp, sp )]: one call on [A..E] and one on [Ap..Ep]. *)
Definition P2 (F : Z -> Z -> Z -> Z) (K : Z) (Fp : Z -> Z -> Z -> Z) (Kp : Z)
    (a b c d e : nat) (r s rp sp : Z) : call args * call args :=
  (([a; b; c; d; e], mkArgs F r s K), ([a; b; c; d; e], mkArgs Fp rp sp Kp)).

Definition F1 (x y z : Z) : Z := Z.lxor (Z.lxor x y) z.
Definition F2 (x y z : Z) : Z := Z.lor (Z.land x y) (Z.land (not32 x) z).
Definition F3 (x y z : Z) : Z := Z.lxor (Z.lor x (not32 y)) z.
Definition F4 (x y z : Z) : Z := Z.lor (Z.land x z) (Z.land y (not32 z)).
Definition F5 (x y z : Z) : Z := Z.lxor x (Z.lor y (not32 z)).

Definition round1 : list (call args * call args) :=
  let P2 := P2 F1 0x00000000 F5 0x50A28BE6 in
  [P2 A B C D E 0 11 5 8; P2 E A B C D 1 14 14 9; P2 D E A B C 2 15 7 9;
   P2 C D E A B 3 12 0 11; P2 B C D E A 4 5 9 13; P2 A B C D E 5 8 2 15;
   P2 E A B C D 6 7 11 15; P2 D E A B C 7 9 4 5; P2 C D E A B 8 11 13 7;
   P2 B C D E A 9 13 6 7; P2 A B C D E 10 14 15 8; P2 E A B C D 11 15 8 11;
   P2 D E A B C 12 6 1 14; P2 C D E A B 13 7 10 14; P2 B C D E A 14 9 3 12;
   P2 A B C D E 15 8 12 6].

Definition round2 : list (call args * call args) :=
  let P2 := P2 F2 0x5A827999 F4 0x5C4DD124 in
  [P2 E A B C D 7 7 6 9; P2 D E A B C 4 6 11 13; P2 C D E A B 13 8 3 15;
   P2 B C D E A 1 13 7 7; P2 A B C D E 10 11 0 12; P2 E A B C D 6 9 13 8;
   P2 D E A B C 15 7 5 9; P2 C D E A B 3 15 10 11; P2 B C D E A 12 7 14 7;
   P2 A B C D E 0 12 15 7; P2 E A B C D 9 15 8 12; P2 D E A B C 5 9 12 7;
   P2 C D E A B 2 11 4 6; P2 B C D E A 14 7 9 15; P2 A B C D E 11 13 1 13;
   P2 E A B C D 8 12 2 11].

Definition round3 : list (call args * call args) :=
  let P2 := P2 F3 0x6ED9EBA1 F3 0x6D703EF3 in
  [P2 D E A B C 3 11 15 9; P2 C D E A B 10 13 5 7; P2 B C D E A 14 6 1 15;
   P2 A B C D E 4 7 3 11; P2 E A B C D 9 14 7 8; P2 D E A B C 15 9 14 6;
   P2 C D E A B 8 13 6 6; P2 B C D E A 1 15 9 14; P2 A B C D E 2 14 11 12;
   P2 E A B C D 7 8 8 13; P2 D E A B C 0 13 12 5; P2 C D E A B 6 6 2 14;
   P2 B C D E A 13 5 10 13; P2 A B C D E 11 12 0 13; P2 E A B C D 5 7 4 7;
   P2 D E A B C 12 5 13 5].

Definition round4 : list (call args * call args) :=
  let P2 := P2 F4 0x8F1BBCDC F2 0x7A6D76E9 in
  [P2 C D E A B 1 11 8 15; P2 B C D E A 9 12 6 5; P2 A B C D E 11 14 4 8;
   P2 E A B C D 10 15 1 11; P2 D E A B C 0 14 3 14; P2 C D E A B 8 15 11 14;
   P2 B C D E A 12 9 15 6; P2 A B C D E 4 8 0 14; P2 E A B C D 13 9 5 6;
   P2 D E A B C 3 14 12 9; P2 C D E A B 7 5 2 12; P2 B C D E A 15 6 13 9;
   P2 A B C D E 14 8 9 12; P2 E A B C D 5 6 7 5; P2 D E A B C 6 5 10 15;
   P2 C D E A B 2 12 14 8].

Definition round5 : list (call args * call args) :=
  let P2 := P2 F5 0xA953FD4E F1 0x00000000 in
  [P2 B C D E A 4 9 12 8; P2 A B C D E 0 15 15 5; P2 E A B C D 5 5 10 12;
   P2 D E A B C 9 11 4 9; P2 C D E A B 7 6 1 12; P2 B C D E A 12 8 5 5;
   P2 A B C D E 2 13 8 14; P2 E A B C D 10 12 7 6; P2 D E A B C 14 5 6 8;
   P2 C D E A B 1 12 2 13; P2 B C D E A 3 13 13 6; P2 A B C D E 8 14 14 5;
   P2 E A B C D 11 11 0 15; P2 D E A B C 6 8 3 13; P2 C D E A B 15 5 9 11;
   P2 B C D E A 13 6 11 11].

Definition calls : list (call args * call args) := round1 ++ round2 ++ round3 ++ round4 ++ round5.

(** [mbedtls_internal_ripemd160_process] *)
Definition exec2 (X : list Z) (lr : list Z * list Z) (c : call args * call args) : list Z * list Z :=
  let left := exec (macro X) (fst lr) (fst c) in
  let right := exec (macro X) (snd lr) (snd c) in
  (left, right).

Definition mbedtls_internal_ripemd160_process (state data : list Z) : list Z :=
  let X := words GET_UINT32_LE 4 data in
  let '(l, r) := fold_left (exec2 X) calls (state, state) in
  let v i := nth i state 0 in
  let l' i := nth i l 0 in
  let r' i := nth i r 0 in
  [u32 (v 1%nat + l' C + r' D); u32 (v 2%nat + l' D + r' E); u32 (v 3%nat + l' E + r' A);
   u32 (v 4%nat + l' A + r' B); u32 (v 0%nat + l' B + r' C)].

(** The definition of Dobbertin, Bosselaers and Preneel: the message order of the
    left line starts with the identity and is composed with [rho] in each round, that
    of the right line starts with [pi]; the added constants are the square and cube
    roots of 2, 3, 5 and 7; the shifts depend on the round and the word. *)
Definition rho : list nat := [7; 4; 13; 1; 10; 6; 15; 3; 12; 0; 9; 5; 2; 14; 11; 8]%nat.
Definition order (round : nat) (start : nat -> nat) (i : nat) : nat :=
  Nat.iter round (fun w => nth w rho 0%nat) (start i).
Definition pi (i : nat) : nat := ((9 * i + 5) mod 16)%nat.
Definition shifts : list (list Z) :=
  [[11; 14; 15; 12; 5; 8; 7; 9; 11; 13; 14; 15; 6; 7; 9; 8];
   [12; 13; 11; 15; 6; 9; 9; 7; 12; 15; 11; 13; 7; 8; 7; 7];
   [13; 15; 14; 11; 7; 7; 6; 8; 13; 14; 13; 12; 5; 5; 6; 9];
   [14; 11; 12; 14; 8; 6; 5; 5; 15; 12; 15; 14; 9; 9; 8; 6];
   [15; 12; 13; 13; 9; 5; 8; 6; 14; 11; 12; 11; 8; 6; 5; 5]].
Definition rmd_f (round : nat) : Z -> Z -> Z -> Z := nth round [F1; F2; F3; F4; F5] F1.

(** The integer cube root, by bits. *)
Fixpoint cbrt (bits : nat) (n : Z) : Z :=
  match bits with
  | O => 0
  | S b =>
      let x := 2 * cbrt b (n / 8) in
      if (x + 1) ^ 3 <=? n then x + 1 else x
  end.
Definition rmd_K (round : nat) : Z := nth round (0 :: map (fun p => Z.sqrt (p * 2 ^ 60)) [2; 3; 5; 7]) 0.
Definition rmd_Kp (round : nat) : Z := nth round (map (fun p => cbrt 40 (p * 2 ^ 90)) [2; 3; 5; 7] ++ [0]) 0.

Definition left_at (i : nat) : args :=
  let j := (i / 16)%nat in let w := order j id (i mod 16) in
  mkArgs (rmd_f j) (Z.of_nat w) (nth w (nth j shifts []) 0) (rmd_K j).
Definition right_at (i : nat) : args :=
  let j := (i / 16)%nat in let w := order j pi (i mod 16) in
  mkArgs (rmd_f (4 - j)) (Z.of_nat w) (nth w (nth j shifts []) 0) (rmd_Kp j).

(** One line: [T := rol_s(A + f(B,C,D) + X[r] + K) + E; A := E; E := D;
    D := rol_10(C); C := B; B := T]. *)
Definition rmd_step (X : list Z) (l : list Z) (q : args) : list Z :=
  match l with
  | [a; b; c; d; e] =>
      [e; u32 (S32 (u32 (a + f q b c d + nth (Z.to_nat (r q)) X 0 + k q)) (s q) + e); b; S32 c 10; d]
  | _ => l
  end.
Definition rmd_compress (state data : list Z) : list Z :=
  let X := words GET_UINT32_LE 4 data in
  let l := fold_left (rmd_step X) (map left_at (seq 0 80)) state in
  let r := fold_left (rmd_step X) (map right_at (seq 0 80)) state in
  map (fun i => u32 (nth ((i + 1) mod 5) state 0 + nth ((i + 2) mod 5) l 0 + nth ((i + 3) mod 5) r 0)) (seq 0 5).

Lemma rmd_pattern :
  map fst calls = unrolled (seq 0 5) (map left_at (seq 0 80)) /\
  map snd calls = unrolled (seq 0 5) (map right_at (seq 0 80)).
Proof. by vm_compute. Qed.

Lemma rmd_lines X cs lr :
  fold_left (exec2 X) cs lr
  = (fold_left (exec (macro X)) (map fst cs) (fst lr), fold_left (exec (macro X)) (map snd cs) (snd lr)).
Proof. revert lr. induction cs as [|c cs IH]; intros [l r']; [done|]. cbn [fold_left map]. by rewrite IH. Qed.

Lemma rmd_macro_len X q l : length l = 5%nat -> length (macro X q l) = 5%nat.
Proof. do 5 (destruct l as [|? l]; [done|]). by destruct l. Qed.

Lemma rmd_iterate X qs l : length l = 5%nat -> iterate (macro X) qs l = fold_left (rmd_step X) qs l.
Proof.
  revert l. induction qs as [|q qs IH]; intros l Hl; [done|]. unfold iterate in *. cbn [fold_left].
  do 5 (destruct l as [|? l]; [done|]). destruct l; [|done]. rewrite <- IH by done. f_equal.
  cbn [macro rmd_step]. unfold rotr. cbn [drop take length app Nat.sub]. do 5 f_equal. f_equal. lia.
Qed.

Lemma rmd_process state data : length state = 5%nat ->
  mbedtls_internal_ripemd160_process state data = rmd_compress state data.
Proof.
  intros Hs. unfold mbedtls_internal_ripemd160_process, rmd_compress. rewrite rmd_lines.
  destruct rmd_pattern as [-> ->]. cbn [fst snd].
  rewrite !unrolled_whole by (apply rmd_macro_len || reflexivity || done). by rewrite !rmd_iterate.
Qed.
End Ripemd160.

(** ** SHA-1 *)

Module Sha1.
Local Notation A := 0%nat.
Local Notation B := 1%nat.
Local Notation C := 2%nat.
Local Notation D := 3%nat.
Local Notation E := 4%nat.

(** The last argument of [P( a, b, c, d, e, x )]: a word of the block, or [R(t)], which
    replaces a word of the circular array and has its new value. *)
Inductive source := W (t : Z) | R (t : Z).

Definition fetch (x : source) (w : list Z) : Z * list Z :=
  match x with
  | W t => (nth (Z.to_nat t) w 0, w)
  | R t =>
      let at_ i := nth (Z.to_nat (Z.land i 15)) w 0 in
      let temp := Z.lxor (Z.lxor (Z.lxor (at_ (t - 3)) (at_ (t - 8))) (at_ (t - 14))) (at_ t) in
      (S32 temp 1, <[Z.to_nat (Z.land t 15) := S32 temp 1]> w)
  end.

(** The arguments of [P], with the function and the constant in force. *)
Record args (X : Type) := mkArgs { F : Z -> Z -> Z -> Z; K : Z; x : X }.
Arguments mkArgs {X} F K x.
Arguments F {X} a.
Arguments K {X} a.
Arguments x {X} a.

Definition P (F : Z -> Z -> Z -> Z) (K : Z) (a b c d e : nat) (x : source) : call (args source) :=
  ([a; b; c; d; e], mkArgs F K x).

Definition macro (q : args Z) (l : list Z) : list Z :=
  match l with
  | [a; b; c; d; e] =>
      let e := u32 (e + (S32 a 5 + F q b c d + K q + x q)) in
      let b := S32 b 30 in
      [a; b; c; d; e]
  | _ => l
  end.

(** A call on the variables and the array. *)
Definition step (rw : list Z * list Z) (c : call (args source)) : list Z * list Z :=
  let '(v, w) := fetch (x (snd c)) (snd rw) in
  (exec macro (fst rw) (fst c, mkArgs (F (snd c)) (K (snd c)) v), w).

Definition F1 (x y z : Z) : Z := Z.lxor z (Z.land x (Z.lxor y z)).
Definition F2 (x y z : Z) : Z := Z.lxor (Z.lxor x y) z.
Definition F3 (x y z : Z) : Z := Z.lor (Z.land x y) (Z.land z (Z.lor x y)).
Definition F4 (x y z : Z) : Z := Z.lxor (Z.lxor x y) z.
Definition K1 : Z := 0x5A827999.
Definition K2 : Z := 0x6ED9EBA1.
Definition K3 : Z := 0x8F1BBCDC.
Definition K4 : Z := 0xCA62C1D6.

Definition round1 : list (call (args source)) :=
  let P := P F1 K1 in
  [P A B C D E (W 0); P E A B C D (W 1); P D E A B C (W 2); P C D E A B (W 3);
   P B C D E A (W 4); P A B C D E (W 5); P E A B C D (W 6); P D E A B C (W 7);
   P C D E A B (W 8); P B C D E A (W 9); P A B C D E (W 10); P E A B C D (W 11);
   P D E A B C (W 12); P C D E A B (W 13); P B C D E A (W 14); P A B C D E (W 15);
   P E A B C D (R 16); P D E A B C (R 17); P C D E A B (R 18); P B C D E A (R 19)].

Definition round2 : list (call (args source)) :=
  let P := P F2 K2 in
  [P A B C D E (R 20); P E A B C D (R 21); P D E A B C (R 22); P C D E A B (R 23);
   P B C D E A (R 24); P A B C D E (R 25); P E A B C D (R 26); P D E A B C (R 27);
   P C D E A B (R 28); P B C D E A (R 29); P A B C D E (R 30); P E A B C D (R 31);
   P D E A B C (R 32); P C D E A B (R 33); P B C D E A (R 34); P A B C D E (R 35);
   P E A B C D (R 36); P D E A B C (R 37); P C D E A B (R 38); P B C D E A (R 39)].

Definition round3 : list (call (args source)) :=
  let P := P F3 K3 in
  [P A B C D E (R 40); P E A B C D (R 41); P D E A B C (R 42); P C D E A B (R 43);
   P B C D E A (R 44); P A B C D E (R 45); P E A B C D (R 46); P D E A B C (R 47);
   P C D E A B (R 48); P B C D E A (R 49); P A B C D E (R 50); P E A B C D (R 51);
   P D E A B C (R 52); P C D E A B (R 53); P B C D E A (R 54); P A B C D E (R 55);
   P E A B C D (R 56); P D E A B C (R 57); P C D E A B (R 58); P B C D E A (R 59)].

Definition round4 : list (call (args source)) :=
  let P := P F4 K4 in
  [P A B C D E (R 60); P E A B C D (R 61); P D E A B C (R 62); P C D E A B (R 63);
   P B C D E A (R 64); P A B C D E (R 65); P E A B C D (R 66); P D E A B C (R 67);
   P C D E A B (R 68); P B C D E A (R 69); P A B C D E (R 70); P E A B C D (R 71);
   P D E A B C (R 72); P C D E A B (R 73); P B C D E A (R 74); P A B C D E (R 75);
   P E A B C D (R 76); P D E A B C (R 77); P C D E A B (R 78); P B C D E A (R 79)].

(** [mbedtls_internal_sha1_process] *)
Definition mbedtls_internal_sha1_process (state data : list Z) : list Z :=
  let w := words GET_UINT32_BE 4 data in
  addWords 32 state (fst (fold_left step (round1 ++ round2 ++ round3 ++ round4) (state, w))).

(** FIPS 180-4, section 6.1.2: the message schedule, the functions (section 4.1.1)
    and the constants (the square roots of 2, 3, 5 and 10). *)
Definition extend (w : list Z) : list Z :=
  let t := length w in
  let at_ i := nth (t - i) w 0 in
  w ++ [S32 (Z.lxor (Z.lxor (Z.lxor (at_ 3%nat) (at_ 8%nat)) (at_ 14%nat)) (at_ 16%nat)) 1].
Definition schedule (w : list Z) : list Z := Nat.iter 64 extend w.

Definition fips_f (t : nat) (x y z : Z) : Z :=
  if Nat.ltb t 20 then Z.lxor (Z.land x y) (Z.land (Z.lnot x) z)
  else if Nat.ltb t 40 then Z.lxor (Z.lxor x y) z
  else if Nat.ltb t 60 then Z.lxor (Z.lxor (Z.land x y) (Z.land x z)) (Z.land y z)
  else Z.lxor (Z.lxor x y) z.
Definition fips_K (t : nat) : Z := Z.sqrt (nth (t / 20) [2; 3; 5; 10] 0 * 2 ^ 60).

Definition fips_step (w : list Z) (l : list Z) (t : nat) : list Z :=
  match l with
  | [a; b; c; d; e] => [u32 (S32 a 5 + fips_f t b c d + e + fips_K t + nth t w 0); a; S32 b 30; c; d]
  | _ => l
  end.
Definition fips_compress (state data : list Z) : list Z :=
  addWords 32 state (fold_left (fips_step (schedule (words GET_UINT32_BE 4 data))) (seq 0 80) state).

Definition F_at (t : nat) : Z -> Z -> Z -> Z :=
  if Nat.ltb t 20 then F1 else if Nat.ltb t 40 then F2 else if Nat.ltb t 60 then F3 else F4.
Definition source_at (t : nat) : source := if Nat.ltb t 16 then W (Z.of_nat t) else R (Z.of_nat t).
Definition args_at (t : nat) : args source := mkArgs (F_at t) (fips_K t) (source_at t).

Lemma F_at_fips t x y z : F_at t x y z = fips_f t x y z.
Proof.
  unfold F_at, fips_f. destruct (Nat.ltb t 20); [apply choose_forms|].
  destruct (Nat.ltb t 40); [done|]. destruct (Nat.ltb t 60); [apply majority_forms|done].
Qed.

Lemma sha1_pattern : round1 ++ round2 ++ round3 ++ round4 = unrolled (seq 0 5) (map args_at (seq 0 80)).
Proof. reflexivity. Qed.

(** The words that the calls see, one after the other. *)
Fixpoint fetched (qs : list (args source)) (w : list Z) : list (args Z) :=
  match qs with
  | [] => []
  | q :: qs => let '(v, w) := fetch (x q) w in mkArgs (F q) (K q) v :: fetched qs w
  end.

Lemma step_fetched qs vars r w :
  fst (fold_left step (unrolled vars qs) (r, w)) = fold_left (exec macro) (unrolled vars (fetched qs w)) r.
Proof.
  revert vars r w. induction qs as [|q qs IH]; intros vars r w; [done|].
  cbn [unrolled fold_left fetched]. unfold step at 2. cbn [fst snd].
  destruct (fetch (x q) w) as [v w']. cbn [unrolled fold_left]. apply IH.
Qed.

(** The array holds the last 16 words of the schedule. *)
Definition circular (t : nat) (l w : list Z) : Prop :=
  length l = t /\ length w = 16%nat /\
  forall i, (t - 16 <= i < t)%nat -> nth (i mod 16) w 0 = nth i l 0.

Lemma land_15 i : 0 <= i -> Z.to_nat (Z.land i 15) = (Z.to_nat i mod 16)%nat.
Proof.
  intros Hi. change 15 with (Z.ones 4). rewrite Z.land_ones by lia. change (2 ^ 4) with 16.
  rewrite Z2Nat.inj_mod by lia. done.
Qed.

Lemma circular_step t l w : (16 <= t)%nat -> circular t l w ->
  fetch (R (Z.of_nat t)) w = (nth t (extend l) 0, <[(t mod 16)%nat := nth t (extend l) 0]> w) /\
  circular (S t) (extend l) (snd (fetch (R (Z.of_nat t)) w)).
Proof.
  intros Ht (Hl & Hw & Hc).
  assert (E : fetch (R (Z.of_nat t)) w = (nth t (extend l) 0, <[(t mod 16)%nat := nth t (extend l) 0]> w)).
  { unfold fetch. rewrite !land_15 by lia.
    replace (Z.to_nat (Z.of_nat t - 3)) with (t - 3)%nat by lia.
    replace (Z.to_nat (Z.of_nat t - 8)) with (t - 8)%nat by lia.
    replace (Z.to_nat (Z.of_nat t - 14)) with (t - 14)%nat by lia. rewrite Nat2Z.id.
    assert (Hmod : (t mod 16 = (t - 16) mod 16)%nat).
    { replace t with (t - 16 + 1 * 16)%nat at 1 by lia. by rewrite Nat.Div0.mod_add. }
    assert (H16 : nth (t mod 16) w 0 = nth (t - 16) l 0) by (rewrite Hmod; apply Hc; lia).
    rewrite H16, !Hc by lia. unfold extend. rewrite Hl.
    rewrite (app_nth2 l) by lia. by rewrite Hl, Nat.sub_diag. }
  split; [done|]. rewrite E. cbn [snd]. split_and!.
  - unfold extend. rewrite length_app. cbn [length]. lia.
  - by rewrite length_insert.
  - intros i Hi. assert (Hlt : (t mod 16 < 16)%nat) by (apply Nat.mod_upper_bound; lia).
    destruct (decide (i = t)) as [->|Hne].
    + rewrite nth_lookup, list_lookup_insert_eq by lia. done.
    + assert (Hm : (i mod 16 <> t mod 16)%nat).
      { intros Hm. pose proof (Nat.div_mod_eq i 16). pose proof (Nat.div_mod_eq t 16). lia. }
      rewrite nth_lookup, list_lookup_insert_ne by done. rewrite <- nth_lookup, Hc by lia.
      unfold extend. by rewrite app_nth1 by lia.
Qed.

Lemma extend_prefix n l i : (i < length l)%nat -> nth i (Nat.iter n extend l) 0 = nth i l 0 /\
  (length l <= length (Nat.iter n extend l))%nat.
Proof.
  intros Hi. induction n as [|n [IH1 IH2]]; [done|]. rewrite Nat.iter_succ.
  set (l' := Nat.iter n extend l) in *. unfold extend. rewrite app_nth1 by lia.
  rewrite length_app. split; [done|lia].
Qed.

Lemma fetched_R n t l w m : (16 <= t)%nat -> (n <= m)%nat -> circular t l w ->
  fetched (map args_at (seq t n)) w
  = map (fun i => mkArgs (F_at i) (fips_K i) (nth i (Nat.iter m extend l) 0)) (seq t n).
Proof.
  revert t l w m. induction n as [|n IH]; intros t l w m Ht Hm Hc; [done|]. cbn [seq map fetched].
  destruct (circular_step t l w Ht Hc) as [E Hc']. destruct m as [|m]; [lia|].
  assert (Hs : x (args_at t) = R (Z.of_nat t)).
  { unfold args_at, source_at. cbn [x]. destruct (Nat.ltb_spec t 16); [lia|done]. }
  rewrite Hs. rewrite E in Hc' |- *. cbn [snd] in Hc'. rewrite Nat.iter_succ_r. f_equal.
  - cbn [args_at F K]. f_equal. symmetry. apply extend_prefix. destruct Hc' as [-> _]. lia.
  - apply IH; [lia|lia|done].
Qed.

Lemma fetched_W w qs : fetched (map args_at (seq 0 16) ++ qs) w
  = map (fun i => mkArgs (F_at i) (fips_K i) (nth i w 0)) (seq 0 16) ++ fetched qs w.
Proof. reflexivity. Qed.

Lemma fetched_schedule w : length w = 16%nat ->
  fetched (map args_at (seq 0 80)) w
  = map (fun i => mkArgs (F_at i) (fips_K i) (nth i (schedule w) 0)) (seq 0 80).
Proof.
  intros Hw. change 80%nat with (16 + 64)%nat. rewrite seq_app, !map_app, fetched_W. f_equal.
  - apply map_ext_in. intros i Hi%in_seq. f_equal. symmetry. apply extend_prefix. lia.
  - apply (fetched_R 64 16 w w 64); [lia|lia|]. split_and!; [done|done|].
    intros i Hi. by rewrite Nat.mod_small by lia.
Qed.

Lemma sha1_macro_len q l : length l = 5%nat -> length (macro q l) = 5%nat.
Proof. do 5 (destruct l as [|? l]; [done|]). by destruct l. Qed.

Lemma sha1_iterate w js l : length l = 5%nat ->
  iterate macro (map (fun i => mkArgs (F_at i) (fips_K i) (nth i w 0)) js) l = fold_left (fips_step w) js l.
Proof.
  revert l. induction js as [|i js IH]; intros l Hl; [done|]. unfold iterate in *. cbn [map fold_left].
  do 5 (destruct l as [|? l]; [done|]). destruct l; [|done]. rewrite <- IH by done. f_equal.
  cbn [macro F K x fips_step]. rewrite F_at_fips. unfold rotr. cbn [drop take length app Nat.sub].
  do 2 f_equal. lia.
Qed.

Lemma length_words get size data : length (words get size data) = 16%nat.
Proof. done. Qed.

Lemma sha1_process state data : length state = 5%nat ->
  mbedtls_internal_sha1_process state data = fips_compress state data.
Proof.
  intros Hs. unfold mbedtls_internal_sha1_process, fips_compress.
  rewrite sha1_pattern, step_fetched, fetched_schedule by done.
  rewrite unrolled_whole; [by rewrite sha1_iterate|apply sha1_macro_len|reflexivity|done].
Qed.
End Sha1.

(** ** SHA-2: what [sha256.c] and [sha512.c] share *)

Module Sha2.
Section sha2.
(** The word size, and the macros [S0] to [S3] of the file. *)
Context (bits : Z) (S0 S1 S2 S3 : Z -> Z).

Definition F0 (x y z : Z) : Z := Z.lor (Z.land x y) (Z.land z (Z.lor x y)).
Definition F1 (x y z : Z) : Z := Z.lxor z (Z.land x (Z.lxor y z)).

(** [P(a,b,c,d,e,f,g,h,x,K)] *)
Definition macro (q : Z * Z) (l : list Z) : list Z :=
  match l with
  | [a; b; c; d; e; f; g; h] =>
      let '(x, K) := q in
      let temp1 := wrap bits (h + S3 e + F1 e f g + K + x) in
      let temp2 := wrap bits (S2 a + F0 a b c) in
      let d := wrap bits (d + temp1) in
      let h := wrap bits (temp1 + temp2) in
      [a; b; c; d; e; f; g; h]
  | _ => l
  end.

(** [W[t] = S1(W[t - 2]) + W[t - 7] + S0(W[t - 15]) + W[t - 16]] on the array [w] *)
Definition R (t : nat) (w : list Z) : list Z :=
  let at_ i := nth (t - i) w 0 in
  <[t := wrap bits (S1 (at_ 2%nat) + at_ 7%nat + S0 (at_ 15%nat) + at_ 16%nat)]> w.

(** The eight calls in the body of a loop. *)
Definition turn (K w : list Z) (i : nat) : list (call (Z * Z)) :=
  let q j := (nth (i + j) w 0, nth (i + j) K 0) in
  [([0; 1; 2; 3; 4; 5; 6; 7], q 0); ([7; 0; 1; 2; 3; 4; 5; 6], q 1);
   ([6; 7; 0; 1; 2; 3; 4; 5], q 2); ([5; 6; 7; 0; 1; 2; 3; 4], q 3);
   ([4; 5; 6; 7; 0; 1; 2; 3], q 4); ([3; 4; 5; 6; 7; 0; 1; 2], q 5);
   ([2; 3; 4; 5; 6; 7; 0; 1], q 6); ([1; 2; 3; 4; 5; 6; 7; 0], q 7)]%nat.

(** FIPS 180-4, sections 6.2.2 and 6.4.2. *)
Definition extend (w : list Z) : list Z :=
  let t := length w in
  let at_ i := nth (t - i) w 0 in
  w ++ [wrap bits (S1 (at_ 2%nat) + at_ 7%nat + S0 (at_ 15%nat) + at_ 16%nat)].
Definition Ch (x y z : Z) : Z := Z.lxor (Z.land x y) (Z.land (Z.lnot x) z).
Definition Maj (x y z : Z) : Z := Z.lxor (Z.lxor (Z.land x y) (Z.land x z)) (Z.land y z).
Definition fips_step (K w : list Z) (l : list Z) (t : nat) : list Z :=
  match l with
  | [a; b; c; d; e; f; g; h] =>
      let T1 := wrap bits (h + S3 e + Ch e f g + nth t K 0 + nth t w 0) in
      let T2 := wrap bits (S2 a + Maj a b c) in
      [wrap bits (T1 + T2); a; b; c; wrap bits (d + T1); e; f; g]
  | _ => l
  end.

Lemma macro_fips K w js l : length l = 8%nat ->
  iterate macro (map (fun i => (nth i w 0, nth i K 0)) js) l = fold_left (fips_step K w) js l.
Proof.
  revert l. induction js as [|i js IH]; intros l Hl; [done|]. unfold iterate in *. cbn [map fold_left].
  do 8 (destruct l as [|? l]; [done|]). destruct l; [|done]. rewrite <- IH by done. f_equal.
  cbn [macro fips_step]. unfold rotr. cbn [drop take length app Nat.sub]. unfold F0, F1, Ch, Maj.
  by rewrite choose_forms, majority_forms.
Qed.

Lemma sha2_macro_len q l : length l = 8%nat -> length (macro q l) = 8%nat.
Proof. do 8 (destruct l as [|? l]; [done|]). destruct l, q; done. Qed.

Lemma turn_unrolled K w i :
  turn K w i = unrolled (seq 0 8) (map (fun i => (nth i w 0, nth i K 0)) (seq i 8)).
Proof.
  unfold turn. cbn [seq map]. cbn [unrolled].
  repeat match goal with |- context [(i + ?j)%nat] => replace (i + j)%nat with (Nat.iter j S i) by (cbn; lia) end.
  reflexivity.
Qed.

(** A loop with [n] turns starting at [i]. *)
Lemma turns_fips K w n i l : length l = 8%nat ->
  fold_left (exec macro) (concat (map (fun j => turn K w (i + 8 * j)%nat) (seq 0 n))) l
  = fold_left (fips_step K w) (seq i (8 * n)) l /\
  length (fold_left (fips_step K w) (seq i (8 * n)) l) = 8%nat.
Proof.
  assert (Hlen : forall js l, length l = 8%nat -> length (fold_left (fips_step K w) js l) = 8%nat).
  { induction js as [|j js IH]; intros l' Hl; [done|]. cbn [fold_left]. apply IH.
    do 8 (destruct l' as [|? l']; [done|]). by destruct l'. }
  intros Hl. split; [|by apply Hlen]. induction n as [|n IH]; [done|].
  rewrite seq_S, map_app, concat_app, fold_left_app, IH. cbn [map concat Nat.add]. rewrite app_nil_r.
  replace (8 * S n)%nat with (8 * n + 8)%nat by lia. rewrite seq_app, fold_left_app.
  rewrite turn_unrolled, unrolled_whole; [by apply macro_fips, Hlen|apply sha2_macro_len|reflexivity|by apply Hlen].
Qed.

(** Filling the array in order computes the schedule. *)
Lemma extend_len n w : length (Nat.iter n extend w) = (length w + n)%nat.
Proof.
  induction n as [|n IH]; [cbn; lia|]. rewrite Nat.iter_succ. unfold extend at 1.
  rewrite length_app, IH. cbn [length]. lia.
Qed.

Lemma extend_keeps n w i : (i < length w)%nat -> nth i (Nat.iter n extend w) 0 = nth i w 0.
Proof.
  intros Hi. induction n as [|n IH]; [done|]. rewrite Nat.iter_succ, <- IH.
  pose proof (extend_len n w) as Hl. set (v := Nat.iter n extend w) in *. unfold extend.
  apply app_nth1. lia.
Qed.

Lemma fill_schedule n (w tail : list Z) :
  (16 <= length w)%nat -> (n <= length tail)%nat ->
  fold_left (fun w t => R t w) (seq (length w) n) (w ++ tail) = Nat.iter n extend w ++ drop n tail.
Proof.
  intros Hw. induction n as [|n IH]; intros Ht; [done|]. rewrite seq_S, fold_left_app, IH by lia.
  cbn [fold_left]. rewrite Nat.iter_succ. pose proof (extend_len n w) as Hl.
  set (v := Nat.iter n extend w) in *. unfold R, extend. rewrite <- Hl, !app_nth1 by lia.
  destruct (drop n tail) as [|y ys] eqn:E.
  { apply (f_equal length) in E. rewrite length_drop in E. cbn in E. lia. }
  rewrite insert_app_r_alt, Nat.sub_diag by lia. cbn. rewrite <- app_assoc. cbn [app]. do 2 f_equal.
  replace (S n) with (n + 1)%nat by lia. by rewrite <- drop_drop, E.
Qed.
End sha2.

(** The constants are the first bits of the fractional parts of roots of primes. *)
Definition is_prime (p : nat) : bool :=
  forallb (fun d => negb (Nat.eqb (p mod d) 0)) (seq 2 (p - 2)).
Definition primes : list Z := map Z.of_nat (filter (fun p => is_prime p) (seq 2 410)).

(** [c] is [floor(2^bits * frac(p^(1/k)))]. *)
Definition frac_root (k bits p c : Z) : Prop :=
  exists n, 0 <= c < 2 ^ bits /\
    (n * 2 ^ bits + c) ^ k <= p * 2 ^ (bits * k) < (n * 2 ^ bits + c + 1) ^ k.

Definition frac_rootb (k bits p c : Z) : bool :=
  existsb (fun n => (0 <=? c) && (c <? 2 ^ bits)
    && ((Z.of_nat n * 2 ^ bits + c) ^ k <=? p * 2 ^ (bits * k))
    && (p * 2 ^ (bits * k) <? (Z.of_nat n * 2 ^ bits + c + 1) ^ k)) (seq 0 25).

Lemma frac_rootb_ok k bits p c : frac_rootb k bits p c = true -> frac_root k bits p c.
Proof.
  unfold frac_rootb, frac_root. intros (n & _ & H)%existsb_exists. exists (Z.of_nat n).
  repeat (apply andb_prop in H as [H ?]). rewrite ?Z.leb_le, ?Z.ltb_lt in *. lia.
Qed.

Lemma frac_roots_ok k bits ps cs :
  forallb (fun pc => frac_rootb k bits (fst pc) (snd pc)) (zip ps cs) = true /\ length ps = length cs ->
  Forall2 (frac_root k bits) ps cs.
Proof.
  intros [H Hl]. apply Forall2_same_length_lookup. split; [done|]. intros i p c Hp Hc.
  apply frac_rootb_ok. rewrite forallb_forall in H. apply (H (p, c)).
  apply list_elem_of_In, list_elem_of_lookup_2 with i. by rewrite lookup_zip_with, Hp, Hc.
Qed.
End Sha2.

(** ** SHA-256 *)

Module Sha256.

(** [SHR], [ROTR], [S0] to [S3] *)
Definition SHR (x n : Z) : Z := Z.shiftr (Z.land x ALL32) n.
Definition ROTR (x n : Z) : Z := Z.lor (SHR x n) (u32 (Z.shiftl x (32 - n))).
Definition S0 (x : Z) : Z := Z.lxor (Z.lxor (ROTR x 7) (ROTR x 18)) (SHR x 3).
Definition S1 (x : Z) : Z := Z.lxor (Z.lxor (ROTR x 17) (ROTR x 19)) (SHR x 10).
Definition S2 (x : Z) : Z := Z.lxor (Z.lxor (ROTR x 2) (ROTR x 13)) (ROTR x 22).
Definition S3 (x : Z) : Z := Z.lxor (Z.lxor (ROTR x 6) (ROTR x 11)) (ROTR x 25).

Definition K : list Z :=
  [0x428A2F98; 0x71374491; 0xB5C0FBCF; 0xE9B5DBA5; 0x3956C25B; 0x59F111F1;
   0x923F82A4; 0xAB1C5ED5; 0xD807AA98; 0x12835B01; 0x243185BE; 0x550C7DC3;
   0x72BE5D74; 0x80DEB1FE; 0x9BDC06A7; 0xC19BF174; 0xE49B69C1; 0xEFBE4786;
   0x0FC19DC6; 0x240CA1CC; 0x2DE92C6F; 0x4A7484AA; 0x5CB0A9DC; 0x76F988DA;
   0x983E5152; 0xA831C66D; 0xB00327C8; 0xBF597FC7; 0xC6E00BF3; 0xD5A79147;
   0x06CA6351; 0x14292967; 0x27B70A85; 0x2E1B2138; 0x4D2C6DFC; 0x53380D13;
   0x650A7354; 0x766A0ABB; 0x81C2C92E; 0x92722C85; 0xA2BFE8A1; 0xA81A664B;
   0xC24B8B70; 0xC76C51A3; 0xD192E819; 0xD6990624; 0xF40E3585; 0x106AA070;
   0x19A4C116; 0x1E376C08; 0x2748774C; 0x34B0BCB5; 0x391C0CB3; 0x4ED8AA4A;
   0x5B9CCA4F; 0x682E6FF3; 0x748F82EE; 0x78A5636F; 0x84C87814; 0x8CC70208;
   0x90BEFFFA; 0xA4506CEB; 0xBEF9A3F7; 0xC67178F2].

(** The [j]-th call in the body of the second loop, whose argument [R(i+j)] first
    computes a word of the array. *)
Definition callR (i : nat) (lw : list Z * list Z) (j : nat) : list Z * list Z :=
  let w := Sha2.R 32 S0 S1 (i + j) (snd lw) in
  (exec (Sha2.macro 32 S2 S3) (fst lw) (nth j (Sha2.turn K w i) ([], (0, 0))), w).

(** [mbedtls_internal_sha256_process] (not [MBEDTLS_SHA256_SMALLER]) *)

Definition mbedtls_internal_sha256_process (state data : list Z) : list Z :=
  let w := words GET_UINT32_BE 4 data ++ replicate 48 0 in
  let l := fold_left (exec (Sha2.macro 32 S2 S3)) (concat (map (Sha2.turn K w) [0; 8]%nat)) state in
  let '(l, w) := fold_left (fun lw i => fold_left (callR i) (seq 0 8) lw) [16; 24; 32; 40; 48; 56]%nat (l, w) in
  addWords 32 state l.

Definition fips_compress (state data : list Z) : list Z :=
  let w := Nat.iter 48 (Sha2.extend 32 S0 S1) (words GET_UINT32_BE 4 data) in
  addWords 32 state (fold_left (Sha2.fips_step 32 S2 S3 K w) (seq 0 64) state).

(** The call at [t] when the array already holds the whole schedule. *)
Definition vars_at (j : nat) : list nat := fst (nth j (Sha2.turn [] [] 0) ([], (0, 0))).
Definition call_at (w : list Z) (t : nat) : call (Z * Z) := (vars_at (t mod 8), (nth t w 0, nth t K 0)).

Lemma turn_nth w i j : (j < 8)%nat ->
  nth j (Sha2.turn K w i) ([], (0, 0)) = (vars_at j, (nth (i + j) w 0, nth (i + j) K 0)).
Proof. intros Hj. do 8 (destruct j as [|j]; [done|]). lia. Qed.

(** [w ++ tail] with [w] computed: the next call computes one word more and sees it. *)
Lemma callR_step w y tail l i j m : (16 <= length w)%nat -> length w = (i + j)%nat -> (j < 8)%nat ->
  (i mod 8 = 0)%nat ->
  callR i (l, w ++ y :: tail) j
  = (exec (Sha2.macro 32 S2 S3) l (call_at (Nat.iter (S m) (Sha2.extend 32 S0 S1) w) (i + j)),
     Sha2.extend 32 S0 S1 w ++ tail).
Proof.
  intros Hw Hl Hj Hi. unfold callR. cbn [fst snd].
  pose proof (Sha2.fill_schedule 32 S0 S1 1 w (y :: tail) Hw ltac:(cbn; lia)) as Hf.
  cbn [seq fold_left Nat.iter nat_rect drop] in Hf. rewrite <- Hl, Hf. f_equal. f_equal.
  rewrite turn_nth by done. unfold call_at. rewrite <- Hl.
  assert (Hm : (length w mod 8 = j)%nat).
  { rewrite Hl, Nat.Div0.add_mod, Hi. rewrite (Nat.mod_small j) by lia. by apply Nat.mod_small. }
  rewrite Hm. do 2 f_equal. rewrite app_nth1 by (unfold Sha2.extend; rewrite length_app; cbn [length]; lia).
  rewrite Nat.iter_succ_r, Sha2.extend_keeps; [done|]. unfold Sha2.extend. rewrite length_app. cbn [length]. lia.
Qed.

Lemma callR_turn n i w tail l m : (16 <= length w)%nat -> length w = i -> (i mod 8 = 0)%nat ->
  (n <= 8)%nat -> (n <= length tail)%nat -> (n <= m)%nat ->
  fold_left (callR i) (seq 0 n) (l, w ++ tail)
  = (fold_left (exec (Sha2.macro 32 S2 S3)) (map (call_at (Nat.iter m (Sha2.extend 32 S0 S1) w)) (seq i n)) l,
     Nat.iter n (Sha2.extend 32 S0 S1) w ++ drop n tail).
Proof.
  intros Hw Hl Hi. revert m. induction n as [|n IH]; intros m Hn Ht Hm; [done|].
  rewrite !seq_S, map_app, !fold_left_app, (IH m) by lia. cbn [fold_left map Nat.add].
  destruct (drop n tail) as [|y ys] eqn:E.
  { apply (f_equal length) in E. rewrite length_drop in E. cbn in E. lia. }
  rewrite (callR_step _ y ys _ i n (m - n - 1)).
  - rewrite <- Nat.iter_succ. f_equal.
    + f_equal. f_equal. rewrite <- Nat.iter_add. f_equal. lia.
    + f_equal. replace (S n) with (n + 1)%nat by lia. by rewrite <- drop_drop, E.
  - rewrite Sha2.extend_len. lia.
  - rewrite Sha2.extend_len. lia.
  - lia.
  - done.
Qed.

(** All turns of the second loop. *)
Lemma callR_turns k n w l tail m : (16 <= length w)%nat -> length w = (8 * k)%nat ->
  (8 * n <= length tail)%nat -> (8 * n <= m)%nat ->
  fold_left (fun lw i => fold_left (callR i) (seq 0 8) lw) (map (fun j => 8 * j)%nat (seq k n)) (l, w ++ tail)
  = (fold_left (exec (Sha2.macro 32 S2 S3)) (map (call_at (Nat.iter m (Sha2.extend 32 S0 S1) w)) (seq (8 * k) (8 * n))) l,
     Nat.iter (8 * n) (Sha2.extend 32 S0 S1) w ++ drop (8 * n) tail).
Proof.
  revert k w l tail m. induction n as [|n IH]; intros k w l tail m Hw Hl Ht Hm.
  { cbn [seq map fold_left]. by rewrite Nat.mul_0_r. }
  rewrite <- (cons_seq n k), map_cons, fold_left_cons. assert (Hk : ((8 * k) mod 8 = 0)%nat) by (rewrite Nat.mul_comm; apply Nat.Div0.mod_mul).
  rewrite (callR_turn 8 (8 * k) w tail l m Hw Hl Hk) by lia.
  rewrite (IH (S k) _ _ _ (m - 8)%nat).
  - replace (8 * S n)%nat with (8 + 8 * n)%nat by lia. rewrite seq_app, map_app, fold_left_app.
    rewrite <- !Nat.iter_add, drop_drop. replace (8 * n + 8)%nat with (8 + 8 * n)%nat by lia. f_equal.
    replace (8 * k + 8)%nat with (8 * S k)%nat by lia. replace (m - 8 + 8)%nat with m by lia. done.
  - rewrite Sha2.extend_len. lia.
  - rewrite Sha2.extend_len. lia.
  - rewrite length_drop. lia.
  - lia.
Qed.

Lemma sha256_process state data : length state = 8%nat ->
  mbedtls_internal_sha256_process state data = fips_compress state data.
Proof.
  intros Hs. unfold mbedtls_internal_sha256_process, fips_compress. set (w := words GET_UINT32_BE 4 data).
  assert (Hw : length w = 16%nat) by done.
  change [16; 24; 32; 40; 48; 56]%nat with (map (fun j => 8 * j)%nat (seq 2 6)).
  rewrite (callR_turns 2 6 w _ (replicate 48 0) 48) by (rewrite ?length_replicate; lia).
  f_equal. set (full := Nat.iter 48 (Sha2.extend 32 S0 S1) w).
  assert (Hx : forall i, (i < 16)%nat -> nth i full 0 = nth i w 0)
    by (intros; apply Sha2.extend_keeps; lia).
  clearbody full. clearbody w.
  change (seq 0 64) with (seq 0 16 ++ seq 16 48). rewrite fold_left_app.
  change [0; 8]%nat with (map (fun j => 8 * j)%nat (seq 0 2)). rewrite map_map.
  destruct (Sha2.turns_fips 32 S2 S3 K (w ++ replicate 48 0) 2 0 state Hs) as [E1 L1].
  change (seq 0 (8 * 2)) with (seq 0 16) in E1, L1.
  assert (Ep : forall js l, Forall (fun i => (i < 16)%nat) js ->
    fold_left (Sha2.fips_step 32 S2 S3 K (w ++ replicate 48 0)) js l = fold_left (Sha2.fips_step 32 S2 S3 K full) js l).
  { induction js as [|i js IH]; intros l Hjs; [done|]. apply Forall_cons in Hjs as [Hi Hjs].
    cbn [fold_left]. rewrite IH by done. f_equal. unfold Sha2.fips_step. by rewrite app_nth1, Hx by lia. }
  assert (H16 : Forall (fun i => (i < 16)%nat) (seq 0 16))
    by (apply Forall_forall; intros i Hi%elem_of_seq; lia).
  rewrite (Ep (seq 0 16) state H16) in E1, L1.
  set (l := fold_left (Sha2.fips_step 32 S2 S3 K full) (seq 0 16) state) in *.
  change (fun x => Sha2.turn K (w ++ replicate 48 0) (8 * x)%nat)
    with (fun j => Sha2.turn K (w ++ replicate 48 0) (0 + 8 * j)%nat). rewrite E1.
  rewrite <- (Sha2.macro_fips 32 S2 S3 K full (seq 16 48) l L1).
  rewrite <- unrolled_whole with (n := 8%nat); [reflexivity|apply Sha2.sha2_macro_len|reflexivity|exact L1].
Qed.

Lemma sha256_K : Forall2 (Sha2.frac_root 3 32) (take 64 Sha2.primes) K.
Proof.
  assert (H : forallb (fun pc => Sha2.frac_rootb 3 32 (fst pc) (snd pc)) (zip (take 64 Sha2.primes) K) = true
    /\ length (take 64 Sha2.primes) = length K) by (split; by vm_compute).
  by apply Sha2.frac_roots_ok.
Qed.
End Sha256.

(** ** SHA-512 *)

Module Sha512.

Definition SHR (x n : Z) : Z := Z.shiftr x n.
Definition ROTR (x n : Z) : Z := Z.lor (SHR x n) (u64 (Z.shiftl x (64 - n))).
Definition S0 (x : Z) : Z := Z.lxor (Z.lxor (ROTR x 1) (ROTR x 8)) (SHR x 7).
Definition S1 (x : Z) : Z := Z.lxor (Z.lxor (ROTR x 19) (ROTR x 61)) (SHR x 6).
Definition S2 (x : Z) : Z := Z.lxor (Z.lxor (ROTR x 28) (ROTR x 34)) (ROTR x 39).
Definition S3 (x : Z) : Z := Z.lxor (Z.lxor (ROTR x 14) (ROTR x 18)) (ROTR x 41).

Definition K : list Z :=
  [0x428A2F98D728AE22; 0x7137449123EF65CD; 0xB5C0FBCFEC4D3B2F;
   0xE9B5DBA58189DBBC; 0x3956C25BF348B538; 0x59F111F1B605D019;
   0x923F82A4AF194F9B; 0xAB1C5ED5DA6D8118; 0xD807AA98A3030242;
   0x12835B0145706FBE; 0x243185BE4EE4B28C; 0x550C7DC3D5FFB4E2;
   0x72BE5D74F27B896F; 0x80DEB1FE3B1696B1; 0x9BDC06A725C71235;
   0xC19BF174CF692694; 0xE49B69C19EF14AD2; 0xEFBE4786384F25E3;
   0x0FC19DC68B8CD5B5; 0x240CA1CC77AC9C65; 0x2DE92C6F592B0275;
   0x4A7484AA6EA6E483; 0x5CB0A9DCBD41FBD4; 0x76F988DA831153B5;
   0x983E5152EE66DFAB; 0xA831C66D2DB43210; 0xB00327C898FB213F;
   0xBF597FC7BEEF0EE4; 0xC6E00BF33DA88FC2; 0xD5A79147930AA725;
   0x06CA6351E003826F; 0x142929670A0E6E70; 0x27B70A8546D22FFC;
   0x2E1B21385C26C926; 0x4D2C6DFC5AC42AED; 0x53380D139D95B3DF;
   0x650A73548BAF63DE; 0x766A0ABB3C77B2A8; 0x81C2C92E47EDAEE6;
   0x92722C851482353B; 0xA2BFE8A14CF10364; 0xA81A664BBC423001;
   0xC24B8B70D0F89791; 0xC76C51A30654BE30; 0xD192E819D6EF5218;
   0xD69906245565A910; 0xF40E35855771202A; 0x106AA07032BBD1B8;
   0x19A4C116B8D2D0C8; 0x1E376C085141AB53; 0x2748774CDF8EEB99;
   0x34B0BCB5E19B48A8; 0x391C0CB3C5C95A63; 0x4ED8AA4AE3418ACB;
   0x5B9CCA4F7763E373; 0x682E6FF3D6B2B8A3; 0x748F82EE5DEFB2FC;
   0x78A5636F43172F60; 0x84C87814A1F0AB72; 0x8CC702081A6439EC;
   0x90BEFFFA23631E28; 0xA4506CEBDE82BDE9; 0xBEF9A3F7B2C67915;
   0xC67178F2E372532B; 0xCA273ECEEA26619C; 0xD186B8C721C0C207;
   0xEADA7DD6CDE0EB1E; 0xF57D4F7FEE6ED178; 0x06F067AA72176FBA;
   0x0A637DC5A2C898A6; 0x113F9804BEF90DAE; 0x1B710B35131C471B;
   0x28DB77F523047D84; 0x32CAAB7B40C72493; 0x3C9EBE0A15C9BEBC;
   0x431D67C49C100D4C; 0x4CC5D4BECB3E42B6; 0x597F299CFC657E2A;
   0x5FCB6FAB3AD6FAEC; 0x6C44198C4A475817].

(** [mbedtls_internal_sha512_process] *)
Definition mbedtls_internal_sha512_process (state data : list Z) : list Z :=
  let w := words GET_UINT64_BE 8 data ++ replicate 64 0 in
  let w := fold_left (fun w t => Sha2.R 64 S0 S1 t w) (seq 16 64) w in
  let l := fold_left (exec (Sha2.macro 64 S2 S3))
             (concat (map (fun j => Sha2.turn K w (8 * j)%nat) (seq 0 10))) state in
  addWords 64 state l.

Definition fips_compress (state data : list Z) : list Z :=
  let w := Nat.iter 64 (Sha2.extend 64 S0 S1) (words GET_UINT64_BE 8 data) in
  addWords 64 state (fold_left (Sha2.fips_step 64 S2 S3 K w) (seq 0 80) state).

Lemma sha512_process state data : length state = 8%nat ->
  mbedtls_internal_sha512_process state data = fips_compress state data.
Proof.
  intros Hs. unfold mbedtls_internal_sha512_process, fips_compress.
  pose proof (Sha2.fill_schedule 64 S0 S1 64 (words GET_UINT64_BE 8 data) (replicate 64 0)) as Hf.
  change (length (words GET_UINT64_BE 8 data)) with 16%nat in Hf. rewrite Hf by (cbn; lia).
  rewrite drop_replicate, app_nil_r.
  by rewrite (proj1 (Sha2.turns_fips 64 S2 S3 K _ 10 0 state Hs)).
Qed.

Lemma sha512_K : Forall2 (Sha2.frac_root 3 64) (take 80 Sha2.primes) K.
Proof.
  assert (H : forallb (fun pc => Sha2.frac_rootb 3 64 (fst pc) (snd pc)) (zip (take 80 Sha2.primes) K) = true
    /\ length (take 80 Sha2.primes) = length K) by (split; by vm_compute).
  by apply Sha2.frac_roots_ok.
Qed.
End Sha512.
