(* ===== verification/Hash.v ===== *)
(** * The message digests of the library ([md5.c] and the like, [md_wrap.c], [md.c])
      and their use in [pro_ssl_util.cpp]

    The functions of each hash are those of [Md] with its compression function from
    [MdProcess]; [md.c] reaches them through a table; [pro_ssl_util.cpp] wraps [md.c]
    for the program.  The theorems: any way to feed a message to any of the digests
    gives the standard's value, and HMAC is the construction of RFC 2104.
    The C functions return 0 unless the model says otherwise. *)

From Stdlib Require Import Strings.String.
From S2P Require Import Prelude Bytes Md MdProcess.

Local Open Scope Z_scope.

(** ** The functions of each file *)

Definition md4_alg : algorithm := mkAlgorithm 4 PUT_UINT32_LE false Md4.mbedtls_internal_md4_process.
Definition md5_alg : algorithm := mkAlgorithm 4 PUT_UINT32_LE false Md5.mbedtls_internal_md5_process.
Definition ripemd160_alg : algorithm :=
  mkAlgorithm 4 PUT_UINT32_LE false Ripemd160.mbedtls_internal_ripemd160_process.
Definition sha1_alg : algorithm := mkAlgorithm 4 PUT_UINT32_BE true Sha1.mbedtls_internal_sha1_process.
Definition sha256_alg : algorithm := mkAlgorithm 4 PUT_UINT32_BE true Sha256.mbedtls_internal_sha256_process.
Definition sha512_alg : algorithm := mkAlgorithm 8 PUT_UINT64_BE true Sha512.mbedtls_internal_sha512_process.

(** [memset( ctx, 0, sizeof( mbedtls_md5_context ) )] and the like *)
Definition zeroed (states blockSize : nat) : context :=
  mkContext 0 0 (replicate states 0) (replicate blockSize 0) 0.

Definition mbedtls_md4_init : context := zeroed 4 64.
Definition mbedtls_md4_starts_ret (c : context) : context :=
  mkContext 0 0 [0x67452301; 0xEFCDAB89; 0x98BADCFE; 0x10325476] (buffer c) (variant c).
Definition mbedtls_md4_update_ret : list Z -> context -> context := update md4_alg.
Definition mbedtls_md4_finish_ret : context -> list Z * context := finishByUpdate md4_alg 4.
Definition mbedtls_md4_ret (input : list Z) : list Z :=
  fst (mbedtls_md4_finish_ret (mbedtls_md4_update_ret input (mbedtls_md4_starts_ret mbedtls_md4_init))).

Definition mbedtls_md5_init : context := zeroed 4 64.
Definition mbedtls_md5_starts_ret (c : context) : context :=
  mkContext 0 0 [0x67452301; 0xEFCDAB89; 0x98BADCFE; 0x10325476] (buffer c) (variant c).
Definition mbedtls_md5_update_ret : list Z -> context -> context := update md5_alg.
Definition mbedtls_md5_finish_ret : context -> list Z * context := finish md5_alg 4.
Definition mbedtls_md5_ret (input : list Z) : list Z :=
  fst (mbedtls_md5_finish_ret (mbedtls_md5_update_ret input (mbedtls_md5_starts_ret mbedtls_md5_init))).

Definition mbedtls_ripemd160_init : context := zeroed 5 64.
Definition mbedtls_ripemd160_starts_ret (c : context) : context :=
  mkContext 0 0 [0x67452301; 0xEFCDAB89; 0x98BADCFE; 0x10325476; 0xC3D2E1F0] (buffer c) (variant c).
Definition mbedtls_ripemd160_update_ret : list Z -> context -> context := update ripemd160_alg.
Definition mbedtls_ripemd160_finish_ret : context -> list Z * context := finishByUpdate ripemd160_alg 5.
Definition mbedtls_ripemd160_ret (input : list Z) : list Z :=
  fst (mbedtls_ripemd160_finish_ret
    (mbedtls_ripemd160_update_ret input (mbedtls_ripemd160_starts_ret mbedtls_ripemd160_init))).

Definition mbedtls_sha1_init : context := zeroed 5 64.
Definition mbedtls_sha1_starts_ret (c : context) : context :=
  mkContext 0 0 [0x67452301; 0xEFCDAB89; 0x98BADCFE; 0x10325476; 0xC3D2E1F0] (buffer c) (variant c).
Definition mbedtls_sha1_update_ret : list Z -> context -> context := update sha1_alg.
Definition mbedtls_sha1_finish_ret : context -> list Z * context := finish sha1_alg 5.
Definition mbedtls_sha1_ret (input : list Z) : list Z :=
  fst (mbedtls_sha1_finish_ret (mbedtls_sha1_update_ret input (mbedtls_sha1_starts_ret mbedtls_sha1_init))).

Definition mbedtls_sha256_init : context := zeroed 8 64.
Definition mbedtls_sha256_starts_ret (is224 : Z) (c : context) : context :=
  mkContext 0 0
    (if is224 =? 0
     then [0x6A09E667; 0xBB67AE85; 0x3C6EF372; 0xA54FF53A; 0x510E527F; 0x9B05688C; 0x1F83D9AB; 0x5BE0CD19]
     else [0xC1059ED8; 0x367CD507; 0x3070DD17; 0xF70E5939; 0xFFC00B31; 0x68581511; 0x64F98FA7; 0xBEFA4FA4])
    (buffer c) is224.
Definition mbedtls_sha256_update_ret : list Z -> context -> context := update sha256_alg.
Definition mbedtls_sha256_finish_ret (c : context) : list Z * context :=
  finish sha256_alg (if variant c =? 0 then 8 else 7) c.
Definition mbedtls_sha256_ret (input : list Z) (is224 : Z) : list Z :=
  fst (mbedtls_sha256_finish_ret
    (mbedtls_sha256_update_ret input (mbedtls_sha256_starts_ret is224 mbedtls_sha256_init))).

Definition mbedtls_sha512_init : context := zeroed 8 128.
Definition mbedtls_sha512_starts_ret (is384 : Z) (c : context) : context :=
  mkContext 0 0
    (if is384 =? 0
     then [0x6A09E667F3BCC908; 0xBB67AE8584CAA73B; 0x3C6EF372FE94F82B; 0xA54FF53A5F1D36F1;
           0x510E527FADE682D1; 0x9B05688C2B3E6C1F; 0x1F83D9ABFB41BD6B; 0x5BE0CD19137E2179]
     else [0xCBBB9D5DC1059ED8; 0x629A292A367CD507; 0x9159015A3070DD17; 0x152FECD8F70E5939;
           0x67332667FFC00B31; 0x8EB44A8768581511; 0xDB0C2E0D64F98FA7; 0x47B5481DBEFA4FA4])
    (buffer c) is384.
Definition mbedtls_sha512_update_ret : list Z -> context -> context := update sha512_alg.
Definition mbedtls_sha512_finish_ret (c : context) : list Z * context :=
  finish sha512_alg (if variant c =? 0 then 8 else 6) c.
Definition mbedtls_sha512_ret (input : list Z) (is384 : Z) : list Z :=
  fst (mbedtls_sha512_finish_ret
    (mbedtls_sha512_update_ret input (mbedtls_sha512_starts_ret is384 mbedtls_sha512_init))).

(** ** [md_wrap.c] and [md.c] *)

(** [mbedtls_md_type_t] *)
Inductive md_type := NONE | MD2 | MD4 | MD5 | SHA1 | SHA224 | SHA256 | SHA384 | SHA512 | RIPEMD160.

#[export] Instance md_type_eq_dec : EqDecision md_type.
Proof. solve_decision. Defined.

(** [struct mbedtls_md_info_t] *)
Record md_info_t := mkInfo {
  type : md_type;
  name : string;
  size : Z;
  block_size : Z;
  starts_func : context -> context;
  update_func : list Z -> context -> context;
  finish_func : context -> list Z * context;
  digest_func : list Z -> list Z;
  ctx_alloc : context;
  process_func : list Z -> context -> context
}.

(** [md5_process_wrap] and the like *)
Definition process_wrap (process : list Z -> list Z -> list Z) (data : list Z) (c : context) : context :=
  mkContext (total0 c) (total1 c) (process (state c) data) (buffer c) (variant c).

Definition mbedtls_md4_info : md_info_t := mkInfo MD4 "MD4" 16 64 mbedtls_md4_starts_ret
  mbedtls_md4_update_ret mbedtls_md4_finish_ret mbedtls_md4_ret mbedtls_md4_init
  (process_wrap Md4.mbedtls_internal_md4_process).
Definition mbedtls_md5_info : md_info_t := mkInfo MD5 "MD5" 16 64 mbedtls_md5_starts_ret
  mbedtls_md5_update_ret mbedtls_md5_finish_ret mbedtls_md5_ret mbedtls_md5_init
  (process_wrap Md5.mbedtls_internal_md5_process).
Definition mbedtls_ripemd160_info : md_info_t := mkInfo RIPEMD160 "RIPEMD160" 20 64
  mbedtls_ripemd160_starts_ret mbedtls_ripemd160_update_ret mbedtls_ripemd160_finish_ret
  mbedtls_ripemd160_ret mbedtls_ripemd160_init
  (process_wrap Ripemd160.mbedtls_internal_ripemd160_process).
Definition mbedtls_sha1_info : md_info_t := mkInfo SHA1 "SHA1" 20 64 mbedtls_sha1_starts_ret
  mbedtls_sha1_update_ret mbedtls_sha1_finish_ret mbedtls_sha1_ret mbedtls_sha1_init
  (process_wrap Sha1.mbedtls_internal_sha1_process).
Definition mbedtls_sha224_info : md_info_t := mkInfo SHA224 "SHA224" 28 64
  (mbedtls_sha256_starts_ret 1) mbedtls_sha256_update_ret mbedtls_sha256_finish_ret
  (fun input => mbedtls_sha256_ret input 1) mbedtls_sha256_init
  (process_wrap Sha256.mbedtls_internal_sha256_process).
Definition mbedtls_sha256_info : md_info_t := mkInfo SHA256 "SHA256" 32 64
  (mbedtls_sha256_starts_ret 0) mbedtls_sha256_update_ret mbedtls_sha256_finish_ret
  (fun input => mbedtls_sha256_ret input 0) mbedtls_sha256_init
  (process_wrap Sha256.mbedtls_internal_sha256_process).
Definition mbedtls_sha384_info : md_info_t := mkInfo SHA384 "SHA384" 48 128
  (mbedtls_sha512_starts_ret 1) mbedtls_sha512_update_ret mbedtls_sha512_finish_ret
  (fun input => mbedtls_sha512_ret input 1) mbedtls_sha512_init
  (process_wrap Sha512.mbedtls_internal_sha512_process).
Definition mbedtls_sha512_info : md_info_t := mkInfo SHA512 "SHA512" 64 128
  (mbedtls_sha512_starts_ret 0) mbedtls_sha512_update_ret mbedtls_sha512_finish_ret
  (fun input => mbedtls_sha512_ret input 0) mbedtls_sha512_init
  (process_wrap Sha512.mbedtls_internal_sha512_process).

(** [MBEDTLS_MD4_C] is not defined in [config.h], nor is [MBEDTLS_MD2_C]; the other
    digests are compiled in. *)
Definition MBEDTLS_MD4_C : bool := false.

(** [supported_digests], what [mbedtls_md_list] returns *)
Definition mbedtls_md_list : list md_type :=
  [SHA512; SHA384; SHA256; SHA224; SHA1; RIPEMD160; MD5] ++ (if MBEDTLS_MD4_C then [MD4] else []) ++ [NONE].

Definition mbedtls_md_info_from_type (t : md_type) : option md_info_t :=
  match t with
  | MD4 => if MBEDTLS_MD4_C then Some mbedtls_md4_info else None
  | MD5 => Some mbedtls_md5_info
  | RIPEMD160 => Some mbedtls_ripemd160_info
  | SHA1 => Some mbedtls_sha1_info
  | SHA224 => Some mbedtls_sha224_info
  | SHA256 => Some mbedtls_sha256_info
  | SHA384 => Some mbedtls_sha384_info
  | SHA512 => Some mbedtls_sha512_info
  | NONE | MD2 => None
  end.

(** [None] is the null pointer. *)
Definition mbedtls_md_info_from_string (md_name : option string) : option md_info_t :=
  match md_name with
  | None => None
  | Some s =>
      if MBEDTLS_MD4_C && String.eqb "MD4" s then mbedtls_md_info_from_type MD4
      else if String.eqb "MD5" s then mbedtls_md_info_from_type MD5
      else if String.eqb "RIPEMD160" s then mbedtls_md_info_from_type RIPEMD160
      else if String.eqb "SHA1" s || String.eqb "SHA" s then mbedtls_md_info_from_type SHA1
      else if String.eqb "SHA224" s then mbedtls_md_info_from_type SHA224
      else if String.eqb "SHA256" s then mbedtls_md_info_from_type SHA256
      else if String.eqb "SHA384" s then mbedtls_md_info_from_type SHA384
      else if String.eqb "SHA512" s then mbedtls_md_info_from_type SHA512
      else None
  end.

Definition MBEDTLS_ERR_MD_BAD_INPUT_DATA : Z := -0x5100.
Definition MBEDTLS_ERR_MD_ALLOC_FAILED : Z := -0x5180.

(** [mbedtls_md_context_t] *)
Record md_context_t := mkMd { md_info : option md_info_t; md_ctx : context; hmac_ctx : option (list Z) }.

Definition mbedtls_md_init : md_context_t := mkMd None (zeroed 0 0) None.

(** [mbedtls_md_clone]; the tables are compared by address, that is by type *)
Definition mbedtls_md_clone (dst src : md_context_t) : Z * md_context_t :=
  match md_info dst, md_info src with
  | Some i, Some j =>
      if bool_decide (type i = type j) then (0, mkMd (md_info dst) (md_ctx src) (hmac_ctx dst))
      else (MBEDTLS_ERR_MD_BAD_INPUT_DATA, dst)
  | _, _ => (MBEDTLS_ERR_MD_BAD_INPUT_DATA, dst)
  end.

(** [mbedtls_md_free]; the memory is given back, the structure zeroed *)
Definition mbedtls_md_free (c : md_context_t) : md_context_t :=
  match md_info c with None => c | Some _ => mbedtls_md_init end.

(** [mbedtls_md_setup]; [alloc1] and [alloc2] are the results of the two allocations *)
Definition mbedtls_md_setup (alloc1 alloc2 : bool) (info : option md_info_t) (hmac : Z) (c : md_context_t)
    : Z * md_context_t :=
  match info with
  | None => (MBEDTLS_ERR_MD_BAD_INPUT_DATA, c)
  | Some i =>
      if negb alloc1 then (MBEDTLS_ERR_MD_ALLOC_FAILED, c) else
      if negb (hmac =? 0) then
        if negb alloc2 then (MBEDTLS_ERR_MD_ALLOC_FAILED, mkMd (md_info c) (ctx_alloc i) None)
        else (0, mkMd (Some i) (ctx_alloc i) (Some (replicate (Z.to_nat (2 * block_size i)) 0)))
      else (0, mkMd (Some i) (ctx_alloc i) (hmac_ctx c))
  end.

Definition setCtx (x : context) (c : md_context_t) : md_context_t := mkMd (md_info c) x (hmac_ctx c).

Definition mbedtls_md_starts (c : md_context_t) : Z * md_context_t :=
  match md_info c with
  | None => (MBEDTLS_ERR_MD_BAD_INPUT_DATA, c)
  | Some i => (0, setCtx (starts_func i (md_ctx c)) c)
  end.

Definition mbedtls_md_update (input : list Z) (c : md_context_t) : Z * md_context_t :=
  match md_info c with
  | None => (MBEDTLS_ERR_MD_BAD_INPUT_DATA, c)
  | Some i => (0, setCtx (update_func i input (md_ctx c)) c)
  end.

(** The digest is the bytes written to [output], none on error. *)
Definition mbedtls_md_finish (c : md_context_t) : Z * list Z * md_context_t :=
  match md_info c with
  | None => (MBEDTLS_ERR_MD_BAD_INPUT_DATA, [], c)
  | Some i => let '(out, x) := finish_func i (md_ctx c) in (0, out, setCtx x c)
  end.

(** [mbedtls_md] *)
Definition mbedtls_md (info : option md_info_t) (input : list Z) : Z * list Z :=
  match info with
  | None => (MBEDTLS_ERR_MD_BAD_INPUT_DATA, [])
  | Some i => (0, digest_func i input)
  end.

(** [mbedtls_md_process], [mbedtls_md_get_size], [mbedtls_md_get_type], [mbedtls_md_get_name] *)
Definition mbedtls_md_process (data : list Z) (c : md_context_t) : Z * md_context_t :=
  match md_info c with
  | None => (MBEDTLS_ERR_MD_BAD_INPUT_DATA, c)
  | Some i => (0, setCtx (process_func i data (md_ctx c)) c)
  end.
Definition mbedtls_md_get_size (info : option md_info_t) : Z :=
  match info with None => 0 | Some i => wrap 8 (size i) end.
Definition mbedtls_md_get_type (info : option md_info_t) : md_type :=
  match info with None => NONE | Some i => type i end.
Definition mbedtls_md_get_name (info : option md_info_t) : option string :=
  match info with None => None | Some i => Some (name i) end.

(** [mbedtls_md_hmac_starts] *)
Definition mbedtls_md_hmac_starts (key : list Z) (c : md_context_t) : Z * md_context_t :=
  match md_info c, hmac_ctx c with
  | Some i, Some _ =>
      let '(key, x) :=
        if zlen key >? block_size i then
          let '(sum, x) := finish_func i (update_func i key (starts_func i (md_ctx c))) in
          (ztake (size i) sum, x)
        else (key, md_ctx c) in
      let bs := Z.to_nat (block_size i) in
      let xorKey (pad : Z) :=
        zput 0 (map (fun k => wrap 8 (Z.lxor pad k)) key) (replicate bs pad) in
      let ipad := xorKey 0x36 in
      let opad := xorKey 0x5C in
      (0, mkMd (md_info c) (update_func i ipad (starts_func i x)) (Some (ipad ++ opad)))
  | _, _ => (MBEDTLS_ERR_MD_BAD_INPUT_DATA, c)
  end.

Definition mbedtls_md_hmac_update (input : list Z) (c : md_context_t) : Z * md_context_t :=
  match md_info c, hmac_ctx c with
  | Some i, Some _ => (0, setCtx (update_func i input (md_ctx c)) c)
  | _, _ => (MBEDTLS_ERR_MD_BAD_INPUT_DATA, c)
  end.

Definition mbedtls_md_hmac_finish (c : md_context_t) : Z * list Z * md_context_t :=
  match md_info c, hmac_ctx c with
  | Some i, Some pads =>
      let opad := zdrop (block_size i) pads in
      let '(tmp, x) := finish_func i (md_ctx c) in
      let x := update_func i (ztake (size i) tmp) (update_func i opad (starts_func i x)) in
      let '(out, x) := finish_func i x in
      (0, out, setCtx x c)
  | _, _ => (MBEDTLS_ERR_MD_BAD_INPUT_DATA, [], c)
  end.

Definition mbedtls_md_hmac_reset (c : md_context_t) : Z * md_context_t :=
  match md_info c, hmac_ctx c with
  | Some i, Some pads =>
      (0, setCtx (update_func i (ztake (block_size i) pads) (starts_func i (md_ctx c))) c)
  | _, _ => (MBEDTLS_ERR_MD_BAD_INPUT_DATA, c)
  end.

(** [mbedtls_md_hmac]; the context is freed *)
Definition mbedtls_md_hmac (alloc1 alloc2 : bool) (info : option md_info_t) (key input : list Z) : Z * list Z :=
  match info with
  | None => (MBEDTLS_ERR_MD_BAD_INPUT_DATA, [])
  | Some i =>
      let '(ret, c) := mbedtls_md_setup alloc1 alloc2 (Some i) 1 mbedtls_md_init in
      if negb (ret =? 0) then (ret, []) else
      let '(ret, c) := mbedtls_md_hmac_starts key c in
      if negb (ret =? 0) then (ret, []) else
      let '(ret, c) := mbedtls_md_hmac_update input c in
      if negb (ret =? 0) then (ret, []) else
      let '(ret, out, _) := mbedtls_md_hmac_finish c in
      (ret, out)
  end.

(** ** The standards *)

(** Initial values: RFC 1320, 1321, FIPS 180-4. *)
Definition IV_md4 : list Z := [0x67452301; 0xEFCDAB89; 0x98BADCFE; 0x10325476].
Definition IV_sha1 : list Z := IV_md4 ++ [0xC3D2E1F0].

(** The first [bits] bits of the fractional part of the square root of [p]. *)
Definition sqrtBits (bits p : Z) : Z := Z.sqrt (p * 2 ^ (2 * bits)) mod 2 ^ bits.
Definition IV_sha256 : list Z := map (sqrtBits 32) (take 8 Sha2.primes).
Definition IV_sha512 : list Z := map (sqrtBits 64) (take 8 Sha2.primes).
(** The ninth to the sixteenth prime; of SHA-384's values SHA-224 takes the low halves. *)
Definition IV_sha384 : list Z := map (sqrtBits 64) (take 8 (drop 8 Sha2.primes)).
Definition IV_sha224 : list Z := map (wrap 32) IV_sha384.

Definition little (compress : list Z -> list Z -> list Z) : algorithm := mkAlgorithm 4 (le_bytes 4) false compress.
Definition big (word : nat) (compress : list Z -> list Z -> list Z) : algorithm :=
  mkAlgorithm word (be_bytes word) true compress.

(** The digest of type [t] of a message. *)
Definition reference (t : md_type) : list Z -> list Z :=
  match t with
  | NONE | MD2 => fun _ => []
  | MD4 => digest (little Md4.rfc_compress) IV_md4 4
  | MD5 => digest (little Md5.rfc_compress) IV_md4 4
  | RIPEMD160 => digest (little Ripemd160.rmd_compress) IV_sha1 5
  | SHA1 => digest (big 4 Sha1.fips_compress) IV_sha1 5
  | SHA224 => digest (big 4 Sha256.fips_compress) IV_sha224 7
  | SHA256 => digest (big 4 Sha256.fips_compress) IV_sha256 8
  | SHA384 => digest (big 8 Sha512.fips_compress) IV_sha384 6
  | SHA512 => digest (big 8 Sha512.fips_compress) IV_sha512 8
  end.

(** RFC 2104, over a hash [H] with blocks of [B] bytes. *)
Definition rfc2104 (H : list Z -> list Z) (B : Z) (key text : list Z) : list Z :=
  let key := if B <? zlen key then H key else key in
  let K := key ++ replicate (Z.to_nat (B - zlen key)) 0 in
  H (map (Z.lxor 0x5C) K ++ H (map (Z.lxor 0x36) K ++ text)).

(** ** What a table of functions promises *)

(** [i] computes [H]: [hash_fed c m] says that [c] was started and then fed [m].
    A piece may have [2 ^ 32] bytes ([2 ^ 64] for the 64-bit digests), a message
    [2 ^ 61] ([2 ^ 125]). *)
Definition pieceLimit (i : md_info_t) : Z := 2 ^ (block_size i / 2).
Definition messageLimit (i : md_info_t) : Z := 2 ^ (block_size i - 3).

Class HashLaws (i : md_info_t) (H : list Z -> list Z) := {
  hash_ready : context -> Prop;
  hash_fed : context -> list Z -> Prop;
  hash_alloc : hash_ready (ctx_alloc i);
  hash_starts c : hash_ready c -> hash_fed (starts_func i c) [];
  hash_update c m x : hash_fed c m -> zlen x < pieceLimit i -> zlen (m ++ x) < messageLimit i ->
    hash_fed (update_func i x c) (m ++ x);
  hash_finish c m : hash_fed c m -> zlen m < messageLimit i ->
    fst (finish_func i c) = H m /\ hash_ready (snd (finish_func i c));
  hash_fed_ready c m : hash_fed c m -> hash_ready c;
  hash_digest m : digest_func i m = fst (finish_func i (update_func i m (starts_func i (ctx_alloc i))));
  hash_size m : zlen (H m) = size i;
  hash_bytes m : is_bytes (H m);
  hash_sizes : 0 < size i <= block_size i;
  hash_block : block_size i = 64 \/ block_size i = 128
}.

Section build.
Context (a s : algorithm) `{!Sound a} (iv : list Z) (n : nat) (i : md_info_t).
Context (Hword : word a = word s) (Hend : bigEndian a = bigEndian s) (HPUT : forall x, PUT a x = PUT s x).
Context (Hproc : forall st d, length st = length iv ->
  process a st d = process s st d /\ length (process s st d) = length iv).

Lemma block_same : block a = block s.
Proof. unfold block. by rewrite Hword. Qed.

Lemma run_same k st m : length st = length iv ->
  run a k st m = run s k st m /\ length (run s k st m) = length iv.
Proof.
  revert st m. induction k as [|k IH]; intros st m Hs; [done|]. cbn [run].
  rewrite <- block_same. destruct (Hproc st (ztake (block a) m) Hs) as [-> Hl]. by apply IH.
Qed.

Lemma output_same st : output a n st = output s n st.
Proof. unfold output. f_equal. apply map_ext. done. Qed.

Lemma digest_same m : digest a iv n m = digest s iv n m.
Proof.
  assert (Hp : pad a m = pad s m) by (unfold pad, lenAt, block; by rewrite Hword, Hend).
  unfold digest, blocks. rewrite Hp, <- block_same, output_same. f_equal. by apply run_same.
Qed.

Lemma PUT_len x : length (PUT s x) = word s.
Proof.
  rewrite <- HPUT, sound_PUT, Hword. unfold be_bytes.
  destruct (bigEndian a); by rewrite ?length_reverse, length_le_bytes.
Qed.

Lemma PUT_bytes x : is_bytes (PUT s x).
Proof.
  rewrite <- HPUT, sound_PUT. pose proof (le_bytes_is_bytes (word a) x).
  destruct (bigEndian a); [by apply Forall_reverse|done].
Qed.

Lemma output_len st : (n <= length st)%nat -> length (output s n st) = (n * word s)%nat.
Proof.
  intros Hl. unfold output. pose proof (length_take_le st n Hl) as Ht. revert Ht. generalize (take n st). generalize n. intros n' l. revert n'.
  induction l as [|x l IH]; intros n' <-; [done|]. cbn [map concat length].
  rewrite length_app, (IH (length l)), PUT_len by done. lia.
Qed.

Lemma output_bytes st : is_bytes (output s n st).
Proof.
  unfold output. induction (take n st) as [|x l IH]; [constructor|]. cbn [map concat].
  apply is_bytes_app. split; [apply PUT_bytes|done].
Qed.

Lemma digest_len m : (n <= length iv)%nat -> length (digest s iv n m) = (n * word s)%nat.
Proof. intros Hn. apply output_len. by rewrite (proj2 (run_same _ _ _ eq_refl)). Qed.

Lemma zput_keeps off (bs l : list Z) k : zlen l = k -> 0 <= off -> off + zlen bs <= k -> zlen (zput off bs l) = k.
Proof. intros <- H1 H2. apply zlen_zput; lia. Qed.

Lemma memset_keeps off z (l : list Z) k : zlen l = k -> 0 <= off -> 0 <= z -> off + z <= k ->
  zlen (zput off (replicate (Z.to_nat z) 0) l) = k.
Proof. intros Hl H1 H2 H3. apply zput_keeps; [done..|]. rewrite zlen_replicate. lia. Qed.

Lemma finish_ready c m : fed a iv c m -> zlen (buffer (snd (finish a n c))) = block a.
Proof.
  intros Hf. pose proof (fed_left a iv c m Hf) as HL. pose proof (fed_len a iv c m Hf) as Hb.
  unfold finish. rewrite HL.
  assert (Hr : 0 <= zlen m mod block a < block a) by (apply Z.mod_pos_bound, (block_pos a)).
  set (r := zlen m mod block a) in *. clearbody r. destruct (word_sizes a) as [Hw Hl0].
  assert (H1 : zlen (zput r [128] (buffer c)) = block a)
    by (apply zput_keeps; [done|lia|change (zlen [128]) with 1; lia]).
  assert (Hms : zlen (msglen a c) = block a - lenAt a).
  { unfold msglen. rewrite !sound_PUT.
    destruct (bigEndian a); rewrite zlen_app, ?zlen_be_bytes, ?zlen_le_bytes; lia. }
  destruct (Z.leb_spec (r + 1) (lenAt a)); cbn [snd buffer];
    (apply zput_keeps; [repeat apply memset_keeps; done || lia|lia|lia]).
Qed.

Lemma update_variant x c : variant (update a x c) = variant c.
Proof.
  unfold update. destruct (zlen x =? 0); [done|].
  destruct (_ && _); by destruct (drain _ _ _ _).
Qed.

Lemma update_buffer x c : zlen (buffer c) = block a -> zlen (buffer (update a x c)) = block a.
Proof.
  intros Hb. pose proof (block_pos a) as Hp. pose proof (zlen_nonneg x). unfold update.
  destruct (Z.eqb_spec (zlen x) 0); [done|]. rewrite (land_block a).
  pose proof (Z.mod_pos_bound (total0 c) (block a) Hp) as Hr. set (r := total0 c mod block a) in *. clearbody r.
  destruct (negb (r =? 0) && (zlen x >=? block a - r)) eqn:Ec.
  - apply andb_prop in Ec as [_ Hg]. rewrite Z.geb_leb in Hg. apply Z.leb_le in Hg.
    assert (H1 : zlen (zput r (ztake (block a - r) x) (buffer c)) = block a)
      by (apply zput_keeps; rewrite ?zlen_ztake; lia).
    set (st := process a _ _). set (y := zdrop _ x).
    destruct (drain_run a (S (length y)) st y) as (k & u & w & _ & _ & Hw & ->); [lia|]. cbn [buffer].
    pose proof (zlen_nonneg w). destruct (zlen w >? 0); [apply zput_keeps; lia|done].
  - destruct (drain_run a (S (length x)) (state c) x) as (k & u & w & Exw & Hu & Hw & ->); [lia|]. cbn [buffer].
    pose proof (zlen_nonneg w). destruct (Z.gtb_spec (zlen w) 0); [|done].
    assert (zlen x = zlen u + zlen w) by (by rewrite Exw, zlen_app).
    apply andb_false_iff in Ec as [Ec|Ec].
    + apply negb_false_iff, Z.eqb_eq in Ec as ->. apply zput_keeps; lia.
    + rewrite Z.geb_leb in Ec. apply Z.leb_gt in Ec. apply zput_keeps; lia.
Qed.

Context (ok : Z -> Prop).
Context (Hblock : block_size i = block a) (Hsize : size i = Z.of_nat (n * word a)).
Context (Hn : (0 < n <= length iv)%nat) (Hn16 : (n <= 16)%nat).
Context (Halloc : zlen (buffer (ctx_alloc i)) = block a).
Context (Hstart : forall c, exists w, starts_func i c = mkContext 0 0 iv (buffer c) w /\ ok w).
Context (Hupdate : update_func i = update a).
Context (Hfinish : forall c, ok (variant c) ->
  finish_func i c = finish a n c \/ word a = 4%nat /\ finish_func i c = finishByUpdate a n c).
Context (Hdigest : forall m, digest_func i m = fst (finish_func i (update_func i m (starts_func i (ctx_alloc i))))).

Lemma limits : pieceLimit i = 2 ^ bits a /\ messageLimit i = 2 ^ (2 * bits a - 3) /\
  2 ^ (2 * bits a - 3) <= 2 ^ (2 * bits a).
Proof using Hblock Sound0.
  unfold pieceLimit, messageLimit. rewrite Hblock.
  destruct (block_cases a) as [(-> & _ & -> & _)|(-> & _ & -> & _)]; done.
Qed.

Lemma build_finish c m : fed a iv c m /\ ok (variant c) -> zlen m < messageLimit i ->
  fst (finish_func i c) = digest s iv n m /\ zlen (buffer (snd (finish_func i c))) = block a.
Proof.
  intros [Hf Hv] Hm. destruct limits as (_ & HM & _). rewrite HM in Hm. rewrite <- digest_same.
  destruct (Hfinish c Hv) as [->|[Hw ->]].
  - split; [by apply finish_digest|by eapply finish_ready].
  - split; [by apply finishByUpdate_digest|].
    cbn [finishByUpdate snd]. by eapply update_buffer, update_buffer, fed_len.
Qed.

Lemma build_laws : HashLaws i (digest s iv n).
Proof.
  destruct limits as (HP & HM & Hle).
  refine {| hash_ready c := zlen (buffer c) = block a; hash_fed c m := fed a iv c m /\ ok (variant c) |}.
  - done.
  - intros c Hc. destruct (Hstart c) as (w & -> & Hw). split; [by apply starts_fed|done].
  - intros c m x [Hf Hv] Hx Hmx. rewrite Hupdate, update_variant. split; [|done].
    apply update_fed; rewrite ?HP, ?HM in *; done || lia.
  - apply build_finish.
  - intros c m [Hf _]. by apply (fed_len a iv c m).
  - done.
  - intros m. unfold zlen. rewrite digest_len by lia. rewrite Hsize, Hword. done.
  - intros m. apply output_bytes.
  - rewrite Hblock, Hsize. unfold block. destruct (sound_word (a := a)) as [-> | ->]; lia.
  - rewrite Hblock. destruct (block_cases a) as [(_ & _ & -> & _)|(_ & _ & -> & _)]; auto.
Defined.
End build.

(** *** The tables of [md_wrap.c] *)

Lemma PUT_LE x : PUT_UINT32_LE x = le_bytes 4 x.
Proof.
  unfold PUT_UINT32_LE. cbn [le_bytes]. change 255 with (Z.ones 8). unfold wrap.
  rewrite !Z.land_ones, !Z.mod_mod, !Z.shiftr_div_pow2 by lia. rewrite !Z.div_div by lia. done.
Qed.
Lemma PUT_BE32 x : PUT_UINT32_BE x = be_bytes 4 x.
Proof.
  unfold PUT_UINT32_BE, be_bytes. cbn [le_bytes reverse rev_append]. unfold wrap.
  rewrite !Z.shiftr_div_pow2 by lia. cbn. rewrite !Z.div_div by lia. done.
Qed.
Lemma PUT_BE64 x : PUT_UINT64_BE x = be_bytes 8 x.
Proof.
  unfold PUT_UINT64_BE, be_bytes. cbn [le_bytes]. unfold wrap.
  rewrite !Z.shiftr_div_pow2 by lia. cbn. rewrite !Z.div_div by lia. done.
Qed.

#[export] Instance sound_md4 : Sound md4_alg. Proof. split; [by left|apply PUT_LE]. Qed.
#[export] Instance sound_md5 : Sound md5_alg. Proof. split; [by left|apply PUT_LE]. Qed.
#[export] Instance sound_ripemd160 : Sound ripemd160_alg. Proof. split; [by left|apply PUT_LE]. Qed.
#[export] Instance sound_sha1 : Sound sha1_alg. Proof. split; [by left|apply PUT_BE32]. Qed.
#[export] Instance sound_sha256 : Sound sha256_alg. Proof. split; [by left|apply PUT_BE32]. Qed.
#[export] Instance sound_sha512 : Sound sha512_alg. Proof. split; [by right|apply PUT_BE64]. Qed.

Lemma addWords_len b st regs : length regs = length st -> length (addWords b st regs) = length st.
Proof. intros H. unfold addWords. rewrite length_zip_with. lia. Qed.

Lemma fold_len {A} (f : list Z -> A -> list Z) js k st :
  (forall l j, length l = k -> length (f l j) = k) -> length st = k -> length (fold_left f js st) = k.
Proof. intros Hf. revert st. induction js as [|j js IH]; intros st Hs; [done|]. cbn. by apply IH, Hf. Qed.

Lemma md4_step st d : length st = length IV_md4 ->
  process md4_alg st d = process (little Md4.rfc_compress) st d /\ length (Md4.rfc_compress st d) = length IV_md4.
Proof.
  intros H. split; [by apply Md4.md4_process_rfc|]. unfold Md4.rfc_compress. rewrite addWords_len; [done|].
  rewrite H. apply fold_len; [|done]. intros l j Hl. do 4 (destruct l as [|? l]; [done|]). by destruct l.
Qed.
Lemma md5_step st d : length st = length IV_md4 ->
  process md5_alg st d = process (little Md5.rfc_compress) st d /\ length (Md5.rfc_compress st d) = length IV_md4.
Proof.
  intros H. split; [by apply Md5.process_rfc|]. unfold Md5.rfc_compress. rewrite addWords_len; [done|].
  rewrite H. apply fold_len; [|done]. intros l j Hl. do 4 (destruct l as [|? l]; [done|]). by destruct l.
Qed.
Lemma ripemd160_step st d : length st = length IV_sha1 ->
  process ripemd160_alg st d = process (little Ripemd160.rmd_compress) st d /\
  length (Ripemd160.rmd_compress st d) = length IV_sha1.
Proof. intros H. split; [by apply Ripemd160.rmd_process|done]. Qed.
Lemma sha1_step st d : length st = length IV_sha1 ->
  process sha1_alg st d = process (big 4 Sha1.fips_compress) st d /\ length (Sha1.fips_compress st d) = length IV_sha1.
Proof.
  intros H. split; [by apply Sha1.sha1_process|]. unfold Sha1.fips_compress. rewrite addWords_len; [done|].
  rewrite H. apply fold_len; [|done]. intros l j Hl. do 5 (destruct l as [|? l]; [done|]). by destruct l.
Qed.
Lemma sha2_len b S2 S3 K w js (st : list Z) : length st = 8%nat ->
  length (addWords b st (fold_left (Sha2.fips_step b S2 S3 K w) js st)) = 8%nat.
Proof.
  intros H. rewrite addWords_len; [done|].
  rewrite H. apply fold_len; [|done]. intros l j Hl. do 8 (destruct l as [|? l]; [done|]). by destruct l.
Qed.
Lemma sha256_step (iv st : list Z) d : length iv = 8%nat -> length st = length iv ->
  process sha256_alg st d = process (big 4 Sha256.fips_compress) st d /\
  length (Sha256.fips_compress st d) = length iv.
Proof. intros -> H. split; [by apply Sha256.sha256_process|by apply sha2_len]. Qed.
Lemma sha512_step (iv st : list Z) d : length iv = 8%nat -> length st = length iv ->
  process sha512_alg st d = process (big 8 Sha512.fips_compress) st d /\
  length (Sha512.fips_compress st d) = length iv.
Proof. intros -> H. split; [by apply Sha512.sha512_process|by apply sha2_len]. Qed.

(** The initial values written in the sources are those of the standards. *)
Lemma IV_sha256_ok : IV_sha256 = state (mbedtls_sha256_starts_ret 0 mbedtls_sha256_init).
Proof. by vm_compute. Qed.
Lemma IV_sha224_ok : IV_sha224 = state (mbedtls_sha256_starts_ret 1 mbedtls_sha256_init).
Proof. by vm_compute. Qed.
Lemma IV_sha512_ok : IV_sha512 = state (mbedtls_sha512_starts_ret 0 mbedtls_sha512_init).
Proof. by vm_compute. Qed.
Lemma IV_sha384_ok : IV_sha384 = state (mbedtls_sha512_starts_ret 1 mbedtls_sha512_init).
Proof. by vm_compute. Qed.

(** The remaining hypotheses of [build_laws], for a concrete table. *)
Ltac md_table := first
  [ done | by (cbn; lia) | intros c; by exists (variant c) | intros c; eexists; split; reflexivity
  | by (intros c _; left) | by (intros c _; right)
  | by (intros c Hv; left; cbn; unfold mbedtls_sha256_finish_ret, mbedtls_sha512_finish_ret; rewrite Hv) ].

#[export] Instance md4_laws : HashLaws mbedtls_md4_info (reference MD4).
Proof.
  apply (build_laws md4_alg (little Md4.rfc_compress) IV_md4 4 _ eq_refl eq_refl PUT_LE md4_step (fun _ => True));
    md_table.
Defined.
#[export] Instance md5_laws : HashLaws mbedtls_md5_info (reference MD5).
Proof.
  apply (build_laws md5_alg (little Md5.rfc_compress) IV_md4 4 _ eq_refl eq_refl PUT_LE md5_step (fun _ => True));
    md_table.
Defined.
#[export] Instance ripemd160_laws : HashLaws mbedtls_ripemd160_info (reference RIPEMD160).
Proof.
  apply (build_laws ripemd160_alg (little Ripemd160.rmd_compress) IV_sha1 5 _ eq_refl eq_refl PUT_LE
    ripemd160_step (fun _ => True)); md_table.
Defined.
#[export] Instance sha1_laws : HashLaws mbedtls_sha1_info (reference SHA1).
Proof.
  apply (build_laws sha1_alg (big 4 Sha1.fips_compress) IV_sha1 5 _ eq_refl eq_refl PUT_BE32 sha1_step
    (fun _ => True)); md_table.
Defined.
#[export] Instance sha224_laws : HashLaws mbedtls_sha224_info (reference SHA224).
Proof.
  cbn [reference]. rewrite IV_sha224_ok.
  apply (build_laws sha256_alg (big 4 Sha256.fips_compress) (state (mbedtls_sha256_starts_ret 1 mbedtls_sha256_init)) 7 _ eq_refl eq_refl PUT_BE32
    (fun st d => sha256_step (state (mbedtls_sha256_starts_ret 1 mbedtls_sha256_init)) st d eq_refl) (fun v => v = 1)); md_table.
Defined.
#[export] Instance sha256_laws : HashLaws mbedtls_sha256_info (reference SHA256).
Proof.
  cbn [reference]. rewrite IV_sha256_ok.
  apply (build_laws sha256_alg (big 4 Sha256.fips_compress) (state (mbedtls_sha256_starts_ret 0 mbedtls_sha256_init)) 8 _ eq_refl eq_refl PUT_BE32
    (fun st d => sha256_step (state (mbedtls_sha256_starts_ret 0 mbedtls_sha256_init)) st d eq_refl) (fun v => v = 0)); md_table.
Defined.
#[export] Instance sha384_laws : HashLaws mbedtls_sha384_info (reference SHA384).
Proof.
  cbn [reference]. rewrite IV_sha384_ok.
  apply (build_laws sha512_alg (big 8 Sha512.fips_compress) (state (mbedtls_sha512_starts_ret 1 mbedtls_sha512_init)) 6 _ eq_refl eq_refl PUT_BE64
    (fun st d => sha512_step (state (mbedtls_sha512_starts_ret 1 mbedtls_sha512_init)) st d eq_refl) (fun v => v = 1)); md_table.
Defined.
#[export] Instance sha512_laws : HashLaws mbedtls_sha512_info (reference SHA512).
Proof.
  cbn [reference]. rewrite IV_sha512_ok.
  apply (build_laws sha512_alg (big 8 Sha512.fips_compress) (state (mbedtls_sha512_starts_ret 0 mbedtls_sha512_init)) 8 _ eq_refl eq_refl PUT_BE64
    (fun st d => sha512_step (state (mbedtls_sha512_starts_ret 0 mbedtls_sha512_init)) st d eq_refl) (fun v => v = 0)); md_table.
Defined.

(** ** Clients of the interface *)

Section client.
Context (i : md_info_t) (H : list Z -> list Z) `{!HashLaws i H}.

Definition feed (c : context) (pieces : list (list Z)) : context :=
  fold_left (fun c x => update_func i x c) pieces c.

Definition short (pieces : list (list Z)) : Prop := Forall (fun x => zlen x < pieceLimit i) pieces.

Lemma feed_fed c m pieces : hash_fed c m -> short pieces -> zlen (m ++ concat pieces) < messageLimit i ->
  hash_fed (feed c pieces) (m ++ concat pieces).
Proof.
  intros Hf Hs. revert c m Hf. induction Hs as [|x pieces Hx Hs IH]; intros c m Hf Hb; cbn [feed fold_left concat] in *.
  - by rewrite app_nil_r.
  - rewrite app_assoc in Hb |- *. apply IH; [|done]. apply hash_update; [done..|].
    rewrite zlen_app in Hb. pose proof (zlen_nonneg (concat pieces)). lia.
Qed.

Lemma feed_digest c pieces : hash_ready c -> short pieces -> zlen (concat pieces) < messageLimit i ->
  fst (finish_func i (feed (starts_func i c) pieces)) = H (concat pieces).
Proof.
  intros Hc Hs Hb. apply (hash_finish (feed (starts_func i c) pieces) (concat pieces)); [|done].
  apply (feed_fed _ []); [by apply hash_starts|done..].
Qed.

Lemma limit_big : pieceLimit i <= messageLimit i /\ 2 ^ 32 <= pieceLimit i.
Proof using All.
  unfold pieceLimit, messageLimit. destruct hash_block as [->| ->]; done.
Qed.

Lemma digest_ok m : zlen m < pieceLimit i -> digest_func i m = H m.
Proof.
  intros Hm. rewrite hash_digest. pose proof limit_big.
  pose proof (feed_digest (ctx_alloc i) [m] hash_alloc) as Hd. cbn in Hd. rewrite app_nil_r in Hd.
  apply Hd; [by constructor|lia].
Qed.
End client.

(** The type of a table, including that of MD4, which is not compiled in. *)
Definition table (t : md_type) (i : md_info_t) : Prop :=
  mbedtls_md_info_from_type t = Some i \/ (t = MD4 /\ i = mbedtls_md4_info).

Definition laws_of t i : table t i -> HashLaws i (reference t).
Proof.
  intros Ht. destruct t; first
    [ exfalso; destruct Ht as [|[? _]]; done
    | assert (E : i = mbedtls_md4_info) by (destruct Ht as [|[_ ?]]; done); rewrite E; apply _
    | assert (E : mbedtls_md_info_from_type _ = Some i) by (destruct Ht as [|[? _]]; [eassumption|done]);
      injection E as <-; apply _ ].
Defined.

(** The calls with all the pieces of a message, up to the first error. *)
Fixpoint calls (call : list Z -> md_context_t -> Z * md_context_t) (pieces : list (list Z))
    (c : md_context_t) : Z * md_context_t :=
  match pieces with
  | [] => (0, c)
  | x :: pieces => let '(ret, c) := call x c in if ret =? 0 then calls call pieces c else (ret, c)
  end.

Lemma md_updates i c pieces : md_info c = Some i ->
  calls mbedtls_md_update pieces c = (0, setCtx (feed i (md_ctx c) pieces) c).
Proof.
  revert c. induction pieces as [|x pieces IH]; intros c Hc; [by destruct c|].
  cbn [calls]. unfold mbedtls_md_update. rewrite Hc. cbn. by rewrite IH.
Qed.

Lemma hmac_updates i c pads pieces : md_info c = Some i -> hmac_ctx c = Some pads ->
  calls mbedtls_md_hmac_update pieces c = (0, setCtx (feed i (md_ctx c) pieces) c).
Proof.
  revert c. induction pieces as [|x pieces IH]; intros c Hc Hp; [by destruct c|].
  cbn [calls]. unfold mbedtls_md_hmac_update. rewrite Hc, Hp. cbn. by rewrite IH.
Qed.

Section hmac.
Context (i : md_info_t) (H : list Z -> list Z) `{!HashLaws i H}.
Local Abbreviation B := (block_size i).

Definition padded (key : list Z) : list Z :=
  let key := if B <? zlen key then H key else key in key ++ replicate (Z.to_nat (B - zlen key)) 0.
Definition ipad (key : list Z) : list Z := map (Z.lxor 0x36) (padded key).
Definition opad (key : list Z) : list Z := map (Z.lxor 0x5C) (padded key).

Lemma padded_len key : zlen (padded key) = B.
Proof using All.
  unfold padded. set (k := if B <? zlen key then H key else key). assert (zlen k <= B).
  { unfold k. destruct (Z.ltb_spec B (zlen key)); [|done]. rewrite hash_size. apply hash_sizes. }
  rewrite (zlen_app k), zlen_replicate. lia.
Qed.
Lemma zlen_map {A C} (f : A -> C) (l : list A) : zlen (map f l) = zlen l.
Proof. unfold zlen. by rewrite length_map. Qed.

Lemma xor_key p key : zlen key <= B -> is_bytes key -> is_byte p ->
  zput 0 (map (fun k => wrap 8 (Z.lxor p k)) key) (replicate (Z.to_nat B) p)
  = map (Z.lxor p) (key ++ replicate (Z.to_nat (B - zlen key)) 0).
Proof.
  intros Hk Hb Hp. unfold zput. rewrite map_app. change (ztake 0 _) with (@nil Z). rewrite zlen_map. cbn [app].
  f_equal.
  - apply map_ext_in. intros k Hin. apply wrap_small. unfold is_bytes in Hb. rewrite Forall_forall in Hb.
    apply list_elem_of_In in Hin. specialize (Hb k Hin). unfold is_byte in *.
    split; [apply Z.lxor_nonneg; lia|].
    destruct (Z.eq_dec (Z.lxor p k) 0) as [->|Hz]; [done|].
    assert (0 <= Z.lxor p k) by (apply Z.lxor_nonneg; lia). apply Z.log2_lt_pow2; [lia|].
    eapply Z.le_lt_trans; [apply Z.log2_lxor; lia|].
    apply Z.max_lub_lt; (destruct (Z.eq_dec p 0) as [->|]; destruct (Z.eq_dec k 0) as [->|];
      try done; apply Z.log2_lt_pow2; lia).
  - unfold zdrop. rewrite drop_replicate. pose proof (zlen_nonneg key).
    replace (Z.to_nat B - Z.to_nat (0 + zlen key))%nat with (Z.to_nat (B - zlen key)) by lia.
    etransitivity; [|symmetry; apply (fmap_replicate (Z.lxor p))]. by rewrite Z.lxor_0_r.
Qed.

(** [c] is computing the HMAC of [m] under [key]. *)
Definition hmac_at (key m : list Z) (c : md_context_t) : Prop :=
  md_info c = Some i /\ hmac_ctx c = Some (ipad key ++ opad key) /\ hash_fed (md_ctx c) (ipad key ++ m).

Lemma ipad_len key : zlen (ipad key) = B.
Proof using All. unfold ipad. by rewrite zlen_map, padded_len. Qed.
Lemma opad_len key : zlen (opad key) = B.
Proof using All. unfold opad. by rewrite zlen_map, padded_len. Qed.

Lemma block_small : B < pieceLimit i /\ B + B < messageLimit i.
Proof using All. unfold pieceLimit, messageLimit. destruct hash_block as [->| ->]; done. Qed.

(** One piece of block size behind a start. *)
Lemma pad_fed c x : hash_ready c -> zlen x = B -> hash_fed (update_func i x (starts_func i c)) x.
Proof using All.
  intros Hc Hx. pose proof block_small. pose proof hash_sizes. apply (hash_update (starts_func i c) [] x); [by apply hash_starts|lia|cbn [app]; lia].
Qed.

Lemma hmac_starts_ok key c pads : is_bytes key -> zlen key < pieceLimit i ->
  md_info c = Some i -> hmac_ctx c = Some pads -> hash_ready (md_ctx c) ->
  exists c', mbedtls_md_hmac_starts key c = (0, c') /\ hmac_at key [] c'.
Proof using All.
  intros Hb Hk Hi Hp Hc. unfold mbedtls_md_hmac_starts. rewrite Hi, Hp.
  assert (Hkey : exists x, (if zlen key >? B then
      let '(sum, x) := finish_func i (update_func i key (starts_func i (md_ctx c))) in (ztake (size i) sum, x)
    else (key, md_ctx c)) = (if B <? zlen key then H key else key, x) /\ hash_ready x).
  { rewrite Z.gtb_ltb. destruct (Z.ltb_spec B (zlen key)); [|by exists (md_ctx c)].
    assert (Hl : zlen key < messageLimit i) by (pose proof (limit_big i H); lia).
    destruct (hash_finish (update_func i key (starts_func i (md_ctx c))) key) as [Hd Hr]; [|done|].
    { apply (hash_update _ []); [by apply hash_starts|done..]. }
    destruct (finish_func i _) as [sum x]. cbn in Hd, Hr. subst sum. exists x. split; [|done].
    rewrite ztake_all; [done|]. by rewrite hash_size. }
  destruct Hkey as (x & -> & Hx). cbv beta iota zeta.
  set (k := if B <? zlen key then H key else key).
  assert (Hkl : zlen k <= B).
  { unfold k. destruct (Z.ltb_spec B (zlen key)); [|done]. rewrite hash_size. apply hash_sizes. }
  assert (Hkb : is_bytes k) by (unfold k; destruct (B <? zlen key); [apply hash_bytes|done]).
  rewrite !xor_key by (done || (split; done)). eexists. split; [done|]. split_and!; [done..|].
  rewrite app_nil_r. apply pad_fed; [done|apply ipad_len].
Qed.

Lemma hmac_update_ok key m c pieces : hmac_at key m c -> short i pieces ->
  B + zlen (m ++ concat pieces) < messageLimit i ->
  exists c', calls mbedtls_md_hmac_update pieces c = (0, c') /\ hmac_at key (m ++ concat pieces) c'.
Proof using All.
  intros (Hi & Hp & Hf) Hs Hb. eexists. split; [by eapply hmac_updates|]. split_and!; [done..|].
  cbn. rewrite app_assoc. apply (feed_fed i H); [done..|]. rewrite <- app_assoc, zlen_app, ipad_len. lia.
Qed.

Lemma hmac_finish_ok key m c : hmac_at key m c -> B + zlen m < messageLimit i ->
  exists c', mbedtls_md_hmac_finish c = (0, rfc2104 H B key m, c') /\
    md_info c' = Some i /\ hmac_ctx c' = Some (ipad key ++ opad key) /\ hash_ready (md_ctx c').
Proof using All.
  intros (Hi & Hp & Hf) Hb. unfold mbedtls_md_hmac_finish. rewrite Hi, Hp.
  assert (E : zdrop B (ipad key ++ opad key) = opad key) by (rewrite <- (ipad_len key); apply zdrop_app_exact).
  rewrite E. clear E.
  assert (Hl : zlen (ipad key ++ m) < messageLimit i) by (rewrite zlen_app, ipad_len; lia).
  destruct (hash_finish _ _ Hf Hl) as [Hd Hr]. destruct (finish_func i (md_ctx c)) as [tmp x]. cbn in Hd, Hr.
  subst tmp. rewrite (ztake_all (size i)) by (by rewrite hash_size).
  assert (Hmin : B + size i < messageLimit i /\ size i < pieceLimit i).
  { pose proof hash_sizes. pose proof block_small. lia. }
  assert (Ho : hash_fed (update_func i (H (ipad key ++ m)) (update_func i (opad key) (starts_func i x)))
    (opad key ++ H (ipad key ++ m))).
  { apply hash_update; [apply pad_fed; [done|apply opad_len]|rewrite hash_size; lia|].
    rewrite zlen_app, opad_len, hash_size. lia. }
  destruct (hash_finish _ _ Ho) as [Hd2 Hr2]; [rewrite zlen_app, opad_len, hash_size; lia|].
  destruct (finish_func i _) as [out x2]. cbn in Hd2, Hr2. subst out.
  eexists. split; [done|]. done.
Qed.

Lemma hmac_reset_ok key c : md_info c = Some i -> hmac_ctx c = Some (ipad key ++ opad key) ->
  hash_ready (md_ctx c) -> exists c', mbedtls_md_hmac_reset c = (0, c') /\ hmac_at key [] c'.
Proof using All.
  intros Hi Hp Hc. unfold mbedtls_md_hmac_reset. rewrite Hi, Hp. eexists. split; [done|].
  split_and!; [done..|]. cbn. rewrite app_nil_r.
  assert (E : ztake B (ipad key ++ opad key) = ipad key) by (rewrite <- (ipad_len key); apply ztake_app_exact).
  rewrite E.
  apply pad_fed; [done|apply ipad_len].
Qed.
End hmac.

(** ** The theorems *)


(** The tables of SHA-2 are what FIPS 180-4 says: the fractional parts of the cube
    roots of the first primes, the initial values those of their square roots. *)
Theorem sha2_constants :
  Forall2 (Sha2.frac_root 3 32) (take 64 Sha2.primes) Sha256.K /\
  Forall2 (Sha2.frac_root 3 64) (take 80 Sha2.primes) Sha512.K /\
  Forall2 (Sha2.frac_root 2 32) (take 8 Sha2.primes) (state (mbedtls_sha256_starts_ret 0 mbedtls_sha256_init)) /\
  Forall2 (Sha2.frac_root 2 64) (take 8 Sha2.primes) (state (mbedtls_sha512_starts_ret 0 mbedtls_sha512_init)) /\
  Forall2 (Sha2.frac_root 2 64) (take 8 (drop 8 Sha2.primes))
    (state (mbedtls_sha512_starts_ret 1 mbedtls_sha512_init)) /\
  state (mbedtls_sha256_starts_ret 1 mbedtls_sha256_init)
  = map (wrap 32) (state (mbedtls_sha512_starts_ret 1 mbedtls_sha512_init)).
Proof.
  split_and!; [exact Sha256.sha256_K|exact Sha512.sha512_K| | | |reflexivity];
    (apply Sha2.frac_roots_ok; split; by vm_compute).
Qed.


(** the HMAC functions compute RFC 2104 over every digest, for keys of any length,
    text in any pieces, and again after a reset with the same key; without the memory
    they need they report it. *)
Theorem hmac_correct t i key pieces pieces' :
  table t i -> is_bytes key -> zlen key < pieceLimit i -> short i pieces -> short i pieces' ->
  block_size i + zlen (concat pieces) < messageLimit i ->
  block_size i + zlen (concat pieces') < messageLimit i ->
  let HMAC := rfc2104 (reference t) (block_size i) key in
  (exists c0 c1 c2 c3 c4 c5 c6,
    mbedtls_md_setup true true (Some i) 1 mbedtls_md_init = (0, c0) /\
    mbedtls_md_hmac_starts key c0 = (0, c1) /\ calls mbedtls_md_hmac_update pieces c1 = (0, c2) /\
    mbedtls_md_hmac_finish c2 = (0, HMAC (concat pieces), c3) /\
    mbedtls_md_hmac_reset c3 = (0, c4) /\ calls mbedtls_md_hmac_update pieces' c4 = (0, c5) /\
    mbedtls_md_hmac_finish c5 = (0, HMAC (concat pieces'), c6)) /\
  (zlen (concat pieces) < pieceLimit i ->
     mbedtls_md_hmac true true (Some i) key (concat pieces) = (0, HMAC (concat pieces))) /\
  mbedtls_md_hmac true false (Some i) key (concat pieces) = (MBEDTLS_ERR_MD_ALLOC_FAILED, []).
Proof.
  intros Ht Hk Hkl Hs Hs' Hb Hb' HMAC. pose proof (laws_of t i Ht) as HL.
  set (c0 := mkMd (Some i) (ctx_alloc i) (Some (replicate (Z.to_nat (2 * block_size i)) 0))).
  destruct (hmac_starts_ok i (reference t) key c0 _ Hk Hkl eq_refl eq_refl hash_alloc) as (c1 & H1 & A1).
  destruct (hmac_update_ok i (reference t) key [] c1 pieces A1 Hs Hb) as (c2 & H2 & A2).
  destruct (hmac_finish_ok i (reference t) key _ c2 A2 Hb) as (c3 & H3 & I3 & P3 & R3).
  destruct (hmac_reset_ok i (reference t) key c3 I3 P3 R3) as (c4 & H4 & A4).
  destruct (hmac_update_ok i (reference t) key [] c4 pieces' A4 Hs' Hb') as (c5 & H5 & A5).
  destruct (hmac_finish_ok i (reference t) key _ c5 A5 Hb') as (c6 & H6 & _).
  split_and!.
  - by exists c0, c1, c2, c3, c4, c5, c6.
  - intros Hp. unfold mbedtls_md_hmac. cbn [mbedtls_md_setup negb Z.eqb]. fold c0. rewrite H1. cbn [negb Z.eqb].
    assert (Hs1 : short i [concat pieces]) by (by constructor).
    destruct (hmac_update_ok i (reference t) key [] c1 [concat pieces] A1 Hs1) as (c & Hc & Ac);
      [cbn; by rewrite app_nil_r|].
    cbn in Hc. destruct (mbedtls_md_hmac_update (concat pieces) c1) as [ret c'].
    destruct (Z.eqb_spec ret 0) as [->|]; [|by injection Hc]. injection Hc as ->. cbn [negb Z.eqb].
    cbn [app concat] in Ac. rewrite app_nil_r in Ac.
    destruct (hmac_finish_ok i (reference t) key _ c Ac Hb) as (c'' & -> & _). done.
  - done.
Qed.



Lemma hmac_correct_witness :
  mbedtls_md_hmac true true (Some mbedtls_sha1_info) (replicate 20 11) [72; 105]
  = (0, rfc2104 (reference SHA1) 64 (replicate 20 11) [72; 105]).
Proof.
  destruct (hmac_correct SHA1 mbedtls_sha1_info (replicate 20 11) [[72; 105]] [[]]) as (_ & H & _);
    [by left|by apply Forall_replicate|done|by repeat constructor|by repeat constructor|done|done|].
  by apply H.
Defined.
