(* ===== verification/SslUtil.v ===== *)
(** * Digests and passwords for the program ([pro_ssl_util.cpp], and the password check
      of [rtp_framework.cpp])

    The wrappers over [md.c], of which the program has one set for each of four digests,
    and the hash by which a client of the RTP service proves that it knows the password:
    SHA-256 of the decimal digits of the server's nonce followed by the password.

    The booleans are the results of the allocations.  A C string is the list of its
    bytes without the final zero; [None] is the null pointer. *)

From S2P Require Import Prelude Bytes Md Hash.

(** [MdNew_i]; [MdDelete_i] gives the memory back. *)
Definition MdNew_i (alloc0 alloc1 : bool) (t : md_type) : option md_context_t :=
  match mbedtls_md_info_from_type t with
  | None => None
  | Some i =>
      if negb alloc0 then None else
      let '(ret, c) := mbedtls_md_setup alloc1 true (Some i) 0 mbedtls_md_init in
      if negb (ret =? 0) then None else Some c
  end.

Definition MdInit_i (ctx : option md_context_t) : option md_context_t :=
  match ctx with None => None | Some c => Some (snd (mbedtls_md_starts c)) end.

Definition MdUpdate_i (ctx : option md_context_t) (buf : option (list Z)) : option md_context_t :=
  match ctx, buf with
  | Some c, Some buf => if zlen buf =? 0 then ctx else Some (snd (mbedtls_md_update buf c))
  | _, _ => ctx
  end.

(** The memory at [hashValue] afterwards, and the context. *)
Definition MdFinish_i (ctx : option md_context_t) (hashValue : list Z) : list Z * option md_context_t :=
  match ctx with
  | None => (hashValue, None)
  | Some c => let '(_, out, c) := mbedtls_md_finish c in (zput 0 out hashValue, Some c)
  end.

(** [ProMd5Finish] and the like: [memset( hashValue, 0, n )] comes first *)
Definition finishInto (n : nat) (ctx : option md_context_t) : list Z * option md_context_t :=
  MdFinish_i ctx (replicate n 0).

(** [ProMd5All] and the like *)
Definition hashAll (t : md_type) (n : nat) (alloc0 alloc1 : bool) (buf : option (list Z)) : list Z :=
  match MdNew_i alloc0 alloc1 t with
  | None => replicate n 0
  | Some c =>
      let ctx := MdInit_i (Some c) in
      let ctx := match buf with
                 | Some bytes => if zlen bytes >? 0 then MdUpdate_i ctx buf else ctx
                 | None => ctx
                 end in
      fst (finishInto n ctx)
  end.

Definition ProMd5New (alloc0 alloc1 : bool) : option md_context_t := MdNew_i alloc0 alloc1 MD5.
Definition ProMd5Init : option md_context_t -> option md_context_t := MdInit_i.
Definition ProMd5Update : option md_context_t -> option (list Z) -> option md_context_t := MdUpdate_i.
Definition ProMd5Finish : option md_context_t -> list Z * option md_context_t := finishInto 16.
Definition ProMd5All : bool -> bool -> option (list Z) -> list Z := hashAll MD5 16.

Definition ProSha1New (alloc0 alloc1 : bool) : option md_context_t := MdNew_i alloc0 alloc1 SHA1.
Definition ProSha1Init : option md_context_t -> option md_context_t := MdInit_i.
Definition ProSha1Update : option md_context_t -> option (list Z) -> option md_context_t := MdUpdate_i.
Definition ProSha1Finish : option md_context_t -> list Z * option md_context_t := finishInto 20.
Definition ProSha1All : bool -> bool -> option (list Z) -> list Z := hashAll SHA1 20.

Definition ProSha256New (alloc0 alloc1 : bool) : option md_context_t := MdNew_i alloc0 alloc1 SHA256.
Definition ProSha256Init : option md_context_t -> option md_context_t := MdInit_i.
Definition ProSha256Update : option md_context_t -> option (list Z) -> option md_context_t := MdUpdate_i.
Definition ProSha256Finish : option md_context_t -> list Z * option md_context_t := finishInto 32.
Definition ProSha256All : bool -> bool -> option (list Z) -> list Z := hashAll SHA256 32.

Definition ProRipemd160New (alloc0 alloc1 : bool) : option md_context_t := MdNew_i alloc0 alloc1 RIPEMD160.
Definition ProRipemd160Init : option md_context_t -> option md_context_t := MdInit_i.
Definition ProRipemd160Update : option md_context_t -> option (list Z) -> option md_context_t := MdUpdate_i.
Definition ProRipemd160Finish : option md_context_t -> list Z * option md_context_t := finishInto 20.
Definition ProRipemd160All : bool -> bool -> option (list Z) -> list Z := hashAll RIPEMD160 20.

(** [ProZeroMemory] *)
Definition ProZeroMemory (buf : option (list Z)) : option (list Z) :=
  match buf with None => None | Some b => Some (if zlen b =? 0 then b else replicate (length b) 0) end.

(** [sprintf( s, "%llu", n )]: the decimal digits of [n], at most 20 for 64 bits *)
Fixpoint digits (fuel : nat) (n : Z) (tail : list Z) : list Z :=
  match fuel with
  | O => tail
  | S fuel =>
      let tail := 48 + n mod 10 :: tail in
      if n / 10 =? 0 then tail else digits fuel (n / 10) tail
  end.
Definition llu (n : Z) : list Z := digits 20 n [].

(** [ProCalcPasswordHash] *)
Definition ProCalcPasswordHash (alloc0 alloc1 : bool) (nonce : Z) (password : option (list Z)) : list Z :=
  let passwordString := llu nonce ++ match password with Some p => p | None => [] end in
  ProSha256All alloc0 alloc1 (Some passwordString).

(** [CheckRtpServiceData] *)
Definition CheckRtpServiceData (alloc0 alloc1 : bool) (nonce : Z) (password : option (list Z))
    (passwordHash : list Z) : bool :=
  bool_decide (ProCalcPasswordHash alloc0 alloc1 nonce password = ztake 32 passwordHash).

(** ** Lemmas *)

Lemma MdNew_ok t i : mbedtls_md_info_from_type t = Some i ->
  MdNew_i true true t = Some (mkMd (Some i) (ctx_alloc i) None).
Proof. intros Ht. unfold MdNew_i. by rewrite Ht. Qed.

(** One hash of one buffer. *)
Lemma hashAll_ok t i n buf : mbedtls_md_info_from_type t = Some i -> size i = Z.of_nat n -> zlen buf < pieceLimit i ->
  hashAll t n true true (Some buf) = reference t buf.
Proof.
  intros Ht Hn Hb. pose proof (laws_of t i (or_introl Ht)) as HL. unfold hashAll. rewrite (MdNew_ok t i Ht).
  assert (Hf : exists x, hash_fed x buf /\
    (if zlen buf >? 0 then MdUpdate_i (MdInit_i (Some (mkMd (Some i) (ctx_alloc i) None))) (Some buf)
     else MdInit_i (Some (mkMd (Some i) (ctx_alloc i) None))) = Some (mkMd (Some i) x None)).
  { rewrite Z.gtb_ltb. destruct (Z.ltb_spec 0 (zlen buf)) as [Hp|Hp].
    - exists (update_func i buf (starts_func i (ctx_alloc i))). split.
      + apply (hash_update _ []); [apply hash_starts, hash_alloc|done|].
        cbn [app]. pose proof (limit_big i (reference t)). lia.
      + cbn [MdInit_i MdUpdate_i]. by destruct (Z.eqb_spec (zlen buf) 0); [lia|].
    - exists (starts_func i (ctx_alloc i)). split; [|done].
      assert (buf = []) as -> by (apply zlen_zero; pose proof (zlen_nonneg buf); lia).
      apply hash_starts, hash_alloc. }
  destruct Hf as (x & Hx & ->). unfold finishInto, MdFinish_i, mbedtls_md_finish. cbn [md_info md_ctx].
  destruct (hash_finish x buf Hx) as [Hd _]; [pose proof (limit_big i (reference t)); lia|].
  destruct (finish_func i x) as [out y]. cbn [fst] in *. subst out.
  unfold zput. rewrite zdrop_all; [by rewrite app_nil_r|]. rewrite zlen_replicate, hash_size. lia.
Qed.

Lemma hashAll_null t n b : hashAll t n true b None = hashAll t n true b (Some []).
Proof. done. Qed.

Lemma hashAll_fails t n alloc0 alloc1 buf : alloc0 && alloc1 = false -> hashAll t n alloc0 alloc1 buf = replicate n 0.
Proof.
  intros Ha. unfold hashAll, MdNew_i. destruct (mbedtls_md_info_from_type t) as [i|]; [|done].
  by destruct alloc0, alloc1.
Qed.

(** Reading the digits back. *)
Definition of_digits (l : list Z) : Z := fold_left (fun v d => 10 * v + (d - 48)) l 0.

Lemma digits_ok fuel n tail : (0 < fuel)%nat -> 0 <= n < 10 ^ Z.of_nat fuel ->
  exists ds, digits fuel n tail = ds ++ tail /\ of_digits ds = n /\ Forall (fun d => 48 <= d <= 57) ds /\
    (hd 0 ds = 48 -> n = 0 /\ length ds = 1%nat) /\ ds <> [].
Proof.
  revert n tail. induction fuel as [|fuel IH]; intros n tail Hf Hn; [lia|]. cbn [digits].
  pose proof (Z.mod_pos_bound n 10 ltac:(lia)) as Hr. pose proof (Z.div_mod n 10 ltac:(lia)) as Hdm.
  destruct (Z.eqb_spec (n / 10) 0) as [Hq|Hq].
  - exists [48 + n mod 10]. split_and!; [done|cbn; lia|by constructor; [lia|]| |done].
    cbn. intros H. split; [lia|done].
  - assert (Hq0 : 0 <= n / 10) by (apply Z.div_pos; lia).
    assert (Hp : 10 ^ Z.of_nat (S fuel) = 10 * 10 ^ Z.of_nat fuel).
    { rewrite Nat2Z.inj_succ, Z.pow_succ_r by lia. done. }
    assert (Hq1 : n / 10 < 10 ^ Z.of_nat fuel) by (apply Z.div_lt_upper_bound; lia).
    destruct fuel as [|fuel]; [change (10 ^ Z.of_nat 0) with 1 in Hq1; lia|].
    destruct (IH (n / 10) (48 + n mod 10 :: tail)) as (ds & -> & Ho & Hd & Hh & Hne); [lia..|].
    exists (ds ++ [48 + n mod 10]). split_and!.
    + by rewrite <- app_assoc.
    + unfold of_digits in *. rewrite fold_left_app. cbn. rewrite Ho. lia.
    + apply Forall_app. split; [done|]. constructor; [lia|done].
    + destruct ds as [|d ds]; [done|]. cbn [hd app]. intros Hz. destruct (Hh Hz). lia.
    + by destruct ds.
Qed.

(** ** The theorems *)

(** The one-call hashes give the standard digest of the buffer, the null pointer
    counting as the empty buffer; when memory is short the result is all zeros. *)
Theorem ProHashAll_correct buf : zlen buf < 2 ^ 32 ->
  (ProMd5All true true (Some buf) = reference MD5 buf /\
   ProSha1All true true (Some buf) = reference SHA1 buf /\
   ProSha256All true true (Some buf) = reference SHA256 buf /\
   ProRipemd160All true true (Some buf) = reference RIPEMD160 buf) /\
  (ProMd5All true true None = reference MD5 [] /\ ProSha1All true true None = reference SHA1 [] /\
   ProSha256All true true None = reference SHA256 [] /\ ProRipemd160All true true None = reference RIPEMD160 []) /\
  (forall alloc0 alloc1, alloc0 && alloc1 = false ->
     ProMd5All alloc0 alloc1 (Some buf) = replicate 16 0 /\
     ProSha1All alloc0 alloc1 (Some buf) = replicate 20 0 /\
     ProSha256All alloc0 alloc1 (Some buf) = replicate 32 0 /\
     ProRipemd160All alloc0 alloc1 (Some buf) = replicate 20 0).
Proof.
  intros Hb. split; [|split].
  - split_and!; by eapply hashAll_ok.
  - split_and!; (etransitivity; [apply hashAll_null|by eapply hashAll_ok]).
  - intros alloc0 alloc1 Ha. split_and!; by apply hashAll_fails.
Qed.

(** The proof of a password is SHA-256 of the nonce in decimal (without leading
    zeros, and readable back) followed by the password; the check accepts exactly that
    proof, so it accepts every client that knows the password. *)
Theorem password_correct nonce password passwordHash :
  0 <= nonce < 2 ^ 64 -> zlen password < 2 ^ 31 -> zlen passwordHash = 32 ->
  exists ds,
    of_digits ds = nonce /\ Forall (fun d => 48 <= d <= 57) ds /\ (hd 0 ds = 48 -> ds = [48]) /\
    ProCalcPasswordHash true true nonce (Some password) = reference SHA256 (ds ++ password) /\
    (CheckRtpServiceData true true nonce (Some password) passwordHash = true <->
     passwordHash = reference SHA256 (ds ++ password)) /\
    CheckRtpServiceData true true nonce (Some password)
      (ProCalcPasswordHash true true nonce (Some password)) = true.
Proof.
  intros Hn Hp Hh. destruct (digits_ok 20 nonce []) as (ds & Hds & Ho & Hd & Hz & Hne); [lia|lia|].
  rewrite app_nil_r in Hds.
  assert (Hl : zlen ds <= 20).
  { rewrite <- Hds. clear. assert (H : forall k n t, zlen (digits k n t) <= Z.of_nat k + zlen t).
    { induction k as [|k IH]; intros n t; cbn [digits]; [lia|]. specialize (IH (n / 10) (48 + n mod 10 :: t)).
      rewrite zlen_cons in IH. pose proof (zlen_nonneg t). destruct (_ =? _); rewrite ?zlen_cons; lia. }
    apply (H 20%nat nonce []). }
  assert (Hc : ProCalcPasswordHash true true nonce (Some password) = reference SHA256 (ds ++ password)).
  { unfold ProCalcPasswordHash, llu. rewrite Hds. eapply hashAll_ok; [done..|].
    rewrite zlen_app. change (pieceLimit _) with (2 ^ 32). lia. }
  assert (H32 : zlen (reference SHA256 (ds ++ password)) = 32).
  { pose proof (laws_of SHA256 mbedtls_sha256_info (or_introl eq_refl)) as HL.
    exact (@hash_size _ _ HL (ds ++ password)). }
  exists ds. split_and!; [done..| |done| |].
  - intros H48. destruct (Hz H48) as [_ H1]. destruct ds as [|d [|]]; [done| |done]. by cbn in H48; subst d.
  - unfold CheckRtpServiceData. rewrite bool_decide_eq_true, Hc, ztake_all by lia. split; congruence.
  - unfold CheckRtpServiceData. rewrite bool_decide_eq_true, Hc, ztake_all; [done|]. lia.
Qed.

Lemma ProHashAll_correct_witness : ProMd5All true true (Some [97]) = reference MD5 [97].
Proof. apply (ProHashAll_correct [97]). done. Defined.

Lemma password_correct_witness : exists ds, of_digits ds = 1234567890123456789 /\
  ProCalcPasswordHash true true 1234567890123456789 (Some [112; 119]) = reference SHA256 (ds ++ [112; 119]).
Proof.
  destruct (password_correct 1234567890123456789 [112; 119] (replicate 32 0)) as (ds & H1 & _ & _ & H2 & _);
    [lia|done|done|]. exists ds. split; [exact H1|exact H2].
Defined.
