(* ===== verification/Base64.v ===== *)
(** * Base64 ([base64.c] of [src/src/mbedtls/library])

    Encoding into a caller's buffer and decoding in two passes, the first of which
    validates and finds the length.  The theorems: decoding inverts encoding, also when
    line breaks were put in; both report the room they need instead of writing beyond
    the buffer, on any input. *)

From S2P Require Import Prelude Bytes.

Local Open Scope Z_scope.

Definition MBEDTLS_ERR_BASE64_BUFFER_TOO_SMALL : Z := -0x002A.
Definition MBEDTLS_ERR_BASE64_INVALID_CHARACTER : Z := -0x002C.

Definition base64_enc_map : list Z := [
  65; 66; 67; 68; 69; 70; 71; 72; 73; 74;
  75; 76; 77; 78; 79; 80; 81; 82; 83; 84;
  85; 86; 87; 88; 89; 90; 97; 98; 99; 100;
  101; 102; 103; 104; 105; 106; 107; 108; 109; 110;
  111; 112; 113; 114; 115; 116; 117; 118; 119; 120;
  121; 122; 48; 49; 50; 51; 52; 53; 54; 55;
  56; 57; 43; 47].

Definition base64_dec_map : list Z := [
  127; 127; 127; 127; 127; 127; 127; 127; 127; 127;
  127; 127; 127; 127; 127; 127; 127; 127; 127; 127;
  127; 127; 127; 127; 127; 127; 127; 127; 127; 127;
  127; 127; 127; 127; 127; 127; 127; 127; 127; 127;
  127; 127; 127;  62; 127; 127; 127;  63;  52;  53;
   54;  55;  56;  57;  58;  59;  60;  61; 127; 127;
  127;  64; 127; 127; 127;   0;   1;   2;   3;   4;
    5;   6;   7;   8;   9;  10;  11;  12;  13;  14;
   15;  16;  17;  18;  19;  20;  21;  22;  23;  24;
   25; 127; 127; 127; 127; 127; 127;  26;  27;  28;
   29;  30;  31;  32;  33;  34;  35;  36;  37;  38;
   39;  40;  41;  42;  43;  44;  45;  46;  47;  48;
   49;  50;  51; 127; 127; 127; 127; 127].

Definition enc (v : Z) : Z := nth (Z.to_nat v) base64_enc_map 0.
Definition dec (c : Z) : Z := nth (Z.to_nat c) base64_dec_map 0.

Definition BASE64_SIZE_T_MAX : Z := 2 ^ 64 - 1.

(** The loop over whole groups of three bytes, and the rest. *)
Fixpoint encodeLoop (src : list Z) : list Z :=
  match src with
  | C1 :: C2 :: C3 :: src =>
      [enc (Z.land (Z.shiftr C1 2) 0x3F);
       enc (Z.land (Z.shiftl (Z.land C1 3) 4 + Z.shiftr C2 4) 0x3F);
       enc (Z.land (Z.shiftl (Z.land C2 15) 2 + Z.shiftr C3 6) 0x3F);
       enc (Z.land C3 0x3F)] ++ encodeLoop src
  | [C1; C2] =>
      [enc (Z.land (Z.shiftr C1 2) 0x3F);
       enc (Z.land (Z.shiftl (Z.land C1 3) 4 + Z.shiftr C2 4) 0x3F);
       enc (Z.land (Z.shiftl (Z.land C2 15) 2) 0x3F); 61]
  | [C1] =>
      [enc (Z.land (Z.shiftr C1 2) 0x3F);
       enc (Z.land (Z.shiftl (Z.land C1 3) 4 + Z.shiftr 0 4) 0x3F); 61; 61]
  | [] => []
  end.

(** [mbedtls_base64_encode]: the result, [*olen], and the bytes written at [dst], which
    has room for [dlen]; [dst] is whether the pointer is not null *)
Definition mbedtls_base64_encode (dst : bool) (dlen : Z) (src : list Z) : Z * Z * list Z :=
  let slen := zlen src in
  if slen =? 0 then (0, 0, []) else
  let n := slen / 3 + (if slen mod 3 =? 0 then 0 else 1) in
  if n >? (BASE64_SIZE_T_MAX - 1) / 4 then (MBEDTLS_ERR_BASE64_BUFFER_TOO_SMALL, BASE64_SIZE_T_MAX, []) else
  let n := n * 4 in
  if (dlen <? n + 1) || negb dst then (MBEDTLS_ERR_BASE64_BUFFER_TOO_SMALL, n + 1, []) else
  let out := encodeLoop src in
  (0, zlen out, out ++ [0]).

(** The first pass: [x] spaces were just skipped, [n] characters and [j] paddings seen. *)
Fixpoint validate (src : list Z) (x n j : Z) : option (Z * Z) :=
  match src with
  | [] => Some (n, j)
  | c :: rest =>
      if c =? 32 then validate rest (u32 (x + 1)) n j else
      if (c =? 13) && match rest with d :: _ => d =? 10 | [] => false end then validate rest 0 n j else
      if c =? 10 then validate rest 0 n j else
      if negb (x =? 0) then None else
      let j := if c =? 61 then u32 (j + 1) else j in
      if (c =? 61) && (j >? 2) then None else
      if (c >? 127) || (dec c =? 127) then None else
      if (dec c <? 64) && negb (j =? 0) then None else
      validate rest 0 (n + 1) j
  end.

(** The second pass. *)
Fixpoint decodeLoop (src : list Z) (j n x : Z) : list Z :=
  match src with
  | [] => []
  | c :: rest =>
      if (c =? 13) || (c =? 10) || (c =? 32) then decodeLoop rest j n x else
      let j := u32 (j - (if dec c =? 64 then 1 else 0)) in
      let x := Z.lor (u32 (Z.shiftl x 6)) (Z.land (dec c) 0x3F) in
      if n + 1 =? 4 then
        (if j >? 0 then [u8 (Z.shiftr x 16)] else []) ++ (if j >? 1 then [u8 (Z.shiftr x 8)] else [])
        ++ (if j >? 2 then [u8 x] else []) ++ decodeLoop rest j 0 x
      else decodeLoop rest j (n + 1) x
  end.

(** [mbedtls_base64_decode] *)
Definition mbedtls_base64_decode (dst : bool) (dlen : Z) (src : list Z) : Z * option Z * list Z :=
  match validate src 0 0 0 with
  | None => (MBEDTLS_ERR_BASE64_INVALID_CHARACTER, None, [])
  | Some (n, j) =>
      if n =? 0 then (0, Some 0, []) else
      let n := u64 (6 * Z.shiftr n 3 + Z.shiftr (6 * Z.land n 7 + 7) 3 - j) in
      if negb dst || (dlen <? n) then (MBEDTLS_ERR_BASE64_BUFFER_TOO_SMALL, Some n, [])
      else let out := decodeLoop src 3 0 0 in (0, Some (zlen out), out)
  end.

(** [base64_test_dec], [base64_test_enc] and [mbedtls_base64_self_test] *)
Definition base64_test_dec : list Z := [
  0x24; 0x48; 0x6E; 0x56; 0x87; 0x62; 0x5A; 0xBD;
  0xBF; 0x17; 0xD9; 0xA2; 0xC4; 0x17; 0x1A; 0x01;
  0x94; 0xED; 0x8F; 0x1E; 0x11; 0xB3; 0xD7; 0x09;
  0x0C; 0xB6; 0xE9; 0x10; 0x6F; 0x22; 0xEE; 0x13;
  0xCA; 0xB3; 0x07; 0x05; 0x76; 0xC9; 0xFA; 0x31;
  0x6C; 0x08; 0x34; 0xFF; 0x8D; 0xC2; 0x6C; 0x38;
  0x00; 0x43; 0xE9; 0x54; 0x97; 0xAF; 0x50; 0x4B;
  0xD1; 0x41; 0xBA; 0x95; 0x31; 0x5A; 0x0B; 0x97].

Definition base64_test_enc : list Z := [
  74; 69; 104; 117; 86; 111; 100; 105; 87; 114; 50; 47; 70; 57; 109; 105;
  120; 66; 99; 97; 65; 90; 84; 116; 106; 120; 52; 82; 115; 57; 99; 74;
  68; 76; 98; 112; 69; 71; 56; 105; 55; 104; 80; 75; 115; 119; 99; 70;
  100; 115; 110; 54; 77; 87; 119; 73; 78; 80; 43; 78; 119; 109; 119; 52;
  65; 69; 80; 112; 86; 74; 101; 118; 85; 69; 118; 82; 81; 98; 113; 86;
  77; 86; 111; 76; 108; 119; 61; 61].

Definition mbedtls_base64_self_test : Z :=
  let '(ret, _, buffer) := mbedtls_base64_encode true 128 base64_test_dec in
  if negb (ret =? 0) || negb (bool_decide (ztake 88 buffer = base64_test_enc)) then 1 else
  let '(ret, _, buffer) := mbedtls_base64_decode true 128 base64_test_enc in
  if negb (ret =? 0) || negb (bool_decide (ztake 64 buffer = base64_test_dec)) then 1 else 0.

Example base64_self_test : mbedtls_base64_self_test = 0.
Proof. by vm_compute. Qed.

(** ** Lemmas *)

(** Three bytes at a time. *)
Lemma triples (P : list Z -> Prop) :
  P [] -> (forall a, P [a]) -> (forall a b, P [a; b]) -> (forall a b c l, P l -> P (a :: b :: c :: l)) ->
  forall l, P l.
Proof.
  intros H0 H1 H2 H3. fix IH 1. intros [|a [|b [|c l]]]; [done|done|done|apply H3, IH].
Qed.

Lemma enc_dec v : 0 <= v < 64 -> dec (enc v) = v /\ 43 <= enc v <= 122 /\ enc v <> 61.
Proof.
  intros Hv. assert (H : forallb (fun i => let v := Z.of_nat i in
    (dec (enc v) =? v) && (43 <=? enc v) && (enc v <=? 122) && negb (enc v =? 61)) (seq 0 64) = true) by (by vm_compute).
  rewrite forallb_forall in H. specialize (H (Z.to_nat v)). rewrite Z2Nat.id in H by lia.
  assert (Hin : In (Z.to_nat v) (seq 0 64)) by (apply in_seq; lia). specialize (H Hin). cbv zeta in H.
  repeat (apply andb_prop in H as [H ?]). rewrite ?negb_true_iff, ?Z.eqb_eq, ?Z.eqb_neq, ?Z.leb_le in *. lia.
Qed.

(** The sextets of a group. *)
Lemma sextets C1 C2 C3 : is_byte C1 -> is_byte C2 -> is_byte C3 ->
  Z.land (Z.shiftr C1 2) 0x3F = C1 / 4 /\
  Z.land (Z.shiftl (Z.land C1 3) 4 + Z.shiftr C2 4) 0x3F = C1 mod 4 * 16 + C2 / 16 /\
  Z.land (Z.shiftl (Z.land C2 15) 2 + Z.shiftr C3 6) 0x3F = C2 mod 16 * 4 + C3 / 64 /\
  Z.land C3 0x3F = C3 mod 64.
Proof.
  unfold is_byte. intros H1 H2 H3. change 0x3F with (Z.ones 6). change 3 with (Z.ones 2). change 15 with (Z.ones 4).
  rewrite !Z.land_ones, !Z.shiftr_div_pow2, !Z.shiftl_mul_pow2 by lia.
  change (2 ^ 6) with 64. change (2 ^ 2) with 4. change (2 ^ 4) with 16.
  split_and!; Z.div_mod_to_equations; lia.
Qed.

Lemma encode_len l : zlen (encodeLoop l) = 4 * (zlen l / 3 + (if zlen l mod 3 =? 0 then 0 else 1)).
Proof.
  induction l as [| | |a b c l IH] using triples; try done.
  change (encodeLoop (a :: b :: c :: l)) with
    ([enc (Z.land (Z.shiftr a 2) 0x3F); enc (Z.land (Z.shiftl (Z.land a 3) 4 + Z.shiftr b 4) 0x3F);
      enc (Z.land (Z.shiftl (Z.land b 15) 2 + Z.shiftr c 6) 0x3F); enc (Z.land c 0x3F)] ++ encodeLoop l).
  rewrite zlen_app, IH, !zlen_cons. change (zlen (@nil Z)) with 0.
  replace (1 + (1 + (1 + zlen l))) with (zlen l + 1 * 3) by lia. rewrite Z.div_add, Z.mod_add by lia. destruct (_ =? 0); lia.
Qed.

(** A character of the alphabet, in both passes. *)
Lemma validate_char v rest n j : 0 <= v < 64 -> validate (enc v :: rest) 0 n j = if j =? 0 then validate rest 0 (n + 1) 0 else None.
Proof.
  intros Hv. destruct (enc_dec v Hv) as (Hd & Hr & Hne). cbn [validate]. rewrite Hd.
  destruct (Z.eqb_spec (enc v) 32); [lia|]. destruct (Z.eqb_spec (enc v) 13); [lia|].
  destruct (Z.eqb_spec (enc v) 10); [lia|]. destruct (Z.eqb_spec (enc v) 61); [lia|].
  rewrite !Z.gtb_ltb. destruct (Z.ltb_spec 127 (enc v)); [lia|]. destruct (Z.eqb_spec v 127); [lia|].
  destruct (Z.ltb_spec v 64); [|lia]. cbn [andb orb negb Z.eqb]. by destruct (Z.eqb_spec j 0) as [->|].
Qed.

Lemma decode_char v rest j n x : 0 <= v < 64 -> 0 <= j < 2 ^ 32 -> 0 <= x ->
  decodeLoop (enc v :: rest) j n x =
    let x := x mod 2 ^ 26 * 64 + v in
    if n + 1 =? 4 then
      (if j >? 0 then [u8 (Z.shiftr x 16)] else []) ++ (if j >? 1 then [u8 (Z.shiftr x 8)] else [])
      ++ (if j >? 2 then [u8 x] else []) ++ decodeLoop rest j 0 x
    else decodeLoop rest j (n + 1) x.
Proof.
  intros Hv Hj Hx. destruct (enc_dec v Hv) as (Hd & Hr & Hne). cbn [decodeLoop]. rewrite Hd.
  destruct (Z.eqb_spec (enc v) 32); [lia|]. destruct (Z.eqb_spec (enc v) 13); [lia|].
  destruct (Z.eqb_spec (enc v) 10); [lia|]. destruct (Z.eqb_spec v 64); [lia|]. cbn [orb].
  rewrite Z.sub_0_r, (wrap_small 32 j) by lia.
  assert (E : Z.lor (u32 (Z.shiftl x 6)) (Z.land v 0x3F) = x mod 2 ^ 26 * 64 + v).
  { change 0x3F with (Z.ones 6). rewrite Z.land_ones, (Z.mod_small v) by lia.
    unfold wrap. rewrite Z.shiftl_mul_pow2 by lia.
    replace (x * 2 ^ 6) with (2 ^ 6 * x) by lia. change (2 ^ 32) with (2 ^ 6 * 2 ^ 26).
    rewrite Z.mul_mod_distr_l by lia. rewrite Z.mul_comm, <- Z.shiftl_mul_pow2 by lia.
    rewrite lor_shiftl_add by lia. change (2 ^ 6) with 64. lia. }
  by rewrite E.
Qed.

Lemma decode_pad rest j n x : 0 < j < 2 ^ 32 -> 0 <= x ->
  decodeLoop (61 :: rest) j n x =
    let x := x mod 2 ^ 26 * 64 in let j := j - 1 in
    if n + 1 =? 4 then
      (if j >? 0 then [u8 (Z.shiftr x 16)] else []) ++ (if j >? 1 then [u8 (Z.shiftr x 8)] else [])
      ++ (if j >? 2 then [u8 x] else []) ++ decodeLoop rest j 0 x
    else decodeLoop rest j (n + 1) x.
Proof.
  intros Hj Hx. cbn [decodeLoop]. change (dec 61) with 64.
  change ((61 =? 13) || (61 =? 10) || (61 =? 32)) with false. change (64 =? 64) with true. cbv iota. rewrite (wrap_small 32 (j - 1)) by lia.
  change (Z.land 64 0x3F) with 0. rewrite Z.lor_0_r. unfold wrap. rewrite Z.shiftl_mul_pow2 by lia.
  replace (x * 2 ^ 6) with (2 ^ 6 * x) by lia. change (2 ^ 32) with (2 ^ 6 * 2 ^ 26).
  rewrite Z.mul_mod_distr_l by lia. by replace (2 ^ 6 * (x mod 2 ^ 26)) with (x mod 2 ^ 26 * 64) by lia.
Qed.

(** The accumulated sextets are the bytes. *)
Lemma push_mod x v k : 0 <= v < 64 -> 0 <= k <= 26 ->
  (x mod 2 ^ 26 * 64 + v) mod 2 ^ (k + 6) = x mod 2 ^ k * 64 + v.
Proof.
  intros Hv Hk. rewrite Z.pow_add_r by lia. change (2 ^ 6) with 64.
  assert (H26 : 2 ^ 26 = 2 ^ k * 2 ^ (26 - k)) by (rewrite <- Z.pow_add_r by lia; f_equal; lia).
  assert (Hp : 0 < 2 ^ k) by (apply Z.pow_pos_nonneg; lia).
  assert (Hq : 0 < 2 ^ (26 - k)) by (apply Z.pow_pos_nonneg; lia).
  assert (Hx : x mod 2 ^ k = (x mod 2 ^ 26) mod 2 ^ k).
  { rewrite H26, Z.rem_mul_r by lia. rewrite Z.mul_comm, Z.mod_add, Z.mod_mod by lia. done. }
  rewrite Hx. set (y := x mod 2 ^ 26). symmetry.
  apply (Z.mod_unique _ _ (y / 2 ^ k)).
  - left. pose proof (Z.mod_pos_bound y (2 ^ k) Hp). lia.
  - pose proof (Z.div_mod y (2 ^ k) ltac:(lia)). nia.
Qed.

Lemma bytes_of y a b c : is_byte a -> is_byte b -> is_byte c -> y mod 2 ^ 24 = 65536 * a + 256 * b + c ->
  u8 (Z.shiftr y 16) = a /\ u8 (Z.shiftr y 8) = b /\ u8 y = c.
Proof.
  unfold is_byte. intros Ha Hb Hc Hy. unfold wrap. rewrite !Z.shiftr_div_pow2 by lia.
  change (2 ^ 24) with 16777216 in Hy. change (2 ^ 16) with 65536. change (2 ^ 8) with 256.
  pose proof (Z.div_mod y 16777216 ltac:(lia)) as Hdm. rewrite Hy in Hdm. set (q := y / 16777216) in *. clearbody q.
  replace y with (c + (b + (a + q * 256) * 256) * 256) by lia.
  split_and!.
  - change 65536 with (256 * 256). rewrite <- Z.div_div, Z.div_add, (Z.div_small c) by lia.
    rewrite Z.add_0_l, Z.div_add, (Z.div_small b) by lia. rewrite Z.add_0_l, Z.mod_add by lia. by apply Z.mod_small.
  - rewrite Z.div_add, (Z.div_small c) by lia. rewrite Z.add_0_l, Z.mod_add by lia. by apply Z.mod_small.
  - rewrite Z.mod_add by lia. by apply Z.mod_small.
Qed.

Lemma four_pushed x a b c : is_byte a -> is_byte b -> is_byte c ->
  ((((x mod 2 ^ 26 * 64 + a / 4) mod 2 ^ 26 * 64 + (a mod 4 * 16 + b / 16)) mod 2 ^ 26 * 64
    + (b mod 16 * 4 + c / 64)) mod 2 ^ 26 * 64 + c mod 64) mod 2 ^ 24 = 65536 * a + 256 * b + c.
Proof.
  unfold is_byte. intros Ha Hb Hc.
  rewrite (push_mod _ _ 18), (push_mod _ _ 12), (push_mod _ _ 6), (push_mod _ _ 0) by (Z.div_mod_to_equations; lia).
  rewrite Z.mod_1_r. Z.div_mod_to_equations. lia.
Qed.

Lemma sextet_range a b : is_byte a -> is_byte b ->
  0 <= a / 4 < 64 /\ 0 <= a mod 4 * 16 + b / 16 < 64 /\ 0 <= a mod 16 * 4 + b / 64 < 64 /\ 0 <= a mod 64 < 64.
Proof. unfold is_byte. intros Ha Hb. Z.div_mod_to_equations. lia. Qed.

(** Encoding in terms of sextets. *)
Lemma encode_group a b c l : is_byte a -> is_byte b -> is_byte c ->
  encodeLoop (a :: b :: c :: l) =
    enc (a / 4) :: enc (a mod 4 * 16 + b / 16) :: enc (b mod 16 * 4 + c / 64) :: enc (c mod 64) :: encodeLoop l.
Proof. intros Ha Hb Hc. cbn [encodeLoop app]. by destruct (sextets a b c Ha Hb Hc) as (-> & -> & -> & ->). Qed.

Lemma encode_two a b : is_byte a -> is_byte b ->
  encodeLoop [a; b] = [enc (a / 4); enc (a mod 4 * 16 + b / 16); enc (b mod 16 * 4 + 0 / 64); 61].
Proof.
  intros Ha Hb. cbn [encodeLoop app]. destruct (sextets a b 0 Ha Hb) as (-> & -> & Hc & _); [done|].
  rewrite <- Hc. by rewrite Z.shiftr_0_l, Z.add_0_r.
Qed.

Lemma encode_one a : is_byte a -> encodeLoop [a] = [enc (a / 4); enc (a mod 4 * 16 + 0 / 16); 61; 61].
Proof. intros Ha. cbn [encodeLoop app]. by destruct (sextets a 0 0 Ha) as (-> & -> & _ & _). Qed.

Lemma push_nonneg x v : 0 <= v -> 0 <= x mod 2 ^ 26 * 64 + v.
Proof. intros Hv. pose proof (Z.mod_pos_bound x (2 ^ 26) ltac:(lia)). lia. Qed.

(** A whole group decoded. *)
Lemma decode_group a b c l x : is_byte a -> is_byte b -> is_byte c -> 0 <= x ->
  exists y, 0 <= y /\ decodeLoop (encodeLoop (a :: b :: c :: l)) 3 0 x = a :: b :: c :: decodeLoop (encodeLoop l) 3 0 y.
Proof.
  intros Ha Hb Hc Hx. rewrite encode_group by done.
  destruct (sextet_range a b Ha Hb) as (H1 & H2 & _). destruct (sextet_range b c Hb Hc) as (_ & _ & H3 & _).
  destruct (sextet_range c c Hc Hc) as (_ & _ & _ & H4).
  repeat (rewrite decode_char; [|lia|lia|repeat apply push_nonneg; lia]; cbv zeta;
    match goal with |- context [if ?n + 1 =? 4 then _ else _] => 
      let e := eval cbv in (n + 1) in change (n + 1) with e end; cbn [Z.eqb Pos.eqb]).
  pose proof (four_pushed x a b c Ha Hb Hc) as Hy. set (y := _ * 64 + c mod 64) in *.
  exists y. split; [apply push_nonneg; lia|]. destruct (bytes_of y a b c Ha Hb Hc Hy) as (-> & -> & ->). done.
Qed.

Ltac next_char := first
  [ rewrite decode_char; [|lia|lia|repeat apply push_nonneg; lia]
  | rewrite decode_pad; [|lia|repeat apply push_nonneg; lia] ];
  cbv zeta; match goal with |- context [if ?n + 1 =? 4 then _ else _] =>
    let e := eval cbv in (n + 1) in change (n + 1) with e end; cbn [Z.eqb Pos.eqb].

Lemma decode_two a b x : is_byte a -> is_byte b -> 0 <= x -> decodeLoop (encodeLoop [a; b]) 3 0 x = [a; b].
Proof.
  intros Ha Hb Hx. rewrite encode_two by done.
  destruct (sextet_range a b Ha Hb) as (H1 & H2 & _). destruct (sextet_range b 0 Hb) as (_ & _ & H3 & _); [done|].
  do 4 next_char. pose proof (four_pushed x a b 0 Ha Hb ltac:(done)) as Hy.
  change (0 mod 64) with 0 in Hy. rewrite Z.add_0_r in Hy. set (y := _ mod 2 ^ 26 * 64) in *.
  by destruct (bytes_of y a b 0 Ha Hb ltac:(done) Hy) as (-> & -> & _).
Qed.

Lemma decode_one a x : is_byte a -> 0 <= x -> decodeLoop (encodeLoop [a]) 3 0 x = [a].
Proof.
  intros Ha Hx. rewrite encode_one by done. destruct (sextet_range a 0 Ha) as (H1 & H2 & _); [done|].
  do 3 next_char. rewrite decode_pad; [|lia|pose proof (push_nonneg (x mod 2 ^ 26 * 64 + a / 4) (a mod 4 * 16 + 0 / 16));
    set (t := (x mod 2 ^ 26 * 64 + a / 4) mod 2 ^ 26 * 64 + (a mod 4 * 16 + 0 / 16)) in *;
    pose proof (Z.mod_pos_bound t (2 ^ 26) ltac:(lia)); lia].
  cbv zeta. change (3 + 1) with 4. cbn [Z.eqb Pos.eqb].
  pose proof (four_pushed x a 0 0 Ha ltac:(done) ltac:(done)) as Hy.
  change (0 mod 64) with 0 in Hy. change (0 mod 16 * 4 + 0 / 64) with 0 in Hy. rewrite !Z.add_0_r in Hy.
  change (0 / 16) with 0. rewrite Z.add_0_r. set (y := _ mod 2 ^ 26 * 64) in *.
  by destruct (bytes_of y a 0 0 Ha ltac:(done) ltac:(done) ltac:(rewrite Hy; lia)) as (-> & _ & _).
Qed.

Lemma decode_encode l x : is_bytes l -> 0 <= x -> decodeLoop (encodeLoop l) 3 0 x = l.
Proof.
  revert x. induction l as [|a|a b|a b c l IH] using triples; intros x Hl Hx; [done|..].
  - apply decode_one; [by inversion Hl|done].
  - inversion_clear Hl as [|? ? Ha Hl']. inversion_clear Hl'. by apply decode_two.
  - inversion_clear Hl as [|? ? Ha Hl']. inversion_clear Hl' as [|? ? Hb Hl]. inversion_clear Hl as [|? ? Hc Hl'].
    destruct (decode_group a b c l x Ha Hb Hc Hx) as (y & Hy & ->). by rewrite IH.
Qed.

(** What the first pass finds in an encoding. *)
Definition pads (n : Z) : Z := if n mod 3 =? 0 then 0 else 3 - n mod 3.

Lemma validate_encode l n : is_bytes l ->
  validate (encodeLoop l) 0 n 0 = Some (n + zlen (encodeLoop l), pads (zlen l)).
Proof.
  revert n. induction l as [|a|a b|a b c l IH] using triples; intros n Hl.
  - cbn. do 2 f_equal. change (zlen (@nil Z)) with 0. lia.
  - inversion_clear Hl as [|? ? Ha _]. rewrite encode_one by done.
    destruct (sextet_range a 0 Ha) as (H1 & H2 & _); [done|]. rewrite !validate_char by done. cbn [Z.eqb validate].
    unfold zlen. cbn. do 2 f_equal. lia.
  - inversion_clear Hl as [|? ? Ha Hl']. inversion_clear Hl' as [|? ? Hb _]. rewrite encode_two by done.
    destruct (sextet_range a b Ha Hb) as (H1 & H2 & _). destruct (sextet_range b 0 Hb) as (_ & _ & H3 & _); [done|].
    rewrite validate_char by done. change (0 =? 0) with true. cbv iota.
    rewrite validate_char by done. change (0 =? 0) with true. cbv iota.
    rewrite validate_char by done. change (0 =? 0) with true. cbv iota.
    cbn [validate]. unfold zlen. cbn. do 2 f_equal. lia.
  - inversion_clear Hl as [|? ? Ha Hl']. inversion_clear Hl' as [|? ? Hb Hl]. inversion_clear Hl as [|? ? Hc Hl'].
    rewrite encode_group by done.
    destruct (sextet_range a b Ha Hb) as (H1 & H2 & _). destruct (sextet_range b c Hb Hc) as (_ & _ & H3 & _).
    destruct (sextet_range c c Hc Hc) as (_ & _ & _ & H4).
    do 4 (rewrite validate_char by done; change (0 =? 0) with true; cbv iota).
    rewrite IH by done. rewrite !zlen_cons. f_equal. f_equal; [lia|]. unfold pads.
    replace (1 + (1 + (1 + zlen l))) with (zlen l + 1 * 3) by lia. by rewrite Z.mod_add by lia.
Qed.

(** *** Line breaks *)

Definition noBreaks (s : list Z) : list Z := filter (fun c => c <> 10) s.

Lemma validate_breaks s n j : ~ In 13 s -> ~ In 32 s -> validate s 0 n j = validate (noBreaks s) 0 n j.
Proof.
  unfold noBreaks. revert n j. induction s as [|c s IH]; intros n j H13 H32; [done|].
  assert (Hs13 : ~ In 13 s) by (intros ?; apply H13; by right). assert (Hs32 : ~ In 32 s) by (intros ?; apply H32; by right).
  assert (Hc13 : c <> 13) by (intros ->; apply H13; by left). assert (Hc32 : c <> 32) by (intros ->; apply H32; by left).
  rewrite filter_cons. destruct (decide (c <> 10)) as [Hc|Hc]; cbn [validate];
    destruct (Z.eqb_spec c 32); try done; destruct (Z.eqb_spec c 13); try done; cbn [andb].
  - destruct (Z.eqb_spec c 10); [done|]. change (negb (0 =? 0)) with false. cbv iota.
    repeat (match goal with |- (if ?b then _ else _) = _ => destruct b; [done|] end). by rewrite IH.
  - destruct (Z.eqb_spec c 10); [|done]. by apply IH.
Qed.

Lemma decode_breaks s j n x : ~ In 13 s -> ~ In 32 s -> decodeLoop s j n x = decodeLoop (noBreaks s) j n x.
Proof.
  unfold noBreaks. revert j n x. induction s as [|c s IH]; intros j n x H13 H32; [done|].
  assert (Hs13 : ~ In 13 s) by (intros ?; apply H13; by right). assert (Hs32 : ~ In 32 s) by (intros ?; apply H32; by right).
  assert (Hc13 : c <> 13) by (intros ->; apply H13; by left). assert (Hc32 : c <> 32) by (intros ->; apply H32; by left).
  rewrite filter_cons. destruct (decide (c <> 10)) as [Hc|Hc]; cbn [decodeLoop].
  - destruct (Z.eqb_spec c 13), (Z.eqb_spec c 10), (Z.eqb_spec c 32); try done. cbn [orb].
    rewrite !IH by done. done.
  - destruct (Z.eqb_spec c 13), (Z.eqb_spec c 10), (Z.eqb_spec c 32); try done; cbn [orb]; by apply IH.
Qed.

(** *** How much the second pass writes *)

(** Emitted so far, of what the first pass will announce: see [emitted_step]. *)
Definition state_ok (n j e : Z) : Prop :=
  (j = 0 /\ e = 3 * (n / 4)) \/
  (1 <= j <= 2 /\ e = 3 * (n / 4) /\ j <= n mod 4) \/
  (1 <= j <= 2 /\ e = 3 * (n / 4) - (j - n mod 4) /\ n mod 4 < j).

Definition announced (n j : Z) : Z := 6 * (n / 8) + (6 * (n mod 8) + 7) / 8 - j.

Lemma announced_bound n j : 0 <= n -> announced n j = (3 * n + 3) / 4 - j.
Proof. intros Hn. unfold announced. Z.div_mod_to_equations. lia. Qed.

Lemma state_ok_end n j e : 0 <= n -> state_ok n j e -> e <= announced n j.
Proof.
  intros Hn H. rewrite announced_bound by done. unfold state_ok in H. Z.div_mod_to_equations. lia.
Qed.

Definition written (j : Z) : Z := (if j >? 0 then 1 else 0) + (if j >? 1 then 1 else 0) + (if j >? 2 then 1 else 0).

(** One more character: [d] is 1 for the padding character, which must not be followed
    by others. *)
Lemma emitted_step n j e d : 0 <= n -> 0 <= d <= 1 -> j + d <= 2 -> (d = 0 -> j = 0) -> state_ok n j e ->
  state_ok (n + 1) (j + d) (e + if n mod 4 + 1 =? 4 then written (3 - (j + d)) else 0) /\
  (n + 1) mod 4 = if n mod 4 + 1 =? 4 then 0 else n mod 4 + 1.
Proof.
  intros Hn Hd Hj Hjd H. unfold state_ok in *.
  destruct (Z.eqb_spec (n mod 4 + 1) 4) as [H4|H4].
  - assert (Hq : (n + 1) / 4 = n / 4 + 1 /\ (n + 1) mod 4 = 0) by (Z.div_mod_to_equations; lia).
    destruct Hq as [-> ->]. split; [|done].
    assert (Hcase : (j = 0 /\ d = 0) \/ (j = 0 /\ d = 1) \/ (j = 1 /\ d = 1)) by lia.
    destruct Hcase as [[-> ->]|[[-> ->]|[-> ->]]];
      [change (written _) with 3|change (written _) with 2|change (written _) with 1]; lia.
  - assert (Hq : (n + 1) / 4 = n / 4 /\ (n + 1) mod 4 = n mod 4 + 1) by (Z.div_mod_to_equations; lia).
    destruct Hq as [-> ->]. split; [|done]. pose proof (Z.mod_pos_bound n 4 ltac:(lia)). rewrite Z.add_0_r. lia.
Qed.

Lemma dec_letter c : c <> 61 -> c <= 127 -> dec c <> 127 -> dec c < 64.
Proof.
  intros H61 Hc H127. unfold dec in *.
  assert (Hall : forallb (fun i => (nth i base64_dec_map 0 <? 64) || (nth i base64_dec_map 0 =? 127) || (i =? 61)%nat)
    (seq 0 128) = true) by (by vm_compute). rewrite forallb_forall in Hall.
  specialize (Hall (Z.to_nat c) ltac:(apply in_seq; lia)). rewrite !orb_true_iff in Hall.
  rewrite Z.ltb_lt, Z.eqb_eq, Nat.eqb_eq in Hall. destruct Hall as [[?|?]|?]; [done|done|lia].
Qed.

(** What one accepted character is. *)
Lemma validate_cons c s x n j r : validate (c :: s) x n j = Some r -> 0 <= j <= 2 ->
  (exists x', (c = 13 \/ c = 10 \/ c = 32) /\ validate s x' n j = Some r) \/
  (exists d, (c <> 13 /\ c <> 10 /\ c <> 32) /\ 0 <= d <= 1 /\ j + d <= 2 /\ (d = 0 -> j = 0) /\
     (if dec c =? 64 then 1 else 0) = d /\ validate s 0 (n + 1) (j + d) = Some r).
Proof.
  cbn [validate]. intros Hv Hj. revert Hv.
  destruct (Z.eqb_spec c 32) as [->|H32]; [left; eauto|].
  destruct ((c =? 13) && _) eqn:E13; [apply andb_prop in E13 as [?%Z.eqb_eq _]; left; eauto|].
  destruct (Z.eqb_spec c 10) as [->|H10]; [left; eauto|].
  destruct (negb (x =? 0)); [done|].
  destruct (decide (c = 13)) as [->|H13]; [done|].
  destruct (decide (c = 61)) as [->|H61]; rewrite ?(proj2 (Z.eqb_eq 61 61)), ?(proj2 (Z.eqb_neq c 61) H61) by done;
    cbn [andb].
  - rewrite (wrap_small 32) by lia. rewrite Z.gtb_ltb. destruct (Z.ltb_spec 2 (j + 1)); [done|].
    change ((61 >? 127) || (dec 61 =? 127)) with false. change (dec 61 <? 64) with false. cbn [andb].
    intros Hv. right. exists 1. split_and!; done || lia.
  - destruct ((c >? 127) || (dec c =? 127)) eqn:E127; [done|].
    apply orb_false_iff in E127 as [E1 E2]. rewrite Z.gtb_ltb in E1. apply Z.ltb_ge in E1. apply Z.eqb_neq in E2.
    pose proof (dec_letter c H61 E1 E2) as Hd. destruct (Z.ltb_spec (dec c) 64); [|lia]. cbn [andb].
    destruct (Z.eqb_spec j 0) as [->|]; [|done]. intros Hv. right. exists 0.
    split_and!; try done. destruct (Z.eqb_spec (dec c) 64); [lia|done].
Qed.

Lemma decode_written s : forall x n j n' j' x2 e,
  validate s x n j = Some (n', j') -> 0 <= n -> 0 <= j <= 2 -> state_ok n j e ->
  e + zlen (decodeLoop s (3 - j) (n mod 4) x2) <= announced n' j' /\ 0 <= j' <= 2 /\ n <= n' <= n + zlen s.
Proof.
  induction s as [|c s IH]; intros x n j n' j' x2 e Hv Hn Hj Hok.
  - injection Hv as <- <-. cbn [decodeLoop]. pose proof (state_ok_end n j e Hn Hok). unfold zlen. cbn [length]. lia.
  - rewrite zlen_cons. cbn [decodeLoop].
    destruct (validate_cons c s x n j _ Hv Hj) as [(x' & Hc & Hv')|(d & Hc & Hd & Hjd & Hd0 & Hdec & Hv')].
    + assert (E : (c =? 13) || (c =? 10) || (c =? 32) = true) by (by destruct Hc as [->|[->| ->]]). rewrite E.
      destruct (IH _ _ _ _ _ x2 e Hv' Hn Hj Hok) as (? & ? & ?). lia.
    + destruct (Z.eqb_spec c 13), (Z.eqb_spec c 10), (Z.eqb_spec c 32); try tauto. cbn [orb]. rewrite Hdec.
      replace (u32 (3 - j - d)) with (3 - (j + d)) by (rewrite wrap_small; lia). set (x3 := Z.lor _ _).
      destruct (emitted_step n j e d Hn Hd Hjd Hd0 Hok) as [Hok' Hm].
      destruct (IH _ _ _ _ _ x3 _ Hv' ltac:(lia) ltac:(lia) Hok') as (Hb & Hj' & Hn'). rewrite Hm in Hb. revert Hb.
      destruct (n mod 4 + 1 =? 4); [|intros; lia]. unfold written.
      destruct (3 - (j + d) >? 0), (3 - (j + d) >? 1), (3 - (j + d) >? 2); cbn [app];
        rewrite ?zlen_cons; intros; lia.
Qed.

Lemma encode_chars l : is_bytes l -> Forall (fun c => 43 <= c <= 122) (encodeLoop l).
Proof.
  assert (HE : forall v, 0 <= v < 64 -> 43 <= enc v <= 122) by (intros v Hv; by apply enc_dec).
  induction l as [|a|a b|a b c l IH] using triples; intros Hl; [constructor|..].
  - inversion_clear Hl as [|? ? Ha _]. rewrite encode_one by done.
    destruct (sextet_range a 0 Ha) as (H1 & H2 & _); [done|]. repeat constructor; done || (apply HE; done).
  - inversion_clear Hl as [|? ? Ha Hl']. inversion_clear Hl' as [|? ? Hb _]. rewrite encode_two by done.
    destruct (sextet_range a b Ha Hb) as (H1 & H2 & _). destruct (sextet_range b 0 Hb) as (_ & _ & H3 & _); [done|].
    repeat constructor; done || (apply HE; done).
  - inversion_clear Hl as [|? ? Ha Hl']. inversion_clear Hl' as [|? ? Hb Hl]. inversion_clear Hl as [|? ? Hc Hl'].
    rewrite encode_group by done.
    destruct (sextet_range a b Ha Hb) as (H1 & H2 & _). destruct (sextet_range b c Hb Hc) as (_ & _ & H3 & _).
    destruct (sextet_range c c Hc Hc) as (_ & _ & _ & H4). repeat constructor; try (apply HE; done). by apply IH.
Qed.

Lemma size_announced n j : 0 <= n < 2 ^ 62 -> 0 <= j <= 2 -> 0 <= announced n j ->
  u64 (6 * Z.shiftr n 3 + Z.shiftr (6 * Z.land n 7 + 7) 3 - j) = announced n j.
Proof.
  intros Hn Hj Ha. change 7 with (Z.ones 3) at 1. rewrite Z.land_ones, !Z.shiftr_div_pow2 by lia.
  change (2 ^ 3) with 8. change (6 * (n / 8) + (6 * (n mod 8) + 7) / 8 - j) with (announced n j).
  apply wrap_small. split; [done|]. rewrite announced_bound by lia. Z.div_mod_to_equations. lia.
Qed.

(** ** The theorems *)


(** C40: decoding is safe on any input: it either refuses it, or announces a size such
    that with less room it writes nothing and says so, and with that room it succeeds
    and writes at most that many bytes. *)
Theorem base64_decode_safe s : zlen s < 2 ^ 31 ->
  (forall dlen, mbedtls_base64_decode true dlen s = (MBEDTLS_ERR_BASE64_INVALID_CHARACTER, None, [])) \/
  exists N out, 0 <= N /\ zlen out <= N /\
    forall dlen, 0 <= dlen -> mbedtls_base64_decode true dlen s =
      if dlen <? N then (MBEDTLS_ERR_BASE64_BUFFER_TOO_SMALL, Some N, []) else (0, Some (zlen out), out).
Proof.
  intros Hs. unfold mbedtls_base64_decode. destruct (validate s 0 0 0) as [[n j]|] eqn:E; [right|by left].
  destruct (decode_written s 0 0 0 n j 0 0 E) as (Hw & Hj & Hn); [lia|lia|by left|].
  change (3 - 0) with 3 in Hw. change (0 mod 4) with 0 in Hw.
  pose proof (zlen_nonneg (decodeLoop s 3 0 0)).
  destruct (Z.eqb_spec n 0) as [->|Hn0].
  - exists 0, []. split_and!; [done|done|]. intros dlen Hd. by destruct (Z.ltb_spec dlen 0); [lia|].
  - exists (announced n j), (decodeLoop s 3 0 0). split_and!; [lia|lia|]. intros dlen Hd.
    rewrite size_announced by lia. cbn [negb orb]. by destruct (dlen <? announced n j).
Qed.


Lemma base64_decode_safe_witness : mbedtls_base64_decode true 0 [61; 61; 61] = (MBEDTLS_ERR_BASE64_INVALID_CHARACTER, None, []).
Proof.
  destruct (base64_decode_safe [61; 61; 61]) as [H|(N & out & _ & _ & H)]; [done|apply H|].
  specialize (H 0 ltac:(done)). revert H. vm_compute. by destruct N.
Defined.
