(* ===== verification/RtpLogin.v ===== *)
(** * The login of an RTP session ([rtp_session_tcpclient_ex.cpp], [rtp_session_tcpserver_ex.cpp])

    A client of the extended protocol connects, tells the server who it is and proves that it
    knows the password ([RTP_SESSION_INFO] in a packet), gets the server's version back, and
    only then has a transport; then it is the session of [RtpSession].  The server's end
    starts with the transport and sends its version.  The SSL variants have the same methods
    with a context of the TLS library.

    Methods are functions of what the objects they create answer, with the effects they have.
    The upcalls of a method are its last accesses to the object, so an observer that calls
    back is the next step of a run.  [None] is a read outside of a received block. *)

From S2P Require Import Prelude Bytes Bsd Md Hash SslUtil RtpPacket RtpSession.

(** ** [RTP_SESSION_INFO] *)

Module SessionInfo.

Record t := mkInfo {
  localVersion : Z;
  remoteVersion : Z;
  sessionType : Z;
  mmType : Z;
  passwordHash : list Z;
  reserved : list Z;
  someId : Z;
  mmId : Z;
  inSrcMmId : Z;
  outSrcMmId : Z;
  userData : list Z
}.
Definition sizeof_RTP_SESSION_INFO : Z := 152.

(** Its memory on a little-endian machine; the members follow each other without gaps. *)
Definition members (i : t) : list (list Z) :=
  [le_bytes 2 (localVersion i); le_bytes 2 (remoteVersion i); [sessionType i]; [mmType i]; passwordHash i; reserved i;
   le_bytes 4 (someId i); le_bytes 4 (mmId i); le_bytes 4 (inSrcMmId i); le_bytes 4 (outSrcMmId i); userData i].
Definition image (i : t) : list Z := concat (members i).
Definition ofImage (l : list Z) : t :=
  mkInfo (load 2 0 l) (load 2 2 l) (load 1 4 l) (load 1 5 l) (zsub 6 32 l) (zsub 38 34 l)
    (load 4 72 l) (load 4 76 l) (load 4 80 l) (load 4 84 l) (zsub 88 64 l).

(** The conversions that both ends do member by member. *)
Definition toNetwork (i : t) : t :=
  mkInfo (pbsd_hton16 (localVersion i)) (pbsd_hton16 (remoteVersion i)) (sessionType i) (mmType i) (passwordHash i) (reserved i)
    (pbsd_hton32 (someId i)) (pbsd_hton32 (mmId i)) (pbsd_hton32 (inSrcMmId i)) (pbsd_hton32 (outSrcMmId i)) (userData i).
Definition toHost (i : t) : t :=
  mkInfo (pbsd_ntoh16 (localVersion i)) (pbsd_ntoh16 (remoteVersion i)) (sessionType i) (mmType i) (passwordHash i) (reserved i)
    (pbsd_ntoh32 (someId i)) (pbsd_ntoh32 (mmId i)) (pbsd_ntoh32 (inSrcMmId i)) (pbsd_ntoh32 (outSrcMmId i)) (userData i).

Definition setVersions (local remote : Z) (i : t) : t :=
  mkInfo local remote (sessionType i) (mmType i) (passwordHash i) (reserved i) (someId i) (mmId i) (inSrcMmId i) (outSrcMmId i) (userData i).
Definition setType (st : Z) (i : t) : t :=
  mkInfo (localVersion i) (remoteVersion i) st (mmType i) (passwordHash i) (reserved i) (someId i) (mmId i) (inSrcMmId i) (outSrcMmId i) (userData i).
Definition setHash (h : list Z) (i : t) : t :=
  mkInfo (localVersion i) (remoteVersion i) (sessionType i) (mmType i) h (reserved i) (someId i) (mmId i) (inSrcMmId i) (outSrcMmId i) (userData i).

Record wf (i : t) : Prop := mkWf {
  wf_localVersion : 0 <= localVersion i < 2 ^ 16;
  wf_remoteVersion : 0 <= remoteVersion i < 2 ^ 16;
  wf_sessionType : 0 <= sessionType i < 2 ^ 8;
  wf_mmType : 0 <= mmType i < 2 ^ 8;
  wf_hash : is_bytes (passwordHash i) /\ zlen (passwordHash i) = 32;
  wf_reserved : is_bytes (reserved i) /\ zlen (reserved i) = 34;
  wf_someId : 0 <= someId i < 2 ^ 32;
  wf_mmId : 0 <= mmId i < 2 ^ 32;
  wf_inSrc : 0 <= inSrcMmId i < 2 ^ 32;
  wf_outSrc : 0 <= outSrcMmId i < 2 ^ 32;
  wf_userData : is_bytes (userData i) /\ zlen (userData i) = 64
}.

Lemma toHost_toNetwork i : wf i -> toHost (toNetwork i) = i.
Proof.
  intros [? ? ? ? ? ? ? ? ? ? ?]. destruct i. unfold toHost, toNetwork. cbn [localVersion remoteVersion someId mmId inSrcMmId outSrcMmId sessionType mmType passwordHash reserved userData] in *.
  by rewrite !ntoh16_hton16, !ntoh32_hton32 by done.
Qed.
Lemma toNetwork_wf i : wf i -> wf (toNetwork i).
Proof. intros [? ? ? ? ? ? ? ? ? ? ?]. split; cbn; try done; try apply hton16_range; apply hton32_range. Qed.

Lemma image_size i : wf i -> zlen (image i) = sizeof_RTP_SESSION_INFO.
Proof.
  intros [? ? ? ? [_ H1] [_ H2] ? ? ? ? [_ H3]]. unfold image, members. cbn [concat]. rewrite !zlen_app, !zlen_le_bytes, H1, H2, H3. reflexivity.
Qed.
Lemma image_is_bytes i : wf i -> is_bytes (image i).
Proof.
  intros [? ? ? ? [H1 _] [H2 _] ? ? ? ? [H3 _]]. unfold image, members. cbn [concat].
  repeat (apply is_bytes_app; split); try done; try apply le_bytes_is_bytes; try (constructor; [by unfold is_byte|done]). constructor.
Qed.

Lemma ofImage_image i : wf i -> ofImage (image i) = i.
Proof.
  intros [H1 H2 H3 H4 [_ H5] [_ H6] H7 H8 H9 H10 [_ H11]]. unfold ofImage, image.
  assert (Hm : forall v, 0 <= v < 2 ^ 8 -> [v] = le_bytes 1 v) by (intros v Hv; cbn; by rewrite Z.mod_small).
  rewrite (number_at (members i) 0 2 0 (localVersion i)), (number_at (members i) 1 2 2 (remoteVersion i)),
    (number_at (members i) 2 1 4 (sessionType i)), (number_at (members i) 3 1 5 (mmType i)),
    (part_at (members i) 4 (passwordHash i) 6 32), (part_at (members i) 5 (reserved i) 38 34),
    (number_at (members i) 6 4 72 (someId i)), (number_at (members i) 7 4 76 (mmId i)), (number_at (members i) 8 4 80 (inSrcMmId i)),
    (number_at (members i) 9 4 84 (outSrcMmId i)), (part_at (members i) 10 (userData i) 88 64);
    first [by destruct i|done|cbn [members lookup list_lookup]; by rewrite <- Hm|
           unfold members; cbn [take concat]; rewrite ?zlen_app, ?zlen_le_bytes, ?H5, ?H6; reflexivity].
Qed.

End SessionInfo.

(** ** The client *)

Module CRtpSessionTcpclientEx.
Import SessionInfo.
Local Abbreviation DEFAULT_TIMEOUT := 20.
Definition GetRtpSessionVersion : Z := 1.

(** [CRtpSessionTcpclientEx], before it has a transport: [active] is whether observer and
    reactor are set; the objects are addresses or 0; of the SSL configuration only whether it
    is there *)
Record t := mkClient {
  m_info : SessionInfo.t;
  m_sslConfig : bool;
  m_password : list Z;
  m_timeoutInSeconds : Z;
  active : bool;
  m_connector : Z;
  m_tcpHandshaker : Z;
  m_sslHandshaker : Z;
  m_trans : Z;
  m_timeoutTimerId : Z;
  m_tcpConnected : bool;
  m_handshakeOk : bool;
  m_onOkCalled : bool;
  m_canUpcall : bool
}.

Inductive effect :=
  | CreateConnector (connector : Z) (unixSocket : bool) (serviceId serviceOpt timeoutInSeconds : Z)
  | ScheduleTimer (ms : Z)
  | CancelTimer (timerId : Z)
  | CloseSock (sockId : Z)
  | CreateTcpHandshaker (handshaker sockId : Z) (unixSocket : bool) (sendData : list Z) (recvDataSize : Z) (recvFirst : bool) (timeoutInSeconds : Z)
  | CreateSslCtx (ctx sockId nonce : Z)
  | CreateSslHandshaker (handshaker ctx sockId : Z) (unixSocket : bool) (sendData : list Z) (recvDataSize : Z) (recvFirst : bool) (timeoutInSeconds : Z)
  | SslCtx_Delete (ctx : Z)
  | CreateTcpTransport (trans sockId : Z) (unixSocket : bool)
  | CreateSslTransport (trans ctx sockId : Z) (unixSocket : bool)
  | StartHeartbeat (trans : Z)
  | DeleteConnector (connector : Z)
  | DeleteTcpHandshaker (handshaker : Z)
  | DeleteSslHandshaker (handshaker : Z)
  | DeleteTransport (trans : Z)
  | OnOkSession
  | OnCloseSession (errorCode sslCode : Z) (tcpConnected : bool).

(** The constructors, that of the SSL session included *)
Definition construct (ssl : bool) (localInfo : SessionInfo.t) : t :=
  mkClient (setType (if ssl then RTP_ST_SSLCLIENT_EX else RTP_ST_TCPCLIENT_EX) (setVersions GetRtpSessionVersion 0 localInfo))
    ssl [] DEFAULT_TIMEOUT false 0 0 0 0 0 false false false true.

(** [CreateInstance] of both classes; [sslConfig] is whether the SSL one gets a configuration *)
Definition CreateInstance (ssl sslConfig : bool) (localInfo : SessionInfo.t) : option t :=
  if (mmType localInfo =? 0) || (ssl && negb sslConfig) then None else Some (construct ssl localInfo).

(** Changes of groups of members *)
Definition setLinks (connector tcpHandshaker sslHandshaker trans : Z) (s : t) : t :=
  mkClient (m_info s) (m_sslConfig s) (m_password s) (m_timeoutInSeconds s) (active s) connector tcpHandshaker sslHandshaker trans
    (m_timeoutTimerId s) (m_tcpConnected s) (m_handshakeOk s) (m_onOkCalled s) (m_canUpcall s).
Definition setStart (a : bool) (password : list Z) (timeout timerId : Z) (s : t) : t :=
  mkClient (m_info s) (m_sslConfig s) password timeout a (m_connector s) (m_tcpHandshaker s) (m_sslHandshaker s) (m_trans s)
    timerId (m_tcpConnected s) (m_handshakeOk s) (m_onOkCalled s) (m_canUpcall s).
Definition setFlags (tcpConnected handshakeOk onOkCalled canUpcall : bool) (s : t) : t :=
  mkClient (m_info s) (m_sslConfig s) (m_password s) (m_timeoutInSeconds s) (active s) (m_connector s) (m_tcpHandshaker s) (m_sslHandshaker s)
    (m_trans s) (m_timeoutTimerId s) tcpConnected handshakeOk onOkCalled canUpcall.
Definition setInfo (i : SessionInfo.t) (s : t) : t :=
  mkClient i (m_sslConfig s) (m_password s) (m_timeoutInSeconds s) (active s) (m_connector s) (m_tcpHandshaker s) (m_sslHandshaker s)
    (m_trans s) (m_timeoutTimerId s) (m_tcpConnected s) (m_handshakeOk s) (m_onOkCalled s) (m_canUpcall s).
(** A timer and a password that are done with. *)
Definition clearTimer (s : t) : t := setStart (active s) (m_password s) (m_timeoutInSeconds s) 0 s.
Definition clearPassword (s : t) : t := setStart (active s) [] (m_timeoutInSeconds s) (m_timeoutTimerId s) s.

(** What a function does for an object that may be NULL. *)
Definition given (f : Z -> effect) (x : Z) : list effect := if x =? 0 then [] else [f x].

(** [Init]; [connector] and [timerId] are what the calls give *)
Definition Init (emptyIp : bool) (remotePort : Z) (password : option (list Z)) (timeoutInSeconds connector timerId : Z) (s : t) : bool * t * list effect :=
  if emptyIp || (remotePort =? 0) then (false, s, []) else
  let timeoutInSeconds := if timeoutInSeconds =? 0 then DEFAULT_TIMEOUT else timeoutInSeconds in
  if active s || negb (m_trans s =? 0) || negb (m_connector s =? 0) || negb (m_tcpHandshaker s =? 0) || negb (m_sslHandshaker s =? 0) then (false, s, []) else
  let create := [CreateConnector connector true (mmType (m_info s)) (if m_sslConfig s then 1 else 0) timeoutInSeconds] in
  if connector =? 0 then (false, s, create) else
  (true, setStart true (default [] password) timeoutInSeconds timerId (setLinks connector 0 0 0 s),
   create ++ [ScheduleTimer (u64 (timeoutInSeconds * 1000))]).

(** [Fini] *)
Definition Fini (s : t) : t * list effect :=
  if negb (active s) then (s, []) else
  (setLinks 0 0 0 0 (setStart false [] (m_timeoutInSeconds s) 0 s),
   [CancelTimer (m_timeoutTimerId s)] ++ given DeleteSslHandshaker (m_sslHandshaker s) ++ given DeleteTcpHandshaker (m_tcpHandshaker s) ++
   given DeleteConnector (m_connector s) ++ given DeleteTransport (m_trans s)).

(** The packet of [DoHandshake]; [junk] is the memory that [CreateRtpPacket] gets *)
Definition packetOf (payloadBuffer : list Z) (mmId mmType : Z) (junk : option (list Z)) : option CRtpPacket.t :=
  p ← CRtpPacket.CreateInstance payloadBuffer junk;
  Some (CRtpPacket.SetMmType mmType (CRtpPacket.SetMmId mmId p)).
Definition wireOf (p : CRtpPacket.t) : list Z :=
  zsub (CRtpPacket.GetPayloadBuffer p - sizeof_RTP_HEADER - sizeof_RTP_EXT)
    (CRtpPacket.GetPayloadSize p + sizeof_RTP_HEADER + sizeof_RTP_EXT) (CRtpPacket.mem p).
Definition VERSION_BYTES : Z := sizeof_RTP_EXT + sizeof_RTP_HEADER + 2.

(** What the calls of [DoHandshake] give: the memory, whether the digest has its own, the
    context and the handshaker *)
Record answers := mkAnswers { an_junk : option (list Z); an_md : bool * bool; an_ctx : Z; an_handshaker : Z }.

(** [DoHandshake] *)
Definition DoHandshake (sockId : Z) (unixSocket : bool) (nonce : Z) (a : answers) (s : t) : bool * t * list effect :=
  if (sockId =? -1) || negb (m_tcpHandshaker s =? 0) || negb (m_sslHandshaker s =? 0) then (false, s, []) else
  let hash := ProCalcPasswordHash (fst (an_md a)) (snd (an_md a)) nonce (Some (m_password s)) in
  let localInfo := setHash hash (toNetwork (m_info s)) in
  let s := clearPassword s in
  match packetOf (image localInfo) (mmId (m_info s)) (mmType (m_info s)) (an_junk a) with
  | None => (false, s, [])
  | Some packet =>
      let h := an_handshaker a in
      if m_sslConfig s then
        let createCtx := [CreateSslCtx (an_ctx a) sockId nonce] in
        if an_ctx a =? 0 then (false, s, createCtx) else
        let create := createCtx ++ [CreateSslHandshaker h (an_ctx a) sockId unixSocket (wireOf packet) VERSION_BYTES false (m_timeoutInSeconds s)] in
        (negb (h =? 0), setLinks (m_connector s) (m_tcpHandshaker s) h (m_trans s) s,
         create ++ (if h =? 0 then [SslCtx_Delete (an_ctx a)] else []))
      else
        (negb (h =? 0), setLinks (m_connector s) h (m_sslHandshaker s) (m_trans s) s,
         [CreateTcpHandshaker h sockId unixSocket (wireOf packet) VERSION_BYTES false (m_timeoutInSeconds s)])
  end.

(** [if (m_canUpcall) { m_canUpcall = false; observer->OnCloseSession(...) }] *)
Definition upcallClose (errorCode sslCode : Z) (s : t) : t * list effect :=
  if m_canUpcall s
  then (setFlags (m_tcpConnected s) (m_handshakeOk s) (m_onOkCalled s) false s, [OnCloseSession errorCode sslCode (m_tcpConnected s)])
  else (s, []).

(** [OnConnectOk] *)
Definition OnConnectOk (connector sockId : Z) (unixSocket : bool) (nonce : Z) (a : answers) (s : t) : t * list effect :=
  if (connector =? 0) || (sockId =? -1) then (s, []) else
  if negb (active s) || (m_connector s =? 0) then (s, [CloseSock sockId]) else
  if negb (connector =? m_connector s) then (s, [CloseSock sockId]) else
  let s := setFlags true (m_handshakeOk s) (m_onOkCalled s) (m_canUpcall s) s in
  let '(ret, s, effects) := DoHandshake sockId unixSocket nonce a s in
  let effects := effects ++ (if ret then [] else [CloseSock sockId]) in
  let s := setLinks 0 (m_tcpHandshaker s) (m_sslHandshaker s) (m_trans s) s in
  let '(s, upcalls) := if ret then (s, []) else upcallClose (-1) 0 s in
  (s, effects ++ upcalls ++ [DeleteConnector connector]).

(** [OnConnectError] *)
Definition OnConnectError (connector : Z) (timeout : bool) (s : t) : t * list effect :=
  if connector =? 0 then (s, []) else
  if negb (active s) || (m_connector s =? 0) then (s, []) else
  if negb (connector =? m_connector s) then (s, []) else
  let '(s, upcalls) := upcallClose (if timeout then PBSD_ETIMEDOUT else -1) 0 (setLinks 0 (m_tcpHandshaker s) (m_sslHandshaker s) (m_trans s) s) in
  (s, upcalls ++ [DeleteConnector connector]).

(** What both [OnHandshakeOk] do once the handshaker is known: check what came, create the
    transport ([transport] is the call's effect, [trans] its result) or [give up] *)
Definition accept (buf : option (list Z)) (size trans : Z) (transport giveUp : list effect) (s : t) : option (bool * t * list effect) :=
  match buf with
  | None => Some (false, s, giveUp)
  | Some buf =>
      if negb (size =? VERSION_BYTES) then Some (false, s, giveUp) else
      ok ← CRtpPacket.ParseExtBuffer buf size;
      if negb ok then Some (false, s, giveUp) else
      let s := setInfo (setVersions (localVersion (m_info s)) (pbsd_ntoh16 (load 2 (sizeof_RTP_EXT + sizeof_RTP_HEADER) buf)) (m_info s)) s in
      let s := setLinks (m_connector s) (m_tcpHandshaker s) (m_sslHandshaker s) trans s in
      if trans =? 0 then Some (false, s, transport ++ giveUp) else
      Some (true, clearTimer (setFlags (m_tcpConnected s) true (m_onOkCalled s) (m_canUpcall s) s),
            transport ++ [StartHeartbeat trans; CancelTimer (m_timeoutTimerId s)])
  end.

(** The upcalls of both. *)
Definition upcallResult (ok : bool) (s : t) : t * list effect :=
  if negb ok then upcallClose (-1) 0 s
  else if m_canUpcall s && m_handshakeOk s && negb (m_onOkCalled s)
  then (setFlags (m_tcpConnected s) (m_handshakeOk s) true (m_canUpcall s) s, [OnOkSession])
  else (s, []).

(** [OnHandshakeOk] of a [IProTcpHandshaker] *)
Definition OnTcpHandshakeOk (handshaker sockId : Z) (unixSocket : bool) (buf : option (list Z)) (size trans : Z) (s : t) : option (t * list effect) :=
  if (handshaker =? 0) || (sockId =? -1) then Some (s, []) else
  if negb (active s) || (m_tcpHandshaker s =? 0) then Some (s, [CloseSock sockId]) else
  if negb (handshaker =? m_tcpHandshaker s) then Some (s, [CloseSock sockId]) else
  '(ok, s, effects) ← accept buf size trans [CreateTcpTransport trans sockId unixSocket] [CloseSock sockId] s;
  let s := setLinks (m_connector s) 0 (m_sslHandshaker s) (m_trans s) s in
  let '(s, upcalls) := upcallResult ok s in
  Some (s, effects ++ upcalls ++ [DeleteTcpHandshaker handshaker]).

(** [OnHandshakeOk] of a [IProSslHandshaker] *)
Definition OnSslHandshakeOk (handshaker ctx sockId : Z) (unixSocket : bool) (buf : option (list Z)) (size trans : Z) (s : t) : option (t * list effect) :=
  if (handshaker =? 0) || (ctx =? 0) || (sockId =? -1) then Some (s, []) else
  if negb (active s) || (m_sslHandshaker s =? 0) then Some (s, [SslCtx_Delete ctx; CloseSock sockId]) else
  if negb (handshaker =? m_sslHandshaker s) then Some (s, [SslCtx_Delete ctx; CloseSock sockId]) else
  '(ok, s, effects) ← accept buf size trans [CreateSslTransport trans ctx sockId unixSocket] [SslCtx_Delete ctx; CloseSock sockId] s;
  let s := setLinks (m_connector s) (m_tcpHandshaker s) 0 (m_trans s) s in
  let '(s, upcalls) := upcallResult ok s in
  Some (s, effects ++ upcalls ++ [DeleteSslHandshaker handshaker]).

(** Both [OnHandshakeError] *)
Definition OnTcpHandshakeError (handshaker errorCode : Z) (s : t) : t * list effect :=
  if handshaker =? 0 then (s, []) else
  if negb (active s) || (m_tcpHandshaker s =? 0) then (s, []) else
  if negb (handshaker =? m_tcpHandshaker s) then (s, []) else
  let '(s, upcalls) := upcallClose errorCode 0 (setLinks (m_connector s) 0 (m_sslHandshaker s) (m_trans s) s) in
  (s, upcalls ++ [DeleteTcpHandshaker handshaker]).
Definition OnSslHandshakeError (handshaker errorCode sslCode : Z) (s : t) : t * list effect :=
  if handshaker =? 0 then (s, []) else
  if negb (active s) || (m_sslHandshaker s =? 0) then (s, []) else
  if negb (handshaker =? m_sslHandshaker s) then (s, []) else
  let '(s, upcalls) := upcallClose errorCode sslCode (setLinks (m_connector s) (m_tcpHandshaker s) 0 (m_trans s) s) in
  (s, upcalls ++ [DeleteSslHandshaker handshaker]).

(** [CRtpSessionBase::OnTimer] (a client has no timer for [OnOkSession]) and
    [CRtpSessionBase::OnClose], on the members of this state *)
Definition OnTimer (timerId : Z) (s : t) : t * list effect :=
  if timerId =? 0 then (s, []) else
  if negb (active s) then (s, []) else
  if negb (timerId =? m_timeoutTimerId s) then (s, []) else
  let '(s1, upcalls) := upcallClose PBSD_ETIMEDOUT 0 (clearTimer s) in
  let '(s2, finis) := if m_canUpcall s1 then (s1, []) else Fini s1 in
  (s2, [CancelTimer timerId] ++ upcalls ++ finis).
Definition OnClose (trans errorCode sslCode : Z) (s : t) : t * list effect :=
  if trans =? 0 then (s, []) else
  if negb (active s) || (m_trans s =? 0) then (s, []) else
  if negb (trans =? m_trans s) then (s, []) else
  let '(s, upcalls) := upcallClose errorCode sslCode (setLinks (m_connector s) (m_tcpHandshaker s) (m_sslHandshaker s) 0 s) in
  (s, upcalls ++ [DeleteTransport trans]).

End CRtpSessionTcpclientEx.

(** ** The server's end *)

Module CRtpSessionTcpserverEx.
Import SessionInfo CRtpSessionTcpclientEx.

(** [CRtpSessionTcpserverEx]; the other members are as for the client *)
Record t := mkServer {
  s_info : SessionInfo.t;
  m_sslCtx : Z;
  s_active : bool;
  s_trans : Z;
  m_onOkTimerId : Z;
  s_tcpConnected : bool;
  s_handshakeOk : bool
}.

Inductive effect :=
  | NewTcpTransport (trans sockId : Z) (unixSocket : bool)
  | NewSslTransport (trans ctx sockId : Z) (unixSocket : bool)
  | Heartbeat (trans : Z)
  | Schedule (ms : Z)
  | Cancel (timerId : Z)
  | SendData (trans : Z) (buf : list Z)
  | DropTransport (trans : Z)
  | DropCtx (ctx : Z).

(** The constructors, that of the SSL session included *)
Definition construct (sslCtx : Z) (localInfo : SessionInfo.t) : t :=
  mkServer (setType (if sslCtx =? 0 then RTP_ST_TCPSERVER_EX else RTP_ST_SSLSERVER_EX)
    (setVersions GetRtpSessionVersion (remoteVersion localInfo) localInfo)) sslCtx false 0 0 false false.

(** [Fini] and the destructor *)
Definition Fini (s : t) : t * list effect :=
  if negb (s_active s) then (s, []) else
  (mkServer (s_info s) (m_sslCtx s) false 0 0 (s_tcpConnected s) (s_handshakeOk s),
   [Cancel (m_onOkTimerId s)] ++ (if s_trans s =? 0 then [] else [DropTransport (s_trans s)])).
Definition Delete (s : t) : t * list effect :=
  let '(s, effects) := Fini s in
  (mkServer (s_info s) 0 (s_active s) (s_trans s) (m_onOkTimerId s) (s_tcpConnected s) (s_handshakeOk s),
   effects ++ (if m_sslCtx s =? 0 then [] else [DropCtx (m_sslCtx s)])).

(** [DoHandshake]; [sent] is what [SendData] gives *)
Definition DoHandshake (junk : option (list Z)) (sent : bool) (s : t) : bool * list effect :=
  if s_trans s =? 0 then (false, []) else
  match packetOf (le_bytes 2 (pbsd_hton16 (localVersion (s_info s)))) (mmId (s_info s)) (mmType (s_info s)) junk with
  | None => (false, [])
  | Some packet => (sent, [SendData (s_trans s) (wireOf packet)])
  end.

(** [Init]; [trans] and [timerId] are what the calls give *)
Definition Init (sockId : Z) (unixSocket : bool) (trans timerId : Z) (junk : option (list Z)) (sent : bool) (s : t) : bool * t * list effect :=
  if sockId =? -1 then (false, s, []) else
  if s_active s || negb (s_trans s =? 0) then (false, s, []) else
  let create := if m_sslCtx s =? 0 then [NewTcpTransport trans sockId unixSocket] else [NewSslTransport trans (m_sslCtx s) sockId unixSocket] in
  if trans =? 0 then (false, s, create) else
  let s := mkServer (s_info s) 0 true trans timerId true true in
  let '(ret, effects) := DoHandshake junk sent s in
  let effects := create ++ [Heartbeat trans; Schedule 0] ++ effects in
  if ret then (true, s, effects) else
  let s' := mkServer (s_info s) (m_sslCtx s) true trans 0 true true in
  let '(s', finis) := Fini s' in
  (false, s', effects ++ [Cancel (m_onOkTimerId s)] ++ finis).

(** [CreateRtpSessionTcpserverEx] and, with the argument [sslCtx], [CreateRtpSessionSslserverEx]:
    the session, if its [CreateInstance] and its [Init] succeed *)
Definition CreateInstance (sslCtx : option Z) (localInfo : SessionInfo.t) : option t :=
  if mmType localInfo =? 0 then None else
  match sslCtx with
  | None => Some (construct 0 localInfo)
  | Some ctx => if ctx =? 0 then None else Some (construct ctx localInfo)
  end.
Definition CreateRtpSession (sslCtx : option Z) (localInfo : SessionInfo.t) (sockId : Z) (unixSocket : bool) (trans timerId : Z) (junk : option (list Z))
    (sent : bool) : option t * list effect :=
  match CreateInstance sslCtx localInfo with
  | None => (None, [])
  | Some session =>
      let '(ret, s, effects) := Init sockId unixSocket trans timerId junk sent session in
      if ret then (Some s, effects) else
      let '(_, more) := Delete s in (None, effects ++ more)
  end.

(** What is freed, where a transport frees its socket and its context *)
Definition freed (sslCtx sockId : Z) (l : list effect) : list Z :=
  concat ((fun e => match e with
                    | DropTransport _ => sockId :: (if sslCtx =? 0 then [] else [sslCtx])
                    | DropCtx ctx => [ctx]
                    | _ => [] end) <$> l).
End CRtpSessionTcpserverEx.

(** ** What a client does in any run *)

Module LoginRuns.
Import SessionInfo CRtpSessionTcpclientEx.

Inductive call :=
  | CInit (emptyIp : bool) (remotePort : Z) (password : option (list Z)) (timeoutInSeconds connector timerId : Z)
  | CFini
  | CConnectOk (connector sockId : Z) (unixSocket : bool) (nonce : Z) (a : answers)
  | CConnectError (connector : Z) (timeout : bool)
  | CTcpHandshakeOk (handshaker sockId : Z) (unixSocket : bool) (buf : option (list Z)) (size trans : Z)
  | CSslHandshakeOk (handshaker ctx sockId : Z) (unixSocket : bool) (buf : option (list Z)) (size trans : Z)
  | CTcpHandshakeError (handshaker errorCode : Z)
  | CSslHandshakeError (handshaker errorCode sslCode : Z)
  | CTimer (timerId : Z)
  | CClose (trans errorCode sslCode : Z).

Definition exec (c : call) (s : t) : option (t * list effect) :=
  match c with
  | CInit emptyIp remotePort password timeoutInSeconds connector timerId =>
      let '(_, s, l) := Init emptyIp remotePort password timeoutInSeconds connector timerId s in Some (s, l)
  | CFini => Some (Fini s)
  | CConnectOk connector sockId unixSocket nonce a => Some (OnConnectOk connector sockId unixSocket nonce a s)
  | CConnectError connector timeout => Some (OnConnectError connector timeout s)
  | CTcpHandshakeOk handshaker sockId unixSocket buf size trans => OnTcpHandshakeOk handshaker sockId unixSocket buf size trans s
  | CSslHandshakeOk handshaker ctx sockId unixSocket buf size trans => OnSslHandshakeOk handshaker ctx sockId unixSocket buf size trans s
  | CTcpHandshakeError handshaker errorCode => Some (OnTcpHandshakeError handshaker errorCode s)
  | CSslHandshakeError handshaker errorCode sslCode => Some (OnSslHandshakeError handshaker errorCode sslCode s)
  | CTimer timerId => Some (OnTimer timerId s)
  | CClose trans errorCode sslCode => Some (OnClose trans errorCode sslCode s)
  end.
Fixpoint run (cs : list call) (s : t) : option (t * list effect) :=
  match cs with
  | [] => Some (s, [])
  | c :: cs => '(s, l) ← exec c s; '(s, l') ← run cs s; Some (s, l ++ l')
  end.

(** The objects of a client: made, deleted, held. *)
Inductive object := Connector (x : Z) | TcpHandshaker (x : Z) | SslHandshaker (x : Z) | Transport (x : Z).
Definition obj (f : Z -> object) (x : Z) : list object := if x =? 0 then [] else [f x].
Definition made (l : list effect) : list object :=
  concat ((fun e => match e with
                    | CreateConnector c _ _ _ _ => obj Connector c
                    | CreateTcpHandshaker h _ _ _ _ _ _ => obj TcpHandshaker h
                    | CreateSslHandshaker h _ _ _ _ _ _ _ => obj SslHandshaker h
                    | CreateTcpTransport x _ _ | CreateSslTransport x _ _ _ => obj Transport x
                    | _ => [] end) <$> l).
Definition gone (l : list effect) : list object :=
  concat ((fun e => match e with
                    | DeleteConnector c => [Connector c]
                    | DeleteTcpHandshaker h => [TcpHandshaker h]
                    | DeleteSslHandshaker h => [SslHandshaker h]
                    | DeleteTransport x => [Transport x]
                    | _ => [] end) <$> l).
Definition holds (s : t) : list object :=
  obj Connector (m_connector s) ++ obj TcpHandshaker (m_tcpHandshaker s) ++ obj SslHandshaker (m_sslHandshaker s) ++ obj Transport (m_trans s).

(** The sockets and contexts that a client gets with a call, or makes, and passes on or frees. *)
Definition got (c : call) : list Z :=
  match c with
  | CConnectOk x k _ _ _ | CTcpHandshakeOk x k _ _ _ _ => if (x =? 0) || (k =? -1) then [] else [k]
  | CSslHandshakeOk x ctx k _ _ _ _ => if (x =? 0) || (ctx =? 0) || (k =? -1) then [] else [k]
  | _ => []
  end.
Definition passed (l : list effect) : list Z :=
  concat ((fun e => match e with
                    | CloseSock k => [k]
                    | CreateTcpHandshaker x k _ _ _ _ _ | CreateSslHandshaker x _ k _ _ _ _ _ | CreateTcpTransport x k _ | CreateSslTransport x _ k _ =>
                        if x =? 0 then [] else [k]
                    | _ => [] end) <$> l).
Definition gotCtx (c : call) : list Z :=
  match c with CSslHandshakeOk x ctx k _ _ _ _ => if (x =? 0) || (ctx =? 0) || (k =? -1) then [] else [ctx] | _ => [] end.
Definition madeCtx (l : list effect) : list Z :=
  concat ((fun e => match e with CreateSslCtx ctx _ _ => if ctx =? 0 then [] else [ctx] | _ => [] end) <$> l).
Definition passedCtx (l : list effect) : list Z :=
  concat ((fun e => match e with
                    | SslCtx_Delete ctx => [ctx]
                    | CreateSslHandshaker x ctx _ _ _ _ _ _ | CreateSslTransport x ctx _ _ => if x =? 0 then [] else [ctx]
                    | _ => [] end) <$> l).
Definition upcalls (l : list effect) : list effect :=
  List.filter (fun e => match e with OnOkSession | OnCloseSession _ _ _ => true | _ => false end) l.

(** What a call does to them. *)
Record moved (got gotCtx : list Z) (s s' : t) (l : list effect) : Prop := mkMoved {
  mv_objects : made l ++ holds s ≡ₚ gone l ++ holds s';
  mv_sockets : got ≡ₚ passed l;
  mv_ctxs : gotCtx ++ madeCtx l ≡ₚ passedCtx l;
  mv_upcalls : match upcalls l with
    | [] => m_canUpcall s' = m_canUpcall s /\ m_onOkCalled s' = m_onOkCalled s
    | [OnOkSession] => m_canUpcall s = true /\ m_onOkCalled s = false /\ m_canUpcall s' = true /\ m_onOkCalled s' = true
    | [OnCloseSession _ _ _] => m_canUpcall s = true /\ m_canUpcall s' = false /\ m_onOkCalled s' = m_onOkCalled s
    | _ => False
    end
}.
Record tidy (s : t) : Prop := mkTidy {
  td_one : (length (holds s) <= 1)%nat;
  td_idle : active s = false -> holds s = []
}.

Lemma moved_same s : moved [] [] s s [].
Proof. by split. Qed.

(** Pieces of a method one after the other. *)
Lemma moved_app g1 c1 g2 c2 s1 s2 s3 l1 l2 : moved g1 c1 s1 s2 l1 -> moved g2 c2 s2 s3 l2 -> (upcalls l1 = [] \/ upcalls l2 = []) ->
  moved (g1 ++ g2) (c1 ++ c2) s1 s3 (l1 ++ l2).
Proof.
  assert (Hc : forall {A} (f : effect -> list A) l l', concat (f <$> (l ++ l')) = concat (f <$> l) ++ concat (f <$> l'))
    by (intros; by rewrite fmap_app, concat_app).
  intros [A1 A2 A3 A4] [B1 B2 B3 B4] Hu. split.
  - unfold made, gone in *. rewrite !Hc. rewrite <- !(assoc_L (++)). rewrite (Permutation_app_swap_app (concat _) (concat _) (holds s1)), A1.
    rewrite (Permutation_app_swap_app (concat _) (concat _) (holds s2)), B1. by rewrite (Permutation_app_swap_app (concat _) (concat _) (holds s3)).
  - unfold passed in *. rewrite Hc. by rewrite A2, B2.
  - unfold passedCtx, madeCtx in *. rewrite !Hc. rewrite <- A3, <- B3. rewrite <- !(assoc_L (++)). f_equiv. apply Permutation_app_swap_app.
  - unfold upcalls in *. rewrite List.filter_app. destruct Hu as [Hu|Hu]; rewrite Hu in *.
    + cbn [app]. destruct A4 as [E1 E2]. by rewrite E1, E2 in B4.
    + rewrite app_nil_r. destruct B4 as [-> ->]. done.
Qed.

Lemma moved_given f g x s s' : (forall y, made [f y] = [] /\ gone [f y] = [g y] /\ passed [f y] = [] /\ madeCtx [f y] = [] /\ passedCtx [f y] = [] /\ upcalls [f y] = []) ->
  holds s ≡ₚ obj g x ++ holds s' -> m_canUpcall s' = m_canUpcall s -> m_onOkCalled s' = m_onOkCalled s -> moved [] [] s s' (given f x).
Proof.
  intros Hf Hh Hc Ho. destruct (Hf x) as (F1 & F2 & F3 & F4 & F5 & F6). unfold given, obj in *. destruct (x =? 0).
  - by split.
  - split; rewrite ?F1, ?F2, ?F3, ?F4, ?F5, ?F6; done.
Qed.

Lemma upcallClose_moved e1 e2 s s' l : upcallClose e1 e2 s = (s', l) -> moved [] [] s s' l /\ holds s' = holds s /\ active s' = active s.
Proof. unfold upcallClose. destruct (m_canUpcall s) eqn:E; intros [= <- <-]; [|by split; [apply moved_same|]]. split; [|done]. by split. Qed.

(** Holding one object means not holding the others. *)
Lemma obj_zero f x : obj f x = [] <-> x = 0.
Proof. unfold obj. destruct (Z.eqb_spec x 0); split; try done. Qed.
Lemma obj_some f x : x <> 0 -> obj f x = [f x].
Proof. unfold obj. by destruct (Z.eqb_spec x 0). Qed.
Lemma tidy_links s : tidy s ->
  (m_connector s <> 0 -> m_tcpHandshaker s = 0 /\ m_sslHandshaker s = 0 /\ m_trans s = 0) /\
  (m_tcpHandshaker s <> 0 -> m_connector s = 0 /\ m_sslHandshaker s = 0 /\ m_trans s = 0) /\
  (m_sslHandshaker s <> 0 -> m_connector s = 0 /\ m_tcpHandshaker s = 0 /\ m_trans s = 0) /\
  (m_trans s <> 0 -> m_connector s = 0 /\ m_tcpHandshaker s = 0 /\ m_sslHandshaker s = 0).
Proof.
  intros [H _]. unfold holds in H. rewrite !length_app in H.
  assert (Hz : forall f x, (length (obj f x) <= 0)%nat -> x = 0) by (intros f x ?; apply (obj_zero f), nil_length_inv; lia).
  split_and!; intros Hn.
  - rewrite (obj_some Connector _ Hn) in H. cbn [length] in H. split_and!; eapply Hz; [instantiate (1 := TcpHandshaker)|instantiate (1 := SslHandshaker)|instantiate (1 := Transport)]; lia.
  - rewrite (obj_some TcpHandshaker _ Hn) in H. cbn [length] in H. split_and!; eapply Hz; [instantiate (1 := Connector)|instantiate (1 := SslHandshaker)|instantiate (1 := Transport)]; lia.
  - rewrite (obj_some SslHandshaker _ Hn) in H. cbn [length] in H. split_and!; eapply Hz; [instantiate (1 := Connector)|instantiate (1 := TcpHandshaker)|instantiate (1 := Transport)]; lia.
  - rewrite (obj_some Transport _ Hn) in H. cbn [length] in H. split_and!; eapply Hz; [instantiate (1 := Connector)|instantiate (1 := TcpHandshaker)|instantiate (1 := SslHandshaker)]; lia.
Qed.
Lemma tidy_active s : tidy s -> holds s <> [] -> active s = true.
Proof. intros [_ H] Hn. destruct (active s); [done|]. by rewrite (H eq_refl) in Hn. Qed.
Lemma one_holds c h1 h2 x s : holds (setLinks c h1 h2 x s) = obj Connector c ++ obj TcpHandshaker h1 ++ obj SslHandshaker h2 ++ obj Transport x.
Proof. done. Qed.

Lemma Fini_moved s s' l : Fini s = (s', l) -> moved [] [] s s' l /\ holds s' = if active s then [] else holds s.
Proof.
  unfold Fini. destruct (active s); cbn [negb]; [|intros [= <- <-]; split; [apply moved_same|done]].
  intros [= <- <-]. split; [|done]. unfold given. split; unfold holds, obj;
    cbn [m_connector m_tcpHandshaker m_sslHandshaker m_trans setLinks setStart];
    destruct (m_connector s =? 0), (m_tcpHandshaker s =? 0), (m_sslHandshaker s =? 0), (m_trans s =? 0); try done; cbn; solve_Permutation.
Qed.

Lemma DoHandshake_moved k u nonce a s b s' l : m_tcpHandshaker s = 0 -> m_sslHandshaker s = 0 -> k <> -1 -> DoHandshake k u nonce a s = (b, s', l) ->
  moved (if b then [k] else []) [] s s' l /\ m_connector s' = m_connector s /\ m_trans s' = m_trans s /\ active s' = active s /\
  upcalls l = [] /\ (m_tcpHandshaker s' = 0 \/ m_sslHandshaker s' = 0).
Proof.
  intros H1 H2 Hk. unfold DoHandshake. rewrite H1, H2, (proj2 (Z.eqb_neq k (-1))) by done. cbn [negb orb Z.eqb].
  destruct (packetOf _ _ _ _) as [p|]; [|intros [= <- <- <-]; split; [by split|]; do 4 (split; [done|]); by left].
  destruct (m_sslConfig (clearPassword s)).
  - destruct (Z.eqb_spec (an_ctx a) 0) as [E|E].
    { intros [= <- <- <-]. split; [|do 4 (split; [done|]); by left]. split; try done. cbn. by rewrite E. }
    intros [= <- <- <-]. split; [|do 3 (split; [done|]); split; [by destruct (an_handshaker a =? 0)|by left]].
    split; unfold holds; cbn [m_connector m_tcpHandshaker m_sslHandshaker m_trans setLinks clearPassword setStart]; rewrite ?H1, ?H2; unfold obj;
      destruct (Z.eqb_spec (an_handshaker a) 0) as [E1|E1]; cbn; unfold obj; rewrite ?E1, ?(proj2 (Z.eqb_neq _ _) E), ?(proj2 (Z.eqb_neq _ _) E1); cbn; try done; solve_Permutation.
  - intros [= <- <- <-]. split; [|do 4 (split; [done|]); by right].
    split; unfold holds; cbn [m_connector m_tcpHandshaker m_sslHandshaker m_trans setLinks clearPassword setStart]; rewrite ?H1, ?H2; unfold obj;
      destruct (Z.eqb_spec (an_handshaker a) 0) as [E1|E1]; cbn; unfold obj; rewrite ?E1, ?(proj2 (Z.eqb_neq _ _) E1); cbn; try done; solve_Permutation.
Qed.

Lemma accept_moved (ssl : bool) k u ctx buf size tr s b s' l : m_trans s = 0 ->
  accept buf size tr (if ssl then [CreateSslTransport tr ctx k u] else [CreateTcpTransport tr k u])
    (if ssl then [SslCtx_Delete ctx; CloseSock k] else [CloseSock k]) s = Some (b, s', l) ->
  moved [k] (if ssl then [ctx] else []) s s' l /\ m_connector s' = m_connector s /\ m_tcpHandshaker s' = m_tcpHandshaker s /\
  m_sslHandshaker s' = m_sslHandshaker s /\ active s' = active s /\ upcalls l = [].
Proof.
  intros Ht. unfold accept.
  assert (Hfail : moved [k] (if ssl then [ctx] else []) s s (if ssl then [SslCtx_Delete ctx; CloseSock k] else [CloseSock k]))
    by (split; by destruct ssl).
  assert (Hup : upcalls (if ssl then [SslCtx_Delete ctx; CloseSock k] else [CloseSock k]) = []) by by destruct ssl.
  destruct buf as [buf|]; [|intros [= <- <- <-]; by do 5 (split; [done|])].
  destruct (negb (size =? VERSION_BYTES)); [intros [= <- <- <-]; by do 5 (split; [done|])|].
  destruct (CRtpPacket.ParseExtBuffer buf size) as [ok|]; [|done]. cbn [mbind option_bind].
  destruct ok; cbn [negb]; [|intros [= <- <- <-]; by do 5 (split; [done|])].
  destruct (Z.eqb_spec tr 0) as [->|Hn]; intros [= <- <- <-]; (split; [|do 4 (split; [done|]); by destruct ssl]).
  - split; unfold holds; cbn [m_connector m_tcpHandshaker m_sslHandshaker m_trans setLinks setInfo]; rewrite ?Ht; by destruct ssl.
  - split; unfold holds; cbn [m_connector m_tcpHandshaker m_sslHandshaker m_trans setLinks setInfo setFlags clearTimer setStart]; rewrite ?Ht;
      destruct ssl; cbn; unfold obj; rewrite ?(proj2 (Z.eqb_neq _ _) Hn); cbn; try done; solve_Permutation.
Qed.

Lemma upcallResult_moved b s s' l : upcallResult b s = (s', l) -> moved [] [] s s' l /\ holds s' = holds s /\ active s' = active s.
Proof.
  unfold upcallResult. destruct b; cbn [negb]; [|apply upcallClose_moved].
  destruct (m_canUpcall s) eqn:E1; cbn [andb]; [|intros [= <- <-]; by split; [apply moved_same|]].
  destruct (m_handshakeOk s); cbn [andb]; [|intros [= <- <-]; by split; [apply moved_same|]].
  destruct (m_onOkCalled s) eqn:E2; cbn [negb]; intros [= <- <-]; [by split; [apply moved_same|]|].
  split; [|done]. by split.
Qed.

(** The deletion of an object comes last in a method. *)
Lemma moved_last g c s s1 s2 s' l1 l2 e : moved g c s s1 l1 -> moved [] [] s1 s2 [e] -> moved [] [] s2 s' l2 -> upcalls l1 = [] -> upcalls [e] = [] ->
  moved g c s s' (l1 ++ l2 ++ [e]).
Proof.
  intros H1 H2 H3 Hu1 Hue. pose proof (moved_app _ _ _ _ _ _ _ _ _ (moved_app _ _ _ _ _ _ _ _ _ H1 H2 ltac:(by left)) H3
    ltac:(left; unfold upcalls in *; by rewrite List.filter_app, Hu1, Hue)) as [M1 M2 M3 M4].
  rewrite !app_nil_r in M2, M3. rewrite <- (assoc_L (++)) in *.
  assert (Hc : forall {A} (f : effect -> list A), concat (f <$> (l1 ++ [e] ++ l2)) ≡ₚ concat (f <$> (l1 ++ l2 ++ [e])))
    by (intros; by rewrite (Permutation_app_comm l2 [e])).
  split.
  - unfold made, gone in *. by rewrite <- !Hc.
  - unfold passed in *. by rewrite <- Hc.
  - unfold madeCtx, passedCtx in *. by rewrite <- !Hc.
  - unfold upcalls in *. rewrite !List.filter_app in *. rewrite Hu1, Hue in *. by rewrite app_nil_r.
Qed.

Lemma tidy_one f x s : active s = true -> holds s = obj f x -> tidy s.
Proof. intros Ha Hh. split; [|by rewrite Ha]. rewrite Hh. unfold obj. destruct (x =? 0); cbn; lia. Qed.
Lemma tidy_same s s' : tidy s -> holds s' = holds s -> active s' = active s -> tidy s'.
Proof. intros [H1 H2] E1 E2. split; by rewrite E1, ?E2. Qed.
Lemma moved_link s c h1 h2 x e g : (made [e] = [] /\ gone [e] = [g] /\ passed [e] = [] /\ madeCtx [e] = [] /\ passedCtx [e] = [] /\ upcalls [e] = []) ->
  holds s ≡ₚ g :: holds (setLinks c h1 h2 x s) -> moved [] [] s (setLinks c h1 h2 x s) [e].
Proof. intros (F1 & F2 & F3 & F4 & F5 & F6) Hh. split; by rewrite ?F1, ?F2, ?F3, ?F4, ?F5, ?F6. Qed.

Lemma ConnectOk_moved c k u nonce a s s' l : tidy s -> OnConnectOk c k u nonce a s = (s', l) ->
  moved (got (CConnectOk c k u nonce a)) [] s s' l /\ tidy s'.
Proof.
  intros Ht. unfold OnConnectOk, got. destruct ((c =? 0) || (k =? -1)) eqn:E0; [intros [= <- <-]; by split; [apply moved_same|]|].
  apply orb_false_iff in E0 as [Hc0%Z.eqb_neq Hk%Z.eqb_neq].
  destruct (negb (active s) || (m_connector s =? 0)) eqn:E1; [intros [= <- <-]; by split|].
  apply orb_false_iff in E1 as [Ha%negb_false_iff Hm%Z.eqb_neq].
  destruct (Z.eqb_spec c (m_connector s)) as [->|]; cbn [negb]; [|intros [= <- <-]; by split].
  destruct (proj1 (tidy_links s Ht) Hm) as (L1 & L2 & L3).
  destruct (DoHandshake k u nonce a _) as [[b s1] l1] eqn:Ed.
  destruct (DoHandshake_moved k u nonce a (setFlags true (m_handshakeOk s) (m_onOkCalled s) (m_canUpcall s) s) b s1 l1 L1 L2 Hk Ed)
    as (Hd & D1 & D2 & D3 & D4 & D5). cbn [m_connector m_trans active setFlags] in D1, D2, D3.
  set (l2 := l1 ++ (if b then [] else [CloseSock k])). set (s2 := setLinks 0 _ _ _ s1).
  assert (Hl2 : moved [k] [] s s1 l2).
  { assert (Hd' : moved (if b then [k] else []) [] s s1 l1) by (destruct Hd as [M1 M2 M3 M4]; by split).
    unfold l2. destruct b; [by rewrite app_nil_r|].
    pose proof (moved_app [] [] [k] [] s s1 s1 l1 [CloseSock k] Hd' ltac:(by split) ltac:(by left)) as H. done. }
  assert (Hu2 : upcalls l2 = []) by (unfold l2, upcalls in *; rewrite List.filter_app, D4; by destruct b).
  assert (Hs2 : moved [] [] s1 s2 [DeleteConnector (m_connector s)]).
  { apply moved_link with (g := Connector (m_connector s)); [done|]. unfold holds. cbn [m_connector m_tcpHandshaker m_sslHandshaker m_trans setLinks].
    by rewrite D1, (obj_some Connector). }
  assert (Ht2 : tidy s2).
  { destruct D5 as [D5|D5].
    - apply (tidy_one SslHandshaker (m_sslHandshaker s1)); [by cbn; rewrite D3|]. unfold holds, s2. cbn [m_connector m_tcpHandshaker m_sslHandshaker m_trans setLinks].
      rewrite D5, D2, L3. cbn. by rewrite app_nil_r.
    - apply (tidy_one TcpHandshaker (m_tcpHandshaker s1)); [by cbn; rewrite D3|]. unfold holds, s2. cbn [m_connector m_tcpHandshaker m_sslHandshaker m_trans setLinks].
      rewrite D5, D2, L3. cbn. by rewrite app_nil_r. }
  destruct (if b then (s2, []) else upcallClose (-1) 0 s2) as [s3 l3] eqn:Eu. intros [= <- <-].
  assert (H3 : moved [] [] s2 s3 l3 /\ holds s3 = holds s2 /\ active s3 = active s2).
  { destruct b; [injection Eu as <- <-; by split; [apply moved_same|]|by apply upcallClose_moved in Eu]. }
  destruct H3 as (H3 & Hh & Ha3). split; [|by apply (tidy_same s2)]. by apply (moved_last _ _ s s1 s2).
Qed.

(** A method that only drops an object and may say that the session is closed. *)
Lemma drop_moved s s2 e s3 l3 e1 e2 g : tidy s -> holds s2 = [] -> active s2 = active s -> moved [] [] s s2 [e] -> upcalls [e] = [] -> holds s = [g] ->
  upcallClose e1 e2 s2 = (s3, l3) -> moved [] [] s s3 (l3 ++ [e]) /\ tidy s3.
Proof.
  intros Ht H2 Ha Hm Hu Hg Eu. apply upcallClose_moved in Eu as (H3 & Hh & Ha3). split.
  - apply (moved_last [] [] s s s2 s3 [] l3 e); done || apply moved_same.
  - split; rewrite Hh, H2; [cbn; lia|done].
Qed.

Lemma ConnectError_moved c b s s' l : tidy s -> OnConnectError c b s = (s', l) -> moved [] [] s s' l /\ tidy s'.
Proof.
  intros Ht. unfold OnConnectError. destruct (Z.eqb_spec c 0) as [|Hc]; [intros [= <- <-]; by split; [apply moved_same|]|].
  destruct (negb (active s) || (m_connector s =? 0)) eqn:E1; [intros [= <- <-]; by split|].
  apply orb_false_iff in E1 as [Ha%negb_false_iff Hm%Z.eqb_neq].
  destruct (Z.eqb_spec c (m_connector s)) as [->|]; cbn [negb]; [|intros [= <- <-]; by split].
  destruct (proj1 (tidy_links s Ht) Hm) as (L1 & L2 & L3).
  assert (Hg : holds s = [Connector (m_connector s)]) by (unfold holds; by rewrite (obj_some Connector), L1, L2, L3).
  set (s2 := setLinks 0 _ _ _ s). assert (H2 : holds s2 = []) by (unfold holds, s2; cbn; by rewrite L1, L2, L3).
  destruct (upcallClose _ 0 s2) as [s3 l3] eqn:Eu. intros [= <- <-].
  eapply (drop_moved s s2); try done. apply moved_link with (g := Connector (m_connector s)); [done|]. fold s2. by rewrite Hg, H2.
Qed.

Lemma HandshakeError_moved (ssl : bool) h e1 e2 s s' l : tidy s ->
  (if ssl then OnSslHandshakeError h e1 e2 s else OnTcpHandshakeError h e1 s) = (s', l) -> moved [] [] s s' l /\ tidy s'.
Proof.
  intros Ht. destruct ssl; [unfold OnSslHandshakeError|unfold OnTcpHandshakeError];
    (destruct (Z.eqb_spec h 0) as [|Hc]; [intros [= <- <-]; by split; [apply moved_same|]|]).
  - destruct (negb (active s) || (m_sslHandshaker s =? 0)) eqn:E1; [intros [= <- <-]; by split|].
    apply orb_false_iff in E1 as [Ha%negb_false_iff Hm%Z.eqb_neq].
    destruct (Z.eqb_spec h (m_sslHandshaker s)) as [->|]; cbn [negb]; [|intros [= <- <-]; by split].
    destruct (proj1 (proj2 (proj2 (tidy_links s Ht))) Hm) as (L1 & L2 & L3).
    assert (Hg : holds s = [SslHandshaker (m_sslHandshaker s)]) by (unfold holds; by rewrite (obj_some SslHandshaker), L1, L2, L3).
    set (s2 := setLinks _ _ 0 _ s). assert (H2 : holds s2 = []) by (unfold holds, s2; cbn; by rewrite L1, L2, L3).
    destruct (upcallClose e1 e2 s2) as [s3 l3] eqn:Eu. intros [= <- <-].
    eapply (drop_moved s s2); try done. apply moved_link with (g := SslHandshaker (m_sslHandshaker s)); [done|]. fold s2. by rewrite Hg, H2.
  - destruct (negb (active s) || (m_tcpHandshaker s =? 0)) eqn:E1; [intros [= <- <-]; by split|].
    apply orb_false_iff in E1 as [Ha%negb_false_iff Hm%Z.eqb_neq].
    destruct (Z.eqb_spec h (m_tcpHandshaker s)) as [->|]; cbn [negb]; [|intros [= <- <-]; by split].
    destruct (proj1 (proj2 (tidy_links s Ht)) Hm) as (L1 & L2 & L3).
    assert (Hg : holds s = [TcpHandshaker (m_tcpHandshaker s)]) by (unfold holds; by rewrite (obj_some TcpHandshaker), L1, L2, L3).
    set (s2 := setLinks _ 0 _ _ s). assert (H2 : holds s2 = []) by (unfold holds, s2; cbn; by rewrite L1, L2, L3).
    destruct (upcallClose e1 0 s2) as [s3 l3] eqn:Eu. intros [= <- <-].
    eapply (drop_moved s s2); try done. apply moved_link with (g := TcpHandshaker (m_tcpHandshaker s)); [done|]. fold s2. by rewrite Hg, H2.
Qed.

Lemma Close_moved x e1 e2 s s' l : tidy s -> OnClose x e1 e2 s = (s', l) -> moved [] [] s s' l /\ tidy s'.
Proof.
  intros Ht. unfold OnClose. destruct (Z.eqb_spec x 0) as [|Hc]; [intros [= <- <-]; by split; [apply moved_same|]|].
  destruct (negb (active s) || (m_trans s =? 0)) eqn:E1; [intros [= <- <-]; by split|].
  apply orb_false_iff in E1 as [Ha%negb_false_iff Hm%Z.eqb_neq].
  destruct (Z.eqb_spec x (m_trans s)) as [->|]; cbn [negb]; [|intros [= <- <-]; by split].
  destruct (proj2 (proj2 (proj2 (tidy_links s Ht))) Hm) as (L1 & L2 & L3).
  assert (Hg : holds s = [Transport (m_trans s)]) by (unfold holds; by rewrite (obj_some Transport), L1, L2, L3).
  set (s2 := setLinks _ _ _ 0 s). assert (H2 : holds s2 = []) by (unfold holds, s2; cbn; by rewrite L1, L2, L3).
  destruct (upcallClose e1 e2 s2) as [s3 l3] eqn:Eu. intros [= <- <-].
  eapply (drop_moved s s2); try done. apply moved_link with (g := Transport (m_trans s)); [done|]. fold s2. by rewrite Hg, H2.
Qed.

Lemma HandshakeOk_moved (ssl : bool) h ctx k u buf size tr s s' l : tidy s ->
  (if ssl then OnSslHandshakeOk h ctx k u buf size tr s else OnTcpHandshakeOk h k u buf size tr s) = Some (s', l) ->
  moved (got (if ssl then CSslHandshakeOk h ctx k u buf size tr else CTcpHandshakeOk h k u buf size tr))
    (gotCtx (if ssl then CSslHandshakeOk h ctx k u buf size tr else CTcpHandshakeOk h k u buf size tr)) s s' l /\ tidy s'.
Proof.
  intros Ht. destruct ssl.
  - unfold OnSslHandshakeOk, got, gotCtx. destruct (_ || _ || _) eqn:E0; [intros [= <- <-]; by split; [apply moved_same|]|].
    apply orb_false_iff in E0 as [E0 Hk%Z.eqb_neq]. apply orb_false_iff in E0 as [Hc0%Z.eqb_neq Hx%Z.eqb_neq].
    destruct (negb (active s) || (m_sslHandshaker s =? 0)) eqn:E1; [intros [= <- <-]; by split|].
    apply orb_false_iff in E1 as [Ha%negb_false_iff Hm%Z.eqb_neq].
    destruct (Z.eqb_spec h (m_sslHandshaker s)) as [->|]; cbn [negb]; [|intros [= <- <-]; by split].
    destruct (proj1 (proj2 (proj2 (tidy_links s Ht))) Hm) as (L1 & L2 & L3).
    destruct (accept _ _ _ _ _ s) as [[[b s1] l1]|] eqn:Ea; [|done]. cbn [mbind option_bind].
    destruct (accept_moved true k u ctx buf size tr s b s1 l1 L3 Ea) as (H1 & D1 & D2 & D3 & D4 & D5).
    set (s2 := setLinks _ _ 0 _ s1). destruct (upcallResult b s2) as [s3 l3] eqn:Eu. intros [= <- <-].
    apply upcallResult_moved in Eu as (H3 & Hh & Ha3).
    assert (Ht2 : tidy s2).
    { apply (tidy_one Transport (m_trans s1)); [by cbn; rewrite D4|]. unfold holds, s2. cbn [m_connector m_tcpHandshaker m_sslHandshaker m_trans setLinks].
      by rewrite D1, D2, L1, L2. }
    split; [|by apply (tidy_same s2)]. apply (moved_last _ _ s s1 s2); try done.
    apply moved_link with (g := SslHandshaker (m_sslHandshaker s)); [done|]. unfold holds. cbn [m_connector m_tcpHandshaker m_sslHandshaker m_trans setLinks].
    rewrite D1, D2, D3, L1, L2, (obj_some SslHandshaker) by done. done.
  - unfold OnTcpHandshakeOk, got, gotCtx. destruct (_ || _) eqn:E0; [intros [= <- <-]; by split; [apply moved_same|]|].
    apply orb_false_iff in E0 as [Hc0%Z.eqb_neq Hk%Z.eqb_neq].
    destruct (negb (active s) || (m_tcpHandshaker s =? 0)) eqn:E1; [intros [= <- <-]; by split|].
    apply orb_false_iff in E1 as [Ha%negb_false_iff Hm%Z.eqb_neq].
    destruct (Z.eqb_spec h (m_tcpHandshaker s)) as [->|]; cbn [negb]; [|intros [= <- <-]; by split].
    destruct (proj1 (proj2 (tidy_links s Ht)) Hm) as (L1 & L2 & L3).
    destruct (accept _ _ _ _ _ s) as [[[b s1] l1]|] eqn:Ea; [|done]. cbn [mbind option_bind].
    destruct (accept_moved false k u ctx buf size tr s b s1 l1 L3 Ea) as (H1 & D1 & D2 & D3 & D4 & D5).
    set (s2 := setLinks _ 0 _ _ s1). destruct (upcallResult b s2) as [s3 l3] eqn:Eu. intros [= <- <-].
    apply upcallResult_moved in Eu as (H3 & Hh & Ha3).
    assert (Ht2 : tidy s2).
    { apply (tidy_one Transport (m_trans s1)); [by cbn; rewrite D4|]. unfold holds, s2. cbn [m_connector m_tcpHandshaker m_sslHandshaker m_trans setLinks].
      by rewrite D1, D3, L1, L2. }
    split; [|by apply (tidy_same s2)]. apply (moved_last _ _ s s1 s2); try done.
    apply moved_link with (g := TcpHandshaker (m_tcpHandshaker s)); [done|]. unfold holds. cbn [m_connector m_tcpHandshaker m_sslHandshaker m_trans setLinks].
    rewrite D1, D2, D3, L1, L2, (obj_some TcpHandshaker) by done. done.
Qed.

Lemma Timer_moved x s s' l : tidy s -> OnTimer x s = (s', l) -> moved [] [] s s' l /\ tidy s'.
Proof.
  intros Ht. unfold OnTimer. destruct (x =? 0); [intros [= <- <-]; by split; [apply moved_same|]|].
  destruct (active s) eqn:Ha; cbn [negb]; [|intros [= <- <-]; by split; [apply moved_same|]].
  destruct (x =? m_timeoutTimerId s); cbn [negb]; [|intros [= <- <-]; by split; [apply moved_same|]].
  assert (H0 : moved [] [] s (clearTimer s) [CancelTimer x]) by by split.
  destruct (upcallClose PBSD_ETIMEDOUT 0 (clearTimer s)) as [s1 l1] eqn:Eu. apply upcallClose_moved in Eu as (H1 & Hh & Ha1).
  assert (Ht1 : tidy s1) by (by apply (tidy_same s)).
  destruct (if m_canUpcall s1 then (s1, []) else Fini s1) as [s2 l2] eqn:Ef. intros [= <- <-].
  assert (H2 : moved [] [] s1 s2 l2 /\ tidy s2 /\ upcalls l2 = []).
  { destruct (m_canUpcall s1); [injection Ef as <- <-; by split; [apply moved_same|]|].
    pose proof (Fini_moved _ _ _ Ef) as [Hm Hf]. split; [done|]. cbn [active clearTimer setStart] in Ha1. rewrite Ha1, Ha in Hf.
    split; [split; rewrite Hf; [cbn; lia|done]|]. unfold Fini in Ef. rewrite Ha1, Ha in Ef. cbn [negb] in Ef. injection Ef as _ <-.
    unfold given. by repeat case_match. }
  destruct H2 as (H2 & Ht2 & Hu2). split; [|done].
  apply (moved_app [] [] [] [] s (clearTimer s) s2 [CancelTimer x]); [done| |by left].
  apply (moved_app [] [] [] [] (clearTimer s) s1 s2); [done|done|by right].
Qed.

Lemma exec_moved c s s' l : tidy s -> exec c s = Some (s', l) -> moved (got c) (gotCtx c) s s' l /\ tidy s'.
Proof.
  intros Ht. destruct c; cbn [exec].
  - destruct (Init _ _ _ _ _ _ s) as [[b s1] l1] eqn:E. intros [= <- <-]. revert E. unfold Init.
    destruct (emptyIp || _); [intros [= <- <- <-]; by split; [apply moved_same|]|].
    destruct (active s || _ || _ || _ || _) eqn:Eg; [intros [= <- <- <-]; by split; [apply moved_same|]|].
    destruct (Z.eqb_spec connector 0) as [->|Hn]; [intros [= <- <- <-]; by split|]. intros [= <- <- <-].
    repeat (apply orb_false_iff in Eg as [Eg ?%negb_false_iff]). rewrite !Z.eqb_eq in *.
    assert (Hh : holds s = []) by (unfold holds; by rewrite H, H0, H1, H2).
    split; [split|]; try done.
    + rewrite Hh. unfold holds. cbn -[obj]. by rewrite !(obj_some Connector).
    + apply (tidy_one Connector connector); [done|]. unfold holds. cbn -[obj]. by rewrite !app_nil_r.
  - destruct (Fini s) as [s1 l1] eqn:E. intros [= <- <-]. pose proof (Fini_moved _ _ _ E) as [Hm Hf]. split; [done|].
    split; rewrite Hf; destruct (active s) eqn:Ha; try done; [cbn; lia|apply Ht|]. intros _. by apply (td_idle _ Ht).
  - intros [= E]. by eapply ConnectOk_moved.
  - intros [= E]. by eapply ConnectError_moved.
  - intros E. by apply (HandshakeOk_moved false handshaker 0 sockId unixSocket buf size trans).
  - intros E. by apply (HandshakeOk_moved true handshaker ctx sockId unixSocket buf size trans).
  - intros [= E]. by apply (HandshakeError_moved false handshaker errorCode 0).
  - intros [= E]. by apply (HandshakeError_moved true handshaker errorCode sslCode).
  - intros [= E]. by eapply Timer_moved.
  - intros [= E]. by eapply Close_moved.
Qed.

(** The upcalls of a run that begins with these flags. *)
Fixpoint upcalls_ok (can onOk : bool) (l : list effect) : Prop :=
  match l with
  | [] => True
  | OnOkSession :: l => can = true /\ onOk = false /\ upcalls_ok true true l
  | OnCloseSession _ _ _ :: l => can = true /\ upcalls_ok false onOk l
  | _ => False
  end.
(** A block that is received has the size that is told. *)
Definition sized (c : call) : Prop :=
  match c with
  | CTcpHandshakeOk _ _ _ (Some buf) size _ | CSslHandshakeOk _ _ _ _ (Some buf) size _ => zlen buf = size
  | _ => True
  end.

Lemma ParseExtBuffer_total buf : is_Some (CRtpPacket.ParseExtBuffer buf (zlen buf)).
Proof.
  unfold CRtpPacket.ParseExtBuffer, sizeof_RTP_EXT, sizeof_RTP_HEADER. destruct (Z.ltb_spec (zlen buf) (8 + 12 + 1)); [by eexists|].
  unfold CRtpPacket.rd. cbn [Z.leb Z.compare andb]. rewrite !(proj2 (Z.leb_le _ (zlen buf))) by lia. cbn [mbind option_bind].
  repeat case_match; by eexists.
Qed.

Lemma accept_total buf size tr l1 l2 s : match buf with Some b => zlen b = size | None => True end -> is_Some (accept buf size tr l1 l2 s).
Proof.
  intros Hs. unfold accept. destruct buf as [buf|]; [|by eexists]. subst size. destruct (negb _); [by eexists|].
  destruct (ParseExtBuffer_total buf) as [b ->]. cbn [mbind option_bind]. destruct (negb b); [by eexists|]. destruct (tr =? 0); by eexists.
Qed.
Lemma exec_total c s : sized c -> is_Some (exec c s).
Proof.
  destruct c; cbn [exec sized]; intros Hs; try by eexists.
  - destruct (Init _ _ _ _ _ _ s) as [[? ?] ?]. by eexists.
  - unfold OnTcpHandshakeOk. destruct (_ || _); [by eexists|]. destruct (_ || _); [by eexists|]. destruct (negb _); [by eexists|].
    destruct (accept_total buf size trans [CreateTcpTransport trans sockId unixSocket] [CloseSock sockId] s Hs) as [[[b s1] l1] ->]. cbn [mbind option_bind].
    destruct (upcallResult b _) as [? ?]. by eexists.
  - unfold OnSslHandshakeOk. destruct (_ || _ || _); [by eexists|]. destruct (_ || _); [by eexists|]. destruct (negb _); [by eexists|].
    destruct (accept_total buf size trans [CreateSslTransport trans ctx sockId unixSocket] [SslCtx_Delete ctx; CloseSock sockId] s Hs) as [[[b s1] l1] ->].
    cbn [mbind option_bind]. destruct (upcallResult b _) as [? ?]. by eexists.
Qed.

Lemma login_run_ok cs s : tidy s -> Forall sized cs -> exists s' l, run cs s = Some (s', l) /\ tidy s' /\
  made l ++ holds s ≡ₚ gone l ++ holds s' /\ concat (got <$> cs) ≡ₚ passed l /\ concat (gotCtx <$> cs) ++ madeCtx l ≡ₚ passedCtx l /\
  upcalls_ok (m_canUpcall s) (m_onOkCalled s) (upcalls l).
Proof.
  assert (Hc : forall {A} (f : effect -> list A) l l', concat (f <$> (l ++ l')) = concat (f <$> l) ++ concat (f <$> l'))
    by (intros; by rewrite fmap_app, concat_app).
  revert s. induction cs as [|c cs IH]; intros s Ht Hs.
  - eexists _, _. split; [reflexivity|]. by split_and!.
  - apply Forall_cons in Hs as [Hsz Hs]. destruct (exec_total c s Hsz) as [[s1 l1] E1]. destruct (exec_moved _ _ _ _ Ht E1) as [[M1 M2 M3 M4] Ht1].
    destruct (IH s1 Ht1 Hs) as (s2 & l2 & E2 & Ht2 & R1 & R2 & R3 & R4). exists s2, (l1 ++ l2). cbn [run]. rewrite E1. cbn [mbind option_bind]. rewrite E2.
    split; [done|]. split; [done|]. unfold made, gone, passed, madeCtx, passedCtx in *. rewrite !Hc. cbn [fmap list_fmap concat]. split; [|split; [|split]].
    + rewrite <- !(assoc_L (++)). rewrite (Permutation_app_swap_app (concat _) (concat _) (holds s)), M1.
      rewrite (Permutation_app_swap_app (concat _) (concat _) (holds s1)), R1. by rewrite (Permutation_app_swap_app (concat _) (concat _) (holds s2)).
    + by rewrite M2, R2.
    + rewrite <- M3, <- R3. rewrite <- !(assoc_L (++)). f_equiv. apply Permutation_app_swap_app.
    + unfold upcalls in *. rewrite List.filter_app. destruct (List.filter _ l1) as [|e [|]]; cbn [app].
      * destruct M4 as [E3 E4]. by rewrite E3, E4 in R4.
      * destruct e; try done; cbn [upcalls_ok].
        -- destruct M4 as (-> & -> & E3 & E4). by rewrite E3, E4 in R4.
        -- destruct M4 as (-> & E3 & E4). by rewrite E3, E4 in R4.
      * by destruct e.
Qed.

Lemma upcalls_shape l : upcalls_ok true false l ->
  l = [] \/ l = [OnOkSession] \/ exists e1 e2 b, l = [OnCloseSession e1 e2 b] \/ l = [OnOkSession; OnCloseSession e1 e2 b].
Proof.
  assert (Hf : forall b l, upcalls_ok false b l -> l = []) by (intros b [|[] ?]; try done; by intros []).
  destruct l as [|e l]; [by left|]. destruct e; try done; cbn [upcalls_ok].
  - intros (_ & _ & H). right. destruct l as [|e l]; [by left|]. right. destruct e; try done; cbn [upcalls_ok] in H; [by destruct H as (_ & ? & _)|].
    destruct H as [_ H]. apply Hf in H as ->. exists errorCode, sslCode, tcpConnected. by right.
  - intros (_ & H). apply Hf in H as ->. right. right. exists errorCode, sslCode, tcpConnected. by left.
Qed.
End LoginRuns.

Module LoginTheorems.
Import SessionInfo CRtpSessionTcpclientEx LoginRuns.


(** A client that logs in, gets its transport, and whose transport is closed later. *)
Definition demoInfo : SessionInfo.t := mkInfo 0 0 0 11 (replicate 32 0) (replicate 34 0) 7 21 0 0 (replicate 64 0).
Definition demoCalls : list call :=
  [CInit false 3000 (Some [112; 119]) 0 5 6;
   CConnectOk 5 40 false 258 (mkAnswers (Some (replicate 192 0)) (true, true) 0 8);
   CTcpHandshakeOk 8 40 false (Some (RtpFields.blank 2 ++ [0; 1])) 22 9;
   CClose 9 (-1) 0].

End LoginTheorems.
