(* ===== verification/RtpService.v ===== *)
(** * The RTP service ([rtp_service.cpp])

    A service gets from the service hub the connections that are meant for it, each with the
    nonce that the acceptor has sent, and receives the login of the client through a
    handshaker, over TCP or over TLS.  A login that is well formed goes to the observer. *)

From S2P Require Import Prelude Bytes Bsd StlMap RtpPacket RtpSession RtpLogin.

Module CRtpService.
Import SessionInfo.
Local Abbreviation MAX_PENDING_COUNT := 5000.

(** [CRtpService]: [active] is whether observer and reactor are set; of the SSL
    configuration only whether it is there *)
Record t := mkService {
  m_sslConfig : bool;
  m_mmType : Z;
  active : bool;
  m_serviceHost : Z;
  m_timeoutInSeconds : Z;
  m_tcpHandshaker2Nonce : list (Z * Z);
  m_sslHandshaker2Nonce : list (Z * Z)
}.

Definition address : Type := list Z * Z.

Inductive effect :=
  | CreateServiceHost (host hubPort mmType : Z)
  | DeleteServiceHost (host : Z)
  | CloseSock (sockId : Z)
  | CreateTcpHandshaker (handshaker sockId : Z) (unixSocket : bool) (sendData : list Z) (recvDataSize : Z) (recvFirst : bool) (timeoutInSeconds : Z)
  | CreateSslCtx (ctx sockId nonce : Z)
  | CreateSslHandshaker (handshaker ctx sockId : Z) (unixSocket : bool) (sendData : list Z) (recvDataSize : Z) (recvFirst : bool) (timeoutInSeconds : Z)
  | SslCtx_Delete (ctx : Z)
  | DeleteTcpHandshaker (handshaker : Z)
  | DeleteSslHandshaker (handshaker : Z)
  | OnAcceptSession (ctx : option Z) (sockId : Z) (unixSocket : bool) (remote : address) (remoteInfo : SessionInfo.t) (nonce : Z).

Definition construct (sslConfig : bool) (mmType : Z) : t := mkService sslConfig mmType false 0 0 [] [].
Definition CreateInstance (sslConfig : bool) (mmType : Z) : option t := if mmType =? 0 then None else Some (construct sslConfig mmType).
Definition setMaps (tcp ssl : list (Z * Z)) (s : t) : t :=
  mkService (m_sslConfig s) (m_mmType s) (active s) (m_serviceHost s) (m_timeoutInSeconds s) tcp ssl.

(** [Init]; [host] is what [ProCreateServiceHost] gives *)
Definition Init (serviceHubPort timeoutInSeconds host : Z) (s : t) : bool * t * list effect :=
  if serviceHubPort =? 0 then (false, s, []) else
  if active s || negb (m_serviceHost s =? 0) then (false, s, []) else
  let create := [CreateServiceHost host serviceHubPort (m_mmType s)] in
  if host =? 0 then (false, s, create) else
  (true, mkService (m_sslConfig s) (m_mmType s) true host timeoutInSeconds (m_tcpHandshaker2Nonce s) (m_sslHandshaker2Nonce s), create).

(** [Fini] *)
Definition Fini (s : t) : t * list effect :=
  if negb (active s) || (m_serviceHost s =? 0) then (s, []) else
  (mkService (m_sslConfig s) (m_mmType s) false 0 (m_timeoutInSeconds s) [] [],
   map (fun e => DeleteSslHandshaker (fst e)) (m_sslHandshaker2Nonce s) ++ map (fun e => DeleteTcpHandshaker (fst e)) (m_tcpHandshaker2Nonce s) ++
   [DeleteServiceHost (m_serviceHost s)]).

Definition LOGIN_BYTES : Z := sizeof_RTP_EXT + sizeof_RTP_HEADER + sizeof_RTP_SESSION_INFO.

(** [OnServiceAccept]; [handshaker] and [ctx] are what the calls give *)
Definition OnServiceAccept (serviceHost sockId : Z) (unixSocket : bool) (serviceId serviceOpt nonce handshaker ctx : Z) (s : t) : t * list effect :=
  if (serviceHost =? 0) || (sockId =? -1) || (serviceId =? 0) then (s, []) else
  if negb (active s) || (m_serviceHost s =? 0) then (s, [CloseSock sockId]) else
  if negb (serviceHost =? m_serviceHost s) || negb (serviceId =? m_mmType s) then (s, [CloseSock sockId]) else
  if zlen (m_tcpHandshaker2Nonce s) + zlen (m_sslHandshaker2Nonce s) >=? MAX_PENDING_COUNT then (s, [CloseSock sockId]) else
  if serviceOpt =? 0 then
    let create := [CreateTcpHandshaker handshaker sockId unixSocket [] LOGIN_BYTES false (m_timeoutInSeconds s)] in
    if handshaker =? 0 then (s, create ++ [CloseSock sockId]) else
    (setMaps (stl_assign (handshaker, nonce) (m_tcpHandshaker2Nonce s)) (m_sslHandshaker2Nonce s) s, create)
  else
    if negb (m_sslConfig s) then (s, [CloseSock sockId]) else
    let createCtx := [CreateSslCtx ctx sockId nonce] in
    if ctx =? 0 then (s, createCtx ++ [CloseSock sockId]) else
    let create := createCtx ++ [CreateSslHandshaker handshaker ctx sockId unixSocket [] LOGIN_BYTES false (m_timeoutInSeconds s)] in
    if handshaker =? 0 then (s, create ++ [SslCtx_Delete ctx; CloseSock sockId]) else
    (setMaps (m_tcpHandshaker2Nonce s) (stl_assign (handshaker, nonce) (m_sslHandshaker2Nonce s)) s, create).

(** A dummy for unix sockets *)
Definition localRemote : address := ([49; 50; 55; 46; 48; 46; 48; 46; 49], 65535).

(** The end of both [OnHandshakeOk]: [ctx] and [buf] are those that are left of the
    parameters *)
Definition hand (ctx : option Z) (sockId : Z) (unixSocket : bool) (buf : list Z) (size : Z) (peer : option address) (nonce : Z) : option (list effect) :=
  ok ← CRtpPacket.ParseExtBuffer buf size;
  if negb ok then Some (match ctx with Some ctx => [SslCtx_Delete ctx] | None => [] end ++ [CloseSock sockId]) else
  let remoteInfo := toHost (ofImage (zsub (sizeof_RTP_EXT + sizeof_RTP_HEADER) (size - sizeof_RTP_EXT - sizeof_RTP_HEADER) buf)) in
  Some [OnAcceptSession ctx sockId unixSocket (if unixSocket then localRemote else default ([], 0) peer) remoteInfo nonce].

(** [OnHandshakeOk] of a [IProTcpHandshaker]; [peer] is [pbsd_getpeername]'s *)
Definition OnTcpHandshakeOk (handshaker sockId : Z) (unixSocket : bool) (buf : option (list Z)) (size : Z) (peer : option address) (s : t) : option (t * list effect) :=
  if (handshaker =? 0) || (sockId =? -1) then Some (s, []) else
  if negb (active s) || (m_serviceHost s =? 0) then Some (s, [CloseSock sockId]) else
  match stl_find handshaker (m_tcpHandshaker2Nonce s) with
  | None => Some (s, [CloseSock sockId])
  | Some (_, nonce) =>
      let lost := negb unixSocket && bool_decide (peer = None) in
      let bad := bool_decide (buf = None) || negb (size =? LOGIN_BYTES) in
      let s := setMaps (stl_erase handshaker (m_tcpHandshaker2Nonce s)) (m_sslHandshaker2Nonce s) s in
      if lost || bad then Some (s, [CloseSock sockId; DeleteTcpHandshaker handshaker]) else
      l ← hand None sockId unixSocket (default [] buf) size peer nonce;
      Some (s, [DeleteTcpHandshaker handshaker] ++ l)
  end.

(** [OnHandshakeOk] of a [IProSslHandshaker] *)
Definition OnSslHandshakeOk (handshaker ctx sockId : Z) (unixSocket : bool) (buf : option (list Z)) (size : Z) (peer : option address) (s : t) : option (t * list effect) :=
  if (handshaker =? 0) || (ctx =? 0) || (sockId =? -1) then Some (s, []) else
  if negb (active s) || (m_serviceHost s =? 0) then Some (s, [SslCtx_Delete ctx; CloseSock sockId]) else
  match stl_find handshaker (m_sslHandshaker2Nonce s) with
  | None => Some (s, [SslCtx_Delete ctx; CloseSock sockId])
  | Some (_, nonce) =>
      let lost := negb unixSocket && bool_decide (peer = None) in
      let bad := bool_decide (buf = None) || negb (size =? LOGIN_BYTES) in
      let s := setMaps (m_tcpHandshaker2Nonce s) (stl_erase handshaker (m_sslHandshaker2Nonce s)) s in
      if bad then Some (s, (if lost then [CloseSock sockId; SslCtx_Delete ctx] else [SslCtx_Delete ctx; CloseSock sockId]) ++ [DeleteSslHandshaker handshaker])
      else if lost then Some (s, [CloseSock sockId; DeleteSslHandshaker handshaker; SslCtx_Delete ctx]) else
      l ← hand (Some ctx) sockId unixSocket (default [] buf) size peer nonce;
      Some (s, [DeleteSslHandshaker handshaker] ++ l)
  end.

(** Both [OnHandshakeError] *)
Definition OnTcpHandshakeError (handshaker : Z) (s : t) : t * list effect :=
  if handshaker =? 0 then (s, []) else
  if negb (active s) || (m_serviceHost s =? 0) then (s, []) else
  match stl_find handshaker (m_tcpHandshaker2Nonce s) with
  | None => (s, [])
  | Some _ => (setMaps (stl_erase handshaker (m_tcpHandshaker2Nonce s)) (m_sslHandshaker2Nonce s) s, [DeleteTcpHandshaker handshaker])
  end.
Definition OnSslHandshakeError (handshaker : Z) (s : t) : t * list effect :=
  if handshaker =? 0 then (s, []) else
  if negb (active s) || (m_serviceHost s =? 0) then (s, []) else
  match stl_find handshaker (m_sslHandshaker2Nonce s) with
  | None => (s, [])
  | Some _ => (setMaps (m_tcpHandshaker2Nonce s) (stl_erase handshaker (m_sslHandshaker2Nonce s)) s, [DeleteSslHandshaker handshaker])
  end.

End CRtpService.

(** ** What a service does in any run *)

Module ServiceRuns.
Import SessionInfo CRtpService.

Inductive call :=
  | CInit (serviceHubPort timeoutInSeconds host : Z)
  | CFini
  | CServiceAccept (serviceHost sockId : Z) (unixSocket : bool) (serviceId serviceOpt nonce handshaker ctx : Z)
  | CTcpHandshakeOk (handshaker sockId : Z) (unixSocket : bool) (buf : option (list Z)) (size : Z) (peer : option address)
  | CSslHandshakeOk (handshaker ctx sockId : Z) (unixSocket : bool) (buf : option (list Z)) (size : Z) (peer : option address)
  | CTcpHandshakeError (handshaker : Z)
  | CSslHandshakeError (handshaker : Z).

Definition exec (c : call) (s : t) : option (t * list effect) :=
  match c with
  | CInit serviceHubPort timeoutInSeconds host => let '(_, s, l) := Init serviceHubPort timeoutInSeconds host s in Some (s, l)
  | CFini => Some (Fini s)
  | CServiceAccept serviceHost sockId unixSocket serviceId serviceOpt nonce handshaker ctx =>
      Some (OnServiceAccept serviceHost sockId unixSocket serviceId serviceOpt nonce handshaker ctx s)
  | CTcpHandshakeOk handshaker sockId unixSocket buf size peer => OnTcpHandshakeOk handshaker sockId unixSocket buf size peer s
  | CSslHandshakeOk handshaker ctx sockId unixSocket buf size peer => OnSslHandshakeOk handshaker ctx sockId unixSocket buf size peer s
  | CTcpHandshakeError handshaker => Some (OnTcpHandshakeError handshaker s)
  | CSslHandshakeError handshaker => Some (OnSslHandshakeError handshaker s)
  end.

(** A block that is received has the size that is told; a new handshaker is none of the old ones. *)
Definition sized (c : call) : Prop :=
  match c with CTcpHandshakeOk _ _ _ (Some buf) size _ | CSslHandshakeOk _ _ _ _ (Some buf) size _ => zlen buf = size | _ => True end.
Definition fresh (c : call) (s : t) : Prop :=
  match c with
  | CServiceAccept _ _ _ _ _ _ h _ => stl_find h (m_tcpHandshaker2Nonce s) = None /\ stl_find h (m_sslHandshaker2Nonce s) = None
  | _ => True
  end.
Inductive reachable (ssl : bool) (mmType : Z) : t -> list call -> list effect -> Prop :=
  | reach_start : reachable ssl mmType (construct ssl mmType) [] []
  | reach_call s cs l c s' l' : reachable ssl mmType s cs l -> sized c -> fresh c s -> exec c s = Some (s', l') ->
      reachable ssl mmType s' (cs ++ [c]) (l ++ l').

(** The objects of a service: made, deleted, held. *)
Inductive object := Host (x : Z) | TcpHandshaker (x : Z) | SslHandshaker (x : Z).
Definition obj (f : Z -> object) (x : Z) : list object := if x =? 0 then [] else [f x].
Definition made (l : list effect) : list object :=
  concat ((fun e => match e with
                    | CreateServiceHost x _ _ => obj Host x
                    | CreateTcpHandshaker x _ _ _ _ _ _ => obj TcpHandshaker x
                    | CreateSslHandshaker x _ _ _ _ _ _ _ => obj SslHandshaker x
                    | _ => [] end) <$> l).
Definition gone (l : list effect) : list object :=
  concat ((fun e => match e with
                    | DeleteServiceHost x => [Host x]
                    | DeleteTcpHandshaker x => [TcpHandshaker x]
                    | DeleteSslHandshaker x => [SslHandshaker x]
                    | _ => [] end) <$> l).
Definition holds (s : t) : list object :=
  obj Host (m_serviceHost s) ++ (TcpHandshaker <$> (m_tcpHandshaker2Nonce s).*1) ++ (SslHandshaker <$> (m_sslHandshaker2Nonce s).*1).

(** The sockets and the contexts that come in or are made, and that are passed on or freed. *)
Definition got (c : call) : list Z :=
  match c with
  | CServiceAccept x k _ id _ _ _ _ => if (x =? 0) || (k =? -1) || (id =? 0) then [] else [k]
  | CTcpHandshakeOk x k _ _ _ _ => if (x =? 0) || (k =? -1) then [] else [k]
  | CSslHandshakeOk x ctx k _ _ _ _ => if (x =? 0) || (ctx =? 0) || (k =? -1) then [] else [k]
  | _ => []
  end.
Definition passed (l : list effect) : list Z :=
  concat ((fun e => match e with
                    | CloseSock k | OnAcceptSession _ k _ _ _ _ => [k]
                    | CreateTcpHandshaker x k _ _ _ _ _ | CreateSslHandshaker x _ k _ _ _ _ _ => if x =? 0 then [] else [k]
                    | _ => [] end) <$> l).
Definition gotCtx (c : call) : list Z :=
  match c with CSslHandshakeOk x ctx k _ _ _ _ => if (x =? 0) || (ctx =? 0) || (k =? -1) then [] else [ctx] | _ => [] end.
Definition madeCtx (l : list effect) : list Z :=
  concat ((fun e => match e with CreateSslCtx ctx _ _ => if ctx =? 0 then [] else [ctx] | _ => [] end) <$> l).
Definition passedCtx (l : list effect) : list Z :=
  concat ((fun e => match e with
                    | SslCtx_Delete ctx | OnAcceptSession (Some ctx) _ _ _ _ _ => [ctx]
                    | CreateSslHandshaker x ctx _ _ _ _ _ _ => if x =? 0 then [] else [ctx]
                    | _ => [] end) <$> l).

(** The nonces: where the service has them from, and what it says. *)
Definition nonceOf (cs : list call) (h nonce : Z) : Prop := exists x k u id opt ctx, CServiceAccept x k u id opt nonce h ctx ∈ cs.
Definition accept_ok (cs : list call) (e : effect) : Prop :=
  match e with
  | OnAcceptSession ctx k u remote remoteInfo nonce =>
      exists h buf peer, nonceOf cs h nonce /\
        (ctx = None /\ CTcpHandshakeOk h k u (Some buf) LOGIN_BYTES peer ∈ cs \/
         exists x, ctx = Some x /\ CSslHandshakeOk h x k u (Some buf) LOGIN_BYTES peer ∈ cs) /\
        CRtpPacket.ParseExtBuffer buf LOGIN_BYTES = Some true /\
        remoteInfo = toHost (ofImage (zsub (sizeof_RTP_EXT + sizeof_RTP_HEADER) sizeof_RTP_SESSION_INFO buf))
  | _ => True
  end.

Record inv (s : t) (cs : list call) (l : list effect) : Prop := mkInv {
  iv_tcp : stl_sorted (m_tcpHandshaker2Nonce s);
  iv_ssl : stl_sorted (m_sslHandshaker2Nonce s);
  iv_zero : forall h n, (h, n) ∈ m_tcpHandshaker2Nonce s ++ m_sslHandshaker2Nonce s -> h <> 0 /\ nonceOf cs h n;
  iv_bound : zlen (m_tcpHandshaker2Nonce s) + zlen (m_sslHandshaker2Nonce s) <= 5000;
  iv_idle : active s = negb (m_serviceHost s =? 0) /\ (active s = false -> holds s = []);
  iv_objects : made l ≡ₚ gone l ++ holds s;
  iv_sockets : concat (got <$> cs) ≡ₚ passed l;
  iv_ctxs : concat (gotCtx <$> cs) ++ madeCtx l ≡ₚ passedCtx l;
  iv_accepts : Forall (accept_ok cs) l
}.

Lemma service_app (l l' : list effect) : made (l ++ l') = made l ++ made l' /\ gone (l ++ l') = gone l ++ gone l' /\
  passed (l ++ l') = passed l ++ passed l' /\ madeCtx (l ++ l') = madeCtx l ++ madeCtx l' /\ passedCtx (l ++ l') = passedCtx l ++ passedCtx l'.
Proof. unfold made, gone, passed, madeCtx, passedCtx. by rewrite !fmap_app, !concat_app. Qed.

(** What one call has to do. *)
Record moved (cs : list call) (c : call) (s s' : t) (l : list effect) : Prop := mkMoved {
  mv_tcp : stl_sorted (m_tcpHandshaker2Nonce s');
  mv_ssl : stl_sorted (m_sslHandshaker2Nonce s');
  mv_zero : forall h n, (h, n) ∈ m_tcpHandshaker2Nonce s' ++ m_sslHandshaker2Nonce s' -> h <> 0 /\ nonceOf (cs ++ [c]) h n;
  mv_bound : zlen (m_tcpHandshaker2Nonce s') + zlen (m_sslHandshaker2Nonce s') <= 5000;
  mv_idle : active s' = negb (m_serviceHost s' =? 0) /\ (active s' = false -> holds s' = []);
  mv_objects : made l ++ holds s ≡ₚ gone l ++ holds s';
  mv_sockets : got c ≡ₚ passed l;
  mv_ctxs : gotCtx c ++ madeCtx l ≡ₚ passedCtx l;
  mv_accepts : Forall (accept_ok (cs ++ [c])) l
}.

Lemma nonceOf_app cs c h n : nonceOf cs h n -> nonceOf (cs ++ [c]) h n.
Proof. intros (x & k & u & id & opt & ctx & Hin). exists x, k, u, id, opt, ctx. apply elem_of_app. by left. Qed.
Lemma accept_ok_app cs c e : accept_ok cs e -> accept_ok (cs ++ [c]) e.
Proof.
  destruct e; try done. cbn [accept_ok]. intros (h & buf & peer & Hn & Hin & Hp). exists h, buf, peer. split; [by apply nonceOf_app|]. split; [|done].
  destruct Hin as [[? ?]|(x & ? & ?)]; [left|right; exists x]; (split; [done|]); apply elem_of_app; by left.
Qed.
Lemma moved_inv cs c s s' l l' : inv s cs l -> moved cs c s s' l' -> inv s' (cs ++ [c]) (l ++ l').
Proof.
  intros [I1 I2 I3 I4 I5 I6 I7 I8 I9] [M1 M2 M3 M4 M5 M6 M7 M8 M9]. destruct (service_app l l') as (E1 & E2 & E3 & E4 & E5).
  split; try done; rewrite ?E1, ?E2, ?E3, ?E4, ?E5, ?fmap_app, ?concat_app; cbn [fmap list_fmap concat]; rewrite ?app_nil_r.
  - rewrite I6. rewrite <- !(assoc_L (++)). f_equiv. by rewrite (Permutation_app_comm (holds s)), M6.
  - by rewrite I7, M7.
  - rewrite <- I8, <- M8. rewrite <- !(assoc_L (++)). f_equiv. apply Permutation_app_swap_app.
  - apply Forall_app. split; [|done]. eapply Forall_impl; [exact I9|]. intros e. apply accept_ok_app.
Qed.

(** A call that changes nothing, and says nothing. *)
Lemma service_same cs c s l : inv s cs l -> forall l', made l' = [] -> gone l' = [] -> got c ≡ₚ passed l' -> gotCtx c ++ madeCtx l' ≡ₚ passedCtx l' ->
  Forall (accept_ok (cs ++ [c])) l' -> moved cs c s s l'.
Proof.
  intros [I1 I2 I3 I4 I5 I6 I7 I8 I9] l' E1 E2 E3 E4 E5. split; rewrite ?E1, ?E2; try done.
  intros h n Hin. destruct (I3 h n Hin). split; [done|]. by apply nonceOf_app.
Qed.

Lemma holds_erase_tcp s h n : stl_find h (m_tcpHandshaker2Nonce s) = Some (h, n) ->
  holds s ≡ₚ TcpHandshaker h :: holds (setMaps (stl_erase h (m_tcpHandshaker2Nonce s)) (m_sslHandshaker2Nonce s) s).
Proof.
  intros Hf. unfold holds. cbn [m_serviceHost m_tcpHandshaker2Nonce m_sslHandshaker2Nonce setMaps].
  rewrite (stl_erase_Permutation h (m_tcpHandshaker2Nonce s) (h, n) Hf) at 1. cbn [fmap list_fmap]. solve_Permutation.
Qed.
Lemma holds_erase_ssl s h n : stl_find h (m_sslHandshaker2Nonce s) = Some (h, n) ->
  holds s ≡ₚ SslHandshaker h :: holds (setMaps (m_tcpHandshaker2Nonce s) (stl_erase h (m_sslHandshaker2Nonce s)) s).
Proof.
  intros Hf. unfold holds. cbn [m_serviceHost m_tcpHandshaker2Nonce m_sslHandshaker2Nonce setMaps].
  rewrite (stl_erase_Permutation h (m_sslHandshaker2Nonce s) (h, n) Hf) at 1. cbn [fmap list_fmap]. solve_Permutation.
Qed.
Lemma holds_assign_tcp s h n : h <> 0 -> stl_find h (m_tcpHandshaker2Nonce s) = None ->
  obj TcpHandshaker h ++ holds s ≡ₚ holds (setMaps (stl_assign (h, n) (m_tcpHandshaker2Nonce s)) (m_sslHandshaker2Nonce s) s).
Proof.
  intros Hh Hf. unfold holds. cbn [m_serviceHost m_tcpHandshaker2Nonce m_sslHandshaker2Nonce setMaps].
  rewrite (stl_assign_fresh (h, n)) by done. rewrite (stl_insert_Permutation (h, n)) by done. cbn [fmap list_fmap].
  unfold obj. rewrite (proj2 (Z.eqb_neq h 0)) by done. solve_Permutation.
Qed.
Lemma holds_assign_ssl s h n : h <> 0 -> stl_find h (m_sslHandshaker2Nonce s) = None ->
  obj SslHandshaker h ++ holds s ≡ₚ holds (setMaps (m_tcpHandshaker2Nonce s) (stl_assign (h, n) (m_sslHandshaker2Nonce s)) s).
Proof.
  intros Hh Hf. unfold holds. cbn [m_serviceHost m_tcpHandshaker2Nonce m_sslHandshaker2Nonce setMaps].
  rewrite (stl_assign_fresh (h, n)) by done. rewrite (stl_insert_Permutation (h, n)) by done. cbn [fmap list_fmap].
  unfold obj. rewrite (proj2 (Z.eqb_neq h 0)) by done. solve_Permutation.
Qed.

Lemma ServiceAccept_moved cs x k u id opt nonce h ctx s s' l l0 : inv s cs l0 -> fresh (CServiceAccept x k u id opt nonce h ctx) s ->
  OnServiceAccept x k u id opt nonce h ctx s = (s', l) -> moved cs (CServiceAccept x k u id opt nonce h ctx) s s' l.
Proof.
  intros Hinv [F1 F2]. set (c := CServiceAccept x k u id opt nonce h ctx). pose proof Hinv as [I1 I2 I3 I4 I5 I6 I7 I8 I9].
  unfold OnServiceAccept. destruct ((x =? 0) || (k =? -1) || (id =? 0)) eqn:E0.
  { intros [= <- <-]. apply (service_same _ _ _ _ Hinv); try done. unfold got, c. by rewrite E0. }
  assert (Hg : got c = [k]) by (unfold got, c; by rewrite E0).
  assert (Hclose : forall l', made l' = [] -> gone l' = [] -> passed l' = [k] -> madeCtx l' ≡ₚ passedCtx l' -> Forall (accept_ok (cs ++ [c])) l' -> moved cs c s s l').
  { intros l' ? ? Hp ? ?. apply (service_same _ _ _ _ Hinv); try done. by rewrite Hg, Hp. }
  assert (Hc1 : moved cs c s s [CloseSock k]) by (apply Hclose; by repeat constructor).
  destruct (negb (active s) || (m_serviceHost s =? 0)) eqn:E1; [by intros [= <- <-]|].
  destruct (negb (x =? m_serviceHost s) || negb (id =? m_mmType s)); [by intros [= <- <-]|].
  rewrite Z.geb_leb. destruct (Z.leb_spec 5000 (zlen (m_tcpHandshaker2Nonce s) + zlen (m_sslHandshaker2Nonce s))) as [|Hsz]; [by intros [= <- <-]|].
  apply orb_false_iff in E1 as [Ha%negb_false_iff Hhost%Z.eqb_neq].
  assert (Hno : nonceOf (cs ++ [c]) h nonce) by (exists x, k, u, id, opt, ctx; apply elem_of_app; right; by left).
  assert (Hold : forall h' n', (h', n') ∈ m_tcpHandshaker2Nonce s ++ m_sslHandshaker2Nonce s -> h' <> 0 /\ nonceOf (cs ++ [c]) h' n').
  { intros h' n' Hin. destruct (I3 h' n' Hin). split; [done|]. by apply nonceOf_app. }
  destruct (opt =? 0).
  - destruct (Z.eqb_spec h 0) as [->|Hh].
    { intros [= <- <-]. apply Hclose; try done. by repeat constructor. }
    intros [= <- <-]. split; cbn [m_tcpHandshaker2Nonce m_sslHandshaker2Nonce active m_serviceHost setMaps]; try done.
    + by apply stl_sorted_assign.
    + intros h' n' [[[= -> ->]|Hin]%stl_elem_assign|Hin]%elem_of_app; [done|apply Hold|apply Hold]; apply elem_of_app; by (left + right).
    + unfold zlen in *. rewrite stl_assign_fresh by done. rewrite (stl_length_insert (h, nonce)) by done. lia.
    + rewrite Ha in *. split; [apply I5|done].
    + rewrite <- (holds_assign_tcp s h nonce Hh F1). cbn -[obj]. by rewrite app_nil_r.
    + rewrite Hg. cbn. by rewrite (proj2 (Z.eqb_neq h 0)).
    + by repeat constructor.
  - destruct (negb (m_sslConfig s)); [by intros [= <- <-]|]. destruct (Z.eqb_spec ctx 0) as [->|Hx].
    { intros [= <- <-]. apply Hclose; try done. by repeat constructor. }
    destruct (Z.eqb_spec h 0) as [->|Hh].
    { intros [= <- <-]. apply Hclose; try done; [|by repeat constructor]. cbn. by rewrite (proj2 (Z.eqb_neq ctx 0)). }
    intros [= <- <-]. split; cbn [m_tcpHandshaker2Nonce m_sslHandshaker2Nonce active m_serviceHost setMaps]; try done.
    + by apply stl_sorted_assign.
    + intros h' n' [Hin|[[= -> ->]|Hin]%stl_elem_assign]%elem_of_app; [apply Hold|done|apply Hold]; apply elem_of_app; by (left + right).
    + unfold zlen in *. rewrite stl_assign_fresh by done. rewrite (stl_length_insert (h, nonce)) by done. lia.
    + rewrite Ha in *. split; [apply I5|done].
    + rewrite <- (holds_assign_ssl s h nonce Hh F2). cbn -[obj]. by rewrite app_nil_r.
    + rewrite Hg. cbn. by rewrite (proj2 (Z.eqb_neq h 0)).
    + cbn. by rewrite (proj2 (Z.eqb_neq h 0)), (proj2 (Z.eqb_neq ctx 0)).
    + by repeat constructor.
Qed.

(** A handshaker leaves its map. *)
Lemma erase_moved (ssl : bool) cs c s h n l l0 : inv s cs l0 -> active s = true ->
  stl_find h (if ssl then m_sslHandshaker2Nonce s else m_tcpHandshaker2Nonce s) = Some (h, n) ->
  made l = [] -> gone l = [if ssl then SslHandshaker h else TcpHandshaker h] -> got c ≡ₚ passed l -> gotCtx c ++ madeCtx l ≡ₚ passedCtx l ->
  Forall (accept_ok (cs ++ [c])) l ->
  moved cs c s (if ssl then setMaps (m_tcpHandshaker2Nonce s) (stl_erase h (m_sslHandshaker2Nonce s)) s
                else setMaps (stl_erase h (m_tcpHandshaker2Nonce s)) (m_sslHandshaker2Nonce s) s) l.
Proof.
  intros [I1 I2 I3 I4 I5 I6 I7 I8 I9] Ha Hf Hm Hg Hs Hx Hok.
  assert (Hsub : forall h' n', (h', n') ∈ m_tcpHandshaker2Nonce s ++ m_sslHandshaker2Nonce s -> h' <> 0 /\ nonceOf (cs ++ [c]) h' n').
  { intros h' n' Hin. destruct (I3 h' n' Hin). split; [done|]. by apply nonceOf_app. }
  rewrite Ha in I5. destruct ssl; split; cbn [m_tcpHandshaker2Nonce m_sslHandshaker2Nonce active m_serviceHost setMaps]; try done.
  - by apply stl_sorted_erase.
  - intros h' n' [Hin|Hin%stl_elem_erase]%elem_of_app; apply Hsub, elem_of_app; by (left + right).
  - pose proof (stl_length_erase _ _ _ Hf). unfold zlen in *. lia.
  - rewrite Ha. by split; [apply I5|].
  - rewrite Hm, Hg. cbn [app]. by rewrite (holds_erase_ssl s h n Hf).
  - by apply stl_sorted_erase.
  - intros h' n' [Hin%stl_elem_erase|Hin]%elem_of_app; apply Hsub, elem_of_app; by (left + right).
  - pose proof (stl_length_erase _ _ _ Hf). unfold zlen in *. lia.
  - rewrite Ha. by split; [apply I5|].
  - rewrite Hm, Hg. cbn [app]. by rewrite (holds_erase_tcp s h n Hf).
Qed.

Lemma find_key h (m : list (Z * Z)) e : stl_find h m = Some e -> exists n, e = (h, n).
Proof. intros Hf. destruct e as [h' n]. destruct (stl_find_Some_elem _ _ _ Hf) as [_ E]. cbn in E. subst h'. by exists n. Qed.

Lemma hand_spec ctx k u buf peer nonce l : hand ctx k u buf LOGIN_BYTES peer nonce = Some l ->
  made l = [] /\ gone l = [] /\ passed l = [k] /\ madeCtx l = [] /\ passedCtx l = match ctx with Some x => [x] | None => [] end /\
  forall cs h, nonceOf cs h nonce ->
    (ctx = None /\ CTcpHandshakeOk h k u (Some buf) LOGIN_BYTES peer ∈ cs \/ exists x, ctx = Some x /\ CSslHandshakeOk h x k u (Some buf) LOGIN_BYTES peer ∈ cs) ->
    Forall (accept_ok cs) l.
Proof.
  unfold hand. destruct (CRtpPacket.ParseExtBuffer buf LOGIN_BYTES) as [ok|] eqn:E; [|done]. cbn [mbind option_bind].
  destruct ok; cbn [negb]; intros [= <-]; [|destruct ctx; by split_and!; try done; intros; repeat constructor].
  split_and!; try done; [by destruct ctx|]. intros cs h Hn Hin. constructor; [|constructor]. by exists h, buf, peer.
Qed.

Lemma TcpHandshakeOk_moved cs h k u buf size peer s s' l l0 : inv s cs l0 -> OnTcpHandshakeOk h k u buf size peer s = Some (s', l) ->
  moved cs (CTcpHandshakeOk h k u buf size peer) s s' l.
Proof.
  intros Hinv. set (c := CTcpHandshakeOk h k u buf size peer). unfold OnTcpHandshakeOk. destruct ((h =? 0) || (k =? -1)) eqn:E0.
  { intros [= <- <-]. apply (service_same _ _ _ _ Hinv); try done. unfold got, c. by rewrite E0. }
  assert (Hg : got c = [k]) by (unfold got, c; by rewrite E0).
  assert (Hc1 : moved cs c s s [CloseSock k]) by (apply (service_same _ _ _ _ Hinv); rewrite ?Hg; by repeat constructor).
  destruct (negb (active s) || (m_serviceHost s =? 0)) eqn:E1; [by intros [= <- <-]|]. apply orb_false_iff in E1 as [Ha%negb_false_iff _].
  destruct (stl_find h (m_tcpHandshaker2Nonce s)) as [e|] eqn:Ef; [|by intros [= <- <-]]. destruct (find_key _ _ _ Ef) as [n ->].
  destruct (negb u && bool_decide (peer = None) || (bool_decide (buf = None) || negb (size =? LOGIN_BYTES))) eqn:Eb.
  { intros [= <- <-]. apply (erase_moved false cs c s h n _ _ Hinv Ha Ef); try done; [by rewrite Hg|by repeat constructor]. }
  apply orb_false_iff in Eb as [_ Eb]. apply orb_false_iff in Eb as [Ebuf%bool_decide_eq_false Esz%negb_false_iff%Z.eqb_eq].
  destruct buf as [buf|]; [|done]. cbn [default]. unfold id. subst size.
  destruct (hand None k u buf LOGIN_BYTES peer n) as [l1|] eqn:Eh; [|done]. cbn [mbind option_bind]. intros [= <- <-].
  destruct (hand_spec _ _ _ _ _ _ _ Eh) as (H1 & H2 & H3 & H4 & H5 & H6).
  destruct (service_app [DeleteTcpHandshaker h] l1) as (E1 & E2 & E3 & E4 & E5). change (DeleteTcpHandshaker h :: l1) with ([DeleteTcpHandshaker h] ++ l1).
  apply (erase_moved false cs c s h n _ _ Hinv Ha Ef); rewrite ?E1, ?E2, ?E3, ?E4, ?E5, ?H1, ?H2, ?H3, ?H4, ?H5, ?Hg; try done.
  constructor; [done|]. apply (H6 _ h).
  - apply nonceOf_app. apply (iv_zero _ _ _ Hinv). apply elem_of_app. left. by apply (stl_find_Some_elem h).
  - left. split; [done|]. apply elem_of_app. right. by left.
Qed.

Lemma SslHandshakeOk_moved cs h ctx k u buf size peer s s' l l0 : inv s cs l0 -> OnSslHandshakeOk h ctx k u buf size peer s = Some (s', l) ->
  moved cs (CSslHandshakeOk h ctx k u buf size peer) s s' l.
Proof.
  intros Hinv. set (c := CSslHandshakeOk h ctx k u buf size peer). unfold OnSslHandshakeOk. destruct ((h =? 0) || (ctx =? 0) || (k =? -1)) eqn:E0.
  { intros [= <- <-]. apply (service_same _ _ _ _ Hinv); try done; unfold got, gotCtx, c; by rewrite E0. }
  assert (Hg : got c = [k] /\ gotCtx c = [ctx]) by (unfold got, gotCtx, c; by rewrite E0). destruct Hg as [Hg Hx].
  assert (Hc1 : moved cs c s s [SslCtx_Delete ctx; CloseSock k]) by (apply (service_same _ _ _ _ Hinv); rewrite ?Hg, ?Hx; by repeat constructor).
  destruct (negb (active s) || (m_serviceHost s =? 0)) eqn:E1; [by intros [= <- <-]|]. apply orb_false_iff in E1 as [Ha%negb_false_iff _].
  destruct (stl_find h (m_sslHandshaker2Nonce s)) as [e|] eqn:Ef; [|by intros [= <- <-]]. destruct (find_key _ _ _ Ef) as [n ->].
  destruct (bool_decide (buf = None) || negb (size =? LOGIN_BYTES)) eqn:Eb.
  { intros [= <- <-]. apply (erase_moved true cs c s h n _ _ Hinv Ha Ef); rewrite ?Hg, ?Hx; destruct (negb u && _); try done; by repeat constructor. }
  destruct (negb u && bool_decide (peer = None)).
  { intros [= <- <-]. apply (erase_moved true cs c s h n _ _ Hinv Ha Ef); rewrite ?Hg, ?Hx; try done; by repeat constructor. }
  apply orb_false_iff in Eb as [Ebuf%bool_decide_eq_false Esz%negb_false_iff%Z.eqb_eq].
  destruct buf as [buf|]; [|done]. cbn [default]. unfold id. subst size.
  destruct (hand (Some ctx) k u buf LOGIN_BYTES peer n) as [l1|] eqn:Eh; [|done]. cbn [mbind option_bind]. intros [= <- <-].
  destruct (hand_spec _ _ _ _ _ _ _ Eh) as (H1 & H2 & H3 & H4 & H5 & H6).
  destruct (service_app [DeleteSslHandshaker h] l1) as (E1 & E2 & E3 & E4 & E5). change (DeleteSslHandshaker h :: l1) with ([DeleteSslHandshaker h] ++ l1).
  apply (erase_moved true cs c s h n _ _ Hinv Ha Ef); rewrite ?E1, ?E2, ?E3, ?E4, ?E5, ?H1, ?H2, ?H3, ?H4, ?H5, ?Hg, ?Hx; try done.
  constructor; [done|]. apply (H6 _ h).
  - apply nonceOf_app. apply (iv_zero _ _ _ Hinv). apply elem_of_app. right. by apply (stl_find_Some_elem h).
  - right. exists ctx. split; [done|]. apply elem_of_app. right. by left.
Qed.

Lemma service_HandshakeError_moved (ssl : bool) cs h s s' l l0 : inv s cs l0 ->
  (if ssl then OnSslHandshakeError h s else OnTcpHandshakeError h s) = (s', l) ->
  moved cs (if ssl then CSslHandshakeError h else CTcpHandshakeError h) s s' l.
Proof.
  intros Hinv. assert (Hsame : moved cs (if ssl then CSslHandshakeError h else CTcpHandshakeError h) s s []) by (apply (service_same _ _ _ _ Hinv); by destruct ssl).
  destruct ssl; [unfold OnSslHandshakeError|unfold OnTcpHandshakeError]; (destruct (h =? 0); [by intros [= <- <-]|]).
  - destruct (negb (active s) || _) eqn:E1; [by intros [= <- <-]|]. apply orb_false_iff in E1 as [Ha%negb_false_iff _].
    destruct (stl_find h (m_sslHandshaker2Nonce s)) as [e|] eqn:Ef; [|by intros [= <- <-]]. destruct (find_key _ _ _ Ef) as [n ->]. intros [= <- <-].
    apply (erase_moved true cs _ s h n _ _ Hinv Ha Ef); by repeat constructor.
  - destruct (negb (active s) || _) eqn:E1; [by intros [= <- <-]|]. apply orb_false_iff in E1 as [Ha%negb_false_iff _].
    destruct (stl_find h (m_tcpHandshaker2Nonce s)) as [e|] eqn:Ef; [|by intros [= <- <-]]. destruct (find_key _ _ _ Ef) as [n ->]. intros [= <- <-].
    apply (erase_moved false cs _ s h n _ _ Hinv Ha Ef); by repeat constructor.
Qed.

Lemma service_Fini_moved cs s s' l l0 : inv s cs l0 -> Fini s = (s', l) -> moved cs CFini s s' l.
Proof.
  intros Hinv. unfold Fini. destruct (negb (active s) || (m_serviceHost s =? 0)) eqn:E1.
  { intros [= <- <-]. by apply (service_same _ _ _ _ Hinv). }
  apply orb_false_iff in E1 as [Ha%negb_false_iff Hh%Z.eqb_neq]. intros [= <- <-].
  destruct (service_app (map (fun e => DeleteSslHandshaker (fst e)) (m_sslHandshaker2Nonce s))
    (map (fun e => DeleteTcpHandshaker (fst e)) (m_tcpHandshaker2Nonce s) ++ [DeleteServiceHost (m_serviceHost s)])) as (E1 & E2 & E3 & E4 & E5).
  destruct (service_app (map (fun e => DeleteTcpHandshaker (fst e)) (m_tcpHandshaker2Nonce s)) [DeleteServiceHost (m_serviceHost s)]) as (F1 & F2 & F3 & F4 & F5).
  assert (Hs : forall m : list (Z * Z), let l := map (fun e => DeleteSslHandshaker (fst e)) m in
    made l = [] /\ gone l = SslHandshaker <$> m.*1 /\ passed l = [] /\ madeCtx l = [] /\ passedCtx l = [] /\ Forall (accept_ok (cs ++ [CFini])) l).
  { induction m as [|e m (J1 & J2 & J3 & J4 & J5 & J6)]; [done|]. cbn [map fmap list_fmap]. split_and!; try done; [cbn; f_equal; exact J2|by constructor]. }
  assert (Ht : forall m : list (Z * Z), let l := map (fun e => DeleteTcpHandshaker (fst e)) m in
    made l = [] /\ gone l = TcpHandshaker <$> m.*1 /\ passed l = [] /\ madeCtx l = [] /\ passedCtx l = [] /\ Forall (accept_ok (cs ++ [CFini])) l).
  { induction m as [|e m (J1 & J2 & J3 & J4 & J5 & J6)]; [done|]. cbn [map fmap list_fmap]. split_and!; try done; [cbn; f_equal; exact J2|by constructor]. }
  destruct (Hs (m_sslHandshaker2Nonce s)) as (S1 & S2 & S3 & S4 & S5 & S6). destruct (Ht (m_tcpHandshaker2Nonce s)) as (T1 & T2 & T3 & T4 & T5 & T6).
  split; cbn [m_tcpHandshaker2Nonce m_sslHandshaker2Nonce active m_serviceHost]; try done.
  - intros h n Hin. by apply not_elem_of_nil in Hin.
  - rewrite E1, E2, F1, F2, S1, S2, T1, T2. unfold holds. cbn [m_tcpHandshaker2Nonce m_sslHandshaker2Nonce m_serviceHost].
    unfold obj. rewrite (proj2 (Z.eqb_neq _ _) Hh). cbn. rewrite !app_nil_r. solve_Permutation.
  - by rewrite E3, F3, S3, T3.
  - by rewrite E4, E5, F4, F5, S4, T4, S5, T5.
  - repeat (apply Forall_app; split); try done. by repeat constructor.
Qed.

Lemma service_exec_moved cs c s s' l l0 : inv s cs l0 -> fresh c s -> exec c s = Some (s', l) -> moved cs c s s' l.
Proof.
  intros Hinv Hf. destruct c; cbn [exec].
  - destruct (Init _ _ _ s) as [[b s1] l1] eqn:E. intros [= <- <-]. revert E. unfold Init.
    assert (Hsame : moved cs (CInit serviceHubPort timeoutInSeconds host) s s []) by by apply (service_same _ _ _ _ Hinv).
    destruct (serviceHubPort =? 0); [by intros [= <- <- <-]|]. destruct (active s || _) eqn:E1; [by intros [= <- <- <-]|].
    apply orb_false_iff in E1 as [Ha Hz%negb_false_iff%Z.eqb_eq]. pose proof Hinv as [I1 I2 I3 I4 [I5 I5'] I6 I7 I8 I9].
    destruct (Z.eqb_spec host 0) as [->|Hn]; intros [= <- <- <-].
    + apply (service_same _ _ _ _ Hinv); by repeat constructor.
    + split; cbn [m_tcpHandshaker2Nonce m_sslHandshaker2Nonce active m_serviceHost]; try done.
      * intros h n Hin. destruct (I3 h n Hin). split; [done|]. by apply nonceOf_app.
      * rewrite (proj2 (Z.eqb_neq host 0)) by done. done.
      * pose proof (I5' Ha) as Hh. rewrite Hh. unfold holds in Hh. apply app_eq_nil in Hh as [_ Hm].
        unfold holds. cbn [m_tcpHandshaker2Nonce m_sslHandshaker2Nonce m_serviceHost]. rewrite Hm. cbn -[obj]. by rewrite !app_nil_r.
      * by repeat constructor.
  - destruct (Fini s) as [s1 l1] eqn:E. intros [= <- <-]. by eapply service_Fini_moved.
  - intros [= E]. by eapply ServiceAccept_moved.
  - intros E. by eapply TcpHandshakeOk_moved.
  - intros E. by eapply SslHandshakeOk_moved.
  - intros [= E]. by apply (service_HandshakeError_moved false cs handshaker s s' l l0).
  - intros [= E]. by apply (service_HandshakeError_moved true cs handshaker s s' l l0).
Qed.

Lemma service_inv ssl mmType s cs l : reachable ssl mmType s cs l -> inv s cs l.
Proof.
  induction 1 as [|s cs l c s' l' Hr IH Hsz Hf E].
  - split; try done. by intros h n ?%not_elem_of_nil.
  - eapply moved_inv; [done|]. by eapply service_exec_moved.
Qed.
Lemma service_exec_total c s : sized c -> is_Some (exec c s).
Proof.
  assert (Hh : forall ctx k u buf peer n, zlen buf = LOGIN_BYTES -> is_Some (hand ctx k u buf LOGIN_BYTES peer n)).
  { intros ctx k u buf peer n Hl. unfold hand. rewrite <- Hl at 1. destruct (LoginRuns.ParseExtBuffer_total buf) as [b ->]. cbn [mbind option_bind].
    destruct (negb b); by eexists. }
  destruct c; cbn [exec sized]; intros Hs; try by eexists.
  - destruct (Init _ _ _ s) as [[? ?] ?]. by eexists.
  - unfold OnTcpHandshakeOk. destruct (_ || _); [by eexists|]. destruct (_ || _); [by eexists|]. destruct (stl_find _ _) as [[? n]|]; [|by eexists].
    destruct (_ || (_ || _)) eqn:E; [by eexists|]. apply orb_false_iff in E as [_ E]. apply orb_false_iff in E as [E1%bool_decide_eq_false E2%negb_false_iff%Z.eqb_eq].
    destruct buf as [buf|]; [|done]. subst size. cbn [default]. unfold id. rewrite E2. destruct (Hh None sockId unixSocket buf peer n E2) as [l ->]. by eexists.
  - unfold OnSslHandshakeOk. destruct (_ || _ || _); [by eexists|]. destruct (_ || _); [by eexists|]. destruct (stl_find _ _) as [[? n]|]; [|by eexists].
    destruct (_ || _) eqn:E; [by eexists|]. destruct (_ && _); [by eexists|]. apply orb_false_iff in E as [E1%bool_decide_eq_false E2%negb_false_iff%Z.eqb_eq].
    destruct buf as [buf|]; [|done]. subst size. cbn [default]. unfold id. rewrite E2. destruct (Hh (Some ctx) sockId unixSocket buf peer n E2) as [l ->]. by eexists.
Qed.
End ServiceRuns.

Module ServiceTheorems.
Import SessionInfo CRtpService ServiceRuns.

(** C11: a service with and without TLS, in any order of [Init], [Fini], connections from the
    hub and answers of its handshakers.  No call reads outside of the block that it is given.
    Every host and handshaker that was made has been deleted once or is held once, none is
    held without [Init], and at most 5000 handshakers are.  Each socket that comes in is
    closed or passed on once, and so is each context of the TLS library.  Each session that
    is offered to the observer belongs to a well-formed login of 172 bytes that a handshaker
    has received, with the nonce that came with that handshaker's connection. *)
Theorem service_correct ssl mmType s cs l : reachable ssl mmType s cs l ->
  made l ≡ₚ gone l ++ holds s /\ zlen (m_tcpHandshaker2Nonce s) + zlen (m_sslHandshaker2Nonce s) <= 5000 /\ (active s = false -> holds s = []) /\
  concat (got <$> cs) ≡ₚ passed l /\ concat (gotCtx <$> cs) ++ madeCtx l ≡ₚ passedCtx l /\
  (forall ctx k u remote remoteInfo nonce, OnAcceptSession ctx k u remote remoteInfo nonce ∈ l ->
    exists h buf peer, (exists x k u id opt ctx, CServiceAccept x k u id opt nonce h ctx ∈ cs) /\
      match ctx with
      | None => CTcpHandshakeOk h k u (Some buf) LOGIN_BYTES peer ∈ cs
      | Some x => CSslHandshakeOk h x k u (Some buf) LOGIN_BYTES peer ∈ cs
      end /\
      CRtpPacket.ParseExtBuffer buf LOGIN_BYTES = Some true /\
      remoteInfo = toHost (ofImage (zsub (sizeof_RTP_EXT + sizeof_RTP_HEADER) sizeof_RTP_SESSION_INFO buf))) /\
  (forall c, sized c -> is_Some (exec c s)).
Proof.
  intros Hr. destruct (service_inv _ _ _ _ _ Hr) as [I1 I2 I3 I4 [_ I5] I6 I7 I8 I9]. split_and!; try done.
  - intros ctx k u remote remoteInfo nonce Hin. destruct (proj1 (Forall_forall _ _) I9 _ Hin) as (h & buf & peer & H1 & H2 & H3 & H4).
    exists h, buf, peer. split_and!; try done. by destruct H2 as [[-> H2]|(x & -> & H2)].
  - intros c. apply service_exec_total.
Qed.

(** A service that gets a connection and the login over it. *)
Definition demoLogin : list Z := RtpFields.blank 152 ++ replicate 152 0.
Lemma service_correct_witness :
  exists s cs l, reachable false 11 s cs l /\ holds s = [Host 9] /\ made l ≡ₚ [TcpHandshaker 30; Host 9] /\ passed l ≡ₚ [40; 40] /\
    exists i, OnAcceptSession None 40 true localRemote i 258 ∈ l /\ i = toHost (ofImage (replicate 152 0)).
Proof.
  assert (Hr : exists s l, reachable false 11 s [CInit 3000 20 9; CServiceAccept 9 40 true 11 0 258 30 0; CTcpHandshakeOk 30 40 true (Some demoLogin) LOGIN_BYTES None] l /\
    holds s = [Host 9] /\ gone l = [TcpHandshaker 30] /\ OnAcceptSession None 40 true localRemote (toHost (ofImage (replicate 152 0))) 258 ∈ l).
  { eexists _, _. split; [|split; [|split]].
    - eapply (reach_call _ _ _ [_; _]).
      { eapply (reach_call _ _ _ [_]).
        { eapply (reach_call _ _ _ []); [constructor|done|done|vm_compute; reflexivity]. }
        all: try done; vm_compute; reflexivity. }
      all: try done; vm_compute; reflexivity.
    - reflexivity.
    - reflexivity.
    - cbn [app]. do 3 right. left. }
  destruct Hr as (s & l & Hr & Hh & Hg & Hin). eexists s, _, l. split; [exact Hr|]. split; [exact Hh|].
  destruct (service_correct _ _ _ _ _ Hr) as (H1 & _ & _ & H2 & _). rewrite Hh, Hg in H1. split; [exact H1|]. split; [symmetry; exact H2|].
  eexists. split; [exact Hin|reflexivity].
Defined.
End ServiceTheorems.
