(* ===== verification/Login.v ===== *)
(** * A login from end to end

    The client of [RtpLogin], the service of [RtpService], the session of the server's end and
    the check of the password ([SslUtil]), when each gets what the other has sent. *)

From S2P Require Import Prelude Bytes Bsd StlMap Md Hash SslUtil MsgUser MsgServer RtpPacket RtpSession RtpLogin RtpService.

Module LoginPacket.
Import CRtpPacket RtpFields RtpFraming CRtpSessionTcpclientEx.

(** The packet of [DoHandshake] over the wire. *)
Definition frame (payloadBuffer : list Z) (mmId mmType : Z) : list Z :=
  be_bytes 4 mmId ++ le_bytes 1 mmType ++ [0] ++ be_bytes 2 (sizeof_RTP_HEADER + zlen payloadBuffer) ++ (128 :: replicate 11 0) ++ payloadBuffer.

Lemma packetOf_frame b mmId mmType junk : 0 < zlen b <= MAX_PAYLOAD_SIZE -> zlen junk = 40 + zlen b ->
  exists p, packetOf b mmId mmType (Some junk) = Some p /\ wireOf p = frame b mmId mmType.
Proof.
  intros Hb Hj. unfold packetOf, CRtpPacket.CreateInstance. destruct (Z.eqb_spec (zlen b) 0); [lia|].
  rewrite Z.gtb_ltb, (proj2 (Z.ltb_ge _ _)) by lia. cbn [orb mbind option_bind].
  rewrite (wrap_small 16) by (unfold MAX_PAYLOAD_SIZE in *; lia).
  destruct (Init_mem (Some b) (zlen b) junk ltac:(lia) Hj) as (rest & -> & Hrl & _). rewrite (ztake_all (zlen b) b) by lia.
  assert (Hz : zput 20 b (blank (zlen b) ++ rest) = blank (zlen b) ++ b ++ zdrop (zlen b) rest)
    by (rewrite <- (zlen_blank (zlen b)) at 1; apply zput_app_r).
  rewrite Hz. set (tail := zdrop (zlen b) rest). eexists. split; [reflexivity|].
  unfold SetMmType, SetMmId. cbn [mem ext hdr setMem].
  assert (E : store 1 (0 + o_mmType) mmType (store 4 (0 + o_mmId) (pbsd_hton32 mmId) (blank (zlen b) ++ b ++ tail)) = frame b mmId mmType ++ tail).
  { unfold store. rewrite zput_app_l by (rewrite ?zlen_le_bytes, ?zlen_blank; vm_compute; congruence). rewrite hton32_bytes.
    rewrite zput_app_l; [|by vm_compute|].
    2: { rewrite zlen_zput; rewrite ?zlen_blank, ?zlen_le_bytes, ?zlen_be_bytes; vm_compute; congruence. }
    unfold frame, blank. rewrite be_bytes_2, be_bytes_4. cbn [le_bytes]. unfold zput. cbn -[byte_of zlen]. done. }
  unfold wireOf, GetPayloadBuffer, GetPayloadSize. cbn [mem ext hdr setMem]. rewrite E.
  assert (Hl : zlen (frame b mmId mmType) = 20 + zlen b).
  { unfold frame. rewrite !zlen_app, !zlen_be_bytes, !zlen_le_bytes. change (zlen [0]) with 1. change (zlen (128 :: replicate 11 0)) with 12. lia. }
  assert (Hs : load 2 (0 + o_hdrAndPayloadSize) (frame b mmId mmType ++ tail) = pbsd_hton16 (sizeof_RTP_HEADER + zlen b)).
  { rewrite load_app_l by (rewrite ?Hl; unfold o_hdrAndPayloadSize; lia).
    rewrite <- (Z.mod_small (pbsd_hton16 (sizeof_RTP_HEADER + zlen b)) (2 ^ (8 * Z.of_nat 2))) by apply hton16_range.
    rewrite <- of_le_le_bytes, hton16_bytes. unfold frame. rewrite be_bytes_2, be_bytes_4. reflexivity. }
  rewrite Hs, ntoh16_hton16 by (unfold MAX_PAYLOAD_SIZE, sizeof_RTP_HEADER in *; lia).
  unfold sizeof_RTP_EXT, sizeof_RTP_HEADER in *. rewrite wrap_small by (unfold MAX_PAYLOAD_SIZE in *; lia).
  replace (8 + 12 - 12 - 8) with 0 by lia. replace (12 + zlen b - 12 + 12 + 8) with (zlen (frame b mmId mmType)) by lia.
  rewrite zsub_app_l by lia. apply zsub_all.
Qed.

Lemma frame_size b mmId mmType : zlen (frame b mmId mmType) = 20 + zlen b.
Proof. unfold frame. rewrite !zlen_app, !zlen_be_bytes, !zlen_le_bytes. change (zlen [0]) with 1. change (zlen (128 :: replicate 11 0)) with 12. lia. Qed.
Lemma frame_payload b mmId mmType : zsub (sizeof_RTP_EXT + sizeof_RTP_HEADER) (zlen b) (frame b mmId mmType) = b.
Proof. unfold frame, zsub. rewrite be_bytes_2, be_bytes_4. unfold zdrop. cbn -[zlen ztake]. apply ztake_all. lia. Qed.
Lemma frame_parses b mmId mmType : is_bytes b -> 0 < zlen b <= MAX_PAYLOAD_SIZE ->
  ParseExtBuffer (frame b mmId mmType) (zlen (frame b mmId mmType)) = Some true.
Proof.
  intros Hb Hl. assert (Hf : is_bytes (frame b mmId mmType)).
  { unfold frame. repeat (apply is_bytes_app; split); try done; try apply le_bytes_is_bytes; try (unfold be_bytes; apply Forall_reverse, le_bytes_is_bytes); by repeat constructor. }
  rewrite <- (app_nil_r (frame _ _ _)) at 1. rewrite ParseExtBuffer_spec by done. f_equal. unfold ext_valid. rewrite frame_size.
  assert (E : zsub 6 2 (frame b mmId mmType) = be_bytes 2 (12 + zlen b)) by (unfold frame; rewrite !be_bytes_2, be_bytes_4; reflexivity).
  rewrite E, of_be_be_bytes, Z.mod_small by (unfold MAX_PAYLOAD_SIZE in *; lia).
  rewrite (proj2 (Z.leb_le _ _)) by lia. rewrite (proj2 (Z.eqb_eq _ _)) by lia. cbn [andb]. unfold frame. rewrite be_bytes_2, be_bytes_4. reflexivity.
Qed.
End LoginPacket.

Module LoginFlow.
Import SessionInfo LoginPacket.

(** What is sent, offered and answered. *)
Definition loginOf (l : list CRtpSessionTcpclientEx.effect) : list (list Z) :=
  concat ((fun e => match e with
                    | CRtpSessionTcpclientEx.CreateTcpHandshaker _ _ _ d _ _ _ | CRtpSessionTcpclientEx.CreateSslHandshaker _ _ _ _ d _ _ _ => [d]
                    | _ => [] end) <$> l).
Definition offersOf (l : list CRtpService.effect) : list (SessionInfo.t * Z) :=
  concat ((fun e => match e with CRtpService.OnAcceptSession _ _ _ _ i n => [(i, n)] | _ => [] end) <$> l).
Definition answersOf (l : list CRtpSessionTcpserverEx.effect) : list (list Z) :=
  concat ((fun e => match e with CRtpSessionTcpserverEx.SendData _ d => [d] | _ => [] end) <$> l).

(** The proof of a password. *)
Lemma llu_size n : zlen (llu n) <= 20.
Proof.
  assert (H : forall k n t, zlen (digits k n t) <= Z.of_nat k + zlen t).
  { induction k as [|k IH]; intros m t; cbn [digits]; [lia|]. specialize (IH (m / 10) (48 + m mod 10 :: t)).
    rewrite zlen_cons in IH. pose proof (zlen_nonneg t). destruct (_ =? _); rewrite ?zlen_cons; lia. }
  apply (H 20%nat n []).
Qed.
Lemma proof_of nonce p : zlen p < 2 ^ 31 -> ProCalcPasswordHash true true nonce (Some p) = reference SHA256 (llu nonce ++ p).
Proof.
  intros Hp. unfold ProCalcPasswordHash. eapply hashAll_ok; [done..|]. rewrite zlen_app. change (pieceLimit _) with (2 ^ 32). pose proof (llu_size nonce). lia.
Qed.
Lemma sha256_laws m : is_bytes (reference SHA256 m) /\ zlen (reference SHA256 m) = 32.
Proof. pose proof (laws_of SHA256 mbedtls_sha256_info (or_introl eq_refl)) as HL. split; [exact (@hash_bytes _ _ HL m)|exact (@hash_size _ _ HL m)]. Qed.

(** What the client knows of itself when it logs in. *)
Definition loginInfo (tls : bool) (info : SessionInfo.t) : SessionInfo.t :=
  setType (if tls then RTP_ST_SSLCLIENT_EX else RTP_ST_TCPCLIENT_EX) (setVersions CRtpSessionTcpclientEx.GetRtpSessionVersion 0 info).
Lemma loginInfo_wf tls info : wf info -> wf (loginInfo tls info).
Proof. intros [? ? ? ? ? ? ? ? ? ? ?]. split; cbn; try done. by destruct tls. Qed.
Lemma setHash_wf h i : is_bytes h -> zlen h = 32 -> wf i -> wf (setHash h i).
Proof. intros ? ? [? ? ? ? ? ? ? ? ? ? ?]. by split. Qed.

(** The data of the login. *)
Definition loginData (tls : bool) (info : SessionInfo.t) (proof : list Z) : list Z :=
  frame (image (toNetwork (setHash proof (loginInfo tls info)))) (mmId info) (mmType info).

Section Data.
Context (tls : bool) (info : SessionInfo.t) (proof : list Z) (Hinfo : wf info) (Hproof : is_bytes proof /\ zlen proof = 32).

Lemma login_info_wf : wf (setHash proof (loginInfo tls info)).
Proof. destruct Hproof. apply setHash_wf; try done. by apply loginInfo_wf. Qed.
Lemma login_image_size : zlen (image (toNetwork (setHash proof (loginInfo tls info)))) = 152.
Proof. apply image_size, toNetwork_wf, login_info_wf. Qed.
Lemma loginData_size : zlen (loginData tls info proof) = CRtpService.LOGIN_BYTES.
Proof. unfold loginData. by rewrite frame_size, login_image_size. Qed.
Lemma loginData_parses : CRtpPacket.ParseExtBuffer (loginData tls info proof) CRtpService.LOGIN_BYTES = Some true.
Proof.
  rewrite <- loginData_size. apply frame_parses; [apply image_is_bytes, toNetwork_wf, login_info_wf|]. by rewrite login_image_size.
Qed.
Lemma loginData_info : toHost (ofImage (zsub (sizeof_RTP_EXT + sizeof_RTP_HEADER) sizeof_RTP_SESSION_INFO (loginData tls info proof))) =
  setHash proof (loginInfo tls info).
Proof.
  unfold loginData. change sizeof_RTP_SESSION_INFO with 152. rewrite <- login_image_size. rewrite frame_payload.
  rewrite ofImage_image by apply toNetwork_wf, login_info_wf. apply toHost_toNetwork, login_info_wf.
Qed.

(** The service decodes what the client has sent. *)
Lemma service_offers (c : ServiceRuns.call) s h n : CRtpService.active s = true -> CRtpService.m_serviceHost s <> 0 -> h <> 0 ->
  match c with
  | ServiceRuns.CTcpHandshakeOk h' k u buf size peer => h' = h /\ k <> -1 /\ (u = true \/ is_Some peer) /\ buf = Some (loginData tls info proof) /\
      size = CRtpService.LOGIN_BYTES /\ stl_find h (CRtpService.m_tcpHandshaker2Nonce s) = Some (h, n)
  | ServiceRuns.CSslHandshakeOk h' ctx k u buf size peer => h' = h /\ ctx <> 0 /\ k <> -1 /\ (u = true \/ is_Some peer) /\ buf = Some (loginData tls info proof) /\
      size = CRtpService.LOGIN_BYTES /\ stl_find h (CRtpService.m_sslHandshaker2Nonce s) = Some (h, n)
  | _ => False
  end -> exists s' l, ServiceRuns.exec c s = Some (s', l) /\ offersOf l = [(setHash proof (loginInfo tls info), n)].
Proof.
  intros Ha Hs Hh Hc.
  assert (Hl : forall u (peer : option CRtpService.address), u = true \/ is_Some peer -> negb u && bool_decide (peer = None) = false).
  { intros u peer [->|[? ->]]; [done|]. by destruct u. }
  assert (Hd : forall ctx k u peer, CRtpService.hand ctx k u (loginData tls info proof) CRtpService.LOGIN_BYTES peer n =
    Some [CRtpService.OnAcceptSession ctx k u (if u then CRtpService.localRemote else default ([], 0) peer) (setHash proof (loginInfo tls info)) n]).
  { intros ctx k u peer. unfold CRtpService.hand. rewrite loginData_parses. cbn [mbind option_bind negb].
    change (CRtpService.LOGIN_BYTES - sizeof_RTP_EXT - sizeof_RTP_HEADER) with sizeof_RTP_SESSION_INFO. by rewrite loginData_info. }
  destruct c; try done; cbn [ServiceRuns.exec].
  - destruct Hc as (-> & Hk & Hp & -> & -> & Hf). unfold CRtpService.OnTcpHandshakeOk.
    rewrite (proj2 (Z.eqb_neq h 0) Hh), (proj2 (Z.eqb_neq _ _) Hk), (proj2 (Z.eqb_neq _ _) Hs), Ha, Hf, (Hl _ _ Hp), Z.eqb_refl.
    cbn [negb orb bool_decide default]. unfold id. rewrite Hd. do 2 eexists. split; reflexivity.
  - destruct Hc as (-> & Hx & Hk & Hp & -> & -> & Hf). unfold CRtpService.OnSslHandshakeOk.
    rewrite (proj2 (Z.eqb_neq h 0) Hh), (proj2 (Z.eqb_neq _ _) Hx), (proj2 (Z.eqb_neq _ _) Hk), (proj2 (Z.eqb_neq _ _) Hs), Ha, Hf, (Hl _ _ Hp), Z.eqb_refl.
    cbn [negb orb bool_decide default]. unfold id. rewrite Hd. do 2 eexists. split; reflexivity.
Qed.
End Data.

(** The client up to its login, and after it. *)
Definition loggingIn (tls : bool) (info : SessionInfo.t) (timeout timer handshaker : Z) : CRtpSessionTcpclientEx.t :=
  CRtpSessionTcpclientEx.mkClient (loginInfo tls info) tls [] timeout true 0 (if tls then 0 else handshaker) (if tls then handshaker else 0) 0 timer
    true false false true.

Section Client.
Import CRtpSessionTcpclientEx LoginRuns.
Context (tls : bool) (info : SessionInfo.t) (password : list Z) (nonce : Z) (Hinfo : wf info) (Hpassword : zlen password < 2 ^ 31).
Context (port timeout connector timer k : Z) (u : bool) (junk : list Z) (ctx handshaker : Z).
Context (Hport : port <> 0) (Hconnector : connector <> 0) (Hk : k <> -1) (Hjunk : zlen junk = 192) (Hctx : ctx <> 0).

Lemma DoHandshake_sends s : handshaker <> 0 -> m_tcpHandshaker s = 0 -> m_sslHandshaker s = 0 -> m_info s = loginInfo tls info -> m_sslConfig s = tls ->
  m_password s = password -> exists l,
  DoHandshake k u nonce (mkAnswers (Some junk) (true, true) ctx handshaker) s =
    (true, setLinks (m_connector s) (if tls then 0 else handshaker) (if tls then handshaker else 0) (m_trans s) (clearPassword s), l) /\
  loginOf l = [loginData tls info (ProCalcPasswordHash true true nonce (Some password))] /\ upcalls l = [].
Proof.
  intros Hh H1 H2 Hi Hc Hpw. unfold DoHandshake. rewrite (proj2 (Z.eqb_neq k (-1)) Hk), H1, H2, Hi, Hpw. cbn [negb orb Z.eqb an_md an_junk an_ctx an_handshaker fst snd].
  assert (Hpr : is_bytes (ProCalcPasswordHash true true nonce (Some password)) /\ zlen (ProCalcPasswordHash true true nonce (Some password)) = 32).
  { rewrite proof_of by done. apply sha256_laws. }
  change (setHash (ProCalcPasswordHash true true nonce (Some password)) (toNetwork (loginInfo tls info)))
    with (toNetwork (setHash (ProCalcPasswordHash true true nonce (Some password)) (loginInfo tls info))).
  pose proof (login_image_size tls info _ Hinfo Hpr) as Hsz. unfold loginData.
  set (proof := ProCalcPasswordHash true true nonce (Some password)) in *.
  destruct (packetOf_frame (image (toNetwork (setHash proof (loginInfo tls info)))) (mmId info) (mmType info) junk)
    as (p & Hp & Hw); [by rewrite Hsz|by rewrite Hsz|].
  change (m_info (clearPassword s)) with (m_info s). rewrite Hi.
  change (mmId (loginInfo tls info)) with (mmId info). change (mmType (loginInfo tls info)) with (mmType info). rewrite Hp.
  change (m_sslConfig (clearPassword s)) with (m_sslConfig s). rewrite Hc.
  change (m_tcpHandshaker (clearPassword s)) with (m_tcpHandshaker s). change (m_sslHandshaker (clearPassword s)) with (m_sslHandshaker s). rewrite H1, H2.
  destruct tls; rewrite ?(proj2 (Z.eqb_neq ctx 0) Hctx), (proj2 (Z.eqb_neq handshaker 0) Hh); (eexists; split; [reflexivity|]; split; [|done]);
    unfold loginOf; cbn -[wireOf]; by rewrite Hw.
Qed.

Lemma client_logs_in : handshaker <> 0 -> exists l,
  run [CInit false port (Some password) timeout connector timer; CConnectOk connector k u nonce (mkAnswers (Some junk) (true, true) ctx handshaker)]
    (construct tls info) = Some (loggingIn tls info (if timeout =? 0 then 20 else timeout) timer handshaker, l) /\
  loginOf l = [loginData tls info (ProCalcPasswordHash true true nonce (Some password))] /\ upcalls l = [].
Proof.
  intros Hh. cbn [run exec]. unfold Init. rewrite (proj2 (Z.eqb_neq port 0) Hport), (proj2 (Z.eqb_neq connector 0) Hconnector).
  cbn [active m_trans m_connector m_tcpHandshaker m_sslHandshaker m_info m_sslConfig construct orb negb Z.eqb mbind option_bind].
  unfold OnConnectOk. rewrite (proj2 (Z.eqb_neq connector 0) Hconnector), (proj2 (Z.eqb_neq k (-1)) Hk).
  set (s := setLinks connector 0 0 0 _). change (m_connector (setStart _ _ _ _ s)) with connector. change (active (setStart true _ _ _ s)) with true.
  rewrite (proj2 (Z.eqb_neq connector 0) Hconnector), Z.eqb_refl. cbn [negb orb].
  match goal with |- context [DoHandshake _ _ _ _ ?x] => destruct (DoHandshake_sends x Hh) as (l & E & Hl & Hu); [done..|] end.
  rewrite E. cbn [mbind option_bind]. eexists. split; [reflexivity|]. unfold loginOf, upcalls in *.
  rewrite !fmap_app, !concat_app, !List.filter_app, Hl, Hu. by split.
Qed.
End Client.

(** What the server's end answers. *)
Definition versionData (s : CRtpSessionTcpserverEx.t) : list Z :=
  frame (be_bytes 2 (localVersion (CRtpSessionTcpserverEx.s_info s))) (mmId (CRtpSessionTcpserverEx.s_info s)) (mmType (CRtpSessionTcpserverEx.s_info s)).
Lemma versionData_size s : zlen (versionData s) = CRtpSessionTcpclientEx.VERSION_BYTES.
Proof. unfold versionData. by rewrite frame_size, zlen_be_bytes. Qed.

Lemma server_answers sslCtx info k u trans timer junk s l : zlen junk = 42 ->
  CRtpSessionTcpserverEx.CreateRtpSession sslCtx info k u trans timer (Some junk) true = (Some s, l) ->
  answersOf l = [versionData s] /\ localVersion (CRtpSessionTcpserverEx.s_info s) = CRtpSessionTcpclientEx.GetRtpSessionVersion.
Proof.
  intros Hj. unfold CRtpSessionTcpserverEx.CreateRtpSession, CRtpSessionTcpserverEx.CreateInstance.
  destruct (mmType info =? 0); [done|]. set (x := default 0 sslCtx). intros H.
  assert (Hc : exists c, match sslCtx with None => Some (CRtpSessionTcpserverEx.construct 0 info) | Some ctx => if ctx =? 0 then None else Some (CRtpSessionTcpserverEx.construct ctx info) end
    = Some (CRtpSessionTcpserverEx.construct c info)).
  { destruct sslCtx as [c|]; [|by eexists]. destruct (c =? 0); [done|by eexists]. }
  destruct Hc as [c Hc]. rewrite Hc in H. revert H. unfold CRtpSessionTcpserverEx.Init. destruct (k =? -1); [by destruct (CRtpSessionTcpserverEx.Delete _)|].
  cbn [CRtpSessionTcpserverEx.s_active CRtpSessionTcpserverEx.s_trans CRtpSessionTcpserverEx.construct orb negb Z.eqb].
  destruct (Z.eqb_spec trans 0) as [|Ht]; [by destruct (CRtpSessionTcpserverEx.Delete _)|].
  unfold CRtpSessionTcpserverEx.DoHandshake. cbn [CRtpSessionTcpserverEx.s_trans CRtpSessionTcpserverEx.s_info].
  rewrite (proj2 (Z.eqb_neq _ _) Ht), hton16_bytes. set (i := CRtpSessionTcpserverEx.s_info (CRtpSessionTcpserverEx.construct c info)).
  destruct (packetOf_frame (be_bytes 2 (localVersion i)) (mmId i) (mmType i) junk) as (p & Hp & Hw); rewrite ?zlen_be_bytes; [by vm_compute|done|].
  rewrite Hp. cbn [CRtpSessionTcpserverEx.m_onOkTimerId]. intros [= <- <-]. split; [|done]. unfold answersOf. rewrite !fmap_app, !concat_app. cbn. rewrite Hw.
  by destruct (c =? 0).
Qed.

(** The client gets the answer. *)
Section Answer.
Import CRtpSessionTcpclientEx LoginRuns.
Lemma client_up (tls : bool) info timeout timer handshaker k u ctx trans s : handshaker <> 0 -> k <> -1 -> ctx <> 0 -> trans <> 0 ->
  0 <= localVersion (CRtpSessionTcpserverEx.s_info s) < 2 ^ 16 ->
  exists (c : t) (l : list effect), exec (if tls then CSslHandshakeOk handshaker ctx k u (Some (versionData s)) VERSION_BYTES trans
                    else CTcpHandshakeOk handshaker k u (Some (versionData s)) VERSION_BYTES trans) (loggingIn tls info timeout timer handshaker) = Some (c, l) /\
    upcalls l = [OnOkSession] /\ m_trans c = trans /\ remoteVersion (m_info c) = localVersion (CRtpSessionTcpserverEx.s_info s) /\
    holds c = [Transport trans].
Proof.
  intros Hh Hk Hx Ht Hv.
  assert (Hl : pbsd_ntoh16 (load 2 (sizeof_RTP_EXT + sizeof_RTP_HEADER) (versionData s)) = localVersion (CRtpSessionTcpserverEx.s_info s)).
  { unfold load. change (Z.of_nat 2) with (zlen (be_bytes 2 (localVersion (CRtpSessionTcpserverEx.s_info s)))). unfold versionData. rewrite frame_payload.
    rewrite <- hton16_bytes, of_le_le_bytes, Z.mod_small by apply hton16_range. by apply ntoh16_hton16. }
  assert (Hp : CRtpPacket.ParseExtBuffer (versionData s) VERSION_BYTES = Some true).
  { rewrite <- (versionData_size s). apply frame_parses; rewrite ?zlen_be_bytes; [unfold be_bytes; apply Forall_reverse, le_bytes_is_bytes|by vm_compute]. }
  destruct tls; cbn [exec]; [unfold OnSslHandshakeOk|unfold OnTcpHandshakeOk]; rewrite (proj2 (Z.eqb_neq handshaker 0) Hh), ?(proj2 (Z.eqb_neq ctx 0) Hx), (proj2 (Z.eqb_neq k (-1)) Hk);
    unfold loggingIn; cbn [active m_sslHandshaker m_tcpHandshaker orb negb]; rewrite (proj2 (Z.eqb_neq handshaker 0) Hh), Z.eqb_refl; cbn [negb];
    unfold accept; rewrite Z.eqb_refl, Hp; cbn [negb mbind option_bind]; rewrite Hl, (proj2 (Z.eqb_neq trans 0) Ht); cbn [mbind option_bind];
    do 2 eexists; (split; [reflexivity|]); (split; [reflexivity|]); (split; [reflexivity|]); (split; [reflexivity|]);
    unfold holds; cbn -[obj]; unfold obj; by rewrite (proj2 (Z.eqb_neq trans 0) Ht).
Qed.
End Answer.
End LoginFlow.

Module LoginEndToEnd.
Import SessionInfo LoginPacket LoginFlow CRtpSessionTcpclientEx LoginRuns.

(** C10: a login from end to end, with TLS or without.  A client that is connected with some
    nonce sends one block of 172 bytes and forgets its password.  A service that gets this
    block from one of its handshakers offers the client's session information with the proof
    of the password, and the nonce of that connection.  A check with the client's nonce
    accepts the proof for exactly the passwords with the same SHA-256 after the nonce, the
    client's password among them.  A session that the server's end creates sends one block,
    and the client that gets it has its transport, knows the server's version and says that
    the session is up. *)
Theorem login_correct (tls : bool) info password nonce port timeout connector timer k u junk ctx handshaker :
  wf info -> zlen password < 2 ^ 31 -> port <> 0 -> connector <> 0 -> k <> -1 -> zlen junk = 192 -> ctx <> 0 -> handshaker <> 0 ->
  exists c l data proof,
    run [CInit false port (Some password) timeout connector timer; CConnectOk connector k u nonce (mkAnswers (Some junk) (true, true) ctx handshaker)]
      (construct tls info) = Some (c, l) /\
    loginOf l = [data] /\ zlen data = CRtpService.LOGIN_BYTES /\ m_password c = [] /\ upcalls l = [] /\
    (forall s h n ctx' k' u' peer, CRtpService.active s = true -> CRtpService.m_serviceHost s <> 0 -> h <> 0 -> ctx' <> 0 -> k' <> -1 -> u' = true \/ is_Some peer ->
      stl_find h (if tls then CRtpService.m_sslHandshaker2Nonce s else CRtpService.m_tcpHandshaker2Nonce s) = Some (h, n) ->
      exists s' l', ServiceRuns.exec (if tls then ServiceRuns.CSslHandshakeOk h ctx' k' u' (Some data) CRtpService.LOGIN_BYTES peer
                                      else ServiceRuns.CTcpHandshakeOk h k' u' (Some data) CRtpService.LOGIN_BYTES peer) s = Some (s', l') /\
        offersOf l' = [(setHash proof (loginInfo tls info), n)]) /\
    (forall password', zlen password' < 2 ^ 31 ->
      (CheckRtpServiceData true true nonce (Some password') proof = true <->
       reference SHA256 (llu nonce ++ password') = reference SHA256 (llu nonce ++ password))) /\
    (forall sslCtx serverInfo k' u' trans' timer' junk' s l', zlen junk' = 42 ->
      CRtpSessionTcpserverEx.CreateRtpSession sslCtx serverInfo k' u' trans' timer' (Some junk') true = (Some s, l') ->
      exists answer, answersOf l' = [answer] /\ forall trans, trans <> 0 -> exists c' l'',
        exec (if tls then CSslHandshakeOk handshaker ctx k u (Some answer) VERSION_BYTES trans else CTcpHandshakeOk handshaker k u (Some answer) VERSION_BYTES trans) c
          = Some (c', l'') /\
        upcalls l'' = [OnOkSession] /\ m_trans c' = trans /\ remoteVersion (m_info c') = localVersion (CRtpSessionTcpserverEx.s_info s)).
Proof.
  intros Hi Hp Hport Hcn Hk Hj Hx Hh.
  destruct (client_logs_in tls info password nonce Hi Hp port timeout connector timer k u junk ctx handshaker Hport Hcn Hk Hj Hx Hh) as (l & E & Hl & Hu).
  set (proof := ProCalcPasswordHash true true nonce (Some password)) in *.
  assert (Hpr : is_bytes proof /\ zlen proof = 32) by (unfold proof; rewrite proof_of by done; apply sha256_laws).
  exists (loggingIn tls info (if timeout =? 0 then 20 else timeout) timer handshaker), l, (loginData tls info proof), proof.
  split; [done|]. split; [done|]. split; [by apply loginData_size|]. do 2 (split; [done|]). split; [|split].
  - intros s h n ctx' k' u' peer Ha Hs Hh' Hx' Hk' Hpe Hf. apply (service_offers tls info proof Hi Hpr _ s h n Ha Hs Hh').
    destruct tls; by split_and!.
  - intros p' Hp'. unfold CheckRtpServiceData. rewrite bool_decide_eq_true, (ztake_all 32 proof) by lia.
    unfold proof. rewrite !proof_of by done. done.
  - intros sslCtx serverInfo k' u' trans' timer' junk' s l' Hj' Hc. destruct (server_answers _ _ _ _ _ _ _ _ _ Hj' Hc) as [Ha Hv].
    exists (versionData s). split; [done|]. intros trans Ht.
    destruct (client_up tls info (if timeout =? 0 then 20 else timeout) timer handshaker k u ctx trans s Hh Hk Hx Ht) as (c' & l'' & E' & H1 & H2 & H3 & _).
    { rewrite Hv. by vm_compute. }
    by exists c', l''.
Qed.

(** The login that a service with one connection gets. *)
Definition demoService : CRtpService.t :=
  fst (CRtpService.OnServiceAccept 9 41 true 11 0 258 30 0 (snd (fst (CRtpService.Init 3000 20 9 (CRtpService.construct false 11))))).
Lemma login_correct_witness :
  exists data proof s' l', ServiceRuns.exec (ServiceRuns.CTcpHandshakeOk 30 41 true (Some data) CRtpService.LOGIN_BYTES None) demoService = Some (s', l') /\
    offersOf l' = [(setHash proof (loginInfo false LoginTheorems.demoInfo), 258)] /\ zlen data = 172 /\
    CheckRtpServiceData true true 258 (Some [112; 119]) proof = true.
Proof.
  assert (Hw : wf LoginTheorems.demoInfo) by (split; cbn; try lia; (split; [by repeat constructor|done])).
  destruct (login_correct false LoginTheorems.demoInfo [112; 119] 258 3000 0 5 6 40 false (replicate 192 0) 1 8 Hw) as
    (c & l & data & proof & _ & _ & Hsz & _ & _ & Hs & Hp & _); try done.
  destruct (Hs demoService 30 258 1 41 true None) as (s' & l' & E & Ho); try done; [by left|].
  exists data, proof, s', l'. split; [exact E|]. split; [exact Ho|]. split; [exact Hsz|]. by apply Hp.
Defined.
End LoginEndToEnd.

(** ** A session that cannot be created *)

Module FailedSession.
Import CRtpMsgServer.

Lemma freed_app c k l l' : CRtpSessionTcpserverEx.freed c k (l ++ l') = CRtpSessionTcpserverEx.freed c k l ++ CRtpSessionTcpserverEx.freed c k l'.
Proof. unfold CRtpSessionTcpserverEx.freed. by rewrite fmap_app, concat_app. Qed.

(** C13: when the session of a client that the observer accepts cannot be created, it has
    freed its context of the TLS library, if it has one, and also the socket, if the
    transport was there when the version could not be sent.  [AsyncOnAcceptSession] then frees the
    context and the socket of its argument, the same ones. *)
Theorem failed_session_freed_again accepts inet_aton localInfo unixSocket trans timerId junk sent effects ans arg user s s' l :
  SessionInfo.mmType localInfo <> 0 -> sockId arg <> -1 -> (sessionType arg = RTP_ST_SSLCLIENT_EX <-> sslCtx arg <> 0) ->
  CRtpSessionTcpserverEx.CreateRtpSession (if sessionType arg =? RTP_ST_SSLCLIENT_EX then Some (sslCtx arg) else None) localInfo (sockId arg) unixSocket
    trans timerId junk sent = (None, effects) ->
  onCheckBase accepts inet_aton None ans arg user s = Some (s', l) ->
  l = [CloseSocket (sslCtx arg) (sockId arg)] /\
  CRtpSessionTcpserverEx.freed (sslCtx arg) (sockId arg) effects =
    (if trans =? 0 then [] else [sockId arg]) ++ (if sslCtx arg =? 0 then [] else [sslCtx arg]).
Proof.
  intros Hm Hk Hc Hs Hx. split.
  - revert Hx. unfold onCheckBase, AddBaseUser. destruct (negb (accepted ans)); [by intros [= <- <-]|]. destruct (_ || _); [by intros [= <- <-]|].
    destruct (_ || _); [by intros [= <- <-]|]. destruct (negb (active s)); by intros [= <- <-].
  - revert Hs. unfold CRtpSessionTcpserverEx.CreateRtpSession, CRtpSessionTcpserverEx.CreateInstance.
    rewrite (proj2 (Z.eqb_neq _ 0) Hm). set (ctx := sslCtx arg) in *.
    assert (E : match (if sessionType arg =? RTP_ST_SSLCLIENT_EX then Some ctx else None) with
                | None => Some (CRtpSessionTcpserverEx.construct 0 localInfo)
                | Some c => if c =? 0 then None else Some (CRtpSessionTcpserverEx.construct c localInfo) end = Some (CRtpSessionTcpserverEx.construct ctx localInfo)).
    { destruct (Z.eqb_spec (sessionType arg) RTP_ST_SSLCLIENT_EX) as [H|H].
      - apply Hc in H. by rewrite (proj2 (Z.eqb_neq _ _) H).
      - destruct (Z.eq_dec ctx 0) as [->|Hn]; [done|]. by apply Hc in Hn. }
    rewrite E. unfold CRtpSessionTcpserverEx.Init. rewrite (proj2 (Z.eqb_neq _ (-1)) Hk).
    cbn [CRtpSessionTcpserverEx.s_active CRtpSessionTcpserverEx.s_trans CRtpSessionTcpserverEx.m_sslCtx CRtpSessionTcpserverEx.construct orb negb Z.eqb].
    destruct (Z.eqb_spec trans 0) as [->|Ht].
    + cbn [app]. intros [= <-]. unfold CRtpSessionTcpserverEx.freed. rewrite fmap_app, concat_app.
      by destruct (ctx =? 0).
    + destruct (CRtpSessionTcpserverEx.DoHandshake junk sent _) as [b l1] eqn:Ed. destruct b; [done|].
      assert (H1 : CRtpSessionTcpserverEx.freed ctx (sockId arg) l1 = []).
      { revert Ed. unfold CRtpSessionTcpserverEx.DoHandshake. cbn [CRtpSessionTcpserverEx.s_trans]. rewrite (proj2 (Z.eqb_neq _ _) Ht).
        destruct (CRtpSessionTcpclientEx.packetOf _ _ _ _); intros H; apply (f_equal snd) in H; cbn in H; by subst l1. }
      cbn [CRtpSessionTcpserverEx.Fini CRtpSessionTcpserverEx.s_active negb CRtpSessionTcpserverEx.m_onOkTimerId CRtpSessionTcpserverEx.s_trans].
      rewrite (proj2 (Z.eqb_neq _ _) Ht). cbn [CRtpSessionTcpserverEx.Delete CRtpSessionTcpserverEx.Fini CRtpSessionTcpserverEx.s_active negb].
      intros H. apply (f_equal snd) in H. cbn [snd] in H. subst effects. rewrite !freed_app, H1. unfold CRtpSessionTcpserverEx.freed. cbn. by destruct (ctx =? 0).
Qed.

(** A session over TLS whose transport cannot be created. *)
Definition demoArg : acceptArg := mkAccept 77 40 [49] 258 RTP_ST_SSLCLIENT_EX 11 (replicate 32 0) (replicate 64 0).
Definition demoInfo : SessionInfo.t := SessionInfo.mkInfo 0 1 0 11 (replicate 32 0) (replicate 34 0) 0 0 0 0 (replicate 64 0).
Lemma failed_session_freed_again_witness :
  exists effects s' l, CRtpSessionTcpserverEx.CreateRtpSession (Some 77) demoInfo 40 true 0 0 None true = (None, effects) /\
    onCheckBase (fun _ => false) (fun _ => 0) None (mkAnswer true 1 1 0 false) demoArg (mkUser 1 0 0 0 0 1 1)
      (construct 11 true false 0 0) = Some (s', l) /\
    l = [CloseSocket 77 40] /\ CRtpSessionTcpserverEx.freed 77 40 effects = [77].
Proof.
  eexists _, _, _. split; [vm_compute; reflexivity|]. split; [vm_compute; reflexivity|].
  apply (failed_session_freed_again (fun _ => false) (fun _ => 0) demoInfo true 0 0 None true _ (mkAnswer true 1 1 0 false) demoArg (mkUser 1 0 0 0 0 1 1)
    (construct 11 true false 0 0) (construct 11 true false 0 0)); try done; vm_compute; reflexivity.
Defined.
End FailedSession.
