(* ===== verification/BucketInterface.v ===== *)
(** * The buckets behind their interface ([IRtpBucket] of [rtp_foundation.h])

    A session wrapper sees a bucket through its virtual methods only.  [IRtpBucket] are
    these methods, [BucketLaws] what a bucket promises: whatever packets it is given, it
    counts its references exactly, and it gives the packets out in the order of their
    pushes, perhaps without some of them.  The three buckets keep the promise. *)

From S2P Require Import Prelude Bytes RefCount RtpPacket RtpBucket.

Class IRtpBucket (B : Type) := {
  PushBackAddRef : Z -> B -> gmap Z nat -> option (bool * B * gmap Z nat);
  GetFront : B -> gmap Z nat -> option (Z * B * gmap Z nat);
  PopFrontRelease : Z -> B -> gmap Z nat -> option (B * gmap Z nat);
  Reset : B -> gmap Z nat -> option (B * gmap Z nat);
  SetRedline : Z -> Z -> B -> B;
  GetRedline : B -> Z * Z;
  GetFlowctrlInfo : B -> Z * Z
}.

(** [Destroy]: the destructors call [Reset] *)
Definition Destroy `{IRtpBucket B} (b : B) (rc : gmap Z nat) : option (gmap Z nat) := '(_, rc) ← Reset b rc; Some rc.

Class BucketLaws (B : Type) `{IRtpBucket B} := {
  bk_held : B -> list Z;
  bk_ok : B -> Prop;
  push_law ext b rc p : bk_ok b -> rc_ok ext (bk_held b) rc -> p <> NULL -> (0 < ext p)%nat ->
    exists ret b' rc', PushBackAddRef p b rc = Some (ret, b', rc') /\ bk_ok b' /\ rc_ok ext (bk_held b') rc' /\ bk_held b' `sublist_of` bk_held b ++ [p];
  front_law ext b rc : bk_ok b -> rc_ok ext (bk_held b) rc ->
    exists p b' rc', GetFront b rc = Some (p, b', rc') /\ bk_ok b' /\ rc_ok ext (bk_held b') rc' /\ bk_held b' = bk_held b /\
      (p <> NULL -> exists b'' rc'', PopFrontRelease p b' rc' = Some (b'', rc'') /\ bk_ok b'' /\ rc_ok ext (bk_held b'') rc'' /\
         bk_held b = p :: bk_held b'');
  reset_law ext b rc : bk_ok b -> rc_ok ext (bk_held b) rc ->
    exists b' rc', Reset b rc = Some (b', rc') /\ bk_ok b' /\ bk_held b' = [] /\ rc_ok ext [] rc';
  redline_law bytes frames b : bk_ok b -> bytes <= 2 ^ 62 -> bk_ok (SetRedline bytes frames b) /\ bk_held (SetRedline bytes frames b) = bk_held b
}.

(** References that somebody else counts as well. *)
Lemma rc_ok_frame ext ps rest rc : rc_ok ext (ps ++ rest) rc <-> rc_ok (fun q => ext q + occ q rest)%nat ps rc.
Proof.
  unfold rc_ok. split; intros H q; rewrite (H q), occ_app; cbn zeta; by replace (ext q + (occ q ps + occ q rest))%nat with (ext q + occ q rest + occ q ps)%nat by lia.
Qed.

(** ** The three buckets *)

Module Buckets.

Inductive t := Plain (b : CRtpBucket.t) | Audio (b : CRtpBucket.t) | Video (v : CRtpVideoBucket.t).

(** A new bucket of [CreateRtpBucket] *)
Definition create (k : bucketKind) : t :=
  match k with
  | BaseBucket => Plain CRtpBucket.init
  | AudioBucket => Audio CRtpAudioBucket.init
  | VideoBucket => Video CRtpVideoBucket.init
  end.

Section methods.
Context (pk : Z -> CRtpPacket.t).

#[export] Instance buckets : IRtpBucket t := {|
  PushBackAddRef p b rc :=
    match b with
    | Plain b => '(ret, b, rc) ← CRtpBucket.PushBackAddRef pk p b rc; Some (ret, Plain b, rc)
    | Audio b => '(ret, b, rc) ← CRtpAudioBucket.PushBackAddRef pk p b rc; Some (ret, Audio b, rc)
    | Video v => '(ret, v, rc) ← CRtpVideoBucket.PushBackAddRef pk p v rc; Some (ret, Video v, rc)
    end;
  GetFront b rc :=
    match b with
    | Plain b' | Audio b' => p ← CRtpBucket.GetFront b'; Some (p, b, rc)
    | Video v => '(p, v, rc) ← CRtpVideoBucket.GetFront v rc; Some (p, Video v, rc)
    end;
  PopFrontRelease p b rc :=
    match b with
    | Plain b => '(b, rc) ← CRtpBucket.PopFrontRelease pk p b rc; Some (Plain b, rc)
    | Audio b => '(b, rc) ← CRtpAudioBucket.PopFrontRelease pk p b rc; Some (Audio b, rc)
    | Video v => '(v, rc) ← CRtpVideoBucket.PopFrontRelease pk p v rc; Some (Video v, rc)
    end;
  Reset b rc :=
    match b with
    | Plain b => '(b, rc) ← CRtpBucket.Reset b rc; Some (Plain b, rc)
    | Audio b => '(b, rc) ← CRtpBucket.Reset b rc; Some (Audio b, rc)
    | Video v => '(v, rc) ← CRtpVideoBucket.Reset v rc; Some (Video v, rc)
    end;
  SetRedline bytes frames b :=
    match b with
    | Plain b => Plain (CRtpBucket.SetRedline bytes frames b)
    | Audio b => Audio (CRtpBucket.SetRedline bytes frames b)
    | Video v => Video (CRtpVideoBucket.SetRedline bytes frames v)
    end;
  GetRedline b := match b with Plain b | Audio b => CRtpBucket.GetRedline b | Video v => CRtpVideoBucket.GetRedline v end;
  GetFlowctrlInfo b := match b with Plain b | Audio b => CRtpBucket.GetFlowctrlInfo b | Video v => CRtpVideoBucket.GetFlowctrlInfo v end
|}.
End methods.
End Buckets.

(** ** A video bucket with any packets

    Whatever marks the packets carry, the frames stay within the bounds of their own
    buckets; the counts of all frames may be wrong, which only changes what is dropped. *)

Module VideoSafe.
Import CRtpVideoBucket BucketSpec BucketLemmas VideoRun VideoLemmas.

Section safe.
Context (pk : Z -> CRtpPacket.t) (Hsize : forall p, 0 < CRtpPacket.GetPayloadSize (pk p) <= MAX_PAYLOAD_SIZE).
Context (ext : Z -> nat).

(** The packets in the order in which they are sent. *)
Definition held (v : t) : list Z := flat (option_list (m_sendingFrame v) ++ m_frames v ++ option_list (m_waitingFrame v)).

Record safe (v : t) : Prop := mkSafe {
  sf_fine : Forall (fine pk) (option_list (m_sendingFrame v) ++ m_frames v ++ option_list (m_waitingFrame v));
  sf_full : Forall (fun f => pkts f <> []) (option_list (m_sendingFrame v) ++ m_frames v);
  sf_null : NULL ∉ held v
}.

Lemma deleteFrames_ok l rest : forall rc, rc_ok ext (flat l ++ rest) rc -> exists rc', deleteFrames l rc = Some rc' /\ rc_ok ext rest rc'.
Proof.
  induction l as [|f l IH]; intros rc Hrc; cbn [deleteFrames]; [by exists rc|]. rewrite flat_cons, <- app_assoc in Hrc.
  destruct (deleteFrame_ok ext _ f rc Hrc) as (rc1 & -> & H1). cbn [mbind option_bind]. by apply IH.
Qed.
Lemma removeOld_safe l rest : forall bytes count rc, rc_ok ext (flat l ++ rest) rc -> exists bytes' count' rc',
  removeOld l bytes count rc = Some (bytes', count', rc') /\ rc_ok ext rest rc'.
Proof.
  induction l as [|f l IH]; intros bytes count rc Hrc; cbn [removeOld]; [by do 3 eexists|]. rewrite flat_cons, <- app_assoc in Hrc.
  destruct (deleteFrame_ok ext _ f rc Hrc) as (rc1 & -> & H1). cbn [mbind option_bind]. by apply IH.
Qed.

(** A bucket with other counts or another synchronisation holds the same. *)
Definition same (v v' : t) : Prop :=
  m_sendingFrame v' = m_sendingFrame v /\ m_frames v' = m_frames v /\ m_waitingFrame v' = m_waitingFrame v.
Lemma same_held v v' : same v v' -> held v' = held v.
Proof. intros (E1 & E2 & E3). unfold held. by rewrite E1, E2, E3. Qed.
Lemma same_safe v v' : same v v' -> safe v -> safe v'.
Proof. intros (E1 & E2 & E3) [S1 S2 S3]. split; unfold held in *; by rewrite E1, E2, ?E3. Qed.

(** The sending frame and the queued ones. *)
Definition queue (v : t) : list frame := option_list (m_sendingFrame v) ++ m_frames v.
Lemma held_queue v : held v = flat (queue v) ++ flat (option_list (m_waitingFrame v)).
Proof. unfold held, queue. by rewrite app_assoc, flat_app. Qed.

(** The waiting frame is lost. *)
Lemma waiting_lost v v' : safe v -> queue v' = queue v -> m_waitingFrame v' = None -> safe v' /\ held v' = flat (queue v).
Proof.
  intros [S1 S2 S3] Eq Ew. rewrite held_queue, Eq, Ew. change (flat (option_list None)) with (@nil Z). rewrite app_nil_r. split; [|done].
  rewrite held_queue in S3. rewrite app_assoc in S1. apply Forall_app in S1 as [S1 _].
  split; rewrite ?held_queue, ?Ew; fold (queue v'); rewrite ?Eq; try done.
  - rewrite app_assoc. fold (queue v'). rewrite Eq. cbn. by rewrite app_nil_r.
  - cbn. rewrite app_nil_r. intros Hn. apply S3, elem_of_app. by left.
Qed.

Lemma dropWaiting_safe v rc f : safe v -> m_waitingFrame v = Some f -> rc_ok ext (held v) rc ->
  exists v' rc', dropWaiting f v rc = Some (v', rc') /\ safe v' /\ rc_ok ext (held v') rc' /\ held v' = flat (queue v) /\
    queue v' = queue v /\ m_waitingFrame v' = None.
Proof.
  intros Hs Ew Hrc. unfold dropWaiting. rewrite held_queue, Ew, flat_opt in Hrc.
  destruct (deleteFrame_ok ext (flat (queue v)) f rc) as (rc' & -> & Hrc'); [by eapply rc_ok_perm; [apply Permutation_app_comm|]|].
  cbn [mbind option_bind]. do 2 eexists. split; [done|]. set (v' := setWaiting None _).
  destruct (waiting_lost v v' Hs) as [H1 H2]; [done..|]. by rewrite H2.
Qed.

(** A new waiting frame. *)
Lemma waiting_set v v' f : safe v -> fine pk f -> NULL ∉ pkts f -> queue v' = queue v -> m_waitingFrame v' = Some f ->
  safe v' /\ held v' = flat (queue v) ++ pkts f.
Proof.
  intros [S1 S2 S3] Hf Hn Eq Ew. rewrite held_queue, Eq, Ew, flat_opt. split; [|done].
  rewrite held_queue in S3. rewrite app_assoc in S1. apply Forall_app in S1 as [S1 _].
  split; rewrite ?held_queue, ?Ew, ?flat_opt; fold (queue v'); rewrite ?Eq; try done.
  - rewrite app_assoc. fold (queue v'). rewrite Eq. apply Forall_app. split; [done|]. by constructor.
  - intros [H|H]%elem_of_app; [|done]. apply S3, elem_of_app. by left.
Qed.

Lemma fine_new b : fine pk (mkFrame b CRtpBucket.init).
Proof. split_and!; [by apply weighed_init|done|]. by vm_compute. Qed.

Lemma openFrame_safe v rc p : safe v -> rc_ok ext (held v) rc -> exists f v' rc', openFrame pk p v rc = Some (f, v', rc') /\
  safe v' /\ rc_ok ext (held v') rc' /\ held v' `sublist_of` held v /\
  match f with Some f => m_waitingFrame v' = Some f | None => True end.
Proof.
  intros Hs Hrc. unfold openFrame. destruct (CRtpPacket.GetFirstPacketOfFrame (pk p)).
  - assert (Hd : exists v1 rc1, match m_waitingFrame v with Some f => dropWaiting f v rc | None => Some (v, rc) end = Some (v1, rc1) /\ safe v1 /\
      rc_ok ext (flat (queue v)) rc1 /\ queue v1 = queue v /\ held v1 = flat (queue v)).
    { destruct (m_waitingFrame v) as [f|] eqn:Ew.
      - destruct (dropWaiting_safe v rc f Hs Ew Hrc) as (v1 & rc1 & E & H1 & H2 & H3 & H4 & _). exists v1, rc1. rewrite <- H3. by split_and!.
      - exists v, rc. assert (Eh : held v = flat (queue v)) by (rewrite held_queue, Ew; cbn; apply app_nil_r). rewrite <- Eh. by split_and!. }
    destruct Hd as (v1 & rc1 & E & H1 & H2 & H3 & H4). rewrite E. cbn [mbind option_bind].
    set (f := mkFrame _ _). set (v2 := setWaiting _ _). do 3 eexists. split; [done|].
    destruct (waiting_set v1 v2 f H1 (fine_new _)) as [S E2]; [by apply not_elem_of_nil|done|done|].
    change (pkts f) with (@nil Z) in E2. rewrite app_nil_r, H3 in E2. rewrite E2. split_and!; try done.
    rewrite held_queue. by apply sublist_inserts_r.
  - destruct (m_waitingFrame v) as [f|] eqn:Ew.
    + exists (Some f), v, rc. by split_and!.
    + exists None, (resync v), rc. split; [done|]. split; [by apply (same_safe v)|]. by rewrite (same_held v).
Qed.

(** The last packet of a frame. *)
Lemma closeFrame_safe v rc p f : safe v -> rc_ok ext (held v) rc -> m_waitingFrame v = Some f -> pkts f <> [] ->
  exists ret v' rc', closeFrame pk p f v rc = Some (ret, v', rc') /\ safe v' /\ rc_ok ext (held v') rc' /\ held v' `sublist_of` held v.
Proof.
  intros Hs Hrc Ew Hne. unfold closeFrame. pose proof Hs as [S1 S2 S3].
  assert (Hdrop : exists v' rc', ('(v, rc) ← dropWaiting f v rc; Some (false, resync v, rc)) = Some (false, v', rc') /\ safe v' /\ rc_ok ext (held v') rc' /\
    held v' `sublist_of` held v).
  { destruct (dropWaiting_safe v rc f Hs Ew Hrc) as (v1 & rc1 & -> & H1 & H2 & H3 & _). cbn [mbind option_bind]. do 2 eexists. split; [done|].
    split; [by apply (same_safe v1)|]. rewrite (same_held v1) by done. split; [done|]. rewrite H3, held_queue. by apply sublist_inserts_r. }
  destruct Hdrop as (vd & rcd & Ed & Hd1 & Hd2 & Hd3).
  destruct (negb (CRtpPacket.GetMarker (pk p))).
  { destruct (_ >=? _); [rewrite Ed; by do 3 eexists|]. exists true, v, rc. by split_and!. }
  destruct (keyFrame f); cbn [negb].
  - assert (Hh : held v ≡ₚ flat (m_frames v) ++ (flat (option_list (m_sendingFrame v)) ++ pkts f)).
    { unfold held. rewrite !flat_app, Ew, flat_opt. solve_Permutation. }
    destruct (removeOld_safe (m_frames v) (flat (option_list (m_sendingFrame v)) ++ pkts f) (m_totalBytes v) (m_totalFrames v) rc) as (bytes & count & rc' & -> & Hrc');
      [by apply (rc_ok_perm _ _ _ _ Hh)|]. cbn [mbind option_bind]. do 3 eexists. split; [done|]. set (v' := setWaiting None _).
    assert (Eh : held v' = flat (option_list (m_sendingFrame v)) ++ pkts f).
    { unfold held, v'. cbn [m_sendingFrame m_frames m_waitingFrame setWaiting setQueue setTotals]. by rewrite !flat_app, flat_cons, !app_nil_r. }
    assert (Hsub : held v' `sublist_of` held v).
    { rewrite Eh. unfold held. rewrite !flat_app, Ew, flat_opt. apply sublist_app; [done|]. by apply sublist_inserts_l. }
    split; [|split; [by rewrite Eh|done]]. apply Forall_app in S1 as [S1 [_ S1']%Forall_app]. apply Forall_app in S2 as [S2 _]. rewrite Ew in S1'.
    split; unfold v'; cbn [m_sendingFrame m_frames m_waitingFrame setWaiting setQueue setTotals]; fold v'.
    + apply Forall_app. split; [done|]. rewrite app_nil_r. done.
    + apply Forall_app. split; [done|]. by constructor.
    + intros Hn. apply S3. by eapply elem_of_sublist.
  - destruct (_ && _); [|rewrite Ed; by do 3 eexists]. do 3 eexists. split; [done|]. set (v' := setWaiting None _).
    assert (Eh : held v' = held v).
    { unfold held, v'. cbn [m_sendingFrame m_frames m_waitingFrame setWaiting setQueue setTotals]. rewrite Ew. by rewrite app_nil_r. }
    rewrite Eh. split_and!; try done. split; rewrite ?Eh; try done; unfold v'; cbn [m_sendingFrame m_frames m_waitingFrame setWaiting setQueue setTotals].
    + rewrite app_nil_r. by rewrite Ew in S1.
    + rewrite app_assoc. apply Forall_app. split; [done|]. by constructor.
Qed.

Lemma push_safe v rc p : safe v -> rc_ok ext (held v) rc -> p <> NULL -> (0 < ext p)%nat ->
  exists ret v' rc', PushBackAddRef pk p v rc = Some (ret, v', rc') /\ safe v' /\ rc_ok ext (held v') rc' /\ held v' `sublist_of` held v ++ [p].
Proof.
  intros Hs Hrc Hp He. unfold PushBackAddRef. rewrite (proj2 (Z.eqb_neq _ _) Hp).
  assert (Hsync : synchronize pk p v = None \/ exists v0, synchronize pk p v = Some v0 /\ same v v0).
  { unfold synchronize. destruct (_ && negb _); [by left|]. right. destruct (_ && _); by eexists. }
  destruct Hsync as [->|(v0 & -> & H0)].
  { exists false, v, rc. split_and!; try done. by apply sublist_inserts_r. }
  rewrite <- (same_held v v0 H0) in *. apply (same_safe v v0 H0) in Hs.
  destruct (openFrame_safe v0 rc p Hs Hrc) as (f & v1 & rc1 & -> & H1 & H2 & H3 & H4). cbn [mbind option_bind].
  destruct f as [f|]; [|exists false, v1, rc1; split_and!; try done; by apply sublist_inserts_r].
  pose proof H1 as [S1 S2 S3]. rewrite H4 in S1. apply Forall_app in S1 as [_ [_ S1]%Forall_app]. apply Forall_cons in S1 as [(Hw & Hred & Hlim) _].
  rewrite held_queue, H4, flat_opt in H2.
  destruct (push_ok pk Hsize ext (flat (queue v1)) p (bucket f) rc1 Hw) as (b & rc2 & -> & Eb & Hwb & Hrc2);
    [by rewrite Hred|done|lia|by eapply rc_ok_perm; [apply Permutation_app_comm|]|]. cbn [mbind option_bind].
  set (f' := mkFrame (keyFrame f) b). set (v2 := setWaiting (Some f') _).
  assert (Hpk : pkts f' = pkts f \/ pkts f' = pkts f ++ [p]) by (unfold pkts, f'; cbn; rewrite Eb; destruct (_ >=? _); [by left|by right]).
  assert (Hf' : fine pk f').
  { split_and!; [done| |]; unfold f'; cbn [bucket]; rewrite Eb; [by destruct (_ >=? _)|]. unfold pkts. cbn [bucket]. rewrite ?Eb. pose proof (Hsize p) as Hsz.
    destruct Hw as [Hw _]. destruct (Z.geb_spec (CRtpBucket.m_totalBytes (bucket f)) (CRtpBucket.m_redlineBytes (bucket f))) as [|Hlt]; [done|].
    cbn [CRtpBucket.m_packets]. rewrite total_app, total_cons. change (total pk []) with 0. unfold LIMIT. rewrite Hred in Hlt. rewrite Hw in Hlt.
    unfold pkts in *. lia. }
  assert (Hne : pkts f' <> []).
  { unfold pkts, f'. cbn [bucket]. rewrite Eb. destruct (Z.geb_spec (CRtpBucket.m_totalBytes (bucket f)) (CRtpBucket.m_redlineBytes (bucket f))) as [Hge|Hlt].
    - intros E0. destruct Hw as [Hw _]. rewrite Hw, E0, Hred in Hge. by vm_compute in Hge.
    - cbn. by destruct (CRtpBucket.m_packets (bucket f)). }
  assert (Hn : NULL ∉ pkts f').
  { rewrite held_queue, H4, flat_opt in S3. destruct Hpk as [->| ->]; intros Hin.
    - apply S3, elem_of_app. by right.
    - apply elem_of_app in Hin as [Hin|[Hin|Hin%not_elem_of_nil]%elem_of_cons]; [|by destruct Hp|done]. apply S3, elem_of_app. by right. }
  destruct (waiting_set v1 v2 f' H1 Hf' Hn) as [Hs2 Eh2]; [done..|].
  destruct (closeFrame_safe v2 rc2 p f' Hs2) as (ret & v' & rc' & -> & A1 & A2 & A3); [|done|done|].
  { rewrite Eh2. by eapply rc_ok_perm; [apply Permutation_app_comm|]. }
  exists ret, v', rc'. split_and!; try done. etrans; [exact A3|]. rewrite Eh2. rewrite held_queue, H4, flat_opt in H3.
  destruct Hpk as [->| ->].
  - etrans; [exact H3|]. by apply sublist_inserts_r.
  - rewrite app_assoc. by apply sublist_app.
Qed.

Lemma front_of f : fine pk f -> pkts f <> [] -> exists p q, pkts f = p :: q /\ CRtpBucket.GetFront (bucket f) = Some p.
Proof.
  intros (Hw & _) Hne. rewrite (weighed_front pk Hsize _ Hw). fold (pkts f). destruct (pkts f) as [|p q]; [done|]. by exists p, q.
Qed.

(** The first packet of the frame that is being sent goes. *)
Lemma pop_safe v rc f p q : safe v -> rc_ok ext (held v) rc -> m_sendingFrame v = Some f -> pkts f = p :: q ->
  exists v' rc', PopFrontRelease pk p v rc = Some (v', rc') /\ safe v' /\ rc_ok ext (held v') rc' /\ held v = p :: held v'.
Proof.
  intros [S1 S2 S3] Hrc Ef Ep. rewrite Ef in S1, S2. apply Forall_cons in S1 as [Hf S1]. apply Forall_cons in S2 as [_ S2].
  assert (Eh : held v = pkts f ++ flat (m_frames v ++ option_list (m_waitingFrame v))) by (unfold held; by rewrite Ef, flat_app, flat_opt).
  rewrite Ep in Eh. cbn [app] in Eh. rewrite Eh in Hrc, S3.
  assert (Hp : p <> NULL) by (intros ->; apply S3; left).
  destruct (front_of f Hf) as (p' & q' & Ep' & Efr); [by rewrite Ep|]. rewrite Ep in Ep'. injection Ep' as <- <-.
  unfold PopFrontRelease. rewrite (proj2 (Z.eqb_neq _ _) Hp), Ef, Efr. cbn [mbind option_bind]. rewrite Z.eqb_refl. cbn [negb].
  destruct Hf as (Hw & Hred & Hlim).
  destruct (pop_ok pk Hsize ext (flat (m_frames v ++ option_list (m_waitingFrame v))) p (bucket f) rc Hw Hp) as (b & rc1 & -> & Eb & Hwb & Hrc1);
    [fold (pkts f); by rewrite Ep|fold (pkts f); by rewrite Ep|]. cbn [mbind option_bind].
  assert (Eq : CRtpBucket.m_packets b = q) by (rewrite Eb; cbn; fold (pkts f); by rewrite Ep).
  rewrite (weighed_front pk Hsize b Hwb), Eq. cbn [mbind option_bind]. rewrite Eq in Hrc1.
  destruct q as [|p' q].
  - rewrite Z.eqb_refl. destruct (deleteFrame_ok ext (flat (m_frames v ++ option_list (m_waitingFrame v))) (mkFrame (keyFrame f) b) rc1) as (rc' & -> & Hrc');
      [by unfold pkts; cbn; rewrite Eq|]. cbn [mbind option_bind]. do 2 eexists. split; [done|]. rewrite Eh. split; [|by split].
    apply not_elem_of_cons in S3 as [_ S3]. by split.
  - assert (Hp' : p' <> NULL) by (intros ->; apply S3; right; left). rewrite (proj2 (Z.eqb_neq _ _) Hp'). do 2 eexists. split; [done|].
    set (f' := mkFrame (keyFrame f) b). set (v' := setQueue _ _ _).
    assert (Ef' : pkts f' = p' :: q) by done.
    assert (Eh' : held v' = (p' :: q) ++ flat (m_frames v ++ option_list (m_waitingFrame v))).
    { unfold held, v'. cbn [m_sendingFrame m_frames m_waitingFrame setQueue setTotals]. by rewrite flat_app, flat_opt, Ef'. }
    rewrite Eh, Eh'. split; [|by split].
    apply not_elem_of_cons in S3 as [_ S3]. assert (Hf' : fine pk f').
    { split_and!; [done|by unfold f'; cbn; rewrite Eb|]. rewrite Ef'. rewrite Ep, (total_cons pk p) in Hlim. pose proof (Hsize p). lia. }
    split; [by constructor|constructor; [by rewrite Ef'|done]|by rewrite Eh'].
Qed.

Lemma front_safe v rc : safe v -> rc_ok ext (held v) rc ->
  exists p v' rc', GetFront v rc = Some (p, v', rc') /\ safe v' /\ rc_ok ext (held v') rc' /\ held v' = held v /\
    (p <> NULL -> exists v'' rc'', PopFrontRelease pk p v' rc' = Some (v'', rc'') /\ safe v'' /\ rc_ok ext (held v'') rc'' /\ held v = p :: held v'').
Proof.
  intros Hs Hrc. pose proof Hs as [S1 S2 S3]. unfold GetFront. destruct (m_sendingFrame v) as [f|] eqn:Ef.
  - apply Forall_cons in S1 as [Hf _]. apply Forall_cons in S2 as [Hne _]. destruct (front_of f Hf Hne) as (p & q & Ep & ->). cbn [mbind option_bind].
    destruct (pop_safe v rc f p q Hs Hrc Ef Ep) as (v' & rc' & E & H1 & H2 & H3).
    assert (Hp : p <> NULL) by (intros ->; apply S3; rewrite H3; left). rewrite (proj2 (Z.eqb_neq _ _) Hp). cbn [negb]. exists p, v, rc. split_and!; try done.
    intros _. by exists v', rc'.
  - unfold nextFrame. destruct (m_frames v) as [|f l] eqn:El; cbn [mbind option_bind].
    { exists NULL, v, rc. by split_and!. }
    cbn [option_list app] in S1, S2. apply Forall_cons in S1 as [Hf S1]. apply Forall_cons in S2 as [Hne S2].
    destruct (front_of f Hf Hne) as (p & q & Ep & ->). cbn [mbind option_bind]. set (v' := setQueue l (Some f) v).
    assert (Eh : held v' = held v) by (unfold held, v'; cbn [m_sendingFrame m_frames m_waitingFrame setQueue]; by rewrite Ef, El).
    assert (Hs' : safe v') by (split; [by constructor|by constructor|by rewrite Eh]).
    rewrite <- Eh in Hrc. destruct (pop_safe v' rc f p q Hs' Hrc) as (v'' & rc'' & E & H1 & H2 & H3); [done|done|].
    exists p, v', rc. rewrite <- Eh. split_and!; try done. intros _. by exists v'', rc''.
Qed.

Lemma reset_safe v rc : safe v -> rc_ok ext (held v) rc -> exists v' rc', Reset v rc = Some (v', rc') /\ safe v' /\ held v' = [] /\ rc_ok ext [] rc'.
Proof.
  intros Hs Hrc. unfold Reset.
  assert (Hd : forall o rest rc, rc_ok ext (flat (option_list o) ++ rest) rc -> exists rc', deleteFrameOpt o rc = Some rc' /\ rc_ok ext rest rc').
  { intros [f|] rest rc0 H0; cbn [deleteFrameOpt]; [|by exists rc0]. rewrite flat_opt in H0. by apply deleteFrame_ok. }
  destruct (Hd (m_waitingFrame v) (flat (m_frames v) ++ flat (option_list (m_sendingFrame v))) rc) as (rc1 & -> & H1).
  { eapply rc_ok_perm; [|exact Hrc]. unfold held. rewrite !flat_app. solve_Permutation. }
  cbn [mbind option_bind]. destruct (deleteFrames_ok (m_frames v) _ rc1 H1) as (rc2 & -> & H2). cbn [mbind option_bind].
  destruct (Hd (m_sendingFrame v) [] rc2) as (rc3 & -> & H3); [by rewrite app_nil_r|]. cbn [mbind option_bind]. do 2 eexists. split; [done|].
  split; [|done]. split; cbn; try done. by apply not_elem_of_nil.
Qed.

Lemma init_safe : safe init.
Proof. split; cbn; try done. by apply not_elem_of_nil. Qed.
End safe.
End VideoSafe.

(** ** All three keep the promise *)

Module BucketsLawful.
Import Buckets BucketSpec BucketLemmas BucketTheorems.

Section laws.
Context (pk : Z -> CRtpPacket.t) (Hsize : forall p, 0 < CRtpPacket.GetPayloadSize (pk p) <= MAX_PAYLOAD_SIZE).


Definition held (b : t) : list Z := match b with Plain b | Audio b => CRtpBucket.m_packets b | Video v => VideoSafe.held v end.
Record plain (b : CRtpBucket.t) : Prop := mkPlain {
  pl_weighed : weighed pk b;
  pl_redline : 0 < CRtpBucket.m_redlineBytes b <= 2 ^ 62;
  pl_bound : CRtpBucket.m_totalBytes b < 2 ^ 62 + MAX_PAYLOAD_SIZE;
  pl_null : NULL ∉ CRtpBucket.m_packets b
}.
Definition ok (b : t) : Prop := match b with Plain b | Audio b => plain b | Video v => VideoSafe.safe pk v end.

Lemma plain_good ext b rc : plain b -> rc_ok ext (CRtpBucket.m_packets b) rc -> good pk ext (2 ^ 62) b rc.
Proof. intros [? ? ? ?] ?. split; rewrite ?app_nil_r; done. Qed.
Lemma good_plain ext b rc : good pk ext (2 ^ 62) b rc -> plain b /\ rc_ok ext (CRtpBucket.m_packets b) rc.
Proof. intros [? ? ? H ?]. rewrite app_nil_r in H. done. Qed.

Lemma dropOld_suffix redline q : exists old, q = old ++ dropOld pk redline q.
Proof. induction q as [|p q (old & E)]; cbn [dropOld]; [by exists []|]. destruct (_ >=? _); [exists (p :: old); by rewrite E at 1|by exists []]. Qed.

Lemma spec_push audio redline q p : snd (specStep pk audio (redline, q) (OPush p)) `sublist_of` q ++ [p].
Proof.
  cbn [specStep]. destruct (p =? NULL); [by apply sublist_inserts_r|]. destruct audio; cbn [snd].
  - destruct (dropOld_suffix redline q) as [old E]. rewrite E at 2. rewrite <- app_assoc. by apply sublist_inserts_l.
  - destruct (_ >=? _); [by apply sublist_inserts_r|done].
Qed.

Lemma plain_push (audio : bool) ext b rc p : plain b -> rc_ok ext (CRtpBucket.m_packets b) rc -> p <> NULL -> (0 < ext p)%nat ->
  exists ret b' rc', (if audio then CRtpAudioBucket.PushBackAddRef pk p b rc else CRtpBucket.PushBackAddRef pk p b rc) = Some (ret, b', rc') /\
    plain b' /\ rc_ok ext (CRtpBucket.m_packets b') rc' /\ CRtpBucket.m_packets b' `sublist_of` CRtpBucket.m_packets b ++ [p].
Proof.
  intros Hb Hrc Hp He. destruct (exec_push pk Hsize ext (2 ^ 62) ltac:(done) audio p b rc (plain_good ext b rc Hb Hrc)) as (b' & rc' & E & Hg & Es); [by right|].
  cbn [exec] in E. destruct (if audio then _ else _) as [[[ret b1] rc1]|]; [|done]. injection E as <- <-. apply good_plain in Hg as [H1 H2].
  exists ret, b1, rc1. split_and!; try done. change (CRtpBucket.m_packets b1) with (snd (CRtpBucket.m_redlineBytes b1, CRtpBucket.m_packets b1)).
  rewrite Es. apply spec_push.
Qed.

Lemma plain_front ext b rc : plain b -> rc_ok ext (CRtpBucket.m_packets b) rc -> exists p, CRtpBucket.GetFront b = Some p /\
  (p <> NULL -> exists b' rc', CRtpBucket.PopFrontRelease pk p b rc = Some (b', rc') /\ plain b' /\ rc_ok ext (CRtpBucket.m_packets b') rc' /\
     CRtpBucket.m_packets b = p :: CRtpBucket.m_packets b').
Proof.
  intros Hb Hrc. rewrite (weighed_front pk Hsize b (pl_weighed _ Hb)). eexists. split; [done|]. intros Hn.
  destruct (CRtpBucket.m_packets b) as [|p q] eqn:Eq; [done|].
  destruct (exec_pop pk Hsize ext (2 ^ 62) false p b rc (plain_good ext b rc Hb ltac:(by rewrite Eq))) as (b' & rc' & E & Hg & Es).
  cbn [exec] in E. cbn [specStep] in Es. rewrite Eq, Z.eqb_refl in Es. apply good_plain in Hg as [H1 H2]. exists b', rc'. split_and!; try done.
  by injection Es as _ ->.
Qed.

Lemma plain_reset ext b rc : plain b -> rc_ok ext (CRtpBucket.m_packets b) rc ->
  exists b' rc', CRtpBucket.Reset b rc = Some (b', rc') /\ plain b' /\ CRtpBucket.m_packets b' = [] /\ rc_ok ext [] rc'.
Proof.
  intros [H1 H2 H3 H4] Hrc. destruct (reset_ok ext [] b rc) as (rc' & -> & Hrc'); [by rewrite app_nil_r|]. do 2 eexists. split; [done|].
  split; [|done]. split; cbn; try done. by apply not_elem_of_nil.
Qed.

#[export, refine] Instance buckets_lawful : @BucketLaws t (buckets pk) := {| bk_held := held; bk_ok := ok |}.
Proof.
  - intros ext [b|b|v] rc p Hb Hrc Hp He; cbn [ok held PushBackAddRef buckets] in *.
    + destruct (plain_push false ext b rc p Hb Hrc Hp He) as (ret & b' & rc' & -> & H). by exists ret, (Plain b'), rc'.
    + destruct (plain_push true ext b rc p Hb Hrc Hp He) as (ret & b' & rc' & -> & H). by exists ret, (Audio b'), rc'.
    + destruct (VideoSafe.push_safe pk Hsize ext v rc p Hb Hrc Hp He) as (ret & v' & rc' & -> & H). by exists ret, (Video v'), rc'.
  - intros ext [b|b|v] rc Hb Hrc; cbn [ok held GetFront PopFrontRelease buckets] in *.
    + destruct (plain_front ext b rc Hb Hrc) as (p & -> & Hp). exists p, (Plain b), rc. split_and!; try done. intros Hn.
      destruct (Hp Hn) as (b' & rc' & -> & H). by exists (Plain b'), rc'.
    + destruct (plain_front ext b rc Hb Hrc) as (p & -> & Hp). exists p, (Audio b), rc. split_and!; try done. intros Hn.
      change (CRtpAudioBucket.PopFrontRelease pk p b rc) with (CRtpBucket.PopFrontRelease pk p b rc).
      destruct (Hp Hn) as (b' & rc' & -> & H). by exists (Audio b'), rc'.
    + destruct (VideoSafe.front_safe pk Hsize ext v rc Hb Hrc) as (p & v' & rc' & -> & H1 & H2 & H3 & H4). exists p, (Video v'), rc'. split_and!; try done. intros Hn.
      destruct (H4 Hn) as (v'' & rc'' & -> & H). by exists (Video v''), rc''.
  - intros ext [b|b|v] rc Hb Hrc; cbn [ok held Reset buckets] in *.
    + destruct (plain_reset ext b rc Hb Hrc) as (b' & rc' & -> & H). by exists (Plain b'), rc'.
    + destruct (plain_reset ext b rc Hb Hrc) as (b' & rc' & -> & H). by exists (Audio b'), rc'.
    + destruct (VideoSafe.reset_safe pk ext v rc Hb Hrc) as (v' & rc' & -> & H). by exists (Video v'), rc'.
  - intros bytes frames b Hb Hbytes.
    assert (Hpl : forall b, plain b -> plain (CRtpBucket.SetRedline bytes frames b) /\ CRtpBucket.m_packets (CRtpBucket.SetRedline bytes frames b) = CRtpBucket.m_packets b).
    { intros b0 [H1 H2 H3 H4]. unfold CRtpBucket.SetRedline. rewrite Z.gtb_ltb. destruct (Z.ltb_spec 0 bytes); [|done]. split; [|done]. by split. }
    destruct b as [b|b|v]; cbn [ok held SetRedline buckets] in *; [by apply Hpl|by apply Hpl|].
    split; [|done]. by apply (VideoSafe.same_safe pk v).
Defined.

Lemma new_bucket_ok k : ok (create k) /\ held (create k) = [].
Proof.
  split; [|by destruct k]. destruct k; cbn [ok create].
  - split; cbn; try done. by apply not_elem_of_nil.
  - split; cbn; try done. by apply not_elem_of_nil.
  - apply VideoSafe.init_safe.
Qed.
End laws.
End BucketsLawful.
