(* ===== verification/RtpWrapper.v ===== *)
(** * The session wrapper ([rtp_session_wrapper.cpp])

    What [CreateRtpSessionWrapper] gives: a session with a bucket in front of it for the
    packets that it cannot send yet, and, for datagrams of audio and video, a reordering
    buffer behind it.  The wrapper is the observer of its session and has one of its own.

    Each method is one step on the members and the packets in memory, with the calls that it
    makes as effects.  What the session answers, the clock, and the objects that the calls
    create are arguments.  The calls of the observer are the last thing that a method does
    with the members; [OnOkSession] calls [RequestOnSend] afterwards, which is another step.
    The statistics are left out, and the trace of the Windows build with its timer. *)

From S2P Require Import Prelude Bytes RefCount StlMap Reorder RtpPacket RtpSession RtpBucket BucketInterface.

Module CRtpSessionWrapper.
Import CProReorder (store, mkStore, st_rc, st_pkt, withRc).

Definition AUDIO_REORDER_PACKET_COUNT : Z := 2.
Definition VIDEO_REORDER_PACKET_COUNT : Z := 5.
Definition DEFAULT_REORDER_PACKET_COUNT : Z := 1.
Definition isAudio (mmType : Z) : bool := (mmType >=? RTP_MMT_AUDIO_MIN) && (mmType <=? RTP_MMT_AUDIO_MAX).
Definition isVideo (mmType : Z) : bool := (mmType >=? RTP_MMT_VIDEO_MIN) && (mmType <=? RTP_MMT_VIDEO_MAX).

(** [CRtpSessionWrapper]: [active] is whether observer and reactor are set *)
Record t (B : Type) := mkWrapper {
  m_sessionType : Z;
  m_mmType : Z;
  active : bool;
  m_session : Z;
  m_bucket : option B;
  m_pushToBucketRet1 : bool;
  m_pushToBucketRet2 : bool;
  m_packetErased : bool;
  m_enableInput : bool;
  m_enableOutput : bool;
  m_onOkCalled : bool;
  m_sendTimerId : Z;
  m_sendDurationMs : Z;
  m_pushTick : Z;
  m_pushPackets : list Z;
  m_reorderInput : CProReorder.t
}.
#[global] Arguments mkWrapper {_}.
#[global] Arguments m_sessionType {_}. #[global] Arguments m_mmType {_}. #[global] Arguments active {_}.
#[global] Arguments m_session {_}. #[global] Arguments m_bucket {_}. #[global] Arguments m_pushToBucketRet1 {_}.
#[global] Arguments m_pushToBucketRet2 {_}. #[global] Arguments m_packetErased {_}. #[global] Arguments m_enableInput {_}.
#[global] Arguments m_enableOutput {_}. #[global] Arguments m_onOkCalled {_}. #[global] Arguments m_sendTimerId {_}.
#[global] Arguments m_sendDurationMs {_}. #[global] Arguments m_pushTick {_}. #[global] Arguments m_pushPackets {_}.
#[global] Arguments m_reorderInput {_}.

(** Calls that only go through to the session *)
Inductive forward := SuspendRecv | ResumeRecv | AddMcastReceiver (ip : list Z) | RemoveMcastReceiver (ip : list Z) | SetRemoteIpAndPort (ip : list Z) (port : Z).

Inductive effect :=
  | CreateSession (session sessionType : Z)
  | BucketPush (packet : Z) (ret : bool)
  | BucketReset
  | SessionSend (packet : Z) (ret : bool)
  | SessionRequestOnSend
  | SessionForward (f : forward)
  | ScheduleMmTimer (timerId : Z)
  | CancelTimers (timerId sendTimerId : Z)
  | DeleteSession (session : Z)
  | ReleaseObserver
  | UpOkSession
  | UpRecvSession (packet : Z)
  | UpSendSession (packetErased : bool)
  | UpCloseSession (errorCode sslCode : Z) (tcpConnected : bool).

Section wrapper.
Context `{Hbucket : IRtpBucket B}.
Local Abbreviation t := (t B).

Definition construct (sessionType mmType : Z) : t :=
  mkWrapper sessionType mmType false 0 None true true false true true false 0 0 0 []
    (CProReorder.SetMaxPacketCount
       (if isAudio mmType then AUDIO_REORDER_PACKET_COUNT else if isVideo mmType then VIDEO_REORDER_PACKET_COUNT else DEFAULT_REORDER_PACKET_COUNT)
       CProReorder.init).
Definition CreateInstance (sessionType mmType : Z) : option t := if mmType =? 0 then None else Some (construct sessionType mmType).

(** Changes of groups of members *)
Definition setObjects (sessionType : Z) (a : bool) (session : Z) (bucket : option B) (s : t) : t :=
  mkWrapper sessionType (m_mmType s) a session bucket (m_pushToBucketRet1 s) (m_pushToBucketRet2 s) (m_packetErased s) (m_enableInput s) (m_enableOutput s)
    (m_onOkCalled s) (m_sendTimerId s) (m_sendDurationMs s) (m_pushTick s) (m_pushPackets s) (m_reorderInput s).
Definition setBucket (b : B) (s : t) : t := setObjects (m_sessionType s) (active s) (m_session s) (Some b) s.
Definition setFlow (ret1 ret2 erased : bool) (s : t) : t :=
  mkWrapper (m_sessionType s) (m_mmType s) (active s) (m_session s) (m_bucket s) ret1 ret2 erased (m_enableInput s) (m_enableOutput s)
    (m_onOkCalled s) (m_sendTimerId s) (m_sendDurationMs s) (m_pushTick s) (m_pushPackets s) (m_reorderInput s).
Definition setEnabled (input output onOk : bool) (s : t) : t :=
  mkWrapper (m_sessionType s) (m_mmType s) (active s) (m_session s) (m_bucket s) (m_pushToBucketRet1 s) (m_pushToBucketRet2 s) (m_packetErased s) input output
    onOk (m_sendTimerId s) (m_sendDurationMs s) (m_pushTick s) (m_pushPackets s) (m_reorderInput s).
Definition setTimed (timerId duration tick : Z) (packets : list Z) (s : t) : t :=
  mkWrapper (m_sessionType s) (m_mmType s) (active s) (m_session s) (m_bucket s) (m_pushToBucketRet1 s) (m_pushToBucketRet2 s) (m_packetErased s) (m_enableInput s)
    (m_enableOutput s) (m_onOkCalled s) timerId duration tick packets (m_reorderInput s).
Definition setPackets (packets : list Z) (s : t) : t := setTimed (m_sendTimerId s) (m_sendDurationMs s) (m_pushTick s) packets s.
Definition setReorder (r : CProReorder.t) (s : t) : t :=
  mkWrapper (m_sessionType s) (m_mmType s) (active s) (m_session s) (m_bucket s) (m_pushToBucketRet1 s) (m_pushToBucketRet2 s) (m_packetErased s) (m_enableInput s)
    (m_enableOutput s) (m_onOkCalled s) (m_sendTimerId s) (m_sendDurationMs s) (m_pushTick s) (m_pushPackets s) r.

(** The guard of nearly all methods *)
Definition ready (s : t) : bool := active s && negb (m_session s =? 0) && bool_decide (m_bucket s <> None).

(** A call on counted objects. *)
Definition onRc {A : Type} (f : gmap Z nat -> option (A * gmap Z nat)) (st : store) : option (A * store) :=
  '(x, rc) ← f (st_rc st); Some (x, mkStore rc (st_pkt st)).

(** [Init]; [sysBucket] is what [CreateRtpBucket] gives, [bucket] the one of the arguments,
    [session] what the call for the type of session gives *)
Definition Init (sessionType : Z) (sysBucket bucket : option B) (session : Z) (s : t) (st : store) : option (bool * t * store * list effect) :=
  if (sessionType <? RTP_ST_UDPCLIENT) || (sessionType >? RTP_ST_MCAST_EX) then Some (false, s, st, []) else
  if active s || negb (m_session s =? 0) || bool_decide (m_bucket s <> None) then Some (false, s, st, []) else
  match sysBucket with
  | None => Some (false, s, st, [])
  | Some sys =>
      let create := [CreateSession session sessionType] in
      if session =? 0 then st ← withRc (Destroy sys) st; Some (false, s, st, create) else
      st ← match bucket with None => Some st | Some _ => withRc (Destroy sys) st end;
      Some (true, setObjects sessionType true session (Some (default sys bucket)) s, st, create)
  end.

(** [Fini] *)
Definition Fini (s : t) (st : store) : option (t * store * list effect) :=
  match m_bucket s with
  | None => Some (s, st, [])
  | Some b =>
      if negb (ready s) then Some (s, st, []) else
      '(r, st) ← CProReorder.Reset (m_reorderInput s) st;
      st ← withRc (ReleaseAll (m_pushPackets s)) st;
      st ← withRc (Destroy b) st;
      Some (setReorder r (setTimed 0 (m_sendDurationMs s) (m_pushTick s) [] (setObjects (m_sessionType s) false 0 None s)), st,
            [CancelTimers 0 (m_sendTimerId s); DeleteSession (m_session s); ReleaseObserver])
  end.

(** The end of both [SendPacketUnlock]: the packet at the front goes to the session, which
    answers [sends] *)
Definition sendFront (sends : bool) (b : B) (s : t) (st : store) : option (bool * t * store * list effect) :=
  '((packet, b), st) ← onRc (fun rc => '(p, b, rc) ← GetFront b rc; Some ((p, b), rc)) st;
  let s := setBucket b s in
  if packet =? NULL then Some (false, s, st, []) else
  if negb sends then Some (false, s, st, [SessionSend packet false]) else
  '(b, st) ← onRc (PopFrontRelease packet b) st;
  Some (true, setBucket b s, st, [SessionSend packet true]).

(** [SendPacketUnlock(packet)] *)
Definition SendPacketUnlock (packet : Z) (sends : bool) (s : t) (st : store) : option (bool * t * store * list effect) :=
  match m_bucket s with
  | None => Some (false, s, st, [])
  | Some b =>
      if (packet =? NULL) || (m_session s =? 0) then Some (false, s, st, []) else
      '((ret, b), st) ← onRc (fun rc => '(ret, b, rc) ← PushBackAddRef packet b rc; Some ((ret, b), rc)) st;
      let '(erased, request) :=
        if m_pushToBucketRet1 s && negb ret then (true, [SessionRequestOnSend])
        else if negb (m_pushToBucketRet1 s) && ret then (false, [])
        else (m_packetErased s, []) in
      '(_, s, st, effects) ← sendFront sends b (setFlow ret ret erased s) st;
      Some (ret, s, st, [BucketPush packet ret] ++ request ++ effects)
  end.

(** [SendPacketUnlock()] *)
Definition SendNextUnlock (sends : bool) (s : t) (st : store) : option (bool * t * store * list effect) :=
  match m_bucket s with
  | None => Some (false, s, st, [])
  | Some b => if m_session s =? 0 then Some (false, s, st, []) else sendFront sends b s st
  end.

(** [SendPacket] *)
Definition SendPacket (packet : Z) (handshaking sends : bool) (s : t) (st : store) : option (bool * t * store * list effect) :=
  if packet =? NULL then Some (false, s, st, []) else
  if negb (ready s) then Some (false, s, st, []) else
  if negb handshaking && negb (m_enableOutput s) then Some (false, s, st, []) else
  SendPacketUnlock packet sends s st.

(** [SendPacketByTimer]; [timerId] is what [ScheduleMmTimer] gives *)
Definition SendPacketByTimer (packet sendDurationMs : Z) (handshaking : bool) (timerId tick : Z) (s : t) (st : store) : option (bool * t * store * list effect) :=
  if packet =? NULL then Some (false, s, st, []) else
  if negb (ready s) then Some (false, s, st, []) else
  if negb handshaking && negb (m_enableOutput s) then Some (false, s, st, []) else
  let '(sendTimerId, schedule) := if m_sendTimerId s =? 0 then (timerId, [ScheduleMmTimer timerId]) else (m_sendTimerId s, []) in
  st ← withRc (AddRef packet) st;
  Some (true, setTimed sendTimerId sendDurationMs tick (m_pushPackets s ++ [packet]) s, st, schedule).

(** The calls that go through *)
Definition Forward (f : forward) (s : t) : list effect := if negb (ready s) then [] else [SessionForward f].
Definition RequestOnSend (s : t) : list effect := if negb (ready s) then [] else [SessionRequestOnSend].

(** [EnableInput] *)
Definition EnableInput (enable : bool) (s : t) (st : store) : option (t * store * list effect) :=
  if negb (ready s) then Some (s, st, []) else
  if Bool.eqb enable (m_enableInput s) then Some (s, st, []) else
  '(r, st) ← CProReorder.Reset (m_reorderInput s) st;
  Some (setReorder r (setEnabled enable (m_enableOutput s) (m_onOkCalled s) s), st, []).

(** [EnableOutput] *)
Definition EnableOutput (enable : bool) (s : t) (st : store) : option (t * store * list effect) :=
  match m_bucket s with
  | None => Some (s, st, [])
  | Some b =>
      if negb (ready s) then Some (s, st, []) else
      if Bool.eqb enable (m_enableOutput s) then Some (s, st, []) else
      '(b, st) ← onRc (Reset b) st;
      st ← withRc (ReleaseAll (m_pushPackets s)) st;
      Some (setPackets [] (setFlow true true false (setBucket b (setEnabled (m_enableInput s) enable (m_onOkCalled s) s))), st, [BucketReset])
  end.

(** [SetOutputRedline], [GetOutputRedline] and the cached bytes and frames of [GetFlowctrlInfo] *)
Definition SetOutputRedline (redlineBytes redlineFrames : Z) (s : t) : t :=
  match m_bucket s with Some b => if negb (ready s) then s else setBucket (SetRedline redlineBytes redlineFrames b) s | None => s end.
Definition GetOutputRedline (s : t) : Z * Z := match m_bucket s with Some b => GetRedline b | None => (0, 0) end.
Definition GetCached (s : t) : Z * Z := match m_bucket s with Some b => GetFlowctrlInfo b | None => (0, 0) end.

(** [OnOkSession], up to its call of [RequestOnSend] *)
Definition OnOkSession (session : Z) (s : t) : t * list effect :=
  if session =? 0 then (s, []) else
  if negb (ready s) then (s, []) else
  if negb (session =? m_session s) then (s, []) else
  (setEnabled (m_enableInput s) (m_enableOutput s) true s, [UpOkSession]).

(** The loop over [PopFront], which reads the clock each time; it ends with the fuel of one
    more than the buffered packets *)
Fixpoint popAll (fuel : nat) (clock : nat -> Z) (r : CProReorder.t) (st : store) : option (list Z * CProReorder.t) :=
  match fuel with
  | O => None
  | S fuel =>
      '(packet, r) ← CProReorder.PopFront (clock fuel) r st;
      if packet =? NULL then Some ([], r) else
      '(packets, r) ← popAll fuel clock r st;
      Some (packet :: packets, r)
  end.

(** Packets of a stream, and what is neither audio nor video, are not reordered *)
Definition inOrder (s : t) : bool :=
  (m_sessionType s =? RTP_ST_TCPCLIENT) || (m_sessionType s =? RTP_ST_TCPSERVER) || (m_sessionType s =? RTP_ST_TCPCLIENT_EX) ||
  (m_sessionType s =? RTP_ST_TCPSERVER_EX) || (m_sessionType s =? RTP_ST_SSLCLIENT_EX) || (m_sessionType s =? RTP_ST_SSLSERVER_EX) ||
  negb (isAudio (m_mmType s)) && negb (isVideo (m_mmType s)).

(** [OnRecvSession] *)
Definition OnRecvSession (session packet tick : Z) (clock : nat -> Z) (s : t) (st : store) : option (t * store * list effect) :=
  if (session =? 0) || (packet =? NULL) then Some (s, st, []) else
  if negb (ready s) then Some (s, st, []) else
  if negb (session =? m_session s) then Some (s, st, []) else
  if negb (m_enableInput s) then Some (s, st, []) else
  if inOrder s then
    st ← withRc (AddRef packet) st;
    st ← withRc (Release packet) st;
    Some (s, st, [UpRecvSession packet])
  else
    '(r, st) ← CProReorder.PushBack packet tick (m_reorderInput s) st;
    '(packets, r) ← popAll (S (length (CProReorder.m_seq64ToPacket r))) clock r st;
    st ← withRc (ReleaseAll packets) st;
    Some (setReorder r s, st, UpRecvSession <$> packets).

(** [OnSendSession] *)
Definition OnSendSession (session : Z) (sends : bool) (s : t) (st : store) : option (t * store * list effect) :=
  if session =? 0 then Some (s, st, []) else
  if negb (ready s) then Some (s, st, []) else
  if negb (session =? m_session s) then Some (s, st, []) else
  '(ret, s, st, effects) ← SendNextUnlock sends s st;
  if ret && negb (m_packetErased s) then Some (s, st, effects) else
  if negb (m_onOkCalled s) then Some (s, st, effects) else
  Some (setFlow (m_pushToBucketRet1 s) (m_pushToBucketRet2 s) false s, st, effects ++ [UpSendSession (m_packetErased s)]).

(** [OnCloseSession] *)
Definition OnCloseSession (session errorCode sslCode : Z) (tcpConnected : bool) (s : t) : t * list effect :=
  if session =? 0 then (s, []) else
  if negb (ready s) then (s, []) else
  if negb (session =? m_session s) then (s, []) else
  (setObjects (m_sessionType s) (active s) 0 (m_bucket s) s, [UpCloseSession errorCode sslCode tcpConnected; DeleteSession session]).

(** The conversion to a signed type of [w] bits *)
Definition signed (w x : Z) : Z := if wrap w x <? 2 ^ (w - 1) then wrap w x else wrap w x - 2 ^ w.

(** The number of packets that a tick of the timer sends *)
Definition maxSendCount (tick : Z) (s : t) : Z :=
  let sendDurationMs := signed 64 (m_pushTick s + m_sendDurationMs s - tick) in
  let sendDurationMs := if sendDurationMs <? 1 then 1 else sendDurationMs in
  let maxSendCount := signed 64 (u64 (Z.of_nat (length (m_pushPackets s)) + sendDurationMs / 2) / sendDurationMs) in
  signed 32 (if maxSendCount <? 1 then 1 else maxSendCount).

(** Its loop; the session answers [sends i] *)
Fixpoint sendSome (n : nat) (sends : nat -> bool) (s : t) (st : store) : option (t * store * list effect) :=
  match n with
  | O => Some (s, st, [])
  | S n =>
      match m_pushPackets s with
      | [] => Some (s, st, [])
      | packet :: packets =>
          '(_, s, st, effects) ← SendPacketUnlock packet (sends n) (setPackets packets s) st;
          st ← withRc (Release packet) st;
          '(s, st, more) ← sendSome n sends s st;
          Some (s, st, effects ++ more)
      end
  end.

(** [OnTimer] *)
Definition OnTimer (timerId tick : Z) (sends : nat -> bool) (s : t) (st : store) : option (t * store * list effect) :=
  if timerId =? 0 then Some (s, st, []) else
  if negb (ready s) then Some (s, st, []) else
  if negb (timerId =? m_sendTimerId s) then Some (s, st, []) else
  sendSome (Z.to_nat (maxSendCount tick s)) sends s st.

End wrapper.
End CRtpSessionWrapper.

(** ** What a wrapper does in any run *)

Module WrapperRuns.
Import CRtpSessionWrapper.
Import CProReorder (store, mkStore, st_rc, st_pkt, withRc).

Section runs.
Context `{Hbucket : IRtpBucket B}.
Local Abbreviation t := (t B).

Inductive call :=
  | CInit (sessionType : Z) (sysBucket bucket : option B) (session : Z)
  | CFini
  | CSendPacket (packet : Z) (handshaking sends : bool)
  | CSendPacketByTimer (packet sendDurationMs : Z) (handshaking : bool) (timerId tick : Z)
  | CForward (f : forward)
  | CRequestOnSend
  | CEnableInput (enable : bool)
  | CEnableOutput (enable : bool)
  | CSetOutputRedline (redlineBytes redlineFrames : Z)
  | COkSession (session : Z)
  | CRecvSession (session packet tick : Z) (clock : nat -> Z)
  | CSendSession (session : Z) (sends : bool)
  | CCloseSession (session errorCode sslCode : Z) (tcpConnected : bool)
  | CTimer (timerId tick : Z) (sends : nat -> bool).

Definition exec (c : call) (s : t) (st : store) : option (t * store * list effect) :=
  match c with
  | CInit sessionType sysBucket bucket session => '(_, s, st, l) ← Init sessionType sysBucket bucket session s st; Some (s, st, l)
  | CFini => Fini s st
  | CSendPacket packet handshaking sends => '(_, s, st, l) ← SendPacket packet handshaking sends s st; Some (s, st, l)
  | CSendPacketByTimer packet sendDurationMs handshaking timerId tick =>
      '(_, s, st, l) ← SendPacketByTimer packet sendDurationMs handshaking timerId tick s st; Some (s, st, l)
  | CForward f => Some (s, st, Forward f s)
  | CRequestOnSend => Some (s, st, RequestOnSend s)
  | CEnableInput enable => EnableInput enable s st
  | CEnableOutput enable => EnableOutput enable s st
  | CSetOutputRedline redlineBytes redlineFrames => Some (SetOutputRedline redlineBytes redlineFrames s, st, [])
  | COkSession session => let '(s, l) := OnOkSession session s in Some (s, st, l)
  | CRecvSession session packet tick clock => OnRecvSession session packet tick clock s st
  | CSendSession session sends => OnSendSession session sends s st
  | CCloseSession session errorCode sslCode tcpConnected => let '(s, l) := OnCloseSession session errorCode sslCode tcpConnected s in Some (s, st, l)
  | CTimer timerId tick sends => OnTimer timerId tick sends s st
  end.
Fixpoint run (cs : list call) (s : t) (st : store) : option (t * store * list effect) :=
  match cs with
  | [] => Some (s, st, [])
  | c :: cs => '(s, st, l) ← exec c s st; '(s, st, l') ← run cs s st; Some (s, st, l ++ l')
  end.

(** What was pushed to the bucket and what went to the session. *)
Definition pushedOf (l : list effect) : list Z := concat ((fun e => match e with BucketPush p _ => [p] | _ => [] end) <$> l).
Definition sentOf (l : list effect) : list Z := concat ((fun e => match e with SessionSend p true => [p] | _ => [] end) <$> l).
Definition isClose (e : effect) : bool := match e with UpCloseSession _ _ _ => true | _ => false end.

(** How the observer learns that packets are refused: [last] is whether the last packet was
    taken, [owed] whether it has still to be told that they are refused.  The session is
    asked for a call at once when that begins. *)
Fixpoint told (last owed : bool) (l : list effect) : option (bool * bool) :=
  match l with
  | [] => Some (last, owed)
  | BucketPush _ ret :: l =>
      if last && negb ret then match l with SessionRequestOnSend :: l => told false true l | _ => None end
      else if negb last && ret then told true false l
      else told last owed l
  | BucketReset :: l => told true false l
  | UpSendSession packetErased :: l => if Bool.eqb packetErased owed then told last false l else None
  | _ :: l => told last owed l
  end.

Lemma told_app x l1 l2 y : told (fst x) (snd x) l1 = Some y -> told (fst x) (snd x) (l1 ++ l2) = told (fst y) (snd y) l2.
Proof.
  revert x. cut (forall n l1 x, (length l1 <= n)%nat -> told (fst x) (snd x) l1 = Some y -> told (fst x) (snd x) (l1 ++ l2) = told (fst y) (snd y) l2).
  { intros H x. by apply (H (length l1)). }
  induction n as [|n IH]; intros [|e l] x Hn; cbn [told app]; try (intros [= <-]; done); [cbn in Hn; lia|]. cbn [length] in Hn.
  destruct e; try (intros H; apply (IH l x); [lia|done]).
  - destruct (fst x && negb ret).
    + destruct l as [|[] l]; try done. cbn [app]. intros H. apply (IH l (false, true)); [cbn in Hn; lia|done].
    + destruct (negb (fst x) && ret); intros H; [apply (IH l (true, false)); [lia|done]|apply (IH l x); [lia|done]].
  - intros H. apply (IH l (true, false)); [lia|done].
  - destruct (Bool.eqb packetErased (snd x)); [|done]. intros H. apply (IH l (fst x, false)); [lia|done].
Qed.

(** *** The invariant *)

Section laws.
Context `{!BucketLaws B} (ext : Z -> nat).

Definition heldOf (s : t) : list Z := match m_bucket s with Some b => bk_held b | None => [] end.
Definition mine (s : t) : list Z := heldOf s ++ m_pushPackets s.
Definition queueOf (s : t) : list Z := snd <$> CProReorder.m_seq64ToPacket (m_reorderInput s).
Definition plus (ps : list Z) : Z -> nat := fun q => (ext q + occ q ps)%nat.
Definition owned (p : Z) : Prop := p <> NULL /\ (0 < ext p)%nat.

(** The arguments of the calls: packets that somebody holds, new buckets. *)
Definition new (b : option B) : Prop := match b with Some b => bk_ok b /\ bk_held b = [] | None => True end.
Definition enabled (c : call) : Prop :=
  match c with
  | CInit _ sysBucket bucket _ => new sysBucket /\ new bucket
  | CSendPacket p _ _ | CSendPacketByTimer p _ _ _ _ | CRecvSession _ p _ _ => p = NULL \/ owned p
  | CSetOutputRedline redlineBytes _ => redlineBytes <= 2 ^ 62
  | _ => True
  end.

Record inv (s : t) (st : store) : Prop := mkInv {
  wi_reorder : CProReorder.inv (plus (mine s)) (m_reorderInput s) st;
  wi_bucket : match m_bucket s with
    | Some b => bk_ok b /\ active s = true
    | None => active s = false /\ m_session s = 0 /\ m_pushPackets s = [] /\ queueOf s = []
    end;
  wi_owned : Forall owned (mine s);
  wi_erased : m_packetErased s = true -> m_pushToBucketRet1 s = false
}.

(** What one call does. *)
Record moved (s s' : t) (l : list effect) : Prop := mkMoved {
  mv_sent : sentOf l ++ heldOf s' `sublist_of` heldOf s ++ pushedOf l;
  mv_told : told (m_pushToBucketRet1 s) (m_packetErased s) l = Some (m_pushToBucketRet1 s', m_packetErased s');
  mv_close : Forall (fun e => isClose e = false) l \/
    m_session s' = 0 /\ m_bucket s' <> None /\ exists e1 e2 b session, l = [UpCloseSession e1 e2 b; DeleteSession session]
}.

Lemma logs_app (l l' : list effect) : pushedOf (l ++ l') = pushedOf l ++ pushedOf l' /\ sentOf (l ++ l') = sentOf l ++ sentOf l'.
Proof. unfold pushedOf, sentOf. by rewrite !fmap_app, !concat_app. Qed.

Lemma rebase ext1 ext2 r st rc : CProReorder.inv ext1 r st -> rc_ok ext2 (snd <$> CProReorder.m_seq64ToPacket r) rc ->
  (forall p, (0 < ext2 p)%nat -> (0 < ext1 p)%nat) -> CProReorder.inv ext2 r (mkStore rc (st_pkt st)).
Proof.
  intros [H1 H2 H3 H4 H5 H6 H7] Hrc He. split; try done. cbn. intros p Hp. apply H5. apply (rc_ok_is_Some _ _ _ _ H4).
  apply (rc_ok_is_Some _ _ _ _ Hrc) in Hp. destruct (Nat.eq_0_gt_0_cases (ext2 p)) as [E|E]; [lia|]. apply He in E. lia.
Qed.
Lemma plus_owned ps ps' : Forall owned ps' -> forall p, (0 < plus ps' p)%nat -> (0 < plus ps p)%nat.
Proof.
  intros Ho p Hp. unfold plus in *. destruct (decide (p ∈ ps')) as [Hin|Hn]; [apply (proj1 (Forall_forall _ _) Ho) in Hin as [_ ?]; lia|].
  assert (occ p ps' = 0%nat) by (destruct (occ p ps') eqn:E; [done|]; exfalso; apply Hn, list_elem_of_In, (count_occ_In Z.eq_dec); unfold occ in E; lia). lia.
Qed.
Lemma plus_frame ps qs rc : rc_ok (plus ps) qs rc <-> rc_ok ext (qs ++ ps) rc.
Proof. unfold plus. by rewrite rc_ok_frame. Qed.
Lemma plus_swap ps qs rc : rc_ok (plus ps) qs rc <-> rc_ok (plus qs) ps rc.
Proof. rewrite !plus_frame. split; apply rc_ok_perm, Permutation_app_comm. Qed.

(** Putting a changed bucket back. *)
Lemma inv_refs s st s' rc : inv s st -> m_reorderInput s' = m_reorderInput s -> rc_ok ext (mine s' ++ queueOf s) rc -> Forall owned (mine s') ->
  CProReorder.inv (plus (mine s')) (m_reorderInput s') (mkStore rc (st_pkt st)).
Proof.
  intros [I1 _ _ _] Er Hrc Ho. rewrite Er. apply (rebase _ _ _ _ _ I1); [|by apply plus_owned].
  apply plus_frame. eapply rc_ok_perm; [apply Permutation_app_comm|done].
Qed.
Lemma inv_total s st : inv s st -> rc_ok ext (mine s ++ queueOf s) (st_rc st).
Proof. intros [[_ _ _ H _ _ _] _ _ _]. apply plus_frame in H. eapply rc_ok_perm; [apply Permutation_app_comm|done]. Qed.

Lemma Forall_sub (P : Z -> Prop) l l' : Forall P l' -> l `sublist_of` l' -> Forall P l.
Proof. intros Hf Hs. apply Forall_forall. intros x Hx. apply (proj1 (Forall_forall _ _) Hf). by eapply elem_of_sublist. Qed.

(** *** Sending *)

Lemma sendFront_ok rest sends b (s : t) st : bk_ok b -> rc_ok ext (bk_held b ++ rest) (st_rc st) ->
  exists ret b' rc l, sendFront sends b s st = Some (ret, setBucket b' s, mkStore rc (st_pkt st), l) /\ bk_ok b' /\ rc_ok ext (bk_held b' ++ rest) rc /\
    sentOf l ++ bk_held b' = bk_held b /\ pushedOf l = [] /\ (forall x, told (fst x) (snd x) l = Some x) /\ Forall (fun e => isClose e = false) l.
Proof.
  intros Hb Hrc. unfold sendFront, onRc. destruct (front_law (plus rest) b (st_rc st) Hb) as (p & b1 & rc1 & -> & H1 & H2 & H3 & H4); [by apply plus_frame|].
  cbn [mbind option_bind]. destruct (Z.eqb_spec p NULL) as [Ep|Ep].
  { exists false, b1, rc1, []. split; [done|]. split; [done|]. split; [by apply plus_frame|]. rewrite H3. split_and!; try done. by intros []. }
  destruct sends; cbn [negb].
  - destruct (H4 Ep) as (b2 & rc2 & E & A1 & A2 & A3). cbn [st_rc]. rewrite E. cbn [mbind option_bind st_pkt].
    exists true, b2, rc2, [SessionSend p true]. split; [done|]. split; [done|]. split; [by apply plus_frame|]. rewrite A3. split_and!; try done; [by intros []|by repeat constructor].
  - exists false, b1, rc1, [SessionSend p false]. split; [done|]. split; [done|]. split; [by apply plus_frame|]. rewrite H3. split_and!; try done; [by intros []|by repeat constructor].
Qed.

Lemma SendPacketUnlock_ok rest p sends b (s : t) st : m_bucket s = Some b -> m_session s <> 0 -> owned p -> bk_ok b ->
  rc_ok ext (bk_held b ++ rest) (st_rc st) -> (m_packetErased s = true -> m_pushToBucketRet1 s = false) ->
  exists ret erased b' rc l, SendPacketUnlock p sends s st = Some (ret, setBucket b' (setFlow ret ret erased s), mkStore rc (st_pkt st), l) /\
    bk_ok b' /\ rc_ok ext (bk_held b' ++ rest) rc /\ sentOf l ++ bk_held b' `sublist_of` bk_held b ++ [p] /\ pushedOf l = [p] /\
    told (m_pushToBucketRet1 s) (m_packetErased s) l = Some (ret, erased) /\ (erased = true -> ret = false) /\ Forall (fun e => isClose e = false) l.
Proof.
  intros Eb Hs [Hp He] Hb Hrc Her. unfold SendPacketUnlock. rewrite Eb, (proj2 (Z.eqb_neq _ _) Hp), (proj2 (Z.eqb_neq _ _) Hs). cbn [orb]. unfold onRc.
  destruct (push_law (plus rest) b (st_rc st) p Hb) as (ret & b1 & rc1 & -> & H1 & H2 & H3); [by apply plus_frame|done|unfold plus; lia|].
  cbn [mbind option_bind].
  destruct (if m_pushToBucketRet1 s && negb ret then _ else _) as [erased request] eqn:Ef.
  destruct (sendFront_ok rest sends b1 (setFlow ret ret erased s) (mkStore rc1 (st_pkt st)) H1) as (r2 & b2 & rc2 & l2 & -> & A1 & A2 & A3 & A4 & A5 & A6);
    [by apply plus_frame|]. cbn [mbind option_bind st_pkt].
  exists ret, erased, b2, rc2, ([BucketPush p ret] ++ request ++ l2).
  assert (Hreq : request = [] \/ request = [SessionRequestOnSend]) by (destruct (_ && _); [injection Ef as <- <-; by right|destruct (_ && _); injection Ef as <- <-; by left]).
  assert (Hl : sentOf ([BucketPush p ret] ++ request ++ l2) = sentOf l2 /\ pushedOf ([BucketPush p ret] ++ request ++ l2) = [p]).
  { destruct (logs_app [BucketPush p ret] (request ++ l2)) as [-> ->]. destruct (logs_app request l2) as [-> ->]. rewrite A4. by destruct Hreq as [-> | ->]. }
  destruct Hl as [-> ->]. split; [done|]. split; [done|]. split; [done|]. split; [by rewrite A3|]. split; [done|]. split; [|split].
  - cbn [app told]. destruct (m_pushToBucketRet1 s) eqn:E1, ret; cbn [negb andb] in *; injection Ef as <- <-; cbn [app]; first [apply (A5 (true, _))|apply (A5 (false, _))].
  - destruct (m_pushToBucketRet1 s) eqn:E1, ret; cbn [negb andb] in *; injection Ef as <- <-; try done; intros E; by apply Her.
  - repeat (apply Forall_app; split); try done; [by repeat constructor|]. destruct Hreq as [-> | ->]; by repeat constructor.
Qed.

Lemma wrapper_moved_same (s : t) : moved s s [].
Proof. split; [cbn; by rewrite app_nil_r|by destruct (m_packetErased s)|by left]. Qed.
Lemma wrapper_moved_app (s1 s2 s3 : t) l1 l2 : moved s1 s2 l1 -> Forall (fun e => isClose e = false) l1 -> moved s2 s3 l2 ->
  Forall (fun e => isClose e = false) l2 -> moved s1 s3 (l1 ++ l2).
Proof.
  intros [A1 A2 _] A3 [B1 B2 _] B3. destruct (logs_app l1 l2) as [E1 E2]. split.
  - rewrite E1, E2. rewrite <- (assoc_L (++)). etrans; [apply sublist_app; [done|exact B1]|]. rewrite !(assoc_L (++)). by apply sublist_app.
  - apply (told_app (m_pushToBucketRet1 s1, m_packetErased s1) l1 l2) in A2. cbn [fst snd] in A2. by rewrite A2.
  - left. by apply Forall_app.
Qed.
Lemma ready_true (s : t) : ready s = true -> active s = true /\ m_session s <> 0 /\ exists b, m_bucket s = Some b.
Proof.
  unfold ready. intros [[Ha Hs%negb_true_iff%Z.eqb_neq]%andb_true_iff Hb%bool_decide_eq_true]%andb_true_iff.
  split; [done|]. split; [done|]. destruct (m_bucket s) as [b|]; [by exists b|done].
Qed.
Lemma mine_some (s : t) b : m_bucket s = Some b -> mine s = bk_held b ++ m_pushPackets s.
Proof. intros E. unfold mine, heldOf. by rewrite E. Qed.

(** A step that changes nothing but the bucket, the flow and the packets for the timer. *)
Lemma inv_bucket (s s' : t) st rc b' : inv s st -> active s = true -> m_bucket s' = Some b' -> active s' = true -> m_reorderInput s' = m_reorderInput s ->
  bk_ok b' -> rc_ok ext (bk_held b' ++ m_pushPackets s' ++ queueOf s) rc -> Forall owned (bk_held b') -> Forall owned (m_pushPackets s') ->
  (m_packetErased s' = true -> m_pushToBucketRet1 s' = false) -> inv s' (mkStore rc (st_pkt st)).
Proof.
  intros Hi Ha Eb Ha' Er Hb Hrc Ho1 Ho2 He. pose proof (mine_some s' b' Eb) as Em.
  assert (Ho : Forall owned (mine s')) by (rewrite Em; by apply Forall_app).
  split; [|by rewrite Eb|done|done]. apply (inv_refs s); try done. by rewrite Em, <- (assoc_L (++)).
Qed.

Lemma SendPacketUnlock_step (s : t) st p sends : inv s st -> ready s = true -> owned p ->
  exists ret s' st' l, SendPacketUnlock p sends s st = Some (ret, s', st', l) /\ inv s' st' /\ moved s s' l /\ Forall (fun e => isClose e = false) l.
Proof.
  intros Hi Hr Hp. destruct (ready_true s Hr) as (Ha & Hs & b & Eb). pose proof (inv_total s st Hi) as Hrc.
  pose proof (mine_some s b Eb) as Em. rewrite Em, <- (assoc_L (++)) in Hrc. pose proof Hi as [_ I2 I3 I4]. rewrite Eb in I2. destruct I2 as [Hb _].
  rewrite Em in I3. apply Forall_app in I3 as [O1 O2].
  destruct (SendPacketUnlock_ok _ p sends b s st Eb Hs Hp Hb Hrc I4) as (ret & er & b' & rc & l & E & H1 & H2 & H3 & H4 & H5 & H6 & H7).
  do 4 eexists. split; [exact E|]. split; [|split; [|done]].
  - apply (inv_bucket s _ st rc b'); try done. apply (Forall_sub _ _ (bk_held b ++ [p])); [apply Forall_app; split; [done|by constructor]|].
    etrans; [|exact H3]. by apply sublist_inserts_l.
  - split; [|done|by left]. unfold heldOf at 2. rewrite Eb, H4. exact H3.
Qed.

Lemma SendPacket_step (s : t) st p handshaking sends : inv s st -> p = NULL \/ owned p ->
  exists ret s' st' l, SendPacket p handshaking sends s st = Some (ret, s', st', l) /\ inv s' st' /\ moved s s' l.
Proof.
  intros Hi Hp. unfold SendPacket. pose proof (wrapper_moved_same s) as H0.
  destruct (Z.eqb_spec p NULL); [by do 4 eexists|]. destruct Hp as [|Hp]; [done|].
  destruct (ready s) eqn:Hr; cbn [negb]; [|by do 4 eexists]. destruct (negb handshaking && _); [by do 4 eexists|].
  destruct (SendPacketUnlock_step s st p sends Hi Hr Hp) as (ret & s' & st' & l & E & H1 & H2 & _). by exists ret, s', st', l.
Qed.

Lemma ByTimer_step (s : t) st p duration handshaking timerId tick : inv s st -> p = NULL \/ owned p ->
  exists ret s' st' l, SendPacketByTimer p duration handshaking timerId tick s st = Some (ret, s', st', l) /\ inv s' st' /\ moved s s' l.
Proof.
  intros Hi Hp. unfold SendPacketByTimer. pose proof (wrapper_moved_same s) as H0.
  destruct (Z.eqb_spec p NULL); [by do 4 eexists|]. destruct Hp as [|Hp]; [done|].
  destruct (ready s) eqn:Hr; cbn [negb]; [|by do 4 eexists]. destruct (negb handshaking && _); [by do 4 eexists|].
  destruct (ready_true s Hr) as (Ha & Hs & b & Eb). pose proof (inv_total s st Hi) as Hrc.
  pose proof (mine_some s b Eb) as Em. rewrite Em, <- (assoc_L (++)) in Hrc. pose proof Hi as [_ I2 I3 I4]. rewrite Eb in I2. destruct I2 as [Hb _].
  rewrite Em in I3. apply Forall_app in I3 as [O1 O2].
  destruct (if m_sendTimerId s =? 0 then _ else _) as [id schedule] eqn:Ei.
  assert (Hsch : schedule = [] \/ schedule = [ScheduleMmTimer id]) by (destruct (_ =? _); injection Ei as <- <-; by (left + right)).
  unfold withRc. destruct Hp as [Hp Hpe]. destruct (AddRef_ok ext _ _ p Hrc) as (rc & -> & Hrc'); [lia|]. cbn [mbind option_bind].
  do 4 eexists. split; [reflexivity|]. split.
  - apply (inv_bucket s _ st rc b); try done.
    + cbn [m_pushPackets setTimed]. eapply rc_ok_perm; [|exact Hrc']. solve_Permutation.
    + cbn [m_pushPackets setTimed]. apply Forall_app. split; [done|]. by constructor.
  - destruct Hsch as [-> | ->]; (split; [cbn; by rewrite app_nil_r|done|left; by repeat constructor]).
Qed.

Lemma sendSome_step n sends : forall (s : t) st, inv s st -> ready s = true ->
  exists s' st' l, sendSome n sends s st = Some (s', st', l) /\ inv s' st' /\ moved s s' l /\ Forall (fun e => isClose e = false) l /\
    m_pushPackets s' = drop n (m_pushPackets s) /\ pushedOf l = take n (m_pushPackets s).
Proof.
  induction n as [|n IH]; intros s st Hi Hr; cbn [sendSome]; [do 3 eexists; split; [done|]; split; [done|]; split; [apply wrapper_moved_same|by rewrite ?Ep]|].
  destruct (m_pushPackets s) as [|p packets] eqn:Ep; [do 3 eexists; split; [done|]; split; [done|]; split; [apply wrapper_moved_same|by rewrite ?Ep]|].
  destruct (ready_true s Hr) as (Ha & Hs & b & Eb). pose proof (inv_total s st Hi) as Hrc.
  pose proof (mine_some s b Eb) as Em. rewrite Em, <- (assoc_L (++)), Ep in Hrc. pose proof Hi as [_ I2 I3 I4]. rewrite Eb in I2. destruct I2 as [Hb _].
  rewrite Em, Ep in I3. apply Forall_app in I3 as [O1 [Op O2]%Forall_cons].
  destruct (SendPacketUnlock_ok _ p (sends n) b (setPackets packets s) st Eb Hs Op Hb Hrc I4) as (ret & er & b' & rc & l & E & H1 & H2 & H3 & H4 & H5 & H6 & H7).
  rewrite E. cbn [mbind option_bind]. unfold withRc. cbn [st_rc st_pkt].
  destruct (Release_ok ext (bk_held b' ++ packets ++ queueOf s) rc p) as (rc' & -> & Hrc'); [eapply rc_ok_perm; [|exact H2]; solve_Permutation|].
  cbn [mbind option_bind]. set (s2 := setBucket b' _).
  assert (Hi2 : inv s2 (mkStore rc' (st_pkt st))).
  { apply (inv_bucket s _ st rc' b'); try done. apply (Forall_sub _ _ (bk_held b ++ [p])); [apply Forall_app; split; [done|by constructor]|].
    etrans; [|exact H3]. by apply sublist_inserts_l. }
  assert (Hm2 : moved s s2 l) by (split; [unfold heldOf at 2; by rewrite Eb, H4|done|by left]).
  destruct (IH s2 (mkStore rc' (st_pkt st)) Hi2) as (s3 & st3 & l3 & -> & H8 & H9 & H10 & H11 & H12).
  { unfold ready. cbn. rewrite Ha, (proj2 (Z.eqb_neq _ _) Hs). done. }
  cbn [mbind option_bind]. do 3 eexists. split; [done|]. split; [done|]. split; [by apply (wrapper_moved_app s s2 s3)|]. split; [by apply Forall_app|]. split; [done|].
  destruct (logs_app l l3) as [-> _]. rewrite H4, H12. done.
Qed.

Lemma Timer_step (s : t) st timerId tick sends : inv s st -> exists s' st' l, OnTimer timerId tick sends s st = Some (s', st', l) /\ inv s' st' /\ moved s s' l.
Proof.
  intros Hi. unfold OnTimer. pose proof (wrapper_moved_same s) as H0. destruct (timerId =? 0); [by do 3 eexists|].
  destruct (ready s) eqn:Hr; cbn [negb]; [|by do 3 eexists]. destruct (negb _); [by do 3 eexists|].
  destruct (sendSome_step (Z.to_nat (maxSendCount tick s)) sends s st Hi Hr) as (s' & st' & l & E & H1 & H2 & _ & _). by exists s', st', l.
Qed.

(** *** The other methods *)

(** The reordering buffer after a step that keeps everything else. *)
Lemma inv_reorder (s s' : t) st st' : inv s st -> CProReorder.inv (plus (mine s)) (m_reorderInput s') st' -> m_bucket s' = m_bucket s ->
  active s' = active s -> m_session s' = m_session s -> m_pushPackets s' = m_pushPackets s -> m_bucket s <> None ->
  m_packetErased s' = m_packetErased s -> m_pushToBucketRet1 s' = m_pushToBucketRet1 s -> inv s' st'.
Proof.
  intros [I1 I2 I3 I4] Hr Eb Ea Es Ep Hn Ee E1. assert (Em : mine s' = mine s) by (unfold mine, heldOf; by rewrite Eb, Ep).
  split; [by rewrite Em| |by rewrite Em|by rewrite Ee, E1]. rewrite Eb, Ea. destruct (m_bucket s); [done|done].
Qed.
Lemma moved_rest (s s' : t) : heldOf s' = heldOf s -> m_pushToBucketRet1 s' = m_pushToBucketRet1 s -> m_packetErased s' = m_packetErased s -> moved s s' [].
Proof. intros E1 E2 E3. split; [cbn; by rewrite E1, app_nil_r|cbn; by rewrite E2, E3|by left]. Qed.

Lemma EnableInput_step enable (s : t) st : inv s st -> exists s' st' l, EnableInput enable s st = Some (s', st', l) /\ inv s' st' /\ moved s s' l.
Proof.
  intros Hi. unfold EnableInput. pose proof (wrapper_moved_same s) as H0. destruct (ready s) eqn:Hr; cbn [negb]; [|by do 3 eexists].
  destruct (Bool.eqb _ _); [by do 3 eexists|]. destruct (ready_true s Hr) as (Ha & Hs & b & Eb).
  destruct (CProReorder.Reset_correct _ _ _ (wi_reorder _ _ Hi)) as (st' & -> & Hi'). cbn [mbind option_bind].
  do 3 eexists. split; [reflexivity|]. split; [|by apply moved_rest]. apply (inv_reorder s _ st st'); try done. by rewrite Eb.
Qed.

Lemma EnableOutput_step enable (s : t) st : inv s st -> exists s' st' l, EnableOutput enable s st = Some (s', st', l) /\ inv s' st' /\ moved s s' l.
Proof.
  intros Hi. unfold EnableOutput. pose proof (wrapper_moved_same s) as H0. destruct (m_bucket s) as [b|] eqn:Eb; [|by do 3 eexists].
  destruct (ready s) eqn:Hr; cbn [negb]; [|by do 3 eexists]. destruct (Bool.eqb _ _); [by do 3 eexists|].
  destruct (ready_true s Hr) as (Ha & Hs & _). pose proof (inv_total s st Hi) as Hrc. pose proof (mine_some s b Eb) as Em. rewrite Em, <- (assoc_L (++)) in Hrc.
  pose proof (wi_bucket _ _ Hi) as I2. rewrite Eb in I2. destruct I2 as [Hb _]. unfold onRc, withRc.
  destruct (reset_law (plus (m_pushPackets s ++ queueOf s)) b (st_rc st) Hb) as (b' & rc & -> & H1 & H2 & H3); [by apply plus_frame|]. cbn [mbind option_bind st_rc st_pkt].
  apply plus_frame in H3. cbn [app] in H3. destruct (ReleaseAll_ok ext (m_pushPackets s) (queueOf s) rc H3) as (rc' & -> & Hrc'). cbn [mbind option_bind].
  do 3 eexists. split; [reflexivity|]. split.
  - apply (inv_bucket s _ st rc' b'); rewrite ?H2; try done; by constructor.
  - split; [|done|left; by repeat constructor]. unfold heldOf at 1. cbn. rewrite H2. apply sublist_nil_l.
Qed.

Lemma Redline_step bytes frames (s : t) st : inv s st -> bytes <= 2 ^ 62 -> inv (SetOutputRedline bytes frames s) st /\ moved s (SetOutputRedline bytes frames s) [].
Proof.
  intros Hi Hy. unfold SetOutputRedline. destruct (m_bucket s) as [b|] eqn:Eb; [|by split; [|apply wrapper_moved_same]].
  destruct (ready s) eqn:Hr; cbn [negb]; [|by split; [|apply wrapper_moved_same]].
  pose proof (wi_bucket _ _ Hi) as I2. rewrite Eb in I2. destruct I2 as [Hb Ha]. destruct (redline_law bytes frames b Hb Hy) as [H1 H2].
  pose proof Hi as [I1 _ I3 I4]. set (s' := setBucket _ s).
  assert (Eh : heldOf s' = heldOf s) by (unfold heldOf, s'; rewrite Eb; cbn; by rewrite H2).
  assert (Em : mine s' = mine s) by (unfold mine; by rewrite Eh).
  split; [|by apply moved_rest]. split; [by rewrite Em|done|by rewrite Em|done].
Qed.

Lemma Ok_step session (s : t) st : inv s st -> exists s' l, OnOkSession session s = (s', l) /\ inv s' st /\ moved s s' l.
Proof.
  intros Hi. unfold OnOkSession. pose proof (wrapper_moved_same s) as H0. destruct (session =? 0); [by do 2 eexists|].
  destruct (ready s) eqn:Hr; cbn [negb]; [|by do 2 eexists]. destruct (negb _); [by do 2 eexists|].
  do 2 eexists. split; [reflexivity|]. split; [|split; [cbn; by rewrite app_nil_r|done|left; by repeat constructor]].
  destruct Hi as [I1 I2 I3 I4]. by split.
Qed.

(** The packets that leave the reordering buffer are the first ones, and nothing is ready after them. *)
Lemma popAll_ok clock ext' st : forall fuel r, CProReorder.inv ext' r st -> (length (CProReorder.m_seq64ToPacket r) < fuel)%nat ->
  exists packets r', popAll fuel clock r st = Some (packets, r') /\ CProReorder.inv (fun q => ext' q + occ q packets)%nat r' st /\
    snd <$> CProReorder.m_seq64ToPacket r = packets ++ (snd <$> CProReorder.m_seq64ToPacket r').
Proof.
  intros fuel r. revert ext' r. induction fuel as [|fuel IH]; intros ext' r Hi Hl; [lia|]. cbn [popAll].
  assert (Hend : exists packets r', Some (@nil Z, r) = Some (packets, r') /\ CProReorder.inv (fun q => ext' q + occ q packets)%nat r' st /\
    snd <$> CProReorder.m_seq64ToPacket r = packets ++ (snd <$> CProReorder.m_seq64ToPacket r')).
  { exists [], r. split_and!; try done. destruct Hi as [? ? ? Hrc ? ? ?]. split; try done. intros q. rewrite (Hrc q). cbn. by rewrite Nat.add_0_r. }
  pose proof (CProReorder.PopFront_ok ext' r st (clock fuel) Hi) as Hp. destruct (CProReorder.m_seq64ToPacket r) as [|[k p] q] eqn:Eq.
  { rewrite Hp. exact Hend. }
  destruct Hp as (d & Hd & H1 & H2). destruct (decide (CProReorder.ready (clock fuel) k d r)) as [Hr|Hr]; [|rewrite (H2 Hr); exact Hend].
  destruct (H1 Hr) as (-> & Hne & Hi'). cbn [mbind option_bind]. rewrite (proj2 (Z.eqb_neq _ _) Hne).
  destruct (IH _ _ Hi') as (packets & r' & -> & A1 & A2); [cbn in *; lia|]. cbn [mbind option_bind]. exists (p :: packets), r'. split; [done|]. split.
  - destruct A1 as [? ? ? Hrc ? ? ?]. split; try done. intros x. rewrite (Hrc x). unfold ext_add. rewrite occ_cons.
    by replace (ext' x + (if decide (x = p) then 1 else 0) + occ x packets)%nat with (ext' x + ((if decide (x = p) then 1 else 0) + occ x packets))%nat by lia.
  - cbn in A2 |- *. by rewrite A2.
Qed.

Lemma logs_recv packets : sentOf (UpRecvSession <$> packets) = [] /\ pushedOf (UpRecvSession <$> packets) = [] /\
  (forall a b, told a b (UpRecvSession <$> packets) = Some (a, b)) /\ Forall (fun e => isClose e = false) (UpRecvSession <$> packets).
Proof. induction packets as [|p l (H1 & H2 & H3 & H4)]; [done|]. split_and!; try done. by constructor. Qed.

Lemma Recv_step session p tick clock (s : t) st : inv s st -> p = NULL \/ owned p ->
  exists s' st' l, OnRecvSession session p tick clock s st = Some (s', st', l) /\ inv s' st' /\ moved s s' l.
Proof.
  intros Hi Hp. unfold OnRecvSession. pose proof (wrapper_moved_same s) as H0. destruct (session =? 0); cbn [orb]; [by do 3 eexists|].
  destruct (Z.eqb_spec p NULL); [by do 3 eexists|]. destruct Hp as [|[Hne He]]; [done|].
  destruct (ready s) eqn:Hr; cbn [negb]; [|by do 3 eexists]. destruct (negb _); [by do 3 eexists|]. destruct (negb _); [by do 3 eexists|].
  destruct (ready_true s Hr) as (Ha & Hs & b & Eb). pose proof (inv_total s st Hi) as Hrc. unfold withRc.
  assert (Hm : forall s' packets, heldOf s' = heldOf s -> m_pushToBucketRet1 s' = m_pushToBucketRet1 s -> m_packetErased s' = m_packetErased s ->
    moved s s' (UpRecvSession <$> packets)).
  { intros s' packets E1 E2 E3. destruct (logs_recv packets) as (L1 & L2 & L3 & L4). split; [by rewrite L1, L2, E1, app_nil_r|by rewrite L3, E2, E3|by left]. }
  destruct (inOrder s).
  - destruct (AddRef_ok ext _ _ p Hrc) as (rc & -> & Hrc1); [lia|]. cbn [mbind option_bind st_rc st_pkt].
    destruct (Release_ok ext _ rc p Hrc1) as (rc' & -> & Hrc2). cbn [mbind option_bind]. do 3 eexists. split; [reflexivity|].
    split; [|by apply (Hm s [p])]. pose proof Hi as [I1 I2 I3 I4]. split; try done. by apply (inv_refs s).
  - pose proof (wi_reorder _ _ Hi) as I1.
    assert (Hd : exists d, st_pkt st !! p = Some d).
    { destruct (CProReorder.inv_pkt _ _ _ I1 p) as [d Hd]; [|by exists d]. apply (rc_ok_is_Some _ _ _ _ Hrc). lia. }
    destruct Hd as [d Hd]. destruct (CProReorder.PushBack_ok _ _ _ p d tick I1 Hne) as (r & st1 & -> & Hi1 & _); [unfold plus; lia|done|]. cbn [mbind option_bind].
    destruct (popAll_ok clock _ st1 (S (length (CProReorder.m_seq64ToPacket r))) r Hi1) as (packets & r' & -> & Hi2 & _); [lia|]. cbn [mbind option_bind].
    pose proof (CProReorder.inv_rc _ _ _ Hi2) as Hrc2. apply (rc_ok_frame (plus (mine s))) in Hrc2.
    destruct (ReleaseAll_ok (plus (mine s)) packets (snd <$> CProReorder.m_seq64ToPacket r') (st_rc st1)) as (rc & -> & Hrc3);
      [eapply rc_ok_perm; [apply Permutation_app_comm|done]|]. cbn [mbind option_bind].
    do 3 eexists. split; [reflexivity|]. split; [|by apply Hm]. apply (inv_reorder s _ st); try done; [|by rewrite Eb].
    apply (rebase _ _ _ _ _ Hi2 Hrc3). intros q Hq. lia.
Qed.

Lemma Send_step session sends (s : t) st : inv s st -> exists s' st' l, OnSendSession session sends s st = Some (s', st', l) /\ inv s' st' /\ moved s s' l.
Proof.
  intros Hi. unfold OnSendSession. pose proof (wrapper_moved_same s) as H0. destruct (session =? 0); [by do 3 eexists|].
  destruct (ready s) eqn:Hr; cbn [negb]; [|by do 3 eexists]. destruct (negb _); [by do 3 eexists|].
  destruct (ready_true s Hr) as (Ha & Hs & b & Eb). pose proof (inv_total s st Hi) as Hrc.
  pose proof (mine_some s b Eb) as Em. rewrite Em, <- (assoc_L (++)) in Hrc. pose proof Hi as [_ I2 I3 I4]. rewrite Eb in I2. destruct I2 as [Hb _].
  rewrite Em in I3. apply Forall_app in I3 as [O1 O2]. unfold SendNextUnlock. rewrite Eb, (proj2 (Z.eqb_neq _ _) Hs).
  destruct (sendFront_ok _ sends b s st Hb Hrc) as (ret & b' & rc & l & -> & H1 & H2 & H3 & H4 & H5 & H6). cbn [mbind option_bind].
  assert (O1' : Forall owned (bk_held b')) by (rewrite <- H3 in O1; by apply Forall_app in O1 as [_ ?]).
  assert (Hi1 : inv (setBucket b' s) (mkStore rc (st_pkt st))) by by apply (inv_bucket s _ st rc b').
  assert (Hm1 : moved s (setBucket b' s) l).
  { split; [|apply (H5 (m_pushToBucketRet1 s, m_packetErased s))|by left]. unfold heldOf. rewrite Eb, H4, app_nil_r. cbn. by rewrite H3. }
  destruct (ret && _); [by do 3 eexists|]. destruct (negb (m_onOkCalled _)); [by do 3 eexists|]. do 3 eexists. split; [reflexivity|]. split.
  - destruct Hi1 as [J1 J2 J3 J4]. by split.
  - apply (wrapper_moved_app s (setBucket b' s)); try done; [|by repeat constructor]. split; [cbn; by rewrite app_nil_r| |left; by repeat constructor].
    cbn. by rewrite eqb_reflx.
Qed.

Lemma Close_step session e1 e2 b (s : t) st : inv s st -> exists s' l, OnCloseSession session e1 e2 b s = (s', l) /\ inv s' st /\ moved s s' l.
Proof.
  intros Hi. unfold OnCloseSession. pose proof (wrapper_moved_same s) as H0. destruct (session =? 0); [by do 2 eexists|].
  destruct (ready s) eqn:Hr; cbn [negb]; [|by do 2 eexists]. destruct (negb _); [by do 2 eexists|].
  destruct (ready_true s Hr) as (Ha & Hs & bk & Eb). do 2 eexists. split; [reflexivity|]. pose proof Hi as [I1 I2 I3 I4]. split.
  - split; try done. cbn. rewrite Eb in *. done.
  - split; [cbn; by rewrite app_nil_r|done|]. right. split; [done|]. split; [cbn; by rewrite Eb|]. by do 4 eexists.
Qed.

Lemma Fini_step (s : t) st : inv s st -> exists s' st' l, Fini s st = Some (s', st', l) /\ inv s' st' /\ moved s s' l.
Proof.
  intros Hi. unfold Fini. pose proof (wrapper_moved_same s) as H0. destruct (m_bucket s) as [b|] eqn:Eb; [|by do 3 eexists].
  destruct (ready s) eqn:Hr; cbn [negb]; [|by do 3 eexists]. pose proof (mine_some s b Eb) as Em. pose proof Hi as [I1 I2 I3 I4]. rewrite Eb in I2. destruct I2 as [Hb _].
  destruct (CProReorder.Reset_correct _ _ _ I1) as (st1 & -> & Hi1). cbn [mbind option_bind].
  pose proof (CProReorder.inv_rc _ _ _ Hi1) as Hrc. cbn in Hrc. apply plus_frame in Hrc. cbn [app] in Hrc. rewrite Em in Hrc.
  unfold withRc. destruct (ReleaseAll_ok ext (m_pushPackets s) (bk_held b) (st_rc st1)) as (rc1 & -> & Hrc1); [eapply rc_ok_perm; [apply Permutation_app_comm|done]|].
  cbn [mbind option_bind st_rc st_pkt]. unfold Destroy. destruct (reset_law ext b rc1 Hb Hrc1) as (b' & rc2 & -> & _ & _ & Hrc2). cbn [mbind option_bind].
  do 3 eexists. split; [reflexivity|]. split.
  - split; try done. apply (rebase _ _ _ _ _ Hi1); [|intros p; unfold plus, mine; cbn; lia]. cbn. apply plus_frame. done.
  - split; [cbn; apply sublist_nil_l|done|left; by repeat constructor].
Qed.

Lemma Init_step sessionType sysBucket bucket session (s : t) st : inv s st -> new sysBucket -> new bucket ->
  exists ret s' st' l, Init sessionType sysBucket bucket session s st = Some (ret, s', st', l) /\ inv s' st' /\ moved s s' l.
Proof.
  intros Hi Hn1 Hn2. unfold Init. pose proof (wrapper_moved_same s) as H0. destruct (_ || _); [by do 4 eexists|].
  destruct (active s || _ || _) eqn:Eg; [by do 4 eexists|]. apply orb_false_iff in Eg as [[Ea Es%negb_false_iff%Z.eqb_eq]%orb_false_iff Eb%bool_decide_eq_false].
  destruct (m_bucket s) as [b|] eqn:Ebk; [by destruct Eb|]. clear Eb.
  destruct sysBucket as [sys|]; [|by do 4 eexists]. destruct Hn1 as [Hb1 Hh1].
  pose proof Hi as [I1 I2 I3 I4]. rewrite Ebk in I2. destruct I2 as (_ & _ & Ep & Eq).
  assert (Em : mine s = []) by (unfold mine, heldOf; by rewrite Ebk, Ep).
  pose proof (inv_total s st Hi) as Hrc. rewrite Em, Eq in Hrc. cbn [app] in Hrc.
  assert (Hd : exists rc, withRc (Destroy sys) st = Some (mkStore rc (st_pkt st)) /\ rc_ok ext [] rc).
  { unfold withRc, Destroy. destruct (reset_law ext sys (st_rc st) Hb1) as (b' & rc & -> & _ & _ & Hrc'); [by rewrite Hh1|]. cbn [mbind option_bind]. by exists rc. }
  destruct Hd as (rc & Ed & Hrc').
  assert (Hst : forall rc, rc_ok ext [] rc -> inv s (mkStore rc (st_pkt st))).
  { intros rc0 H. split; try done; [|by rewrite Ebk]. apply (inv_refs s); try done. by rewrite Em, Eq. }
  destruct (session =? 0).
  { rewrite Ed. cbn [mbind option_bind]. do 4 eexists. split; [reflexivity|]. split; [by apply Hst|]. split; [cbn; by rewrite app_nil_r|done|left; by repeat constructor]. }
  assert (Hall : exists st', match bucket with None => Some st | Some _ => withRc (Destroy sys) st end = Some st' /\ inv s st' /\
    bk_ok (default sys bucket) /\ bk_held (default sys bucket) = []).
  { destruct bucket as [b|]; [|by exists st]. destruct Hn2 as [? ?]. rewrite Ed. eexists. split; [done|]. split; [by apply Hst|]. done. }
  destruct Hall as (st' & -> & Hi' & Hb & Hh). cbn [mbind option_bind]. do 4 eexists. split; [reflexivity|]. set (s' := setObjects _ _ _ _ _).
  assert (Eh : heldOf s' = heldOf s) by (unfold heldOf, s'; rewrite Ebk; cbn; done).
  assert (Em' : mine s' = mine s) by (unfold mine; by rewrite Eh).
  split.
  - destruct Hi' as [J1 J2 J3 J4]. split; [by rewrite Em'|done|by rewrite Em'|done].
  - split; [rewrite Eh; change (pushedOf _) with (@nil Z); by rewrite app_nil_r|done|left; by repeat constructor].
Qed.

Lemma wrapper_exec_ok c (s : t) st : inv s st -> enabled c -> exists s' st' l, exec c s st = Some (s', st', l) /\ inv s' st' /\ moved s s' l.
Proof.
  intros Hi He. destruct c; cbn [exec enabled] in *.
  - destruct (Init_step sessionType sysBucket bucket session s st Hi) as (ret & s' & st' & l & -> & H); [by destruct He..|]. by exists s', st', l.
  - by apply Fini_step.
  - destruct (SendPacket_step s st packet handshaking sends Hi He) as (ret & s' & st' & l & -> & H). by exists s', st', l.
  - destruct (ByTimer_step s st packet sendDurationMs handshaking timerId tick Hi He) as (ret & s' & st' & l & -> & H). by exists s', st', l.
  - do 3 eexists. split; [done|]. split; [done|]. unfold Forward. destruct (negb _); [apply wrapper_moved_same|]. split; [cbn; by rewrite app_nil_r|done|left; by repeat constructor].
  - do 3 eexists. split; [done|]. split; [done|]. unfold RequestOnSend. destruct (negb _); [apply wrapper_moved_same|]. split; [cbn; by rewrite app_nil_r|done|left; by repeat constructor].
  - by apply EnableInput_step.
  - by apply EnableOutput_step.
  - destruct (Redline_step redlineBytes redlineFrames s st Hi He) as [? ?]. by do 3 eexists.
  - destruct (Ok_step session s st Hi) as (s' & l & -> & H). by exists s', st, l.
  - by apply Recv_step.
  - by apply Send_step.
  - destruct (Close_step session errorCode sslCode tcpConnected s st Hi) as (s' & l & -> & H). by exists s', st, l.
  - by apply Timer_step.
Qed.

(** *** Runs *)

(** Between [OnCloseSession] and [Fini] nothing is possible, not even [Fini]. *)
Lemma closed_exec c (s : t) st : m_session s = 0 -> m_bucket s <> None -> exec c s st = Some (s, st, []).
Proof.
  intros Hs Hb. assert (Hr : ready s = false) by (unfold ready; by rewrite Hs, andb_false_r).
  destruct c; cbn [exec].
  - unfold Init. destruct (_ || _); [done|]. by rewrite (bool_decide_eq_true_2 _ Hb), orb_true_r.
  - unfold Fini. destruct (m_bucket s); [|done]. by rewrite Hr.
  - unfold SendPacket. destruct (_ =? _); [done|]. by rewrite Hr.
  - unfold SendPacketByTimer. destruct (_ =? _); [done|]. by rewrite Hr.
  - unfold Forward. by rewrite Hr.
  - unfold RequestOnSend. by rewrite Hr.
  - unfold EnableInput. by rewrite Hr.
  - unfold EnableOutput. destruct (m_bucket s); [|done]. by rewrite Hr.
  - unfold SetOutputRedline. destruct (m_bucket s); [|done]. by rewrite Hr.
  - unfold OnOkSession. destruct (_ =? _); [done|]. by rewrite Hr.
  - unfold OnRecvSession. destruct (_ || _); [done|]. by rewrite Hr.
  - unfold OnSendSession. destruct (_ =? _); [done|]. by rewrite Hr.
  - unfold OnCloseSession. destruct (_ =? _); [done|]. by rewrite Hr.
  - unfold OnTimer. destruct (_ =? _); [done|]. by rewrite Hr.
Qed.
Lemma closed_run cs : forall (s : t) st, m_session s = 0 -> m_bucket s <> None -> run cs s st = Some (s, st, []).
Proof.
  induction cs as [|c cs IH]; intros s st Hs Hb; cbn [run]; [done|]. rewrite (closed_exec c s st Hs Hb). cbn [mbind option_bind].
  by rewrite (IH s st Hs Hb).
Qed.

(** The end of the session is told once, and nothing but its deletion comes after it. *)
Definition closedLast (l : list effect) : Prop :=
  Forall (fun e => isClose e = false) l \/
  exists before e1 e2 b session, l = before ++ [UpCloseSession e1 e2 b; DeleteSession session] /\ Forall (fun e => isClose e = false) before.

Lemma wrapper_run_ok cs : forall (s : t) st, inv s st -> Forall enabled cs -> exists s' st' l, run cs s st = Some (s', st', l) /\ inv s' st' /\
  sentOf l ++ heldOf s' `sublist_of` heldOf s ++ pushedOf l /\
  told (m_pushToBucketRet1 s) (m_packetErased s) l = Some (m_pushToBucketRet1 s', m_packetErased s') /\ closedLast l.
Proof.
  induction cs as [|c cs IH]; intros s st Hi Hc; cbn [run].
  { pose proof (wrapper_moved_same s) as [H1 H2 _]. exists s, st, []. split_and!; try done. by left. }
  apply Forall_cons in Hc as [Hc Hcs]. destruct (wrapper_exec_ok c s st Hi Hc) as (s1 & st1 & l1 & -> & Hi1 & [M1 M2 M3]). cbn [mbind option_bind].
  destruct M3 as [M3|(M3 & M4 & e1 & e2 & b & session & ->)].
  - destruct (IH s1 st1 Hi1 Hcs) as (s2 & st2 & l2 & -> & Hi2 & A1 & A2 & A3). cbn [mbind option_bind]. exists s2, st2, (l1 ++ l2).
    destruct (logs_app l1 l2) as [-> ->]. split; [done|]. split; [done|]. split; [|split].
    + rewrite <- (assoc_L (++)). etrans; [apply sublist_app; [done|exact A1]|]. rewrite !(assoc_L (++)). by apply sublist_app.
    + apply (told_app (m_pushToBucketRet1 s, m_packetErased s) l1 l2) in M2. cbn [fst snd] in M2. by rewrite M2.
    + destruct A3 as [A3|(before & e1 & e2 & b & session & -> & A3)]; [left; by apply Forall_app|]. right. exists (l1 ++ before), e1, e2, b, session.
      rewrite (assoc_L (++)). split; [done|]. by apply Forall_app.
  - rewrite (closed_run cs s1 st1 M3 M4). cbn [mbind option_bind]. rewrite app_nil_r. do 3 eexists. split; [done|]. split; [done|]. split; [done|]. split; [done|].
    right. exists [], e1, e2, b, session. done.
Qed.

(** A new wrapper. *)
Lemma construct_inv sessionType mmType st : rc_ok ext [] (st_rc st) ->
  (forall p, is_Some (st_rc st !! p) -> is_Some (st_pkt st !! p)) -> (forall p d, st_pkt st !! p = Some d -> 0 <= CProReorder.GetSequence d < 65536) ->
  inv (construct sessionType mmType) st.
Proof.
  intros Hrc Hp Hd. assert (Eq : CProReorder.m_seq64ToPacket (m_reorderInput (construct (B := B) sessionType mmType)) = []).
  { cbn. unfold CProReorder.SetMaxPacketCount. by destruct (_ =? 0). }
  split.
  - split; rewrite ?Eq; try done.
    + left. split; [|done]. cbn. unfold CProReorder.SetMaxPacketCount. by destruct (_ =? 0).
    + by apply plus_frame.
  - split_and!; try done. unfold queueOf. by rewrite Eq.
  - constructor.
  - done.
Qed.
End laws.
End runs.
End WrapperRuns.


(** ** The theorems *)

Module WrapperTheorems.
Import CRtpSessionWrapper WrapperRuns.
Import CProReorder (store, mkStore, st_rc, st_pkt).

(** C14: A session wrapper over any lawful bucket, whatever calls it gets from its user, its
    session and its timer.  No call goes wrong.  The references to the packets are counted
    exactly: the bucket's, those that wait for the timer and those that wait to be reordered
    each have one, and a wrapper that has not been started, or has ended, has none.  The
    session gets packets in the order in which they came to the bucket, each once, and all
    of those before the ones that the bucket still holds.  When packets begin to be refused
    the session is asked for a call at once, and the next call of [OnSendSession] to the
    observer tells it, unless a packet has been taken since.  The end of the session is told
    once, with nothing but the deletion of the session after it. *)
Theorem wrapper_correct `{Hbucket : IRtpBucket B} `{!BucketLaws B} ext sessionType mmType cs st : rc_ok ext [] (st_rc st) ->
  (forall p, is_Some (st_rc st !! p) -> is_Some (st_pkt st !! p)) -> (forall p d, st_pkt st !! p = Some d -> 0 <= CProReorder.GetSequence d < 65536) ->
  Forall (enabled ext) cs ->
  exists s st' l, run cs (construct sessionType mmType) st = Some (s, st', l) /\
    rc_ok ext (heldOf s ++ m_pushPackets s ++ queueOf s) (st_rc st') /\
    (m_bucket s = None -> heldOf s ++ m_pushPackets s ++ queueOf s = []) /\
    sentOf l ++ heldOf s `sublist_of` pushedOf l /\
    told true false l = Some (m_pushToBucketRet1 s, m_packetErased s) /\
    closedLast l.
Proof.
  intros Hrc Hp Hd Hc. pose proof (construct_inv ext sessionType mmType st Hrc Hp Hd) as Hi.
  destruct (wrapper_run_ok ext cs _ st Hi Hc) as (s & st' & l & E & Hi' & H1 & H2 & H3). exists s, st', l. rewrite (assoc_L (++)).
  split; [exact E|]. split; [by apply inv_total|]. split; [|done]. intros Eb. pose proof (wi_bucket _ _ _ Hi') as Hb. rewrite Eb in Hb. destruct Hb as (_ & _ & Ep & Eq).
  unfold heldOf. by rewrite Eb, Ep, Eq.
Qed.

(** C15: A wrapper whose session has closed keeps what it has for ever: [OnCloseSession] clears
    the session, and as [Fini] does nothing without a session, no sequence of calls, with
    [Fini] and the destructor's [Fini] among them, releases the bucket, the packets in it and
    those for the timer, the timers and the observer. *)
Theorem closed_wrapper_stays `{Hbucket : IRtpBucket B} session errorCode sslCode tcpConnected (s : t B) : ready s = true -> session = m_session s ->
  exists s', OnCloseSession session errorCode sslCode tcpConnected s = (s', [UpCloseSession errorCode sslCode tcpConnected; DeleteSession session]) /\
    active s' = true /\ m_bucket s' = m_bucket s /\ m_pushPackets s' = m_pushPackets s /\ m_sendTimerId s' = m_sendTimerId s /\
    (forall st, Fini s' st = Some (s', st, [])) /\ forall cs st, run cs s' st = Some (s', st, []).
Proof.
  intros Hr ->. destruct (ready_true s Hr) as (Ha & Hs & b & Eb). unfold OnCloseSession.
  rewrite (proj2 (Z.eqb_neq _ _) Hs), Hr, Z.eqb_refl. cbn [negb]. eexists. split; [reflexivity|]. split_and!; try done.
  - intros st. apply (closed_exec CFini); [done|]. cbn. by rewrite Eb.
  - intros cs st. apply closed_run; [done|]. cbn. by rewrite Eb.
Qed.

(** The count without wrapping. *)
Lemma maxSendCount_exact `{IRtpBucket B} tick (s : t B) : 0 <= m_pushTick s -> 0 <= m_sendDurationMs s -> m_pushTick s + m_sendDurationMs s < 2 ^ 63 ->
  0 <= tick < 2 ^ 63 -> Z.of_nat (length (m_pushPackets s)) < 2 ^ 31 ->
  let left := Z.max 1 (m_pushTick s + m_sendDurationMs s - tick) in
  maxSendCount tick s = Z.max 1 ((Z.of_nat (length (m_pushPackets s)) + left / 2) / left).
Proof.
  intros H1 H2 H3 H4 H5. unfold maxSendCount. set (n := Z.of_nat (length (m_pushPackets s))) in *. assert (Hn : 0 <= n) by lia.
  assert (Hsig : forall w x, 1 <= w -> - 2 ^ (w - 1) <= x < 2 ^ (w - 1) -> signed w x = x).
  { intros w x Hw Hx. unfold signed, wrap. assert (2 ^ w = 2 * 2 ^ (w - 1)) as E by (rewrite <- Z.pow_succ_r by lia; f_equal; lia).
    destruct (Z.leb_spec 0 x).
    - rewrite Z.mod_small by lia. by rewrite (proj2 (Z.ltb_lt _ _)) by lia.
    - replace (x mod 2 ^ w) with (x + 2 ^ w) by (apply (Z.mod_unique _ _ (-1)); lia). rewrite (proj2 (Z.ltb_ge _ _)) by lia. lia. }
  cbn zeta. set (d := m_pushTick s + m_sendDurationMs s - tick).
  assert (Ed : signed 64 d = d) by (apply Hsig; [done|cbn; lia]). rewrite Ed.
  assert (El : (if d <? 1 then 1 else d) = Z.max 1 d) by (destruct (Z.ltb_spec d 1); lia). rewrite El.
  set (left := Z.max 1 d). assert (Hl : 1 <= left < 2 ^ 63) by lia.
  assert (Hh : 0 <= left / 2 <= left - 1) by (split; Z.to_euclidean_division_equations; lia).
  assert (Hu : u64 (n + left / 2) = n + left / 2) by (unfold wrap; apply Z.mod_small; lia). rewrite Hu.
  set (q := (n + left / 2) / left). assert (Hq : 0 <= q <= Z.max n 1).
  { split; [apply Z.div_pos; lia|]. apply Z.div_le_upper_bound; [lia|]. nia. }
  assert (Eq : signed 64 q = q) by (apply Hsig; [done|cbn; lia]). rewrite Eq.
  assert (Em : (if q <? 1 then 1 else q) = Z.max 1 q) by (destruct (Z.ltb_spec q 1); lia). rewrite Em.
  apply Hsig; [done|]. cbn. lia.
Qed.

(** C36: A tick of the send timer spreads what is waiting evenly over the time that is left:
    as many packets as the rest divided by the milliseconds to the deadline, rounded, and at
    least one, go to the bucket, the first ones in their order, and the others stay.  From one
    millisecond before the deadline on everything goes, whatever the session answers. *)
Theorem timer_paces `{Hbucket : IRtpBucket B} `{!BucketLaws B} ext timerId tick sends (s : t B) st : inv ext s st -> ready s = true ->
  timerId = m_sendTimerId s -> timerId <> 0 -> 0 <= m_pushTick s -> 0 <= m_sendDurationMs s -> m_pushTick s + m_sendDurationMs s < 2 ^ 63 ->
  0 <= tick < 2 ^ 63 -> Z.of_nat (length (m_pushPackets s)) < 2 ^ 31 ->
  let left := Z.max 1 (m_pushTick s + m_sendDurationMs s - tick) in
  let n := Z.to_nat (Z.max 1 ((Z.of_nat (length (m_pushPackets s)) + left / 2) / left)) in
  exists s' st' l, OnTimer timerId tick sends s st = Some (s', st', l) /\ inv ext s' st' /\
    pushedOf l = take n (m_pushPackets s) /\ m_pushPackets s' = drop n (m_pushPackets s) /\
    (m_pushTick s + m_sendDurationMs s - 1 <= tick -> pushedOf l = m_pushPackets s /\ m_pushPackets s' = []).
Proof.
  intros Hi Hr -> Ht H1 H2 H3 H4 H5 left n. unfold OnTimer. rewrite (proj2 (Z.eqb_neq _ _) Ht), Hr, Z.eqb_refl. cbn [negb].
  rewrite (maxSendCount_exact tick s H1 H2 H3 H4 H5). fold left n.
  destruct (sendSome_step ext n sends s st Hi Hr) as (s' & st' & l & -> & A1 & _ & _ & A2 & A3). exists s', st', l. split_and!; try done.
  intros Hd. assert (El : left = 1) by lia. assert (En : (length (m_pushPackets s) <= n)%nat).
  { unfold n. rewrite El, Z.div_1_r. change (1 / 2) with 0. lia. }
  by rewrite A3, A2, take_ge, drop_ge.
Qed.

(** *** Examples *)

(** A plain bucket; packets of 4000 bytes. *)
Definition demoPk : Z -> CRtpPacket.t := fun _ => BucketTheorems.demoPacket.
#[local] Instance demoBuckets : IRtpBucket Buckets.t := Buckets.buckets demoPk.
Lemma demoSize : forall p : Z, 0 < CRtpPacket.GetPayloadSize (demoPk p) <= MAX_PAYLOAD_SIZE.
Proof. intros p. by vm_compute. Qed.
#[local] Instance demoLaws : @BucketLaws Buckets.t demoBuckets := BucketsLawful.buckets_lawful demoPk demoSize.

Definition demoStore : store := mkStore {[ 1 := 1%nat; 2 := 1%nat; 3 := 1%nat ]}
  {[ 1 := CProReorder.mkPacket 5 0; 2 := CProReorder.mkPacket 6 0; 3 := CProReorder.mkPacket 7 0 ]}.
Definition demoExt (p : Z) : nat := default 0%nat (st_rc demoStore !! p).

(** The second packet is refused; the observer hears it when the first one has gone; the third
    one goes by the timer. *)
Definition demoCalls : list (@call Buckets.t) :=
  [CInit RTP_ST_TCPCLIENT_EX (Some (Buckets.create BaseBucket)) None 7; COkSession 7; CSetOutputRedline 1 0; CSendPacket 1 false false;
   CSendPacket 2 false false; CSendPacketByTimer 3 10 false 9 100; CSendSession 7 true; CTimer 9 109 (fun _ => true)].

Lemma demo_store_ok : rc_ok demoExt [] (st_rc demoStore) /\ (forall p, is_Some (st_rc demoStore !! p) -> is_Some (st_pkt demoStore !! p)) /\
  (forall p d, st_pkt demoStore !! p = Some d -> 0 <= CProReorder.GetSequence d < 65536).
Proof.
  split_and!.
  - intros p. unfold demoExt. rewrite Nat.add_0_r. destruct (st_rc demoStore !! p) as [n|] eqn:E; [|done]. cbn.
    rewrite decide_False; [done|]. intros ->. unfold demoStore in E. cbn [st_rc] in E.
    repeat (apply lookup_insert_Some in E as [[_ ?]|[_ E]]; [done|]). by apply lookup_singleton_Some in E as [_ ?].
  - intros p [n E]. unfold demoStore in *. cbn [st_rc st_pkt] in *.
    repeat (apply lookup_insert_Some in E as [[<- _]|[_ E]]; [by vm_compute; eexists|]). apply lookup_singleton_Some in E as [<- _]. by vm_compute; eexists.
  - intros p d E. unfold demoStore in E. cbn [st_pkt] in E.
    repeat (apply lookup_insert_Some in E as [[_ <-]|[_ E]]; [by vm_compute|]). apply lookup_singleton_Some in E as [_ <-]. by vm_compute.
Qed.

Lemma demo_calls_ok : Forall (enabled demoExt) demoCalls.
Proof. assert (H : forall k, new (Some (Buckets.create k))) by (intros k; by apply (BucketsLawful.new_bucket_ok demoPk)).
  repeat (constructor; [first [exact I|by split|right; vm_compute; split; [done|lia]|by vm_compute]|]). constructor. Qed.

Definition demoLog : list (effect) :=
  [CreateSession 7 RTP_ST_TCPCLIENT_EX; UpOkSession; BucketPush 1 true; SessionSend 1 false; BucketPush 2 false; SessionRequestOnSend; SessionSend 1 false;
   ScheduleMmTimer 9; SessionSend 1 true; UpSendSession true; BucketPush 3 true; SessionSend 3 true].

Lemma wrapper_correct_witness : exists s st l, run demoCalls (construct 0 11) demoStore = Some (s, st, l) /\ l = demoLog /\
  sentOf l ++ heldOf s `sublist_of` pushedOf l /\ sentOf l = [1; 3] /\ closedLast l.
Proof.
  destruct demo_store_ok as (H1 & H2 & H3).
  destruct (wrapper_correct demoExt 0 11 demoCalls demoStore H1 H2 H3 demo_calls_ok) as (s & st & l & E & _ & _ & A & _ & C).
  exists s, st, l. split; [exact E|]. assert (El : l = demoLog).
  { assert (E' : option_map snd (run demoCalls (construct 0 11) demoStore) = Some demoLog) by (vm_compute; reflexivity). rewrite E in E'. by injection E' as ->. }
  split; [exact El|]. split; [exact A|]. split; [by rewrite El|exact C].
Defined.

(** A wrapper with two packets in its hands. *)
Definition demoFull : t Buckets.t :=
  mkWrapper RTP_ST_TCPCLIENT_EX 11 true 7 (Some (Buckets.create BaseBucket)) true true false true true true 9 10 100 [1; 2] (m_reorderInput (construct (B := Buckets.t) 0 11)).

Lemma closed_wrapper_stays_witness : ready demoFull = true /\ exists s', OnCloseSession 7 0 0 true demoFull = (s', [UpCloseSession 0 0 true; DeleteSession 7]) /\
  m_pushPackets s' = [1; 2] /\ forall st, Fini s' st = Some (s', st, []).
Proof.
  split; [done|]. destruct (closed_wrapper_stays 7 0 0 true demoFull) as (s' & H1 & _ & _ & H2 & _ & H3 & _); [done|done|]. by exists s'.
Defined.

Definition demoFullStore : store := mkStore {[ 1 := 2%nat; 2 := 2%nat; 3 := 1%nat ]} (st_pkt demoStore).
Lemma demo_full_inv : inv demoExt demoFull demoFullStore.
Proof.
  destruct demo_store_ok as (H1 & H2 & H3).
  assert (Hi : inv demoExt (construct (B := Buckets.t) 0 11) demoStore) by by apply construct_inv.
  destruct (ByTimer_step demoExt (setObjects RTP_ST_TCPCLIENT_EX true 7 (Some (Buckets.create BaseBucket)) (construct 0 11)) demoStore 1 10 false 9 100) as (ret & s1 & st1 & l & E & Hi1 & _).
  { destruct Hi as [J1 J2 J3 J4]. split; try done. cbn. by destruct (BucketsLawful.new_bucket_ok demoPk BaseBucket). }
  { right. vm_compute. split; [done|lia]. }
  destruct (ByTimer_step demoExt s1 st1 2 10 false 9 100 Hi1) as (ret2 & s2 & st2 & l2 & E2 & Hi2 & _); [right; vm_compute; split; [done|lia]|].
  vm_compute in E. injection E as <- <- <- <-. vm_compute in E2. injection E2 as <- <- <- <-.
  destruct Hi2 as [J1 J2 J3 J4]. by split.
Qed.

Lemma timer_paces_witness : exists s' st' l, OnTimer 9 100 (fun _ => true) demoFull demoFullStore = Some (s', st', l) /\ pushedOf l = [1] /\ m_pushPackets s' = [2].
Proof.
  destruct (timer_paces demoExt 9 100 (fun _ => true) demoFull demoFullStore demo_full_inv) as (s' & st' & l & H1 & _ & H2 & H3 & _); try done.
  by exists s', st', l.
Defined.
End WrapperTheorems.
