(* ===== verification/ServicePipe.v ===== *)
(** * The pipe between a service hub and its hosts ([pro_service_pipe.h], [pro_service_pipe.cpp])

    A hub and a host in another process talk through a local socket.  [ServicePackets] are
    their packets, as members and as bytes; [CProServicePipe] is one end of the pipe: the
    observer of the transport of the socket, with a queue of what the transport has not
    taken yet.  What the transport answers is an argument; [OnRecv] reads its pool through
    [IProRecvPool], and between two of its upcalls anything may happen to the pipe. *)

From S2P Require Import Prelude Bytes NetPools RefCount StlMap TimerFactory.

(** ** The packets *)

Module ServicePackets.

(** [PRO_SERVICE_SOCK], [PRO_SERVICE_PACKET_C2S], [PRO_SERVICE_PACKET_S2C], [PRO_SERVICE_PACKET] *)
Record PRO_SERVICE_SOCK := mkSock { expireTick : Z; sockId : Z; unixSocket : bool }.
Record PRO_SERVICE_PACKET_C2S := mkC2s { c_serviceId : Z; c_processId : Z; c_oldSock : PRO_SERVICE_SOCK }.
Record PRO_SERVICE_PACKET_S2C := mkS2c { s_serviceId : Z; s_serviceOpt : Z; s_nonce : Z; s_oldSock : PRO_SERVICE_SOCK }.
Record PRO_SERVICE_PACKET := mkPacket { magic1 : list Z; c2s : PRO_SERVICE_PACKET_C2S; s2c : PRO_SERVICE_PACKET_S2C; magic2 : list Z }.

(** The order of sockets *)
#[export] Instance sock_key : StlKeyed PRO_SERVICE_SOCK (Z * Z) := fun ss => (expireTick ss, sockId ss).

(** The constructors *)
Definition SERVICE_MAGIC : list Z := replicate 8 42.
Definition sock0 : PRO_SERVICE_SOCK := mkSock 0 (-1) false.
Definition c2s0 : PRO_SERVICE_PACKET_C2S := mkC2s 0 0 sock0.
Definition s2c0 : PRO_SERVICE_PACKET_S2C := mkS2c 0 0 0 sock0.
Definition packetOf (c : PRO_SERVICE_PACKET_C2S) (s : PRO_SERVICE_PACKET_S2C) : PRO_SERVICE_PACKET := mkPacket SERVICE_MAGIC c s SERVICE_MAGIC.

Definition CheckMagic (p : PRO_SERVICE_PACKET) : bool := bool_decide (magic1 p = SERVICE_MAGIC) && bool_decide (magic2 p = SERVICE_MAGIC).

(** Its memory; the bytes between the members are those of [pad]. *)
Definition sizeof_PRO_SERVICE_PACKET : Z := 96.
Definition sockMembers (ss : PRO_SERVICE_SOCK) (pad : list Z) : list (list Z) :=
  [le_bytes 8 (u64 (expireTick ss)); le_bytes 8 (u64 (sockId ss)); le_bytes 1 (if unixSocket ss then 1 else 0); pad].
Definition packetMembers (pad : list Z) (p : PRO_SERVICE_PACKET) : list (list Z) :=
  [magic1 p; le_bytes 1 (c_serviceId (c2s p)); zsub 0 7 pad; le_bytes 8 (c_processId (c2s p))] ++ sockMembers (c_oldSock (c2s p)) (zsub 7 7 pad) ++
  [le_bytes 1 (s_serviceId (s2c p)); le_bytes 1 (s_serviceOpt (s2c p)); zsub 14 6 pad; le_bytes 8 (s_nonce (s2c p))] ++
  sockMembers (s_oldSock (s2c p)) (zsub 20 7 pad) ++ [magic2 p].
Definition packetImage (pad : list Z) (p : PRO_SERVICE_PACKET) : list Z := concat (packetMembers pad p).
Definition sockAt (off : Z) (l : list Z) : PRO_SERVICE_SOCK :=
  mkSock (s64 (load 8 off l)) (s64 (load 8 (off + 8) l)) (negb (load 1 (off + 16) l =? 0)).
Definition packetAt (l : list Z) : PRO_SERVICE_PACKET :=
  mkPacket (zsub 0 8 l) (mkC2s (load 1 8 l) (load 8 16 l) (sockAt 24 l)) (mkS2c (load 1 48 l) (load 1 49 l) (load 8 56 l) (sockAt 64 l)) (zsub 88 8 l).

Record wf_sock (ss : PRO_SERVICE_SOCK) : Prop := mkWfSock { wf_expire : - 2 ^ 63 <= expireTick ss < 2 ^ 63; wf_id : - 2 ^ 63 <= sockId ss < 2 ^ 63 }.
Record wf_packet (p : PRO_SERVICE_PACKET) : Prop := mkWfPacket {
  wp_magic : magic1 p = SERVICE_MAGIC /\ magic2 p = SERVICE_MAGIC;
  wp_c2s : 0 <= c_serviceId (c2s p) < 2 ^ 8 /\ 0 <= c_processId (c2s p) < 2 ^ 64 /\ wf_sock (c_oldSock (c2s p));
  wp_s2c : 0 <= s_serviceId (s2c p) < 2 ^ 8 /\ 0 <= s_serviceOpt (s2c p) < 2 ^ 8 /\ 0 <= s_nonce (s2c p) < 2 ^ 64 /\ wf_sock (s_oldSock (s2c p))
}.

Lemma s64_u64 x : - 2 ^ 63 <= x < 2 ^ 63 -> s64 (u64 x) = x.
Proof. intros H. unfold s64, wrap. rewrite Zplus_mod_idemp_l. by apply s64_small. Qed.

Lemma packetImage_size pad p : wf_packet p -> zlen pad = 27 -> zlen (packetImage pad p) = sizeof_PRO_SERVICE_PACKET.
Proof.
  intros [[H1 H2] _ _] Hp. unfold packetImage, packetMembers, sockMembers. cbn [app concat].
  rewrite !zlen_app, !zlen_le_bytes, !zlen_zsub by lia. by rewrite H1, H2.
Qed.

Lemma packetAt_image pad p : wf_packet p -> zlen pad = 27 -> packetAt (packetImage pad p) = p.
Proof.
  intros [[H1 H2] (C1 & C2 & [C3 C4]) (S1 & S2 & S3 & [S4 S5])] Hp.
  assert (Hbool : forall b : bool, 0 <= (if b then 1 else 0) < 2 ^ 8) by by intros [].
  assert (Hu : forall x, 0 <= u64 x < 2 ^ 64) by (intros x; by apply wrap_range).
  assert (Hoff : forall k, zlen (concat (take k (packetMembers pad p))) =
    nth k [0; 8; 9; 16; 24; 32; 40; 41; 48; 49; 50; 56; 64; 72; 80; 81; 88] (zlen (concat (take k (packetMembers pad p))))).
  { intros k. do 17 (destruct k as [|k]; [unfold packetMembers, sockMembers; cbn [app take concat nth];
      rewrite ?zlen_app, ?zlen_le_bytes, ?zlen_zsub, ?H1 by lia; reflexivity|]). by destruct k. }
  unfold packetAt, packetImage, sockAt.
  rewrite (part_at (packetMembers pad p) 0 (magic1 p) 0 8), (number_at (packetMembers pad p) 1 1 8 (c_serviceId (c2s p))),
    (number_at (packetMembers pad p) 3 8 16 (c_processId (c2s p))), (number_at (packetMembers pad p) 4 8 24 (u64 (expireTick (c_oldSock (c2s p))))),
    (number_at (packetMembers pad p) 5 8 (24 + 8) (u64 (sockId (c_oldSock (c2s p))))),
    (number_at (packetMembers pad p) 6 1 (24 + 16) (if unixSocket (c_oldSock (c2s p)) then 1 else 0)),
    (number_at (packetMembers pad p) 8 1 48 (s_serviceId (s2c p))), (number_at (packetMembers pad p) 9 1 49 (s_serviceOpt (s2c p))),
    (number_at (packetMembers pad p) 11 8 56 (s_nonce (s2c p))), (number_at (packetMembers pad p) 12 8 64 (u64 (expireTick (s_oldSock (s2c p))))),
    (number_at (packetMembers pad p) 13 8 (64 + 8) (u64 (sockId (s_oldSock (s2c p))))),
    (number_at (packetMembers pad p) 14 1 (64 + 16) (if unixSocket (s_oldSock (s2c p)) then 1 else 0)),
    (part_at (packetMembers pad p) 16 (magic2 p) 88 8);
    try first [done|apply Hu|apply Hbool|by rewrite Hoff|by rewrite ?H1, ?H2].
  rewrite !s64_u64 by done. destruct p as [m1 [? ? [? ? u1]] [? ? ? [? ? u2]] m2]. cbn. by destruct u1, u2.
Qed.
End ServicePackets.

(** ** One end of the pipe *)

Module CProServicePipe.
Import ServicePackets.

(** [CProServicePipe]: [active] is whether observer and reactor are set *)
Record t := mkPipe {
  active : bool;
  m_trans : Z;
  m_packets : list PRO_SERVICE_PACKET;
  m_fdPackets : list PRO_SERVICE_PACKET
}.

Inductive effect :=
  | CreateTransport (trans : Z) (recvFdMode : bool) (sockId : Z) (unixSocket : bool) (inited : bool)
  | FiniTransport (trans : Z)
  | ReleaseTransport (trans : Z)
  | ReleaseObserver
  | TransSendData (packet : PRO_SERVICE_PACKET) (ret : bool)
  | TransSendFd (packet : PRO_SERVICE_PACKET) (ret : bool)
  | CloseSock (fd : Z)
  | UpRecv (packet : PRO_SERVICE_PACKET)
  | UpRecvFd (fd : Z) (unixSocket : bool) (packet : PRO_SERVICE_PACKET)
  | UpClose.

Definition construct : t := mkPipe false 0 [] [].
Definition setLinks (a : bool) (trans : Z) (s : t) : t := mkPipe a trans (m_packets s) (m_fdPackets s).
Definition setPackets (packets fdPackets : list PRO_SERVICE_PACKET) (s : t) : t := mkPipe (active s) (m_trans s) packets fdPackets.

(** The guard of the methods *)
Definition ready (s : t) : bool := active s && negb (m_trans s =? 0).

(** [Init]; [trans] is what [CProTcpTransport::CreateInstance] gives, [inited] what its
    [Init] answers *)
Definition Init (recvFdMode : bool) (sockId : Z) (unixSocket : bool) (trans : Z) (inited : bool) (s : t) : bool * t * list effect :=
  if sockId =? -1 then (false, s, []) else
  if active s || negb (m_trans s =? 0) then (false, s, []) else
  if trans =? 0 then (false, s, []) else
  if negb inited then (false, s, [CreateTransport trans recvFdMode sockId unixSocket false; ReleaseTransport trans]) else
  (true, setLinks true trans s, [CreateTransport trans recvFdMode sockId unixSocket true]).

(** [Fini] *)
Definition Fini (s : t) : t * list effect :=
  if negb (ready s) then (s, []) else
  (setLinks false 0 s, [FiniTransport (m_trans s); ReleaseTransport (m_trans s); ReleaseObserver]).

(** The first packet of a queue goes to the transport, which takes it or not *)
Definition offer (send : PRO_SERVICE_PACKET -> bool -> effect) (ret : bool) (q : list PRO_SERVICE_PACKET) : list PRO_SERVICE_PACKET * list effect :=
  match q with
  | [] => ([], [])
  | packet :: q' => (if ret then q' else q, [send packet ret])
  end.

(** [SendData] and [SendFd]; [ret] is what the transport answers *)
Definition SendData (packet : PRO_SERVICE_PACKET) (ret : bool) (s : t) : t * list effect :=
  if negb (CheckMagic packet) then (s, []) else
  if negb (ready s) then (s, []) else
  let '(q, l) := offer TransSendData ret (m_packets s ++ [packet]) in
  (setPackets q (m_fdPackets s) s, l).
Definition SendFd (s2cPacket : PRO_SERVICE_PACKET) (ret : bool) (s : t) : t * list effect :=
  if (sockId (s_oldSock (s2c s2cPacket)) =? -1) || negb (CheckMagic s2cPacket) then (s, []) else
  if negb (ready s) then (s, []) else
  let '(q, l) := offer TransSendFd ret (m_fdPackets s ++ [s2cPacket]) in
  (setPackets (m_packets s) q s, l).

(** [OnSend]; the transport answers [ret1] and [ret2] *)
Definition OnSend (trans : Z) (ret1 ret2 : bool) (s : t) : t * list effect :=
  if trans =? 0 then (s, []) else
  if negb (ready s) then (s, []) else
  if negb (trans =? m_trans s) then (s, []) else
  let '(q1, l1) := offer TransSendData ret1 (m_packets s) in
  let '(q2, l2) := offer TransSendFd ret2 (m_fdPackets s) in
  (setPackets q1 q2 s, l1 ++ l2).

(** [OnRecvFd] *)
Definition OnRecvFd (trans fd : Z) (unixSocket : bool) (s2cPacket : PRO_SERVICE_PACKET) (s : t) : list effect :=
  if (trans =? 0) || (fd =? -1) || negb (CheckMagic s2cPacket) then [] else
  if negb (ready s) || negb (trans =? m_trans s) then [CloseSock fd] else
  [UpRecvFd fd unixSocket s2cPacket].

(** [OnClose]; after its upcall the pipe is [during s] *)
Definition OnClose (trans : Z) (during : t -> t) (s : t) : t * list effect :=
  if trans =? 0 then (s, []) else
  if negb (ready s) then (s, []) else
  if negb (trans =? m_trans s) then (s, []) else
  let '(s, l) := Fini (during s) in (s, UpClose :: l).

Section receive.
Context `{IProRecvPool P}.

(** One turn of the loop of [OnRecv] under the lock: the packet, if there is one *)
Definition recvLocked (trans : Z) (s : t) (pool : P) : option PRO_SERVICE_PACKET * P :=
  if negb (ready s) then (None, pool) else
  if negb (trans =? m_trans s) then (None, pool) else
  if PeekDataSize pool <? sizeof_PRO_SERVICE_PACKET then (None, pool) else
  (Some (match PeekData sizeof_PRO_SERVICE_PACKET pool with Some bytes => packetAt bytes | None => packetOf c2s0 s2c0 end),
   Flush sizeof_PRO_SERVICE_PACKET pool).

(** [OnRecv]; [during n] is what happens to the pipe in the upcall with [n] turns left *)
Fixpoint recvLoop (fuel : nat) (during : nat -> t -> t) (trans : Z) (s : t) (pool : P) : option (t * P * list effect) :=
  match fuel with
  | O => None
  | S fuel =>
      match recvLocked trans s pool with
      | (None, pool) => Some (s, pool, [])
      | (Some packet, pool) =>
          if negb (CheckMagic packet) then let '(s, l) := Fini (during fuel s) in Some (s, pool, UpClose :: l) else
          '(s, pool, l) ← recvLoop fuel during trans (during fuel s) pool;
          Some (s, pool, UpRecv packet :: l)
      end
  end.
Definition OnRecv (during : nat -> t -> t) (trans : Z) (s : t) (pool : P) : option (t * P * list effect) :=
  if trans =? 0 then Some (s, pool, []) else recvLoop (S (Z.to_nat (PeekDataSize pool / sizeof_PRO_SERVICE_PACKET))) during trans s pool.
End receive.
End CProServicePipe.

(** ** What an end of a pipe receives *)

Module PipeTheorems.
Import ServicePackets CProServicePipe.

Section receive.
Context {P : Type} `{HP : IProRecvPool P} `{!RecvPoolLaws P}.
Context (during : nat -> t -> t) (trans : Z) (Hduring : forall n s, ready s = true /\ m_trans s = trans -> ready (during n s) = true /\ m_trans (during n s) = trans).

Definition stream (sent : list (list Z * PRO_SERVICE_PACKET)) : list Z := concat ((fun x => packetImage x.1 x.2) <$> sent).
Definition sendable (x : list Z * PRO_SERVICE_PACKET) : Prop := wf_packet x.2 /\ zlen x.1 = 27.

Lemma stream_size sent : Forall sendable sent -> zlen (stream sent) = sizeof_PRO_SERVICE_PACKET * zlen sent.
Proof.
  induction 1 as [|[pad p] sent [Hp Hl] _ IH]; [done|]. unfold stream in *. cbn [fmap list_fmap concat]. cbn in Hp, Hl.
  rewrite zlen_app, packetImage_size, IH by done. rewrite (zlen_cons (pad, p)). unfold sizeof_PRO_SERVICE_PACKET. lia.
Qed.

(** One turn. *)
Lemma recvLocked_ok s pool d : ready s = true -> m_trans s = trans -> pool_rep pool d ->
  recvLocked trans s pool = if zlen d <? sizeof_PRO_SERVICE_PACKET then (None, pool) else
    (Some (packetAt (ztake sizeof_PRO_SERVICE_PACKET d)), Flush sizeof_PRO_SERVICE_PACKET pool).
Proof.
  intros Hr Ht Hd. unfold recvLocked. rewrite Hr, Ht, Z.eqb_refl, (PeekDataSize_law pool d Hd), (PeekData_law pool d _ Hd) by done.
  destruct (zlen d <? sizeof_PRO_SERVICE_PACKET); [done|]. done.
Qed.
Lemma Flush_ok pool d : pool_rep pool d -> sizeof_PRO_SERVICE_PACKET <= zlen d ->
  pool_rep (Flush sizeof_PRO_SERVICE_PACKET pool) (zdrop sizeof_PRO_SERVICE_PACKET d).
Proof. intros Hd Hl. pose proof (Flush_law pool d sizeof_PRO_SERVICE_PACKET Hd ltac:(done)) as H. by rewrite (proj2 (Z.ltb_ge _ _)) in H by done. Qed.

Lemma recvLoop_ok sent tail : forall fuel s pool, Forall sendable sent -> (length sent < fuel)%nat -> ready s = true -> m_trans s = trans ->
  pool_rep pool (stream sent ++ tail) ->
  (zlen tail < sizeof_PRO_SERVICE_PACKET -> exists s' pool', recvLoop fuel during trans s pool = Some (s', pool', UpRecv <$> sent.*2) /\
     pool_rep pool' tail /\ ready s' = true /\ m_trans s' = trans) /\
  (sizeof_PRO_SERVICE_PACKET <= zlen tail -> CheckMagic (packetAt (ztake sizeof_PRO_SERVICE_PACKET tail)) = false -> exists s' pool',
     recvLoop fuel during trans s pool = Some (s', pool', (UpRecv <$> sent.*2) ++ [UpClose; FiniTransport trans; ReleaseTransport trans; ReleaseObserver]) /\ ready s' = false).
Proof.
  induction sent as [|[pad p] sent IH]; intros fuel s pool Hs Hf Hr Ht Hd; (destruct fuel as [|fuel]; [lia|]); cbn [recvLoop].
  - rewrite (recvLocked_ok s pool _ Hr Ht Hd). cbn [stream fmap list_fmap concat app] in *. split.
    + intros Hl. rewrite (proj2 (Z.ltb_lt _ _)) by done. by exists s, pool.
    + intros Hl Hm. rewrite (proj2 (Z.ltb_ge _ _)) by done. rewrite Hm. cbn [negb]. destruct (Hduring fuel s) as [H1 H2]; [done|].
      unfold Fini. rewrite H1, H2. cbn [negb]. by do 2 eexists.
  - apply Forall_cons in Hs as [[Hw Hp] Hs]. cbn in Hw, Hp. rewrite (recvLocked_ok s pool _ Hr Ht Hd).
    assert (Es : stream ((pad, p) :: sent) ++ tail = packetImage pad p ++ stream sent ++ tail) by (unfold stream; cbn [fmap list_fmap concat fst snd]; by rewrite <- (assoc_L (++))).
    pose proof (packetImage_size pad p Hw Hp) as Hsz. rewrite Es in *. pose proof (zlen_nonneg (stream sent ++ tail)).
    rewrite (proj2 (Z.ltb_ge _ _)) by (rewrite zlen_app; lia). 
    assert (Ez : ztake sizeof_PRO_SERVICE_PACKET (packetImage pad p ++ stream sent ++ tail) = packetImage pad p) by (rewrite <- Hsz; apply ztake_app_exact).
    rewrite Ez, packetAt_image by done.
    assert (Hm : CheckMagic p = true) by (unfold CheckMagic; destruct (wp_magic _ Hw) as [-> ->]; done). rewrite Hm. cbn [negb].
    assert (Hd' : pool_rep (Flush sizeof_PRO_SERVICE_PACKET pool) (stream sent ++ tail)).
    { rewrite <- (zdrop_app_exact (packetImage pad p) (stream sent ++ tail)), Hsz. apply Flush_ok; [done|]. rewrite zlen_app. lia. }
    destruct (Hduring fuel s) as [H1 H2]; [done|]. destruct (IH fuel (during fuel s) _ Hs ltac:(cbn in Hf; lia) H1 H2 Hd') as [IH1 IH2]. split.
    + intros Hl. destruct (IH1 Hl) as (s' & pool' & -> & H3). cbn [mbind option_bind]. by exists s', pool'.
    + intros Hl Hb. destruct (IH2 Hl Hb) as (s' & pool' & -> & H3). cbn [mbind option_bind]. by exists s', pool'.
Qed.
End receive.

(** C19: What goes into a pipe comes out of it.  However the transport has cut the stream,
    when its unread bytes are those of whole packets and the beginning of another, [OnRecv]
    passes on exactly these packets, every member of them, in their order, and leaves the
    beginning for the next call; with bytes that are no packet after them, it passes on the
    packets, tells the observer that the pipe is closed, and gives up transport and observer.
    Between its turns the observer and others may use the pipe. *)
Theorem pipe_stream `{HP : IProRecvPool P} `{!RecvPoolLaws P} during trans (s : t) (pool : P) sent tail :
  (forall n s, ready s = true /\ m_trans s = trans -> ready (during n s) = true /\ m_trans (during n s) = trans) ->
  ready s = true -> m_trans s = trans -> Forall sendable sent -> pool_rep pool (stream sent ++ tail) ->
  (zlen tail < sizeof_PRO_SERVICE_PACKET -> exists s' pool', OnRecv during trans s pool = Some (s', pool', UpRecv <$> sent.*2) /\
     pool_rep pool' tail /\ ready s' = true) /\
  (sizeof_PRO_SERVICE_PACKET <= zlen tail -> CheckMagic (packetAt (ztake sizeof_PRO_SERVICE_PACKET tail)) = false -> exists s' pool',
     OnRecv during trans s pool = Some (s', pool', (UpRecv <$> sent.*2) ++ [UpClose; FiniTransport trans; ReleaseTransport trans; ReleaseObserver]) /\ ready s' = false).
Proof.
  intros Hdu Hr Ht Hs Hd. assert (Hn : trans <> 0) by (unfold ready in Hr; rewrite <- Ht; by apply andb_true_iff in Hr as [_ ?%negb_true_iff%Z.eqb_neq]).
  unfold OnRecv. rewrite (proj2 (Z.eqb_neq _ _) Hn).
  assert (Hf : (length sent < S (Z.to_nat (PeekDataSize pool / sizeof_PRO_SERVICE_PACKET)))%nat).
  { rewrite (PeekDataSize_law pool _ Hd), zlen_app, stream_size by done. pose proof (zlen_nonneg tail). unfold sizeof_PRO_SERVICE_PACKET.
    assert (zlen sent <= (96 * zlen sent + zlen tail) / 96) by (apply Z.div_le_lower_bound; lia). unfold zlen in *. lia. }
  destruct (recvLoop_ok during trans Hdu sent tail _ s pool Hs Hf Hr Ht Hd) as [H1 H2]. split; [|exact H2].
  intros Hl. destruct (H1 Hl) as (s' & pool' & E & H3 & H4 & _). by exists s', pool'.
Qed.

(** Two packets and ten bytes of a third. *)
Definition demoSent : list (list Z * PRO_SERVICE_PACKET) :=
  [(replicate 27 0, packetOf (mkC2s 11 0 sock0) s2c0); (replicate 27 7, packetOf c2s0 (mkS2c 11 1 258 (mkSock 5000 40 true)))].
Lemma pipe_stream_witness : exists s' pool', OnRecv (P := list Z) (fun _ s => s) 5 (mkPipe true 5 [] []) (stream demoSent ++ replicate 10 42) =
    Some (s', pool', [UpRecv (packetOf (mkC2s 11 0 sock0) s2c0); UpRecv (packetOf c2s0 (mkS2c 11 1 258 (mkSock 5000 40 true)))]) /\ pool' = replicate 10 42.
Proof.
  destruct (pipe_stream (P := list Z) (fun _ s => s) 5 (mkPipe true 5 [] []) (stream demoSent ++ replicate 10 42) demoSent (replicate 10 42)) as [H _]; try done.
  { repeat constructor; cbn; lia. }
  destruct H as (s' & pool' & E & Hp & _); [done|]. by exists s', pool'.
Defined.
End PipeTheorems.
