(* ===== verification/ServiceHub.v ===== *)
(** * The service hub ([pro_service_hub.cpp])

    The hub owns the acceptor of a public port.  Connections for service 0 come from hosts
    on this machine and become pipes; a host registers its service over its pipe.  Every
    other connection is passed to the host of its service: the descriptor goes over the pipe,
    and the hub keeps its own until the host has answered or five seconds are over.

    The methods hold the lock all the way but for the deletion of pipes.  What the calls
    give and the clock are arguments, the calls are effects.  This is the build for Linux. *)

From S2P Require Import Prelude RefCount StlMap TimerFactory ServicePipe.

Module CProServiceHub.
Import ServicePackets.

Local Abbreviation SOCK_TIMEOUT := 5.
Local Abbreviation PIPE_TIMEOUT := 10.

(** [PRO_SERVICE_PIPE], ordered by its pipe *)
Record PRO_SERVICE_PIPE := mkServicePipe { pipe : Z; pending : bool; p_expireTick : Z; p_serviceId : Z; p_processId : Z }.
#[export] Instance pipe_key : StlKeyed PRO_SERVICE_PIPE Z := pipe.

(** [CProServiceHub]; [m_reactor] is whether it is set *)
Record t := mkHub {
  m_reactor : bool;
  m_acceptor : Z;
  m_timerId : Z;
  m_allPipes : list PRO_SERVICE_PIPE;
  m_serviceId2Pipe : list (Z * PRO_SERVICE_PIPE);
  m_expireSocks : list PRO_SERVICE_SOCK
}.

Inductive effect :=
  | CreateAcceptor (acceptor servicePort timeoutInSeconds : Z)
  | ScheduleTimer (timerId : Z)
  | CancelTimer (timerId : Z)
  | DeleteAcceptor (acceptor : Z)
  | CreatePipe (pipe sockId : Z) (unixSocket : bool)
  | DeletePipe (pipe : Z)
  | PipeSendFd (pipe : Z) (packet : PRO_SERVICE_PACKET)
  | CloseSock (sockId : Z) (linger : bool).

Definition construct : t := mkHub false 0 0 [] [] [].
Definition setPipes (all : list PRO_SERVICE_PIPE) (services : list (Z * PRO_SERVICE_PIPE)) (s : t) : t :=
  mkHub (m_reactor s) (m_acceptor s) (m_timerId s) all services (m_expireSocks s).
Definition setSocks (socks : list PRO_SERVICE_SOCK) (s : t) : t :=
  mkHub (m_reactor s) (m_acceptor s) (m_timerId s) (m_allPipes s) (m_serviceId2Pipe s) socks.

(** The guard of the methods *)
Definition ready (s : t) : bool := m_reactor s && negb (m_acceptor s =? 0).

(** [Init]; [acceptor] and [timerId] are what the calls give *)
Definition Init (servicePort timeoutInSeconds acceptor timerId : Z) (s : t) : bool * t * list effect :=
  if servicePort =? 0 then (false, s, []) else
  if m_reactor s || negb (m_acceptor s =? 0) then (false, s, []) else
  if acceptor =? 0 then (false, s, [CreateAcceptor 0 servicePort timeoutInSeconds]) else
  (true, mkHub true acceptor timerId (m_allPipes s) (m_serviceId2Pipe s) (m_expireSocks s),
   [CreateAcceptor acceptor servicePort timeoutInSeconds; ScheduleTimer timerId]).

(** [ProCloseSockId] does nothing for -1. *)
Definition closeSock (k : Z) (linger : bool) : list effect := if k =? -1 then [] else [CloseSock k linger].
Definition closeAll (l : list PRO_SERVICE_SOCK) : list effect := concat ((fun ss => closeSock (sockId ss) false) <$> l).

(** [Fini] *)
Definition Fini (s : t) : t * list effect :=
  if negb (ready s) then (s, []) else
  (construct, [CancelTimer (m_timerId s)] ++ closeAll (m_expireSocks s) ++ ((fun sp => DeletePipe (pipe sp)) <$> m_allPipes s) ++
     [DeleteAcceptor (m_acceptor s)]).

(** [OnAcceptIpc]; [localhost] is whether the address is 127.0.0.1, [newPipe] what
    [ProCreateServicePipe] gives *)
Definition OnAcceptIpc (k : Z) (unix : bool) (localhost : bool) (newPipe tick : Z) (s : t) : t * list effect :=
  if negb localhost then (s, closeSock k false) else
  if negb unix then (s, closeSock k false) else
  if negb (ready s) then (s, closeSock k false) else
  if newPipe =? 0 then (s, CreatePipe 0 k unix :: closeSock k false) else
  (setPipes (stl_insert (mkServicePipe newPipe true (tick + PIPE_TIMEOUT * 1000) 0 0) (m_allPipes s)) (m_serviceId2Pipe s) s,
   [CreatePipe newPipe k unix]).

(** [OnAcceptOther] *)
Definition OnAcceptOther (k : Z) (unix : bool) (serviceId serviceOpt nonce tick : Z) (s : t) : t * list effect :=
  if negb (ready s) then (s, closeSock k false) else
  match stl_find serviceId (m_serviceId2Pipe s) with
  | None => (s, closeSock k false)
  | Some (_, sp) =>
      let oldSock := mkSock (tick + SOCK_TIMEOUT * 1000) k unix in
      (setSocks (stl_insert oldSock (m_expireSocks s)) s, [PipeSendFd (pipe sp) (packetOf c2s0 (mkS2c serviceId serviceOpt nonce oldSock))])
  end.

(** [OnAccept] *)
Definition OnAccept (acceptor k : Z) (unix localhost : bool) (serviceId serviceOpt nonce newPipe tick : Z) (s : t) : t * list effect :=
  if (acceptor =? 0) || (k =? -1) then (s, []) else
  if serviceId =? 0 then OnAcceptIpc k unix localhost newPipe tick s
  else OnAcceptOther k unix serviceId serviceOpt nonce tick s.

(** [OnRecv] *)
Definition OnRecv (p : Z) (packet : PRO_SERVICE_PACKET) (tick : Z) (s : t) : t * list effect :=
  if (p =? 0) || negb (CheckMagic packet) then (s, []) else
  if negb (ready s) then (s, []) else
  match stl_find p (m_allPipes s) with
  | None => (s, [])
  | Some sp =>
      let c := c2s packet in
      if pending sp then
        if bool_decide (stl_find (c_serviceId c) (m_serviceId2Pipe s) <> None) then (s, []) else
        let sp := mkServicePipe (pipe sp) false (tick + PIPE_TIMEOUT * 1000) (c_serviceId c) (c_processId c) in
        (setPipes (stl_insert sp (stl_erase p (m_allPipes s))) (stl_assign (p_serviceId sp, sp) (m_serviceId2Pipe s)) s, [])
      else
        if negb (c_serviceId c =? p_serviceId sp) || negb (c_processId c =? p_processId sp) then (s, []) else
        let sp := mkServicePipe (pipe sp) false (tick + PIPE_TIMEOUT * 1000) (p_serviceId sp) (p_processId sp) in
        let all := stl_insert sp (stl_erase p (m_allPipes s)) in
        if sockId (c_oldSock c) =? -1 then (setPipes all (m_serviceId2Pipe s) s, []) else
        (setSocks (stl_erase (stl_key (c_oldSock c)) (m_expireSocks s)) (setPipes all (m_serviceId2Pipe s) s), [CloseSock (sockId (c_oldSock c)) true])
  end.

(** A pipe leaves both containers. *)
Definition removePipe (sp : PRO_SERVICE_PIPE) (s : t) : t :=
  let services :=
    match stl_find (p_serviceId sp) (m_serviceId2Pipe s) with
    | Some (_, sp2) => if pipe sp2 =? pipe sp then stl_erase (p_serviceId sp) (m_serviceId2Pipe s) else m_serviceId2Pipe s
    | None => m_serviceId2Pipe s
    end in
  setPipes (stl_erase (pipe sp) (m_allPipes s)) services s.

(** [OnClose] *)
Definition OnClose (p : Z) (s : t) : t * list effect :=
  if p =? 0 then (s, []) else
  if negb (ready s) then (s, []) else
  match stl_find p (m_allPipes s) with
  | None => (s, [])
  | Some sp => (removePipe sp s, [DeletePipe p])
  end.

(** The two loops of [OnTimer]: sockets that have expired are at the front, pipes are
    anywhere *)
Fixpoint expireLoop (tick : Z) (socks : list PRO_SERVICE_SOCK) : list PRO_SERVICE_SOCK * list effect :=
  match socks with
  | [] => ([], [])
  | ss :: socks' =>
      if expireTick ss >? tick then (socks, []) else
      let '(rest, l) := expireLoop tick socks' in (rest, closeSock (sockId ss) false ++ l)
  end.
Definition pipeLoop (tick : Z) (all : list PRO_SERVICE_PIPE) (s : t) : t * list Z :=
  foldl (fun '(s, pipes) sp => if p_expireTick sp >? tick then (s, pipes) else (removePipe sp s, stl_insert (pipe sp) pipes)) (s, []) all.

(** [OnTimer] *)
Definition OnTimer (timerId tick : Z) (s : t) : t * list effect :=
  if timerId =? 0 then (s, []) else
  if negb (ready s) then (s, []) else
  if negb (timerId =? m_timerId s) then (s, []) else
  let '(socks, l) := expireLoop tick (m_expireSocks s) in
  let '(s, pipes) := pipeLoop tick (m_allPipes s) (setSocks socks s) in
  (s, l ++ (DeletePipe <$> pipes)).
End CProServiceHub.

(** ** What a hub does in any run *)

Module HubRuns.
Import ServicePackets CProServiceHub.

Inductive call :=
  | CInit (servicePort timeoutInSeconds acceptor timerId : Z)
  | CFini
  | CAccept (acceptor k : Z) (unix localhost : bool) (serviceId serviceOpt nonce newPipe tick : Z)
  | CRecv (p : Z) (packet : PRO_SERVICE_PACKET) (tick : Z)
  | CClose (p : Z)
  | CTimer (timerId tick : Z).
Definition exec (c : call) (s : t) : t * list effect :=
  match c with
  | CInit servicePort timeoutInSeconds acceptor timerId => let '(_, s, l) := Init servicePort timeoutInSeconds acceptor timerId s in (s, l)
  | CFini => Fini s
  | CAccept acceptor k unix localhost serviceId serviceOpt nonce newPipe tick => OnAccept acceptor k unix localhost serviceId serviceOpt nonce newPipe tick s
  | CRecv p packet tick => OnRecv p packet tick s
  | CClose p => OnClose p s
  | CTimer timerId tick => OnTimer timerId tick s
  end.

(** New objects are new: a pipe is not one of the hub's, a socket none that the hub still
    has open. *)
Definition fresh (c : call) (s : t) : Prop :=
  match c with
  | CAccept _ k _ _ _ _ _ newPipe _ => (newPipe = 0 \/ newPipe ∉ pipe <$> m_allPipes s) /\ k ∉ sockId <$> m_expireSocks s
  | _ => True
  end.

(** A host answers in time: for a socket that the hub still has open for it. *)
Definition intime (c : call) (s : t) : Prop :=
  match c with
  | CRecv _ packet _ => let oldSock := c_oldSock (c2s packet) in sockId oldSock = -1 \/ stl_find (stl_key oldSock) (m_expireSocks s) <> None
  | _ => True
  end.

(** Runs in which all answers are in time, or, when not [timely], any. *)
Inductive reachable (timely : bool) : t -> list call -> list effect -> Prop :=
  | reach_construct : reachable timely construct [] []
  | reach_call s cs l c s' l' : reachable timely s cs l -> fresh c s -> (timely = true -> intime c s) -> exec c s = (s', l') ->
      reachable timely s' (cs ++ [c]) (l ++ l').

(** What is made, what is deleted, which sockets come in and where they go. *)
Definition madePipes (l : list effect) : list Z := concat ((fun e => match e with CreatePipe p _ _ => if p =? 0 then [] else [p] | _ => [] end) <$> l).
Definition gonePipes (l : list effect) : list Z := concat ((fun e => match e with DeletePipe p => [p] | _ => [] end) <$> l).
Definition madeAcceptors (l : list effect) : list Z := concat ((fun e => match e with CreateAcceptor a _ _ => if a =? 0 then [] else [a] | _ => [] end) <$> l).
Definition goneAcceptors (l : list effect) : list Z := concat ((fun e => match e with DeleteAcceptor a => [a] | _ => [] end) <$> l).
Definition got (c : call) : list Z := match c with CAccept acceptor k _ _ _ _ _ _ _ => if (acceptor =? 0) || (k =? -1) then [] else [k] | _ => [] end.
Definition leaves (l : list effect) : list Z :=
  concat ((fun e => match e with CloseSock k _ => [k] | CreatePipe p k _ => if p =? 0 then [] else [k] | _ => [] end) <$> l).

Lemma hub_app (l l' : list effect) : madePipes (l ++ l') = madePipes l ++ madePipes l' /\ gonePipes (l ++ l') = gonePipes l ++ gonePipes l' /\
  madeAcceptors (l ++ l') = madeAcceptors l ++ madeAcceptors l' /\ goneAcceptors (l ++ l') = goneAcceptors l ++ goneAcceptors l' /\
  leaves (l ++ l') = leaves l ++ leaves l'.
Proof. unfold madePipes, gonePipes, madeAcceptors, goneAcceptors, leaves. by rewrite !fmap_app, !concat_app. Qed.

(** *** The registry *)

Record registry (all : list PRO_SERVICE_PIPE) (services : list (Z * PRO_SERVICE_PIPE)) : Prop := mkRegistry {
  rg_all : stl_sorted all;
  rg_services : stl_sorted services;
  rg_registered : forall id sp, (id, sp) ∈ services -> p_serviceId sp = id /\ exists sp', sp' ∈ all /\ pipe sp' = pipe sp /\ pending sp' = false /\ p_serviceId sp' = id;
  rg_serves : forall sp, sp ∈ all -> pending sp = false -> exists sp', (p_serviceId sp, sp') ∈ services /\ pipe sp' = pipe sp
}.

Lemma pipe_unique all (sp sp' : PRO_SERVICE_PIPE) : stl_sorted all -> sp ∈ all -> sp' ∈ all -> pipe sp = pipe sp' -> sp = sp'.
Proof.
  intros Hs H1 H2 E. apply (stl_sorted_find_elem all sp Hs) in H1. apply (stl_sorted_find_elem all sp' Hs) in H2.
  change (stl_key sp) with (pipe sp) in H1. change (stl_key sp') with (pipe sp') in H2. rewrite E in H1. congruence.
Qed.
Lemma service_unique (services : list (Z * PRO_SERVICE_PIPE)) id sp sp' : stl_sorted services -> (id, sp) ∈ services -> (id, sp') ∈ services -> sp = sp'.
Proof.
  intros Hs H1 H2. apply (stl_sorted_find_elem services (id, sp) Hs) in H1. apply (stl_sorted_find_elem services (id, sp') Hs) in H2.
  change (stl_key (id, sp)) with id in H1. change (stl_key (id, sp')) with id in H2. congruence.
Qed.

Lemma elem_erase_pipe all p x : stl_sorted all -> x ∈ stl_erase p all <-> x ∈ all /\ pipe x <> p.
Proof.
  intros Hs. split.
  - intros Hx. split; [by apply stl_elem_erase in Hx|]. intros <-. pose proof (stl_find_erase_eq (pipe x) all Hs) as Hn.
    by eapply (stl_find_None_elem _ _ x) in Hn.
  - intros [Hx Hn]. destruct (stl_find p all) as [y|] eqn:Ey.
    + pose proof (stl_erase_Permutation p all y Ey) as Hp. rewrite Hp in Hx. apply elem_of_cons in Hx as [->|Hx]; [|done].
      apply stl_find_Some_elem in Ey as [_ Ey]. by destruct Hn.
    + by rewrite stl_erase_absent.
Qed.
Lemma elem_erase_service (services : list (Z * PRO_SERVICE_PIPE)) id x : stl_sorted services -> x ∈ stl_erase id services <-> x ∈ services /\ fst x <> id.
Proof.
  intros Hs. split.
  - intros Hx. split; [by apply stl_elem_erase in Hx|]. intros <-. pose proof (stl_find_erase_eq (fst x) services Hs) as Hn.
    by eapply (stl_find_None_elem _ _ x) in Hn.
  - intros [Hx Hn]. destruct (stl_find id services) as [y|] eqn:Ey.
    + pose proof (stl_erase_Permutation id services y Ey) as Hp. rewrite Hp in Hx. apply elem_of_cons in Hx as [->|Hx]; [|done].
      apply stl_find_Some_elem in Ey as [_ Ey]. by destruct Hn.
    + by rewrite stl_erase_absent.
Qed.

Lemma removePipe_ok s sp : registry (m_allPipes s) (m_serviceId2Pipe s) -> sp ∈ m_allPipes s ->
  let s' := removePipe sp s in registry (m_allPipes s') (m_serviceId2Pipe s') /\ m_allPipes s' = stl_erase (pipe sp) (m_allPipes s) /\
    m_allPipes s ≡ₚ sp :: m_allPipes s' /\ m_reactor s' = m_reactor s /\ m_acceptor s' = m_acceptor s /\ m_timerId s' = m_timerId s /\ m_expireSocks s' = m_expireSocks s.
Proof.
  intros [R1 R2 R3 R4] Hsp s'. assert (Ef : stl_find (pipe sp) (m_allPipes s) = Some sp) by by apply stl_sorted_find_elem.
  split; [|split; [done|]; split; [by apply stl_erase_Permutation|done]].
  assert (Hcase : m_serviceId2Pipe s' = m_serviceId2Pipe s /\ (forall sp2, (p_serviceId sp, sp2) ∈ m_serviceId2Pipe s -> pipe sp2 <> pipe sp) \/
    m_serviceId2Pipe s' = stl_erase (p_serviceId sp) (m_serviceId2Pipe s) /\ exists sp2, (p_serviceId sp, sp2) ∈ m_serviceId2Pipe s /\ pipe sp2 = pipe sp).
  { unfold s', removePipe. cbn [m_serviceId2Pipe setPipes]. destruct (stl_find (p_serviceId sp) (m_serviceId2Pipe s)) as [[id sp2]|] eqn:E2.
    - apply stl_find_Some_elem in E2 as [Hin Eid]. change (stl_key (id, sp2)) with id in Eid. subst id. destruct (Z.eqb_spec (pipe sp2) (pipe sp)) as [Ep|Ep].
      + right. split; [done|]. by exists sp2.
      + left. split; [done|]. intros sp3 H3. by rewrite (service_unique _ _ _ _ R2 H3 Hin).
    - left. split; [done|]. intros sp3 H3. by eapply (stl_find_None_elem _ _ (p_serviceId sp, sp3)) in E2. }
  split; cbn [m_allPipes removePipe setPipes]; fold (m_serviceId2Pipe s').
  - by apply stl_sorted_erase.
  - destruct Hcase as [[-> _]|[-> _]]; [done|]. by apply stl_sorted_erase.
  - intros id sp2 Hin. assert (Hin' : (id, sp2) ∈ m_serviceId2Pipe s) by (destruct Hcase as [[E _]|[E _]]; rewrite E in Hin; [done|by apply stl_elem_erase in Hin]).
    destruct (R3 _ _ Hin') as (E1 & sp' & H1 & H2 & H3 & H4). split; [done|]. exists sp'. split_and!; try done. apply elem_erase_pipe; [done|]. split; [done|].
    intros Ep. assert (sp' = sp) as -> by by eapply pipe_unique. subst id. destruct Hcase as [[_ Hno]|[E (sp3 & H3' & _)]].
    + rewrite H4 in Hno. by eapply Hno.
    + rewrite E in Hin. apply elem_erase_service in Hin as [_ Hn]; [|done]. cbn in Hn. by rewrite H4 in Hn.
  - intros x Hx Hp. apply elem_erase_pipe in Hx as [Hx Hn]; [|done]. destruct (R4 x Hx Hp) as (sp' & H1 & H2). exists sp'. split; [|done].
    destruct Hcase as [[-> _]|[-> (sp3 & H3 & H4)]]; [done|]. apply elem_erase_service; [done|]. split; [done|]. cbn. intros Eid.
    rewrite Eid in H1. assert (sp' = sp3) as -> by by eapply service_unique. congruence.
Qed.

Lemma insert_pipe_Permutation (pipes : list Z) p : p ∉ pipes -> stl_insert p pipes ≡ₚ p :: pipes.
Proof.
  intros Hn. apply stl_insert_Permutation. destruct (stl_find _ _) as [x|] eqn:E; [|done]. apply stl_find_Some_elem in E as [Hin E].
  change (stl_key x) with x in E. change (stl_key p) with p in E. by subst x.
Qed.

Lemma pipeLoop_ok tick : forall l s pipes, registry (m_allPipes s) (m_serviceId2Pipe s) -> (forall sp, sp ∈ l -> sp ∈ m_allPipes s) -> NoDup (pipe <$> l) ->
  (forall p, p ∈ pipes -> p ∉ pipe <$> l) -> exists s' pipes' gone,
  foldl (fun '(s, pipes) sp => if p_expireTick sp >? tick then (s, pipes) else (removePipe sp s, stl_insert (pipe sp) pipes)) (s, pipes) l = (s', pipes') /\
  registry (m_allPipes s') (m_serviceId2Pipe s') /\ m_allPipes s ≡ₚ gone ++ m_allPipes s' /\ pipes' ≡ₚ (pipe <$> gone) ++ pipes /\
  (forall sp, sp ∈ gone <-> sp ∈ l /\ p_expireTick sp <= tick) /\
  m_reactor s' = m_reactor s /\ m_acceptor s' = m_acceptor s /\ m_timerId s' = m_timerId s /\ m_expireSocks s' = m_expireSocks s.
Proof.
  induction l as [|sp l IH]; intros s pipes Hr Hin Hnd Hdis; cbn [foldl].
  { exists s, pipes, []. split_and!; try done. intros sp. split; [by intros ?%not_elem_of_nil|by intros [?%not_elem_of_nil _]]. }
  cbn [fmap list_fmap] in Hnd. apply NoDup_cons in Hnd as [Hn1 Hnd]. rewrite Z.gtb_ltb. destruct (Z.ltb_spec tick (p_expireTick sp)) as [Hlt|Hge].
  - destruct (IH s pipes Hr) as (s' & pipes' & gone & E & H1 & H2 & H3 & H4 & H5); [intros x Hx; apply Hin; by right|done|intros p Hp; apply Hdis in Hp; cbn in Hp; by apply not_elem_of_cons in Hp as [_ ?]|].
    exists s', pipes', gone. split_and!; try done; try apply H5. intros x. rewrite H4, elem_of_cons. split; [by intros [? ?]; auto|]. intros [[->|?] ?]; [lia|done].
  - destruct (removePipe_ok s sp Hr) as (Hr' & Eall & Hperm & E1 & E2 & E3 & E4); [apply Hin; left|].
    assert (Hp0 : pipe sp ∉ pipes) by (intros Hp; apply Hdis in Hp; apply Hp; left).
    destruct (IH (removePipe sp s) (stl_insert (pipe sp) pipes) Hr') as (s' & pipes' & gone & E & H1 & H2 & H3 & H4 & H5 & H6 & H7 & H8).
    + intros x Hx. rewrite Eall. apply elem_erase_pipe; [apply Hr|]. split; [apply Hin; by right|]. intros Ep. apply Hn1. rewrite <- Ep. by apply list_elem_of_fmap_2.
    + done.
    + intros p. rewrite insert_pipe_Permutation by done. intros [->|Hp]%elem_of_cons; [done|]. apply Hdis in Hp. by apply not_elem_of_cons in Hp as [_ ?].
    + exists s', pipes', (sp :: gone). split_and!; try done.
      * by rewrite Hperm, H2.
      * rewrite H3, insert_pipe_Permutation by done. cbn. solve_Permutation.
      * intros x. rewrite !elem_of_cons, H4. split; [intros [->|[? ?]]; [auto|auto]|]. intros [[->|?] ?]; [by left|by right].
Qed.

(** *** The invariant *)

Definition ids (s : t) : list Z := sockId <$> m_expireSocks s.
Definition heldAcceptor (s : t) : list Z := if m_acceptor s =? 0 then [] else [m_acceptor s].

Record inv (timely : bool) (s : t) (cs : list call) (l : list effect) : Prop := mkInv {
  hi_registry : registry (m_allPipes s) (m_serviceId2Pipe s);
  hi_socks : stl_sorted (m_expireSocks s);
  hi_ids : NoDup (ids s) /\ -1 ∉ ids s;
  hi_idle : m_reactor s = negb (m_acceptor s =? 0) /\ (m_reactor s = false -> s = construct);
  hi_pipes : madePipes l ≡ₚ gonePipes l ++ (pipe <$> m_allPipes s);
  hi_acceptors : madeAcceptors l ≡ₚ goneAcceptors l ++ heldAcceptor s;
  hi_sockets : timely = true -> concat (got <$> cs) ≡ₚ leaves l ++ ids s
}.

(** What one call does. *)
Record moved (timely : bool) (c : call) (s s' : t) (l : list effect) : Prop := mkMoved {
  hm_registry : registry (m_allPipes s') (m_serviceId2Pipe s');
  hm_socks : stl_sorted (m_expireSocks s');
  hm_ids : NoDup (ids s') /\ -1 ∉ ids s';
  hm_idle : m_reactor s' = negb (m_acceptor s' =? 0) /\ (m_reactor s' = false -> s' = construct);
  hm_pipes : madePipes l ++ (pipe <$> m_allPipes s) ≡ₚ gonePipes l ++ (pipe <$> m_allPipes s');
  hm_acceptors : madeAcceptors l ++ heldAcceptor s ≡ₚ goneAcceptors l ++ heldAcceptor s';
  hm_sockets : timely = true -> got c ++ ids s ≡ₚ leaves l ++ ids s'
}.

Lemma hub_moved_inv timely c s s' cs l l' : inv timely s cs l -> moved timely c s s' l' -> inv timely s' (cs ++ [c]) (l ++ l').
Proof.
  intros [I1 I2 I3 I4 I5 I6 I7] [M1 M2 M3 M4 M5 M6 M7]. destruct (hub_app l l') as (E1 & E2 & E3 & E4 & E5).
  split; try done; rewrite ?E1, ?E2, ?E3, ?E4, ?E5, ?fmap_app, ?concat_app; cbn [fmap list_fmap concat]; rewrite ?app_nil_r.
  - rewrite I5, <- !(assoc_L (++)). f_equiv. by rewrite (Permutation_app_comm (pipe <$> m_allPipes s)), M5.
  - rewrite I6, <- !(assoc_L (++)). f_equiv. by rewrite (Permutation_app_comm (heldAcceptor s)), M6.
  - intros Ht. rewrite (I7 Ht), <- !(assoc_L (++)). f_equiv. by rewrite (Permutation_app_comm (ids s)), (M7 Ht).
Qed.

(** A call that changes nothing. *)
Lemma hub_moved_same timely c s cs l l' : inv timely s cs l -> madePipes l' = [] -> gonePipes l' = [] -> madeAcceptors l' = [] -> goneAcceptors l' = [] ->
  (timely = true -> got c = leaves l') -> moved timely c s s l'.
Proof.
  intros [I1 I2 I3 I4 I5 I6 I7] E1 E2 E3 E4 E5. split; rewrite ?E1, ?E2, ?E3, ?E4; try done. intros Ht. by rewrite (E5 Ht).
Qed.

Lemma closeAll_ok socks : -1 ∉ sockId <$> socks -> let l := closeAll socks in
  madePipes l = [] /\ gonePipes l = [] /\ madeAcceptors l = [] /\ goneAcceptors l = [] /\ leaves l = sockId <$> socks.
Proof.
  induction socks as [|ss socks IH]; cbn zeta; [done|]. intros [Hn Hno]%not_elem_of_cons. specialize (IH Hno) as (H1 & H2 & H3 & H4 & H5).
  unfold closeAll in *. cbn [fmap list_fmap concat]. destruct (hub_app (closeSock (sockId ss) false) (concat ((fun x => closeSock (sockId x) false) <$> socks))) as (-> & -> & -> & -> & ->).
  rewrite H1, H2, H3, H4, H5. unfold closeSock. rewrite (proj2 (Z.eqb_neq _ _)) by done. done.
Qed.
Lemma deletePipes_ok ps : let l := DeletePipe <$> ps in madePipes l = [] /\ gonePipes l = ps /\ madeAcceptors l = [] /\ goneAcceptors l = [] /\ leaves l = [].
Proof. induction ps as [|p ps (H1 & H2 & H3 & H4 & H5)]; [done|]. cbn zeta in *. split_and!; try done. cbn. f_equal. exact H2. Qed.

(** Sockets that have expired are closed, all of them. *)
Lemma expireLoop_ok tick : forall socks, stl_sorted socks -> -1 ∉ sockId <$> socks -> exists gone rest, expireLoop tick socks = (rest, closeAll gone) /\
  socks = gone ++ rest /\ Forall (fun ss => expireTick ss <= tick) gone /\ Forall (fun ss => tick < expireTick ss) rest.
Proof.
  induction socks as [|ss socks IH]; cbn [expireLoop]; intros Hs Hno; [by exists [], []|]. destruct Hs as [Hss Hs].
  apply not_elem_of_cons in Hno as [_ Hno]. rewrite Z.gtb_ltb. destruct (Z.ltb_spec tick (expireTick ss)) as [Hlt|Hge].
  - exists [], (ss :: socks). split_and!; try done. constructor; [done|]. eapply Forall_impl; [exact Hss|]. intros y Hy.
    unfold stl_less, ZZ_stl_less in Hy. cbn in Hy. destruct (Z.ltb_spec (expireTick ss) (expireTick y)); [lia|].
    rewrite Z.gtb_ltb in Hy. destruct (Z.ltb_spec (expireTick y) (expireTick ss)); [done|]. lia.
  - destruct (IH Hs Hno) as (gone & rest & -> & -> & H1 & H2). exists (ss :: gone), rest. split; [done|]. split; [done|]. split; [by constructor|done].
Qed.

Lemma registry_nil : registry [] [].
Proof. split; [done|done| |]; [by intros ? ? ?%not_elem_of_nil|by intros ? ?%not_elem_of_nil]. Qed.

Lemma hub_Fini_moved timely s s' cs l l' : inv timely s cs l -> Fini s = (s', l') -> moved timely CFini s s' l'.
Proof.
  intros Hi. unfold Fini. destruct (ready s) eqn:Hr; cbn [negb]; intros [= <- <-]; [|by apply (hub_moved_same _ _ _ _ _ _ Hi)].
  pose proof Hi as [I1 I2 I3 I4 I5 I6 I7]. destruct (closeAll_ok (m_expireSocks s) (proj2 I3)) as (C1 & C2 & C3 & C4 & C5).
  change ((fun sp => DeletePipe (pipe sp)) <$> m_allPipes s) with ((DeletePipe ∘ pipe) <$> m_allPipes s). rewrite list_fmap_compose.
  destruct (deletePipes_ok (pipe <$> m_allPipes s)) as (D1 & D2 & D3 & D4 & D5).
  apply andb_true_iff in Hr as [_ Hr%negb_true_iff].
  set (L := CancelTimer (m_timerId s) :: _).
  assert (HL : madePipes L = [] /\ gonePipes L = pipe <$> m_allPipes s /\ madeAcceptors L = [] /\ goneAcceptors L = [m_acceptor s] /\ leaves L = ids s).
  { unfold L. change (CancelTimer (m_timerId s) :: ?x) with ([CancelTimer (m_timerId s)] ++ x). destruct (hub_app [CancelTimer (m_timerId s)] (closeAll (m_expireSocks s) ++ (DeletePipe <$> (pipe <$> m_allPipes s)) ++ [DeleteAcceptor (m_acceptor s)])) as (-> & -> & -> & -> & ->).
    destruct (hub_app (closeAll (m_expireSocks s)) ((DeletePipe <$> (pipe <$> m_allPipes s)) ++ [DeleteAcceptor (m_acceptor s)])) as (-> & -> & -> & -> & ->).
    destruct (hub_app (DeletePipe <$> (pipe <$> m_allPipes s)) [DeleteAcceptor (m_acceptor s)]) as (-> & -> & -> & -> & ->).
    rewrite C1, C2, C3, C4, C5, D1, D2, D3, D4, D5. cbn. by rewrite !app_nil_r. }
  destruct HL as (L1 & L2 & L3 & L4 & L5). split; rewrite ?L1, ?L2, ?L3, ?L4, ?L5; try done.
  - apply registry_nil.
  - split; [constructor|apply not_elem_of_nil].
  - cbn. by rewrite app_nil_r.
  - unfold heldAcceptor. rewrite Hr. done.
  - intros _. cbn. by rewrite app_nil_r.
Qed.

Lemma hub_Ipc_moved timely acceptor k unix localhost opt nonce p tick s s' cs l l' : inv timely s cs l -> k <> -1 -> acceptor <> 0 -> p = 0 \/ p ∉ pipe <$> m_allPipes s ->
  OnAcceptIpc k unix localhost p tick s = (s', l') -> moved timely (CAccept acceptor k unix localhost 0 opt nonce p tick) s s' l'.
Proof.
  intros Hi Hk Ha Hp. set (c := CAccept _ _ _ _ _ _ _ _ _). assert (Hg : got c = [k]) by (unfold got, c; by rewrite (proj2 (Z.eqb_neq _ _) Ha), (proj2 (Z.eqb_neq _ _) Hk)).
  assert (Hc : closeSock k false = [CloseSock k false]) by (unfold closeSock; by rewrite (proj2 (Z.eqb_neq _ _) Hk)).
  unfold OnAcceptIpc. rewrite Hc. destruct localhost; cbn [negb]; [|by intros [= <- <-]; apply (hub_moved_same _ _ _ _ _ _ Hi)].
  destruct unix; cbn [negb]; [|by intros [= <- <-]; apply (hub_moved_same _ _ _ _ _ _ Hi)].
  destruct (ready s) eqn:Hr; cbn [negb]; [|by intros [= <- <-]; apply (hub_moved_same _ _ _ _ _ _ Hi)].
  destruct (Z.eqb_spec p 0) as [->|Hp0]; intros [= <- <-]; [by apply (hub_moved_same _ _ _ _ _ _ Hi)|].
  destruct Hp as [?|Hp]; [done|].
  pose proof Hi as [I1 I2 I3 I4 I5 I6 I7]. pose proof I1 as [R1 R2 R3 R4]. set (sp := mkServicePipe p true _ 0 0).
  assert (Hf : stl_find (stl_key sp) (m_allPipes s) = None).
  { destruct (stl_find _ _) as [y|] eqn:E; [|done]. apply stl_find_Some_elem in E as [Hin E]. change (stl_key sp) with p in E. change (stl_key y) with (pipe y) in E.
    destruct Hp. rewrite <- E. by apply list_elem_of_fmap_2. }
  pose proof (stl_insert_Permutation sp (m_allPipes s) Hf) as Hperm.
  split; cbn [m_allPipes m_serviceId2Pipe m_expireSocks setPipes m_reactor m_acceptor]; try done.
  - split; [by apply stl_sorted_insert|done| |].
    + intros id x Hx. destruct (R3 id x Hx) as (E & sp' & H1 & H2). split; [done|]. exists sp'. split; [|done]. rewrite Hperm. by right.
    + intros x. rewrite Hperm. intros [->|Hx]%elem_of_cons; [done|]. by apply R4.
  - split; [apply I4|]. intros E. cbn in E. apply andb_true_iff in Hr as [Hr _]. congruence.
  - unfold madePipes, gonePipes. cbn. rewrite (proj2 (Z.eqb_neq _ _) Hp0). by rewrite Hperm.
  - intros _. rewrite Hg. unfold leaves. cbn. by rewrite (proj2 (Z.eqb_neq _ _) Hp0).
Qed.

Lemma hub_Other_moved timely acceptor k unix localhost id opt nonce p tick s s' cs l l' : inv timely s cs l -> k <> -1 -> acceptor <> 0 -> k ∉ ids s ->
  OnAcceptOther k unix id opt nonce tick s = (s', l') -> moved timely (CAccept acceptor k unix localhost id opt nonce p tick) s s' l'.
Proof.
  intros Hi Hk Ha Hno. set (c := CAccept _ _ _ _ _ _ _ _ _). assert (Hg : got c = [k]) by (unfold got, c; by rewrite (proj2 (Z.eqb_neq _ _) Ha), (proj2 (Z.eqb_neq _ _) Hk)).
  assert (Hc : closeSock k false = [CloseSock k false]) by (unfold closeSock; by rewrite (proj2 (Z.eqb_neq _ _) Hk)).
  unfold OnAcceptOther. rewrite Hc. destruct (ready s) eqn:Hr; cbn [negb]; [|by intros [= <- <-]; apply (hub_moved_same _ _ _ _ _ _ Hi)].
  destruct (stl_find id (m_serviceId2Pipe s)) as [[id' sp]|]; intros [= <- <-]; [|by apply (hub_moved_same _ _ _ _ _ _ Hi)].
  pose proof Hi as [I1 I2 [I3 I3'] I4 I5 I6 I7]. set (ss := mkSock _ k unix).
  assert (Hf : stl_find (stl_key ss) (m_expireSocks s) = None).
  { destruct (stl_find _ _) as [y|] eqn:E; [|done]. apply stl_find_Some_elem in E as [Hin E]. change (stl_key ss) with (tick + 5 * 1000, k) in E.
    change (stl_key y) with (expireTick y, sockId y) in E. injection E as _ E. destruct Hno. rewrite <- E. by apply list_elem_of_fmap_2. }
  pose proof (stl_insert_Permutation ss (m_expireSocks s) Hf) as Hperm.
  assert (Hids : ids (setSocks (stl_insert ss (m_expireSocks s)) s) ≡ₚ k :: ids s) by (unfold ids; cbn [m_expireSocks setSocks]; by rewrite Hperm).
  split; cbn [m_allPipes m_serviceId2Pipe m_expireSocks setSocks m_reactor m_acceptor]; try done.
  - by apply stl_sorted_insert.
  - rewrite Hids. split; [by constructor|]. by apply not_elem_of_cons.
  - split; [apply I4|]. intros E. cbn in E. apply andb_true_iff in Hr as [Hr _]. congruence.
  - intros _. by rewrite Hg, Hids.
Qed.

Lemma erase_socks k socks (s : t) : NoDup (ids s) -> stl_find k (m_expireSocks s) = Some socks -> stl_key socks = k /\ ids s ≡ₚ sockId socks :: ids (setSocks (stl_erase k (m_expireSocks s)) s).
Proof.
  intros Hnd Hf. split; [by apply stl_find_Some_elem in Hf as [_ ?]|]. unfold ids. cbn [m_expireSocks setSocks]. by rewrite (stl_erase_Permutation k (m_expireSocks s) socks Hf) at 1.
Qed.

(** A pipe with new fields. *)
Lemma update_pipe all (sp sp' : PRO_SERVICE_PIPE) : stl_sorted all -> sp ∈ all -> pipe sp' = pipe sp ->
  stl_insert sp' (stl_erase (pipe sp) all) ≡ₚ sp' :: stl_erase (pipe sp) all /\ stl_sorted (stl_insert sp' (stl_erase (pipe sp) all)) /\
  pipe <$> stl_insert sp' (stl_erase (pipe sp) all) ≡ₚ pipe <$> all.
Proof.
  intros Hs Hin Ep. pose proof (stl_sorted_find_elem all sp Hs Hin) as Hf. change (stl_key sp) with (pipe sp) in Hf.
  assert (Hp : stl_insert sp' (stl_erase (pipe sp) all) ≡ₚ sp' :: stl_erase (pipe sp) all).
  { apply stl_insert_Permutation. change (stl_key sp') with (pipe sp'). rewrite Ep. by apply stl_find_erase_eq. }
  split; [done|]. split; [by apply stl_sorted_insert, stl_sorted_erase|]. rewrite Hp. rewrite (stl_erase_Permutation _ _ _ Hf) at 2. cbn. by rewrite Ep.
Qed.

Lemma hub_Recv_moved timely p packet tick s s' cs l l' : inv timely s cs l -> (timely = true -> intime (CRecv p packet tick) s) ->
  OnRecv p packet tick s = (s', l') -> moved timely (CRecv p packet tick) s s' l'.
Proof.
  intros Hi Hin. unfold OnRecv. assert (Hsame : moved timely (CRecv p packet tick) s s []) by by apply (hub_moved_same _ _ _ _ _ _ Hi).
  destruct (_ || _); [by intros [= <- <-]|]. destruct (ready s) eqn:Hr; cbn [negb]; [|by intros [= <- <-]].
  apply andb_true_iff in Hr as [Hr _].
  destruct (stl_find p (m_allPipes s)) as [sp|] eqn:Ef; [|by intros [= <- <-]]. apply stl_find_Some_elem in Ef as [Hsp Ep]. change (stl_key sp) with (pipe sp) in Ep. subst p.
  pose proof Hi as [I1 I2 I3 I4 I5 I6 I7]. pose proof I1 as [R1 R2 R3 R4]. set (c := c2s packet) in *.
  destruct (pending sp) eqn:Epd.
  - destruct (stl_find (c_serviceId c) (m_serviceId2Pipe s)) as [y|] eqn:E2; [by intros [= <- <-]|]. cbn [negb bool_decide]. intros [= <- <-].
    set (sp' := mkServicePipe (pipe sp) false _ _ _). destruct (update_pipe (m_allPipes s) sp sp' R1 Hsp eq_refl) as (U1 & U2 & U3).
    assert (E3 : stl_assign (p_serviceId sp', sp') (m_serviceId2Pipe s) = stl_insert (p_serviceId sp', sp') (m_serviceId2Pipe s)) by by apply stl_assign_fresh.
    pose proof (stl_insert_Permutation (p_serviceId sp', sp') (m_serviceId2Pipe s) E2) as U4.
    split; cbn [m_allPipes m_serviceId2Pipe m_expireSocks setPipes m_reactor m_acceptor]; try done; try by rewrite U3.
    2: { split; [apply I4|cbn; congruence]. }
    change (c_serviceId c) with (p_serviceId sp'). rewrite E3.
    split; [done|by apply stl_sorted_insert| |].
    + intros id x. rewrite U4. intros [[= -> ->]|Hx]%elem_of_cons.
      * split; [done|]. exists sp'. split; [rewrite U1; left|done].
      * destruct (R3 id x Hx) as (E & sp2 & H1 & H2 & H3 & H4). split; [done|]. exists sp2. split; [|done]. rewrite U1. right. apply elem_erase_pipe; [done|]. split; [done|].
        intros E5. assert (sp2 = sp) as -> by by apply (pipe_unique (m_allPipes s)). congruence.
    + intros x. rewrite U1. intros [->|Hx]%elem_of_cons Hpx.
      * exists sp'. split; [|done]. rewrite U4. left.
      * apply elem_erase_pipe in Hx as [Hx _]; [|done]. destruct (R4 x Hx Hpx) as (y & H1 & H2). exists y. split; [|done]. rewrite U4. by right.
  - destruct (_ || _) eqn:E2; [by intros [= <- <-]|]. set (sp' := mkServicePipe (pipe sp) false _ _ _).
    destruct (update_pipe (m_allPipes s) sp sp' R1 Hsp eq_refl) as (U1 & U2 & U3).
    assert (Hreg : registry (stl_insert sp' (stl_erase (pipe sp) (m_allPipes s))) (m_serviceId2Pipe s)).
    { split; [done|done| |].
      - intros id x Hx. destruct (R3 id x Hx) as (E & sp2 & H1 & H2 & H3 & H4). split; [done|]. destruct (decide (pipe sp2 = pipe sp)) as [E5|E5].
        + assert (sp2 = sp) as -> by by apply (pipe_unique (m_allPipes s)). exists sp'. split; [rewrite U1; left|]. done.
        + exists sp2. split; [|done]. rewrite U1. right. by apply elem_erase_pipe.
      - intros x. rewrite U1. intros [->|Hx]%elem_of_cons Hpx; [by apply (R4 sp)|]. apply elem_erase_pipe in Hx as [Hx _]; [|done]. by apply R4. }
    destruct (Z.eqb_spec (sockId (c_oldSock c)) (-1)) as [Em|Em]; intros [= <- <-].
    + split; cbn [m_allPipes m_serviceId2Pipe m_expireSocks setPipes m_reactor m_acceptor]; try done; try by rewrite U3.
      split; [apply I4|cbn; congruence].
    + set (s1 := setPipes _ _ s). set (s2 := setSocks _ s1).
      assert (Hsub : (NoDup (ids s2) /\ -1 ∉ ids s2) /\ (timely = true -> ids s ≡ₚ sockId (c_oldSock c) :: ids s2)).
      { unfold s2. destruct (stl_find (stl_key (c_oldSock c)) (m_expireSocks s)) as [ss|] eqn:Es.
        - destruct (erase_socks _ ss s1 (proj1 I3) Es) as [Ek Hp]. change (ids s1) with (ids s) in Hp. rewrite Hp in I3. split.
          + destruct I3 as [[_ ?]%NoDup_cons [_ ?]%not_elem_of_cons]. by split.
          + intros _. change (stl_key ss) with (expireTick ss, sockId ss) in Ek. change (stl_key (c_oldSock c)) with (expireTick (c_oldSock c), sockId (c_oldSock c)) in Ek.
            injection Ek as _ <-. exact Hp.
        - unfold ids. cbn. rewrite stl_erase_absent by done. split; [done|]. intros Ht. destruct (Hin Ht) as [?|Hn]; [done|]. by destruct Hn. }
      destruct Hsub as [Hsub Hperm]. split; cbn [m_allPipes m_serviceId2Pipe m_expireSocks setPipes setSocks s2 s1 m_reactor m_acceptor]; try done.
      * by apply stl_sorted_erase.
      * by split; [apply I4|cbn; congruence].
Qed.

Lemma hub_Close_moved timely p s s' cs l l' : inv timely s cs l -> OnClose p s = (s', l') -> moved timely (CClose p) s s' l'.
Proof.
  intros Hi. unfold OnClose. assert (Hsame : moved timely (CClose p) s s []) by by apply (hub_moved_same _ _ _ _ _ _ Hi).
  destruct (_ =? _); [by intros [= <- <-]|]. destruct (ready s) eqn:Hr; cbn [negb]; [|by intros [= <- <-]]. apply andb_true_iff in Hr as [Hr _].
  destruct (stl_find p (m_allPipes s)) as [sp|] eqn:Ef; [|by intros [= <- <-]]. apply stl_find_Some_elem in Ef as [Hsp Ep]. change (stl_key sp) with (pipe sp) in Ep. subst p. intros [= <- <-].
  pose proof Hi as [I1 I2 I3 I4 I5 I6 I7]. destruct (removePipe_ok s sp I1 Hsp) as (H1 & _ & H2 & H3 & H4 & H5 & H6).
  split; try done; unfold ids, heldAcceptor; rewrite ?H3, ?H4, ?H6; try done; [split; [apply I4|congruence]|]. rewrite H2. done.
Qed.

Lemma hub_Timer_moved timely timerId tick s s' cs l l' : inv timely s cs l -> OnTimer timerId tick s = (s', l') -> moved timely (CTimer timerId tick) s s' l'.
Proof.
  intros Hi. unfold OnTimer. assert (Hsame : moved timely (CTimer timerId tick) s s []) by by apply (hub_moved_same _ _ _ _ _ _ Hi).
  destruct (_ =? _); [by intros [= <- <-]|]. destruct (ready s) eqn:Hr; cbn [negb]; [|by intros [= <- <-]]. apply andb_true_iff in Hr as [Hr _].
  destruct (negb _); [by intros [= <- <-]|]. pose proof Hi as [I1 I2 I3 I4 I5 I6 I7].
  destruct (expireLoop_ok tick (m_expireSocks s) I2 (proj2 I3)) as (gone & rest & E & Es & _ & _). rewrite E. unfold pipeLoop.
  destruct (pipeLoop_ok tick (m_allPipes s) (setSocks rest s) [] I1) as (s2 & pipes & dead & E2 & H1 & H2 & H3 & _ & H4 & H5 & _ & H6);
    [done|by apply (stl_sorted_NoDup (m_allPipes s)), I1|by intros p ?%not_elem_of_nil|]. rewrite E2. intros [= <- <-]. rewrite app_nil_r in H3.
  assert (Hno : -1 ∉ sockId <$> gone /\ -1 ∉ sockId <$> rest).
  { destruct I3 as [_ Hno]. unfold ids in Hno. rewrite Es, fmap_app in Hno. by apply not_elem_of_app in Hno. }
  destruct (closeAll_ok gone (proj1 Hno)) as (C1 & C2 & C3 & C4 & C5). destruct (deletePipes_ok pipes) as (D1 & D2 & D3 & D4 & D5).
  destruct (hub_app (closeAll gone) (DeletePipe <$> pipes)) as (J1 & J2 & J3 & J4 & J5).
  assert (Eids : ids s = (sockId <$> gone) ++ ids s2) by (unfold ids; rewrite H6, Es; apply fmap_app).
  split; try done; rewrite ?J1, ?J2, ?J3, ?J4, ?J5, ?C1, ?C2, ?C3, ?C4, ?C5, ?D1, ?D2, ?D3, ?D4, ?D5; unfold heldAcceptor; rewrite ?H4, ?H5, ?H6; try done.
  - cbn. rewrite Es in I2. by apply stl_sorted_app in I2 as (_ & ? & _).
  - destruct I3 as [N1 N2]. rewrite Eids in N1, N2. apply NoDup_app in N1 as (_ & _ & N1). by apply not_elem_of_app in N2 as [_ N2].
  - cbn in H4 |- *. split; [apply I4|congruence].
  - cbn [m_allPipes setSocks] in H2. rewrite H2, fmap_app, H3. done.
  - intros _. by rewrite Eids, app_nil_r.
Qed.

Lemma hub_exec_moved timely c s s' cs l l' : inv timely s cs l -> fresh c s -> (timely = true -> intime c s) -> exec c s = (s', l') -> moved timely c s s' l'.
Proof.
  intros Hi Hf Hin. destruct c; cbn [exec].
  - destruct (Init _ _ _ _ s) as [[b s1] l1] eqn:E. intros [= <- <-]. revert E. unfold Init.
    assert (Hsame : forall l1, l1 = [] \/ l1 = [CreateAcceptor 0 servicePort timeoutInSeconds] -> moved timely (CInit servicePort timeoutInSeconds acceptor timerId) s s l1)
      by (intros l2 [-> | ->]; by apply (hub_moved_same _ _ _ _ _ _ Hi)).
    destruct (_ =? _); [intros [= <- <- <-]; apply Hsame; by left|]. destruct (m_reactor s || _) eqn:E1; [intros [= <- <- <-]; apply Hsame; by left|].
    apply orb_false_iff in E1 as [E1 _]. destruct (Z.eqb_spec acceptor 0) as [->|Hn]; intros [= <- <- <-]; [apply Hsame; by right|].
    pose proof Hi as [I1 I2 I3 [_ I4] I5 I6 I7]. specialize (I4 E1). subst s.
    split; cbn [m_allPipes m_serviceId2Pipe m_expireSocks m_reactor m_acceptor]; try done.
    + rewrite (proj2 (Z.eqb_neq _ _) Hn). done.
    + unfold heldAcceptor, madeAcceptors. cbn. by rewrite (proj2 (Z.eqb_neq _ _) Hn).
  - by apply (hub_Fini_moved timely s s' cs l l').
  - unfold OnAccept. destruct Hf as [Hp Hk]. destruct (_ || _) eqn:E0.
    { intros [= <- <-]. apply (hub_moved_same _ _ _ _ _ _ Hi); try done. cbn. by rewrite E0. }
    apply orb_false_iff in E0 as [Ea%Z.eqb_neq Ek%Z.eqb_neq]. destruct (Z.eqb_spec serviceId 0) as [->|Hs]; intros E.
    + by eapply hub_Ipc_moved.
    + by eapply hub_Other_moved.
  - intros E. by eapply hub_Recv_moved.
  - intros E. by eapply hub_Close_moved.
  - intros E. by eapply hub_Timer_moved.
Qed.

Lemma hub_inv timely s cs l : reachable timely s cs l -> inv timely s cs l.
Proof.
  induction 1 as [|s cs l c s' l' Hr IH Hf Hin E].
  - split; try done; [apply registry_nil|split; [constructor|apply not_elem_of_nil]].
  - eapply hub_moved_inv; [done|]. by eapply hub_exec_moved.
Qed.
End HubRuns.

(** ** The hub as a whole *)

Module HubTheorems.
Import ServicePackets CProServiceHub HubRuns.

(** C17: The hub keeps its books.  After any calls, in any order, exactly the pipes that have
    registered a service serve one, each its own, and no service has two.  The pipes and
    acceptors that the hub has made are those that it has deleted and those that it holds,
    each once, and without [Init], or after [Fini], it holds nothing.  And when no host
    answers for a socket that the hub has closed already, every socket that came in has been
    closed once, has become a pipe, or waits in [m_expireSocks]. *)
Theorem hub_correct timely s cs l : reachable timely s cs l ->
  (forall id p, (exists sp, (id, sp) ∈ m_serviceId2Pipe s /\ pipe sp = p) <->
     exists sp, sp ∈ m_allPipes s /\ pipe sp = p /\ pending sp = false /\ p_serviceId sp = id) /\
  NoDup (fst <$> m_serviceId2Pipe s) /\ NoDup (pipe <$> m_allPipes s) /\
  madePipes l ≡ₚ gonePipes l ++ (pipe <$> m_allPipes s) /\
  madeAcceptors l ≡ₚ goneAcceptors l ++ heldAcceptor s /\
  (m_reactor s = false -> s = construct) /\
  (timely = true -> concat (got <$> cs) ≡ₚ leaves l ++ ids s).
Proof.
  intros Hr. destruct (hub_inv timely s cs l Hr) as [[R1 R2 R3 R4] _ _ [_ I4] I5 I6 I7].
  split_and!; try done; [|by apply (stl_sorted_NoDup (m_serviceId2Pipe s))|by apply (stl_sorted_NoDup (m_allPipes s))].
  intros id p. split.
  - intros (sp & Hin & <-). by destruct (R3 id sp Hin) as (_ & sp' & ?); exists sp'.
  - intros (sp & Hin & <- & Hp & <-). by apply R4.
Qed.

(** Two hosts; a connection for the first, which answers. *)
Definition demoCalls : list call :=
  [CInit 3000 0 1 1; CAccept 1 30 true true 0 0 0 20 0; CRecv 20 (packetOf (mkC2s 11 7 sock0) s2c0) 10;
   CAccept 1 31 true true 0 0 0 21 20; CAccept 1 40 false false 11 0 501 0 100; CAccept 1 41 false false 12 0 502 0 100;
   CRecv 20 (packetOf (mkC2s 11 7 (mkSock 5100 40 false)) s2c0) 200; CAccept 1 42 false false 11 0 503 0 300].

(** Runs of calls whose conditions can be decided. *)
#[local] Instance fresh_decision c s : Decision (fresh c s).
Proof. destruct c; apply _. Defined.
#[local] Instance intime_decision c s : Decision (intime c s).
Proof. destruct c; apply _. Defined.
Fixpoint proper (cs : list call) (s : t) : bool :=
  match cs with
  | [] => true
  | c :: cs => bool_decide (fresh c s) && bool_decide (intime c s) && proper cs (exec c s).1
  end.
Definition perform : t * list effect -> list call -> t * list effect := foldl (fun '(s, l) c => let '(s', l') := exec c s in (s', l ++ l')).
Lemma perform_reachable cs : forall s cs0 l, reachable true s cs0 l -> proper cs s = true ->
  reachable true (perform (s, l) cs).1 (cs0 ++ cs) (perform (s, l) cs).2.
Proof.
  induction cs as [|c cs IH]; intros s cs0 l Hr; cbn [proper]; [by rewrite app_nil_r|].
  intros [[Hf%bool_decide_eq_true Hi%bool_decide_eq_true]%andb_true_iff Hp]%andb_true_iff.
  unfold perform. cbn [foldl]. destruct (exec c s) as [s' l'] eqn:E. rewrite cons_middle, (assoc_L (++)). apply IH; [|done].
  by eapply reach_call.
Qed.
Definition demoState : t := (perform (construct, []) demoCalls).1.
Definition demoEffects : list effect := (perform (construct, []) demoCalls).2.

Lemma hub_correct_witness : m_serviceId2Pipe demoState = [(11, mkServicePipe 20 false 10010 11 7)] /\ ids demoState = [42] /\
  [30; 31; 40; 41; 42] ≡ₚ leaves demoEffects ++ ids demoState.
Proof.
  assert (H : reachable true demoState demoCalls demoEffects) by (apply (perform_reachable demoCalls construct [] []); [constructor|reflexivity]).
  split; [reflexivity|]. split; [reflexivity|]. destruct (hub_correct true _ _ _ H) as (_ & _ & _ & _ & _ & _ & Hs). exact (Hs eq_refl).
Defined.
End HubTheorems.
