(* ===== verification/ServiceHost.v ===== *)
(** * The service host ([pro_service_host.cpp])

    A host connects to the hub of its machine, registers its service over the pipe, keeps
    the pipe alive, and connects again when it is lost.  Each descriptor that comes over the
    pipe is answered, and offered to the observer.

    What the calls give, the peer's address and the clock are arguments; calls are effects.
    This is the build for Linux, where the transport of the pipe receives descriptors. *)

From S2P Require Import Prelude RefCount StlMap TimerFactory ServicePipe.

Module CProServiceHost.
Import ServicePackets.

Local Abbreviation RECONNECT_INTERVAL := 5.

(** [CProServiceHost]: [active] is whether observer and reactor are set *)
Record t := mkHost {
  active : bool;
  m_connector : Z;
  m_pipe : Z;
  m_timerId : Z;
  m_servicePort : Z;
  m_serviceId : Z;
  m_connectTick : Z
}.
Definition address : Type := list Z * Z.
Definition localRemote : address := ([49; 50; 55; 46; 48; 46; 48; 46; 49], 65535).

Inductive effect :=
  | CreateConnector (connector servicePort : Z)
  | ScheduleTimer (timerId : Z)
  | CancelTimer (timerId : Z)
  | DeleteConnector (connector : Z)
  | CreatePipe (pipe sockId : Z) (unixSocket : bool)
  | DeletePipe (pipe : Z)
  | PipeSendData (pipe : Z) (packet : PRO_SERVICE_PACKET)
  | CloseSock (sockId : Z)
  | ReleaseObserver
  | OnServiceAccept (sockId : Z) (unixSocket : bool) (remote : address) (serviceId serviceOpt nonce : Z).

Definition construct : t := mkHost false 0 0 0 0 0 0.
Definition setLinks (connector pipe : Z) (s : t) : t := mkHost (active s) connector pipe (m_timerId s) (m_servicePort s) (m_serviceId s) (m_connectTick s).

(** [ProDeleteServicePipe], [ProDeleteConnector] do nothing for NULL. *)
Definition deletePipe (p : Z) : list effect := if p =? 0 then [] else [DeletePipe p].
Definition deleteConnector (c : Z) : list effect := if c =? 0 then [] else [DeleteConnector c].

(** [Init]; [connector] and [timerId] are what the calls give *)
Definition Init (servicePort serviceId connector timerId tick : Z) (s : t) : bool * t * list effect :=
  if (servicePort =? 0) || (serviceId =? 0) then (false, s, []) else
  if active s || negb (m_connector s =? 0) || negb (m_pipe s =? 0) then (false, s, []) else
  if connector =? 0 then (false, s, [CreateConnector 0 servicePort]) else
  (true, mkHost true connector (m_pipe s) timerId servicePort serviceId tick, [CreateConnector connector servicePort; ScheduleTimer timerId]).

(** [Fini] *)
Definition Fini (s : t) : t * list effect :=
  if negb (active s) then (s, []) else
  (mkHost false 0 0 0 (m_servicePort s) (m_serviceId s) (m_connectTick s),
   [CancelTimer (m_timerId s)] ++ deletePipe (m_pipe s) ++ deleteConnector (m_connector s) ++ [ReleaseObserver]).

(** What a host says of itself: on connecting, and every second *)
Definition hello (s : t) : PRO_SERVICE_PACKET := packetOf (mkC2s (m_serviceId s) 0 sock0) s2c0.

(** [OnConnectOk]; [newPipe] is what [ProCreateServicePipe] gives *)
Definition OnConnectOk (connector k : Z) (unix : bool) (newPipe : Z) (s : t) : t * list effect :=
  if (connector =? 0) || (k =? -1) then (s, []) else
  if negb (active s) || (m_connector s =? 0) then (s, [CloseSock k]) else
  if negb (connector =? m_connector s) then (s, [CloseSock k]) else
  (setLinks 0 newPipe s,
   [CreatePipe newPipe k unix] ++ (if newPipe =? 0 then [CloseSock k] else [PipeSendData newPipe (hello s)]) ++ [DeleteConnector connector]).

(** [OnConnectError] *)
Definition OnConnectError (connector : Z) (s : t) : t * list effect :=
  if connector =? 0 then (s, []) else
  if negb (active s) || (m_connector s =? 0) then (s, []) else
  if negb (connector =? m_connector s) then (s, []) else
  (setLinks 0 (m_pipe s) s, [DeleteConnector connector]).

(** The end of [OnRecv] and [OnRecvFd]: the hub is told, then the observer; [peer] is what
    [pbsd_getpeername] gives *)
Definition accept (p k : Z) (unix : bool) (packet : PRO_SERVICE_PACKET) (peer : option address) : list effect :=
  if negb unix && bool_decide (peer = None) then [CloseSock k] else
  [PipeSendData p (packetOf (mkC2s (s_serviceId (s2c packet)) 0 (s_oldSock (s2c packet))) s2c0);
   OnServiceAccept k unix (if unix then localRemote else default localRemote peer) (s_serviceId (s2c packet)) (s_serviceOpt (s2c packet)) (s_nonce (s2c packet))].

(** [OnRecv] *)
Definition OnRecv (p : Z) (packet : PRO_SERVICE_PACKET) (peer : option address) (s : t) : list effect :=
  if (p =? 0) || negb (CheckMagic packet) then [] else
  if negb (active s) || (m_pipe s =? 0) then [] else
  if negb (p =? m_pipe s) || negb (s_serviceId (s2c packet) =? m_serviceId s) then [] else
  let oldSock := s_oldSock (s2c packet) in
  if sockId oldSock =? -1 then [] else accept p (sockId oldSock) (unixSocket oldSock) packet peer.

(** [OnRecvFd] *)
Definition OnRecvFd (p fd : Z) (unix : bool) (packet : PRO_SERVICE_PACKET) (peer : option address) (s : t) : list effect :=
  if (p =? 0) || (fd =? -1) || negb (CheckMagic packet) then [] else
  if negb (active s) || (m_pipe s =? 0) then [CloseSock fd] else
  if negb (p =? m_pipe s) || negb (s_serviceId (s2c packet) =? m_serviceId s) then [CloseSock fd] else
  accept p fd unix packet peer.

(** [OnClose] *)
Definition OnClose (p : Z) (s : t) : t * list effect :=
  if p =? 0 then (s, []) else
  if negb (active s) || (m_pipe s =? 0) then (s, []) else
  if negb (p =? m_pipe s) then (s, []) else
  (setLinks (m_connector s) 0 s, [DeletePipe p]).

(** [OnTimer]; [newConnector] is what [ProCreateConnectorEx] gives *)
Definition OnTimer (timerId tick newConnector : Z) (s : t) : t * list effect :=
  if timerId =? 0 then (s, []) else
  if negb (active s) then (s, []) else
  if negb (timerId =? m_timerId s) then (s, []) else
  if (m_pipe s =? 0) && (m_connector s =? 0) && (tick - m_connectTick s >=? RECONNECT_INTERVAL * 1000) then
    (mkHost true newConnector 0 (m_timerId s) (m_servicePort s) (m_serviceId s) tick, [CreateConnector newConnector (m_servicePort s)])
  else if negb (m_pipe s =? 0) then (s, [PipeSendData (m_pipe s) (hello s)])
  else (s, []).
End CProServiceHost.

(** ** What a host does in any run *)

Module HostRuns.
Import ServicePackets CProServiceHost.

Inductive call :=
  | CInit (servicePort serviceId connector timerId tick : Z)
  | CFini
  | CConnectOk (connector k : Z) (unix : bool) (newPipe : Z)
  | CConnectError (connector : Z)
  | CRecv (p : Z) (packet : PRO_SERVICE_PACKET) (peer : option address)
  | CRecvFd (p fd : Z) (unix : bool) (packet : PRO_SERVICE_PACKET) (peer : option address)
  | CClose (p : Z)
  | CTimer (timerId tick newConnector : Z).
Definition exec (c : call) (s : t) : t * list effect :=
  match c with
  | CInit servicePort serviceId connector timerId tick => let '(_, s, l) := Init servicePort serviceId connector timerId tick s in (s, l)
  | CFini => Fini s
  | CConnectOk connector k unix newPipe => OnConnectOk connector k unix newPipe s
  | CConnectError connector => OnConnectError connector s
  | CRecv p packet peer => (s, OnRecv p packet peer s)
  | CRecvFd p fd unix packet peer => (s, OnRecvFd p fd unix packet peer s)
  | CClose p => OnClose p s
  | CTimer timerId tick newConnector => OnTimer timerId tick newConnector s
  end.
Fixpoint run (cs : list call) (s : t) : t * list effect :=
  match cs with
  | [] => (s, [])
  | c :: cs => let '(s, l) := exec c s in let '(s, l') := run cs s in (s, l ++ l')
  end.

Inductive obj := Connector (c : Z) | Pipe (p : Z).
Definition obj1 (mk : Z -> obj) (x : Z) : list obj := if x =? 0 then [] else [mk x].
Definition made (l : list effect) : list obj :=
  concat ((fun e => match e with CreateConnector c _ => obj1 Connector c | CreatePipe p _ _ => obj1 Pipe p | _ => [] end) <$> l).
Definition gone (l : list effect) : list obj :=
  concat ((fun e => match e with DeleteConnector c => [Connector c] | DeletePipe p => [Pipe p] | _ => [] end) <$> l).
Definition holds (s : t) : list obj := obj1 Connector (m_connector s) ++ obj1 Pipe (m_pipe s).

(** Descriptors that come in with a call, and where the sockets go.  ([OnRecv] has a number
    in its packet, which is no descriptor of this process on Linux; it is not called there.) *)
Definition got (c : call) : list Z :=
  match c with
  | CConnectOk connector k _ _ => if (connector =? 0) || (k =? -1) then [] else [k]
  | CRecvFd p fd _ packet _ => if (p =? 0) || (fd =? -1) || negb (CheckMagic packet) then [] else [fd]
  | _ => []
  end.
Definition linux (c : call) : Prop := match c with CRecv _ _ _ => False | _ => True end.
Definition leaves (l : list effect) : list Z :=
  concat ((fun e => match e with CloseSock k | OnServiceAccept k _ _ _ _ _ => [k] | CreatePipe p k _ => if p =? 0 then [] else [k] | _ => [] end) <$> l).

(** Every offer follows its answer to the hub: [owed] is the answer just given. *)
Fixpoint answered (owed : option PRO_SERVICE_PACKET) (l : list effect) : Prop :=
  match l with
  | [] => True
  | PipeSendData _ packet :: l => answered (Some packet) l
  | OnServiceAccept _ _ _ serviceId _ _ :: l => (exists packet, owed = Some packet /\ c_serviceId (c2s packet) = serviceId) /\ answered None l
  | _ :: l => answered None l
  end.

Definition idle (s : t) : Prop := (active s = false -> holds s = []) /\ (m_connector s = 0 \/ m_pipe s = 0).

Lemma host_app (l l' : list effect) : made (l ++ l') = made l ++ made l' /\ gone (l ++ l') = gone l ++ gone l' /\ leaves (l ++ l') = leaves l ++ leaves l'.
Proof. unfold made, gone, leaves. by rewrite !fmap_app, !concat_app. Qed.
Lemma answered_app l l' : (forall o, answered o l) -> (forall o, answered o l') -> forall o, answered o (l ++ l').
Proof.
  intros H H' o. specialize (H o). revert o H. induction l as [|e l IH]; intros o H; [apply H'|]. destruct e; cbn [app answered] in *; try (by apply IH).
  destruct H as [? ?]. split; [done|by apply IH].
Qed.

Lemma accept_ok p k unix packet peer : let l := accept p k unix packet peer in made l = [] /\ gone l = [] /\ leaves l = [k] /\ forall o, answered o l.
Proof.
  unfold accept. destruct (_ && _); [done|]. cbn. split_and!; try done. intros _. split; [|done]. eexists. split; [done|]. done.
Qed.

Lemma host_exec_ok c s s' l : idle s -> linux c -> exec c s = (s', l) ->
  idle s' /\ made l ++ holds s ≡ₚ gone l ++ holds s' /\ leaves l = got c /\ forall o, answered o l.
Proof.
  intros [I1 I2] Hl. assert (Hsame : forall l, made l = [] -> gone l = [] -> leaves l = got c -> (forall o, answered o l) ->
    idle s /\ made l ++ holds s ≡ₚ gone l ++ holds s /\ leaves l = got c /\ forall o, answered o l).
  { intros l0 E1 E2 E3 E4. rewrite E1, E2. by split_and!. }
  destruct c; cbn [exec linux] in *; try done.
  - destruct (Init _ _ _ _ _ s) as [[b s1] l1] eqn:E. intros [= <- <-]. revert E. unfold Init. destruct (_ || _); [intros [= <- <- <-]; by apply Hsame|].
    destruct (active s || _ || _) eqn:E; [intros [= <- <- <-]; by apply Hsame|]. apply orb_false_iff in E as [[Ea Ec%negb_false_iff%Z.eqb_eq]%orb_false_iff Ep%negb_false_iff%Z.eqb_eq].
    destruct (Z.eqb_spec connector 0) as [->|Hn]; intros [= <- <- <-]; [by apply Hsame|].
    split; [split; [done|by right]|]. unfold made, holds, obj1. cbn. rewrite Ec, Ep, (proj2 (Z.eqb_neq _ _) Hn). by split_and!.
  - unfold Fini. destruct (active s) eqn:Ea; cbn [negb]; intros [= <- <-]; [|by apply Hsame]. unfold deletePipe, deleteConnector, holds, obj1.
    split; [by split; [|left]|]. destruct (Z.eqb_spec (m_pipe s) 0) as [Ep|Ep], (Z.eqb_spec (m_connector s) 0) as [Ec|Ec]; cbn; split_and!; try done.
    destruct I2; congruence.
  - unfold OnConnectOk. cbn [got] in *. destruct (_ || _); [intros [= <- <-]; by apply Hsame|].
    destruct (negb (active s) || (m_connector s =? 0)) eqn:E; [intros [= <- <-]; by apply Hsame|]. apply orb_false_iff in E as [Ea Ec%Z.eqb_neq].
    destruct (Z.eqb_spec connector (m_connector s)) as [->|]; cbn [negb]; [|intros [= <- <-]; by apply Hsame]. intros [= <- <-].
    destruct I2 as [?|Ep]; [done|].
    apply negb_false_iff in Ea. assert (Hidle : idle (setLinks 0 newPipe s)) by (split; [cbn; congruence|by left]). split; [done|].
    unfold made, gone, leaves, holds, obj1. cbn. rewrite Ep, (proj2 (Z.eqb_neq _ _) Ec). cbn.
    destruct (Z.eqb_spec newPipe 0) as [->|Hn]; cbn; rewrite ?(proj2 (Z.eqb_neq _ _) Hn); cbn; split_and!; try done. apply Permutation_swap.
  - unfold OnConnectError. destruct (_ =? _); [intros [= <- <-]; by apply Hsame|].
    destruct (negb (active s) || (m_connector s =? 0)) eqn:E; [intros [= <- <-]; by apply Hsame|]. apply orb_false_iff in E as [Ea Ec%Z.eqb_neq].
    destruct (Z.eqb_spec connector (m_connector s)) as [->|]; cbn [negb]; [|intros [= <- <-]; by apply Hsame]. intros [= <- <-].
    unfold holds, obj1. cbn. rewrite (proj2 (Z.eqb_neq _ _) Ec). split_and!; try done. apply negb_false_iff in Ea. split; [cbn; congruence|by left].
  - intros [= <- <-]. unfold OnRecvFd. cbn [got] in *. destruct (_ || _ || _); [by apply Hsame|]. destruct (negb (active s) || _); [by apply Hsame|].
    destruct (_ || _); [by apply Hsame|]. destruct (accept_ok p fd unix packet peer) as (A1 & A2 & A3 & A4). by apply Hsame.
  - unfold OnClose. destruct (_ =? _); [intros [= <- <-]; by apply Hsame|].
    destruct (negb (active s) || (m_pipe s =? 0)) eqn:E; [intros [= <- <-]; by apply Hsame|]. apply orb_false_iff in E as [Ea Ec%Z.eqb_neq].
    destruct (Z.eqb_spec p (m_pipe s)) as [->|]; cbn [negb]; [|intros [= <- <-]; by apply Hsame]. intros [= <- <-].
    unfold holds, obj1. cbn. rewrite (proj2 (Z.eqb_neq _ _) Ec). split_and!; try done; [|by rewrite app_nil_r, Permutation_app_comm].
    apply negb_false_iff in Ea. split; [cbn; congruence|by right].
  - unfold OnTimer. destruct (_ =? _); [intros [= <- <-]; by apply Hsame|]. destruct (active s) eqn:Ea; cbn [negb]; [|intros [= <- <-]; by apply Hsame].
    destruct (negb _); [intros [= <- <-]; by apply Hsame|]. destruct (_ && _ && _) eqn:E.
    + apply andb_true_iff in E as [[Ep%Z.eqb_eq Ec%Z.eqb_eq]%andb_true_iff _]. intros [= <- <-]. unfold made, gone, holds, obj1. cbn. rewrite Ep, Ec. cbn. rewrite !app_nil_r.
      split_and!; try done. split; [done|by right].
    + destruct (negb _); intros [= <- <-]; by apply Hsame.
Qed.

Lemma host_run_ok cs : forall s s' l, idle s -> Forall linux cs -> run cs s = (s', l) ->
  idle s' /\ made l ++ holds s ≡ₚ gone l ++ holds s' /\ leaves l = concat (got <$> cs) /\ forall o, answered o l.
Proof.
  induction cs as [|c cs IH]; intros s s' l Hi Hl; cbn [run]; [intros [= <- <-]; by split_and!|].
  apply Forall_cons in Hl as [Hl Hls]. destruct (exec c s) as [s1 l1] eqn:E1. destruct (run cs s1) as [s2 l2] eqn:E2. intros [= <- <-].
  destruct (host_exec_ok c s s1 l1 Hi Hl E1) as (H1 & H2 & H3 & H4). destruct (IH s1 s2 l2 H1 Hls E2) as (J1 & J2 & J3 & J4).
  destruct (host_app l1 l2) as (-> & -> & ->). split; [done|]. split; [|split; [cbn; by rewrite H3, J3|by apply answered_app]].
  rewrite <- (assoc_L (++)), (Permutation_app_comm (made l2)), (assoc_L (++)), H2, <- !(assoc_L (++)). f_equiv. by rewrite Permutation_app_comm, J2.
Qed.
End HostRuns.

Module HostTheorems.
Import ServicePackets CProServiceHost HostRuns.


(** A host that connects and gets a descriptor. *)
Definition demoPacket : PRO_SERVICE_PACKET := packetOf c2s0 (mkS2c 11 0 258 (mkSock 5000 40 true)).
Definition demoCalls : list call := [CInit 3000 11 7 5 100; CConnectOk 7 30 true 8; CRecvFd 8 41 true demoPacket None; CClose 8].
End HostTheorems.
