(* ===== verification/ServiceSystem.v ===== *)
(** * A hub, its hosts and the pipes between them

    The hub of [ServiceHub], with its end of each pipe ([ServicePipe]), and at the other ends
    hosts ([ServiceHost]) that answer what they get.  Between them is the kernel: the hub's
    table of descriptors, the one descriptor that a transport is sending, what is on its way
    to a host and what comes back.  A descriptor names a connection only when it is sent;
    until then it is a number in the hub's table. *)

From S2P Require Import Prelude RefCount StlMap TimerFactory ServicePipe ServiceHub ServiceHost.

Module ServiceSystem.
Import ServicePackets.

(** A pipe: the hub's end with what its transport is sending, the packets with their
    connections on the way to the host, the host with its end, the packets on the way back. *)
Record link := mkLink {
  l_pipe : CProServicePipe.t;
  l_sending : option PRO_SERVICE_PACKET;
  l_copying : bool;
  l_wire : list (PRO_SERVICE_PACKET * Z);
  l_host : CProServiceHost.t;
  l_acks : list PRO_SERVICE_PACKET
}.

(** A connection with what the acceptor has said of it *)
Definition connection : Type := Z * bool * Z * Z * Z.
Definition fileOf (c : connection) : Z := c.1.1.1.1.

Record world := mkWorld {
  w_hub : CProServiceHub.t;
  w_files : gmap Z Z;
  w_links : gmap Z link;
  w_accepted : list connection;
  w_offered : list connection;
  w_closed : list (option Z)
}.

Inductive event :=
  | EConnect (p k hostPipe serviceId tick : Z)
  | EAccept (k file : Z) (unix : bool) (serviceId serviceOpt nonce tick : Z)
  | ETransmit (p : Z)
  | ESent (p : Z)
  | EDeliver (p fd : Z) (peer : option CProServiceHost.address)
  | EHello (p tick : Z)
  | EAck (p tick : Z)
  | ETimer (tick : Z)
  | EClose (p : Z).

Definition setHub (h : CProServiceHub.t) (w : world) : world := mkWorld h (w_files w) (w_links w) (w_accepted w) (w_offered w) (w_closed w).
Definition setFiles (files : gmap Z Z) (closed : list (option Z)) (w : world) : world := mkWorld (w_hub w) files (w_links w) (w_accepted w) (w_offered w) closed.
Definition setLinks (links : gmap Z link) (w : world) : world := mkWorld (w_hub w) (w_files w) links (w_accepted w) (w_offered w) (w_closed w).
Definition setLink (p : Z) (ln : link) (w : world) : world := setLinks (<[p := ln]> (w_links w)) w.
Definition setLog (accepted offered : list connection) (w : world) : world := mkWorld (w_hub w) (w_files w) (w_links w) accepted offered (w_closed w).

(** The transport takes a descriptor when it has none and is not sending the copy of the
    packet that follows it. *)
Definition accepts (ln : link) : bool := bool_decide (l_sending ln = None) && negb (l_copying ln).
Definition took (l : list CProServicePipe.effect) : option PRO_SERVICE_PACKET :=
  head (omap (fun e => match e with CProServicePipe.TransSendFd packet true => Some packet | _ => None end) l).
Definition sendOn (packet : PRO_SERVICE_PACKET) (ln : link) : link :=
  let '(pipe, l) := CProServicePipe.SendFd packet (accepts ln) (l_pipe ln) in
  mkLink pipe (if took l is Some p then Some p else l_sending ln) (l_copying ln) (l_wire ln) (l_host ln) (l_acks ln).

(** What the effects of the hub do. *)
Definition hubEffect (w : world) (e : CProServiceHub.effect) : world :=
  match e with
  | CProServiceHub.CloseSock k _ => setFiles (delete k (w_files w)) (w_closed w ++ [w_files w !! k]) w
  | CProServiceHub.DeletePipe p => setLinks (delete p (w_links w)) w
  | CProServiceHub.PipeSendFd p packet => setLinks (alter (sendOn packet) p (w_links w)) w
  | _ => w
  end.
Definition hubDoes (r : CProServiceHub.t * list CProServiceHub.effect) (w : world) : world := foldl hubEffect (setHub r.1 w) r.2.

(** A host that has just connected: what it has said. *)
Definition newHost (hostPipe serviceId : Z) : CProServiceHost.t * list PRO_SERVICE_PACKET :=
  let '(h, l) := HostRuns.run [HostRuns.CInit 1 serviceId 1 1 0; HostRuns.CConnectOk 1 1 true hostPipe] CProServiceHost.construct in
  (h, omap (fun e => match e with CProServiceHost.PipeSendData _ packet => Some packet | _ => None end) l).
Definition says (l : list CProServiceHost.effect) : list PRO_SERVICE_PACKET :=
  omap (fun e => match e with CProServiceHost.PipeSendData _ packet => Some packet | _ => None end) l.
Definition offers (file : Z) (l : list CProServiceHost.effect) : list connection :=
  omap (fun e => match e with CProServiceHost.OnServiceAccept _ unix _ serviceId serviceOpt nonce => Some (file, unix, serviceId, serviceOpt, nonce) | _ => None end) l.

Definition exec (e : event) (w : world) : option world :=
  match e with
  | EConnect p k hostPipe serviceId tick =>
      if (p =? 0) || (k =? -1) || (hostPipe =? 0) || (serviceId =? 0) || bool_decide (is_Some (w_links w !! p)) || bool_decide (is_Some (w_files w !! k)) then None else
      let '(h, acks) := newHost hostPipe serviceId in
      Some (setLink p (mkLink (CProServicePipe.mkPipe true 1 [] []) None false [] h acks)
        (hubDoes (CProServiceHub.OnAccept 1 k true true 0 0 0 p tick (w_hub w)) w))
  | EAccept k file unix serviceId serviceOpt nonce tick =>
      if (k =? -1) || (serviceId =? 0) || bool_decide (is_Some (w_files w !! k)) || bool_decide (file ∈ fileOf <$> w_accepted w) then None else
      Some (hubDoes (CProServiceHub.OnAccept 1 k unix true serviceId serviceOpt nonce 0 tick (w_hub w))
        (setLog (w_accepted w ++ [(file, unix, serviceId, serviceOpt, nonce)]) (w_offered w) (setFiles (<[k := file]> (w_files w)) (w_closed w) w)))
  | ETransmit p =>
      ln ← w_links w !! p; packet ← l_sending ln;
      match w_files w !! sockId (s_oldSock (s2c packet)) with
      | Some file => Some (setLink p (mkLink (l_pipe ln) None true (l_wire ln ++ [(packet, file)]) (l_host ln) (l_acks ln)) w)
      | None => Some (hubDoes (CProServiceHub.OnClose p (w_hub w)) w)
      end
  | ESent p =>
      ln ← w_links w !! p;
      if negb (l_copying ln) then None else
      let '(pipe, l) := CProServicePipe.OnSend (CProServicePipe.m_trans (l_pipe ln)) false true (l_pipe ln) in
      Some (setLink p (mkLink pipe (if took l is Some q then Some q else l_sending ln) false (l_wire ln) (l_host ln) (l_acks ln)) w)
  | EDeliver p fd peer =>
      ln ← w_links w !! p;
      match l_wire ln with
      | [] => None
      | (packet, file) :: wire =>
          if fd =? -1 then None else
          let l := CProServiceHost.OnRecvFd (CProServiceHost.m_pipe (l_host ln)) fd (unixSocket (s_oldSock (s2c packet))) packet peer (l_host ln) in
          Some (setLog (w_accepted w) (w_offered w ++ offers file l) (setLink p (mkLink (l_pipe ln) (l_sending ln) (l_copying ln) wire (l_host ln) (l_acks ln ++ says l)) w))
      end
  | EHello p tick =>
      ln ← w_links w !! p;
      let '(h, l) := CProServiceHost.OnTimer (CProServiceHost.m_timerId (l_host ln)) tick 0 (l_host ln) in
      Some (setLink p (mkLink (l_pipe ln) (l_sending ln) (l_copying ln) (l_wire ln) h (l_acks ln ++ says l)) w)
  | EAck p tick =>
      ln ← w_links w !! p;
      match l_acks ln with
      | [] => None
      | packet :: acks =>
          Some (hubDoes (CProServiceHub.OnRecv p packet tick (w_hub w)) (setLink p (mkLink (l_pipe ln) (l_sending ln) (l_copying ln) (l_wire ln) (l_host ln) acks) w))
      end
  | ETimer tick => Some (hubDoes (CProServiceHub.OnTimer 1 tick (w_hub w)) w)
  | EClose p => ln ← w_links w !! p; Some (hubDoes (CProServiceHub.OnClose p (w_hub w)) w)
  end.
Fixpoint run (es : list event) (w : world) : option world :=
  match es with
  | [] => Some w
  | e :: es => w ← exec e w; run es w
  end.

(** A hub that has started. *)
Definition start : world :=
  mkWorld (let '(_, h, _) := CProServiceHub.Init 3000 0 1 1 CProServiceHub.construct in h) ∅ ∅ [] [] [].

(** ** Sockets under way *)

(** A packet with a descriptor that has not reached its host, and the connection it stands
    for once it is sent; and the answers of hosts. *)
Definition parcel : Type := PRO_SERVICE_PACKET * option Z.
Definition old (x : parcel) : PRO_SERVICE_SOCK := s_oldSock (s2c x.1).
Definition waiting (ln : link) : list PRO_SERVICE_PACKET := option_list (l_sending ln) ++ CProServicePipe.m_fdPackets (l_pipe ln).
Definition undelivered (ln : link) : list parcel := ((fun x => (x.1, Some x.2)) <$> l_wire ln) ++ ((fun packet => (packet, None)) <$> waiting ln).
Definition answersIn (acks : list PRO_SERVICE_PACKET) : list PRO_SERVICE_SOCK :=
  omap (fun a => let ss := c_oldSock (c2s a) in if sockId ss =? -1 then None else Some ss) acks.
Definition answers (ln : link) : list PRO_SERVICE_SOCK := answersIn (l_acks ln).
Definition total {A} (f : link -> list A) (m : gmap Z link) : list A := concat ((fun e => f (snd e)) <$> map_to_list m).
Definition transit (m : gmap Z link) : list PRO_SERVICE_SOCK := (old <$> total undelivered m) ++ total answers m.

(** No socket expires while it is under way: neither before its descriptor is sent, nor
    before the host's answer is there. *)
Definition patient (e : event) (w : world) : Prop :=
  match e with
  | ETimer tick => Forall (fun ss => tick < expireTick ss) (transit (w_links w))
  | _ => True
  end.

Inductive reachable : world -> Prop :=
  | reach_start : reachable start
  | reach_event w e w' : reachable w -> patient e w -> exec e w = Some w' -> reachable w'.
End ServiceSystem.

(** ** The ledger

    What the invariant says, without hubs and pipes: the sockets that the hub keeps, its
    table of descriptors, what is under way, and the books of connections. *)

Module ServiceLedger.
Import ServicePackets ServiceSystem.

Definition connOf (f : Z) (packet : PRO_SERVICE_PACKET) : connection :=
  let s := s2c packet in (f, unixSocket (s_oldSock s), s_serviceId s, s_serviceOpt s, s_nonce s).

Record ledger (socks : list PRO_SERVICE_SOCK) (files : gmap Z Z) (U : list parcel) (A : list PRO_SERVICE_SOCK)
    (accepted offered : list connection) (closed : list (option Z)) : Prop := mkLedger {
  ld_ids : NoDup (sockId <$> socks);
  ld_files : forall k, is_Some (files !! k) <-> k ∈ sockId <$> socks;
  ld_once : NoDup ((old <$> U) ++ A);
  ld_pending : forall ss, ss ∈ (old <$> U) ++ A -> ss ∈ socks;
  ld_described : forall x, x ∈ U -> exists f, files !! sockId (old x) = Some f /\ (x.2 = None \/ x.2 = Some f) /\ connOf f x.1 ∈ accepted /\
    f ∉ fileOf <$> offered;
  ld_accepted : NoDup (fileOf <$> accepted);
  ld_closed : exists cl, closed = Some <$> cl /\ fileOf <$> accepted ≡ₚ cl ++ (map_to_list files).*2;
  ld_offered : NoDup (fileOf <$> offered) /\ forall c, c ∈ offered -> c ∈ accepted
}.

Lemma values_insert (files : gmap Z Z) k f : files !! k = None -> (map_to_list (<[k := f]> files)).*2 ≡ₚ f :: (map_to_list files).*2.
Proof. intros Hn. by rewrite map_to_list_insert. Qed.
Lemma values_delete (files : gmap Z Z) k f : files !! k = Some f -> (map_to_list files).*2 ≡ₚ f :: (map_to_list (delete k files)).*2.
Proof. intros Hf. rewrite <- values_insert by apply lookup_delete_eq. by rewrite insert_delete_id. Qed.
Lemma values_in (files : gmap Z Z) k f : files !! k = Some f -> f ∈ (map_to_list files).*2.
Proof. intros Hf. apply (values_delete files k f) in Hf. rewrite Hf. left. Qed.

Section moves.
Context {socks : list PRO_SERVICE_SOCK} {files : gmap Z Z} {U : list parcel} {A : list PRO_SERVICE_SOCK}
  {accepted offered : list connection} {closed : list (option Z)} (L : ledger socks files U A accepted offered closed).

Lemma files_accepted k f : files !! k = Some f -> f ∈ fileOf <$> accepted.
Proof. intros Hf. destruct (ld_closed _ _ _ _ _ _ _ L) as (cl & _ & ->). apply elem_of_app. right. by eapply values_in. Qed.
Lemma files_inj k k' f : files !! k = Some f -> files !! k' = Some f -> k = k'.
Proof.
  intros H1 H2. destruct (decide (k = k')) as [|Hn]; [done|]. destruct (ld_closed _ _ _ _ _ _ _ L) as (cl & _ & Hp).
  pose proof (ld_accepted _ _ _ _ _ _ _ L) as Hnd. rewrite Hp in Hnd. apply NoDup_app in Hnd as (_ & _ & Hnd).
  rewrite (values_delete files k f H1) in Hnd. apply NoDup_cons in Hnd as [Hno _]. destruct Hno. apply (values_in _ k'). by rewrite lookup_delete_ne.
Qed.
Lemma socks_inj ss ss' : ss ∈ socks -> ss' ∈ socks -> sockId ss = sockId ss' -> ss = ss'.
Proof.
  pose proof (ld_ids _ _ _ _ _ _ _ L) as Hnd. clear L. revert Hnd. induction socks as [|x q IH]; [by intros _ ?%not_elem_of_nil|].
  cbn. intros [Hx Hq]%NoDup_cons. intros [->|H1]%elem_of_cons [->|H2]%elem_of_cons E; [done| | |by apply IH].
  - destruct Hx. rewrite E. by apply list_elem_of_fmap_2.
  - destruct Hx. rewrite <- E. by apply list_elem_of_fmap_2.
Qed.

Lemma ledger_perm socks' U' A' : socks ≡ₚ socks' -> U ≡ₚ U' -> A ≡ₚ A' -> ledger socks' files U' A' accepted offered closed.
Proof.
  intros E1 E2 E3. destruct L as [L1 L2 L3 L4 L5 L6 L7 L8]. split; try done.
  - by rewrite <- E1.
  - intros k. by rewrite L2, E1.
  - by rewrite <- E2, <- E3.
  - intros ss. rewrite <- E2, <- E3, <- E1. apply L4.
  - intros x. rewrite <- E2. apply L5.
Qed.

(** Something under way is lost. *)
Lemma ledger_drop U1 A1 U' A' : U ≡ₚ U1 ++ U' -> A ≡ₚ A1 ++ A' -> ledger socks files U' A' accepted offered closed.
Proof.
  intros E2 E3. destruct L as [L1 L2 L3 L4 L5 L6 L7 L8].
  assert (Hp : (old <$> U) ++ A ≡ₚ ((old <$> U1) ++ A1) ++ ((old <$> U') ++ A')) by (rewrite E2, E3, fmap_app; solve_Permutation).
  split; try done.
  - rewrite Hp in L3. by apply NoDup_app in L3 as (_ & _ & ?).
  - intros ss Hss. apply L4. rewrite Hp. apply elem_of_app. by right.
  - intros x Hx. apply L5. rewrite E2. apply elem_of_app. by right.
Qed.

(** A descriptor is sent. *)
Lemma ledger_send packet f U' : U ≡ₚ (packet, None) :: U' -> files !! sockId (s_oldSock (s2c packet)) = Some f ->
  ledger socks files ((packet, Some f) :: U') A accepted offered closed.
Proof.
  intros E2 Hf. destruct L as [L1 L2 L3 L4 L5 L6 L7 L8]. split; try done.
  - rewrite E2 in L3. exact L3.
  - intros ss Hss. apply L4. rewrite E2. exact Hss.
  - intros x [->|Hx]%elem_of_cons; [|apply L5; rewrite E2; by right].
    destruct (L5 (packet, None)) as (f' & H1 & _ & H3); [rewrite E2; left|]. change (old (packet, None)) with (s_oldSock (s2c packet)) in H1.
    assert (f' = f) as -> by congruence. exists f. split; [done|]. split; [by right|done].
Qed.

(** A host answers and offers the connection. *)
Lemma ledger_offer packet f U' : U ≡ₚ (packet, Some f) :: U' ->
  ledger socks files U' (s_oldSock (s2c packet) :: A) accepted (offered ++ [connOf f packet]) closed.
Proof.
  intros E2. pose proof L as L0. destruct L as [L1 L2 L3 L4 L5 L6 L7 L8].
  assert (Hp : (old <$> U) ++ A ≡ₚ (old <$> U') ++ s_oldSock (s2c packet) :: A) by (rewrite E2; cbn; solve_Permutation).
  destruct (L5 (packet, Some f)) as (f' & H1 & H2 & H3 & H4); [rewrite E2; left|]. destruct H2 as [?|[= <-]]; [done|].
  change (old (packet, Some f)) with (s_oldSock (s2c packet)) in H1. cbn [fst] in H3. split; try done.
  - by rewrite Hp in L3.
  - intros ss. rewrite <- Hp. apply L4.
  - intros x Hx. destruct (L5 x) as (fx & X1 & X2 & X3 & X4); [rewrite E2; by right|]. exists fx. split_and!; try done.
    rewrite fmap_app, elem_of_app. intros [?|Hin]; [done|]. apply list_elem_of_singleton in Hin. cbn in Hin. subst fx.
    assert (Ho : old x = s_oldSock (s2c packet)).
    { apply (socks_inj _ _); [apply L4; apply elem_of_app; left; rewrite E2; right; by apply list_elem_of_fmap_2|apply L4; rewrite Hp; apply elem_of_app; right; left|].
      by apply (files_inj _ _ f). }
    rewrite Hp in L3. apply NoDup_app in L3 as (_ & Hd & _). apply (Hd (old x)); [by apply list_elem_of_fmap_2|]. rewrite Ho. left.
  - rewrite fmap_app. split.
    + apply NoDup_app. split; [apply L8|]. split; [|apply NoDup_singleton]. intros y Hy Hy2. apply list_elem_of_singleton in Hy2 as ->. by cbn in Hy.
    + intros c [Hc|Hc%list_elem_of_singleton]%elem_of_app; [by apply L8|by subst c].
Qed.

(** The hub closes a socket that is not under way. *)
Lemma ledger_close ss socks' : socks ≡ₚ ss :: socks' -> ss ∉ (old <$> U) ++ A ->
  ledger socks' (delete (sockId ss) files) U A accepted offered (closed ++ [files !! sockId ss]).
Proof.
  intros E1 Hno. pose proof L as L0. destruct L as [L1 L2 L3 L4 L5 L6 L7 L8]. rewrite E1 in L1. cbn in L1. apply NoDup_cons in L1 as [Hss L1].
  destruct (proj2 (L2 (sockId ss))) as [f Hf]; [rewrite E1; left|]. split; try done.
  - intros k. rewrite lookup_delete_is_Some, L2, E1. cbn. rewrite elem_of_cons. split; [by intros [? [?|?]]|]. intros Hk. split; [by intros <-|by right].
  - intros x Hx. specialize (L4 x Hx). rewrite E1 in L4. apply elem_of_cons in L4 as [->|?]; [done|done].
  - intros x Hx. destruct (L5 x Hx) as (fx & X1 & X2). exists fx. split; [|done]. rewrite lookup_delete_ne; [done|]. intros E.
    apply Hno. assert (ss = old x) as ->; [|apply elem_of_app; left; by apply list_elem_of_fmap_2].
    apply socks_inj; [rewrite E1; left|apply L4; apply elem_of_app; left; by apply list_elem_of_fmap_2|done].
  - destruct L7 as (cl & -> & Hp). exists (cl ++ [f]). split; [by rewrite fmap_app, Hf|]. rewrite Hp, (values_delete files _ f Hf). solve_Permutation.
Qed.

(** A connection is accepted and handed to a pipe. *)
Lemma ledger_accept ss file packet socks' : files !! sockId ss = None -> file ∉ fileOf <$> accepted -> s_oldSock (s2c packet) = ss -> socks' ≡ₚ ss :: socks ->
  ledger socks' (<[sockId ss := file]> files) ((packet, None) :: U) A (accepted ++ [connOf file packet]) offered closed.
Proof.
  intros Hk Hfile Ho E1. pose proof L as L0. destruct L as [L1 L2 L3 L4 L5 L6 L7 L8].
  assert (Hids : sockId ss ∉ sockId <$> socks) by (rewrite <- L2, Hk; by intros [? ?]).
  assert (Hss : ss ∉ socks) by (intros H; apply Hids; by apply list_elem_of_fmap_2).
  split.
  - rewrite E1. by constructor.
  - intros k. rewrite lookup_insert_is_Some, L2, E1. cbn. rewrite elem_of_cons. destruct (decide (sockId ss = k)) as [->|]; [by split; intros _; left|].
    split; [intros [?|[_ ?]]; [done|by right]|intros [?|?]; [done|by right]].
  - cbn. unfold old at 1. cbn. rewrite Ho. constructor; [|done]. intros H. by apply L4 in H.
  - intros x. cbn. unfold old at 1. cbn. rewrite Ho, E1. intros [->|Hx]%elem_of_cons; [left|]. right. by apply L4.
  - intros x [->|Hx]%elem_of_cons.
    + exists file. unfold old. cbn. rewrite Ho, lookup_insert_eq. split; [done|]. split; [by left|]. split; [apply elem_of_app; right; by left|].
      intros Hin. apply Hfile. apply list_elem_of_fmap in Hin as (c & -> & Hc). apply list_elem_of_fmap_2. by apply L8.
    + destruct (L5 x Hx) as (fx & X1 & X2 & X3 & X4). exists fx. rewrite lookup_insert_ne by congruence. split; [done|]. split; [done|]. split; [apply elem_of_app; by left|done].
  - rewrite fmap_app. apply NoDup_app. split; [done|]. split; [|apply NoDup_singleton]. intros y Hy Hy2. apply list_elem_of_singleton in Hy2 as ->. done.
  - destruct L7 as (cl & -> & Hp). exists cl. split; [done|]. rewrite fmap_app, Hp, values_insert by done. cbn. change (fileOf (connOf file packet)) with file. solve_Permutation.
  - split; [apply L8|]. intros c Hc. apply elem_of_app. left. by apply L8.
Qed.

(** A connection is accepted and closed at once. *)
Lemma ledger_refuse c k : files !! k = None -> fileOf c ∉ fileOf <$> accepted ->
  ledger socks (delete k (<[k := fileOf c]> files)) U A (accepted ++ [c]) offered (closed ++ [<[k := fileOf c]> files !! k]).
Proof.
  intros Hk Hfile. rewrite delete_insert_id by done. rewrite lookup_insert_eq. destruct L as [L1 L2 L3 L4 L5 L6 L7 L8]. split; try done.
  - intros x Hx. destruct (L5 x Hx) as (fx & X1 & X2 & X3 & X4). exists fx. split; [done|]. split; [done|]. split; [apply elem_of_app; by left|done].
  - rewrite fmap_app. apply NoDup_app. split; [done|]. split; [|apply NoDup_singleton]. intros y Hy Hy2. apply list_elem_of_singleton in Hy2 as ->. done.
  - destruct L7 as (cl & -> & Hp). exists (cl ++ [fileOf c]). split; [by rewrite fmap_app|]. rewrite fmap_app, Hp. cbn. solve_Permutation.
  - split; [apply L8|]. intros x Hx. apply elem_of_app. left. by apply L8.
Qed.
End moves.
End ServiceLedger.

(** ** The invariant *)

Module SystemProofs.
Import ServicePackets ServiceSystem ServiceLedger.
Import CProServiceHub (PRO_SERVICE_PIPE, pipe, m_allPipes, m_expireSocks).

(** *** Sums over links *)

Section total.
Context {A : Type} (f : link -> list A).
Implicit Types m : gmap Z link.
Lemma total_insert m p ln : m !! p = None -> total f (<[p := ln]> m) ≡ₚ f ln ++ total f m.
Proof. intros Hn. unfold total. by rewrite map_to_list_insert. Qed.
Lemma total_delete m p ln : m !! p = Some ln -> total f m ≡ₚ f ln ++ total f (delete p m).
Proof. intros Hr. rewrite <- total_insert by apply lookup_delete_eq. by rewrite insert_delete_id. Qed.
Lemma total_update m p ln ln' : m !! p = Some ln -> total f (<[p := ln']> m) ≡ₚ f ln' ++ total f (delete p m).
Proof. intros Hr. rewrite <- total_insert by apply lookup_delete_eq. by rewrite insert_delete_eq. Qed.
Lemma total_deleteAll m ps : exists gone, total f m ≡ₚ gone ++ total f (foldl (fun m p => delete p m) m ps).
Proof.
  revert m. induction ps as [|p ps IH]; intros m; cbn [foldl]; [by exists []|]. destruct (IH (delete p m)) as [gone Hg].
  destruct (m !! p) as [ln|] eqn:E.
  - exists (f ln ++ gone). by rewrite (total_delete m p ln E), Hg, (assoc_L (++)).
  - exists gone. by rewrite delete_id in Hg |- * by done.
Qed.
End total.

(** *** One link *)

Record link_ok (ln : link) : Prop := mkLinkOk {
  lo_ready : CProServicePipe.ready (l_pipe ln) = true;
  lo_copying : l_copying ln = true -> l_sending ln = None
}.

Lemma undelivered_waiting ln ln' ps : l_wire ln' = l_wire ln -> waiting ln' ≡ₚ ps ++ waiting ln ->
  undelivered ln' ≡ₚ ((fun packet => (packet, None)) <$> ps) ++ undelivered ln.
Proof. intros E Hp. unfold undelivered. rewrite E, Hp, fmap_app. apply Permutation_app_swap_app. Qed.

Lemma sendOn_ok packet ln : link_ok ln -> CheckMagic packet = true -> sockId (s_oldSock (s2c packet)) <> -1 ->
  link_ok (sendOn packet ln) /\ undelivered (sendOn packet ln) ≡ₚ (packet, None) :: undelivered ln /\ answers (sendOn packet ln) = answers ln.
Proof.
  intros [H1 H2] Hm Hs. enough (link_ok (sendOn packet ln) /\ waiting (sendOn packet ln) ≡ₚ [packet] ++ waiting ln /\ l_wire (sendOn packet ln) = l_wire ln /\ answers (sendOn packet ln) = answers ln) as (E1 & E2 & E3 & E4).
  { split; [done|]. split; [|done]. by apply (undelivered_waiting ln _ [packet]). }
  unfold sendOn, CProServicePipe.SendFd. rewrite (proj2 (Z.eqb_neq _ _) Hs), Hm, H1. cbn [orb negb].
  destruct (CProServicePipe.m_fdPackets (l_pipe ln) ++ [packet]) as [|x q] eqn:E; [by destruct (CProServicePipe.m_fdPackets (l_pipe ln))|]. cbn [CProServicePipe.offer].
  assert (Hp : x :: q ≡ₚ packet :: CProServicePipe.m_fdPackets (l_pipe ln)) by (rewrite <- E, Permutation_app_comm; done).
  unfold accepts, waiting. destruct (l_sending ln) as [y|] eqn:Es; [|destruct (l_copying ln) eqn:Ec].
  - rewrite bool_decide_eq_false_2 by done. cbn. split; [by split; [done|intros Hc; specialize (H2 Hc); congruence]|]. split; [|done]. rewrite Hp. apply Permutation_swap.
  - rewrite andb_false_r. cbn. split; [by split|]. by split.
  - rewrite bool_decide_eq_true_2 by done. cbn. split; [by split|]. by split.
Qed.

(** *** The hub's part *)

Definition hub_ok (h : CProServiceHub.t) : Prop :=
  (exists cs l, HubRuns.inv false h cs l) /\ CProServiceHub.m_reactor h = true /\ CProServiceHub.m_acceptor h = 1 /\ CProServiceHub.m_timerId h = 1.
Definition pipes (h : CProServiceHub.t) : list Z := pipe <$> m_allPipes h.

Lemma hub_ready h : hub_ok h -> CProServiceHub.ready h = true.
Proof. intros (_ & Hr & Ha & _). unfold CProServiceHub.ready. by rewrite Hr, Ha. Qed.
Lemma hub_ids h : hub_ok h -> stl_sorted (m_expireSocks h) /\ NoDup (sockId <$> m_expireSocks h) /\ -1 ∉ sockId <$> m_expireSocks h /\ NoDup (pipes h).
Proof. intros [(cs & l & [I1 I2 [I3 I3'] _ _ _ _]) _]. split_and!; try done. apply (stl_sorted_NoDup (m_allPipes h)), I1. Qed.

Lemma hub_step c h h' l : hub_ok h -> HubRuns.fresh c h -> HubRuns.exec c h = (h', l) ->
  CProServiceHub.m_reactor h' = true -> CProServiceHub.m_acceptor h' = 1 -> CProServiceHub.m_timerId h' = 1 ->
  hub_ok h' /\ HubRuns.madePipes l ++ pipes h ≡ₚ HubRuns.gonePipes l ++ pipes h'.
Proof.
  intros [(cs & l0 & Hi) _] Hf E R1 R2 R3. assert (Hm : HubRuns.moved false c h h' l) by by eapply HubRuns.hub_exec_moved.
  split; [|apply Hm]. split; [|done]. exists (cs ++ [c]), (l0 ++ l). by eapply HubRuns.hub_moved_inv.
Qed.

(** *** All together *)

Record good (w : world) : Prop := mkGood {
  g_hub : hub_ok (w_hub w);
  g_links : forall p, is_Some (w_links w !! p) <-> p ∈ pipes (w_hub w);
  g_ok : forall p ln, w_links w !! p = Some ln -> link_ok ln;
  g_ledger : ledger (m_expireSocks (w_hub w)) (w_files w) (total undelivered (w_links w)) (total answers (w_links w)) (w_accepted w) (w_offered w) (w_closed w)
}.

(** A change of one link that keeps what is under way, or changes it as the ledger allows. *)
Lemma good_setLink w p ln ln' accepted offered : good w -> w_links w !! p = Some ln -> link_ok ln' ->
  (forall U A, total undelivered (w_links w) ≡ₚ undelivered ln ++ U -> total answers (w_links w) ≡ₚ answers ln ++ A ->
     ledger (m_expireSocks (w_hub w)) (w_files w) (undelivered ln' ++ U) (answers ln' ++ A) accepted offered (w_closed w)) ->
  good (setLog accepted offered (setLink p ln' w)).
Proof.
  intros [G1 G2 G3 G4] Hp Ho Hl. split; cbn [w_hub w_links w_files w_accepted w_offered w_closed setLog setLink setLinks].
  - done.
  - intros q. rewrite <- G2. destruct (decide (q = p)) as [->|Hn]; [by rewrite lookup_insert_eq, Hp; split; intros _; eexists|by rewrite lookup_insert_ne].
  - intros q x. destruct (decide (q = p)) as [->|Hn]; [rewrite lookup_insert_eq; by intros [= <-]|rewrite lookup_insert_ne by done; apply G3].
  - eapply ledger_perm; [apply (Hl _ _ (total_delete undelivered _ _ _ Hp) (total_delete answers _ _ _ Hp))|done| |]; symmetry; by eapply total_update.
Qed.
Lemma setLog_same w : setLog (w_accepted w) (w_offered w) w = w.
Proof. by destruct w. Qed.

(** *** Events of one link *)

Lemma transmit_good w p ln packet f : good w -> w_links w !! p = Some ln -> l_sending ln = Some packet ->
  w_files w !! sockId (s_oldSock (s2c packet)) = Some f ->
  good (setLink p (mkLink (l_pipe ln) None true (l_wire ln ++ [(packet, f)]) (l_host ln) (l_acks ln)) w).
Proof.
  intros Hg Hp Hs Hf. rewrite <- (setLog_same (setLink _ _ _)). apply (good_setLink w p ln); [done|done| |].
  { pose proof (g_ok _ Hg _ _ Hp) as [H1 H2]. by split. }
  intros U A HU HA. pose proof (g_ledger _ Hg) as L. change (answers (mkLink _ _ _ _ _ _)) with (answers ln).
  set (W := (fun x : PRO_SERVICE_PACKET * Z => (x.1, Some x.2)) <$> l_wire ln).
  set (Q := (fun packet : PRO_SERVICE_PACKET => (packet, @None Z)) <$> CProServicePipe.m_fdPackets (l_pipe ln)).
  assert (E : undelivered ln = W ++ (packet, None) :: Q) by (unfold undelivered, waiting; by rewrite Hs).
  assert (E' : undelivered (mkLink (l_pipe ln) None true (l_wire ln ++ [(packet, f)]) (l_host ln) (l_acks ln)) = W ++ (packet, Some f) :: Q)
    by (unfold undelivered, waiting; cbn; by rewrite fmap_app, <- (assoc_L (++))).
  rewrite E, <- Permutation_middle in HU. rewrite E'.
  apply (ledger_perm (ledger_send L packet f ((W ++ Q) ++ U) HU Hf)); [done| |by rewrite HA]. by rewrite <- Permutation_middle.
Qed.

Lemma sent_good w p ln pipe l : good w -> w_links w !! p = Some ln -> l_copying ln = true ->
  CProServicePipe.OnSend (CProServicePipe.m_trans (l_pipe ln)) false true (l_pipe ln) = (pipe, l) ->
  good (setLink p (mkLink pipe (if took l is Some q then Some q else l_sending ln) false (l_wire ln) (l_host ln) (l_acks ln)) w).
Proof.
  intros Hg Hp Hc E. rewrite <- (setLog_same (setLink _ _ _)). pose proof (g_ok _ Hg _ _ Hp) as [H1 H2]. specialize (H2 Hc). rewrite H2.
  pose proof H1 as H1'. unfold CProServicePipe.ready in H1'. apply andb_true_iff in H1' as [_ Ht%negb_true_iff].
  revert E. unfold CProServicePipe.OnSend. rewrite Ht, H1, Z.eqb_refl. cbn [negb].
  destruct (CProServicePipe.offer CProServicePipe.TransSendData false _) as [q1 l1] eqn:E1.
  assert (Hl1 : omap (fun e => match e with CProServicePipe.TransSendFd packet true => Some packet | _ => None end) l1 = []).
  { revert E1. destruct (CProServicePipe.m_packets (l_pipe ln)); cbn; by intros [= <- <-]. }
  destruct (CProServicePipe.m_fdPackets (l_pipe ln)) as [|x q] eqn:Eq; cbn [CProServicePipe.offer]; intros [= <- <-].
  - assert (Ht2 : took (l1 ++ []) = None) by (unfold took; by rewrite omap_app, Hl1). rewrite Ht2.
    apply (good_setLink w p ln); [done|done|by split|]. intros U A HU HA. apply (ledger_perm (g_ledger _ Hg)); [done| |done].
    rewrite HU. unfold undelivered, waiting. cbn. by rewrite H2, Eq.
  - assert (Ht2 : took (l1 ++ [CProServicePipe.TransSendFd x true]) = Some x) by (unfold took; by rewrite omap_app, Hl1). rewrite Ht2.
    apply (good_setLink w p ln); [done|done|by split|]. intros U A HU HA. apply (ledger_perm (g_ledger _ Hg)); [done| |done].
    rewrite HU. unfold undelivered, waiting. cbn. by rewrite H2, Eq.
Qed.

(** A host answers what it offers. *)
Lemma RecvFd_ok h fd packet file peer : sockId (s_oldSock (s2c packet)) <> -1 ->
  let l := CProServiceHost.OnRecvFd (CProServiceHost.m_pipe h) fd (unixSocket (s_oldSock (s2c packet))) packet peer h in
  answersIn (says l) = [] /\ offers file l = [] \/ answersIn (says l) = [s_oldSock (s2c packet)] /\ offers file l = [connOf file packet].
Proof.
  intros Hs. unfold CProServiceHost.OnRecvFd. destruct (_ || _ || _); [by left|]. destruct (negb (CProServiceHost.active h) || _); [by left|].
  destruct (_ || _); [by left|]. unfold CProServiceHost.accept. destruct (_ && _); [by left|]. right. cbn. by rewrite (proj2 (Z.eqb_neq _ _) Hs).
Qed.

Lemma answersIn_app l l' : answersIn (l ++ l') = answersIn l ++ answersIn l'.
Proof. apply omap_app. Qed.

Lemma deliver_good w p ln packet file wire fd peer : good w -> w_links w !! p = Some ln -> l_wire ln = (packet, file) :: wire ->
  let l := CProServiceHost.OnRecvFd (CProServiceHost.m_pipe (l_host ln)) fd (unixSocket (s_oldSock (s2c packet))) packet peer (l_host ln) in
  good (setLog (w_accepted w) (w_offered w ++ offers file l) (setLink p (mkLink (l_pipe ln) (l_sending ln) (l_copying ln) wire (l_host ln) (l_acks ln ++ says l)) w)).
Proof.
  intros Hg Hp Hw l. apply (good_setLink w p ln); [done|done|by destruct (g_ok _ Hg _ _ Hp); split|]. intros U A HU HA. pose proof (g_ledger _ Hg) as L.
  set (ln' := mkLink _ _ _ _ _ _). assert (E : undelivered ln = (packet, Some file) :: undelivered ln') by (unfold undelivered; by rewrite Hw). rewrite E in HU.
  assert (Hs : sockId (s_oldSock (s2c packet)) <> -1).
  { intros H1. destruct (hub_ids _ (g_hub _ Hg)) as (_ & _ & Hno & _). apply Hno. rewrite <- H1. apply list_elem_of_fmap_2.
    apply (ld_pending _ _ _ _ _ _ _ L). apply elem_of_app. left. rewrite HU. left. }
  assert (Ea : answers ln' = answers ln ++ answersIn (says l)) by (unfold answers; cbn; apply answersIn_app).
  destruct (RecvFd_ok (l_host ln) fd packet file peer Hs) as [[E1 E2]|[E1 E2]]; fold l in E1, E2; rewrite Ea, E1, E2, ?app_nil_r.
  - apply (ledger_drop L [(packet, Some file)] []); [done|by rewrite HA].
  - apply (ledger_perm (ledger_offer L packet file (undelivered ln' ++ U) HU)); [done|done|]. rewrite HA. rewrite <- (assoc_L (++)). apply Permutation_middle.
Qed.

Lemma hello_good w p ln h l id tick : good w -> w_links w !! p = Some ln -> CProServiceHost.OnTimer id tick 0 (l_host ln) = (h, l) ->
  good (setLink p (mkLink (l_pipe ln) (l_sending ln) (l_copying ln) (l_wire ln) h (l_acks ln ++ says l)) w).
Proof.
  intros Hg Hp E. rewrite <- (setLog_same (setLink _ _ _)). assert (Hl : answersIn (says l) = []).
  { revert E. unfold CProServiceHost.OnTimer. destruct (_ =? _); [by intros [= <- <-]|]. destruct (negb _); [by intros [= <- <-]|]. destruct (negb _); [by intros [= <- <-]|].
    destruct (_ && _ && _); [by intros [= <- <-]|]. destruct (negb _); by intros [= <- <-]. }
  apply (good_setLink w p ln); [done|done|by destruct (g_ok _ Hg _ _ Hp); split|]. intros U A HU HA.
  apply (ledger_perm (g_ledger _ Hg)); [done|by rewrite HU|]. rewrite HA. unfold answers. cbn. by rewrite answersIn_app, Hl, app_nil_r.
Qed.

(** *** Events of the hub *)

Lemma foldl_closes gone : forall rest w, -1 ∉ sockId <$> gone ->
  ledger (gone ++ rest) (w_files w) (total undelivered (w_links w)) (total answers (w_links w)) (w_accepted w) (w_offered w) (w_closed w) ->
  (forall ss, ss ∈ gone -> ss ∉ transit (w_links w)) ->
  exists files closed, foldl hubEffect w (CProServiceHub.closeAll gone) = setFiles files closed w /\
    ledger rest files (total undelivered (w_links w)) (total answers (w_links w)) (w_accepted w) (w_offered w) closed.
Proof.
  induction gone as [|ss gone IH]; intros rest w Hno L Hfree.
  { exists (w_files w), (w_closed w). split; [by destruct w|done]. }
  apply not_elem_of_cons in Hno as [Hn Hno]. unfold CProServiceHub.closeAll. cbn [fmap list_fmap concat].
  unfold CProServiceHub.closeSock. rewrite (proj2 (Z.eqb_neq _ _)) by done. cbn [app foldl hubEffect].
  set (w1 := setFiles _ _ w). destruct (IH rest w1 Hno) as (files & closed & E & L').
  - apply (ledger_close L ss); [done|]. apply Hfree. left.
  - intros x Hx. apply Hfree. by right.
  - exists files, closed. split; [exact E|exact L'].
Qed.
Lemma foldl_deletes ps : forall w, foldl hubEffect w (CProServiceHub.DeletePipe <$> ps) = setLinks (foldl (fun m p => delete p m) (w_links w) ps) w.
Proof.
  induction ps as [|p ps IH]; intros w; cbn [fmap list_fmap foldl hubEffect]; [by destruct w|]. rewrite IH. done.
Qed.
Lemma foldl_delete_lookup (m : gmap Z link) ps q : foldl (fun m p => delete p m) m ps !! q = if decide (q ∈ ps) then None else m !! q.
Proof.
  revert m. induction ps as [|p ps IH]; intros m; cbn [foldl]; [rewrite decide_False; [done|apply not_elem_of_nil]|]. rewrite IH.
  destruct (decide (q ∈ ps)) as [Hq|Hq]; [by rewrite decide_True by (by right)|].
  destruct (decide (q = p)) as [->|Hn]; [rewrite lookup_delete_eq; by rewrite decide_True by left|].
  rewrite lookup_delete_ne by done. rewrite decide_False; [done|]. by intros [?|?]%elem_of_cons.
Qed.

(** Pipes go, with what is under way on them. *)
Lemma good_deletes w h files closed ps : good w -> hub_ok h -> pipes (w_hub w) ≡ₚ ps ++ pipes h ->
  ledger (m_expireSocks h) files (total undelivered (w_links w)) (total answers (w_links w)) (w_accepted w) (w_offered w) closed ->
  good (setLinks (foldl (fun m p => delete p m) (w_links w) ps) (setFiles files closed (setHub h w))).
Proof.
  intros Hg Hh Hp L. destruct (total_deleteAll undelivered (w_links w) ps) as [U1 HU]. destruct (total_deleteAll answers (w_links w) ps) as [A1 HA].
  split; cbn [w_hub w_links w_files w_accepted w_offered w_closed setFiles setHub setLinks]; [done| | |by apply (ledger_drop L U1 A1)].
  - intros q. rewrite foldl_delete_lookup. pose proof (g_links _ Hg q) as Hq. destruct (hub_ids _ (g_hub _ Hg)) as (_ & _ & _ & Hnd). rewrite Hp in Hq, Hnd.
    apply NoDup_app in Hnd as (_ & Hd & _). destruct (decide (q ∈ ps)) as [Hin|Hin].
    + split; [by intros [? ?]|]. intros H. by destruct (Hd q Hin).
    + rewrite Hq, elem_of_app. tauto.
  - intros q ln. rewrite foldl_delete_lookup. destruct (decide _); [done|]. apply Hg.
Qed.

Lemma timer_good w tick : good w -> Forall (fun ss => tick < expireTick ss) (transit (w_links w)) -> good (hubDoes (CProServiceHub.OnTimer 1 tick (w_hub w)) w).
Proof.
  intros Hg Hpat. set (h := w_hub w). destruct (CProServiceHub.OnTimer 1 tick h) as [h' l] eqn:E. unfold hubDoes. cbn [fst snd].
  pose proof (g_hub _ Hg) as Hh. pose proof Hh as ((cs & l0 & [I1 I2 I3 _ _ _ _]) & R1 & R2 & R3). pose proof (hub_ids _ Hh) as (_ & _ & Hno & _). pose proof E as E0.
  revert E. unfold CProServiceHub.OnTimer. fold h in R1, R2, R3, I1, I2, I3, Hno |- *. rewrite (hub_ready h Hh), R3. cbn [negb Z.eqb Pos.eqb].
  destruct (HubRuns.expireLoop_ok tick (m_expireSocks h) I2 Hno) as (gone & rest & -> & Es & Hgone & _). unfold CProServiceHub.pipeLoop.
  destruct (HubRuns.pipeLoop_ok tick (m_allPipes h) (CProServiceHub.setSocks rest h) [] I1) as (s2 & ps & dead & -> & H1 & H2 & H3 & _ & H4 & H5 & H6 & H7);
    [done|by apply (stl_sorted_NoDup (m_allPipes h)), I1|by intros p ?%not_elem_of_nil|]. intros [= <- <-]. rewrite app_nil_r in H3.
  destruct (hub_step (HubRuns.CTimer 1 tick) h s2 _ Hh I E0) as [Hh2 _]; [by rewrite H4|by rewrite H5|by rewrite H6|].
  rewrite Es, fmap_app in Hno. apply not_elem_of_app in Hno as [Hno1 Hno2]. rewrite foldl_app.
  destruct (foldl_closes gone rest (setHub s2 w) Hno1) as (files & closed & -> & L).
  - cbn. rewrite <- Es. apply Hg.
  - intros ss Hss Hin. apply (proj1 (Forall_forall _ _) Hgone) in Hss. cbn in Hin. apply (proj1 (Forall_forall _ _) Hpat) in Hin. lia.
  - rewrite foldl_deletes. apply (good_deletes w s2); [done|done| |by rewrite H7].
    unfold pipes. rewrite H3. cbn [m_allPipes CProServiceHub.setSocks] in H2. fold h. by rewrite H2, fmap_app.
Qed.

Lemma close_good w p : good w -> p ∈ pipes (w_hub w) -> good (hubDoes (CProServiceHub.OnClose p (w_hub w)) w).
Proof.
  intros Hg Hp. set (h := w_hub w) in *. destruct (CProServiceHub.OnClose p h) as [h' l] eqn:E. unfold hubDoes. cbn [fst snd].
  pose proof (g_hub _ Hg) as Hh. pose proof Hh as ((cs & l0 & [I1 I2 I3 _ _ _ _]) & R1 & R2 & R3). pose proof E as E0. fold h in R1, R2, R3, I1, I2, I3, Hh.
  revert E. unfold CProServiceHub.OnClose. destruct (Z.eqb_spec p 0) as [->|Hp0].
  { intros [= <- <-]. cbn. by destruct w. }
  rewrite (hub_ready h Hh). cbn [negb]. apply list_elem_of_fmap in Hp as (sp & -> & Hsp). pose proof (stl_sorted_find_elem _ sp (HubRuns.rg_all _ _ I1) Hsp) as Hf.
  change (stl_key sp) with (pipe sp) in Hf. rewrite Hf. intros [= <- <-]. destruct (HubRuns.removePipe_ok h sp I1 Hsp) as (H1 & _ & H2 & H3 & H4 & H5 & H6).
  destruct (hub_step (HubRuns.CClose (pipe sp)) h _ _ Hh I E0) as [Hh2 _]; [by rewrite H3|by rewrite H4|by rewrite H5|].
  change [CProServiceHub.DeletePipe (pipe sp)] with (CProServiceHub.DeletePipe <$> [pipe sp]). rewrite foldl_deletes.
  pose proof (good_deletes w (CProServiceHub.removePipe sp h) (w_files w) (w_closed w) [pipe sp] Hg Hh2) as G. apply G.
  - unfold pipes. fold h. by rewrite H2.
  - rewrite H6. apply Hg.
Qed.

(** The hub's state changes, and nothing else. *)
Lemma good_setHub w h : good w -> hub_ok h -> pipes h ≡ₚ pipes (w_hub w) -> m_expireSocks h = m_expireSocks (w_hub w) -> good (setHub h w).
Proof.
  intros [G1 G2 G3 G4] Hh Hp Hs. split; cbn [w_hub w_links w_files w_accepted w_offered w_closed setHub]; [done| |done|by rewrite Hs].
  intros q. by rewrite G2, Hp.
Qed.

(** An answer either says nothing of a socket, or closes the one that it names. *)
Lemma hub_Recv_shape h p packet tick h' l : CProServiceHub.OnRecv p packet tick h = (h', l) ->
  CProServiceHub.m_reactor h' = CProServiceHub.m_reactor h /\ CProServiceHub.m_acceptor h' = CProServiceHub.m_acceptor h /\
  CProServiceHub.m_timerId h' = CProServiceHub.m_timerId h /\ HubRuns.madePipes l = [] /\ HubRuns.gonePipes l = [] /\
  (l = [] /\ m_expireSocks h' = m_expireSocks h \/
   let o := c_oldSock (c2s packet) in sockId o <> -1 /\ l = [CProServiceHub.CloseSock (sockId o) true] /\ m_expireSocks h' = stl_erase (stl_key o) (m_expireSocks h)).
Proof.
  unfold CProServiceHub.OnRecv. assert (H0 : CProServiceHub.m_reactor h = CProServiceHub.m_reactor h /\ CProServiceHub.m_acceptor h = CProServiceHub.m_acceptor h /\
    CProServiceHub.m_timerId h = CProServiceHub.m_timerId h /\ HubRuns.madePipes [] = [] /\ HubRuns.gonePipes [] = [] /\
    (@nil CProServiceHub.effect = [] /\ m_expireSocks h = m_expireSocks h \/
     let o := c_oldSock (c2s packet) in sockId o <> -1 /\ [] = [CProServiceHub.CloseSock (sockId o) true] /\ m_expireSocks h = stl_erase (stl_key o) (m_expireSocks h))) by (split_and!; try done; by left).
  destruct (_ || _); [by intros [= <- <-]|]. destruct (negb _); [by intros [= <- <-]|]. destruct (stl_find p _) as [sp|]; [|by intros [= <- <-]].
  destruct (CProServiceHub.pending sp).
  - destruct (bool_decide _); [by intros [= <- <-]|]. intros [= <- <-]. split_and!; try done. by left.
  - destruct (_ || _); [by intros [= <- <-]|]. destruct (Z.eqb_spec (sockId (c_oldSock (c2s packet))) (-1)) as [E|E]; intros [= <- <-]; split_and!; try done; [by left|]. by right.
Qed.

Lemma ack_good w p ln packet acks tick : good w -> w_links w !! p = Some ln -> l_acks ln = packet :: acks ->
  good (hubDoes (CProServiceHub.OnRecv p packet tick (w_hub w)) (setLink p (mkLink (l_pipe ln) (l_sending ln) (l_copying ln) (l_wire ln) (l_host ln) acks) w)).
Proof.
  intros Hg Hp Ha. set (ln' := mkLink _ _ _ _ _ _). set (h := w_hub w). set (o := c_oldSock (c2s packet)).
  assert (Eu : undelivered ln' = undelivered ln) by done.
  assert (Ea : answers ln = (if sockId o =? -1 then [] else [o]) ++ answers ln') by (unfold answers; rewrite Ha; cbn; fold o; by destruct (_ =? _)).
  assert (Hg1 : good (setLink p ln' w)).
  { rewrite <- (setLog_same (setLink _ _ _)). apply (good_setLink w p ln); [done|done|by destruct (g_ok _ Hg _ _ Hp); split|]. intros U A HU HA.
    apply (ledger_drop (g_ledger _ Hg) [] (if sockId o =? -1 then [] else [o])); [by rewrite HU|]. by rewrite HA, Ea, (assoc_L (++)). }
  destruct (CProServiceHub.OnRecv p packet tick h) as [h' l] eqn:E. destruct (hub_Recv_shape h p packet tick h' l E) as (R1 & R2 & R3 & M1 & M2 & Hcase).
  pose proof (g_hub _ Hg) as Hh. pose proof Hh as (_ & S1 & S2 & S3). fold h in S1, S2, S3, Hh.
  destruct (hub_step (HubRuns.CRecv p packet tick) h h' l Hh I E) as [Hh' Hpipes]; [by rewrite R1|by rewrite R2|by rewrite R3|]. rewrite M1, M2 in Hpipes. cbn [app] in Hpipes.
  unfold hubDoes. cbn [fst snd]. destruct Hcase as [[-> Es]|(Hs & -> & Es)].
  - cbn [foldl]. by apply (good_setHub (setLink p ln' w) h').
  - fold o in Hs, Es |- *. cbn [foldl hubEffect]. rewrite (proj2 (Z.eqb_neq _ _) Hs) in Ea.
    pose proof (g_ledger _ Hg) as L. pose proof (total_delete undelivered _ _ _ Hp) as HU. pose proof (total_delete answers _ _ _ Hp) as HA. rewrite Ea in HA. cbn [app] in HA.
    assert (HU' : total undelivered (<[p := ln']> (w_links w)) ≡ₚ total undelivered (w_links w)) by (rewrite HU, <- Eu; exact (total_update undelivered _ _ ln ln' Hp)).
    assert (HA' : total answers (w_links w) ≡ₚ o :: total answers (<[p := ln']> (w_links w))) by (rewrite HA; symmetry; f_equiv; exact (total_update answers _ _ ln ln' Hp)).
    assert (Hin : o ∈ m_expireSocks h) by (apply (ld_pending _ _ _ _ _ _ _ L); apply elem_of_app; right; rewrite HA'; left).
    destruct (hub_ids _ Hh) as (Hsort & _). pose proof (stl_sorted_find_elem _ o Hsort Hin) as Hf. pose proof (stl_erase_Permutation _ _ _ Hf) as Hperm.
    assert (Hno : o ∉ (old <$> total undelivered (<[p := ln']> (w_links w))) ++ total answers (<[p := ln']> (w_links w))).
    { pose proof (ld_once _ _ _ _ _ _ _ L) as Hnd. rewrite HA', <- HU' in Hnd. rewrite <- Permutation_middle in Hnd. by apply NoDup_cons in Hnd as [? _]. }
    split; cbn [w_hub w_links w_files w_accepted w_offered w_closed setFiles setHub setLink setLinks].
    + done.
    + intros q. rewrite <- Hpipes. apply (g_links _ Hg1 q).
    + apply Hg1.
    + rewrite Es. apply (ledger_close (g_ledger _ Hg1) o); [by cbn; fold h|done].
Qed.

(** What the tables do not have, the hub does not have. *)
Lemma fresh_socket w k : good w -> w_files w !! k = None -> k ∉ sockId <$> m_expireSocks (w_hub w).
Proof. intros Hg E Hk. apply (ld_files _ _ _ _ _ _ _ (g_ledger _ Hg)) in Hk as [? ?]. congruence. Qed.
Lemma fresh_pipe w p : good w -> w_links w !! p = None -> p ∉ pipes (w_hub w).
Proof. intros Hg E Hp. apply (g_links _ Hg) in Hp as [? ?]. congruence. Qed.

(** A host connects. *)
Lemma connect_good w p k hostPipe serviceId tick h acks : good w -> p <> 0 -> k <> -1 -> hostPipe <> 0 -> serviceId <> 0 ->
  w_links w !! p = None -> w_files w !! k = None -> newHost hostPipe serviceId = (h, acks) ->
  good (setLink p (mkLink (CProServicePipe.mkPipe true 1 [] []) None false [] h acks) (hubDoes (CProServiceHub.OnAccept 1 k true true 0 0 0 p tick (w_hub w)) w)).
Proof.
  intros Hg Hp0 Hk Hhp Hid Hp Hkf Hn. set (hub := w_hub w). pose proof (g_hub _ Hg) as Hh. pose proof Hh as (_ & S1 & S2 & S3). fold hub in S1, S2, S3, Hh.
  assert (Hacks : answersIn acks = []).
  { revert Hn. unfold newHost. cbn [HostRuns.run HostRuns.exec]. unfold CProServiceHost.Init. rewrite (proj2 (Z.eqb_neq _ _) Hid). cbn.
    rewrite (proj2 (Z.eqb_neq _ _) Hhp). by intros [= <- <-]. }
  destruct (CProServiceHub.OnAccept 1 k true true 0 0 0 p tick hub) as [hub' l] eqn:E. pose proof E as E0. revert E.
  unfold CProServiceHub.OnAccept, CProServiceHub.OnAcceptIpc. rewrite (proj2 (Z.eqb_neq _ _) Hk), (hub_ready _ Hh), (proj2 (Z.eqb_neq _ _) Hp0). cbn [orb negb Z.eqb Pos.eqb].
  intros [= <- <-].
  assert (Hno : p ∉ pipes hub) by by apply fresh_pipe.
  assert (Hnk : k ∉ sockId <$> m_expireSocks hub) by by apply fresh_socket.
  destruct (hub_step (HubRuns.CAccept 1 k true true 0 0 0 p tick) hub _ _ Hh (conj (or_intror Hno) Hnk) E0) as [Hh' Hpp]; try done.
  unfold HubRuns.madePipes, HubRuns.gonePipes in Hpp. cbn in Hpp. rewrite (proj2 (Z.eqb_neq _ _) Hp0) in Hpp. cbn in Hpp.
  unfold hubDoes. cbn [fst snd foldl hubEffect]. split; cbn [w_hub w_links w_files w_accepted w_offered w_closed setHub setLink setLinks].
  - done.
  - intros q. rewrite lookup_insert_is_Some, (g_links _ Hg), <- Hpp, elem_of_cons. fold hub. destruct (decide (p = q)) as [->|Hn2]; [by split; intros _; left|].
    split; [intros [?|[_ ?]]; [done|by right]|intros [?|?]; [done|by right]].
  - intros q ln. destruct (decide (q = p)) as [->|Hn2]; [rewrite lookup_insert_eq; intros [= <-]; by split|rewrite lookup_insert_ne by done; apply Hg].
  - eapply ledger_perm; [apply (g_ledger _ Hg)|done| |]; symmetry; rewrite total_insert by done; [done|].
    change (answers (mkLink _ _ _ _ _ acks)) with (answersIn acks). by rewrite Hacks.
Qed.

(** A connection comes in. *)
Lemma accept_good w k file unix id opt nonce tick : good w -> k <> -1 -> id <> 0 -> w_files w !! k = None -> file ∉ fileOf <$> w_accepted w ->
  good (hubDoes (CProServiceHub.OnAccept 1 k unix true id opt nonce 0 tick (w_hub w))
    (setLog (w_accepted w ++ [(file, unix, id, opt, nonce)]) (w_offered w) (setFiles (<[k := file]> (w_files w)) (w_closed w) w))).
Proof.
  intros Hg Hk Hid Hkf Hfile. set (hub := w_hub w). pose proof (g_hub _ Hg) as Hh. pose proof Hh as ((cs & l0 & [I1 I2 I3 _ _ _ _]) & S1 & S2 & S3). fold hub in S1, S2, S3, Hh, I1, I2, I3.
  pose proof (g_ledger _ Hg) as L. fold hub in L. set (c := (file, unix, id, opt, nonce)).
  assert (Hnk : k ∉ sockId <$> m_expireSocks hub) by by apply fresh_socket.
  destruct (CProServiceHub.OnAccept 1 k unix true id opt nonce 0 tick hub) as [hub' l] eqn:E. pose proof E as E0. revert E.
  unfold CProServiceHub.OnAccept, CProServiceHub.OnAcceptOther. rewrite (proj2 (Z.eqb_neq _ _) Hk), (proj2 (Z.eqb_neq _ _) Hid), (hub_ready _ Hh). cbn [orb negb Z.eqb Pos.eqb].
  destruct (stl_find id (CProServiceHub.m_serviceId2Pipe hub)) as [[id' sp]|] eqn:Ef.
  - intros [= <- <-]. set (ss := mkSock _ k unix). set (packet := packetOf c2s0 (mkS2c id opt nonce ss)).
    apply stl_find_Some_elem in Ef as [Hin Eid]. change (stl_key (id', sp)) with id' in Eid. subst id'.
    destruct (HubRuns.rg_registered _ _ I1 id sp Hin) as (_ & sp' & Hsp & Epipe & _).
    destruct (proj2 (g_links _ Hg (pipe sp))) as [ln Hln]; [rewrite <- Epipe; by apply list_elem_of_fmap_2|].
    destruct (sendOn_ok packet ln (g_ok _ Hg _ _ Hln) eq_refl Hk) as (O1 & O2 & O3).
    assert (Hf : stl_find (stl_key ss) (m_expireSocks hub) = None).
    { destruct (stl_find (stl_key ss) (m_expireSocks hub)) as [y|] eqn:Ey; [|done]. apply stl_find_Some_elem in Ey as [Hy Ey]. change (stl_key ss) with (tick + 5 * 1000, k) in Ey.
      change (stl_key y) with (expireTick y, sockId y) in Ey. injection Ey as _ Ey. destruct Hnk. rewrite <- Ey. by apply list_elem_of_fmap_2. }
    pose proof (stl_insert_Permutation ss (m_expireSocks hub) Hf) as Hperm.
    destruct (hub_step (HubRuns.CAccept 1 k unix true id opt nonce 0 tick) hub _ _ Hh (conj (or_introl eq_refl) Hnk) E0) as [Hm _]; try done.
    unfold hubDoes. cbn [fst snd foldl hubEffect].
    assert (Hal : alter (sendOn packet) (pipe sp) (w_links w) = <[pipe sp := sendOn packet ln]> (w_links w)).
    { apply map_eq. intros q. destruct (decide (q = pipe sp)) as [->|Hn]; [by rewrite lookup_alter_eq, lookup_insert_eq, Hln|by rewrite lookup_alter_ne, lookup_insert_ne]. }
    split; cbn [w_hub w_links w_files w_accepted w_offered w_closed setHub setLinks setFiles setLog]; rewrite ?Hal.
    + done.
    + intros q. change (pipes (CProServiceHub.setSocks _ hub)) with (pipes (w_hub w)). rewrite <- (g_links _ Hg q). destruct (decide (q = pipe sp)) as [->|Hn]; [by rewrite lookup_insert_eq, Hln; split; intros _; eexists|by rewrite lookup_insert_ne].
    + intros q x. destruct (decide (q = pipe sp)) as [->|Hn]; [rewrite lookup_insert_eq; by intros [= <-]|rewrite lookup_insert_ne by done; apply Hg].
    + eapply ledger_perm; [eapply (ledger_accept L ss file packet); [done|done|done|exact Hperm]|done| |].
      * rewrite (total_update undelivered _ _ _ _ Hln), O2, (total_delete undelivered _ _ _ Hln). done.
      * rewrite (total_update answers _ _ _ _ Hln), O3, <- (total_delete answers _ _ _ Hln). done.
  - intros [= <- <-]. unfold CProServiceHub.closeSock. rewrite (proj2 (Z.eqb_neq _ _) Hk). unfold hubDoes. cbn [fst snd foldl hubEffect].
    split; cbn [w_hub w_links w_files w_accepted w_offered w_closed setHub setLinks setFiles setLog]; try apply Hg. by apply (ledger_refuse L c k).
Qed.

(** *** The start, and every event *)

Lemma start_good : good start.
Proof.
  assert (Hh : hub_ok (w_hub start)).
  { split; [|done]. exists [HubRuns.CInit 3000 0 1 1], [CProServiceHub.CreateAcceptor 1 3000 0; CProServiceHub.ScheduleTimer 1].
    apply (HubRuns.hub_inv false). by eapply (HubRuns.reach_call false CProServiceHub.construct [] []); [constructor| | |]. }
  split; [done|intros p; split; [by intros [ln H]|by intros ?%not_elem_of_nil]|by intros p ln|].
  change (ledger [] ∅ [] [] [] [] []). split; try (by constructor).
  - intros k. split; [by intros [f H]|by intros ?%not_elem_of_nil].
  - by intros ss ?%not_elem_of_nil.
  - by intros x ?%not_elem_of_nil.
  - by exists [].
  - split; [constructor|]. by intros c ?%not_elem_of_nil.
Qed.

Lemma link_pipe w p ln : good w -> w_links w !! p = Some ln -> p ∈ pipes (w_hub w).
Proof. intros Hg Hp. apply (g_links _ Hg). by eexists. Qed.
Lemma none_of {A} (o : option A) : bool_decide (is_Some o) = false -> o = None.
Proof. intros H%bool_decide_eq_false. by apply eq_None_not_Some. Qed.

Lemma exec_good w e w' : good w -> patient e w -> exec e w = Some w' -> good w'.
Proof.
  intros Hg Hpat. destruct e as [p k hostPipe serviceId tick|k file unix serviceId serviceOpt nonce tick|p|p|p fd peer|p tick|p tick|tick|p]; cbn [exec].
  - destruct (_ || _) eqn:E; [done|]. destruct (newHost hostPipe serviceId) as [h acks] eqn:En. intros [= <-].
    rewrite !orb_false_iff, !Z.eqb_neq in E.
    destruct E as [[[[[E1 E2] E3] E4] E5%none_of] E6%none_of]. by apply (connect_good w p k hostPipe serviceId).
  - destruct (_ || _) eqn:E; [done|]. intros [= <-]. rewrite !orb_false_iff, !Z.eqb_neq in E.
    destruct E as [[[E1 E2] E3%none_of] E4%bool_decide_eq_false]. by apply accept_good.
  - destruct (w_links w !! p) as [ln|] eqn:El; [|done]. cbn [mbind option_bind]. destruct (l_sending ln) as [packet|] eqn:Es; [|done]. cbn [mbind option_bind].
    destruct (w_files w !! _) as [file|] eqn:Ef; intros [= <-]; [by eapply transmit_good|]. apply close_good; [done|by eapply link_pipe].
  - destruct (w_links w !! p) as [ln|] eqn:El; [|done]. cbn [mbind option_bind]. destruct (l_copying ln) eqn:Ec; [|done]. cbn [negb].
    destruct (CProServicePipe.OnSend _ _ _ _) as [pipe l] eqn:E. intros [= <-]. by eapply sent_good.
  - destruct (w_links w !! p) as [ln|] eqn:El; [|done]. cbn [mbind option_bind]. destruct (l_wire ln) as [|[packet file] wire] eqn:Ew; [done|].
    destruct (fd =? -1); [done|]. intros [= <-]. by eapply deliver_good.
  - destruct (w_links w !! p) as [ln|] eqn:El; [|done]. cbn [mbind option_bind]. destruct (CProServiceHost.OnTimer _ _ _ _) as [h l] eqn:E. intros [= <-]. by eapply hello_good.
  - destruct (w_links w !! p) as [ln|] eqn:El; [|done]. cbn [mbind option_bind]. destruct (l_acks ln) as [|packet acks] eqn:Ea; [done|]. intros [= <-]. by eapply ack_good.
  - intros [= <-]. by apply timer_good.
  - destruct (w_links w !! p) as [ln|] eqn:El; [|done]. cbn [mbind option_bind]. intros [= <-]. apply close_good; [done|by eapply link_pipe].
Qed.

Lemma reachable_good w : reachable w -> good w.
Proof. induction 1 as [|w e w' _ IH Hp E]; [apply start_good|by eapply exec_good]. Qed.
End SystemProofs.

(** ** The system as a whole *)

Module SystemTheorems.
Import ServicePackets ServiceSystem ServiceLedger SystemProofs.
Import CProServiceHub (m_expireSocks).

(** C16: A connection reaches the host of its service, and no other.  In any run of the
    system - hosts come and go, transports are slow, pipes break - in which no socket expires
    while it is under way, every connection that a host offers has been accepted, and the
    host hears of it what the acceptor has said: its kind, service, option and nonce; none is
    offered twice.  The hub closes every descriptor once and never a number that is free: the
    accepted connections are those that it has closed and those in its table, and the table
    holds exactly the numbers that [m_expireSocks] remembers. *)
Theorem sockets_delivered w : reachable w ->
  (forall c, c ∈ w_offered w -> c ∈ w_accepted w) /\ NoDup (fileOf <$> w_offered w) /\ NoDup (fileOf <$> w_accepted w) /\
  (exists closed, w_closed w = Some <$> closed /\ fileOf <$> w_accepted w ≡ₚ closed ++ (map_to_list (w_files w)).*2) /\
  (forall k, is_Some (w_files w !! k) <-> k ∈ sockId <$> m_expireSocks (w_hub w)).
Proof. intros H%reachable_good. destruct (g_ledger _ H) as [L1 L2 L3 L4 L5 L6 L7 [L8 L9]]. by split_and!. Qed.

(** Runs whose sockets can be seen to arrive in time. *)
#[local] Instance patient_decision e w : Decision (patient e w).
Proof. destruct e; apply _. Defined.
Fixpoint patientRun (es : list event) (w : world) : bool :=
  match es with
  | [] => true
  | e :: es => bool_decide (patient e w) && (if exec e w is Some w' then patientRun es w' else false)
  end.
Lemma patientRun_reachable es : forall w w', reachable w -> patientRun es w = true -> run es w = Some w' -> reachable w'.
Proof.
  induction es as [|e es IH]; intros w w' Hr; cbn [patientRun run]; [by intros _ [= <-]|].
  intros [Hp%bool_decide_eq_true Hes]%andb_true_iff. destruct (exec e w) as [w1|] eqn:E; [|done]. cbn [mbind option_bind].
  apply IH; [by eapply reach_event|done].
Qed.

(** Two hosts; two connections for the first, of which one is offered and answered, and one
    for a service that nobody has. *)
Definition hosts : list event := [EConnect 20 30 8 11 0; EAck 20 0; EConnect 21 31 9 12 0; EAck 21 0].
Definition delivery : list event := hosts ++
  [EAccept 40 100 false 11 0 501 1000; EAccept 41 101 false 11 0 502 1000; EAccept 42 103 false 13 0 503 1000;
   ETransmit 20; ESent 20; ETransmit 20; EDeliver 20 70 (Some ([], 0)); EAck 20 1500; ETimer 2000].
Definition delivered : world := default start (run delivery start).

Lemma sockets_delivered_witness : w_offered delivered = [(100, false, 11, 0, 501)] /\ w_closed delivered = [Some 103; Some 100] /\
  map_to_list (w_files delivered) = [(41, 101)] /\ forall c, c ∈ w_offered delivered -> c ∈ w_accepted delivered.
Proof.
  split; [vm_compute; reflexivity|]. split; [vm_compute; reflexivity|]. split; [vm_compute; reflexivity|].
  refine (proj1 (sockets_delivered delivered _)). apply (patientRun_reachable delivery start); [constructor|vm_compute; reflexivity|vm_compute; reflexivity].
Defined.

(** A descriptor that expires while its packet waits for the transport, and an answer that
    comes after the socket has expired. *)
Definition stale : list event := hosts ++
  [EAccept 40 100 false 11 0 501 1000; EAccept 41 101 false 11 0 502 1000; EHello 20 5000; EAck 20 5000; EHello 21 5000; EAck 21 5000;
   ETransmit 20; ETimer 6000; EAccept 41 102 false 12 0 503 6001; ESent 20; ETransmit 20; EDeliver 20 70 (Some ([], 0)); EDeliver 20 71 (Some ([], 0))].
Definition late : list event := hosts ++
  [EAccept 40 100 false 11 0 501 1000; ETransmit 20; EDeliver 20 70 (Some ([], 0)); ETimer 6000; EAccept 40 102 false 12 0 503 6001; EAck 20 6002; ETransmit 21].

End SystemTheorems.
